(* ===== verification/_CoqProject ===== *)
-Q . S2P
Prelude.v
Tokens.v
Syntax.v
ToIr.v
ToIrProofs.v
ToIrTotal.v
FromIr.v
FromIrProofs.v
Verif.v
VerifProofs.v
Instrs.v
X86.v
ToAsm.v
InstrsProofs.v
X86Proofs.v
EmitProofs.v
OpProofs.v
MemProofs.v
FrameProofs.v
LayoutProofs.v
TargetProofs.v
ControlProofs.v
KString.v
Ulib.v
KStringProofs.v
Spinlock.v
Kalloc.v
Pipe.v
Bio.v
BioProofs.v
State.v
Log.v
LogProofs.v
CrashProofs.v
Transact.v
Fs.v
FsBase.v
FsAlloc.v
FsFile.v
FsData.v
FsInode.v
FsOps.v
Grep.v
Umalloc.v
UmallocProofs.v
Vm.v
VmBase.v
VmSpace.v
VmFork.v
VmBytes.v
VmSystem.v
Proc.v
ProcInv.v
ProcSystem.v
Kernel.v
Sysfile.v
Sysproc.v
FileProofs.v
SysProofs.v
SysCalls.v
SysArgs.v
User.v
Printf.v
Sh.v
ShSpec.v
ShProofs.v
ShParse.v
ShCmd.v
ShRun.v
Console.v
Kbd.v
ConsoleScreen.v
ConsoleProofs.v
Cprintf.v
Progs.v
Mkfs.v
MkfsProofs.v
MkfsImage.v
FsDir.v
FsNamei.v
