(* ===== verification/Prelude.v ===== *)
(** * Verification of xv6-sume32

    xv6-sume32 is the teaching kernel xv6 with a tool chain for SUME32, a typed
    stack language: an assembler from text ([.umt]) to a binary form ([.umb]), a
    verifier of the binary form, and a compiler from it to 32-bit x86 code, which
    a user program asks the kernel to map as executable.  This development models
    the tool chain and the parts of the kernel and of the user library below it,
    function by function, and proves what each part promises to the next.

    ** Parts of the program and files of the development

    Shared: [Prelude] (this file) has the outcomes of C code, 32-bit integers,
    C arrays and their lemmas; [State] a state and error monad with triples.

    The SUME32 tool chain:
    - sume_tokens.h, sume_strs.h: [Tokens].  [Syntax] is the language as a
      specification: programs, their encoding, the texts that denote them.
    - to_ir.c, dyn_arr.c (text to binary): [ToIr]; [ToIrProofs], [ToIrTotal].
    - from_ir.c, populate_fns.c (readers of the binary form): [FromIr];
      [FromIrProofs].
    - verif.c (the verifier): [Verif]; [VerifProofs].
    - instrs.c (x86 encoders): [Instrs]; [InstrsProofs].
    - to_asm.c (the code generator): [ToAsm]; [EmitProofs] (what the emission
      primitives write), [OpProofs] (operators), [MemProofs] (loads and stores),
      [FrameProofs] (constants and variables), [LayoutProofs] and [TargetProofs]
      (the two passes), [ControlProofs] (branches, calls, returns).
    - [X86] and [X86Proofs] model no code: they are the machine the generated
      code runs on, decoder and execution, after the architecture manual.

    The kernel:
    - string.c and stosb, stosl of x86.h: [KString]; [KStringProofs].
    - spinlock.c with xchg of x86.h and struct cpu of proc.h: [Spinlock].
    - kalloc.c: [Kalloc].  pipe.c: [Pipe].
    - bio.c, sleeplock.c, memide.c (buffer cache over the memory disk): [Bio];
      [BioProofs].
    - log.c: [Log]; [LogProofs], [CrashProofs], [Transact].
    - fs.c: [Fs]; [FsBase] (block operations inside a transaction), [FsAlloc]
      (the bitmap), [FsFile] (the address tree of an inode), [FsData] (bmap,
      readi, writei), [FsInode] (inodes on the disk), [FsOps] (files), [FsDir]
      (directories), [FsNamei] (path names).
    - vm.c: [Vm]; [VmBase] (page tables), [VmSpace] and [VmFork] (address spaces),
      [VmBytes] (bytes copied into them), [VmSystem] (all processes together).
    - proc.c as operations on the process table by several CPUs: [Proc]; [ProcInv]
      (the invariant of the table), [ProcSystem] (the CPUs that interleave).
    - The kernel as the process that makes a system call sees it: [Kernel] joins the
      file system, memory, the open files (file.c), the pipes and the process table,
      and has the arguments of system calls (syscall.c); [Sysfile] is sysfile.c;
      [Sysproc] is sysproc.c, exec.c, the parts of proc.c that work on memory and
      files, and the table of syscall.c.  [FileProofs] (references to open files),
      [SysProofs] and [SysCalls] (every system call), [SysArgs] (arguments).

    - console.c and uart.c: [Console]; kbd.c: [Kbd].  [ConsoleScreen] (the screen
      as a terminal), [ConsoleProofs] (the line editor and the readers),
      [Cprintf] (what cprintf prints).

    User programs: ulib.c in [Ulib]; grep.c in [Grep]; umalloc.c in [Umalloc];
    [UmallocProofs].  [User] has programs as trees of system calls, and gets and
    stat of ulib.c; printf.c is [Printf], with its specification; sh.c is [Sh].
    [ShSpec] is the grammar of the shell with a reference parser, [ShProofs] and
    [ShParse] the simulation of the parser by it, [ShCmd] the theorem on
    parsecmd, [ShRun] the processes and descriptors that runcmd leads to.
    [Progs] has cat.c, wc.c, echo.c, kill.c, ln.c, mkdir.c, rm.c and init.c.

    On the host: mkfs.c is [Mkfs]; [MkfsProofs] (blocks and appended bytes),
    [MkfsImage] (one file among the others, and the whole image).

    ** How code is modelled

    A C function is a definition of the same name; a loop or a step of it may be
    a definition of its own, next to it.  Its result is a [res]:
    [Ok], [Err] for the error value of functions that have one, or a [Fault]:
    an access outside an object, a panic, a wait, or fuel that ran out.  An
    array is a list with checked accesses, an [int] or [uint] a [Z] with its
    wrap-around written out, a global structure a record that is passed and
    returned.  A pointer into an array is an index.  Memory whose words are
    linked by address (kalloc.c, umalloc.c) is a function from addresses to
    words.  A spin lock that is taken and given back inside a call makes the
    call one step; what the lock itself promises is proved in [Spinlock], where
    calls on several CPUs interleave.  A call that sleeps is cut where it sleeps
    ([Pipe], [Console]).  A user program is a tree whose nodes are system calls
    and whose branches are the answers of the kernel; theorems about it hold for
    every kernel, or for the files and descriptors they name.

    Each layer is used through its specification: the log sees the cache as the
    [view] of [BioProofs], the file system sees both as [fsr] of [FsBase].  A
    triple with excuses, [hoareX], lists the panics a call may end in; nothing
    else but success is possible.

    ** What is proved

    - Address spaces.  Creating, growing, shrinking, copying and freeing them,
      mapping code and stores of user programs act on the pages of one process as
      specified and on no other, and account for every page (C1).
    - Processes.  In every interleaving the process table is consistent and no
      call panics but the exit of init (C2); zombies are reaped (C32).
    - System calls.  Each of them leaves the reference counts of open files equal
      to the number of descriptors and every descriptor usable (C3); arguments are
      fetched without faults and within the memory of the process (C31).
    - Storage.  A run of transactions is durable (C4); reads and writes of files
      are reads and writes of lists of bytes (C5); a transaction is atomic across
      crashes during commit and during recovery (C6); the cache refines a map of
      block contents with pins (C28); a directory is a finite map from
      names to inodes (C7), and a path name leads through these maps to its inode (C8);
      the image that mkfs writes is a file system in the state that the operations
      of C5 assume, with the files it was given (C14).
    - Tool chain.  The verifier accepts exactly what the type system accepts (C9).
      Each encoder is decoded to the instruction it is named after (C10).  Loads
      and stores stay in the program's memory or trap (C15, C16); the bytes emitted
      for each operator, variable access, branch, call and return do on the machine
      what the instruction means (C17 - C22).  The two passes agree on every address
      (C23, C24).  The assembler translates every spelling of a program to its
      encoding, every program has one, and it stops on every input (C25 - C27).
      C39 and C40 are places where the code does not do what it means to.
    - Shell.  The parser accepts exactly the lines of the grammar and builds the
      command they denote (C11); running it starts the programs of the line with the
      arguments, redirections and pipes it asks for (C12).
    - Console.  Interrupts, reads and writes in any order act as on a terminal with
      a line editor, and no reader sleeps over a line (C13); a line typed on the
      keyboard is the line that is read (C33).
    - Allocators.  The user allocator hands out disjoint blocks and takes them back
      in every state a program can reach (C29).  Pages are free or held and never
      lost (C30).
    - Locks, pipes, strings, programs.  Mutual exclusion of spin locks under
      interleaving (C34); order of the bytes of a pipe (C35); printf prints its
      format (C36); cat and wc do not depend on how a file is read (C37); grep
      decides the language of its patterns (C38).  memmove, the components
      of paths, cprintf and others have theorems without a number.

    ** Bounds and fuel

    Loops that are not structural take fuel.  Where the loop is bounded by data
    (strings, programs, blocks, free lists) the definition computes a sufficient
    amount from it ([enough] of [Umalloc], the length of the text in [ToIr], the
    number of pages in [Kalloc]) and a theorem shows that it does not run out:
    C5, C7, C8, C14, C27, C29, C33 and C38 conclude with a result, not under the condition
    that there is one.  C3 is about the calls that return: a call that would sleep
    is [Blocked], and the panics of the file system are those of C5.  Sizes are those of the source (param.h, fs.h, mmu.h).
    C29 is about requests below 2^31 - 16 bytes in a process below 2 GB, which is
    the whole user half of the address space.  The shell parses with memory for
    twice as many commands as the line has characters (C11), and runs a command with
    fuel above the number of its node in the heap, whose parts come before it (C12).
    The number of reads and of lines that cat, wc, the main loop of the shell and
    init handle is an argument.

    ** Not modelled

    - Assembly and hardware: boot, traps, context switch (in [Proc] the choice of the
      thread that continues), the drivers of the IDE
      disk and the APICs, and the set up of the console and the UART; they consist
      of accesses to ports and registers.  The memory disk, which the file system runs on, is modelled.
    - Of proc.c the start of the log in the first forkret and procdump; of vm.c
      the loads of segment and control registers.  trap.c;
      printfmt.c, which is not compiled and includes headers that are not there.
    - A call in [Kernel], [Sysfile] and [Sysproc] runs to its end while no other
      process runs; the interleaving of calls is modelled for the process table
      ([ProcSystem]), the spin locks and the pipes.
    - Directories under change by several processes: C7 and C8 are about one process
      inside a transaction.  The removal of names is modelled ([Sysfile]), and C3 covers
      what it does to references of files, but not which names remain.
    - The tools around the tool chain (umt2umb.c, umbverif.c, umb2x86.c) and the
      remaining user programs, ls and tests: they open files and call the functions above.
    - Code with no caller (get_float, char_to_dec). *)

From stdpp Require Import base list strings.
From Stdlib Require Import ZArith Lia.
#[global] Open Scope Z_scope.

(** ** Outcomes of C code

    A C function that can fail returns [-1]: [Err].  What the C program has no
    defined behaviour for, or stops the machine, is a [Fault]: an access
    outside an object, a kernel [panic].  [Blocked] is a wait that only another
    process or CPU can end.  [OutOfFuel] is not a behaviour of
    the program: it is the answer of a loop whose fuel was too small, and the
    theorems show it never comes out. *)

Inductive fault :=
| OutOfBounds
| OutOfFuel
| Blocked
| Panic (msg : string).

Inductive res (A : Type) :=
| Ok (a : A)
| Err
| Fault (f : fault).
Arguments Ok {A} _.
Arguments Err {A}.
Arguments Fault {A} _.

#[export] Instance fault_eq_dec : EqDecision fault.
Proof. solve_decision. Defined.

#[export] Instance res_eq_dec {A} `{EqDecision A} : EqDecision (res A).
Proof. solve_decision. Defined.

#[export] Instance res_ret : MRet res := fun A a => Ok a.
#[export] Instance res_bind : MBind res := fun A B f m =>
  match m with
  | Ok a => f a
  | Err => Err
  | Fault e => Fault e
  end.

Definition is_fault {A} (m : res A) : bool :=
  match m with Fault _ => true | _ => false end.

(** [if (!b) return -1;] *)
Definition require (b : bool) : res unit := if b then Ok () else Err.

(** An access to an object that has no such element. *)
Definition checked {A} (o : option A) : res A :=
  match o with Some a => Ok a | None => Fault OutOfBounds end.

Lemma bind_Ok {A B} (m : res A) (k : A -> res B) b :
  (m ≫= k) = Ok b <-> exists a, m = Ok a /\ k a = Ok b.
Proof.
  split.
  - destruct m; cbn; intros H; try discriminate. eauto.
  - intros (a & -> & H). exact H.
Qed.

Lemma bind_Fault {A B} (m : res A) (k : A -> res B) e :
  (m ≫= k) = Fault e <->
  m = Fault e \/ exists a, m = Ok a /\ k a = Fault e.
Proof.
  split.
  - destruct m; cbn; intros H; try discriminate; [right|left]; eauto; congruence.
  - intros [->|(a & -> & H)]; [done|exact H].
Qed.

Lemma require_Ok b u : require b = Ok u <-> b = true.
Proof. destruct b, u; cbn; split; congruence. Qed.

Lemma require_no_fault b f : require b <> Fault f.
Proof. destruct b; discriminate. Qed.

Lemma checked_Ok {A} (o : option A) a : checked o = Ok a <-> o = Some a.
Proof. destruct o; cbn; split; congruence. Qed.

(** ** Machine integers *)

(** The value of a [uint] and of an [int] holding the low 32 bits of [z]; the
    value of a [char] (signed on this target) holding the byte [z]. *)
Definition u32 (z : Z) : Z := z mod 2 ^ 32.
Definition s32 (z : Z) : Z :=
  if u32 z <? 2 ^ 31 then u32 z else u32 z - 2 ^ 32.
Definition u8 (z : Z) : Z := z mod 2 ^ 8.
Definition schar (z : Z) : Z :=
  if u8 z <? 2 ^ 7 then u8 z else u8 z - 2 ^ 8.

Definition is_byte (z : Z) : Prop := 0 <= z < 256.

Lemma u32_range z : 0 <= u32 z < 2 ^ 32.
Proof. apply Z.mod_pos_bound. lia. Qed.

Lemma u8_range z : 0 <= u8 z < 2 ^ 8.
Proof. apply Z.mod_pos_bound. lia. Qed.

Lemma u32_small z : 0 <= z < 2 ^ 32 -> u32 z = z.
Proof. apply Z.mod_small. Qed.

Lemma u8_small z : is_byte z -> u8 z = z.
Proof. intros H. apply Z.mod_small. unfold is_byte in H. lia. Qed.

Lemma u32_idem z : u32 (u32 z) = u32 z.
Proof. apply u32_small, u32_range. Qed.

Lemma u32_add_l a b : u32 (u32 a + b) = u32 (a + b).
Proof. unfold u32. by rewrite Zplus_mod_idemp_l. Qed.

Lemma u32_add_inj a b c :
  0 <= b < 2 ^ 32 -> 0 <= c < 2 ^ 32 -> u32 (a + b) = u32 (a + c) -> b = c.
Proof.
  unfold u32. intros Hb Hc E. assert ((a + b - (a + c)) mod 2 ^ 32 = 0) as E2 by (by rewrite Zminus_mod, E, Z.sub_diag).
  replace (a + b - (a + c)) with (b - c) in E2 by lia. apply Z.mod_divide in E2 as [k Hk]; lia.
Qed.

Lemma s32_range z : - 2 ^ 31 <= s32 z < 2 ^ 31.
Proof.
  unfold s32. pose proof (u32_range z). destruct (Z.ltb_spec (u32 z) (2 ^ 31)); lia.
Qed.

Lemma u32_s32 z : u32 (s32 z) = u32 z.
Proof.
  unfold s32. destruct (Z.ltb_spec (u32 z) (2 ^ 31)); [apply u32_idem|].
  unfold u32 at 1. replace (u32 z - 2 ^ 32) with (u32 z + (-1) * 2 ^ 32) by lia.
  rewrite Z.mod_add by lia. apply u32_idem.
Qed.

Lemma s32_small z : - 2 ^ 31 <= z < 2 ^ 31 -> s32 z = z.
Proof.
  intros H. unfold s32. destruct (Z_lt_le_dec z 0).
  - assert (u32 z = z + 2 ^ 32) as ->.
    { unfold u32. rewrite <- (Z.mod_add z 1) by lia. apply Z.mod_small. lia. }
    destruct (Z.ltb_spec (z + 2 ^ 32) (2 ^ 31)); lia.
  - rewrite u32_small by lia. destruct (Z.ltb_spec z (2 ^ 31)); lia.
Qed.

Lemma s32_u32 z : s32 (u32 z) = s32 z.
Proof. unfold s32. by rewrite u32_idem. Qed.

Lemma u32_eq_s32 a b : u32 a = u32 b -> s32 a = s32 b.
Proof. unfold s32. by intros ->. Qed.

(** ** Little-endian bytes: what [memmove] between an [int] and a [char] array does *)

Fixpoint le_bytes (n : nat) (z : Z) : list Z :=
  match n with
  | O => []
  | S n => z mod 256 :: le_bytes n (z / 256)
  end.

Fixpoint le_value (l : list Z) : Z :=
  match l with
  | [] => 0
  | b :: l => b + 256 * le_value l
  end.

Lemma length_le_bytes n z : length (le_bytes n z) = n.
Proof. revert z. induction n; intros; cbn; auto. Qed.

Lemma le_bytes_are_bytes n z : Forall is_byte (le_bytes n z).
Proof.
  revert z. induction n; intros; cbn; constructor; auto.
  apply Z.mod_pos_bound. lia.
Qed.

Lemma le_value_bytes n z : le_value (le_bytes n z) = z mod 256 ^ Z.of_nat n.
Proof.
  revert z. induction n as [|n IH]; intros z.
  - cbn. by rewrite Z.mod_1_r.
  - cbn [le_bytes le_value]. rewrite IH.
    replace (256 ^ Z.of_nat (S n)) with (256 * 256 ^ Z.of_nat n)
      by (rewrite Nat2Z.inj_succ, Z.pow_succ_r; lia).
    rewrite Z.rem_mul_r; lia.
Qed.

Lemma le_value_range l :
  Forall is_byte l -> 0 <= le_value l < 256 ^ Z.of_nat (length l).
Proof.
  induction 1 as [|b l Hb Hl IH]; [cbn; lia|].
  cbn [le_value length]. rewrite Nat2Z.inj_succ, Z.pow_succ_r by lia.
  unfold is_byte in Hb. lia.
Qed.

Lemma le_bytes_value l : Forall is_byte l -> le_bytes (length l) (le_value l) = l.
Proof.
  induction 1 as [|b l Hb Hl IH]; [done|].
  cbn [le_value length le_bytes]. unfold is_byte in Hb.
  replace (b + 256 * le_value l) with (b + le_value l * 256) by lia.
  rewrite Z.mod_add, Z.div_add, Z.mod_small, Z.div_small by lia.
  by rewrite Z.add_0_l, IH.
Qed.

Lemma le_value_u32 z : le_value (le_bytes 4 z) = u32 z.
Proof. by rewrite le_value_bytes. Qed.

(** ** Arrays

    A C array is a list; its elements are accessed by an [int] index, and an
    index outside the array is a fault. *)

Definition zlen {A} (l : list A) : Z := Z.of_nat (length l).

Definition arr_get {A} (l : list A) (i : Z) : res A :=
  if i <? 0 then Fault OutOfBounds else checked (l !! Z.to_nat i).

Definition arr_set {A} (l : list A) (i : Z) (a : A) : res (list A) :=
  if (i <? 0) || (zlen l <=? i) then Fault OutOfBounds
  else Ok (<[Z.to_nat i := a]> l).

(** [memmove(l + i, bs, sizeof bs)]. *)
Definition arr_write {A} (l : list A) (i : Z) (bs : list A) : res (list A) :=
  if (i <? 0) || (zlen l <? i + zlen bs) then Fault OutOfBounds
  else Ok (take (Z.to_nat i) l ++ bs ++ drop (Z.to_nat i + length bs)%nat l).

(** [n] elements starting at [l + i]. *)
Definition arr_read {A} (l : list A) (i n : Z) : res (list A) :=
  if (i <? 0) || (n <? 0) || (zlen l <? i + n) then Fault OutOfBounds
  else Ok (take (Z.to_nat n) (drop (Z.to_nat i) l)).

Lemma zlen_nonneg {A} (l : list A) : 0 <= zlen l.
Proof. unfold zlen. lia. Qed.

Lemma zlen_app {A} (l k : list A) : zlen (l ++ k) = zlen l + zlen k.
Proof. unfold zlen. rewrite length_app. lia. Qed.

Lemma zlen_cons {A} (a : A) l : zlen (a :: l) = 1 + zlen l.
Proof. unfold zlen. cbn [length]. lia. Qed.

Lemma zlen_nil {A} : zlen (@nil A) = 0.
Proof. done. Qed.

Lemma arr_get_Ok {A} (l : list A) i a :
  arr_get l i = Ok a <-> 0 <= i /\ l !! Z.to_nat i = Some a.
Proof.
  unfold arr_get. destruct (Z.ltb_spec i 0); rewrite ?checked_Ok; [|intuition lia].
  split; [done|lia].
Qed.

Lemma arr_get_bound {A} (l : list A) i a :
  arr_get l i = Ok a -> 0 <= i < zlen l.
Proof.
  intros [Hi Hl]%arr_get_Ok. apply lookup_lt_Some in Hl. unfold zlen. lia.
Qed.

Lemma arr_get_ok {A} (l : list A) i :
  0 <= i < zlen l -> exists a, arr_get l i = Ok a.
Proof.
  intros H. destruct (lookup_lt_is_Some_2 l (Z.to_nat i)) as [a Ha].
  { unfold zlen in H. lia. }
  exists a. apply arr_get_Ok. intuition lia.
Qed.

Lemma arr_get_app {A} (l k : list A) i :
  zlen l <= i -> arr_get (l ++ k) i = arr_get k (i - zlen l).
Proof.
  intros H. unfold arr_get. pose proof (zlen_nonneg l).
  destruct (Z.ltb_spec i 0), (Z.ltb_spec (i - zlen l) 0); try lia.
  unfold zlen in *. rewrite lookup_app_r by lia. do 2 f_equal. lia.
Qed.

Lemma arr_get_app_l {A} (l k : list A) i :
  i < zlen l -> arr_get (l ++ k) i = arr_get l i.
Proof.
  intros H. unfold arr_get. destruct (Z.ltb_spec i 0); [done|].
  unfold zlen in *. by rewrite lookup_app_l by lia.
Qed.

Lemma arr_get_head {A} (a : A) l : arr_get (a :: l) 0 = Ok a.
Proof. done. Qed.

(** Element [zlen l] of [l ++ a :: k]. *)
Lemma arr_get_mid {A} (l k : list A) a : arr_get (l ++ a :: k) (zlen l) = Ok a.
Proof. rewrite arr_get_app by lia. by rewrite Z.sub_diag. Qed.

Lemma arr_set_ok {A} (l : list A) i a :
  0 <= i < zlen l -> arr_set l i a = Ok (<[Z.to_nat i := a]> l).
Proof.
  intros H. unfold arr_set.
  destruct (Z.ltb_spec i 0), (Z.leb_spec (zlen l) i); cbn; try lia; done.
Qed.

Lemma arr_set_Ok {A} (l : list A) i a l' :
  arr_set l i a = Ok l' -> 0 <= i < zlen l /\ l' = <[Z.to_nat i := a]> l.
Proof.
  unfold arr_set.
  destruct (Z.ltb_spec i 0), (Z.leb_spec (zlen l) i); cbn; intros [=]; split; auto; lia.
Qed.

Lemma arr_set_len {A} (l : list A) i a l' :
  arr_set l i a = Ok l' -> zlen l' = zlen l.
Proof. intros [_ ->]%arr_set_Ok. unfold zlen. by rewrite length_insert. Qed.

Lemma arr_get_set {A} (l : list A) i a l' j :
  arr_set l i a = Ok l' -> arr_get l' j = if j =? i then Ok a else arr_get l j.
Proof.
  intros [H ->]%arr_set_Ok. unfold arr_get, zlen in *.
  destruct (Z.ltb_spec j 0), (Z.eqb_spec j i); subst; try lia; try done.
  - by rewrite list_lookup_insert_eq by lia.
  - by rewrite list_lookup_insert_ne by lia.
Qed.

Lemma arr_write_Ok {A} (l : list A) i bs l' :
  arr_write l i bs = Ok l' <->
  0 <= i /\ i + zlen bs <= zlen l /\
  l' = take (Z.to_nat i) l ++ bs ++ drop (Z.to_nat i + length bs)%nat l.
Proof.
  unfold arr_write.
  destruct (Z.ltb_spec i 0), (Z.ltb_spec (zlen l) (i + zlen bs)); cbn;
    split; intros H'; try discriminate; try (injection H' as <-);
    try (destruct H' as (?&?&->)); auto with lia.
Qed.

Lemma arr_get_write {A} (l : list A) i bs l' j :
  arr_write l i bs = Ok l' ->
  arr_get l' j = if (i <=? j) && (j <? i + zlen bs) then arr_get bs (j - i) else arr_get l j.
Proof.
  intros (Hi & Hb & ->)%arr_write_Ok.
  assert (Hl : zlen (take (Z.to_nat i) l) = i).
  { unfold zlen in *. rewrite length_take. lia. }
  destruct (Z.leb_spec i j); cbn [andb].
  - rewrite arr_get_app by lia. rewrite Hl. destruct (Z.ltb_spec j (i + zlen bs)).
    + by rewrite arr_get_app_l by lia.
    + rewrite arr_get_app by lia. unfold arr_get, zlen in *.
      destruct (Z.ltb_spec (j - i - Z.of_nat (length bs)) 0), (Z.ltb_spec j 0); try lia.
      rewrite lookup_drop. do 2 f_equal. lia.
  - rewrite arr_get_app_l by lia. unfold arr_get. destruct (Z.ltb_spec j 0); [done|].
    rewrite lookup_take. by rewrite decide_True by lia.
Qed.

Lemma arr_write_len {A} (l : list A) i bs l' :
  arr_write l i bs = Ok l' -> zlen l' = zlen l.
Proof.
  intros (Hi & Hb & ->)%arr_write_Ok. unfold zlen in *.
  rewrite !length_app, length_take, length_drop. lia.
Qed.

(** ** Lists of pieces of the same length *)

Lemma concat_take {A} (k : nat) (ls : list (list A)) j : Forall (fun l => length l = k) ls -> take (k * j) (concat ls) = concat (take j ls).
Proof.
  revert j. induction ls as [|l ls IH]; intros j H; [cbn [concat]; by rewrite !take_nil|]. apply Forall_cons in H as [Hl H].
  destruct j as [|j]; [by rewrite Nat.mul_0_r|]. cbn [concat take]. replace (k * S j)%nat with (length l + k * j)%nat by lia. by rewrite take_app_add, IH.
Qed.

Lemma concat_drop {A} (k : nat) (ls : list (list A)) j : Forall (fun l => length l = k) ls -> drop (k * j) (concat ls) = concat (drop j ls).
Proof.
  revert j. induction ls as [|l ls IH]; intros j H; [cbn [concat]; by rewrite !drop_nil|]. apply Forall_cons in H as [Hl H].
  destruct j as [|j]; [by rewrite Nat.mul_0_r|]. cbn [concat drop]. replace (k * S j)%nat with (length l + k * j)%nat by lia. by rewrite drop_app_add, IH.
Qed.

Lemma concat_length {A} (k : nat) (ls : list (list A)) : Forall (fun l => length l = k) ls -> length (concat ls) = (k * length ls)%nat.
Proof. induction 1 as [|l ls Hl _ IH]; cbn [concat length]; [lia|]. rewrite length_app, Hl, IH. lia. Qed.

(** The piece at [j]. *)
Lemma concat_piece {A} (k : nat) (ls : list (list A)) j l : Forall (fun l => length l = k) ls -> ls !! j = Some l -> take k (drop (k * j) (concat ls)) = l.
Proof.
  intros H Hj. rewrite concat_drop by done. rewrite (drop_S _ _ _ Hj). cbn [concat]. rewrite Forall_lookup in H. specialize (H j l Hj).
  rewrite take_app_le by lia. apply take_ge. lia.
Qed.

(** ** Proof automation *)

(** Case analysis on the comparisons a goal branches on. *)
Ltac zcase :=
  match goal with
  | |- context [?a <? ?b] => destruct (Z.ltb_spec a b)
  | |- context [?a <=? ?b] => destruct (Z.leb_spec a b)
  | |- context [?a =? ?b] => destruct (Z.eqb_spec a b)
  | H : context [?a <? ?b] |- _ => destruct (Z.ltb_spec a b)
  | H : context [?a <=? ?b] |- _ => destruct (Z.leb_spec a b)
  | H : context [?a =? ?b] |- _ => destruct (Z.eqb_spec a b)
  end.

(** Turn a hypothesis saying that a sequence of calls returned into one
    hypothesis per call. *)
Ltac inv_ok :=
  repeat match goal with
  | H : Ok _ = Ok _ |- _ => injection H as H; try subst
  | H : Err = Ok _ |- _ => discriminate H
  | H : Fault _ = Ok _ |- _ => discriminate H
  | H : mret _ = Ok _ |- _ => change (Ok _ = Ok _) in H
  | H : (_ ≫= _) = Ok _ |- _ =>
      let a := fresh "a" in let H1 := fresh "H" in
      apply bind_Ok in H as (a & H1 & H); cbn beta iota in H
  | H : require _ = Ok _ |- _ => apply require_Ok in H
  | H : checked _ = Ok _ |- _ => apply checked_Ok in H
  | H : () = () |- _ => clear H
  | u : unit |- _ => destruct u
  | p : _ * _ |- _ => destruct p; cbn beta iota in *
  end.

(** An equation between sums reduced modulo [2 ^ 32] at several places. *)
Ltac u32_sums :=
  repeat (rewrite <- ?Z.add_assoc; rewrite u32_add_l); f_equal; lia.

Create HintDb cmem.
Create Rewrite HintDb cmem.
#[export] Hint Resolve u32_range s32_range zlen_nonneg le_bytes_are_bytes : cmem.
#[export] Hint Rewrite @zlen_app @zlen_cons @zlen_nil length_le_bytes : cmem.
