(* ===== verification/Tokens.v ===== *)
(** * The SUME32 instruction set: [sume_tokens.h] and [sume_strs.h]

    The byte of each instruction in the binary form ([.umb]) and its name in
    the text form ([.umt]). *)

From stdpp Require Import base list strings.
From Stdlib Require Import ZArith Lia.
From S2P Require Import Prelude.

(** [enum _instr_token], one constructor per enumerator, in its order.  The
    enumerator [end] is [end_]. *)
Inductive instr_token :=
| i_const
| i_clz
| i_ctz
| i_popcnt
| i_add
| i_and
| i_div_s
| i_div_u
| i_mul
| i_or
| i_rem_s
| i_rem_u
| i_rotl
| i_rotr
| i_shl
| i_shr_s
| i_shr_u
| i_sub
| i_xor
| i_eqz
| i_eq
| i_ge_s
| i_ge_u
| i_gt_s
| i_gt_u
| i_le_s
| i_le_u
| i_lt_s
| i_lt_u
| i_ne
| i_ld32
| i_ld16_s
| i_ld16_u
| i_ld8_s
| i_ld8_u
| i_memsz
| str32
| str16
| str8
| get_l
| set_l
| trap
| block
| loop
| br
| br_if
| ret
| end_
| call
| v_declfn
| i_declfn.

#[export] Instance instr_token_eq_dec : EqDecision instr_token.
Proof. solve_decision. Defined.

(** The values of the enumerators. *)
Definition token_value (t : instr_token) : Z :=
  match t with
  | i_const => 0
  | i_clz => 1
  | i_ctz => 2
  | i_popcnt => 3
  | i_add => 4
  | i_and => 5
  | i_div_s => 6
  | i_div_u => 7
  | i_mul => 8
  | i_or => 9
  | i_rem_s => 10
  | i_rem_u => 11
  | i_rotl => 12
  | i_rotr => 13
  | i_shl => 14
  | i_shr_s => 15
  | i_shr_u => 16
  | i_sub => 17
  | i_xor => 18
  | i_eqz => 19
  | i_eq => 20
  | i_ge_s => 21
  | i_ge_u => 22
  | i_gt_s => 23
  | i_gt_u => 24
  | i_le_s => 25
  | i_le_u => 26
  | i_lt_s => 27
  | i_lt_u => 28
  | i_ne => 29
  | i_ld32 => 30
  | i_ld16_s => 31
  | i_ld16_u => 32
  | i_ld8_s => 33
  | i_ld8_u => 34
  | i_memsz => 35
  | str32 => 36
  | str16 => 37
  | str8 => 38
  | get_l => 39
  | set_l => 40
  | trap => 41
  | block => 42
  | loop => 43
  | br => 44
  | br_if => 45
  | ret => 46
  | end_ => 47
  | call => 48
  | v_declfn => 49
  | i_declfn => 50
  end.

Definition all_tokens : list instr_token :=
  [i_const; i_clz; i_ctz; i_popcnt; i_add; i_and;
   i_div_s; i_div_u; i_mul; i_or; i_rem_s; i_rem_u;
   i_rotl; i_rotr; i_shl; i_shr_s; i_shr_u; i_sub;
   i_xor; i_eqz; i_eq; i_ge_s; i_ge_u; i_gt_s;
   i_gt_u; i_le_s; i_le_u; i_lt_s; i_lt_u; i_ne;
   i_ld32; i_ld16_s; i_ld16_u; i_ld8_s; i_ld8_u; i_memsz;
   str32; str16; str8; get_l; set_l; trap;
   block; loop; br; br_if; ret; end_;
   call; v_declfn; i_declfn].

(** [instrs[0x33]]: the names, indexed by the value of the token. *)
Definition instrs : list string :=
  ["i.const"; "i.clz"; "i.ctz"; "i.popcnt"; "i.add"; "i.and";
   "i.div.s"; "i.div.u"; "i.mul"; "i.or"; "i.rem.s"; "i.rem.u";
   "i.rotl"; "i.rotr"; "i.shl"; "i.shr.s"; "i.shr.u"; "i.sub";
   "i.xor"; "i.eqz"; "i.eq"; "i.ge.s"; "i.ge.u"; "i.gt.s";
   "i.gt.u"; "i.le.s"; "i.le.u"; "i.lt.s"; "i.lt.u"; "i.ne";
   "i.ld32"; "i.ld16.s"; "i.ld16.u"; "i.ld8.s"; "i.ld8.u"; "i.memsz";
   "str32"; "str16"; "str8"; "get_l"; "set_l"; "trap";
   "block"; "loop"; "br"; "br_if"; "ret"; "end";
   "call"; "v.declfn"; "i.declfn"].

(** [instr_token token = prog[place]], a [char] converted to the enumeration:
    [None] is a value that is no enumerator, the [default:] of every switch. *)
Definition token_of_byte (b : Z) : option instr_token :=
  if schar b <? 0 then None else all_tokens !! Z.to_nat (schar b).

Definition byte_of_ascii (a : Ascii.ascii) : Z := Z.of_N (Ascii.N_of_ascii a).

(** The bytes of a C string literal, without the final NUL. *)
Definition bytes_of (s : string) : list Z :=
  byte_of_ascii <$> String.list_ascii_of_string s.

Definition ch (s : string) : Z :=
  match s with
  | EmptyString => 0
  | String a _ => byte_of_ascii a
  end.

Definition token_name (t : instr_token) : list Z :=
  bytes_of (default "" (instrs !! Z.to_nat (token_value t))).

Lemma all_tokens_spec t : all_tokens !! Z.to_nat (token_value t) = Some t.
Proof. by destruct t. Qed.

Lemma token_value_range t : 0 <= token_value t < 51.
Proof. destruct t; cbn; lia. Qed.

(** The token byte is decoded to the token it encodes. *)
Lemma token_of_byte_value t : token_of_byte (token_value t) = Some t.
Proof. by destruct t. Qed.

Lemma all_tokens_value n t :
  all_tokens !! n = Some t -> token_value t = Z.of_nat n.
Proof.
  intros H. assert (n < 51)%nat as Hn by exact (lookup_lt_Some _ _ _ H).
  do 51 (destruct n as [|n]; [injection H as <-; reflexivity|]). lia.
Qed.

Lemma token_of_byte_inv b t :
  is_byte b -> token_of_byte b = Some t -> b = token_value t.
Proof.
  intros Hb. unfold token_of_byte.
  destruct (Z.ltb_spec (schar b) 0); [done|].
  intros Ht%all_tokens_value. rewrite Ht, Z2Nat.id by lia.
  unfold schar in *. rewrite u8_small in * by done.
  destruct (Z.ltb_spec b (2 ^ 7)); unfold is_byte in *; lia.
Qed.
