(* ===== verification/Syntax.v ===== *)
(** * The SUME32 language: programs, their text and their binary form

    The specification the assembler and the readers of the binary form are
    measured against.  A program is a list of instructions; [encode] is its
    binary form, and [spells] relates it to the texts that denote it, with any
    white space and comments a programmer may put between the words. *)

From stdpp Require Import base list strings.
From Stdlib Require Import ZArith Lia.
From S2P Require Import Prelude Tokens.

Inductive ty := TInt | TFlt.

Inductive operands := KNone | KInt | KTypes.

Definition operand_kind (t : instr_token) : operands :=
  match t with
  | i_const | get_l | set_l | br | br_if | call => KInt
  | v_declfn | i_declfn => KTypes
  | _ => KNone
  end.

Inductive instr :=
| Plain (t : instr_token)
| Imm (t : instr_token) (v : Z)
| Decl (t : instr_token) (params locals : list ty).

#[export] Instance ty_eq_dec : EqDecision ty.
Proof. solve_decision. Defined.
#[export] Instance operands_eq_dec : EqDecision operands.
Proof. solve_decision. Defined.
#[export] Instance token_eq_dec : EqDecision instr_token.
Proof. solve_decision. Defined.
#[export] Instance instr_eq_dec : EqDecision instr.
Proof. solve_decision. Defined.

(** ** Binary form *)

Definition ty_code (a : ty) : Z := match a with TInt => 1 | TFlt => 2 end.

(** Types are packed four to a byte, two bits each, and end with a zero. *)
Definition code_at_pos (ts : list ty) (p : nat) : Z :=
  match ts !! p with Some a => ty_code a | None => 0 end.

Definition pack_byte (ts : list ty) (i : nat) : Z :=
  code_at_pos ts (4 * i) + 4 * code_at_pos ts (4 * i + 1) +
  16 * code_at_pos ts (4 * i + 2) + 64 * code_at_pos ts (4 * i + 3).

Definition pack (ts : list ty) : list Z :=
  pack_byte ts <$> seq 0 (length ts / 4 + 1).

Definition encode_instr (i : instr) : list Z :=
  match i with
  | Plain t => [token_value t]
  | Imm t v => token_value t :: le_bytes 4 v
  | Decl t ps ls => token_value t :: pack ps ++ pack ls
  end.

Definition encode (p : list instr) : list Z := concat (encode_instr <$> p).

(** The operands fit the token, and an immediate is a word. *)
Definition wf_instr (i : instr) : Prop :=
  match i with
  | Plain t => operand_kind t = KNone
  | Imm t v => operand_kind t = KInt /\ 0 <= v < 2 ^ 32
  | Decl t _ _ => operand_kind t = KTypes
  end.

(** ** Text *)

Definition white (c : Z) : Prop := c ∈ bytes_of " " \/ 9 <= c <= 13.

(** White space and comments. *)
Inductive blank : list Z -> Prop :=
| blank_nil : blank []
| blank_white c w : white c -> blank w -> blank (c :: w)
| blank_comment body w :
    Forall (fun c => c <> 10) body -> blank w -> blank (ch ";" :: body ++ 10 :: w).

(** The value of a digit. *)
Definition digit (c : Z) : option Z :=
  if (48 <=? c) && (c <=? 57) then Some (c - 48)
  else if (65 <=? c) && (c <=? 90) then Some (c - 55)
  else if (97 <=? c) && (c <=? 122) then Some (c - 87)
  else None.

(** [ds] is a sequence of digits of the number system [radix]; [n] is its value
    when [acc] is that of the digits before it. *)
Inductive digits (radix : Z) : Z -> list Z -> Z -> Prop :=
| digits_nil acc : digits radix acc [] acc
| digits_cons acc c ds d n :
    digit c = Some d -> d < radix -> digits radix (acc * radix + d) ds n ->
    digits radix acc (c :: ds) n.

Definition radix_prefix (p : list Z) (radix : Z) : Prop :=
  (p = [] /\ radix = 10) \/ (p = bytes_of "b" /\ radix = 2) \/ (p = bytes_of "o" /\ radix = 8) \/
  (p = bytes_of "x" /\ radix = 16) \/ (p = bytes_of "h" /\ radix = 16).

(** A numeral: an optional sign, the number system, at least one digit. *)
Inductive numeral : list Z -> Z -> Prop :=
| numeral_pos p radix c ds n :
    radix_prefix p radix -> digits radix 0 (c :: ds) n -> numeral (p ++ c :: ds) n
| numeral_neg p radix c ds n :
    radix_prefix p radix -> digits radix 0 (c :: ds) n -> numeral (ch "-" :: p ++ c :: ds) (- n).

Definition ty_name (a : ty) : list Z :=
  bytes_of (match a with TInt => "int" | TFlt => "flt" end).

(** The types of a list, each followed by white space. *)
Inductive spells_types : list Z -> list ty -> Prop :=
| spells_types_nil : spells_types [] []
| spells_types_cons a w txt ts :
    blank w -> spells_types txt ts -> spells_types (ty_name a ++ w ++ txt) (a :: ts).

Inductive spells_list : list Z -> list ty -> Prop :=
| spells_list_intro w txt ts :
    blank w -> spells_types txt ts -> spells_list (ch "(" :: w ++ txt ++ [ch ")"]) ts.

(** An instruction, up to and including a first character of the white space that
    has to follow. *)
Inductive spells_instr : list Z -> instr -> Prop :=
| spells_plain t w :
    operand_kind t = KNone -> blank w -> w <> [] -> spells_instr (token_name t ++ w) (Plain t)
| spells_imm t w txt n c :
    operand_kind t = KInt -> blank w -> w <> [] -> numeral txt n -> white c ->
    spells_instr (token_name t ++ w ++ txt ++ [c]) (Imm t (u32 n))
| spells_decl t w1 txt1 ps w2 txt2 ls :
    operand_kind t = KTypes -> blank w1 -> w1 <> [] -> spells_list txt1 ps ->
    blank w2 -> spells_list txt2 ls ->
    spells_instr (token_name t ++ w1 ++ txt1 ++ w2 ++ txt2) (Decl t ps ls).

Inductive spells : list Z -> list instr -> Prop :=
| spells_end w : blank w -> spells w []
| spells_cons w txt i rest p :
    blank w -> spells_instr txt i -> spells rest p -> spells (w ++ txt ++ rest) (i :: p).
