(* ===== verification/ToIr.v ===== *)
(** * The assembler of the text form: [to_ir.c] and [dyn_arr.c]

    [parse_sume] turns a [.umt] text into the binary form.  A program and its
    length [prog]/[prog_len] are one list of bytes; [uint* place] is an index
    passed and returned. *)

From stdpp Require Import base list strings.
From Stdlib Require Import ZArith Lia.
From S2P Require Import Prelude Tokens.

(** ** Growable arrays: [dyn_arr.c]

    The allocator is an argument: [malloc n] is the block it returns, of any
    content, or [None] for a null pointer.  [data] is the block the pointer of
    the same name points to. *)

Definition PAGE_SZ : Z := 4096.

Record dyn_arr := {
  data : option (list Z);
  size : Z;
  max_sz : Z;
}.

Section dyn_arr.
Context (malloc : Z -> option (list Z)).

Definition make_dyn_arr (sz : Z) : dyn_arr :=
  {| data := malloc sz; size := 0; max_sz := sz |}.

(** The block allocated when the array is full is filled and then dropped:
    the code stores neither it nor its size in the array. *)
Definition append_dyn_arr (arr : dyn_arr) (dat : list Z) : res dyn_arr :=
  (if max_sz arr <? u32 (size arr + zlen dat) then
     match malloc (u32 (max_sz arr + PAGE_SZ)) with
     | None => Err
     | Some new_data =>
         old ← checked (data arr);
         moved ← arr_read old 0 (size arr);
         _ ← arr_write new_data 0 moved;
         Ok ()
     end
   else Ok ());;
  old ← checked (data arr);
  new ← arr_write old (size arr) dat;
  Ok {| data := Some new; size := u32 (size arr + zlen dat); max_sz := max_sz arr |}.

End dyn_arr.

(** The bytes a user of the array sees: [data[0..size)]. *)
Definition contents (arr : dyn_arr) : list Z :=
  take (Z.to_nat (size arr)) (default [] (data arr)).

(** ** Lexing *)

Definition is_whitespace (c : Z) : bool :=
  (c =? 32) || (c =? 9) || (c =? 10) || (c =? 11) || (c =? 12) || (c =? 13).

(** The [for] loop of [is_prefix]: the part of [word] that starts at [i] when
    the loop ends, [None] when it returns 0. *)
Fixpoint is_prefix_loop (prefix word : list Z) : option (list Z) :=
  match prefix, word with
  | [], _ => Some word
  | p :: prefix, w :: word => if p =? w then is_prefix_loop prefix word else None
  | _ :: _, [] => None
  end.

Definition is_prefix (prefix word : list Z) : bool :=
  if zlen word <? zlen prefix then false
  else match is_prefix_loop prefix word with
       | None => false
       | Some rest =>
           if zlen prefix =? zlen word then true
           else match rest with
                | c :: _ => (c =? ch ";") || is_whitespace c
                | [] => false
                end
       end.

(** The loop over [instrs], from index [i]. *)
Fixpoint find_instr (names : list string) (i : Z) (word : list Z) : option (Z * Z) :=
  match names with
  | [] => None
  | name :: names =>
      if is_prefix (bytes_of name) word then Some (i, zlen (bytes_of name))
      else find_instr names (i + 1) word
  end.

(** The token and the new place; [None] is the return value [-1]. *)
Definition get_next_instr_token (prog : list Z) (place : Z) : option (instr_token * Z) :=
  '(i, pre_sz) ← find_instr instrs 0 (drop (Z.to_nat place) prog);
  t ← all_tokens !! Z.to_nat i;
  Some (t, place + pre_sz).

(** The number of characters the loop of [get_line] passes. *)
Fixpoint line_length (l : list Z) : Z :=
  match l with
  | [] => 0
  | c :: l => if c =? 10 then 0 else 1 + line_length l
  end.

Definition get_line (prog : list Z) (place : Z) : Z :=
  place + line_length (drop (Z.to_nat place) prog) + 1.

Fixpoint consume_whitespace_loop (fuel : nat) (prog : list Z) (place : Z) : res Z :=
  match fuel with
  | O => Fault OutOfFuel
  | S fuel =>
      if place <? zlen prog then
        c ← arr_get prog place;
        if c =? ch ";" then consume_whitespace_loop fuel prog (get_line prog (place + 1))
        else if is_whitespace c then consume_whitespace_loop fuel prog (place + 1)
        else Ok place
      else Ok place
  end.

(** Every iteration advances [place], so the length of the program bounds
    their number. *)
Definition consume_whitespace (prog : list Z) (place : Z) : res Z :=
  consume_whitespace_loop (S (length prog)) prog place.

Definition get_char (prog : list Z) (place : Z) : res (Z * Z) :=
  if zlen prog <=? place then Err
  else c ← arr_get prog place; Ok (c, place + 1).

Definition char_to_int (c : Z) : res Z :=
  let val := schar c - ch "0" in
  if val <? 0 then Err else
  if val <? 10 then Ok val else
  let val := schar c - ch "A" + 10 in
  if val <? 10 then Err else
  if val <? 36 then Ok val else
  let val := schar c - ch "a" + 10 in
  if val <? 10 then Err else
  if val <? 36 then Ok val else Err.

(** The [while (1)] loop of [get_int] with [acc] for [*ret]. *)
Fixpoint get_int_loop (fuel : nat) (prog : list Z) (radix place acc : Z) : res (Z * Z) :=
  match fuel with
  | O => Fault OutOfFuel
  | S fuel =>
      match get_char prog place with
      | Err => Ok (acc, place)
      | Fault e => Fault e
      | Ok (cur, place) =>
          if is_whitespace cur then Ok (acc, place)
          else
            v ← char_to_int cur;
            if radix <=? v then Err
            else get_int_loop fuel prog radix place (u32 (u32 (acc * radix) + v))
      end
  end.

Definition get_int (prog : list Z) (place : Z) : res (Z * Z) :=
  '(cur, place) ← get_char prog place;
  '(neg, cur, place) ←
     (if cur =? ch "-" then '(cur, place) ← get_char prog place; Ok (true, cur, place)
      else Ok (false, cur, place));
  '(radix, cur, place) ←
     (if cur =? ch "b" then '(cur, place) ← get_char prog place; Ok (2, cur, place)
      else if cur =? ch "o" then '(cur, place) ← get_char prog place; Ok (8, cur, place)
      else if (cur =? ch "x") || (cur =? ch "h") then
        '(cur, place) ← get_char prog place; Ok (16, cur, place)
      else Ok (10, cur, place));
  v ← char_to_int cur;
  '(acc, place) ← get_int_loop (S (length prog)) prog radix place (u32 (u32 (0 * radix) + v));
  Ok (if neg : bool then u32 (- acc) else acc, place).

(** ** Type lists *)

(** [ret[ind] &= ~(3<<(off*2))] *)
Definition zero_position (buf : list Z) (base pos : Z) : res (list Z) :=
  let ind := base + pos / 4 in
  let off := pos mod 4 in
  b ← arr_get buf ind;
  arr_set buf ind (u8 (Z.land b (Z.lnot (Z.shiftl 3 (off * 2))))).

(** Zero the position, then [ret[ind] |= (v<<(off*2))]. *)
Definition set_position (buf : list Z) (base pos v : Z) : res (list Z) :=
  buf ← zero_position buf base pos;
  let ind := base + pos / 4 in
  let off := pos mod 4 in
  b ← arr_get buf ind;
  arr_set buf ind (u8 (Z.lor b (Z.shiftl v (off * 2)))).

Fixpoint get_type_list_loop (fuel : nat) (prog : list Z) (place : Z)
    (buf : list Z) (base ret_pl : Z) : res (Z * list Z * Z) :=
  match fuel with
  | O => Fault OutOfFuel
  | S fuel =>
      c ← arr_get prog place;
      if c =? ch ")" then Ok (place, buf, ret_pl)
      else if zlen prog <=? place + 3 then Err
      else
        c1 ← arr_get prog (place + 1);
        c2 ← arr_get prog (place + 2);
        buf ←
          (if (c =? ch "i") && (c1 =? ch "n") && (c2 =? ch "t") then
             set_position buf base ret_pl 1
           else if (c =? ch "f") && (c1 =? ch "l") && (c2 =? ch "t") then
             set_position buf base ret_pl 2
           else Err);
        place ← consume_whitespace prog (place + 3);
        get_type_list_loop fuel prog place buf base (ret_pl + 1)
  end.

(** [for (; ret_pl < ret_end; ++ret_pl)] with [n] iterations left. *)
Fixpoint zero_rest (n : nat) (buf : list Z) (base ret_pl : Z) : res (list Z) :=
  match n with
  | O => Ok buf
  | S n => buf ← zero_position buf base ret_pl; zero_rest n buf base (ret_pl + 1)
  end.

(** [ret] is [buf + base]; the results are the new place, the buffer and
    [*ret_len]. *)
Definition get_type_list (prog : list Z) (place : Z) (buf : list Z) (base : Z)
    : res (Z * list Z * Z) :=
  '(cur, place) ← get_char prog place;
  require (cur =? ch "(");;
  place ← consume_whitespace prog place;
  '(place, buf, ret_pl) ← get_type_list_loop (S (length prog)) prog place buf base 0;
  let place := place + 1 in
  buf ← zero_position buf base ret_pl;
  let ret_pl := ret_pl + 1 in
  let ret_end := 4 * ((ret_pl - 1) / 4 + 1) in
  buf ← zero_rest (Z.to_nat (ret_end - ret_pl)) buf base ret_pl;
  Ok (place, buf, ret_end / 4).

(** ** [parse_sume] *)

(** The [switch] on the token: the operands it reads into [instr_buf]. *)
Definition parse_operands (prog : list Z) (place : Z) (buf : list Z) (tkn : instr_token)
    : res (Z * list Z * Z) :=
  match tkn with
  | i_const | get_l | set_l | br | br_if | call =>
      place ← consume_whitespace prog place;
      '(iv, place) ← get_int prog place;
      buf ← arr_write buf 1 (le_bytes 4 iv);
      Ok (place, buf, 5)
  | v_declfn | i_declfn =>
      place ← consume_whitespace prog place;
      '(place, buf, type_l_len) ← get_type_list prog place buf 1;
      let instr_len := 1 + type_l_len in
      place ← consume_whitespace prog place;
      '(place, buf, type_l_len) ← get_type_list prog place buf instr_len;
      Ok (place, buf, instr_len + type_l_len)
  | _ => Ok (place, buf, 1)
  end.

Section parse_sume.
Context (malloc : Z -> option (list Z)).

Fixpoint parse_loop (fuel : nat) (prog : list Z) (place : Z) (buf : list Z)
    (result : dyn_arr) : res dyn_arr :=
  match fuel with
  | O => Fault OutOfFuel
  | S fuel =>
      place ← consume_whitespace prog place;
      if zlen prog <=? place then Ok result
      else
        match get_next_instr_token prog place with
        | None => Err
        | Some (tkn, place) =>
            buf ← arr_set buf 0 (token_value tkn);
            '(place, buf, instr_len) ← parse_operands prog place buf tkn;
            dat ← arr_read buf 0 instr_len;
            result ← append_dyn_arr malloc result dat;
            parse_loop fuel prog place buf result
        end
  end.

(** [buf] is the content [char instr_buf[100]] happens to have. *)
Definition parse_sume (buf : list Z) (result : dyn_arr) (prog : list Z) : res dyn_arr :=
  parse_loop (S (length prog)) prog 0 buf result.

End parse_sume.
