(* ===== verification/ToIrProofs.v ===== *)
(** * The assembler implements the language

    Each function of [to_ir.c] on a text of the form the grammar gives it, then
    [parse_sume] on a whole program. *)

From stdpp Require Import base list strings.
From Stdlib Require Import ZArith Lia.
From S2P Require Import Prelude Tokens Syntax ToIr.

(** ** The cursor *)

(** [rest] is what is left of [prog] at [place]. *)
Definition at_ (prog : list Z) (place : Z) (rest : list Z) : Prop :=
  exists pre, prog = pre ++ rest /\ place = zlen pre.

Lemma at_start prog : at_ prog 0 prog.
Proof. by exists []. Qed.

Lemma at_app prog place a rest : at_ prog place (a ++ rest) -> at_ prog (place + zlen a) rest.
Proof.
  intros (pre & -> & ->). exists (pre ++ a). rewrite <- app_assoc. split; [done|].
  by rewrite zlen_app.
Qed.

Lemma at_cons prog place c rest : at_ prog place (c :: rest) -> at_ prog (place + 1) rest.
Proof. apply (at_app prog place [c] rest). Qed.

Lemma at_len prog place rest : at_ prog place rest -> zlen prog = place + zlen rest /\ 0 <= place.
Proof. intros (pre & -> & ->). rewrite zlen_app. pose proof (zlen_nonneg pre). lia. Qed.

Lemma at_get prog place c rest : at_ prog place (c :: rest) -> arr_get prog place = Ok c.
Proof. intros (pre & -> & ->). apply arr_get_mid. Qed.

Lemma at_drop prog place rest : at_ prog place rest -> drop (Z.to_nat place) prog = rest.
Proof. intros (pre & -> & ->). unfold zlen. rewrite Nat2Z.id. apply drop_app_length. Qed.

Lemma at_lt prog place c rest : at_ prog place (c :: rest) -> place < zlen prog.
Proof.
  intros H%at_len. rewrite zlen_cons in H. pose proof (zlen_nonneg rest). lia.
Qed.

Lemma get_char_at prog place c rest :
  at_ prog place (c :: rest) -> get_char prog place = Ok (c, place + 1).
Proof.
  intros H. unfold get_char. pose proof (at_lt _ _ _ _ H).
  destruct (Z.leb_spec (zlen prog) place); [lia|]. by rewrite (at_get _ _ _ _ H).
Qed.

(** ** White space *)

Lemma white_spec c : white c <-> is_whitespace c = true.
Proof.
  unfold white, is_whitespace. change (bytes_of " ") with [32].
  rewrite list_elem_of_singleton. repeat zcase; cbn; intuition lia.
Qed.

(** Where [consume_whitespace] stops. *)
Definition stops (rest : list Z) : Prop :=
  match rest with
  | [] => True
  | c :: _ => c <> ch ";" /\ ~ white c
  end.

Lemma line_length_comment body rest :
  Forall (fun c => c <> 10) body -> line_length (body ++ 10 :: rest) = zlen body.
Proof.
  induction 1 as [|c body Hc Hb IH]; [done|]. cbn [app line_length].
  destruct (Z.eqb_spec c 10); [done|]. by rewrite IH, zlen_cons.
Qed.

Lemma consume_blank_loop w rest prog place fuel :
  blank w -> stops rest -> at_ prog place (w ++ rest) -> (length w < fuel)%nat ->
  consume_whitespace_loop fuel prog place = Ok (place + zlen w).
Proof.
  intros Hw Hstop. revert place fuel.
  induction Hw as [|c w Hc Hw IH|body w Hb Hw IH]; intros place fuel Hat Hf;
    (destruct fuel as [|fuel]; [lia|]); cbn [consume_whitespace_loop].
  - rewrite zlen_nil, Z.add_0_r. destruct rest as [|c rest].
    + apply at_len in Hat as [Hat _]. rewrite (zlen_app [] []), !(@zlen_nil Z) in Hat.
      by destruct (Z.ltb_spec place (zlen prog)); [lia|].
    + destruct Hstop as [H1 H2]. rewrite white_spec in H2.
      pose proof (at_lt _ _ _ _ Hat). destruct (Z.ltb_spec place (zlen prog)); [|lia].
      rewrite (at_get _ _ _ _ Hat). cbn [mbind res_bind].
      destruct (Z.eqb_spec c (ch ";")); [done|]. by destruct (is_whitespace c).
  - pose proof (at_lt _ _ _ _ Hat). destruct (Z.ltb_spec place (zlen prog)); [|lia].
    rewrite (at_get _ _ _ _ Hat). cbn [mbind res_bind]. apply white_spec in Hc as Hw'.
    destruct (Z.eqb_spec c (ch ";")) as [->|]; [done|]. rewrite Hw'.
    rewrite IH; [|by apply at_cons in Hat|cbn [length] in Hf; lia]. rewrite zlen_cons. f_equal. lia.
  - pose proof (at_lt _ _ _ _ Hat). destruct (Z.ltb_spec place (zlen prog)); [|lia].
    rewrite (at_get _ _ _ _ Hat). cbn [mbind res_bind]. rewrite Z.eqb_refl.
    change (ch ";" :: body ++ 10 :: w) with ([ch ";"] ++ body ++ [10] ++ w) in Hat.
    rewrite <- !app_assoc in Hat. apply at_cons in Hat.
    change (at_ prog (place + 1) (body ++ 10 :: (w ++ rest))) in Hat.
    unfold get_line. rewrite (at_drop _ _ _ Hat), line_length_comment by done.
    rewrite IH.
    + rewrite zlen_cons, zlen_app, zlen_cons. f_equal. lia.
    + apply at_app in Hat. by apply at_cons in Hat.
    + cbn [length] in Hf. rewrite length_app in Hf. cbn [length] in Hf. lia.
Qed.

Lemma consume_blank prog place w rest :
  blank w -> stops rest -> at_ prog place (w ++ rest) ->
  consume_whitespace prog place = Ok (place + zlen w).
Proof.
  intros Hw Hs Hat. apply (consume_blank_loop w rest); try done.
  apply at_len in Hat. rewrite zlen_app in Hat. pose proof (zlen_nonneg rest).
  unfold zlen in *. lia.
Qed.

Lemma blank_app a b : blank a -> blank b -> blank (a ++ b).
Proof.
  induction 1; intros Hb; cbn [app]; [done|by apply blank_white; auto|].
  rewrite <- app_assoc. cbn [app]. apply blank_comment; auto.
Qed.

(** ** Numbers *)

Lemma digit_spec c d : digit c = Some d -> char_to_int c = Ok d /\ 0 <= d /\ 48 <= c <= 122.
Proof.
  unfold digit. intros H.
  assert (Hc : 48 <= c <= 122) by (repeat (zcase; cbn in H; try discriminate); lia).
  assert (schar c = c) as Hs.
  { unfold schar. rewrite u8_small by (unfold is_byte; lia).
    destruct (Z.ltb_spec c (2 ^ 7)); lia. }
  unfold char_to_int. rewrite Hs. change (ch "0") with 48. change (ch "A") with 65.
  change (ch "a") with 97. repeat (zcase; cbn in H |- *; try discriminate; try lia);
    injection H as <-; (split; [f_equal; lia|lia]).
Qed.

Lemma u32_mul_l a b : u32 (u32 a * b) = u32 (a * b).
Proof. unfold u32. by rewrite Zmult_mod_idemp_l. Qed.

Lemma digits_nonwhite c d : digit c = Some d -> is_whitespace c = false.
Proof.
  intros (_ & _ & H)%digit_spec. unfold is_whitespace. repeat zcase; cbn; lia.
Qed.

(** The digits up to the white space that ends them. *)
Lemma get_int_loop_digits radix acc ds n prog place c rest fuel :
  digits radix acc ds n -> white c -> at_ prog place (ds ++ c :: rest) ->
  (length ds < fuel)%nat ->
  get_int_loop fuel prog radix place (u32 acc) = Ok (u32 n, place + zlen ds + 1).
Proof.
  intros Hd Hc. revert place fuel.
  induction Hd as [acc|acc c0 ds d n Hdig Hlt Hd IH]; intros place fuel Hat Hf;
    (destruct fuel as [|fuel]; [cbn in Hf; lia|]); cbn [get_int_loop]; cbn [app] in Hat;
    rewrite (get_char_at _ _ _ _ Hat).
  - apply white_spec in Hc as ->. by rewrite zlen_nil, Z.add_0_r.
  - rewrite (digits_nonwhite _ _ Hdig). destruct (digit_spec _ _ Hdig) as (-> & H0 & _).
    cbn [mbind res_bind]. destruct (Z.leb_spec radix d); [lia|].
    rewrite u32_mul_l, u32_add_l. rewrite IH; [|by apply at_cons in Hat|cbn in Hf; lia].
    rewrite zlen_cons. do 2 f_equal. lia.
Qed.

Lemma digit_not_letter c d :
  digit c = Some d -> d < 10 ->
  (c =? ch "-") = false /\ (c =? ch "b") = false /\ (c =? ch "o") = false /\
  (c =? ch "x") || (c =? ch "h") = false.
Proof.
  intros H Hlt. assert (48 <= c <= 57).
  { unfold digit in H. repeat (zcase; cbn in H; try discriminate; try lia); injection H as <-; lia. }
  change (ch "-") with 45. change (ch "b") with 98. change (ch "o") with 111.
  change (ch "x") with 120. change (ch "h") with 104.
  split_and!; repeat zcase; cbn; lia || done.
Qed.

(** Comparisons of two given characters. *)
Ltac eqb_closed :=
  repeat match goal with
  | |- context [?a =? ?b] =>
      let r := eval vm_compute in (a =? b) in
      match r with true => idtac | false => idtac end; change (a =? b) with r
  end.

(** [get_int] after the sign: [cur] is the character read last. *)
Lemma get_int_unsigned prog place p radix c0 ds n c rest :
  radix_prefix p radix -> digits radix 0 (c0 :: ds) n -> white c ->
  at_ prog place (p ++ c0 :: ds ++ c :: rest) ->
  exists cur, arr_get prog place = Ok cur /\ (cur =? ch "-") = false /\
    ('(radix, cur, place) ←
       (if cur =? ch "b" then '(cur, place) ← get_char prog (place + 1); Ok (2, cur, place)
        else if cur =? ch "o" then '(cur, place) ← get_char prog (place + 1); Ok (8, cur, place)
        else if (cur =? ch "x") || (cur =? ch "h") then
          '(cur, place) ← get_char prog (place + 1); Ok (16, cur, place)
        else Ok (10, cur, place + 1));
     v ← char_to_int cur;
     get_int_loop (S (length prog)) prog radix place (u32 (u32 (0 * radix) + v))) =
    Ok (u32 n, place + zlen (p ++ c0 :: ds) + 1).
Proof.
  intros Hp Hd Hc Hat. inversion Hd as [|acc c1 ds1 d n1 Hdig Hlt Hd' Heq1]; subst.
  destruct (digit_spec _ _ Hdig) as (Hci & Hd0 & _).
  assert (Hloop : forall q, at_ prog q (ds ++ c :: rest) ->
    get_int_loop (S (length prog)) prog radix q (u32 (u32 (0 * radix) + d)) =
    Ok (u32 n, q + zlen ds + 1)).
  { intros q Hq. rewrite u32_add_l. apply (get_int_loop_digits radix _ ds n prog q c rest); try done.
    apply at_len in Hq. rewrite zlen_app in Hq. pose proof (zlen_nonneg (c :: rest)).
    unfold zlen in *. lia. }
  destruct Hp as [[-> ->]|Hp].
  - cbn [app] in Hat. exists c0. rewrite (at_get _ _ _ _ Hat).
    destruct (digit_not_letter c0 d Hdig Hlt) as (H1 & H2 & H3 & H4).
    split_and!; try done. rewrite H2, H3, H4. cbn [mbind res_bind]. rewrite Hci. cbn [mbind res_bind].
    rewrite Hloop by (by apply at_cons in Hat). cbn [app]. rewrite zlen_cons. do 2 f_equal. lia.
  - destruct Hp as [[-> ->]|[[-> ->]|[[-> ->]|[-> ->]]]]; cbn [app] in Hat;
      (eexists; split_and!; [by apply at_get in Hat|done|]);
      pose proof (at_cons _ _ _ _ Hat) as Hat1; apply at_cons in Hat1 as Hat2;
      eqb_closed; rewrite (get_char_at _ _ _ _ Hat1);
      cbn [mbind res_bind orb]; rewrite Hci; cbn [mbind res_bind];
      rewrite Hloop by done; rewrite zlen_app, zlen_cons; do 2 f_equal;
      change (zlen (bytes_of _)) with 1; lia.
Qed.

Lemma get_char_arr prog place c : arr_get prog place = Ok c -> get_char prog place = Ok (c, place + 1).
Proof.
  intros H. unfold get_char. pose proof (arr_get_bound _ _ _ H).
  destruct (Z.leb_spec (zlen prog) place); [lia|]. by rewrite H.
Qed.

Lemma get_int_numeral prog place txt n c rest :
  numeral txt n -> white c -> at_ prog place (txt ++ c :: rest) ->
  get_int prog place = Ok (u32 n, place + zlen txt + 1).
Proof.
  intros Hn Hc Hat. destruct Hn as [p radix c0 ds n Hp Hd|p radix c0 ds n Hp Hd].
  - rewrite <- app_assoc in Hat.
    destruct (get_int_unsigned prog place p radix c0 ds n c rest Hp Hd Hc Hat) as (cur & Hcur & Hneg & H).
    unfold get_int. rewrite (get_char_arr _ _ _ Hcur). cbn [mbind res_bind]. rewrite Hneg.
    apply bind_Ok in H as ([[r cur'] q] & Hr & H). apply bind_Ok in H as (v & Hv & H).
    cbn [mbind res_bind]. rewrite Hr. cbn [mbind res_bind]. rewrite Hv. cbn [mbind res_bind].
    rewrite H. done.
  - cbn [app] in Hat. rewrite <- app_assoc in Hat. pose proof (at_cons _ _ _ _ Hat) as Hat1.
    destruct (get_int_unsigned prog _ p radix c0 ds n c rest Hp Hd Hc Hat1) as (cur & Hcur & Hneg & H).
    unfold get_int. rewrite (get_char_at _ _ _ _ Hat). cbn [mbind res_bind]. rewrite Z.eqb_refl.
    rewrite (get_char_arr _ _ _ Hcur). cbn [mbind res_bind].
    apply bind_Ok in H as ([[r cur'] q] & Hr & H). apply bind_Ok in H as (v & Hv & H).
    rewrite Hr. cbn [mbind res_bind]. rewrite Hv. cbn [mbind res_bind].
    rewrite H. cbn [mbind res_bind]. do 2 f_equal.
    + unfold u32. rewrite <- (Z.sub_0_l (n mod _)), Zminus_mod_idemp_r. done.
    + rewrite zlen_cons. lia.
Qed.

(** ** Tokens *)

Definition delimited (rest : list Z) : Prop :=
  match rest with
  | [] => True
  | c :: _ => c = ch ";" \/ white c
  end.

Lemma is_prefix_loop_spec p w r : is_prefix_loop p w = Some r <-> w = p ++ r.
Proof.
  revert w. induction p as [|a p IH]; intros w; cbn [is_prefix_loop].
  - split; [by intros [= ->]|by intros ->].
  - destruct w as [|b w]; [split; discriminate|]. destruct (Z.eqb_spec a b) as [->|Hne].
    + rewrite IH. cbn. split; [by intros ->|by intros [= ->]].
    + split; [discriminate|]. cbn. intros [= ->]. done.
Qed.

Lemma is_prefix_spec p w : is_prefix p w = true <-> exists r, w = p ++ r /\ delimited r.
Proof.
  unfold is_prefix. destruct (Z.ltb_spec (zlen w) (zlen p)) as [Hlt|Hge].
  { split; [discriminate|]. intros (r & -> & _). rewrite zlen_app in Hlt.
    pose proof (zlen_nonneg r). lia. }
  destruct (is_prefix_loop p w) as [r|] eqn:E.
  - apply is_prefix_loop_spec in E as ->. rewrite zlen_app.
    destruct (Z.eqb_spec (zlen p) (zlen p + zlen r)) as [He|Hne].
    + split; [|done]. intros _. exists r. destruct r; [done|].
      rewrite zlen_cons in He. pose proof (zlen_nonneg r). lia.
    + destruct r as [|c r]; [rewrite zlen_nil in Hne; lia|]. split.
      * intros H%orb_true_iff. exists (c :: r). split; [done|]. cbn.
        rewrite white_spec. rewrite <- Z.eqb_eq. done.
      * intros (r' & Hr & Hdel). apply app_inv_head in Hr as <-. cbn in Hdel.
        apply orb_true_iff. by rewrite <- white_spec, Z.eqb_eq.
  - split; [discriminate|]. intros (r & Hr & _). apply is_prefix_loop_spec in Hr. congruence.
Qed.

Definition is_delim (c : Z) : bool := (c =? ch ";") || is_whitespace c.

Lemma delimited_head c rest : delimited (c :: rest) <-> is_delim c = true.
Proof. cbn [delimited]. unfold is_delim. by rewrite orb_true_iff, Z.eqb_eq, white_spec. Qed.

(** Two words without delimiters, at the same place and each followed by a
    delimiter or the end, are the same. *)
Lemma word_unique p q r r' :
  Forall (fun c => is_delim c = false) p -> Forall (fun c => is_delim c = false) q ->
  delimited r -> delimited r' -> p ++ r = q ++ r' -> p = q.
Proof.
  intros Hp. revert q. induction Hp as [|a p Ha Hp IH]; intros [|b q] Hq Hr Hr' Heq; cbn in Heq.
  - done.
  - subst r. apply delimited_head in Hr. inversion Hq; congruence.
  - subst r'. apply delimited_head in Hr'. congruence.
  - injection Heq as -> Heq. f_equal. apply IH; [by inversion Hq|done|done|done].
Qed.

Lemma names_no_delim :
  Forall (fun n => Forall (fun c => is_delim c = false) (bytes_of n)) instrs.
Proof.
  apply Forall_forall. intros n Hn.
  assert (forallb (fun n => forallb (fun c => negb (is_delim c)) (bytes_of n)) instrs = true) as H
    by (vm_compute; reflexivity).
  rewrite forallb_forall in H. specialize (H n). rewrite <- list_elem_of_In in H.
  specialize (H Hn). rewrite forallb_forall in H. apply Forall_forall. intros c Hc.
  apply negb_true_iff, H, list_elem_of_In, Hc.
Qed.

Lemma names_distinct : NoDup (bytes_of <$> instrs).
Proof. apply (bool_decide_unpack _). vm_compute. exact I. Qed.

Lemma find_instr_spec names i k n w r :
  names !! k = Some n -> Forall (fun n => Forall (fun c => is_delim c = false) (bytes_of n)) names ->
  NoDup (bytes_of <$> names) -> w = bytes_of n ++ r -> delimited r ->
  find_instr names i w = Some (i + Z.of_nat k, zlen (bytes_of n)).
Proof.
  intros Hk Hd Hnd -> Hr. revert i k Hk. induction names as [|m names IH]; intros i k Hk; [done|].
  cbn [find_instr]. inversion Hd; subst. cbn in Hnd. apply NoDup_cons in Hnd as [Hni Hnd].
  destruct k as [|k].
  - injection Hk as ->. replace (is_prefix (bytes_of n) (bytes_of n ++ r)) with true.
    + by rewrite Z.add_0_r.
    + symmetry. apply is_prefix_spec. eauto.
  - cbn in Hk. destruct (is_prefix (bytes_of m) (bytes_of n ++ r)) eqn:E.
    + apply is_prefix_spec in E as (r' & Heq & Hr'). exfalso. apply Hni.
      assert (bytes_of n = bytes_of m) as <-.
      { apply (word_unique _ _ r r'); try done.
        rewrite Forall_forall in H2. apply H2. by eapply list_elem_of_lookup_2. }
      apply list_elem_of_fmap. exists n. split; [done|by eapply list_elem_of_lookup_2].
    + rewrite (IH H2 Hnd (i + 1) k Hk). do 2 f_equal. lia.
Qed.

Lemma token_name_lookup t :
  exists n, instrs !! Z.to_nat (token_value t) = Some n /\ token_name t = bytes_of n.
Proof.
  unfold token_name. destruct (instrs !! Z.to_nat (token_value t)) as [n|] eqn:E.
  - by exists n.
  - apply lookup_ge_None in E. pose proof (token_value_range t).
    change (length instrs) with 51%nat in E. lia.
Qed.

Lemma next_token_name prog place t rest :
  at_ prog place (token_name t ++ rest) -> delimited rest ->
  get_next_instr_token prog place = Some (t, place + zlen (token_name t)).
Proof.
  intros Hat Hd. destruct (token_name_lookup t) as (n & Hn & Hname). rewrite Hname in *.
  unfold get_next_instr_token. rewrite (at_drop _ _ _ Hat).
  rewrite (find_instr_spec instrs 0 _ n _ rest Hn names_no_delim names_distinct eq_refl Hd).
  cbn [mbind option_bind]. pose proof (token_value_range t).
  replace (Z.to_nat (0 + Z.of_nat (Z.to_nat (token_value t)))) with (Z.to_nat (token_value t)) by lia.
  by rewrite all_tokens_spec.
Qed.

(** ** Packed types *)

(** The [j]-th pair of bits of a byte. *)
Definition field (b j : Z) : Z := (b / 4 ^ j) mod 4.

Lemma byte_forall (P : Z -> bool) :
  forallb P (Z.of_nat <$> List.seq 0 256) = true -> forall b, is_byte b -> P b = true.
Proof.
  intros H b Hb. rewrite forallb_forall in H. apply H, list_elem_of_In, list_elem_of_fmap.
  exists (Z.to_nat b). unfold is_byte in Hb. split; [lia|]. apply list_elem_of_In, in_seq. lia.
Qed.

Lemma four_cases j : 0 <= j < 4 -> j = 0 \/ j = 1 \/ j = 2 \/ j = 3.
Proof. lia. Qed.

Lemma field_zero b i j :
  is_byte b -> 0 <= i < 4 -> 0 <= j < 4 ->
  field (u8 (Z.land b (Z.lnot (Z.shiftl 3 (j * 2))))) i = if i =? j then 0 else field b i.
Proof.
  intros Hb Hi Hj. apply Z.eqb_eq.
  apply four_cases in Hi as [->|[->|[->| ->]]]; apply four_cases in Hj as [->|[->|[->| ->]]];
    revert b Hb; apply byte_forall; vm_compute; reflexivity.
Qed.

Lemma field_or b v i j :
  is_byte b -> 0 <= i < 4 -> 0 <= j < 4 -> v = 1 \/ v = 2 -> field b j = 0 ->
  field (u8 (Z.lor b (Z.shiftl v (j * 2)))) i = if i =? j then v else field b i.
Proof.
  intros Hb Hi Hj Hv Hz. apply Z.eqb_eq.
  assert (negb (field b j =? 0) ||
    (field (u8 (Z.lor b (Z.shiftl v (j * 2)))) i =? (if i =? j then v else field b i)) = true) as H;
    [|by rewrite Hz in H].
  clear Hz. destruct Hv as [-> | ->];
    (apply four_cases in Hi as [->|[->|[->| ->]]]; apply four_cases in Hj as [->|[->|[->| ->]]];
     revert b Hb; apply byte_forall; vm_compute; reflexivity).
Qed.

Lemma byte_fields b :
  is_byte b -> b = field b 0 + 4 * field b 1 + 16 * field b 2 + 64 * field b 3.
Proof.
  intros Hb. apply Z.eqb_eq. revert b Hb. apply byte_forall. vm_compute. reflexivity.
Qed.

Lemma byte_ext a b : is_byte a -> is_byte b -> (forall j, 0 <= j < 4 -> field a j = field b j) -> a = b.
Proof.
  intros Ha Hb H. rewrite (byte_fields a Ha), (byte_fields b Hb), !H by lia. done.
Qed.

(** The pair of bits at position [q] of a buffer. *)
Definition fld (buf : list Z) (q : Z) : Z :=
  match arr_get buf (q / 4) with Ok b => field b (q mod 4) | _ => 0 end.

Lemma arr_get_byte buf i b : Forall is_byte buf -> arr_get buf i = Ok b -> is_byte b.
Proof. intros H [_ Hl]%arr_get_Ok. by apply (Forall_lookup_1 _ _ _ _ H Hl). Qed.

Lemma fld_set buf i b buf' q :
  arr_set buf i b = Ok buf' ->
  fld buf' q = if q / 4 =? i then field b (q mod 4) else fld buf q.
Proof.
  intros H. unfold fld. rewrite (arr_get_set _ _ _ _ (q / 4) H). by destruct (q / 4 =? i).
Qed.

Lemma arr_set_bytes buf i b buf' :
  Forall is_byte buf -> is_byte b -> arr_set buf i b = Ok buf' -> Forall is_byte buf'.
Proof. intros Hf Hb [_ ->]%arr_set_Ok. by apply Forall_insert. Qed.

(** What an update of the pair at [4 * base + pos] does to a buffer. *)
Definition updates (buf buf' : list Z) (base pos v : Z) : Prop :=
  zlen buf' = zlen buf /\ Forall is_byte buf' /\
  forall q, fld buf' q = if q =? 4 * base + pos then v else fld buf q.

Lemma position_eq base pos q :
  q / 4 = base + pos / 4 -> (q mod 4 =? pos mod 4) = (q =? 4 * base + pos).
Proof.
  intros H. pose proof (Z.div_mod q 4 ltac:(lia)). pose proof (Z.div_mod pos 4 ltac:(lia)).
  destruct (Z.eqb_spec (q mod 4) (pos mod 4)), (Z.eqb_spec q (4 * base + pos)); lia.
Qed.

Lemma position_ne base pos q : q / 4 <> base + pos / 4 -> (q =? 4 * base + pos) = false.
Proof.
  intros H. apply Z.eqb_neq. intros ->. apply H. by rewrite Z.mul_comm, Z.div_add_l by lia.
Qed.

Lemma zero_position_spec buf base pos :
  Forall is_byte buf -> 0 <= base + pos / 4 < zlen buf ->
  exists buf', zero_position buf base pos = Ok buf' /\ updates buf buf' base pos 0.
Proof.
  intros Hf Hr. destruct (arr_get_ok buf _ Hr) as [b Hb]. unfold zero_position. rewrite Hb.
  cbn [mbind res_bind]. eexists. split; [by apply arr_set_ok|].
  pose proof (arr_get_byte _ _ _ Hf Hb) as Hbyte.
  pose proof (arr_set_ok buf _ (u8 (Z.land b (Z.lnot (Z.shiftl 3 (pos mod 4 * 2))))) Hr) as Hset.
  split_and!; [by eapply arr_set_len| |].
  - eapply arr_set_bytes; [done| |exact Hset]. apply u8_range.
  - intros q. rewrite (fld_set _ _ _ _ q Hset). destruct (Z.eqb_spec (q / 4) (base + pos / 4)) as [He|He].
    + rewrite field_zero by (done || apply Z.mod_pos_bound; lia).
      rewrite (position_eq base pos q He). destruct (_ =? _); [done|].
      unfold fld. by rewrite He, Hb.
    + by rewrite (position_ne base pos q He).
Qed.

Lemma set_position_spec buf base pos v :
  Forall is_byte buf -> 0 <= base + pos / 4 < zlen buf -> v = 1 \/ v = 2 ->
  exists buf', set_position buf base pos v = Ok buf' /\ updates buf buf' base pos v.
Proof.
  intros Hf Hr Hv. destruct (zero_position_spec buf base pos Hf Hr) as (buf1 & Hz & Hl & Hf1 & Hq1).
  unfold set_position. rewrite Hz. cbn [mbind res_bind]. rewrite <- Hl in Hr.
  destruct (arr_get_ok buf1 _ Hr) as [b Hb]. rewrite Hb. cbn [mbind res_bind].
  pose proof (arr_get_byte _ _ _ Hf1 Hb) as Hbyte.
  pose proof (arr_set_ok buf1 _ (u8 (Z.lor b (Z.shiftl v (pos mod 4 * 2)))) Hr) as Hset.
  assert (Hz0 : field b (pos mod 4) = 0).
  { specialize (Hq1 (4 * base + pos)). rewrite Z.eqb_refl in Hq1. unfold fld in Hq1.
    rewrite Z.mul_comm, Z.div_add_l, Hb in Hq1 by lia.
    by rewrite Z.add_comm, Z.mod_add in Hq1 by lia. }
  eexists. split; [exact Hset|]. split_and!.
  - rewrite <- Hl. by eapply arr_set_len.
  - eapply arr_set_bytes; [exact Hf1| |exact Hset]. apply u8_range.
  - intros q. rewrite (fld_set _ _ _ _ q Hset). destruct (Z.eqb_spec (q / 4) (base + pos / 4)) as [He|He].
    + rewrite field_or by (done || apply Z.mod_pos_bound; lia).
      rewrite (position_eq base pos q He). specialize (Hq1 q). destruct (q =? 4 * base + pos) eqn:E; [done|].
      rewrite <- Hq1. unfold fld. by rewrite He, Hb.
    + rewrite Hq1. by rewrite (position_ne base pos q He).
Qed.

(** The pairs [[lo, lo + length ts)] of [buf'] are the codes of [ts]; the others
    are those of [buf]. *)
Definition holds_types (buf buf' : list Z) (lo : Z) (ts : list ty) : Prop :=
  zlen buf' = zlen buf /\ Forall is_byte buf' /\
  forall q, fld buf' q = if (lo <=? q) && (q <? lo + zlen ts)
                         then code_at_pos ts (Z.to_nat (q - lo)) else fld buf q.

Lemma holds_types_nil buf lo : Forall is_byte buf -> holds_types buf buf lo [].
Proof.
  intros H. split_and!; [done|done|]. intros q. rewrite zlen_nil.
  destruct (Z.leb_spec lo q), (Z.ltb_spec q (lo + 0)); cbn; done || lia.
Qed.

Lemma holds_types_cons buf buf1 buf' base pos a ts :
  updates buf buf1 base pos (ty_code a) ->
  holds_types buf1 buf' (4 * base + (pos + 1)) ts ->
  holds_types buf buf' (4 * base + pos) (a :: ts).
Proof.
  intros (Hl1 & _ & Hq1) (Hl & Hf & Hq). split_and!; [congruence|done|].
  intros q. rewrite Hq, Hq1, zlen_cons. set (lo := 4 * base + pos).
  replace (4 * base + (pos + 1)) with (lo + 1) by lia.
  destruct (Z.eqb_spec q lo) as [->|Hne].
  - rewrite Z.sub_diag. repeat zcase; cbn; try lia; try done.
    pose proof (zlen_nonneg ts). lia.
  - repeat zcase; cbn; try lia; try done.
    replace (Z.to_nat (q - lo)) with (S (Z.to_nat (q - (lo + 1)))) by lia. done.
Qed.

Lemma spells_types_stops txt ts rest : spells_types txt ts -> stops (txt ++ ch ")" :: rest).
Proof.
  intros H. assert (forall c, 41 <= c -> c <> 59 -> stops (c :: rest)) as Hs.
  { intros c H1 H2. split; [done|]. rewrite white_spec. unfold is_whitespace.
    repeat zcase; cbn; lia. }
  destruct H as [|[] w txt ts Hw Ht]; (split; [done|]; rewrite white_spec; by vm_compute).
Qed.

Lemma ty_code_cases a : ty_code a = 1 \/ ty_code a = 2.
Proof. destruct a; auto. Qed.

(** The test of the three letters. *)
Lemma type_letters (a : ty) (buf : list Z) base k :
  exists c c1 c2, ty_name a = [c; c1; c2] /\ (c =? ch ")") = false /\
    (if (c =? ch "i") && (c1 =? ch "n") && (c2 =? ch "t") then set_position buf base k 1
     else if (c =? ch "f") && (c1 =? ch "l") && (c2 =? ch "t") then set_position buf base k 2
     else Err) = set_position buf base k (ty_code a).
Proof. destruct a; do 3 eexists; (split; [reflexivity|split; reflexivity]). Qed.

Lemma get_type_list_loop_spec txt ts prog place rest buf base k fuel :
  spells_types txt ts -> at_ prog place (txt ++ ch ")" :: rest) ->
  Forall is_byte buf -> 0 <= base -> 0 <= k -> base + (k + zlen ts) / 4 < zlen buf ->
  (length txt < fuel)%nat ->
  exists buf', get_type_list_loop fuel prog place buf base k =
                 Ok (place + zlen txt, buf', k + zlen ts) /\
               holds_types buf buf' (4 * base + k) ts.
Proof.
  intros Ht. revert place buf k fuel.
  induction Ht as [|a w txt ts Hw Ht IH]; intros place buf k fuel Hat Hf Hb Hk Hroom Hfuel;
    (destruct fuel as [|fuel]; [lia|]); cbn [get_type_list_loop].
  - cbn [app] in Hat. rewrite (at_get _ _ _ _ Hat). cbn [mbind res_bind]. rewrite Z.eqb_refl.
    exists buf. rewrite !zlen_nil, !Z.add_0_r. split; [done|by apply holds_types_nil].
  - destruct (type_letters a buf base k) as (c & c1 & c2 & Hname & Hpar & Hset). rewrite Hname in *.
    cbn [app] in Hat. rewrite <- !app_assoc in Hat.
    pose proof (at_cons _ _ _ _ Hat) as Hat1. pose proof (at_cons _ _ _ _ Hat1) as Hat2.
    pose proof (at_cons _ _ _ _ Hat2) as Hat3.
    rewrite (at_get _ _ _ _ Hat). cbn [mbind res_bind]. rewrite Hpar.
    pose proof (at_len _ _ _ Hat3) as [Hlen _]. rewrite !zlen_app, zlen_cons in Hlen.
    pose proof (zlen_nonneg w). pose proof (zlen_nonneg txt). pose proof (zlen_nonneg rest).
    pose proof (zlen_nonneg ts). rewrite zlen_cons in Hroom.
    destruct (Z.leb_spec (zlen prog) (place + 3)); [lia|].
    rewrite (at_get _ _ _ _ Hat1). replace (place + 1 + 1) with (place + 2) in * by lia.
    replace (place + 2 + 1) with (place + 3) in * by lia.
    cbn [mbind res_bind]. rewrite (at_get _ _ _ _ Hat2). cbn [mbind res_bind]. rewrite Hset.
    destruct (set_position_spec buf base k (ty_code a)) as (buf1 & -> & Hup).
    { done. }
    { split; [apply Z.add_nonneg_nonneg, Z.div_pos; lia|].
      eapply Z.le_lt_trans; [|exact Hroom]. apply Z.add_le_mono_l, Z.div_le_mono; lia. }
    { apply ty_code_cases. }
    cbn [mbind res_bind].
    rewrite (consume_blank prog (place + 3) w (txt ++ ch ")" :: rest)) by
      (done || by eapply spells_types_stops). cbn [mbind res_bind].
    destruct (IH (place + 3 + zlen w) buf1 (k + 1) fuel) as (buf' & Hrun & Hh).
    + by apply at_app.
    + apply Hup.
    + done.
    + lia.
    + destruct Hup as (-> & _). eapply Z.le_lt_trans; [|exact Hroom].
      apply Z.add_le_mono_l, Z.div_le_mono; lia.
    + rewrite !length_app in Hfuel. cbn in Hfuel. lia.
    + exists buf'. split; [|by eapply holds_types_cons].
      rewrite Hrun. autorewrite with cmem. do 2 f_equal; [f_equal|]; lia.
Qed.

Lemma zero_rest_spec n buf base k :
  Forall is_byte buf -> 0 <= base -> 0 <= k -> (n = 0%nat \/ base + (k + Z.of_nat n - 1) / 4 < zlen buf) ->
  exists buf', zero_rest n buf base k = Ok buf' /\ zlen buf' = zlen buf /\ Forall is_byte buf' /\
    forall q, fld buf' q = if (4 * base + k <=? q) && (q <? 4 * base + k + Z.of_nat n)
                           then 0 else fld buf q.
Proof.
  revert buf k. induction n as [|n IH]; intros buf k Hf Hb Hk Hroom; cbn [zero_rest].
  - exists buf. split_and!; try done. intros q. repeat zcase; cbn; done || lia.
  - destruct Hroom as [|Hroom]; [done|].
    destruct (zero_position_spec buf base k Hf) as (buf1 & -> & Hl1 & Hf1 & Hq1).
    { split; [apply Z.add_nonneg_nonneg, Z.div_pos; lia|].
      eapply Z.le_lt_trans; [|exact Hroom]. apply Z.add_le_mono_l, Z.div_le_mono; lia. }
    cbn [mbind res_bind]. destruct (IH buf1 (k + 1)) as (buf' & Hr & Hl & Hf' & Hq); try done; [lia| |].
    { rewrite Hl1. destruct n; [by left|right].
      eapply Z.le_lt_trans; [|exact Hroom]. apply Z.add_le_mono_l, Z.div_le_mono; lia. }
    exists buf'. split_and!; [done|congruence|done|]. intros q. rewrite Hq, Hq1.
    repeat zcase; cbn; done || lia.
Qed.

Lemma code_at_pos_range ts p : 0 <= code_at_pos ts p < 3.
Proof. unfold code_at_pos. destruct (ts !! p) as [[]|]; cbn; lia. Qed.

Lemma code_at_pos_end ts p : (length ts <= p)%nat -> code_at_pos ts p = 0.
Proof. intros H. unfold code_at_pos. by rewrite lookup_ge_None_2. Qed.

Lemma pack_byte_is_byte ts i : is_byte (pack_byte ts i).
Proof.
  unfold is_byte, pack_byte.
  pose proof (code_at_pos_range ts (4 * i)). pose proof (code_at_pos_range ts (4 * i + 1)).
  pose proof (code_at_pos_range ts (4 * i + 2)). pose proof (code_at_pos_range ts (4 * i + 3)). lia.
Qed.

Lemma field_pack_byte ts i j : (j < 4)%nat -> field (pack_byte ts i) (Z.of_nat j) = code_at_pos ts (4 * i + j).
Proof.
  intros Hj. unfold pack_byte, field.
  pose proof (code_at_pos_range ts (4 * i)). pose proof (code_at_pos_range ts (4 * i + 1)).
  pose proof (code_at_pos_range ts (4 * i + 2)). pose proof (code_at_pos_range ts (4 * i + 3)).
  assert (j = 0 \/ j = 1 \/ j = 2 \/ j = 3)%nat as [->|[->|[->| ->]]] by lia; rewrite ?Nat.add_0_r;
    [change (4 ^ Z.of_nat 0) with 1|change (4 ^ Z.of_nat 1) with 4
    |change (4 ^ Z.of_nat 2) with 16|change (4 ^ Z.of_nat 3) with 64];
    Z.div_mod_to_equations; lia.
Qed.

Lemma pack_lookup ts i : (i < length ts / 4 + 1)%nat -> pack ts !! i = Some (pack_byte ts i).
Proof.
  intros H. unfold pack. rewrite list_lookup_fmap, lookup_seq_lt by done. done.
Qed.

Lemma length_pack ts : length (pack ts) = (length ts / 4 + 1)%nat.
Proof. unfold pack. by rewrite length_fmap, length_seq. Qed.

Lemma zlen_pack ts : zlen (pack ts) = zlen ts / 4 + 1.
Proof. unfold zlen. rewrite length_pack, Nat2Z.inj_add, Nat2Z.inj_div. done. Qed.

(** ** The buffer of an instruction *)

(** [buf] starts with [l]. *)
Definition begins (buf l : list Z) : Prop := take (length l) buf = l.

Lemma begins_lookup buf l i b : begins buf l -> l !! i = Some b -> buf !! i = Some b.
Proof.
  intros H Hl. rewrite <- H in Hl. apply lookup_take_Some in Hl. tauto.
Qed.

Lemma fld_at buf i j b :
  buf !! i = Some b -> 0 <= j < 4 -> fld buf (4 * Z.of_nat i + j) = field b j.
Proof.
  intros Hb Hj. unfold fld.
  replace ((4 * Z.of_nat i + j) / 4) with (Z.of_nat i) by (Z.div_mod_to_equations; lia).
  replace ((4 * Z.of_nat i + j) mod 4) with j by (Z.div_mod_to_equations; lia).
  unfold arr_get. destruct (Z.ltb_spec (Z.of_nat i) 0); [lia|]. by rewrite Nat2Z.id, Hb.
Qed.

(** A buffer that agrees with [buf] on the pairs before [4 * zlen l], and holds
    the types [ts] after them. *)
Lemma begins_pack buf buf' l ts :
  begins buf l -> (length l <= length buf)%nat -> zlen buf' = zlen buf ->
  Forall is_byte buf -> Forall is_byte buf' -> zlen l + zlen (pack ts) <= zlen buf ->
  (forall q, q < 4 * zlen l -> fld buf' q = fld buf q) ->
  (forall p, (p < 4 * length (pack ts))%nat -> fld buf' (4 * zlen l + Z.of_nat p) = code_at_pos ts p) ->
  begins buf' (l ++ pack ts).
Proof.
  intros Hb Hll Hlen Hf Hf' Hroom Hlow Hhigh. unfold begins. apply list_eq. intros i.
  destruct (decide (i < length (l ++ pack ts))%nat) as [Hi|Hi].
  2:{ rewrite !lookup_ge_None_2; [done|lia|]. rewrite length_take. lia. }
  rewrite length_app in Hi. rewrite lookup_take_lt by (rewrite length_app; lia).
  unfold zlen in *. destruct (lookup_lt_is_Some_2 buf' i) as [b' Hb']; [lia|]. rewrite Hb'.
  pose proof (Forall_lookup_1 _ _ _ _ Hf' Hb') as Hbyte'.
  destruct (decide (i < length l)%nat) as [Hil|Hil].
  - rewrite lookup_app_l by done. destruct (lookup_lt_is_Some_2 l i Hil) as [b Hlb]. rewrite Hlb.
    pose proof (begins_lookup _ _ _ _ Hb Hlb) as Hbb. f_equal.
    apply byte_ext; [done|by apply (Forall_lookup_1 _ _ _ _ Hf Hbb)|].
    intros j Hj. rewrite <- (fld_at buf' i j b') by done. rewrite Hlow by lia.
    by apply fld_at.
  - rewrite lookup_app_r by lia. rewrite length_pack in *.
    rewrite pack_lookup by lia. f_equal. apply byte_ext; [done|apply pack_byte_is_byte|].
    intros j Hj. rewrite <- (fld_at buf' i j b') by done.
    replace (4 * Z.of_nat i + j) with
      (4 * Z.of_nat (length l) + Z.of_nat (4 * (i - length l) + Z.to_nat j)) by lia.
    rewrite Hhigh by lia. rewrite <- (Z2Nat.id j) at 2 by lia. by rewrite field_pack_byte by lia.
Qed.

Lemma get_type_list_spec prog place txt ts rest buf l :
  spells_list txt ts -> at_ prog place (txt ++ rest) ->
  Forall is_byte buf -> begins buf l -> zlen l + zlen (pack ts) <= zlen buf ->
  exists buf', get_type_list prog place buf (zlen l) = Ok (place + zlen txt, buf', zlen (pack ts)) /\
    Forall is_byte buf' /\ zlen buf' = zlen buf /\ begins buf' (l ++ pack ts).
Proof.
  intros Hs Hat Hf Hbeg Hroom. destruct Hs as [w txt ts Hw Hts].
  cbn [app] in Hat. rewrite <- !app_assoc in Hat. cbn [app] in Hat.
  unfold get_type_list. rewrite (get_char_at _ _ _ _ Hat). cbn [mbind res_bind].
  rewrite Z.eqb_refl. cbn [mbind res_bind require].
  pose proof (at_cons _ _ _ _ Hat) as Hat1.
  rewrite (consume_blank _ _ w (txt ++ ch ")" :: rest)) by (done || by eapply spells_types_stops).
  cbn [mbind res_bind]. pose proof (at_app _ _ _ _ Hat1) as Hat2.
  pose proof (zlen_nonneg l) as Hl0. pose proof (zlen_nonneg ts) as Ht0. rewrite zlen_pack in *.
  destruct (get_type_list_loop_spec txt ts prog (place + 1 + zlen w) rest buf (zlen l) 0 (S (length prog)))
    as (buf1 & -> & Hl1 & Hf1 & Hq1); try done; [rewrite Z.add_0_l; lia| |].
  { apply at_len in Hat2. rewrite zlen_app in Hat2. pose proof (zlen_nonneg (ch ")" :: rest)).
    unfold zlen in *. lia. }
  cbn [mbind res_bind]. rewrite !Z.add_0_l. set (n := zlen ts) in *.
  destruct (zero_position_spec buf1 (zlen l) n Hf1) as (buf2 & -> & Hl2 & Hf2 & Hq2).
  { split; [apply Z.add_nonneg_nonneg, Z.div_pos; lia|lia]. }
  cbn [mbind res_bind]. replace (n + 1 - 1) with n by lia.
  set (e := 4 * (n / 4 + 1)). pose proof (Z.div_mod n 4 ltac:(lia)) as Hn.
  pose proof (Z.mod_pos_bound n 4 ltac:(lia)) as Hm.
  destruct (zero_rest_spec (Z.to_nat (e - (n + 1))) buf2 (zlen l) (n + 1)) as (buf3 & -> & Hl3 & Hf3 & Hq3);
    try done; [lia| |].
  { destruct (Z.eq_dec (e - (n + 1)) 0) as [->|]; [by left|right].
    rewrite Z2Nat.id by (subst e; lia).
    replace (n + 1 + (e - (n + 1)) - 1) with (e - 1) by lia.
    replace ((e - 1) / 4) with (n / 4) by (subst e; Z.div_mod_to_equations; lia). lia. }
  cbn [mbind res_bind]. exists buf3. split_and!.
  - autorewrite with cmem. replace (e / 4) with (n / 4 + 1) by (subst e; Z.div_mod_to_equations; lia).
    do 3 f_equal. lia.
  - done.
  - congruence.
  - apply (begins_pack buf); try done; [|congruence|by rewrite zlen_pack| |].
    + unfold begins in Hbeg. rewrite <- Hbeg at 1. rewrite length_take. lia.
    + intros q Hq. rewrite Hq3, Hq2, Hq1. rewrite Z2Nat.id by (subst e; lia).
      repeat zcase; cbn [andb]; done || lia.
    + intros p Hp. rewrite length_pack in Hp. rewrite Hq3, Hq2, Hq1. rewrite Z2Nat.id by (subst e; lia).
      assert (Hpe : Z.of_nat p < e).
      { subst e n. unfold zlen in *. pose proof (Nat2Z.inj_div (length ts) 4) as Hd.
        change (Z.of_nat 4) with 4 in Hd. lia. }
      destruct (decide (p < length ts)%nat) as [Hlt|Hge].
      * subst n. unfold zlen in *. repeat zcase; cbn [andb]; try lia. f_equal. lia.
      * rewrite (code_at_pos_end ts p) by lia. subst n. unfold zlen in *. repeat zcase; cbn [andb]; done || lia.
Qed.

(** ** Instructions *)

Lemma stops_char c rest : is_delim c = false -> stops (c :: rest).
Proof.
  unfold is_delim. intros [H1 H2]%orb_false_iff. split; [by apply Z.eqb_neq|].
  rewrite white_spec. congruence.
Qed.

Lemma token_name_stops t rest : stops (token_name t ++ rest).
Proof. destruct t; apply stops_char; vm_compute; reflexivity. Qed.

Lemma digit_not_delim c d : digit c = Some d -> c <> 59 -> is_delim c = false.
Proof.
  intros H Hne. unfold is_delim. rewrite (digits_nonwhite _ _ H). change (ch ";") with 59.
  by destruct (Z.eqb_spec c 59).
Qed.

Lemma digit_not_semicolon c d : digit c = Some d -> c <> 59.
Proof. intros H ->. by vm_compute in H. Qed.

Lemma numeral_stops txt n rest : numeral txt n -> stops (txt ++ rest).
Proof.
  intros [p radix c ds m Hp Hd|p radix c ds m Hp Hd]; [|apply stops_char; by vm_compute].
  destruct Hp as [[-> _]|[[-> _]|[[-> _]|[[-> _]|[-> _]]]]]; cbn [app];
    [|apply stops_char; by vm_compute..].
  inversion Hd; subst. apply stops_char. eapply digit_not_delim; [done|].
  by eapply digit_not_semicolon.
Qed.

Lemma spells_list_stops txt ts rest : spells_list txt ts -> stops (txt ++ rest).
Proof. intros []. apply stops_char. by vm_compute. Qed.

Lemma blank_delimited w rest : blank w -> w <> [] -> delimited (w ++ rest).
Proof. intros [|c w' Hc Hw|body w' Hb Hw] Hne; [done|by right|by left]. Qed.

(** What one instruction leaves: the pieces of an iteration of [parse_sume]. *)
Record parsed (prog : list Z) (place : Z) (buf : list Z) (i : instr) (place' : Z) (buf' : list Z)
    (rest : list Z) : Prop := {
  pa_run : exists t q buf1 n,
    get_next_instr_token prog place = Some (t, q) /\ arr_set buf 0 (token_value t) = Ok buf1 /\
    parse_operands prog q buf1 t = Ok (place', buf', n) /\ arr_read buf' 0 n = Ok (encode_instr i);
  pa_bytes : Forall is_byte buf';
  pa_len : zlen buf' = zlen buf;
  pa_rest : exists w, blank w /\ at_ prog place' (w ++ rest);
}.

Lemma begins_read buf l : begins buf l -> zlen l <= zlen buf -> arr_read buf 0 (zlen l) = Ok l.
Proof.
  intros Hb Hl. unfold arr_read. pose proof (zlen_nonneg l).
  destruct (Z.ltb_spec (zlen l) 0), (Z.ltb_spec (zlen buf) (0 + zlen l)); cbn; try lia.
  unfold zlen. rewrite Nat2Z.id. unfold begins in Hb. by rewrite drop_0, Hb.
Qed.

Lemma token_is_byte t : is_byte (token_value t).
Proof. pose proof (token_value_range t). unfold is_byte. lia. Qed.

(** The first byte of the buffer set to the token. *)
Lemma set_token buf t :
  Forall is_byte buf -> 0 < zlen buf ->
  exists buf1, arr_set buf 0 (token_value t) = Ok buf1 /\ Forall is_byte buf1 /\
               zlen buf1 = zlen buf /\ begins buf1 [token_value t].
Proof.
  intros Hf Hl. pose proof (arr_set_ok buf 0 (token_value t) ltac:(lia)) as Hset.
  eexists. split; [exact Hset|]. split_and!.
  - eapply arr_set_bytes; [exact Hf|apply token_is_byte|exact Hset].
  - by eapply arr_set_len.
  - by destruct buf.
Qed.

Lemma begins_write buf a bs :
  begins buf [a] -> 1 + zlen bs <= zlen buf ->
  exists buf', arr_write buf 1 bs = Ok buf' /\ zlen buf' = zlen buf /\ begins buf' (a :: bs) /\
               (Forall is_byte buf -> Forall is_byte bs -> Forall is_byte buf').
Proof.
  intros Hb Hl. destruct buf as [|b buf]; [done|]. injection Hb as ->.
  eexists. split; [apply arr_write_Ok; split_and!; [lia|lia|reflexivity]|].
  change (Z.to_nat 1) with 1%nat. cbn [take app]. rewrite take_0, app_nil_l, zlen_cons in *.
  unfold zlen in *. split_and!.
  - cbn [length]. rewrite length_app, length_drop. cbn [length]. lia.
  - unfold begins. cbn [length take app]. f_equal. by rewrite take_app_length.
  - intros Hf Hbs. apply Forall_cons in Hf as [Ha Hf]. apply Forall_cons_2; [done|].
    apply Forall_app_2; [done|]. by apply Forall_drop, Forall_cons_2.
Qed.

Lemma parse_operands_imm t :
  operand_kind t = KInt ->
  forall prog place buf, parse_operands prog place buf t =
    (place ← consume_whitespace prog place;
     '(iv, place) ← ToIr.get_int prog place;
     buf ← arr_write buf 1 (le_bytes 4 iv);
     Ok (place, buf, 5)).
Proof. by destruct t. Qed.

Lemma parse_operands_decl t :
  operand_kind t = KTypes ->
  forall prog place buf, parse_operands prog place buf t =
    (place ← consume_whitespace prog place;
     '(place, buf, n) ← get_type_list prog place buf 1;
     place ← consume_whitespace prog place;
     '(place, buf, n') ← get_type_list prog place buf (1 + n);
     Ok (place, buf, 1 + n + n')).
Proof. by destruct t. Qed.

Lemma parse_operands_plain t prog place buf :
  operand_kind t = KNone -> parse_operands prog place buf t = Ok (place, buf, 1).
Proof. by destruct t. Qed.

Section one_instr.
Context (prog : list Z) (place : Z) (rest buf : list Z) (t : instr_token).
Hypothesis Hf : Forall is_byte buf.

(** The token, read and stored. *)
Lemma token_read w after :
  at_ prog place (token_name t ++ w ++ after) -> blank w -> w <> [] -> 0 < zlen buf ->
  exists q buf1, get_next_instr_token prog place = Some (t, q) /\ at_ prog q (w ++ after) /\
    arr_set buf 0 (token_value t) = Ok buf1 /\ Forall is_byte buf1 /\ zlen buf1 = zlen buf /\
    begins buf1 [token_value t].
Proof.
  intros Hat Hw Hne Hpos. destruct (set_token buf t Hf Hpos) as (buf1 & Hset & H).
  exists (place + zlen (token_name t)), buf1. split_and!; try done; try apply H.
  - eapply next_token_name; [exact Hat|by apply blank_delimited].
  - by apply at_app.
Qed.

Lemma parse_plain w :
  operand_kind t = KNone -> blank w -> w <> [] -> at_ prog place (token_name t ++ w ++ rest) ->
  1 <= zlen buf -> exists place' buf', parsed prog place buf (Plain t) place' buf' rest.
Proof.
  intros Hk Hw Hne Hat Hroom.
  destruct (token_read w rest) as (q & buf1 & Htok & Hat1 & Hset & Hf1 & Hl1 & Hb1); try done; [lia|].
  exists q, buf1. constructor; try done; [|by exists w].
  exists t, q, buf1, 1. split_and!; try done.
  - by apply parse_operands_plain.
  - apply (begins_read buf1 [token_value t]); [done|by rewrite Hl1].
Qed.

Lemma parse_imm w txt n c :
  operand_kind t = KInt -> blank w -> w <> [] -> numeral txt n -> white c ->
  at_ prog place (token_name t ++ w ++ txt ++ c :: rest) -> 5 <= zlen buf ->
  exists place' buf', parsed prog place buf (Imm t (u32 n)) place' buf' rest.
Proof.
  intros Hk Hw Hne Hn Hc Hat Hroom.
  destruct (token_read w (txt ++ c :: rest)) as (q & buf1 & Htok & Hat1 & Hset & Hf1 & Hl1 & Hb1);
    try done; [lia|].
  destruct (begins_write buf1 (token_value t) (le_bytes 4 (u32 n)) Hb1) as (buf2 & Hwr & Hl2 & Hb2 & Hf2).
  { rewrite Hl1. change (zlen (le_bytes 4 (u32 n))) with 4. lia. }
  eexists _, buf2. constructor.
  - exists t, q, buf1, 5. split_and!; try done.
    + rewrite parse_operands_imm by done.
      rewrite (consume_blank _ _ w (txt ++ c :: rest)) by (done || by eapply numeral_stops).
      cbn [mbind res_bind]. rewrite (get_int_numeral _ _ txt n c rest) by (done || by apply at_app).
      cbn [mbind res_bind]. rewrite Hwr. reflexivity.
    + apply (begins_read buf2 (token_value t :: le_bytes 4 (u32 n))); [done|].
      by rewrite Hl2, Hl1.
  - apply Hf2; [done|apply le_bytes_are_bytes].
  - by rewrite Hl2, Hl1.
  - exists []. split; [constructor|]. cbn [app]. do 2 apply at_app in Hat1. by apply at_cons in Hat1.
Qed.

Lemma parse_decl w1 txt1 ps w2 txt2 ls :
  operand_kind t = KTypes -> blank w1 -> w1 <> [] -> spells_list txt1 ps -> blank w2 ->
  spells_list txt2 ls -> at_ prog place (token_name t ++ w1 ++ txt1 ++ w2 ++ txt2 ++ rest) ->
  1 + (zlen (pack ps) + zlen (pack ls)) <= zlen buf ->
  exists place' buf', parsed prog place buf (Decl t ps ls) place' buf' rest.
Proof.
  intros Hk Hw1 Hne H1 Hw2 H2 Hat Hroom.
  pose proof (zlen_nonneg (pack ps)). pose proof (zlen_nonneg (pack ls)).
  destruct (token_read w1 (txt1 ++ w2 ++ txt2 ++ rest))
    as (q & buf1 & Htok & Hat0 & Hset & Hf1 & Hl1 & Hb1); try done; [lia|].
  pose proof (at_app _ _ _ _ Hat0) as Hat1.
  destruct (get_type_list_spec prog _ txt1 ps _ buf1 [token_value t] H1 Hat1 Hf1 Hb1)
    as (buf2 & Hg1 & Hf2 & Hl2 & Hb2); change (zlen [token_value t]) with 1 in *; [lia|].
  apply at_app in Hat1. pose proof (at_app _ _ _ _ Hat1) as Hat2.
  destruct (get_type_list_spec prog _ txt2 ls _ buf2 _ H2 Hat2 Hf2 Hb2) as (buf3 & Hg2 & Hf3 & Hl3 & Hb3);
    rewrite zlen_app in *; change (zlen [token_value t]) with 1 in *; [lia|].
  eexists _, buf3. constructor; [|done|congruence|].
  - exists t, q, buf1, (zlen (token_value t :: pack ps ++ pack ls)). split_and!; try done.
    + rewrite parse_operands_decl by done.
      rewrite (consume_blank _ _ w1 (txt1 ++ w2 ++ txt2 ++ rest)) by (done || by eapply spells_list_stops).
      cbn [mbind res_bind]. rewrite Hg1. cbn [mbind res_bind].
      rewrite (consume_blank _ _ w2 (txt2 ++ rest)) by (done || by eapply spells_list_stops).
      cbn [mbind res_bind]. rewrite Hg2. cbn [mbind res_bind]. do 2 f_equal. autorewrite with cmem. lia.
    + rewrite <- app_assoc in Hb3. apply begins_read; [done|].
      rewrite Hl3, Hl2, Hl1. cbn [encode_instr]. autorewrite with cmem. lia.
  - exists []. split; [constructor|]. by apply at_app in Hat2.
Qed.

End one_instr.

Lemma parse_instr_spec txt i prog place rest buf :
  spells_instr txt i -> at_ prog place (txt ++ rest) -> Forall is_byte buf ->
  zlen (encode_instr i) <= zlen buf ->
  exists place' buf', parsed prog place buf i place' buf' rest.
Proof.
  intros Hs Hat Hf Hroom. destruct Hs; rewrite <- ?app_assoc in Hat; cbn [encode_instr] in Hroom.
  - eapply parse_plain; [..|exact Hroom]; done.
  - eapply parse_imm; [..|exact Hroom]; done.
  - rewrite zlen_cons, zlen_app in Hroom. by apply (parse_decl _ _ _ _ _ Hf w1 txt1 _ w2 txt2).
Qed.

Lemma spells_instr_nonempty txt i : spells_instr txt i -> txt <> [].
Proof. intros []; destruct t; discriminate. Qed.

(** ** Whole programs *)

(** A growable array that owns a block of its maximal size. *)
Record arr_ok (a : dyn_arr) : Prop := {
  ao_data : exists d, data a = Some d /\ zlen d = max_sz a;
  ao_size : 0 <= size a <= max_sz a;
  ao_max : max_sz a < 2 ^ 32;
}.

Lemma append_fits malloc a dat :
  arr_ok a -> size a + zlen dat <= max_sz a ->
  exists a', append_dyn_arr malloc a dat = Ok a' /\ arr_ok a' /\ max_sz a' = max_sz a /\
    size a' = size a + zlen dat /\ contents a' = contents a ++ dat.
Proof.
  intros [(d & Hd & Hl) Hs Hm] Hfit. pose proof (zlen_nonneg dat).
  unfold append_dyn_arr. rewrite (u32_small (size a + zlen dat)) by lia.
  destruct (Z.ltb_spec (max_sz a) (size a + zlen dat)); [lia|]. cbn [mbind res_bind].
  rewrite Hd. cbn [checked mbind res_bind].
  set (new := take (Z.to_nat (size a)) d ++ dat ++ drop (Z.to_nat (size a) + length dat) d).
  assert (Hw : arr_write d (size a) dat = Ok new) by (apply arr_write_Ok; split_and!; [lia|lia|done]).
  rewrite Hw. cbn [mbind res_bind]. eexists. split; [reflexivity|]. cbn [max_sz size]. split_and!; try done.
  - constructor; cbn [max_sz size data]; [|lia|lia]. exists new. split; [done|].
    by rewrite (arr_write_len _ _ _ _ Hw).
  - unfold contents. rewrite Hd. cbn [size data from_option]. unfold id. subst new.
    unfold zlen in *. rewrite take_app_ge by (rewrite length_take; lia). f_equal.
    rewrite length_take. rewrite take_app_ge by lia.
    replace (Z.to_nat (size a + Z.of_nat (length dat)) - Z.to_nat (size a) `min` length d - length dat)%nat
      with 0%nat by lia. by rewrite take_0, app_nil_r.
Qed.

Section program.
Context (malloc : Z -> option (list Z)).

Lemma spells_stops txt p : spells txt p -> exists w txt', blank w /\ txt = w ++ txt' /\ stops txt' /\
  (p = [] -> txt' = []) /\
  (forall i p', p = i :: p' -> exists ti rest, txt' = ti ++ rest /\ spells_instr ti i /\ spells rest p').
Proof.
  intros [w Hw|w ti i rest p' Hw Hi Hr].
  - exists w, []. rewrite app_nil_r. by split_and!.
  - exists w, (ti ++ rest). split_and!; try done; [|intros ? ? [= <- <-]; eauto].
    destruct Hi; rewrite <- ?app_assoc; apply token_name_stops.
Qed.

Lemma parse_loop_spells txt p prog place w buf result fuel :
  spells txt p -> blank w -> at_ prog place (w ++ txt) -> Forall is_byte buf ->
  Forall (fun i => zlen (encode_instr i) <= zlen buf) p -> arr_ok result ->
  size result + zlen (encode p) <= max_sz result -> (length p < fuel)%nat ->
  exists result', parse_loop malloc fuel prog place buf result = Ok result' /\
    arr_ok result' /\ contents result' = contents result ++ encode p.
Proof.
  revert txt place w buf result fuel.
  induction p as [|i p IH]; intros txt place w buf result fuel Hs Hw Hat Hf Hrooms Hres Hfit Hfuel;
    (destruct fuel as [|fuel]; [lia|]); cbn [parse_loop];
    destruct (spells_stops _ _ Hs) as (w2 & txt' & Hw2 & -> & Hstop & Hnil & Hcons);
    rewrite app_assoc in Hat;
    rewrite (consume_blank _ _ (w ++ w2) txt') by (done || by apply blank_app); cbn [mbind res_bind];
    apply at_app in Hat.
  - rewrite Hnil in Hat by done. apply at_len in Hat. rewrite zlen_nil in Hat.
    destruct (Z.leb_spec (zlen prog) (place + zlen (w ++ w2))); [|lia].
    exists result. by rewrite app_nil_r.
  - destruct (Hcons i p eq_refl) as (ti & rest & -> & Hti & Hrest). clear Hnil Hcons.
    apply Forall_cons in Hrooms as [Hroom Hrooms].
    destruct (parse_instr_spec _ _ _ _ _ _ Hti Hat Hf Hroom) as (place' & buf' & [Hrun Hf' Hl' Hrest']).
    destruct Hrun as (t & q & buf1 & n & Htok & Hset & Hop & Hrd). destruct Hrest' as (w3 & Hw3 & Hat3).
    assert (Hlt : place + zlen (w ++ w2) < zlen prog).
    { destruct ti as [|c ti]; [|by eapply at_lt]. by apply spells_instr_nonempty in Hti. }
    destruct (Z.leb_spec (zlen prog) (place + zlen (w ++ w2))); [lia|].
    rewrite Htok, Hset. cbn [mbind res_bind]. rewrite Hop. cbn [mbind res_bind]. rewrite Hrd.
    cbn [mbind res_bind]. unfold encode in Hfit. cbn [fmap list_fmap concat] in Hfit.
    rewrite zlen_app in Hfit. pose proof (zlen_nonneg (concat (encode_instr <$> p))) as Hp0.
    destruct (append_fits malloc result (encode_instr i)) as (r1 & -> & Hr1 & Hm1 & Hs1 & Hc1);
      [done|unfold fmap in *; lia|]. cbn [mbind res_bind].
    destruct (IH rest place' w3 buf' r1 fuel) as (r2 & Hr2 & Hok & Hc2); try done.
    + by rewrite Hl'.
    + rewrite Hm1, Hs1. unfold encode, fmap in *. lia.
    + cbn in Hfuel. lia.
    + exists r2. split_and!; [done|done|]. rewrite Hc2, Hc1. unfold encode. cbn. by rewrite <- app_assoc.
Qed.
End program.

Lemma spells_length txt p : spells txt p -> (length p <= length txt)%nat.
Proof.
  induction 1 as [|w ti i rest p Hw Hi Hr IH]; [cbn; lia|].
  apply spells_instr_nonempty in Hi. destruct ti; [done|]. cbn [length].
  rewrite !length_app. cbn [length]. lia.
Qed.

Lemma parse_sume_spells malloc buf result txt p :
  spells txt p -> Forall is_byte buf -> Forall (fun i => zlen (encode_instr i) <= zlen buf) p ->
  arr_ok result -> size result + zlen (encode p) <= max_sz result ->
  exists result', parse_sume malloc buf result txt = Ok result' /\
    arr_ok result' /\ contents result' = contents result ++ encode p.
Proof.
  intros Hs Hf Hrooms Hres Hfit. apply (parse_loop_spells malloc txt p txt 0 []); try done.
  - constructor.
  - apply at_start.
  - apply spells_length in Hs. lia.
Qed.


Definition demo_text : list Z :=
  bytes_of "i.declfn (int flt) () ; two parameters" ++ [10] ++ bytes_of " i.const -x1F" ++ [10] ++
  bytes_of "ret" ++ [10] ++ bytes_of "end" ++ [10].

Definition demo_program : list instr :=
  [Decl i_declfn [TInt; TFlt] []; Imm i_const (u32 (-31)); Plain ret; Plain end_].

Lemma demo_spells : spells demo_text demo_program.
Proof.
  assert (Hsp : white 32) by (left; vm_compute; constructor).
  assert (Hnl : white 10) by (right; lia).
  assert (B1 : forall c, white c -> blank [c]) by (intros; by apply blank_white, blank_nil).
  apply (spells_cons [] (bytes_of "i.declfn (int flt) ()") _
    (bytes_of " ; two parameters" ++ [10] ++ bytes_of " i.const -x1F" ++ [10] ++
     bytes_of "ret" ++ [10] ++ bytes_of "end" ++ [10])); [constructor| |].
  { apply (spells_decl i_declfn [32] (bytes_of "(int flt)") _ [32] (bytes_of "()")); auto; try discriminate.
    - apply (spells_list_intro [] (bytes_of "int flt")); [constructor|].
      apply (spells_types_cons TInt [32] (bytes_of "flt")); [auto|].
      apply (spells_types_cons TFlt [] []); constructor.
    - apply (spells_list_intro [] []); constructor. }
  apply (spells_cons (bytes_of " ; two parameters" ++ [10; 32]) (bytes_of "i.const -x1F" ++ [10]) _
    (bytes_of "ret" ++ [10] ++ bytes_of "end" ++ [10])).
  { apply blank_white; [done|]. apply (blank_comment (bytes_of " two parameters") [32]); [|auto].
    apply (bool_decide_unpack _). vm_compute. exact I. }
  { apply (spells_imm i_const [32] (bytes_of "-x1F")); auto; try discriminate.
    apply (numeral_neg (bytes_of "x") 16 49 [70] 31); [do 3 right; left; done|].
    do 2 (econstructor; [reflexivity|lia|]). constructor. }
  apply (spells_cons [] (bytes_of "ret" ++ [10]) _ (bytes_of "end" ++ [10])); [constructor| |].
  { apply (spells_plain ret [10]); auto; discriminate. }
  apply (spells_cons [] (bytes_of "end" ++ [10]) _ []); [constructor| |].
  { apply (spells_plain end_ [10]); auto; discriminate. }
  apply spells_end, blank_nil.
Qed.

Definition demo_arr : dyn_arr := {| data := Some (replicate 64 0); size := 0; max_sz := 64 |}.

Lemma demo_arr_ok : arr_ok demo_arr.
Proof. constructor; cbn; [by eexists|lia|lia]. Qed.

