(* ===== verification/ToIrTotal.v ===== *)
(** * Every program can be written, and the assembler always answers

    A printer whose texts the assembler reads back, and the termination of the
    assembler's loops on arbitrary input. *)

From stdpp Require Import base list strings.
From Stdlib Require Import ZArith Lia.
From S2P Require Import Prelude Tokens Syntax ToIr ToIrProofs.

(** ** A printer *)

(** The decimal digits of [n], at most [fuel] of them. *)
Fixpoint decimal (fuel : nat) (n : Z) : list Z :=
  match fuel with
  | O => []
  | S fuel => (if n <? 10 then [] else decimal fuel (n / 10)) ++ [48 + n mod 10]
  end.

Definition print_types (ts : list ty) : list Z :=
  ch "(" :: concat ((fun a => ty_name a ++ [32]) <$> ts) ++ [ch ")"].

Definition print_instr (i : instr) : list Z :=
  match i with
  | Plain t => token_name t ++ [10]
  | Imm t v => token_name t ++ [32] ++ decimal 10 v ++ [10]
  | Decl t ps ls => token_name t ++ [32] ++ print_types ps ++ [32] ++ print_types ls
  end.

(** One instruction to a line. *)
Definition print (p : list instr) : list Z := concat ((fun i => print_instr i ++ [10]) <$> p).

Lemma digits_app radix acc ds1 n1 ds2 n2 :
  digits radix acc ds1 n1 -> digits radix n1 ds2 n2 -> digits radix acc (ds1 ++ ds2) n2.
Proof. induction 1; intros H2; cbn; [done|econstructor; eauto]. Qed.

Lemma digit_decimal n : digit (48 + n mod 10) = Some (n mod 10).
Proof.
  pose proof (Z.mod_pos_bound n 10 ltac:(lia)). unfold digit.
  destruct (Z.leb_spec 48 (48 + n mod 10)), (Z.leb_spec (48 + n mod 10) 57); cbn; try lia.
  f_equal. lia.
Qed.

Lemma decimal_digits fuel n :
  0 <= n < 10 ^ Z.of_nat fuel -> digits 10 0 (decimal fuel n) n.
Proof.
  revert n. induction fuel as [|fuel IH]; intros n Hn; [cbn in Hn|].
  - replace n with 0 by lia. constructor.
  - cbn [decimal]. pose proof (Z.mod_pos_bound n 10 ltac:(lia)).
    pose proof (Z.div_mod n 10 ltac:(lia)) as Hd.
    destruct (Z.ltb_spec n 10).
    + cbn [app]. econstructor; [apply digit_decimal|lia|]. rewrite Z.mod_small by lia. constructor.
    + eapply digits_app; [apply IH|].
      * rewrite Nat2Z.inj_succ, Z.pow_succ_r in Hn by lia.
        split; [apply Z.div_pos; lia|]. apply Z.div_lt_upper_bound; lia.
      * econstructor; [apply digit_decimal|lia|]. replace (n / 10 * 10 + n mod 10) with n by lia.
        constructor.
Qed.

Lemma decimal_numeral v : 0 <= v < 2 ^ 32 -> numeral (decimal 10 v) v.
Proof.
  intros Hv. pose proof (decimal_digits 10 v ltac:(change (10 ^ Z.of_nat 10) with 10000000000; lia)) as H.
  assert (decimal 10 v <> []) as Hne by (cbn [decimal]; by intros []%app_nil).
  destruct (decimal 10 v) as [|c ds]; [done|].
  apply (numeral_pos [] 10); [by left|done].
Qed.

Lemma white_space : white 32.
Proof. left. vm_compute. constructor. Qed.

Lemma white_newline : white 10.
Proof. right. lia. Qed.

Lemma blank_one c : white c -> blank [c].
Proof. intros. by apply blank_white, blank_nil. Qed.

#[export] Hint Resolve white_space white_newline blank_one blank_nil : cmem.

Lemma print_types_spells ts : spells_list (print_types ts) ts.
Proof.
  apply (spells_list_intro []); [auto with cmem|].
  induction ts as [|a ts IH]; cbn; [constructor|].
  rewrite <- app_assoc. apply (spells_types_cons a [32]); auto with cmem.
Qed.

Lemma print_instr_spells i : wf_instr i -> spells_instr (print_instr i) i.
Proof.
  destruct i as [t|t v|t ps ls]; cbn [wf_instr print_instr].
  - intros Hk. apply spells_plain; [done|auto with cmem|done].
  - intros [Hk Hv]. rewrite <- (u32_small v) at 2 by done.
    apply (spells_imm t [32] (decimal 10 v) v 10); auto using decimal_numeral with cmem; discriminate.
  - intros Hk. apply (spells_decl t [32] _ _ [32]); auto using print_types_spells with cmem; discriminate.
Qed.

Lemma print_spells p : Forall wf_instr p -> spells (print p) p.
Proof.
  intros Hp. assert (spells (print p) p /\ spells (10 :: print p) p) as [H _]; [|done].
  induction Hp as [|i p Hi Hp [_ IH]].
  - split; constructor; auto with cmem.
  - unfold print. cbn [fmap list_fmap concat]. rewrite <- app_assoc. cbn [app]. split.
    + apply (spells_cons []); [auto with cmem|by apply print_instr_spells|exact IH].
    + apply (spells_cons [10]); [auto with cmem|by apply print_instr_spells|exact IH].
Qed.



(** ** Termination *)

(** [m] does not run out of fuel, and [P] holds of what it returns. *)
Definition answers {A} (m : res A) (P : A -> Prop) : Prop :=
  match m with
  | Ok a => P a
  | Err => True
  | Fault e => e <> OutOfFuel
  end.

Lemma answers_bind {A B} (m : res A) (k : A -> res B) P Q :
  answers m P -> (forall a, P a -> answers (k a) Q) -> answers (m ≫= k) Q.
Proof. destruct m; cbn; auto. Qed.

Lemma answers_impl {A} (m : res A) (P Q : A -> Prop) :
  (forall a, P a -> Q a) -> answers m P -> answers m Q.
Proof. destruct m; cbn; auto. Qed.

Lemma answers_get {A} (l : list A) i : answers (arr_get l i) (fun _ => 0 <= i < zlen l).
Proof.
  destruct (arr_get l i) eqn:E; [by eapply arr_get_bound|done|].
  unfold arr_get, checked in E. destruct (i <? 0); [|destruct (l !! _)]; cbn; congruence.
Qed.

Lemma answers_set {A} (l : list A) i a : answers (arr_set l i a) (fun _ => True).
Proof. unfold arr_set. by destruct (_ || _). Qed.

Lemma answers_write {A} (l : list A) i bs : answers (arr_write l i bs) (fun _ => True).
Proof. unfold arr_write. by destruct (_ || _). Qed.

Lemma answers_read {A} (l : list A) i n : answers (arr_read l i n) (fun _ => True).
Proof. unfold arr_read. by destruct (_ || _). Qed.

Lemma answers_require b : answers (require b) (fun _ => b = true).
Proof. by destruct b. Qed.

Create HintDb answers.
#[export] Hint Resolve answers_get answers_set answers_write answers_read answers_require : answers.

(** One call of a sequence. *)
Ltac answers_step :=
  first [ eapply answers_bind; [eauto with answers|intros; cbn beta in *]
        | solve [eauto with answers] ].

Section total.
Context (prog : list Z).

(** Fuel for the loops that advance [place] at every iteration. *)
Definition enough (fuel : nat) (place : Z) : Prop := zlen prog - place < Z.of_nat fuel.

Lemma line_length_nonneg l : 0 <= line_length l.
Proof. induction l; cbn; [lia|]. destruct (_ =? _); lia. Qed.

Lemma consume_loop_answers fuel place :
  0 <= place -> enough fuel place -> 0 < Z.of_nat fuel ->
  answers (consume_whitespace_loop fuel prog place) (fun p => place <= p).
Proof.
  unfold enough. revert place. induction fuel as [|fuel IH]; intros place Hp Hf H0; [lia|].
  cbn [consume_whitespace_loop]. destruct (Z.ltb_spec place (zlen prog)); [|cbn; lia].
  answers_step. destruct (_ =? _).
  - unfold get_line. pose proof (line_length_nonneg (drop (Z.to_nat (place + 1)) prog)).
    eapply answers_impl; [|apply IH; lia]. cbn. intros. lia.
  - destruct (is_whitespace a); [|cbn; lia]. eapply answers_impl; [|apply IH; lia]. cbn. lia.
Qed.

Lemma consume_answers place :
  0 <= place -> answers (consume_whitespace prog place) (fun p => place <= p).
Proof. intros Hp. apply consume_loop_answers; unfold enough, zlen; lia. Qed.

Lemma get_char_answers place :
  0 <= place -> answers (get_char prog place) (fun '(_, p) => p = place + 1 /\ p <= zlen prog).
Proof.
  intros Hp. unfold get_char. destruct (Z.leb_spec (zlen prog) place); [done|].
  answers_step. cbn. lia.
Qed.

Lemma char_to_int_answers c : answers (char_to_int c) (fun _ => True).
Proof. unfold char_to_int. repeat zcase; cbn; done. Qed.

Lemma get_int_loop_answers fuel radix place acc :
  0 <= place -> enough fuel place -> 0 < Z.of_nat fuel ->
  answers (get_int_loop fuel prog radix place acc) (fun '(_, p) => place <= p).
Proof.
  unfold enough. revert place acc. induction fuel as [|fuel IH]; intros place acc Hp Hf H0; [lia|].
  cbn [get_int_loop]. pose proof (get_char_answers place Hp) as Hg.
  destruct (get_char prog place) as [[cur p]| |e] eqn:E; cbn in Hg |- *; [|lia|done].
  destruct (is_whitespace cur); [cbn; lia|].
  eapply answers_bind; [apply char_to_int_answers|]. intros v _. destruct (radix <=? v); [done|].
  eapply answers_impl; [|apply IH; lia]. intros [? q]. lia.
Qed.
End total.

#[export] Hint Resolve consume_answers get_char_answers char_to_int_answers get_int_loop_answers : answers.

Section total_operands.
Context (prog : list Z).

(** Reading one more character, and [v] for a flag or a radix. *)
Lemma next_char_answers {A} place (v : A) :
  0 <= place ->
  answers ('(cur, p) ← get_char prog place; Ok (v, cur, p)) (fun '(_, _, p) => place <= p).
Proof.
  intros Hp. eapply answers_bind; [by apply get_char_answers|]. intros [cur p] []. cbn. lia.
Qed.

Lemma get_int_answers place :
  0 <= place -> answers (get_int prog place) (fun '(_, p) => place < p).
Proof.
  intros Hp. unfold get_int. eapply answers_bind; [by apply get_char_answers|].
  intros [cur p1] [-> Hlen]. eapply (answers_bind _ _ (fun '(_, _, p) => place + 1 <= p)).
  { destruct (_ =? _); [apply next_char_answers; lia|cbn; lia]. }
  intros [[neg cur1] p2] Hp2. eapply (answers_bind _ _ (fun '(_, _, p) => place + 1 <= p)).
  { assert (forall v : Z, answers ('(cur, p) ← get_char prog p2; Ok (v, cur, p))
                            (fun '(_, _, p) => place + 1 <= p)) as H.
    { intros v. eapply answers_impl; [|apply next_char_answers; lia]. intros [[? ?] ?]. lia. }
    repeat (destruct (_ =? _); [apply H|]). destruct (_ || _); [apply H|]. cbn. lia. }
  intros [[radix cur2] p3] Hp3. eapply answers_bind; [apply char_to_int_answers|]. intros v _.
  eapply (answers_bind _ _ (fun '(_, p) => p3 <= p)).
  { apply get_int_loop_answers; unfold enough, zlen in *; lia. }
  intros [acc p4] Hp4. cbn. lia.
Qed.

Lemma zero_position_answers buf base pos : answers (zero_position buf base pos) (fun _ => True).
Proof. unfold zero_position. do 2 answers_step. Qed.

Lemma set_position_answers buf base pos v : answers (set_position buf base pos v) (fun _ => True).
Proof.
  unfold set_position. eapply answers_bind; [apply zero_position_answers|]. intros. do 2 answers_step.
Qed.

Lemma type_list_loop_answers fuel place buf base k :
  0 <= place -> enough prog fuel place -> 0 < Z.of_nat fuel ->
  answers (get_type_list_loop fuel prog place buf base k) (fun '(p, _, _) => place <= p).
Proof.
  unfold enough. revert place buf k. induction fuel as [|fuel IH]; intros place buf k Hp Hf H0; [lia|].
  cbn [get_type_list_loop]. answers_step. destruct (_ =? _); [cbn; lia|].
  destruct (Z.leb_spec (zlen prog) (place + 3)); [done|]. do 2 answers_step.
  eapply (answers_bind _ _ (fun _ => True)).
  { destruct (_ && _); [apply set_position_answers|].
    destruct (_ && _); [apply set_position_answers|done]. }
  intros buf1 _. eapply answers_bind; [apply consume_answers; lia|]. intros p Hle. cbn beta in Hle.
  eapply answers_impl; [|apply IH; lia]. intros [[? ?] ?]. lia.
Qed.

Lemma zero_rest_answers n buf base k : answers (zero_rest n buf base k) (fun _ => True).
Proof.
  revert buf k. induction n as [|n IH]; intros; [done|]. cbn [zero_rest].
  eapply answers_bind; [apply zero_position_answers|]. auto.
Qed.

Lemma type_list_answers place buf base :
  0 <= place -> answers (get_type_list prog place buf base) (fun '(p, _, _) => place <= p).
Proof.
  intros Hp. unfold get_type_list. eapply answers_bind; [by apply get_char_answers|].
  intros [cur p1] [-> _]. answers_step. eapply answers_bind; [apply consume_answers; lia|].
  intros p2 Hp2. cbn beta in Hp2. eapply (answers_bind _ _ (fun '(p, _, _) => p2 <= p)).
  { apply type_list_loop_answers; unfold enough, zlen; lia. }
  intros [[p3 buf1] k] Hp3. eapply answers_bind; [apply zero_position_answers|]. intros buf2 _.
  eapply answers_bind; [apply zero_rest_answers|]. intros buf3 _. cbn. lia.
Qed.

Lemma operands_answers place buf t :
  0 <= place -> answers (parse_operands prog place buf t) (fun '(p, _, _) => place <= p).
Proof.
  intros Hp. destruct (operand_kind t) eqn:Hk.
  - rewrite parse_operands_plain by done. cbn. lia.
  - rewrite parse_operands_imm by done. eapply answers_bind; [by apply consume_answers|].
    intros p1 Hp1. cbn beta in Hp1. eapply answers_bind; [apply get_int_answers; lia|].
    intros [iv p2] Hp2. answers_step. cbn. lia.
  - rewrite parse_operands_decl by done. eapply answers_bind; [by apply consume_answers|].
    intros p1 Hp1. cbn beta in Hp1. eapply answers_bind; [apply type_list_answers; lia|].
    intros [[p2 buf2] n2] Hp2. eapply answers_bind; [apply consume_answers; lia|].
    intros p3 Hp3. cbn beta in Hp3. eapply answers_bind; [apply type_list_answers; lia|].
    intros [[p4 buf4] n4] Hp4. cbn. lia.
Qed.

Lemma find_instr_pos names i w j n :
  Forall (fun nm => 0 < zlen (bytes_of nm)) names -> find_instr names i w = Some (j, n) -> 0 < n.
Proof.
  intros H. revert i. induction H as [|nm names Hn Hs IH]; intros i; cbn [find_instr]; [done|].
  destruct (is_prefix _ _); [by intros [= <- <-]|apply IH].
Qed.

Lemma names_nonempty : Forall (fun nm => 0 < zlen (bytes_of nm)) instrs.
Proof. repeat (apply Forall_cons_2; [vm_compute; reflexivity|]). apply Forall_nil_2. Qed.

Lemma next_token_advances place t q : get_next_instr_token prog place = Some (t, q) -> place < q.
Proof.
  unfold get_next_instr_token. intros H. apply bind_Some in H as ([i n] & Hf & H).
  apply bind_Some in H as (t' & _ & [= <- <-]). apply find_instr_pos in Hf; [lia|apply names_nonempty].
Qed.

Lemma append_answers malloc a dat : answers (append_dyn_arr malloc a dat) (fun _ => True).
Proof.
  unfold append_dyn_arr. eapply (answers_bind _ _ (fun _ => True)).
  - destruct (_ <? _); [|done]. destruct (malloc _); [|done]. destruct (data a); [|done].
    cbn [checked mbind res_bind]. do 2 answers_step. done.
  - intros _ _. destruct (data a); [|done]. cbn [checked mbind res_bind]. answers_step. done.
Qed.

Lemma parse_loop_answers malloc fuel place buf result :
  0 <= place -> enough prog fuel place -> 0 < Z.of_nat fuel ->
  answers (parse_loop malloc fuel prog place buf result) (fun _ => True).
Proof.
  unfold enough. revert place buf result. induction fuel as [|fuel IH]; intros place buf result Hp Hf H0; [lia|].
  cbn [parse_loop]. eapply answers_bind; [by apply consume_answers|]. intros p1 Hp1. cbn beta in Hp1.
  destruct (Z.leb_spec (zlen prog) p1); [done|].
  destruct (get_next_instr_token prog p1) as [[t q]|] eqn:E; [|done]. apply next_token_advances in E.
  answers_step. eapply answers_bind; [apply operands_answers; lia|]. intros [[p2 buf2] n] Hp2.
  answers_step. eapply answers_bind; [apply append_answers|]. intros. apply IH; lia.
Qed.
End total_operands.


(** ** A full array *)

(** [append_dyn_arr] does not grow an array: when the bytes do not fit, the
    block it allocates is dropped and the write runs past the end of the old
    one. *)
Theorem append_full_overruns malloc arr dat old new_data :
  data arr = Some old -> zlen old = max_sz arr -> 0 <= size arr <= max_sz arr ->
  max_sz arr < size arr + zlen dat < 2 ^ 32 ->
  malloc (u32 (max_sz arr + PAGE_SZ)) = Some new_data -> size arr <= zlen new_data ->
  append_dyn_arr malloc arr dat = Fault OutOfBounds.
Proof.
  intros Hd Hl Hs Hfull Hm Hn. unfold append_dyn_arr. pose proof (zlen_nonneg dat).
  rewrite (u32_small (size arr + zlen dat)) by lia.
  rewrite (proj2 (Z.ltb_lt (max_sz arr) (size arr + zlen dat))) by lia.
  rewrite Hm, Hd. cbn [checked mbind res_bind].
  assert (exists moved, arr_read old 0 (size arr) = Ok moved /\ zlen moved = size arr) as (moved & -> & Hmv).
  { unfold arr_read. rewrite (proj2 (Z.ltb_ge (size arr) 0)), (proj2 (Z.ltb_ge (zlen old) (0 + size arr))) by lia.
    eexists. split; [reflexivity|]. unfold zlen in *. rewrite length_take, drop_0. lia. }
  cbn [mbind res_bind].
  assert (exists w, arr_write new_data 0 moved = Ok w) as (w & ->).
  { eexists. apply arr_write_Ok. split_and!; [lia|lia|reflexivity]. }
  cbn [mbind res_bind]. unfold arr_write.
  rewrite (proj2 (Z.ltb_ge (size arr) 0)), (proj2 (Z.ltb_lt (zlen old) (size arr + zlen dat))) by lia. done.
Qed.

Lemma append_full_overruns_witness :
  append_dyn_arr (fun n => Some (replicate (Z.to_nat n) 0)) {| data := Some [1; 2]; size := 2; max_sz := 2 |} [3]
  = Fault OutOfBounds.
Proof.
  apply (append_full_overruns (fun n => Some (replicate (Z.to_nat n) 0))
    {| data := Some [1; 2]; size := 2; max_sz := 2 |} [3] [1; 2] (replicate (Z.to_nat 4098) 0)).
  - reflexivity.
  - reflexivity.
  - cbn; lia.
  - vm_compute; split; reflexivity.
  - reflexivity.
  - vm_compute; discriminate.
Defined.
