(* ===== verification/FromIr.v ===== *)
(** * Reading the binary form: [from_ir.c] and [populate_fns.c]

    The operands of an instruction, and the two passes that collect the
    functions a program declares: [populate_fns] for the verifier,
    [asm_populate_fns] for the code generator. *)

From stdpp Require Import base list strings.
From Stdlib Require Import ZArith Lia.
From S2P Require Import Prelude Tokens.

Definition VOD_T : Z := 0.
Definition INT_T : Z := 1.
Definition FLT_T : Z := 2.

(** ** Operands: [from_ir.c] *)

Definition get_int (prog : list Z) (place : Z) : res (Z * Z) :=
  if zlen prog <=? place + 4 then Err
  else
    bs ← arr_read prog place 4;
    Ok (s32 (le_value bs), place + 4).

(** The loop of [get_type_list]: [acc] is [type_l[0..pos)], and [room] the
    number of elements of the caller's array that are not written yet. *)
Fixpoint get_type_list_loop (room : nat) (prog : list Z) (place pos : Z) (acc : list Z)
    : res (list Z * Z) :=
  let ind := pos / 4 in
  let off := pos mod 4 in
  if zlen prog <=? ind + place then Err
  else
    b ← arr_get prog (place + ind);
    let val := Z.land (Z.shiftr (schar b) (off * 2)) 3 in
    if val =? 0 then Ok (acc, pos)
    else match room with
         | O => Fault OutOfBounds
         | S room => get_type_list_loop room prog place (pos + 1) (acc ++ [val])
         end.

(** The types read ([*len] is their number) and the new place; [cap] is the
    size of the array [type_l]. *)
Definition get_type_list (cap : nat) (prog : list Z) (place : Z) : res (list Z * Z) :=
  '(types, pos) ← get_type_list_loop cap prog place 0 [];
  Ok (types, place + (pos / 4 + 1)).

(** Every caller passes an array of 64 characters. *)
Definition TYPE_BUF : nat := 64.

(** [memcmp] of [ulib.c], which these programs are linked with: 1 when the
    [n] first characters are equal, 0 otherwise. *)
Fixpoint memcmp (dst src : list Z) : Z :=
  match dst, src with
  | d :: dst, s :: src => if d =? s then memcmp dst src else 0
  | _, _ => 1
  end.

(** A [char*] into [heap] is an offset, [None] the null pointer. *)
Record fn_info := {
  rt : Z;
  param_t : option Z;
  param_n : Z;
  local_t : option Z;
  local_n : Z;
}.

Definition no_fn : fn_info :=
  {| rt := 0; param_t := None; param_n := 0; local_t := None; local_n := 0 |}.

Definition HEAP_SIZE : Z := 4096.

(** The globals [heap] and [heap_pos]. *)
Record heap_st := { heap : list Z; heap_pos : Z }.

Definition heap_init : heap_st :=
  {| heap := replicate (Z.to_nat HEAP_SIZE) 0; heap_pos := 0 |}.

(** [memmove(heap+heap_pos, types, n); heap_pos += n] *)
Definition heap_push (h : heap_st) (types : list Z) : res heap_st :=
  hp ← arr_write (heap h) (heap_pos h) types;
  Ok {| heap := hp; heap_pos := heap_pos h + zlen types |}.

Definition add_fn_params (fn : fn_info) (h : heap_st) (types : list Z)
    : res (fn_info * heap_st) :=
  match param_t fn with
  | Some p =>
      require (zlen types =? param_n fn);;
      old ← arr_read (heap h) p (zlen types);
      require (memcmp old types =? 0);;
      Ok (fn, h)
  | None =>
      h' ← heap_push h types;
      Ok ({| rt := rt fn; param_t := Some (heap_pos h); param_n := zlen types;
             local_t := local_t fn; local_n := local_n fn |}, h')
  end.

Definition add_fn_locals (fn : fn_info) (h : heap_st) (types : list Z)
    : res (fn_info * heap_st) :=
  match local_t fn with
  | Some p =>
      require (zlen types =? local_n fn);;
      old ← arr_read (heap h) p (zlen types);
      require (memcmp old types =? 0);;
      Ok (fn, h)
  | None =>
      h' ← heap_push h types;
      Ok ({| rt := rt fn; param_t := param_t fn; param_n := param_n fn;
             local_t := Some (heap_pos h); local_n := zlen types |}, h')
  end.

(** ** [populate_fns.c] *)

(** [fn_list], [*fn_num] and the heap. *)
Record fns_st := { fn_list : list fn_info; fn_num : Z; fheap : heap_st }.

Definition set_rt (r : Z) (fn : fn_info) : fn_info :=
  {| rt := r; param_t := param_t fn; param_n := param_n fn;
     local_t := local_t fn; local_n := local_n fn |}.

Definition add_fn (prog : list Z) (place : Z) (s : fns_st) (r : Z) : res (Z * fns_st) :=
  fn ← arr_get (fn_list s) (fn_num s);
  let fn := set_rt r fn in
  '(types, place) ← get_type_list TYPE_BUF prog place;
  '(fn, h) ← add_fn_params fn (fheap s) types;
  '(types, place) ← get_type_list TYPE_BUF prog place;
  '(fn, h) ← add_fn_locals fn h types;
  l ← arr_set (fn_list s) (fn_num s) fn;
  Ok (place, {| fn_list := l; fn_num := fn_num s + 1; fheap := h |}).

(** One iteration of the [while]: [place] is the place after the token. *)
Definition populate_step (prog : list Z) (place : Z) (s : fns_st) (token : option instr_token)
    : res (Z * fns_st) :=
  match token with
  | Some (i_clz | i_ctz | i_popcnt | i_add | i_and | i_div_s | i_div_u | i_mul
         | i_or | i_rem_s | i_rem_u | i_rotl | i_rotr | i_shl | i_shr_s
         | i_shr_u | i_sub | i_xor | i_eqz | i_eq | i_ge_s | i_ge_u | i_gt_s
         | i_gt_u | i_le_s | i_le_u | i_lt_s | i_lt_u | i_ne | i_ld32
         | i_ld16_s | i_ld16_u | i_ld8_s | i_ld8_u | i_memsz | str32 | str16
         | str8 | trap | block | loop | ret | end_) => Ok (place, s)
  | Some (i_const | get_l | set_l | br | br_if | call) =>
      '(_, place) ← get_int prog place;
      Ok (place, s)
  | Some v_declfn => add_fn prog place s VOD_T
  | Some i_declfn => add_fn prog place s INT_T
  | None => Err
  end.

Fixpoint populate_loop (fuel : nat) (prog : list Z) (place : Z) (s : fns_st) : res fns_st :=
  match fuel with
  | O => Fault OutOfFuel
  | S fuel =>
      if place <? zlen prog then
        b ← arr_get prog place;
        '(place, s) ← populate_step prog (place + 1) s (token_of_byte b);
        populate_loop fuel prog place s
      else Ok s
  end.

Definition populate_fns (prog : list Z) (l : list fn_info) (h : heap_st) : res fns_st :=
  populate_loop (S (length prog)) prog 0 {| fn_list := l; fn_num := 0; fheap := h |}.

(** *** The pass of the code generator *)

Record asm_fn_info := { art : Z; fn_addr : Z; aparam_n : Z; alocal_n : Z }.

Definition no_asm_fn : asm_fn_info :=
  {| art := 0; fn_addr := 0; aparam_n := 0; alocal_n := 0 |}.

(** [fn_list] and [*fn_num].  [to_asm] goes on after this pass has returned
    [-1], so the table is part of the result in that case too: every function
    below returns [None] for [-1], or the new place, with the table it leaves. *)
Definition asm_fns : Type := list asm_fn_info * Z.

Definition asm_add_fn (prog : list Z) (place : Z) (l : list asm_fn_info) (n r : Z)
    : res (option Z * asm_fns) :=
  fn ← arr_get l n;
  l ← arr_set l n {| art := r; fn_addr := fn_addr fn;
                     aparam_n := aparam_n fn; alocal_n := alocal_n fn |};
  match get_type_list TYPE_BUF prog place with
  | Fault e => Fault e
  | Err => Ok (None, (l, n))
  | Ok (params, place) =>
      l ← arr_set l n {| art := r; fn_addr := fn_addr fn;
                         aparam_n := zlen params; alocal_n := alocal_n fn |};
      match get_type_list TYPE_BUF prog place with
      | Fault e => Fault e
      | Err => Ok (None, (l, n))
      | Ok (locals, place) =>
          l ← arr_set l n {| art := r; fn_addr := fn_addr fn;
                             aparam_n := zlen params; alocal_n := zlen locals |};
          Ok (Some place, (l, n + 1))
      end
  end.

Definition asm_populate_step (prog : list Z) (place : Z) (s : asm_fns)
    (token : option instr_token) : res (option Z * asm_fns) :=
  match token with
  | Some (i_clz | i_ctz | i_popcnt | i_add | i_and | i_div_s | i_div_u | i_mul
         | i_or | i_rem_s | i_rem_u | i_rotl | i_rotr | i_shl | i_shr_s
         | i_shr_u | i_sub | i_xor | i_eqz | i_eq | i_ge_s | i_ge_u | i_gt_s
         | i_gt_u | i_le_s | i_le_u | i_lt_s | i_lt_u | i_ne | i_ld32
         | i_ld16_s | i_ld16_u | i_ld8_s | i_ld8_u | i_memsz | str32 | str16
         | str8 | trap | block | loop | ret | end_) => Ok (Some place, s)
  | Some (i_const | get_l | set_l | br | br_if | call) =>
      match get_int prog place with
      | Fault e => Fault e
      | Err => Ok (None, s)
      | Ok (_, place) => Ok (Some place, s)
      end
  | Some v_declfn => asm_add_fn prog place s.1 s.2 VOD_T
  | Some i_declfn => asm_add_fn prog place s.1 s.2 INT_T
  | None => Ok (None, s)
  end.

(** [false] is the return value [-1]. *)
Fixpoint asm_populate_loop (fuel : nat) (prog : list Z) (place : Z) (s : asm_fns)
    : res (bool * asm_fns) :=
  match fuel with
  | O => Fault OutOfFuel
  | S fuel =>
      if place <? zlen prog then
        b ← arr_get prog place;
        '(next, s) ← asm_populate_step prog (place + 1) s (token_of_byte b);
        match next with
        | None => Ok (false, s)
        | Some place => asm_populate_loop fuel prog place s
        end
      else Ok (true, s)
  end.

Definition asm_populate_fns (prog : list Z) (l : list asm_fn_info) : res (bool * asm_fns) :=
  asm_populate_loop (S (length prog)) prog 0 (l, 0).
