(* ===== verification/FromIrProofs.v ===== *)
(** * Reading back the binary form

    The readers of [from_ir.c] on the operands that [encode] writes, and the
    table of functions [populate_fns] builds from a program. *)

From stdpp Require Import base list strings.
From Stdlib Require Import ZArith Lia.
From S2P Require Import Prelude Tokens Syntax ToIr ToIrProofs FromIr.

Abbreviation codes ts := (ty_code <$> ts).

(** ** Type lists *)

Lemma zlen_codes ts : zlen (codes ts) = zlen ts.
Proof. unfold zlen. by rewrite length_fmap. Qed.

Lemma schar_small b : 0 <= b < 128 -> schar b = b.
Proof.
  intros H. unfold schar. rewrite u8_small by (unfold is_byte; lia).
  destruct (Z.ltb_spec b (2 ^ 7)); lia.
Qed.

(** The pair of bits [get_type_list] extracts from a [char]. *)
Lemma extract_field b j :
  is_byte b -> 0 <= j < 4 -> Z.land (Z.shiftr (schar b) (j * 2)) 3 = field b j.
Proof.
  intros Hb Hj. apply Z.eqb_eq.
  apply four_cases in Hj as [->|[->|[->| ->]]]; revert b Hb; apply byte_forall; vm_compute; reflexivity.
Qed.

Lemma pack_get prog place ts rest k :
  at_ prog place (pack ts ++ rest) -> (k <= length ts)%nat ->
  exists b, arr_get prog (place + Z.of_nat k / 4) = Ok b /\ Z.of_nat k / 4 + place < zlen prog /\
            Z.land (Z.shiftr (schar b) (Z.of_nat k mod 4 * 2)) 3 = code_at_pos ts k.
Proof.
  intros Hat Hk. pose proof (Nat.Div0.div_le_mono k (length ts) 4 Hk) as Hd.
  assert (Hi : (k / 4 < length (pack ts))%nat) by (rewrite length_pack; lia).
  exists (pack_byte ts (k / 4)).
  replace (Z.of_nat k / 4) with (Z.of_nat (k / 4)) by (by rewrite Nat2Z.inj_div).
  pose proof (at_len _ _ _ Hat) as [Hlen Hp]. rewrite zlen_app in Hlen. pose proof (zlen_nonneg rest).
  split_and!.
  - destruct Hat as (pre & -> & ->). rewrite arr_get_app by lia.
    replace (zlen pre + Z.of_nat (k / 4) - zlen pre) with (Z.of_nat (k / 4)) by lia.
    rewrite arr_get_app_l by (unfold zlen; lia). apply arr_get_Ok. rewrite Nat2Z.id. split; [lia|].
    apply pack_lookup. rewrite length_pack in Hi. done.
  - unfold zlen in *. lia.
  - replace (Z.of_nat k mod 4) with (Z.of_nat (k mod 4)) by (by rewrite Nat2Z.inj_mod).
    pose proof (Nat.mod_upper_bound k 4 ltac:(lia)).
    rewrite extract_field by (apply pack_byte_is_byte || lia).
    rewrite field_pack_byte by done. f_equal. symmetry. by apply Nat.div_mod.
Qed.

Lemma type_list_loop_pack room prog place ts rest k :
  at_ prog place (pack ts ++ rest) -> (k + length (drop k ts) = length ts)%nat ->
  (length (drop k ts) <= room)%nat ->
  FromIr.get_type_list_loop room prog place (Z.of_nat k) (codes (take k ts)) =
  Ok (codes ts, zlen ts).
Proof.
  intros Hat. revert k. induction room as [|room IH]; intros k Hk Hroom;
    destruct (pack_get prog place ts rest k Hat ltac:(lia)) as (b & Hb & Hlt & Hval).
  - cbn [FromIr.get_type_list_loop]. destruct (Z.leb_spec (zlen prog) (Z.of_nat k / 4 + place)); [lia|].
    rewrite Hb. cbn [mbind res_bind]. rewrite Hval. assert (k = length ts) as -> by lia.
    rewrite code_at_pos_end, Z.eqb_refl, firstn_all by lia. done.
  - cbn [FromIr.get_type_list_loop]. destruct (Z.leb_spec (zlen prog) (Z.of_nat k / 4 + place)); [lia|].
    rewrite Hb. cbn [mbind res_bind]. rewrite Hval. destruct (drop k ts) as [|a l] eqn:E.
    + assert (k = length ts) as -> by (cbn in Hk; lia).
      rewrite code_at_pos_end, Z.eqb_refl, firstn_all by lia. done.
    + assert (Ha : ts !! k = Some a).
      { rewrite <- (Nat.add_0_r k), <- lookup_drop, E. done. }
      unfold code_at_pos. rewrite Ha. destruct (Z.eqb_spec (ty_code a) 0); [by destruct a|].
      replace (codes (take k ts) ++ [ty_code a]) with (codes (take (S k) ts))
        by (by rewrite (take_S_r _ _ _ Ha), fmap_app).
      replace (Z.of_nat k + 1) with (Z.of_nat (S k)) by lia. rewrite IH; [done| |].
      * rewrite length_drop in *. apply lookup_lt_Some in Ha. lia.
      * assert (drop (S k) ts = l) as -> by (rewrite <- Nat.add_1_r, <- drop_drop, E; done).
        cbn in Hroom. lia.
Qed.

Lemma type_list_pack cap prog place ts rest :
  at_ prog place (pack ts ++ rest) -> (length ts <= cap)%nat ->
  FromIr.get_type_list cap prog place = Ok (codes ts, place + zlen (pack ts)).
Proof.
  intros Hat Hcap. unfold FromIr.get_type_list.
  pose proof (type_list_loop_pack cap prog place ts rest 0 Hat) as H. rewrite drop_0 in H.
  change (Z.of_nat 0) with 0 in H. change (codes (take 0 ts)) with (@nil Z) in H.
  rewrite H by lia. cbn [mbind res_bind]. by rewrite zlen_pack.
Qed.

(** ** Integers *)

Lemma get_int_le prog place v rest :
  at_ prog place (le_bytes 4 v ++ rest) -> rest <> [] ->
  FromIr.get_int prog place = Ok (s32 v, place + 4).
Proof.
  intros Hat Hne. pose proof (at_len _ _ _ Hat) as [Hlen Hp]. rewrite zlen_app in Hlen.
  change (zlen (le_bytes 4 v)) with 4 in Hlen.
  assert (0 < zlen rest) by (destruct rest; [done|]; rewrite zlen_cons; pose proof (zlen_nonneg rest); lia).
  unfold FromIr.get_int. destruct (Z.leb_spec (zlen prog) (place + 4)); [lia|].
  unfold arr_read. destruct (Z.ltb_spec place 0), (Z.ltb_spec (zlen prog) (place + 4)); cbn [orb]; try lia.
  destruct (Z.ltb_spec 4 0); [lia|]. cbn [orb mbind res_bind].
  rewrite (at_drop _ _ _ Hat). change (Z.to_nat 4) with (length (le_bytes 4 v)).
  rewrite take_app_length. by rewrite le_value_u32, s32_u32.
Qed.

(** ** The functions of a program *)

Record sig := { s_rt : Z; s_params : list Z; s_locals : list Z }.

Definition decl_rt (t : instr_token) : Z := if decide (t = v_declfn) then VOD_T else INT_T.

Definition decl_sig (i : instr) : option sig :=
  match i with
  | Decl t ps ls => Some {| s_rt := decl_rt t; s_params := codes ps; s_locals := codes ls |}
  | _ => None
  end.

Definition sigs (p : list instr) : list sig := omap decl_sig p.

(** The heap the types of a program need. *)
Definition sig_size (g : sig) : Z := zlen (s_params g) + zlen (s_locals g).
Definition sigs_size (gs : list sig) : Z := foldr (fun g n => sig_size g + n) 0 gs.

(** No immediate at the very end: [get_int] wants a byte after the operand. *)
Fixpoint imm_followed (p : list instr) : Prop :=
  match p with
  | [] => True
  | i :: p => match i with Imm _ _ => p <> [] | _ => True end /\ imm_followed p
  end.

(** The declarations fit the 64-character buffers of the readers. *)
Definition small_decl (i : instr) : Prop :=
  match i with
  | Decl _ ps ls => (length ps <= TYPE_BUF)%nat /\ (length ls <= TYPE_BUF)%nat
  | _ => True
  end.

(** A pointer [p] to the types [ts] in the used part of the heap. *)
Definition types_at (h : heap_st) (p : option Z) (ts : list Z) : Prop :=
  exists a, p = Some a /\ 0 <= a /\ a + zlen ts <= heap_pos h /\
            take (length ts) (drop (Z.to_nat a) (heap h)) = ts.

Definition fn_sig (h : heap_st) (fn : fn_info) (g : sig) : Prop :=
  rt fn = s_rt g /\ param_n fn = zlen (s_params g) /\ types_at h (param_t fn) (s_params g) /\
  local_n fn = zlen (s_locals g) /\ types_at h (local_t fn) (s_locals g).

Record heap_ok (h : heap_st) : Prop := {
  ho_len : zlen (heap h) = HEAP_SIZE;
  ho_pos : 0 <= heap_pos h <= HEAP_SIZE;
}.

Lemma heap_push_ok h ts :
  heap_ok h -> heap_pos h + zlen ts <= HEAP_SIZE ->
  exists h', heap_push h ts = Ok h' /\ heap_ok h' /\ heap_pos h' = heap_pos h + zlen ts /\
    types_at h' (Some (heap_pos h)) ts /\
    forall p us, types_at h p us -> types_at h' p us.
Proof.
  intros [Hl Hp] Hfit. pose proof (zlen_nonneg ts) as Ht. unfold heap_push.
  set (new := take (Z.to_nat (heap_pos h)) (heap h) ++ ts ++
              drop (Z.to_nat (heap_pos h) + length ts) (heap h)).
  assert (Hw : arr_write (heap h) (heap_pos h) ts = Ok new).
  { apply arr_write_Ok. split_and!; [lia|lia|done]. }
  rewrite Hw. cbn [mbind res_bind]. eexists. split; [reflexivity|]. cbn [heap heap_pos]. split_and!.
  - constructor; cbn [heap heap_pos]; [by rewrite (arr_write_len _ _ _ _ Hw)|lia].
  - done.
  - exists (heap_pos h). cbn [heap heap_pos]. split_and!; [done|lia|lia|]. subst new. unfold zlen in *.
    rewrite drop_app_ge by (rewrite length_take; lia). rewrite length_take, Nat.min_l by lia.
    by rewrite Nat.sub_diag, drop_0, take_app_length.
  - intros p us (a & -> & Ha & Hau & Hus). exists a. cbn [heap heap_pos].
    split_and!; [done|done|lia|]. rewrite <- Hus at 2. subst new. unfold zlen in *.
    rewrite drop_app_le by (rewrite length_take; lia).
    rewrite take_app_le by (rewrite length_drop, length_take; lia).
    rewrite skipn_firstn_comm, take_take, Nat.min_l by lia. done.
Qed.

(** The state of the table after the functions [gs]. *)
Record fns_ok (s : fns_st) (gs : list sig) : Prop := {
  fo_num : fn_num s = zlen gs;
  fo_len : zlen (fn_list s) = 64;
  fo_heap : heap_ok (fheap s);
  fo_pos : heap_pos (fheap s) = sigs_size gs;
  fo_fns : forall i g, gs !! i = Some g -> exists fn, fn_list s !! i = Some fn /\ fn_sig (fheap s) fn g;
  fo_fresh : forall i, (length gs <= i < 64)%nat -> fn_list s !! i = Some no_fn;
}.

Lemma sigs_size_app a b : sigs_size (a ++ b) = sigs_size a + sigs_size b.
Proof. unfold sigs_size. induction a; cbn; lia. Qed.

Lemma sig_size_nonneg g : 0 <= sig_size g.
Proof.
  unfold sig_size. pose proof (zlen_nonneg (s_params g)). pose proof (zlen_nonneg (s_locals g)). lia.
Qed.

Lemma sigs_size_nonneg gs : 0 <= sigs_size gs.
Proof. unfold sigs_size. induction gs as [|g gs IH]; cbn; [lia|]. pose proof (sig_size_nonneg g). lia. Qed.

Lemma add_fn_ok prog place s gs ps ls rest r :
  fns_ok s gs -> at_ prog place (pack ps ++ pack ls ++ rest) ->
  (length ps <= TYPE_BUF)%nat -> (length ls <= TYPE_BUF)%nat ->
  let g := {| s_rt := r; s_params := codes ps; s_locals := codes ls |} in
  zlen gs < 64 -> sigs_size gs + sig_size g <= HEAP_SIZE ->
  exists s', add_fn prog place s r = Ok (place + zlen (pack ps ++ pack ls), s') /\ fns_ok s' (gs ++ [g]).
Proof.
  intros [Hnum Hlen Hheap Hpos Hfns Hfresh] Hat Hps Hls g Hroom Hsize.
  pose proof (zlen_nonneg (codes ps)) as Hp0. pose proof (zlen_nonneg (codes ls)) as Hl0.
  unfold sig_size, g in Hsize. cbn [s_params s_locals] in Hsize.
  pose proof (zlen_nonneg gs) as Hgs0. unfold add_fn.
  assert (Hget : arr_get (fn_list s) (fn_num s) = Ok no_fn).
  { apply arr_get_Ok. rewrite Hnum. split; [done|]. apply Hfresh. unfold zlen in *. lia. }
  rewrite Hget. cbn [mbind res_bind].
  rewrite (type_list_pack TYPE_BUF prog place ps (pack ls ++ rest)) by done. cbn [mbind res_bind].
  destruct (heap_push_ok (fheap s) (codes ps) Hheap) as (h1 & Hh1 & Hok1 & Hp1 & Ht1 & Hold1); [lia|].
  cbn [add_fn_params set_rt no_fn param_t]. rewrite Hh1. cbn [mbind res_bind].
  apply at_app in Hat. rewrite (type_list_pack TYPE_BUF prog _ ls rest) by done. cbn [mbind res_bind].
  destruct (heap_push_ok h1 (codes ls) Hok1) as (h2 & Hh2 & Hok2 & Hp2 & Ht2 & Hold2); [lia|].
  cbn [add_fn_locals local_t set_rt no_fn]. rewrite Hh2. cbn [mbind res_bind rt param_t param_n set_rt].
  rewrite arr_set_ok by lia. cbn [mbind res_bind]. rewrite zlen_app, Z.add_assoc.
  eexists. split; [reflexivity|]. constructor; cbn [fn_num fn_list fheap].
  - rewrite Hnum, zlen_app. done.
  - unfold zlen in *. by rewrite length_insert.
  - done.
  - rewrite Hp2, Hp1, Hpos, sigs_size_app. change (sigs_size [_]) with (sig_size g + 0).
    unfold sig_size, g. cbn [s_params s_locals]. lia.
  - intros i g' Hi. rewrite Hnum. unfold zlen at 1. rewrite Nat2Z.id.
    apply lookup_app_Some in Hi as [Hi|[Hge Hi]].
    + rewrite list_lookup_insert_ne by (apply lookup_lt_Some in Hi; lia).
      destruct (Hfns i g' Hi) as (fn & Hfn & Hr & Hpn & Hpt & Hln & Hlt). exists fn. split; [done|].
      unfold fn_sig. split_and!; auto.
    + apply list_lookup_singleton_Some in Hi as [Hi <-]. replace i with (length gs) by lia.
      rewrite list_lookup_insert_eq by (unfold zlen in *; lia). eexists. split; [reflexivity|].
      unfold fn_sig, g. cbn. split_and!; auto.
  - intros i Hi. rewrite length_app in Hi. cbn in Hi. rewrite Hnum. unfold zlen at 1. rewrite Nat2Z.id.
    rewrite list_lookup_insert_ne by lia. apply Hfresh. lia.
Qed.

(** ** [populate_fns] on a program *)

Definition instr_tok (i : instr) : instr_token :=
  match i with Plain t | Imm t _ | Decl t _ _ => t end.

Lemma encode_instr_cons i : exists ops, encode_instr i = token_value (instr_tok i) :: ops.
Proof. destruct i; by eexists. Qed.

Lemma encode_cons i p : encode (i :: p) = encode_instr i ++ encode p.
Proof. done. Qed.

Lemma encode_nonempty p : p <> [] -> encode p <> [].
Proof. destruct p as [|i p]; [done|]. destruct (encode_instr_cons i) as [ops H]. rewrite encode_cons, H. done. Qed.

(** The byte at the start of an instruction is its token. *)
Lemma token_at prog place i rest :
  at_ prog place (encode_instr i ++ rest) ->
  place < zlen prog /\ arr_get prog place = Ok (token_value (instr_tok i)).
Proof.
  destruct (encode_instr_cons i) as [ops ->]. intros Hat. cbn [app] in Hat.
  split; [by eapply at_lt|by eapply at_get].
Qed.

Lemma populate_step_plain prog place s t :
  operand_kind t = KNone -> populate_step prog place s (Some t) = Ok (place, s).
Proof. by destruct t. Qed.

Lemma populate_step_imm prog place s t :
  operand_kind t = KInt ->
  populate_step prog place s (Some t) = ('(_, p) ← FromIr.get_int prog place; Ok (p, s)).
Proof. by destruct t. Qed.

Lemma populate_step_decl prog place s t :
  operand_kind t = KTypes -> populate_step prog place s (Some t) = add_fn prog place s (decl_rt t).
Proof. by destruct t. Qed.

Lemma populate_step_ok prog place s gs i rest :
  wf_instr i -> small_decl i -> at_ prog place (encode_instr i ++ rest) ->
  (match i with Imm _ _ => rest <> [] | _ => True end) -> fns_ok s gs ->
  zlen gs + zlen (sigs [i]) <= 64 -> sigs_size (gs ++ sigs [i]) <= HEAP_SIZE ->
  exists s', populate_step prog (place + 1) s (Some (instr_tok i)) =
               Ok (place + zlen (encode_instr i), s') /\ fns_ok s' (gs ++ sigs [i]).
Proof.
  intros Hwf Hsm Hat Hne Hok Hnum Hsize. destruct i as [t|t v|t ps ls]; cbn [instr_tok encode_instr] in *.
  - exists s. rewrite populate_step_plain by done. cbn. by rewrite app_nil_r.
  - destruct Hwf as [Hk _]. exists s. rewrite populate_step_imm by done. cbn [app] in Hat.
    apply at_cons in Hat. rewrite (get_int_le prog (place + 1) v rest) by done. cbn [mbind res_bind].
    rewrite app_nil_r. split; [|done]. do 2 f_equal. change (zlen (_ :: le_bytes 4 v)) with 5. lia.
  - rewrite populate_step_decl by done. cbn [app] in Hat. apply at_cons in Hat. rewrite <- app_assoc in Hat.
    change (sigs [Decl t ps ls]) with
      [{| s_rt := decl_rt t; s_params := codes ps; s_locals := codes ls |}] in *.
    rewrite sigs_size_app in Hsize. destruct Hsm as [Hps Hls].
    destruct (add_fn_ok prog (place + 1) s gs ps ls rest (decl_rt t)) as (s' & Hs' & Hok'); try done.
    + change (zlen [_]) with 1 in Hnum. lia.
    + unfold sigs_size in Hsize at 2. cbn [foldr] in Hsize. lia.
    + exists s'. rewrite Hs'. split; [|done]. rewrite zlen_cons. do 2 f_equal. lia.
Qed.

Lemma sigs_cons i p : sigs (i :: p) = sigs [i] ++ sigs p.
Proof. unfold sigs. cbn. by destruct (decl_sig i). Qed.

Lemma populate_loop_ok p prog place s gs fuel :
  Forall wf_instr p -> Forall small_decl p -> imm_followed p -> at_ prog place (encode p) ->
  fns_ok s gs -> zlen gs + zlen (sigs p) <= 64 -> sigs_size (gs ++ sigs p) <= HEAP_SIZE ->
  (length p < fuel)%nat ->
  exists s', populate_loop fuel prog place s = Ok s' /\ fns_ok s' (gs ++ sigs p).
Proof.
  revert place s gs fuel.
  induction p as [|i p IH]; intros place s gs fuel Hwf Hsm Himm Hat Hok Hnum Hsize Hfuel;
    (destruct fuel as [|fuel]; [cbn in Hfuel; lia|]); cbn [populate_loop].
  - apply at_len in Hat. change (zlen (encode [])) with 0 in Hat.
    destruct (Z.ltb_spec place (zlen prog)); [lia|]. exists s. change (sigs []) with (@nil sig). by rewrite app_nil_r.
  - rewrite encode_cons in Hat. destruct (token_at _ _ _ _ Hat) as [Hlt Hget].
    destruct (Z.ltb_spec place (zlen prog)); [|lia]. rewrite Hget. cbn [mbind res_bind].
    rewrite token_of_byte_value. apply Forall_cons in Hwf as [Hi Hwf]. apply Forall_cons in Hsm as [Hsi Hsm].
    destruct Himm as [Hlast Himm]. rewrite sigs_cons in *. rewrite app_assoc, sigs_size_app in Hsize.
    pose proof (sigs_size_nonneg (sigs p)) as Hp0. rewrite zlen_app in Hnum.
    pose proof (zlen_nonneg (sigs p)) as Hp1.
    destruct (populate_step_ok prog place s gs i (encode p)) as (s1 & -> & Hok1); try done; [|lia|lia|].
    { destruct i; try done. by apply encode_nonempty. }
    cbn [mbind res_bind].
    destruct (IH (place + zlen (encode_instr i)) s1 (gs ++ sigs [i]) fuel) as (s2 & Hs2 & Hok2); try done.
    + by apply at_app.
    + rewrite zlen_app. lia.
    + rewrite !sigs_size_app in *. lia.
    + cbn in Hfuel. lia.
    + exists s2. split; [done|]. by rewrite app_assoc.
Qed.

Lemma length_encode p : (length p <= length (encode p))%nat.
Proof.
  induction p as [|i p IH]; [done|]. rewrite encode_cons, length_app.
  destruct (encode_instr_cons i) as [ops ->]. cbn. lia.
Qed.

(** A program the tables and buffers of the readers can hold. *)
Record fits (p : list instr) : Prop := {
  fit_wf : Forall wf_instr p;
  fit_decl : Forall small_decl p;
  fit_imm : imm_followed p;
  fit_fns : zlen (sigs p) <= 64;
  fit_heap : sigs_size (sigs p) <= HEAP_SIZE;
}.

Lemma fns_ok_init : fns_ok {| fn_list := replicate 64 no_fn; fn_num := 0; fheap := heap_init |} [].
Proof.
  constructor; cbn [fn_num fn_list fheap]; try done.
  intros i [_ Hi]. by apply lookup_replicate_2.
Qed.

Lemma populate_fns_spec p :
  fits p -> exists s, populate_fns (encode p) (replicate 64 no_fn) heap_init = Ok s /\ fns_ok s (sigs p).
Proof.
  intros [Hwf Hsm Himm Hnum Hsize]. unfold populate_fns.
  apply (populate_loop_ok p (encode p) 0 _ [] _); try done.
  - apply at_start.
  - apply fns_ok_init.
  - pose proof (length_encode p). lia.
Qed.

(** [populate_fns] recovers the functions of a program from its binary form:
    as many as it declares, in order, each with its return type and, in the heap,
    the types of its parameters and of its locals. *)
Theorem populate_fns_encode p :
  fits p ->
  exists s, populate_fns (encode p) (replicate 64 no_fn) heap_init = Ok s /\
    fn_num s = zlen (sigs p) /\
    forall i g, sigs p !! i = Some g ->
      exists fn, fn_list s !! i = Some fn /\ rt fn = s_rt g /\
        param_n fn = zlen (s_params g) /\ types_at (fheap s) (param_t fn) (s_params g) /\
        local_n fn = zlen (s_locals g) /\ types_at (fheap s) (local_t fn) (s_locals g).
Proof.
  intros Hp. destruct (populate_fns_spec p Hp) as (s & Hs & Hok). exists s.
  split; [done|]. split; [apply Hok|]. apply (fo_fns _ _ Hok).
Qed.

Lemma demo_fits : fits demo_program.
Proof.
  constructor.
  - repeat (apply Forall_cons_2; [vm_compute; intuition discriminate|]). apply Forall_nil_2.
  - repeat (apply Forall_cons_2; [cbn; unfold TYPE_BUF; (lia || done)|]). apply Forall_nil_2.
  - by repeat split.
  - vm_compute; discriminate.
  - vm_compute; discriminate.
Qed.

Lemma populate_fns_encode_witness :
  fits demo_program /\
  exists s, populate_fns (encode demo_program) (replicate 64 no_fn) heap_init = Ok s /\ fn_num s = 1.
Proof.
  split; [exact demo_fits|].
  destruct (populate_fns_encode demo_program demo_fits) as (s & Hs & Hn & _).
  exists s. split; [exact Hs|exact Hn].
Defined.
