(* ===== verification/Verif.v ===== *)
(** * The bytecode verifier: [verif.c]

    The global arrays and indices of the file are the record [vst]; each C
    function is a function on it. *)

From stdpp Require Import base list strings.
From Stdlib Require Import ZArith Lia.
From S2P Require Import Prelude Tokens FromIr.

Record stack_frame := { bottom : Z; top : Z }.

Record vst := {
  fn_infos : list fn_info;
  vheap : heap_st;
  cur_fn : Z;
  stack : list Z;
  stk_pos : Z;
  frames : list stack_frame;
  cur_frame : Z;
}.

Definition STACK_SIZE : Z := 4096.
Definition NFRAMES : Z := 64.
Definition NFNS : Z := 64.

(** The globals as the program starts. *)
Definition vst_init : vst :=
  {| fn_infos := replicate (Z.to_nat NFNS) no_fn;
     vheap := heap_init;
     cur_fn := -1;
     stack := replicate (Z.to_nat STACK_SIZE) 0;
     stk_pos := -1;
     frames := replicate (Z.to_nat NFRAMES) {| bottom := 0; top := 0 |};
     cur_frame := -1 |}.

Definition set_stack (s : vst) (stk : list Z) (pos : Z) : vst :=
  {| fn_infos := fn_infos s; vheap := vheap s; cur_fn := cur_fn s;
     stack := stk; stk_pos := pos; frames := frames s; cur_frame := cur_frame s |}.

Definition set_frames (s : vst) (fr : list stack_frame) (cur : Z) : vst :=
  {| fn_infos := fn_infos s; vheap := vheap s; cur_fn := cur_fn s;
     stack := stack s; stk_pos := stk_pos s; frames := fr; cur_frame := cur |}.

Definition set_fn (s : vst) (f : Z) : vst :=
  {| fn_infos := fn_infos s; vheap := vheap s; cur_fn := f;
     stack := stack s; stk_pos := stk_pos s; frames := frames s; cur_frame := cur_frame s |}.

Definition set_fns (s : vst) (l : list fn_info) (h : heap_st) : vst :=
  {| fn_infos := l; vheap := h; cur_fn := cur_fn s;
     stack := stack s; stk_pos := stk_pos s; frames := frames s; cur_frame := cur_frame s |}.

Definition push_t (s : vst) (type : Z) : res vst :=
  if stk_pos s =? -1 then Err
  else if 4096 <=? stk_pos s then Err
  else
    stk ← arr_set (stack s) (stk_pos s) type;
    Ok (set_stack s stk (stk_pos s + 1)).

Definition pop_t (s : vst) : res (Z * vst) :=
  if cur_frame s =? -1 then Err
  else
    fr ← arr_get (frames s) (cur_frame s);
    if stk_pos s =? bottom fr then Err
    else
      t ← arr_get (stack s) (stk_pos s - 1);
      Ok (t, set_stack s (stack s) (stk_pos s - 1)).

Definition push_frame (s : vst) : res vst :=
  if cur_frame s =? 63 then Err
  else
    fr ← (if 0 <=? cur_frame s then
            f ← arr_get (frames s) (cur_frame s);
            fr ← arr_set (frames s) (cur_frame s) {| bottom := bottom f; top := stk_pos s |};
            g ← arr_get fr (cur_frame s + 1);
            arr_set fr (cur_frame s + 1) {| bottom := stk_pos s; top := top g |}
          else Ok (frames s));
    Ok (set_frames s fr (cur_frame s + 1)).

Definition pop_frame (s : vst) : res vst :=
  if cur_frame s =? -1 then Err
  else
    let s := set_frames s (frames s) (cur_frame s - 1) in
    if cur_frame s =? -1 then Ok (set_stack s (stack s) (-1))
    else
      f ← arr_get (frames s) (cur_frame s);
      Ok (set_stack s (stack s) (top f)).

Definition is_in_fn (s : vst) : bool := 0 <=? cur_frame s.

(** [p[i]] for a pointer [p] into the heap. *)
Definition heap_get (h : heap_st) (p : option Z) (i : Z) : res Z :=
  p ← checked p;
  arr_get (heap h) (p + i).

Definition get_local_t (s : vst) (lnum : Z) : res Z :=
  if lnum <? 0 then Err
  else
    fn ← arr_get (fn_infos s) (cur_fn s);
    if lnum <? param_n fn then heap_get (vheap s) (param_t fn) lnum
    else
      let lnum := lnum - param_n fn in
      if local_n fn <=? lnum then Err
      else heap_get (vheap s) (local_t fn) lnum.

(** [if (pop_t() != type) return -1;] *)
Definition pop_expect (s : vst) (type : Z) : res vst :=
  '(t, s) ← pop_t s;
  require (t =? type);;
  Ok s.

(** [if (place >= prog_len) return -1; if (prog[place] != end) return -1;] *)
Definition expect_end (prog : list Z) (place : Z) : res unit :=
  if zlen prog <=? place then Err
  else
    b ← arr_get prog place;
    require (schar b =? token_value end_).

(** The [for] loop of [call]: the parameters [n-1] down to [0]. *)
Fixpoint pop_params (n : nat) (s : vst) (fn : fn_info) : res vst :=
  match n with
  | O => Ok s
  | S n =>
      '(t, s) ← pop_t s;
      p ← heap_get (vheap s) (param_t fn) (Z.of_nat n);
      require (t =? p);;
      pop_params n s fn
  end.

(** A call of [get_type_list] whose result is ignored: on [-1] the place is
    unchanged. *)
Definition skip_type_list (prog : list Z) (place : Z) : res Z :=
  match get_type_list TYPE_BUF prog place with
  | Ok (_, place) => Ok place
  | Err => Ok place
  | Fault e => Fault e
  end.

(** The arguments of one iteration: the program, the number of functions, and
    the value the variable [fnum] has before it is assigned in the iteration.
    The case [ret] reads it there. *)
Section step.
Context (prog : list Z) (num_fns : Z) (indet_fnum : Z).

(** The [switch] of [verify]; [place] is the place after the token, and
    [prev] is [prev_fn_num]. *)
Definition verify_step (place prev : Z) (s : vst) (token : option instr_token)
    : res (Z * Z * vst) :=
  match token with
  | Some i_const =>
      require (is_in_fn s);;
      '(_, place) ← get_int prog place;
      s ← push_t s INT_T;
      Ok (place, prev, s)
  | Some (i_clz | i_ctz | i_popcnt | i_eqz | i_ld32 | i_ld16_s | i_ld16_u | i_ld8_s
         | i_ld8_u) =>
      require (is_in_fn s);;
      s ← pop_expect s INT_T;
      s ← push_t s INT_T;
      Ok (place, prev, s)
  | Some (i_add | i_and | i_div_s | i_div_u | i_mul | i_or | i_rem_s | i_rem_u | i_rotl
         | i_rotr | i_shl | i_shr_s | i_shr_u | i_sub | i_xor | i_eq | i_ge_s
         | i_ge_u | i_gt_s | i_gt_u | i_le_s | i_le_u | i_lt_s | i_lt_u | i_ne) =>
      require (is_in_fn s);;
      s ← pop_expect s INT_T;
      s ← pop_expect s INT_T;
      s ← push_t s INT_T;
      Ok (place, prev, s)
  | Some i_memsz =>
      require (is_in_fn s);;
      s ← push_t s INT_T;
      Ok (place, prev, s)
  | Some (str32 | str16 | str8) =>
      require (is_in_fn s);;
      '(t, s) ← pop_t s;
      require (negb (t <? 0));;
      s ← pop_expect s INT_T;
      Ok (place, prev, s)
  | Some trap =>
      require (is_in_fn s);;
      expect_end prog place;;
      Ok (place, prev, s)
  | Some (block | loop) =>
      require (is_in_fn s);;
      s ← push_frame s;
      Ok (place, prev, s)
  | Some ret =>
      require (is_in_fn s);;
      expect_end prog place;;
      fn ← arr_get (fn_infos s) indet_fnum;
      s ← (if rt fn =? 0 then Ok s else pop_expect s (rt fn));
      expect_end prog place;;
      Ok (place, prev, s)
  | Some end_ =>
      s ← pop_frame s;
      Ok (place, prev, s)
  | Some get_l =>
      require (is_in_fn s);;
      '(lnum, place) ← get_int prog place;
      type ← get_local_t s lnum;
      require (negb (type <? 0));;
      s ← push_t s type;
      Ok (place, prev, s)
  | Some call =>
      require (is_in_fn s);;
      '(fnum, place) ← get_int prog place;
      require (negb ((fnum <? 0) || (num_fns <=? fnum)));;
      fn ← arr_get (fn_infos s) fnum;
      s ← pop_params (Z.to_nat (param_n fn)) s fn;
      s ← (if rt fn =? 0 then Ok s else push_t s (rt fn));
      Ok (place, prev, s)
  | Some set_l =>
      require (is_in_fn s);;
      '(lnum, place) ← get_int prog place;
      '(type, s) ← pop_t s;
      require (negb (type <? 0));;
      lt ← get_local_t s lnum;
      require (type =? lt);;
      Ok (place, prev, s)
  | Some br =>
      require (is_in_fn s);;
      '(lnum, place) ← get_int prog place;
      require (negb (lnum <? 0));;
      require (negb (cur_frame s <=? lnum));;
      expect_end prog place;;
      Ok (place, prev, s)
  | Some br_if =>
      require (is_in_fn s);;
      '(lnum, place) ← get_int prog place;
      require (negb (lnum <? 0));;
      require (negb (cur_frame s <=? lnum));;
      s ← pop_expect s INT_T;
      Ok (place, prev, s)
  | Some (v_declfn | i_declfn) =>
      require (negb (is_in_fn s));;
      s ← push_frame s;
      let prev := prev + 1 in
      let s := set_fn (set_stack s (stack s) 0) prev in
      place ← skip_type_list prog place;
      place ← skip_type_list prog place;
      Ok (place, prev, s)
  | None => Err
  end.
End step.

(** The [while] of [verify].  [indet p] is the value of the unassigned [fnum]
    in the iteration that starts at [p]. *)
Fixpoint verify_loop (fuel : nat) (prog : list Z) (num_fns : Z) (indet : Z -> Z)
    (place prev : Z) (s : vst) : res vst :=
  match fuel with
  | O => Fault OutOfFuel
  | S fuel =>
      if place <? zlen prog then
        b ← arr_get prog place;
        '(place, prev, s) ←
          verify_step prog num_fns (indet place) (place + 1) prev s (token_of_byte b);
        verify_loop fuel prog num_fns indet place prev s
      else Ok s
  end.

Definition verify_from (prog : list Z) (indet : Z -> Z) (s : vst) : res vst :=
  f ← populate_fns prog (fn_infos s) (vheap s);
  let s := set_fns s (fn_list f) (fheap f) in
  f0 ← arr_get (fn_infos s) 0;
  require (param_n f0 =? 0);;
  verify_loop (S (length prog)) prog (fn_num f) indet 0 (-1) s.

(** [verify] in a process that starts: [umbverif] calls it once. *)
Definition verify (prog : list Z) (indet : Z -> Z) : res vst :=
  verify_from prog indet vst_init.
