(* ===== verification/VerifProofs.v ===== *)
(** * The verifier implements a type system

    [check] is the type system of SUME32 as a function on programs: a stack of
    frames, one per open block, each a stack of types.  The verifier keeps it in
    two arrays and three indices; it accepts exactly the programs [check]
    accepts, and never reads or writes outside its arrays. *)

From stdpp Require Import base list strings.
From Stdlib Require Import ZArith Lia.
From S2P Require Import Prelude Tokens Syntax ToIr ToIrProofs FromIr FromIrProofs Verif.

(** ** The type system *)

(** The current function and the open frames, innermost first; a frame is its
    types, the top of the stack first. *)
Record ctx := { c_fn : Z; c_frames : list (list Z) }.

Definition height (fs : list (list Z)) : nat := length (concat fs).

(** The verifier's arrays bound the depth and the height. *)
Definition MAX_FRAMES : Z := 64.
Definition MAX_HEIGHT : Z := 4096.

Definition apush (t : Z) (c : ctx) : option ctx :=
  match c_frames c with
  | [] => None
  | f :: fs => if decide (MAX_HEIGHT <= Z.of_nat (height (f :: fs))) then None
               else Some {| c_fn := c_fn c; c_frames := (t :: f) :: fs |}
  end.

(** Only the types of the innermost frame can be popped. *)
Definition apop (c : ctx) : option (Z * ctx) :=
  match c_frames c with
  | (t :: f) :: fs => Some (t, {| c_fn := c_fn c; c_frames := f :: fs |})
  | _ => None
  end.

Definition apop_expect (t : Z) (c : ctx) : option ctx :=
  '(t', c) ← apop c; if decide (t' = t) then Some c else None.

Definition aopen (c : ctx) : option ctx :=
  if decide (MAX_FRAMES <= zlen (c_frames c)) then None
  else Some {| c_fn := c_fn c; c_frames := [] :: c_frames c |}.

Definition aclose (c : ctx) : option ctx :=
  match c_frames c with
  | [] => None
  | _ :: fs => Some {| c_fn := c_fn c; c_frames := fs |}
  end.

(** Pop the parameters, the last one first. *)
Fixpoint apop_all (ts : list Z) (c : ctx) : option ctx :=
  match ts with
  | [] => Some c
  | t :: ts => c ← apop_expect t c; apop_all ts c
  end.

Definition in_fn (c : ctx) : bool := match c_frames c with [] => false | _ => true end.

Definition guard_ (b : bool) : option unit := if b then Some tt else None.

Section check.
Context (gs : list sig).

Definition sig_vars (k : Z) : list Z :=
  match gs !! Z.to_nat k with Some g => s_params g ++ s_locals g | None => [] end.

Definition sig_rt (k : Z) : Z :=
  match gs !! Z.to_nat k with Some g => s_rt g | None => 0 end.

Definition var_type (c : ctx) (n : Z) : option Z :=
  if n <? 0 then None else sig_vars (c_fn c) !! Z.to_nat n.

Definition is_end (next : option instr) : bool :=
  match next with Some (Plain end_) => true | _ => false end.

Inductive shape := Sunary | Sbinary | Spush | Sstore | Strap | Sopen | Sret | Sclose | Snone.

Definition plain_shape (t : instr_token) : shape :=
  match t with
  | i_clz | i_ctz | i_popcnt | i_eqz | i_ld32 | i_ld16_s | i_ld16_u | i_ld8_s | i_ld8_u => Sunary
  | i_add | i_and | i_div_s | i_div_u | i_mul | i_or | i_rem_s | i_rem_u | i_rotl
  | i_rotr | i_shl | i_shr_s | i_shr_u | i_sub | i_xor | i_eq | i_ge_s
  | i_ge_u | i_gt_s | i_gt_u | i_le_s | i_le_u | i_lt_s | i_lt_u | i_ne => Sbinary
  | i_memsz => Spush
  | str32 | str16 | str8 => Sstore
  | trap => Strap
  | block | loop => Sopen
  | ret => Sret
  | end_ => Sclose
  | _ => Snone
  end.

(** The effect of an instruction; [next] is the one after it, and [k] the
    function whose return type a [ret] is checked against. *)
Definition check_instr (k : Z) (c : ctx) (i : instr) (next : option instr) : option ctx :=
  match i with
  | Plain t =>
      match plain_shape t with
      | Sunary => guard_ (in_fn c);; c ← apop_expect INT_T c; apush INT_T c
      | Sbinary =>
          guard_ (in_fn c);; c ← apop_expect INT_T c; c ← apop_expect INT_T c; apush INT_T c
      | Spush => guard_ (in_fn c);; apush INT_T c
      | Sstore => guard_ (in_fn c);; '(_, c) ← apop c; apop_expect INT_T c
      | Strap => guard_ (in_fn c);; guard_ (is_end next);; Some c
      | Sopen => guard_ (in_fn c);; aopen c
      | Sret =>
          guard_ (in_fn c);; guard_ (is_end next);;
          if decide (sig_rt k = 0) then Some c else apop_expect (sig_rt k) c
      | Sclose => aclose c
      | Snone => None
      end
  | Imm t v =>
      guard_ (in_fn c);;
      match t with
      | i_const => apush INT_T c
      | get_l => t ← var_type c (s32 v); apush t c
      | set_l =>
          '(t, c) ← apop c; t' ← var_type c (s32 v); guard_ (bool_decide (t = t'));; Some c
      | br =>
          guard_ (bool_decide (0 <= s32 v < zlen (c_frames c) - 1));; guard_ (is_end next);; Some c
      | br_if =>
          guard_ (bool_decide (0 <= s32 v < zlen (c_frames c) - 1));; apop_expect INT_T c
      | call =>
          guard_ (bool_decide (0 <= s32 v < zlen gs));;
          g ← gs !! Z.to_nat (s32 v);
          c ← apop_all (reverse (s_params g)) c;
          if decide (s_rt g = 0) then Some c else apush (s_rt g) c
      | _ => None
      end
  | Decl _ _ _ =>
      guard_ (negb (in_fn c));;
      c ← aopen c; Some {| c_fn := c_fn c + 1; c_frames := c_frames c |}
  end.

(** [rets place] is the function a [ret] at [place] is checked against. *)
Fixpoint check_from (rets : Z -> Z) (place : Z) (c : ctx) (p : list instr) : option ctx :=
  match p with
  | [] => Some c
  | i :: p =>
      c ← check_instr (rets place) c i (head p);
      check_from rets (place + zlen (encode_instr i)) c p
  end.
End check.

Definition check (rets : Z -> Z) (p : list instr) : option ctx :=
  guard_ (match sigs p with g :: _ => bool_decide (s_params g = []) | [] => true end);;
  check_from (sigs p) rets 0 {| c_fn := -1; c_frames := [] |} p.

(** ** How the verifier represents it *)

(** The types [l] lie in the stack array from [lo] on, the bottom first. *)
Definition seg_at (stk : list Z) (lo : nat) (l : list Z) : Prop :=
  forall i t, reverse l !! i = Some t -> stk !! (lo + i)%nat = Some t.

(** The frames [fs], innermost first, in the two arrays.  The array entry of a
    frame that has others inside it records its top. *)
Fixpoint layout (stk : list Z) (fr : list stack_frame) (fs : list (list Z)) : Prop :=
  match fs with
  | [] => True
  | f :: fs =>
      (exists b, fr !! length fs = Some b /\ bottom b = Z.of_nat (height fs)) /\
      (match fs with [] => True | _ => exists b, fr !! (length fs - 1)%nat = Some b /\
                                                top b = Z.of_nat (height fs) end) /\
      seg_at stk (height fs) f /\ layout stk fr fs
  end.

Record vrel (gs : list sig) (s : vst) (c : ctx) : Prop := {
  vr_fns : zlen (fn_infos s) = NFNS;
  vr_sigs : forall i g, gs !! i = Some g ->
              exists fn, fn_infos s !! i = Some fn /\ fn_sig (vheap s) fn g;
  vr_fresh : forall i fn, (length gs <= i)%nat -> fn_infos s !! i = Some fn -> rt fn = 0;
  vr_heap : heap_ok (vheap s);
  vr_stack : zlen (stack s) = STACK_SIZE;
  vr_frames : zlen (frames s) = NFRAMES;
  vr_first : exists b, frames s !! 0%nat = Some b /\ bottom b = 0;
  vr_fn : cur_fn s = c_fn c;
  vr_cur : cur_frame s = zlen (c_frames c) - 1;
  vr_pos : stk_pos s = if decide (c_frames c = []) then -1 else Z.of_nat (height (c_frames c));
  vr_layout : layout (stack s) (frames s) (c_frames c);
  vr_depth : zlen (c_frames c) <= MAX_FRAMES;
  vr_height : Z.of_nat (height (c_frames c)) <= MAX_HEIGHT;
  vr_types : Forall (Forall (fun t => 0 <= t)) (c_frames c);
}.

Lemma height_cons f fs : height (f :: fs) = (length f + height fs)%nat.
Proof. unfold height. cbn. by rewrite length_app. Qed.

(** The frames lie below their height. *)
Lemma seg_at_insert stk lo l p t :
  (lo + length l <= p)%nat -> seg_at stk lo l -> seg_at (<[p := t]> stk) lo l.
Proof.
  intros Hp H i u Hi. pose proof (lookup_lt_Some _ _ _ Hi) as Hlt. rewrite length_reverse in Hlt.
  rewrite list_lookup_insert_ne by lia. by apply H.
Qed.

Lemma layout_insert stk fr fs p t :
  (height fs <= p)%nat -> layout stk fr fs -> layout (<[p := t]> stk) fr fs.
Proof.
  induction fs as [|f fs IH]; [done|]. rewrite height_cons. cbn [layout].
  intros Hp (Hb & Ht & Hs & Hl). split_and!; [done|done| |apply IH; [lia|done]].
  apply seg_at_insert; [lia|done].
Qed.

Lemma seg_at_push stk lo l t :
  (lo + length l < length stk)%nat -> seg_at stk lo l ->
  seg_at (<[(lo + length l)%nat := t]> stk) lo (t :: l).
Proof.
  intros Hlt H i u. rewrite reverse_cons. intros [Hi|[Hge Hi]]%lookup_app_Some.
  - apply (seg_at_insert stk lo l _ t); [lia|done|done].
  - rewrite length_reverse in *. apply list_lookup_singleton_Some in Hi as [Hi ->].
    replace (lo + i)%nat with (lo + length l)%nat by lia. by rewrite list_lookup_insert_eq.
Qed.

Lemma seg_at_top stk lo l t : seg_at stk lo (t :: l) -> stk !! (lo + length l)%nat = Some t /\ seg_at stk lo l.
Proof.
  intros H. unfold seg_at in *. rewrite reverse_cons in H. split.
  - apply H. rewrite lookup_app_r by (rewrite length_reverse; lia). by rewrite length_reverse, Nat.sub_diag.
  - intros i u Hi. apply H. by apply lookup_app_l_Some.
Qed.

(** The array entries of the frames outside the innermost one do not move. *)
Lemma layout_frames stk fr fr' fs :
  (forall k, (k < length fs)%nat -> (bottom <$> fr' !! k) = (bottom <$> fr !! k)) ->
  (forall k, (S k < length fs)%nat -> (top <$> fr' !! k) = (top <$> fr !! k)) ->
  layout stk fr fs -> layout stk fr' fs.
Proof.
  induction fs as [|f fs IH]; [done|]. cbn [layout length]. intros Hbot Htop ((b & Hb & Hbb) & Ht & Hs & Hl).
  split_and!; [| |done|].
  - specialize (Hbot (length fs) ltac:(lia)). rewrite Hb in Hbot. cbn in Hbot.
    apply fmap_Some in Hbot as (b' & Hb' & Heq). exists b'. split; [done|congruence].
  - destruct fs as [|g fs]; [done|]. destruct Ht as (b' & Hb' & Ht'). cbn [length] in *.
    replace (S (length fs) - 1)%nat with (length fs) in * by lia.
    specialize (Htop (length fs) ltac:(lia)). rewrite Hb' in Htop. cbn in Htop.
    apply fmap_Some in Htop as (b2 & Hb2 & Heq). exists b2. split; [done|congruence].
  - apply IH; [intros; apply Hbot; lia|intros; apply Htop; lia|done].
Qed.

(** ** The operations *)

Section ops.
Context (gs : list sig).

Lemma in_fn_spec s c : vrel gs s c -> is_in_fn s = in_fn c.
Proof.
  intros H. unfold is_in_fn, in_fn. rewrite (vr_cur _ _ _ H).
  destruct (c_frames c) as [|f fs]; [done|]. rewrite zlen_cons. pose proof (zlen_nonneg fs).
  by destruct (Z.leb_spec 0 (1 + zlen fs - 1)); [|lia].
Qed.

(** A result of the verifier against one of the type system. *)
Definition matches (r : res vst) (o : option ctx) : Prop :=
  match o with
  | Some c' => exists s', r = Ok s' /\ vrel gs s' c'
  | None => r = Err
  end.

Lemma push_t_spec s c t : vrel gs s c -> 0 <= t -> matches (push_t s t) (apush t c).
Proof.
  intros H Hnn. pose proof (vr_pos _ _ _ H) as Hpos. pose proof (vr_layout _ _ _ H) as Hlay.
  pose proof (vr_height _ _ _ H) as Hh. pose proof (vr_stack _ _ _ H) as Hst.
  unfold apush, push_t. destruct (c_frames c) as [|f fs] eqn:E; cbn [matches].
  - rewrite Hpos. by rewrite decide_True.
  - rewrite decide_False in Hpos by done. rewrite Hpos.
    destruct (Z.eqb_spec (Z.of_nat (height (f :: fs))) (-1)); [lia|].
    unfold STACK_SIZE, zlen, MAX_HEIGHT in *.
    destruct (decide (4096 <= Z.of_nat (height (f :: fs)))), (Z.leb_spec 4096 (Z.of_nat (height (f :: fs)))); try lia; [done|].
    cbn [matches]. rewrite arr_set_ok by (unfold zlen; lia). cbn [mbind res_bind].
    eexists. split; [reflexivity|]. destruct H. rewrite height_cons in *. rewrite Nat2Z.id.
    constructor; cbn [set_stack fn_infos vheap cur_fn stack stk_pos frames cur_frame c_fn c_frames]; try done.
    + unfold zlen. by rewrite length_insert.
    + rewrite vr_cur0, E, !zlen_cons. done.
    + rewrite decide_False by done. rewrite height_cons. cbn [length]. lia.
    + cbn [layout] in *. destruct Hlay as (Hb & Ht & Hs & Hl). rewrite (Nat.add_comm (length f)).
      split_and!; [done|done| |apply layout_insert; [lia|done]].
      apply seg_at_push; [lia|done].
    + rewrite E in vr_depth0. done.
    + rewrite height_cons. cbn [length]. unfold MAX_HEIGHT. lia.
    + rewrite E in vr_types0. apply Forall_cons in vr_types0 as [H1 H2].
      apply Forall_cons_2; [by apply Forall_cons_2|done].
Qed.

(** [pop_t] and the types it hands out. *)
Lemma pop_t_spec s c :
  vrel gs s c ->
  match apop c with
  | Some (t, c') => exists s', pop_t s = Ok (t, s') /\ 0 <= t /\ vrel gs s' c'
  | None => pop_t s = Err
  end.
Proof.
  intros H. pose proof (vr_pos _ _ _ H) as Hpos. pose proof (vr_layout _ _ _ H) as Hlay.
  pose proof (vr_cur _ _ _ H) as Hcur. unfold apop, pop_t.
  destruct (c_frames c) as [|f fs] eqn:E; [by rewrite Hcur|].
  rewrite decide_False in Hpos by done. rewrite zlen_cons in Hcur. pose proof (zlen_nonneg fs) as Hfs.
  destruct (Z.eqb_spec (cur_frame s) (-1)); [lia|].
  destruct Hlay as ((b & Hb & Hbb) & Ht & Hs & Hl).
  assert (Hg : arr_get (frames s) (cur_frame s) = Ok b).
  { apply arr_get_Ok. split; [lia|]. rewrite Hcur. replace (Z.to_nat (1 + zlen fs - 1)) with (length fs); [done|].
    unfold zlen. lia. }
  rewrite Hg. cbn [mbind res_bind]. rewrite Hpos, Hbb, height_cons. destruct f as [|t f].
  - cbn [length Nat.add]. by rewrite Z.eqb_refl.
  - cbn [length]. destruct (Z.eqb_spec (Z.of_nat (S (length f) + height fs)) (Z.of_nat (height fs))); [lia|].
    apply seg_at_top in Hs as [Htop Hs].
    replace (arr_get (stack s) (Z.of_nat (S (length f) + height fs) - 1)) with (Ok t).
    2:{ symmetry. apply arr_get_Ok. split; [lia|]. rewrite <- Htop. f_equal. lia. }
    cbn [mbind res_bind]. pose proof (vr_types _ _ _ H) as Hty. rewrite E in Hty.
    apply Forall_cons in Hty as [[H1 H2]%Forall_cons H3].
    eexists. split; [reflexivity|]. split; [done|]. destruct H.
    constructor; cbn [set_stack fn_infos vheap cur_fn stack stk_pos frames cur_frame c_fn c_frames]; try done.
    + rewrite vr_cur0, E, !zlen_cons. done.
    + rewrite decide_False by done. rewrite height_cons. lia.
    + cbn [layout]. split_and!; [by exists b|done|done|done].
    + by rewrite E in vr_depth0.
    + rewrite E, height_cons in vr_height0. rewrite height_cons. cbn [length] in *. lia.
    + by apply Forall_cons_2.
Qed.

Lemma pop_expect_spec s c t : vrel gs s c -> matches (pop_expect s t) (apop_expect t c).
Proof.
  intros H. pose proof (pop_t_spec s c H) as Hp. unfold pop_expect, apop_expect, matches.
  destruct (apop c) as [[t' c']|]; cbn [mbind option_bind]; [|by rewrite Hp].
  destruct Hp as (s' & -> & _ & Hs'). cbn [mbind res_bind].
  destruct (decide (t' = t)) as [->|Hne]; cbn [matches].
  - rewrite Z.eqb_refl. cbn [require mbind res_bind]. by exists s'.
  - destruct (Z.eqb_spec t' t); [done|]. done.
Qed.

Lemma pop_frame_spec s c : vrel gs s c -> matches (pop_frame s) (aclose c).
Proof.
  intros H. pose proof (vr_layout _ _ _ H) as Hlay. pose proof (vr_cur _ _ _ H) as Hcur.
  unfold aclose, pop_frame. destruct (c_frames c) as [|f fs] eqn:E; cbn [matches]; [by rewrite Hcur|].
  rewrite zlen_cons in Hcur. pose proof (zlen_nonneg fs).
  destruct (Z.eqb_spec (cur_frame s) (-1)); [lia|]. destruct Hlay as (Hb & Ht & Hs & Hl).
  cbn [set_frames cur_frame frames]. destruct fs as [|g fs].
  - change (zlen []) with 0 in Hcur. rewrite Hcur. eexists. split; [reflexivity|]. destruct H.
    constructor; cbn; try done.
  - rewrite zlen_cons in *. pose proof (zlen_nonneg fs).
    destruct (Z.eqb_spec (cur_frame s - 1) (-1)); [lia|]. destruct Ht as (b & Hb' & Htop).
    assert (Hg : arr_get (frames s) (cur_frame s - 1) = Ok b).
    { apply arr_get_Ok. split; [lia|]. rewrite <- Hb'. f_equal. rewrite Hcur. unfold zlen. cbn [length]. lia. }
    rewrite Hg. cbn [mbind res_bind]. eexists. split; [reflexivity|]. destruct H.
    constructor; cbn [set_stack set_frames fn_infos vheap cur_fn stack stk_pos frames cur_frame c_fn c_frames];
      try done.
    + rewrite vr_cur0, E, !zlen_cons. lia.
    + rewrite E, !zlen_cons in vr_depth0. rewrite zlen_cons. lia.
    + rewrite E, height_cons in vr_height0. lia.
    + rewrite E in vr_types0. by apply Forall_cons in vr_types0 as [_ ?].
Qed.

Lemma push_frame_spec s c : vrel gs s c -> in_fn c = true -> matches (push_frame s) (aopen c).
Proof.
  intros H Hin. pose proof (vr_layout _ _ _ H) as Hlay. pose proof (vr_cur _ _ _ H) as Hcur.
  pose proof (vr_pos _ _ _ H) as Hpos. pose proof (vr_depth _ _ _ H) as Hdep.
  pose proof (vr_frames _ _ _ H) as Hlen. unfold aopen, push_frame, in_fn, MAX_FRAMES, NFRAMES in *.
  destruct (c_frames c) as [|f fs] eqn:E; [done|]. rewrite decide_False in Hpos by done.
  rewrite zlen_cons in *. pose proof (zlen_nonneg fs) as Hfs.
  destruct (decide (64 <= 1 + zlen fs)), (Z.eqb_spec (cur_frame s) 63); cbn [matches]; try lia; [done|].
  destruct (Z.leb_spec 0 (cur_frame s)); [|lia].
  assert (Hn : Z.to_nat (cur_frame s) = length fs) by (rewrite Hcur; unfold zlen; lia).
  assert (Hn1 : Z.to_nat (cur_frame s + 1) = S (length fs)) by lia.
  destruct (arr_get_ok (frames s) (cur_frame s)) as [b Hb]; [lia|]. rewrite Hb. cbn [mbind res_bind].
  rewrite arr_set_ok by lia. cbn [mbind res_bind]. rewrite Hn. set (fr1 := <[_ := _]> (frames s)).
  assert (Hl1 : zlen fr1 = 64) by (unfold fr1, zlen in *; by rewrite length_insert).
  destruct (arr_get_ok fr1 (cur_frame s + 1)) as [b1 Hb1]; [lia|]. rewrite Hb1. cbn [mbind res_bind].
  rewrite arr_set_ok by lia. cbn [mbind res_bind]. rewrite Hn1. set (fr2 := <[_ := _]> fr1).
  apply arr_get_Ok in Hb as [_ Hb]. rewrite Hn in Hb.
  assert (Hlb : (length fs < length (frames s))%nat) by (by apply lookup_lt_Some in Hb).
  assert (Hl2 : (S (length fs) < length fr1)%nat) by (unfold zlen in *; lia).
  assert (Hold : forall k, k <> S (length fs) -> (bottom <$> fr2 !! k) = (bottom <$> frames s !! k)).
  { intros k Hk. unfold fr2. rewrite list_lookup_insert_ne by lia. unfold fr1.
    destruct (decide (k = length fs)) as [->|].
    - rewrite list_lookup_insert_eq by done. by rewrite Hb.
    - by rewrite list_lookup_insert_ne by lia. }
  eexists. split; [reflexivity|]. destruct H.
  constructor; cbn [set_stack set_frames fn_infos vheap cur_fn stack stk_pos frames cur_frame c_fn c_frames];
    try done.
  - unfold fr2, zlen in *. by rewrite length_insert.
  - destruct vr_first0 as (b0 & Hb0 & Hz0). specialize (Hold 0%nat ltac:(lia)). rewrite Hb0 in Hold.
    apply fmap_Some in Hold as (b' & Hb' & Heq). exists b'. split; [done|congruence].
  - rewrite Hcur, !zlen_cons. lia.
  - assert (Hlay2 : layout (stack s) fr2 (f :: fs)).
    { apply (layout_frames _ (frames s)); [|intros k Hk|exact Hlay].
      - intros k Hk. apply Hold. cbn [length] in Hk. lia.
      - cbn [length] in Hk. unfold fr2, fr1. by rewrite !list_lookup_insert_ne by lia. }
    split; [|split; [|split; [by intros i t Hi|exact Hlay2]]].
    + eexists. unfold fr2. cbn [length]. rewrite list_lookup_insert_eq by done. split; [done|]. by rewrite Hpos.
    + eexists. unfold fr2, fr1. cbn [length]. replace (S (length fs) - 1)%nat with (length fs) by lia.
      rewrite list_lookup_insert_ne, list_lookup_insert_eq by lia. split; [done|]. by rewrite Hpos.
  - rewrite !zlen_cons. unfold MAX_FRAMES. lia.
  - rewrite E in vr_height0. done.
  - rewrite E in vr_types0. by apply Forall_cons_2.
Qed.

(** The first frame of a function. *)
Lemma open_fn_spec s c :
  vrel gs s c -> in_fn c = false ->
  exists s1, push_frame s = Ok s1 /\
    vrel gs (set_fn (set_stack s1 (stack s1) 0) (c_fn c + 1))
      {| c_fn := c_fn c + 1; c_frames := [[]] |}.
Proof.
  intros H Hin. unfold in_fn in Hin. destruct (c_frames c) eqn:E; [|done]. clear Hin.
  destruct H. unfold push_frame. rewrite E in vr_cur0. change (cur_frame s = -1) in vr_cur0.
  rewrite vr_cur0. cbn [Z.eqb Z.leb Z.compare mbind res_bind]. eexists. split; [reflexivity|].
  constructor; cbn [set_fn set_stack set_frames fn_infos vheap cur_fn stack stk_pos frames cur_frame c_fn c_frames];
    try done.
  repeat constructor.
Qed.

(** Every declared type is a code. *)
Hypothesis Hgs : Forall (fun g => Forall (fun t => 0 <= t) (s_params g ++ s_locals g) /\ 0 <= s_rt g) gs.

Lemma types_get h p ts i t :
  heap_ok h -> types_at h p ts -> ts !! i = Some t -> heap_get h p (Z.of_nat i) = Ok t.
Proof.
  intros Hh (a & -> & Ha & Hfit & Hts) Hi. unfold heap_get. cbn [checked mbind res_bind].
  apply arr_get_Ok. split; [lia|]. rewrite <- Hts in Hi. apply lookup_take_Some in Hi as [Hi _].
  rewrite lookup_drop in Hi. rewrite <- Hi. f_equal. lia.
Qed.

Lemma get_local_spec s c n :
  vrel gs s c -> 0 <= c_fn c < zlen gs ->
  get_local_t s n = match var_type gs c n with Some t => Ok t | None => Err end /\
  (forall t, var_type gs c n = Some t -> 0 <= t).
Proof.
  intros H Hc. destruct (lookup_lt_is_Some_2 gs (Z.to_nat (c_fn c))) as [g Hg]; [unfold zlen in Hc; lia|].
  destruct (vr_sigs _ _ _ H _ _ Hg) as (fn & Hfn & _ & Hpn & Hpt & Hln & Hlt).
  pose proof (vr_heap _ _ _ H) as Hh. unfold get_local_t, var_type, sig_vars. rewrite Hg.
  destruct (Z.ltb_spec n 0); [done|].
  assert (Hget : arr_get (fn_infos s) (cur_fn s) = Ok fn).
  { apply arr_get_Ok. rewrite (vr_fn _ _ _ H). split; [lia|done]. }
  rewrite Hget. cbn [mbind res_bind]. rewrite Hpn, Hln. split.
  - destruct (Z.ltb_spec n (zlen (s_params g))) as [Hlt'|Hge].
    + rewrite lookup_app_l by (unfold zlen in *; lia).
      destruct (lookup_lt_is_Some_2 (s_params g) (Z.to_nat n)) as [t Ht]; [unfold zlen in *; lia|].
      rewrite Ht, <- (Z2Nat.id n) by done. by apply (types_get _ _ (s_params g)).
    + rewrite lookup_app_r by (unfold zlen in *; lia).
      destruct (Z.leb_spec (zlen (s_locals g)) (n - zlen (s_params g))) as [Hbig|Hsm].
      * rewrite lookup_ge_None_2; [done|]. unfold zlen in *. lia.
      * destruct (lookup_lt_is_Some_2 (s_locals g) (Z.to_nat n - length (s_params g))) as [t Ht];
          [unfold zlen in *; lia|].
        rewrite Ht. replace (n - zlen (s_params g)) with (Z.of_nat (Z.to_nat n - length (s_params g)))
          by (unfold zlen in *; lia). by apply (types_get _ _ (s_locals g)).
  - intros t Ht. rewrite Forall_forall in Hgs. destruct (Hgs g) as [Hpos _].
    { by eapply list_elem_of_lookup_2. }
    by apply (Forall_lookup_1 _ _ _ _ Hpos Ht).
Qed.

Lemma pop_t_heap s t s' : pop_t s = Ok (t, s') -> vheap s' = vheap s.
Proof.
  unfold pop_t. destruct (cur_frame s =? -1); [done|]. intros H. apply bind_Ok in H as (fr & _ & H).
  destruct (stk_pos s =? bottom fr); [done|]. by inv_ok.
Qed.

Lemma pop_params_spec fn g n s c :
  vrel gs s c -> types_at (vheap s) (param_t fn) (s_params g) -> (n <= length (s_params g))%nat ->
  matches (pop_params n s fn) (apop_all (reverse (take n (s_params g))) c).
Proof.
  revert s c. induction n as [|n IH]; intros s c H Hpt Hn; cbn [pop_params].
  - cbn. by exists s.
  - destruct (lookup_lt_is_Some_2 (s_params g) n) as [t Ht]; [lia|].
    rewrite (take_S_r _ _ _ Ht), reverse_snoc. cbn [apop_all].
    pose proof (pop_t_spec s c H) as Hp. unfold apop_expect.
    destruct (apop c) as [[t' c']|]; cbn [mbind option_bind]; [|by rewrite Hp].
    destruct Hp as (s' & Hp & _ & Hs'). rewrite Hp. cbn [mbind res_bind].
    pose proof (pop_t_heap s t' s' Hp) as Hheap.
    rewrite Hheap. rewrite (types_get _ _ (s_params g) n t) by (done || apply (vr_heap _ _ _ H)).
    cbn [mbind res_bind]. destruct (decide (t' = t)) as [->|Hne].
    + rewrite Z.eqb_refl. cbn [require mbind res_bind option_bind]. apply IH; [done|by rewrite Hheap|lia].
    + destruct (Z.eqb_spec t' t); [done|]. done.
Qed.

End ops.

(** The byte after an instruction. *)
Lemma expect_end_spec prog place p :
  at_ prog place (encode p) -> Forall wf_instr p ->
  expect_end prog place = if is_end (head p) then Ok () else Err.
Proof.
  intros Hat Hwf. unfold expect_end. destruct p as [|i p].
  - apply at_len in Hat. change (zlen (encode [])) with 0 in Hat.
    by destruct (Z.leb_spec (zlen prog) place); [|lia].
  - rewrite encode_cons in Hat. destruct (token_at _ _ _ _ Hat) as [Hlt Hget].
    destruct (Z.leb_spec (zlen prog) place); [lia|]. rewrite Hget. cbn [mbind res_bind head].
    apply Forall_cons in Hwf as [Hi _].
    rewrite schar_small by (pose proof (token_value_range (instr_tok i)); lia).
    destruct i as [t|t v|t ps ls]; cbn [instr_tok is_end].
    + by destruct t.
    + destruct Hi as [Hk _]. by destruct t.
    + by destruct t.
Qed.

(** ** One instruction *)

Lemma apush_fn t c c' : apush t c = Some c' -> c_fn c' = c_fn c.
Proof. unfold apush. destruct (c_frames c); [done|]. case_decide; [done|]. by intros [= <-]. Qed.

Lemma apop_fn c t c' : apop c = Some (t, c') -> c_fn c' = c_fn c.
Proof. unfold apop. destruct (c_frames c) as [|[|? ?] ?]; try done. by intros [= <- <-]. Qed.

Lemma apop_expect_fn t c c' : apop_expect t c = Some c' -> c_fn c' = c_fn c.
Proof.
  unfold apop_expect. intros ([t' c1] & H1 & H)%bind_Some. apply apop_fn in H1.
  case_decide; [|done]. congruence.
Qed.

Lemma aopen_fn c c' : aopen c = Some c' -> c_fn c' = c_fn c.
Proof. unfold aopen. case_decide; [done|]. by intros [= <-]. Qed.

Lemma aclose_fn c c' : aclose c = Some c' -> c_fn c' = c_fn c.
Proof. unfold aclose. destruct (c_frames c); [done|]. by intros [= <-]. Qed.

Lemma apop_all_fn ts c c' : apop_all ts c = Some c' -> c_fn c' = c_fn c.
Proof.
  revert c. induction ts as [|t ts IH]; intros c; cbn; [by intros [= <-]|].
  intros (c1 & H1%apop_expect_fn & H)%bind_Some. apply IH in H. congruence.
Qed.

Create HintDb fn_kept.
#[export] Hint Resolve apush_fn apop_fn apop_expect_fn aopen_fn aclose_fn apop_all_fn : fn_kept.

Section step.
Context (gs : list sig) (place' fnum : Z).
Implicit Types (s : vst) (c : ctx).

(** The result of an iteration against a result of the type system. *)
Definition stepm (r : res (Z * Z * vst)) (o : option ctx) : Prop :=
  match o with
  | Some c' => exists s', r = Ok (place', c_fn c', s') /\ vrel gs s' c'
  | None => r = Err
  end.

Lemma stepm_ret s c : vrel gs s c -> c_fn c = fnum -> stepm (Ok (place', fnum, s)) (Some c).
Proof. intros H <-. by exists s. Qed.

Lemma stepm_bind m o k k' :
  matches gs m o -> (forall s c, o = Some c -> vrel gs s c -> stepm (k s) (k' c)) ->
  stepm (m ≫= k) (o ≫= k').
Proof.
  unfold matches. destruct o as [c|]; cbn [mbind option_bind].
  - intros (s & -> & Hs) Hk. by apply Hk.
  - by intros -> _.
Qed.

Lemma stepm_last m o :
  matches gs m o -> (forall c, o = Some c -> c_fn c = fnum) ->
  stepm (m ≫= fun s => Ok (place', fnum, s)) o.
Proof.
  unfold matches. destruct o as [c|].
  - intros (s & -> & Hs) Hk. cbn [mbind res_bind stepm]. exists s. by rewrite (Hk c eq_refl).
  - by intros ->.
Qed.

Lemma stepm_guard b r o :
  (b = true -> stepm r o) -> stepm (require b ;; r) (guard_ b ;; o).
Proof. destruct b; cbn; auto. Qed.

Lemma stepm_pop s c k k' :
  vrel gs s c ->
  (forall t s' c', apop c = Some (t, c') -> 0 <= t -> vrel gs s' c' -> stepm (k (t, s')) (k' (t, c'))) ->
  stepm (pop_t s ≫= k) (apop c ≫= k').
Proof.
  intros H Hk. pose proof (pop_t_spec gs s c H) as Hp. destruct (apop c) as [[t c']|]; cbn [mbind option_bind].
  - destruct Hp as (s' & -> & Ht & Hs'). by apply Hk.
  - by rewrite Hp.
Qed.
End step.

Section instr.
Context (gs : list sig) (prog : list Z) (num k place : Z) (next : option instr) (s : vst) (c : ctx).
Hypothesis Hrel : vrel gs s c.
Hypothesis Hnext : expect_end prog place = if is_end next then Ok () else Err.
Hypothesis Hk : 0 <= k < NFNS.

Let INT_nonneg : 0 <= INT_T.
Proof. by unfold INT_T. Qed.

(** Decide the equation of [verify_step] for the tokens of a shape. *)
Ltac by_shape t :=
  destruct t; try discriminate; reflexivity.

Lemma rt_spec : exists fn, arr_get (fn_infos s) k = Ok fn /\ rt fn = sig_rt gs k.
Proof.
  destruct (arr_get_ok (fn_infos s) k) as [fn Hfn]; [by rewrite (vr_fns _ _ _ Hrel)|].
  exists fn. split; [done|]. apply arr_get_Ok in Hfn as [_ Hfn]. unfold sig_rt.
  destruct (gs !! Z.to_nat k) as [g|] eqn:E.
  - destruct (vr_sigs _ _ _ Hrel _ _ E) as (fn' & Hfn' & Hr & _). congruence.
  - apply lookup_ge_None in E. by eapply vr_fresh.
Qed.

Lemma verify_unary t :
  plain_shape t = Sunary ->
  stepm gs place (verify_step prog num k place (c_fn c) s (Some t)) (check_instr gs k c (Plain t) next).
Proof.
  intros Hs. cbn [check_instr]. rewrite Hs.
  replace (verify_step prog num k place (c_fn c) s (Some t)) with
    (require (is_in_fn s);; s ← pop_expect s INT_T; s ← push_t s INT_T; Ok (place, c_fn c, s)) by by_shape t.
  rewrite (in_fn_spec _ _ _ Hrel). apply stepm_guard. intros _.
  eapply stepm_bind; [by apply pop_expect_spec|]. intros s1 c1 H1 Hr1.
  apply stepm_last; [by apply push_t_spec|].
  intros c2 H2. apply apush_fn in H2. apply apop_expect_fn in H1. congruence.
Qed.

Lemma verify_binary t :
  plain_shape t = Sbinary ->
  stepm gs place (verify_step prog num k place (c_fn c) s (Some t)) (check_instr gs k c (Plain t) next).
Proof.
  intros Hs. cbn [check_instr]. rewrite Hs.
  replace (verify_step prog num k place (c_fn c) s (Some t)) with
    (require (is_in_fn s);; s ← pop_expect s INT_T; s ← pop_expect s INT_T; s ← push_t s INT_T;
     Ok (place, c_fn c, s)) by by_shape t.
  rewrite (in_fn_spec _ _ _ Hrel). apply stepm_guard. intros _.
  eapply stepm_bind; [by apply pop_expect_spec|]. intros s1 c1 H1 Hr1.
  eapply stepm_bind; [by apply pop_expect_spec|]. intros s2 c2 H2 Hr2.
  apply stepm_last; [by apply push_t_spec|].
  intros c3 H3. apply apush_fn in H3. apply apop_expect_fn in H1, H2. congruence.
Qed.

Lemma verify_store t :
  plain_shape t = Sstore ->
  stepm gs place (verify_step prog num k place (c_fn c) s (Some t)) (check_instr gs k c (Plain t) next).
Proof.
  intros Hs. cbn [check_instr]. rewrite Hs.
  replace (verify_step prog num k place (c_fn c) s (Some t)) with
    (require (is_in_fn s);; '(t, s) ← pop_t s; require (negb (t <? 0));; s ← pop_expect s INT_T;
     Ok (place, c_fn c, s)) by by_shape t.
  rewrite (in_fn_spec _ _ _ Hrel). apply stepm_guard. intros _.
  apply stepm_pop; [done|]. intros u s1 c1 H1 Hu Hr1.
  destruct (Z.ltb_spec u 0); [lia|]. cbn [negb require]. cbn beta iota. cbn [mbind res_bind].
  apply stepm_last; [by apply pop_expect_spec|].
  intros c2 H2. apply apop_fn in H1. apply apop_expect_fn in H2. congruence.
Qed.

Lemma verify_ret t :
  plain_shape t = Sret ->
  stepm gs place (verify_step prog num k place (c_fn c) s (Some t)) (check_instr gs k c (Plain t) next).
Proof.
  intros Hs. cbn [check_instr]. rewrite Hs. destruct rt_spec as (fn & Hfn & Hrt).
  replace (verify_step prog num k place (c_fn c) s (Some t)) with
    (require (is_in_fn s);; expect_end prog place;; fn ← arr_get (fn_infos s) k;
     s ← (if rt fn =? 0 then Ok s else pop_expect s (rt fn)); expect_end prog place;;
     Ok (place, c_fn c, s)) by by_shape t.
  rewrite (in_fn_spec _ _ _ Hrel). apply stepm_guard. intros _. rewrite Hnext.
  destruct (is_end next); [|done]. cbn [guard_ mbind res_bind option_bind].
  rewrite Hfn. cbn [mbind res_bind]. rewrite Hrt.
  destruct (decide (sig_rt gs k = 0)) as [->|Hne].
  - cbn. by exists s.
  - destruct (Z.eqb_spec (sig_rt gs k) 0); [done|].
    apply stepm_last; [by apply pop_expect_spec|]. eauto with fn_kept.
Qed.

Lemma verify_plain t :
  operand_kind t = KNone ->
  stepm gs place (verify_step prog num k place (c_fn c) s (Some t)) (check_instr gs k c (Plain t) next).
Proof.
  intros Hkind. destruct (plain_shape t) eqn:Hs.
  - by apply verify_unary.
  - by apply verify_binary.
  - cbn [check_instr]. rewrite Hs.
    replace (verify_step prog num k place (c_fn c) s (Some t)) with
      (require (is_in_fn s);; s ← push_t s INT_T; Ok (place, c_fn c, s)) by by_shape t.
    rewrite (in_fn_spec _ _ _ Hrel). apply stepm_guard. intros _.
    apply stepm_last; [by apply push_t_spec|eauto with fn_kept].
  - by apply verify_store.
  - cbn [check_instr]. rewrite Hs.
    replace (verify_step prog num k place (c_fn c) s (Some t)) with
      (require (is_in_fn s);; expect_end prog place;; Ok (place, c_fn c, s)) by by_shape t.
    rewrite (in_fn_spec _ _ _ Hrel). apply stepm_guard. intros _. rewrite Hnext.
    destruct (is_end next); [|done]. cbn. by exists s.
  - cbn [check_instr]. rewrite Hs.
    replace (verify_step prog num k place (c_fn c) s (Some t)) with
      (require (is_in_fn s);; s ← push_frame s; Ok (place, c_fn c, s)) by by_shape t.
    rewrite (in_fn_spec _ _ _ Hrel). apply stepm_guard. intros Hin.
    apply stepm_last; [by apply push_frame_spec|eauto with fn_kept].
  - by apply verify_ret.
  - cbn [check_instr]. rewrite Hs.
    replace (verify_step prog num k place (c_fn c) s (Some t)) with
      (s ← pop_frame s; Ok (place, c_fn c, s)) by by_shape t.
    apply stepm_last; [by apply pop_frame_spec|eauto with fn_kept].
  - by destruct t.
Qed.
End instr.

Section imm.
Context (gs : list sig) (prog : list Z) (k place place' v : Z) (next : option instr) (s : vst) (c : ctx).
Hypothesis Hrel : vrel gs s c.
Hypothesis Hgs : Forall (fun g => Forall (fun t => 0 <= t) (s_params g ++ s_locals g) /\ 0 <= s_rt g) gs.
Hypothesis Hint : FromIr.get_int prog place = Ok (s32 v, place').
Hypothesis Hnext : expect_end prog place' = if is_end next then Ok () else Err.
Hypothesis Hfn : in_fn c = true -> 0 <= c_fn c < zlen gs.

Abbreviation vstep t := (verify_step prog (zlen gs) k place (c_fn c) s (Some t)).

Lemma verify_get_l : stepm gs place' (vstep get_l) (check_instr gs k c (Imm get_l v) next).
Proof.
  cbn [check_instr verify_step]. rewrite (in_fn_spec _ _ _ Hrel). apply stepm_guard. intros Hin.
  rewrite Hint. cbn [mbind res_bind].
  destruct (get_local_spec gs Hgs s c (s32 v) Hrel (Hfn Hin)) as [-> Hpos].
  destruct (var_type gs c (s32 v)) as [t|]; [|done]. specialize (Hpos t eq_refl).
  cbn [mbind res_bind option_bind]. destruct (Z.ltb_spec t 0); [lia|]. cbn [negb require mbind res_bind].
  apply stepm_last; [by apply push_t_spec|eauto with fn_kept].
Qed.

Lemma verify_set_l : stepm gs place' (vstep set_l) (check_instr gs k c (Imm set_l v) next).
Proof.
  cbn [check_instr verify_step]. rewrite (in_fn_spec _ _ _ Hrel). apply stepm_guard. intros Hin.
  rewrite Hint. cbn [mbind res_bind]. apply stepm_pop; [done|]. intros t s1 c1 H1 Ht Hr1. cbn beta iota.
  destruct (Z.ltb_spec t 0); [lia|]. cbn [negb require mbind res_bind].
  pose proof (apop_fn _ _ _ H1) as Hc1.
  destruct (get_local_spec gs Hgs s1 c1 (s32 v) Hr1) as [-> _]; [rewrite Hc1; auto|].
  destruct (var_type gs c1 (s32 v)) as [t'|]; [|done]. cbn [mbind res_bind option_bind].
  destruct (Z.eqb_spec t t'), (bool_decide_reflect (t = t')); try done.
  cbn [require guard_ mbind res_bind option_bind]. by apply stepm_ret.
Qed.

Lemma depth_guard :
  (require (negb (s32 v <? 0));; require (negb (cur_frame s <=? s32 v))) =
  (if bool_decide (0 <= s32 v < zlen (c_frames c) - 1) then Ok () else Err).
Proof.
  rewrite (vr_cur _ _ _ Hrel). case_bool_decide; repeat zcase; cbn; done || lia.
Qed.

Lemma verify_br : stepm gs place' (vstep br) (check_instr gs k c (Imm br v) next).
Proof.
  cbn [check_instr verify_step]. rewrite (in_fn_spec _ _ _ Hrel). apply stepm_guard. intros Hin.
  rewrite Hint. cbn [mbind res_bind]. pose proof depth_guard as Hd.
  destruct (require (negb (s32 v <? 0))); cbn [mbind res_bind] in Hd |- *;
    [rewrite Hd|..]; destruct (bool_decide _); try done.
  cbn [guard_ mbind res_bind option_bind]. rewrite Hnext. destruct (is_end next); [|done].
  cbn [guard_ mbind res_bind option_bind]. by apply stepm_ret.
Qed.

Lemma verify_br_if : stepm gs place' (vstep br_if) (check_instr gs k c (Imm br_if v) next).
Proof.
  cbn [check_instr verify_step]. rewrite (in_fn_spec _ _ _ Hrel). apply stepm_guard. intros Hin.
  rewrite Hint. cbn [mbind res_bind]. pose proof depth_guard as Hd.
  destruct (require (negb (s32 v <? 0))); cbn [mbind res_bind] in Hd |- *;
    [rewrite Hd|..]; destruct (bool_decide _); try done.
  cbn [guard_ mbind res_bind option_bind].
  apply stepm_last; [by apply pop_expect_spec|eauto with fn_kept].
Qed.

Lemma verify_call : stepm gs place' (vstep call) (check_instr gs k c (Imm call v) next).
Proof.
  cbn [check_instr verify_step]. rewrite (in_fn_spec _ _ _ Hrel). apply stepm_guard. intros Hin.
  rewrite Hint. cbn [mbind res_bind].
  replace (negb ((s32 v <? 0) || (zlen gs <=? s32 v))) with (bool_decide (0 <= s32 v < zlen gs))
    by (case_bool_decide; repeat zcase; cbn; done || lia).
  apply stepm_guard. intros Hr%bool_decide_eq_true.
  destruct (lookup_lt_is_Some_2 gs (Z.to_nat (s32 v))) as [g Hg]; [unfold zlen in Hr; lia|].
  rewrite Hg. destruct (vr_sigs _ _ _ Hrel _ _ Hg) as (fn & Hf & Hrt & Hpn & Hpt & _).
  assert (Hget : arr_get (fn_infos s) (s32 v) = Ok fn) by (apply arr_get_Ok; split; [lia|done]).
  rewrite Hget. cbn [mbind res_bind option_bind]. rewrite Hpn, Hrt.
  pose proof (pop_params_spec gs fn g (length (s_params g)) s c Hrel Hpt ltac:(lia)) as Hpp.
  rewrite firstn_all in Hpp. unfold zlen at 1. rewrite Nat2Z.id.
  eapply stepm_bind; [exact Hpp|]. intros s1 c1 H1 Hr1. apply apop_all_fn in H1.
  rewrite Forall_forall in Hgs. destruct (Hgs g) as [_ Hnn]; [by eapply list_elem_of_lookup_2|].
  destruct (decide (s_rt g = 0)) as [->|Hne].
  - cbn. exists s1. by rewrite <- H1.
  - destruct (Z.eqb_spec (s_rt g) 0); [done|].
    apply stepm_last; [by apply push_t_spec|]. intros c2 H2%apush_fn. congruence.
Qed.

Lemma verify_imm t :
  operand_kind t = KInt -> stepm gs place' (vstep t) (check_instr gs k c (Imm t v) next).
Proof.
  destruct t; try discriminate; intros _.
  - cbn [check_instr verify_step]. rewrite (in_fn_spec _ _ _ Hrel). apply stepm_guard. intros Hin.
    rewrite Hint. cbn [mbind res_bind]. apply stepm_last; [by apply push_t_spec|eauto with fn_kept].
  - apply verify_get_l.
  - apply verify_set_l.
  - apply verify_br.
  - apply verify_br_if.
  - apply verify_call.
Qed.
End imm.

Lemma skip_spec prog place ts rest :
  at_ prog place (pack ts ++ rest) -> (length ts <= TYPE_BUF)%nat ->
  skip_type_list prog place = Ok (place + zlen (pack ts)).
Proof. intros Hat Hl. unfold skip_type_list. by rewrite (type_list_pack TYPE_BUF prog place ts rest). Qed.

(** A declaration, its two type lists skipped. *)
Lemma verify_decl gs prog num k place s c t ps ls rest :
  vrel gs s c -> operand_kind t = KTypes -> at_ prog place (pack ps ++ pack ls ++ rest) ->
  small_decl (Decl t ps ls) -> forall next,
  stepm gs (place + zlen (pack ps ++ pack ls)) (verify_step prog num k place (c_fn c) s (Some t))
    (check_instr gs k c (Decl t ps ls) next).
Proof.
  intros Hrel Hk Hat [Hps Hls] next. cbn [check_instr].
  replace (verify_step prog num k place (c_fn c) s (Some t)) with
    (require (negb (is_in_fn s));; s ← push_frame s;
     let s := set_fn (set_stack s (stack s) 0) (c_fn c + 1) in
     place ← skip_type_list prog place; place ← skip_type_list prog place;
     Ok (place, c_fn c + 1, s)) by (destruct t; try discriminate; reflexivity).
  rewrite (in_fn_spec _ _ _ Hrel). apply stepm_guard. intros Hin%negb_true_iff.
  destruct (open_fn_spec gs s c Hrel Hin) as (s1 & -> & Hr1). cbn [mbind res_bind].
  rewrite (skip_spec prog place ps (pack ls ++ rest)) by done. cbn [mbind res_bind]. apply at_app in Hat.
  rewrite (skip_spec prog _ ls rest) by done. cbn [mbind res_bind].
  unfold aopen, in_fn in *. destruct (c_frames c); [|done].
  cbn. eexists. split; [|exact Hr1]. rewrite zlen_app. do 3 f_equal. lia.
Qed.

(** ** Whole programs *)

Lemma guard_Some {A} b (o : option A) a : (guard_ b ;; o) = Some a -> b = true /\ o = Some a.
Proof. by destruct b. Qed.

(** Follow the current function through the operations. *)
Ltac fn_eqs :=
  repeat match goal with
  | H : (guard_ _ ;; _) = Some _ |- _ => apply guard_Some in H as [? H]
  | H : (_ ≫= _) = Some _ |- _ => apply bind_Some in H as (? & ? & H)
  | p : _ * _ |- _ => destruct p
  | H : Some _ = Some _ |- _ => injection H as H; try subst
  | H : apush _ _ = Some _ |- _ => apply apush_fn in H
  | H : apop _ = Some (_, _) |- _ => apply apop_fn in H
  | H : apop_expect _ _ = Some _ |- _ => apply apop_expect_fn in H
  | H : aopen _ = Some _ |- _ => apply aopen_fn in H
  | H : apop_all _ _ = Some _ |- _ => apply apop_all_fn in H
  | H : (if decide _ then _ else _) = Some _ |- _ => case_decide
  end; try congruence.

(** An instruction that declares no function stays in the current one. *)
Lemma check_instr_fn gs k c i next c' :
  check_instr gs k c i next = Some c' ->
  match i with
  | Decl _ _ _ => c_fn c' = c_fn c + 1
  | _ => c_fn c' = c_fn c /\ in_fn c = true
  end.
Proof.
  destruct i as [t|t v|t ps ls]; cbn [check_instr]; intros H.
  - destruct (plain_shape t) eqn:Hs; try discriminate.
    1-7: split; fn_eqs.
    split; [by apply aclose_fn|]. unfold aclose, in_fn in *. by destruct (c_frames c).
  - destruct t; (apply guard_Some in H as [Hin H]; split; [|exact Hin]); try discriminate; fn_eqs.
  - fn_eqs. cbn. congruence.
Qed.

Lemma verify_step_instr gs prog place k s c i p :
  vrel gs s c -> at_ prog place (encode (i :: p)) -> Forall wf_instr (i :: p) -> small_decl i ->
  imm_followed (i :: p) -> 0 <= k < NFNS -> (in_fn c = true -> 0 <= c_fn c < zlen gs) ->
  Forall (fun g => Forall (fun t => 0 <= t) (s_params g ++ s_locals g) /\ 0 <= s_rt g) gs ->
  stepm gs (place + zlen (encode_instr i))
    (verify_step prog (zlen gs) k (place + 1) (c_fn c) s (Some (instr_tok i)))
    (check_instr gs k c i (head p)).
Proof.
  intros Hrel Hat [Hi Hwf]%Forall_cons Hsm [Hlast _] Hk Hfn Hgs. rewrite encode_cons in Hat.
  pose proof (expect_end_spec prog _ p (at_app _ _ _ _ Hat) Hwf) as Hnext.
  destruct i as [t|t v|t ps ls]; cbn [instr_tok encode_instr] in *.
  - by apply verify_plain.
  - cbn [app] in Hat. apply at_cons in Hat. destruct Hi as [Hkind _].
    replace (place + zlen (token_value t :: le_bytes 4 v)) with (place + 1 + 4) in *
      by (change (zlen (_ :: le_bytes 4 v)) with 5; lia).
    apply verify_imm; try done.
    apply (get_int_le prog (place + 1) v (encode p)); [done|by apply encode_nonempty].
  - cbn [app] in Hat. apply at_cons in Hat. rewrite <- app_assoc in Hat.
    rewrite zlen_cons, Z.add_assoc. by eapply verify_decl.
Qed.

Lemma sigs_nonneg p :
  Forall (fun g => Forall (fun t => 0 <= t) (s_params g ++ s_locals g) /\ 0 <= s_rt g) (sigs p).
Proof.
  assert (Hc : forall ts, Forall (fun t => 0 <= t) (codes ts)).
  { intros ts. apply Forall_fmap, Forall_true. by intros []. }
  induction p as [|i p IH]; [constructor|]. rewrite sigs_cons. apply Forall_app_2; [|done].
  destruct i as [| |t ps ls]; cbn; try constructor; [|constructor]. cbn.
  split; [by apply Forall_app_2|]. unfold decl_rt. by case_decide.
Qed.

Lemma verify_loop_spec gs p prog indet place s c fuel :
  vrel gs s c -> at_ prog place (encode p) -> Forall wf_instr p -> Forall small_decl p ->
  imm_followed p -> (forall q, 0 <= indet q < NFNS) ->
  Forall (fun g => Forall (fun t => 0 <= t) (s_params g ++ s_locals g) /\ 0 <= s_rt g) gs ->
  -1 <= c_fn c -> (in_fn c = true -> 0 <= c_fn c) -> c_fn c + 1 + zlen (sigs p) = zlen gs ->
  (length p < fuel)%nat ->
  matches gs (verify_loop fuel prog (zlen gs) indet place (c_fn c) s) (check_from gs indet place c p).
Proof.
  intros Hrel Hat Hwf Hsm Himm Hind Hgs. revert place s c fuel Hrel Hat.
  induction p as [|i p IH]; intros place s c fuel Hrel Hat Hmin Hin Hcount Hfuel;
    (destruct fuel as [|fuel]; [cbn in Hfuel; lia|]); cbn [verify_loop check_from].
  - apply at_len in Hat. change (zlen (encode [])) with 0 in Hat.
    destruct (Z.ltb_spec place (zlen prog)); [lia|]. by exists s.
  - pose proof Hat as Hat'. rewrite encode_cons in Hat'. destruct (token_at _ _ _ _ Hat') as [Hlt Hget].
    destruct (Z.ltb_spec place (zlen prog)); [|lia]. rewrite Hget. cbn [mbind res_bind].
    rewrite token_of_byte_value. rewrite sigs_cons, zlen_app in Hcount.
    pose proof (zlen_nonneg (sigs p)). pose proof (zlen_nonneg (sigs [i])).
    apply Forall_cons in Hsm as [Hsi Hsm].
    pose proof (verify_step_instr gs prog place (indet place) s c i p Hrel Hat Hwf Hsi Himm (Hind _)
      ltac:(intros; specialize (Hin ltac:(done)); lia) Hgs) as Hstep.
    apply Forall_cons in Hwf as [_ Hwf]. destruct Himm as [_ Himm].
    destruct (check_instr gs (indet place) c i (head p)) as [c'|] eqn:E; cbn [stepm mbind option_bind] in *.
    + destruct Hstep as (s' & -> & Hr'). cbn [mbind res_bind]. apply check_instr_fn in E.
      assert (Hnew : c_fn c' = c_fn c + zlen (sigs [i]) /\ 0 <= c_fn c').
      { destruct i; [destruct E as [-> Hf]; specialize (Hin Hf)|destruct E as [-> Hf]; specialize (Hin Hf)|];
          [change (zlen (sigs [_])) with 0|change (zlen (sigs [_])) with 0|change (zlen (sigs [_])) with 1];
          lia. }
      apply IH; try done; [by apply at_app|lia|lia|lia|cbn in Hfuel; lia].
    + by rewrite Hstep.
Qed.

Lemma vrel_init f gs :
  fns_ok f gs -> vrel gs (set_fns vst_init (fn_list f) (fheap f)) {| c_fn := -1; c_frames := [] |}.
Proof.
  intros [Hnum Hlen Hheap Hpos Hfns Hfresh].
  constructor; cbn [set_fns fn_infos vheap stack frames cur_fn cur_frame stk_pos c_fn c_frames]; try done.
  - intros i fn Hge Hi. assert (Hlt : (i < 64)%nat) by (apply lookup_lt_Some in Hi; unfold zlen in Hlen; lia).
    rewrite Hfresh in Hi by lia. by injection Hi as <-.
  - by eexists.
Qed.

Lemma first_sig f gs :
  fns_ok f gs -> exists f0, arr_get (fn_list f) 0 = Ok f0 /\
    (param_n f0 =? 0) = match gs with g :: _ => bool_decide (s_params g = []) | [] => true end.
Proof.
  intros [Hnum Hlen Hheap Hpos Hfns Hfresh]. destruct gs as [|g gs].
  - exists no_fn. split; [|done]. apply arr_get_Ok. split; [done|]. apply Hfresh. cbn. lia.
  - destruct (Hfns 0%nat g eq_refl) as (fn & Hfn & _ & Hpn & _). exists fn.
    split; [by apply arr_get_Ok|]. rewrite Hpn. destruct (s_params g) as [|t ts]; [done|].
    rewrite zlen_cons. pose proof (zlen_nonneg ts). destruct (Z.eqb_spec (1 + zlen ts) 0); [lia|].
    by rewrite bool_decide_eq_false_2.
Qed.


(** A procedure with a local. *)
Definition demo_proc : list instr :=
  [Decl v_declfn [] [TInt]; Imm i_const 3; Imm set_l 0; Plain block; Imm get_l 0; Imm br_if 0;
   Plain end_; Plain ret; Plain end_].

Lemma demo_proc_fits : fits demo_proc.
Proof.
  constructor.
  - repeat (apply Forall_cons_2; [vm_compute; intuition discriminate|]). apply Forall_nil_2.
  - repeat (apply Forall_cons_2; [cbn; unfold TYPE_BUF; (lia || done)|]). apply Forall_nil_2.
  - by repeat split.
  - vm_compute; discriminate.
  - vm_compute; discriminate.
Qed.


(** A procedure, then a function that returns an integer. *)
Definition two_functions : list instr :=
  [Decl v_declfn [] []; Plain ret; Plain end_;
   Decl i_declfn [] []; Imm i_const 1; Plain ret; Plain end_].


(** The verifier accepts a program that ends inside a function, and one
    whose function runs into the code of the next because no [ret] ends it. *)
Theorem verify_accepts_open_function :
  (exists s, verify (encode [Decl v_declfn [] []; Plain block]) (fun _ => 0) = Ok s) /\
  (exists s, verify (encode [Decl v_declfn [] []; Plain end_; Decl i_declfn [] []; Plain end_])
               (fun _ => 0) = Ok s).
Proof. split; eexists; vm_compute; reflexivity. Qed.
