(* ===== verification/Instrs.v ===== *)
(** * The x86 instruction encoders: [instrs.c]

    A C encoder stores the bytes of an instruction at [instr] and returns a
    length; here it is the pair of the two.  Registers and immediates are
    [int]s, a byte stored through [char*] is its value modulo 256. *)

From stdpp Require Import base list strings.
From Stdlib Require Import ZArith Lia.
From S2P Require Import Prelude.

(** The registers of [instrs.h]. *)
Definition AL : Z := 0.
Definition CL : Z := 1.
Definition DL : Z := 2.
Definition BL : Z := 3.

Definition EAX : Z := 0.
Definition ECX : Z := 1.
Definition EDX : Z := 2.
Definition EBX : Z := 3.
Definition ESP : Z := 4.
Definition EBP : Z := 5.
Definition ESI : Z := 6.
Definition EDI : Z := 7.

(** The return value, and the bytes stored at [instr[0]], [instr[1]], ... *)
Record enc := { enc_len : Z; enc_bytes : list Z }.

Definition modrm (mod_ regop rm : Z) : Z :=
  u8 (Z.lor (Z.lor (Z.shiftl (Z.land mod_ 3) 6) (Z.shiftl (Z.land regop 7) 3))
            (Z.land rm 7)).

Definition sib (ss index base : Z) : Z := modrm ss index base.

Definition op_imm32 (op imm : Z) : enc :=
  {| enc_len := 5; enc_bytes := u8 op :: le_bytes 4 imm |}.

Definition op_modrm_imm32 (op md imm : Z) : enc :=
  {| enc_len := 6; enc_bytes := u8 op :: u8 md :: le_bytes 4 imm |}.

Definition op_modrm_ib (op md imm : Z) : enc :=
  {| enc_len := 3; enc_bytes := [u8 op; u8 md; u8 imm] |}.

Definition op_modrm (op md : Z) : enc :=
  {| enc_len := 2; enc_bytes := [u8 op; u8 md] |}.

Definition op_op_modrm (op0 op1 md : Z) : enc :=
  {| enc_len := 3; enc_bytes := [u8 op0; u8 op1; u8 md] |}.

Definition op_rel32 (op rel : Z) : enc :=
  {| enc_len := 5; enc_bytes := u8 op :: le_bytes 4 (rel - 5) |}.

Definition op_op_rel32 (op0 op1 rel : Z) : enc :=
  {| enc_len := 6; enc_bytes := u8 op0 :: u8 op1 :: le_bytes 4 (rel - 6) |}.

Definition add_r32_imm (r0 imm : Z) : enc :=
  if r0 =? EAX then op_imm32 0x05 imm
  else op_modrm_imm32 0x81 (modrm 3 0 r0) imm.

Definition add_r32_r32 (r0 r1 : Z) : enc := op_modrm 0x03 (modrm 3 r0 r1).

Definition and_r32_r32 (r0 r1 : Z) : enc := op_modrm 0x23 (modrm 3 r0 r1).

Definition bsf_r32_r32 (r0 r1 : Z) : enc := op_op_modrm 0x0f 0xbc (modrm 3 r0 r1).

Definition bsr_r32_r32 (r0 r1 : Z) : enc := op_op_modrm 0x0f 0xbd (modrm 3 r0 r1).

Definition call_rel (start stop : Z) : enc := op_rel32 0xe8 (stop - start).

Definition cmp_r32_r32 (r0 r1 : Z) : enc := op_modrm 0x39 (modrm 3 r1 r0).

Definition div_r32 (r0 : Z) : enc := op_modrm 0xf7 (modrm 3 6 r0).

Definition idiv_r32 (r0 : Z) : enc := op_modrm 0xf7 (modrm 3 7 r0).

Definition jae_rel (start stop : Z) : enc := op_op_rel32 0x0f 0x83 (stop - start).

Definition jb_rel (start stop : Z) : enc := op_op_rel32 0x0f 0x82 (stop - start).

Definition jz_rel (start stop : Z) : enc := op_op_rel32 0x0f 0x84 (stop - start).

Definition jne_rel (start stop : Z) : enc := op_op_rel32 0x0f 0x85 (stop - start).

Definition jmp_rel (start stop : Z) : enc := op_rel32 0xe9 (stop - start).

Definition mov_r8_r8 (r0 r1 : Z) : enc := op_modrm 0x88 (modrm 3 r1 r0).

Definition mov_r32_r32 (r0 r1 : Z) : enc := op_modrm 0x89 (modrm 3 r1 r0).

Definition mov_dis_ebp_r32 (dis r1 : Z) : enc := op_modrm_imm32 0x89 (modrm 2 r1 EBP) dis.

Definition mov_r32_dis_ebp (r0 dis : Z) : enc := op_modrm_imm32 0x8b (modrm 2 r0 EBP) dis.

Definition mov_r32_ar32 (r0 r1 : Z) : enc := op_modrm 0x8b (modrm 0 r0 r1).

Definition mov_ar32_r8 (r0 r1 : Z) : enc := op_modrm 0x88 (modrm 0 r1 r0).

Definition mov_ar32_r32 (r0 r1 : Z) : enc := op_modrm 0x89 (modrm 0 r1 r0).

Definition mov_r32_imm (r0 imm : Z) : enc := op_imm32 (0xb8 + r0) imm.

Definition movsx_r32_ar8 (r0 r1 : Z) : enc := op_op_modrm 0x0f 0xbe (modrm 0 r0 r1).

Definition movsx_r32_ar16 (r0 r1 : Z) : enc := op_op_modrm 0x0f 0xbf (modrm 0 r0 r1).

Definition movzx_r32_ar8 (r0 r1 : Z) : enc := op_op_modrm 0x0f 0xb6 (modrm 0 r0 r1).

Definition movzx_r32_ar16 (r0 r1 : Z) : enc := op_op_modrm 0x0f 0xb7 (modrm 0 r0 r1).

Definition mul_r32 (r0 : Z) : enc := op_modrm 0xf7 (modrm 3 4 r0).

Definition or_r32_r32 (r0 r1 : Z) : enc := op_modrm 0x0b (modrm 3 r0 r1).

(** These two also adjust the stack height [*stkh], returned first. *)
Definition push_r32 (r0 stkh : Z) : Z * enc :=
  (s32 (stkh + 1), {| enc_len := 1; enc_bytes := [u8 (0x50 + r0)] |}).

Definition pop_r32 (r0 stkh : Z) : Z * enc :=
  (s32 (stkh - 1), {| enc_len := 1; enc_bytes := [u8 (0x58 + r0)] |}).

Definition ret_fn : enc := {| enc_len := 1; enc_bytes := [0xc3] |}.

Definition rol_r32 (r0 : Z) : enc := op_modrm 0xd3 (modrm 3 0 r0).

Definition ror_r32 (r0 : Z) : enc := op_modrm 0xd3 (modrm 3 1 r0).

Definition sar_r32 (r0 : Z) : enc := op_modrm 0xd3 (modrm 3 7 r0).

Definition shr_r32 (r0 : Z) : enc := op_modrm 0xd3 (modrm 3 5 r0).

Definition shl_r32_imm (r0 imm : Z) : enc := op_modrm_ib 0xc1 (modrm 3 4 r0) imm.

Definition shl_r32 (r0 : Z) : enc := op_modrm 0xd3 (modrm 3 4 r0).

Definition seta_r8 (r0 : Z) : enc := op_op_modrm 0x0f 0x97 (modrm 3 0 r0).

Definition setae_r8 (r0 : Z) : enc := op_op_modrm 0x0f 0x93 (modrm 3 0 r0).

Definition setb_r8 (r0 : Z) : enc := op_op_modrm 0x0f 0x92 (modrm 3 0 r0).

Definition setbe_r8 (r0 : Z) : enc := op_op_modrm 0x0f 0x96 (modrm 3 0 r0).

Definition setg_r8 (r0 : Z) : enc := op_op_modrm 0x0f 0x9f (modrm 3 0 r0).

Definition setge_r8 (r0 : Z) : enc := op_op_modrm 0x0f 0x9d (modrm 3 0 r0).

Definition setl_r8 (r0 : Z) : enc := op_op_modrm 0x0f 0x9c (modrm 3 0 r0).

Definition setle_r8 (r0 : Z) : enc := op_op_modrm 0x0f 0x9e (modrm 3 0 r0).

Definition setne_r8 (r0 : Z) : enc := op_op_modrm 0x0f 0x95 (modrm 3 0 r0).

Definition setz_r8 (r0 : Z) : enc := op_op_modrm 0x0f 0x94 (modrm 3 0 r0).

Definition sub_r32_imm (r0 imm : Z) : enc :=
  if r0 =? EAX then op_imm32 0x2d imm
  else op_modrm_imm32 0x81 (modrm 3 5 r0) imm.

Definition sub_r32_r32 (r0 r1 : Z) : enc := op_modrm 0x2b (modrm 3 r0 r1).

Definition test_r32_r32 (r0 r1 : Z) : enc := op_modrm 0x85 (modrm 3 r0 r1).

Definition xor_r32_r32 (r0 r1 : Z) : enc := op_modrm 0x33 (modrm 3 r0 r1).
