(* ===== verification/X86.v ===== *)
(** * The target machine

    The instructions of the 32-bit x86 that [instrs.c] encodes: their decoding
    from bytes and their effect, as the architecture manual defines them.
    This is the specification the encoders and the code generator are
    measured against; it models no code of the repository.

    Code is fetched from a read-only image, separate from the data memory: the
    kernel maps the pages of [sbrkx] without [PTE_W]. *)

From stdpp Require Import base list strings gmap.
From Stdlib Require Import ZArith Lia.
From S2P Require Import Prelude.

(** ** Instructions *)

Inductive alu := ADD | OR_ | AND_ | SUB | XOR_.
Inductive shift := ROL | ROR | SHL | SHR | SAR.
Inductive cc := CC_B | CC_AE | CC_Z | CC_NE | CC_BE | CC_A | CC_L | CC_GE | CC_LE | CC_G.

(** Registers are numbered as in the encoding; [rel] counts from the next
    instruction. *)
Inductive x86 :=
| Alu (op : alu) (dst src : Z)
| AluImm (op : alu) (dst imm : Z)
| Cmp (a b : Z)
| Test (a b : Z)
| Mov (dst src : Z)
| Mov8 (dst src : Z)
| MovImm (dst imm : Z)
| Load (dst addr : Z)
| Store (addr src : Z)
| Store8 (addr src : Z)
| LoadEbp (dst dis : Z)
| StoreEbp (dis src : Z)
| LoadX (signed : bool) (bytes : nat) (dst addr : Z)
| Mul (src : Z)
| Div (src : Z)
| Idiv (src : Z)
| Bsf (dst src : Z)
| Bsr (dst src : Z)
| ShiftCl (op : shift) (dst : Z)
| ShlImm (dst imm : Z)
| Setcc (c : cc) (dst : Z)
| Push (src : Z)
| Pop (dst : Z)
| Call (rel : Z)
| Jmp (rel : Z)
| Jcc (c : cc) (rel : Z)
| Ret.

#[export] Instance alu_eq_dec : EqDecision alu.
Proof. solve_decision. Defined.
#[export] Instance shift_eq_dec : EqDecision shift.
Proof. solve_decision. Defined.
#[export] Instance cc_eq_dec : EqDecision cc.
Proof. solve_decision. Defined.
#[export] Instance x86_eq_dec : EqDecision x86.
Proof. solve_decision. Defined.

(** ** Decoding *)

Definition imm32 (l : list Z) : option (Z * list Z) :=
  match l with
  | a :: b :: c :: d :: l => Some (s32 (le_value [a; b; c; d]), l)
  | _ => None
  end.

(** The three fields of a ModR/M byte. *)
Definition modrm_fields (b : Z) : Z * Z * Z := (b / 64, (b / 8) mod 8, b mod 8).

(** An operand [[r]] without displacement: [r = ESP] announces a SIB byte and
    [r = EBP] a displacement, which are other forms. *)
Definition plain_addr (rm : Z) : bool := negb ((rm =? 4) || (rm =? 5)).

Definition cc_of (n : Z) : option cc :=
  match n with
  | 2 => Some CC_B | 3 => Some CC_AE | 4 => Some CC_Z | 5 => Some CC_NE
  | 6 => Some CC_BE | 7 => Some CC_A | 12 => Some CC_L | 13 => Some CC_GE
  | 14 => Some CC_LE | 15 => Some CC_G
  | _ => None
  end.

Definition alu_of (op : Z) : option alu :=
  match op with
  | 0x03 => Some ADD | 0x0b => Some OR_ | 0x23 => Some AND_
  | 0x2b => Some SUB | 0x33 => Some XOR_
  | _ => None
  end.

Definition alu_ext (n : Z) : option alu :=
  match n with
  | 0 => Some ADD | 1 => Some OR_ | 4 => Some AND_ | 5 => Some SUB | 6 => Some XOR_
  | _ => None
  end.

Definition shift_ext (n : Z) : option shift :=
  match n with
  | 0 => Some ROL | 1 => Some ROR | 4 => Some SHL | 5 => Some SHR | 7 => Some SAR
  | _ => None
  end.

Definition decode_0f (l : list Z) : option (x86 * list Z) :=
  match l with
  | [] => None
  | op :: l =>
      if op / 16 =? 8 then
        c ← cc_of (op mod 16); '(rel, l) ← imm32 l; Some (Jcc c rel, l)
      else
        match l with
        | [] => None
        | b :: l =>
            let '(md, reg, rm) := modrm_fields b in
            if op / 16 =? 9 then
              c ← cc_of (op mod 16);
              if md =? 3 then Some (Setcc c rm, l) else None
            else if (op =? 0xbc) && (md =? 3) then Some (Bsf reg rm, l)
            else if (op =? 0xbd) && (md =? 3) then Some (Bsr reg rm, l)
            else if negb ((md =? 0) && plain_addr rm) then None
            else if op =? 0xb6 then Some (LoadX false 1 reg rm, l)
            else if op =? 0xb7 then Some (LoadX false 2 reg rm, l)
            else if op =? 0xbe then Some (LoadX true 1 reg rm, l)
            else if op =? 0xbf then Some (LoadX true 2 reg rm, l)
            else None
        end
  end.

(** Opcodes followed by a ModR/M byte. *)
Definition decode_modrm (op b : Z) (l : list Z) : option (x86 * list Z) :=
  let '(md, reg, rm) := modrm_fields b in
  let mem0 := (md =? 0) && plain_addr rm in
  let ebp32 := (md =? 2) && (rm =? 5) in
  if op =? 0x88 then
    if md =? 3 then Some (Mov8 rm reg, l) else if mem0 then Some (Store8 rm reg, l) else None
  else if op =? 0x89 then
    if md =? 3 then Some (Mov rm reg, l) else if mem0 then Some (Store rm reg, l)
    else if ebp32 then '(dis, l) ← imm32 l; Some (StoreEbp dis reg, l) else None
  else if op =? 0x8b then
    if md =? 3 then Some (Mov reg rm, l) else if mem0 then Some (Load reg rm, l)
    else if ebp32 then '(dis, l) ← imm32 l; Some (LoadEbp reg dis, l) else None
  else if negb (md =? 3) then None
  else if op =? 0x39 then Some (Cmp rm reg, l)
  else if op =? 0x85 then Some (Test reg rm, l)
  else if op =? 0x81 then
    o ← alu_ext reg; '(imm, l) ← imm32 l; Some (AluImm o rm imm, l)
  else if op =? 0xf7 then
    if reg =? 4 then Some (Mul rm, l) else if reg =? 6 then Some (Div rm, l)
    else if reg =? 7 then Some (Idiv rm, l) else None
  else if op =? 0xd3 then o ← shift_ext reg; Some (ShiftCl o rm, l)
  else if op =? 0xc1 then
    match l with imm :: l => if reg =? 4 then Some (ShlImm rm imm, l) else None | [] => None end
  else o ← alu_of op; Some (Alu o reg rm, l).

Definition decode (l : list Z) : option (x86 * list Z) :=
  match l with
  | [] => None
  | op :: l =>
      if op =? 0x0f then decode_0f l
      else if op =? 0xc3 then Some (Ret, l)
      else if op / 8 =? 10 then Some (Push (op mod 8), l)
      else if op / 8 =? 11 then Some (Pop (op mod 8), l)
      else if op / 8 =? 23 then '(imm, l) ← imm32 l; Some (MovImm (op mod 8) imm, l)
      else if op =? 0xe8 then '(rel, l) ← imm32 l; Some (Call rel, l)
      else if op =? 0xe9 then '(rel, l) ← imm32 l; Some (Jmp rel, l)
      else if op =? 0x05 then '(imm, l) ← imm32 l; Some (AluImm ADD 0 imm, l)
      else if op =? 0x2d then '(imm, l) ← imm32 l; Some (AluImm SUB 0 imm, l)
      else match l with
           | b :: l => decode_modrm op b l
           | [] => None
           end
  end.

(** ** State *)

Record flagset := { cf : bool; zf : bool; sf : bool; of_ : bool }.

(** [None]: flags the manual leaves undefined, or that no instruction of the
    subset depends on. *)
Record machine := {
  regs : list Z;
  flags : option flagset;
  mem : gmap Z Z;
  eip : Z;
}.

Definition get_reg (m : machine) (r : Z) : Z := regs m !!! Z.to_nat r.

Definition set_reg (m : machine) (r v : Z) : machine :=
  {| regs := <[Z.to_nat r := u32 v]> (regs m); flags := flags m; mem := mem m; eip := eip m |}.

Definition set_flags (m : machine) (f : option flagset) : machine :=
  {| regs := regs m; flags := f; mem := mem m; eip := eip m |}.

Definition set_mem (m : machine) (mm : gmap Z Z) : machine :=
  {| regs := regs m; flags := flags m; mem := mm; eip := eip m |}.

Definition set_eip (m : machine) (a : Z) : machine :=
  {| regs := regs m; flags := flags m; mem := mem m; eip := u32 a |}.

(** The 8-bit registers: AL, CL, DL, BL, then AH, CH, DH, BH. *)
Definition get_reg8 (m : machine) (r : Z) : Z :=
  if r <? 4 then get_reg m r mod 256 else (get_reg m (r - 4) / 256) mod 256.

Definition set_reg8 (m : machine) (r v : Z) : machine :=
  if r <? 4 then
    let x := get_reg m r in set_reg m r (x - x mod 256 + u8 v)
  else
    let x := get_reg m (r - 4) in
    set_reg m (r - 4) (x - (x / 256) mod 256 * 256 + u8 v * 256).

Fixpoint load (n : nat) (mm : gmap Z Z) (a : Z) : option (list Z) :=
  match n with
  | O => Some []
  | S n => b ← mm !! u32 a; l ← load n mm (a + 1); Some (b :: l)
  end.

(** A store to an address that is not mapped faults. *)
Fixpoint store (mm : gmap Z Z) (a : Z) (bs : list Z) : option (gmap Z Z) :=
  match bs with
  | [] => Some mm
  | b :: bs =>
      match mm !! u32 a with
      | None => None
      | Some _ => store (<[u32 a := b]> mm) (a + 1) bs
      end
  end.

Definition load32 (mm : gmap Z Z) (a : Z) : option Z := le_value <$> load 4 mm a.
Definition store32 (mm : gmap Z Z) (a v : Z) : option (gmap Z Z) := store mm a (le_bytes 4 v).

(** ** Execution *)

Definition sign (z : Z) : bool := 2 ^ 31 <=? u32 z.

Definition logic_flags (z : Z) : flagset :=
  {| cf := false; zf := u32 z =? 0; sf := sign z; of_ := false |}.

Definition add_flags (a b : Z) : flagset :=
  {| cf := 2 ^ 32 <=? u32 a + u32 b; zf := u32 (a + b) =? 0; sf := sign (a + b);
     of_ := negb (s32 (a + b) =? s32 a + s32 b) |}.

Definition sub_flags (a b : Z) : flagset :=
  {| cf := u32 a <? u32 b; zf := u32 (a - b) =? 0; sf := sign (a - b);
     of_ := negb (s32 (a - b) =? s32 a - s32 b) |}.

Definition alu_result (op : alu) (a b : Z) : Z * flagset :=
  match op with
  | ADD => (u32 (a + b), add_flags a b)
  | SUB => (u32 (a - b), sub_flags a b)
  | AND_ => (Z.land a b, logic_flags (Z.land a b))
  | OR_ => (Z.lor a b, logic_flags (Z.lor a b))
  | XOR_ => (Z.lxor a b, logic_flags (Z.lxor a b))
  end.

Definition cond (f : flagset) (c : cc) : bool :=
  match c with
  | CC_B => cf f
  | CC_AE => negb (cf f)
  | CC_Z => zf f
  | CC_NE => negb (zf f)
  | CC_BE => cf f || zf f
  | CC_A => negb (cf f) && negb (zf f)
  | CC_L => xorb (sf f) (of_ f)
  | CC_GE => negb (xorb (sf f) (of_ f))
  | CC_LE => zf f || xorb (sf f) (of_ f)
  | CC_G => negb (zf f) && negb (xorb (sf f) (of_ f))
  end.

Definition rotl32 (x n : Z) : Z :=
  u32 (Z.lor (Z.shiftl x n) (Z.shiftr x (32 - n))).

Definition shift_result (op : shift) (x count : Z) : Z :=
  let n := count mod 32 in
  match op with
  | ROL => rotl32 x n
  | ROR => rotl32 x ((32 - n) mod 32)
  | SHL => u32 (Z.shiftl x n)
  | SHR => Z.shiftr x n
  | SAR => u32 (Z.shiftr (s32 x) n)
  end.

(** The index of the lowest set bit of a non-zero word. *)
Fixpoint low_bit (n : nat) (x : Z) : Z :=
  match n with
  | O => 0
  | S n => if Z.odd x then 0 else 1 + low_bit n (x / 2)
  end.

Definition sext (n : nat) (z : Z) : Z :=
  let w := 256 ^ Z.of_nat n in if z <? w / 2 then z else z - w.

Definition push (m : machine) (v : Z) : option machine :=
  let sp := u32 (get_reg m 4 - 4) in
  mm ← store32 (mem m) sp v;
  Some (set_mem (set_reg m 4 sp) mm).

Definition pop (m : machine) : option (Z * machine) :=
  let sp := get_reg m 4 in
  v ← load32 (mem m) sp;
  Some (v, set_reg m 4 (sp + 4)).

(** The effect of an instruction; [eip] is already the address of the next
    one.  [None]: the instruction faults, or its result is undefined. *)
Definition exec (i : x86) (m : machine) : option machine :=
  match i with
  | Alu op d s =>
      let '(r, f) := alu_result op (get_reg m d) (get_reg m s) in
      Some (set_flags (set_reg m d r) (Some f))
  | AluImm op d imm =>
      let '(r, f) := alu_result op (get_reg m d) (u32 imm) in
      Some (set_flags (set_reg m d r) (Some f))
  | Cmp a b => Some (set_flags m (Some (sub_flags (get_reg m a) (get_reg m b))))
  | Test a b => Some (set_flags m (Some (logic_flags (Z.land (get_reg m a) (get_reg m b)))))
  | Mov d s => Some (set_reg m d (get_reg m s))
  | Mov8 d s => Some (set_reg8 m d (get_reg8 m s))
  | MovImm d imm => Some (set_reg m d imm)
  | Load d a => v ← load32 (mem m) (get_reg m a); Some (set_reg m d v)
  | Store a s => mm ← store32 (mem m) (get_reg m a) (get_reg m s); Some (set_mem m mm)
  | Store8 a s => mm ← store (mem m) (get_reg m a) [get_reg8 m s]; Some (set_mem m mm)
  | LoadEbp d dis => v ← load32 (mem m) (get_reg m 5 + dis); Some (set_reg m d v)
  | StoreEbp dis s =>
      mm ← store32 (mem m) (get_reg m 5 + dis) (get_reg m s); Some (set_mem m mm)
  | LoadX sg n d a =>
      bs ← load n (mem m) (get_reg m a);
      let v := le_value bs in
      Some (set_reg m d (if sg then sext n v else v))
  | Mul s =>
      let p := get_reg m 0 * get_reg m s in
      Some (set_flags (set_reg (set_reg m 0 p) 2 (p / 2 ^ 32)) None)
  | Div s =>
      let n := get_reg m 2 * 2 ^ 32 + get_reg m 0 in
      let d := get_reg m s in
      if (d =? 0) || (2 ^ 32 <=? n / d) then None
      else Some (set_flags (set_reg (set_reg m 0 (n / d)) 2 (n mod d)) None)
  | Idiv s =>
      let n := s32 (get_reg m 2) * 2 ^ 32 + get_reg m 0 in
      let d := s32 (get_reg m s) in
      if (d =? 0) || (n ÷ d <? - 2 ^ 31) || (2 ^ 31 <=? n ÷ d) then None
      else Some (set_flags (set_reg (set_reg m 0 (n ÷ d)) 2 (Z.rem n d)) None)
  | Bsf d s =>
      if get_reg m s =? 0 then None
      else Some (set_flags (set_reg m d (low_bit 32 (get_reg m s))) None)
  | Bsr d s =>
      if get_reg m s =? 0 then None
      else Some (set_flags (set_reg m d (Z.log2 (get_reg m s))) None)
  | ShiftCl op d =>
      Some (set_flags (set_reg m d (shift_result op (get_reg m d) (get_reg8 m 1))) None)
  | ShlImm d imm =>
      Some (set_flags (set_reg m d (shift_result SHL (get_reg m d) imm)) None)
  | Setcc c d => f ← flags m; Some (set_reg8 m d (if cond f c then 1 else 0))
  | Push s => push m (get_reg m s)
  | Pop d => '(v, m) ← pop m; Some (set_reg m d v)
  | Call rel => m' ← push m (eip m); Some (set_eip m' (eip m + rel))
  | Jmp rel => Some (set_eip m (eip m + rel))
  | Jcc c rel => f ← flags m; Some (if cond f c then set_eip m (eip m + rel) else m)
  | Ret => '(a, m) ← pop m; Some (set_eip m a)
  end.

(** One step of the machine, with the image [code] loaded at [base]. *)
Definition fetch (code : list Z) (base a : Z) : list Z :=
  if (a <? base) || (base + zlen code <=? a) then [] else drop (Z.to_nat (a - base)) code.

Definition step (code : list Z) (base : Z) (m : machine) : option machine :=
  let l := fetch code base (eip m) in
  '(i, rest) ← decode l;
  exec i (set_eip m (eip m + (zlen l - zlen rest))).

(** Run until [eip] leaves the image. *)
Fixpoint run (fuel : nat) (code : list Z) (base : Z) (m : machine) : option machine :=
  if (eip m <? base) || (base + zlen code <=? eip m) then Some m
  else match fuel with
       | O => None
       | S fuel => m ← step code base m; run fuel code base m
       end.
