(* ===== verification/ToAsm.v ===== *)
(** * The code generator: [to_asm.c]

    [to_asm] runs [populate_infos] twice over the program: the first pass
    records the address of every function and block, the second emits the code
    with these addresses.  Both passes write into the output buffer. *)

From stdpp Require Import base list strings.
From Stdlib Require Import ZArith Lia.
From S2P Require Import Prelude Tokens FromIr Instrs.

Record asm_blk_info := { br_addr : Z; stk_height : Z }.

(** The globals of [to_asm.c], the output buffer, and the variables of
    [populate_infos] that its cases change. *)
Record gst := {
  g_fns : list asm_fn_info;
  g_blks : list asm_blk_info;
  goodret_addr : Z;
  trapret_addr : Z;
  start_addr : Z;
  cur_blk_stk : list Z;
  buf : list Z;
  asm_i : Z;
  g_fn : Z;
  cur_blk : Z;
  cur_blk_h : Z;
  stkh : Z;
}.

Definition NBLKS : Z := 256.
Definition BLK_STK : Z := 64.

Definition gst_init (b : list Z) : gst :=
  {| g_fns := replicate 64 no_asm_fn;
     g_blks := replicate (Z.to_nat NBLKS) {| br_addr := 0; stk_height := 0 |};
     goodret_addr := 0; trapret_addr := 0; start_addr := 0;
     cur_blk_stk := replicate (Z.to_nat BLK_STK) 0;
     buf := b; asm_i := 0; g_fn := -1; cur_blk := -1; cur_blk_h := -1; stkh := 0 |}.

(** Field updates. *)
Definition with_fns (s : gst) x : gst :=
  {| g_fns := x; g_blks := g_blks s; goodret_addr := goodret_addr s;
     trapret_addr := trapret_addr s; start_addr := start_addr s;
     cur_blk_stk := cur_blk_stk s; buf := buf s; asm_i := asm_i s; g_fn := g_fn s;
     cur_blk := cur_blk s; cur_blk_h := cur_blk_h s; stkh := stkh s |}.
Definition with_blks (s : gst) x : gst :=
  {| g_fns := g_fns s; g_blks := x; goodret_addr := goodret_addr s;
     trapret_addr := trapret_addr s; start_addr := start_addr s;
     cur_blk_stk := cur_blk_stk s; buf := buf s; asm_i := asm_i s; g_fn := g_fn s;
     cur_blk := cur_blk s; cur_blk_h := cur_blk_h s; stkh := stkh s |}.
Definition with_addrs (s : gst) good trp start : gst :=
  {| g_fns := g_fns s; g_blks := g_blks s; goodret_addr := good;
     trapret_addr := trp; start_addr := start;
     cur_blk_stk := cur_blk_stk s; buf := buf s; asm_i := asm_i s; g_fn := g_fn s;
     cur_blk := cur_blk s; cur_blk_h := cur_blk_h s; stkh := stkh s |}.
Definition with_buf (s : gst) b i : gst :=
  {| g_fns := g_fns s; g_blks := g_blks s; goodret_addr := goodret_addr s;
     trapret_addr := trapret_addr s; start_addr := start_addr s;
     cur_blk_stk := cur_blk_stk s; buf := b; asm_i := i; g_fn := g_fn s;
     cur_blk := cur_blk s; cur_blk_h := cur_blk_h s; stkh := stkh s |}.
Definition with_fn (s : gst) f : gst :=
  {| g_fns := g_fns s; g_blks := g_blks s; goodret_addr := goodret_addr s;
     trapret_addr := trapret_addr s; start_addr := start_addr s;
     cur_blk_stk := cur_blk_stk s; buf := buf s; asm_i := asm_i s; g_fn := f;
     cur_blk := cur_blk s; cur_blk_h := cur_blk_h s; stkh := stkh s |}.
Definition with_blk (s : gst) stk b h : gst :=
  {| g_fns := g_fns s; g_blks := g_blks s; goodret_addr := goodret_addr s;
     trapret_addr := trapret_addr s; start_addr := start_addr s;
     cur_blk_stk := stk; buf := buf s; asm_i := asm_i s; g_fn := g_fn s;
     cur_blk := b; cur_blk_h := h; stkh := stkh s |}.
Definition with_stkh (s : gst) h : gst :=
  {| g_fns := g_fns s; g_blks := g_blks s; goodret_addr := goodret_addr s;
     trapret_addr := trapret_addr s; start_addr := start_addr s;
     cur_blk_stk := cur_blk_stk s; buf := buf s; asm_i := asm_i s; g_fn := g_fn s;
     cur_blk := cur_blk s; cur_blk_h := cur_blk_h s; stkh := h |}.

(** ** Emission

    [asm_i += f(..., buf+asm_i);] *)

Definition asm : Type := gst -> res gst.

Definition emit (s : gst) (e : enc) : res gst :=
  b ← arr_write (buf s) (asm_i s) (enc_bytes e);
  Ok (with_buf s b (u32 (asm_i s + enc_len e))).

Definition ins (e : enc) : asm := fun s => emit s e.

(** An encoder that is given the address of the instruction. *)
Definition ins_at (f : Z -> enc) : asm := fun s => emit s (f (asm_i s)).

(** [push_r32] and [pop_r32] on [&stkh]; with [&nil] the height is dropped. *)
Definition push_ (r : Z) : asm := fun s =>
  let '(h, e) := push_r32 r (stkh s) in emit (with_stkh s h) e.
Definition pop_ (r : Z) : asm := fun s =>
  let '(h, e) := pop_r32 r (stkh s) in emit (with_stkh s h) e.
Definition push_nil (r : Z) : asm := ins (push_r32 r 0).2.
Definition pop_nil (r : Z) : asm := ins (pop_r32 r 0).2.

Definition skip : asm := fun s => Ok s.

Definition seq (a b : asm) : asm := fun s => s ← a s; b s.

Declare Scope asm_scope.
Delimit Scope asm_scope with asm.
Infix "+>" := seq (at level 50, left associativity) : asm_scope.
Open Scope asm_scope.

(** ** The fixed code *)

Definition prelude (base_addr : Z) : asm :=
  push_nil EBP +>
  ins (mov_r32_r32 EBP ESP) +>
  push_nil EBX +>
  push_nil ESI +>
  push_nil EDI +>
  ins (mov_r32_dis_ebp EDI (8 + 0)) +>
  ins (mov_r32_dis_ebp ESI (8 + 4)) +>
  ins (mov_r32_dis_ebp EAX (8 + 8)) +>
  ins (sub_r32_imm EAX 4) +>
  ins (mov_r32_r32 EBP EAX) +>
  ins (mov_ar32_r32 EAX ESP) +>
  ins (mov_r32_r32 ESP EAX) +>
  ins (mov_r32_r32 EBP ESP) +>
  (fun s => f0 ← arr_get (g_fns s) 0; emit s (sub_r32_imm ESP (4 * alocal_n f0))) +>
  push_nil EBP +>
  ins (mov_r32_r32 EBP ESP) +>
  ins (sub_r32_imm EBP 4) +>
  (fun s => emit s (call_rel (base_addr + asm_i s) (start_addr s))).

Definition goodret : asm :=
  pop_nil ESP +>
  pop_nil ESP +>
  pop_nil EDI +>
  pop_nil ESI +>
  pop_nil EBX +>
  pop_nil EBP +>
  ins (xor_r32_r32 EAX EAX) +>
  ins ret_fn.

Definition trapret : asm :=
  ins (mov_r32_r32 ESP EBP) +>
  (fun s => emit s (mov_r32_imm EBX (goodret_addr s))) +>
  pop_nil EAX +>
  pop_nil ESP +>
  ins (cmp_r32_r32 EAX EBX) +>
  ins (jne_rel 0 (-4)) +>
  pop_nil ESP +>
  pop_nil EDI +>
  pop_nil ESI +>
  pop_nil EBX +>
  pop_nil EBP +>
  ins (mov_r32_imm EAX (-1)) +>
  ins ret_fn.

(** ** The cases of the [switch]

    Each function is the cases named in its body, and does nothing on the
    other tokens. *)

Definition pop_two : asm := pop_ EBX +> pop_ EAX.

Definition gen_arith (t : instr_token) : asm :=
  match t with
  | i_clz => pop_two +> ins (bsf_r32_r32 EAX EAX) +> push_ EAX
  | i_ctz => pop_two +> ins (bsr_r32_r32 EAX EAX) +> push_ EAX
  | i_popcnt => skip
  | i_add => pop_two +> ins (add_r32_r32 EAX EBX) +> push_ EAX
  | i_and => pop_two +> ins (and_r32_r32 EAX EBX) +> push_ EAX
  | i_div_s => pop_two +> ins (xor_r32_r32 EDX EDX) +> ins (idiv_r32 EBX) +> push_ EAX
  | i_div_u => pop_two +> ins (xor_r32_r32 EDX EDX) +> ins (div_r32 EBX) +> push_ EAX
  | i_mul => pop_two +> ins (mul_r32 EBX) +> push_ EAX
  | i_or => pop_two +> ins (or_r32_r32 EAX EBX) +> push_ EAX
  | i_rem_s => pop_two +> ins (xor_r32_r32 EDX EDX) +> ins (idiv_r32 EBX) +> push_ EDX
  | i_rem_u => pop_two +> ins (xor_r32_r32 EDX EDX) +> ins (div_r32 EBX) +> push_ EDX
  | i_rotl => pop_two +> ins (mov_r32_r32 ECX EBX) +> ins (rol_r32 EAX) +> push_ EAX
  | i_rotr => pop_two +> ins (mov_r32_r32 ECX EBX) +> ins (ror_r32 EAX) +> push_ EAX
  | i_shl => pop_two +> ins (mov_r32_r32 ECX EBX) +> ins (shl_r32 EAX) +> push_ EAX
  | i_shr_s => pop_two +> ins (mov_r32_r32 ECX EBX) +> ins (sar_r32 EAX) +> push_ EAX
  | i_shr_u => pop_two +> ins (mov_r32_r32 ECX EBX) +> ins (shr_r32 EAX) +> push_ EAX
  | i_sub => pop_two +> ins (sub_r32_r32 EAX EBX) +> push_ EAX
  | i_xor => pop_two +> ins (xor_r32_r32 EAX EBX) +> push_ EAX
  | _ => skip
  end.

(** The common shape of the comparisons. *)
Definition gen_cmp (setcc : Z -> enc) : asm :=
  pop_two +>
  ins (xor_r32_r32 ECX ECX) +>
  ins (cmp_r32_r32 EAX EBX) +>
  ins (setcc CL) +>
  push_ ECX.

Definition gen_compare (t : instr_token) : asm :=
  match t with
  | i_eqz =>
      pop_ EAX +>
      ins (xor_r32_r32 ECX ECX) +>
      ins (test_r32_r32 EAX EAX) +>
      ins (setz_r8 CL) +>
      push_ ECX
  | i_eq => gen_cmp setz_r8
  | i_ge_s => gen_cmp setge_r8
  | i_ge_u => gen_cmp setae_r8
  | i_gt_s => gen_cmp setg_r8
  | i_gt_u => gen_cmp seta_r8
  | i_le_s => gen_cmp setle_r8
  | i_le_u => gen_cmp setbe_r8
  | i_lt_s => gen_cmp setl_r8
  | i_lt_u => gen_cmp setb_r8
  | i_ne => gen_cmp setne_r8
  | _ => skip
  end.

(** The bounds check: trap unless [EAX], a byte offset, is below the memory
    size in [ESI]; then make it an address. *)
Definition gen_check (base_addr : Z) : asm :=
  ins (cmp_r32_r32 EAX ESI) +>
  (fun s => emit s (jae_rel (base_addr + asm_i s) (trapret_addr s))) +>
  ins (add_r32_r32 EAX EDI).

Definition gen_memory (base_addr : Z) (t : instr_token) : asm :=
  match t with
  | i_ld32 =>
      pop_ EAX +> ins (shl_r32_imm EAX 2) +> gen_check base_addr +>
      ins (mov_r32_ar32 EAX EAX) +> push_ EAX
  | i_ld16_s =>
      pop_ EAX +> ins (shl_r32_imm EAX 1) +> gen_check base_addr +>
      ins (movsx_r32_ar16 EAX EAX) +> push_ EAX
  | i_ld16_u =>
      pop_ EAX +> ins (shl_r32_imm EAX 1) +> gen_check base_addr +>
      ins (movzx_r32_ar16 EAX EAX) +> push_ EAX
  | i_ld8_s =>
      pop_ EAX +> gen_check base_addr +> ins (movsx_r32_ar8 EAX EAX) +> push_ EAX
  | i_ld8_u =>
      pop_ EAX +> gen_check base_addr +> ins (movzx_r32_ar8 EAX EAX) +> push_ EAX
  | i_memsz => push_ ESI
  | str32 =>
      pop_ EBX +> pop_ EAX +> ins (shl_r32_imm EAX 2) +> gen_check base_addr +>
      ins (mov_ar32_r32 EAX EBX)
  | str16 => skip
  | str8 =>
      pop_ EBX +> pop_ EAX +> gen_check base_addr +> ins (mov_ar32_r8 EAX BL)
  | _ => skip
  end.

Definition set_br_addr (s : gst) (b a : Z) : res gst :=
  i ← arr_get (g_blks s) b;
  l ← arr_set (g_blks s) b {| br_addr := a; stk_height := stk_height i |};
  Ok (with_blks s l).

Definition set_stk_height (s : gst) (b h : Z) : res gst :=
  i ← arr_get (g_blks s) b;
  l ← arr_set (g_blks s) b {| br_addr := br_addr i; stk_height := h |};
  Ok (with_blks s l).

(** [cur_blk += 1; cur_blk_h += 1; cur_blk_stk[cur_blk_h] = cur_blk;] *)
Definition open_blk (s : gst) : res gst :=
  stk ← arr_set (cur_blk_stk s) (cur_blk_h s + 1) (cur_blk s + 1);
  Ok (with_blk s stk (cur_blk s + 1) (cur_blk_h s + 1)).

(** The block a branch to depth [iv] names. *)
Definition branch_info (s : gst) (iv : Z) : res asm_blk_info :=
  blk_n ← arr_get (cur_blk_stk s) (cur_blk_h s - iv);
  arr_get (g_blks s) blk_n.

(** The [ESP]-unwinding jump of [br] and [br_if]. *)
Definition gen_branch (base_addr blkaddr : Z) : asm :=
  (fun s => emit s (add_r32_imm ESP (4 * stkh s))) +>
  ins_at (fun i => jmp_rel (base_addr + i) blkaddr).

Definition gen_br (base_addr iv : Z) : asm := fun s =>
  b ← branch_info s iv;
  gen_branch base_addr (br_addr b) s.

Definition gen_br_if (base_addr iv : Z) : asm := fun s =>
  b ← branch_info s iv;
  (pop_ EAX +> ins (test_r32_r32 EAX EAX) +> ins (jz_rel 0 17) +>
   gen_branch base_addr (br_addr b)) s.

Definition gen_block (gen_info : bool) : asm := fun s =>
  s ← open_blk s;
  if gen_info then
    s ← set_br_addr s (cur_blk s) 0;
    set_stk_height s (cur_blk s) (stkh s)
  else Ok s.

Definition gen_loop (base_addr : Z) (gen_info : bool) : asm := fun s =>
  s ← open_blk s;
  if gen_info then
    s ← set_br_addr s (cur_blk s) (s32 (base_addr + asm_i s));
    set_stk_height s (cur_blk s) (stkh s)
  else Ok s.

Definition gen_ret : asm := fun s =>
  f ← arr_get (g_fns s) (g_fn s);
  ((if art f =? 0 then skip else pop_ EAX) +>
   ins (mov_r32_r32 ESP EBP) +>
   ins ret_fn) s.

Definition gen_end (base_addr : Z) (gen_info : bool) : asm := fun s =>
  s ← (if 0 <? cur_blk_h s then
         blk ← arr_get (cur_blk_stk s) (cur_blk_h s);
         i ← arr_get (g_blks s) blk;
         outer ← arr_get (cur_blk_stk s) (cur_blk_h s - 1);
         o ← arr_get (g_blks s) outer;
         let s := with_stkh s (stk_height o) in
         s ← emit s (add_r32_imm ESP (4 * (stk_height i - stk_height o)));
         if gen_info && (br_addr i =? 0) then
           set_br_addr s blk (s32 (base_addr + asm_i s))
         else Ok s
       else Ok s);
  Ok (with_blk s (cur_blk_stk s) (cur_blk s) (cur_blk_h s - 1)).

(** The offset of a parameter or local from [EBP]. *)
Definition local_offset (s : gst) (iv : Z) : res Z :=
  f ← arr_get (g_fns s) (g_fn s);
  Ok (4 * (aparam_n f + alocal_n f - iv + 1)).

Definition gen_get_l (iv : Z) : asm := fun s =>
  d ← local_offset s iv;
  (ins (mov_r32_dis_ebp EAX d) +> push_ EAX) s.

Definition gen_set_l (iv : Z) : asm := fun s =>
  d ← local_offset s iv;
  (pop_ EAX +> ins (mov_dis_ebp_r32 d EAX)) s.

Definition gen_call (base_addr iv : Z) : asm := fun s =>
  f ← arr_get (g_fns s) iv;
  (ins (sub_r32_imm ESP (alocal_n f)) +>
   push_nil EBP +>
   ins (mov_r32_r32 EBP ESP) +>
   ins (sub_r32_imm EBP 4) +>
   ins_at (fun i => call_rel (base_addr + i) (fn_addr f)) +>
   pop_nil EBP +>
   ins (add_r32_imm ESP (4 * (aparam_n f + alocal_n f))) +>
   (fun s => Ok (with_stkh s (s32 (stkh s - aparam_n f)))) +>
   (if art f =? 0 then skip else push_ EAX)) s.

Definition gen_declfn (base_addr : Z) (gen_info : bool) : asm := fun s =>
  s ← open_blk (with_fn s (g_fn s + 1));
  if gen_info then
    f ← arr_get (g_fns s) (g_fn s);
    l ← arr_set (g_fns s) (g_fn s)
          {| art := art f; fn_addr := s32 (base_addr + asm_i s);
             aparam_n := aparam_n f; alocal_n := alocal_n f |};
    s ← set_br_addr (with_fns s l) (cur_blk s) (-1);
    set_stk_height s (cur_blk s) 0
  else Ok s.

(** ** [populate_infos] *)

Section populate.
Context (prog : list Z) (base_addr : Z) (gen_info : bool).

(** [get_int(prog, prog_len, &place, &iv)] with its result ignored: when it
    fails, [iv] keeps the value [indet place] it happens to have. *)
Context (indet : Z -> Z).

Definition read_iv (place : Z) : res (Z * Z) :=
  match get_int prog place with
  | Ok r => Ok r
  | Err => Ok (indet place, place)
  | Fault e => Fault e
  end.

Definition skip_types (place : Z) : res Z :=
  match get_type_list TYPE_BUF prog place with
  | Ok (_, place) => Ok place
  | Err => Ok place
  | Fault e => Fault e
  end.

Definition with_iv (place : Z) (g : Z -> asm) (s : gst) : res (Z * gst) :=
  '(iv, place) ← read_iv place;
  s ← g iv s;
  Ok (place, s).

(** One iteration of the [while]; [place] is the place after the token. *)
Definition gen_token (place : Z) (s : gst) (t : instr_token) : res (Z * gst) :=
  match t with
  | i_const =>
      with_iv place (fun iv => ins (mov_r32_imm EAX iv) +> push_ EAX) s
  | i_clz | i_ctz | i_popcnt | i_add | i_and | i_div_s | i_div_u | i_mul
  | i_or | i_rem_s | i_rem_u | i_rotl | i_rotr | i_shl | i_shr_s
  | i_shr_u | i_sub | i_xor =>
      s ← gen_arith t s; Ok (place, s)
  | i_eqz | i_eq | i_ge_s | i_ge_u | i_gt_s
  | i_gt_u | i_le_s | i_le_u | i_lt_s | i_lt_u | i_ne =>
      s ← gen_compare t s; Ok (place, s)
  | i_ld32 | i_ld16_s | i_ld16_u | i_ld8_s | i_ld8_u | i_memsz | str32 | str16
  | str8 =>
      s ← gen_memory base_addr t s; Ok (place, s)
  | get_l => with_iv place gen_get_l s
  | set_l => with_iv place gen_set_l s
  | trap =>
      s ← emit s (jmp_rel (base_addr + asm_i s) (trapret_addr s)); Ok (place, s)
  | block => s ← gen_block gen_info s; Ok (place, s)
  | loop => s ← gen_loop base_addr gen_info s; Ok (place, s)
  | br => with_iv place (gen_br base_addr) s
  | br_if => with_iv place (gen_br_if base_addr) s
  | ret => s ← gen_ret s; Ok (place, s)
  | end_ => s ← gen_end base_addr gen_info s; Ok (place, s)
  | call => with_iv place (gen_call base_addr) s
  | v_declfn | i_declfn =>
      place ← skip_types place;
      place ← skip_types place;
      s ← gen_declfn base_addr gen_info s;
      Ok (place, s)
  end.

(** A byte that is no token is the [default:] case, which does nothing. *)
Definition gen_step (place : Z) (s : gst) (token : option instr_token) : res (Z * gst) :=
  match token with
  | Some t => gen_token place s t
  | None => Ok (place, s)
  end.

Fixpoint gen_tokens (fuel : nat) (place : Z) (s : gst) : res gst :=
  match fuel with
  | O => Fault OutOfFuel
  | S fuel =>
      if place <? zlen prog then
        b ← arr_get prog place;
        '(place, s) ← gen_step (place + 1) s (token_of_byte b);
        gen_tokens fuel place s
      else Ok s
  end.

(** The fixed code, with the addresses recorded between its parts. *)
Definition gen_header (s : gst) : res gst :=
  s ← prelude base_addr s;
  let s := with_addrs s (asm_i s) (trapret_addr s) (start_addr s) in
  s ← goodret s;
  let s := with_addrs s (goodret_addr s) (asm_i s) (start_addr s) in
  s ← trapret s;
  Ok (with_addrs s (goodret_addr s) (trapret_addr s) (asm_i s)).

(** The variables as [populate_infos] initialises them. *)
Definition reset (s : gst) : gst :=
  with_stkh (with_blk (with_fn (with_buf s (buf s) 0) (-1)) (cur_blk_stk s) (-1) (-1)) 0.

Definition populate_infos (s : gst) : res gst :=
  s ← gen_header (reset s);
  gen_tokens (S (length prog)) 0 s.

End populate.

(** The final state; [*asm_sz] is its [asm_i].  [indet1] and [indet2] are the
    unassigned values of [iv] in the two passes. *)
Definition to_asm (prog : list Z) (base_addr : Z) (indet1 indet2 : Z -> Z) (s : gst) : res gst :=
  '(_, fns) ← asm_populate_fns prog (g_fns s);
  s ← populate_infos prog base_addr true indet1 (with_fns s fns.1);
  populate_infos prog base_addr false indet2 s.
