(* ===== verification/InstrsProofs.v ===== *)
(** * The encoders produce the instructions they are named after

    [encodes e i] lists, for every encoder of [instrs.c], the instruction it
    stands for; the theorem decodes the bytes it stores with the decoder of
    the machine. *)

From stdpp Require Import base list strings gmap.
From Stdlib Require Import ZArith Lia.
From S2P Require Import Prelude Instrs X86.

Definition is_reg (r : Z) : Prop := 0 <= r < 8.

(** An address register for which [modrm(0, _, r)] means [[r]]. *)
Definition addr_reg (r : Z) : Prop := is_reg r /\ r <> ESP /\ r <> EBP.

Inductive encodes : enc -> x86 -> Prop :=
| e_add_imm r n : is_reg r -> encodes (add_r32_imm r n) (AluImm ADD r (s32 n))
| e_add r q : is_reg r -> is_reg q -> encodes (add_r32_r32 r q) (Alu ADD r q)
| e_and r q : is_reg r -> is_reg q -> encodes (and_r32_r32 r q) (Alu AND_ r q)
| e_bsf r q : is_reg r -> is_reg q -> encodes (bsf_r32_r32 r q) (Bsf r q)
| e_bsr r q : is_reg r -> is_reg q -> encodes (bsr_r32_r32 r q) (Bsr r q)
| e_call a b : encodes (call_rel a b) (Call (s32 (b - a - 5)))
| e_cmp r q : is_reg r -> is_reg q -> encodes (cmp_r32_r32 r q) (Cmp r q)
| e_div r : is_reg r -> encodes (div_r32 r) (Div r)
| e_idiv r : is_reg r -> encodes (idiv_r32 r) (Idiv r)
| e_jae a b : encodes (jae_rel a b) (Jcc CC_AE (s32 (b - a - 6)))
| e_jb a b : encodes (jb_rel a b) (Jcc CC_B (s32 (b - a - 6)))
| e_jz a b : encodes (jz_rel a b) (Jcc CC_Z (s32 (b - a - 6)))
| e_jne a b : encodes (jne_rel a b) (Jcc CC_NE (s32 (b - a - 6)))
| e_jmp a b : encodes (jmp_rel a b) (Jmp (s32 (b - a - 5)))
| e_mov8 r q : is_reg r -> is_reg q -> encodes (mov_r8_r8 r q) (Mov8 r q)
| e_mov r q : is_reg r -> is_reg q -> encodes (mov_r32_r32 r q) (Mov r q)
| e_stebp d r : is_reg r -> encodes (mov_dis_ebp_r32 d r) (StoreEbp (s32 d) r)
| e_ldebp r d : is_reg r -> encodes (mov_r32_dis_ebp r d) (LoadEbp r (s32 d))
| e_load r q : is_reg r -> addr_reg q -> encodes (mov_r32_ar32 r q) (Load r q)
| e_store8 r q : addr_reg r -> is_reg q -> encodes (mov_ar32_r8 r q) (Store8 r q)
| e_store r q : addr_reg r -> is_reg q -> encodes (mov_ar32_r32 r q) (Store r q)
| e_movimm r n : is_reg r -> encodes (mov_r32_imm r n) (MovImm r (s32 n))
| e_movsx8 r q : is_reg r -> addr_reg q -> encodes (movsx_r32_ar8 r q) (LoadX true 1 r q)
| e_movsx16 r q : is_reg r -> addr_reg q -> encodes (movsx_r32_ar16 r q) (LoadX true 2 r q)
| e_movzx8 r q : is_reg r -> addr_reg q -> encodes (movzx_r32_ar8 r q) (LoadX false 1 r q)
| e_movzx16 r q : is_reg r -> addr_reg q -> encodes (movzx_r32_ar16 r q) (LoadX false 2 r q)
| e_mul r : is_reg r -> encodes (mul_r32 r) (Mul r)
| e_or r q : is_reg r -> is_reg q -> encodes (or_r32_r32 r q) (Alu OR_ r q)
| e_push r h : is_reg r -> encodes (push_r32 r h).2 (Push r)
| e_pop r h : is_reg r -> encodes (pop_r32 r h).2 (Pop r)
| e_ret : encodes ret_fn Ret
| e_rol r : is_reg r -> encodes (rol_r32 r) (ShiftCl ROL r)
| e_ror r : is_reg r -> encodes (ror_r32 r) (ShiftCl ROR r)
| e_sar r : is_reg r -> encodes (sar_r32 r) (ShiftCl SAR r)
| e_shr r : is_reg r -> encodes (shr_r32 r) (ShiftCl SHR r)
| e_shl_imm r n : is_reg r -> encodes (shl_r32_imm r n) (ShlImm r (u8 n))
| e_shl r : is_reg r -> encodes (shl_r32 r) (ShiftCl SHL r)
| e_seta r : is_reg r -> encodes (seta_r8 r) (Setcc CC_A r)
| e_setae r : is_reg r -> encodes (setae_r8 r) (Setcc CC_AE r)
| e_setb r : is_reg r -> encodes (setb_r8 r) (Setcc CC_B r)
| e_setbe r : is_reg r -> encodes (setbe_r8 r) (Setcc CC_BE r)
| e_setg r : is_reg r -> encodes (setg_r8 r) (Setcc CC_G r)
| e_setge r : is_reg r -> encodes (setge_r8 r) (Setcc CC_GE r)
| e_setl r : is_reg r -> encodes (setl_r8 r) (Setcc CC_L r)
| e_setle r : is_reg r -> encodes (setle_r8 r) (Setcc CC_LE r)
| e_setne r : is_reg r -> encodes (setne_r8 r) (Setcc CC_NE r)
| e_setz r : is_reg r -> encodes (setz_r8 r) (Setcc CC_Z r)
| e_sub_imm r n : is_reg r -> encodes (sub_r32_imm r n) (AluImm SUB r (s32 n))
| e_sub r q : is_reg r -> is_reg q -> encodes (sub_r32_r32 r q) (Alu SUB r q)
| e_test r q : is_reg r -> is_reg q -> encodes (test_r32_r32 r q) (Test r q)
| e_xor r q : is_reg r -> is_reg q -> encodes (xor_r32_r32 r q) (Alu XOR_ r q).

Create HintDb x86enc.
#[export] Hint Constructors encodes : x86enc.
#[export] Hint Extern 1 (is_reg _) => (unfold is_reg; vm_compute; intuition discriminate) : x86enc.
#[export] Hint Extern 1 (addr_reg _) =>
  (unfold addr_reg, is_reg; vm_compute; intuition discriminate) : x86enc.

(** ** The ModR/M byte *)

Definition regs8 : list Z := [0; 1; 2; 3; 4; 5; 6; 7].

Lemma is_reg_In r : is_reg r -> r ∈ regs8.
Proof.
  unfold is_reg. intros H.
  assert (r = 0 \/ r = 1 \/ r = 2 \/ r = 3 \/ r = 4 \/ r = 5 \/ r = 6 \/ r = 7) by lia.
  unfold regs8. rewrite !elem_of_cons. lia.
Qed.

Definition modrm_ok (md reg rm : Z) : bool :=
  bool_decide (modrm_fields (modrm md reg rm) = (md, reg, rm)).

Lemma modrm_all_ok :
  forallb (fun md => forallb (fun a => forallb (modrm_ok md a) regs8) regs8) [0; 2; 3] = true.
Proof. by vm_compute. Qed.

Lemma modrm_fields_spec md reg rm :
  md ∈ [0; 2; 3] -> is_reg reg -> is_reg rm ->
  modrm_fields (modrm md reg rm) = (md, reg, rm).
Proof.
  intros Hm Ha%is_reg_In Hb%is_reg_In. pose proof modrm_all_ok as H.
  rewrite forallb_forall in H. specialize (H md (proj1 (list_elem_of_In _ _) Hm)).
  rewrite forallb_forall in H. specialize (H reg (proj1 (list_elem_of_In _ _) Ha)).
  rewrite forallb_forall in H. specialize (H rm (proj1 (list_elem_of_In _ _) Hb)).
  by apply bool_decide_eq_true in H.
Qed.

Lemma modrm_is_byte md reg rm : is_byte (modrm md reg rm).
Proof. apply u8_range. Qed.

Lemma imm32_le n rest : imm32 (le_bytes 4 n ++ rest) = Some (s32 n, rest).
Proof.
  cbn [le_bytes app imm32]. do 2 f_equal.
  change (s32 (le_value (le_bytes 4 n)) = s32 n). by rewrite le_value_u32, s32_u32.
Qed.

(** ** Decoding what an encoder stores *)

Definition decodes (e : enc) (i : x86) : Prop :=
  enc_len e = zlen (enc_bytes e) /\ Forall is_byte (enc_bytes e) /\
  forall rest, decode (enc_bytes e ++ rest) = Some (i, rest).

Lemma u8_is_byte z : is_byte (u8 z).
Proof. apply u8_range. Qed.

Lemma u8_modrm md reg rm : u8 (modrm md reg rm) = modrm md reg rm.
Proof. apply u8_small, modrm_is_byte. Qed.

Lemma plain_addr_reg r : addr_reg r -> plain_addr r = true.
Proof.
  unfold addr_reg, plain_addr, ESP, EBP. intros (_ & H4 & H5).
  by destruct (Z.eqb_spec r 4), (Z.eqb_spec r 5).
Qed.

#[export] Hint Resolve u8_is_byte modrm_is_byte le_bytes_are_bytes : cmem.

Ltac all_bytes :=
  cbn [enc_bytes op_modrm op_op_modrm op_modrm_imm32 op_imm32 op_rel32 op_op_rel32
       op_modrm_ib shl_r32_imm];
  repeat first [apply le_bytes_are_bytes | apply Forall_nil_2 | apply Forall_cons_2];
  auto with cmem.

(** A two- or three-byte form whose last byte is a ModR/M byte. *)
Lemma decodes_modrm op md reg rm i :
  md ∈ [0; 2; 3] -> is_reg reg -> is_reg rm ->
  (forall rest b, modrm_fields b = (md, reg, rm) -> decode (u8 op :: b :: rest) = Some (i, rest)) ->
  decodes (op_modrm op (modrm md reg rm)) i.
Proof.
  intros ? ? ? H. split_and!; [done|all_bytes|].
  intros rest. cbn [enc_bytes op_modrm app]. rewrite u8_modrm. apply H.
  by apply modrm_fields_spec.
Qed.

Lemma decodes_op_modrm op0 op1 md reg rm i :
  md ∈ [0; 2; 3] -> is_reg reg -> is_reg rm ->
  (forall rest b, modrm_fields b = (md, reg, rm) ->
     decode (u8 op0 :: u8 op1 :: b :: rest) = Some (i, rest)) ->
  decodes (op_op_modrm op0 op1 (modrm md reg rm)) i.
Proof.
  intros ? ? ? H. split_and!; [done|all_bytes|].
  intros rest. cbn [enc_bytes op_op_modrm app]. rewrite u8_modrm. apply H.
  by apply modrm_fields_spec.
Qed.

Lemma decodes_modrm_imm op md reg rm n i :
  md ∈ [0; 2; 3] -> is_reg reg -> is_reg rm ->
  (forall rest b l, modrm_fields b = (md, reg, rm) -> imm32 l = Some (s32 n, rest) ->
     decode (u8 op :: b :: l) = Some (i, rest)) ->
  decodes (op_modrm_imm32 op (modrm md reg rm) n) i.
Proof.
  intros ? ? ? H. split_and!; [done|all_bytes|].
  intros rest. cbn [enc_bytes op_modrm_imm32 app]. rewrite u8_modrm. apply H.
  - by apply modrm_fields_spec.
  - apply imm32_le.
Qed.

Lemma decodes_imm op n i :
  (forall rest l, imm32 l = Some (s32 n, rest) -> decode (u8 op :: l) = Some (i, rest)) ->
  decodes (op_imm32 op n) i.
Proof.
  intros H. split_and!; [done|all_bytes|].
  intros rest. apply H, imm32_le.
Qed.

Lemma decodes_rel op n i :
  (forall rest l, imm32 l = Some (s32 (n - 5), rest) -> decode (u8 op :: l) = Some (i, rest)) ->
  decodes (op_rel32 op n) i.
Proof.
  intros H. split_and!; [done|all_bytes|].
  intros rest. apply H, imm32_le.
Qed.

Lemma decodes_op_rel op0 op1 n i :
  (forall rest l, imm32 l = Some (s32 (n - 6), rest) ->
     decode (u8 op0 :: u8 op1 :: l) = Some (i, rest)) ->
  decodes (op_op_rel32 op0 op1 n) i.
Proof.
  intros H. split_and!; [done|all_bytes|].
  intros rest. apply H, imm32_le.
Qed.

(** Reduce a decoder to the byte whose fields are known. *)
Ltac decode_fields :=
  intros; unfold decode, decode_0f, decode_modrm;
  repeat match goal with
  | H : modrm_fields _ = _ |- _ => rewrite H
  | H : imm32 _ = _ |- _ => rewrite H
  end;
  rewrite ?plain_addr_reg by done; try reflexivity.

Lemma addr_reg_is_reg r : addr_reg r -> is_reg r.
Proof. by intros []. Qed.

Lemma small_is_reg r : (0 <=? r) && (r <? 8) = true -> is_reg r.
Proof. unfold is_reg. lia. Qed.

Ltac solve_reg := first [assumption | by apply addr_reg_is_reg | by apply small_is_reg].

Ltac by_modrm :=
  first [apply decodes_modrm | apply decodes_op_modrm | apply decodes_modrm_imm];
  [by rewrite !elem_of_cons; auto | solve_reg | solve_reg | decode_fields].

Ltac by_rel := first [apply decodes_rel | apply decodes_op_rel]; decode_fields.

Lemma decodes_add_imm r n : is_reg r -> decodes (add_r32_imm r n) (AluImm ADD r (s32 n)).
Proof.
  intros H. unfold add_r32_imm, EAX. destruct (Z.eqb_spec r 0) as [->|].
  - apply decodes_imm. decode_fields.
  - by_modrm.
Qed.

Lemma decodes_sub_imm r n : is_reg r -> decodes (sub_r32_imm r n) (AluImm SUB r (s32 n)).
Proof.
  intros H. unfold sub_r32_imm, EAX. destruct (Z.eqb_spec r 0) as [->|].
  - apply decodes_imm. decode_fields.
  - by_modrm.
Qed.

Lemma decodes_ret : decodes ret_fn Ret.
Proof. split_and!; [done|cbn; repeat constructor; done|done]. Qed.

(** The one-byte forms, whose opcode holds the register. *)
Lemma decodes_push r h : is_reg r -> decodes (push_r32 r h).2 (Push r).
Proof.
  intros H%is_reg_In. unfold regs8 in H.
  repeat (apply elem_of_cons in H as [->|H]; [split_and!; [done|all_bytes|done]|]).
  by apply elem_of_nil in H.
Qed.

Lemma decodes_pop r h : is_reg r -> decodes (pop_r32 r h).2 (Pop r).
Proof.
  intros H%is_reg_In. unfold regs8 in H.
  repeat (apply elem_of_cons in H as [->|H]; [split_and!; [done|all_bytes|done]|]).
  by apply elem_of_nil in H.
Qed.

Lemma decodes_mov_imm r n : is_reg r -> decodes (mov_r32_imm r n) (MovImm r (s32 n)).
Proof.
  intros H%is_reg_In. unfold regs8 in H.
  repeat (apply elem_of_cons in H as [->|H]; [apply decodes_imm; decode_fields|]).
  by apply elem_of_nil in H.
Qed.

Lemma decodes_shl_imm r n : is_reg r -> decodes (shl_r32_imm r n) (ShlImm r (u8 n)).
Proof.
  intros H. split_and!; [done|all_bytes|].
  intros rest. unfold shl_r32_imm, op_modrm_ib. cbn [enc_bytes app]. rewrite u8_modrm.
  assert (modrm_fields (modrm 3 4 r) = (3, 4, r)).
  { apply modrm_fields_spec; [set_solver| |done]. unfold is_reg; lia. }
  decode_fields.
Qed.

Lemma encodes_decodes e i : encodes e i -> decodes e i.
Proof.
  destruct 1;
    first [ by apply decodes_push | by apply decodes_pop | by apply decodes_mov_imm
          | by apply decodes_shl_imm | by apply decodes_add_imm | by apply decodes_sub_imm
          | apply decodes_ret | by_modrm | by_rel ].
Qed.

(** C10. Every encoder returns the number of bytes it stores, stores bytes, and
    what it stores decodes, whatever follows, to exactly the instruction the
    encoder is named after: same operands in the same roles, immediates and
    displacements as the 32-bit values they denote, relative jumps measured from
    the end of the instruction.  The forms with an address register exclude
    ESP and EBP, which the encoders do not support. *)
Theorem encoders_decode e i :
  encodes e i ->
  enc_len e = zlen (enc_bytes e) /\ Forall is_byte (enc_bytes e) /\
  forall rest, decode (enc_bytes e ++ rest) = Some (i, rest).
Proof. apply encodes_decodes. Qed.

Lemma encoders_decode_witness :
  encodes (sub_r32_imm ESP 16) (AluImm SUB ESP 16) /\
  decode (enc_bytes (sub_r32_imm ESP 16) ++ [0xc3]) = Some (AluImm SUB ESP 16, [0xc3]).
Proof.
  assert (encodes (sub_r32_imm ESP 16) (AluImm SUB ESP 16)) as H.
  { apply (e_sub_imm ESP 16). unfold is_reg, ESP. lia. }
  split; [exact H|]. apply (encoders_decode _ _ H).
Defined.
