(* ===== verification/X86Proofs.v ===== *)
(** * Reasoning about the target machine

    Lemmas on its memory, and the execution of a piece of straight-line code
    ([exec_seg]) as steps of the machine. *)

From stdpp Require Import base list strings gmap.
From Stdlib Require Import ZArith Lia.
From S2P Require Import Prelude X86.

Section memory.
Implicit Types (mm : gmap Z Z) (a b : Z).

(** [n] bytes at [a] do not wrap around the address space. *)
Definition in_space (a n : Z) : Prop := 0 <= a /\ a + n <= 2 ^ 32.

(** The two memories agree outside [[lo, hi)]. *)
Definition same_except (lo hi : Z) mm mm' : Prop :=
  forall x, ~ (lo <= x < hi) -> mm' !! x = mm !! x.

Lemma same_except_refl lo hi mm : same_except lo hi mm mm.
Proof. by intros x Hx. Qed.

Lemma same_except_weaken lo hi lo' hi' mm mm' :
  lo' <= lo -> hi <= hi' -> same_except lo hi mm mm' -> same_except lo' hi' mm mm'.
Proof. intros ? ? H x Hx. apply H. lia. Qed.

Lemma same_except_trans lo hi mm1 mm2 mm3 :
  same_except lo hi mm1 mm2 -> same_except lo hi mm2 mm3 -> same_except lo hi mm1 mm3.
Proof. intros H1 H2 x Hx. rewrite H2, H1; done. Qed.

Lemma load_same n mm mm' lo hi a :
  same_except lo hi mm mm' -> in_space a (Z.of_nat n) ->
  a + Z.of_nat n <= lo \/ hi <= a -> load n mm' a = load n mm a.
Proof.
  intros Hs. revert a. induction n as [|n IH]; intros a [Ha Hn] Hd; [done|].
  cbn [load]. rewrite u32_small by lia. rewrite Hs by lia.
  destruct (mm !! a); cbn; [|done]. rewrite IH; [done| |lia]. unfold in_space. lia.
Qed.

Lemma load_length n mm a bs : load n mm a = Some bs -> length bs = n.
Proof.
  revert a bs. induction n as [|n IH]; intros a bs; cbn [load].
  - by intros [= <-].
  - intros H. apply bind_Some in H as (b & _ & H).
    apply bind_Some in H as (l & Hl & [= <-]). cbn. f_equal. eauto.
Qed.

Lemma store_ok mm a bs old :
  in_space a (zlen bs) -> load (length bs) mm a = Some old ->
  exists mm', store mm a bs = Some mm'.
Proof.
  revert mm a old. induction bs as [|b bs IH]; intros mm a old [Ha Hn] Hl; [by eexists|].
  rewrite zlen_cons in Hn. pose proof (zlen_nonneg bs).
  cbn [load length] in Hl. apply bind_Some in Hl as (o & Ho & Hl).
  apply bind_Some in Hl as (l & Hl & _). cbn [store].
  rewrite u32_small in * by lia. rewrite Ho. eapply IH; [unfold in_space; lia|].
  rewrite (load_same _ mm _ a (a + 1)); [exact Hl| |unfold in_space, zlen in *; lia|lia].
  intros x Hx. apply lookup_insert_ne. lia.
Qed.

Lemma store_same_except mm a bs mm' :
  in_space a (zlen bs) -> store mm a bs = Some mm' -> same_except a (a + zlen bs) mm mm'.
Proof.
  revert mm a. induction bs as [|b bs IH]; intros mm a [Ha Hn].
  - intros [= <-]. apply same_except_refl.
  - rewrite zlen_cons in *. pose proof (zlen_nonneg bs). cbn [store].
    rewrite u32_small by lia. destruct (mm !! a); [|done].
    intros Hs. apply IH in Hs; [|unfold in_space; lia].
    intros x Hx. rewrite Hs by lia. apply lookup_insert_ne. lia.
Qed.

Lemma store_load mm a bs mm' :
  in_space a (zlen bs) -> store mm a bs = Some mm' -> load (length bs) mm' a = Some bs.
Proof.
  revert mm a. induction bs as [|b bs IH]; intros mm a [Ha Hn]; [done|].
  rewrite zlen_cons in *. pose proof (zlen_nonneg bs). cbn [store load length].
  rewrite u32_small by lia. destruct (mm !! a); [|done]. intros Hs.
  assert (mm' !! a = Some b) as ->.
  { apply store_same_except in Hs as Hx; [|unfold in_space; lia].
    rewrite Hx by lia. apply lookup_insert_eq. }
  cbn. erewrite IH; [done| |exact Hs]. unfold in_space; lia.
Qed.

(** Addresses wrap around. *)
Lemma load_u32 n mm a : load n mm (u32 a) = load n mm a.
Proof.
  assert (forall a b, u32 a = u32 b -> load n mm a = load n mm b) as H.
  { induction n as [|n IH]; intros x y Hxy; [done|]. cbn [load]. rewrite Hxy.
    rewrite (IH (x + 1) (y + 1)); [done|]. by rewrite <- (u32_add_l x), Hxy, u32_add_l. }
  apply H, u32_idem.
Qed.

Lemma store_u32 mm a bs : store mm (u32 a) bs = store mm a bs.
Proof.
  assert (forall a b, u32 a = u32 b -> store mm a bs = store mm b bs) as H.
  { revert mm. induction bs as [|b bs IH]; intros mm x y Hxy; [done|]. cbn [store]. rewrite Hxy.
    destruct (mm !! u32 y); [|done]. apply IH. by rewrite <- (u32_add_l x), Hxy, u32_add_l. }
  apply H, u32_idem.
Qed.

(** *** Words *)

Lemma load32_same mm mm' lo hi a :
  same_except lo hi mm mm' -> in_space a 4 ->
  a + 4 <= lo \/ hi <= a -> load32 mm' a = load32 mm a.
Proof. intros. unfold load32. by rewrite (load_same 4 mm mm' lo hi). Qed.

(** A store to a mapped word succeeds, is read back, and changes only the word. *)
Lemma store32_ok mm a v old :
  in_space a 4 -> load32 mm a = Some old ->
  exists mm', store32 mm a v = Some mm' /\ load32 mm' a = Some (u32 v) /\
              same_except a (a + 4) mm mm'.
Proof.
  intros Ha Hl. unfold load32 in *. destruct (load 4 mm a) as [bs|] eqn:E; [|done].
  destruct (store_ok mm a (le_bytes 4 v) bs) as [mm' Hs]; [done|exact E|].
  exists mm'. split_and!; [done| |].
  - pose proof (store_load mm a (le_bytes 4 v) mm' Ha Hs) as Hld.
    rewrite length_le_bytes in Hld. rewrite Hld. cbn [fmap option_fmap option_map].
    by rewrite le_value_u32.
  - by apply (store_same_except mm a (le_bytes 4 v)).
Qed.

(** The words of [vs] lie at [sp], [sp + 4], ..., the first at the top of the
    stack. *)
Definition stack_at mm (sp : Z) (vs : list Z) : Prop :=
  in_space sp (4 * zlen vs) /\
  forall i v, vs !! i = Some v -> load32 mm (sp + 4 * Z.of_nat i) = Some v.

Lemma stack_at_nil mm sp : in_space sp 0 -> stack_at mm sp [].
Proof. intros H. split; [done|]. by intros i v. Qed.

Lemma stack_at_cons mm sp v vs :
  stack_at mm sp (v :: vs) <->
  in_space sp (4 * zlen (v :: vs)) /\ load32 mm sp = Some v /\ stack_at mm (sp + 4) vs.
Proof.
  unfold stack_at, in_space. rewrite zlen_cons. pose proof (zlen_nonneg vs) as Hvs. split.
  - intros [Hs H]. split_and!; try lia.
    + specialize (H 0%nat v eq_refl). by rewrite Z.add_0_r in H.
    + intros i w Hi. specialize (H (S i) w Hi). rewrite <- H. f_equal. lia.
  - intros (Hs & Hv & _ & H). split; [lia|]. intros [|i] w Hi.
    + injection Hi as <-. by rewrite Z.add_0_r.
    + rewrite <- (H i w Hi). f_equal. lia.
Qed.

Lemma stack_at_same mm mm' lo hi sp vs :
  same_except lo hi mm mm' -> sp + 4 * zlen vs <= lo \/ hi <= sp ->
  stack_at mm sp vs -> stack_at mm' sp vs.
Proof.
  intros Hs Hd [Hr H]. split; [done|]. intros i v Hi.
  rewrite <- (H i v Hi). apply lookup_lt_Some in Hi. unfold in_space, zlen in *.
  apply (load32_same _ _ lo hi); unfold in_space; [done|lia|lia].
Qed.

End memory.

(** ** Straight-line code *)

(** Instructions with their lengths. *)
Definition seg : Type := list (Z * x86).

(** [bs] is the encoding of [l]. *)
Inductive is_code : list Z -> seg -> Prop :=
| is_code_nil : is_code [] []
| is_code_cons b bs i l :
    (forall rest, decode (b ++ rest) = Some (i, rest)) -> b <> [] ->
    is_code bs l -> is_code (b ++ bs) ((zlen b, i) :: l).

Lemma is_code_one b i :
  (forall rest, decode (b ++ rest) = Some (i, rest)) -> b <> [] -> is_code b [(zlen b, i)].
Proof. intros. rewrite <- (app_nil_r b) at 1. by repeat constructor. Qed.

Lemma is_code_app b1 l1 b2 l2 :
  is_code b1 l1 -> is_code b2 l2 -> is_code (b1 ++ b2) (l1 ++ l2).
Proof.
  induction 1; intros H2; [done|]. rewrite <- app_assoc. cbn. by constructor; auto.
Qed.

Definition seg_len (l : seg) : Z := foldr (fun p n => p.1 + n) 0 l.

Lemma seg_len_app l k : seg_len (l ++ k) = seg_len l + seg_len k.
Proof. unfold seg_len. induction l as [|[n i] l IH]; cbn [app foldr fst]; lia. Qed.

Lemma is_code_len bs l : is_code bs l -> seg_len l = zlen bs.
Proof.
  unfold seg_len. induction 1 as [|b bs i l H Hb Hc IH]; [done|].
  cbn [foldr fst]. rewrite IH, zlen_app. done.
Qed.

(** Execute a segment, up to its end or to the first jump that is taken. *)
Fixpoint exec_seg (l : seg) (m : machine) : option machine :=
  match l with
  | [] => Some m
  | (n, i) :: l =>
      let next := u32 (eip m + n) in
      m' ← exec i (set_eip m next);
      if eip m' =? next then exec_seg l m' else Some m'
  end.

Inductive steps (code : list Z) (base : Z) : machine -> machine -> Prop :=
| steps_refl m : steps code base m m
| steps_step m1 m2 m3 :
    step code base m1 = Some m2 -> steps code base m2 m3 -> steps code base m1 m3.

Lemma steps_trans code base m1 m2 m3 :
  steps code base m1 m2 -> steps code base m2 m3 -> steps code base m1 m3.
Proof. induction 1; eauto using steps. Qed.

(** The image [code], loaded at [base], has the bytes [bs] at address [a]. *)
Definition code_at (code : list Z) (base a : Z) (bs : list Z) : Prop :=
  exists pre post, code = pre ++ bs ++ post /\ a = base + zlen pre /\
                   0 <= base /\ base + zlen code < 2 ^ 32.

Lemma code_at_app code base a b1 b2 :
  code_at code base a (b1 ++ b2) -> code_at code base (a + zlen b1) b2.
Proof.
  intros (pre & post & -> & -> & Hb). exists (pre ++ b1), post.
  rewrite <- !app_assoc in *. split_and!; try done.
  - rewrite zlen_app. lia.
  - lia.
  - rewrite !zlen_app in *. lia.
Qed.

Lemma fetch_code_at code base a bs :
  code_at code base a bs -> bs <> [] -> exists post, fetch code base a = bs ++ post.
Proof.
  intros (pre & post & -> & -> & Hb) Hne. exists post. unfold fetch.
  assert (0 < zlen bs) by (destruct bs; [done|]; rewrite zlen_cons; pose proof (zlen_nonneg bs); lia).
  rewrite !zlen_app. pose proof (zlen_nonneg pre). pose proof (zlen_nonneg post).
  destruct (Z.ltb_spec (base + zlen pre) base); [lia|].
  destruct (Z.leb_spec (base + (zlen pre + (zlen bs + zlen post))) (base + zlen pre)); [lia|].
  cbn. replace (Z.to_nat (base + zlen pre - base)) with (length pre) by (unfold zlen; lia).
  by rewrite drop_app_length.
Qed.

(** Executing the segment a part of the image encodes is running the machine. *)
Lemma exec_seg_steps code base bs l m m' :
  is_code bs l -> code_at code base (eip m) bs -> exec_seg l m = Some m' ->
  steps code base m m'.
Proof.
  intros Hc. revert m. induction Hc as [|b bs i l Hd Hne Hc IH]; intros m Hat; cbn [exec_seg].
  - intros [= <-]. constructor.
  - intros (m1 & Hx & He)%bind_Some.
    destruct (fetch_code_at code base (eip m) (b ++ bs)) as [post Hf]; [done|by destruct b|].
    assert (step code base m = Some m1) as Hstep.
    { unfold step. rewrite Hf, <- app_assoc, Hd. cbn [mbind option_bind].
      rewrite <- Hx. f_equal. unfold set_eip. f_equal.
      rewrite u32_idem. f_equal. rewrite !zlen_app. lia. }
    destruct (Z.eqb_spec (eip m1) (u32 (eip m + zlen b))) as [Heq|].
    + eapply steps_step; [exact Hstep|]. apply IH; [|exact He].
      rewrite Heq. apply code_at_app in Hat. destruct Hat as (pre & post' & -> & Ha & Hb).
      rewrite Ha. rewrite u32_small.
      * exists pre, post'. split_and!; try done; lia.
      * rewrite !zlen_app in Hb. pose proof (zlen_nonneg pre). pose proof (zlen_nonneg bs).
        pose proof (zlen_nonneg post'). lia.
    + injection He as <-. eapply steps_step; [exact Hstep|]. constructor.
Qed.
