(* ===== verification/EmitProofs.v ===== *)
(** * What the emission primitives of the code generator write

    [emits a P d]: whenever the fragment [a] succeeds it appends the code of
    the segment [P s] at [asm_i], changes [stkh] by [d], and nothing else. *)

From stdpp Require Import base list strings gmap.
From Stdlib Require Import ZArith Lia.
From S2P Require Import Prelude Tokens FromIr Instrs X86 ToAsm InstrsProofs X86Proofs.

Definition is_int (z : Z) : Prop := - 2 ^ 31 <= z < 2 ^ 31.

(** The state of a generator that has not overrun its buffer. *)
Record ewf (s : gst) : Prop := {
  ewf_i : 0 <= asm_i s <= zlen (buf s);
  ewf_buf : zlen (buf s) < 2 ^ 31;
  ewf_h : is_int (stkh s);
}.

(** The bytes between the output positions of [s] and [s']. *)
Definition emitted (s s' : gst) : list Z :=
  take (Z.to_nat (asm_i s' - asm_i s)) (drop (Z.to_nat (asm_i s)) (buf s')).

(** [s'] has the code [bs] in addition to the output of [s]; the rest of the
    buffer is unchanged. *)
Definition appended (s s' : gst) (bs : list Z) : Prop :=
  asm_i s' = asm_i s + zlen bs /\ asm_i s' <= zlen (buf s) /\
  buf s' = take (Z.to_nat (asm_i s)) (buf s) ++ bs ++
           drop (Z.to_nat (asm_i s) + length bs)%nat (buf s).

Definition wrote (s s' : gst) (l : seg) : Prop :=
  exists bs, is_code bs l /\ appended s s' bs.

(** Nothing but the output and the height has changed. *)
Record framed (s s' : gst) : Prop := {
  fr_fns : g_fns s' = g_fns s;
  fr_blks : g_blks s' = g_blks s;
  fr_good : goodret_addr s' = goodret_addr s;
  fr_trap : trapret_addr s' = trapret_addr s;
  fr_start : start_addr s' = start_addr s;
  fr_stk : cur_blk_stk s' = cur_blk_stk s;
  fr_fn : g_fn s' = g_fn s;
  fr_blk : cur_blk s' = cur_blk s;
  fr_blk_h : cur_blk_h s' = cur_blk_h s;
}.

Lemma framed_refl s : framed s s.
Proof. by constructor. Qed.

Lemma framed_trans s1 s2 s3 : framed s1 s2 -> framed s2 s3 -> framed s1 s3.
Proof. intros [] []. constructor; congruence. Qed.

Lemma appended_nil s : ewf s -> appended s s [].
Proof.
  intros [Hi Hb Hh]. unfold appended. rewrite zlen_nil, Nat.add_0_r. cbn [app].
  rewrite take_drop. split_and!; [lia|lia|done].
Qed.

Lemma appended_len s s' bs : 0 <= asm_i s -> appended s s' bs -> zlen (buf s') = zlen (buf s).
Proof.
  intros H0 (Hi & Hb & ->). unfold zlen in *.
  rewrite !length_app, length_take, length_drop. lia.
Qed.

Lemma appended_trans s1 s2 s3 b1 b2 :
  ewf s1 -> appended s1 s2 b1 -> appended s2 s3 b2 -> appended s1 s3 (b1 ++ b2).
Proof.
  intros [[H0 _] _ _] H1 H2. pose proof (appended_len _ _ _ H0 H1) as Hlen.
  destruct H1 as (Hi1 & Hb1 & Hbuf1), H2 as (Hi2 & Hb2 & Hbuf2).
  split_and!; [rewrite zlen_app; lia|lia|].
  rewrite Hbuf2, Hbuf1, Hi1. unfold zlen in *.
  assert (Hl : (Z.to_nat (asm_i s1) <= length (buf s1))%nat) by lia.
  replace (Z.to_nat (asm_i s1 + Z.of_nat (length b1)))
    with (Z.to_nat (asm_i s1) + length b1)%nat by lia.
  rewrite take_app_ge by (rewrite length_take; lia).
  rewrite length_take, Nat.min_l by lia.
  replace (Z.to_nat (asm_i s1) + length b1 - Z.to_nat (asm_i s1))%nat with (length b1) by lia.
  rewrite take_app_length, <- !app_assoc. do 3 f_equal.
  rewrite drop_app_ge by (rewrite length_take; lia). rewrite length_take, Nat.min_l by lia.
  rewrite drop_app_ge by lia. rewrite drop_drop. f_equal. rewrite length_app. lia.
Qed.

Lemma appended_emitted s s' bs : 0 <= asm_i s -> appended s s' bs -> emitted s s' = bs.
Proof.
  intros H0 (Hi & Hb & Hbuf). unfold emitted. rewrite Hbuf, Hi. unfold zlen in *.
  rewrite drop_app_ge by (rewrite length_take; lia).
  rewrite length_take, Nat.min_l by lia.
  rewrite Nat.sub_diag, drop_0. apply take_app_length'. lia.
Qed.

Lemma s32_add a b : s32 (s32 a + b) = s32 (a + b).
Proof.
  apply u32_eq_s32. unfold u32 at 1 2.
  rewrite <- Z.add_mod_idemp_l by lia. fold (u32 (s32 a)). rewrite u32_s32.
  unfold u32. by rewrite Z.add_mod_idemp_l by lia.
Qed.

Lemma s32_id z : is_int z -> s32 z = z.
Proof. apply s32_small. Qed.

Definition emits (a : asm) (P : gst -> seg) (d : Z) : Prop :=
  forall s s', ewf s -> a s = Ok s' ->
    wrote s s' (P s) /\ framed s s' /\ stkh s' = s32 (stkh s + d) /\ ewf s'.

Lemma emits_skip : emits skip (fun _ => []) 0.
Proof.
  intros s s' Hs [= <-]. split_and!; [|apply framed_refl| |done].
  - exists []. split; [constructor|by apply appended_nil].
  - rewrite Z.add_0_r, s32_id; [done|apply Hs].
Qed.

(** Emission of one instruction, the height already set. *)
Lemma emit_wrote s h e i s' :
  ewf s -> is_int h -> encodes e i -> emit (with_stkh s h) e = Ok s' ->
  wrote s s' [(enc_len e, i)] /\ framed s s' /\ stkh s' = h /\ ewf s'.
Proof.
  intros [[Hi0 Hi] Hb Hh] Hint Henc He. apply encodes_decodes in Henc as (Hl & _ & Hd).
  unfold emit in He. inv_ok. apply arr_write_Ok in H as (_ & Hfit & ->). cbn in *.
  assert (Hu : u32 (asm_i s + enc_len e) = asm_i s + zlen (enc_bytes e)).
  { rewrite Hl. apply u32_small. pose proof (zlen_nonneg (enc_bytes e)). lia. }
  assert (appended s (with_buf (with_stkh s h)
    (take (Z.to_nat (asm_i s)) (buf s) ++ enc_bytes e ++
     drop (Z.to_nat (asm_i s) + length (enc_bytes e)) (buf s))
    (u32 (asm_i s + enc_len e))) (enc_bytes e)) as Happ.
  { unfold appended. cbn. rewrite Hu. split_and!; done || lia. }
  split_and!; [|by constructor|done|].
  - exists (enc_bytes e). split; [|done].
    rewrite Hl. apply is_code_one; [done|]. intros Hnil. specialize (Hd []).
    by rewrite Hnil in Hd.
  - pose proof (appended_len _ _ _ Hi0 Happ) as Hlen. constructor; cbn in *.
    + rewrite Hlen, Hu. pose proof (zlen_nonneg (enc_bytes e)). lia.
    + by rewrite Hlen.
    + done.
Qed.

Lemma with_stkh_id s : with_stkh s (stkh s) = s.
Proof. by destruct s. Qed.

Lemma emits_at (f : gst -> enc) (g : gst -> x86) :
  (forall s, encodes (f s) (g s)) ->
  emits (fun s => emit s (f s)) (fun s => [(enc_len (f s), g s)]) 0.
Proof.
  intros Henc s s' Hs He. rewrite <- (with_stkh_id s) in He at 1.
  apply (emit_wrote s (stkh s) (f s) (g s)) in He; [|done|apply Hs|apply Henc].
  destruct He as (Hw & Hf & Hk & He). split_and!; try done.
  rewrite Z.add_0_r, Hk, s32_id; [done|apply Hs].
Qed.

Lemma emits_ins e i : encodes e i -> emits (ins e) (fun _ => [(enc_len e, i)]) 0.
Proof. intros H. apply (emits_at (fun _ => e) (fun _ => i)). done. Qed.

Lemma emits_push r : is_reg r -> emits (push_ r) (fun _ => [(1, Push r)]) 1.
Proof.
  intros Hr s s' Hs He.
  apply (emit_wrote s (s32 (stkh s + 1)) (push_r32 r (stkh s)).2 (Push r)) in He; auto.
  - apply s32_range.
  - by constructor.
Qed.

Lemma emits_pop r : is_reg r -> emits (pop_ r) (fun _ => [(1, Pop r)]) (-1).
Proof.
  intros Hr s s' Hs He.
  apply (emit_wrote s (s32 (stkh s - 1)) (pop_r32 r (stkh s)).2 (Pop r)) in He; auto.
  - apply s32_range.
  - by constructor.
Qed.

(** Composition.  [Q'] gives the segment of the second fragment in terms of the
    state before the first one. *)
Lemma emits_seq a b P Q Q' d1 d2 d :
  emits a P d1 -> emits b Q d2 -> d = d1 + d2 ->
  (forall s s', framed s s' -> asm_i s' = asm_i s + seg_len (P s) ->
     stkh s' = s32 (stkh s + d1) -> Q s' = Q' s) ->
  emits (a +> b) (fun s => P s ++ Q' s) d.
Proof.
  intros Ha Hb -> HQ s s' Hs Hab. unfold seq in Hab. inv_ok.
  destruct (Ha s a0 Hs H) as ((b1 & Hc1 & Hw1) & Hf1 & Hk1 & Hs1).
  destruct (Hb a0 s' Hs1 Hab) as ((b2 & Hc2 & Hw2) & Hf2 & Hk2 & Hs2).
  split_and!; [|by eapply framed_trans| |done].
  - exists (b1 ++ b2). split; [|by eapply appended_trans].
    apply is_code_app; [done|]. erewrite <- HQ; [exact Hc2|done| |done].
    rewrite (is_code_len _ _ Hc1). apply Hw1.
  - rewrite Hk2, Hk1, s32_add. f_equal. lia.
Qed.

(** The second fragment emits the same code in every state. *)
Lemma emits_seq_const a b P l d1 d2 d :
  emits a P d1 -> emits b (fun _ => l) d2 -> d = d1 + d2 ->
  emits (a +> b) (fun s => P s ++ l) d.
Proof. intros Ha Hb ->. by apply (emits_seq a b P (fun _ => l) (fun _ => l) d1 d2). Qed.

Lemma emits_seq2 a b p q d1 d2 d :
  emits a (fun _ => p) d1 -> emits b (fun _ => q) d2 -> d = d1 + d2 ->
  emits (a +> b) (fun _ => p ++ q) d.
Proof. intros Ha Hb Hd. by apply (emits_seq_const a b (fun _ => p) q d1 d2 d). Qed.

Lemma emits_ext a P Q d : (forall s, P s = Q s) -> emits a P d -> emits a Q d.
Proof. intros H Ha s s' Hs Hx. rewrite <- H. by apply Ha. Qed.

Create HintDb emit.
#[export] Hint Resolve emits_skip emits_push emits_pop emits_ins : emit.
