(* ===== verification/OpProofs.v ===== *)
(** * The code emitted for an instruction computes the instruction

    The value stack of a SUME32 function is the x86 stack: the top is at
    [ESP].  For each operator, running the emitted bytes takes the operands
    off the stack, pushes the result, and leaves [EBP], [ESI], [EDI] and the
    rest of the memory alone. *)

From stdpp Require Import base list strings gmap.
From Stdlib Require Import ZArith Lia.
From S2P Require Import Prelude Tokens FromIr Instrs X86 ToAsm InstrsProofs X86Proofs EmitProofs.

Definition is_word (z : Z) : Prop := 0 <= z < 2 ^ 32.

(** ** Symbolic execution *)

(** A machine with its registers in the order of their numbers. *)
Abbreviation M R f mm e := {| regs := R; flags := f; mem := mm; eip := e |}.

Ltac red_exec :=
  cbv [EAX ECX EDX EBX ESP EBP ESI EDI AL CL DL BL
       exec get_reg set_reg get_reg8 set_reg8 set_eip set_flags set_mem
       X86.regs X86.flags X86.mem X86.eip alu_result
       lookup_total list_lookup_total insert list_insert
       Z.to_nat Pos.to_nat Pos.iter_op Init.Nat.add mbind option_bind].

(** With the choice of an 8-bit register. *)
Ltac red_machine := red_exec; cbv [Z.ltb Z.compare Pos.compare Pos.compare_cont].

(** Updates of an explicit register file. *)
Ltac red_regs :=
  cbv [EAX ECX EDX EBX ESP EBP ESI EDI Z.to_nat Pos.to_nat Pos.iter_op Init.Nat.add
       insert list_insert lookup_total list_lookup_total].

Lemma exec_seg_cons n i l m m1 r :
  exec i (set_eip m (eip m + n)) = Some m1 -> eip m1 = u32 (eip m + n) ->
  exec_seg l m1 = r -> exec_seg ((n, i) :: l) m = r.
Proof.
  intros Hx He Hr. cbn [exec_seg]. unfold set_eip in *. rewrite u32_idem.
  rewrite Hx. cbn [mbind option_bind]. by rewrite He, Z.eqb_refl.
Qed.

Lemma seg_pop r n l a c d b sp bp si di f mm e v m' :
  is_word v -> in_space sp 4 -> sp + 4 < 2 ^ 32 -> load32 mm sp = Some v ->
  exec_seg l (M (<[Z.to_nat r := v]> [a; c; d; b; sp + 4; bp; si; di]) f mm (u32 (e + n))) = m' ->
  exec_seg ((n, Pop r) :: l) (M [a; c; d; b; sp; bp; si; di] f mm e) = m'.
Proof.
  intros Hv [Hs _] Hlt Hl. eapply exec_seg_cons; [|reflexivity].
  unfold exec, pop. red_machine. rewrite Hl.
  rewrite (u32_small (sp + 4)), (u32_small v) by (unfold is_word in *; lia). reflexivity.
Qed.

Lemma seg_push (r : nat) n l R sp f mm mm' e v m' :
  R !!! 4%nat = sp -> length R = 8%nat -> R !!! r = v ->
  4 <= sp < 2 ^ 32 -> store32 mm (sp - 4) v = Some mm' ->
  exec_seg l (M (<[4%nat := sp - 4]> R) f mm' (u32 (e + n))) = m' ->
  exec_seg ((n, Push (Z.of_nat r)) :: l) (M R f mm e) = m'.
Proof.
  intros HR Hlen Hv Hs Hst. eapply exec_seg_cons; [|reflexivity].
  unfold exec, push, get_reg, set_reg, set_eip, set_mem.
  cbn [X86.regs X86.flags X86.mem X86.eip]. change (Z.to_nat 4) with 4%nat.
  rewrite HR, Nat2Z.id, Hv, (u32_small (sp - 4)), Hst by lia.
  cbn [mbind option_bind]. by rewrite (u32_small (sp - 4)) by lia.
Qed.

(** [l] runs to its end from [m], which becomes [m']. *)
Definition falls (l : seg) (m m' : machine) : Prop :=
  forall k, exec_seg (l ++ k) m = exec_seg k m'.

Ltac seg_step := eapply exec_seg_cons; [red_machine; reflexivity|reflexivity|].

Record mwf (m : machine) : Prop := {
  mwf_len : length (regs m) = 8%nat;
  mwf_words : Forall is_word (regs m);
  mwf_eip : is_word (eip m);
}.

Lemma mwf_regs m :
  mwf m -> exists a c d b sp bp si di,
    regs m = [a; c; d; b; sp; bp; si; di] /\
    is_word a /\ is_word c /\ is_word d /\ is_word b /\
    is_word sp /\ is_word bp /\ is_word si /\ is_word di.
Proof.
  intros [Hl Hw _]. destruct m as [R f mm e]; cbn in *.
  do 8 (destruct R as [|? R]; [done|]). destruct R; [|done].
  rewrite !Forall_cons in Hw. do 8 eexists. split; [reflexivity|]. tauto.
Qed.

Lemma get_reg_word m r : mwf m -> is_reg r -> is_word (get_reg m r).
Proof.
  intros [Hl Hw _] Hr. unfold get_reg, is_reg in *. rewrite Forall_lookup in Hw.
  apply (Hw (Z.to_nat r)). apply list_lookup_lookup_total_lt. lia.
Qed.

(** The state after an operator: control falls through to [e], the stack is
    [vs] at [sp], only the memory of [[lo, hi)] has changed, and the registers
    the code of a function relies on are the same. *)
Record op_post (m m' : machine) (e sp : Z) (vs : list Z) (lo hi : Z) : Prop := {
  op_eip : eip m' = e;
  op_sp : get_reg m' ESP = sp;
  op_stack : stack_at (mem m') sp vs;
  op_mem : same_except lo hi (mem m) (mem m');
  op_bp : get_reg m' EBP = get_reg m EBP;
  op_si : get_reg m' ESI = get_reg m ESI;
  op_di : get_reg m' EDI = get_reg m EDI;
  op_mwf : mwf m';
}.

Lemma word_u32 z : is_word (u32 z).
Proof. apply u32_range. Qed.

#[export] Hint Resolve word_u32 : cmem.

(** With the operands in [EAX] and [EBX], [mid] leaves the result [r] in the
    register [reg], and the memory and the upper registers alone. *)
Definition mid_ok (mid : seg) (reg : nat) (x y r : Z) : Prop :=
  (reg < 4)%nat /\ is_word r /\
  exists a' c' d', is_word a' /\
    (forall c d, is_word c -> is_word d ->
       is_word (c' c) /\ is_word (d' d) /\ [a'; c' c; d' d; y] !!! reg = r) /\
    forall f mm, exists f', forall c d sp bp si di e,
      falls mid (M [x; c; d; y; sp; bp; si; di] f mm e)
        (M [a'; c' c; d' d; y; sp; bp; si; di] f' mm (u32 (e + seg_len mid))).

(** Two operands popped, [mid], and the push of its result. *)
Lemma binop_run mid reg r m x y vs :
  mid_ok mid reg x y r -> mwf m -> is_word x -> is_word y ->
  stack_at (mem m) (get_reg m ESP) (y :: x :: vs) -> get_reg m ESP + 8 < 2 ^ 32 ->
  exists m', exec_seg ([(1, Pop EBX); (1, Pop EAX)] ++ mid ++ [(1, Push (Z.of_nat reg))]) m = Some m' /\
    op_post m m' (u32 (eip m + (3 + seg_len mid))) (get_reg m ESP + 4) (r :: vs)
      (get_reg m ESP + 4) (get_reg m ESP + 8).
Proof.
  intros (Hlt & Hr & a' & c' & d' & Ha' & Hreg & Hmid) Hm Hx Hy Hst Hsp.
  destruct (Hmid (flags m) (mem m)) as [f' Hmid']. clear Hmid.
  destruct (mwf_regs m Hm) as (a & c & d & b & sp & bp & si & di & HR & ? & ? & ? & ? & ? & ? & ? & ?).
  destruct m as [R f mm e]; cbn [X86.regs X86.flags X86.mem X86.eip] in *. subst R.
  change (get_reg _ ESP) with sp in *.
  apply stack_at_cons in Hst as (Hsp0 & Hly & Hst). apply stack_at_cons in Hst as (Hsp1 & Hlx & Hst).
  rewrite !zlen_cons in *. pose proof (zlen_nonneg vs). unfold in_space, is_word in Hsp0, Hsp1, Hsp.
  destruct (store32_ok mm (sp + 4) r x) as (mm' & Hs & Hld & Hsame); [split; lia|done|].
  rewrite u32_small in Hld by done.
  destruct (Hreg c d) as (? & ? & Hrg); [done|done|].
  exists (M [a'; c' c; d' d; y; sp + 4; bp; si; di] f' mm' (u32 (e + (3 + seg_len mid)))).
  split.
  - cbn [app]. apply (seg_pop EBX 1 _ a c d b sp bp si di f mm e y); [done|split; lia|lia|done|].
    red_regs.
    apply (seg_pop EAX 1 _ a c d y (sp + 4) bp si di f mm _ x); [done|split; lia|lia|done|].
    red_regs. replace (sp + 4 + 4) with (sp + 8) by lia.
    rewrite Hmid'.
    eapply (seg_push reg 1 [] _ (sp + 8)); [done|done| |lia| |].
    + do 4 (destruct reg as [|reg]; [exact Hrg|]). lia.
    + replace (sp + 8 - 4) with (sp + 4) by lia. exact Hs.
    + cbn [exec_seg]; red_regs. replace (sp + 8 - 4) with (sp + 4) by lia.
      do 2 f_equal. u32_sums.
  - constructor; cbn [X86.eip X86.mem]; try reflexivity.
    + rewrite stack_at_cons. split_and!; [rewrite zlen_cons; split; lia|done|].
      apply (stack_at_same mm mm' (sp + 4) (sp + 4 + 4)); [done|lia|].
      by replace (sp + 4 + 4) with (sp + 8) in * by lia.
    + by replace (sp + 8) with (sp + 4 + 4) by lia.
    + constructor; cbn; [done|repeat constructor; unfold is_word in *; lia|apply u32_range].
Qed.

(** ** Arithmetic *)

(** What the two-operand instructions mean: [x] is below [y] on the stack. *)
Definition arith_sem (t : instr_token) (x y : Z) : option Z :=
  match t with
  | i_add => Some (u32 (x + y))
  | i_sub => Some (u32 (x - y))
  | i_mul => Some (u32 (x * y))
  | i_and => Some (Z.land x y)
  | i_or => Some (Z.lor x y)
  | i_xor => Some (Z.lxor x y)
  | i_div_u => if y =? 0 then None else Some (x / y)
  | i_rem_u => if y =? 0 then None else Some (x mod y)
  | i_div_s => if y =? 0 then None else Some (u32 (s32 x ÷ s32 y))
  | i_rem_s => if y =? 0 then None else Some (u32 (Z.rem (s32 x) (s32 y)))
  | i_rotl => Some (rotl32 x (y mod 32))
  | i_rotr => Some (rotl32 x ((32 - y mod 32) mod 32))
  | i_shl => Some (u32 (Z.shiftl x (y mod 32)))
  | i_shr_u => Some (Z.shiftr x (y mod 32))
  | i_shr_s => Some (u32 (Z.shiftr (s32 x) (y mod 32)))
  | _ => None
  end.

(** The instructions between the pops and the push, and the register pushed. *)
Definition arith_mid (t : instr_token) : seg * nat :=
  match t with
  | i_add => ([(2, Alu ADD EAX EBX)], 0%nat)
  | i_sub => ([(2, Alu SUB EAX EBX)], 0%nat)
  | i_mul => ([(2, Mul EBX)], 0%nat)
  | i_and => ([(2, Alu AND_ EAX EBX)], 0%nat)
  | i_or => ([(2, Alu OR_ EAX EBX)], 0%nat)
  | i_xor => ([(2, Alu XOR_ EAX EBX)], 0%nat)
  | i_div_u => ([(2, Alu XOR_ EDX EDX); (2, Div EBX)], 0%nat)
  | i_rem_u => ([(2, Alu XOR_ EDX EDX); (2, Div EBX)], 2%nat)
  | i_div_s => ([(2, Alu XOR_ EDX EDX); (2, Idiv EBX)], 0%nat)
  | i_rem_s => ([(2, Alu XOR_ EDX EDX); (2, Idiv EBX)], 2%nat)
  | i_rotl => ([(2, Mov ECX EBX); (2, ShiftCl ROL EAX)], 0%nat)
  | i_rotr => ([(2, Mov ECX EBX); (2, ShiftCl ROR EAX)], 0%nat)
  | i_shl => ([(2, Mov ECX EBX); (2, ShiftCl SHL EAX)], 0%nat)
  | i_shr_u => ([(2, Mov ECX EBX); (2, ShiftCl SHR EAX)], 0%nat)
  | i_shr_s => ([(2, Mov ECX EBX); (2, ShiftCl SAR EAX)], 0%nat)
  | _ => ([], 0%nat)
  end.

Definition binop_code (mid : seg * nat) : seg :=
  [(1, Pop EBX); (1, Pop EAX)] ++ mid.1 ++ [(1, Push (Z.of_nat mid.2))].

Ltac emit_seq :=
  lazymatch goal with
  | |- emits (_ +> _) _ _ => eapply emits_seq2; [emit_seq|emit_seq|reflexivity]
  | |- emits pop_two _ _ => unfold pop_two; emit_seq
  | |- emits (ins _) _ _ => apply emits_ins; eauto with x86enc
  | |- emits (push_ _) _ _ => apply emits_push; auto with x86enc
  | |- emits (pop_ _) _ _ => apply emits_pop; auto with x86enc
  | |- _ => idtac
  end.

Lemma emits_arith t x y r :
  arith_sem t x y = Some r ->
  emits (gen_arith t) (fun _ => binop_code (arith_mid t)) (-1).
Proof.
  destruct t; try discriminate; intros _; cbn [gen_arith];
    (eapply emits_ext; [|emit_seq]; reflexivity).
Qed.

Lemma land_word x y : is_word x -> is_word y -> is_word (Z.land x y).
Proof.
  unfold is_word. intros Hx Hy. split; [apply Z.land_nonneg; lia|].
  destruct (Z.eq_dec (Z.land x y) 0) as [->|Hne]; [lia|].
  apply Z.log2_lt_pow2; [pose proof (Z.land_nonneg x y); lia|].
  eapply Z.le_lt_trans; [apply Z.log2_land; lia|].
  apply Z.min_lt_iff. left. destruct (Z.eq_dec x 0) as [->|]; [cbn; lia|].
  apply Z.log2_lt_pow2; lia.
Qed.

Lemma log2_word x : is_word x -> Z.log2 x < 32.
Proof.
  unfold is_word. intros Hx. destruct (Z.eq_dec x 0) as [->|]; [cbn; lia|].
  apply Z.log2_lt_pow2; lia.
Qed.

Lemma word_of_log2 z : 0 <= z -> Z.log2 z < 32 -> is_word z.
Proof.
  intros H0 Hl. split; [done|]. destruct (Z.eq_dec z 0) as [->|]; [lia|].
  apply Z.log2_lt_pow2; lia.
Qed.

Lemma lor_word x y : is_word x -> is_word y -> is_word (Z.lor x y).
Proof.
  intros Hx Hy. pose proof (log2_word x Hx). pose proof (log2_word y Hy).
  unfold is_word in *. apply word_of_log2; [apply Z.lor_nonneg; lia|].
  rewrite Z.log2_lor by lia. lia.
Qed.

Lemma lxor_word x y : is_word x -> is_word y -> is_word (Z.lxor x y).
Proof.
  intros Hx Hy. pose proof (log2_word x Hx). pose proof (log2_word y Hy).
  unfold is_word in *. apply word_of_log2; [apply Z.lxor_nonneg; lia|].
  eapply Z.le_lt_trans; [apply Z.log2_lxor; lia|]. lia.
Qed.

Lemma div_word x y : is_word x -> 0 <= y -> is_word (x / y).
Proof.
  unfold is_word. intros Hx Hy. destruct (Z.eq_dec y 0) as [->|]; [rewrite Z.div_0_r; lia|].
  split; [apply Z.div_pos; lia|]. apply Z.div_lt_upper_bound; nia.
Qed.

Lemma shiftr_word x n : is_word x -> 0 <= n -> is_word (Z.shiftr x n).
Proof. intros Hx Hn. rewrite Z.shiftr_div_pow2 by done. apply div_word; [done|lia]. Qed.

#[export] Hint Resolve land_word lor_word lxor_word : cmem.

(** The quotient of a non-negative [int] by an [int] is in range. *)
Lemma quot_int x d : 0 <= x < 2 ^ 31 -> d <> 0 -> - 2 ^ 31 <= x ÷ d < 2 ^ 31.
Proof.
  intros Hx Hd. assert (Z.abs (x ÷ d) <= x) as H.
  { rewrite <- Z.quot_abs by done. rewrite (Z.abs_eq x) by lia.
    rewrite Z.quot_div_nonneg by lia. apply Z.div_le_upper_bound; nia. }
  lia.
Qed.

Lemma s32_nonneg x : is_word x -> 0 <= s32 x -> s32 x = x /\ x < 2 ^ 31.
Proof.
  unfold is_word, s32. intros Hx. rewrite u32_small by lia.
  destruct (Z.ltb_spec x (2 ^ 31)); lia.
Qed.

Lemma s32_nonzero y : is_word y -> y <> 0 -> s32 y <> 0.
Proof.
  unfold is_word, s32. intros Hy Hn. rewrite u32_small by lia.
  destruct (Z.ltb_spec y (2 ^ 31)); lia.
Qed.

(** The low byte of the count is all the shifts look at. *)
Lemma shift_count y : (y mod 256) mod 32 = y mod 32.
Proof. apply Z.mod_mod_divide. by exists 8. Qed.

Lemma falls_one n i m m1 m' :
  exec i (set_eip m (eip m + n)) = Some m1 -> m1 = m' -> eip m' = u32 (eip m + n) ->
  falls [(n, i)] m m'.
Proof. intros Hx -> He k. by apply (exec_seg_cons n i k m m'). Qed.

Lemma falls_two n1 i1 n2 i2 m m1 m2 :
  falls [(n1, i1)] m m1 -> falls [(n2, i2)] m1 m2 -> falls [(n1, i1); (n2, i2)] m m2.
Proof.
  intros H1 H2 k. change ([(n1, i1); (n2, i2)] ++ k) with ([(n1, i1)] ++ [(n2, i2)] ++ k).
  by rewrite H1, H2.
Qed.

Lemma seg_len_one n i : seg_len [(n, i)] = n.
Proof. unfold seg_len. cbn. lia. Qed.

Lemma seg_len_two n1 i1 n2 i2 : seg_len [(n1, i1); (n2, i2)] = n1 + n2.
Proof. unfold seg_len. cbn. lia. Qed.

Lemma alu_word op x y : is_word x -> is_word y -> is_word (alu_result op x y).1.
Proof. destruct op; cbn; auto with cmem. Qed.

Lemma alu_mid_ok op x y :
  is_word x -> is_word y -> mid_ok [(2, Alu op EAX EBX)] 0 x y (alu_result op x y).1.
Proof.
  intros Hx Hy. pose proof (alu_word op x y Hx Hy) as Hr.
  split_and!; [lia|done|]. exists (alu_result op x y).1, id, id.
  split_and!; [done|by intros|]. intros f mm. exists (Some (alu_result op x y).2).
  intros. rewrite seg_len_one. eapply falls_one; [|reflexivity|reflexivity].
  cbn [exec]. red_machine. destruct op; cbn in *; by rewrite (u32_small _ Hr).
Qed.

Lemma mul_mid_ok x y :
  is_word x -> is_word y -> mid_ok [(2, Mul EBX)] 0 x y (u32 (x * y)).
Proof.
  intros Hx Hy. split_and!; [lia|auto with cmem|].
  exists (u32 (x * y)), id, (fun _ => u32 (x * y / 2 ^ 32)).
  split_and!; [auto with cmem|intros; cbn; auto with cmem|].
  intros f mm. exists None. intros. rewrite seg_len_one.
  eapply falls_one; [by red_machine|reflexivity|reflexivity].
Qed.

(** [xor %edx,%edx] and a division. *)
Lemma xor_edx_falls x c d y sp bp si di f mm e :
  falls [(2, Alu XOR_ EDX EDX)] (M [x; c; d; y; sp; bp; si; di] f mm e)
    (M [x; c; 0; y; sp; bp; si; di] (Some (logic_flags 0)) mm (u32 (e + 2))).
Proof.
  eapply falls_one; [red_machine; reflexivity| |reflexivity]. by rewrite Z.lxor_nilpotent.
Qed.

Lemma div_mid_ok x y :
  is_word x -> is_word y -> y <> 0 ->
  mid_ok [(2, Alu XOR_ EDX EDX); (2, Div EBX)] 0 x y (x / y) /\
  mid_ok [(2, Alu XOR_ EDX EDX); (2, Div EBX)] 2 x y (x mod y).
Proof.
  intros Hx Hy Hn. assert (Hq : is_word (x / y)) by (apply div_word; unfold is_word in *; [done|lia]).
  assert (Hr : is_word (x mod y)).
  { pose proof (Z.mod_pos_bound x y). unfold is_word in *. lia. }
  assert (Hrun : forall f mm, exists f', forall c d sp bp si di e,
    falls [(2, Alu XOR_ EDX EDX); (2, Div EBX)] (M [x; c; d; y; sp; bp; si; di] f mm e)
      (M [x / y; c; x mod y; y; sp; bp; si; di] f' mm
         (u32 (e + seg_len [(2, Alu XOR_ EDX EDX); (2, Div EBX)])))).
  { intros f mm. exists None. intros. eapply falls_two; [apply xor_edx_falls|].
    eapply falls_one; [|reflexivity|cbn [X86.eip]; rewrite seg_len_two; u32_sums].
    red_machine. rewrite Z.mul_0_l, Z.add_0_l.
    destruct (Z.eqb_spec y 0); [done|]. unfold is_word in Hq, Hr.
    destruct (Z.leb_spec (2 ^ 32) (x / y)); [lia|]. cbn [orb].
    rewrite (u32_small (x / y)), (u32_small (x mod y)) by lia. do 2 f_equal.
    rewrite seg_len_two. u32_sums. }
  split; (split_and!; [lia|done|]); exists (x / y), id, (fun _ => x mod y);
    (split_and!; [done|by intros|exact Hrun]).
Qed.

(** The dividend is non-negative, so that the zero in [EDX] extends its sign. *)
Lemma idiv_mid_ok x y :
  is_word x -> is_word y -> y <> 0 -> 0 <= s32 x ->
  mid_ok [(2, Alu XOR_ EDX EDX); (2, Idiv EBX)] 0 x y (u32 (s32 x ÷ s32 y)) /\
  mid_ok [(2, Alu XOR_ EDX EDX); (2, Idiv EBX)] 2 x y (u32 (Z.rem (s32 x) (s32 y))).
Proof.
  intros Hx Hy Hn Hs. destruct (s32_nonneg x Hx Hs) as [-> Hlt].
  pose proof (s32_nonzero y Hy Hn) as Hd.
  pose proof (quot_int x (s32 y) ltac:(unfold is_word in Hx; lia) Hd) as Hq.
  assert (Hrun : forall f mm, exists f', forall c d sp bp si di e,
    falls [(2, Alu XOR_ EDX EDX); (2, Idiv EBX)] (M [x; c; d; y; sp; bp; si; di] f mm e)
      (M [u32 (x ÷ s32 y); c; u32 (Z.rem x (s32 y)); y; sp; bp; si; di] f' mm
         (u32 (e + seg_len [(2, Alu XOR_ EDX EDX); (2, Idiv EBX)])))).
  { intros f mm. exists None. intros. eapply falls_two; [apply xor_edx_falls|].
    eapply falls_one; [|reflexivity|cbn [X86.eip]; rewrite seg_len_two; u32_sums].
    red_exec. change (s32 0) with 0. rewrite Z.mul_0_l, Z.add_0_l.
    destruct (Z.eqb_spec (s32 y) 0); [done|].
    destruct (Z.ltb_spec (x ÷ s32 y) (- 2 ^ 31)); [lia|].
    destruct (Z.leb_spec (2 ^ 31) (x ÷ s32 y)); [lia|]. cbn [orb].
    do 2 f_equal. rewrite seg_len_two. u32_sums. }
  split; (split_and!; [lia|auto with cmem|]);
    exists (u32 (x ÷ s32 y)), id, (fun _ => u32 (Z.rem x (s32 y)));
    (split_and!; [auto with cmem|intros; cbn; auto with cmem|exact Hrun]).
Qed.

Lemma shift_word op x n : is_word x -> is_word (shift_result op x n).
Proof.
  intros Hx. pose proof (Z.mod_pos_bound n 32 ltac:(lia)).
  destruct op; cbn; unfold rotl32; auto with cmem. apply shiftr_word; [done|lia].
Qed.

Lemma shift_mid_ok op x y :
  is_word x -> is_word y ->
  mid_ok [(2, Mov ECX EBX); (2, ShiftCl op EAX)] 0 x y (shift_result op x y).
Proof.
  intros Hx Hy. pose proof (shift_word op x y Hx) as Hr.
  split_and!; [lia|done|]. exists (shift_result op x y), (fun _ => y), id.
  split_and!; [done|by intros|]. intros f mm. exists None. intros.
  eapply falls_two; [eapply falls_one; [by red_machine|reflexivity|reflexivity]|].
  eapply falls_one; [|reflexivity|cbn [X86.eip]; rewrite seg_len_two; u32_sums].
  red_machine. rewrite (u32_small y Hy).
  assert (shift_result op x (y mod 256) = shift_result op x y) as ->.
  { unfold shift_result. by rewrite shift_count. }
  rewrite (u32_small _ Hr). do 2 f_equal. rewrite seg_len_two. u32_sums.
Qed.

(** What the code of a division needs of its dividend, since it clears [EDX]
    instead of extending the sign of [EAX]. *)
Definition arith_pre (t : instr_token) (x : Z) : Prop :=
  match t with
  | i_div_s | i_rem_s => 0 <= s32 x
  | _ => True
  end.

Lemma arith_mid_ok t x y r :
  arith_sem t x y = Some r -> arith_pre t x -> is_word x -> is_word y ->
  mid_ok (arith_mid t).1 (arith_mid t).2 x y r.
Proof.
  intros Hsem Hpre Hx Hy.
  destruct t; try discriminate; cbn [arith_sem arith_pre] in *;
    try (destruct (Z.eqb_spec y 0); [discriminate|]); injection Hsem as <-; cbn [arith_mid fst snd].
  all: first [ by apply (alu_mid_ok ADD) | by apply (alu_mid_ok SUB) | by apply (alu_mid_ok AND_)
             | by apply (alu_mid_ok OR_) | by apply (alu_mid_ok XOR_) | by apply mul_mid_ok
             | by apply div_mid_ok | by apply idiv_mid_ok
             | by apply (shift_mid_ok ROL) | by apply (shift_mid_ok ROR)
             | by apply (shift_mid_ok SHL) | by apply (shift_mid_ok SHR)
             | by apply (shift_mid_ok SAR) ].
Qed.

(** ** Running what was emitted *)

(** The image has at [base + asm_i s] what the generator emitted from [s] to
    [s'], and the machine is about to execute it. *)
Record running (code : list Z) (base : Z) (s s' : gst) (m : machine) : Prop := {
  rn_ewf : ewf s;
  rn_code : code_at code base (base + asm_i s) (emitted s s');
  rn_eip : eip m = base + asm_i s;
  rn_mwf : mwf m;
}.

Lemma emits_run a P d code base s s' m m' :
  emits a P d -> a s = Ok s' -> running code base s s' m -> exec_seg (P s) m = Some m' ->
  steps code base m m' /\ u32 (eip m + seg_len (P s)) = base + asm_i s' /\
  stkh s' = s32 (stkh s + d).
Proof.
  intros Ha Hs [Hwf Hcode Heip Hm] Hx.
  destruct (Ha s s' Hwf Hs) as ((bs & Hc & Hap) & Hf & Hk & Hwf').
  rewrite (appended_emitted s s' bs) in Hcode by (done || apply Hwf).
  rewrite <- Heip in Hcode. split_and!; [by eapply exec_seg_steps| |done].
  rewrite (is_code_len _ _ Hc), Heip. destruct Hap as (Hi & _).
  destruct Hcode as (pre & post & -> & Ha' & Hb0 & Hb). rewrite !zlen_app in Hb.
  pose proof (zlen_nonneg pre). pose proof (zlen_nonneg post). pose proof (zlen_nonneg bs).
  rewrite u32_small; lia.
Qed.

(** An operator of two operands, given the code between the pops and the push. *)
Lemma binop_correct a mid reg code base s s' m x y r vs :
  emits a (fun _ => binop_code (mid, reg)) (-1) -> mid_ok mid reg x y r ->
  is_word x -> is_word y -> a s = Ok s' -> running code base s s' m ->
  stack_at (mem m) (get_reg m ESP) (y :: x :: vs) -> get_reg m ESP + 8 < 2 ^ 32 ->
  exists m', steps code base m m' /\
    op_post m m' (base + asm_i s') (get_reg m ESP + 4) (r :: vs)
      (get_reg m ESP + 4) (get_reg m ESP + 8) /\
    stkh s' = s32 (stkh s - 1).
Proof.
  intros Ha Hmid Hx Hy Hs Hrun Hst Hsp.
  destruct (binop_run mid reg r m x y vs) as (m' & Hm' & Hpost); try done; [apply Hrun|].
  destruct (emits_run a _ (-1) code base s s' m m' Ha Hs Hrun Hm') as (Hsteps & He & Hk).
  exists m'. split_and!; [done| |done].
  replace (base + asm_i s') with (u32 (eip m + (3 + seg_len mid))); [done|].
  rewrite <- He. f_equal. unfold binop_code. cbn [fst snd].
  rewrite !seg_len_app, seg_len_two, seg_len_one. lia.
Qed.


(** A machine about to run code at address 0, with the words [vs] on its stack
    at address 4096, [EBP] at [bp], and the memory [data] at address 8192. *)
Definition bytes_at (a : Z) (bs : list Z) : gmap Z Z :=
  list_to_map (imap (fun i b => (a + Z.of_nat i, b)) bs).

Definition demo_machine_at (sp : Z) (vs : list Z) (bp : Z) (data : list Z) : machine :=
  {| regs := [0; 0; 0; 0; sp; bp; zlen data; 8192]; flags := None;
     mem := bytes_at 4096 (concat (le_bytes 4 <$> vs)) ∪ bytes_at 8192 data; eip := 0 |}.

Definition demo_machine : list Z -> Z -> list Z -> machine := demo_machine_at 4096.

Definition demo_state : gst := gst_init (replicate 64 0).

(** The state after one token. *)
Definition demo_gen (prog : list Z) (t : instr_token) : gst :=
  match gen_token prog 0 false (fun _ => 0) 0 demo_state t with
  | Ok (_, s) => s
  | _ => demo_state
  end.

Lemma demo_stack sp vs bp data :
  forallb (fun i => bool_decide (load32 (mem (demo_machine_at sp vs bp data)) (4096 + 4 * Z.of_nat i)
                                 = vs !! i)) (List.seq 0 (length vs)) = true ->
  zlen vs < 1024 -> stack_at (mem (demo_machine_at sp vs bp data)) 4096 vs.
Proof.
  intros H Hl. split; [unfold in_space; pose proof (zlen_nonneg vs); lia|].
  intros i v Hi. rewrite forallb_forall in H. rewrite <- Hi.
  specialize (H i). rewrite bool_decide_eq_true in H. apply H, in_seq.
  apply lookup_lt_Some in Hi. lia.
Qed.

Lemma demo_running s' sp vs bp data :
  bool_decide (Forall (fun r => 0 <= r < 2 ^ 32) (regs (demo_machine_at sp vs bp data))) = true ->
  emitted demo_state s' = take (Z.to_nat (asm_i s')) (buf s') -> zlen (buf s') = 64 ->
  running (buf s') 0 demo_state s' (demo_machine_at sp vs bp data).
Proof.
  intros Hr%bool_decide_eq_true He Hl. constructor.
  - constructor; vm_compute; intuition discriminate.
  - rewrite He. exists [], (drop (Z.to_nat (asm_i s')) (buf s')).
    cbn [app]. rewrite take_drop. split_and!; cbn; try done; lia.
  - done.
  - constructor; [done|exact Hr|cbn; unfold is_word; lia].
Qed.

(** The two sides of a concrete run. *)
Ltac demo_run := apply demo_running; by vm_compute.


(** ** Comparisons *)

Definition compare_sem (t : instr_token) (x y : Z) : option bool :=
  match t with
  | i_eq => Some (x =? y)
  | i_ne => Some (negb (x =? y))
  | i_lt_u => Some (x <? y)
  | i_le_u => Some (x <=? y)
  | i_gt_u => Some (y <? x)
  | i_ge_u => Some (y <=? x)
  | i_lt_s => Some (s32 x <? s32 y)
  | i_le_s => Some (s32 x <=? s32 y)
  | i_gt_s => Some (s32 y <? s32 x)
  | i_ge_s => Some (s32 y <=? s32 x)
  | _ => None
  end.

Definition compare_cc (t : instr_token) : cc :=
  match t with
  | i_eq => CC_Z | i_ne => CC_NE | i_lt_u => CC_B | i_le_u => CC_BE | i_gt_u => CC_A
  | i_ge_u => CC_AE | i_lt_s => CC_L | i_le_s => CC_LE | i_gt_s => CC_G | _ => CC_GE
  end.

Lemma sub_zf x y : is_word x -> is_word y -> zf (sub_flags x y) = (x =? y).
Proof.
  unfold is_word. intros Hx Hy. cbn. destruct (Z.eqb_spec x y) as [->|Hne].
  - by rewrite Z.sub_diag.
  - apply Z.eqb_neq. unfold u32. intros H. apply Hne.
    apply Z.mod_divide in H as [k Hk]; [|lia]. assert (k = 0) as -> by nia. lia.
Qed.

Lemma sub_cf x y : is_word x -> is_word y -> cf (sub_flags x y) = (x <? y).
Proof. unfold is_word. intros. cbn. by rewrite !u32_small by lia. Qed.

Lemma s32_cases x : is_word x -> s32 x = if x <? 2 ^ 31 then x else x - 2 ^ 32.
Proof. intros H. unfold s32. by rewrite u32_small by apply H. Qed.

(** Sign and overflow of a subtraction order the operands as signed numbers. *)
Lemma sub_lt x y :
  is_word x -> is_word y -> xorb (sf (sub_flags x y)) (of_ (sub_flags x y)) = (s32 x <? s32 y).
Proof.
  intros Hx Hy. cbn [sf of_ sub_flags]. unfold sign.
  assert (Hs : s32 (x - y) = s32 (s32 x - s32 y)).
  { apply u32_eq_s32. unfold u32. rewrite Zminus_mod, (Zminus_mod (s32 x)).
    fold (u32 x) (u32 y) (u32 (s32 x)) (u32 (s32 y)). by rewrite !u32_s32. }
  pose proof (s32_range x). pose proof (s32_range y).
  assert (Hsg : (2 ^ 31 <=? u32 (x - y)) = (s32 (x - y) <? 0)).
  { unfold s32 at 1. pose proof (u32_range (x - y)).
    destruct (Z.ltb_spec (u32 (x - y)) (2 ^ 31)), (Z.leb_spec (2 ^ 31) (u32 (x - y))); try lia. }
  rewrite Hsg, Hs. set (a := s32 x) in *. set (b := s32 y) in *.
  pose proof (s32_range (a - b)).
  assert (exists k, s32 (a - b) = a - b + k * 2 ^ 32) as [k Hk].
  { unfold s32, u32. exists (if (a - b) mod 2 ^ 32 <? 2 ^ 31 then - ((a - b) / 2 ^ 32)
                             else - ((a - b) / 2 ^ 32) - 1).
    pose proof (Z.div_mod (a - b) (2 ^ 32) ltac:(lia)).
    destruct ((a - b) mod 2 ^ 32 <? 2 ^ 31); lia. }
  rewrite Hk in *. assert (k = -1 \/ k = 0 \/ k = 1) by lia.
  repeat zcase; cbn; try reflexivity; lia.
Qed.

Lemma compare_cond t x y b :
  compare_sem t x y = Some b -> is_word x -> is_word y ->
  cond (sub_flags x y) (compare_cc t) = b.
Proof.
  intros Hsem Hx Hy.
  destruct t; try discriminate; cbn [compare_sem] in Hsem; injection Hsem as <-;
    cbn [compare_cc cond];
    rewrite ?(sub_zf x y Hx Hy), ?(sub_cf x y Hx Hy), ?(sub_lt x y Hx Hy);
    try done; pose proof (s32_cases x Hx); pose proof (s32_cases y Hy);
    unfold is_word in *; repeat zcase; cbn; try reflexivity; lia.
Qed.

Definition cmp_mid (c : cc) : seg := [(2, Alu XOR_ ECX ECX); (2, Cmp EAX EBX); (3, Setcc c CL)].

Lemma emits_compare t x y b :
  compare_sem t x y = Some b ->
  emits (gen_compare t) (fun _ => binop_code (cmp_mid (compare_cc t), 1%nat)) (-1).
Proof.
  destruct t; try discriminate; intros _; cbn [gen_compare]; unfold gen_cmp;
    (eapply emits_ext; [|emit_seq]; reflexivity).
Qed.

Lemma cmp_mid_ok c x y b :
  is_word x -> is_word y -> cond (sub_flags x y) c = b ->
  mid_ok (cmp_mid c) 1 x y (Z.b2z b).
Proof.
  intros Hx Hy Hb. assert (is_word (Z.b2z b)) by (destruct b; done).
  split_and!; [lia|done|]. exists x, (fun _ => Z.b2z b), id.
  split_and!; [done|by intros|]. intros f mm. exists (Some (sub_flags x y)).
  intros c0 d sp bp si di e k. cbn [app cmp_mid]. do 2 seg_step.
  eapply exec_seg_cons; [red_machine; reflexivity|reflexivity|].
  rewrite Hb, Z.lxor_nilpotent. cbn [X86.eip]. do 2 f_equal; [by destruct b|].
  unfold seg_len, cmp_mid. cbn [foldr fst]. u32_sums.
Qed.

(** C18. The code emitted for a comparison token pushes 1 if the comparison holds
    of [x] and [y], as words for the unsigned ones and as two's-complement
    numbers for the signed ones, and 0 otherwise. *)
Theorem compare_code_correct prog base gen_info indet place place' code s s' m t x y b vs :
  compare_sem t x y = Some b -> is_word x -> is_word y ->
  gen_token prog base gen_info indet place s t = Ok (place', s') ->
  running code base s s' m ->
  stack_at (mem m) (get_reg m ESP) (y :: x :: vs) -> get_reg m ESP + 8 < 2 ^ 32 ->
  place' = place /\ exists m', steps code base m m' /\
    op_post m m' (base + asm_i s') (get_reg m ESP + 4) (Z.b2z b :: vs)
      (get_reg m ESP + 4) (get_reg m ESP + 8) /\
    stkh s' = s32 (stkh s - 1).
Proof.
  intros Hsem Hx Hy Hg Hrun Hst Hsp.
  assert ((s' ← gen_compare t s; Ok (place, s')) = Ok (place', s')) as Hg'.
  { destruct t; try discriminate; exact Hg. }
  inv_ok. split; [done|].
  pose proof (emits_compare t x y b Hsem) as Hem.
  pose proof (cmp_mid_ok _ x y b Hx Hy (compare_cond t x y b Hsem Hx Hy)) as Hmid.
  by eapply binop_correct.
Qed.

Lemma compare_code_correct_witness :
  compare_sem i_lt_s (2 ^ 32 - 3) 2 = Some true /\
  exists m', steps (buf (demo_gen [] i_lt_s)) 0 (demo_machine [2; 2 ^ 32 - 3] 0 []) m' /\
             stack_at (mem m') 4100 [1].
Proof.
  split; [done|].
  destruct (compare_code_correct [] 0 false (fun _ => 0) 0 0 (buf (demo_gen [] i_lt_s)) demo_state
    (demo_gen [] i_lt_s) (demo_machine [2; 2 ^ 32 - 3] 0 []) i_lt_s (2 ^ 32 - 3) 2 true [])
    as (_ & m' & Hs & Hp & _).
  - reflexivity.
  - by unfold is_word.
  - by unfold is_word.
  - vm_compute; reflexivity.
  - demo_run.
  - by apply demo_stack; vm_compute.
  - vm_compute; reflexivity.
  - exists m'. split; [exact Hs|exact (op_stack _ _ _ _ _ _ _ Hp)].
Defined.
