(* ===== verification/MemProofs.v ===== *)
(** * The code emitted for the accesses to a program's memory

    A SUME32 program has a memory of its own: [EDI] is its address and [ESI] its
    size.  An access computes a byte offset, compares it with the size, and
    jumps to [trapret] unless it is below. *)

From stdpp Require Import base list strings gmap.
From Stdlib Require Import ZArith Lia.
From S2P Require Import Prelude Tokens FromIr Instrs X86 ToAsm InstrsProofs X86Proofs EmitProofs OpProofs.

(** ** Prefixes of the emitted code *)

Lemma is_code_prefix bs l1 l2 :
  is_code bs (l1 ++ l2) -> exists b1 b2, bs = b1 ++ b2 /\ is_code b1 l1.
Proof.
  revert bs. induction l1 as [|[n i] l1 IH]; intros bs H; [exists [], bs; by repeat constructor|].
  inversion H; subst. destruct (IH bs0) as (b1 & b2 & -> & Hc); [done|].
  exists (b ++ b1), b2. rewrite app_assoc. split; [done|by constructor].
Qed.

Lemma code_at_prefix code base a b1 b2 : code_at code base a (b1 ++ b2) -> code_at code base a b1.
Proof.
  intros (pre & post & -> & -> & H). exists pre, (b2 ++ post).
  rewrite <- app_assoc in *. done.
Qed.

(** Running the beginning of what was emitted. *)
Lemma emits_run_prefix a P d l1 l2 code base s s' m m' :
  emits a P d -> a s = Ok s' -> running code base s s' m ->
  P s = l1 ++ l2 -> exec_seg l1 m = Some m' -> steps code base m m'.
Proof.
  intros Ha Hs [Hwf Hcode Heip Hm] HP Hx.
  destruct (Ha s s' Hwf Hs) as ((bs & Hc & Hap) & _).
  rewrite (appended_emitted s s' bs) in Hcode by (done || apply Hwf).
  rewrite HP in Hc. apply is_code_prefix in Hc as (b1 & b2 & -> & Hc).
  apply code_at_prefix in Hcode. rewrite <- Heip in Hcode. by eapply exec_seg_steps.
Qed.

(** ** The bounds check *)

Definition check_code (base trap_a i : Z) : seg :=
  [(2, Cmp EAX ESI); (6, Jcc CC_AE (s32 (trap_a - (base + (i + 2)) - 6)))].

Lemma emits_check base :
  emits (gen_check base)
    (fun s => check_code base (trapret_addr s) (asm_i s) ++ [(2, Alu ADD EAX EDI)]) 0.
Proof.
  unfold gen_check. eapply emits_ext; [|eapply emits_seq_const].
  2:{ eapply (emits_seq _ _ (fun _ => [(2, Cmp EAX ESI)])
        (fun s => [(6, Jcc CC_AE (s32 (trapret_addr s - (base + asm_i s) - 6)))])
        (fun s => [(6, Jcc CC_AE (s32 (trapret_addr s - (base + (asm_i s + 2)) - 6)))]) 0 0).
      - apply (emits_ins (cmp_r32_r32 EAX ESI)). auto with x86enc.
      - apply (emits_at (fun s => jae_rel (base + asm_i s) (trapret_addr s))
                 (fun s => Jcc CC_AE (s32 (trapret_addr s - (base + asm_i s) - 6)))).
        intros s. constructor.
      - reflexivity.
      - intros s s' Hf Hi _. rewrite seg_len_one in Hi. by rewrite (fr_trap _ _ Hf), Hi. }
  - reflexivity.
  - apply (emits_ins (add_r32_r32 EAX EDI)). auto with x86enc.
  - reflexivity.
Qed.

(** The check after a fragment that always emits [pre]. *)
Lemma emits_checked a base pre d :
  emits a (fun _ => pre) d ->
  emits (a +> gen_check base)
    (fun s => pre ++ check_code base (trapret_addr s) (asm_i s + seg_len pre) ++
              [(2, Alu ADD EAX EDI)]) d.
Proof.
  intros Ha. eapply emits_seq; [exact Ha|apply emits_check|lia|].
  intros s s' Hf Hi _. cbn beta in *. by rewrite (fr_trap _ _ Hf), Hi.
Qed.

Lemma jump_target b d n : u32 (u32 (b + n) + s32 (d - b - n)) = u32 d.
Proof.
  rewrite u32_add_l. unfold u32 at 1. rewrite <- Zplus_mod_idemp_r. fold (u32 (s32 (d - b - n))).
  rewrite u32_s32. unfold u32. rewrite Zplus_mod_idemp_r. f_equal. lia.
Qed.

Section check.
Context (off sz mb c d b sp bp e base trap_a i : Z) (f : option flagset) (mm : gmap Z Z).
Hypothesis Hoff : is_word off.
Hypothesis Hsz : is_word sz.

Lemma check_pass :
  off < sz ->
  falls (check_code base trap_a i ++ [(2, Alu ADD EAX EDI)])
    (M [off; c; d; b; sp; bp; sz; mb] f mm e)
    (M [u32 (off + mb); c; d; b; sp; bp; sz; mb] (Some (add_flags off mb)) mm (u32 (e + 10))).
Proof.
  intros Hlt k. cbn [app check_code]. seg_step.
  eapply exec_seg_cons.
  - red_exec. cbn [cond]. rewrite sub_cf by done. destruct (Z.ltb_spec off sz); [|lia]. cbn [negb]. reflexivity.
  - reflexivity.
  - seg_step. f_equal. f_equal; [by rewrite u32_idem|u32_sums].
Qed.

(** The jump is relative to where the generator placed it. *)
Lemma check_fail :
  sz <= off -> e = u32 (base + i) ->
  exec_seg (check_code base trap_a i) (M [off; c; d; b; sp; bp; sz; mb] f mm e) =
  Some (M [off; c; d; b; sp; bp; sz; mb] (Some (sub_flags off sz)) mm (u32 trap_a)).
Proof.
  intros Hge ->. unfold check_code. seg_step. cbn [exec_seg]. red_exec. cbn [cond].
  rewrite sub_cf by done. destruct (Z.ltb_spec off sz); [lia|]. cbn [negb].
  replace (trap_a - (base + (i + 2)) - 6) with (trap_a - (base + i) - 8) by lia.
  replace (u32 (u32 (u32 (u32 (u32 (base + i) + 2) + 6)) + s32 (trap_a - (base + i) - 8)))
    with (u32 trap_a); [by destruct (_ =? _)|].
  rewrite u32_idem. rewrite <- (jump_target (base + i) trap_a 8). f_equal. f_equal. u32_sums.
Qed.
End check.

(** ** Offsets *)

(** The shift of an index into a byte offset, for elements of [2 ^ k] bytes. *)
Definition shl_code (k : Z) : seg := if k =? 0 then [] else [(3, ShlImm EAX k)].

Definition offset (k idx : Z) : Z := u32 (idx * 2 ^ k).

Lemma offset_word k idx : is_word (offset k idx).
Proof. apply u32_range. Qed.

(** An element whose offset passes the check is inside a memory whose size is a
    multiple of the size of the elements. *)
Lemma offset_fits k idx sz :
  0 <= k <= 32 -> (2 ^ k | sz) -> offset k idx < sz -> offset k idx + 2 ^ k <= sz.
Proof.
  intros Hk [q ->] Hlt. unfold offset, u32 in *.
  assert (exists p, (idx * 2 ^ k) mod 2 ^ 32 = p * 2 ^ k) as [p Hp].
  { exists (idx mod 2 ^ (32 - k)). replace (2 ^ 32) with (2 ^ (32 - k) * 2 ^ k).
    - by rewrite Zmult_mod_distr_r.
    - rewrite <- Z.pow_add_r by lia. f_equal. lia. }
  rewrite Hp in *. assert (0 < 2 ^ k) as H0 by (apply Z.pow_pos_nonneg; lia).
  apply Z.mul_lt_mono_pos_r in Hlt; [|done]. nia.
Qed.

(** From the element index on the stack or in [EAX] to its byte offset. *)
Lemma shl_falls k idx c d b sp bp si di f mm e :
  0 <= k < 8 -> is_word idx -> exists f',
  falls (shl_code k) (M [idx; c; d; b; sp; bp; si; di] f mm (u32 e))
    (M [offset k idx; c; d; b; sp; bp; si; di] f' mm (u32 (e + seg_len (shl_code k)))).
Proof.
  intros Hk Hi. unfold shl_code, offset. destruct (Z.eqb_spec k 0) as [->|Hne].
  - exists f. intros l. cbn [app]. rewrite Z.mul_1_r, (u32_small idx) by done.
    by rewrite Z.add_0_r.
  - exists None. rewrite seg_len_one. eapply falls_one; [red_exec; reflexivity| |].
    + cbn [shift_result]. rewrite Z.mod_small, Z.shiftl_mul_pow2, !u32_idem, u32_add_l by lia.
      reflexivity.
    + cbn [X86.eip]. by rewrite u32_add_l.
Qed.

(** ** Loads *)

(** The shift, the bytes read, and whether they are sign-extended. *)
Definition load_spec (t : instr_token) : option (Z * nat * bool) :=
  match t with
  | i_ld32 => Some (2, 4%nat, false)
  | i_ld16_s => Some (1, 2%nat, true)
  | i_ld16_u => Some (1, 2%nat, false)
  | i_ld8_s => Some (0, 1%nat, true)
  | i_ld8_u => Some (0, 1%nat, false)
  | _ => None
  end.

Definition load_ins (n : nat) (sg : bool) : Z * x86 :=
  if decide (n = 4%nat) then (2, Load EAX EAX) else (3, LoadX sg n EAX EAX).

Definition loaded (sg : bool) (n : nat) (bs : list Z) : Z :=
  u32 (if sg then sext n (le_value bs) else le_value bs).

Lemma emits_load base t k n sg :
  load_spec t = Some (k, n, sg) ->
  emits (gen_memory base t)
    (fun s => ([(1, Pop EAX)] ++ shl_code k) ++
              check_code base (trapret_addr s) (asm_i s + (1 + seg_len (shl_code k))) ++
              [(2, Alu ADD EAX EDI)] ++ [load_ins n sg] ++ [(1, Push EAX)]) 0.
Proof.
  intros Ht.
  destruct t; try discriminate; injection Ht as <- <- <-; cbn [gen_memory];
    (eapply emits_ext; [|eapply emits_seq_const; [eapply emits_seq_const;
       [eapply emits_checked; emit_seq|emit_seq|reflexivity]|emit_seq|reflexivity]]; reflexivity).
Qed.

Lemma load_falls n sg addr c d b sp bp si di f mm e bs :
  (n = 4%nat -> sg = false) -> load n mm addr = Some bs ->
  falls [load_ins n sg] (M [addr; c; d; b; sp; bp; si; di] f mm e)
    (M [loaded sg n bs; c; d; b; sp; bp; si; di] f mm (u32 (e + (load_ins n sg).1))).
Proof.
  intros Hn Hl. unfold load_ins. destruct (decide (n = 4%nat)) as [->|].
  - rewrite Hn by done. eapply falls_one; [|reflexivity|reflexivity].
    red_exec. unfold load32. rewrite Hl. reflexivity.
  - eapply falls_one; [|reflexivity|reflexivity]. red_exec. by rewrite Hl.
Qed.

Lemma idx_falls k idx a c d b sp bp si di f mm e :
  0 <= k < 8 -> is_word idx -> in_space sp 4 -> sp + 4 < 2 ^ 32 -> load32 mm sp = Some idx ->
  exists f',
  falls ([(1, Pop EAX)] ++ shl_code k) (M [a; c; d; b; sp; bp; si; di] f mm e)
    (M [offset k idx; c; d; b; sp + 4; bp; si; di] f' mm
       (u32 (e + (1 + seg_len (shl_code k))))).
Proof.
  intros Hk Hi Hs Hsp Hl.
  destruct (shl_falls k idx c d b (sp + 4) bp si di f mm (e + 1) Hk Hi) as [f' Hf].
  exists f'. intros l. rewrite <- app_assoc. cbn [app].
  eapply seg_pop; [done|done|done|exact Hl|]. red_regs. rewrite Hf.
  do 3 f_equal. lia.
Qed.

(** Control is at the trap handler; nothing the handler uses has changed. *)
Record trap_post (s : gst) (m m' : machine) : Prop := {
  tr_eip : eip m' = u32 (trapret_addr s);
  tr_mem : mem m' = mem m;
  tr_bp : get_reg m' EBP = get_reg m EBP;
  tr_mwf : mwf m';
}.

(** The access from the check on, for the fragments that begin with [pre] and
    leave the offset in [EAX]. *)
Lemma check_trap P pre l a dh code base s s' m off c d b sp bp sz mb f' :
  emits a P dh -> a s = Ok s' -> running code base s s' m ->
  P s = pre ++ check_code base (trapret_addr s) (asm_i s + seg_len pre) ++ l ->
  falls pre m (M [off; c; d; b; sp; bp; sz; mb] f' (mem m) (u32 (eip m + seg_len pre))) ->
  get_reg m EBP = bp ->
  Forall is_word [off; c; d; b; sp; bp; sz; mb] -> sz <= off ->
  exists m', steps code base m m' /\ trap_post s m m'.
Proof.
  intros Ha Hs Hrun HP Hpre Hbp Hw Hge.
  set (m' := M [off; c; d; b; sp; bp; sz; mb] (Some (sub_flags off sz)) (mem m)
                (u32 (trapret_addr s))).
  pose proof (rn_eip _ _ _ _ _ Hrun) as He.
  exists m'. split.
  - eapply (emits_run_prefix a P dh
      (pre ++ check_code base (trapret_addr s) (asm_i s + seg_len pre)) l); eauto.
    + by rewrite <- app_assoc.
    + rewrite Hpre. rewrite !Forall_cons in Hw. apply check_fail; try tauto.
      f_equal. lia.
  - constructor; subst m'; cbn; [done|done|done|].
    constructor; cbn; [done|exact Hw|apply u32_range].
Qed.

Lemma load_spec_range t k n sg :
  load_spec t = Some (k, n, sg) ->
  0 <= k < 8 /\ (n = 4%nat -> sg = false) /\ Z.of_nat n = 2 ^ k.
Proof. destruct t; try discriminate; intros [= <- <- <-]; cbn; split_and!; done || lia. Qed.

(** The access that passes the check, and the push of what it read. *)
Lemma load_run base trap_a i k n sg m idx vs bs :
  0 <= k < 8 -> (n = 4%nat -> sg = false) -> mwf m -> is_word idx ->
  stack_at (mem m) (get_reg m ESP) (idx :: vs) -> get_reg m ESP + 4 < 2 ^ 32 ->
  offset k idx < get_reg m ESI ->
  load n (mem m) (u32 (offset k idx + get_reg m EDI)) = Some bs ->
  let l := ([(1, Pop EAX)] ++ shl_code k) ++ check_code base trap_a i ++
           [(2, Alu ADD EAX EDI)] ++ [load_ins n sg] ++ [(1, Push EAX)] in
  exists m', exec_seg l m = Some m' /\
    op_post m m' (u32 (eip m + seg_len l)) (get_reg m ESP) (loaded sg n bs :: vs)
      (get_reg m ESP) (get_reg m ESP + 4).
Proof.
  intros Hk Hn Hm Hi Hst Hsp Hlt Hld l.
  destruct (mwf_regs m Hm) as (a & c & d & b & sp & bp & si & di & HR & ? & ? & ? & ? & ? & ? & ? & ?).
  destruct m as [R f mm e]; cbn [X86.regs X86.flags X86.mem X86.eip] in *. subst R.
  change (get_reg _ ESP) with sp in *. change (get_reg _ ESI) with si in *.
  change (get_reg _ EDI) with di in *.
  apply stack_at_cons in Hst as (Hsp0 & Hli & Hst). rewrite zlen_cons in Hsp0.
  pose proof (zlen_nonneg vs). unfold in_space in Hsp0.
  assert (Hin : in_space sp 4) by (split; lia).
  destruct (idx_falls k idx a c d b sp bp si di f mm e) as [f' Hpre]; [done..|].
  destruct (store32_ok mm sp (loaded sg n bs) idx Hin Hli) as (mm' & Hs & Hl' & Hsame).
  unfold loaded in Hl' at 1. rewrite u32_idem in Hl'.
  set (r := loaded sg n bs) in *. set (off := offset k idx) in *.
  exists (M [r; c; d; b; sp; bp; si; di] (Some (add_flags off di)) mm' (u32 (e + seg_len l))).
  split.
  - subst l. rewrite Hpre. rewrite (app_assoc (check_code _ _ _)), check_pass by (done || apply offset_word).
    rewrite (load_falls n sg) with (bs := bs) by done. fold r.
    eapply (seg_push 0 1 [] _ (sp + 4)); [done|done|reflexivity|lia| |].
    + by replace (sp + 4 - 4) with sp by lia.
    + cbn [exec_seg]. red_regs. replace (sp + 4 - 4) with sp by lia. do 2 f_equal.
      rewrite !seg_len_app, !seg_len_one. unfold check_code. rewrite seg_len_two. cbn [fst].
      destruct (load_ins n sg) as [n1 i1]. rewrite seg_len_one. cbn [fst]. u32_sums.
  - constructor; cbn [X86.eip X86.mem]; try reflexivity.
    + rewrite stack_at_cons, zlen_cons. split_and!; [split; lia|done|].
      apply (stack_at_same mm mm' sp (sp + 4)); [done|lia|done].
    + done.
    + assert (is_word r) by apply u32_range.
      constructor; cbn; [done|by repeat (apply Forall_cons_2; [done|])|apply u32_range].
Qed.

(** The index popped and shifted, from the machine's point of view. *)
Lemma idx_prefix k idx m vs :
  0 <= k < 8 -> is_word idx -> mwf m ->
  stack_at (mem m) (get_reg m ESP) (idx :: vs) -> get_reg m ESP + 4 < 2 ^ 32 ->
  exists c d b f', Forall is_word [offset k idx; c; d; b; get_reg m ESP + 4; get_reg m EBP;
                                   get_reg m ESI; get_reg m EDI] /\
    falls ([(1, Pop EAX)] ++ shl_code k) m
      (M [offset k idx; c; d; b; get_reg m ESP + 4; get_reg m EBP; get_reg m ESI; get_reg m EDI]
         f' (mem m) (u32 (eip m + seg_len ([(1, Pop EAX)] ++ shl_code k)))).
Proof.
  intros Hk Hi Hm Hst Hsp.
  destruct (mwf_regs m Hm) as (a & c & d & b & sp & bp & si & di & HR & ? & ? & ? & ? & ? & ? & ? & ?).
  destruct m as [R f mm e]; cbn [X86.regs X86.flags X86.mem X86.eip] in *. subst R.
  change (get_reg _ ESP) with sp in *. change (get_reg _ EBP) with bp in *.
  change (get_reg _ ESI) with si in *. change (get_reg _ EDI) with di in *.
  apply stack_at_cons in Hst as (Hsp0 & Hli & Hst).
  rewrite zlen_cons in Hsp0. pose proof (zlen_nonneg vs). unfold in_space in Hsp0.
  destruct (idx_falls k idx a c d b sp bp si di f mm e) as [f' Hpre]; try done; [split; lia|].
  exists c, d, b, f'. split.
  - unfold is_word in *. rewrite !Forall_cons. pose proof (offset_word k idx). unfold is_word in *.
    split_and!; try apply Forall_nil_2; try lia.
  - by rewrite seg_len_app, seg_len_one.
Qed.



(** ** Stores *)

(** The shift and the bytes written. *)
Definition store_spec (t : instr_token) : option (Z * nat) :=
  match t with
  | str32 => Some (2, 4%nat)
  | str8 => Some (0, 1%nat)
  | _ => None
  end.

Definition store_ins (n : nat) : Z * x86 :=
  (2, if decide (n = 4%nat) then Store EAX EBX else Store8 EAX BL).

Definition store_prefix (k : Z) : seg := [(1, Pop EBX)] ++ [(1, Pop EAX)] ++ shl_code k.

Lemma emits_store base t k n :
  store_spec t = Some (k, n) ->
  emits (gen_memory base t)
    (fun s => store_prefix k ++
              check_code base (trapret_addr s) (asm_i s + seg_len (store_prefix k)) ++
              [(2, Alu ADD EAX EDI)] ++ [store_ins n]) (-2).
Proof.
  intros Ht.
  destruct t; try discriminate; injection Ht as <- <-; cbn [gen_memory];
    (eapply emits_ext; [|eapply emits_seq_const; [eapply emits_checked; emit_seq|emit_seq|reflexivity]];
     reflexivity).
Qed.

Lemma store_prefix_falls k idx v m vs :
  0 <= k < 8 -> is_word idx -> is_word v -> mwf m ->
  stack_at (mem m) (get_reg m ESP) (v :: idx :: vs) -> get_reg m ESP + 8 < 2 ^ 32 ->
  exists c d f', Forall is_word [offset k idx; c; d; v; get_reg m ESP + 8; get_reg m EBP;
                                 get_reg m ESI; get_reg m EDI] /\
    falls (store_prefix k) m
      (M [offset k idx; c; d; v; get_reg m ESP + 8; get_reg m EBP; get_reg m ESI; get_reg m EDI]
         f' (mem m) (u32 (eip m + seg_len (store_prefix k)))).
Proof.
  intros Hk Hi Hv Hm Hst Hsp. pose proof (offset_word k idx) as Ho.
  pose proof (mwf_words m Hm) as Hw.
  destruct (mwf_regs m Hm) as (a & c & d & b & sp & bp & si & di & HR & _).
  destruct m as [R f mm e]; cbn [X86.regs X86.flags X86.mem X86.eip] in *. subst R.
  change (get_reg _ ESP) with sp in *. change (get_reg _ EBP) with bp in *.
  change (get_reg _ ESI) with si in *. change (get_reg _ EDI) with di in *.
  apply stack_at_cons in Hst as (Hsp0 & Hlv & Hst). apply stack_at_cons in Hst as (_ & Hli & Hst).
  rewrite !zlen_cons in Hsp0. pose proof (zlen_nonneg vs). unfold in_space in Hsp0.
  destruct (idx_falls k idx a c d v (sp + 4) bp si di f mm (u32 (e + 1))) as [f' Hpre];
    try done; [split; lia|lia|].
  exists c, d, f'. replace (sp + 8) with (sp + 4 + 4) by lia. split.
  - rewrite !Forall_cons in Hw. rewrite !Forall_cons. unfold is_word in *. intuition lia.
  - intros l. unfold store_prefix. rewrite <- app_assoc. cbn [app].
    eapply seg_pop; [exact Hv|split; lia|lia|exact Hlv|]. red_regs.
    change ((1, Pop 0) :: shl_code k ++ l) with (([(1, Pop EAX)] ++ shl_code k) ++ l).
    rewrite Hpre. do 2 f_equal. change ((1, Pop 3) :: (1, Pop 0) :: shl_code k)
      with ([(1, Pop EBX)] ++ [(1, Pop EAX)] ++ shl_code k).
    rewrite !seg_len_app, !seg_len_one. u32_sums.
Qed.

Lemma store_falls n addr v c d sp bp si di f mm e mm' :
  n = 4%nat \/ n = 1%nat -> store mm addr (le_bytes n v) = Some mm' ->
  falls [store_ins n] (M [addr; c; d; v; sp; bp; si; di] f mm e)
    (M [addr; c; d; v; sp; bp; si; di] f mm' (u32 (e + 2))).
Proof.
  intros [-> | ->] Hs; unfold store_ins.
  - rewrite decide_True by done. eapply falls_one; [|reflexivity|reflexivity].
    red_exec. unfold store32. by rewrite Hs.
  - rewrite decide_False by done. eapply falls_one; [|reflexivity|reflexivity].
    red_machine. cbn [le_bytes] in Hs. by rewrite Hs.
Qed.

Lemma store_spec_range t k n :
  store_spec t = Some (k, n) ->
  0 <= k < 8 /\ (n = 4%nat \/ n = 1%nat) /\ Z.of_nat n = 2 ^ k.
Proof. destruct t; try discriminate; intros [= <- <-]; cbn; split_and!; auto; lia. Qed.

(** The access that passes the check. *)
Lemma store_run base trap_a i k n m idx v vs mm' :
  0 <= k < 8 -> n = 4%nat \/ n = 1%nat -> mwf m -> is_word idx -> is_word v ->
  stack_at (mem m) (get_reg m ESP) (v :: idx :: vs) -> get_reg m ESP + 8 < 2 ^ 32 ->
  offset k idx < get_reg m ESI ->
  let addr := u32 (offset k idx + get_reg m EDI) in
  get_reg m ESP + 8 + 4 * zlen vs <= addr \/ addr + Z.of_nat n <= get_reg m ESP + 8 ->
  store (mem m) addr (le_bytes n v) = Some mm' ->
  same_except addr (addr + Z.of_nat n) (mem m) mm' ->
  let l := store_prefix k ++ check_code base trap_a i ++ [(2, Alu ADD EAX EDI)] ++ [store_ins n] in
  exists m', exec_seg l m = Some m' /\ mem m' = mm' /\
    op_post m m' (u32 (eip m + seg_len l)) (get_reg m ESP + 8) vs addr (addr + Z.of_nat n).
Proof.
  intros Hk Hn Hm Hi Hv Hst Hsp Hlt addr Hdisj Hs Hsame l.
  destruct (store_prefix_falls k idx v m vs) as (c & d & f' & Hwd & Hpre); try done.
  exists (M [addr; c; d; v; get_reg m ESP + 8; get_reg m EBP; get_reg m ESI; get_reg m EDI]
            (Some (add_flags (offset k idx) (get_reg m EDI))) mm' (u32 (eip m + seg_len l))).
  split_and!; [|done|].
  - subst l. rewrite Hpre, app_assoc, check_pass;
      [|apply offset_word|by apply get_reg_word|done].
    rewrite <- (app_nil_r [store_ins n]) at 1. rewrite (store_falls n) with (mm' := mm') by done.
    cbn [exec_seg]. do 2 f_equal. rewrite !seg_len_app, seg_len_one. unfold check_code, store_ins.
    rewrite seg_len_two, seg_len_one. u32_sums.
  - constructor; cbn [X86.eip X86.mem]; try reflexivity; [|done|].
    + apply (stack_at_same (mem m) mm' addr (addr + Z.of_nat n)); [done|lia|].
      apply stack_at_cons in Hst as (_ & _ & Hst). apply stack_at_cons in Hst as (_ & _ & Hst).
      by replace (get_reg m ESP + 8) with (get_reg m ESP + 4 + 4) by lia.
    + assert (is_word addr) by apply u32_range. rewrite Forall_cons in Hwd.
      constructor; cbn [X86.regs X86.eip]; [done|constructor; tauto|apply u32_range].
Qed.


