(* ===== verification/FrameProofs.v ===== *)
(** * Constants and local variables

    A function's frame lies above [EBP]: the return address at [EBP], the
    caller's [EBP] above it, then the locals and the parameters, the last one
    first.  The value stack of the function grows below. *)

From stdpp Require Import base list strings gmap.
From Stdlib Require Import ZArith Lia.
From S2P Require Import Prelude Tokens FromIr Instrs X86 ToAsm InstrsProofs X86Proofs EmitProofs OpProofs.

(** The parameters and locals [ls] of the function whose frame is at [bp]. *)
Definition frame_at (mm : gmap Z Z) (bp : Z) (ls : list Z) : Prop :=
  stack_at mm (bp + 8) (reverse ls).

Lemma zlen_reverse {A} (l : list A) : zlen (reverse l) = zlen l.
Proof. unfold zlen. by rewrite length_reverse. Qed.

(** The offset the generator computes for variable [i] of [n]. *)
Definition var_offset (n i : Z) : Z := 4 * (n - i + 1).

Lemma frame_lookup mm bp ls i v :
  frame_at mm bp ls -> ls !! i = Some v ->
  load32 mm (bp + var_offset (zlen ls) (Z.of_nat i)) = Some v.
Proof.
  intros [_ H] Hi. pose proof (lookup_lt_Some _ _ _ Hi) as Hl.
  rewrite <- (H (length ls - 1 - i)%nat v).
  - f_equal. unfold var_offset, zlen. lia.
  - rewrite reverse_lookup by lia. rewrite <- Hi. f_equal. lia.
Qed.

(** A store to one of the words of a stack. *)
Lemma stack_at_update mm mm' sp vs i v :
  stack_at mm sp vs -> (i < length vs)%nat -> is_word v ->
  store32 mm (sp + 4 * Z.of_nat i) v = Some mm' ->
  stack_at mm' sp (<[i := v]> vs) /\
  same_except (sp + 4 * Z.of_nat i) (sp + 4 * Z.of_nat i + 4) mm mm'.
Proof.
  intros [Hr H] Hi Hv Hs. destruct (lookup_lt_is_Some_2 vs i Hi) as [old Hold].
  assert (Hin : in_space (sp + 4 * Z.of_nat i) 4) by (unfold in_space, zlen in *; lia).
  destruct (store32_ok mm (sp + 4 * Z.of_nat i) v old Hin) as (mm2 & Hs2 & Hld & Hsame); [by apply H|].
  assert (mm2 = mm') as -> by congruence. rewrite u32_small in Hld by done.
  split; [|done]. split.
  - unfold zlen in *. by rewrite length_insert.
  - intros j w Hj. destruct (decide (i = j)) as [<-|Hne].
    + rewrite list_lookup_insert_eq in Hj by done. congruence.
    + rewrite list_lookup_insert_ne in Hj by done.
      pose proof (lookup_lt_Some _ _ _ Hj). rewrite <- (H j w Hj).
      apply (load32_same _ _ _ _ _ Hsame); unfold in_space, zlen in *; lia.
Qed.

Lemma frame_update mm mm' bp ls i v :
  frame_at mm bp ls -> (i < length ls)%nat -> is_word v ->
  store32 mm (bp + var_offset (zlen ls) (Z.of_nat i)) v = Some mm' ->
  frame_at mm' bp (<[i := v]> ls) /\ same_except (bp + 8) (bp + 8 + 4 * zlen ls) mm mm'.
Proof.
  intros Hf Hi Hv Hs. set (j := (length ls - 1 - i)%nat).
  assert (bp + var_offset (zlen ls) (Z.of_nat i) = bp + 8 + 4 * Z.of_nat j) as Ha.
  { unfold var_offset, zlen, j. lia. }
  rewrite Ha in Hs. apply (stack_at_update _ _ _ (reverse ls) j v) in Hs as [Hst Hsame]; try done.
  - split.
    + unfold frame_at. replace (reverse (<[i:=v]> ls)) with (<[j:=v]> (reverse ls)); [done|].
      apply list_eq. intros q. destruct (decide (q < length ls)%nat) as [Hq|Hq].
      * rewrite (reverse_lookup (<[i:=v]> ls)) by (by rewrite length_insert). rewrite length_insert.
        destruct (decide (q = j)) as [->|].
        -- rewrite list_lookup_insert_eq by (rewrite length_reverse; lia).
           replace (length ls - S j)%nat with i by lia. by rewrite list_lookup_insert_eq.
        -- rewrite !list_lookup_insert_ne by lia. by rewrite reverse_lookup.
      * rewrite !lookup_ge_None_2; [done| |]; rewrite ?length_insert, ?length_reverse, ?length_insert; lia.
    + eapply same_except_weaken; [| |exact Hsame]; unfold zlen, j; lia.
  - rewrite length_reverse. lia.
Qed.

(** ** Pushing a register *)

(** [pre] leaves [v] in the register [reg], which is then pushed. *)
Lemma push_run pre reg m v vs a f' old :
  falls pre m {| regs := <[0%nat := a]> (regs m); flags := f'; mem := mem m;
                 eip := u32 (eip m + seg_len pre) |} ->
  mwf m -> is_word a -> is_word v -> reg <> 4%nat -> <[0%nat := a]> (regs m) !!! reg = v ->
  stack_at (mem m) (get_reg m ESP) vs ->
  4 <= get_reg m ESP -> load32 (mem m) (get_reg m ESP - 4) = Some old ->
  exists m', exec_seg (pre ++ [(1, Push (Z.of_nat reg))]) m = Some m' /\
    op_post m m' (u32 (eip m + (seg_len pre + 1))) (get_reg m ESP - 4) (v :: vs)
      (get_reg m ESP - 4) (get_reg m ESP).
Proof.
  intros Hpre Hm Ha Hv Hreg Hget Hst Hsp Hold.
  destruct (mwf_regs m Hm) as (a0 & c & d & b & sp & bp & si & di & HR & ? & ? & ? & ? & ? & ? & ? & ?).
  destruct m as [R f mm e]; cbn [X86.regs X86.flags X86.mem X86.eip] in *. subst R.
  change (get_reg _ ESP) with sp in *. cbn [insert list_insert] in *.
  assert (Hin : in_space (sp - 4) 4) by (unfold in_space, is_word in *; lia).
  destruct (store32_ok mm (sp - 4) v old Hin Hold) as (mm' & Hs & Hld & Hsame).
  rewrite u32_small in Hld by done. destruct Hst as [Hr Hst].
  exists (M [a; c; d; b; sp - 4; bp; si; di] f' mm' (u32 (e + (seg_len pre + 1)))). split.
  - rewrite Hpre. eapply (seg_push reg 1 [] _ sp); [done|done|exact Hget|unfold is_word in *; lia|exact Hs|].
    cbn [exec_seg insert list_insert]. do 2 f_equal. u32_sums.
  - constructor; cbn [X86.eip X86.mem]; try reflexivity.
    + rewrite stack_at_cons, zlen_cons. unfold in_space in *. split_and!; [lia|lia|done|].
      replace (sp - 4 + 4) with sp by lia.
      apply (stack_at_same mm mm' (sp - 4) (sp - 4 + 4)); [done|lia|done].
    + by replace (sp - 4 + 4) with sp in Hsame by lia.
    + constructor; cbn [X86.regs X86.eip]; [done| |apply u32_range].
      rewrite !Forall_cons. unfold is_word in *. split_and!; try apply Forall_nil_2; lia.
Qed.

(** A fragment that emits [pre] and a push, run. *)
Lemma push_correct a pre reg code base s s' m v vs x f' old :
  emits a (fun _ => pre ++ [(1, Push (Z.of_nat reg))]) 1 -> a s = Ok s' ->
  running code base s s' m ->
  falls pre m {| regs := <[0%nat := x]> (regs m); flags := f'; mem := mem m;
                 eip := u32 (eip m + seg_len pre) |} ->
  is_word x -> is_word v -> reg <> 4%nat -> <[0%nat := x]> (regs m) !!! reg = v ->
  stack_at (mem m) (get_reg m ESP) vs ->
  4 <= get_reg m ESP -> load32 (mem m) (get_reg m ESP - 4) = Some old ->
  exists m', steps code base m m' /\
    op_post m m' (base + asm_i s') (get_reg m ESP - 4) (v :: vs)
      (get_reg m ESP - 4) (get_reg m ESP) /\
    stkh s' = s32 (stkh s + 1).
Proof.
  intros Ha Hs Hrun Hpre Hx Hv Hreg Hget Hst Hsp Hold.
  destruct (push_run pre reg m v vs x f' old) as (m' & Hm' & Hpost); try done; [apply Hrun|].
  destruct (emits_run a _ 1 code base s s' m m' Ha Hs Hrun Hm') as (Hsteps & He & Hk).
  exists m'. split_and!; [done| |done].
  by rewrite <- He, seg_len_app, seg_len_one.
Qed.

(** The code of [i.const] pushes the word that denotes its immediate, and
    that of [i.memsz] the size of the program's memory. *)
Theorem push_code_correct prog base gen_info indet place place' code s s' m t v vs old :
  (t = i_const /\ (exists iv, get_int prog place = Ok (iv, place') /\ v = u32 iv)) \/
  (t = i_memsz /\ place' = place /\ v = get_reg m ESI) ->
  gen_token prog base gen_info indet place s t = Ok (place', s') ->
  running code base s s' m ->
  stack_at (mem m) (get_reg m ESP) vs ->
  4 <= get_reg m ESP -> load32 (mem m) (get_reg m ESP - 4) = Some old ->
  exists m', steps code base m m' /\
    op_post m m' (base + asm_i s') (get_reg m ESP - 4) (v :: vs)
      (get_reg m ESP - 4) (get_reg m ESP) /\
    stkh s' = s32 (stkh s + 1).
Proof.
  intros Ht Hg Hrun Hst Hsp Hold. pose proof (rn_mwf _ _ _ _ _ Hrun) as Hm.
  destruct (mwf_regs m Hm) as (a0 & c & d & b & sp & bp & si & di & HR & Hw).
  destruct Ht as [(-> & iv & Hi & ->)|(-> & -> & ->)]; cbn [gen_token] in Hg.
  - unfold with_iv, read_iv in Hg. rewrite Hi in Hg. inv_ok.
    eapply (push_correct (ins (mov_r32_imm EAX iv) +> push_ EAX) [(5, MovImm EAX (s32 iv))] 0)
      with (x := u32 iv); try done; auto with cmem.
    + eapply emits_ext; [|emit_seq]; reflexivity.
    + eapply falls_one; [reflexivity| |reflexivity]. unfold set_reg, set_eip. rewrite u32_s32.
      by rewrite seg_len_one.
    + by rewrite HR.
  - inv_ok. eapply (push_correct (push_ ESI) [] 6) with (x := a0) (f' := flags m); try done; try tauto.
    + cbn [app]. apply emits_push. auto with x86enc.
    + intros k. cbn [app]. f_equal. destruct m; cbn in *. subst. unfold seg_len. cbn.
      rewrite Z.add_0_r, u32_small; [done|apply Hm].
    + by apply get_reg_word.
    + unfold get_reg. by rewrite HR.
Qed.

Lemma push_code_correct_witness :
  get_int [0; 0xff; 0xff; 0xff; 0xff; 0] 1 = Ok (-1, 5) /\
  exists m', steps (buf (demo_gen [0xff; 0xff; 0xff; 0xff; 0; 0] i_const)) 0
               (demo_machine_at 4100 [3; 5] 0 []) m' /\
             stack_at (mem m') 4096 [2 ^ 32 - 1; 5].
Proof.
  split; [reflexivity|].
  destruct (push_code_correct [0xff; 0xff; 0xff; 0xff; 0; 0] 0 false (fun _ => 0) 0 4
    (buf (demo_gen [0xff; 0xff; 0xff; 0xff; 0; 0] i_const)) demo_state
    (demo_gen [0xff; 0xff; 0xff; 0xff; 0; 0] i_const)
    (demo_machine_at 4100 [3; 5] 0 []) i_const (2 ^ 32 - 1) [5] 3)
    as (m' & Hs & Hp & _).
  - left. split; [reflexivity|]. exists (-1). split; reflexivity.
  - vm_compute; reflexivity.
  - demo_run.
  - apply (stack_at_cons _ 4096 3 [5]), demo_stack; vm_compute; reflexivity.
  - vm_compute; discriminate.
  - vm_compute; reflexivity.
  - exists m'. split; [exact Hs|exact (op_stack _ _ _ _ _ _ _ Hp)].
Defined.

(** ** Local variables *)

(** The function being generated has [n] parameters and locals. *)
Definition fn_vars (s : gst) (n : Z) : Prop :=
  exists f, arr_get (g_fns s) (g_fn s) = Ok f /\ n = aparam_n f + alocal_n f.

Lemma fn_vars_offset s n iv d :
  fn_vars s n -> local_offset s iv = Ok d -> d = var_offset n iv.
Proof. intros (f & Hf & ->). unfold local_offset. rewrite Hf. cbn. by intros [= <-]. Qed.

(** [EBP] plus the displacement the instruction holds. *)
Lemma var_address mm bp ls i :
  frame_at mm bp ls -> 0 <= bp -> (i < length ls)%nat ->
  u32 (bp + s32 (var_offset (zlen ls) (Z.of_nat i))) = bp + var_offset (zlen ls) (Z.of_nat i).
Proof.
  intros [Hr _] Hb Hi. unfold in_space in Hr. rewrite zlen_reverse in Hr.
  unfold u32 at 1. rewrite <- Zplus_mod_idemp_r. fold (u32 (s32 (var_offset (zlen ls) (Z.of_nat i)))).
  rewrite u32_s32. unfold u32. rewrite Zplus_mod_idemp_r. apply Z.mod_small.
  unfold var_offset, zlen in *. lia.
Qed.

Lemma gen_get_l_inv s s' iv n :
  fn_vars s n -> gen_get_l iv s = Ok s' ->
  (ins (mov_r32_dis_ebp EAX (var_offset n iv)) +> push_ EAX) s = Ok s'.
Proof.
  intros Hf Hg. unfold gen_get_l in Hg. inv_ok. by rewrite <- (fn_vars_offset s n iv a Hf).
Qed.

Lemma gen_set_l_inv s s' iv n :
  fn_vars s n -> gen_set_l iv s = Ok s' ->
  (pop_ EAX +> ins (mov_dis_ebp_r32 (var_offset n iv) EAX)) s = Ok s'.
Proof.
  intros Hf Hg. unfold gen_set_l in Hg. inv_ok. by rewrite <- (fn_vars_offset s n iv a Hf).
Qed.

Lemma emits_get_l d :
  emits (ins (mov_r32_dis_ebp EAX d) +> push_ EAX)
    (fun _ => [(6, LoadEbp EAX (s32 d))] ++ [(1, Push (Z.of_nat 0))]) 1.
Proof. eapply emits_ext; [|emit_seq]; reflexivity. Qed.

Lemma emits_set_l d :
  emits (pop_ EAX +> ins (mov_dis_ebp_r32 d EAX))
    (fun _ => [(1, Pop EAX); (6, StoreEbp (s32 d) EAX)]) (-1).
Proof. eapply emits_ext; [|emit_seq]; reflexivity. Qed.

(** The load of a variable of the frame into [EAX]. *)
Lemma get_l_falls m ls i v :
  mwf m -> frame_at (mem m) (get_reg m EBP) ls -> ls !! i = Some v -> is_word v ->
  falls [(6, LoadEbp EAX (s32 (var_offset (zlen ls) (Z.of_nat i))))] m
    {| regs := <[0%nat := v]> (regs m); flags := flags m; mem := mem m; eip := u32 (eip m + 6) |}.
Proof.
  intros Hm Hf Hl Hv. pose proof (get_reg_word m EBP Hm ltac:(by unfold is_reg)) as Hbp.
  pose proof (var_address (mem m) _ ls i Hf ltac:(apply Hbp) (lookup_lt_Some _ _ _ Hl)) as Haddr.
  apply (frame_lookup _ _ _ _ _ Hf) in Hl. rewrite <- Haddr in Hl. unfold load32 in Hl.
  rewrite load_u32 in Hl. eapply falls_one; [|reflexivity|reflexivity].
  unfold exec, load32. cbn [X86.mem set_eip]. change (get_reg (set_eip m _) 5) with (get_reg m EBP).
  rewrite Hl. cbn. unfold set_reg. cbn. by rewrite (u32_small v).
Qed.

(** The store of [EAX] to a variable of the frame. *)
Lemma set_l_run m ls i v vs :
  mwf m -> is_word v -> frame_at (mem m) (get_reg m EBP) ls -> (i < length ls)%nat ->
  stack_at (mem m) (get_reg m ESP) (v :: vs) -> get_reg m ESP + 4 * (1 + zlen vs) <= get_reg m EBP + 8 ->
  get_reg m ESP + 4 < 2 ^ 32 ->
  let l := [(1, Pop EAX); (6, StoreEbp (s32 (var_offset (zlen ls) (Z.of_nat i))) EAX)] in
  exists m', exec_seg l m = Some m' /\ frame_at (mem m') (get_reg m EBP) (<[i := v]> ls) /\
    op_post m m' (u32 (eip m + 7)) (get_reg m ESP + 4) vs
      (get_reg m EBP + 8) (get_reg m EBP + 8 + 4 * zlen ls).
Proof.
  intros Hm Hv Hf Hi Hst Hdisj Hsp l.
  destruct (mwf_regs m Hm) as (a & c & d & b & sp & bp & si & di & HR & ? & ? & ? & ? & ? & ? & ? & ?).
  destruct m as [R f mm e]; cbn [X86.regs X86.flags X86.mem X86.eip] in *. subst R.
  change (get_reg _ ESP) with sp in *. change (get_reg _ EBP) with bp in *.
  apply stack_at_cons in Hst as (Hsp0 & Hlv & Hst). rewrite zlen_cons in Hsp0.
  pose proof (zlen_nonneg vs) as Hvs. unfold in_space in Hsp0.
  pose proof (lookup_lt_is_Some_2 ls i Hi) as [old Hold].
  pose proof (frame_lookup mm bp ls i old Hf Hold) as Hlo.
  pose proof (var_address mm bp ls i Hf ltac:(unfold is_word in *; lia) Hi) as Haddr.
  assert (Hin : in_space (bp + var_offset (zlen ls) (Z.of_nat i)) 4).
  { destruct Hf as [Hr _]. unfold in_space, var_offset, is_word in *. rewrite zlen_reverse in Hr.
    unfold zlen in *. lia. }
  destruct (store32_ok mm _ v old Hin Hlo) as (mm' & Hs & _ & _).
  destruct (frame_update mm mm' bp ls i v Hf Hi Hv Hs) as [Hf' Hsame].
  exists (M [v; c; d; b; sp + 4; bp; si; di] f mm' (u32 (e + 7))). split_and!; [|done|].
  - subst l. eapply seg_pop; [exact Hv|split; lia|lia|exact Hlv|]. red_regs.
    apply exec_seg_cons with (m1 := M [v; c; d; b; sp + 4; bp; si; di] f mm' (u32 (e + 1 + 6)));
      [|cbn [X86.eip]; u32_sums|cbn [exec_seg]; do 2 f_equal; u32_sums].
    red_exec. unfold store32 in *. rewrite <- store_u32, Haddr, Hs. do 2 f_equal. u32_sums.
  - constructor; cbn [X86.eip X86.mem]; try reflexivity; [|done|].
    + apply (stack_at_same mm mm' (bp + 8) (bp + 8 + 4 * zlen ls)); [done|lia|done].
    + constructor; cbn [X86.regs X86.eip]; [done| |apply u32_range].
      rewrite !Forall_cons. unfold is_word in *. split_and!; try apply Forall_nil_2; lia.
Qed.

(** C19. The code of [get.l] pushes the variable its index names, and that of
    [set.l] pops the top of the stack into it, in a frame laid out as the callers
    build it: the variables [ls], parameters first, end at [EBP + 8].  The other
    variables, the rest of the stack and the rest of the memory do not change. *)
Theorem local_code_correct prog base gen_info indet place place' code s s' m t i v ls vs :
  get_int prog place = Ok (Z.of_nat i, place') ->
  gen_token prog base gen_info indet place s t = Ok (place', s') ->
  running code base s s' m -> fn_vars s (zlen ls) ->
  frame_at (mem m) (get_reg m EBP) ls -> (i < length ls)%nat -> is_word v ->
  (t = get_l -> ls !! i = Some v -> forall old,
     stack_at (mem m) (get_reg m ESP) vs -> 4 <= get_reg m ESP <= get_reg m EBP + 8 ->
     load32 (mem m) (get_reg m ESP - 4) = Some old ->
     exists m', steps code base m m' /\ frame_at (mem m') (get_reg m EBP) ls /\
       op_post m m' (base + asm_i s') (get_reg m ESP - 4) (v :: vs)
         (get_reg m ESP - 4) (get_reg m ESP) /\ stkh s' = s32 (stkh s + 1)) /\
  (t = set_l -> stack_at (mem m) (get_reg m ESP) (v :: vs) ->
     get_reg m ESP + 4 * (1 + zlen vs) <= get_reg m EBP + 8 -> get_reg m ESP + 4 < 2 ^ 32 ->
     exists m', steps code base m m' /\ frame_at (mem m') (get_reg m EBP) (<[i := v]> ls) /\
       op_post m m' (base + asm_i s') (get_reg m ESP + 4) vs
         (get_reg m EBP + 8) (get_reg m EBP + 8 + 4 * zlen ls) /\ stkh s' = s32 (stkh s - 1)).
Proof.
  intros Hi Hg Hrun Hfn Hf Hlt Hv. pose proof (rn_mwf _ _ _ _ _ Hrun) as Hm.
  split; intros ->; cbn [gen_token] in Hg; unfold with_iv, read_iv in Hg; rewrite Hi in Hg; inv_ok.
  - intros Hlook old Hst Hsp Hold. apply (gen_get_l_inv _ _ _ (zlen ls)) in H; [|done].
    destruct (push_correct _ _ 0 code base s s' m v vs v (flags m) old (emits_get_l _) H)
      as (m' & Hs & Hpost & Hk); try done.
    + rewrite seg_len_one. by apply get_l_falls.
    + destruct (mwf_regs m Hm) as (? & ? & ? & ? & ? & ? & ? & ? & -> & _). done.
    + lia.
    + exists m'. split_and!; try done.
      apply (stack_at_same (mem m) _ _ _ _ _ (op_mem _ _ _ _ _ _ _ Hpost)); [lia|done].
  - intros Hst Hd Hsp. apply (gen_set_l_inv _ _ _ (zlen ls)) in H; [|done].
    destruct (set_l_run m ls i v vs) as (m' & Hx & Hf' & Hpost); try done.
    destruct (emits_run _ _ _ code base s s' m m' (emits_set_l _) H Hrun Hx) as (Hsteps & He & Hk).
    exists m'. split_and!; try done. rewrite <- He. by rewrite seg_len_two.
Qed.

(** A function with one parameter and two locals. *)
Definition demo_fn_state : gst :=
  with_fn (with_fns demo_state (replicate 64 {| art := 0; fn_addr := 0; aparam_n := 1; alocal_n := 2 |})) 0.

Definition demo_set_l : gst :=
  match gen_token [1; 0; 0; 0; 0] 0 false (fun _ => 0) 0 demo_fn_state set_l with
  | Ok (_, s) => s
  | _ => demo_state
  end.

Lemma local_code_correct_witness :
  fn_vars demo_fn_state 3 /\
  exists m', steps (buf demo_set_l) 0 (demo_machine [9; 6; 0; 0; 22; 11; 10] 4104 []) m' /\
             frame_at (mem m') 4104 [10; 9; 22].
Proof.
  assert (Hfn : fn_vars demo_fn_state 3) by (eexists; split; vm_compute; reflexivity).
  split; [exact Hfn|].
  assert (Hstk : stack_at (mem (demo_machine [9; 6; 0; 0; 22; 11; 10] 4104 [])) 4096
                   ([9; 6; 0; 0; 22; 11; 10])).
  { apply demo_stack; vm_compute; reflexivity. }
  assert (Hvs : stack_at (mem (demo_machine [9; 6; 0; 0; 22; 11; 10] 4104 [])) 4096 [9; 6]).
  { split; [vm_compute; split; discriminate|]. intros j w Hj. apply Hstk.
    by apply (lookup_app_l_Some [9; 6] [0; 0; 22; 11; 10]). }
  do 4 apply stack_at_cons in Hstk as (_ & _ & Hstk).
  destruct (local_code_correct [1; 0; 0; 0; 0] 0 false (fun _ => 0) 0 4 (buf demo_set_l) demo_fn_state
    demo_set_l (demo_machine [9; 6; 0; 0; 22; 11; 10] 4104 []) set_l 1 9 [10; 11; 22] [6]) as (_ & H).
  - vm_compute; reflexivity.
  - vm_compute; reflexivity.
  - destruct (demo_running demo_set_l 4096 [9; 6; 0; 0; 22; 11; 10] 4104 []) as [H1 H2 H3 H4];
      [vm_compute; reflexivity..|].
    constructor; [|exact H2|exact H3|exact H4]. constructor; vm_compute; intuition discriminate.
  - exact Hfn.
  - exact Hstk.
  - vm_compute; lia.
  - by unfold is_word.
  - destruct (H eq_refl Hvs) as (m' & Hs & Hf & _); [vm_compute; discriminate|vm_compute; reflexivity|].
    exists m'. split; [exact Hs|exact Hf].
Defined.
