(* ===== verification/LayoutProofs.v ===== *)
(** * The two passes of the code generator agree

    [to_asm] generates the code twice: the first pass records where every
    function and block lies, the second uses these addresses.  The addresses are
    right because the passes advance in step: an instruction takes as many bytes
    in the one as in the other. *)

From stdpp Require Import base list strings gmap.
From Stdlib Require Import ZArith Lia.
From S2P Require Import Prelude Tokens Syntax ToIr ToIrProofs FromIr FromIrProofs Instrs ToAsm InstrsProofs X86Proofs EmitProofs.

(** ** Generation, instruction by instruction *)

Definition gen_plain (base : Z) (gi : bool) (t : instr_token) : asm :=
  match t with
  | i_eqz | i_eq | i_ge_s | i_ge_u | i_gt_s | i_gt_u | i_le_s | i_le_u | i_lt_s | i_lt_u | i_ne =>
      gen_compare t
  | i_ld32 | i_ld16_s | i_ld16_u | i_ld8_s | i_ld8_u | i_memsz | str32 | str16 | str8 =>
      gen_memory base t
  | trap => fun s => emit s (jmp_rel (base + asm_i s) (trapret_addr s))
  | block => gen_block gi
  | loop => gen_loop base gi
  | ret => gen_ret
  | end_ => gen_end base gi
  | _ => gen_arith t
  end.

Definition gen_imm (base : Z) (t : instr_token) (iv : Z) : asm :=
  match t with
  | i_const => ins (mov_r32_imm EAX iv) +> push_ EAX
  | get_l => gen_get_l iv
  | set_l => gen_set_l iv
  | br => gen_br base iv
  | br_if => gen_br_if base iv
  | call => gen_call base iv
  | _ => skip
  end.

Definition gen_instr (base : Z) (gi : bool) (i : instr) : asm :=
  match i with
  | Plain t => gen_plain base gi t
  | Imm t v => gen_imm base t (s32 v)
  | Decl _ _ _ => gen_declfn base gi
  end.

Fixpoint gen_list (base : Z) (gi : bool) (p : list instr) : asm :=
  match p with
  | [] => skip
  | i :: p => gen_instr base gi i +> gen_list base gi p
  end.

(** A pass over the program. *)
Definition pass (base : Z) (gi : bool) (p : list instr) : asm := fun s =>
  s ← gen_header base (reset s);
  gen_list base gi p s.

Lemma skip_types_spec prog place ts rest :
  at_ prog place (pack ts ++ rest) -> (length ts <= TYPE_BUF)%nat ->
  skip_types prog place = Ok (place + zlen (pack ts)).
Proof. intros Hat Hl. unfold skip_types. by rewrite (type_list_pack TYPE_BUF prog place ts rest). Qed.

(** An iteration of [populate_infos] generates the instruction at its place. *)
Lemma gen_token_instr base gi indet prog place i rest s :
  wf_instr i -> small_decl i -> at_ prog place (encode_instr i ++ rest) ->
  (match i with Imm _ _ => rest <> [] | _ => True end) ->
  gen_token prog base gi indet (place + 1) s (instr_tok i) =
  (s' ← gen_instr base gi i s; Ok (place + zlen (encode_instr i), s')).
Proof.
  intros Hwf Hsm Hat Hne. destruct i as [t|t v|t ps ls]; cbn [instr_tok gen_instr encode_instr] in *.
  - by destruct t.
  - destruct Hwf as [Hk _]. cbn [app] in Hat. apply at_cons in Hat.
    pose proof (get_int_le prog (place + 1) v rest Hat Hne) as Hi.
    replace (place + zlen (token_value t :: le_bytes 4 v)) with (place + 1 + 4)
      by (change (zlen (_ :: le_bytes 4 v)) with 5; lia).
    destruct t; try discriminate; cbn [gen_token]; unfold with_iv, read_iv; rewrite Hi; reflexivity.
  - cbn [app] in Hat. apply at_cons in Hat. rewrite <- app_assoc in Hat. destruct Hsm as [Hps Hls].
    replace (gen_token prog base gi indet (place + 1) s t) with
      (place ← skip_types prog (place + 1); place ← skip_types prog place;
       s' ← gen_declfn base gi s; Ok (place, s')) by (destruct t; try discriminate; reflexivity).
    rewrite (skip_types_spec prog _ ps (pack ls ++ rest)) by done. cbn [mbind res_bind].
    apply at_app in Hat. rewrite (skip_types_spec prog _ ls rest) by done. cbn [mbind res_bind].
    destruct (gen_declfn base gi s); cbn [mbind res_bind]; try done.
    rewrite zlen_cons, zlen_app. do 2 f_equal. lia.
Qed.

Lemma gen_tokens_list base gi indet prog place p s fuel :
  Forall wf_instr p -> Forall small_decl p -> imm_followed p -> at_ prog place (encode p) ->
  (length p < fuel)%nat ->
  gen_tokens prog base gi indet fuel place s = gen_list base gi p s.
Proof.
  revert place s fuel. induction p as [|i p IH]; intros place s fuel Hwf Hsm Himm Hat Hfuel;
    (destruct fuel as [|fuel]; [cbn in Hfuel; lia|]); cbn [gen_tokens gen_list].
  - apply at_len in Hat. change (zlen (encode [])) with 0 in Hat.
    by destruct (Z.ltb_spec place (zlen prog)); [lia|].
  - rewrite encode_cons in Hat. destruct (token_at _ _ _ _ Hat) as [Hlt Hget].
    destruct (Z.ltb_spec place (zlen prog)); [|lia]. rewrite Hget. cbn [mbind res_bind].
    rewrite token_of_byte_value. cbn [gen_step]. apply Forall_cons in Hwf as [Hi Hwf].
    apply Forall_cons in Hsm as [Hsi Hsm]. destruct Himm as [Hlast Himm].
    rewrite (gen_token_instr base gi indet prog place i (encode p)) by
      (done || (destruct i; try done; by apply encode_nonempty)).
    unfold seq. destruct (gen_instr base gi i s); cbn [mbind res_bind]; try done.
    apply IH; try done; [by apply at_app|cbn in Hfuel; lia].
Qed.

Lemma populate_infos_pass base gi indet p s :
  fits p -> populate_infos (encode p) base gi indet s = pass base gi p s.
Proof.
  intros [Hwf Hsm Himm _ _]. unfold populate_infos, pass.
  destruct (gen_header base (reset s)); cbn [mbind res_bind]; try done.
  apply gen_tokens_list; try done; [apply at_start|]. pose proof (length_encode p). lia.
Qed.

(** ** Two passes in step *)

(** What a pass never changes of a function. *)
Definition strip (f : asm_fn_info) : Z * Z * Z := (art f, aparam_n f, alocal_n f).

(** The tables [fb] and [ff], those a pass leaves, have what [s] has recorded. *)
Record agrees (fb : list asm_blk_info) (ff : list asm_fn_info) (s : gst) : Prop := {
  ag_blks : forall b i, 0 <= b <= cur_blk s -> arr_get (g_blks s) b = Ok i ->
    exists j, arr_get fb b = Ok j /\ stk_height j = stk_height i /\
              (br_addr i <> 0 -> br_addr j = br_addr i);
  ag_fns : forall k f, 0 <= k <= g_fn s -> arr_get (g_fns s) k = Ok f ->
    exists g, arr_get ff k = Ok g /\ fn_addr g = fn_addr f;
}.

(** The states of the two passes at the same instruction.  The second pass has
    the final tables from its beginning. *)
Record par (fb : list asm_blk_info) (ff : list asm_fn_info) (s1 s2 : gst) : Prop := {
  p_i : asm_i s2 = asm_i s1;
  p_buf : zlen (buf s2) = zlen (buf s1);
  p_h : stkh s2 = stkh s1;
  p_fn : g_fn s2 = g_fn s1;
  p_blk : cur_blk s2 = cur_blk s1;
  p_blk_h : cur_blk_h s2 = cur_blk_h s1;
  p_stk_len : zlen (cur_blk_stk s2) = zlen (cur_blk_stk s1);
  p_stk : forall k, 0 <= k <= cur_blk_h s1 ->
    exists b, arr_get (cur_blk_stk s1) k = Ok b /\ arr_get (cur_blk_stk s2) k = Ok b /\
              0 <= b <= cur_blk s1;
  p_blks : g_blks s2 = fb;
  p_fns : g_fns s2 = ff;
  p_blks_len : zlen (g_blks s1) = zlen fb;
  p_strip : strip <$> g_fns s1 = strip <$> ff;
  p_agrees : agrees fb ff s1;
}.

Section parallel.
Context (fb : list asm_blk_info) (ff : list asm_fn_info).
Abbreviation par := (par fb ff).

(** Whatever the first pass does to its state, the second can do to its own. *)
Definition parallel (a1 a2 : asm) : Prop :=
  forall s1 s2 s1', par s1 s2 -> a1 s1 = Ok s1' -> exists s2', a2 s2 = Ok s2' /\ par s1' s2'.

Lemma parallel_skip : parallel skip skip.
Proof. intros s1 s2 s1' H [= <-]. by exists s2. Qed.

Lemma parallel_seq a1 a2 b1 b2 : parallel a1 a2 -> parallel b1 b2 -> parallel (a1 +> b1) (a2 +> b2).
Proof.
  intros Ha Hb s1 s2 s1' Hp H. unfold seq in *. inv_ok. destruct (Ha s1 s2 a Hp H0) as (s2a & -> & Hpa).
  cbn [mbind res_bind]. by apply (Hb a).
Qed.

(** Encodings of the same length. *)
Definition same_size (e1 e2 : enc) : Prop :=
  enc_len e1 = enc_len e2 /\ length (enc_bytes e1) = length (enc_bytes e2).

Lemma par_emit s1 s2 e1 e2 s1' :
  par s1 s2 -> same_size e1 e2 -> emit s1 e1 = Ok s1' -> exists s2', emit s2 e2 = Ok s2' /\ par s1' s2'.
Proof.
  intros H [Hl Hb] He. unfold emit in *. inv_ok. pose proof H0 as Hw1.
  apply arr_write_Ok in H0 as (Hi & Hfit & Hbuf). destruct H as [Hpi Hpb].
  assert (exists b2, arr_write (buf s2) (asm_i s2) (enc_bytes e2) = Ok b2) as [b2 Hw2].
  { eexists. apply arr_write_Ok. rewrite Hpi, Hpb. unfold zlen in *. rewrite <- Hb. split_and!; [lia|lia|done]. }
  rewrite Hw2. cbn [mbind res_bind]. eexists. split; [reflexivity|].
  constructor; cbn; try done.
  - by rewrite Hpi, Hl.
  - rewrite (arr_write_len _ _ _ _ Hw1), (arr_write_len _ _ _ _ Hw2). done.
  - by destruct p_agrees0.
Qed.

Lemma par_stkh s1 s2 h : par s1 s2 -> par (with_stkh s1 h) (with_stkh s2 h).
Proof. intros []. constructor; cbn; try done. by destruct p_agrees0. Qed.

Lemma parallel_emit f1 f2 :
  (forall s1 s2, same_size (f1 s1) (f2 s2)) ->
  parallel (fun s => emit s (f1 s)) (fun s => emit s (f2 s)).
Proof. intros Hs s1 s2 s1' H He. by eapply par_emit. Qed.

Lemma same_size_refl e : same_size e e.
Proof. done. Qed.

Lemma parallel_ins e : parallel (ins e) (ins e).
Proof. apply (parallel_emit (fun _ => e) (fun _ => e)). intros. apply same_size_refl. Qed.

Lemma parallel_push r : parallel (push_ r) (push_ r).
Proof.
  intros s1 s2 s1' H He. unfold push_, push_r32 in *. rewrite (p_h _ _ _ _ H).
  eapply par_emit; [by apply par_stkh|apply same_size_refl|exact He].
Qed.

Lemma parallel_pop r : parallel (pop_ r) (pop_ r).
Proof.
  intros s1 s2 s1' H He. unfold pop_, pop_r32 in *. rewrite (p_h _ _ _ _ H).
  eapply par_emit; [by apply par_stkh|apply same_size_refl|exact He].
Qed.


Lemma par_fn s1 s2 k f :
  par s1 s2 -> arr_get (g_fns s1) k = Ok f ->
  exists g, arr_get (g_fns s2) k = Ok g /\ strip g = strip f.
Proof.
  intros Hp [Hk Hf]%arr_get_Ok. rewrite (p_fns _ _ _ _ Hp).
  pose proof (f_equal (fun l => l !! Z.to_nat k) (p_strip _ _ _ _ Hp)) as Hs. cbn beta in Hs.
  rewrite !list_lookup_fmap, Hf in Hs. cbn in Hs.
  destruct (ff !! Z.to_nat k) as [g|] eqn:Hg; [|done]. injection Hs as Hs1 Hs2 Hs3.
  exists g. split; [by apply arr_get_Ok|]. unfold strip. congruence.
Qed.

(** A fragment that looks a function up and uses what the passes agree on. *)
Lemma parallel_fn (n : gst -> Z) (g : asm_fn_info -> asm) :
  (forall s1 s2, par s1 s2 -> n s2 = n s1) ->
  (forall f1 f2, strip f2 = strip f1 -> parallel (g f1) (g f2)) ->
  parallel (fun s => f ← arr_get (g_fns s) (n s); g f s) (fun s => f ← arr_get (g_fns s) (n s); g f s).
Proof.
  intros Hn Hg s1 s2 s1' Hp H. inv_ok. rewrite (Hn _ _ Hp).
  destruct (par_fn _ _ _ _ Hp H0) as (g2 & -> & Hs). cbn [mbind res_bind]. by apply (Hg a g2 Hs s1).
Qed.

Lemma parallel_height (k : Z) :
  parallel (fun s => Ok (with_stkh s (s32 (stkh s - k)))) (fun s => Ok (with_stkh s (s32 (stkh s - k)))).
Proof.
  intros s1 s2 s1' Hp [= <-]. rewrite (p_h _ _ _ _ Hp). eexists. split; [done|]. by apply par_stkh.
Qed.

Lemma par_branch s1 s2 iv i :
  par s1 s2 -> 0 <= iv -> branch_info s1 iv = Ok i -> exists j, branch_info s2 iv = Ok j.
Proof.
  intros Hp Hiv H. unfold branch_info in *. inv_ok. rewrite (p_blk_h _ _ _ _ Hp).
  destruct (p_stk _ _ _ _ Hp (cur_blk_h s1 - iv)) as (b & Hb1 & Hb2 & Hb).
  { apply arr_get_bound in H0. lia. }
  rewrite Hb2. cbn [mbind res_bind]. simplify_eq. rewrite Hb1 in H0. injection H0 as <-.
  apply arr_get_ok. rewrite (p_blks _ _ _ _ Hp), <- (p_blks_len _ _ _ _ Hp). by apply arr_get_bound in H.
Qed.
End parallel.

Ltac same_sizes := intros; split; reflexivity.

(** Fragments built from the emission primitives. *)
Ltac parallel :=
  repeat match goal with
  | |- parallel _ _ (_ +> _) _ => apply parallel_seq
  | |- parallel _ _ skip _ => apply parallel_skip
  | |- parallel _ _ (ins _) _ => apply parallel_ins
  | |- parallel _ _ (push_nil _) _ => apply parallel_ins
  | |- parallel _ _ (pop_nil _) _ => apply parallel_ins
  | |- parallel _ _ (push_ _) _ => apply parallel_push
  | |- parallel _ _ (pop_ _) _ => apply parallel_pop
  | |- parallel _ _ (fun s => Ok (with_stkh s _)) _ => apply parallel_height
  | |- parallel ?b ?f (fun s => emit s (@?e1 s)) (fun r => emit r (@?e2 r)) =>
      apply (parallel_emit b f e1 e2); same_sizes
  | |- parallel ?b ?f (ins_at ?e1) (ins_at ?e2) =>
      apply (parallel_emit b f (fun s => e1 (asm_i s)) (fun s => e2 (asm_i s))); same_sizes
  end.

Section parallel_gen.
Context (fb : list asm_blk_info) (ff : list asm_fn_info) (base : Z).
Abbreviation parallel := (parallel fb ff).

Lemma parallel_arith t : parallel (gen_arith t) (gen_arith t).
Proof. destruct t; cbn [gen_arith]; unfold pop_two; parallel. Qed.

Lemma parallel_compare t : parallel (gen_compare t) (gen_compare t).
Proof. destruct t; cbn [gen_compare]; unfold gen_cmp, pop_two; parallel. Qed.

Lemma parallel_memory t : parallel (gen_memory base t) (gen_memory base t).
Proof. destruct t; cbn [gen_memory]; unfold gen_check; parallel. Qed.

Lemma parallel_local (g : Z -> asm) iv :
  (forall d, parallel (g d) (g d)) ->
  parallel (fun s => d ← local_offset s iv; g d s) (fun s => d ← local_offset s iv; g d s).
Proof.
  intros Hg s1 s2 s1' Hp H. unfold local_offset in *. inv_ok. rewrite (p_fn _ _ _ _ Hp).
  destruct (par_fn fb ff _ _ _ _ Hp H1) as (f & -> & Hs). cbn [mbind res_bind]. injection Hs as _ -> ->.
  by apply (Hg _ s1).
Qed.

Lemma parallel_ret : parallel gen_ret gen_ret.
Proof.
  unfold gen_ret. apply (parallel_fn fb ff g_fn (fun f => _)); [apply p_fn|].
  intros f1 f2 Hs. injection Hs as -> _ _. destruct (art f1 =? 0); parallel.
Qed.

Lemma parallel_call iv : parallel (gen_call base iv) (gen_call base iv).
Proof.
  unfold gen_call. apply (parallel_fn fb ff (fun _ => iv) (fun f => _)); [done|].
  intros f1 f2 Hs. injection Hs as -> -> ->.
  destruct (art f1 =? 0); parallel.
Qed.

Lemma parallel_branch a1 a2 : parallel (gen_branch base a1) (gen_branch base a2).
Proof. unfold gen_branch. parallel. Qed.

Lemma parallel_target (g : Z -> asm) iv :
  0 <= iv -> (forall a1 a2, parallel (g a1) (g a2)) ->
  parallel (fun s => b ← branch_info s iv; g (br_addr b) s) (fun s => b ← branch_info s iv; g (br_addr b) s).
Proof.
  intros Hiv Hg s1 s2 s1' Hp H. inv_ok. destruct (par_branch fb ff _ _ _ _ Hp Hiv H0) as [j ->].
  cbn [mbind res_bind]. by apply (Hg (br_addr a) (br_addr j) s1).
Qed.

Definition forward (t : instr_token) (iv : Z) : Prop :=
  match t with br | br_if => 0 <= iv | _ => True end.

Lemma parallel_imm t iv : forward t iv -> parallel (gen_imm base t iv) (gen_imm base t iv).
Proof.
  intros Hf. destruct t; cbn [gen_imm]; parallel.
  - apply (parallel_local (fun d => ins (mov_r32_dis_ebp EAX d) +> push_ EAX)). intros. parallel.
  - apply (parallel_local (fun d => pop_ EAX +> ins (mov_dis_ebp_r32 d EAX))). intros. parallel.
  - apply (parallel_target (fun a => gen_branch base a)); [done|apply parallel_branch].
  - apply (parallel_target (fun a => pop_ EAX +> ins (test_r32_r32 EAX EAX) +> ins (jz_rel 0 17) +>
      gen_branch base a)); [done|]. intros. parallel. apply parallel_branch.
  - apply parallel_call.
Qed.
End parallel_gen.

(** ** How the tables grow *)

(** The output position is inside the buffer. *)
Definition bwf (s : gst) : Prop := 0 <= asm_i s <= zlen (buf s) /\ zlen (buf s) < 2 ^ 31.

(** A block that has been opened keeps its height, and its address once it has
    one; a function that has been entered keeps its address. *)
Record grows (s s' : gst) : Prop := {
  gr_blk : cur_blk s <= cur_blk s';
  gr_fn : g_fn s <= g_fn s';
  gr_blks : forall b i, b <= cur_blk s -> arr_get (g_blks s) b = Ok i ->
    exists j, arr_get (g_blks s') b = Ok j /\ stk_height j = stk_height i /\
              (br_addr i <> 0 -> br_addr j = br_addr i);
  gr_fns : forall k f, k <= g_fn s -> arr_get (g_fns s) k = Ok f ->
    exists g, arr_get (g_fns s') k = Ok g /\ fn_addr g = fn_addr f;
  gr_len : zlen (g_blks s') = zlen (g_blks s);
  gr_strip : strip <$> g_fns s' = strip <$> g_fns s;
  gr_stk_len : zlen (cur_blk_stk s') = zlen (cur_blk_stk s);
  gr_buf : zlen (buf s') = zlen (buf s);
  gr_i : bwf s -> asm_i s <= asm_i s' /\ bwf s';
}.

Lemma grows_refl s : grows s s.
Proof. constructor; eauto 6 using Z.le_refl. Qed.

Lemma grows_trans s1 s2 s3 : grows s1 s2 -> grows s2 s3 -> grows s1 s3.
Proof.
  intros [A1 A2 A3 A4 A5 A6 A7 A8 A9] [B1 B2 B3 B4 B5 B6 B7 B8 B9]. constructor; try lia; try congruence.
  - intros b i Hb Hi. destruct (A3 b i Hb Hi) as (j & Hj & Hh & Ha).
    destruct (B3 b j ltac:(lia) Hj) as (k & Hk & Hh' & Ha'). exists k. split_and!; [done|congruence|].
    intros Hn. specialize (Ha Hn). rewrite <- Ha. apply Ha'. by rewrite Ha.
  - intros k f Hk Hf. destruct (A4 k f Hk Hf) as (g & Hg & He).
    destruct (B4 k g ltac:(lia) Hg) as (h & Hh & He'). exists h. split; [done|congruence].
  - intros Hs. destruct (A9 Hs) as [Hi Hs2]. destruct (B9 Hs2) as [Hi2 Hs3]. split; [lia|done].
Qed.

Lemma grows_agrees s s' : grows s s' -> agrees (g_blks s') (g_fns s') s.
Proof. intros []. constructor; [intros b i Hb|intros k f Hk]; eauto with lia. Qed.

(** A fragment that only emits. *)
Definition emits_only (a : asm) : Prop :=
  forall s s', a s = Ok s' -> framed s s' /\ zlen (buf s') = zlen (buf s) /\
    (bwf s -> asm_i s <= asm_i s' /\ bwf s').

Lemma only_emit (f : gst -> enc) :
  (forall s, enc_len (f s) = zlen (enc_bytes (f s))) -> emits_only (fun s => emit s (f s)).
Proof.
  intros Hf s s' H. unfold emit in H. inv_ok. pose proof (arr_write_len _ _ _ _ H0) as Hl.
  apply arr_write_Ok in H0 as (Hi & Hfit & _). split_and!; [by constructor|done|].
  intros [Hb Hb2]. unfold bwf. cbn. rewrite Hl, Hf. pose proof (zlen_nonneg (enc_bytes (f s))).
  rewrite u32_small by lia. lia.
Qed.

Lemma only_seq a b : emits_only a -> emits_only b -> emits_only (a +> b).
Proof.
  intros Ha Hb s s' H. unfold seq in H. inv_ok. apply Ha in H0 as (Hf1 & Hl1 & Hi1).
  apply Hb in H as (Hf2 & Hl2 & Hi2). split_and!; [by eapply framed_trans|congruence|].
  intros Hs. destruct (Hi1 Hs) as [? Hs1]. destruct (Hi2 Hs1) as [? ?]. split; [lia|done].
Qed.

Lemma only_height (h : gst -> Z) : emits_only (fun s => Ok (with_stkh s (h s))).
Proof. intros s s' [= <-]. split_and!; [by constructor|done|]. intros Hs. split; [cbn; lia|exact Hs]. Qed.

Lemma only_height_emit (h : gst -> Z) (e : enc) :
  enc_len e = zlen (enc_bytes e) -> emits_only (fun s => emit (with_stkh s (h s)) e).
Proof.
  intros He. apply (only_seq (fun s => Ok (with_stkh s (h s))) (fun s => emit s e));
    [apply only_height|by apply (only_emit (fun _ => e))].
Qed.

Lemma only_skip : emits_only skip.
Proof. intros s s' [= <-]. split_and!; [apply framed_refl|done|]. intros Hs. split; [lia|done]. Qed.

Lemma only_bind {A} (r : gst -> res A) (g : A -> asm) :
  (forall x, emits_only (g x)) -> emits_only (fun s => x ← r s; g x s).
Proof. intros Hg s s' H. inv_ok. by eapply Hg. Qed.

Lemma only_grows a s s' : emits_only a -> a s = Ok s' -> grows s s'.
Proof.
  intros Ha H. apply Ha in H as (Hf & Hl & Hi). destruct Hf. constructor; rewrite ?fr_blk, ?fr_fn; try lia; try congruence.
  - intros b i _ Hb. exists i. split_and!; congruence.
  - intros k f _ Hk. exists f. split; congruence.
  - done.
Qed.

Ltac emits_only :=
  repeat match goal with
  | |- emits_only (_ +> _) => apply only_seq
  | |- emits_only skip => apply only_skip
  | |- emits_only (ins ?e) => apply (only_emit (fun _ => e)); reflexivity
  | |- emits_only (push_nil ?r) => apply (only_emit (fun _ => (push_r32 r 0).2)); reflexivity
  | |- emits_only (pop_nil ?r) => apply (only_emit (fun _ => (pop_r32 r 0).2)); reflexivity
  | |- emits_only (ins_at ?f) => apply (only_emit (fun s => f (asm_i s))); reflexivity
  | |- emits_only (fun s => emit s (@?f s)) => apply (only_emit f); reflexivity
  | |- emits_only (push_ ?r) => apply (only_height_emit (fun s => s32 (stkh s + 1))); reflexivity
  | |- emits_only (pop_ ?r) => apply (only_height_emit (fun s => s32 (stkh s - 1))); reflexivity
  | |- emits_only (fun s => Ok (with_stkh s (@?h s))) => apply (only_height h)
  | |- emits_only (fun s => (?a +> ?b) s) => change (emits_only (a +> b))
  end.

Lemma only_arith t : emits_only (gen_arith t).
Proof. destruct t; cbn [gen_arith]; unfold pop_two; emits_only. Qed.

Lemma only_compare t : emits_only (gen_compare t).
Proof. destruct t; cbn [gen_compare]; unfold gen_cmp, pop_two; emits_only. Qed.

Lemma only_memory base t : emits_only (gen_memory base t).
Proof. destruct t; cbn [gen_memory]; unfold gen_check; emits_only. Qed.

Lemma only_ret : emits_only gen_ret.
Proof. unfold gen_ret. apply only_bind. intros f. destruct (art f =? 0); emits_only. Qed.

Lemma only_imm base t iv : emits_only (gen_imm base t iv).
Proof.
  destruct t; cbn [gen_imm]; emits_only; unfold gen_get_l, gen_set_l, gen_br, gen_br_if, gen_call, gen_branch;
    apply only_bind; intros f; emits_only.
  destruct (art f =? 0); emits_only.
Qed.

Lemma only_prelude base : emits_only (prelude base).
Proof. unfold prelude. emits_only. apply only_bind. intros f. emits_only. Qed.

Lemma only_goodret : emits_only goodret.
Proof. unfold goodret. emits_only. Qed.

Lemma only_trapret : emits_only trapret.
Proof. unfold trapret. emits_only. Qed.

(** *** Opening a block *)

(** [s'] is [s] with a new block that has address [a] and height [h]. *)
Definition opened (s : gst) (a h : Z) (s' : gst) : Prop :=
  exists stk l,
    arr_set (cur_blk_stk s) (cur_blk_h s + 1) (cur_blk s + 1) = Ok stk /\
    arr_set (g_blks s) (cur_blk s + 1) {| br_addr := a; stk_height := h |} = Ok l /\
    s' = with_blks (with_blk s stk (cur_blk s + 1) (cur_blk_h s + 1)) l.

Lemma set_cur_blk s a h s1 s2 :
  set_br_addr s (cur_blk s) a = Ok s1 -> set_stk_height s1 (cur_blk s1) h = Ok s2 ->
  stkh s1 = stkh s /\
  exists l, arr_set (g_blks s) (cur_blk s) {| br_addr := a; stk_height := h |} = Ok l /\ s2 = with_blks s l.
Proof.
  unfold set_br_addr, set_stk_height. intros H1 H2. inv_ok. cbn [g_blks cur_blk with_blks] in *.
  rewrite (arr_get_set _ _ _ _ _ H3), Z.eqb_refl in H. injection H as <-. cbn [br_addr] in H0.
  apply arr_set_Ok in H3 as [Hb ->]. apply arr_set_Ok in H0 as [_ ->]. rewrite list_insert_insert_eq.
  split; [done|]. eexists. split; [by apply arr_set_ok|]. by destruct s.
Qed.

Lemma gen_block_opened s s' : gen_block true s = Ok s' -> opened s 0 (stkh s) s'.
Proof.
  unfold gen_block, open_blk. intros H. inv_ok.
  destruct (set_cur_blk _ _ _ _ _ H1 H) as (Hh & l & Hl & ->). rewrite Hh in Hl. by exists a1, l.
Qed.

Lemma gen_loop_opened base s s' :
  gen_loop base true s = Ok s' -> opened s (s32 (base + asm_i s)) (stkh s) s'.
Proof.
  unfold gen_loop, open_blk. intros H. inv_ok.
  destruct (set_cur_blk _ _ _ _ _ H1 H) as (Hh & l & Hl & ->). rewrite Hh in Hl. by exists a1, l.
Qed.

(** The state in which a declaration opens its block. *)
Definition entered (base : Z) (s s1 : gst) : Prop :=
  exists f l,
    arr_get (g_fns s) (g_fn s + 1) = Ok f /\
    arr_set (g_fns s) (g_fn s + 1)
      {| art := art f; fn_addr := s32 (base + asm_i s); aparam_n := aparam_n f; alocal_n := alocal_n f |}
      = Ok l /\
    s1 = with_fns (with_fn s (g_fn s + 1)) l.

Lemma gen_declfn_opened base s s' :
  gen_declfn base true s = Ok s' -> exists s1, entered base s s1 /\ opened s1 (-1) 0 s'.
Proof.
  unfold gen_declfn, open_blk. intros H. inv_ok.
  destruct (set_cur_blk _ _ _ _ _ H3 H) as (_ & l & Hl & ->).
  eexists. split; [exists a0, a1; split_and!; done|]. by exists a3, l.
Qed.

Lemma opened_grows s a h s' : opened s a h s' -> grows s s'.
Proof.
  intros (stk & l & Hstk & Hl & ->). constructor; cbn; try lia; try done.
  - intros b i Hb Hi. exists i. rewrite (arr_get_set _ _ _ _ _ Hl).
    by destruct (Z.eqb_spec b (cur_blk s + 1)); [lia|].
  - eauto.
  - by apply arr_set_len in Hl.
  - by apply arr_set_len in Hstk.
Qed.

Lemma strip_insert l k f g :
  arr_get l k = Ok f -> strip g = strip f -> strip <$> <[Z.to_nat k := g]> l = strip <$> l.
Proof.
  intros [Hk Hf]%arr_get_Ok Hs. rewrite list_fmap_insert, Hs. apply list_insert_id.
  by rewrite list_lookup_fmap, Hf.
Qed.

Lemma entered_grows base s s1 : entered base s s1 -> grows s s1.
Proof.
  intros (f & l & Hf & Hl & ->). constructor; cbn; try lia; try done.
  - eauto.
  - intros k g Hk Hg. exists g. rewrite (arr_get_set _ _ _ _ _ Hl).
    by destruct (Z.eqb_spec k (g_fn s + 1)); [lia|].
  - apply arr_set_Ok in Hl as [_ ->]. by apply strip_insert with (f := f).
Qed.

(** *** Closing a block *)

Definition blk_at (s : gst) (k : Z) (b : Z) (i : asm_blk_info) : Prop :=
  arr_get (cur_blk_stk s) k = Ok b /\ arr_get (g_blks s) b = Ok i.

(** What [end] does inside a function: cut the stack back, and record the
    address of the block unless it has one. *)
Definition closed (base : Z) (gi : bool) (s s' : gst) : Prop :=
  exists b i c o s1 s2,
    blk_at s (cur_blk_h s) b i /\ blk_at s (cur_blk_h s - 1) c o /\
    emit (with_stkh s (stk_height o)) (add_r32_imm ESP (4 * (stk_height i - stk_height o))) = Ok s1 /\
    (if gi && (br_addr i =? 0) then set_br_addr s1 b (s32 (base + asm_i s1)) else Ok s1) = Ok s2 /\
    s' = with_blk s2 (cur_blk_stk s2) (cur_blk s2) (cur_blk_h s2 - 1).

Lemma gen_end_closed base gi s s' :
  gen_end base gi s = Ok s' ->
  (0 < cur_blk_h s /\ closed base gi s s') \/
  (cur_blk_h s <= 0 /\ s' = with_blk s (cur_blk_stk s) (cur_blk s) (cur_blk_h s - 1)).
Proof.
  unfold gen_end. intros H. inv_ok. destruct (Z.ltb_spec 0 (cur_blk_h s)).
  - inv_ok. left. split; [done|]. exists a0, a1, a2, a3, a4, a. by split_and!.
  - inv_ok. by right.
Qed.

Lemma closed_gen_end base gi s s' : 0 < cur_blk_h s -> closed base gi s s' -> gen_end base gi s = Ok s'.
Proof.
  intros Hh (b & i & c & o & s1 & s2 & [Hb Hi] & [Hc Ho] & He & Hs & ->). unfold gen_end.
  destruct (Z.ltb_spec 0 (cur_blk_h s)); [|lia]. rewrite Hb. cbn [mbind res_bind]. rewrite Hi.
  cbn [mbind res_bind]. rewrite Hc. cbn [mbind res_bind]. rewrite Ho. cbn [mbind res_bind]. cbv zeta.
  rewrite He. cbn [mbind res_bind]. rewrite Hs. done.
Qed.

Lemma set_br_grows s b i a s' :
  arr_get (g_blks s) b = Ok i -> br_addr i = 0 -> set_br_addr s b a = Ok s' -> grows s s'.
Proof.
  intros Hi H0 H. unfold set_br_addr in H. rewrite Hi in H. cbn [mbind res_bind] in H. inv_ok.
  constructor; cbn; try lia; try done; eauto.
  - intros c j Hc Hj. rewrite (arr_get_set _ _ _ _ _ H1). destruct (Z.eqb_spec c b) as [->|]; [|eauto].
    rewrite Hi in Hj. injection Hj as <-. eexists. split_and!; [done|done|]. by rewrite H0.
  - by apply arr_set_len in H1.
Qed.

Lemma with_blk_grows s stk h : zlen stk = zlen (cur_blk_stk s) -> grows s (with_blk s stk (cur_blk s) h).
Proof. intros Hl. constructor; cbn; eauto 6 using Z.le_refl. Qed.

Lemma closed_grows base gi s s' : closed base gi s s' -> grows s s'.
Proof.
  intros (b & i & c & o & s1 & s2 & [Hb Hi] & _ & He & Hs & ->).
  pose proof (only_height_emit (fun _ => stk_height o) (add_r32_imm ESP (4 * (stk_height i - stk_height o)))
    eq_refl) as Ho.
  pose proof (only_grows _ _ _ Ho He) as G1. destruct (Ho _ _ He) as (Hf & _ & _).
  eapply grows_trans; [exact G1|]. eapply grows_trans; [|by apply with_blk_grows].
  destruct (gi && (br_addr i =? 0)) eqn:E; [|inv_ok; apply grows_refl].
  apply andb_true_iff in E as [_ E%Z.eqb_eq]. eapply set_br_grows; [|exact E|exact Hs].
  by rewrite (fr_blks _ _ Hf).
Qed.

Lemma gen_instr_grows base i s s' : gen_instr base true i s = Ok s' -> grows s s'.
Proof.
  destruct i as [t|t v|t ps ls]; cbn [gen_instr]; intros H.
  - destruct t; cbn [gen_plain] in H;
      first [ by eapply only_grows; [|exact H]; first [apply only_arith|apply only_compare|apply only_memory|apply only_ret]
            | idtac ].
    + apply (only_grows (fun s => emit s (jmp_rel (base + asm_i s) (trapret_addr s)))); [emits_only|exact H].
    + by eapply opened_grows, gen_block_opened.
    + by eapply opened_grows, gen_loop_opened.
    + apply gen_end_closed in H as [[_ H]|[_ ->]]; [by eapply closed_grows|by apply with_blk_grows].
  - eapply only_grows; [apply only_imm|exact H].
  - apply gen_declfn_opened in H as (s1 & H1 & H2).
    eapply grows_trans; [by eapply entered_grows|by eapply opened_grows].
Qed.

Lemma gen_list_grows base p s s' : gen_list base true p s = Ok s' -> grows s s'.
Proof.
  revert s. induction p as [|i p IH]; cbn [gen_list]; intros s H.
  - injection H as <-. apply grows_refl.
  - unfold seq in H. inv_ok. eapply grows_trans; [by eapply gen_instr_grows|by apply IH].
Qed.

(** ** The second pass follows the first *)

Lemma agrees_back fb ff s s' : grows s s' -> agrees fb ff s' -> agrees fb ff s.
Proof.
  intros [] []. constructor.
  - intros b i Hb Hi. destruct (gr_blks0 b i ltac:(lia) Hi) as (j & Hj & Hh & Ha).
    destruct (ag_blks0 b j ltac:(lia) Hj) as (k & Hk & Hh' & Ha'). exists k. split_and!; [done|congruence|].
    intros Hn. specialize (Ha Hn). rewrite <- Ha. apply Ha'. by rewrite Ha.
  - intros k f Hk Hf. destruct (gr_fns0 k f ltac:(lia) Hf) as (g & Hg & He).
    destruct (ag_fns0 k g ltac:(lia) Hg) as (h & Hh & He'). exists h. split; [done|congruence].
Qed.

(** The addresses of the fixed code. *)
Definition addrs (s : gst) : Z * Z * Z := (goodret_addr s, trapret_addr s, start_addr s).

Lemma framed_addrs s s' : framed s s' -> addrs s' = addrs s.
Proof. intros []. unfold addrs. congruence. Qed.

Lemma grows_addrs s a b c : grows s (with_addrs s a b c).
Proof. constructor; cbn; eauto 6 using Z.le_refl. Qed.

Lemma header_grows base s s' : gen_header base s = Ok s' -> grows s s'.
Proof.
  unfold gen_header. intros H. inv_ok. apply (only_grows _ _ _ (only_prelude base)) in H0.
  apply (only_grows _ _ _ only_goodret) in H1. apply (only_grows _ _ _ only_trapret) in H2.
  eapply grows_trans; [exact H0|]. eapply grows_trans; [apply grows_addrs|].
  eapply grows_trans; [exact H1|]. eapply grows_trans; [apply grows_addrs|].
  eapply grows_trans; [exact H2|]. apply grows_addrs.
Qed.

Lemma emit_advances s e s' :
  bwf s -> enc_len e = zlen (enc_bytes e) -> emit s e = Ok s' -> asm_i s' = asm_i s + enc_len e.
Proof.
  intros [Hb Hb2] He H. unfold emit in H. inv_ok. apply arr_write_Ok in H0 as (Hi & Hfit & _). cbn.
  pose proof (zlen_nonneg (enc_bytes e)). apply u32_small. lia.
Qed.

Lemma header_advances base s s' : bwf s -> gen_header base s = Ok s' -> 0 < asm_i s'.
Proof.
  unfold gen_header. intros Hs H. inv_ok. cbn [asm_i with_addrs].
  unfold trapret in H2. match type of H2 with (?a +> ?b) _ = _ => set (f := a) in H2 end.
  unfold seq in H2. inv_ok.
  assert (emits_only f) as Hf by (subst f; emits_only).
  apply only_prelude in H0 as (_ & _ & Ha). apply only_goodret in H1 as (_ & _ & Hb).
  apply Hf in H as (_ & _ & Hc). destruct (Ha Hs) as [_ Ha']. destruct (Hb Ha') as [_ Hb'].
  destruct (Hc Hb') as [_ Hc']. rewrite (emit_advances a2 ret_fn a1 Hc' eq_refl H2). destruct Hc' as [? _].
  cbn [enc_len ret_fn]. lia.
Qed.

(** An instruction leaves the addresses of the fixed code alone. *)
Lemma gen_instr_addrs base gi i s s' : gen_instr base gi i s = Ok s' -> addrs s' = addrs s.
Proof.
  destruct i as [t|t v|t ps ls]; cbn [gen_instr]; intros H.
  - destruct t; cbn [gen_plain] in H;
      first [ by apply only_arith in H as [H _]; apply framed_addrs
            | by apply only_compare in H as [H _]; apply framed_addrs
            | by apply only_memory in H as [H _]; apply framed_addrs
            | by apply only_ret in H as [H _]; apply framed_addrs | idtac ].
    + unfold emit in H. by inv_ok.
    + unfold gen_block, open_blk, set_br_addr, set_stk_height in H. inv_ok. destruct gi; by inv_ok.
    + unfold gen_loop, open_blk, set_br_addr, set_stk_height in H. inv_ok. destruct gi; by inv_ok.
    + unfold gen_end, emit, set_br_addr in H. inv_ok. destruct (0 <? cur_blk_h s); inv_ok; [|done].
      destruct (gi && _); by inv_ok.
  - apply only_imm in H as [H _]. by apply framed_addrs.
  - unfold gen_declfn, open_blk, set_br_addr, set_stk_height in H. inv_ok. destruct gi; by inv_ok.
Qed.

Lemma gen_list_addrs base gi p s s' : gen_list base gi p s = Ok s' -> addrs s' = addrs s.
Proof.
  revert s. induction p as [|i p IH]; cbn [gen_list]; intros s H; [by injection H as <-|].
  unfold seq in H. inv_ok. rewrite (IH _ H). by eapply gen_instr_addrs.
Qed.

Section follow.
Context (fb : list asm_blk_info) (ff : list asm_fn_info) (base : Z).
Abbreviation par := (par fb ff).

Lemma par_open s1 s2 a h s1' :
  par s1 s2 -> opened s1 a h s1' -> agrees fb ff s1' ->
  exists s2', open_blk s2 = Ok s2' /\ par s1' s2'.
Proof.
  intros Hp (stk & l & Hstk & Hl & ->) Hag. unfold open_blk. destruct Hp.
  destruct (arr_set_Ok _ _ _ _ Hstk) as [Hb _]. destruct (arr_set_Ok _ _ _ _ Hl) as [Hb2 _].
  rewrite p_blk0, p_blk_h0. pose proof (arr_set_ok (cur_blk_stk s2) (cur_blk_h s1 + 1) (cur_blk s1 + 1)
    ltac:(lia)) as Hs2. rewrite Hs2. cbn [mbind res_bind]. eexists. split; [reflexivity|].
  constructor; cbn; try done.
  - apply arr_set_len in Hstk, Hs2. congruence.
  - intros k Hk. rewrite (arr_get_set _ _ _ _ _ Hstk), (arr_get_set _ _ _ _ _ Hs2).
    destruct (Z.eqb_spec k (cur_blk_h s1 + 1)).
    + exists (cur_blk s1 + 1). split_and!; done || lia.
    + destruct (p_stk0 k ltac:(lia)) as (b & H1 & H2 & H3). exists b. split_and!; done || lia.
  - apply arr_set_len in Hl. congruence.
Qed.

Lemma par_enter s1 s2 s1' :
  par s1 s2 -> entered base s1 s1' -> agrees fb ff s1' -> par s1' (with_fn s2 (g_fn s2 + 1)).
Proof.
  intros [] He Hag. pose proof (gr_strip _ _ (entered_grows _ _ _ He)) as Hs.
  destruct He as (f & l & Hf & Hl & ->). constructor; cbn in *; try done; congruence.
Qed.

Lemma par_set_blks s1 s2 l :
  par s1 s2 -> zlen l = zlen (g_blks s1) -> agrees fb ff (with_blks s1 l) -> par (with_blks s1 l) s2.
Proof. intros [] Hl Hag. constructor; cbn; try done; congruence. Qed.

Lemma par_shut s1 s2 :
  par s1 s2 ->
  par (with_blk s1 (cur_blk_stk s1) (cur_blk s1) (cur_blk_h s1 - 1))
      (with_blk s2 (cur_blk_stk s2) (cur_blk s2) (cur_blk_h s2 - 1)).
Proof.
  intros []. constructor; cbn; try done; try congruence.
  - intros k Hk. apply p_stk0. lia.
  - destruct p_agrees0. by constructor.
Qed.

Lemma par_blk_at s1 s2 k b i :
  par s1 s2 -> k <= cur_blk_h s1 -> blk_at s1 k b i ->
  exists j, blk_at s2 k b j /\ stk_height j = stk_height i.
Proof.
  intros [] Hk [Hb Hi]. destruct (p_stk0 k) as (b' & H1 & H2 & H3).
  { apply arr_get_bound in Hb. lia. }
  rewrite Hb in H1. injection H1 as <-. destruct (ag_blks _ _ _ p_agrees0 b i H3 Hi) as (j & Hj & Hh & _).
  exists j. split; [|done]. split; [done|]. congruence.
Qed.

Lemma par_close s1 s2 s1' :
  par s1 s2 -> closed base true s1 s1' -> agrees fb ff s1' ->
  exists s2', closed base false s2 s2' /\ par s1' s2'.
Proof.
  intros Hp (b & i & c & o & sa & sb & Hb & Hc & He & Hs & ->) Hag.
  destruct (par_blk_at s1 s2 (cur_blk_h s1) _ _ Hp ltac:(lia) Hb) as (i2 & Hb2 & Hhi).
  destruct (par_blk_at s1 s2 (cur_blk_h s1 - 1) _ _ Hp ltac:(lia) Hc) as (o2 & Hc2 & Hho).
  destruct (par_emit fb ff _ (with_stkh s2 (stk_height o))
    (add_r32_imm ESP (4 * (stk_height i - stk_height o)))
    (add_r32_imm ESP (4 * (stk_height i2 - stk_height o2))) _ (par_stkh fb ff s1 s2 (stk_height o) Hp)
    ltac:(same_sizes) He) as (sc & Hec & Hpc).
  eexists. split.
  - exists b, i2, c, o2, sc, sc. rewrite (p_blk_h _ _ _ _ Hp). rewrite <- Hho in Hec.
    split_and!; [done|done|done|done|reflexivity].
  - apply par_shut. destruct (true && (br_addr i =? 0)); [|by inv_ok].
    unfold set_br_addr in Hs. inv_ok. apply par_set_blks; [done|by apply arr_set_len in H0|].
    destruct Hag. by constructor.
Qed.

Lemma par_instr i s1 s2 s1' :
  match i with Imm t v => forward t (s32 v) | _ => True end ->
  par s1 s2 -> gen_instr base true i s1 = Ok s1' -> agrees fb ff s1' ->
  exists s2', gen_instr base false i s2 = Ok s2' /\ par s1' s2'.
Proof.
  intros Hf Hp H Hag. destruct i as [t|t v|t ps ls]; cbn [gen_instr] in *.
  - destruct t; cbn [gen_plain] in *;
      first [ by eapply parallel_arith | by eapply parallel_compare
            | by eapply parallel_memory | by eapply parallel_ret | idtac ].
    + apply (parallel_emit fb ff (fun s => jmp_rel (base + asm_i s) (trapret_addr s))
        (fun s => jmp_rel (base + asm_i s) (trapret_addr s)) ltac:(same_sizes) s1); done.
    + apply gen_block_opened in H. destruct (par_open _ _ _ _ _ Hp H Hag) as (s2' & Ho & Hp').
      exists s2'. split; [|done]. unfold gen_block. by rewrite Ho.
    + apply gen_loop_opened in H. destruct (par_open _ _ _ _ _ Hp H Hag) as (s2' & Ho & Hp').
      exists s2'. split; [|done]. unfold gen_loop. by rewrite Ho.
    + apply gen_end_closed in H as [[Hh H]|[Hh ->]].
      * destruct (par_close _ _ _ Hp H Hag) as (s2' & Hc & Hp'). exists s2'. split; [|done].
        apply closed_gen_end; [|done]. by rewrite (p_blk_h _ _ _ _ Hp).
      * eexists. split; [|by apply par_shut]. unfold gen_end.
        destruct (Z.ltb_spec 0 (cur_blk_h s2)); [|done]. rewrite (p_blk_h _ _ _ _ Hp) in *. lia.
  - by eapply parallel_imm.
  - apply gen_declfn_opened in H as (sa & He & Ho).
    pose proof (par_enter _ _ _ Hp He (agrees_back _ _ _ _ (opened_grows _ _ _ _ Ho) Hag)) as Hpa.
    destruct (par_open _ _ _ _ _ Hpa Ho Hag) as (s2' & Hs2 & Hp'). exists s2'. split; [|done].
    unfold gen_declfn. by rewrite Hs2.
Qed.

Definition forward_instr (i : instr) : Prop :=
  match i with Imm t v => forward t (s32 v) | _ => True end.

Lemma par_list p s1 s2 s1' :
  Forall forward_instr p -> par s1 s2 -> gen_list base true p s1 = Ok s1' -> agrees fb ff s1' ->
  exists s2', gen_list base false p s2 = Ok s2' /\ par s1' s2'.
Proof.
  revert s1 s2. induction p as [|i p IH]; cbn [gen_list]; intros s1 s2 Hf Hp H Hag.
  - injection H as <-. by exists s2.
  - unfold seq in *. inv_ok. apply Forall_cons in Hf as [Hi Hf].
    destruct (par_instr i s1 s2 a Hi Hp H0) as (sb & -> & Hpb).
    { eapply agrees_back; [|exact Hag]. by eapply gen_list_grows. }
    cbn [mbind res_bind]. by apply (IH a).
Qed.

(** *** The fixed code *)

Lemma par_addrs s1 s2 a1 b1 c1 a2 b2 c2 : par s1 s2 -> par (with_addrs s1 a1 b1 c1) (with_addrs s2 a2 b2 c2).
Proof. intros []. constructor; try done. destruct p_agrees0. by constructor. Qed.

Lemma parallel_prelude : parallel fb ff (prelude base) (prelude base).
Proof.
  unfold prelude. parallel.
  apply (parallel_fn fb ff (fun _ => 0) (fun f s => emit s (sub_r32_imm ESP (4 * alocal_n f)))); [done|].
  intros f1 f2 _. parallel.
Qed.

Lemma parallel_goodret : parallel fb ff goodret goodret.
Proof. unfold goodret. parallel. Qed.

Lemma parallel_trapret : parallel fb ff trapret trapret.
Proof. unfold trapret. parallel. Qed.

Lemma par_header s1 s2 s1' :
  par s1 s2 -> gen_header base s1 = Ok s1' ->
  exists s2', gen_header base s2 = Ok s2' /\ par s1' s2' /\ addrs s2' = addrs s1'.
Proof.
  unfold gen_header. intros Hp H. inv_ok.
  destruct (parallel_prelude _ _ _ Hp H0) as (sa & -> & Ha). cbn [mbind res_bind].
  apply (par_addrs _ _ (asm_i a) (trapret_addr a) (start_addr a) (asm_i sa) (trapret_addr sa) (start_addr sa)) in Ha as Ha'.
  destruct (parallel_goodret _ _ _ Ha' H1) as (sb & Hb & Hpb). rewrite Hb. cbn [mbind res_bind].
  apply (par_addrs _ _ (goodret_addr a0) (asm_i a0) (start_addr a0) (goodret_addr sb) (asm_i sb) (start_addr sb)) in Hpb as Hpb'.
  destruct (parallel_trapret _ _ _ Hpb' H2) as (sc & Hc & Hpc). rewrite Hc. cbn [mbind res_bind].
  eexists. split; [reflexivity|]. split; [by apply par_addrs|].
  apply only_goodret in H1 as (F1 & _), Hb as (F2 & _). apply only_trapret in H2 as (F3 & _), Hc as (F4 & _).
  unfold addrs. cbn [goodret_addr trapret_addr start_addr with_addrs asm_i].
  rewrite (fr_good _ _ F3), (fr_good _ _ F4), (fr_trap _ _ F3), (fr_trap _ _ F4), (p_i _ _ _ _ Hpc).
  cbn [goodret_addr trapret_addr with_addrs]. rewrite (fr_good _ _ F1), (fr_good _ _ F2), (p_i _ _ _ _ Hpb).
  cbn [goodret_addr with_addrs]. by rewrite (p_i _ _ _ _ Ha).
Qed.
End follow.

Lemma reset_bwf s : zlen (buf s) < 2 ^ 31 -> bwf (reset s).
Proof. intros H. unfold bwf. cbn. pose proof (zlen_nonneg (buf s)). lia. Qed.

Lemma pass_grows base p s s' : pass base true p s = Ok s' -> grows (reset s) s'.
Proof.
  unfold pass. intros H. inv_ok. eapply grows_trans; [by eapply header_grows|by eapply gen_list_grows].
Qed.

Lemma par_reset s s1 : grows (reset s) s1 -> par (g_blks s1) (g_fns s1) (reset s) (reset s1).
Proof.
  intros []. constructor; cbn in *; try done; try lia. constructor; cbn; intros; lia.
Qed.

(** The second pass reaches every point the first one reaches, at the same
    output position. *)
Lemma pass_follows base p q s s1 :
  Forall forward_instr (p ++ q) -> pass base true (p ++ q) s = Ok s1 ->
  exists sm1 sm2, pass base true p s = Ok sm1 /\ pass base false p s1 = Ok sm2 /\
    gen_list base true q sm1 = Ok s1 /\
    par (g_blks s1) (g_fns s1) sm1 sm2 /\ addrs sm2 = addrs sm1.
Proof.
  intros Hf H. pose proof (par_reset _ _ (pass_grows _ _ _ _ H)) as Hp. unfold pass in *. inv_ok.
  assert (exists sm1, gen_list base true p a = Ok sm1 /\ gen_list base true q sm1 = Ok s1) as (sm1 & H1 & H2).
  { clear -H. revert a H. induction p as [|i p IH]; intros a H; cbn [app gen_list] in *; [by exists a|].
    unfold seq in *. inv_ok. rewrite H0. cbn [mbind res_bind]. by apply IH. }
  apply Forall_app in Hf as [Hfp _]. destruct (par_header _ _ _ _ _ _ Hp H0) as (a2 & Ha2 & Hpa & Hadd).
  destruct (par_list _ _ _ p _ _ _ Hfp Hpa H1) as (sm2 & Hsm2 & Hpm).
  { by eapply grows_agrees, gen_list_grows. }
  exists sm1, sm2. rewrite H0, Ha2. cbn [mbind res_bind]. split_and!; try done.
  apply gen_list_addrs in H1, Hsm2. congruence.
Qed.
