(* ===== verification/TargetProofs.v ===== *)
(** * Where calls and branches go

    The addresses that the second pass of [to_asm] uses are those at which it
    puts the functions, the loops and the ends of the blocks. *)

From stdpp Require Import base list strings gmap.
From Stdlib Require Import ZArith Lia.
From S2P Require Import Prelude Tokens Syntax ToIr ToIrProofs FromIr FromIrProofs Instrs ToAsm InstrsProofs X86Proofs EmitProofs LayoutProofs VerifProofs.

(** ** Blocks in the program text *)

(** An instruction that neither opens nor closes a block. *)
Definition straight (i : instr) : Prop :=
  match i with
  | Plain block | Plain loop | Plain end_ | Decl _ _ _ => False
  | _ => True
  end.

Definition opens (i : instr) : Prop := i = Plain block \/ i = Plain loop.

(** A piece of code in which every block is closed. *)
Inductive nested : list instr -> Prop :=
| nested_nil : nested []
| nested_straight i p : straight i -> nested p -> nested (i :: p)
| nested_block o b p : opens o -> nested b -> nested p -> nested (o :: b ++ Plain end_ :: p).

(** A piece of code that leaves [n] blocks open. *)
Inductive inside : nat -> list instr -> Prop :=
| inside_zero b : nested b -> inside 0 b
| inside_open n b o q : nested b -> opens o -> inside n q -> inside (S n) (b ++ o :: q).

Lemma gen_list_app base gi p q s :
  gen_list base gi (p ++ q) s = (s1 ← gen_list base gi p s; gen_list base gi q s1).
Proof.
  revert s. induction p as [|i p IH]; intros s; [done|]. cbn [app gen_list]. unfold seq.
  destruct (gen_instr base gi i s); cbn [mbind res_bind]; [apply IH|done|done].
Qed.

Lemma pass_app base gi p q s :
  pass base gi (p ++ q) s = (s1 ← pass base gi p s; gen_list base gi q s1).
Proof.
  unfold pass. destruct (gen_header base (reset s)); cbn [mbind res_bind]; [apply gen_list_app|done|done].
Qed.

(** ** What nested code leaves alone *)

(** The open blocks, and their information, are as they were. *)
Record keeps (s s' : gst) : Prop := {
  k_h : cur_blk_h s' = cur_blk_h s;
  k_blk : cur_blk s <= cur_blk s';
  k_stk : forall k, k <= cur_blk_h s -> arr_get (cur_blk_stk s') k = arr_get (cur_blk_stk s) k;
  k_blks : forall b, b <= cur_blk s -> arr_get (g_blks s') b = arr_get (g_blks s) b;
}.

Lemma keeps_refl s : keeps s s.
Proof. by constructor. Qed.

Lemma keeps_trans s1 s2 s3 : keeps s1 s2 -> keeps s2 s3 -> keeps s1 s3.
Proof.
  intros [A1 A2 A3 A4] [B1 B2 B3 B4]. constructor; [congruence|lia| |].
  - intros k Hk. rewrite B3 by lia. by apply A3.
  - intros b Hb. rewrite B4 by lia. by apply A4.
Qed.

Lemma framed_keeps s s' : framed s s' -> keeps s s'.
Proof. intros []. constructor; intros; rewrite ?fr_blk, ?fr_stk, ?fr_blks; done || lia. Qed.

Lemma straight_framed base gi i s s' : straight i -> gen_instr base gi i s = Ok s' -> framed s s'.
Proof.
  intros Hi H. destruct i as [t|t v|t ps ls]; cbn [gen_instr] in H; [|by apply only_imm in H as [H _]|done].
  destruct t; try done; cbn [gen_plain] in H;
    first [ by apply only_arith in H as [H _] | by apply only_compare in H as [H _]
          | by apply only_memory in H as [H _] | by apply only_ret in H as [H _] | idtac ].
  unfold emit in H. inv_ok. by constructor.
Qed.

Lemma straight_keeps base gi i s s' : straight i -> gen_instr base gi i s = Ok s' -> keeps s s'.
Proof. intros Hi H. by eapply framed_keeps, straight_framed. Qed.

(** A new block has been pushed. *)
Record pushed (s s' : gst) : Prop := {
  ps_h : cur_blk_h s' = cur_blk_h s + 1;
  ps_blk : cur_blk s' = cur_blk s + 1;
  ps_top : arr_get (cur_blk_stk s') (cur_blk_h s + 1) = Ok (cur_blk s + 1);
  ps_stk : forall k, k <= cur_blk_h s -> arr_get (cur_blk_stk s') k = arr_get (cur_blk_stk s) k;
  ps_blks : forall b, b <= cur_blk s -> arr_get (g_blks s') b = arr_get (g_blks s) b;
  ps_i : asm_i s' = asm_i s;
}.

Lemma opened_pushed s a h s' : opened s a h s' -> pushed s s'.
Proof.
  intros (stk & l & Hs & Hl & ->). constructor; cbn; try done.
  - by rewrite (arr_get_set _ _ _ _ _ Hs), Z.eqb_refl.
  - intros k Hk. rewrite (arr_get_set _ _ _ _ _ Hs). by destruct (Z.eqb_spec k (cur_blk_h s + 1)); [lia|].
  - intros b Hb. rewrite (arr_get_set _ _ _ _ _ Hl). by destruct (Z.eqb_spec b (cur_blk s + 1)); [lia|].
Qed.

Lemma open_blk_pushed s s' : open_blk s = Ok s' -> pushed s s'.
Proof.
  unfold open_blk. intros H. inv_ok. constructor; cbn; try done.
  - by rewrite (arr_get_set _ _ _ _ _ H0), Z.eqb_refl.
  - intros k Hk. rewrite (arr_get_set _ _ _ _ _ H0). by destruct (Z.eqb_spec k (cur_blk_h s + 1)); [lia|].
Qed.

Lemma opens_pushed base gi o s s' : opens o -> gen_instr base gi o s = Ok s' -> pushed s s'.
Proof.
  intros [-> | ->] H; cbn [gen_instr gen_plain] in H; destruct gi.
  - by eapply opened_pushed, gen_block_opened.
  - unfold gen_block in H. inv_ok. by apply open_blk_pushed.
  - by eapply opened_pushed, gen_loop_opened.
  - unfold gen_loop in H. inv_ok. by apply open_blk_pushed.
Qed.

(** The top block has been popped, and only its information changed. *)
Record popped (s s' : gst) : Prop := {
  pp_h : cur_blk_h s' = cur_blk_h s - 1;
  pp_blk : cur_blk s' = cur_blk s;
  pp_stk : cur_blk_stk s' = cur_blk_stk s;
  pp_blks : forall b, arr_get (cur_blk_stk s) (cur_blk_h s) <> Ok b ->
    arr_get (g_blks s') b = arr_get (g_blks s) b;
}.

Lemma end_popped base gi s s' : gen_end base gi s = Ok s' -> popped s s'.
Proof.
  intros H. apply gen_end_closed in H as [[_ H]|[_ ->]]; [|by constructor].
  destruct H as (b & i & c & o & s1 & s2 & [Hb Hi] & _ & He & Hs & ->).
  unfold emit in He. inv_ok. destruct (gi && _); [|inv_ok; by constructor].
  unfold set_br_addr in Hs. inv_ok. constructor; try done. intros d Hd. cbn in *.
  match goal with H : arr_set _ _ _ = Ok _ |- _ => rewrite (arr_get_set _ _ _ _ _ H) end.
  destruct (Z.eqb_spec d b) as [->|]; [|done]. by rewrite Hb in Hd.
Qed.

Lemma nested_keeps base gi p : nested p -> forall s s', gen_list base gi p s = Ok s' -> keeps s s'.
Proof.
  induction 1 as [|i p Hi Hp IH|o b p Ho Hb IHb Hp IHp]; cbn [gen_list]; intros s s' H.
  - injection H as <-. apply keeps_refl.
  - unfold seq in H. inv_ok. eapply keeps_trans; [by eapply straight_keeps|by apply IH].
  - unfold seq in H. inv_ok. rewrite gen_list_app in H. inv_ok. cbn [gen_list] in H. unfold seq in H. inv_ok.
    eapply keeps_trans; [|by apply IHp]. apply opens_pushed in H0 as []; [|done].
    apply IHb in H1 as []. cbn [gen_instr gen_plain] in H2. apply end_popped in H2 as [].
    constructor; [lia|lia| |].
    + intros k Hk. rewrite pp_stk0, k_stk0 by lia. by apply ps_stk0.
    + intros d Hd. rewrite pp_blks0; [rewrite k_blks0 by lia; by apply ps_blks0|].
      rewrite k_h0, ps_h0, k_stk0 by lia. rewrite ps_top0. intros [= E]. lia.
Qed.

Lemma inside_keeps base gi n p :
  inside n p -> forall s s', gen_list base gi p s = Ok s' ->
  cur_blk_h s' = cur_blk_h s + Z.of_nat n /\
  (forall k, k <= cur_blk_h s -> arr_get (cur_blk_stk s') k = arr_get (cur_blk_stk s) k).
Proof.
  induction 1 as [b Hb|n b o q Hb Ho Hq IH]; intros s s' H.
  - apply nested_keeps in H as []; [|done]. split; [lia|done].
  - rewrite gen_list_app in H. inv_ok. apply nested_keeps in H0 as []; [|done].
    cbn [gen_list] in H. unfold seq in H. inv_ok. apply opens_pushed in H0 as []; [|done].
    apply IH in H as [Hh Hs]. split; [lia|]. intros k Hk. rewrite Hs, ps_stk0 by lia. by apply k_stk0.
Qed.

(** ** The addresses *)

(** The states in which the theorems below are read: the first pass has
    succeeded, and no address it records is zero. *)
Record laid_out (base : Z) (p : list instr) (s s1 : gst) : Prop := {
  lo_forward : Forall forward_instr p;
  lo_base : 0 <= base;
  lo_buf : base + zlen (buf s) < 2 ^ 31;
  lo_pass : pass base true p s = Ok s1;
}.

Lemma pass_bwf base p s s' : zlen (buf s) < 2 ^ 31 -> pass base true p s = Ok s' ->
  bwf s' /\ 0 < asm_i s' /\ zlen (buf s') = zlen (buf s).
Proof.
  intros Hb H. pose proof (reset_bwf s Hb) as Hr. pose proof (pass_grows _ _ _ _ H) as Hg.
  split_and!; [by apply (gr_i _ _ Hg)| |by apply (gr_buf _ _ Hg)].
  unfold pass in H. inv_ok. pose proof (header_advances _ _ _ Hr H0).
  destruct (gr_i _ _ (gen_list_grows _ _ _ _ H)) as [? _]; [|lia].
  by apply (gr_i _ _ (header_grows _ _ _ H0)).
Qed.

(** An address of the code is not zero and fits a C [int]. *)
Lemma code_addr base s s1 p q sm :
  laid_out base (p ++ q) s s1 -> pass base true p s = Ok sm -> s32 (base + asm_i sm) = base + asm_i sm /\ 0 < base + asm_i sm.
Proof.
  intros [_ Hb Hl _] H. apply pass_bwf in H as ([Hi _] & Hpos & Hbuf); [|lia]. split; [|lia].
  apply s32_small. lia.
Qed.

(** A block whose address is known at some point of the first pass has that
    address in the tables of the second. *)
Lemma addr_final base p q s s1 sm b i :
  laid_out base (p ++ q) s s1 -> pass base true p s = Ok sm -> b <= cur_blk sm ->
  arr_get (g_blks sm) b = Ok i -> br_addr i <> 0 ->
  exists j, arr_get (g_blks s1) b = Ok j /\ br_addr j = br_addr i.
Proof.
  intros [Hf _ _ H] Hm Hb Hi Hn. rewrite pass_app in H. rewrite Hm in H. cbn [mbind res_bind] in H.
  destruct (gr_blks _ _ (gen_list_grows _ _ _ _ H) b i Hb Hi) as (j & Hj & _ & Ha). eauto.
Qed.

(** The address of a loop is that of its first instruction. *)
Lemma loop_addr base q1 q2 s s1 so :
  laid_out base (q1 ++ Plain loop :: q2) s s1 -> pass base true q1 s = Ok so ->
  exists j, arr_get (g_blks s1) (cur_blk so + 1) = Ok j /\ br_addr j = base + asm_i so.
Proof.
  intros Hl Ho. destruct (code_addr _ _ _ _ _ _ Hl Ho) as [Hs Hpos].
  rewrite cons_middle, app_assoc in Hl.
  destruct (pass base true (q1 ++ [Plain loop]) s) as [sl| |] eqn:Hp;
    [|destruct Hl as [_ _ _ H]; by rewrite pass_app, Hp in H..].
  pose proof Hp as Hp'. rewrite pass_app, Ho in Hp'. cbn [mbind res_bind gen_list gen_instr gen_plain] in Hp'.
  unfold seq in Hp'. inv_ok. injection Hp' as <-. apply gen_loop_opened in H as (stk & l & Hstk & Hbl & ->).
  destruct (addr_final _ _ _ _ _ _ (cur_blk so + 1) {| br_addr := s32 (base + asm_i so); stk_height := stkh so |} Hl Hp)
    as (j & Hj & Ha).
  - done.
  - cbn. by rewrite (arr_get_set _ _ _ _ _ Hbl), Z.eqb_refl.
  - cbn. lia.
  - exists j. split; [done|]. cbn in Ha. congruence.
Qed.

Lemma block_records base body so a b se :
  gen_block true so = Ok a -> nested body -> gen_list base true body a = Ok b ->
  gen_end base true b = Ok se -> 0 <= cur_blk_h so ->
  cur_blk so + 1 <= cur_blk se /\
  exists i, arr_get (g_blks se) (cur_blk so + 1) = Ok i /\ br_addr i = s32 (base + asm_i se).
Proof.
  intros Ha Hn Hb He Hh. apply gen_block_opened in Ha. pose proof (opened_pushed _ _ _ _ Ha) as [].
  apply nested_keeps in Hb as []; [|done]. destruct Ha as (stk & l & Hstk & Hl & ->). cbn in *.
  apply gen_end_closed in He as [[_ He]|[? _]]; [|lia].
  destruct He as (d & i & c & o & s1 & s2 & [Hd Hi] & _ & He & Hs & ->).
  rewrite k_h0, k_stk0, ps_top0 in Hd by lia. injection Hd as <-.
  rewrite k_blks0, (arr_get_set _ _ _ _ _ Hl), Z.eqb_refl in Hi by lia. injection Hi as <-.
  unfold emit in He. inv_ok. cbn [andb br_addr Z.eqb] in Hs. unfold set_br_addr in Hs. inv_ok. cbn in *.
  split; [lia|].
  match goal with H : arr_set _ _ _ = Ok _ |- _ => rewrite (arr_get_set _ _ _ _ _ H), Z.eqb_refl end.
  eexists. split; reflexivity.
Qed.

(** The address of a block is that of the instruction after its end. *)
Lemma block_addr base q1 body q2 s s1 so :
  nested body -> laid_out base (q1 ++ Plain block :: body ++ Plain end_ :: q2) s s1 ->
  pass base true q1 s = Ok so -> 0 <= cur_blk_h so ->
  exists se j, pass base true (q1 ++ Plain block :: body ++ [Plain end_]) s = Ok se /\
    arr_get (g_blks s1) (cur_blk so + 1) = Ok j /\ br_addr j = base + asm_i se.
Proof.
  intros Hn Hl Ho Hh.
  replace (q1 ++ Plain block :: body ++ Plain end_ :: q2) with
    ((q1 ++ Plain block :: body ++ [Plain end_]) ++ q2) in Hl
    by (by rewrite <- app_assoc; cbn; rewrite <- app_assoc).
  destruct (pass base true (q1 ++ Plain block :: body ++ [Plain end_]) s) as [se| |] eqn:Hp;
    [|destruct Hl as [_ _ _ H]; by rewrite pass_app, Hp in H..].
  destruct (code_addr _ _ _ _ _ _ Hl Hp) as [Hs Hpos].
  pose proof Hp as Hp'. rewrite pass_app, Ho in Hp'. cbn [mbind res_bind gen_list gen_instr gen_plain] in Hp'.
  unfold seq in Hp'. inv_ok. rewrite gen_list_app in Hp'. inv_ok.
  cbn [gen_list gen_instr gen_plain] in Hp'. unfold seq, skip in Hp'. inv_ok.
  destruct (block_records base body so a a0 se) as (Hc & i & Hi & Hai); try done.
  destruct (addr_final _ _ _ _ _ _ _ _ Hl Hp Hc Hi) as (j & Hj & Ha); [rewrite Hai; lia|].
  exists se, j. split_and!; [done|done|congruence].
Qed.

(** The block that depth [n] names after [q1 ++ o :: q2]. *)
Lemma branch_block base gi q1 o q2 n s so sm :
  opens o -> inside n q2 -> pass base gi q1 s = Ok so -> pass base gi (q1 ++ o :: q2) s = Ok sm ->
  arr_get (cur_blk_stk sm) (cur_blk_h sm - Z.of_nat n) = Ok (cur_blk so + 1).
Proof.
  intros Ho Hin Hs Hm. rewrite pass_app, Hs in Hm. cbn [mbind res_bind gen_list] in Hm. unfold seq in Hm. inv_ok.
  apply opens_pushed in H as []; [|done]. destruct (inside_keeps _ _ _ _ Hin _ _ Hm) as [Hh Hk].
  rewrite Hk by lia. by replace (cur_blk_h sm - Z.of_nat n) with (cur_blk_h so + 1) by lia.
Qed.

Lemma laid_out_prefix base p q s s1 :
  laid_out base (p ++ q) s s1 ->
  exists sm1 sm2, pass base true p s = Ok sm1 /\ pass base false p s1 = Ok sm2 /\
    par (g_blks s1) (g_fns s1) sm1 sm2.
Proof. intros [Hf _ _ H]. destruct (pass_follows _ _ _ _ _ Hf H) as (sm1 & sm2 & H1 & H2 & _ & Hp & _). eauto. Qed.

(** Branches in the second pass, with the positions of the second pass. *)
Lemma branch_loop base q1 q2 n r s s1 :
  inside n q2 -> laid_out base (q1 ++ Plain loop :: q2 ++ r) s s1 ->
  exists so sm b, pass base false q1 s1 = Ok so /\ pass base false (q1 ++ Plain loop :: q2) s1 = Ok sm /\
    branch_info sm (Z.of_nat n) = Ok b /\ br_addr b = base + asm_i so.
Proof.
  intros Hin Hl. destruct (laid_out_prefix _ _ _ _ _ Hl) as (so1 & so & Ho1 & Ho & Hpo).
  destruct (loop_addr _ _ _ _ _ _ Hl Ho1) as (j & Hj & Ha).
  rewrite (app_assoc q1 (Plain loop :: q2) r : q1 ++ Plain loop :: q2 ++ r = (q1 ++ Plain loop :: q2) ++ r) in Hl.
  destruct (laid_out_prefix _ _ _ _ _ Hl) as (sm1 & sm & Hm1 & Hm & Hpm).
  exists so, sm, j. split_and!; try done; [|by rewrite (p_i _ _ _ _ Hpo)].
  unfold branch_info. rewrite (branch_block base false q1 (Plain loop) q2 n s1 so sm) by (done || by right).
  cbn [mbind res_bind]. by rewrite (p_blks _ _ _ _ Hpm), (p_blk _ _ _ _ Hpo).
Qed.

Lemma branch_block_end base q1 q2 n r1 r2 s s1 so :
  inside n q2 -> nested (q2 ++ r1) ->
  laid_out base (q1 ++ Plain block :: (q2 ++ r1) ++ Plain end_ :: r2) s s1 ->
  pass base false q1 s1 = Ok so -> 0 <= cur_blk_h so ->
  exists sm se b, pass base false (q1 ++ Plain block :: q2) s1 = Ok sm /\
    pass base false (q1 ++ Plain block :: (q2 ++ r1) ++ [Plain end_]) s1 = Ok se /\
    branch_info sm (Z.of_nat n) = Ok b /\ br_addr b = base + asm_i se.
Proof.
  intros Hin Hn Hl Ho Hh. destruct (laid_out_prefix _ _ _ _ _ Hl) as (so1 & so' & Ho1 & Ho' & Hpo).
  rewrite Ho in Ho'. injection Ho' as <-.
  destruct (block_addr _ _ _ _ _ _ _ Hn Hl Ho1) as (se1 & j & He1 & Hj & Ha).
  { by rewrite <- (p_blk_h _ _ _ _ Hpo). }
  assert (laid_out base ((q1 ++ Plain block :: q2) ++ r1 ++ Plain end_ :: r2) s s1) as Hl1
    by (by rewrite <- app_assoc; cbn; rewrite <- app_assoc in Hl).
  assert (laid_out base ((q1 ++ Plain block :: (q2 ++ r1) ++ [Plain end_]) ++ r2) s s1) as Hl2
    by (by rewrite <- app_assoc; cbn; rewrite <- (app_assoc (q2 ++ r1))).
  destruct (laid_out_prefix _ _ _ _ _ Hl1) as (sm1 & sm & Hm1 & Hm & Hpm).
  destruct (laid_out_prefix _ _ _ _ _ Hl2) as (se1' & se & He1' & He & Hpe).
  rewrite He1 in He1'. injection He1' as <-.
  exists sm, se, j. split_and!; try done; [|by rewrite (p_i _ _ _ _ Hpe)].
  unfold branch_info. rewrite (branch_block base false q1 (Plain block) q2 n s1 so sm) by (done || by left).
  cbn [mbind res_bind]. by rewrite (p_blks _ _ _ _ Hpm), (p_blk _ _ _ _ Hpo).
Qed.

(** ** Functions *)

Lemma gen_instr_fn base gi i s s' :
  gen_instr base gi i s = Ok s' -> g_fn s' = g_fn s + zlen (sigs [i]).
Proof.
  intros H. destruct i as [t|t v|t ps ls].
  - change (zlen (sigs [Plain t])) with 0. rewrite Z.add_0_r.
    destruct t; try (by apply straight_framed in H as []); cbn [gen_instr gen_plain] in H.
    + unfold gen_block, open_blk, set_br_addr, set_stk_height in H. inv_ok. destruct gi; by inv_ok.
    + unfold gen_loop, open_blk, set_br_addr, set_stk_height in H. inv_ok. destruct gi; by inv_ok.
    + unfold gen_end, emit, set_br_addr in H. inv_ok. destruct (0 <? cur_blk_h s); inv_ok; [|done].
      destruct (gi && _); by inv_ok.
  - change (zlen (sigs [Imm t v])) with 0. apply straight_framed in H as []; [lia|done].
  - change (zlen (sigs [Decl t ps ls])) with 1. cbn [gen_instr] in H.
    unfold gen_declfn, open_blk, set_br_addr, set_stk_height in H. inv_ok. destruct gi; by inv_ok.
Qed.

Lemma gen_list_fn base gi p s s' : gen_list base gi p s = Ok s' -> g_fn s' = g_fn s + zlen (sigs p).
Proof.
  revert s. induction p as [|i p IH]; cbn [gen_list]; intros s H.
  - injection H as <-. change (zlen (sigs [])) with 0. lia.
  - unfold seq in H. inv_ok. rewrite (IH _ H), (gen_instr_fn _ _ _ _ _ H0), (sigs_cons i p), zlen_app. lia.
Qed.

Lemma pass_fn base gi p s s' : pass base gi p s = Ok s' -> g_fn s' + 1 = zlen (sigs p).
Proof.
  unfold pass. intros H. inv_ok. rewrite (gen_list_fn _ _ _ _ _ H).
  unfold gen_header in H0. inv_ok. cbn [g_fn with_addrs].
  apply only_prelude in H1 as ([] & _). apply only_goodret in H2 as ([] & _). apply only_trapret in H3 as ([] & _).
  cbn in *. lia.
Qed.

(** The address of a function is that of its first instruction. *)
Lemma fn_addr_final base p t ps ls q s s1 sd :
  laid_out base (p ++ Decl t ps ls :: q) s s1 -> pass base true p s = Ok sd ->
  exists f, arr_get (g_fns s1) (zlen (sigs p)) = Ok f /\ fn_addr f = base + asm_i sd.
Proof.
  intros Hl Hd. destruct (code_addr _ _ _ _ _ _ Hl Hd) as [Hs _].
  destruct Hl as [_ _ _ H]. rewrite pass_app, Hd in H. cbn [mbind res_bind gen_list gen_instr] in H.
  unfold seq in H. inv_ok. apply gen_declfn_opened in H0 as (se & (f & l & Hf & Hset & ->) & Ho).
  pose proof (grows_trans _ _ _ (opened_grows _ _ _ _ Ho) (gen_list_grows _ _ _ _ H)) as Hg.
  rewrite <- (pass_fn _ _ _ _ _ Hd).
  destruct (gr_fns _ _ Hg (g_fn sd + 1) {| art := art f; fn_addr := s32 (base + asm_i sd);
    aparam_n := aparam_n f; alocal_n := alocal_n f |}) as (g & Hgg & He).
  - done.
  - cbn. by rewrite (arr_get_set _ _ _ _ _ Hset), Z.eqb_refl.
  - exists g. split; [done|]. cbn in He. congruence.
Qed.

(** ** The theorems *)

Lemma populate_infos_laid_out base indet p s s1 :
  fits p -> Forall forward_instr p -> 0 <= base -> base + zlen (buf s) < 2 ^ 31 ->
  populate_infos (encode p) base true indet s = Ok s1 -> laid_out base p s s1.
Proof. intros Hf Hw Hb Hl H. rewrite populate_infos_pass in H by done. by constructor. Qed.

(** C23. The layout is stable: when the first pass over a program succeeds, so
    does the second; it produces code of the same length, and it leaves every
    address the first pass recorded, of the functions, of the blocks and of the
    fixed code, as it is. *)
Theorem layout_stable p base indet1 indet2 s s1 :
  fits p -> Forall forward_instr p ->
  populate_infos (encode p) base true indet1 s = Ok s1 ->
  exists s2, populate_infos (encode p) base false indet2 s1 = Ok s2 /\
    asm_i s2 = asm_i s1 /\ zlen (buf s2) = zlen (buf s1) /\
    g_fns s2 = g_fns s1 /\ g_blks s2 = g_blks s1 /\ addrs s2 = addrs s1.
Proof.
  intros Hf Hw H. rewrite populate_infos_pass in H by done. rewrite <- (app_nil_r p) in H, Hw.
  destruct (pass_follows _ _ _ _ _ Hw H) as (sm1 & sm2 & H1 & H2 & Hq & Hp & Ha).
  injection Hq as <-. exists sm2. rewrite populate_infos_pass by done. destruct Hp. by split_and!.
Qed.

(** C24. A branch goes where it should: in the second pass a [br] or [br_if] to
    depth [n] inside a block or loop that [n] other blocks separate it from
    takes the address, in the code of this same pass, of the loop's first
    instruction, or of the instruction after the block's [end]. *)
Theorem branch_target q1 o q2 n r1 r2 base indet s s1 so :
  let p := q1 ++ o :: (q2 ++ r1) ++ Plain end_ :: r2 in
  opens o -> inside n q2 -> nested (q2 ++ r1) ->
  fits p -> Forall forward_instr p -> 0 <= base -> base + zlen (buf s) < 2 ^ 31 ->
  populate_infos (encode p) base true indet s = Ok s1 ->
  pass base false q1 s1 = Ok so -> 0 <= cur_blk_h so ->
  exists sm se b,
    pass base false (q1 ++ o :: q2) s1 = Ok sm /\
    pass base false (q1 ++ o :: (q2 ++ r1) ++ [Plain end_]) s1 = Ok se /\
    branch_info sm (Z.of_nat n) = Ok b /\
    (o = Plain loop -> br_addr b = base + asm_i so) /\
    (o = Plain block -> br_addr b = base + asm_i se).
Proof.
  intros p Ho Hin Hn Hf Hw Hb Hl H Hso Hh.
  pose proof (populate_infos_laid_out _ _ _ _ _ Hf Hw Hb Hl H) as Hlo. destruct Ho as [-> | ->].
  - destruct (branch_block_end base q1 q2 n r1 r2 s s1 so) as (sm & se & b & Hm & He & Hi & Ha); try done.
    by exists sm, se, b.
  - subst p. assert (laid_out base (q1 ++ Plain loop :: q2 ++ r1 ++ Plain end_ :: r2) s s1) as Hl1
      by (by rewrite <- app_assoc in Hlo).
    destruct (branch_loop base q1 q2 n _ s s1 Hin Hl1) as (so' & sm & b & Hso' & Hm & Hi & Ha).
    assert (laid_out base ((q1 ++ Plain loop :: (q2 ++ r1) ++ [Plain end_]) ++ r2) s s1) as Hl2
      by (by rewrite <- app_assoc; cbn; rewrite <- (app_assoc (q2 ++ r1))).
    destruct (laid_out_prefix _ _ _ _ _ Hl2) as (_ & se & _ & He & _).
    rewrite Hso in Hso'. injection Hso' as <-. exists sm, se, b. by split_and!.
Qed.

(** A call goes where it should: at every point of the second pass, entry
    [k] of the function table has the address, in the code of this same pass, of
    the first instruction of the [k]-th function of the program. *)
Theorem call_target p1 t ps ls p2 q r base indet s s1 :
  let p := p1 ++ Decl t ps ls :: p2 in
  p = q ++ r -> fits p -> Forall forward_instr p -> 0 <= base -> base + zlen (buf s) < 2 ^ 31 ->
  populate_infos (encode p) base true indet s = Ok s1 ->
  exists sd sm f,
    pass base false p1 s1 = Ok sd /\ pass base false q s1 = Ok sm /\
    arr_get (g_fns sm) (zlen (sigs p1)) = Ok f /\ fn_addr f = base + asm_i sd.
Proof.
  intros p Hq Hf Hw Hb Hl H.
  pose proof (populate_infos_laid_out _ _ _ _ _ Hf Hw Hb Hl H) as Hlo.
  destruct (laid_out_prefix _ _ _ _ _ Hlo) as (sd1 & sd & Hd1 & Hd & Hpd).
  destruct (fn_addr_final _ _ _ _ _ _ _ _ _ Hlo Hd1) as (f & Hfi & Ha).
  rewrite Hq in Hlo. destruct (laid_out_prefix _ _ _ _ _ Hlo) as (sm1 & sm & _ & Hm & Hpm).
  exists sd, sm, f. rewrite (p_fns _ _ _ _ Hpm), (p_i _ _ _ _ Hpd). by split_and!.
Qed.

(** ** An instance *)

Definition demo_start : gst := gst_init (replicate 400 0).
Definition demo_first : gst :=
  match populate_infos (encode demo_proc) 0 true (fun _ => 0) demo_start with Ok s => s | _ => demo_start end.
Definition demo_head : list instr := [Decl v_declfn [] [TInt]; Imm i_const 3; Imm set_l 0].
Definition demo_at_block : gst :=
  match pass 0 false demo_head demo_first with Ok s => s | _ => demo_start end.

Lemma demo_forward : Forall forward_instr demo_proc.
Proof. repeat (apply Forall_cons_2; [vm_compute; (exact I || discriminate)|]). apply Forall_nil_2. Qed.

Lemma layout_stable_witness :
  exists s2, populate_infos (encode demo_proc) 0 false (fun _ => 0) demo_first = Ok s2 /\
             asm_i s2 = asm_i demo_first.
Proof.
  destruct (layout_stable demo_proc 0 (fun _ => 0) (fun _ => 0) demo_start demo_first demo_proc_fits demo_forward)
    as (s2 & H & Hi & _).
  - vm_compute; reflexivity.
  - exists s2. split; [exact H|exact Hi].
Defined.

Lemma branch_target_witness :
  exists sm se b, pass 0 false (demo_head ++ [Plain block; Imm get_l 0]) demo_first = Ok sm /\
    pass 0 false (demo_head ++ [Plain block; Imm get_l 0; Imm br_if 0; Plain end_]) demo_first = Ok se /\
    branch_info sm 0 = Ok b /\ br_addr b = asm_i se.
Proof.
  destruct (branch_target demo_head (Plain block) [Imm get_l 0] 0 [Imm br_if 0] [Plain ret; Plain end_]
    0 (fun _ => 0) demo_start demo_first demo_at_block) as (sm & se & b & Hm & He & Hb & _ & Ha).
  - by left.
  - apply inside_zero, nested_straight, nested_nil. exact I.
  - apply nested_straight; [exact I|]. apply nested_straight, nested_nil. exact I.
  - exact demo_proc_fits.
  - exact demo_forward.
  - lia.
  - vm_compute; reflexivity.
  - vm_compute; reflexivity.
  - vm_compute; reflexivity.
  - vm_compute; discriminate.
  - exists sm, se, b. split; [exact Hm|]. split; [exact He|]. split; [exact Hb|exact (Ha eq_refl)].
Defined.

(** A recursive function. *)
Definition demo_rec : list instr :=
  [Decl v_declfn [] []; Imm call 1; Plain ret; Plain end_;
   Decl v_declfn [] []; Imm call 1; Plain ret; Plain end_].
Definition demo_rec_first : gst :=
  match populate_infos (encode demo_rec) 0 true (fun _ => 0) demo_start with Ok s => s | _ => demo_start end.

Lemma call_target_witness :
  exists sd sm f, pass 0 false (take 4 demo_rec) demo_rec_first = Ok sd /\
    pass 0 false (take 1 demo_rec) demo_rec_first = Ok sm /\
    arr_get (g_fns sm) 1 = Ok f /\ fn_addr f = asm_i sd.
Proof.
  destruct (call_target (take 4 demo_rec) v_declfn [] [] [Imm call 1; Plain ret; Plain end_]
    (take 1 demo_rec) (drop 1 demo_rec) 0 (fun _ => 0) demo_start demo_rec_first)
    as (sd & sm & f & Hd & Hm & Hf & Ha).
  - reflexivity.
  - constructor.
    + repeat (apply Forall_cons_2; [vm_compute; intuition discriminate|]). apply Forall_nil_2.
    + repeat (apply Forall_cons_2; [cbn; unfold TYPE_BUF; (lia || done)|]). apply Forall_nil_2.
    + by repeat split.
    + vm_compute; discriminate.
    + vm_compute; discriminate.
  - repeat (apply Forall_cons_2; [vm_compute; (exact I || discriminate)|]). apply Forall_nil_2.
  - lia.
  - vm_compute; reflexivity.
  - vm_compute; reflexivity.
  - exists sd, sm, f. split; [exact Hd|]. split; [exact Hm|]. split; [exact Hf|exact Ha].
Defined.
