(* ===== verification/ControlProofs.v ===== *)
(** * Branches, calls and returns

    What the code of [br], [br.if], [call] and [ret] does when it runs.  A branch
    takes the generator's whole count of operands off the stack.  A call leaves
    the return address at [EBP] and the caller's [EBP] above it; [ret] finds the
    return address there. *)

From stdpp Require Import base list strings gmap.
From Stdlib Require Import ZArith Lia.
From S2P Require Import Prelude Tokens FromIr Instrs X86 ToAsm InstrsProofs X86Proofs EmitProofs OpProofs MemProofs FrameProofs.

(** Control is at [e] and the stack pointer at [sp]; the memory and the
    registers the code of a function relies on are the same. *)
Record jump_post (m m' : machine) (e sp : Z) : Prop := {
  jp_eip : eip m' = e;
  jp_sp : get_reg m' ESP = sp;
  jp_mem : mem m' = mem m;
  jp_bp : get_reg m' EBP = get_reg m EBP;
  jp_si : get_reg m' ESI = get_reg m ESI;
  jp_di : get_reg m' EDI = get_reg m EDI;
  jp_mwf : mwf m';
}.

(** ** Branches *)

Definition branch_seg (base addr h i : Z) : seg :=
  [(6, AluImm ADD ESP (s32 (4 * h))); (5, Jmp (s32 (addr - (base + (i + 6)) - 5)))].

Lemma emits_branch base addr :
  emits (gen_branch base addr) (fun s => branch_seg base addr (stkh s) (asm_i s)) 0.
Proof.
  unfold gen_branch, branch_seg.
  eapply (emits_seq _ _ (fun s => [(6, AluImm ADD ESP (s32 (4 * stkh s)))])
    (fun s => [(5, Jmp (s32 (addr - (base + asm_i s) - 5)))])
    (fun s => [(5, Jmp (s32 (addr - (base + (asm_i s + 6)) - 5)))]) 0 0).
  - apply (emits_at (fun s => add_r32_imm ESP (4 * stkh s)) (fun s => AluImm ADD ESP (s32 (4 * stkh s)))).
    intros s. by constructor.
  - apply (emits_at (fun s => jmp_rel (base + asm_i s) addr)
             (fun s => Jmp (s32 (addr - (base + asm_i s) - 5)))).
    intros s. constructor.
  - done.
  - intros s s' _ Hi _. rewrite seg_len_one in Hi. by rewrite Hi.
Qed.

(** A word plus a signed displacement that is taken modulo [2 ^ 32]. *)
Lemma u32_add_s32 a b : u32 (a + s32 b) = u32 (a + b).
Proof.
  unfold u32 at 1. rewrite <- Zplus_mod_idemp_r. fold (u32 (s32 b)). rewrite u32_s32.
  unfold u32. by rewrite Zplus_mod_idemp_r.
Qed.

Lemma u32_add_u32 a b : u32 (a + u32 b) = u32 (a + b).
Proof. unfold u32. by rewrite Zplus_mod_idemp_r. Qed.

Lemma branch_run base addr h i a c d b sp bp si di f mm e :
  e = u32 (base + i) ->
  exec_seg (branch_seg base addr h i) (M [a; c; d; b; sp; bp; si; di] f mm e) =
  Some (M [a; c; d; b; u32 (sp + 4 * h); bp; si; di] (Some (add_flags sp (u32 (s32 (4 * h))))) mm (u32 addr)).
Proof.
  intros ->. unfold branch_seg. seg_step. cbn [exec_seg]. red_exec.
  rewrite !u32_idem, u32_add_u32, !u32_add_s32.
  replace (u32 (u32 (u32 (u32 (base + i) + 6) + 5) + (addr - (base + (i + 6)) - 5)))
    with (u32 addr) by u32_sums.
  by destruct (_ =? _).
Qed.

Definition br_if_seg (base addr h i : Z) : seg :=
  [(1, Pop EAX); (2, Test EAX EAX); (6, Jcc CC_Z 11)] ++ branch_seg base addr (s32 (h - 1)) (i + 9).

Lemma emits_br_if base addr :
  emits (pop_ EAX +> ins (test_r32_r32 EAX EAX) +> ins (jz_rel 0 17) +> gen_branch base addr)
    (fun s => br_if_seg base addr (stkh s) (asm_i s)) (-1).
Proof.
  eapply (emits_seq _ _ (fun _ => [(1, Pop EAX); (2, Test EAX EAX); (6, Jcc CC_Z 11)])
    (fun s => branch_seg base addr (stkh s) (asm_i s))
    (fun s => branch_seg base addr (s32 (stkh s - 1)) (asm_i s + 9)) (-1) 0).
  - eapply emits_ext; [|emit_seq]; reflexivity.
  - apply emits_branch.
  - done.
  - intros s s' _ Hi Hh. by rewrite Hi, Hh.
Qed.

(** The zero flag of [test eax, eax]. *)
Lemma test_zero x : is_word x -> zf (logic_flags (Z.land x x)) = (x =? 0).
Proof. intros Hx. cbn. by rewrite Z.land_diag, u32_small. Qed.

Lemma u32_add_ne z k : 0 < k < 2 ^ 32 -> u32 (z + k) <> u32 z.
Proof.
  unfold u32. intros Hk H. assert ((z + k - z) mod 2 ^ 32 = 0) as E.
  { by rewrite Zminus_mod, H, Z.sub_diag. }
  replace (z + k - z) with k in E by lia. rewrite Z.mod_small in E by lia. lia.
Qed.

Lemma seg_jcc_taken n c rel l m f :
  flags m = Some f -> cond f c = true -> 0 < rel < 2 ^ 32 ->
  exec_seg ((n, Jcc c rel) :: l) m = Some (set_eip m (eip m + n + rel)).
Proof.
  intros Hf Hc Hr. cbn [exec_seg exec]. unfold set_eip. cbn [X86.eip X86.regs X86.flags X86.mem]. rewrite Hf.
  cbn [mbind option_bind]. rewrite Hc. cbn [X86.eip X86.regs X86.flags X86.mem].
  rewrite !u32_idem, u32_add_l. destruct (Z.eqb_spec (u32 (eip m + n + rel)) (u32 (eip m + n))); [|done].
  by apply u32_add_ne in e.
Qed.

Lemma seg_jcc_not n c rel l m f :
  flags m = Some f -> cond f c = false ->
  exec_seg ((n, Jcc c rel) :: l) m = exec_seg l (set_eip m (eip m + n)).
Proof.
  intros Hf Hc. cbn [exec_seg exec]. unfold set_eip. cbn [X86.eip X86.regs X86.flags X86.mem]. rewrite Hf.
  cbn [mbind option_bind]. rewrite Hc. cbn [X86.eip X86.regs X86.flags X86.mem].
  by rewrite !u32_idem, Z.eqb_refl.
Qed.

Section br_if.
Context (base addr h i : Z) (m : machine) (x : Z) (vs : list Z).
Hypothesis Hm : mwf m.
Hypothesis Hx : is_word x.
Hypothesis Hst : stack_at (mem m) (get_reg m ESP) (x :: vs).
Hypothesis Hsp : get_reg m ESP + 4 < 2 ^ 32.
Hypothesis He : eip m = u32 (base + i).

(** Up to the conditional jump. *)
Lemma br_if_test :
  exists c d b bp si di, get_reg m EBP = bp /\ get_reg m ESI = si /\ get_reg m EDI = di /\
    Forall is_word [c; d; b; bp; si; di] /\ is_word (get_reg m ESP + 4) /\
    falls [(1, Pop EAX); (2, Test EAX EAX)] m
      (M [x; c; d; b; get_reg m ESP + 4; bp; si; di] (Some (logic_flags (Z.land x x))) (mem m) (u32 (eip m + 3))).
Proof.
  destruct (mwf_regs m Hm) as (a & c & d & b & sp & bp & si & di & HR & ? & ? & ? & ? & ? & ? & ? & ?).
  destruct m as [R f mm e]; cbn [X86.regs X86.flags X86.mem X86.eip] in *. subst R.
  change (get_reg _ ESP) with sp in *.
  apply stack_at_cons in Hst as (Hsp0 & Hl & _). rewrite zlen_cons in Hsp0. pose proof (zlen_nonneg vs).
  exists c, d, b, bp, si, di. split_and!; [done|done|done|repeat (apply Forall_cons_2; [done|]); apply Forall_nil_2|unfold is_word in *; lia|].
  intros k. cbn [app].
  apply (seg_pop EAX 1 _ a c d b sp bp si di f mm e x); [done|unfold in_space in *; lia|lia|done|]. red_regs.
  seg_step. f_equal. f_equal. u32_sums.
Qed.

Lemma br_if_fall :
  x = 0 -> exists m', exec_seg (br_if_seg base addr h i) m = Some m' /\
    jump_post m m' (u32 (eip m + 20)) (get_reg m ESP + 4).
Proof.
  intros H0. destruct br_if_test as (c & d & b & bp & si & di & Hbp & Hsi & Hdi & Hw & Hw4 & Hf).
  eexists. split.
  - unfold br_if_seg. change ([(1, Pop EAX); (2, Test EAX EAX); (6, Jcc CC_Z 11)] ++ ?l) with
      ([(1, Pop EAX); (2, Test EAX EAX)] ++ ((6, Jcc CC_Z 11) :: l)).
    rewrite Hf. eapply seg_jcc_taken; [reflexivity| |lia].
    cbn [cond]. rewrite test_zero by done. by apply Z.eqb_eq.
  - constructor; cbn; try done; [u32_sums|]. rewrite !Forall_cons in Hw.
    constructor; cbn; [done|rewrite !Forall_cons; tauto|apply u32_range].
Qed.

Lemma br_if_jump :
  x <> 0 -> exists m', exec_seg (br_if_seg base addr h i) m = Some m' /\
    jump_post m m' (u32 addr) (u32 (get_reg m ESP + 4 + 4 * s32 (h - 1))).
Proof.
  intros H0. destruct br_if_test as (c & d & b & bp & si & di & Hbp & Hsi & Hdi & Hw & Hw4 & Hf).
  eexists. split.
  - unfold br_if_seg. change ([(1, Pop EAX); (2, Test EAX EAX); (6, Jcc CC_Z 11)] ++ ?l) with
      ([(1, Pop EAX); (2, Test EAX EAX)] ++ ((6, Jcc CC_Z 11) :: l)).
    rewrite Hf. erewrite seg_jcc_not; [|reflexivity|cbn [cond]; rewrite test_zero by done; by apply Z.eqb_neq].
    unfold set_eip. cbn [X86.eip X86.regs X86.flags X86.mem]. apply branch_run. rewrite He. u32_sums.
  - constructor; cbn; try done. rewrite !Forall_cons in Hw.
    constructor; cbn; [done|rewrite !Forall_cons; split_and!; try tauto; apply u32_range|apply u32_range].
Qed.
End br_if.

Lemma emits_pos a P d s s' code base m :
  emits a P d -> a s = Ok s' -> running code base s s' m ->
  u32 (eip m + seg_len (P s)) = base + asm_i s'.
Proof.
  intros Ha Hs Hrun. destruct Hrun as [Hwf Hcode Heip Hm].
  destruct (Ha s s' Hwf Hs) as ((bs & Hc & Hap) & Hf & Hk & Hwf').
  rewrite (appended_emitted s s' bs) in Hcode by (done || apply Hwf). rewrite <- Heip in Hcode.
  rewrite (is_code_len _ _ Hc), Heip. destruct Hap as (Hi & _).
  destruct Hcode as (pre & post & -> & Ha' & Hb0 & Hb). rewrite !zlen_app in Hb.
  pose proof (zlen_nonneg pre). pose proof (zlen_nonneg post). pose proof (zlen_nonneg bs).
  rewrite u32_small; lia.
Qed.

Lemma running_eip code base s s' m : running code base s s' m -> eip m = u32 (base + asm_i s).
Proof. intros [_ _ He [_ _ Hw]]. rewrite <- He. symmetry. by apply u32_small. Qed.

(** C20. A branch that is taken continues at the address of its block, with all
    the operands the generator has counted taken off the stack; [br.if] is taken
    when the value it pops is not zero, and otherwise falls through. *)
Theorem branch_code_correct prog base gen_info indet place place' code s s' m iv b t :
  get_int prog place = Ok (iv, place') -> branch_info s iv = Ok b ->
  gen_token prog base gen_info indet place s t = Ok (place', s') -> running code base s s' m ->
  (t = br ->
     stkh s' = stkh s /\
     exists m', steps code base m m' /\
       jump_post m m' (u32 (br_addr b)) (u32 (get_reg m ESP + 4 * stkh s))) /\
  (t = br_if -> forall x vs,
     is_word x -> stack_at (mem m) (get_reg m ESP) (x :: vs) -> get_reg m ESP + 4 < 2 ^ 32 ->
     stkh s' = s32 (stkh s - 1) /\
     exists m', steps code base m m' /\
       if x =? 0 then jump_post m m' (base + asm_i s') (get_reg m ESP + 4)
       else jump_post m m' (u32 (br_addr b)) (u32 (get_reg m ESP + 4 + 4 * s32 (stkh s - 1)))).
Proof.
  intros Hi Hb Hg Hrun. pose proof (rn_mwf _ _ _ _ _ Hrun) as Hm. pose proof (rn_ewf _ _ _ _ _ Hrun) as Hw.
  split; intros ->; cbn [gen_token] in Hg; unfold with_iv, read_iv in Hg; rewrite Hi in Hg; cbn [mbind res_bind] in Hg;
    unfold gen_br, gen_br_if in Hg; rewrite Hb in Hg; cbn [mbind res_bind] in Hg; inv_ok.
  - pose proof (emits_branch base (br_addr b)) as Hem.
    destruct (Hem s s' Hw H) as (_ & _ & Hk & _). rewrite Z.add_0_r, s32_id in Hk by apply Hw. split; [done|].
    destruct (mwf_regs m Hm) as (a & c & d & b' & sp & bp & si & di & HR & ? & ? & ? & ? & ? & ? & ? & ?).
    destruct m as [R f mm e]; cbn [X86.regs] in *. subst R. change (get_reg _ ESP) with sp.
    pose proof (branch_run base (br_addr b) (stkh s) (asm_i s) a c d b' sp bp si di f mm e
      (running_eip _ _ _ _ _ Hrun)) as Hx.
    destruct (emits_run _ _ _ code base s s' _ _ Hem H Hrun Hx) as (Hst & _ & _).
    eexists. split; [exact Hst|]. constructor; cbn; try done.
    constructor; cbn; [done| |apply u32_range].
    repeat (apply Forall_cons_2; [done || apply u32_range|]). apply Forall_nil_2.
  - intros x vs Hx Hst Hsp. pose proof (emits_br_if base (br_addr b)) as Hem.
    destruct (Hem s s' Hw H) as (_ & _ & Hk & _). split; [done|].
    destruct (Z.eqb_spec x 0) as [E|E].
    + destruct (br_if_fall base (br_addr b) (stkh s) (asm_i s) m x vs Hm Hx Hst Hsp
        (running_eip _ _ _ _ _ Hrun) E) as (m' & Hrn & Hp).
      exists m'. split; [by eapply emits_run|].
      rewrite <- (emits_pos _ _ _ _ _ _ _ _ Hem H Hrun). exact Hp.
    + destruct (br_if_jump base (br_addr b) (stkh s) (asm_i s) m x vs Hm Hx Hst Hsp
        (running_eip _ _ _ _ _ Hrun) E) as (m' & Hrn & Hp).
      exists m'. split; [by eapply emits_run|exact Hp].
Qed.

(** [br.if 0] in the outermost block, taken and not taken. *)
Definition demo_blk_state : gst :=
  match (gen_block true +> (fun s => Ok (with_stkh s 3))) demo_state with Ok s => s | _ => demo_state end.
Definition demo_br_if : gst :=
  match gen_token [0; 0; 0; 0; 0] 0 false (fun _ => 0) 0 demo_blk_state br_if with
  | Ok (_, s) => s
  | _ => demo_state
  end.

(** A concrete run from a state that has emitted nothing. *)
Lemma running_start s s' sp vs bp data :
  emitted s s' = emitted demo_state s' -> asm_i s = 0 -> zlen (buf s) = 64 -> is_int (stkh s) ->
  running (buf s') 0 demo_state s' (demo_machine_at sp vs bp data) ->
  running (buf s') 0 s s' (demo_machine_at sp vs bp data).
Proof.
  intros He Hi Hb Hh [_ Hc Hp Hm]. constructor; [constructor; lia || done| | |done].
  - rewrite He, Hi. exact Hc.
  - by rewrite Hi.
Qed.

Ltac demo_run_at :=
  apply running_start;
    [vm_compute; reflexivity|vm_compute; reflexivity|vm_compute; reflexivity
    |vm_compute; split; [discriminate|reflexivity]|demo_run].

Lemma branch_code_correct_witness :
  (exists m', steps (buf demo_br_if) 0 (demo_machine [1; 7; 8] 0 []) m' /\
     eip m' = 0 /\ get_reg m' ESP = 4108) /\
  (exists m', steps (buf demo_br_if) 0 (demo_machine [0; 7; 8] 0 []) m' /\
     eip m' = 20 /\ get_reg m' ESP = 4100).
Proof.
  split.
  - destruct (branch_code_correct [0; 0; 0; 0; 0] 0 false (fun _ => 0) 0 4 (buf demo_br_if) demo_blk_state
      demo_br_if (demo_machine [1; 7; 8] 0 []) 0 {| br_addr := 0; stk_height := 0 |} br_if) as (_ & H);
      [vm_compute; reflexivity|vm_compute; reflexivity|vm_compute; reflexivity|demo_run_at|].
    destruct (H eq_refl 1 [7; 8]) as (_ & m' & Hs & Hp);
      [by unfold is_word|by apply demo_stack; vm_compute|vm_compute; reflexivity|].
    exists m'. split; [exact Hs|]. split; [exact (jp_eip _ _ _ _ Hp)|].
    rewrite (jp_sp _ _ _ _ Hp). vm_compute. reflexivity.
  - destruct (branch_code_correct [0; 0; 0; 0; 0] 0 false (fun _ => 0) 0 4 (buf demo_br_if) demo_blk_state
      demo_br_if (demo_machine [0; 7; 8] 0 []) 0 {| br_addr := 0; stk_height := 0 |} br_if) as (_ & H);
      [vm_compute; reflexivity|vm_compute; reflexivity|vm_compute; reflexivity|demo_run_at|].
    destruct (H eq_refl 0 [7; 8]) as (_ & m' & Hs & Hp);
      [by unfold is_word|by apply demo_stack; vm_compute|vm_compute; reflexivity|].
    exists m'. split; [exact Hs|]. split; [rewrite (jp_eip _ _ _ _ Hp); vm_compute; reflexivity|].
    rewrite (jp_sp _ _ _ _ Hp). vm_compute. reflexivity.
Defined.

(** ** Returning *)

Definition ret_seg (rt : Z) : seg :=
  (if rt =? 0 then [] else [(1, Pop EAX)]) ++ [(2, Mov ESP EBP)] ++ [(1, Ret)].

Lemma emits_ret rt :
  emits ((if rt =? 0 then skip else pop_ EAX) +> ins (mov_r32_r32 ESP EBP) +> ins ret_fn)
    (fun _ => ret_seg rt) (if rt =? 0 then 0 else -1).
Proof.
  unfold ret_seg. destruct (rt =? 0).
  - eapply emits_ext; [|eapply emits_seq2; [eapply emits_seq2; [apply emits_skip|emit_seq|reflexivity]|emit_seq|reflexivity]].
    reflexivity.
  - eapply emits_ext; [|emit_seq]; reflexivity.
Qed.

(** C22. The code of [ret] returns: control goes to the return address kept at
    [EBP], the stack pointer ends above it, the memory is unchanged, and [EAX]
    holds the result of a function that has one. *)
Theorem ret_code_correct prog base gen_info indet place place' code s s' m f ra r vs :
  arr_get (g_fns s) (g_fn s) = Ok f ->
  gen_token prog base gen_info indet place s ret = Ok (place', s') -> running code base s s' m ->
  load32 (mem m) (get_reg m EBP) = Some ra -> is_word ra -> get_reg m EBP + 4 < 2 ^ 32 ->
  (art f <> 0 -> is_word r /\ get_reg m ESP + 4 < 2 ^ 32 /\ stack_at (mem m) (get_reg m ESP) (r :: vs)) ->
  exists m', steps code base m m' /\ eip m' = ra /\ get_reg m' ESP = get_reg m EBP + 4 /\
    get_reg m' EBP = get_reg m EBP /\ get_reg m' ESI = get_reg m ESI /\ get_reg m' EDI = get_reg m EDI /\
    mem m' = mem m /\ mwf m' /\ (art f <> 0 -> get_reg m' EAX = r).
Proof.
  intros Hf Hg Hrun Hra Hwra Hbp Hr. cbn [gen_token] in Hg. unfold gen_ret in Hg. rewrite Hf in Hg.
  cbn [mbind res_bind] in Hg. inv_ok. pose proof (emits_ret (art f)) as Hem.
  pose proof (rn_mwf _ _ _ _ _ Hrun) as Hm.
  destruct (mwf_regs m Hm) as (a & c & d & b & sp & bp & si & di & HR & ? & ? & ? & ? & ? & ? & ? & ?).
  destruct m as [R fl mm e]; cbn [X86.regs X86.mem] in *. subst R.
  change (get_reg (M [a; c; d; b; sp; bp; si; di] fl mm e) ESP) with sp in *.
  change (get_reg (M [a; c; d; b; sp; bp; si; di] fl mm e) EBP) with bp in *.
  assert (exists a' sp', falls (if art f =? 0 then [] else [(1, Pop EAX)]) (M [a; c; d; b; sp; bp; si; di] fl mm e)
    (M [a'; c; d; b; sp'; bp; si; di] fl mm (if art f =? 0 then e else u32 (e + 1))) /\ is_word a' /\
    (art f <> 0 -> a' = r)) as (a' & sp' & Hpre & Ha' & Hres).
  { destruct (Z.eqb_spec (art f) 0) as [E|E]; [exists a, sp; by split_and!|].
    destruct (Hr E) as (Hwr & Hsp & Hst). apply stack_at_cons in Hst as (Hin & Hl & _).
    exists r, (sp + 4). split_and!; try done. intros k. cbn [app].
    apply (seg_pop EAX 1 _ a c d b sp bp si di fl mm e r); [done| |lia|done|].
    - unfold in_space in *. rewrite zlen_cons in Hin. pose proof (zlen_nonneg vs). lia.
    - by red_regs. }
  eassert (exec_seg (ret_seg (art f)) _ = Some (M [a'; c; d; b; bp + 4; bp; si; di] fl mm ra)) as Hx.
  { unfold ret_seg. rewrite Hpre. cbn [app]. seg_step. cbn [exec_seg exec]. unfold pop, set_eip, get_reg.
    cbn [X86.regs X86.mem lookup_total list_lookup_total Z.to_nat]. red_exec.
    rewrite (u32_small bp) by done. rewrite Hra. red_exec.
    rewrite (u32_small (bp + 4)), (u32_small ra) by (unfold is_word in *; lia).
    by destruct (ra =? _). }
  destruct (emits_run _ _ _ code base s s' _ _ Hem H Hrun Hx) as (Hst & _ & _).
  eexists. split; [exact Hst|]. split_and!; try done.
  constructor; cbn; [done| |done]. unfold is_word in *.
  repeat (apply Forall_cons_2; [lia|]). apply Forall_nil_2.
Qed.

(** A function that returns an integer. *)
Definition demo_int_state : gst :=
  with_fn (with_fns demo_state (replicate 64 {| art := 1; fn_addr := 30; aparam_n := 2; alocal_n := 0 |})) 0.
Definition demo_ret : gst :=
  match gen_token [] 0 false (fun _ => 0) 0 demo_int_state ret with Ok (_, s) => s | _ => demo_state end.

Lemma ret_code_correct_witness :
  exists m', steps (buf demo_ret) 0 (demo_machine [9; 6; 77; 5] 4104 []) m' /\
    eip m' = 77 /\ get_reg m' ESP = 4108 /\ get_reg m' EAX = 9.
Proof.
  destruct (ret_code_correct [] 0 false (fun _ => 0) 0 0 (buf demo_ret) demo_int_state demo_ret
    (demo_machine [9; 6; 77; 5] 4104 []) {| art := 1; fn_addr := 30; aparam_n := 2; alocal_n := 0 |} 77 9 [6; 77; 5])
    as (m' & Hs & He & Hsp & _ & _ & _ & _ & _ & Hr).
  - vm_compute; reflexivity.
  - vm_compute; reflexivity.
  - demo_run_at.
  - vm_compute; reflexivity.
  - by unfold is_word.
  - vm_compute; reflexivity.
  - intros _. split; [by unfold is_word|]. split; [vm_compute; reflexivity|by apply demo_stack; vm_compute].
  - exists m'. split; [exact Hs|]. split; [exact He|]. split; [exact Hsp|]. apply Hr. cbn. discriminate.
Defined.

(** ** Calling *)

Definition call_seg (base : Z) (f : asm_fn_info) (i : Z) : seg :=
  [(6, AluImm SUB ESP (s32 (alocal_n f))); (1, Push EBP); (2, Mov EBP ESP); (6, AluImm SUB EBP (s32 4));
   (5, Call (s32 (fn_addr f - (base + (i + 15)) - 5)))].

Definition after_seg (f : asm_fn_info) : seg :=
  [(1, Pop EBP); (6, AluImm ADD ESP (s32 (4 * (aparam_n f + alocal_n f))))] ++
  (if art f =? 0 then [] else [(1, Push EAX)]).

Lemma emits_height k : emits (fun s => Ok (with_stkh s (s32 (stkh s - k)))) (fun _ => []) (- k).
Proof.
  intros s s' [Hi Hb Hh] [= <-]. split_and!; [|by constructor|done|].
  - exists []. split; [constructor|]. exact (appended_nil s ltac:(by constructor)).
  - constructor; cbn; [done|done|apply s32_range].
Qed.

Lemma emits_call_jump base f :
  emits (ins (sub_r32_imm ESP (alocal_n f)) +> push_nil EBP +> ins (mov_r32_r32 EBP ESP) +>
         ins (sub_r32_imm EBP 4) +> ins_at (fun i => call_rel (base + i) (fn_addr f)))
    (fun s => call_seg base f (asm_i s)) 0.
Proof.
  eapply (emits_seq _ _
    (fun _ => [(6, AluImm SUB ESP (s32 (alocal_n f))); (1, Push EBP); (2, Mov EBP ESP); (6, AluImm SUB EBP (s32 4))])
    (fun s => [(5, Call (s32 (fn_addr f - (base + asm_i s) - 5)))])
    (fun s => [(5, Call (s32 (fn_addr f - (base + (asm_i s + 15)) - 5)))]) 0 0).
  - unfold push_nil. eapply emits_ext; [|emit_seq]; reflexivity.
  - apply (emits_at (fun s => call_rel (base + asm_i s) (fn_addr f))
             (fun s => Call (s32 (fn_addr f - (base + asm_i s) - 5)))). intros s. constructor.
  - done.
  - intros s s' _ Hi _. by rewrite Hi.
Qed.

Lemma emits_call base f :
  emits (ins (sub_r32_imm ESP (alocal_n f)) +> push_nil EBP +> ins (mov_r32_r32 EBP ESP) +>
         ins (sub_r32_imm EBP 4) +> ins_at (fun i => call_rel (base + i) (fn_addr f)) +>
         pop_nil EBP +> ins (add_r32_imm ESP (4 * (aparam_n f + alocal_n f))) +>
         (fun s => Ok (with_stkh s (s32 (stkh s - aparam_n f)))) +>
         (if art f =? 0 then skip else push_ EAX))
    (fun s => call_seg base f (asm_i s) ++ after_seg f) (- aparam_n f + (if art f =? 0 then 0 else 1)).
Proof.
  eapply emits_ext.
  2:{ eapply emits_seq_const; [eapply emits_seq_const; [eapply emits_seq_const; [eapply emits_seq_const;
        [apply emits_call_jump|unfold pop_nil; emit_seq|reflexivity]|emit_seq|reflexivity]
        |apply emits_height|reflexivity]| |].
      - instantiate (1 := if art f =? 0 then 0 else 1).
        instantiate (1 := if art f =? 0 then [] else [(1, Push EAX)]).
        destruct (art f =? 0); [apply emits_skip|apply emits_push; auto with x86enc].
      - lia. }
  intros s. unfold after_seg. by rewrite <- !app_assoc.
Qed.

Lemma sub_imm sp n : 0 <= n < 2 ^ 31 -> n <= sp < 2 ^ 32 -> u32 (sp - u32 (s32 n)) = sp - n.
Proof. intros Hn Hs. rewrite u32_s32, (u32_small n), u32_small by lia. done. Qed.

(** Two words stored below one another. *)
Lemma store_two mm a v w x y :
  in_space a 8 -> is_word v -> is_word w -> load32 mm (a + 4) = Some x -> load32 mm a = Some y ->
  exists mm1 mm2, store32 mm (a + 4) v = Some mm1 /\ store32 mm1 a w = Some mm2 /\
    load32 mm2 (a + 4) = Some v /\ load32 mm2 a = Some w /\ same_except a (a + 8) mm mm2.
Proof.
  unfold in_space. intros Ha Hv Hw Hx Hy.
  destruct (store32_ok mm (a + 4) v x) as (mm1 & H1 & L1 & S1); [unfold in_space; lia|done|].
  assert (load32 mm1 a = Some y) as Hy1.
  { rewrite <- Hy. apply (load32_same _ _ _ _ _ S1); unfold in_space; lia. }
  destruct (store32_ok mm1 a w y) as (mm2 & H2 & L2 & S2); [unfold in_space; lia|done|].
  rewrite u32_small in L1, L2 by done. exists mm1, mm2. split_and!; try done.
  - rewrite <- L1. apply (load32_same _ _ _ _ _ S2); unfold in_space; lia.
  - apply (same_except_trans _ _ mm mm1 mm2).
    + apply (same_except_weaken (a + 4) (a + 4 + 4)); [lia|lia|done].
    + apply (same_except_weaken a (a + 4)); [lia|lia|done].
Qed.

Lemma seg_call n rel R sp f mm mm' e :
  R !!! 4%nat = sp -> 4 <= sp < 2 ^ 32 -> store32 mm (sp - 4) (u32 (e + n)) = Some mm' ->
  exec_seg [(n, Call rel)] (M R f mm e) = Some (M (<[4%nat := sp - 4]> R) f mm' (u32 (e + n + rel))).
Proof.
  intros HR Hs Hst. cbn [exec_seg exec]. unfold push, get_reg, set_reg, set_eip, set_mem.
  cbn [X86.regs X86.flags X86.mem X86.eip]. change (Z.to_nat 4) with 4%nat.
  rewrite HR, (u32_small (sp - 4)), u32_idem, Hst by lia. cbn [mbind option_bind X86.regs X86.flags X86.mem X86.eip].
  rewrite (u32_small (sp - 4)), u32_add_l by lia. by destruct (_ =? _).
Qed.

Section call.
Context (base : Z) (f : asm_fn_info) (a c d b sp bp si di : Z) (fl : option flagset) (mm : gmap Z Z).
Let top := sp - alocal_n f - 8.
Hypothesis Hn : 0 <= alocal_n f < 2 ^ 31.
Hypothesis Hw : Forall is_word [a; c; d; b; sp; bp; si; di].
Hypothesis Htop : 0 <= top.

Lemma call_run i e x y :
  e = u32 (base + i) -> load32 mm (top + 4) = Some x -> load32 mm top = Some y ->
  exists mm' fl', exec_seg (call_seg base f i) (M [a; c; d; b; sp; bp; si; di] fl mm e) =
      Some (M [a; c; d; b; top; top; si; di] fl' mm' (u32 (fn_addr f))) /\
    load32 mm' top = Some (u32 (e + 20)) /\ load32 mm' (top + 4) = Some bp /\ same_except top (top + 8) mm mm'.
Proof.
  intros -> Hx Hy. rewrite !Forall_cons in Hw. destruct Hw as (_ & _ & _ & _ & Hsp & Hbp & _).
  unfold is_word in Hsp.
  destruct (store_two mm top bp (u32 (u32 (base + i) + 20)) x y) as (m1 & m2 & H1 & H2 & L1 & L2 & Hs); try done;
    [unfold in_space; lia|apply u32_range|].
  exists m2. eexists. split_and!; [|done|done|done].
  unfold call_seg. eapply exec_seg_cons; [red_machine; rewrite sub_imm by lia; reflexivity|reflexivity|].
  rewrite u32_small by lia.
  eapply (seg_push 5 1 _ _ (sp - alocal_n f)); [done|done|reflexivity|lia| |].
  { replace (sp - alocal_n f - 4) with (top + 4) by lia. exact H1. }
  cbn [insert list_insert]. replace (sp - alocal_n f - 4) with (top + 4) by lia.
  seg_step. rewrite (u32_small (top + 4)) by lia.
  eapply exec_seg_cons; [red_machine; reflexivity|reflexivity|].
  replace (u32 (u32 (top + 4 - u32 (s32 4)))) with top.
  2:{ rewrite sub_imm by lia. rewrite u32_small; lia. }
  assert (u32 (u32 (u32 (u32 (u32 (u32 (base + i) + 6) + 1) + 2) + 6) + 5) = u32 (u32 (base + i) + 20)) as E
    by u32_sums.
  erewrite (seg_call _ _ _ (top + 4)); [|done|lia|].
  - cbn [insert list_insert]. replace (top + 4 - 4) with top by lia. do 2 f_equal.
    rewrite <- u32_add_l, E. rewrite u32_add_s32. u32_sums.
  - rewrite E. replace (top + 4 - 4) with top by lia. exact H2.
Qed.
End call.

(** Running the end of what was emitted. *)
Lemma emits_run_suffix a P d l1 l2 code base s s' m0 m m' :
  emits a P d -> a s = Ok s' -> running code base s s' m0 ->
  P s = l1 ++ l2 -> eip m = base + asm_i s + seg_len l1 -> exec_seg l2 m = Some m' -> steps code base m m'.
Proof.
  intros Ha Hs [Hwf Hcode _ _] HP He Hx.
  destruct (Ha s s' Hwf Hs) as ((bs & Hc & Hap) & _).
  rewrite (appended_emitted s s' bs) in Hcode by (done || apply Hwf). rewrite HP in Hc.
  assert (exists b1 b2, bs = b1 ++ b2 /\ is_code b1 l1 /\ is_code b2 l2) as (b1 & b2 & -> & Hc1 & Hc2).
  { clear -Hc. revert bs Hc. induction l1 as [|[n i] l1 IH]; intros bs H; [exists [], bs; by repeat constructor|].
    inversion H; subst. destruct (IH bs0) as (b1 & b2 & -> & H1 & H2); [done|].
    exists (b ++ b1), b2. rewrite app_assoc. split_and!; [done|by constructor|done]. }
  apply code_at_app in Hcode. rewrite (is_code_len _ _ Hc1) in He. rewrite <- He in Hcode. by eapply exec_seg_steps.
Qed.

Section after.
Context (f : asm_fn_info) (a c d b sp bp0 bp si di : Z) (fl : option flagset) (mm : gmap Z Z) (e : Z).
Let k := 4 * (aparam_n f + alocal_n f).
Hypothesis Hk : 0 <= k < 2 ^ 31.
Hypothesis Hsp : 0 <= sp.
Hypothesis Htop : sp + 4 + k < 2 ^ 32.
Hypothesis Hbp : is_word bp.
Hypothesis Hl : load32 mm sp = Some bp.

Lemma after_pop :
  falls [(1, Pop EBP); (6, AluImm ADD ESP (s32 k))] (M [a; c; d; b; sp; bp0; si; di] fl mm e)
    (M [a; c; d; b; sp + 4 + k; bp; si; di] (Some (add_flags (sp + 4) (u32 (s32 k)))) mm (u32 (e + 7))).
Proof.
  intros l. cbn [app].
  apply (seg_pop EBP 1 _ a c d b sp bp0 si di fl mm e bp); [done|split; lia|lia|done|]. red_regs. seg_step.
  rewrite u32_s32, (u32_small k) by lia. rewrite !(u32_small (sp + 4 + k)) by lia. f_equal. f_equal. u32_sums.
Qed.

Lemma after_run z :
  is_word a -> (art f <> 0 -> load32 mm (sp + k) = Some z) ->
  exists mm' fl', exec_seg (after_seg f) (M [a; c; d; b; sp; bp0; si; di] fl mm e) =
      Some (M [a; c; d; b; sp + k + (if art f =? 0 then 4 else 0); bp; si; di] fl' mm' (u32 (e + seg_len (after_seg f)))) /\
    same_except (sp + k) (sp + k + 4) mm mm' /\ (art f <> 0 -> load32 mm' (sp + k) = Some a).
Proof.
  intros Ha Hz. unfold after_seg. fold k. destruct (Z.eqb_spec (art f) 0) as [E|E].
  - exists mm. eexists. split_and!; [|apply same_except_refl|done].
    rewrite after_pop. cbn [exec_seg]. replace (sp + k + 4) with (sp + 4 + k) by lia. reflexivity.
  - destruct (store32_ok mm (sp + k) a z) as (mm' & Hs & Hld & Hsame); [split; lia|by apply Hz|].
    rewrite u32_small in Hld by done. exists mm'. eexists. split_and!; [|done|done].
    rewrite after_pop. eapply (seg_push 0 1 [] _ (sp + 4 + k)); [done|done|reflexivity|lia| |].
    + replace (sp + 4 + k - 4) with (sp + k) by lia. exact Hs.
    + cbn [exec_seg insert list_insert]. replace (sp + 4 + k - 4) with (sp + k) by lia. rewrite Z.add_0_r.
      do 2 f_equal. change (seg_len _) with 8. u32_sums.
Qed.
End after.

Lemma gen_call_emits prog base gen_info indet place place' s s' iv f :
  get_int prog place = Ok (iv, place') -> arr_get (g_fns s) iv = Ok f ->
  gen_token prog base gen_info indet place s call = Ok (place', s') ->
  exists g, emits g (fun s => call_seg base f (asm_i s) ++ after_seg f)
              (- aparam_n f + (if art f =? 0 then 0 else 1)) /\ g s = Ok s'.
Proof.
  intros Hi Hf Hg. cbn [gen_token] in Hg. unfold with_iv, read_iv in Hg. rewrite Hi in Hg.
  cbn [mbind res_bind] in Hg. unfold gen_call in Hg. rewrite Hf in Hg. cbn [mbind res_bind] in Hg. inv_ok.
  eexists. split; [apply emits_call|exact H].
Qed.

(** The state of a function that has just been called with [args]: its frame is
    at [EBP], the return address [ra] on top of the stack, the caller's [EBP]
    below. *)
Record called (m m1 : machine) (target ra : Z) (args : list Z) : Prop := {
  cl_eip : eip m1 = target;
  cl_sp : get_reg m1 ESP = get_reg m ESP - 8;
  cl_bp : get_reg m1 EBP = get_reg m ESP - 8;
  cl_frame : frame_at (mem m1) (get_reg m1 EBP) args;
  cl_ra : load32 (mem m1) (get_reg m1 EBP) = Some ra;
  cl_saved : load32 (mem m1) (get_reg m1 EBP + 4) = Some (get_reg m EBP);
  cl_mem : same_except (get_reg m ESP - 8) (get_reg m ESP) (mem m) (mem m1);
  cl_si : get_reg m1 ESI = get_reg m ESI;
  cl_di : get_reg m1 EDI = get_reg m EDI;
  cl_mwf : mwf m1;
}.

(** The state of a function [m2] that has just returned to the caller of [m]. *)
Record returned (m m2 : machine) (ra : Z) (f : asm_fn_info) (vs : list Z) : Prop := {
  rt_eip : eip m2 = ra;
  rt_sp : get_reg m2 ESP = get_reg m ESP - 4;
  rt_saved : load32 (mem m2) (get_reg m ESP - 4) = Some (get_reg m EBP);
  rt_stack : stack_at (mem m2) (get_reg m ESP + 4 * aparam_n f) vs;
  rt_slot : exists z, load32 (mem m2) (get_reg m ESP + 4 * aparam_n f - 4) = Some z;
  rt_mwf : mwf m2;
}.

Lemma call_entry code base g dh s s' m f args vs :
  emits g (fun s => call_seg base f (asm_i s) ++ after_seg f) dh -> g s = Ok s' ->
  running code base s s' m -> alocal_n f = 0 ->
  stack_at (mem m) (get_reg m ESP) (reverse args ++ vs) -> 8 <= get_reg m ESP ->
  is_Some (load32 (mem m) (get_reg m ESP - 4)) -> is_Some (load32 (mem m) (get_reg m ESP - 8)) ->
  exists m1, steps code base m m1 /\ called m m1 (u32 (fn_addr f)) (u32 (base + asm_i s + 20)) args.
Proof.
  intros Hem Hg Hrun Hn Hst Hsp [x Hx] [y Hy]. pose proof (rn_mwf _ _ _ _ _ Hrun) as Hm.
  pose proof (running_eip _ _ _ _ _ Hrun) as He. pose proof (rn_eip _ _ _ _ _ Hrun) as He'.
  destruct (mwf_regs m Hm) as (a & c & d & b & sp & bp & si & di & HR & ? & ? & ? & ? & ? & ? & ? & ?).
  destruct m as [R fl mm e]; cbn [X86.regs X86.mem X86.eip] in *. subst R.
  change (get_reg _ ESP) with sp in *. destruct Hst as [Hin Hst]. rewrite zlen_app, zlen_reverse in Hin.
  pose proof (zlen_nonneg args). pose proof (zlen_nonneg vs). unfold in_space in Hin.
  assert (Forall is_word [a; c; d; b; sp; bp; si; di]) as Hw by apply Hm.
  destruct (call_run base f a c d b sp bp si di fl mm ltac:(lia) Hw ltac:(lia) (asm_i s) e x y He)
    as (mm' & fl' & Hx' & L1 & L2 & Hsame).
  { rewrite <- Hx. f_equal. lia. }
  { rewrite <- Hy. f_equal. lia. }
  rewrite Hn in *. replace (sp - 0 - 8) with (sp - 8) in * by lia.
  eexists. split; [by eapply (emits_run_prefix _ _ _ (call_seg base f (asm_i s)) (after_seg f))|].
  constructor; try done.
  - change (stack_at mm' (sp - 8 + 8) (reverse args)). replace (sp - 8 + 8) with sp by lia.
    apply (stack_at_same mm mm' (sp - 8) (sp - 8 + 8)); [done|lia|].
    split; [unfold in_space; rewrite zlen_reverse; lia|]. intros i v Hi. apply Hst. by apply lookup_app_l_Some.
  - change (load32 mm' (sp - 8) = Some (u32 (base + asm_i s + 20))). rewrite L1, He'. done.
  - change (same_except (sp - 8) sp mm mm'). by replace sp with (sp - 8 + 8) at 2 by lia.
  - constructor; cbn; [done| |apply u32_range]. rewrite !Forall_cons in Hw. unfold is_word in *.
    repeat (apply Forall_cons_2; [lia|]). apply Forall_nil_2.
Qed.

Lemma emits_len g P dh s s' :
  ewf s -> emits g P dh -> g s = Ok s' -> asm_i s' = asm_i s + seg_len (P s).
Proof.
  intros Hw Hem Hg. destruct (Hem s s' Hw Hg) as ((bs & Hc & Hi & _) & _). by rewrite (is_code_len _ _ Hc).
Qed.

Lemma call_exit code base g dh s s' m m2 f vs :
  emits g (fun s => call_seg base f (asm_i s) ++ after_seg f) dh -> g s = Ok s' ->
  running code base s s' m -> alocal_n f = 0 -> 0 <= aparam_n f < 2 ^ 29 ->
  4 <= get_reg m ESP -> get_reg m ESP + 4 * aparam_n f < 2 ^ 32 ->
  returned m m2 (u32 (base + asm_i s + 20)) f vs ->
  exists m3, steps code base m2 m3 /\ eip m3 = base + asm_i s' /\
    get_reg m3 EBP = get_reg m EBP /\ get_reg m3 ESI = get_reg m2 ESI /\ get_reg m3 EDI = get_reg m2 EDI /\
    mwf m3 /\ stack_at (mem m3) (get_reg m3 ESP) ((if art f =? 0 then [] else [get_reg m2 EAX]) ++ vs).
Proof.
  intros Hem Hg Hrun Hn Hp Hs4 Hs [Re Rs Rb Rst [z Rz] Rm].
  pose proof (emits_pos _ _ _ _ _ _ _ _ Hem Hg Hrun) as Hpos. cbv beta in Hpos.
  pose proof (emits_len _ _ _ _ _ (rn_ewf _ _ _ _ _ Hrun) Hem Hg) as Hlen. cbv beta in Hlen.
  rewrite seg_len_app in Hlen, Hpos. change (seg_len (call_seg _ _ _)) with 20 in *.
  assert (0 < seg_len (after_seg f)) as Hl0 by (unfold after_seg; destruct (art f =? 0); vm_compute; done).
  assert (is_word (base + asm_i s')) as Hws by (rewrite <- Hpos; apply u32_range).
  assert (is_word (base + asm_i s)) as Hws0 by (rewrite <- (rn_eip _ _ _ _ _ Hrun); apply Hrun).
  unfold is_word in Hws, Hws0. rewrite u32_small in Re by lia.
  assert (is_word (get_reg m EBP)) as Hwb by (apply get_reg_word; [apply Hrun|by unfold is_reg]).
  destruct (mwf_regs m2 Rm) as (a & c & d & b & sp2 & bp2 & si & di & HR & ? & ? & ? & ? & ? & ? & ? & ?).
  destruct m2 as [R fl mm e2]; cbn [X86.regs X86.mem X86.eip] in *. subst R.
  change (get_reg (M [a; c; d; b; sp2; bp2; si; di] fl mm e2) ESP) with sp2 in Rs. subst sp2.
  set (sp := get_reg m ESP) in *.
  destruct (after_run f a c d b (sp - 4) bp2 (get_reg m EBP) si di fl mm e2 ltac:(lia) ltac:(lia) ltac:(lia) Hwb Rb z)
    as (mm' & fl' & Hx & Hsame & Hld); [done|intros _; rewrite <- Rz; f_equal; lia|].
  rewrite Hn, Z.add_0_r in *. set (sp' := sp + 4 * aparam_n f) in *.
  replace (sp - 4 + 4 * aparam_n f) with (sp' - 4) in * by lia.
  eexists. split; [|split_and!].
  - eapply (emits_run_suffix _ _ _ (call_seg base f (asm_i s)) (after_seg f)); try done.
  - cbn [X86.eip]. rewrite Re, <- Hpos, (rn_eip _ _ _ _ _ Hrun). f_equal. lia.
  - done.
  - done.
  - done.
  - constructor; cbn; [done| |apply u32_range]. unfold is_word in *.
    repeat (apply Forall_cons_2; [destruct (art f =? 0); lia|]). apply Forall_nil_2.
  - change (stack_at mm' (sp' - 4 + (if art f =? 0 then 4 else 0))
      ((if art f =? 0 then [] else [a]) ++ vs)).
    assert (stack_at mm' sp' vs) as Hst by (apply (stack_at_same mm mm' (sp' - 4) (sp' - 4 + 4)); [done|lia|done]).
    destruct (Z.eqb_spec (art f) 0) as [E|E].
    + by replace (sp' - 4 + 4) with sp' by lia.
    + rewrite Z.add_0_r. cbn [app]. apply stack_at_cons. rewrite zlen_cons. destruct Hst as [Hin Hst].
      unfold in_space in *. split_and!; [lia|lia|by apply Hld|]. replace (sp' - 4 + 4) with sp' by lia. done.
Qed.

(** C21. A call of a function without locals enters it at its address with its
    arguments as its variables, and when the function has returned to the
    address it was given, the caller goes on after the call: its frame is
    restored, the arguments are off the stack and the result, if there is one,
    is on it. *)
Theorem call_code_correct prog base gen_info indet place place' code s s' m iv f args vs :
  get_int prog place = Ok (iv, place') -> arr_get (g_fns s) iv = Ok f ->
  gen_token prog base gen_info indet place s call = Ok (place', s') -> running code base s s' m ->
  alocal_n f = 0 -> aparam_n f = zlen args -> zlen args < 2 ^ 29 ->
  stack_at (mem m) (get_reg m ESP) (reverse args ++ vs) -> 8 <= get_reg m ESP ->
  get_reg m ESP + 4 * zlen args < 2 ^ 32 ->
  is_Some (load32 (mem m) (get_reg m ESP - 4)) -> is_Some (load32 (mem m) (get_reg m ESP - 8)) ->
  stkh s' = s32 (stkh s - aparam_n f + (if art f =? 0 then 0 else 1)) /\
  exists m1, steps code base m m1 /\ called m m1 (u32 (fn_addr f)) (u32 (base + asm_i s + 20)) args /\
    forall m2, returned m m2 (u32 (base + asm_i s + 20)) f vs ->
    exists m3, steps code base m2 m3 /\ eip m3 = base + asm_i s' /\
      get_reg m3 EBP = get_reg m EBP /\ get_reg m3 ESI = get_reg m2 ESI /\ get_reg m3 EDI = get_reg m2 EDI /\
      mwf m3 /\ stack_at (mem m3) (get_reg m3 ESP) ((if art f =? 0 then [] else [get_reg m2 EAX]) ++ vs).
Proof.
  intros Hi Hf Hg Hrun Hn Hp Hl Hst H8 Htop H4 H8'.
  destruct (gen_call_emits _ _ _ _ _ _ _ _ _ _ Hi Hf Hg) as (g & Hem & Hgs).
  pose proof (zlen_nonneg args). split.
  - destruct (Hem s s' (rn_ewf _ _ _ _ _ Hrun) Hgs) as (_ & _ & -> & _). f_equal. lia.
  - destruct (call_entry _ _ _ _ _ _ _ _ _ _ Hem Hgs Hrun Hn Hst H8 H4 H8') as (m1 & Hs & Hc).
    exists m1. split_and!; [done|done|]. intros m2 Hr.
    eapply call_exit; try done; [lia|lia|by rewrite Hp].
Qed.

Definition demo_call : gst :=
  match gen_token [0; 0; 0; 0; 0] 0 false (fun _ => 0) 0 demo_int_state call with
  | Ok (_, s) => s
  | _ => demo_state
  end.

Lemma call_code_correct_witness :
  exists m1, steps (buf demo_call) 0 (demo_machine_at 4104 [0; 0; 9; 6; 5] 0 []) m1 /\
    eip m1 = 30 /\ frame_at (mem m1) 4096 [6; 9].
Proof.
  assert (stack_at (mem (demo_machine_at 4104 [0; 0; 9; 6; 5] 0 [])) 4096 [0; 0; 9; 6; 5]) as Hst
    by (apply demo_stack; vm_compute; reflexivity).
  do 2 apply stack_at_cons in Hst as (_ & _ & Hst).
  destruct (call_code_correct [0; 0; 0; 0; 0] 0 false (fun _ => 0) 0 4 (buf demo_call) demo_int_state demo_call
    (demo_machine_at 4104 [0; 0; 9; 6; 5] 0 []) 0 {| art := 1; fn_addr := 30; aparam_n := 2; alocal_n := 0 |} [6; 9] [5])
    as (_ & m1 & Hs & Hc & _).
  - vm_compute; reflexivity.
  - vm_compute; reflexivity.
  - vm_compute; reflexivity.
  - demo_run_at.
  - reflexivity.
  - reflexivity.
  - vm_compute; reflexivity.
  - exact Hst.
  - vm_compute; discriminate.
  - vm_compute; reflexivity.
  - eexists. vm_compute; reflexivity.
  - eexists. vm_compute; reflexivity.
  - exists m1. split; [exact Hs|]. split; [exact (cl_eip _ _ _ _ _ Hc)|].
    pose proof (cl_frame _ _ _ _ _ Hc) as H. rewrite (cl_bp _ _ _ _ _ Hc) in H. exact H.
Defined.

(** C40. A call of a function that has locals makes room for as many bytes as
    it has locals, not words: in the new frame the address of the first
    parameter is off by three bytes for every local. *)
Theorem call_locals_misplaced prog base gen_info indet place place' code s s' m iv f :
  get_int prog place = Ok (iv, place') -> arr_get (g_fns s) iv = Ok f ->
  gen_token prog base gen_info indet place s call = Ok (place', s') -> running code base s s' m ->
  0 <= alocal_n f < 2 ^ 31 -> alocal_n f + 8 <= get_reg m ESP ->
  is_Some (load32 (mem m) (get_reg m ESP - alocal_n f - 4)) ->
  is_Some (load32 (mem m) (get_reg m ESP - alocal_n f - 8)) ->
  let first_argument := get_reg m ESP + 4 * (aparam_n f - 1) in
  exists m', steps code base m m' /\ eip m' = u32 (fn_addr f) /\
    get_reg m' EBP + var_offset (aparam_n f + alocal_n f) 0 = first_argument + 3 * alocal_n f.
Proof.
  intros Hi Hf Hg Hrun Hn Hsp [x Hx] [y Hy] arg.
  destruct (gen_call_emits _ _ _ _ _ _ _ _ _ _ Hi Hf Hg) as (g & Hem & Hgs).
  pose proof (rn_mwf _ _ _ _ _ Hrun) as Hm. pose proof (running_eip _ _ _ _ _ Hrun) as He.
  destruct (mwf_regs m Hm) as (a & c & d & b & sp & bp & si & di & HR & _).
  destruct m as [R fl mm e]; cbn [X86.regs X86.mem X86.eip] in *. subst R.
  assert (Forall is_word [a; c; d; b; sp; bp; si; di]) as Hw by apply Hm.
  change (get_reg (M [a; c; d; b; sp; bp; si; di] fl mm e) ESP) with sp in *.
  destruct (call_run base f a c d b sp bp si di fl mm Hn Hw ltac:(lia) (asm_i s) e x y He)
    as (mm' & fl' & Hx' & _); [rewrite <- Hx; f_equal; lia|done|].
  eexists. split; [by eapply (emits_run_prefix _ _ _ (call_seg base f (asm_i s)) (after_seg f))|].
  split; [done|]. subst arg. change (get_reg _ EBP) with (sp - alocal_n f - 8). unfold var_offset. lia.
Qed.

Definition demo_call_locals : gst :=
  match gen_token [0; 0; 0; 0; 0] 0 false (fun _ => 0) 0 demo_fn_state call with
  | Ok (_, s) => s
  | _ => demo_state
  end.

Lemma call_locals_misplaced_witness :
  exists m', steps (buf demo_call_locals) 0 (demo_machine_at 4112 [0; 0; 0; 0; 6; 5] 0 []) m' /\
    get_reg m' EBP + var_offset 3 0 = 4112 + 6.
Proof.
  destruct (call_locals_misplaced [0; 0; 0; 0; 0] 0 false (fun _ => 0) 0 4 (buf demo_call_locals) demo_fn_state
    demo_call_locals (demo_machine_at 4112 [0; 0; 0; 0; 6; 5] 0 []) 0
    {| art := 0; fn_addr := 0; aparam_n := 1; alocal_n := 2 |}) as (m' & Hs & _ & Ha).
  - vm_compute; reflexivity.
  - vm_compute; reflexivity.
  - vm_compute; reflexivity.
  - demo_run_at.
  - vm_compute; split; [discriminate|reflexivity].
  - vm_compute; discriminate.
  - eexists. vm_compute; reflexivity.
  - eexists. vm_compute; reflexivity.
  - exists m'. split; [exact Hs|exact Ha].
Defined.
