(* ===== verification/KString.v ===== *)
(** * Memory and string routines of the kernel: [string.c], and [stosb]/[stosl] of [x86.h]

    Memory is the list of its bytes and a pointer an index into it; an access
    outside the list is a fault. *)

From stdpp Require Import base list.
From Stdlib Require Import ZArith Lia.
From S2P Require Import Prelude.

(** ** [x86.h] *)

(** [rep stosb] *)
Fixpoint stosb (cnt : nat) (mem : list Z) (addr data : Z) : res (list Z) :=
  match cnt with
  | O => Ok mem
  | S cnt => mem ← arr_set mem addr (u8 data); stosb cnt mem (addr + 1) data
  end.

(** [rep stosl] *)
Fixpoint stosl (cnt : nat) (mem : list Z) (addr data : Z) : res (list Z) :=
  match cnt with
  | O => Ok mem
  | S cnt => mem ← arr_write mem addr (le_bytes 4 data); stosl cnt mem (addr + 4) data
  end.

(** ** [string.c] *)

(** The word [(c<<24)|(c<<16)|(c<<8)|c]. *)
Definition splat (c : Z) : Z :=
  Z.lor (Z.lor (Z.lor (Z.shiftl c 24) (Z.shiftl c 16)) (Z.shiftl c 8)) c.

Definition memset (mem : list Z) (dst c n : Z) : res (list Z) :=
  if (Z.rem (s32 dst) 4 =? 0) && (n mod 4 =? 0) then
    let c := Z.land c 0xff in
    stosl (Z.to_nat (n / 4)) mem dst (splat c)
  else
    stosb (Z.to_nat n) mem dst c.

Fixpoint memcmp_loop (n : nat) (mem : list Z) (s1 s2 : Z) : res Z :=
  match n with
  | O => Ok 0
  | S n =>
      a ← arr_get mem s1;
      b ← arr_get mem s2;
      if negb (a =? b) then Ok (a - b) else memcmp_loop n mem (s1 + 1) (s2 + 1)
  end.

Definition memcmp (mem : list Z) (v1 v2 n : Z) : res Z := memcmp_loop (Z.to_nat n) mem v1 v2.

(** [while(n-- > 0) *--d = *--s;] *)
Fixpoint copy_down (n : nat) (mem : list Z) (d s : Z) : res (list Z) :=
  match n with
  | O => Ok mem
  | S n =>
      c ← arr_get mem (s - 1);
      mem ← arr_set mem (d - 1) c;
      copy_down n mem (d - 1) (s - 1)
  end.

(** [while(n-- > 0) *d++ = *s++;] *)
Fixpoint copy_up (n : nat) (mem : list Z) (d s : Z) : res (list Z) :=
  match n with
  | O => Ok mem
  | S n =>
      c ← arr_get mem s;
      mem ← arr_set mem d c;
      copy_up n mem (d + 1) (s + 1)
  end.

Definition memmove (mem : list Z) (dst src n : Z) : res (list Z) :=
  if (src <? dst) && (dst <? src + n) then
    copy_down (Z.to_nat n) mem (dst + n) (src + n)
  else
    copy_up (Z.to_nat n) mem dst src.

Definition memcpy (mem : list Z) (dst src n : Z) : res (list Z) := memmove mem dst src n.

(** The inner test of the loop never holds: the condition has just excluded it. *)
Fixpoint strncmp_loop (n : nat) (mem : list Z) (p q : Z) : res Z :=
  match n with
  | O => Ok 0
  | S n =>
      a ← arr_get mem p;
      b ← arr_get mem q;
      if negb (a =? 0) && (a =? b) then strncmp_loop n mem (p + 1) (q + 1)
      else Ok (u8 a - u8 b)
  end.

Definition strncmp (mem : list Z) (p q n : Z) : res Z := strncmp_loop (Z.to_nat n) mem p q.

(** [while(n-- > 0) *s++ = 0;] *)
Fixpoint zero_fill (n : nat) (mem : list Z) (s : Z) : res (list Z) :=
  match n with
  | O => Ok mem
  | S n => mem ← arr_set mem s 0; zero_fill n mem (s + 1)
  end.

Fixpoint strncpy_loop (n : nat) (mem : list Z) (s t : Z) : res (list Z) :=
  match n with
  | O => Ok mem
  | S n =>
      c ← arr_get mem t;
      mem ← arr_set mem s c;
      if negb (c =? 0) then strncpy_loop n mem (s + 1) (t + 1) else zero_fill n mem (s + 1)
  end.

Definition strncpy (mem : list Z) (s t n : Z) : res (list Z) := strncpy_loop (Z.to_nat n) mem s t.

(** The loop, [n] being one less than in the source, and the final store. *)
Fixpoint safestrcpy_loop (n : nat) (mem : list Z) (s t : Z) : res (list Z) :=
  match n with
  | O => arr_set mem s 0
  | S n =>
      c ← arr_get mem t;
      mem ← arr_set mem s c;
      if negb (c =? 0) then safestrcpy_loop n mem (s + 1) (t + 1) else arr_set mem (s + 1) 0
  end.

Definition safestrcpy (mem : list Z) (s t n : Z) : res (list Z) :=
  if n <=? 0 then Ok mem else safestrcpy_loop (Z.to_nat (n - 1)) mem s t.

(** A string that does not end runs past the memory. *)
Fixpoint strlen_from (l : list Z) : res Z :=
  match l with
  | [] => Fault OutOfBounds
  | c :: l => if c =? 0 then Ok 0 else n ← strlen_from l; Ok (n + 1)
  end.

Definition strlen (mem : list Z) (s : Z) : res Z :=
  if s <? 0 then Fault OutOfBounds else strlen_from (drop (Z.to_nat s) mem).
