(* ===== verification/Ulib.v ===== *)
(** * String routines of user programs: [ulib.c]

    In the memory of [KString]. *)

From stdpp Require Import base list.
From Stdlib Require Import ZArith Lia.
From S2P Require Import Prelude KString.

Definition memset (mem : list Z) (dst c n : Z) : res (list Z) := stosb (Z.to_nat n) mem dst c.

(** Forward only, whatever the overlap. *)
Definition memmove (mem : list Z) (vdst vsrc n : Z) : res (list Z) := copy_up (Z.to_nat n) mem vdst vsrc.

(** The recursion is on the bytes left before the end of the memory. *)
Fixpoint strcpy_loop (fuel : nat) (mem : list Z) (s t : Z) : res (list Z) :=
  match fuel with
  | O => Fault OutOfFuel
  | S fuel =>
      c ← arr_get mem t;
      mem ← arr_set mem s c;
      if negb (c =? 0) then strcpy_loop fuel mem (s + 1) (t + 1) else Ok mem
  end.

Definition strcpy (mem : list Z) (s t : Z) : res (list Z) := strcpy_loop (S (length mem)) mem s t.

Fixpoint strcmp_loop (fuel : nat) (mem : list Z) (p q : Z) : res Z :=
  match fuel with
  | O => Fault OutOfFuel
  | S fuel =>
      a ← arr_get mem p;
      b ← arr_get mem q;
      if negb (a =? 0) && (a =? b) then strcmp_loop fuel mem (p + 1) (q + 1) else Ok (u8 a - u8 b)
  end.

Definition strcmp (mem : list Z) (p q : Z) : res Z := strcmp_loop (S (length mem)) mem p q.

(** The index of the character, or [None] for the null pointer. *)
Fixpoint strchr_from (l : list Z) (i c : Z) : res (option Z) :=
  match l with
  | [] => Fault OutOfBounds
  | a :: l => if a =? 0 then Ok None else if a =? c then Ok (Some i) else strchr_from l (i + 1) c
  end.

Definition strchr (mem : list Z) (s c : Z) : res (option Z) :=
  if s <? 0 then Fault OutOfBounds else strchr_from (drop (Z.to_nat s) mem) s c.

Fixpoint atoi_from (l : list Z) (n : Z) : res Z :=
  match l with
  | [] => Fault OutOfBounds
  | c :: l => if (48 <=? c) && (c <=? 57) then atoi_from l (s32 (n * 10 + c - 48)) else Ok n
  end.

Definition atoi (mem : list Z) (s : Z) : res Z :=
  if s <? 0 then Fault OutOfBounds else atoi_from (drop (Z.to_nat s) mem) 0.
