(* ===== verification/KStringProofs.v ===== *)
(** * What the memory and string routines do

    Each result is described byte by byte. *)

From stdpp Require Import base list.
From Stdlib Require Import ZArith Lia.
From S2P Require Import Prelude KString Ulib.

(** [mem'] is [mem] with the [n] bytes at [d] replaced by [f 0], [f 1], ... *)
Definition updated (mem mem' : list Z) (d n : Z) (f : Z -> res Z) : Prop :=
  zlen mem' = zlen mem /\
  forall j, arr_get mem' j = if (d <=? j) && (j <? d + n) then f (j - d) else arr_get mem j.

(** [n] bytes at [p] are in memory. *)
Definition valid (mem : list Z) (p n : Z) : Prop := 0 <= p /\ 0 <= n /\ p + n <= zlen mem.

Ltac bounds :=
  repeat match goal with
  | |- context [?a <=? ?b] => destruct (Z.leb_spec a b)
  | |- context [?a <? ?b] => destruct (Z.ltb_spec a b)
  | |- context [?a =? ?b] => destruct (Z.eqb_spec a b)
  end; cbn [andb negb]; try lia; try done.

Lemma updated_nil mem d f : updated mem mem d 0 f.
Proof. split; [done|]. intros j. bounds. Qed.

Lemma set_ok (mem : list Z) i c : 0 <= i < zlen mem -> exists mem', arr_set mem i c = Ok mem'.
Proof. intros H. eexists. by apply arr_set_ok. Qed.

(** ** Filling *)

Lemma stosb_spec n mem d c :
  valid mem d (Z.of_nat n) ->
  exists mem', stosb n mem d c = Ok mem' /\ updated mem mem' d (Z.of_nat n) (fun _ => Ok (u8 c)).
Proof.
  revert mem d. induction n as [|n IH]; intros mem d (Hd & Hn & Hl); cbn [stosb].
  - exists mem. split; [done|apply updated_nil].
  - destruct (set_ok mem d (u8 c)) as [m1 H1]; [lia|]. rewrite H1. cbn [mbind res_bind].
    pose proof (arr_set_len _ _ _ _ H1) as Hl1.
    destruct (IH m1 (d + 1)) as (m2 & -> & Hl2 & H2); [unfold valid; lia|]. exists m2. split; [done|].
    split; [congruence|]. intros j. rewrite H2, (arr_get_set _ _ _ _ _ H1). bounds.
Qed.

Lemma splat_bytes c : is_byte c -> le_bytes 4 (splat c) = [c; c; c; c].
Proof.
  intros Hc.
  assert (forallb (fun c => bool_decide (le_bytes 4 (splat c) = [c; c; c; c])) (seqZ 0 256) = true) as H
    by (vm_compute; reflexivity).
  rewrite forallb_forall in H. specialize (H c). rewrite bool_decide_eq_true in H. apply H.
  apply list_elem_of_In, elem_of_seqZ. unfold is_byte in Hc. lia.
Qed.

Lemma stosl_spec n mem d c :
  is_byte c -> valid mem d (4 * Z.of_nat n) ->
  exists mem', stosl n mem d (splat c) = Ok mem' /\ updated mem mem' d (4 * Z.of_nat n) (fun _ => Ok c).
Proof.
  intros Hc. revert mem d. induction n as [|n IH]; intros mem d (Hd & Hn & Hl); cbn [stosl].
  - exists mem. split; [done|apply updated_nil].
  - rewrite splat_bytes by done.
    assert (exists m1, arr_write mem d [c; c; c; c] = Ok m1) as [m1 H1].
    { eexists. apply arr_write_Ok. split_and!; [lia| |reflexivity]. change (zlen [c; c; c; c]) with 4. lia. }
    rewrite H1. cbn [mbind res_bind]. pose proof (arr_write_len _ _ _ _ H1) as Hl1.
    destruct (IH m1 (d + 4)) as (m2 & -> & Hl2 & H2); [unfold valid; lia|]. exists m2. split; [done|].
    split; [congruence|]. intros j. rewrite H2.
    rewrite (arr_get_write _ _ _ _ _ H1). change (zlen [c; c; c; c]) with 4. bounds.
    assert (j - d = 0 \/ j - d = 1 \/ j - d = 2 \/ j - d = 3) as Hj by lia.
    by destruct Hj as [-> | [-> | [-> | ->]]].
Qed.

Lemma memset_spec mem dst c n :
  valid mem dst n -> zlen mem < 2 ^ 32 ->
  exists mem', KString.memset mem dst c n = Ok mem' /\ updated mem mem' dst n (fun _ => Ok (u8 c)).
Proof.
  intros Hv Hm. unfold KString.memset. destruct ((Z.rem (s32 dst) 4 =? 0) && (n mod 4 =? 0)) eqn:E.
  - apply andb_true_iff in E as [_ E%Z.eqb_eq]. destruct Hv as (Hd & Hn & Hl).
    cbv zeta. replace (Z.land c 255) with (u8 c) by (change 255 with (Z.ones 8); by rewrite Z.land_ones by lia).
    destruct (stosl_spec (Z.to_nat (n / 4)) mem dst (u8 c)) as (mem' & Hs & Hu).
    + apply u8_range.
    + unfold valid. pose proof (Z.div_mod n 4). lia.
    + exists mem'. split; [exact Hs|]. replace n with (4 * Z.of_nat (Z.to_nat (n / 4))); [done|].
      pose proof (Z.div_mod n 4). pose proof (Z.div_pos n 4). lia.
  - destruct (stosb_spec (Z.to_nat n) mem dst c) as (mem' & Hs & Hu).
    + unfold valid in *. lia.
    + exists mem'. split; [exact Hs|]. by rewrite Z2Nat.id in Hu by apply Hv.
Qed.

(** ** Moving *)

Lemma copy_up_spec n mem d s :
  valid mem d (Z.of_nat n) -> valid mem s (Z.of_nat n) -> d <= s \/ s + Z.of_nat n <= d ->
  exists mem', copy_up n mem d s = Ok mem' /\
    updated mem mem' d (Z.of_nat n) (fun k => arr_get mem (s + k)).
Proof.
  revert mem d s. induction n as [|n IH]; intros mem d s Hd Hs Ho; cbn [copy_up].
  - exists mem. split; [done|apply updated_nil].
  - unfold valid in *. destruct (arr_get_ok mem s) as [c Hc]; [lia|]. rewrite Hc. cbn [mbind res_bind].
    destruct (set_ok mem d c) as [m1 H1]; [lia|]. rewrite H1. cbn [mbind res_bind].
    pose proof (arr_set_len _ _ _ _ H1) as Hl1.
    destruct (IH m1 (d + 1) (s + 1)) as (m2 & -> & Hl2 & H2); [lia..|]. exists m2. split; [done|].
    split; [congruence|]. intros j. rewrite H2, !(arr_get_set _ _ _ _ _ H1). bounds;
      (f_equal; lia) || (rewrite <- Hc; f_equal; lia).
Qed.

Lemma copy_down_spec n mem d s :
  0 <= d - Z.of_nat n -> d <= zlen mem -> 0 <= s - Z.of_nat n -> s <= zlen mem -> s <= d ->
  exists mem', copy_down n mem d s = Ok mem' /\
    updated mem mem' (d - Z.of_nat n) (Z.of_nat n) (fun k => arr_get mem (s - Z.of_nat n + k)).
Proof.
  revert mem d s. induction n as [|n IH]; intros mem d s Hd Hdl Hs Hsl Ho; cbn [copy_down].
  - exists mem. split; [done|apply updated_nil].
  - destruct (arr_get_ok mem (s - 1)) as [c Hc]; [lia|]. rewrite Hc. cbn [mbind res_bind].
    destruct (set_ok mem (d - 1) c) as [m1 H1]; [lia|]. rewrite H1. cbn [mbind res_bind].
    pose proof (arr_set_len _ _ _ _ H1) as Hl1.
    destruct (IH m1 (d - 1) (s - 1)) as (m2 & -> & Hl2 & H2); [lia..|]. exists m2. split; [done|].
    split; [congruence|]. intros j. rewrite H2, !(arr_get_set _ _ _ _ _ H1). bounds;
      (f_equal; lia) || (rewrite <- Hc; f_equal; lia).
Qed.

(** [memmove] copies correctly whatever the overlap of source and
    destination: afterwards the [n] bytes at [dst] are those that were at [src],
    and no other byte has changed. *)
Theorem memmove_correct mem dst src n :
  valid mem dst n -> valid mem src n ->
  exists mem', KString.memmove mem dst src n = Ok mem' /\
    updated mem mem' dst n (fun k => arr_get mem (src + k)).
Proof.
  intros Hd Hs. unfold KString.memmove, valid in *.
  destruct (Z.ltb_spec src dst), (Z.ltb_spec dst (src + n)); cbn [andb].
  1:{ destruct (copy_down_spec (Z.to_nat n) mem (dst + n) (src + n)) as (mem' & Hm & Hu); [lia..|].
      exists mem'. split; [exact Hm|]. rewrite Z2Nat.id in Hu by lia.
      by replace (dst + n - n) with dst in Hu by lia; replace (src + n - n) with src in Hu by lia. }
  all: destruct (copy_up_spec (Z.to_nat n) mem dst src) as (mem' & Hm & Hu); [unfold valid; lia..|];
    exists mem'; split; [exact Hm|by rewrite Z2Nat.id in Hu by lia].
Qed.

Lemma memmove_correct_witness :
  exists mem', KString.memmove [1; 2; 3; 4; 5] 1 0 4 = Ok mem' /\ arr_get mem' 4 = Ok 4.
Proof.
  destruct (memmove_correct [1; 2; 3; 4; 5] 1 0 4) as (mem' & Hm & _ & Hu).
  - vm_compute. intuition discriminate.
  - vm_compute. intuition discriminate.
  - exists mem'. split; [exact Hm|]. rewrite Hu. reflexivity.
Defined.

(** The user library's [memmove] is right only when the destination does not
    overlap the source from above. *)
Lemma ulib_memmove_spec mem dst src n :
  valid mem dst n -> valid mem src n -> dst <= src \/ src + n <= dst ->
  exists mem', Ulib.memmove mem dst src n = Ok mem' /\
    updated mem mem' dst n (fun k => arr_get mem (src + k)).
Proof.
  intros Hd Hs Ho. unfold Ulib.memmove, valid in *.
  destruct (copy_up_spec (Z.to_nat n) mem dst src) as (mem' & Hm & Hu); [unfold valid; lia..|].
  exists mem'. split; [exact Hm|]. by rewrite Z2Nat.id in Hu by lia.
Qed.

(** The user library's [memmove] does not move overlapping bytes upwards:
    it overwrites the source before reading it, where the kernel's does not. *)
Theorem ulib_memmove_overlap :
  Ulib.memmove [1; 2; 3; 4] 1 0 3 = Ok [1; 1; 1; 1] /\
  KString.memmove [1; 2; 3; 4] 1 0 3 = Ok [1; 1; 2; 3].
Proof. by split. Qed.

(** ** Strings of bounded length *)

(** The name that the bytes [l] hold in a field of [n] bytes: up to the first
    NUL, or the whole field. *)
Fixpoint name_of (n : nat) (l : list Z) : list Z :=
  match n, l with
  | S n, c :: l => if c =? 0 then [] else c :: name_of n l
  | _, _ => []
  end.

(** A field of [n] bytes at [p]. *)
Definition field_at (mem : list Z) (p : Z) (n : nat) : list Z := name_of n (drop (Z.to_nat p) mem).

Lemma field_at_S mem p n c :
  0 <= p -> arr_get mem p = Ok c ->
  field_at mem p (S n) = if c =? 0 then [] else c :: field_at mem (p + 1) n.
Proof.
  intros Hp [_ Hc]%arr_get_Ok. unfold field_at. rewrite (drop_S _ _ _ Hc). cbn [name_of].
  by replace (Z.to_nat (p + 1)) with (S (Z.to_nat p)) by lia.
Qed.

Lemma arr_get_is_byte mem p c : Forall is_byte mem -> arr_get mem p = Ok c -> is_byte c.
Proof. intros H [_ Hc]%arr_get_Ok. rewrite Forall_lookup in H. by eapply H. Qed.

Lemma strncmp_field n mem p q :
  Forall is_byte mem -> valid mem p (Z.of_nat n) -> valid mem q (Z.of_nat n) ->
  exists r, strncmp_loop n mem p q = Ok r /\ (r = 0 <-> field_at mem p n = field_at mem q n).
Proof.
  intros Hb. revert p q. induction n as [|n IH]; intros p q Hp Hq; cbn [strncmp_loop].
  - exists 0. unfold field_at. by destruct (drop _ _), (drop _ _).
  - unfold valid in *. destruct (arr_get_ok mem p) as [a Ha]; [lia|]. destruct (arr_get_ok mem q) as [b Hb']; [lia|].
    rewrite Ha, Hb'. cbn [mbind res_bind]. pose proof (arr_get_is_byte _ _ _ Hb Ha) as Hba.
    pose proof (arr_get_is_byte _ _ _ Hb Hb') as Hbb.
    rewrite (field_at_S _ _ _ a), (field_at_S _ _ _ b) by (done || lia).
    destruct (Z.eqb_spec a 0) as [->|Ha0]; cbn [negb andb].
    + exists (u8 0 - u8 b). split; [done|]. rewrite (u8_small b) by done. change (u8 0) with 0.
      destruct (Z.eqb_spec b 0) as [->|]; [done|]. split; [lia|done].
    + destruct (Z.eqb_spec a b) as [->|Hab]; cbn [negb andb].
      * destruct (IH (p + 1) (q + 1)) as (r & -> & Hr); [lia..|]. exists r. split; [done|].
        destruct (Z.eqb_spec b 0); [lia|]. rewrite Hr. split; [by intros ->|by intros [= ->]].
      * exists (u8 a - u8 b). split; [done|]. rewrite (u8_small a), (u8_small b) by done. split; [lia|].
        destruct (Z.eqb_spec b 0); [done|]. by intros [= ->].
Qed.

Lemma zero_fill_spec n mem s :
  valid mem s (Z.of_nat n) ->
  exists mem', zero_fill n mem s = Ok mem' /\ updated mem mem' s (Z.of_nat n) (fun _ => Ok 0).
Proof.
  revert mem s. induction n as [|n IH]; intros mem s Hv; cbn [zero_fill].
  - exists mem. split; [done|apply updated_nil].
  - unfold valid in *. destruct (set_ok mem s 0) as [m1 H1]; [lia|]. rewrite H1. cbn [mbind res_bind].
    pose proof (arr_set_len _ _ _ _ H1) as Hl1.
    destruct (IH m1 (s + 1)) as (m2 & -> & Hl2 & H2); [lia|]. exists m2. split; [done|].
    split; [congruence|]. intros j. rewrite H2, (arr_get_set _ _ _ _ _ H1). bounds.
Qed.

Lemma field_at_ext n mem mem' p :
  valid mem p (Z.of_nat n) -> zlen mem' = zlen mem ->
  (forall j, p <= j < p + Z.of_nat n -> arr_get mem' j = arr_get mem j) ->
  field_at mem' p n = field_at mem p n.
Proof.
  revert p. induction n as [|n IH]; intros p Hv Hl H.
  - unfold field_at. by destruct (drop _ _), (drop _ _).
  - unfold valid in *. destruct (arr_get_ok mem p) as [c Hc]; [lia|].
    rewrite !(field_at_S _ _ _ c) by (lia || done || (rewrite H by lia; done)).
    destruct (c =? 0); [done|]. f_equal. apply IH; [lia|done|]. intros j Hj. apply H. lia.
Qed.

(** The bytes outside the [n] at [s] are unchanged. *)
Definition outside (mem mem' : list Z) (s n : Z) : Prop :=
  zlen mem' = zlen mem /\ forall j, j < s \/ s + n <= j -> arr_get mem' j = arr_get mem j.

Lemma strncpy_field n mem s t :
  valid mem s (Z.of_nat n) -> valid mem t (Z.of_nat n) ->
  s + Z.of_nat n <= t \/ t + Z.of_nat n <= s ->
  exists mem', strncpy_loop n mem s t = Ok mem' /\ outside mem mem' s (Z.of_nat n) /\
    field_at mem' s n = field_at mem t n.
Proof.
  revert mem s t. induction n as [|n IH]; intros mem s t Hs Ht Hd; cbn [strncpy_loop].
  - exists mem. split; [done|]. split; [done|]. unfold field_at. by destruct (drop _ _), (drop _ _).
  - unfold valid in *. destruct (arr_get_ok mem t) as [c Hc]; [lia|]. rewrite Hc. cbn [mbind res_bind].
    destruct (set_ok mem s c) as [m1 H1]; [lia|]. rewrite H1. cbn [mbind res_bind].
    pose proof (arr_set_len _ _ _ _ H1) as Hl1.
    assert (forall j, j <> s -> arr_get m1 j = arr_get mem j) as Hm1.
    { intros j Hj. rewrite (arr_get_set _ _ _ _ _ H1). bounds. }
    assert (arr_get m1 s = Ok c) as Hs1 by (rewrite (arr_get_set _ _ _ _ _ H1); bounds).
    rewrite (field_at_S mem t n c) by (lia || done). destruct (Z.eqb_spec c 0) as [->|Hc0]; cbn [negb].
    + destruct (zero_fill_spec n m1 (s + 1)) as (m2 & -> & Hl2 & H2); [unfold valid; lia|].
      exists m2. split; [done|]. split; [split; [congruence|]|].
      * intros j Hj. rewrite H2. bounds; apply Hm1; lia.
      * rewrite (field_at_S m2 s n 0); [done|lia|]. rewrite H2. bounds.
    + destruct (IH m1 (s + 1) (t + 1)) as (m2 & -> & [Hl2 H2] & Hf); [lia..|].
      exists m2. split; [done|]. split; [split; [congruence|]|].
      * intros j Hj. rewrite H2 by lia. apply Hm1. lia.
      * rewrite (field_at_S m2 s n c); [|lia|by rewrite H2 by lia].
        destruct (Z.eqb_spec c 0); [done|]. f_equal. rewrite Hf. apply field_at_ext; [unfold valid; lia|done|].
        intros j Hj. apply Hm1. lia.
Qed.

Lemma arr_set_bytes_ok (mem mem' : list Z) i c :
  Forall is_byte mem -> is_byte c -> arr_set mem i c = Ok mem' -> Forall is_byte mem'.
Proof. intros Hb Hc [_ ->]%arr_set_Ok. by apply Forall_insert. Qed.

Lemma zero_fill_bytes n mem s mem' :
  Forall is_byte mem -> zero_fill n mem s = Ok mem' -> Forall is_byte mem'.
Proof.
  revert mem s. induction n as [|n IH]; intros mem s Hb H; cbn [zero_fill] in H; inv_ok; [done|].
  eapply IH; [|exact H]. eapply arr_set_bytes_ok; [exact Hb| |exact H0]. by unfold is_byte.
Qed.

Lemma strncpy_bytes n mem s t mem' :
  Forall is_byte mem -> strncpy_loop n mem s t = Ok mem' -> Forall is_byte mem'.
Proof.
  revert mem s t. induction n as [|n IH]; intros mem s t Hb H; cbn [strncpy_loop] in H; inv_ok; [done|].
  assert (Forall is_byte a0) by (eapply arr_set_bytes_ok; [exact Hb|by eapply arr_get_is_byte|exact H1]).
  destruct (negb (a =? 0)); [by eapply IH|by eapply zero_fill_bytes].
Qed.

(** Names of bounded length, as in directory entries: a name stored by
    [strncpy] in a field of [n] bytes compares equal by [strncmp] to the name it
    was copied from and, after that, to another field exactly when the two hold
    the same name. *)
Theorem stored_name_compares mem s t p n :
  Forall is_byte mem -> valid mem s n -> valid mem t n -> valid mem p n ->
  s + n <= t \/ t + n <= s -> s + n <= p \/ p + n <= s ->
  exists mem', strncpy mem s t n = Ok mem' /\ outside mem mem' s n /\
    strncmp mem' s t n = Ok 0 /\
    exists r, strncmp mem' s p n = Ok r /\
      (r = 0 <-> field_at mem t (Z.to_nat n) = field_at mem p (Z.to_nat n)).
Proof.
  intros Hb Hs Ht Hp Hd Hdp. unfold strncpy, strncmp, valid in *.
  destruct (strncpy_field (Z.to_nat n) mem s t) as (mem' & Hm & [Hl Ho] & Hf); [unfold valid; lia..|].
  rewrite Z2Nat.id in Ho by lia. exists mem'. split; [exact Hm|]. split; [by split|].
  pose proof (strncpy_bytes _ _ _ _ _ Hb Hm) as Hb'.
  assert (forall x, valid mem x n -> s + n <= x \/ x + n <= s ->
            field_at mem' x (Z.to_nat n) = field_at mem x (Z.to_nat n)) as Hx.
  { intros x Hx Hxs. unfold valid in Hx. apply field_at_ext; [unfold valid; lia|done|]. intros j Hj. apply Ho. lia. }
  split.
  - destruct (strncmp_field (Z.to_nat n) mem' s t) as (r & -> & Hr); [done|unfold valid; lia..|].
    f_equal. apply Hr. by rewrite Hf, Hx.
  - destruct (strncmp_field (Z.to_nat n) mem' s p) as (r & -> & Hr); [done|unfold valid; lia..|].
    exists r. split; [done|]. by rewrite Hr, Hf, Hx.
Qed.

Lemma stored_name_compares_witness :
  exists mem', strncpy [9; 9; 9; 97; 98; 0; 97; 0; 0] 0 3 3 = Ok mem' /\
    outside [9; 9; 9; 97; 98; 0; 97; 0; 0] mem' 0 3.
Proof.
  destruct (stored_name_compares [9; 9; 9; 97; 98; 0; 97; 0; 0] 0 3 6 3) as (mem' & Hm & Ho & _ & _).
  - repeat (apply Forall_cons_2; [vm_compute; intuition discriminate|]). apply Forall_nil_2.
  - vm_compute; intuition discriminate.
  - vm_compute; intuition discriminate.
  - vm_compute; intuition discriminate.
  - left; vm_compute; discriminate.
  - left; vm_compute; discriminate.
  - exists mem'. split; [exact Hm|exact Ho].
Defined.

(** ** Comparison, length, and copies that terminate *)

Lemma memcmp_spec n mem p q :
  valid mem p (Z.of_nat n) -> valid mem q (Z.of_nat n) ->
  exists r, memcmp_loop n mem p q = Ok r /\
    (r = 0 <-> forall k, 0 <= k < Z.of_nat n -> arr_get mem (p + k) = arr_get mem (q + k)).
Proof.
  revert p q. induction n as [|n IH]; intros p q Hp Hq; cbn [memcmp_loop].
  - exists 0. split; [done|]. split; [lia|done].
  - unfold valid in *. destruct (arr_get_ok mem p) as [a Ha]; [lia|]. destruct (arr_get_ok mem q) as [b Hb]; [lia|].
    rewrite Ha, Hb. cbn [mbind res_bind]. destruct (Z.eqb_spec a b) as [->|Hab]; cbn [negb].
    + destruct (IH (p + 1) (q + 1)) as (r & -> & Hr); [lia..|]. exists r. split; [done|]. rewrite Hr. split.
      * intros H k Hk. destruct (Z.eqb_spec k 0) as [->|]; [by rewrite !Z.add_0_r, Ha, Hb|].
        specialize (H (k - 1) ltac:(lia)).
        by replace (p + 1 + (k - 1)) with (p + k) in H by lia; replace (q + 1 + (k - 1)) with (q + k) in H by lia.
      * intros H k Hk. specialize (H (k + 1) ltac:(lia)).
        by replace (p + (k + 1)) with (p + 1 + k) in H by lia; replace (q + (k + 1)) with (q + 1 + k) in H by lia.
    + exists (a - b). split; [done|]. split; [lia|]. intros H. specialize (H 0 ltac:(lia)).
      rewrite !Z.add_0_r, Ha, Hb in H. by injection H.
Qed.

Lemma strlen_from_spec l n :
  strlen_from l = Ok n ->
  0 <= n /\ l !! Z.to_nat n = Some 0 /\ forall k, 0 <= k < n -> exists c, l !! Z.to_nat k = Some c /\ c <> 0.
Proof.
  revert n. induction l as [|c l IH]; intros n H; cbn [strlen_from] in H; [done|].
  destruct (Z.eqb_spec c 0) as [->|Hc]; inv_ok; [split_and!; [lia|done|lia]|].
  destruct (IH a H0) as (Ha & Hz & Hk). split_and!; [lia| |].
  - by replace (Z.to_nat (a + 1)) with (S (Z.to_nat a)) by lia.
  - intros k Hk'. destruct (Z.eqb_spec k 0) as [->|]; [by exists c|].
    destruct (Hk (k - 1) ltac:(lia)) as (d & Hd & Hd0). exists d.
    by replace (Z.to_nat k) with (S (Z.to_nat (k - 1))) by lia.
Qed.

Lemma safestrcpy_loop_spec n mem s t :
  valid mem s (Z.of_nat (S n)) -> valid mem t (Z.of_nat n) ->
  s + Z.of_nat (S n) <= t \/ t + Z.of_nat n <= s ->
  exists mem', safestrcpy_loop n mem s t = Ok mem' /\ outside mem mem' s (Z.of_nat (S n)) /\
    field_at mem' s (S n) = field_at mem t n.
Proof.
  revert mem s t. induction n as [|n IH]; intros mem s t Hs Ht Hd; cbn [safestrcpy_loop].
  - unfold valid in *. destruct (set_ok mem s 0) as [m1 H1]; [lia|]. rewrite H1. exists m1.
    split; [done|]. split; [split; [by apply arr_set_len in H1|]|].
    + intros j Hj. rewrite (arr_get_set _ _ _ _ _ H1). bounds.
    + rewrite (field_at_S m1 s 0 0); [|lia|rewrite (arr_get_set _ _ _ _ _ H1); bounds].
      unfold field_at. by destruct (drop _ _).
  - unfold valid in *. destruct (arr_get_ok mem t) as [c Hc]; [lia|]. rewrite Hc. cbn [mbind res_bind].
    destruct (set_ok mem s c) as [m1 H1]; [lia|]. rewrite H1. cbn [mbind res_bind].
    pose proof (arr_set_len _ _ _ _ H1) as Hl1.
    assert (forall j, j <> s -> arr_get m1 j = arr_get mem j) as Hm1.
    { intros j Hj. rewrite (arr_get_set _ _ _ _ _ H1). bounds. }
    assert (arr_get m1 s = Ok c) as Hs1 by (rewrite (arr_get_set _ _ _ _ _ H1); bounds).
    rewrite (field_at_S mem t n c) by (lia || done). destruct (Z.eqb_spec c 0) as [->|Hc0]; cbn [negb].
    + destruct (set_ok m1 (s + 1) 0) as [m2 H2]; [lia|]. rewrite H2. exists m2.
      split; [done|]. split; [split; [apply arr_set_len in H2; congruence|]|].
      * intros j Hj. rewrite (arr_get_set _ _ _ _ _ H2). bounds; apply Hm1; lia.
      * rewrite (field_at_S m2 s (S n) 0); [done|lia|]. rewrite (arr_get_set _ _ _ _ _ H2). bounds.
    + destruct (IH m1 (s + 1) (t + 1)) as (m2 & -> & [Hl2 H2] & Hf); [lia..|].
      exists m2. split; [done|]. split; [split; [congruence|]|].
      * intros j Hj. rewrite H2 by lia. apply Hm1. lia.
      * rewrite (field_at_S m2 s (S n) c); [|lia|by rewrite H2 by lia].
        destruct (Z.eqb_spec c 0); [done|]. f_equal. rewrite Hf. apply field_at_ext; [unfold valid; lia|done|].
        intros j Hj. apply Hm1. lia.
Qed.

Lemma name_of_length n l : (length (name_of n l) <= n)%nat.
Proof.
  revert l. induction n as [|n IH]; intros [|c l]; cbn [name_of length]; try lia.
  destruct (c =? 0); cbn [length]; [lia|]. specialize (IH l). lia.
Qed.

(** [safestrcpy] always terminates its copy: the field of [n] bytes holds at
    most [n - 1] characters of the source and then a NUL, and the bytes around it
    are unchanged. *)
Theorem safestrcpy_terminates mem s t n :
  0 < n -> valid mem s n -> valid mem t (n - 1) -> s + n <= t \/ t + (n - 1) <= s ->
  exists mem', safestrcpy mem s t n = Ok mem' /\ outside mem mem' s n /\
    field_at mem' s (Z.to_nat n) = field_at mem t (Z.to_nat (n - 1)) /\
    (length (field_at mem' s (Z.to_nat n)) < Z.to_nat n)%nat.
Proof.
  intros Hn Hs Ht Hd. unfold safestrcpy, valid in *. destruct (Z.leb_spec n 0); [lia|].
  destruct (safestrcpy_loop_spec (Z.to_nat (n - 1)) mem s t) as (mem' & Hm & Ho & Hf); [unfold valid; lia..|].
  replace (S (Z.to_nat (n - 1))) with (Z.to_nat n) in * by lia. rewrite Z2Nat.id in Ho by lia.
  exists mem'. split; [done|]. split; [done|]. split; [done|]. rewrite Hf. unfold field_at.
  pose proof (name_of_length (Z.to_nat (n - 1)) (drop (Z.to_nat t) mem)). lia.
Qed.

Lemma safestrcpy_terminates_witness :
  exists mem', safestrcpy [9; 9; 9; 97; 98; 99; 0] 0 3 3 = Ok mem' /\ field_at mem' 0 3 = [97; 98].
Proof.
  destruct (safestrcpy_terminates [9; 9; 9; 97; 98; 99; 0] 0 3 3) as (mem' & Hm & _ & Hf & _).
  - lia.
  - vm_compute; intuition discriminate.
  - vm_compute; intuition discriminate.
  - left; vm_compute; discriminate.
  - exists mem'. split; [exact Hm|exact Hf].
Defined.
