(* ===== verification/Spinlock.v ===== *)
(** * Spin locks: [spinlock.c], with [xchg] of [x86.h]

    A call of [acquire] or [release] is cut at its accesses to shared memory, so
    that calls on several CPUs can be interleaved; [acquire] and [release] are
    the whole calls on a CPU that finds the lock free. *)

From stdpp Require Import base list strings.
From Stdlib Require Import ZArith Lia.
From S2P Require Import Prelude.

(** The fields of [struct cpu] that the locks use, and the interrupt flag of
    its [eflags]. *)
Record cpu := { ncli : Z; intena : bool; fl_if : bool }.

(** [lk_cpu]: the CPU holding the lock, or none for the null pointer. *)
Record spinlock := { locked : Z; lk_cpu : option Z; pcs : list Z }.

Definition initlock : spinlock := {| locked := 0; lk_cpu := None; pcs := replicate 10 0 |}.

Definition pushcli (c : cpu) : cpu :=
  {| ncli := ncli c + 1; intena := if ncli c =? 0 then fl_if c else intena c; fl_if := false |}.

Definition popcli (c : cpu) : res cpu :=
  if fl_if c then Fault (Panic "popcli - interruptible")
  else
    let n := ncli c - 1 in
    if n <? 0 then Fault (Panic "popcli")
    else Ok {| ncli := n; intena := intena c; fl_if := (n =? 0) && intena c |}.

(** Whether CPU [me] holds the lock. *)
Definition holding (lk : spinlock) (me : Z) : bool :=
  negb (locked lk =? 0) && bool_decide (lk_cpu lk = Some me).

Definition KERNBASE : Z := 0x80000000.

(** [getcallerpcs]: [word a] is the word at address [a]; [ebp] the frame the
    walk starts at. *)
Fixpoint getcallerpcs (n : nat) (word : Z -> Z) (ebp : Z) : list Z :=
  match n with
  | O => []
  | S n =>
      if (ebp =? 0) || (ebp <? KERNBASE) || (ebp =? 0xffffffff) then replicate (S n) 0
      else word (ebp + 4) :: getcallerpcs n word (word ebp)
  end.

(** [xchg(&lk->locked, 1)]: the old value, and the lock with the new one. *)
Definition xchg (lk : spinlock) (newval : Z) : Z * spinlock :=
  (locked lk, {| locked := newval; lk_cpu := lk_cpu lk; pcs := pcs lk |}).

Section calls.
(** The stack the call is recorded from. *)
Context (word : Z -> Z) (ebp : Z).

(** Before the loop. *)
Definition acquire_start (me : Z) (c : cpu) (lk : spinlock) : res cpu :=
  let c := pushcli c in
  if holding lk me then Fault (Panic "acquire") else Ok c.

(** After it. *)
Definition acquire_end (me : Z) (lk : spinlock) : spinlock :=
  {| locked := locked lk; lk_cpu := Some me; pcs := getcallerpcs 10 word ebp |}.

(** Up to the store that frees the lock. *)
Definition release_start (me : Z) (lk : spinlock) : res spinlock :=
  if negb (holding lk me) then Fault (Panic "release")
  else Ok {| locked := locked lk; lk_cpu := None; pcs := <[0%nat := 0]> (pcs lk) |}.

(** [movl $0, lk->locked] *)
Definition release_store (lk : spinlock) : spinlock :=
  {| locked := 0; lk_cpu := lk_cpu lk; pcs := pcs lk |}.

(** The whole calls.  When the lock is taken the loop of [acquire] does not end
    until another CPU releases it. *)
Definition acquire (me : Z) (c : cpu) (lk : spinlock) : res (cpu * spinlock) :=
  c ← acquire_start me c lk;
  let '(old, lk) := xchg lk 1 in
  if negb (old =? 0) then Fault Blocked else Ok (c, acquire_end me lk).

Definition release (me : Z) (c : cpu) (lk : spinlock) : res (cpu * spinlock) :=
  lk ← release_start me lk;
  let lk := release_store lk in
  c ← popcli c;
  Ok (c, lk).
End calls.

(** ** Nesting of [pushcli] and [popcli] *)

(** Interrupts are off while calls of [pushcli] are pending. *)
Definition cpu_wf (c : cpu) : Prop := 0 <= ncli c /\ (0 < ncli c -> fl_if c = false).

Lemma pushcli_wf c : cpu_wf c -> cpu_wf (pushcli c).
Proof. intros [Hn _]. split; cbn; [lia|done]. Qed.

(** A matching [popcli] restores the depth and the interrupt flag. *)
Lemma popcli_pushcli c :
  cpu_wf c -> exists c', popcli (pushcli c) = Ok c' /\ ncli c' = ncli c /\ fl_if c' = fl_if c /\ cpu_wf c'.
Proof.
  intros [Hn Hf]. unfold popcli, pushcli. cbn [fl_if ncli intena].
  replace (ncli c + 1 - 1) with (ncli c) by lia. destruct (Z.ltb_spec (ncli c) 0); [lia|].
  eexists. split; [reflexivity|]. cbn [ncli fl_if intena]. split; [done|].
  destruct (Z.eqb_spec (ncli c) 0) as [E|E]; cbn [andb].
  - split; [done|]. split; cbn; [lia|]. intros. rewrite E in *. lia.
  - rewrite Hf by lia. split; [done|]. split; cbn; [lia|done].
Qed.

Lemma acquire_release word ebp me c lk :
  cpu_wf c -> locked lk = 0 ->
  exists c1 lk1 c2 lk2, acquire word ebp me c lk = Ok (c1, lk1) /\ holding lk1 me = true /\
    release me c1 lk1 = Ok (c2, lk2) /\ locked lk2 = 0 /\ lk_cpu lk2 = None /\
    ncli c2 = ncli c /\ fl_if c2 = fl_if c.
Proof.
  intros Hc Hl. destruct (popcli_pushcli c Hc) as (c2 & Hp & Hn & Hf & _).
  unfold acquire, acquire_start, xchg, acquire_end, release, release_start, release_store, holding.
  rewrite Hl. cbn [Z.eqb negb andb mbind res_bind locked lk_cpu].
  do 4 eexists. split; [reflexivity|]. cbn [locked lk_cpu Z.eqb negb andb].
  rewrite bool_decide_true by done. cbn [negb mbind res_bind]. rewrite Hp. cbn [mbind res_bind].
  split_and!; done.
Qed.

(** ** Several CPUs *)

(** Where a CPU is in its use of the lock. *)
Inductive phase := Idle | Spinning | Won | Critical | Dropping.

Record smp := { lk : spinlock; at_cpu : Z -> cpu * phase }.

Definition set_cpu (s : smp) (i : Z) (c : cpu) (p : phase) (l : spinlock) : smp :=
  {| lk := l; at_cpu := fun j => if decide (j = i) then (c, p) else at_cpu s j |}.

(** One access of CPU [i] to the lock.  A call that panics has no step. *)
Inductive smp_step (s : smp) : smp -> Prop :=
| step_start i c c' :
    at_cpu s i = (c, Idle) -> acquire_start i c (lk s) = Ok c' ->
    smp_step s (set_cpu s i c' Spinning (lk s))
| step_xchg i c :
    at_cpu s i = (c, Spinning) ->
    smp_step s (set_cpu s i c (if (xchg (lk s) 1).1 =? 0 then Won else Spinning) (xchg (lk s) 1).2)
| step_won i c word ebp :
    at_cpu s i = (c, Won) -> smp_step s (set_cpu s i c Critical (acquire_end word ebp i (lk s)))
| step_release i c l :
    at_cpu s i = (c, Critical) -> release_start i (lk s) = Ok l ->
    smp_step s (set_cpu s i c Dropping l)
| step_store i c c' :
    at_cpu s i = (c, Dropping) -> popcli c = Ok c' ->
    smp_step s (set_cpu s i c' Idle (release_store (lk s))).

Definition smp_init (en : Z -> bool) : smp :=
  {| lk := initlock; at_cpu := fun i => ({| ncli := 0; intena := false; fl_if := en i |}, Idle) |}.

Definition owns (p : phase) : bool :=
  match p with Won | Critical | Dropping => true | _ => false end.

(** The lock word is set exactly while some CPU has won it, at most one has,
    and the lock names the one in its critical section. *)
Record smp_inv (s : smp) : Prop := {
  si_one : forall i j, owns (at_cpu s i).2 = true -> owns (at_cpu s j).2 = true -> i = j;
  si_locked : locked (lk s) <> 0 <-> exists i, owns (at_cpu s i).2 = true;
  si_cpu : forall i, lk_cpu (lk s) = Some i <-> (at_cpu s i).2 = Critical;
  si_depth : forall i, ncli (at_cpu s i).1 = match (at_cpu s i).2 with Idle => 0 | _ => 1 end;
  si_off : forall i, (at_cpu s i).2 <> Idle -> fl_if (at_cpu s i).1 = false;
}.

Lemma smp_inv_init en : smp_inv (smp_init en).
Proof. constructor; cbn; try done. split; [lia|by intros [i Hi]]. Qed.

(** CPU [i] goes from one phase to another and the lock to [l]. *)
Lemma set_cpu_inv s i c p l :
  smp_inv s ->
  (owns p = true -> forall j, owns (at_cpu s j).2 = true -> j = i) ->
  (locked l <> 0 <-> owns p = true \/ exists j, j <> i /\ owns (at_cpu s j).2 = true) ->
  (forall j, lk_cpu l = Some j <-> if decide (j = i) then p = Critical else (at_cpu s j).2 = Critical) ->
  ncli c = match p with Idle => 0 | _ => 1 end -> (p <> Idle -> fl_if c = false) ->
  smp_inv (set_cpu s i c p l).
Proof.
  intros Hinv Hone Hlock Hcpu Hn Hf. destruct Hinv as [A B C D E]. constructor; cbn [lk at_cpu set_cpu].
  - intros j k. destruct (decide (j = i)) as [->|Hj], (decide (k = i)) as [->|Hk]; cbn [snd]; try done.
    + intros Hp Hk'. by destruct (Hone Hp k Hk').
    + intros Hj' Hp. by destruct (Hone Hp j Hj').
    + apply A.
  - rewrite Hlock. split.
    + intros [Ho|(j & Hj & Ho)]; [exists i; by rewrite decide_True|exists j; by rewrite decide_False].
    + intros [j Hj]. destruct (decide (j = i)) as [->|Hji]; [by left|right; by exists j].
  - intros j. rewrite Hcpu. destruct (decide (j = i)); cbn [snd]; tauto.
  - intros j. by destruct (decide (j = i)).
  - intros j. destruct (decide (j = i)); cbn [fst snd]; [done|apply E].
Qed.

Section preserve.
Context (s : smp) (i : Z) (c0 : cpu) (p0 : phase).
Hypothesis Hinv : smp_inv s.
Hypothesis Hi : at_cpu s i = (c0, p0).

Lemma owner_here j : owns p0 = true -> owns (at_cpu s j).2 = true -> j = i.
Proof. intros Ho Hj. apply (si_one _ Hinv); [done|]. by rewrite Hi. Qed.

Lemma locked_others :
  owns p0 = false -> (locked (lk s) <> 0 <-> exists j, j <> i /\ owns (at_cpu s j).2 = true).
Proof.
  intros Ho. rewrite (si_locked _ Hinv). split; [|by intros (j & _ & Hj); exists j].
  intros [j Hj]. exists j. split; [|done]. intros ->. rewrite Hi in Hj. cbn in Hj. congruence.
Qed.

Lemma critical_others j : p0 <> Critical ->
  (lk_cpu (lk s) = Some j <-> if decide (j = i) then False else (at_cpu s j).2 = Critical).
Proof.
  intros Hp. rewrite (si_cpu _ Hinv). destruct (decide (j = i)) as [->|]; [|done]. by rewrite Hi.
Qed.

Lemma no_other_critical j : owns p0 = true -> j <> i -> (at_cpu s j).2 <> Critical.
Proof. intros Ho Hj Hc. apply Hj, owner_here; [done|]. by rewrite Hc. Qed.
End preserve.

Lemma smp_step_inv s s' : smp_inv s -> smp_step s s' -> smp_inv s'.
Proof.
  intros Hinv Hst. destruct Hst as [i c c' Hi Ha|i c Hi|i c word ebp Hi|i c l Hi Hr|i c c' Hi Hp].
  - unfold acquire_start in Ha. destruct (holding (lk s) i); [done|]. injection Ha as <-.
    pose proof (si_depth _ Hinv i) as Hd. rewrite Hi in Hd. cbn in Hd.
    apply set_cpu_inv; try done.
    + rewrite (locked_others s i c Idle) by done. split; [by right|by intros [|]].
    + intros j. rewrite (critical_others s i c Idle) by done. by destruct (decide (j = i)).
    + cbn. lia.
  - pose proof (si_depth _ Hinv i) as Hd. pose proof (si_off _ Hinv i) as Hf. rewrite Hi in Hd, Hf. cbn in Hd, Hf.
    cbn [xchg fst snd]. destruct (Z.eqb_spec (locked (lk s)) 0) as [E|E].
    + apply set_cpu_inv; cbn [locked lk_cpu]; try done; try (intros; by apply Hf).
      * intros _ j Hj. exfalso. assert (locked (lk s) <> 0) by (apply (si_locked _ Hinv); by exists j). done.
      * split; [by left|lia].
      * intros j. rewrite (critical_others s i c Spinning) by done. by destruct (decide (j = i)).
    + apply set_cpu_inv; cbn [locked lk_cpu]; try done; try (intros; by apply Hf).
      * split; [|lia]. intros _. right. by apply (locked_others s i c Spinning).
      * intros j. rewrite (critical_others s i c Spinning) by done. by destruct (decide (j = i)).
  - pose proof (si_depth _ Hinv i) as Hd. pose proof (si_off _ Hinv i) as Hf. rewrite Hi in Hd, Hf. cbn in Hd, Hf.
    apply set_cpu_inv; cbn [acquire_end locked lk_cpu]; try done; try (intros; by apply Hf).
    + intros _ j. by apply (owner_here s i c Won).
    + split; [by left|]. intros _. apply (si_locked _ Hinv). exists i. by rewrite Hi.
    + intros j. destruct (decide (j = i)) as [->|Hj]; [done|]. split; [by intros [= ->]|].
      intros Hc. by destruct (no_other_critical s i c Won Hinv Hi j).
  - unfold release_start in Hr. destruct (holding (lk s) i); [|done]. injection Hr as <-.
    pose proof (si_depth _ Hinv i) as Hd. pose proof (si_off _ Hinv i) as Hf. rewrite Hi in Hd, Hf. cbn in Hd, Hf.
    apply set_cpu_inv; cbn [locked lk_cpu]; try done; try (intros; by apply Hf).
    + intros _ j. by apply (owner_here s i c Critical).
    + split; [by left|]. intros _. apply (si_locked _ Hinv). exists i. by rewrite Hi.
    + intros j. split; [done|]. destruct (decide (j = i)); [done|].
      intros Hc. by destruct (no_other_critical s i c Critical Hinv Hi j).
  - pose proof (si_depth _ Hinv i) as Hd. pose proof (si_off _ Hinv i) as Hf. rewrite Hi in Hd, Hf. cbn in Hd, Hf.
    unfold popcli in Hp. rewrite Hf, Hd in Hp by done. cbn in Hp. injection Hp as <-.
    apply set_cpu_inv; cbn [release_store locked lk_cpu]; try done.
    + split; [done|]. intros [|(j & Hj & Ho)]; [done|]. by destruct (owner_here s i c Dropping Hinv Hi j).
    + intros j. rewrite (critical_others s i c Dropping) by done. by destruct (decide (j = i)).
Qed.

Inductive smp_reach (en : Z -> bool) : smp -> Prop :=
| reach_init : smp_reach en (smp_init en)
| reach_step s s' : smp_reach en s -> smp_step s s' -> smp_reach en s'.

Lemma smp_reach_inv en s : smp_reach en s -> smp_inv s.
Proof. induction 1; [apply smp_inv_init|by eapply smp_step_inv]. Qed.

(** C34. The spin lock excludes: however the calls on several CPUs interleave,
    two of them are never between the winning [xchg] and the store that frees
    the lock, the holder's [release] does not panic, nor does [acquire] on a CPU
    that does not hold the lock, and interrupts are off on every CPU inside a
    call or critical section. *)
Theorem spinlock_exclusion en s :
  smp_reach en s ->
  (forall i j, owns (at_cpu s i).2 = true -> owns (at_cpu s j).2 = true -> i = j) /\
  (forall i c, at_cpu s i = (c, Critical) -> exists l, release_start i (lk s) = Ok l) /\
  (forall i c, at_cpu s i = (c, Dropping) -> exists c', popcli c = Ok c') /\
  (forall i c, at_cpu s i = (c, Idle) -> exists c', acquire_start i c (lk s) = Ok c') /\
  (forall i, (at_cpu s i).2 <> Idle -> fl_if (at_cpu s i).1 = false).
Proof.
  intros Hr. pose proof (smp_reach_inv _ _ Hr) as Hinv. split_and!; [apply Hinv| | | |apply Hinv].
  - intros i c Hi. unfold release_start, holding.
    assert (locked (lk s) <> 0) as Hl by (apply (si_locked _ Hinv); exists i; by rewrite Hi).
    assert (lk_cpu (lk s) = Some i) as -> by (apply (si_cpu _ Hinv); by rewrite Hi).
    rewrite bool_decide_true by done. destruct (Z.eqb_spec (locked (lk s)) 0); [done|]. cbn. eauto.
  - intros i c Hi. pose proof (si_depth _ Hinv i) as Hd. pose proof (si_off _ Hinv i) as Hf.
    rewrite Hi in Hd, Hf. cbn in Hd, Hf. unfold popcli. rewrite Hf, Hd by done. cbn. eauto.
  - intros i c Hi. unfold acquire_start, holding. rewrite bool_decide_false; [rewrite andb_false_r; eauto|].
    rewrite (si_cpu _ Hinv), Hi. done.
Qed.

Lemma spinlock_exclusion_witness :
  smp_reach (fun _ => true) (smp_init (fun _ => true)) /\
  exists c', acquire_start 0 {| ncli := 0; intena := false; fl_if := true |} initlock = Ok c'.
Proof.
  pose proof (reach_init (fun _ => true)) as Hr. split; [exact Hr|].
  destruct (spinlock_exclusion (fun _ => true) (smp_init (fun _ => true)) Hr) as (_ & _ & _ & H & _).
  apply (H 0). reflexivity.
Defined.
