(* ===== verification/Kalloc.v ===== *)
(** * The physical memory allocator: [kalloc.c]

    The free pages are linked through their first words.  Memory is a function
    from the addresses of words to words; [kend] is the end of the kernel image,
    which the linker provides. *)

From stdpp Require Import base list strings sets.
From Stdlib Require Import ZArith Lia.
From S2P Require Import Prelude Spinlock.

Definition PGSIZE : Z := 4096.
Definition PHYSTOP : Z := 0xE000000.

Definition PGROUNDUP (sz : Z) : Z := Z.land (u32 (sz + PGSIZE - 1)) (Z.lnot (PGSIZE - 1)).
Definition V2P (a : Z) : Z := u32 (a - KERNBASE).

Record kmem := { klock : spinlock; use_lock : bool; freelist : Z }.

(** The allocator, the CPU that runs it, and memory. *)
Record kst := { km : kmem; kcpu : cpu; word : Z -> Z }.

Section kalloc.
Context (kend : Z) (me ebp : Z).

Definition set_km (s : kst) (l : spinlock) (c : cpu) (f : Z) (w : Z -> Z) : kst :=
  {| km := {| klock := l; use_lock := use_lock (km s); freelist := f |}; kcpu := c; word := w |}.

(** [if(kmem.use_lock) acquire(&kmem.lock);] *)
Definition lock_kmem (s : kst) : res kst :=
  if use_lock (km s) then
    '(c, l) ← acquire (word s) ebp me (kcpu s) (klock (km s));
    Ok (set_km s l c (freelist (km s)) (word s))
  else Ok s.

Definition unlock_kmem (s : kst) : res kst :=
  if use_lock (km s) then
    '(c, l) ← release me (kcpu s) (klock (km s));
    Ok (set_km s l c (freelist (km s)) (word s))
  else Ok s.

(** [memset(v, 1, PGSIZE)]: every byte 1. *)
Definition fill_page (w : Z -> Z) (v : Z) : Z -> Z := fun a =>
  if (v <=? a) && (a <? v + PGSIZE) then 0x01010101 else w a.

Definition set_word (w : Z -> Z) (a x : Z) : Z -> Z := fun b => if b =? a then x else w b.

Definition kfree (v : Z) (s : kst) : res kst :=
  if negb (v mod PGSIZE =? 0) || (v <? kend) || (PHYSTOP <=? V2P v) then Fault (Panic "kfree")
  else
    let s := set_km s (klock (km s)) (kcpu s) (freelist (km s)) (fill_page (word s) v) in
    s ← lock_kmem s;
    let s := set_km s (klock (km s)) (kcpu s) v (set_word (word s) v (freelist (km s))) in
    unlock_kmem s.

(** The page, or 0. *)
Definition kalloc (s : kst) : res (Z * kst) :=
  s ← lock_kmem s;
  let r := freelist (km s) in
  let s := if negb (r =? 0) then set_km s (klock (km s)) (kcpu s) (word s r) (word s) else s in
  s ← unlock_kmem s;
  Ok (r, s).

Fixpoint freerange_loop (fuel : nat) (p vend : Z) (s : kst) : res kst :=
  match fuel with
  | O => Fault OutOfFuel
  | S fuel =>
      if u32 (p + PGSIZE) <=? vend then
        s ← kfree p s;
        freerange_loop fuel (u32 (p + PGSIZE)) vend s
      else Ok s
  end.

Definition freerange (vstart vend : Z) (s : kst) : res kst :=
  freerange_loop (S (Z.to_nat (2 ^ 32 / PGSIZE))) (PGROUNDUP vstart) vend s.

Definition kinit1 (vstart vend : Z) (s : kst) : res kst :=
  freerange vstart vend
    {| km := {| klock := initlock; use_lock := false; freelist := freelist (km s) |};
       kcpu := kcpu s; word := word s |}.

Definition kinit2 (vstart vend : Z) (s : kst) : res kst :=
  s ← freerange vstart vend s;
  Ok {| km := {| klock := klock (km s); use_lock := true; freelist := freelist (km s) |};
        kcpu := kcpu s; word := word s |}.

End kalloc.

(** ** Correctness *)

(** A page the allocator manages. *)
Definition is_page (kend v : Z) : Prop :=
  0 < v < 2 ^ 32 /\ v mod PGSIZE = 0 /\ kend <= v /\ V2P v < PHYSTOP.

(** The list of free pages that starts at [p]. *)
Fixpoint chain (w : Z -> Z) (p : Z) (l : list Z) : Prop :=
  match l with
  | [] => p = 0
  | v :: l => p = v /\ chain w (w v) l
  end.

(** The free pages are [l]; the lock is free and the CPU ready to take it. *)
Record kalloc_inv (kend : Z) (s : kst) (l : list Z) : Prop := {
  ka_chain : chain (word s) (freelist (km s)) l;
  ka_pages : Forall (is_page kend) l;
  ka_nodup : NoDup l;
  ka_lock : locked (klock (km s)) = 0;
  ka_cpu : cpu_wf (kcpu s);
}.

(** Taking and releasing the lock around an update of the list. *)
Lemma locked_update me ebp s f w :
  locked (klock (km s)) = 0 -> cpu_wf (kcpu s) ->
  exists s1, lock_kmem me ebp s = Ok s1 /\ word s1 = word s /\ freelist (km s1) = freelist (km s) /\
    exists s2, unlock_kmem me (set_km s1 (klock (km s1)) (kcpu s1) f w) = Ok s2 /\
      word s2 = w /\ freelist (km s2) = f /\ use_lock (km s2) = use_lock (km s) /\
      locked (klock (km s2)) = 0 /\ ncli (kcpu s2) = ncli (kcpu s) /\ fl_if (kcpu s2) = fl_if (kcpu s).
Proof.
  intros Hl Hc. unfold lock_kmem, unlock_kmem, set_km. destruct (use_lock (km s)) eqn:E.
  - destruct (acquire_release (word s) ebp me (kcpu s) (klock (km s)) Hc Hl)
      as (c1 & l1 & c2 & l2 & -> & _ & Hr & Hl2 & _ & Hn & Hf).
    cbn [mbind res_bind]. eexists. split; [reflexivity|]. cbn [word freelist km kcpu klock use_lock].
    split; [done|]. split; [done|]. rewrite Hr. cbn [mbind res_bind]. eexists. split; [reflexivity|].
    cbn. by split_and!.
  - eexists. split; [reflexivity|]. split; [done|]. split; [done|]. cbn [use_lock km]. rewrite E.
    eexists. split; [reflexivity|]. cbn. split_and!; (done || by rewrite E).
Qed.

Lemma cpu_wf_same c c' : cpu_wf c -> ncli c' = ncli c -> fl_if c' = fl_if c -> cpu_wf c'.
Proof. unfold cpu_wf. by intros H -> ->. Qed.

Lemma chain_ext w w' p l : (forall v, v ∈ l -> w' v = w v) -> chain w p l -> chain w' p l.
Proof.
  revert p. induction l as [|v l IH]; intros p Hw; cbn; [done|]. intros [-> H]. split; [done|].
  rewrite Hw by left. apply IH; [|done]. intros x Hx. apply Hw. by right.
Qed.

(** Distinct pages do not overlap. *)
Lemma pages_apart kend v u :
  is_page kend v -> is_page kend u -> u <> v -> (v <=? u) && (u <? v + PGSIZE) = false.
Proof.
  intros (_ & Hv & _) (_ & Hu & _) Hne. destruct (Z.leb_spec v u), (Z.ltb_spec u (v + PGSIZE)); try done. exfalso.
  apply Hne. unfold PGSIZE in *. apply Z.div_exact in Hv; [|lia]. apply Z.div_exact in Hu; [|lia]. lia.
Qed.

Lemma kfree_ok kend me ebp s l v :
  kalloc_inv kend s l -> is_page kend v -> v ∉ l ->
  exists s', kfree kend me ebp v s = Ok s' /\ kalloc_inv kend s' (v :: l) /\
    use_lock (km s') = use_lock (km s) /\
    ncli (kcpu s') = ncli (kcpu s) /\ fl_if (kcpu s') = fl_if (kcpu s) /\
    (forall a, ~ (v <= a < v + PGSIZE) -> word s' a = word s a).
Proof.
  intros [Hch Hp Hn Hl Hc] Hv Hnew. pose proof Hv as (Hv0 & Hm & Hk & Ht). unfold kfree.
  rewrite Hm. destruct (Z.ltb_spec v kend); [lia|]. destruct (Z.leb_spec PHYSTOP (V2P v)); [lia|]. cbn [Z.eqb negb orb].
  set (s0 := set_km s (klock (km s)) (kcpu s) (freelist (km s)) (fill_page (word s) v)).
  destruct (locked_update me ebp s0 v (set_word (fill_page (word s) v) v (freelist (km s))) Hl Hc)
    as (s1 & -> & Hw1 & Hf1 & s2 & Hs2 & Hw2 & Hf2 & Hu & Hl2 & Hn2 & Hi2).
  cbn [mbind res_bind]. rewrite Hw1, Hf1. exists s2. split; [exact Hs2|].
  assert (forall u, u ∈ l -> word s2 u = word s u) as Hsame.
  { intros u Hu'. assert (is_page kend u) as Hpu by (rewrite Forall_forall in Hp; by apply Hp).
    assert (u <> v) as Hne by (by intros ->). rewrite Hw2. unfold set_word, fill_page.
    rewrite (proj2 (Z.eqb_neq u v) Hne), (pages_apart kend v u) by done. done. }
  split_and!; [|done|done|done|].
  - constructor; [|by constructor|by constructor|done|by eapply cpu_wf_same].
    rewrite Hf2. split; [done|].
    replace (word s2 v) with (freelist (km s)) by (rewrite Hw2; unfold set_word; by rewrite Z.eqb_refl).
    by apply (chain_ext (word s)).
  - intros a Ha. rewrite Hw2. unfold set_word, fill_page, PGSIZE in *. destruct (Z.eqb_spec a v); [lia|].
    destruct (Z.leb_spec v a), (Z.ltb_spec a (v + 4096)); cbn [andb]; (done || lia).
Qed.

Lemma kalloc_ok kend me ebp s l :
  kalloc_inv kend s l ->
  exists s', kalloc me ebp s = Ok (hd 0 l, s') /\ kalloc_inv kend s' (tl l) /\
    use_lock (km s') = use_lock (km s) /\
    ncli (kcpu s') = ncli (kcpu s) /\ fl_if (kcpu s') = fl_if (kcpu s) /\ (forall a, word s' a = word s a).
Proof.
  intros [Hch Hp Hn Hl Hc]. unfold kalloc.
  destruct (locked_update me ebp s (if l is [] then 0 else word s (hd 0 l)) (word s) Hl Hc)
    as (s1 & -> & Hw1 & Hf1 & s2 & Hs2 & Hw2 & Hf2 & Hu & Hl2 & Hn2 & Hi2).
  cbn [mbind res_bind]. rewrite Hf1. destruct l as [|v l].
  - cbn in Hch. rewrite Hch in *. cbn [Z.eqb negb hd tl].
    replace (set_km s1 (klock (km s1)) (kcpu s1) 0 (word s)) with s1 in Hs2
      by (destruct s1 as [[]]; cbn in *; by subst).
    rewrite Hs2. cbn [mbind res_bind]. exists s2. split; [done|]. split_and!; try done; [|by rewrite Hw2].
    constructor; try done; [by eapply cpu_wf_same].
  - destruct Hch as [Hv Hch]. rewrite Hv. cbn [hd tl].
    assert (is_page kend v) as ((Hv0 & _) & _) by (by apply Forall_cons in Hp as [? _]).
    destruct (Z.eqb_spec v 0); [lia|]. cbn [negb]. cbn [hd] in Hs2, Hf2. rewrite Hw1, Hs2. cbn [mbind res_bind].
    exists s2. split; [done|]. split_and!; try done; [|by rewrite Hw2].
    apply Forall_cons in Hp as [_ Hp]. apply NoDup_cons in Hn as [_ Hn].
    constructor; try done; [by rewrite Hf2, Hw2|by eapply cpu_wf_same].
Qed.

(** ** Clients *)

(** A client that allocates pages and frees pages it has: [held] are the pages
    it has, [l] those that are free. *)
Inductive kop := KAlloc | KFree (v : Z).

Inductive kstep (kend me ebp : Z) : kop -> kst * list Z -> kst * list Z -> Prop :=
| kstep_none s s' held : kalloc me ebp s = Ok (0, s') -> kstep kend me ebp KAlloc (s, held) (s', held)
| kstep_alloc s s' r held :
    kalloc me ebp s = Ok (r, s') -> r <> 0 -> kstep kend me ebp KAlloc (s, held) (s', r :: held)
| kstep_free s s' v h1 h2 :
    kfree kend me ebp v s = Ok s' -> kstep kend me ebp (KFree v) (s, h1 ++ v :: h2) (s', h1 ++ h2).

Inductive ksteps (kend me ebp : Z) : list kop -> kst * list Z -> kst * list Z -> Prop :=
| ksteps_nil x : ksteps kend me ebp [] x x
| ksteps_cons o os x y z : kstep kend me ebp o x y -> ksteps kend me ebp os y z -> ksteps kend me ebp (o :: os) x z.

(** Every page is free or held, and not both. *)
Definition accounted (kend : Z) (s : kst) (held all : list Z) : Prop :=
  exists l, kalloc_inv kend s l /\ l ++ held ≡ₚ all.

Lemma kstep_accounted kend me ebp o x y all :
  NoDup all -> Forall (is_page kend) all -> accounted kend x.1 x.2 all -> kstep kend me ebp o x y ->
  accounted kend y.1 y.2 all.
Proof.
  intros Hn Hp (l & Hi & Hperm) Hst. destruct Hst as [s s' held Ha|s s' r held Ha Hr|s s' v h1 h2 Hf]; cbn in *.
  - destruct (kalloc_ok kend me ebp s l Hi) as (s2 & Hs2 & Hi2 & _). rewrite Ha in Hs2. injection Hs2 as Hr ->.
    destruct l as [|v l]; [exists []; by split|]. cbn in Hr. subst v.
    pose proof (ka_pages _ _ _ Hi) as Hpg. apply Forall_cons in Hpg as [[[Hz _] _] _]. lia.
  - destruct (kalloc_ok kend me ebp s l Hi) as (s2 & Hs2 & Hi2 & _). rewrite Ha in Hs2. injection Hs2 as Hr' ->.
    destruct l as [|v l]; [by subst r|]. cbn in *. subst v. exists l. split; [done|].
    by rewrite <- Hperm, Permutation_middle.
  - assert (v ∈ all) as Hv by (rewrite <- Hperm; set_solver).
    assert (v ∉ l) as Hnl.
    { rewrite <- Hperm in Hn. apply NoDup_app in Hn as (_ & Hd & _). intros Hin. apply (Hd v Hin). set_solver. }
    rewrite Forall_forall in Hp.
    destruct (kfree_ok kend me ebp s l v Hi (Hp v Hv) Hnl) as (s2 & Hs2 & Hi2 & _).
    rewrite Hf in Hs2. injection Hs2 as <-. exists (v :: l). split; [done|].
    rewrite <- Hperm. cbn. by rewrite !app_assoc, Permutation_middle.
Qed.

(** C30. Pages are conserved: whatever a client does, as long as it frees only
    pages it has, every page stays either free or held and never both; the
    allocator hands out a page as long as one is free, and never one that is
    held; freeing a held page does not panic. *)
Theorem pages_conserved kend me ebp os x y all :
  NoDup all -> Forall (is_page kend) all -> accounted kend x.1 x.2 all -> ksteps kend me ebp os x y ->
  accounted kend y.1 y.2 all /\ NoDup y.2 /\
  (exists r s', kalloc me ebp y.1 = Ok (r, s') /\
     (r = 0 <-> length y.2 = length all) /\ (r <> 0 -> r ∈ all /\ r ∉ y.2)) /\
  (forall v, v ∈ y.2 -> exists s', kfree kend me ebp v y.1 = Ok s').
Proof.
  intros Hn Hp Ha Hs. assert (accounted kend y.1 y.2 all) as (l & Hi & Hperm).
  { clear -Hn Hp Ha Hs. induction Hs as [|o os x y z H1 H2 IH]; [done|]. by eapply IH, kstep_accounted. }
  pose proof Hn as Hnd. rewrite <- Hperm in Hnd. apply NoDup_app in Hnd as (_ & Hd & Hny).
  split; [by exists l|]. split; [done|]. split.
  - destruct (kalloc_ok kend me ebp y.1 l Hi) as (s' & Hs' & _). exists (hd 0 l), s'. split; [done|].
    pose proof (Permutation_length Hperm) as Hlen. rewrite length_app in Hlen. destruct l as [|v l]; cbn [hd].
    + split; [split; [cbn in Hlen; lia|done]|done].
    + pose proof (ka_pages _ _ _ Hi) as Hpg. apply Forall_cons in Hpg as [[[Hz _] _] _].
      split; [cbn in Hlen; lia|]. intros _. split; [rewrite <- Hperm; set_solver|]. apply Hd. set_solver.
  - intros v Hv. assert (v ∈ all) as Hva by (rewrite <- Hperm; set_solver). rewrite Forall_forall in Hp.
    destruct (kfree_ok kend me ebp y.1 l v Hi (Hp v Hva)) as (s' & Hs' & _); [|by exists s'].
    intros Hl. by apply (Hd v Hl).
Qed.

(** Two free pages. *)
Definition demo_kst : kst :=
  {| km := {| klock := initlock; use_lock := true; freelist := 0x80200000 |};
     kcpu := {| ncli := 0; intena := false; fl_if := true |};
     word := fun a => if a =? 0x80200000 then 0x80201000 else 0 |}.

Lemma pages_conserved_witness :
  exists r s', kalloc 0 0 demo_kst = Ok (r, s') /\ (r <> 0 -> r ∈ [0x80200000; 0x80201000]).
Proof.
  destruct (pages_conserved 0x80100000 0 0 [] (demo_kst, []) (demo_kst, []) [0x80200000; 0x80201000])
    as (_ & _ & (r & s' & Hk & _ & Hr) & _).
  - apply (bool_decide_unpack _). vm_compute. exact I.
  - repeat (apply Forall_cons_2; [vm_compute; intuition discriminate|]). apply Forall_nil_2.
  - exists [0x80200000; 0x80201000]. split; [|rewrite app_nil_r; reflexivity].
    constructor.
    + vm_compute. split; [reflexivity|]. split; reflexivity.
    + repeat (apply Forall_cons_2; [vm_compute; intuition discriminate|]). apply Forall_nil_2.
    + apply (bool_decide_unpack _). vm_compute. exact I.
    + reflexivity.
    + split; vm_compute; [discriminate|intros H; discriminate H].
  - apply ksteps_nil.
  - exists r, s'. split; [exact Hk|]. intros H. apply (Hr H).
Defined.

(** ** Initialisation *)

Fixpoint pages_from (k : nat) (p : Z) : list Z :=
  match k with
  | O => []
  | S k => p :: pages_from k (p + PGSIZE)
  end.

Lemma elem_of_pages v k p : v ∈ pages_from k p -> p <= v.
Proof.
  revert p. induction k as [|k IH]; intros p; cbn [pages_from]; [by intros ?%elem_of_nil|].
  intros [->|H]%elem_of_cons; [lia|]. apply IH in H. unfold PGSIZE in H. lia.
Qed.

Lemma freerange_loop_ok kend me ebp fuel k p vend s l :
  kalloc_inv kend s l -> (k < fuel)%nat -> Z.of_nat k = (vend - p) / PGSIZE -> p <= vend ->
  p mod PGSIZE = 0 -> kend <= p -> KERNBASE <= p -> vend <= KERNBASE + PHYSTOP ->
  (forall v, v ∈ pages_from k p -> v ∉ l) ->
  exists s', freerange_loop kend me ebp fuel p vend s = Ok s' /\
    kalloc_inv kend s' (reverse (pages_from k p) ++ l) /\ use_lock (km s') = use_lock (km s).
Proof.
  revert fuel p s l. induction k as [|k IH]; intros fuel p s l Hi Hf Hk Hp Hm He Hb Ht Hd;
    (destruct fuel as [|fuel]; [lia|]); cbn [freerange_loop pages_from];
    unfold PGSIZE, KERNBASE, PHYSTOP in *; rewrite u32_small by lia;
    destruct (Z.leb_spec (p + 4096) vend); try (exfalso; lia).
  - exfalso. assert ((p + 4096 - p) / 4096 <= (vend - p) / 4096) by (apply Z.div_le_mono; lia).
    replace (p + 4096 - p) with 4096 in * by lia. change (4096 / 4096) with 1 in *. lia.
  - exists s. split_and!; done.
  - assert (is_page kend p) as Hpage.
    { split_and!; [lia|lia|done|done|]. unfold V2P, KERNBASE, PHYSTOP. rewrite u32_small; lia. }
    destruct (kfree_ok kend me ebp s l p Hi Hpage) as (s1 & -> & Hi1 & Hu1 & _); [apply Hd; left|].
    cbn [mbind res_bind].
    destruct (IH fuel (p + 4096) s1 (p :: l)) as (s2 & Hs2 & Hi2 & Hu2); try done; try lia.
    + replace (vend - (p + 4096)) with (vend - p + (-1) * 4096) by lia. rewrite Z.div_add by lia. lia.
    + rewrite <- Z.add_mod_idemp_r by lia. change (4096 mod 4096) with 0. by rewrite Z.add_0_r.
    + intros v Hv Hin. apply elem_of_cons in Hin as [->|Hin].
      * apply elem_of_pages in Hv. lia.
      * apply (Hd v); [by right|done].
    + exists s2. split_and!; [done| |congruence]. by rewrite reverse_cons, <- app_assoc.
  - exfalso. rewrite Z.div_small in Hk by lia. lia.
Qed.

(** Initialisation frees every whole page of the range it is given, up to
    the top of physical memory, and terminates. *)
Theorem freerange_frees_all kend me ebp vstart vend s l :
  let p := PGROUNDUP vstart in
  let pages := pages_from (Z.to_nat ((vend - p) / PGSIZE)) p in
  kalloc_inv kend s l -> p <= vend -> p mod PGSIZE = 0 -> kend <= p -> KERNBASE <= p -> vend <= KERNBASE + PHYSTOP ->
  (forall v, v ∈ pages -> v ∉ l) ->
  exists s', freerange kend me ebp vstart vend s = Ok s' /\ kalloc_inv kend s' (reverse pages ++ l).
Proof.
  intros p pages Hi Hp Hm Hk Hb Ht Hd. unfold freerange.
  assert (0 <= (vend - p) / PGSIZE) by (apply Z.div_pos; unfold PGSIZE; lia).
  assert ((vend - p) / PGSIZE <= 2 ^ 32 / PGSIZE).
  { apply Z.div_le_mono; unfold PGSIZE, KERNBASE, PHYSTOP in *; lia. }
  destruct (freerange_loop_ok kend me ebp (S (Z.to_nat (2 ^ 32 / PGSIZE))) (Z.to_nat ((vend - p) / PGSIZE)) p vend s l)
    as (s' & Hs & Hi' & _); try done; try lia.
  by exists s'.
Qed.

Lemma freerange_frees_all_witness :
  exists s', freerange 0x80100000 0 0 0x80200001 0x80203000
               {| km := {| klock := initlock; use_lock := false; freelist := 0 |};
                  kcpu := {| ncli := 0; intena := false; fl_if := false |}; word := fun _ => 0 |} = Ok s' /\
             kalloc_inv 0x80100000 s' [0x80202000; 0x80201000].
Proof.
  destruct (freerange_frees_all 0x80100000 0 0 0x80200001 0x80203000
    {| km := {| klock := initlock; use_lock := false; freelist := 0 |};
       kcpu := {| ncli := 0; intena := false; fl_if := false |}; word := fun _ => 0 |} []) as (s' & Hs & Hi).
  - constructor; [reflexivity|apply Forall_nil_2|apply NoDup_nil_2|reflexivity|split; vm_compute; discriminate].
  - vm_compute; discriminate.
  - vm_compute; reflexivity.
  - vm_compute; discriminate.
  - vm_compute; discriminate.
  - vm_compute; discriminate.
  - intros v _ Hv. by apply elem_of_nil in Hv.
  - exists s'. split; [exact Hs|exact Hi].
Defined.
