(* ===== verification/Pipe.v ===== *)
(** * Pipes: [pipe.c]

    A call holds the pipe's lock except while it sleeps, so a call is a sequence
    of uninterrupted runs: each ends with a result or with the process asleep,
    and the next one starts at the test of the loop it slept in. *)

From stdpp Require Import base list.
From Stdlib Require Import ZArith Lia.
From S2P Require Import Prelude.

Definition PIPESIZE : Z := 512.

Record pipe := { data : list Z; nread : Z; nwrite : Z; readopen : bool; writeopen : bool }.

(** The fields [pipealloc] sets in the page [d] it has allocated. *)
Definition pipealloc (d : list Z) : pipe :=
  {| data := d; nread := 0; nwrite := 0; readopen := true; writeopen := true |}.

(** What processes sleep on: [&p->nread] and [&p->nwrite]. *)
Inductive chan := Nread | Nwrite.

#[export] Instance chan_eq_dec : EqDecision chan.
Proof. solve_decision. Defined.

(** The pipe, the channel that is woken, and whether the page is freed. *)
Definition pipeclose (p : pipe) (writable : bool) : pipe * chan * bool :=
  let p' := {| data := data p; nread := nread p; nwrite := nwrite p;
               readopen := if writable then readopen p else false;
               writeopen := if writable then false else writeopen p |} in
  (p', if writable then Nread else Nwrite, negb (readopen p') && negb (writeopen p')).

(** How a run of [pipewrite] ends: all bytes written, failed, or asleep, with the
    bytes still to write. *)
Inductive wout := WDone | WFail (rest : list Z) | WSleep (rest : list Z).

(** [p->data[p->nwrite++ % PIPESIZE] = c;] *)
Definition put (p : pipe) (c : Z) : res pipe :=
  d ← arr_set (data p) (nwrite p mod PIPESIZE) c;
  Ok {| data := d; nread := nread p; nwrite := u32 (nwrite p + 1);
        readopen := readopen p; writeopen := writeopen p |}.

(** [c = p->data[p->nread++ % PIPESIZE];] *)
Definition get (p : pipe) : res (Z * pipe) :=
  c ← arr_get (data p) (nread p mod PIPESIZE);
  Ok (c, {| data := data p; nread := u32 (nread p + 1); nwrite := nwrite p;
            readopen := readopen p; writeopen := writeopen p |}).

(** A run of [pipewrite] with the bytes [bs] still to write; [killed] is that of
    the process.  It wakes the readers except when it fails. *)
Fixpoint pipewrite (killed : bool) (p : pipe) (bs : list Z) : res (pipe * wout) :=
  match bs with
  | [] => Ok (p, WDone)
  | c :: rest =>
      if nwrite p =? u32 (nread p + PIPESIZE) then
        if negb (readopen p) || killed then Ok (p, WFail bs) else Ok (p, WSleep bs)
      else
        p ← put p c;
        pipewrite killed p rest
  end.

Definition write_wakes (o : wout) : option chan :=
  match o with WFail _ => None | _ => Some Nread end.

(** How a run of [piperead] ends. *)
Inductive rout := RDone (bs : list Z) | RFail | RSleep.

Fixpoint read_copy (n : nat) (p : pipe) : res (list Z * pipe) :=
  match n with
  | O => Ok ([], p)
  | S n =>
      if nread p =? nwrite p then Ok ([], p)
      else
        '(c, p) ← get p;
        '(bs, p) ← read_copy n p;
        Ok (c :: bs, p)
  end.

(** A run of [piperead] for [n] bytes; only one that copies wakes the writers. *)
Definition piperead (killed : bool) (p : pipe) (n : Z) : res (pipe * rout) :=
  if (nread p =? nwrite p) && writeopen p then
    Ok (p, if killed then RFail else RSleep)
  else
    '(bs, p) ← read_copy (Z.to_nat n) p;
    Ok (p, RDone bs).

Definition read_wakes (o : rout) : option chan :=
  match o with RDone _ => Some Nwrite | _ => None end.

(** ** The pipe as a queue *)

(** [p] holds the bytes [q]. *)
Record holds (p : pipe) (q : list Z) : Prop := {
  h_len : zlen (data p) = PIPESIZE;
  h_read : 0 <= nread p < 2 ^ 32;
  h_write : nwrite p = u32 (nread p + zlen q);
  h_fits : zlen q <= PIPESIZE;
  h_data : forall i c, q !! i = Some c -> arr_get (data p) ((nread p + Z.of_nat i) mod PIPESIZE) = Ok c;
}.

(** The counters wrap at a multiple of the size of the buffer. *)
Lemma u32_mod_pipe z : u32 z mod PIPESIZE = z mod PIPESIZE.
Proof. unfold u32, PIPESIZE. apply Z.mod_mod_divide. exists (2 ^ 23). reflexivity. Qed.

Lemma empty_iff p q : holds p q -> (nread p = nwrite p <-> q = []).
Proof.
  intros [_ Hr Hw Hf _]. rewrite Hw. unfold PIPESIZE in Hf. pose proof (zlen_nonneg q). split.
  - intros H0. destruct q as [|c q]; [done|]. exfalso. rewrite zlen_cons in *. pose proof (zlen_nonneg q).
    assert (u32 (nread p + (1 + zlen q)) <> u32 (nread p)) as Hne.
    { unfold u32. intros E. assert ((nread p + (1 + zlen q) - nread p) mod 2 ^ 32 = 0) as E2
        by (by rewrite Zminus_mod, E, Z.sub_diag).
      replace (nread p + (1 + zlen q) - nread p) with (1 + zlen q) in E2 by lia.
      rewrite Z.mod_small in E2 by lia. lia. }
    rewrite (u32_small (nread p)) in Hne by lia. by rewrite <- H0 in Hne.
  - intros ->. change (zlen []) with 0. by rewrite Z.add_0_r, u32_small.
Qed.

Lemma full_iff p q : holds p q -> (nwrite p = u32 (nread p + PIPESIZE) <-> zlen q = PIPESIZE).
Proof.
  intros [_ Hr Hw Hf _]. rewrite Hw. unfold PIPESIZE in *. pose proof (zlen_nonneg q). split; [|by intros ->].
  intros E. apply u32_add_inj in E; lia.
Qed.

Lemma put_holds p q c :
  holds p q -> zlen q < PIPESIZE ->
  exists p', put p c = Ok p' /\ holds p' (q ++ [c]) /\ readopen p' = readopen p /\ writeopen p' = writeopen p.
Proof.
  intros [Hl Hr Hw Hf Hd] Hq. pose proof (zlen_nonneg q) as Hq0. unfold put.
  assert (0 <= nwrite p mod PIPESIZE < PIPESIZE) as Hb by (apply Z.mod_pos_bound; unfold PIPESIZE; lia).
  destruct (arr_set (data p) (nwrite p mod PIPESIZE) c) as [d| |] eqn:E.
  2,3: by rewrite arr_set_ok in E by lia.
  cbn [mbind res_bind]. eexists. split; [reflexivity|]. split_and!; [|done|done].
  assert (nwrite p mod PIPESIZE = (nread p + zlen q) mod PIPESIZE) as Hwm by (by rewrite Hw, u32_mod_pipe).
  constructor; cbn [data nread nwrite]; [by rewrite (arr_set_len _ _ _ _ E)|done| | |].
  - rewrite Hw, zlen_app, u32_add_l. f_equal. change (zlen [c]) with 1. lia.
  - rewrite zlen_app. change (zlen [c]) with 1. lia.
  - intros i x Hi. rewrite (arr_get_set _ _ _ _ _ E), Hwm. apply lookup_app_Some in Hi as [Hi|[Hge Hi]].
    + apply lookup_lt_Some in Hi as Hlt. destruct (Z.eqb_spec ((nread p + Z.of_nat i) mod PIPESIZE)
        ((nread p + zlen q) mod PIPESIZE)) as [Heq|]; [|by apply Hd]. exfalso.
      assert ((nread p + zlen q - (nread p + Z.of_nat i)) mod PIPESIZE = 0) as E2.
      { by rewrite Zminus_mod, Heq, Z.sub_diag. }
      unfold zlen, PIPESIZE in *. rewrite Z.mod_small in E2 by lia. lia.
    + apply list_lookup_singleton_Some in Hi as [Hi ->]. unfold zlen.
      replace (Z.of_nat i) with (Z.of_nat (length q)) by lia. by rewrite Z.eqb_refl.
Qed.

Lemma get_holds p c q :
  holds p (c :: q) ->
  exists p', get p = Ok (c, p') /\ holds p' q /\ readopen p' = readopen p /\ writeopen p' = writeopen p.
Proof.
  intros [Hl Hr Hw Hf Hd]. unfold get. pose proof (Hd 0%nat c eq_refl) as H0. rewrite Z.add_0_r in H0. rewrite H0.
  cbn [mbind res_bind]. eexists. split; [reflexivity|]. split_and!; [|done|done].
  rewrite zlen_cons in *. constructor; cbn [data nread nwrite]; [done|apply u32_range| |lia|].
  - rewrite Hw, u32_add_l. f_equal. lia.
  - intros i x Hi. rewrite <- Zplus_mod_idemp_l, u32_mod_pipe, Zplus_mod_idemp_l.
    rewrite <- (Hd (S i) x Hi). do 2 f_equal. lia.
Qed.

(** A run of [pipewrite] appends the bytes it takes, and stops only when the
    queue is full. *)
Lemma pipewrite_spec killed p q bs :
  holds p q ->
  exists p' o done rest, pipewrite killed p bs = Ok (p', o) /\ bs = done ++ rest /\ holds p' (q ++ done) /\
    readopen p' = readopen p /\ writeopen p' = writeopen p /\
    match o with
    | WDone => rest = []
    | WFail r => r = rest /\ rest <> [] /\ zlen (q ++ done) = PIPESIZE /\ (readopen p = false \/ killed = true)
    | WSleep r => r = rest /\ rest <> [] /\ zlen (q ++ done) = PIPESIZE /\ readopen p = true
    end.
Proof.
  revert p q. induction bs as [|c bs IH]; intros p q Hh; cbn [pipewrite].
  - exists p, WDone, [], []. rewrite (app_nil_r q). by split_and!.
  - pose proof (full_iff p q Hh) as Hfull. destruct (Z.eqb_spec (nwrite p) (u32 (nread p + PIPESIZE))) as [E|E].
    + apply Hfull in E. destruct (readopen p) eqn:Er, killed; cbn [negb orb].
      1,3,4: exists p, (WFail (c :: bs)), [], (c :: bs); rewrite (app_nil_r q); split_and!; auto.
      exists p, (WSleep (c :: bs)), [], (c :: bs). rewrite (app_nil_r q). by split_and!.
    + destruct (put_holds p q c Hh) as (p1 & -> & Hh1 & Hr1 & Hw1).
      { pose proof (h_fits _ _ Hh). destruct (decide (zlen q = PIPESIZE)); [by apply Hfull in e|lia]. }
      cbn [mbind res_bind].
      destruct (IH p1 (q ++ [c]) Hh1) as (p' & o & done & rest & -> & -> & Hh' & Hr & Hw & Ho).
      rewrite <- app_assoc in *. cbn [app] in *.
      exists p', o, (c :: done), rest. rewrite Hr1 in *. rewrite Hw1 in *. by split_and!.
Qed.

Lemma read_copy_spec n p q :
  holds p q ->
  exists p', read_copy n p = Ok (take n q, p') /\ holds p' (drop n q) /\
    readopen p' = readopen p /\ writeopen p' = writeopen p.
Proof.
  revert p q. induction n as [|n IH]; intros p q Hh; cbn [read_copy]; [exists p; by rewrite drop_0|].
  pose proof (empty_iff p q Hh) as He. destruct (Z.eqb_spec (nread p) (nwrite p)) as [E|E].
  - apply He in E. subst q. exists p. by split_and!.
  - destruct q as [|c q]; [by destruct E; apply He|].
    destruct (get_holds p c q Hh) as (p1 & -> & Hh1 & Hr1 & Hw1). cbn [mbind res_bind].
    destruct (IH p1 q Hh1) as (p' & -> & Hh' & Hr & Hw). cbn [mbind res_bind].
    exists p'. split_and!; [done|done|congruence|congruence].
Qed.

(** ** Processes using a pipe *)

(** The pipe, all bytes ever written to it and read from it, the readers asleep
    on [nread], and what the writers asleep on [nwrite] have left to write. *)
Record psys := { pp : pipe; sent : list Z; got : list Z; readers : nat; writers : list (list Z) }.

(** A run of a write (a new call, or a writer that was woken), of a read, and
    the closing of an end.  A run that wakes a channel empties its sleepers.
    The read end is closed when the last reader is gone. *)
Inductive pstep (s : psys) : psys -> Prop :=
| pstep_write bs p' o :
    pipewrite false (pp s) bs = Ok (p', o) ->
    pstep s {| pp := p';
               sent := sent s ++ take (length bs - match o with WSleep r | WFail r => length r | WDone => 0 end) bs;
               got := got s;
               readers := if write_wakes o is Some Nread then 0 else readers s;
               writers := match o with WSleep r => r :: writers s | _ => writers s end |}
| pstep_read n p' o :
    readopen (pp s) = true -> piperead false (pp s) n = Ok (p', o) ->
    pstep s {| pp := p'; sent := sent s;
               got := got s ++ match o with RDone bs => bs | _ => [] end;
               readers := match o with RSleep => S (readers s) | _ => readers s end;
               writers := if read_wakes o is Some Nwrite then [] else writers s |}
| pstep_close writable p' ch fr :
    (writable = false -> readers s = 0%nat) -> pipeclose (pp s) writable = (p', ch, fr) ->
    pstep s {| pp := p'; sent := sent s; got := got s;
               readers := if ch is Nread then 0 else readers s;
               writers := if ch is Nwrite then [] else writers s |}.

Definition pinit (d : list Z) : psys := {| pp := pipealloc d; sent := []; got := []; readers := 0; writers := [] |}.

Inductive preach (d : list Z) : psys -> Prop :=
| preach_init : preach d (pinit d)
| preach_step s s' : preach d s -> pstep s s' -> preach d s'.

(** [q] is in the pipe. *)
Record psys_inv (s : psys) (q : list Z) : Prop := {
  pi_holds : holds (pp s) q;
  pi_fifo : sent s = got s ++ q;
  pi_readers : (0 < readers s)%nat -> q = [] /\ readopen (pp s) = true /\ writeopen (pp s) = true;
  pi_writers : writers s <> [] -> zlen q = PIPESIZE /\ readopen (pp s) = true;
}.

Lemma psys_inv_init d : zlen d = PIPESIZE -> psys_inv (pinit d) [].
Proof.
  intros Hd. constructor; [|done|cbn; lia|done].
  constructor; cbn; [done|lia|done|vm_compute; discriminate|done].
Qed.

Lemma pstep_inv s s' q : psys_inv s q -> pstep s s' -> exists q', psys_inv s' q'.
Proof.
  intros [Hh Hf Hr Hw] Hst. destruct Hst as [bs p' o Hrun|n p' o Hopen Hrun|writable p' ch fr Hlast Hcl].
  - destruct (pipewrite_spec false (pp s) q bs Hh) as (p1 & o1 & done & rest & E & -> & Hh' & Hro & Hwo & Ho).
    rewrite Hrun in E. injection E as <- <-. exists (q ++ done).
    assert (writers s <> [] -> done = []) as Hfull.
    { intros Hws. apply Hw in Hws as [Hq _]. pose proof (h_fits _ _ Hh') as Hfit. rewrite zlen_app, Hq in Hfit.
      destruct done; [done|]. rewrite zlen_cons in Hfit. pose proof (zlen_nonneg done). lia. }
    constructor; cbn [pp sent got readers writers].
    + done.
    + rewrite Hf, <- app_assoc. do 2 f_equal. rewrite length_app.
      destruct o; destruct_and?; simplify_eq; rewrite take_app_length'; (done || (cbn; lia)).
    + destruct o; cbn [write_wakes]; try lia. intros Hrd. destruct (Hr Hrd) as (_ & Hro' & _).
      destruct Ho as (_ & _ & _ & [Hcl|]); congruence.
    + destruct o as [|r|r]; [| |destruct Ho as (_ & _ & Hq & Hop); intros _; by rewrite Hro].
      all: intros Hws; rewrite Hro; destruct (Hw Hws) as [Hq Hop]; rewrite (Hfull Hws), app_nil_r; done.
  - unfold piperead in Hrun. pose proof (empty_iff _ _ Hh) as He.
    destruct (Z.eqb_spec (nread (pp s)) (nwrite (pp s))) as [E|E]; cbn [andb] in Hrun.
    + apply He in E. subst q. destruct (writeopen (pp s)) eqn:Ewo.
      * injection Hrun as <- <-. exists []. constructor; cbn; try done. by rewrite app_nil_r.
      * destruct (read_copy_spec (Z.to_nat n) (pp s) [] Hh) as (p1 & Ec & Hh1 & Hro & Hwo).
        rewrite Ec in Hrun. cbn [mbind res_bind] in Hrun. injection Hrun as <- <-. exists [].
        rewrite drop_nil in Hh1. constructor; cbn; try done; [by rewrite take_nil, app_nil_r|].
        intros Hrd. destruct (Hr Hrd) as (_ & _ & ?). congruence.
    + destruct (read_copy_spec (Z.to_nat n) (pp s) q Hh) as (p1 & Ec & Hh1 & Hro & Hwo).
      rewrite Ec in Hrun. cbn [mbind res_bind] in Hrun. injection Hrun as <- <-. exists (drop (Z.to_nat n) q).
      constructor; cbn; try done; [by rewrite <- app_assoc, take_drop|].
      intros Hrd. destruct (Hr Hrd) as (-> & _). by destruct E; apply He.
  - unfold pipeclose in Hcl. injection Hcl as <- <- _. exists q.
    destruct Hh. destruct writable; constructor; cbn; try done; try lia.
Qed.

Lemma preach_inv d s : zlen d = PIPESIZE -> preach d s -> exists q, psys_inv s q.
Proof.
  intros Hd. induction 1 as [|s s' _ [q IH] Hs]; [exists []; by apply psys_inv_init|by eapply pstep_inv].
Qed.


(** No wakeup is lost: a reader sleeps only while the pipe is empty and
    open for writing, a writer only while it is full and open for reading. *)
Theorem pipe_no_lost_wakeup d s :
  zlen d = PIPESIZE -> preach d s ->
  ((0 < readers s)%nat -> nread (pp s) = nwrite (pp s) /\ writeopen (pp s) = true) /\
  (writers s <> [] -> nwrite (pp s) = u32 (nread (pp s) + PIPESIZE) /\ readopen (pp s) = true).
Proof.
  intros Hd Hr. destruct (preach_inv d s Hd Hr) as [q [Hh _ Hrd Hwr]]. split.
  - intros H. destruct (Hrd H) as (Hq & _ & Ho). split; [by apply (empty_iff _ _ Hh)|done].
  - intros H. destruct (Hwr H) as (Hq & Ho). split; [by apply (full_iff _ _ Hh)|done].
Qed.

(** A reader waits, a writer writes two bytes, the reader takes one of them. *)
Definition demo_pipe : list Z := replicate 512 0.
Definition demo_p1 : psys :=
  {| pp := pp (pinit demo_pipe); sent := []; got := []; readers := 1; writers := [] |}.
Definition demo_wrote : pipe :=
  match pipewrite false (pp demo_p1) [7; 8] with Ok (p, _) => p | _ => pipealloc [] end.
Definition demo_p2 : psys := {| pp := demo_wrote; sent := [7; 8]; got := []; readers := 0; writers := [] |}.

Lemma demo_preach1 : preach demo_pipe demo_p1.
Proof.
  apply (preach_step _ (pinit demo_pipe)); [constructor|].
  exact (pstep_read (pinit demo_pipe) 1 _ RSleep eq_refl eq_refl).
Qed.

Lemma demo_preach2 : preach demo_pipe demo_p2.
Proof.
  apply (preach_step _ demo_p1); [apply demo_preach1|].
  exact (pstep_write demo_p1 [7; 8] demo_wrote WDone eq_refl).
Qed.


Lemma pipe_no_lost_wakeup_witness : readers demo_p1 = 1%nat /\ writeopen (pp demo_p1) = true.
Proof.
  split; [reflexivity|].
  destruct (pipe_no_lost_wakeup demo_pipe demo_p1) as [H _].
  - reflexivity.
  - exact demo_preach1.
  - apply H. exact (le_n 1).
Defined.
