(* ===== verification/Bio.v ===== *)
(** * The buffer cache (bio.c), sleep locks (sleeplock.c) and the memory disk
      (memide.c)

    The array [bcache.buf] and the list head [bcache.head] are one list of
    [NBUF + 1] buffers, the head last; a [struct buf *] is an index of it.
    The disk is the byte array [memdisk].  The spin locks [bcache.lock] and
    [b->lock.lk] are taken and given back inside every operation (Spinlock.v
    has what they promise), so each operation is one atomic change of this
    state; a sleep lock is held across operations and is part of the state.
    Waiting for one that is held is [Blocked]. *)

From stdpp Require Import base list strings.
From Stdlib Require Import ZArith Lia.
From S2P Require Import Prelude.

Definition BSIZE : Z := 512.
Definition MAXOPBLOCKS : Z := 10.
Definition LOGSIZE : Z := MAXOPBLOCKS * 3.
Definition NBUF : Z := MAXOPBLOCKS * 3.
Definition B_VALID : Z := 2.
Definition B_DIRTY : Z := 4.

Record sleeplock := { locked : Z; pid : Z }.

Record buf := {
  flags : Z;
  dev : Z;
  blockno : Z;
  lock : sleeplock;
  refcnt : Z;
  prev : Z;
  next : Z;
  data : list Z;
}.

#[export] Instance sleeplock_eq_dec : EqDecision sleeplock.
Proof. solve_decision. Defined.
#[export] Instance buf_eq_dec : EqDecision buf.
Proof. solve_decision. Defined.

Definition with_flags (b : buf) f := {| flags := f; dev := dev b; blockno := blockno b;
  lock := lock b; refcnt := refcnt b; prev := prev b; next := next b; data := data b |}.
Definition with_block (b : buf) d n := {| flags := flags b; dev := d; blockno := n;
  lock := lock b; refcnt := refcnt b; prev := prev b; next := next b; data := data b |}.
Definition with_lock (b : buf) l := {| flags := flags b; dev := dev b; blockno := blockno b;
  lock := l; refcnt := refcnt b; prev := prev b; next := next b; data := data b |}.
Definition with_refcnt (b : buf) r := {| flags := flags b; dev := dev b; blockno := blockno b;
  lock := lock b; refcnt := r; prev := prev b; next := next b; data := data b |}.
Definition with_prev (b : buf) p := {| flags := flags b; dev := dev b; blockno := blockno b;
  lock := lock b; refcnt := refcnt b; prev := p; next := next b; data := data b |}.
Definition with_next (b : buf) n := {| flags := flags b; dev := dev b; blockno := blockno b;
  lock := lock b; refcnt := refcnt b; prev := prev b; next := n; data := data b |}.
Definition with_data (b : buf) d := {| flags := flags b; dev := dev b; blockno := blockno b;
  lock := lock b; refcnt := refcnt b; prev := prev b; next := next b; data := d |}.

(** [writes] records the blocks written to the disk, oldest first. *)
Record bio := {
  bufs : list buf;
  memdisk : list Z;
  disksize : Z;
  writes : list (Z * list Z);
}.

Definition with_bufs (s : bio) l := {| bufs := l; memdisk := memdisk s;
  disksize := disksize s; writes := writes s |}.

(** [&bcache.head]. *)
Definition head : Z := NBUF.

Definition get (s : bio) (b : Z) : res buf := arr_get (bufs s) b.
Definition set (s : bio) (b : Z) (f : buf -> buf) : res bio :=
  v ← get s b; l ← arr_set (bufs s) b (f v); Ok (with_bufs s l).

(** ** Sleep locks *)

Definition initsleeplock : sleeplock := {| locked := 0; pid := 0 |}.

Definition acquiresleep (mypid : Z) (s : bio) (b : Z) : res bio :=
  v ← get s b;
  if negb (locked (lock v) =? 0) then Fault Blocked
  else set s b (fun v => with_lock v {| locked := 1; pid := mypid |}).

Definition releasesleep (s : bio) (b : Z) : res bio :=
  set s b (fun v => with_lock v {| locked := 0; pid := 0 |}).

Definition holdingsleep (s : bio) (b : Z) : res Z :=
  v ← get s b; Ok (locked (lock v)).

(** ** The disk *)

(** The size of the image [_binary_fs_img] is the argument. *)
Definition ideinit (s : bio) (img : list Z) : bio :=
  {| bufs := bufs s; memdisk := img; disksize := u32 (zlen img) / BSIZE; writes := [] |}.

Definition iderw (s : bio) (b : Z) : res bio :=
  h ← holdingsleep s b;
  if h =? 0 then Fault (Panic "iderw: buf not locked") else
  v ← get s b;
  if Z.land (flags v) (Z.lor B_VALID B_DIRTY) =? B_VALID
  then Fault (Panic "iderw: nothing to do") else
  if negb (dev v =? 1) then Fault (Panic "iderw: request not for disk 1") else
  if u32 (disksize s) <=? blockno v then Fault (Panic "iderw: block out of range") else
  let p := u32 (blockno v * BSIZE) in
  if negb (Z.land (flags v) B_DIRTY =? 0) then
    s ← set s b (fun v => with_flags v (Z.land (flags v) (Z.lnot B_DIRTY)));
    m ← arr_write (memdisk s) p (data v);
    let s := {| bufs := bufs s; memdisk := m; disksize := disksize s;
                writes := writes s ++ [(blockno v, data v)] |} in
    set s b (fun v => with_flags v (Z.lor (flags v) B_VALID))
  else
    d ← arr_read (memdisk s) p BSIZE;
    s ← set s b (fun v => with_data v d);
    set s b (fun v => with_flags v (Z.lor (flags v) B_VALID)).

(** ** The cache *)

(** [b] taken out of the list, and inserted after the head. *)
Definition unlink (s : bio) (b : Z) : res bio :=
  v ← get s b;
  s ← set s (next v) (fun n => with_prev n (prev v));
  v ← get s b;
  set s (prev v) (fun p => with_next p (next v)).

Definition to_front (s : bio) (b : Z) : res bio :=
  h ← get s head;
  s ← set s b (fun v => with_next v (next h));
  s ← set s b (fun v => with_prev v head);
  s ← set s (next h) (fun v => with_prev v b);
  set s head (fun v => with_next v b).

Fixpoint binit_loop (n : nat) (b : Z) (s : bio) : res bio :=
  match n with
  | O => Ok s
  | S n =>
    h ← get s head;
    s ← set s b (fun v => with_next v (next h));
    s ← set s b (fun v => with_prev v head);
    s ← set s b (fun v => with_lock v initsleeplock);
    s ← set s (next h) (fun v => with_prev v b);
    s ← set s head (fun v => with_next v b);
    binit_loop n (b + 1) s
  end.

Definition binit (s : bio) : res bio :=
  s ← set s head (fun v => with_prev v head);
  s ← set s head (fun v => with_next v head);
  binit_loop (Z.to_nat NBUF) 0 s.

(** The two searches of [bget]: forward for the block, backward for a buffer
    that can be recycled.  [None] when the search is back at the head. *)
Fixpoint find_block (fuel : nat) (s : bio) (d n b : Z) : res (option Z) :=
  match fuel with
  | O => Fault OutOfFuel
  | S fuel =>
    if b =? head then Ok None else
    v ← get s b;
    if (dev v =? d) && (blockno v =? n) then Ok (Some b)
    else find_block fuel s d n (next v)
  end.

Fixpoint find_unused (fuel : nat) (s : bio) (b : Z) : res (option Z) :=
  match fuel with
  | O => Fault OutOfFuel
  | S fuel =>
    if b =? head then Ok None else
    v ← get s b;
    if (refcnt v =? 0) && (Z.land (flags v) B_DIRTY =? 0) then Ok (Some b)
    else find_unused fuel s (prev v)
  end.

(** One turn per buffer and one for the head. *)
Definition bget_fuel : nat := S (Z.to_nat NBUF).

Definition bget (mypid : Z) (s : bio) (d n : Z) : res (Z * bio) :=
  h ← get s head;
  hit ← find_block bget_fuel s d n (next h);
  match hit with
  | Some b =>
    s ← set s b (fun v => with_refcnt v (u32 (refcnt v + 1)));
    s ← acquiresleep mypid s b;
    Ok (b, s)
  | None =>
    h ← get s head;
    free ← find_unused bget_fuel s (prev h);
    match free with
    | Some b =>
      s ← set s b (fun v => with_refcnt (with_flags (with_block v d n) 0) 1);
      s ← acquiresleep mypid s b;
      Ok (b, s)
    | None => Fault (Panic "bget: no buffers")
    end
  end.

Definition bread (mypid : Z) (s : bio) (d n : Z) : res (Z * bio) :=
  '(b, s) ← bget mypid s d n;
  v ← get s b;
  if Z.land (flags v) B_VALID =? 0 then s ← iderw s b; Ok (b, s) else Ok (b, s).

Definition bwrite (s : bio) (b : Z) : res bio :=
  h ← holdingsleep s b;
  if h =? 0 then Fault (Panic "bwrite") else
  s ← set s b (fun v => with_flags v (Z.lor (flags v) B_DIRTY));
  iderw s b.

Definition brelse (s : bio) (b : Z) : res bio :=
  h ← holdingsleep s b;
  if h =? 0 then Fault (Panic "brelse") else
  s ← releasesleep s b;
  s ← set s b (fun v => with_refcnt v (u32 (refcnt v - 1)));
  v ← get s b;
  if refcnt v =? 0 then
    s ← unlink s b;
    to_front s b
  else Ok s.

(** The memory of the kernel before [binit]: all zero. *)
Definition buf0 : buf :=
  {| flags := 0; dev := 0; blockno := 0; lock := initsleeplock; refcnt := 0;
     prev := 0; next := 0; data := replicate (Z.to_nat BSIZE) 0 |}.

Definition bio0 : bio :=
  {| bufs := replicate (Z.to_nat (NBUF + 1)) buf0; memdisk := []; disksize := 0; writes := [] |}.

(** [binit(); ideinit();] of [main]. *)
Definition bio_boot (img : list Z) : res bio := s ← binit bio0; Ok (ideinit s img).
