(* ===== verification/BioProofs.v ===== *)
(** * The buffer cache keeps every block readable and loses no write

    [rep s v]: the cache [s] presents the view [v], that is, the current contents
    of every block, those on the disk, the buffers that are held with their
    blocks, and the blocks pinned by [B_DIRTY].  Every operation of bio.c is
    specified by how it changes the view. *)

From stdpp Require Import base list strings gmap sets.
From Stdlib Require Import ZArith Lia.
From S2P Require Import Prelude Bio.

(** ** The buffers as a function of the pointer *)

Definition B (s : bio) (i : Z) : buf :=
  match get s i with Ok b => b | _ => buf0 end.
Definition inb (i : Z) : Prop := 0 <= i < NBUF.
Definition ptr (i : Z) : Prop := 0 <= i <= NBUF.
Definition sized (s : bio) : Prop := zlen (bufs s) = NBUF + 1.

Lemma inb_ptr i : inb i -> ptr i.
Proof. unfold inb, ptr. lia. Qed.

Lemma head_ptr : ptr head.
Proof. unfold ptr, head, NBUF, MAXOPBLOCKS. lia. Qed.

Lemma inb_head i : inb i -> i <> head.
Proof. unfold inb, head. lia. Qed.

Create HintDb bio.
#[export] Hint Resolve inb_ptr head_ptr inb_head : bio.

Lemma get_B s i : sized s -> ptr i -> get s i = Ok (B s i).
Proof.
  unfold sized, ptr, B. intros Hs Hi. unfold get.
  destruct (arr_get_ok (bufs s) i) as [b ->]; [lia|done].
Qed.

(** The state after [set]. *)
Definition upd (s : bio) (i : Z) (f : buf -> buf) : bio :=
  with_bufs s (<[Z.to_nat i := f (B s i)]> (bufs s)).

Lemma set_upd s i f : sized s -> ptr i -> set s i f = Ok (upd s i f).
Proof.
  intros Hs Hi. unfold set. rewrite get_B by done. cbn [mbind res_bind]. unfold arr_set.
  unfold sized, ptr in *. destruct (Z.ltb_spec i 0), (Z.leb_spec (zlen (bufs s)) i); try lia.
  done.
Qed.

Lemma sized_upd s i f : sized s -> sized (upd s i f).
Proof. unfold sized, upd, zlen. cbn. by rewrite length_insert. Qed.

Lemma B_upd s i f j : sized s -> ptr i ->
  B (upd s i f) j = if decide (i = j) then f (B s i) else B s j.
Proof.
  intros Hs Hi. assert (Hl : 0 <= i < zlen (bufs s)) by (unfold sized, ptr in *; lia).
  apply (arr_set_ok _ _ (f (B s i))) in Hl. unfold B at 1, get.
  change (bufs (upd s i f)) with (<[Z.to_nat i := f (B s i)]> (bufs s)).
  rewrite (arr_get_set _ _ _ _ j Hl). destruct (Z.eqb_spec j i); case_decide; done || lia.
Qed.

#[export] Hint Resolve sized_upd : bio.

(** ** The doubly linked list *)

Fixpoint dll (nx pv : Z -> Z) (x : Z) (l : list Z) (y : Z) : Prop :=
  match l with
  | [] => nx x = y /\ pv y = x
  | z :: l => nx x = z /\ pv z = x /\ dll nx pv z l y
  end.

Lemma dll_app nx pv x l z k y :
  dll nx pv x (l ++ z :: k) y <-> dll nx pv x l z /\ dll nx pv z k y.
Proof. revert x. induction l as [|a l IH]; intros x; cbn; [|rewrite IH]; tauto. Qed.

Lemma dll_ext nx pv nx' pv' x l y :
  dll nx pv x l y ->
  (forall z, z ∈ x :: l -> nx' z = nx z) -> (forall z, z ∈ l ++ [y] -> pv' z = pv z) ->
  dll nx' pv' x l y.
Proof.
  revert x. induction l as [|a l IH]; cbn; intros x Hc Hn Hp.
  - rewrite Hn, Hp by set_solver. done.
  - destruct Hc as (? & ? & ?). rewrite Hn, Hp by (clear IH; set_solver).
    split_and!; [done|done|]. apply IH; clear IH; set_solver.
Qed.

(** The successor and the predecessor of an element. *)
Lemma dll_ends nx pv x l y : dll nx pv x l y ->
  (nx x) ∈ l ++ [y] /\ (pv y) ∈ x :: l.
Proof.
  revert x. induction l as [|a l IH]; cbn; intros x Hc.
  - destruct Hc as [-> ->]. set_solver.
  - destruct Hc as (-> & ? & [? ?]%IH). clear IH. set_solver.
Qed.

(** Membership in explicit lists; quantified hypotheses only mislead the solver. *)
Ltac apart :=
  repeat match goal with
  | H : ?a ∈ ?l, H' : ?b ∈ ?l -> False |- _ =>
    lazymatch goal with _ : a <> b |- _ => fail | _ => idtac end;
    assert (a <> b) by (intros ->; auto)
  end.
Ltac mem :=
  repeat match goal with H : forall _, _ |- _ => clear H end;
  do 3 rewrite ?elem_of_app, ?elem_of_cons, ?elem_of_nil in *; intuition (apart; congruence).

(** [b->next->prev = b->prev; b->prev->next = b->next;] *)
Lemma dll_unlink nx pv nx' pv' x l b k y :
  dll nx pv x (l ++ b :: k) y -> NoDup (x :: l ++ b :: k) -> NoDup (l ++ b :: k ++ [y]) ->
  (forall z, z <> b -> nx' z = if decide (z = pv b) then nx b else nx z) ->
  (forall z, z <> b -> pv' z = if decide (z = nx b) then pv b else pv z) ->
  dll nx' pv' x (l ++ k) y.
Proof.
  revert x. induction l as [|a l IH]; intros x Hc Hd1 Hd2 Hn Hp.
  - cbn [app] in *. destruct Hc as (Hx & Hb & Hk). apply NoDup_cons in Hd1 as [Hxk Hd1].
    destruct k as [|c k]; cbn [app dll] in *.
    + destruct Hk as [Hbn Hbp]. apply NoDup_cons in Hd2 as [Hy _].
      split; [rewrite Hn, decide_True by mem|rewrite Hp, decide_True by mem]; done.
    + destruct Hk as (Hbn & Hcp & Hk). apply NoDup_cons in Hd2 as [Hbk Hd2].
      apply NoDup_cons in Hd2 as [Hck Hd2].
      split_and!; [rewrite Hn, decide_True by mem; done
                  |rewrite Hp, decide_True by mem; done|].
      apply (dll_ext nx pv); [done| |]; intros z Hz.
      * rewrite Hn, decide_False by mem. done.
      * rewrite Hp, decide_False by mem. done.
  - cbn [app dll] in *. destruct Hc as (Hx & Ha & Hc).
    pose proof Hc as [Hl Hk]%dll_app.
    apply dll_ends in Hl as [_ Hpb]. apply dll_ends in Hk as [Hnb _].
    apply NoDup_cons in Hd1 as [Hxk Hd1]. apply NoDup_cons in Hd2 as [Hak Hd2].
    split_and!; [|rewrite Hp, decide_False by mem; done|by apply IH].
    rewrite Hn, decide_False by mem. done.
Qed.

(** [b] inserted between [x] and its successor. *)
Lemma dll_insert nx pv nx' pv' x l b y :
  dll nx pv x l y -> NoDup (x :: l) -> NoDup (l ++ [y]) -> b ∉ x :: l ++ [y] ->
  nx' b = nx x -> pv' b = x ->
  (forall z, z <> b -> nx' z = if decide (z = x) then b else nx z) ->
  (forall z, z <> b -> pv' z = if decide (z = nx x) then b else pv z) ->
  dll nx' pv' x (b :: l) y.
Proof.
  intros Hc Hd1 Hd2 Hb Hnb Hpb Hn Hp. cbn [dll].
  split_and!; [rewrite Hn, decide_True by mem; done|done|].
  destruct l as [|c l]; cbn [dll app] in *.
  - destruct Hc as [Hx Hy]. split; [congruence|].
    rewrite Hp, decide_True by mem. done.
  - destruct Hc as (Hx & Hcp & Hc). split_and!; [congruence| |].
    + rewrite Hp, decide_True by mem. done.
    + apply NoDup_cons in Hd1 as [? _], Hd2 as [? _].
      apply (dll_ext nx pv); [done| |]; intros z Hz.
      * rewrite Hn, decide_False by mem. done.
      * rewrite Hp, decide_False by mem. done.
Qed.

Definition nxt (s : bio) (i : Z) : Z := next (B s i).
Definition prv (s : bio) (i : Z) : Z := prev (B s i).

(** The list of all buffers, in some order. *)
Definition linked (s : bio) (l : list Z) : Prop :=
  dll (nxt s) (prv s) head l head /\ NoDup l /\ forall i, i ∈ l <-> inb i.

Lemma linked_length s l : linked s l -> (length l <= Z.to_nat NBUF)%nat.
Proof.
  intros (_ & Hd & Hl). replace (Z.to_nat NBUF) with (length (seqZ 0 NBUF)) by done.
  apply NoDup_Permutation with (k := seqZ 0 NBUF) in Hd; [by rewrite Hd|apply NoDup_seqZ|].
  intros i. rewrite Hl, elem_of_seqZ. unfold inb. lia.
Qed.

Lemma linked_ext s s' l :
  linked s l -> (forall i, ptr i -> nxt s' i = nxt s i /\ prv s' i = prv s i) -> linked s' l.
Proof.
  intros (Hc & Hd & Hl) He. split_and!; [|done|done].
  apply (dll_ext (nxt s) (prv s)); [done| |]; intros z Hz; apply He.
  - apply elem_of_cons in Hz as [->|Hz%Hl]; auto with bio.
  - apply elem_of_app in Hz as [Hz%Hl| ->%list_elem_of_singleton]; auto with bio.
Qed.

(** ** The two searches *)

Definition is_block (d n : Z) (v : buf) : bool := (dev v =? d) && (blockno v =? n).
Definition unused (v : buf) : bool := (refcnt v =? 0) && (Z.land (flags v) B_DIRTY =? 0).

Lemma find_block_dll fuel s d n x l :
  sized s -> dll (nxt s) (prv s) x l head -> (forall i, i ∈ l -> inb i) ->
  (length l < fuel)%nat ->
  (exists b, b ∈ l /\ is_block d n (B s b) = true /\
     find_block fuel s d n (nxt s x) = Ok (Some b)) \/
  (forall b, b ∈ l -> is_block d n (B s b) = false) /\
     find_block fuel s d n (nxt s x) = Ok None.
Proof.
  intros Hs. revert fuel x. induction l as [|a l IH]; intros [|fuel] x Hc Hl Hf;
    cbn [dll length] in *; try lia.
  - right. destruct Hc as [-> _]. cbn [find_block]. rewrite Z.eqb_refl. set_solver.
  - destruct Hc as (-> & _ & Hc). cbn [find_block].
    assert (Ha : inb a) by (clear IH; set_solver).
    rewrite (proj2 (Z.eqb_neq _ _)), get_B by eauto with bio. cbn [mbind res_bind].
    fold (is_block d n (B s a)). destruct (is_block d n (B s a)) eqn:Hb.
    + left. exists a. clear IH. set_solver.
    + destruct (IH fuel a Hc) as [(b & ? & ? & ?)|[? ?]];
        [clear IH; set_solver|lia| |]; clear IH.
      * left. exists b. set_solver.
      * right. set_solver.
Qed.

Lemma find_unused_dll fuel s l y :
  sized s -> dll (nxt s) (prv s) head l y -> (forall i, i ∈ l -> inb i) ->
  (length l < fuel)%nat ->
  (exists b, b ∈ l /\ unused (B s b) = true /\ find_unused fuel s (prv s y) = Ok (Some b)) \/
  (forall b, b ∈ l -> unused (B s b) = false) /\ find_unused fuel s (prv s y) = Ok None.
Proof.
  intros Hs. revert fuel y. induction l as [|a l IH] using rev_ind;
    intros [|fuel] y Hc Hl Hf; rewrite ?length_app in *; cbn [dll length] in *; try lia.
  - right. destruct Hc as [_ ->]. cbn [find_unused]. rewrite Z.eqb_refl. set_solver.
  - apply dll_app in Hc as [Hc [_ ->]]. cbn [find_unused].
    assert (Ha : inb a) by (clear IH; set_solver).
    rewrite (proj2 (Z.eqb_neq _ _)), get_B by eauto with bio. cbn [mbind res_bind].
    fold (unused (B s a)). destruct (unused (B s a)) eqn:Hb.
    + left. exists a. clear IH. set_solver.
    + destruct (IH fuel a Hc) as [(b & ? & ? & ?)|[? ?]];
        [clear IH; set_solver|lia| |]; clear IH.
      * left. exists b. set_solver.
      * right. set_solver.
Qed.

(** ** What the cache presents *)

(** [cur]: the contents of every block as a holder of its buffer sees it;
    [disk]: the contents on the disk; [held]: the buffers that are held, with
    their blocks; [pinned]: the blocks modified and not yet written; [trace]:
    the writes to the disk; [nblk]: the number of blocks. *)
Record view := {
  cur : Z -> list Z;
  disk : Z -> list Z;
  held : gmap Z Z;
  pinned : gset Z;
  trace : list (Z * list Z);
  nblk : Z;
}.

Definition fupd {A} (f : Z -> A) (b : Z) (a : A) (x : Z) : A := if decide (x = b) then a else f x.

Lemma fupd_eq {A} (f : Z -> A) b a : fupd f b a b = a.
Proof. unfold fupd. by rewrite decide_True. Qed.
Lemma fupd_ne {A} (f : Z -> A) b a x : x <> b -> fupd f b a x = f x.
Proof. intros H. unfold fupd. by rewrite decide_False. Qed.

Definition v_hold (h b : Z) (v : view) : view :=
  {| cur := cur v; disk := disk v; held := <[h := b]> (held v); pinned := pinned v;
     trace := trace v; nblk := nblk v |}.
Definition v_data (b : Z) (d : list Z) (v : view) : view :=
  {| cur := fupd (cur v) b d; disk := disk v; held := held v; pinned := pinned v;
     trace := trace v; nblk := nblk v |}.
Definition v_pin (b : Z) (v : view) : view :=
  {| cur := cur v; disk := disk v; held := held v; pinned := {[b]} ∪ pinned v;
     trace := trace v; nblk := nblk v |}.
Definition v_write (b : Z) (v : view) : view :=
  {| cur := cur v; disk := fupd (disk v) b (cur v b); held := held v;
     pinned := pinned v ∖ {[b]}; trace := trace v ++ [(b, cur v b)]; nblk := nblk v |}.
Definition v_release (h : Z) (v : view) : view :=
  {| cur := cur v; disk := disk v; held := delete h (held v); pinned := pinned v;
     trace := trace v; nblk := nblk v |}.

Definition in_use (v : view) (b : Z) : Prop := exists h, held v !! h = Some b.

(** The fields other than the links. *)
Definition strip (b : buf) : buf := with_prev (with_next b 0) 0.

Record brep (F : Z -> buf) (v : view) : Prop := {
  r_len : forall i, inb i -> zlen (data (F i)) = BSIZE;
  r_flags : forall i, inb i -> flags (F i) = 0 \/ flags (F i) = 2 \/ flags (F i) = 6;
  r_dev : forall i, inb i -> flags (F i) = 0 <-> dev (F i) <> 1;
  r_valid : forall i, inb i -> flags (F i) <> 0 ->
    0 <= blockno (F i) < nblk v /\ data (F i) = cur v (blockno (F i));
  r_uniq : forall i j, inb i -> inb j -> dev (F i) = 1 -> dev (F j) = 1 ->
    blockno (F i) = blockno (F j) -> i = j;
  r_held : forall i b, held v !! i = Some b ->
    inb i /\ dev (F i) = 1 /\ blockno (F i) = b /\ locked (lock (F i)) = 1 /\ refcnt (F i) = 1;
  r_free : forall i, inb i -> held v !! i = None ->
    locked (lock (F i)) = 0 /\ refcnt (F i) = 0;
  r_pin : forall b, b ∈ pinned v <-> exists i, inb i /\ flags (F i) = 6 /\ blockno (F i) = b;
  r_clean : forall b, 0 <= b < nblk v -> b ∉ pinned v -> ~ in_use v b -> cur v b = disk v b;
}.

Lemma r_dev1 F v i : brep F v -> inb i -> flags (F i) <> 0 -> dev (F i) = 1.
Proof.
  intros Hr Hi Hf. destruct (Z.eq_dec (dev (F i)) 1) as [|Hd]; [done|].
  by apply (r_dev _ _ Hr) in Hd.
Qed.

Lemma r_pinned F v i b : brep F v -> b ∈ pinned v -> inb i -> dev (F i) = 1 ->
  blockno (F i) = b -> flags (F i) = 6.
Proof.
  intros Hr (j & Hj & H6 & Hb)%(r_pin _ _ Hr) Hi Hd Hib.
  assert (i = j) as ->; [|done]. apply (r_uniq _ _ Hr); try done; [|congruence].
  apply (r_dev1 _ v); [done|done|lia].
Qed.

(** The bytes of a block of the disk. *)
Definition blk (m : list Z) (b : Z) : list Z :=
  take (Z.to_nat BSIZE) (drop (Z.to_nat (b * BSIZE)) m).

Record drep (s : bio) (v : view) : Prop := {
  d_nblk : disksize s = nblk v /\ 0 <= nblk v /\ nblk v * BSIZE < 2 ^ 32;
  d_mem : nblk v * BSIZE <= zlen (memdisk s);
  d_disk : forall b, 0 <= b < nblk v -> disk v b = blk (memdisk s) b;
  d_trace : writes s = trace v;
  d_valid : Forall (fun w => 0 <= w.1 < nblk v /\ zlen w.2 = BSIZE) (trace v);
  d_size : zlen (memdisk s) < 2 ^ 32 /\ nblk v = zlen (memdisk s) / BSIZE;
}.

Definition rep (s : bio) (v : view) : Prop :=
  sized s /\ (exists l, linked s l) /\ brep (B s) v /\ drep s v.

Ltac other H :=
  let E1 := fresh in let E2 := fresh in let E3 := fresh in
  let E4 := fresh in let E5 := fresh in let E6 := fresh in
  destruct H as (E1 & E2 & E3 & E4 & E5 & E6); rewrite ?E1, ?E2, ?E3, ?E4, ?E5, ?E6.

(** A step that changes one buffer [h], which then is the buffer of block [b]. *)
Lemma brep_step F v G v' h b :
  brep F v -> inb h ->
  (forall j, inb j -> j <> h -> strip (G j) = strip (F j)) ->
  nblk v' = nblk v -> 0 <= b < nblk v ->
  (forall x, x <> b -> cur v' x = cur v x /\ disk v' x = disk v x) ->
  (forall j, j <> h -> held v' !! j = held v !! j) ->
  (forall x, x ∈ pinned v' <-> (x <> b /\ x ∈ pinned v) \/ (x = b /\ flags (G h) = 6)) ->
  (forall j, inb j -> j <> h -> dev (F j) = 1 -> blockno (F j) <> b) ->
  held v !! h = None \/ held v !! h = Some b ->
  (flags (F h) = 6 -> blockno (F h) = b) ->
  zlen (data (G h)) = BSIZE -> flags (G h) = 2 \/ flags (G h) = 6 -> dev (G h) = 1 ->
  blockno (G h) = b -> data (G h) = cur v' b ->
  match held v' !! h with
  | Some x => x = b /\ locked (lock (G h)) = 1 /\ refcnt (G h) = 1
  | None => locked (lock (G h)) = 0 /\ refcnt (G h) = 0
  end ->
  (flags (G h) = 2 -> held v' !! h = None -> cur v' b = disk v' b) ->
  brep G v'.
Proof.
  intros HF Hh Hother Hn Hb Hcd Hheld Hpin Huniq Hhb Hfb Hlen Hfl Hdev Hbn Hdata Hst Hcl.
  assert (Hf : forall j, inb j -> j <> h -> flags (G j) = flags (F j) /\ dev (G j) = dev (F j) /\
    blockno (G j) = blockno (F j) /\ lock (G j) = lock (F j) /\ refcnt (G j) = refcnt (F j) /\
    data (G j) = data (F j)).
  { intros j Hj Hjh. specialize (Hother j Hj Hjh). unfold strip in Hother.
    destruct (G j), (F j). cbn in *. by simplify_eq. }
  pose proof HF as [Rl Rf Rd Rv Ru Rh Rn Rp Rc]. constructor.
  - intros i Hi. destruct (decide (i = h)) as [->|Hih]; [done|].
    other (Hf i Hi Hih). auto.
  - intros i Hi. destruct (decide (i = h)) as [->|Hih]; [tauto|].
    other (Hf i Hi Hih). auto.
  - intros i Hi. destruct (decide (i = h)) as [->|Hih]; [rewrite Hdev; lia|].
    other (Hf i Hi Hih). auto.
  - intros i Hi. rewrite Hn. destruct (decide (i = h)) as [->|Hih]; [by rewrite Hbn|].
    other (Hf i Hi Hih). intros Hfi.
    destruct (Rv i Hi Hfi) as [? ->]. split; [done|].
    destruct (Hcd (blockno (F i))) as [-> _]; [|done]. apply Huniq; [done|done|].
    by apply (r_dev1 _ v).
  - intros i j Hi Hj. destruct (decide (i = h)) as [->|Hih], (decide (j = h)) as [->|Hjh];
      [done| | |].
    + destruct (Hf j Hj Hjh) as (_ & -> & -> & _). rewrite Hbn. intros _ Hd Hx.
      by destruct (Huniq j Hj Hjh Hd).
    + destruct (Hf i Hi Hih) as (_ & -> & -> & _). rewrite Hbn. intros Hd _ Hx.
      by destruct (Huniq i Hi Hih Hd).
    + destruct (Hf i Hi Hih) as (_ & -> & -> & _), (Hf j Hj Hjh) as (_ & -> & -> & _). auto.
  - intros i x Hix. destruct (decide (i = h)) as [->|Hih].
    + rewrite Hix in Hst. destruct Hst as (-> & ? & ?). done.
    + rewrite Hheld in Hix by done. destruct (Rh i x Hix) as (Hi & ?).
      other (Hf i Hi Hih). done.
  - intros i Hi Hix. destruct (decide (i = h)) as [->|Hih]; [by rewrite Hix in Hst|].
    rewrite Hheld in Hix by done.
    other (Hf i Hi Hih). auto.
  - intros x. rewrite Hpin. split.
    + intros [[Hx (i & Hi & Hi6 & Hix)%Rp]|[-> H6]]; [|eauto].
      exists i. destruct (decide (i = h)) as [->|Hih]; [by rewrite Hfb in Hix|].
      destruct (Hf i Hi Hih) as (-> & _ & -> & _). done.
    + intros (i & Hi & Hi6 & Hix). destruct (decide (i = h)) as [->|Hih]; [right; split; congruence|].
      destruct (Hf i Hi Hih) as (Hfi & Hdi & Hbi & _). left. split.
      * rewrite <- Hix, Hbi. apply Huniq; [done|done|].
        apply (r_dev1 _ v); [done|done|lia].
      * apply Rp. exists i. rewrite <- Hfi, <- Hbi. done.
  - intros x Hx Hnp Hnu. rewrite Hn in Hx. destruct (decide (x = b)) as [->|Hxb].
    + apply Hcl; [destruct Hfl as [|Hfl]; [done|]; destruct Hnp; apply Hpin; auto|].
      destruct (held v' !! h) as [y|] eqn:Hy; [|done]. destruct Hst as [-> _].
      destruct Hnu. by exists h.
    + destruct (Hcd x Hxb) as [-> ->]. apply Rc; [done|set_solver|].
      intros [j Hj]. destruct (decide (j = h)) as [->|Hjh]; [destruct Hhb; congruence|].
      apply Hnu. exists j. by rewrite Hheld.
Qed.

(** ** The disk *)

Lemma arr_read_blk m b :
  0 <= b -> (b + 1) * BSIZE <= zlen m -> arr_read m (b * BSIZE) BSIZE = Ok (blk m b).
Proof.
  intros H0 Hb. unfold arr_read, BSIZE in *.
  destruct (Z.ltb_spec (b * 512) 0), (Z.ltb_spec 512 0), (Z.ltb_spec (zlen m) (b * 512 + 512));
    done || lia.
Qed.

Lemma zlen_blk m b : 0 <= b -> (b + 1) * BSIZE <= zlen m -> zlen (blk m b) = BSIZE.
Proof.
  unfold blk, zlen, BSIZE. intros H0 Hb. rewrite length_take, length_drop. lia.
Qed.

Lemma arr_write_blk m b d :
  0 <= b -> (b + 1) * BSIZE <= zlen m -> zlen d = BSIZE ->
  exists m', arr_write m (b * BSIZE) d = Ok m' /\ zlen m' = zlen m /\
    forall x, 0 <= x -> blk m' x = if decide (x = b) then d else blk m x.
Proof.
  intros H0 Hb Hd. unfold arr_write.
  destruct (Z.ltb_spec (b * BSIZE) 0), (Z.ltb_spec (zlen m) (b * BSIZE + zlen d));
    try (unfold BSIZE in *; lia).
  eexists. split; [done|]. unfold zlen, blk, BSIZE in *. split.
  { rewrite !length_app, length_take, length_drop. lia. }
  intros x Hx. case_decide as Hxb.
  - subst x. rewrite drop_app_ge by (rewrite length_take; lia).
    rewrite length_take, Nat.min_l, Nat.sub_diag, drop_0 by lia. apply take_app_length'. lia.
  - destruct (Z.lt_ge_cases x b).
    + rewrite drop_app_le by (rewrite length_take; lia).
      rewrite take_app_le by (rewrite length_drop, length_take; lia).
      rewrite !take_drop_commute, take_take. do 2 f_equal. lia.
    + rewrite drop_app_ge by (rewrite length_take; lia). rewrite length_take, Nat.min_l by lia.
      rewrite drop_app_ge by lia. rewrite drop_drop. do 2 f_equal. lia.
Qed.

(** ** Single-buffer updates *)

Definition keeps_links (f : buf -> buf) : Prop :=
  forall x, next (f x) = next x /\ prev (f x) = prev x.

Lemma linked_upd s h f l :
  sized s -> ptr h -> keeps_links f -> linked s l -> linked (upd s h f) l.
Proof.
  intros Hs Hh Hf Hl. apply (linked_ext s); [done|]. intros i Hi.
  unfold nxt, prv. rewrite B_upd by done. case_decide; [subst; apply Hf|done].
Qed.

Lemma upd_upd s h f g : sized s -> ptr h -> upd (upd s h f) h g = upd s h (fun x => g (f x)).
Proof.
  intros Hs Hh. unfold upd at 1. rewrite B_upd, decide_True by done.
  unfold upd. cbn. by rewrite list_insert_insert_eq.
Qed.

Lemma drep_bufs s v v' l :
  drep s v -> nblk v' = nblk v -> disk v' = disk v -> trace v' = trace v ->
  drep (with_bufs s l) v'.
Proof. intros [] Hn Hd Ht. constructor; cbn; rewrite ?Hn, ?Hd, ?Ht; done. Qed.

(** A change of the buffer [h] of block [b] by its holder. *)
Lemma brep_held s v h b f v' m :
  rep s v -> held v !! h = Some b -> 
  m = B (upd s h f) ->
  (forall x, dev (f x) = dev x /\ blockno (f x) = blockno x /\ lock (f x) = lock x /\
     refcnt (f x) = refcnt x) ->
  nblk v' = nblk v -> held v' = held v ->
  (forall x, x <> b -> cur v' x = cur v x /\ disk v' x = disk v x) ->
  (forall x, x ∈ pinned v' <-> (x <> b /\ x ∈ pinned v) \/ (x = b /\ flags (f (B s h)) = 6)) ->
  zlen (data (f (B s h))) = BSIZE -> flags (f (B s h)) = 2 \/ flags (f (B s h)) = 6 ->
  data (f (B s h)) = cur v' b ->
  brep m v'.
Proof.
  intros (Hs & _ & Hr & _) Hh -> Hf Hn Hhd Hcd Hp Hl Hfl Hd.
  destruct (r_held _ _ Hr h b Hh) as (Hi & Hdev & Hbn & Hlk & Hrc).
  assert (HB : B (upd s h f) h = f (B s h)) by (rewrite B_upd, decide_True; auto with bio).
  destruct (Hf (B s h)) as (Hf1 & Hf2 & Hf3 & Hf4).
  apply (brep_step (B s) v _ v' h b); rewrite ?HB; try done.
  - intros j Hj Hjh. rewrite B_upd, decide_False by auto with bio. done.
  - rewrite <- Hbn. apply (r_valid _ _ Hr h Hi). rewrite (r_dev _ _ Hr h Hi). lia.
  - intros j _. by rewrite Hhd.
  - intros j Hj Hjh Hdj Heq. apply Hjh. apply (r_uniq _ _ Hr); congruence.
  - by right.
  - congruence.
  - congruence.
  - rewrite Hhd, Hh. split_and!; congruence.
  - rewrite Hhd, Hh. done.
Qed.

(** ** The operations on a held buffer *)

Lemma rep_flags s v h b : rep s v -> held v !! h = Some b ->
  inb h /\ (flags (B s h) = 2 \/ flags (B s h) = 6) /\ 0 <= b < nblk v /\
  data (B s h) = cur v b /\ zlen (cur v b) = BSIZE /\ (flags (B s h) = 6 <-> b ∈ pinned v).
Proof.
  intros (_ & _ & Hr & _) Hh. destruct (r_held _ _ Hr h b Hh) as (Hi & Hdev & Hbn & _).
  assert (Hf : flags (B s h) <> 0) by (rewrite (r_dev _ _ Hr h Hi); lia).
  destruct (r_valid _ _ Hr h Hi Hf) as [Hb Hd]. rewrite Hbn in *.
  split; [done|split; [|split; [done|split; [done|split]]]].
  - destruct (r_flags _ _ Hr h Hi); tauto.
  - rewrite <- Hd. by apply (r_len _ _ Hr).
  - split; [rewrite (r_pin _ _ Hr); eauto|]. intros Hp. by apply (r_pinned _ v _ b).
Qed.

Lemma rep_get s v h b : rep s v -> held v !! h = Some b ->
  get s h = Ok (B s h) /\ data (B s h) = cur v b /\ blockno (B s h) = b /\ zlen (cur v b) = BSIZE.
Proof.
  intros Hr Hh. pose proof (rep_flags _ _ _ _ Hr Hh) as (Hi & _ & _ & ? & ? & _).
  destruct Hr as (Hs & _ & Hr & _). destruct (r_held _ _ Hr h b Hh) as (_ & _ & ? & _).
  rewrite get_B by auto with bio. done.
Qed.

Lemma rep_set_data s v h b d : rep s v -> held v !! h = Some b -> zlen d = BSIZE ->
  exists s', set s h (fun x => with_data x d) = Ok s' /\ rep s' (v_data b d v).
Proof.
  intros Hr Hh Hd. pose proof (rep_flags _ _ _ _ Hr Hh) as (Hi & Hfl & _ & _ & _ & Hp).
  pose proof Hr as (Hs & [l Hl] & _ & Hdr). exists (upd s h (fun x => with_data x d)).
  split; [apply set_upd; auto with bio|]. split_and!; auto with bio.
  - exists l. by apply linked_upd; auto with bio.
  - eapply (brep_held s v h b _ _ _ Hr Hh eq_refl); cbn; try done.
    + intros x Hx. by rewrite fupd_ne.
    + intros x. destruct (decide (x = b)) as [->|]; tauto.
    + by rewrite fupd_eq.
  - by apply (drep_bufs s v).
Qed.

(** [b->flags |= B_DIRTY] *)
Lemma rep_pin s v h b : rep s v -> held v !! h = Some b ->
  exists s', set s h (fun x => with_flags x (Z.lor (flags x) B_DIRTY)) = Ok s' /\
    rep s' (v_pin b v).
Proof.
  intros Hr Hh. pose proof (rep_flags _ _ _ _ Hr Hh) as (Hi & Hfl & _ & Hdt & Hlen & Hp).
  pose proof Hr as (Hs & [l Hl] & _ & Hdr).
  exists (upd s h (fun x => with_flags x (Z.lor (flags x) B_DIRTY))).
  assert (H6 : Z.lor (flags (B s h)) B_DIRTY = 6) by (by destruct Hfl as [-> | ->]).
  split; [apply set_upd; auto with bio|]. split_and!; auto with bio.
  - exists l. by apply linked_upd; auto with bio.
  - eapply (brep_held s v h b _ _ _ Hr Hh eq_refl); cbn; rewrite ?H6, ?Hdt; try done; [|by right].
    intros x. destruct (decide (x = b)) as [->|]; set_solver.
  - by apply (drep_bufs s v).
Qed.

(** [iderw] writes a dirty buffer and reads one that is not valid. *)
Lemma iderw_write s h b :
  sized s -> inb h -> locked (lock (B s h)) = 1 -> flags (B s h) = 6 -> dev (B s h) = 1 ->
  blockno (B s h) = b -> 0 <= b < disksize s -> disksize s * BSIZE < 2 ^ 32 ->
  disksize s * BSIZE <= zlen (memdisk s) -> zlen (data (B s h)) = BSIZE ->
  exists m, iderw s h = Ok {| bufs := bufs (upd s h (fun x => with_flags x 2)); memdisk := m;
      disksize := disksize s; writes := writes s ++ [(b, data (B s h))] |} /\
    zlen m = zlen (memdisk s) /\
    forall x, 0 <= x -> blk m x = if decide (x = b) then data (B s h) else blk (memdisk s) x.
Proof.
  intros Hs Hi Hlk Hfl Hdev Hbn Hb Hn Hm Hd.
  unfold iderw, holdingsleep. rewrite get_B by auto with bio. cbn [mbind res_bind].
  rewrite Hlk, Hfl, Hdev, Hbn.
  change (Z.land 6 (Z.lor B_VALID B_DIRTY) =? B_VALID) with false.
  change (Z.land 6 B_DIRTY =? 0) with false. cbn [Z.eqb negb Pos.eqb].
  rewrite !u32_small by (unfold BSIZE in *; lia).
  destruct (Z.leb_spec (disksize s) b); [lia|].
  rewrite set_upd by auto with bio. cbn [mbind res_bind].
  destruct (arr_write_blk (memdisk s) b (data (B s h))) as (m & Hw & Hml & Hblk);
    [lia|unfold BSIZE in *; nia|done|].
  cbn [upd with_bufs memdisk]. rewrite Hw. cbn [mbind res_bind].
  exists m. split; [|done]. rewrite set_upd; [|by apply (sized_upd s)|auto with bio].
  set (f := fun v => with_flags v (Z.land (flags v) (Z.lnot B_DIRTY))).
  match goal with |- context [upd ?s2 h ?g] => change (upd s2 h g) with
    (let u := upd (upd s h f) h g in {| bufs := bufs u; memdisk := m; disksize := disksize s;
       writes := writes s ++ [(b, data (B s h))] |}) end.
  rewrite upd_upd by auto with bio. unfold upd, f. cbn. by rewrite Hfl.
Qed.

Lemma iderw_read s h b :
  sized s -> inb h -> locked (lock (B s h)) = 1 -> flags (B s h) = 0 -> dev (B s h) = 1 ->
  blockno (B s h) = b -> 0 <= b < disksize s -> disksize s * BSIZE < 2 ^ 32 ->
  disksize s * BSIZE <= zlen (memdisk s) ->
  iderw s h = Ok (upd s h (fun x => with_flags (with_data x (blk (memdisk s) b)) 2)).
Proof.
  intros Hs Hi Hlk Hfl Hdev Hbn Hb Hn Hm.
  unfold iderw, holdingsleep. rewrite get_B by auto with bio. cbn [mbind res_bind].
  rewrite Hlk, Hfl, Hdev, Hbn. cbn [Z.land Z.lor Z.eqb negb Pos.eqb B_VALID].
  rewrite !u32_small by (unfold BSIZE in *; lia).
  destruct (Z.leb_spec (disksize s) b); [lia|].
  rewrite arr_read_blk by (unfold BSIZE in *; nia). cbn [mbind res_bind].
  rewrite !set_upd by auto with bio. cbn [mbind res_bind].
  rewrite set_upd, upd_upd by auto with bio. unfold upd. cbn. by rewrite Hfl.
Qed.

Lemma rep_bwrite s v h b : rep s v -> held v !! h = Some b ->
  exists s', bwrite s h = Ok s' /\ rep s' (v_write b v).
Proof.
  intros Hr Hh. pose proof (rep_flags _ _ _ _ Hr Hh) as (Hi & Hfl & Hb & Hdt & Hlen & Hp).
  pose proof Hr as (Hs & [l Hl] & Hbr & [(Hn & Hn0 & Hnb) Hm Hdk Htr Htv Hzs]).
  destruct (r_held _ _ Hbr h b Hh) as (_ & Hdev & Hbn & Hlk & _).
  unfold bwrite, holdingsleep. rewrite get_B by auto with bio. cbn [mbind res_bind].
  rewrite Hlk. cbn [Z.eqb]. rewrite set_upd by auto with bio. cbn [mbind res_bind].
  set (f1 := fun x => with_flags x (Z.lor (flags x) B_DIRTY)).
  assert (HB : B (upd s h f1) h = f1 (B s h)) by (rewrite B_upd, decide_True; auto with bio).
  assert (H6 : Z.lor (flags (B s h)) B_DIRTY = 6) by (by destruct Hfl as [-> | ->]).
  destruct (iderw_write (upd s h f1) h b) as (m & -> & Hml & Hblk);
    try (rewrite ?HB; cbn; rewrite ?Hn, ?Hdt; auto with bio; done). rewrite HB in *.
  eexists. split; [done|]. rewrite upd_upd by auto with bio.
  set (f := fun x => with_flags (f1 x) 2).
  split_and!; [by apply (sized_upd s)| | |].
  - exists l. apply (linked_ext (upd s h f)); [|done]. by apply linked_upd; auto with bio.
  - eapply (brep_held s v h b f _ _ Hr Hh eq_refl); cbn; rewrite ?Hdt; try done; [| |by left].
    + intros x Hx. by rewrite fupd_ne.
    + intros x. destruct (decide (x = b)) as [->|]; set_solver.
  - constructor; cbn; [done|by rewrite Hml| |by rewrite Htr, Hdt
      |apply Forall_app; split; [done|by apply Forall_singleton]|by rewrite Hml].
    intros x Hx. rewrite Hblk by lia. cbn. rewrite Hdt. unfold fupd. case_decide; [done|]. by apply Hdk.
Qed.

(** ** Releasing a buffer *)

(** Nothing but the links has changed. *)
Definition relinked (s s' : bio) : Prop :=
  sized s' /\ (forall j, strip (B s' j) = strip (B s j)) /\ s' = with_bufs s (bufs s').

Lemma relinked_upd s s' h f :
  relinked s s' -> ptr h -> (forall x, strip (f x) = strip x) -> relinked s (upd s' h f).
Proof.
  intros (Hs' & Hst & He) Hh Hf. split_and!; [auto with bio| |by rewrite He].
  intros j. rewrite B_upd by done. case_decide as Hd; [|done]. rewrite Hf, <- Hd. done.
Qed.

Lemma relinked_refl s : sized s -> relinked s s.
Proof. intros Hs. split_and!; [done|done|by destruct s]. Qed.

Lemma strip_prev p x : strip (with_prev x p) = strip x.
Proof. done. Qed.
Lemma strip_next p x : strip (with_next x p) = strip x.
Proof. done. Qed.
#[export] Hint Resolve relinked_upd relinked_refl strip_prev strip_next : bio.

(** [h] taken out of the list: the rest of it is still linked. *)
Lemma unlink_ok s h l k :
  sized s -> linked s (l ++ h :: k) ->
  exists s', unlink s h = Ok s' /\ relinked s s' /\
    dll (nxt s') (prv s') head (l ++ k) head.
Proof.
  intros Hs (Hc & Hd & Hin). pose proof Hc as [Hcl Hck]%dll_app.
  assert (Hh : inb h) by (apply Hin; mem).
  apply dll_ends in Hcl as [_ Hp], Hck as [Hn _].
  assert (Hhd : head ∉ l ++ h :: k) by (intros Hx%Hin; by apply inb_head in Hx).
  assert (Hpp : ptr (prv s h) /\ prv s h <> h).
  { apply elem_of_cons in Hp as [-> | Hp]; [split; auto with bio; intros <-; mem|].
    split; [apply inb_ptr, Hin; mem|]. intros Heq. rewrite Heq in Hp.
    apply NoDup_app in Hd as (_ & Hd & _). apply (Hd h Hp). mem. }
  assert (Hnp : ptr (nxt s h) /\ nxt s h <> h).
  { apply elem_of_app in Hn as [Hn| Hn%list_elem_of_singleton].
    - split; [apply inb_ptr, Hin; mem|]. intros Heq. rewrite Heq in Hn.
      apply NoDup_app in Hd as (_ & _ & [Hd _]%NoDup_cons). done.
    - rewrite Hn. split; auto with bio. intros <-. mem. }
  destruct Hpp as [Hpp Hph], Hnp as [Hnp Hnh].
  unfold unlink. rewrite get_B by auto with bio. cbn [mbind res_bind].
  fold (nxt s h) (prv s h). rewrite set_upd by done. cbn [mbind res_bind].
  rewrite get_B by auto with bio. cbn [mbind res_bind]. rewrite B_upd, decide_False by done.
  fold (nxt s h) (prv s h). rewrite set_upd by auto with bio. eexists. split; [done|].
  split; [auto with bio|]. apply (dll_unlink (nxt s) (prv s) _ _ _ _ h _ _ Hc).
  - by apply NoDup_cons.
  - rewrite (app_comm_cons k), app_assoc. apply NoDup_app. split_and!; [done| |apply NoDup_singleton].
    intros z Hz ->%list_elem_of_singleton. done.
  - intros z Hz. unfold nxt at 1. rewrite !B_upd by auto with bio.
    repeat case_decide; subst; done || congruence.
  - intros z Hz. unfold prv at 1. rewrite !B_upd by auto with bio.
    repeat case_decide; subst; done || congruence.
Qed.

Lemma to_front_ok s h l :
  sized s -> inb h -> dll (nxt s) (prv s) head l head -> NoDup (h :: l) ->
  (forall i, i ∈ l -> inb i) ->
  exists s', to_front s h = Ok s' /\ relinked s s' /\
    dll (nxt s') (prv s') head (h :: l) head.
Proof.
  intros Hs Hh Hc [Hhl Hd]%NoDup_cons Hin.
  assert (Hhd : head ∉ l) by (intros Hx%Hin; by apply inb_head in Hx).
  pose proof (inb_head h Hh) as Hne.
  pose proof Hc as [Hn _]%dll_ends.
  assert (Hnp : ptr (nxt s head) /\ nxt s head <> h).
  { apply elem_of_app in Hn as [Hn| ->%list_elem_of_singleton]; [|auto with bio].
    split; [auto with bio|]. by intros <-. }
  destruct Hnp as [Hnp Hnh]. unfold to_front. rewrite get_B by auto with bio.
  cbn [mbind res_bind]. fold (nxt s head).
  do 3 (rewrite set_upd by auto with bio; cbn [mbind res_bind]).
  rewrite set_upd by auto with bio. eexists. split; [done|]. split; [auto 10 with bio|].
  apply (dll_insert (nxt s) (prv s)); [done|by apply NoDup_cons| | | | | |].
  - apply NoDup_app. split_and!; [done| |apply NoDup_singleton].
    intros z Hz ->%list_elem_of_singleton. done.
  - mem.
  - unfold nxt at 1. rewrite !B_upd by auto with bio. repeat case_decide; subst; done.
  - unfold prv at 1. rewrite !B_upd by auto with bio. repeat case_decide; subst; done.
  - intros z Hz. unfold nxt at 1. rewrite !B_upd by auto with bio.
    repeat case_decide; subst; done || congruence.
  - intros z Hz. unfold prv at 1. rewrite !B_upd by auto with bio.
    repeat case_decide; subst; done || congruence.
Qed.

Lemma strip_fields x y : strip x = strip y ->
  flags x = flags y /\ dev x = dev y /\ blockno x = blockno y /\ lock x = lock y /\
  refcnt x = refcnt y /\ data x = data y.
Proof. destruct x, y. cbn. intros [=]. by subst. Qed.

Lemma rep_brelse s v h b : rep s v -> held v !! h = Some b ->
  b ∈ pinned v \/ cur v b = disk v b ->
  exists s', brelse s h = Ok s' /\ rep s' (v_release h v).
Proof.
  intros Hr Hh Hcl. pose proof (rep_flags _ _ _ _ Hr Hh) as (Hi & Hfl & Hb & Hdt & Hlen & Hp).
  pose proof Hr as (Hs & [l Hl] & Hbr & Hdr).
  destruct (r_held _ _ Hbr h b Hh) as (_ & Hdev & Hbn & Hlk & Hrc).
  unfold brelse, holdingsleep. rewrite get_B by auto with bio. cbn [mbind res_bind].
  rewrite Hlk. cbn [Z.eqb]. unfold releasesleep. rewrite set_upd by auto with bio.
  cbn [mbind res_bind]. rewrite set_upd, upd_upd by auto with bio. cbn [mbind res_bind].
  set (f := fun x => with_refcnt _ _).
  assert (HB : B (upd s h f) h = f (B s h)) by (rewrite B_upd, decide_True; auto with bio).
  rewrite get_B, HB by auto with bio. cbn [mbind res_bind].
  assert (Hz : refcnt (f (B s h)) = 0) by (cbn; by rewrite Hrc). rewrite Hz. cbn [Z.eqb].
  assert (Hl1 : linked (upd s h f) l) by (apply linked_upd; auto with bio; done).
  destruct (list_elem_of_split l h) as (l1 & l2 & ->); [by apply Hl|].
  destruct (unlink_ok _ _ _ _ (sized_upd s h f Hs) Hl1) as (s2 & -> & (Hs2 & Hst2 & He2) & Hc2).
  cbn [mbind res_bind]. destruct Hl1 as (_ & Hd & Hin).
  assert (Hd' : NoDup (h :: l1 ++ l2)) by (by rewrite Permutation_middle).
  destruct (to_front_ok s2 h (l1 ++ l2)) as (s3 & -> & (Hs3 & Hst3 & He3) & Hc3); [done..| |].
  { intros i Hx. apply Hin. mem. }
  exists s3. split; [done|]. split_and!; [done| | |].
  - exists (h :: l1 ++ l2). split_and!; [done|done|]. intros i. rewrite <- Hin. mem.
  - assert (Hst : forall j, strip (B s3 j) = strip (B (upd s h f) j)) by (intros; by rewrite Hst3).
    pose proof (Hst h) as Hsh. rewrite HB in Hsh.
    apply strip_fields in Hsh as (E1 & E2 & E3 & E4 & E5 & E6).
    apply (brep_step (B s) v _ _ h b); cbn; rewrite ?E1, ?E2, ?E3, ?E4, ?E5, ?E6; try done.
    + intros j Hj Hjh. rewrite Hst, B_upd, decide_False by auto with bio. done.
    + intros j Hjh. by rewrite lookup_delete_ne.
    + intros x. destruct (decide (x = b)) as [->|]; cbn; tauto.
    + intros j Hj Hjh Hdj Heq. apply Hjh. apply (r_uniq _ _ Hbr); congruence.
    + by right.
    + cbn. by rewrite Hdt.
    + rewrite lookup_delete_eq. done.
    + cbn. intros H2 _. destruct Hcl as [Hx%Hp|]; [lia|done].
  - rewrite He3, He2. by apply (drep_bufs s v).
Qed.

(** ** Getting a buffer *)

(** Some buffer can be recycled unless every one is held or pinned. *)
Lemma unused_exists s v :
  brep (B s) v -> Z.of_nat (size (pinned v) + size (held v)) < NBUF ->
  exists i, inb i /\ unused (B s i) = true.
Proof.
  intros Hr Hsz. destruct (decide (Exists (fun i => unused (B s i) = true) (seqZ 0 NBUF))) as [He|Hn].
  { apply Exists_exists in He as (i & Hi%elem_of_seqZ & Hu). exists i. unfold inb. split; [lia|done]. }
  exfalso. apply not_Exists_Forall in Hn; [|intros x; apply _]. rewrite Forall_forall in Hn.
  set (hs := filter (fun i => is_Some (held v !! i)) (seqZ 0 NBUF)).
  set (fs := filter (fun i => ~ is_Some (held v !! i)) (seqZ 0 NBUF)).
  assert (Hlen : length (seqZ 0 NBUF) = (length hs + length fs)%nat).
  { rewrite <- length_app. apply Permutation_length. unfold hs, fs. by rewrite filter_app_complement. }
  assert (Hhs : (length hs <= size (held v))%nat).
  { rewrite <- size_dom, <- (size_list_to_set (C := gset Z) hs) by apply NoDup_filter, NoDup_seqZ.
    apply subseteq_size. intros i Hi%elem_of_list_to_set%list_elem_of_filter.
    apply elem_of_dom. tauto. }
  assert (Hfs : (length fs <= size (pinned v))%nat).
  { assert (Hin : forall i, i ∈ fs -> inb i /\ flags (B s i) = 6).
    { intros i [Hh Hi]%list_elem_of_filter. specialize (Hn i Hi). apply elem_of_seqZ in Hi.
      assert (Hb : inb i) by (unfold inb; lia). split; [done|].
      apply eq_None_not_Some in Hh. destruct (r_free _ _ Hr i Hb Hh) as [_ Hrc].
      unfold compose, unused in Hn. rewrite Hrc in Hn. cbn in Hn.
      by destruct (r_flags _ _ Hr i Hb) as [E|[E|E]]; rewrite E in Hn. }
    rewrite <- (length_fmap (fun i => blockno (B s i))).
    rewrite <- (size_list_to_set (C := gset Z)).
    - apply subseteq_size. intros b Hb%elem_of_list_to_set%list_elem_of_fmap.
      destruct Hb as (i & -> & [? ?]%Hin). apply (r_pin _ _ Hr). eauto.
    - apply NoDup_fmap_2_strong; [|apply NoDup_filter, NoDup_seqZ].
      intros i j [Hi Hi6]%Hin [Hj Hj6]%Hin Heq.
      apply (r_uniq _ _ Hr); try done; apply (r_dev1 _ v); done || lia. }
  rewrite length_seqZ in Hlen. unfold NBUF, MAXOPBLOCKS in *. lia.
Qed.

Lemma acquiresleep_ok p s h :
  sized s -> inb h -> locked (lock (B s h)) = 0 ->
  acquiresleep p s h = Ok (upd s h (fun x => with_lock x {| locked := 1; pid := p |})).
Proof.
  intros Hs Hh Hl. unfold acquiresleep. rewrite get_B by auto with bio. cbn [mbind res_bind].
  rewrite Hl. by apply set_upd; auto with bio.
Qed.

(** [h], the buffer of block [b] and not held, becomes held. *)
Lemma rep_hold s v h b f :
  rep s v -> inb h -> held v !! h = None -> ~ in_use v b -> 0 <= b < nblk v ->
  keeps_links f ->
  (forall j, inb j -> j <> h -> dev (B s j) = 1 -> blockno (B s j) <> b) ->
  (flags (B s h) = 6 -> blockno (B s h) = b) ->
  (flags (f (B s h)) = 6 <-> b ∈ pinned v) ->
  flags (f (B s h)) = 2 \/ flags (f (B s h)) = 6 -> dev (f (B s h)) = 1 ->
  blockno (f (B s h)) = b -> data (f (B s h)) = cur v b -> zlen (data (f (B s h))) = BSIZE ->
  locked (lock (f (B s h))) = 1 -> refcnt (f (B s h)) = 1 ->
  rep (upd s h f) (v_hold h b v).
Proof.
  intros (Hs & [l Hl] & Hbr & Hdr) Hi Hh Hnu Hb Hk Hu H6 Hp Hfl Hdev Hbn Hd Hlen Hlk Hrc.
  assert (HB : B (upd s h f) h = f (B s h)) by (rewrite B_upd, decide_True; auto with bio).
  split_and!; [auto with bio| | |by apply (drep_bufs s v)].
  - exists l. apply linked_upd; auto with bio.
  - apply (brep_step (B s) v _ _ h b); rewrite ?HB; try done.
    + intros j Hj Hjh. rewrite B_upd, decide_False by auto with bio. done.
    + intros j Hjh. cbn. by rewrite lookup_insert_ne.
    + intros x. cbn. destruct (decide (x = b)) as [->|]; tauto.
    + by left.
    + cbn. by rewrite lookup_insert_eq.
    + cbn. by rewrite lookup_insert_eq.
Qed.

Lemma is_block_true d n x : is_block d n x = true <-> dev x = d /\ blockno x = n.
Proof. unfold is_block. rewrite andb_true_iff, !Z.eqb_eq. done. Qed.

Lemma is_block_false d n x : is_block d n x = false <-> ~ (dev x = d /\ blockno x = n).
Proof. rewrite <- is_block_true. by destruct (is_block d n x). Qed.

Lemma unused_true x : unused x = true <-> refcnt x = 0 /\ Z.land (flags x) B_DIRTY = 0.
Proof. unfold unused. by rewrite andb_true_iff, !Z.eqb_eq. Qed.

Definition room (v : view) (b : Z) : Prop :=
  b ∈ pinned v \/ Z.of_nat (size (pinned v) + size (held v)) < NBUF.

(** The block is cached. *)
Lemma bread_hit p s v h b :
  rep s v -> inb h -> is_block 1 b (B s h) = true -> ~ in_use v b ->
  find_block bget_fuel s 1 b (nxt s head) = Ok (Some h) ->
  exists s', bread p s 1 b = Ok (h, s') /\ held v !! h = None /\ rep s' (v_hold h b v).
Proof.
  intros Hr Hi [Hdev Hbn]%is_block_true Hnu Hf. pose proof Hr as (Hs & _ & Hbr & _).
  assert (Hh : held v !! h = None).
  { destruct (held v !! h) as [x|] eqn:Hx; [|done]. destruct Hnu. exists h.
    destruct (r_held _ _ Hbr h x Hx) as (_ & _ & <- & _). by rewrite Hx, Hbn. }
  destruct (r_free _ _ Hbr h Hi Hh) as [Hlk Hrc].
  assert (H0 : flags (B s h) <> 0) by (intros ?%(r_dev _ _ Hbr); done).
  destruct (r_valid _ _ Hbr h Hi H0) as [Hb Hd]. rewrite Hbn in *.
  unfold bread, bget. rewrite get_B by auto with bio. cbn [mbind res_bind].
  fold (nxt s head). rewrite Hf. cbn [mbind res_bind].
  rewrite set_upd by auto with bio. cbn [mbind res_bind].
  rewrite acquiresleep_ok, upd_upd;
    [|auto with bio..|rewrite B_upd, decide_True by auto with bio; done].
  cbn [mbind res_bind]. set (f := fun x => with_lock _ _).
  assert (HB : B (upd s h f) h = f (B s h)) by (rewrite B_upd, decide_True; auto with bio).
  rewrite get_B, HB by auto with bio. cbn [mbind res_bind].
  assert (Hv : Z.land (flags (f (B s h))) B_VALID =? 0 = false).
  { cbn. destruct (r_flags _ _ Hbr h Hi) as [|[-> | ->]]; done. }
  rewrite Hv. eexists. split; [done|]. split; [done|].
  apply rep_hold; try done; cbn.
  - intros j Hj Hjh Hdj Heq. apply Hjh, (r_uniq _ _ Hbr); congruence.
  - split; [rewrite (r_pin _ _ Hbr); eauto|]. intros Hp. by apply (r_pinned _ v _ b).
  - destruct (r_flags _ _ Hbr h Hi) as [|[-> | ->]]; auto; done.
  - by apply (r_len _ _ Hbr).
  - by rewrite Hrc.
Qed.

(** The block is not cached: an unused buffer is recycled. *)
Lemma bread_miss p s v h b :
  rep s v -> inb h -> unused (B s h) = true -> ~ in_use v b -> 0 <= b < nblk v ->
  (forall j, inb j -> is_block 1 b (B s j) = false) ->
  find_block bget_fuel s 1 b (nxt s head) = Ok None ->
  find_unused bget_fuel s (prv s head) = Ok (Some h) ->
  exists s', bread p s 1 b = Ok (h, s') /\ held v !! h = None /\ rep s' (v_hold h b v).
Proof.
  intros Hr Hi [Hrc Hdy]%unused_true Hnu Hb Hnb Hf1 Hf2.
  pose proof Hr as (Hs & _ & Hbr & [(Hn & Hn0 & Hnn) Hm Hdk Htr _ _]).
  assert (Hh : held v !! h = None).
  { destruct (held v !! h) as [x|] eqn:Hx; [|done].
    destruct (r_held _ _ Hbr h x Hx) as (_ & _ & _ & _ & Hr1). lia. }
  destruct (r_free _ _ Hbr h Hi Hh) as [Hlk _].
  assert (Hnc : forall j, inb j -> dev (B s j) = 1 -> blockno (B s j) <> b).
  { intros j Hj Hd Hx. specialize (Hnb j Hj). apply is_block_false in Hnb. auto. }
  assert (Hnp : b ∉ pinned v).
  { rewrite (r_pin _ _ Hbr). intros (j & Hj & H6 & Hx). apply (Hnc j); [done| |done].
    apply (r_dev1 _ v); done || lia. }
  unfold bread, bget. rewrite !get_B by auto with bio. cbn [mbind res_bind].
  fold (nxt s head) (prv s head). rewrite Hf1. cbn [mbind res_bind]. rewrite Hf2. cbn [mbind res_bind].
  rewrite set_upd by auto with bio. cbn [mbind res_bind].
  rewrite acquiresleep_ok, upd_upd;
    [|auto with bio..|rewrite B_upd, decide_True by auto with bio; done].
  cbn [mbind res_bind]. set (f := fun x => with_lock _ _).
  assert (HB : B (upd s h f) h = f (B s h)) by (rewrite B_upd, decide_True; auto with bio).
  rewrite get_B, HB by auto with bio. cbn [mbind res_bind f with_lock with_refcnt with_flags flags].
  cbn [Z.land Z.eqb].
  rewrite (iderw_read _ _ b); rewrite ?HB; auto with bio; try done; [|cbn; lia..].
  cbn [mbind res_bind]. rewrite upd_upd by auto with bio. eexists. split; [done|]. split; [done|].
  assert (Hdb : blk (memdisk s) b = cur v b).
  { rewrite <- Hdk by done. symmetry. by apply (r_clean _ _ Hbr). }
  apply rep_hold; try done; cbn.
  - intros j Hj _. by apply Hnc.
  - intros H6. rewrite H6 in Hdy. done.
  - by left.
  - apply zlen_blk; [lia|]. unfold BSIZE in *. nia.
Qed.

(** The block is not cached and every buffer is in use. *)
Lemma bread_full p s b :
  sized s -> find_block bget_fuel s 1 b (nxt s head) = Ok None ->
  find_unused bget_fuel s (prv s head) = Ok None ->
  bread p s 1 b = Fault (Panic "bget: no buffers").
Proof.
  intros Hs Hf1 Hf2. unfold bread, bget. rewrite !get_B by auto with bio. cbn [mbind res_bind].
  fold (nxt s head) (prv s head). rewrite Hf1. cbn [mbind res_bind]. by rewrite Hf2.
Qed.

(** [bread] succeeds when there is room, and panics only for want of a buffer. *)
Lemma rep_bread_or_full p s v b :
  rep s v -> 0 <= b < nblk v -> ~ in_use v b ->
  (exists h s', bread p s 1 b = Ok (h, s') /\ held v !! h = None /\ rep s' (v_hold h b v)) \/
  (~ room v b /\ bread p s 1 b = Fault (Panic "bget: no buffers")).
Proof.
  intros Hr Hb Hnu. pose proof Hr as (Hs & [l Hl] & Hbr & _).
  pose proof (linked_length _ _ Hl) as Hlen. destruct Hl as (Hc & Hd & Hin).
  assert (Hlt : (length l < bget_fuel)%nat) by (unfold bget_fuel; lia).
  destruct (find_block_dll bget_fuel s 1 b head l) as [(h & Hh%Hin & Hbk & Hf)|[Hno Hf]];
    [done|done|intros; by apply Hin|done| |].
  { left. exists h. by apply bread_hit. }
  assert (Hno' : forall j, inb j -> is_block 1 b (B s j) = false) by (intros j Hj; by apply Hno, Hin).
  destruct (find_unused_dll bget_fuel s l head) as [(h & Hh%Hin & Hu & Hf2)|[Hnone Hf2]];
    [done|done|intros; by apply Hin|done| |].
  { left. exists h. by apply bread_miss. }
  right. split; [|exact (bread_full p s b Hs Hf Hf2)]. clear Hf Hf2. intros [Hp|Hroom].
  - apply (r_pin _ _ Hbr) in Hp as (i & Hi & H6 & Hx). specialize (Hno' i Hi).
    apply is_block_false in Hno'. apply Hno'. split; [|done]. apply (r_dev1 _ v); done || lia.
  - destruct (unused_exists s v Hbr Hroom) as (i & Hi%Hin & Hu). by rewrite Hnone in Hu.
Qed.

Lemma rep_bread p s v b :
  rep s v -> 0 <= b < nblk v -> ~ in_use v b -> room v b ->
  exists h s', bread p s 1 b = Ok (h, s') /\ held v !! h = None /\ rep s' (v_hold h b v).
Proof.
  intros Hr Hb Hnu Hroom. by destruct (rep_bread_or_full p s v b Hr Hb Hnu) as [|[? _]].
Qed.

(** ** The cache after boot *)

Definition boot_view (img : list Z) : view :=
  {| cur := blk img; disk := blk img; held := ∅; pinned := ∅; trace := [];
     nblk := zlen img / BSIZE |}.

Lemma rep_ideinit s img :
  zlen img < 2 ^ 32 -> sized s -> (exists l, linked s l) ->
  (forall i, inb i -> strip (B s i) = buf0) -> rep (ideinit s img) (boot_view img).
Proof.
  intros Hlen Hs Hl Hst. pose proof (zlen_nonneg img) as H0.
  assert (Hn : u32 (zlen img) = zlen img) by (apply u32_small; lia).
  assert (Hdiv : zlen img / BSIZE * BSIZE <= zlen img).
  { pose proof (Z.mul_div_le (zlen img) BSIZE ltac:(done)). lia. }
  assert (Hx : forall i, inb i -> flags (B s i) = 0 /\ dev (B s i) = 0 /\
    lock (B s i) = initsleeplock /\ refcnt (B s i) = 0 /\ zlen (data (B s i)) = BSIZE).
  { intros i Hi. destruct (strip_fields (B s i) buf0) as (-> & -> & _ & -> & -> & ->);
      [by rewrite (Hst i Hi)|done]. }
  split_and!; [exact Hs|exact Hl| |].
  - change (B (ideinit s img)) with (B s). constructor; cbn.
    1-4: intros i Hi; destruct (Hx i Hi) as (E1 & E2 & E3 & E4 & E5); rewrite ?E1, ?E2; auto; done.
    + intros i j Hi _ Hd. destruct (Hx i Hi) as (_ & E2 & _). lia.
    + intros i b Hi. by rewrite lookup_empty in Hi.
    + intros i Hi _. destruct (Hx i Hi) as (_ & _ & -> & -> & _). done.
    + intros b. split; [set_solver|]. intros (i & Hi & H6 & _).
      destruct (Hx i Hi) as (E1 & _). lia.
    + done.
  - constructor; cbn -[Z.div]; rewrite ?Hn; [|done|done|done|done|done].
    split_and!; [done|apply Z.div_pos; unfold BSIZE; lia|lia].
Qed.

Lemma binit_ok : exists s, binit bio0 = Ok s /\ sized s /\
  dll (nxt s) (prv s) head (reverse (seqZ 0 NBUF)) head /\
  Forall (fun i => strip (B s i) = buf0) (seqZ 0 NBUF).
Proof.
  exists (match binit bio0 with Ok s => s | _ => bio0 end).
  split_and!; [by vm_compute|by vm_compute|vm_compute; split_and!; done|].
  apply (bool_decide_unpack _). by vm_compute.
Qed.

Lemma rep_boot img : zlen img < 2 ^ 32 ->
  exists s, bio_boot img = Ok s /\ rep s (boot_view img).
Proof.
  intros Hlen. destruct binit_ok as (s & Hb & Hs & Hc & HF). unfold bio_boot. rewrite Hb.
  cbn [mbind res_bind]. eexists. split; [done|]. apply rep_ideinit; [done|done| |].
  - exists (reverse (seqZ 0 NBUF)). split_and!; [done| |].
    { rewrite reverse_Permutation. apply NoDup_seqZ. }
    intros i. rewrite elem_of_reverse, elem_of_seqZ. unfold inb. lia.
  - rewrite Forall_forall in HF. intros i Hi. apply HF, elem_of_seqZ. unfold inb in Hi. lia.
Qed.

(** C28. The buffer cache implements its abstract view: from a represented
    state, [bread] of a block that nobody holds succeeds when a buffer can be
    found for it and returns a locked buffer with the block's current contents;
    the holder can change the contents, [bwrite] puts them on the disk and
    records exactly this write, and [brelse] gives the buffer back when the
    contents are on the disk or pinned.  Nothing else changes: no operation
    loses the contents of another block. *)
Theorem cache_refines p s v : rep s v ->
  (forall b, 0 <= b < nblk v -> ~ in_use v b -> room v b ->
     exists h s', bread p s 1 b = Ok (h, s') /\ held v !! h = None /\
       data (B s' h) = cur v b /\ rep s' (v_hold h b v)) /\
  (forall h b, held v !! h = Some b ->
     (forall x, zlen x = BSIZE ->
        exists s', set s h (fun y => with_data y x) = Ok s' /\ rep s' (v_data b x v)) /\
     (exists s', bwrite s h = Ok s' /\ rep s' (v_write b v)) /\
     (b ∈ pinned v \/ cur v b = disk v b ->
        exists s', brelse s h = Ok s' /\ rep s' (v_release h v))).
Proof.
  intros Hr. split.
  - intros b Hb Hu Hroom. destruct (rep_bread p s v b Hr Hb Hu Hroom) as (h & s' & E & Hh & Hr').
    exists h, s'. split_and!; try done.
    apply (rep_get s' (v_hold h b v) h b Hr'). cbn. by rewrite lookup_insert_eq.
  - intros h b Hh. split_and!.
    + intros x Hx. by apply rep_set_data.
    + by apply rep_bwrite.
    + intros Hc. by eapply rep_brelse.
Qed.

Lemma cache_refines_witness : exists s, bio_boot (replicate 1024 0) = Ok s /\
  exists h s', bread 1 s 1 1 = Ok (h, s') /\ data (B s' h) = blk (replicate 1024 0) 1.
Proof.
  destruct (rep_boot (replicate 1024 0)) as (s & Hs & Hr); [by vm_compute|].
  exists s. split; [exact Hs|]. clear Hs.
  destruct (proj1 (cache_refines 1 s _ Hr) 1) as (h & s' & E & _ & Hd & _).
  - by vm_compute.
  - intros [h Hh]. cbn [boot_view held] in Hh. by rewrite lookup_empty in Hh.
  - right. by vm_compute.
  - exists h, s'. split; [exact E|exact Hd].
Defined.
