(* ===== verification/State.v ===== *)
(** * Stateful C code: a state and error monad with total-correctness triples

    [ST S A] is code that reads and changes a state [S] and ends with a value,
    returns an error or faults.  [hoare P m Q]: from every state of [P], [m]
    ends normally, with a value and a state of [Q]. *)

From stdpp Require Import base list.
From Stdlib Require Import ZArith Lia.
From S2P Require Import Prelude.

Definition ST (S A : Type) : Type := S -> res (A * S).

#[export] Instance st_ret {S} : MRet (ST S) := fun A a s => Ok (a, s).
#[export] Instance st_bind {S} : MBind (ST S) := fun A B f m s =>
  match m s with
  | Ok (a, s) => f a s
  | Err => Err
  | Fault e => Fault e
  end.

Section st.
Context {S : Type}.

Definition gets {A} (f : S -> A) : ST S A := fun s => Ok (f s, s).
Definition modify (f : S -> S) : ST S unit := fun s => Ok ((), f s).
Definition fault {A} (e : fault) : ST S A := fun _ => Fault e.
Definition fail {A} : ST S A := fun _ => Err.
(** Code that does not touch the state. *)
Definition pure {A} (m : res A) : ST S A := fun s => a ← m; Ok (a, s).

Definition hoare {A} (P : S -> Prop) (m : ST S A) (Q : A -> S -> Prop) : Prop :=
  forall s, P s -> exists a s', m s = Ok (a, s') /\ Q a s'.

Lemma hoare_ret {A} (P : S -> Prop) (a : A) : hoare P (mret a) (fun x s => x = a /\ P s).
Proof. intros s Hs. exists a, s. done. Qed.

Lemma hoare_conseq {A} (P P' : S -> Prop) (m : ST S A) (Q Q' : A -> S -> Prop) :
  hoare P m Q -> (forall s, P' s -> P s) -> (forall a s, Q a s -> Q' a s) -> hoare P' m Q'.
Proof. intros Hm HP HQ s Hs. destruct (Hm s (HP s Hs)) as (a & s' & ? & ?). eauto. Qed.

Lemma hoare_post {A} (P : S -> Prop) (m : ST S A) (Q Q' : A -> S -> Prop) :
  hoare P m Q -> (forall a s, Q a s -> Q' a s) -> hoare P m Q'.
Proof. intros Hm HQ. by apply (hoare_conseq P P m Q Q'). Qed.

Lemma hoare_bind {A B} (P : S -> Prop) (m : ST S A) (k : A -> ST S B) Q R :
  hoare P m Q -> (forall a, hoare (Q a) (k a) R) -> hoare P (m ≫= k) R.
Proof.
  intros Hm Hk s Hs. destruct (Hm s Hs) as (a & s1 & E & H1).
  destruct (Hk a s1 H1) as (b & s2 & E2 & H2). exists b, s2.
  split; [|done]. unfold mbind, st_bind. by rewrite E.
Qed.

Lemma hoare_pure {A} (P : S -> Prop) (m : res A) a : m = Ok a ->
  hoare P (pure m) (fun x s => x = a /\ P s).
Proof. intros -> s Hs. exists a, s. done. Qed.

Lemma hoare_gets {A} (P : S -> Prop) (f : S -> A) :
  hoare P (gets f) (fun x s => x = f s /\ P s).
Proof. intros s Hs. exists (f s), s. done. Qed.

Lemma hoare_modify (P : S -> Prop) (f : S -> S) (Q : unit -> S -> Prop) :
  (forall s, P s -> Q () (f s)) -> hoare P (modify f) Q.
Proof. intros H s Hs. exists (), (f s). split; [done|]. by apply H. Qed.

(** A logical variable of the precondition. *)
Lemma hoare_ex {A X} (P : X -> S -> Prop) (m : ST S A) Q :
  (forall x, hoare (P x) m Q) -> hoare (fun s => exists x, P x s) m Q.
Proof. intros H s (x & Hx). by apply (H x). Qed.

Lemma hoare_and {A} (p : Prop) (P : S -> Prop) (m : ST S A) Q :
  (p -> hoare P m Q) -> hoare (fun s => p /\ P s) m Q.
Proof. intros H s (Hp & Hs). by apply H. Qed.

Lemma bind_ST_Ok {A B} (m : ST S A) (k : A -> ST S B) s b s' :
  (m ≫= k) s = Ok (b, s') <-> exists a s1, m s = Ok (a, s1) /\ k a s1 = Ok (b, s').
Proof.
  unfold mbind, st_bind. split.
  - destruct (m s) as [[a s1]| |]; [eauto|done..].
  - intros (a & s1 & -> & H). done.
Qed.

Lemma bind_run {A B} (m : ST S A) (k : A -> ST S B) s a s1 :
  m s = Ok (a, s1) -> (m ≫= k) s = k a s1.
Proof. unfold mbind, st_bind. by intros ->. Qed.

Lemma bind_run_fault {A B} (m : ST S A) (k : A -> ST S B) s e :
  m s = Fault e -> (m ≫= k) s = Fault e.
Proof. unfold mbind, st_bind. by intros ->. Qed.

End st.

(** [hoareX E P m Q]: as [hoare], but [m] may also stop with a fault of [E]. *)
Definition hoareX {S A} (E : Prelude.fault -> Prop) (P : S -> Prop) (m : ST S A)
    (Q : A -> S -> Prop) : Prop :=
  forall s, P s -> match m s with Ok (a, s') => Q a s' | Err => False | Fault e => E e end.

Section excused.
Context {S : Type} (E : Prelude.fault -> Prop).

Lemma hoareX_total {A} (P : S -> Prop) (m : ST S A) Q : hoare P m Q -> hoareX E P m Q.
Proof. intros H s Hs. by destruct (H s Hs) as (a & s' & -> & ?). Qed.

Lemma hoareX_ret {A} (P : A -> S -> Prop) (a : A) : hoareX E (P a) (mret a) P.
Proof. intros s Hs. done. Qed.

Lemma hoareX_conseq {A} (P P' : S -> Prop) (m : ST S A) (Q Q' : A -> S -> Prop) :
  hoareX E P m Q -> (forall s, P' s -> P s) -> (forall a s, Q a s -> Q' a s) -> hoareX E P' m Q'.
Proof.
  intros Hm HP HQ s Hs. specialize (Hm s (HP s Hs)). destruct (m s) as [[a s']| |]; auto.
Qed.

Lemma hoareX_post {A} (P : S -> Prop) (m : ST S A) (Q Q' : A -> S -> Prop) :
  hoareX E P m Q -> (forall a s, Q a s -> Q' a s) -> hoareX E P m Q'.
Proof. intros Hm HQ. by apply (hoareX_conseq P P m Q Q'). Qed.

Lemma hoareX_bind {A B} (P : S -> Prop) (m : ST S A) (k : A -> ST S B) Q R :
  hoareX E P m Q -> (forall a, hoareX E (Q a) (k a) R) -> hoareX E P (m ≫= k) R.
Proof.
  intros Hm Hk s Hs. specialize (Hm s Hs). unfold mbind, st_bind.
  destruct (m s) as [[a s1]| |]; [|done..]. by apply Hk.
Qed.

Lemma hoareX_seq {A B} (P : S -> Prop) (m : ST S A) (k : A -> ST S B) (p : A -> Prop)
    (Q : A -> S -> Prop) R :
  hoareX E P m (fun a s => p a /\ Q a s) -> (forall a, p a -> hoareX E (Q a) (k a) R) ->
  hoareX E P (m ≫= k) R.
Proof. intros Hm Hk. apply (hoareX_bind _ _ _ _ _ Hm). intros a s [Hp Hq]. by apply Hk. Qed.

Lemma hoareX_fault {A} (P : S -> Prop) e (Q : A -> S -> Prop) : E e -> hoareX E P (fault e) Q.
Proof. intros He s _. done. Qed.

Lemma hoareX_pure {A} (P : S -> Prop) (m : res A) a : m = Ok a ->
  hoareX E P (pure m) (fun x s => x = a /\ P s).
Proof. intros Hm. by apply hoareX_total, hoare_pure. Qed.

Lemma hoareX_ex {A X} (P : X -> S -> Prop) (m : ST S A) Q :
  (forall x, hoareX E (P x) m Q) -> hoareX E (fun s => exists x, P x s) m Q.
Proof. intros H s (x & Hx). by apply (H x). Qed.

Lemma hoareX_and {A} (p : Prop) (P : S -> Prop) (m : ST S A) Q :
  (p -> hoareX E P m Q) -> hoareX E (fun s => p /\ P s) m Q.
Proof. intros H s (Hp & Hs). by apply H. Qed.

End excused.

(** [fun v => hoare (at v) ..] chains: the next command runs from the state the
    last one left. *)
Lemma hoare_seq {S A B} (P : S -> Prop) (m : ST S A) (k : A -> ST S B) (p : A -> Prop)
    (Q : A -> S -> Prop) R :
  hoare P m (fun a s => p a /\ Q a s) -> (forall a, p a -> hoare (Q a) (k a) R) ->
  hoare P (m ≫= k) R.
Proof.
  intros Hm Hk. apply (hoare_bind _ _ _ _ _ Hm). intros a. apply hoare_and. auto.
Qed.
