(* ===== verification/Log.v ===== *)
(** * The write-ahead log (log.c)

    The state is the buffer cache of Bio.v and [struct log].  [log.lock] is
    taken and given back inside every operation; [begin_op] waits on other
    processes where it is [Blocked].  Integers keep their C types: block
    numbers are [int] in the header and [uint] in the cache. *)

From stdpp Require Import base list strings.
From Stdlib Require Import ZArith Lia.
From S2P Require Import Prelude State Bio.

(** [block] is the array of [LOGSIZE] entries of the in-memory header, [n] the
    number in use. *)
Record log := {
  start : Z;
  size : Z;
  outstanding : Z;
  committing : Z;
  log_dev : Z;
  lh_n : Z;
  lh_block : list Z;
}.

Definition with_lh_n (l : log) n := {| start := start l; size := size l;
  outstanding := outstanding l; committing := committing l; log_dev := log_dev l;
  lh_n := n; lh_block := lh_block l |}.
Definition with_lh_block (l : log) b := {| start := start l; size := size l;
  outstanding := outstanding l; committing := committing l; log_dev := log_dev l;
  lh_n := lh_n l; lh_block := b |}.
Definition with_outstanding (l : log) o := {| start := start l; size := size l;
  outstanding := o; committing := committing l; log_dev := log_dev l;
  lh_n := lh_n l; lh_block := lh_block l |}.
Definition with_committing (l : log) c := {| start := start l; size := size l;
  outstanding := outstanding l; committing := c; log_dev := log_dev l;
  lh_n := lh_n l; lh_block := lh_block l |}.
Definition with_place (l : log) st sz dv := {| start := st; size := sz;
  outstanding := outstanding l; committing := committing l; log_dev := dv;
  lh_n := lh_n l; lh_block := lh_block l |}.

Record dsk := { dlog : log; dbio : bio }.
Definition with_log (d : dsk) l := {| dlog := l; dbio := dbio d |}.

Definition log0 : log := {| start := 0; size := 0; outstanding := 0; committing := 0;
  log_dev := 0; lh_n := 0; lh_block := replicate (Z.to_nat LOGSIZE) 0 |}.

(** ** The cache, as the file system uses it *)

Definition on_bio {A} (f : bio -> res (A * bio)) : ST dsk A := fun d =>
  '(a, b) ← f (dbio d); Ok (a, {| dlog := dlog d; dbio := b |}).
Definition on_bio_ (f : bio -> res bio) : ST dsk unit :=
  on_bio (fun b => b ← f b; Ok ((), b)).
Definition log_upd (f : log -> log) : ST dsk unit := modify (fun d => with_log d (f (dlog d))).

(** [b->data], [b->blockno], and a store to [b->data]. *)
Definition buf_data (h : Z) : ST dsk (list Z) := on_bio (fun s => v ← get s h; Ok (data v, s)).
Definition buf_block (h : Z) : ST dsk Z := on_bio (fun s => v ← get s h; Ok (blockno v, s)).
Definition buf_store (h : Z) (d : list Z) : ST dsk unit :=
  on_bio_ (fun s => set s h (fun v => with_data v d)).

(** An [int] of a block, at a byte offset. *)
Definition rd32 (d : list Z) (off : Z) : res Z :=
  bs ← arr_read d off 4; Ok (s32 (le_value bs)).
Definition wr32 (d : list Z) (off v : Z) : res (list Z) := arr_write d off (le_bytes 4 v).

(** ** The super block (fs.h, [readsb] of fs.c) *)

Record superblock := {
  sb_size : Z;
  nblocks : Z;
  ninodes : Z;
  nlog : Z;
  logstart : Z;
  inodestart : Z;
  bmapstart : Z;
}.

Definition superblock_of (d : list Z) : res superblock :=
  a ← rd32 d 0; b ← rd32 d 4; c ← rd32 d 8; e ← rd32 d 12; f ← rd32 d 16;
  g ← rd32 d 20; h ← rd32 d 24;
  Ok {| sb_size := u32 a; nblocks := u32 b; ninodes := u32 c; nlog := u32 e;
        logstart := u32 f; inodestart := u32 g; bmapstart := u32 h |}.

Section log.
(** [myproc()->pid]. *)
Variable mypid : Z.

Definition dbread (d n : Z) : ST dsk Z := on_bio (fun s => bread mypid s (u32 d) (u32 n)).
Definition dbwrite (h : Z) : ST dsk unit := on_bio_ (fun s => bwrite s h).
Definition dbrelse (h : Z) : ST dsk unit := on_bio_ (fun s => brelse s h).

Definition readsb (d : Z) : ST dsk superblock :=
  bp ← dbread d 1;
  x ← buf_data bp;
  sb ← pure (superblock_of x);
  _ ← dbrelse bp;
  mret sb.

(** ** Recovery and commit *)

(** [for (tail = 0; tail < log.lh.n; tail++)] with [n] turns left. *)
Fixpoint for_tail (body : Z -> ST dsk unit) (n : nat) (tail : Z) : ST dsk unit :=
  match n with
  | O => mret ()
  | S n => _ ← body tail; for_tail body n (tail + 1)
  end.

Definition install_one (tail : Z) : ST dsk unit :=
  l ← gets dlog;
  lbuf ← dbread (log_dev l) (start l + tail + 1);
  b ← pure (arr_get (lh_block l) tail);
  dbuf ← dbread (log_dev l) b;
  x ← buf_data lbuf;
  _ ← buf_store dbuf x;
  _ ← dbwrite dbuf;
  _ ← dbrelse lbuf;
  dbrelse dbuf.

Definition install_trans : ST dsk unit :=
  l ← gets dlog; for_tail install_one (Z.to_nat (lh_n l)) 0.

Fixpoint read_blocks (n : nat) (i : Z) (d : list Z) (bs : list Z) : res (list Z) :=
  match n with
  | O => Ok bs
  | S n => b ← rd32 d (4 + 4 * i); bs ← arr_set bs i b; read_blocks n (i + 1) d bs
  end.

Definition read_head : ST dsk unit :=
  l ← gets dlog;
  b ← dbread (log_dev l) (start l);
  d ← buf_data b;
  n ← pure (rd32 d 0);
  bs ← pure (read_blocks (Z.to_nat n) 0 d (lh_block l));
  _ ← log_upd (fun l => with_lh_block (with_lh_n l n) bs);
  dbrelse b.

Fixpoint write_blocks (n : nat) (i : Z) (bs : list Z) (d : list Z) : res (list Z) :=
  match n with
  | O => Ok d
  | S n => b ← arr_get bs i; d ← wr32 d (4 + 4 * i) b; write_blocks n (i + 1) bs d
  end.

Definition write_head : ST dsk unit :=
  l ← gets dlog;
  b ← dbread (log_dev l) (start l);
  d ← buf_data b;
  d ← pure (wr32 d 0 (lh_n l));
  d ← pure (write_blocks (Z.to_nat (lh_n l)) 0 (lh_block l) d);
  _ ← buf_store b d;
  _ ← dbwrite b;
  dbrelse b.

Definition recover_from_log : ST dsk unit :=
  _ ← read_head;
  _ ← install_trans;
  _ ← log_upd (fun l => with_lh_n l 0);
  write_head.

Definition initlog (d : Z) : ST dsk unit :=
  sb ← readsb d;
  _ ← log_upd (fun l => with_place l (s32 (logstart sb)) (s32 (nlog sb)) d);
  recover_from_log.

Definition write_log_one (tail : Z) : ST dsk unit :=
  l ← gets dlog;
  to ← dbread (log_dev l) (start l + tail + 1);
  b ← pure (arr_get (lh_block l) tail);
  from ← dbread (log_dev l) b;
  x ← buf_data from;
  _ ← buf_store to x;
  _ ← dbwrite to;
  _ ← dbrelse from;
  dbrelse to.

Definition write_log : ST dsk unit :=
  l ← gets dlog; for_tail write_log_one (Z.to_nat (lh_n l)) 0.

Definition commit : ST dsk unit :=
  l ← gets dlog;
  if 0 <? lh_n l then
    _ ← write_log;
    _ ← write_head;
    _ ← install_trans;
    _ ← log_upd (fun l => with_lh_n l 0);
    write_head
  else mret ().

(** ** Transactions *)

(** One turn of the loop of [begin_op]; where the source sleeps, [Blocked]. *)
Definition begin_op : ST dsk unit :=
  l ← gets dlog;
  if negb (committing l =? 0) then fault Blocked
  else if LOGSIZE <? lh_n l + (outstanding l + 1) * MAXOPBLOCKS then fault Blocked
  else log_upd (fun l => with_outstanding l (outstanding l + 1)).

Definition end_op : ST dsk unit :=
  _ ← log_upd (fun l => with_outstanding l (outstanding l - 1));
  l ← gets dlog;
  if negb (committing l =? 0) then fault (Panic "log.committing")
  else if outstanding l =? 0 then
    _ ← log_upd (fun l => with_committing l 1);
    _ ← commit;
    log_upd (fun l => with_committing l 0)
  else mret ().

(** [for (i = 0; i < log.lh.n; i++) if (log.lh.block[i] == b->blockno) break;] *)
Fixpoint absorb (n : nat) (i : Z) (bs : list Z) (bno : Z) : res Z :=
  match n with
  | O => Ok i
  | S n => b ← arr_get bs i; if u32 b =? bno then Ok i else absorb n (i + 1) bs bno
  end.

Definition log_write (b : Z) : ST dsk unit :=
  l ← gets dlog;
  if (LOGSIZE <=? lh_n l) || (size l - 1 <=? lh_n l)
  then fault (Panic "too big a transaction")
  else if outstanding l <? 1 then fault (Panic "log_write outside of trans")
  else
    bno ← buf_block b;
    i ← pure (absorb (Z.to_nat (lh_n l)) 0 (lh_block l) bno);
    bs ← pure (arr_set (lh_block l) i (s32 bno));
    _ ← log_upd (fun l => with_lh_block l bs);
    _ ← (if i =? lh_n l then log_upd (fun l => with_lh_n l (lh_n l + 1)) else mret ());
    on_bio_ (fun s => set s b (fun v => with_flags v (Z.lor (flags v) B_DIRTY))).

End log.
