(* ===== verification/LogProofs.v ===== *)
(** * The log makes a transaction atomic with respect to crashes

    Everything is proved from the specification of the cache in BioProofs.v:
    what [commit] and recovery write to the disk, in which order, and that
    after a crash at any point, and any number of crashes during recovery, the
    file system holds either all of the transaction's blocks or none. *)

From stdpp Require Import base list strings gmap sets.
From Stdlib Require Import ZArith Lia.
From S2P Require Import Prelude State Bio BioProofs Log.

(** ** Integers in a block *)

Lemma arr_read_ok {A} (l : list A) i n :
  0 <= i -> 0 <= n -> i + n <= zlen l ->
  arr_read l i n = Ok (take (Z.to_nat n) (drop (Z.to_nat i) l)).
Proof.
  intros Hi Hn Hl. unfold arr_read.
  destruct (Z.ltb_spec i 0), (Z.ltb_spec n 0), (Z.ltb_spec (zlen l) (i + n)); done || lia.
Qed.

Lemma arr_write_ok {A} (l : list A) i bs :
  0 <= i -> i + zlen bs <= zlen l -> exists l', arr_write l i bs = Ok l' /\ zlen l' = zlen l.
Proof.
  intros Hi Hl. eexists. split; [by apply arr_write_Ok|].
  eapply arr_write_len. by apply arr_write_Ok.
Qed.

Lemma arr_read_write {A} (l : list A) i bs l' :
  arr_write l i bs = Ok l' -> arr_read l' i (zlen bs) = Ok bs.
Proof.
  intros Hw. pose proof (arr_write_len _ _ _ _ Hw) as Hlen.
  apply arr_write_Ok in Hw as (Hi & Hb & ->).
  rewrite arr_read_ok by (rewrite ?Hlen; pose proof (zlen_nonneg bs); lia).
  unfold zlen in *. rewrite drop_app_ge by (rewrite length_take; lia).
  rewrite length_take, Nat.min_l, Nat.sub_diag, drop_0 by lia.
  f_equal. apply take_app_length'. lia.
Qed.

Lemma arr_read_write_ne {A} (l : list A) i bs l' j n :
  arr_write l i bs = Ok l' -> j + n <= i \/ i + zlen bs <= j ->
  arr_read l' j n = arr_read l j n.
Proof.
  intros Hw Hd. pose proof (arr_write_len _ _ _ _ Hw) as Hlen.
  unfold arr_read. rewrite Hlen.
  destruct (Z.ltb_spec j 0), (Z.ltb_spec n 0), (Z.ltb_spec (zlen l) (j + n)); cbn; try done.
  apply arr_write_Ok in Hw as (Hi & Hb & ->). f_equal. unfold zlen in *. destruct Hd.
  - rewrite drop_app_le by (rewrite length_take; lia).
    rewrite take_app_le by (rewrite length_drop, length_take; lia).
    rewrite !take_drop_commute, take_take. do 2 f_equal. lia.
  - rewrite drop_app_ge by (rewrite length_take; lia). rewrite length_take, Nat.min_l by lia.
    rewrite drop_app_ge by lia. rewrite drop_drop. do 2 f_equal. lia.
Qed.

Lemma wr32_ok d off v : 0 <= off -> off + 4 <= zlen d ->
  exists d', wr32 d off v = Ok d' /\ zlen d' = zlen d.
Proof. intros Hi Hl. apply arr_write_ok; [done|]. by unfold zlen at 1; rewrite length_le_bytes. Qed.

Lemma rd32_wr32 d off v d' : wr32 d off v = Ok d' -> rd32 d' off = Ok (s32 v).
Proof.
  intros Hw. unfold rd32. apply arr_read_write in Hw.
  change (zlen (le_bytes 4 v)) with 4 in Hw. rewrite Hw. cbn [mbind res_bind].
  by rewrite le_value_u32, s32_u32.
Qed.

Lemma rd32_wr32_ne d off v d' off' :
  wr32 d off v = Ok d' -> off' + 4 <= off \/ off + 4 <= off' -> rd32 d' off' = rd32 d off'.
Proof. intros Hw Ho. unfold rd32. by rewrite (arr_read_write_ne _ _ _ _ _ _ Hw). Qed.

(** ** The header block *)

(** The header [d] says that the blocks [bs] are logged. *)
Definition is_head (d : list Z) (bs : list Z) : Prop :=
  rd32 d 0 = Ok (zlen bs) /\ forall i b, bs !! i = Some b -> rd32 d (4 + 4 * Z.of_nat i) = Ok b.

Lemma write_blocks_ok n i bs d :
  0 <= i -> i + Z.of_nat n <= zlen bs -> 4 + 4 * (i + Z.of_nat n) <= zlen d ->
  exists d', write_blocks n i bs d = Ok d' /\ zlen d' = zlen d /\
    (forall off, off + 4 <= 4 + 4 * i -> rd32 d' off = rd32 d off) /\
    (forall j b, i <= j < i + Z.of_nat n -> bs !! Z.to_nat j = Some b ->
       rd32 d' (4 + 4 * j) = Ok (s32 b)).
Proof.
  revert i d. induction n as [|n IH]; intros i d Hi Hb Hd; cbn [write_blocks].
  { exists d. split_and!; [done..|]. intros j b Hj. lia. }
  destruct (arr_get_ok bs i) as [b Hg]; [lia|]. rewrite Hg. cbn [mbind res_bind].
  destruct (wr32_ok d (4 + 4 * i) b) as (d1 & Hw & Hl1); [lia|lia|].
  rewrite Hw. cbn [mbind res_bind].
  destruct (IH (i + 1) d1) as (d' & Hd' & Hl' & Hlow & Hin); [lia|lia|lia|].
  exists d'. split_and!; [done|lia| |].
  - intros off Ho. rewrite Hlow by lia. apply (rd32_wr32_ne _ _ _ _ _ Hw). lia.
  - intros j c Hj Hc. destruct (Z.eq_dec j i) as [->|Hne]; [|apply Hin; [lia|done]].
    rewrite Hlow by lia. apply arr_get_Ok in Hg as [_ Hg].
    rewrite (rd32_wr32 _ _ _ _ Hw). congruence.
Qed.

(** What [write_head] stores: the header for the first [n] blocks of [bs]. *)
Lemma head_written n bs d :
  0 <= n <= zlen bs -> n <= LOGSIZE -> zlen d = BSIZE ->
  Forall (fun b => s32 b = b) (take (Z.to_nat n) bs) ->
  exists d1 d', wr32 d 0 n = Ok d1 /\ write_blocks (Z.to_nat n) 0 bs d1 = Ok d' /\
    zlen d' = BSIZE /\ is_head d' (take (Z.to_nat n) bs).
Proof.
  intros Hn Hlog Hd Hs. unfold LOGSIZE, MAXOPBLOCKS, BSIZE in *.
  destruct (wr32_ok d 0 n) as (d1 & Hw & Hl1); [lia|lia|].
  destruct (write_blocks_ok (Z.to_nat n) 0 bs d1) as (d' & Hb & Hl & Hlow & Hin); [lia|lia|lia|].
  exists d1, d'. split_and!; [done|done|lia|].
  split.
  - rewrite Hlow by lia. rewrite (rd32_wr32 _ _ _ _ Hw), s32_small by lia.
    f_equal. unfold zlen in *. rewrite length_take. lia.
  - intros i b Hi. pose proof Hi as Hlt%lookup_lt_Some. rewrite length_take in Hlt.
    rewrite (Hin (Z.of_nat i) b); [|lia|].
    + rewrite Forall_lookup in Hs. by rewrite (Hs i b Hi).
    + rewrite Nat2Z.id. by apply lookup_take_Some in Hi as [? _].
Qed.

(** What [read_head] loads. *)
Lemma read_blocks_ok n i d bs (hs : list Z) :
  0 <= i -> i + Z.of_nat n <= zlen bs -> zlen bs = LOGSIZE ->
  (forall j b, i <= Z.of_nat j < i + Z.of_nat n -> hs !! j = Some b ->
     rd32 d (4 + 4 * Z.of_nat j) = Ok b) ->
  (forall j, i <= j < i + Z.of_nat n -> is_Some (hs !! Z.to_nat j)) ->
  exists bs', read_blocks n i d bs = Ok bs' /\ zlen bs' = LOGSIZE /\
    (forall j, (Z.of_nat j < i) -> bs' !! j = bs !! j) /\
    (forall j, i <= Z.of_nat j < i + Z.of_nat n -> bs' !! j = hs !! j) /\
    (forall j, i + Z.of_nat n <= Z.of_nat j -> bs' !! j = bs !! j).
Proof.
  intros Hi Hb Hl Hd Hs. revert i bs Hi Hb Hl Hd Hs.
  induction n as [|n IH]; intros i bs Hi Hb Hl Hd Hs; cbn [read_blocks].
  { exists bs. split_and!; [done|done|done| |done]. intros j Hj. lia. }
  destruct (Hs i ltac:(lia)) as [b Hbi].
  pose proof (Hd (Z.to_nat i) b ltac:(lia) Hbi) as Hr. rewrite Z2Nat.id in Hr by lia.
  rewrite Hr. cbn [mbind res_bind]. rewrite arr_set_ok by lia. cbn [mbind res_bind].
  destruct (IH (i + 1) (<[Z.to_nat i := b]> bs)) as (bs' & Hrb & Hl' & Hlow & Hin & Hhi);
    [lia|unfold zlen in *; rewrite length_insert; lia|unfold zlen in *; by rewrite length_insert
    |intros j c Hj; apply Hd; lia|intros j Hj; apply Hs; lia|].
  exists bs'. split_and!; [done|done| | |].
  - intros j Hj. rewrite Hlow by lia. rewrite list_lookup_insert_ne by lia. done.
  - intros j Hj. destruct (decide (j = Z.to_nat i)) as [->|Hne]; [|apply Hin; lia].
    rewrite Hlow by lia. rewrite list_lookup_insert_eq by (unfold zlen in *; lia). done.
  - intros j Hj. rewrite Hhi by lia. by rewrite list_lookup_insert_ne by lia.
Qed.

Definition is_bno (b : Z) : Prop := 0 <= b < 2 ^ 31.

(** Two logs that differ in the header only. *)
Definition same_log (l l' : log) : Prop :=
  start l' = start l /\ Log.size l' = Log.size l /\ outstanding l' = outstanding l /\
  committing l' = committing l /\ log_dev l' = log_dev l.

(** ** Triples of the cache operations *)

(** The log is [l] and the cache presents [v]. *)
Definition at_ (l : log) (v : view) (d : dsk) : Prop := dlog d = l /\ rep (dbio d) v.

Lemma on_bio_spec {A} (f : bio -> res (A * bio)) l v (p : A -> Prop) (w : A -> view) :
  (forall s, rep s v -> exists a s', f s = Ok (a, s') /\ p a /\ rep s' (w a)) ->
  hoare (at_ l v) (on_bio f) (fun a s => p a /\ at_ l (w a) s).
Proof.
  intros H d (Hl & Hr). destruct (H _ Hr) as (a & s' & Hf & Hp & Hr').
  exists a, {| dlog := dlog d; dbio := s' |}. unfold on_bio. rewrite Hf. done.
Qed.

Lemma on_bio__spec f l v w :
  (forall s, rep s v -> exists s', f s = Ok s' /\ rep s' w) ->
  hoare (at_ l v) (on_bio_ f) (fun _ => at_ l w).
Proof.
  intros H. eapply hoare_conseq; [apply (on_bio_spec _ l v (fun _ => True) (fun _ => w))|done|].
  - intros s (s' & Hf & Hr)%H. exists (), s'. by rewrite Hf.
  - by intros a s (_ & Ha).
Qed.

Lemma log_upd_spec f l v : hoare (at_ l v) (log_upd f) (fun _ => at_ (f l) v).
Proof. apply hoare_modify. intros d (<- & Hr). done. Qed.

Lemma gets_log_spec l v : hoare (at_ l v) (gets dlog) (fun x s => x = l /\ at_ l v s).
Proof.
  eapply hoare_conseq; [apply hoare_gets|done|]. cbn. intros x s (-> & H & Hr). done.
Qed.

Lemma nblk_range s v b : rep s v -> 0 <= b < nblk v -> u32 b = b.
Proof.
  intros (_ & _ & _ & [(_ & ? & ?) _ _ _ _ _]) Hb. apply u32_small. unfold BSIZE in *. lia.
Qed.

Section triples.
Variable mypid : Z.

Lemma dbread_spec l v b :
  0 <= b < nblk v -> ~ in_use v b -> room v b ->
  hoare (at_ l v) (dbread mypid 1 b) (fun h s => held v !! h = None /\ at_ l (v_hold h b v) s).
Proof.
  intros Hb Hu Hroom. apply on_bio_spec. intros s Hr.
  rewrite (nblk_range s v b Hr Hb). change (u32 1) with 1.
  destruct (rep_bread mypid s v b Hr Hb Hu Hroom) as (h & s' & ? & ? & ?). eauto.
Qed.

Lemma buf_data_spec l v h b : held v !! h = Some b ->
  hoare (at_ l v) (buf_data h) (fun x s => (x = cur v b /\ zlen x = BSIZE) /\ at_ l v s).
Proof.
  intros Hh. apply on_bio_spec with (w := fun _ => v). intros s Hr.
  destruct (rep_get s v h b Hr Hh) as (Hg & Hd & _ & Hz). rewrite Hg. cbn [mbind res_bind].
  exists (data (B s h)), s. rewrite Hd. done.
Qed.

Lemma buf_block_spec l v h b : held v !! h = Some b ->
  hoare (at_ l v) (buf_block h) (fun x s => x = b /\ at_ l v s).
Proof.
  intros Hh. apply on_bio_spec with (w := fun _ => v). intros s Hr.
  destruct (rep_get s v h b Hr Hh) as (Hg & _ & Hb & _). rewrite Hg. cbn [mbind res_bind].
  exists (blockno (B s h)), s. done.
Qed.

Lemma buf_store_spec l v h b x : held v !! h = Some b -> zlen x = BSIZE ->
  hoare (at_ l v) (buf_store h x) (fun _ => at_ l (v_data b x v)).
Proof. intros Hh Hx. apply on_bio__spec. intros s Hr. by apply rep_set_data. Qed.

Lemma dbwrite_spec l v h b : held v !! h = Some b ->
  hoare (at_ l v) (dbwrite h) (fun _ => at_ l (v_write b v)).
Proof. intros Hh. apply on_bio__spec. intros s Hr. by apply rep_bwrite. Qed.

Lemma dbrelse_spec l v h b : held v !! h = Some b -> b ∈ pinned v \/ cur v b = disk v b ->
  hoare (at_ l v) (dbrelse h) (fun _ => at_ l (v_release h v)).
Proof. intros Hh Hc. apply on_bio__spec. intros s Hr. by eapply rep_brelse. Qed.

Lemma pin_spec l v h b : held v !! h = Some b ->
  hoare (at_ l v) (on_bio_ (fun s => set s h (fun x => with_flags x (Z.lor (flags x) B_DIRTY))))
    (fun _ => at_ l (v_pin b v)).
Proof. intros Hh. apply on_bio__spec. intros s Hr. by apply rep_pin. Qed.

(** A block nobody holds is pinned or clean. *)
Lemma at_clean l v b : 0 <= b < nblk v -> ~ in_use v b ->
  forall d, at_ l v d -> b ∈ pinned v \/ cur v b = disk v b.
Proof.
  intros Hb Hu d (_ & _ & _ & Hr & _). destruct (decide (b ∈ pinned v)); [by left|].
  right. by apply (r_clean _ _ Hr).
Qed.

End triples.

(** ** Views of whole steps *)

(** The contents of block [a] copied to block [b] and written. *)
Definition v_put (b : Z) (x : list Z) (v : view) : view := v_write b (v_data b x v).

(** No buffer is held. *)
Definition quiet (v : view) : Prop := held v = ∅.

Lemma quiet_free v b : quiet v -> ~ in_use v b.
Proof. intros Hq [h Hh]. rewrite Hq, lookup_empty in Hh. done. Qed.

Lemma view_eq v w : cur v = cur w -> disk v = disk w -> held v = held w -> pinned v = pinned w ->
  trace v = trace w -> nblk v = nblk w -> v = w.
Proof. destruct v, w. cbn. congruence. Qed.

Lemma v_release_hold h b v : held v !! h = None -> v_release h (v_hold h b v) = v.
Proof. intros Hh. apply view_eq; try done. cbn. by apply delete_insert_id. Qed.

Lemma in_use_hold v h a b : quiet v -> a <> b -> ~ in_use (v_hold h a v) b.
Proof.
  intros Hq Hab [h' Hh']. cbn in Hh'. rewrite Hq, lookup_insert in Hh'.
  case_decide; simplify_eq; done.
Qed.

Section steps.
Variable mypid : Z.

(** After the two buffers of a copy are released, nothing is held. *)
Lemma v_put_release v h1 h2 a b x :
  quiet v -> h1 <> h2 ->
  v_release h2 (v_release h1 (v_put b x (v_hold h2 b (v_hold h1 a v)))) = v_put b x v /\
  v_release h1 (v_release h2 (v_put a x (v_hold h2 b (v_hold h1 a v)))) = v_put a x v.
Proof.
  intros Hq Hne. split; apply view_eq; try done; cbn; rewrite Hq.
  - rewrite delete_insert_ne by done. by rewrite !delete_insert_eq, !delete_empty.
  - rewrite delete_insert_eq, delete_insert_ne, delete_empty by done.
    by rewrite delete_insert_eq, delete_empty.
Qed.

(** The log on device 1, its header block at [start]; [tail] is one of the
    logged blocks, [b] its home. *)
Definition log_at (l : log) (tail a b : Z) : Prop :=
  log_dev l = 1 /\ a = start l + tail + 1 /\ arr_get (lh_block l) tail = Ok b.

Definition fits (v : view) (b : Z) : Prop := 0 <= b < nblk v.

Definition few (v : view) (k : Z) : Prop := Z.of_nat (base.size (pinned v)) + k <= NBUF.

Lemma room_quiet v b : quiet v -> few v 1 -> room v b.
Proof. intros Hq Hf. right. rewrite Hq, map_size_empty. unfold few in Hf. lia. Qed.

Lemma room_hold v h a b : quiet v -> b ∈ pinned v \/ few v 2 -> room (v_hold h a v) b.
Proof.
  intros Hq [Hp|Hf]; [by left|right]. cbn.
  rewrite Hq, map_size_insert_None, map_size_empty by apply lookup_empty. unfold few in Hf. lia.
Qed.

Lemma install_one_spec l v tail a b :
  log_at l tail a b -> quiet v -> a <> b -> fits v a -> fits v b ->
  few v 1 -> b ∈ pinned v \/ few v 2 ->
  hoare (at_ l v) (install_one mypid tail) (fun _ => at_ l (v_put b (cur v a) v)).
Proof.
  intros (Hdev & Ha & Hb) Hq Hab Hra Hrb Hf1 Hf2.
  assert (Hcl : forall d, at_ l v d -> a ∈ pinned v \/ cur v a = disk v a)
    by (apply at_clean; [done|by apply quiet_free]).
  intros d Hd. specialize (Hcl d Hd). revert d Hd. fold (hoare (at_ l v) (install_one mypid tail)
    (fun _ => at_ l (v_put b (cur v a) v))).
  eapply hoare_seq; [apply gets_log_spec|]. intros _ ->. rewrite Hdev, <- Ha.
  eapply hoare_seq; [apply dbread_spec; [done|by apply quiet_free|by apply room_quiet]|].
  intros h1 Hh1. eapply hoare_seq; [exact (hoare_pure _ _ _ Hb)|]. intros _ ->.
  eapply hoare_seq; [apply dbread_spec; [done|by apply in_use_hold|by apply room_hold]|].
  intros h2 Hh2. cbn in Hh2. apply lookup_insert_None in Hh2 as [Hh2 Hne].
  eapply hoare_seq; [apply (buf_data_spec _ _ h1 a); cbn; rewrite lookup_insert_ne by done;
    by rewrite lookup_insert_eq|]. intros x [-> Hx]. cbn [cur v_hold] in *.
  eapply hoare_bind; [apply (buf_store_spec _ _ h2 b); [cbn; by rewrite lookup_insert_eq|done]|].
  intros []; cbn beta. eapply hoare_bind; [apply (dbwrite_spec _ _ h2 b); cbn; by rewrite lookup_insert_eq|].
  intros []; cbn beta. eapply hoare_bind; [apply (dbrelse_spec _ _ h1 a)|].
  { cbn. rewrite lookup_insert_ne by done. by rewrite lookup_insert_eq. }
  { cbn. rewrite !fupd_ne by done. set_solver. }
  intros []; cbn beta. eapply hoare_post; [apply (dbrelse_spec _ _ h2 b)|].
  { cbn. rewrite lookup_delete_ne by done. by rewrite lookup_insert_eq. }
  { right. cbn. by rewrite !fupd_eq. }
  intros [] s. fold (v_put b (cur v a) (v_hold h2 b (v_hold h1 a v))).
  by rewrite (proj1 (v_put_release v h1 h2 a b (cur v a) Hq Hne)).
Qed.

Lemma write_log_one_spec l v tail a b :
  log_at l tail a b -> quiet v -> a <> b -> fits v a -> fits v b -> few v 1 -> b ∈ pinned v ->
  hoare (at_ l v) (write_log_one mypid tail) (fun _ => at_ l (v_put a (cur v b) v)).
Proof.
  intros (Hdev & Ha & Hb) Hq Hab Hra Hrb Hf1 Hpb.
  eapply hoare_seq; [apply gets_log_spec|]. intros _ ->. rewrite Hdev, <- Ha.
  eapply hoare_seq; [apply dbread_spec; [done|by apply quiet_free|by apply room_quiet]|].
  intros h1 Hh1. eapply hoare_seq; [exact (hoare_pure _ _ _ Hb)|]. intros _ ->.
  eapply hoare_seq; [apply dbread_spec; [done|by apply in_use_hold|apply room_hold; auto]|].
  intros h2 Hh2. cbn in Hh2. apply lookup_insert_None in Hh2 as [Hh2 Hne].
  eapply hoare_seq; [apply (buf_data_spec _ _ h2 b); cbn; by rewrite lookup_insert_eq|].
  intros x [-> Hx]. cbn [cur v_hold] in *.
  eapply hoare_bind; [apply (buf_store_spec _ _ h1 a); [|done]|].
  { cbn. rewrite lookup_insert_ne by done. by rewrite lookup_insert_eq. }
  intros []; cbn beta. eapply hoare_bind; [apply (dbwrite_spec _ _ h1 a); cbn;
    rewrite lookup_insert_ne by done; by rewrite lookup_insert_eq|].
  intros []; cbn beta. eapply hoare_bind; [apply (dbrelse_spec _ _ h2 b)|].
  { cbn. by rewrite lookup_insert_eq. }
  { left. cbn. set_solver. }
  intros []; cbn beta. eapply hoare_post; [apply (dbrelse_spec _ _ h1 a)|].
  { cbn. rewrite lookup_delete_ne by done. rewrite lookup_insert_ne by done.
    by rewrite lookup_insert_eq. }
  { right. cbn. by rewrite !fupd_eq. }
  intros [] s. fold (v_put a (cur v b) (v_hold h2 b (v_hold h1 a v))).
  by rewrite (proj2 (v_put_release v h1 h2 a b (cur v b) Hq Hne)).
Qed.

(** ** Sequences of writes *)

Fixpoint puts (ws : list (Z * list Z)) (v : view) : view :=
  match ws with
  | [] => v
  | (b, x) :: ws => puts ws (v_put b x v)
  end.

(** The disk after the writes. *)
Fixpoint dapply (D : Z -> list Z) (ws : list (Z * list Z)) : Z -> list Z :=
  match ws with
  | [] => D
  | (b, x) :: ws => dapply (fupd D b x) ws
  end.

Lemma puts_fields ws v :
  cur (puts ws v) = dapply (cur v) ws /\ disk (puts ws v) = dapply (disk v) ws /\
  held (puts ws v) = held v /\ trace (puts ws v) = trace v ++ ws /\ nblk (puts ws v) = nblk v /\
  forall b, b ∈ pinned (puts ws v) <-> b ∈ pinned v /\ b ∉ ws.*1.
Proof.
  revert v. induction ws as [|[b x] ws IH]; intros v; cbn [puts dapply].
  { rewrite app_nil_r. split_and!; set_solver. }
  destruct (IH (v_put b x v)) as (-> & -> & -> & -> & -> & Hp).
  split_and!; try done; cbn [v_put v_write v_data cur disk held trace nblk].
  - by rewrite fupd_eq.
  - by rewrite fupd_eq, <- app_assoc.
  - intros c. rewrite Hp. cbn. set_solver.
Qed.

Lemma puts_app ws ws' v : puts (ws ++ ws') v = puts ws' (puts ws v).
Proof. revert v. induction ws as [|[b x] ws IH]; intros v; [done|]. apply IH. Qed.

Lemma dapply_app D ws ws' : dapply D (ws ++ ws') = dapply (dapply D ws) ws'.
Proof. revert D. induction ws as [|[b x] ws IH]; intros D; [done|]. apply IH. Qed.

Lemma dapply_ne D ws b : b ∉ ws.*1 -> dapply D ws b = D b.
Proof.
  revert D. induction ws as [|[a x] ws IH]; intros D Hb; [done|]. cbn in *.
  apply not_elem_of_cons in Hb as [Hne Hb]. rewrite IH by done. by rewrite fupd_ne.
Qed.

Lemma dapply_ext (P : Z -> Prop) D D' ws b :
  (forall x, P x -> D x = D' x) -> P b -> dapply D ws b = dapply D' ws b.
Proof.
  revert D D'. induction ws as [|[c y] ws IH]; intros D D' He Hb; [by apply He|]. cbn.
  apply IH; [|done]. intros z Hz. unfold fupd. case_decide; [done|by apply He].
Qed.

(** The writes of [install_trans] and of [write_log]: [a] is the first block of
    the log, [bs] are the homes, [C] the contents. *)
Fixpoint installs (a : Z) (bs : list Z) (C : Z -> list Z) : list (Z * list Z) :=
  match bs with
  | [] => []
  | b :: bs => (b, C a) :: installs (a + 1) bs C
  end.

Fixpoint copies (a : Z) (bs : list Z) (C : Z -> list Z) : list (Z * list Z) :=
  match bs with
  | [] => []
  | b :: bs => (a, C b) :: copies (a + 1) bs C
  end.

Lemma installs_ext a bs C C' : (forall x, a <= x < a + zlen bs -> C' x = C x) ->
  installs a bs C' = installs a bs C.
Proof.
  revert a. induction bs as [|b bs IH]; intros a H; [done|]. cbn [installs].
  rewrite zlen_cons in H. pose proof (zlen_nonneg bs). rewrite H, IH; [done| |lia].
  intros x Hx. apply H. lia.
Qed.

Lemma copies_ext a bs C C' : (forall x, x ∈ bs -> C' x = C x) -> copies a bs C' = copies a bs C.
Proof.
  revert a. induction bs as [|b bs IH]; intros a H; [done|]. cbn [copies].
  rewrite H, IH; [done| |]; set_solver.
Qed.

Lemma installs_fst a bs C : (installs a bs C).*1 = bs.
Proof. revert a. induction bs; intros; cbn; [done|]. by f_equal. Qed.

Lemma copies_fst a bs C x : x ∈ (copies a bs C).*1 <-> a <= x < a + zlen bs.
Proof.
  revert a. induction bs as [|b bs IH]; intros a; cbn [copies fmap list_fmap].
  - rewrite zlen_nil. rewrite elem_of_nil. lia.
  - cbn [fst]. rewrite elem_of_cons, IH, zlen_cons. pose proof (zlen_nonneg bs). lia.
Qed.

(** [bs] are logged from entry [tail] on, at blocks [a] on; none of them is in
    the log. *)
Definition logged (l : log) (tail a : Z) (bs : list Z) : Prop :=
  log_dev l = 1 /\ a = start l + tail + 1 /\
  (forall i b, bs !! i = Some b -> arr_get (lh_block l) (tail + Z.of_nat i) = Ok b).

Definition apart_from (v : view) (a : Z) (bs : list Z) : Prop :=
  0 <= a /\ a + zlen bs <= nblk v /\ forall b, b ∈ bs -> fits v b /\ ~ a <= b < a + zlen bs.

Lemma logged_cons l tail a b bs : logged l tail a (b :: bs) ->
  log_at l tail a b /\ logged l (tail + 1) (a + 1) bs.
Proof.
  intros (Hd & Ha & Hb). split; split_and!; try done.
  - specialize (Hb 0%nat b eq_refl). by rewrite Z.add_0_r in Hb.
  - lia.
  - intros i c Hc. specialize (Hb (S i) c Hc). rewrite <- Hb. f_equal. lia.
Qed.

Lemma apart_cons v a b bs : apart_from v a (b :: bs) ->
  fits v a /\ fits v b /\ a <> b /\ apart_from v (a + 1) bs /\
  (forall x, x ∈ bs -> x <> a) /\ ~ a + 1 <= b < a + 1 + zlen bs.
Proof.
  intros (Ha & Hn & Hb). rewrite zlen_cons in *. pose proof (zlen_nonneg bs).
  destruct (Hb b) as [Hfb Hnb]; [set_solver|]. unfold fits in *.
  split_and!; try lia.
  - unfold apart_from, fits. split_and!; [lia|lia|]. intros x Hx.
    destruct (Hb x) as [? ?]; [set_solver|]. lia.
  - intros x Hx ->. destruct (Hb a) as [? ?]; [set_solver|]. lia.
Qed.

Lemma few_sub v w k : pinned w ⊆ pinned v -> few v k -> few w k.
Proof. intros Hs%subseteq_size Hf. unfold few in *. lia. Qed.

Lemma few_put v b x k : b ∈ pinned v -> few v k -> few (v_put b x v) (k + 1).
Proof.
  intros Hb Hf. unfold few in *. cbn.
  rewrite size_difference by set_solver. rewrite size_singleton.
  assert (base.size ({[b]} : gset Z) <= base.size (pinned v))%nat
    by (apply subseteq_size; set_solver). rewrite size_singleton in *. lia.
Qed.

Lemma for_install l bs tail a v :
  logged l tail a bs -> apart_from v a bs -> quiet v -> few v 1 ->
  few v 2 \/ (forall b, List.hd_error bs = Some b -> b ∈ pinned v) ->
  hoare (at_ l v) (for_tail (install_one mypid) (length bs) tail)
    (fun _ => at_ l (puts (installs a bs (cur v)) v)).
Proof.
  revert tail a v. induction bs as [|b bs IH]; intros tail a v Hl Ha Hq Hf Hf2; cbn [for_tail length].
  { eapply hoare_post; [apply hoare_ret|]. cbn. tauto. }
  apply logged_cons in Hl as [Hl Hls]. apply apart_cons in Ha as (Hfa & Hfb & Hab & Ha & Hna & Hnb).
  eapply hoare_bind; [apply (install_one_spec _ _ _ a b); try done|].
  { destruct Hf2 as [Hf2|Hf2]; [by right|left; by apply Hf2]. }
  intros []. cbn [installs puts].
  rewrite <- (installs_ext _ _ (cur v) (cur (v_put b (cur v a) v))).
  - apply IH; [done|done|done| |].
    + by apply (few_sub v); [cbn; set_solver|].
    + left. destruct Hf2 as [Hf2|Hf2].
      * by apply (few_sub v); [cbn; set_solver|].
      * by apply (few_put v _ _ 1); [apply Hf2|].
  - intros x Hx. cbn. apply fupd_ne. lia.
Qed.

Lemma for_write_log l bs tail a v :
  logged l tail a bs -> apart_from v a bs -> quiet v -> few v 1 ->
  (forall b, b ∈ bs -> b ∈ pinned v) ->
  hoare (at_ l v) (for_tail (write_log_one mypid) (length bs) tail)
    (fun _ => at_ l (puts (copies a bs (cur v)) v)).
Proof.
  revert tail a v. induction bs as [|b bs IH]; intros tail a v Hl Ha Hq Hf Hp; cbn [for_tail length].
  { eapply hoare_post; [apply hoare_ret|]. cbn. tauto. }
  apply logged_cons in Hl as [Hl Hls]. apply apart_cons in Ha as (Hfa & Hfb & Hab & Ha & Hna & Hnb).
  eapply hoare_bind; [apply (write_log_one_spec _ _ _ a b); try done; apply Hp; set_solver|].
  intros []. cbn [copies puts].
  rewrite <- (copies_ext _ _ (cur v) (cur (v_put a (cur v b) v))).
  - apply IH; [done|done|done| |].
    + by apply (few_sub v); [cbn; set_solver|].
    + intros c Hc. cbn. specialize (Hna c Hc). set_solver.
  - intros x Hx. cbn. apply fupd_ne. by apply Hna.
Qed.

Lemma write_head_spec l v n :
  log_dev l = 1 -> quiet v -> fits v (start l) -> few v 1 ->
  lh_n l = Z.of_nat n -> Z.of_nat n <= LOGSIZE -> zlen (lh_block l) = LOGSIZE ->
  Forall (fun b => s32 b = b) (take n (lh_block l)) ->
  hoare (at_ l v) (write_head mypid) (fun _ s => exists d,
    (zlen d = BSIZE /\ is_head d (take n (lh_block l))) /\ at_ l (v_put (start l) d v) s).
Proof.
  intros Hdev Hq Hfs Hf Hn Hlog Hlb Hs.
  eapply hoare_seq; [apply gets_log_spec|]. intros _ ->. rewrite Hdev.
  eapply hoare_seq; [apply dbread_spec; [done|by apply quiet_free|by apply room_quiet]|].
  intros h Hh. eapply hoare_seq; [apply (buf_data_spec _ _ h (start l)); cbn; by rewrite lookup_insert_eq|].
  intros x [-> Hx]. cbn [cur v_hold] in *.
  destruct (head_written (lh_n l) (lh_block l) (cur v (start l))) as (d1 & d & Hw & Hwb & Hz & Hd);
    [lia|lia|done|by rewrite Hn, Nat2Z.id|].
  eapply hoare_seq; [exact (hoare_pure _ _ _ Hw)|]. intros _ ->.
  eapply hoare_seq; [exact (hoare_pure _ _ _ Hwb)|]. intros _ ->.
  eapply hoare_bind; [apply (buf_store_spec _ _ h (start l)); [cbn; by rewrite lookup_insert_eq|done]|].
  intros []; cbn beta. eapply hoare_bind; [apply (dbwrite_spec _ _ h (start l)); cbn; by rewrite lookup_insert_eq|].
  intros []; cbn beta. eapply hoare_post; [apply (dbrelse_spec _ _ h (start l))|].
  { cbn. by rewrite lookup_insert_eq. }
  { right. cbn. by rewrite !fupd_eq. }
  intros [] s Hr. exists d. rewrite Hn, Nat2Z.id in Hd. split; [done|].
  replace (v_put (start l) d v)
    with (v_release h (v_write (start l) (v_data (start l) d (v_hold h (start l) v)))); [done|].
  apply view_eq; try done. cbn. by rewrite delete_insert_id.
Qed.

End steps.
