(* ===== verification/CrashProofs.v ===== *)
(** * Crash safety of the log

    What [commit] and [recover_from_log] do to the disk, write by write, and
    the states a crash can leave: before the commit point the old contents,
    after it a complete log, and after the header is cleared the new contents.
    Recovery keeps each of these, however often it is interrupted itself.  A
    block write is atomic. *)

From stdpp Require Import base list strings gmap sets.
From Stdlib Require Import ZArith Lia.
From S2P Require Import Prelude State Bio BioProofs Log LogProofs.

(** ** The writes of a commit *)

Definition news (bs : list Z) (C : Z -> list Z) : list (Z * list Z) :=
  map (fun b => (b, C b)) bs.

Definition commit_writes (st : Z) (bs : list Z) (C : Z -> list Z) (h1 h2 : list Z) :=
  copies (st + 1) bs C ++ [(st, h1)] ++ news bs C ++ [(st, h2)].

(** The log blocks hold the contents of the homes after [write_log]. *)
Lemma copies_lookup a bs C D i b : bs !! i = Some b ->
  dapply D (copies a bs C) (a + Z.of_nat i) = C b.
Proof.
  revert a i D. induction bs as [|c bs IH]; intros a i D Hi; [done|]. cbn [copies dapply].
  destruct i as [|i]; cbn in Hi.
  - simplify_eq. rewrite Z.add_0_r, dapply_ne; [apply fupd_eq|]. rewrite copies_fst. lia.
  - replace (a + Z.of_nat (S i)) with (a + 1 + Z.of_nat i) by lia. by apply IH.
Qed.

Lemma installs_news a bs C D : (forall i b, bs !! i = Some b -> D (a + Z.of_nat i) = C b) ->
  installs a bs D = news bs C.
Proof.
  revert a. induction bs as [|b bs IH]; intros a H; [done|]. cbn [installs news map].
  f_equal; [f_equal; specialize (H 0%nat b eq_refl); by rewrite Z.add_0_r in H|].
  apply IH. intros i c Hi. specialize (H (S i) c Hi). rewrite <- H. f_equal. lia.
Qed.

Lemma news_fst bs C : (news bs C).*1 = bs.
Proof. induction bs; cbn; [done|]. by f_equal. Qed.

(** ** The area of the log and the transaction *)

Definition in_log (st sz b : Z) : Prop := st <= b < st + sz.
Definition home (N st sz b : Z) : Prop := 0 <= b < N /\ ~ in_log st sz b.

(** The blocks [bs] can be logged in a log of [sz] blocks at [st]. *)
Record loggable (N st sz : Z) (bs : list Z) : Prop := {
  lg_start : 1 < st;
  lg_end : st + sz <= N;
  lg_room : zlen bs + 1 <= sz;
  lg_size : zlen bs <= LOGSIZE;
  lg_home : forall b, b ∈ bs -> home N st sz b;
  lg_int : Forall (fun b => s32 b = b) bs;
  lg_sb : 1 ∉ bs;
}.

Lemma loggable_nil N st sz bs : loggable N st sz bs -> loggable N st sz [].
Proof.
  intros [H1 H2 H3 H4 H5 H6 H7]. pose proof (zlen_nonneg bs).
  constructor; rewrite ?zlen_nil; try done; try lia; set_solver.
Qed.

Lemma loggable_apart v st sz bs : loggable (nblk v) st sz bs -> apart_from v (st + 1) bs.
Proof.
  intros [H1 H2 H3 H4 H5 H6 H7]. split_and!; [lia|lia|]. intros b Hb.
  destruct (H5 b Hb) as [? Hn]. unfold in_log, fits in *. lia.
Qed.

(** The in-memory header of a log whose first entries are [bs]. *)
Definition header_is (l : log) (bs : list Z) : Prop :=
  log_dev l = 1 /\ zlen (lh_block l) = LOGSIZE /\ lh_n l = zlen bs /\
  take (length bs) (lh_block l) = bs.

Lemma header_logged l bs : header_is l bs -> logged l 0 (start l + 1) bs.
Proof.
  intros (Hd & Hz & Hn & Hb). split_and!; [done|lia|]. intros i b Hi.
  apply arr_get_Ok. split; [lia|]. rewrite <- Hb in Hi.
  replace (Z.to_nat (0 + Z.of_nat i)) with i by lia. by apply lookup_take_Some in Hi as [? _].
Qed.

Section crash.
Variable mypid : Z.

Lemma few_pinned v bs : pinned v = list_to_set bs -> zlen bs < NBUF -> few v 1.
Proof.
  intros Hp Hz. unfold few. rewrite Hp.
  assert (base.size (list_to_set bs : gset Z) <= length bs)%nat; [|unfold zlen in *; lia].
  clear. induction bs as [|b bs IH]; cbn; [by rewrite size_empty|].
  rewrite size_union_alt, size_singleton.
  assert (base.size (list_to_set bs ∖ {[b]} : gset Z) <= base.size (list_to_set bs : gset Z))%nat
    by (apply subseteq_size; set_solver). lia.
Qed.

(** [commit], as a sequence of writes. *)
Lemma commit_spec l v sz bs :
  header_is l bs -> loggable (nblk v) (start l) sz bs -> bs <> [] -> zlen bs < NBUF ->
  quiet v -> pinned v = list_to_set bs ->
  hoare (at_ l v) (commit mypid) (fun _ s => exists h1 h2,
    (zlen h1 = BSIZE /\ is_head h1 bs /\ is_head h2 []) /\
    at_ (with_lh_n l 0) (puts (commit_writes (start l) bs (cur v) h1 h2) v) s).
Proof.
  intros Hh Hlg Hne Hz Hq Hp. pose proof Hh as (Hdev & Hlb & Hn & Htk).
  pose proof (header_logged _ _ Hh) as Hlog. pose proof (loggable_apart _ _ _ _ Hlg) as Hap.
  pose proof (few_pinned _ _ Hp Hz) as Hf. destruct Hlg as [L1 L2 L3 L4 L5 L6 L7].
  assert (Hfst : fits v (start l)) by (pose proof (zlen_nonneg bs); unfold fits; lia).
  eapply hoare_seq; [apply gets_log_spec|]. intros _ ->.
  assert (Hpos : 0 <? lh_n l = true).
  { rewrite Hn. apply Z.ltb_lt. destruct bs; [done|]. rewrite zlen_cons.
    pose proof (zlen_nonneg bs). lia. }
  rewrite Hpos. assert (Hlen : Z.to_nat (lh_n l) = length bs) by (rewrite Hn; unfold zlen; lia).
  set (w1 := copies (start l + 1) bs (cur v)). set (v1 := puts w1 v).
  assert (Hwl : hoare (at_ l v) (write_log mypid) (fun _ => at_ l v1)).
  { eapply hoare_seq; [apply gets_log_spec|]. intros _ ->. rewrite Hlen.
    apply (for_write_log mypid l bs 0 (start l + 1) v); try done. intros b Hb. rewrite Hp. set_solver. }
  eapply hoare_bind; [exact Hwl|]. intros []. clear Hwl.
  destruct (puts_fields w1 v) as (Ec & Ed & Eh & Et & En & Ep). fold v1 in Ec, Ed, Eh, Et, En, Ep.
  assert (Hp1 : forall b, b ∈ pinned v1 <-> b ∈ bs).
  { intros b. rewrite Ep, Hp, elem_of_list_to_set. split; [tauto|]. intros Hb. split; [done|].
    unfold w1. rewrite copies_fst. destruct (L5 b Hb) as [? Hx]. unfold in_log in Hx. lia. }
  assert (Hf1 : few v1 1) by (apply (few_sub v); [intros b; rewrite Hp1, Hp; set_solver|done]).
  assert (Hq1 : quiet v1) by (unfold quiet; by rewrite Eh).
  eapply hoare_bind; [apply (write_head_spec mypid l v1 (length bs)); try done|].
  { unfold fits. by rewrite En. }
  { by rewrite Htk. }
  intros []. apply hoare_ex. intros h1. apply hoare_and. rewrite Htk. intros [Hz1 Hh1].
  set (v2 := v_put (start l) h1 v1).
  assert (Hins : installs (start l + 1) bs (cur v2) = news bs (cur v)).
  { apply installs_news. intros i b Hi. cbn. pose proof (lookup_lt_Some _ _ _ Hi).
    rewrite fupd_ne by lia. rewrite Ec. by apply copies_lookup. }
  assert (Hit : hoare (at_ l v2) (install_trans mypid) (fun _ => at_ l (puts (news bs (cur v)) v2))).
  { eapply hoare_seq; [apply gets_log_spec|]. intros _ ->. rewrite Hlen, <- Hins.
    apply (for_install mypid l bs 0 (start l + 1) v2); try done.
    - unfold apart_from, fits in *. cbn. by rewrite En.
    - apply (few_sub v1); [cbn; set_solver|done].
    - right. intros b Hb. cbn. assert (Hbs : b ∈ bs) by (destruct bs; [done|set_solver]).
      apply elem_of_difference. split; [by apply Hp1|]. destruct (L5 b Hbs) as [? Hx].
      unfold in_log in Hx. pose proof (zlen_nonneg bs). intros ->%elem_of_singleton. lia. }
  eapply hoare_bind; [exact Hit|]. intros []. clear Hit.
  eapply hoare_bind; [apply log_upd_spec|]. intros []. cbn beta.
  set (v3 := puts (news bs (cur v)) v2).
  destruct (puts_fields (news bs (cur v)) v2) as (Fc & Fd & Fh & Ft & Fn & Fp).
  fold v3 in Fc, Fd, Fh, Ft, Fn, Fp.
  eapply hoare_post; [apply (write_head_spec mypid (with_lh_n l 0) v3 0); try done|].
  { unfold quiet. by rewrite Fh. }
  { unfold fits. rewrite Fn. cbn. by rewrite En. }
  { apply (few_sub v1); [|done]. intros b Hb%Fp. cbn in Hb. set_solver. }
  intros [] s (h2 & [Hz2 Hh2] & Hs). exists h1, h2. split; [done|].
  replace (puts (commit_writes (start l) bs (cur v) h1 h2) v)
    with (v_put (start (with_lh_n l 0)) h2 v3); [done|].
  unfold commit_writes. rewrite !puts_app. done.
Qed.

(** ** Recovery *)

Lemma read_head_spec l v hs :
  log_dev l = 1 -> zlen (lh_block l) = LOGSIZE -> Forall is_bno (lh_block l) -> Forall is_bno hs -> quiet v -> few v 1 -> fits v (start l) ->
  is_head (cur v (start l)) hs -> zlen hs <= LOGSIZE ->
  hoare (at_ l v) (read_head mypid) (fun _ s => exists bs,
    (header_is (with_lh_block (with_lh_n l (zlen hs)) bs) hs /\ Forall is_bno bs) /\
    at_ (with_lh_block (with_lh_n l (zlen hs)) bs) v s).
Proof.
  intros Hdev Hlb Hbn1 Hbn2 Hq Hf Hfst [Hn Hb] Hz d Hd.
  pose proof (at_clean l v _ Hfst (quiet_free v _ Hq) d Hd) as Hcl. revert d Hd.
  change (hoare (at_ l v) (read_head mypid) (fun _ s => exists bs,
    (header_is (with_lh_block (with_lh_n l (zlen hs)) bs) hs /\ Forall is_bno bs) /\
    at_ (with_lh_block (with_lh_n l (zlen hs)) bs) v s)).
  destruct (read_blocks_ok (length hs) 0 (cur v (start l)) (lh_block l) hs)
    as (bs & Hrb & Hl & _ & Hin & Hhi); [lia|unfold zlen in *; lia|done| | |].
  { intros j b _. apply Hb. }
  { intros j Hj. apply lookup_lt_is_Some. lia. }
  eapply hoare_seq; [apply gets_log_spec|]. intros _ ->. rewrite Hdev.
  eapply hoare_seq; [apply dbread_spec; [done|by apply quiet_free|by apply room_quiet]|].
  intros h Hh. eapply hoare_seq;
    [apply (buf_data_spec _ _ h (start l)); cbn; by rewrite lookup_insert_eq|].
  intros x [-> Hx]. cbn [cur v_hold].
  eapply hoare_seq; [exact (hoare_pure _ _ _ Hn)|]. intros _ ->.
  eapply hoare_seq; [refine (hoare_pure _ _ bs _)|].
  { replace (Z.to_nat (zlen hs)) with (length hs) by (unfold zlen; lia). done. }
  intros _ ->. eapply hoare_bind; [apply log_upd_spec|]. intros []; cbn beta.
  eapply hoare_post; [apply (dbrelse_spec _ _ h (start l)); [cbn; by rewrite lookup_insert_eq|done]|].
  intros [] s Hs. rewrite v_release_hold in Hs by done. exists bs. split; [|done].
  split; [split_and!; [done|done|done|]|].
  - cbn. apply list_eq. intros i. destruct (decide (i < length hs)%nat).
    + rewrite lookup_take, decide_True by lia. apply Hin. lia.
    + rewrite !lookup_ge_None_2; [done|lia|rewrite length_take; lia].
  - rewrite Forall_lookup in *. intros i b Hi. destruct (decide (i < length hs)%nat).
    + rewrite Hin in Hi by lia. eauto.
    + rewrite Hhi in Hi by lia. eauto.
Qed.

(** The log after recovery: empty, and at the same place. *)
Definition emptied (l l' : log) : Prop :=
  header_is l' [] /\ same_log l l' /\ Forall is_bno (lh_block l').

Lemma loggable_bno N st sz bs : N < 2 ^ 31 -> loggable N st sz bs -> Forall is_bno bs.
Proof.
  intros HN Hlg. apply Forall_forall. intros b Hb. destruct (lg_home _ _ _ _ Hlg b Hb) as [? _].
  unfold is_bno. lia.
Qed.

Lemma recover_spec l v sz hs :
  log_dev l = 1 -> zlen (lh_block l) = LOGSIZE -> Forall is_bno (lh_block l) -> nblk v < 2 ^ 31 -> quiet v -> pinned v = ∅ ->
  loggable (nblk v) (start l) sz hs -> is_head (cur v (start l)) hs ->
  hoare (at_ l v) (recover_from_log mypid) (fun _ s => exists h l',
    (is_head h [] /\ emptied l l') /\
    at_ l' (puts (installs (start l + 1) hs (cur v) ++ [(start l, h)]) v) s).
Proof.
  intros Hdev Hlb Hbn HN Hq Hp Hlg Hhd. pose proof (loggable_bno _ _ _ _ HN Hlg) as Hbh.
  pose proof (loggable_apart _ _ _ _ Hlg) as Hap.
  destruct Hlg as [L1 L2 L3 L4 L5 L6 L7]. pose proof (zlen_nonneg hs) as H0.
  assert (Hfst : fits v (start l)) by (unfold fits; lia).
  assert (Hf : few v 2) by (unfold few; rewrite Hp, size_empty; done).
  assert (Hf' : few v 1) by (unfold few in *; lia).
  eapply hoare_bind; [by apply (read_head_spec l v hs)|]. intros []. apply hoare_ex. intros bs.
  set (l1 := with_lh_block (with_lh_n l (zlen hs)) bs). apply hoare_and. intros [Hh Hbn1].
  pose proof Hh as (Hdev1 & Hlb1 & Hn1 & Htk).
  set (ws := installs (start l + 1) hs (cur v)).
  assert (Hit : hoare (at_ l1 v) (install_trans mypid) (fun _ => at_ l1 (puts ws v))).
  { eapply hoare_seq; [apply gets_log_spec|]. intros _ ->.
    replace (Z.to_nat (lh_n l1)) with (length hs) by (rewrite Hn1; unfold zlen; lia).
    apply (for_install mypid l1 hs 0 (start l + 1) v); try done; [|by left].
    exact (header_logged l1 hs Hh). }
  eapply hoare_bind; [exact Hit|]. intros []. clear Hit.
  eapply hoare_bind; [apply log_upd_spec|]. intros []. cbn beta.
  destruct (puts_fields ws v) as (Fc & Fd & Fh & Ft & Fn & Fp).
  eapply hoare_post; [apply (write_head_spec mypid (with_lh_n l1 0) (puts ws v) 0); try done|].
  { unfold quiet. by rewrite Fh. }
  { unfold fits. by rewrite Fn. }
  { apply (few_sub v); [|done]. intros b Hb%Fp. tauto. }
  intros [] s (h & [Hz2 Hh2] & Hs). exists h, (with_lh_n l1 0). split; [done|].
  by rewrite puts_app.
Qed.

(** ** [initlog] *)

Definition sb_is (d : list Z) (st sz : Z) : Prop :=
  exists sb, superblock_of d = Ok sb /\ logstart sb = st /\ nlog sb = sz.

Lemma initlog_spec l v st sz hs :
  zlen (lh_block l) = LOGSIZE -> Forall is_bno (lh_block l) -> quiet v -> pinned v = ∅ ->
  sb_is (cur v 1) st sz -> loggable (nblk v) st sz hs -> is_head (cur v st) hs ->
  nblk v < 2 ^ 31 ->
  hoare (at_ l v) (initlog mypid 1) (fun _ s => exists h l',
    (is_head h [] /\ emptied (with_place l st sz 1) l') /\
    at_ l' (puts (installs (st + 1) hs (cur v) ++ [(st, h)]) v) s).
Proof.
  intros Hlb Hbn Hq Hp (sb & Hsb & Hst & Hsz) Hlg Hhd HN. pose proof Hlg as [L1 L2 L3 L4 _ _ _].
  pose proof (zlen_nonneg hs) as H0.
  assert (Hf1 : fits v 1) by (unfold fits; lia).
  assert (Hf' : few v 1) by (unfold few in *; rewrite Hp, size_empty; done).
  intros d Hd. pose proof (at_clean l v _ Hf1 (quiet_free v _ Hq) d Hd) as Hcl. revert d Hd.
  match goal with |- forall d, _ -> exists a s', _ /\ @?Q a s' =>
    change (hoare (at_ l v) (initlog mypid 1) Q) end.
  assert (Hrs : hoare (at_ l v) (readsb mypid 1) (fun x s => x = sb /\ at_ l v s)).
  { eapply hoare_seq; [apply dbread_spec; [done|by apply quiet_free|by apply room_quiet]|].
    intros h Hh. eapply hoare_seq; [apply (buf_data_spec _ _ h 1); cbn; by rewrite lookup_insert_eq|].
    intros x [-> Hx]. cbn [cur v_hold].
    eapply hoare_seq; [exact (hoare_pure _ _ _ Hsb)|]. intros _ ->.
    eapply hoare_bind; [apply (dbrelse_spec _ _ h 1); [cbn; by rewrite lookup_insert_eq|done]|].
    intros []. cbn beta. rewrite v_release_hold by done. apply hoare_ret. }
  eapply hoare_seq; [exact Hrs|]. intros _ ->. clear Hrs.
  eapply hoare_bind; [apply log_upd_spec|]. intros []. cbn beta.
  rewrite Hst, Hsz, !s32_small by lia. by apply (recover_spec (with_place l st sz 1) v sz hs).
Qed.

End crash.

(** ** The states of the disk around a commit *)

Definition along (P : (Z -> list Z) -> Prop) (D : Z -> list Z) (ws : list (Z * list Z)) : Prop :=
  forall k, P (dapply D (take k ws)).

Lemma along_inv (P : (Z -> list Z) -> Prop) D ws :
  P D -> (forall D b x, P D -> (b, x) ∈ ws -> P (fupd D b x)) -> along P D ws.
Proof.
  intros HP Hstep k. revert D ws HP Hstep. induction k as [|k IH]; intros D ws HP Hstep; [done|].
  destruct ws as [|[b x] ws]; [done|]. cbn. apply IH; [apply Hstep; [done|set_solver]|].
  intros D' b' x' HD' Hin. apply Hstep; [done|set_solver].
Qed.

Lemma along_app (P : (Z -> list Z) -> Prop) D ws ws' :
  along P D ws -> along P (dapply D ws) ws' -> along P D (ws ++ ws').
Proof.
  intros H1 H2 k. rewrite take_app, dapply_app. destruct (Nat.le_gt_cases (length ws) k).
  - rewrite take_ge by done. apply H2.
  - replace (k - length ws)%nat with 0%nat by lia. rewrite take_0. apply H1.
Qed.

Lemma along_weaken (P Q : (Z -> list Z) -> Prop) D ws :
  along P D ws -> (forall D, P D -> Q D) -> along Q D ws.
Proof. intros H HPQ k. apply HPQ, H. Qed.

Lemma along_last (P : (Z -> list Z) -> Prop) D b x :
  P D -> P (fupd D b x) -> along P D [(b, x)].
Proof. intros H1 H2 [|[|k]]; done. Qed.

Section states.
Variables (N st sz : Z) (bs : list Z) (old new : Z -> list Z).
Hypothesis Hlg : loggable N st sz bs.
(** The transaction changes its own blocks only. *)
Hypothesis Hnew : forall b, home N st sz b -> b ∉ bs -> new b = old b.

Definition before (D : Z -> list Z) : Prop :=
  is_head (D st) [] /\ forall b, home N st sz b -> D b = old b.
Definition committed (D : Z -> list Z) : Prop :=
  is_head (D st) bs /\ (forall i b, bs !! i = Some b -> D (st + 1 + Z.of_nat i) = new b) /\
  forall b, home N st sz b -> b ∉ bs -> D b = new b.
Definition after (D : Z -> list Z) : Prop :=
  is_head (D st) [] /\ forall b, home N st sz b -> D b = new b.
Definition safe (D : Z -> list Z) : Prop := before D \/ committed D \/ after D.

Lemma start_in_log b : home N st sz b -> b <> st.
Proof.
  destruct Hlg as [? ? H3 _ _ _ _]. pose proof (zlen_nonneg bs). intros [? Hn] ->.
  unfold in_log in Hn. lia.
Qed.

Lemma log_not_home i b c : bs !! i = Some b -> home N st sz c -> c <> st + 1 + Z.of_nat i.
Proof.
  destruct Hlg as [? ? H3 _ _ _ _]. intros Hi%lookup_lt_Some [? Hn] ->.
  unfold in_log, zlen in *. lia.
Qed.

Lemma dapply_news D b : b ∈ bs -> dapply D (news bs new) b = new b.
Proof.
  clear Hlg Hnew. revert D. induction bs as [|c cs IH]; intros D Hb; [set_solver|].
  change (news (c :: cs) new) with ((c, new c) :: news cs new). cbn [dapply].
  destruct (decide (b ∈ cs)) as [Hc|Hc]; [by apply IH|].
  rewrite dapply_ne by (by rewrite news_fst).
  assert (b = c) as -> by set_solver. apply fupd_eq.
Qed.

(** Installing the blocks of a committed transaction. *)
Lemma install_safe D h : committed D -> is_head h [] ->
  along safe D (news bs new ++ [(st, h)]) /\ after (dapply D (news bs new ++ [(st, h)])).
Proof.
  intros Hc Hh. pose proof Hlg as [L1 L2 L3 L4 L5 L6 L7].
  assert (Hal : along committed D (news bs new)).
  { apply along_inv; [done|]. intros D' b x (H1 & H2 & H3) (b' & [= -> ->] & Hb)%list_elem_of_fmap.
    pose proof (L5 b' Hb) as Hhome. split_and!.
    - rewrite fupd_ne; [done|]. intros E. by apply (start_in_log b').
    - intros i c Hi. rewrite fupd_ne; [by apply H2|]. intros E. by apply (log_not_home i c b').
    - intros c Hc' Hnc. rewrite fupd_ne; [by apply H3|]. congruence. }
  set (D1 := dapply D (news bs new)).
  assert (Haf : after (fupd D1 st h)).
  { split; [by rewrite fupd_eq|]. intros b Hb. rewrite fupd_ne by (by apply start_in_log).
    unfold D1. destruct (decide (b ∈ bs)); [by apply dapply_news|].
    rewrite dapply_ne by (by rewrite news_fst). by apply Hc. }
  split; [|by rewrite dapply_app].
  apply along_app; [apply (along_weaken committed); [done|unfold safe; tauto]|].
  apply along_last; [|right; by right]. right. left.
  specialize (Hal (length (news bs new))). by rewrite take_ge in Hal.
Qed.

(** Every prefix of the writes of a commit leaves a safe state. *)
Lemma commit_safe D C h1 h2 :
  before D -> (forall b, b ∈ bs -> C b = new b) -> is_head h1 bs -> is_head h2 [] ->
  along safe D (commit_writes st bs C h1 h2) /\ after (dapply D (commit_writes st bs C h1 h2)).
Proof.
  intros Hb HC Hh1 Hh2. pose proof Hlg as [L1 L2 L3 L4 L5 L6 L7]. unfold commit_writes.
  assert (Hn : news bs C = news bs new).
  { unfold news. apply map_ext_in. intros b Hin. rewrite HC; [done|].
    by apply list_elem_of_In. }
  assert (Hal : along before D (copies (st + 1) bs C)).
  { apply along_inv; [done|]. intros D' b x [H1 H2] Hin.
    assert (Hx : b ∈ (copies (st + 1) bs C).*1) by (apply list_elem_of_fmap; by exists (b, x)).
    apply copies_fst in Hx. split.
    - rewrite fupd_ne by lia. done.
    - intros c Hc. rewrite fupd_ne; [by apply H2|]. intros ->. destruct Hc as [_ Hc].
      unfold in_log in Hc. lia. }
  set (D1 := dapply D (copies (st + 1) bs C)).
  assert (Hb1 : before D1).
  { specialize (Hal (length (copies (st + 1) bs C))). by rewrite take_ge in Hal. }
  assert (Hc : committed (fupd D1 st h1)).
  { split_and!; [by rewrite fupd_eq| |].
    - intros i b Hi. rewrite fupd_ne by lia. unfold D1. rewrite copies_lookup with (b := b) by done.
      apply HC. by apply list_elem_of_lookup_2 in Hi.
    - intros b Hh Hnb. rewrite fupd_ne by (by apply start_in_log). rewrite Hnew by done.
      by apply Hb1. }
  destruct (install_safe _ h2 Hc Hh2) as [Hal2 Haf]. rewrite Hn. split.
  - apply along_app; [apply (along_weaken before); [done|unfold safe; tauto]|].
    apply along_app; [|done]. apply along_last; unfold safe; tauto.
  - by rewrite (dapply_app D), (dapply_app _ [(st, h1)]).
Qed.

(** A state recovery can start from has a header that recovery understands. *)
Definition boot_head (D : Z -> list Z) (hs : list Z) : Prop := is_head (D st) hs /\ (hs = [] \/ hs = bs).

Lemma safe_head D : safe D -> exists hs, boot_head D hs /\ loggable N st sz hs.
Proof.
  intros [[H _]|[[H _]|[H _]]]; [exists []|exists bs|exists []]; unfold boot_head.
  1, 3: split; [by auto|]; by apply (loggable_nil _ _ _ bs).
  by auto.
Qed.

(** Recovery keeps a safe state safe at every write, and ends before or after
    the transaction. *)
Lemma recovery_safe D hs h :
  safe D -> boot_head D hs -> is_head h [] ->
  along safe D (installs (st + 1) hs D ++ [(st, h)]) /\
  (before (dapply D (installs (st + 1) hs D ++ [(st, h)])) \/
   after (dapply D (installs (st + 1) hs D ++ [(st, h)]))).
Proof.
  intros Hs [Hhd Hor] Hh.
  assert (Hlen : forall hs', is_head (D st) hs' -> zlen hs' = zlen hs).
  { intros hs' [H1 _]. destruct Hhd as [H2 _]. congruence. }
  assert (Hnil : forall P : (Z -> list Z) -> Prop, hs = [] -> P D -> P (fupd D st h) ->
    (forall D, P D -> safe D) -> (forall D, P D -> before D \/ after D) ->
    along safe D (installs (st + 1) hs D ++ [(st, h)]) /\
    (before (dapply D (installs (st + 1) hs D ++ [(st, h)])) \/
     after (dapply D (installs (st + 1) hs D ++ [(st, h)])))).
  { intros P -> HP1 HP2 HPs HPf. cbn. split; [|auto]. apply (along_weaken P); [|done].
    by apply along_last. }
  destruct Hs as [Hb|[Hc|Ha]].
  - apply (Hnil before); unfold safe; try tauto.
    + specialize (Hlen [] (proj1 Hb)). destruct hs; [done|]. rewrite zlen_cons in Hlen.
      pose proof (zlen_nonneg hs). rewrite zlen_nil in Hlen. lia.
    + split; [by rewrite fupd_eq|]. intros b Hbh.
      rewrite fupd_ne by (by apply start_in_log). by apply Hb.
  - assert (hs = bs) as ->.
    { specialize (Hlen bs (proj1 Hc)). destruct Hor as [->|]; [|done].
      destruct bs as [|b cs]; [done|]. rewrite zlen_cons in Hlen. pose proof (zlen_nonneg cs).
      rewrite zlen_nil in Hlen. lia. }
    rewrite (installs_news _ _ new) by apply Hc. destruct (install_safe D h Hc Hh). auto.
  - apply (Hnil after); unfold safe; try tauto.
    + specialize (Hlen [] (proj1 Ha)). destruct hs; [done|]. rewrite zlen_cons in Hlen.
      pose proof (zlen_nonneg hs). rewrite zlen_nil in Hlen. lia.
    + split; [by rewrite fupd_eq|]. intros b Hbh.
      rewrite fupd_ne by (by apply start_in_log). by apply Ha.
Qed.

(** Only the blocks of the disk matter. *)
Lemma safe_ext D D' : (forall b, 0 <= b < N -> D' b = D b) -> safe D -> safe D'.
Proof.
  intros He Hs. pose proof Hlg as [L1 L2 L3 L4 L5 L6 L7]. pose proof (zlen_nonneg bs).
  assert (Hst : D' st = D st) by (apply He; lia).
  destruct Hs as [[H1 H2]|[(H1 & H2 & H3)|[H1 H2]]].
  - left. split; [by rewrite Hst|]. intros b Hb. rewrite He by apply Hb. auto.
  - right; left. split_and!; [by rewrite Hst| |].
    + intros i b Hi. pose proof (lookup_lt_Some _ _ _ Hi). unfold zlen in *.
      rewrite He by lia. auto.
    + intros b Hb Hnb. rewrite He by apply Hb. auto.
  - right; right. split; [by rewrite Hst|]. intros b Hb. rewrite He by apply Hb. auto.
Qed.

End states.

(** ** Crashes and reboots *)

(** The disk image when only the writes [ws] reached it. *)
Fixpoint crash_after (m : list Z) (ws : list (Z * list Z)) : list Z :=
  match ws with
  | [] => m
  | (b, x) :: ws =>
    match arr_write m (b * BSIZE) x with Ok m' => crash_after m' ws | _ => m end
  end.

Definition valid_write (N : Z) (w : Z * list Z) : Prop := 0 <= w.1 < N /\ zlen w.2 = BSIZE.

Lemma blk_crash m N ws :
  N * BSIZE <= zlen m -> Forall (valid_write N) ws ->
  zlen (crash_after m ws) = zlen m /\
  forall b, 0 <= b -> blk (crash_after m ws) b = dapply (blk m) ws b.
Proof.
  intros HN Hv. revert m HN. induction Hv as [|[a x] ws [Ha Hx] Hv IH]; intros m HN; [done|].
  cbn [crash_after dapply fst snd] in *.
  destruct (arr_write_blk m a x) as (m' & -> & Hz & Hb); [lia|unfold BSIZE in *; nia|done|].
  destruct (IH m' ltac:(lia)) as [Hz' Hb']. split; [lia|]. intros b H0. rewrite Hb' by done.
  apply (dapply_ext (fun y => 0 <= y)); [|done]. intros y Hy. by rewrite Hb.
Qed.

Lemma log0_bno : Forall is_bno (lh_block log0).
Proof. apply Forall_replicate. done. Qed.

Section reboot.
Variable mypid : Z.

(** The machine boots from the image [m] and runs [initlog]; either it gets to
    the end, or it crashes after some of the writes and boots again.  [m'] is
    the image when it has got to the end. *)
Inductive recovers : list Z -> list Z -> Prop :=
| recovers_done m s d :
  bio_boot m = Ok s -> initlog mypid 1 {| dlog := log0; dbio := s |} = Ok ((), d) ->
  recovers m (memdisk (dbio d))
| recovers_crash m s d k m' :
  bio_boot m = Ok s -> initlog mypid 1 {| dlog := log0; dbio := s |} = Ok ((), d) ->
  recovers (crash_after m (take k (writes (dbio d)))) m' -> recovers m m'.

Section states.
Variables (N st sz : Z) (bs : list Z) (old new : Z -> list Z).
Hypothesis Hlg : loggable N st sz bs.
Hypothesis Hnew : forall b, home N st sz b -> b ∉ bs -> new b = old b.
Hypothesis Hsb : sb_is (old 1) st sz.

Lemma home_sb : home N st sz 1 /\ 1 ∉ bs.
Proof.
  destruct Hlg as [L1 L2 L3 L4 L5 L6 L7]. pose proof (zlen_nonneg bs). split; [|done].
  split; [lia|]. unfold in_log. lia.
Qed.

Lemma safe_sb D : safe N st sz bs old new D -> sb_is (D 1) st sz.
Proof.
  destruct home_sb as [Hh Hn]. intros [[_ H]|[(_ & _ & H)|[_ H]]]; rewrite H by done;
    rewrite ?Hnew by done; done.
Qed.

(** One boot from a safe image. *)
Lemma boot_recovers m :
  zlen m < 2 ^ 32 -> N = zlen m / BSIZE -> safe N st sz bs old new (blk m) ->
  exists s d ws, bio_boot m = Ok s /\ initlog mypid 1 {| dlog := log0; dbio := s |} = Ok ((), d) /\
    writes (dbio d) = ws /\ Forall (valid_write N) ws /\
    along (safe N st sz bs old new) (blk m) ws /\
    (forall b, 0 <= b < N -> blk (memdisk (dbio d)) b = dapply (blk m) ws b) /\
    (before N st sz old (dapply (blk m) ws) \/ after N st sz new (dapply (blk m) ws)).
Proof.
  intros Hm HN Hs. destruct (rep_boot m Hm) as (s & Hb & Hr).
  destruct (safe_head _ _ _ _ _ _ Hlg _ Hs) as (hs & Hhd & Hl).
  assert (Hsmall : N < 2 ^ 31).
  { subst N. apply Z.div_lt_upper_bound; unfold BSIZE; lia. }
  assert (Hl' : loggable (nblk (boot_view m)) st sz hs) by (cbn [nblk boot_view]; by rewrite <- HN).
  assert (Hs' : nblk (boot_view m) < 2 ^ 31) by (cbn [nblk boot_view]; by rewrite <- HN).
  destruct (initlog_spec mypid log0 (boot_view m) st sz hs eq_refl log0_bno eq_refl eq_refl (safe_sb _ Hs)
    Hl' (proj1 Hhd) Hs' {| dlog := log0; dbio := s |} (conj eq_refl Hr))
    as ([] & d & Hi & h & l' & [Hh _] & _ & Hr'). change (cur (boot_view m)) with (blk m) in Hr'.
  destruct (puts_fields (installs (st + 1) hs (blk m) ++ [(st, h)]) (boot_view m))
    as (_ & Ed & _ & Et & En & _).
  destruct Hr' as (_ & _ & _ & [_ _ Hd Ht Hv _]). rewrite Et in Ht, Hv. rewrite En in Hd, Hv.
  rewrite Ed in Hd. cbn [boot_view disk trace nblk cur] in Ht, Hv, Hd. rewrite <- HN in Hd, Hv.
  destruct (recovery_safe N st sz bs old new Hlg Hnew (blk m) hs h Hs Hhd Hh) as [Hal Hend].
  exists s, d, (installs (st + 1) hs (blk m) ++ [(st, h)]).
  split_and!; [exact Hb|exact Hi|exact Ht|exact Hv|exact Hal| |exact Hend].
  intros b Hb'. by rewrite <- Hd.
Qed.

Lemma recovers_atomic m m' : recovers m m' ->
  zlen m < 2 ^ 32 -> N = zlen m / BSIZE -> safe N st sz bs old new (blk m) ->
  (forall b, home N st sz b -> blk m' b = old b) \/ (forall b, home N st sz b -> blk m' b = new b).
Proof.
  induction 1 as [m s d Hb Hi|m s d k m' Hb Hi Hrec IH]; intros Hm HN Hs.
  - destruct (boot_recovers m Hm HN Hs) as (s' & d' & ws & Hb' & Hi' & Hw & _ & _ & Hd & Hend).
    rewrite Hb in Hb'. injection Hb' as <-. rewrite Hi in Hi'. injection Hi' as <-.
    destruct Hend as [[_ He]|[_ He]]; [left|right]; intros b Hh; rewrite Hd by apply Hh; auto.
  - destruct (boot_recovers m Hm HN Hs) as (s' & d' & ws & Hb' & Hi' & Hw & Hv & Hal & Hd & Hend).
    rewrite Hb in Hb'. injection Hb' as <-. rewrite Hi in Hi'. injection Hi' as <-.
    rewrite Hw in *. assert (Hvk : Forall (valid_write N) (take k ws)) by (by apply Forall_take).
    assert (HNm : N * BSIZE <= zlen m).
    { subst N. pose proof (Z.mul_div_le (zlen m) BSIZE ltac:(done)). lia. }
    destruct (blk_crash m N (take k ws) HNm Hvk) as [Hz Hbk].
    apply IH; [lia|by rewrite Hz|].
    apply (safe_ext N st sz bs old new Hlg (dapply (blk m) (take k ws))); [|apply Hal].
    intros b Hbr. apply Hbk. lia.
Qed.

End states.
End reboot.

(** ** The theorem *)

(** A transaction of the blocks [bs], ready to be committed: its log on the
    disk is empty, nothing is held, and [bs] are the pinned blocks. *)
Record ready (d : dsk) (v : view) (sz : Z) (bs : list Z) : Prop := {
  rd_rep : rep (dbio d) v;
  rd_header : header_is (dlog d) bs;
  rd_loggable : loggable (nblk v) (start (dlog d)) sz bs;
  rd_some : bs <> [];
  rd_few : zlen bs < NBUF;
  rd_quiet : quiet v;
  rd_pinned : pinned v = list_to_set bs;
  rd_empty : is_head (disk v (start (dlog d))) [];
  rd_sb : sb_is (disk v 1) (start (dlog d)) sz;
}.

(** C6. Committing is atomic with respect to crashes: [commit] succeeds, and
    installs the transaction; when the machine stops after any number of its
    disk writes and reboots, possibly several times because it stops during
    recovery again, then recovery gets to its end, and every block outside the
    log has its old contents, or every one has its new contents. *)
Theorem commit_crash_atomic mypid d v sz bs :
  ready d v sz bs ->
  let old := memdisk (dbio d) in
  let outside b := home (nblk v) (start (dlog d)) sz b in
  exists d' ws, commit mypid d = Ok ((), d') /\ writes (dbio d') = writes (dbio d) ++ ws /\
    (forall b, outside b -> blk (memdisk (dbio d')) b = cur v b) /\
    forall k, let m := crash_after old (take k ws) in
      (exists m', recovers mypid m m') /\
      forall m', recovers mypid m m' ->
        (forall b, outside b -> blk m' b = blk old b) \/
        (forall b, outside b -> blk m' b = cur v b).
Proof.
  intros [Hr Hh Hl Hne Hf Hq Hp Hemp Hsb] old outside.
  set (l := dlog d) in *. set (st := start l) in *.
  destruct (commit_spec mypid l v sz bs Hh Hl Hne Hf Hq Hp d) as ([] & d' & Hc & h1 & h2 & (Hz1 & Hh1 & Hh2) & Hat);
    [done|].
  change (start l) with st in Hat. set (ws := commit_writes st bs (cur v) h1 h2) in *.
  destruct (puts_fields ws v) as (_ & Ed & _ & Et & En & _).
  destruct Hat as (_ & _ & _ & _ & [Hnb Hmm Hd' Ht Hv _]). rewrite Et in Ht, Hv. rewrite En in Hd', Hv.
  pose proof Hr as (_ & _ & Hbr & [_ Hmem Hdk Htr _ [Hm HN]]).
  assert (Hnew : forall b, home (nblk v) st sz b -> b ∉ bs -> cur v b = disk v b).
  { intros b [Hb _] Hnb'. apply (r_clean _ _ Hbr); [done|rewrite Hp; set_solver|by apply quiet_free]. }
  assert (Hbef : before (nblk v) st sz (disk v) (disk v)) by done.
  destruct (commit_safe (nblk v) st sz bs (disk v) (cur v) Hl Hnew (disk v) (cur v) h1 h2
    Hbef ltac:(done) Hh1 Hh2) as [Hal Haf]. fold ws in Hal, Haf.
  exists d', ws. split_and!; [done|by rewrite Ht, Htr| |].
  { intros b Hb. rewrite <- Hd' by apply Hb. rewrite Ed. by apply Haf. }
  apply Forall_app in Hv as [_ Hv]. intros k m.
  assert (Hvk : Forall (valid_write (nblk v)) (take k ws)) by (by apply Forall_take).
  destruct (blk_crash old (nblk v) (take k ws) Hmem Hvk) as [Hz Hbk].
  assert (Hs : safe (nblk v) st sz bs (disk v) (cur v) (blk m)).
  { apply (safe_ext _ _ _ _ _ _ Hl (dapply (disk v) (take k ws))); [|apply Hal].
    intros b Hb. unfold m. rewrite Hbk by lia.
    apply (dapply_ext (fun y => 0 <= y < nblk v)); [|done]. intros y Hy. symmetry. by apply Hdk. }
  assert (Hzm : zlen m < 2 ^ 32) by (unfold m; rewrite Hz; exact Hm).
  assert (HNm : nblk v = zlen m / BSIZE) by (unfold m; rewrite Hz; exact HN).
  split.
  - destruct (boot_recovers mypid (nblk v) st sz bs (disk v) (cur v) Hl Hnew Hsb m)
      as (s & dd & ? & ? & ? & _); [done..|].
    eexists. by eapply recovers_done.
  - intros m' Hrec.
    destruct (recovers_atomic mypid (nblk v) st sz bs (disk v) (cur v) Hl Hnew Hsb m m' Hrec)
      as [Hx|Hx]; [done..| |].
    + left. intros b Hb. rewrite Hx by done. apply Hdk, Hb.
    + by right.
Qed.
