(* ===== verification/Transact.v ===== *)
(** * Transactions

    System calls use the log as [begin_op(); ...; log_write(b); ...; end_op();].
    A run of such calls keeps the invariant that [commit] needs, presents the
    blocks as last written, and has them on the disk as soon as no call is
    outstanding. *)

From stdpp Require Import base list strings gmap sets.
From Stdlib Require Import ZArith Lia.
From S2P Require Import Prelude State Bio BioProofs Log LogProofs CrashProofs.

(** ** [log_write] *)

Lemma absorb_spec n i bs bno :
  0 <= i -> i + Z.of_nat n <= zlen bs ->
  (forall j b, bs !! j = Some b -> u32 b = b) ->
  exists k, absorb n i bs bno = Ok k /\
    ((i <= k < i + Z.of_nat n /\ bs !! Z.to_nat k = Some bno) \/
     (k = i + Z.of_nat n /\ forall j, i <= j < i + Z.of_nat n -> bs !! Z.to_nat j <> Some bno)).
Proof.
  revert i. induction n as [|n IH]; intros i Hi Hn Hu; cbn [absorb].
  { exists i. split; [done|]. right. split; [lia|]. intros j Hj. lia. }
  destruct (arr_get_ok bs i) as [b Hb]; [lia|]. rewrite Hb. cbn [mbind res_bind].
  apply arr_get_Ok in Hb as [_ Hb]. rewrite (Hu _ _ Hb). destruct (Z.eqb_spec b bno) as [->|Hne].
  { exists i. split; [done|]. left. split; [lia|done]. }
  destruct (IH (i + 1)) as (k & Hk & Hor); [lia|lia|done|]. exists k. split; [done|].
  destruct Hor as [[? ?]|[? Hno]]; [left; split; [lia|done]|right; split; [lia|]].
  intros j Hj. destruct (Z.eq_dec j i) as [->|]; [congruence|apply Hno; lia].
Qed.

(** The block list after [log_write] of block [b]. *)
Definition absorbed (bs : list Z) (b : Z) : list Z := if decide (b ∈ bs) then bs else bs ++ [b].

Lemma absorbed_set bs b : list_to_set (absorbed bs b) = ({[b]} ∪ list_to_set bs : gset Z).
Proof.
  unfold absorbed. apply set_eq. intros x. case_decide; rewrite ?list_to_set_app; set_solver.
Qed.

Lemma zlen_absorbed bs b : zlen bs <= zlen (absorbed bs b) <= zlen bs + 1.
Proof. unfold absorbed. case_decide; rewrite ?zlen_app; change (zlen [b]) with 1; lia. Qed.

Lemma log_write_spec l v h b bs :
  header_is l bs -> held v !! h = Some b -> Forall is_bno (b :: bs) ->
  zlen bs < LOGSIZE -> zlen bs < Log.size l - 1 -> 1 <= outstanding l ->
  Forall is_bno (lh_block l) ->
  hoare (at_ l v) (log_write h) (fun _ s => exists l',
    (header_is l' (absorbed bs b) /\ same_log l l' /\ Forall is_bno (lh_block l'))
    /\ at_ l' (v_pin b v) s).
Proof.
  intros (Hdev & Hz & Hn & Htk) Hh [Hb Hbs]%Forall_cons Hlog Hsz Hout Hall.
  eapply hoare_seq; [apply gets_log_spec|]. intros _ ->. rewrite Hn.
  destruct (Z.leb_spec LOGSIZE (zlen bs)), (Z.leb_spec (Log.size l - 1) (zlen bs)),
    (Z.ltb_spec (outstanding l) 1); try lia. cbn [orb].
  eapply hoare_seq; [apply (buf_block_spec _ _ h b); done|]. intros _ ->.
  assert (Hpre : forall i c, bs !! i = Some c -> lh_block l !! i = Some c).
  { intros i c Hi. rewrite <- Htk in Hi. by apply lookup_take_Some in Hi as [? _]. }
  assert (Hpre' : forall i c, (i < length bs)%nat -> lh_block l !! i = Some c -> bs !! i = Some c).
  { intros i c Hi Hc. rewrite <- Htk, lookup_take, decide_True by lia. done. }
  destruct (absorb_spec (length bs) 0 (lh_block l) b) as (k & Hk & Hor); [lia|unfold zlen in *; lia| |].
  { intros j c Hc. rewrite Forall_lookup in Hall. specialize (Hall j c Hc). apply u32_small. unfold is_bno in Hall. lia. }
  eapply hoare_seq; [refine (hoare_pure _ _ k _)|].
  { by replace (Z.to_nat (zlen bs)) with (length bs) by (unfold zlen; lia). }
  intros _ ->.
  assert (Hkb : 0 <= k < zlen (lh_block l)) by (unfold zlen in *; destruct Hor as [[? _]|[? _]]; lia).
  eapply hoare_seq; [exact (hoare_pure _ _ _ (arr_set_ok (lh_block l) k (s32 b) Hkb))|]. intros _ ->.
  rewrite s32_small by (unfold is_bno in Hb; lia). set (bs' := <[Z.to_nat k := b]> (lh_block l)).
  eapply hoare_bind; [apply log_upd_spec|]. intros []. cbn beta.
  set (l1 := with_lh_block l bs').
  assert (Hz1 : zlen bs' = LOGSIZE) by (unfold bs', zlen in *; by rewrite length_insert).
  assert (Hall1 : Forall is_bno bs') by (by apply Forall_insert).
  destruct (Z.eqb_spec k (zlen bs)) as [Hend|Hend].
  - eapply hoare_bind; [apply log_upd_spec|]. intros []. cbn beta.
    eapply hoare_post; [by apply (pin_spec _ _ h b)|]. intros [] s Hs.
    exists (with_lh_n l1 (lh_n l1 + 1)). split; [|done].
    assert (Hnb : b ∉ bs).
    { destruct Hor as [[? _]|[_ Hno]]; [unfold zlen in *; lia|]. intros (i & Hi)%list_elem_of_lookup.
      pose proof (lookup_lt_Some _ _ _ Hi). apply (Hno (Z.of_nat i)); [lia|].
      rewrite Nat2Z.id. by apply Hpre. }
    unfold absorbed. rewrite decide_False by done. split; [|done].
    split_and!; [done|done| |].
    + cbn. rewrite Hn, zlen_app. done.
    + cbn. rewrite length_app. cbn [length]. unfold bs'. rewrite Hend.
      replace (Z.to_nat (zlen bs)) with (length bs) by (unfold zlen; lia).
      rewrite Nat.add_1_r, (take_S_r _ _ b) by (apply list_lookup_insert_eq; unfold zlen in *; lia).
      rewrite take_insert_ge by lia. by rewrite Htk.
  - eapply hoare_bind; [apply hoare_ret|]. intros []. cbn beta. apply hoare_and. intros _.
    eapply hoare_post; [by apply (pin_spec _ _ h b)|]. intros [] s Hs.
    exists l1. split; [|done]. destruct Hor as [[Hr Hkk]|[? _]]; [|unfold zlen in *; lia].
    assert (Hin : b ∈ bs) by (apply list_elem_of_lookup; exists (Z.to_nat k); apply Hpre'; [lia|done]).
    unfold absorbed. rewrite decide_True by done. split; [|done]. split_and!; [done|done|done|].
    cbn. unfold bs'. by rewrite list_insert_id.
Qed.

(** ** The invariant between calls *)

(** What [commit] relies on. *)
Record lcore (st sz : Z) (d : dsk) (v : view) (bs : list Z) : Prop := {
  li_rep : rep (dbio d) v;
  li_header : header_is (dlog d) bs;
  li_blocks : Forall is_bno (lh_block (dlog d));
  li_place : start (dlog d) = st /\ Log.size (dlog d) = sz /\ sz <= NBUF;
  li_loggable : loggable (nblk v) st sz bs;
  li_quiet : quiet v;
  li_pinned : pinned v = list_to_set bs;
  li_empty : is_head (disk v st) [];
  li_sb : sb_is (disk v 1) st sz;
}.

Definition linv (st sz : Z) (d : dsk) (v : view) (bs : list Z) : Prop :=
  lcore st sz d v bs /\ committing (dlog d) = 0 /\ 0 <= outstanding (dlog d) /\
  (outstanding (dlog d) = 0 -> bs = []).

(** The counters are not part of it. *)
Lemma lcore_calls st sz d v bs o c : lcore st sz d v bs ->
  lcore st sz (with_log d (with_committing (with_outstanding (dlog d) o) c)) v bs.
Proof. intros []. by constructor. Qed.

Lemma lcore_few st sz d v bs : lcore st sz d v bs -> zlen bs < NBUF.
Proof. intros [_ _ _ (_ & _ & H1) [_ _ H2 _ _ _ _] _ _ _ _]. lia. Qed.

(** The invariant has what the crash theorem asks for. *)
Lemma lcore_ready st sz d v bs :
  lcore st sz d v bs -> bs <> [] -> ready d v sz bs.
Proof.
  intros Hi Hne. pose proof (lcore_few _ _ _ _ _ Hi).
  destruct Hi as [? ? ? (Hst & _ & _) ? ? ? ? ?]. constructor; rewrite ?Hst; done.
Qed.

Lemma rep_small s v : rep s v -> nblk v < 2 ^ 31.
Proof. intros (_ & _ & _ & [(_ & ? & ?) _ _ _ _ _]). unfold BSIZE in *. lia. Qed.

(** With no call outstanding, the disk has the current contents. *)
Lemma linv_durable st sz d v bs :
  linv st sz d v bs -> outstanding (dlog d) = 0 ->
  forall b, home (nblk v) st sz b -> blk (memdisk (dbio d)) b = cur v b.
Proof.
  intros ([Hr _ _ _ _ Hq Hp _ _] & _ & _ & Hid) Ho b [Hb _]. destruct Hr as (_ & _ & Hbr & Hd).
  rewrite <- (d_disk _ _ Hd) by done. symmetry. apply (r_clean _ _ Hbr); [done| |by apply quiet_free].
  rewrite Hp, (Hid Ho). set_solver.
Qed.

Lemma loggable_absorbed N st sz bs b :
  loggable N st sz bs -> home N st sz b -> b <> 1 -> N < 2 ^ 31 ->
  zlen bs < LOGSIZE -> zlen bs < sz - 1 -> loggable N st sz (absorbed bs b).
Proof.
  intros [H1 H2 H3 H4 H5 H6 H7] Hb Hne HN Hlt Hlt2. pose proof (zlen_absorbed bs b) as Hz.
  assert (Hin : forall x, x ∈ absorbed bs b -> x ∈ bs \/ x = b).
  { unfold absorbed. intros x. case_decide; set_solver. }
  constructor; try done; try lia.
  - intros x [Hx| ->]%Hin; auto.
  - apply Forall_forall. intros x [Hx| ->]%Hin.
    + rewrite Forall_forall in H6. auto.
    + apply s32_small. destruct Hb as [? _]. lia.
  - intros [Hx| <-]%Hin; done.
Qed.

(** ** Calls *)

Inductive fop :=
| Begin
| Update (b : Z) (x : list Z)
| End.

Definition run_fop (mypid : Z) (o : fop) : ST dsk unit :=
  match o with
  | Begin => begin_op
  | Update b x =>
    h ← dbread mypid 1 b;
    _ ← buf_store h x;
    _ ← log_write h;
    dbrelse h
  | End => end_op mypid
  end.

Fixpoint run_fops (mypid : Z) (os : list fop) : ST dsk unit :=
  match os with
  | [] => mret ()
  | o :: os => _ ← run_fop mypid o; run_fops mypid os
  end.

(** The contents the calls are meant to leave. *)
Definition apply_fop (C : Z -> list Z) (o : fop) : Z -> list Z :=
  match o with Update b x => fupd C b x | _ => C end.

(** Calls are bracketed ([n] are outstanding) and write whole blocks outside the
    log, not the super block. *)
Fixpoint bracketed (N st sz n : Z) (os : list fop) : Prop :=
  match os with
  | [] => True
  | Begin :: os => bracketed N st sz (n + 1) os
  | Update b x :: os =>
    1 <= n /\ home N st sz b /\ b <> 1 /\ zlen x = BSIZE /\ bracketed N st sz n os
  | End :: os => 1 <= n /\ bracketed N st sz (n - 1) os
  end.

(** How a call may end without success: [begin_op] waits, or the transaction
    does not fit the log. *)
Definition excused (e : Prelude.fault) : Prop :=
  e = Blocked \/ e = Panic "too big a transaction".

Section calls.
Variables (mypid st sz : Z).

Lemma begin_ok d v bs : linv st sz d v bs ->
  match begin_op d with
  | Ok (_, d') => linv st sz d' v bs /\ outstanding (dlog d') = outstanding (dlog d) + 1
  | Err => False
  | Fault e => excused e
  end.
Proof.
  intros (Hi & Hc & Ho & Hid). cbv [begin_op gets mbind st_bind].
  rewrite Hc. cbn [Z.eqb negb]. destruct (Z.ltb_spec LOGSIZE (lh_n (dlog d) + (outstanding (dlog d) + 1) * MAXOPBLOCKS)).
  { by left. }
  cbn. split; [|done]. split_and!; [|done|cbn; lia|cbn; lia].
  destruct Hi. by constructor.
Qed.

(** The block read and modified, up to [log_write]. *)
Lemma update_start d v bs b x :
  lcore st sz d v bs -> home (nblk v) st sz b -> zlen x = BSIZE ->
  exists h d2, held v !! h = None /\ at_ (dlog d) (v_data b x (v_hold h b v)) d2 /\
    run_fop mypid (Update b x) d = (_ ← log_write h; dbrelse h) d2.
Proof.
  intros Hi Hb Hx. pose proof (lcore_few _ _ _ _ _ Hi) as Hfew.
  destruct Hi as [Hr Hh Hbl _ Hlg Hq Hp He Hsb].
  assert (Hf : few v 1) by (by apply (few_pinned v bs)). cbn [run_fop].
  destruct (dbread_spec mypid (dlog d) v b (proj1 Hb) (quiet_free v b Hq) (room_quiet v b Hq Hf) d (conj eq_refl Hr))
    as (h & d1 & E1 & Hh1 & H1). rewrite (bind_run _ _ _ _ _ E1).
  destruct (buf_store_spec (dlog d) (v_hold h b v) h b x) with (s := d1) as ([] & d2 & E2 & H2);
    [cbn; by rewrite lookup_insert_eq|done|done|].
  rewrite (bind_run _ _ _ _ _ E2). by exists h, d2.
Qed.

Lemma update_succeeds d v bs b x :
  linv st sz d v bs -> 1 <= outstanding (dlog d) -> home (nblk v) st sz b -> b <> 1 ->
  zlen x = BSIZE -> zlen bs < LOGSIZE -> zlen bs < sz - 1 ->
  exists d', run_fop mypid (Update b x) d = Ok ((), d') /\
    linv st sz d' (v_pin b (v_data b x v)) (absorbed bs b) /\
    outstanding (dlog d') = outstanding (dlog d).
Proof.
  intros (Hi & Hc & _ & Hid) Ho Hb Hne Hx Hg1 Hg2.
  destruct (update_start d v bs b x Hi Hb Hx) as (h & d2 & Hh1 & H2 & ->).
  destruct Hi as [Hr Hh Hbl (Hst & Hsz & Hnb) Hlg Hq Hp He Hsb].
  pose proof (rep_small _ _ Hr) as HN. rewrite <- Hsz in Hg2.
  assert (Hbs : Forall is_bno (b :: bs)).
  { apply Forall_cons. split; [destruct Hb as [? _]; unfold is_bno; lia|].
    by apply (loggable_bno (nblk v) st sz). }
  assert (Hhb : held (v_hold h b v) !! h = Some b) by (cbn; by rewrite lookup_insert_eq).
  destruct (log_write_spec (dlog d) (v_data b x (v_hold h b v)) h b bs Hh Hhb Hbs Hg1 Hg2 Ho Hbl d2 H2)
    as ([] & d3 & E3 & l' & (Hh' & (S1 & S2 & S3 & S4 & S5) & Hbl') & H3).
  rewrite (bind_run _ _ _ _ _ E3).
  destruct (dbrelse_spec l' (v_pin b (v_data b x (v_hold h b v))) h b) with (s := d3)
    as ([] & d4 & E4 & Hl4 & Hr4); [done|left; cbn; set_solver|done|].
  exists d4. split; [done|]. split; [|by rewrite Hl4].
  assert (Hv : v_release h (v_pin b (v_data b x (v_hold h b v))) = v_pin b (v_data b x v)).
  { apply view_eq; try done. cbn. by rewrite delete_insert_id. }
  rewrite Hv in Hr4. split_and!; rewrite ?Hl4, ?S3, ?S4; [|done|lia|lia].
  constructor; rewrite ?Hl4, ?S1, ?S2; try done.
  - apply loggable_absorbed; try done. lia.
  - cbn. by rewrite Hp, absorbed_set.
Qed.

Lemma update_ok d v bs b x :
  linv st sz d v bs -> 1 <= outstanding (dlog d) -> home (nblk v) st sz b -> b <> 1 ->
  zlen x = BSIZE ->
  match run_fop mypid (Update b x) d with
  | Ok (_, d') => (exists bs', linv st sz d' (v_pin b (v_data b x v)) bs') /\
      outstanding (dlog d') = outstanding (dlog d)
  | Err => False
  | Fault e => excused e
  end.
Proof.
  intros Hi Ho Hb Hne Hx. destruct (decide (zlen bs < LOGSIZE /\ zlen bs < sz - 1)) as [[Hg1 Hg2]|Hg].
  - destruct (update_succeeds d v bs b x) as (d' & -> & ? & ?); eauto.
  - destruct Hi as [Hi _]. destruct (update_start d v bs b x Hi Hb Hx) as (h & d2 & _ & [Hl2 _] & ->).
    destruct Hi as [_ (_ & _ & Hn & _) _ (_ & Hsz & _) _ _ _ _ _].
    rewrite (bind_run_fault _ _ _ (Panic "too big a transaction")); [by right|].
    unfold log_write. rewrite (bind_run _ _ d2 (dlog d) d2) by (unfold gets; by rewrite Hl2).
    rewrite Hn, Hsz.
    destruct (Z.leb_spec LOGSIZE (zlen bs)), (Z.leb_spec (sz - 1) (zlen bs)); done || lia.
Qed.

(** ** The end of a call *)

Lemma dapply_same D ws b y :
  D b = y -> (forall x, (b, x) ∈ ws -> x = y) -> dapply D ws b = y.
Proof.
  revert D. induction ws as [|[c x] ws IH]; intros D HD Hw; [done|]. cbn. apply IH.
  - unfold fupd. case_decide as Hd; [subst c; apply Hw; set_solver|done].
  - intros z Hz. apply Hw. set_solver.
Qed.

Lemma commit_ok d v bs :
  lcore st sz d v bs ->
  exists d' v', commit mypid d = Ok ((), d') /\ lcore st sz d' v' [] /\
    (forall b, home (nblk v) st sz b -> cur v' b = cur v b) /\ nblk v' = nblk v /\
    same_log (dlog d) (dlog d').
Proof.
  intros Hi. pose proof (lcore_few _ _ _ _ _ Hi) as Hfew.
  pose proof Hi as [Hr Hh Hbl (Hst & Hsz & Hnb) Hlg Hq Hp He Hsb].
  destruct (decide (bs = [])) as [->|Hne].
  { exists d, v. split_and!; try done.
    destruct Hh as (_ & _ & Hn & _). cbv [commit gets mbind st_bind]. by rewrite Hn. }
  rewrite <- Hst in Hlg.
  destruct (commit_spec mypid (dlog d) v sz bs Hh Hlg Hne Hfew Hq Hp d (conj eq_refl Hr))
    as ([] & d' & Hc & h1 & h2 & (Hz1 & Hh1 & Hh2) & Hl' & Hr').
  rewrite Hst in *. set (ws := commit_writes st bs (cur v) h1 h2) in *.
  destruct (puts_fields ws v) as (Ec & Ed & Eh & Et & En & Ep).
  pose proof Hr as (_ & _ & Hbr & _).
  assert (Hnew : forall b, home (nblk v) st sz b -> b ∉ bs -> cur v b = disk v b).
  { intros b [Hb _] Hnb'. apply (r_clean _ _ Hbr); [done|rewrite Hp; set_solver|by apply quiet_free]. }
  destruct (commit_safe (nblk v) st sz bs (disk v) (cur v) Hlg Hnew (disk v) (cur v) h1 h2
    ltac:(done) ltac:(done) Hh1 Hh2) as [_ [Haf1 Haf2]]. fold ws in Haf1, Haf2.
  assert (Hhome1 : home (nblk v) st sz 1 /\ 1 ∉ bs) by (by apply (home_sb (nblk v) st sz bs)).
  exists d', (puts ws v). split_and!; [done| | |done|by rewrite Hl'].
  - constructor; rewrite ?Hl'; cbn -[puts]; try done.
    + destruct Hh as (? & ? & _ & _). done.
    + rewrite En. by apply (loggable_nil _ _ _ bs).
    + unfold quiet. by rewrite Eh.
    + apply set_eq. intros b. rewrite Ep, Hp. cbn. unfold ws, commit_writes.
      rewrite !fmap_app, news_fst. set_solver.
    + by rewrite Ed.
    + rewrite Ed, Haf2 by apply Hhome1. by rewrite Hnew by apply Hhome1.
  - intros b Hb. rewrite Ec. apply dapply_same; [done|]. intros x Hx.
    unfold ws, commit_writes in Hx. destruct Hb as [Hb Hnl].
    pose proof (zlen_nonneg bs). pose proof (lg_room _ _ _ _ Hlg).
    apply elem_of_app in Hx as [Hx|Hx].
    { assert (Hin : b ∈ (copies (st + 1) bs (cur v)).*1) by (apply list_elem_of_fmap; by exists (b, x)).
      apply copies_fst in Hin. unfold in_log in Hnl. lia. }
    assert (Hst' : b <> st) by (intros ->; unfold in_log in Hnl; lia).
    apply elem_of_app in Hx as [[= ? _]%list_elem_of_singleton|Hx]; [done|].
    apply elem_of_app in Hx as [(c & [= -> ->] & _)%list_elem_of_fmap|[= ? _]%list_elem_of_singleton]; done.
Qed.

Lemma end_ok d v bs : linv st sz d v bs -> 1 <= outstanding (dlog d) ->
  exists d' v' bs', end_op mypid d = Ok ((), d') /\ linv st sz d' v' bs' /\
    (forall b, home (nblk v) st sz b -> cur v' b = cur v b) /\ nblk v' = nblk v /\
    outstanding (dlog d') = outstanding (dlog d) - 1.
Proof.
  intros (Hi & Hc & _ & _) Ho.
  unfold end_op. set (d1 := with_log d (with_outstanding (dlog d) (outstanding (dlog d) - 1))).
  rewrite (bind_run _ _ d () d1), (bind_run _ _ d1 (dlog d1) d1) by done.
  cbn [d1 with_log dlog with_outstanding committing outstanding]. rewrite Hc. cbn [Z.eqb negb].
  destruct (Z.eqb_spec (outstanding (dlog d) - 1) 0) as [Hz|Hnz].
  - set (d2 := with_log d1 (with_committing (dlog d1) 1)). rewrite (bind_run _ _ d1 () d2) by done.
    assert (Hi2 : lcore st sz d2 v bs) by (destruct Hi; by constructor).
    destruct (commit_ok d2 v bs Hi2) as (d3 & v' & Hcm & Hi3 & Hcur & Hn & (_ & _ & So & _)).
    rewrite (bind_run _ _ _ _ _ Hcm). cbn in So.
    eexists _, v', []. split; [done|]. split; [|done].
    split_and!; [destruct Hi3; by constructor|done|cbn; lia|done].
  - exists d1, v, bs. split; [done|]. split; [|done].
    split_and!; [destruct Hi; by constructor|done|cbn; lia|cbn; lia].
Qed.

(** A run of calls, from a cache that presents the contents [C]. *)
Lemma run_fops_ok N os d v bs C :
  linv st sz d v bs -> nblk v = N -> bracketed N st sz (outstanding (dlog d)) os ->
  (forall b, home N st sz b -> cur v b = C b) ->
  match run_fops mypid os d with
  | Ok (_, d') => exists v' bs', linv st sz d' v' bs' /\ nblk v' = N /\
      forall b, home N st sz b -> cur v' b = fold_left apply_fop os C b
  | Err => False
  | Fault e => excused e
  end.
Proof.
  revert d v bs C. induction os as [|o os IH]; intros d v bs C Hi HN Hbr HC; cbn [run_fops].
  { exists v, bs. done. }
  unfold mbind, st_bind. destruct o as [|b x|]; cbn [bracketed fold_left apply_fop] in *.
  - pose proof (begin_ok d v bs Hi) as Hs. cbn [run_fop]. destruct (begin_op d) as [[u d1]| |]; [|done|done].
    destruct Hs as [Hi1 Ho]. rewrite <- Ho in Hbr. by apply (IH d1 v bs).
  - destruct Hbr as (Ho & Hb & Hne & Hx & Hbr). rewrite <- HN in Hb.
    pose proof (update_ok d v bs b x Hi Ho Hb Hne Hx) as Hs.
    destruct (run_fop mypid (Update b x) d) as [[u d1]| |]; [|done|done].
    destruct Hs as [[bs' Hi1] Ho1]. rewrite <- Ho1 in Hbr.
    apply (IH d1 (v_pin b (v_data b x v)) bs'); try done.
    intros c Hc. cbn. unfold fupd. case_decide; [done|by apply HC].
  - destruct Hbr as [Ho Hbr]. cbn [run_fop]. destruct (end_ok d v bs Hi Ho) as (d1 & v1 & bs1 & -> & Hi1 & Hc & Hn & Ho1).
    rewrite <- Ho1 in Hbr. apply (IH d1 v1 bs1); try done; [congruence|].
    intros b Hb. rewrite Hc by congruence. by apply HC.
Qed.

End calls.

(** C4. System calls that bracket their updates by [begin_op] and [end_op] see
    and keep them: a run of such calls can stop only where [begin_op] waits or
    where a transaction is too big for the log, never in another panic; the
    cache then presents every block outside the log as last written, and when no
    call is outstanding the disk holds these contents. *)
Theorem transactions_durable mypid st sz os d v bs :
  linv st sz d v bs -> bracketed (nblk v) st sz (outstanding (dlog d)) os ->
  let outside b := home (nblk v) st sz b in
  match run_fops mypid os d with
  | Ok (_, d') => exists v' bs', linv st sz d' v' bs' /\
      (forall b, outside b -> cur v' b = fold_left apply_fop os (cur v) b) /\
      (outstanding (dlog d') = 0 -> forall b, outside b ->
         blk (memdisk (dbio d')) b = fold_left apply_fop os (cur v) b)
  | Err => False
  | Fault e => excused e
  end.
Proof.
  intros Hi Hbr outside. pose proof (run_fops_ok mypid st sz (nblk v) os d v bs (cur v) Hi eq_refl Hbr
    ltac:(done)) as H. destruct (run_fops mypid os d) as [[u d']| |]; [|done|done].
  destruct H as (v' & bs' & Hi' & Hn & Hc). exists v', bs'. split_and!; [done|done|].
  intros Ho b Hb. rewrite <- Hc by done.
  apply (linv_durable _ _ _ _ _ Hi' Ho). by rewrite Hn.
Qed.

(** ** From boot *)

(** Booting from an image with a readable log, and recovering, establishes the
    invariant. *)
Lemma boot_linv mypid m st sz hs :
  zlen m < 2 ^ 32 -> sz <= NBUF -> loggable (zlen m / BSIZE) st sz hs ->
  sb_is (blk m 1) st sz -> is_head (blk m st) hs ->
  exists s d v, bio_boot m = Ok s /\
    initlog mypid 1 {| dlog := log0; dbio := s |} = Ok ((), d) /\
    linv st sz d v [] /\ outstanding (dlog d) = 0 /\ nblk v = zlen m / BSIZE /\
    (hs = [] -> forall b, b <> st -> cur v b = blk m b).
Proof.
  intros Hm Hsz Hlg Hsb Hhd. destruct (rep_boot m Hm) as (s & Hb & Hr).
  assert (HN : zlen m / BSIZE < 2 ^ 31) by (apply Z.div_lt_upper_bound; unfold BSIZE; lia).
  destruct (initlog_spec mypid log0 (boot_view m) st sz hs eq_refl log0_bno eq_refl eq_refl Hsb
    Hlg Hhd HN {| dlog := log0; dbio := s |} (conj eq_refl Hr))
    as ([] & d & Hi & h & l' & [Hh (Hemp & (S1 & S2 & S3 & S4 & _) & Hbn)] & Hl & Hr').
  set (ws := installs (st + 1) hs (cur (boot_view m)) ++ [(st, h)]) in *.
  destruct (puts_fields ws (boot_view m)) as (Ec & Ed & Eh & _ & En & Ep).
  exists s, d, (puts ws (boot_view m)). rewrite Hl.
  split; [exact Hb|]. split; [exact Hi|]. clear Hb Hi.
  split; [|split; [exact S3|split; [exact En|]]].
  2:{ intros -> b Hb. rewrite Ec, dapply_ne; [done|]. by intros ->%list_elem_of_singleton. }
  split; [|rewrite Hl, S3, S4; done].
  pose proof Hlg as [L1 L2 L3 L4 L5 L6 L7]. pose proof (zlen_nonneg hs).
  constructor; rewrite ?Hl, ?S1, ?S2.
  - exact Hr'.
  - exact Hemp.
  - exact Hbn.
  - done.
  - rewrite En. by apply (loggable_nil _ _ _ hs).
  - unfold quiet. by rewrite Eh.
  - apply set_eq. intros b. rewrite Ep. cbn. set_solver.
  - rewrite Ed. unfold ws. rewrite dapply_app. cbn [dapply]. by rewrite fupd_eq.
  - rewrite Ed, dapply_ne; [done|]. unfold ws. rewrite fmap_app, installs_fst.
    intros [Hx|Hx]%elem_of_app; [done|]. apply list_elem_of_singleton in Hx. cbn in Hx. lia.
Qed.

(** ** An example: eight blocks, the log in blocks 2 to 4 *)

Definition demo_img : list Z :=
  replicate 512 0 ++
  (le_bytes 4 8 ++ le_bytes 4 2 ++ le_bytes 4 8 ++ le_bytes 4 3 ++ le_bytes 4 2 ++
   le_bytes 4 5 ++ le_bytes 4 6 ++ replicate 484 0) ++
  replicate 3072 0.

Lemma demo_boot : exists s d v, bio_boot demo_img = Ok s /\
  initlog 1 1 {| dlog := log0; dbio := s |} = Ok ((), d) /\
  linv 2 3 d v [] /\ outstanding (dlog d) = 0 /\ nblk v = 8.
Proof.
  assert (HN : zlen demo_img / BSIZE = 8) by (by vm_compute). rewrite <- HN.
  destruct (boot_linv 1 demo_img 2 3 []) as (s & d & v & H1 & H2 & H3 & H4 & H5 & _);
    [by vm_compute|by vm_compute| | | |exists s, d, v; split; [exact H1|split; [exact H2|split; [exact H3|split; [exact H4|exact H5]]]]].
  - rewrite HN. constructor; rewrite ?zlen_nil; try done.
    + by intros b Hb%elem_of_nil.
    + apply not_elem_of_nil.
  - eexists. split; [by vm_compute|done].
  - split; [by vm_compute|]. intros i b. by rewrite lookup_nil.
Qed.

Definition demo_block : list Z := replicate 512 7.

Lemma demo_home : home 8 2 3 5.
Proof. split; [lia|]. unfold in_log. lia. Qed.

Lemma transactions_durable_witness : exists s d v, bio_boot demo_img = Ok s /\
  initlog 1 1 {| dlog := log0; dbio := s |} = Ok ((), d) /\
  match run_fops 1 [Begin; Update 5 demo_block; End] d with
  | Ok (_, d') => exists v' bs', linv 2 3 d' v' bs' /\
      (forall b, home (nblk v) 2 3 b -> cur v' b = fupd (cur v) 5 demo_block b) /\
      (outstanding (dlog d') = 0 -> forall b, home (nblk v) 2 3 b ->
         blk (memdisk (dbio d')) b = fupd (cur v) 5 demo_block b)
  | Err => False
  | Fault e => excused e
  end.
Proof.
  destruct demo_boot as (s & d & v & Hb & Hi & Hinv & Ho & HN). exists s, d, v.
  split; [exact Hb|]. split; [exact Hi|].
  apply (transactions_durable 1 2 3 [Begin; Update 5 demo_block; End] d v [] Hinv).
  rewrite Ho, HN. cbn [bracketed]. clear. split_and!; try lia; [apply demo_home|done].
Defined.


(** The same transaction just before [end_op] commits it. *)
Lemma demo_ready : exists d v, ready d v 3 [5].
Proof.
  destruct demo_boot as (s & d & v & _ & _ & Hinv & Ho & HN).
  assert (Hinv1 : linv 2 3 (with_log d (with_outstanding (dlog d) 1)) v []).
  { destruct Hinv as (Hc & Hcm & _). split; [|done]. destruct Hc. by constructor. }
  pose proof demo_home as Hh. rewrite <- HN in Hh.
  destruct (update_succeeds 1 2 3 _ v [] 5 demo_block Hinv1) as (d' & _ & [Hc _] & _);
    [done|done|lia|done|done|done|].
  exists d', (v_pin 5 (v_data 5 demo_block v)). by apply (lcore_ready 2 3).
Qed.

Lemma commit_crash_atomic_witness : exists d v, ready d v 3 [5] /\
  exists d' ws, commit 1 d = Ok ((), d') /\ writes (dbio d') = writes (dbio d) ++ ws /\
    (forall b, home (nblk v) (start (dlog d)) 3 b -> blk (memdisk (dbio d')) b = cur v b) /\
    forall k, let m := crash_after (memdisk (dbio d)) (take k ws) in
      (exists m', recovers 1 m m') /\
      forall m', recovers 1 m m' ->
        (forall b, home (nblk v) (start (dlog d)) 3 b -> blk m' b = blk (memdisk (dbio d)) b) \/
        (forall b, home (nblk v) (start (dlog d)) 3 b -> blk m' b = cur v b).
Proof.
  destruct demo_ready as (d & v & H). exists d, v. split; [exact H|].
  exact (commit_crash_atomic 1 d v 3 [5] H).
Defined.
