(* ===== verification/Fs.v ===== *)
(** * The file system (fs.c)

    Blocks, inodes, file contents, directories and path names, on top of the
    log.  A [struct inode *] is an index of [icache.inode]; [icache.lock] is
    taken and given back inside the operations, [ip->lock] is a sleep lock of
    the state.  A path or name is the list of bytes from the pointer on.  The
    device switch table [devsw] is a parameter. *)

From stdpp Require Import base list strings.
From Stdlib Require Import ZArith Lia.
From S2P Require Import Prelude State KString Bio Log.

Definition NINODE : Z := 50.
Definition NDEV : Z := 10.
Definition ROOTDEV : Z := 1.
Definition ROOTINO : Z := 1.
Definition NDIRECT : Z := 12.
Definition NINDIRECT : Z := BSIZE / 4.
Definition MAXFILE : Z := NDIRECT + NINDIRECT * NINDIRECT.
Definition dinode_size : Z := 64.
Definition IPB : Z := BSIZE / dinode_size.
Definition BPB : Z := BSIZE * 8.
Definition DIRSIZ : Z := 14.
Definition dirent_size : Z := 2 + DIRSIZ.
Definition T_DIR : Z := 1.
Definition T_FILE : Z := 2.
Definition T_DEV : Z := 3.

Definition s16 (z : Z) : Z := if z mod 2 ^ 16 <? 2 ^ 15 then z mod 2 ^ 16 else z mod 2 ^ 16 - 2 ^ 16.

(** A [short] and a [uint] of a block, at a byte offset. *)
Definition rd16 (d : list Z) (off : Z) : res Z :=
  bs ← arr_read d off 2; Ok (s16 (le_value bs)).
Definition wr16 (d : list Z) (off v : Z) : res (list Z) := arr_write d off (le_bytes 2 v).
Definition rdu32 (d : list Z) (off : Z) : res Z :=
  bs ← arr_read d off 4; Ok (le_value bs).

(** ** State *)

(** The fields of [struct dinode], in the order of the structure. *)
Record dinode := {
  d_type : Z;
  d_major : Z;
  d_minor : Z;
  d_nlink : Z;
  d_fsize : Z;
  d_addrs : list Z;
}.

Record inode := {
  i_dev : Z;
  i_inum : Z;
  i_ref : Z;
  i_lock : sleeplock;
  i_valid : Z;
  i_copy : dinode;
}.

Record fs := { fdsk : dsk; fsb : superblock; icache : list inode }.

Definition with_dsk (f : fs) d := {| fdsk := d; fsb := fsb f; icache := icache f |}.
Definition with_sb (f : fs) s := {| fdsk := fdsk f; fsb := s; icache := icache f |}.
Definition with_icache (f : fs) l := {| fdsk := fdsk f; fsb := fsb f; icache := l |}.

Definition with_type (c : dinode) t := {| d_type := t; d_major := d_major c;
  d_minor := d_minor c; d_nlink := d_nlink c; d_fsize := d_fsize c; d_addrs := d_addrs c |}.
Definition with_fsize (c : dinode) n := {| d_type := d_type c; d_major := d_major c;
  d_minor := d_minor c; d_nlink := d_nlink c; d_fsize := n; d_addrs := d_addrs c |}.
Definition with_addrs (c : dinode) a := {| d_type := d_type c; d_major := d_major c;
  d_minor := d_minor c; d_nlink := d_nlink c; d_fsize := d_fsize c; d_addrs := a |}.

Definition with_ref (i : inode) r := {| i_dev := i_dev i; i_inum := i_inum i; i_ref := r;
  i_lock := i_lock i; i_valid := i_valid i; i_copy := i_copy i |}.
Definition with_ilock (i : inode) l := {| i_dev := i_dev i; i_inum := i_inum i; i_ref := i_ref i;
  i_lock := l; i_valid := i_valid i; i_copy := i_copy i |}.
Definition with_valid (i : inode) v := {| i_dev := i_dev i; i_inum := i_inum i; i_ref := i_ref i;
  i_lock := i_lock i; i_valid := v; i_copy := i_copy i |}.
Definition with_copy (i : inode) c := {| i_dev := i_dev i; i_inum := i_inum i; i_ref := i_ref i;
  i_lock := i_lock i; i_valid := i_valid i; i_copy := c |}.

Definition lift {A} (m : ST dsk A) : ST fs A := fun f =>
  '(a, d) ← m (fdsk f); Ok (a, with_dsk f d).

(** [*ip], and a change of it. *)
Definition inode_at (ip : Z) : ST fs inode := fun f => i ← arr_get (icache f) ip; Ok (i, f).
Definition inode_upd (ip : Z) (g : inode -> inode) : ST fs unit := fun f =>
  i ← arr_get (icache f) ip; l ← arr_set (icache f) ip (g i); Ok ((), with_icache f l).

(** The inode structure in a block, and a store of one. *)
Fixpoint rd_addrs (n : nat) (d : list Z) (off : Z) : res (list Z) :=
  match n with
  | O => Ok []
  | S n => a ← rdu32 d off; l ← rd_addrs n d (off + 4); Ok (a :: l)
  end.
Fixpoint wr_addrs (l : list Z) (d : list Z) (off : Z) : res (list Z) :=
  match l with
  | [] => Ok d
  | a :: l => d ← wr32 d off a; wr_addrs l d (off + 4)
  end.

Definition rd_dinode (d : list Z) (off : Z) : res dinode :=
  t ← rd16 d off; ma ← rd16 d (off + 2); mi ← rd16 d (off + 4); nl ← rd16 d (off + 6);
  sz ← rdu32 d (off + 8); a ← rd_addrs (Z.to_nat (NDIRECT + 1)) d (off + 12);
  Ok {| d_type := t; d_major := ma; d_minor := mi; d_nlink := nl; d_fsize := sz; d_addrs := a |}.

Definition wr_dinode (d : list Z) (off : Z) (c : dinode) : res (list Z) :=
  d ← wr16 d off (d_type c); d ← wr16 d (off + 2) (d_major c); d ← wr16 d (off + 4) (d_minor c);
  d ← wr16 d (off + 6) (d_nlink c); d ← wr32 d (off + 8) (d_fsize c);
  wr_addrs (d_addrs c) d (off + 12).

Definition IBLOCK (i : Z) (sb : superblock) : Z := u32 (i / IPB + inodestart sb).
Definition BBLOCK (b : Z) (sb : superblock) : Z := u32 (b / BPB + bmapstart sb).

Section fs.
(** [myproc()->pid]; [devsw[major].read] and [.write], [None] when null; the
    bytes read, or [None] for -1. *)
Variable mypid : Z.
Variable dev_read : Z -> option (Z -> Z -> ST fs (option (list Z))).
Variable dev_write : Z -> option (Z -> list Z -> ST fs (option Z)).

Definition fbread (d n : Z) : ST fs Z := lift (dbread mypid d n).
Definition fbdata (h : Z) : ST fs (list Z) := lift (buf_data h).
Definition fbstore (h : Z) (d : list Z) : ST fs unit := lift (buf_store h d).
Definition flog_write (h : Z) : ST fs unit := lift (log_write h).
Definition fbrelse (h : Z) : ST fs unit := lift (dbrelse h).

(** [readsb(dev, &sb)] *)
Definition freadsb (d : Z) : ST fs unit :=
  s ← lift (readsb mypid d); modify (fun f => with_sb f s).

(** ** Blocks *)

Definition bzero (d bno : Z) : ST fs unit :=
  bp ← fbread d bno;
  _ ← fbstore bp (replicate (Z.to_nat BSIZE) 0);
  _ ← flog_write bp;
  fbrelse bp.

(** The inner loop of [balloc], up to the first bit that is clear. *)
Fixpoint balloc_scan (fuel : nat) (size b bi : Z) (d : list Z) : res (option Z) :=
  match fuel with
  | O => Fault OutOfFuel
  | S fuel =>
    if (bi <? BPB) && (u32 (b + bi) <? size) then
      x ← arr_get d (bi / 8);
      if Z.land x (Z.shiftl 1 (bi mod 8)) =? 0 then Ok (Some bi)
      else balloc_scan fuel size b (bi + 1) d
    else Ok None
  end.

(** [bp->data[bi/8] |= m;] *)
Definition set_bit (d : list Z) (bi : Z) : res (list Z) :=
  x ← arr_get d (bi / 8); arr_set d (bi / 8) (u8 (Z.lor x (Z.shiftl 1 (bi mod 8)))).
Definition clear_bit (d : list Z) (bi : Z) : res (list Z) :=
  x ← arr_get d (bi / 8); arr_set d (bi / 8) (u8 (Z.land x (Z.lnot (Z.shiftl 1 (bi mod 8))))).

Fixpoint balloc_loop (fuel : nat) (dv b : Z) : ST fs Z :=
  match fuel with
  | O => fault OutOfFuel
  | S fuel =>
    sb ← gets fsb;
    if u32 b <? sb_size sb then
      bp ← fbread dv (BBLOCK b sb);
      d ← fbdata bp;
      r ← pure (balloc_scan (S (Z.to_nat BPB)) (sb_size sb) b 0 d);
      match r with
      | Some bi =>
        d ← pure (set_bit d bi);
        _ ← fbstore bp d;
        _ ← flog_write bp;
        _ ← fbrelse bp;
        _ ← bzero dv (b + bi);
        mret (u32 (b + bi))
      | None => _ ← fbrelse bp; balloc_loop fuel dv (b + BPB)
      end
    else fault (Panic "balloc: out of blocks")
  end.

(** One turn per bitmap block, and one to see the end. *)
Definition balloc (dv : Z) : ST fs Z :=
  sb ← gets fsb; balloc_loop (Z.to_nat (sb_size sb / BPB + 2)) dv 0.

Definition bfree (dv b : Z) : ST fs unit :=
  _ ← freadsb dv;
  sb ← gets fsb;
  bp ← fbread dv (BBLOCK b sb);
  let bi := b mod BPB in
  d ← fbdata bp;
  x ← pure (arr_get d (bi / 8));
  if Z.land x (Z.shiftl 1 (bi mod 8)) =? 0 then fault (Panic "freeing free block") else
  d ← pure (clear_bit d bi);
  _ ← fbstore bp d;
  _ ← flog_write bp;
  fbrelse bp.

(** ** Inodes *)

Definition init_inode_lock (i : inode) : inode := with_ilock i initsleeplock.

(** The console message is not modelled. *)
Definition iinit (dv : Z) : ST fs unit :=
  _ ← modify (fun f => with_icache f (init_inode_lock <$> icache f));
  freadsb dv.

(** The entry of the inode, and the first free entry seen. *)
Fixpoint iget_find (l : list inode) (i : Z) (dv inum : Z) (empty : option Z) : option Z * option Z :=
  match l with
  | [] => (None, empty)
  | x :: l =>
    if (0 <? i_ref x) && (i_dev x =? dv) && (i_inum x =? inum) then (Some i, empty)
    else iget_find l (i + 1) dv inum
           (match empty with
            | None => if i_ref x =? 0 then Some i else None
            | Some e => Some e
            end)
  end.

Definition iget (dv inum : Z) : ST fs Z :=
  l ← gets icache;
  match iget_find l 0 dv inum None with
  | (Some ip, _) => _ ← inode_upd ip (fun i => with_ref i (i_ref i + 1)); mret ip
  | (None, None) => fault (Panic "iget: no inodes")
  | (None, Some ip) =>
    _ ← inode_upd ip (fun i => {| i_dev := dv; i_inum := inum; i_ref := 1; i_lock := i_lock i;
                                  i_valid := 0; i_copy := i_copy i |});
    mret ip
  end.

Definition idup (ip : Z) : ST fs Z :=
  _ ← inode_upd ip (fun i => with_ref i (i_ref i + 1)); mret ip.

(** [memset(dip, 0, sizeof( *dip)); dip->type = type;] *)
Definition clear_dinode (d : list Z) (off type : Z) : res (list Z) :=
  d ← arr_write d off (replicate (Z.to_nat dinode_size) 0); wr16 d off type.

Fixpoint ialloc_loop (fuel : nat) (dv type inum : Z) : ST fs Z :=
  match fuel with
  | O => fault OutOfFuel
  | S fuel =>
    sb ← gets fsb;
    if u32 inum <? ninodes sb then
      bp ← fbread dv (IBLOCK inum sb);
      d ← fbdata bp;
      let off := inum mod IPB * dinode_size in
      t ← pure (rd16 d off);
      if t =? 0 then
        d ← pure (clear_dinode d off type);
        _ ← fbstore bp d;
        _ ← flog_write bp;
        _ ← fbrelse bp;
        iget dv inum
      else
        _ ← fbrelse bp;
        ialloc_loop fuel dv type (inum + 1)
    else fault (Panic "ialloc: no inodes")
  end.

Definition ialloc (dv type : Z) : ST fs Z :=
  sb ← gets fsb; ialloc_loop (S (Z.to_nat (ninodes sb))) dv type 1.

Definition iupdate (ip : Z) : ST fs unit :=
  i ← inode_at ip;
  sb ← gets fsb;
  bp ← fbread (i_dev i) (IBLOCK (i_inum i) sb);
  d ← fbdata bp;
  d ← pure (wr_dinode d (i_inum i mod IPB * dinode_size) (i_copy i));
  _ ← fbstore bp d;
  _ ← flog_write bp;
  fbrelse bp.

Definition iacquiresleep (ip : Z) : ST fs unit :=
  i ← inode_at ip;
  if negb (locked (i_lock i) =? 0) then fault Blocked
  else inode_upd ip (fun i => with_ilock i {| locked := 1; pid := mypid |}).
Definition ireleasesleep (ip : Z) : ST fs unit :=
  inode_upd ip (fun i => with_ilock i {| locked := 0; pid := 0 |}).

Definition ilock (ip : Z) : ST fs unit :=
  i ← inode_at ip;
  if i_ref i <? 1 then fault (Panic "ilock") else
  _ ← iacquiresleep ip;
  i ← inode_at ip;
  if i_valid i =? 0 then
    sb ← gets fsb;
    bp ← fbread (i_dev i) (IBLOCK (i_inum i) sb);
    d ← fbdata bp;
    c ← pure (rd_dinode d (i_inum i mod IPB * dinode_size));
    _ ← inode_upd ip (fun i => with_copy i c);
    _ ← fbrelse bp;
    _ ← inode_upd ip (fun i => with_valid i 1);
    if d_type c =? 0 then fault (Panic "ilock: no type") else mret ()
  else mret ().

Definition iunlock (ip : Z) : ST fs unit :=
  i ← inode_at ip;
  if (locked (i_lock i) =? 0) || (i_ref i <? 1) then fault (Panic "iunlock")
  else ireleasesleep ip.

(** ** Contents *)

(** [ip->addrs[n] = a] *)
Definition set_addr (ip n a : Z) : ST fs unit :=
  i ← inode_at ip;
  l ← pure (arr_set (d_addrs (i_copy i)) n a);
  inode_upd ip (fun i => with_copy i (with_addrs (i_copy i) l)).

(** [if((addr = ip->addrs[n]) == 0) ip->addrs[n] = addr = balloc(ip->dev);] *)
Definition addr_or_alloc (ip n : Z) : ST fs Z :=
  i ← inode_at ip;
  a ← pure (arr_get (d_addrs (i_copy i)) n);
  if a =? 0 then
    a ← balloc (i_dev i);
    _ ← set_addr ip n a;
    mret a
  else mret a.

(** Entry [n] of the block of addresses [blk], allocating if necessary. *)
Definition indirect (dv blk n : Z) : ST fs Z :=
  bp ← fbread dv blk;
  d ← fbdata bp;
  a ← pure (rdu32 d (4 * n));
  if a =? 0 then
    a ← balloc dv;
    d ← fbdata bp;
    d ← pure (wr32 d (4 * n) a);
    _ ← fbstore bp d;
    _ ← flog_write bp;
    _ ← fbrelse bp;
    mret a
  else
    _ ← fbrelse bp;
    mret a.

Definition bmap (ip bn : Z) : ST fs Z :=
  if bn <? NDIRECT then addr_or_alloc ip bn
  else
    let bn := bn - NDIRECT in
    let ibn := bn / NINDIRECT in
    let iibn := bn mod NINDIRECT in
    if ibn <? NINDIRECT then
      a ← addr_or_alloc ip NDIRECT;
      i ← inode_at ip;
      a ← indirect (i_dev i) a ibn;
      indirect (i_dev i) a iibn
    else fault (Panic "bmap: out of range").

(** [for(j = 0; j < NINDIRECT; j++) if(a[j]) bfree(ip->dev, a[j]);] *)
Fixpoint free_entries (n : nat) (dv bp j : Z) : ST fs unit :=
  match n with
  | O => mret ()
  | S n =>
    d ← fbdata bp;
    a ← pure (rdu32 d (4 * j));
    _ ← (if a =? 0 then mret () else bfree dv a);
    free_entries n dv bp (j + 1)
  end.

(** The direct blocks. *)
Fixpoint free_direct (n : nat) (ip k : Z) : ST fs unit :=
  match n with
  | O => mret ()
  | S n =>
    i ← inode_at ip;
    a ← pure (arr_get (d_addrs (i_copy i)) k);
    _ ← (if a =? 0 then mret () else _ ← bfree (i_dev i) a; set_addr ip k 0);
    free_direct n ip (k + 1)
  end.

Definition itrunc (ip : Z) : ST fs unit :=
  _ ← free_direct (Z.to_nat NDIRECT) ip 0;
  i ← inode_at ip;
  a ← pure (arr_get (d_addrs (i_copy i)) NDIRECT);
  _ ← (if a =? 0 then mret () else
         bp ← fbread (i_dev i) a;
         _ ← free_entries (Z.to_nat NINDIRECT) (i_dev i) bp 0;
         _ ← fbrelse bp;
         _ ← bfree (i_dev i) a;
         set_addr ip NDIRECT 0);
  _ ← inode_upd ip (fun i => with_copy i (with_fsize (i_copy i) 0));
  iupdate ip.

Definition iput (ip : Z) : ST fs unit :=
  _ ← iacquiresleep ip;
  i ← inode_at ip;
  _ ← (if negb (i_valid i =? 0) && (d_nlink (i_copy i) =? 0) && (i_ref i =? 1) then
         _ ← itrunc ip;
         _ ← inode_upd ip (fun i => with_copy i (with_type (i_copy i) 0));
         _ ← iupdate ip;
         inode_upd ip (fun i => with_valid i 0)
       else mret ());
  _ ← ireleasesleep ip;
  inode_upd ip (fun i => with_ref i (i_ref i - 1)).

Definition iunlockput (ip : Z) : ST fs unit := _ ← iunlock ip; iput ip.

(** [struct stat] *)
Record stat := { st_type : Z; st_dev : Z; st_ino : Z; st_nlink : Z; st_size : Z }.

Definition stati (ip : Z) : ST fs stat :=
  i ← inode_at ip;
  mret {| st_type := d_type (i_copy i); st_dev := s32 (i_dev i); st_ino := i_inum i;
          st_nlink := d_nlink (i_copy i); st_size := d_fsize (i_copy i) |}.

(** The loops of [readi] and [writei]; [acc] are the bytes read so far. *)
Fixpoint readi_loop (fuel : nat) (ip tot off n : Z) (acc : list Z) : ST fs (list Z) :=
  match fuel with
  | O => fault OutOfFuel
  | S fuel =>
    if tot <? n then
      i ← inode_at ip;
      a ← bmap ip (off / BSIZE);
      bp ← fbread (i_dev i) a;
      let m := Z.min (u32 (n - tot)) (BSIZE - off mod BSIZE) in
      d ← fbdata bp;
      x ← pure (arr_read d (off mod BSIZE) m);
      _ ← fbrelse bp;
      readi_loop fuel ip (u32 (tot + m)) (u32 (off + m)) n (acc ++ x)
    else mret acc
  end.

(** The bytes read, or [None] for -1.  Every turn reads at least one byte. *)
Definition readi (ip off n : Z) : ST fs (option (list Z)) :=
  i ← inode_at ip;
  let c := i_copy i in
  if d_type c =? T_DEV then
    if (d_major c <? 0) || (NDEV <=? d_major c) then mret None
    else match dev_read (d_major c) with
         | None => mret None
         | Some f => f ip n
         end
  else if (d_fsize c <? off) || (u32 (off + n) <? off) then mret None
  else
    let n := if d_fsize c <? u32 (off + n) then u32 (d_fsize c - off) else n in
    x ← readi_loop (S (Z.to_nat n)) ip 0 off n [];
    mret (Some x).

Fixpoint writei_loop (fuel : nat) (ip tot off n : Z) (src : list Z) : ST fs Z :=
  match fuel with
  | O => fault OutOfFuel
  | S fuel =>
    if tot <? n then
      i ← inode_at ip;
      a ← bmap ip (off / BSIZE);
      bp ← fbread (i_dev i) a;
      let m := Z.min (u32 (n - tot)) (BSIZE - off mod BSIZE) in
      d ← fbdata bp;
      x ← pure (arr_read src tot m);
      d ← pure (arr_write d (off mod BSIZE) x);
      _ ← fbstore bp d;
      _ ← flog_write bp;
      _ ← fbrelse bp;
      writei_loop fuel ip (u32 (tot + m)) (u32 (off + m)) n src
    else mret off
  end.

(** The number of bytes written, or [None] for -1. *)
Definition writei (ip : Z) (src : list Z) (off n : Z) : ST fs (option Z) :=
  i ← inode_at ip;
  let c := i_copy i in
  if d_type c =? T_DEV then
    if (d_major c <? 0) || (NDEV <=? d_major c) then mret None
    else match dev_write (d_major c) with
         | None => mret None
         | Some f => x ← pure (arr_read src 0 n); f ip x
         end
  else if (d_fsize c <? off) || (u32 (off + n) <? off) then mret None
  else if MAXFILE * BSIZE <? u32 (off + n) then mret None
  else
    off ← writei_loop (S (Z.to_nat n)) ip 0 off n src;
    i ← inode_at ip;
    _ ← (if (0 <? n) && (d_fsize (i_copy i) <? off) then
           _ ← inode_upd ip (fun i => with_copy i (with_fsize (i_copy i) off));
           iupdate ip
         else mret ());
    mret (Some n).

(** ** Directories *)

(** The two strings lie one after the other in memory. *)
Definition namecmp (s t : list Z) : res Z := strncmp (s ++ t) 0 (zlen s) DIRSIZ.

(** The fields of a [struct dirent]. *)
Definition de_inum (de : list Z) : Z := le_value (take 2 de).
Definition de_name (de : list Z) : list Z := drop 2 de.

Definition read_dirent (dp off : Z) (msg : string) : ST fs (list Z) :=
  r ← readi dp off dirent_size;
  match r with
  | Some de => if zlen de =? dirent_size then mret de else fault (Panic msg)
  | None => fault (Panic msg)
  end.

(** The inode and the offset of the entry, [None] when there is none.  Every
    turn goes on by the size of an entry. *)
Fixpoint dirlookup_loop (fuel : nat) (dp off : Z) (name : list Z) : ST fs (option (Z * Z)) :=
  match fuel with
  | O => fault OutOfFuel
  | S fuel =>
    i ← inode_at dp;
    if off <? d_fsize (i_copy i) then
      de ← read_dirent dp off "dirlookup read";
      if de_inum de =? 0 then dirlookup_loop fuel dp (u32 (off + dirent_size)) name
      else
        r ← pure (namecmp name (de_name de));
        if r =? 0 then ip ← iget (i_dev i) (de_inum de); mret (Some (ip, off))
        else dirlookup_loop fuel dp (u32 (off + dirent_size)) name
    else mret None
  end.

Definition dirlookup (dp : Z) (name : list Z) : ST fs (option (Z * Z)) :=
  i ← inode_at dp;
  if negb (d_type (i_copy i) =? T_DIR) then fault (Panic "dirlookup not DIR")
  else dirlookup_loop (S (Z.to_nat (d_fsize (i_copy i)))) dp 0 name.

(** The offset of the first empty entry, or of the end. *)
Fixpoint dirlink_find (fuel : nat) (dp off : Z) : ST fs Z :=
  match fuel with
  | O => fault OutOfFuel
  | S fuel =>
    i ← inode_at dp;
    if u32 off <? d_fsize (i_copy i) then
      de ← read_dirent dp off "dirlink read";
      if de_inum de =? 0 then mret off else dirlink_find fuel dp (s32 (off + dirent_size))
    else mret off
  end.

(** [strncpy(de.name, name, DIRSIZ)] *)
Definition dirent_name (name : list Z) : res (list Z) :=
  m ← strncpy (replicate (Z.to_nat DIRSIZ) 0 ++ name) 0 DIRSIZ DIRSIZ;
  Ok (take (Z.to_nat DIRSIZ) m).

(** [true] for 0, [false] for -1. *)
Definition dirlink (dp : Z) (name : list Z) (inum : Z) : ST fs bool :=
  r ← dirlookup dp name;
  match r with
  | Some (ip, _) => _ ← iput ip; mret false
  | None =>
    i ← inode_at dp;
    off ← dirlink_find (S (Z.to_nat (d_fsize (i_copy i)))) dp 0;
    nm ← pure (dirent_name name);
    r ← writei dp (le_bytes 2 inum ++ nm) (u32 off) dirent_size;
    match r with
    | Some n => if n =? dirent_size then mret true else fault (Panic "dirlink")
    | None => fault (Panic "dirlink")
    end
  end.

(** ** Path names *)

Definition SLASH : Z := 47.

(** [while( *path == '/') path++;] *)
Fixpoint skip_slashes (path : list Z) : res (list Z) :=
  match path with
  | [] => Fault OutOfBounds
  | c :: rest => if c =? SLASH then skip_slashes rest else Ok path
  end.

(** [while( *path != '/' && *path != 0) path++;]: the bytes passed and the rest. *)
Fixpoint take_elem (path : list Z) : res (list Z * list Z) :=
  match path with
  | [] => Fault OutOfBounds
  | c :: rest =>
    if (c =? SLASH) || (c =? 0) then Ok ([], path)
    else '(e, r) ← take_elem rest; Ok (c :: e, r)
  end.

(** The copy of the element into [name]. *)
Definition copy_elem (name elem : list Z) : res (list Z) :=
  if DIRSIZ <=? zlen elem then arr_write name 0 (take (Z.to_nat DIRSIZ) elem)
  else n ← arr_write name 0 elem; arr_set n (zlen elem) 0.

Definition skipelem (path name : list Z) : res (option (list Z * list Z)) :=
  p ← skip_slashes path;
  c ← arr_get p 0;
  if c =? 0 then Ok None
  else
    '(e, p) ← take_elem p;
    name ← copy_elem name e;
    p ← skip_slashes p;
    Ok (Some (p, name)).

(** The loop of [namex]; every turn takes at least one byte of the path. *)
Fixpoint namex_loop (fuel : nat) (ip : Z) (path : list Z) (parent : bool) (name : list Z) :
    ST fs (option Z * list Z) :=
  match fuel with
  | O => fault OutOfFuel
  | S fuel =>
    r ← pure (skipelem path name);
    match r with
    | None =>
      if parent then _ ← iput ip; mret (None, name) else mret (Some ip, name)
    | Some (path, name) =>
      _ ← ilock ip;
      i ← inode_at ip;
      if negb (d_type (i_copy i) =? T_DIR) then _ ← iunlockput ip; mret (None, name)
      else
        c ← pure (arr_get path 0);
        if parent && (c =? 0) then _ ← iunlock ip; mret (Some ip, name)
        else
          n ← dirlookup ip name;
          match n with
          | None => _ ← iunlockput ip; mret (None, name)
          | Some (next, _) => _ ← iunlockput ip; namex_loop fuel next path parent name
          end
    end
  end.

(** [cwd] is [myproc()->cwd]. *)
Definition namex (cwd : Z) (path : list Z) (parent : bool) (name : list Z) :
    ST fs (option Z * list Z) :=
  c ← pure (arr_get path 0);
  ip ← (if c =? SLASH then iget ROOTDEV ROOTINO else idup cwd);
  namex_loop (S (length path)) ip path parent name.

(** The local array [name] is uninitialised in the source. *)
Definition namei (cwd : Z) (path garbage : list Z) : ST fs (option Z) :=
  '(ip, _) ← namex cwd path false garbage; mret ip.

Definition nameiparent (cwd : Z) (path name : list Z) : ST fs (option Z * list Z) :=
  namex cwd path true name.

End fs.
