(* ===== verification/FsBase.v ===== *)
(** * The file system inside a transaction

    [fsr C Hd M ic f]: inside a transaction the cache presents the blocks [C],
    the buffers [Hd] are held, the blocks [M] have been modified and not yet
    logged, and the inode cache is [ic].  Every block operation that fs.c uses
    is specified by how it changes these; the log and the disk are hidden, with
    the invariant of Transact.v. *)

From stdpp Require Import base list strings gmap sets.
From Stdlib Require Import ZArith Lia.
From S2P Require Import Prelude State Bio BioProofs Log LogProofs CrashProofs Transact Fs.

(** The resources a file system call can run out of. *)
Definition exhausted (e : Prelude.fault) : Prop :=
  e = Panic "bget: no buffers" \/ e = Panic "too big a transaction" \/
  e = Panic "balloc: out of blocks".

Section base.
Variables (mypid N st sz : Z).

Record tinv (l : log) (v : view) (bs : list Z) : Prop := {
  ti_header : header_is l bs;
  ti_blocks : Forall is_bno (lh_block l);
  ti_place : start l = st /\ Log.size l = sz /\ sz <= NBUF;
  ti_calls : committing l = 0 /\ 1 <= outstanding l;
  ti_loggable : loggable N st sz bs;
  ti_pinned : pinned v = list_to_set bs;
  ti_empty : is_head (disk v st) [];
  ti_sb : sb_is (disk v 1) st sz;
}.

(** Held buffers are pinned or clean, but for those in [M]. *)
Definition settled (v : view) (M : gset Z) : Prop :=
  forall h b, held v !! h = Some b -> b ∉ M -> b ∈ pinned v \/ cur v b = disk v b.

Record fsr (C : Z -> list Z) (Hd : gmap Z Z) (M : gset Z) (sb : superblock) (ic : list inode)
    (f : fs) : Prop := {
  f_rep : exists v bs, rep (dbio (fdsk f)) v /\ cur v = C /\ held v = Hd /\ nblk v = N /\
    tinv (dlog (fdsk f)) v bs /\ settled v M;
  f_sb : fsb f = sb;
  f_ic : icache f = ic;
}.

(** Between calls it is the invariant of the log. *)
Lemma fsr_linv C sb ic f : fsr C ∅ ∅ sb ic f ->
  exists v bs, linv st sz (fdsk f) v bs /\ cur v = C.
Proof.
  intros [(v & bs & Hr & HC & Hh & HN & [T1 T2 T3 [T4 T4'] T5 T6 T7 T8] & _) _ _]. exists v, bs.
  split; [|done]. split_and!; [|done|lia|lia]. constructor; try done. by rewrite HN.
Qed.

(** Lifting a triple on the disk. *)
Lemma lift_spec {A} E (m : ST dsk A) (P : dsk -> Prop) (Q : A -> dsk -> Prop)
    (P' : fs -> Prop) (Q' : A -> fs -> Prop) :
  hoareX E P m Q -> (forall f, P' f -> P (fdsk f)) ->
  (forall f a d, P' f -> Q a d -> Q' a (with_dsk f d)) -> hoareX E P' (lift m) Q'.
Proof.
  intros Hm HP HQ f Hf. specialize (Hm (fdsk f) (HP f Hf)). unfold lift.
  destruct (m (fdsk f)) as [[a d]| |]; [|done..]. cbn. by apply HQ.
Qed.

Lemma with_dsk_self f d : fdsk (with_dsk f d) = d.
Proof. done. Qed.

Lemma fbread_spec C Hd M sb ic b :
  0 <= b < N -> (forall h, Hd !! h <> Some b) -> b ∉ M ->
  hoareX exhausted (fsr C Hd M sb ic) (fbread mypid 1 b)
    (fun h f => Hd !! h = None /\ fsr C (<[h := b]> Hd) M sb ic f).
Proof.
  intros Hb Hnu HM f [(v & bs & Hr & <- & <- & HN & Ht & Hs) Hsb Hic].
  unfold fbread, lift, dbread, on_bio. rewrite (nblk_range _ v b Hr) by lia. change (u32 1) with 1.
  assert (Hu : ~ in_use v b) by (intros [h Hh]; by apply (Hnu h)).
  destruct (rep_bread_or_full mypid _ v b Hr ltac:(lia) Hu) as [(h & s' & -> & Hh & Hr')|[_ ->]];
    [|by left]. cbn. split; [done|]. constructor; [|done|done].
  exists (v_hold h b v), bs. split_and!; try done.
  { destruct Ht. by constructor. }
  intros h' c Hh' Hc. cbn in Hh'. apply lookup_insert_Some in Hh' as [[_ <-]|[_ Hh']]; [|by apply (Hs h')].
  cbn. destruct (decide (b ∈ pinned v)); [by left|]. right.
  destruct Hr as (_ & _ & Hbr & _). apply (r_clean _ _ Hbr); [lia|done|done].
Qed.

Lemma fbdata_spec C Hd M sb ic h b : Hd !! h = Some b ->
  hoareX exhausted (fsr C Hd M sb ic) (fbdata h)
    (fun x f => (x = C b /\ zlen x = BSIZE) /\ fsr C Hd M sb ic f).
Proof.
  intros Hh f [(v & bs & Hr & HC & HH & HN & Ht & Hs) Hsb Hic].
  destruct (buf_data_spec (dlog (fdsk f)) v h b) with (s := fdsk f) as (x & d & E & [-> Hx] & Hl & Hr');
    [by rewrite HH|done|].
  unfold fbdata, lift. rewrite E. cbn. split; [split; [by rewrite HC|done]|].
  constructor; [|done|done]. exists v, bs. cbn. rewrite Hl. split_and!; done.
Qed.

Lemma fbstore_spec C Hd M sb ic h b x : Hd !! h = Some b -> zlen x = BSIZE ->
  hoareX exhausted (fsr C Hd M sb ic) (fbstore h x)
    (fun _ => fsr (fupd C b x) Hd ({[b]} ∪ M) sb ic).
Proof.
  intros Hh Hx f [(v & bs & Hr & HC & HH & HN & Ht & Hs) Hsb Hic].
  destruct (buf_store_spec (dlog (fdsk f)) v h b x) with (s := fdsk f) as ([] & d & E & Hl & Hr');
    [by rewrite HH|done|done|].
  unfold fbstore, lift. rewrite E. cbn. constructor; [|done|done].
  exists (v_data b x v), bs. cbn. rewrite Hl. split_and!; try done; [by rewrite HC| |].
  { destruct Ht. by constructor. }
  intros h' c Hh' Hc. cbn. rewrite fupd_ne by set_solver. apply (Hs h'); [done|set_solver].
Qed.

Lemma fbrelse_spec C Hd M sb ic h b : Hd !! h = Some b -> b ∉ M ->
  hoareX exhausted (fsr C Hd M sb ic) (fbrelse h) (fun _ => fsr C (delete h Hd) M sb ic).
Proof.
  intros Hh HM f [(v & bs & Hr & HC & HH & HN & Ht & Hs) Hsb Hic].
  destruct (dbrelse_spec (dlog (fdsk f)) v h b) with (s := fdsk f) as ([] & d & E & Hl & Hr');
    [by rewrite HH|apply (Hs h); [by rewrite HH|done]|done|].
  unfold fbrelse, lift. rewrite E. cbn. constructor; [|done|done].
  exists (v_release h v), bs. cbn. rewrite Hl, <- HH. split_and!; try done.
  { destruct Ht. by constructor. }
  intros h' c Hh' Hc. cbn in Hh'. apply lookup_delete_Some in Hh' as [_ Hh']. by apply (Hs h').
Qed.

Lemma flog_write_spec C Hd M sb ic h b :
  Hd !! h = Some b -> home N st sz b -> b <> 1 ->
  hoareX exhausted (fsr C Hd M sb ic) (flog_write h) (fun _ => fsr C Hd (M ∖ {[b]}) sb ic).
Proof.
  intros Hh Hb Hne f [(v & bs & Hr & HC & HH & HN & Ht & Hs) Hsb Hic].
  pose proof Ht as [Hhd Hbl (Hst & Hsz & Hnb) [Hc Ho] Hlg Hp He Hs1].
  pose proof (rep_small _ _ Hr) as Hsm. rewrite HN in Hsm. rewrite <- HH in Hh.
  unfold flog_write, lift. set (l := dlog (fdsk f)) in *.
  destruct (decide (zlen bs < LOGSIZE /\ zlen bs < Log.size l - 1)) as [[Hg1 Hg2]|Hg].
  - assert (Hbs : Forall is_bno (b :: bs)).
    { apply Forall_cons. split; [destruct Hb as [? _]; unfold is_bno; lia|].
      by apply (loggable_bno N st sz). }
    destruct (log_write_spec l v h b bs Hhd Hh Hbs Hg1 Hg2 Ho Hbl (fdsk f) (conj eq_refl Hr))
      as ([] & d & -> & l' & (Hh' & (S1 & S2 & S3 & S4 & S5) & Hbl') & Hl & Hr').
    cbn. constructor; [|done|done]. exists (v_pin b v), (absorbed bs b). cbn. rewrite Hl.
    split_and!; try done.
    + constructor; rewrite ?S1, ?S2, ?S3, ?S4; try done.
      * apply loggable_absorbed; try done. lia.
      * cbn. by rewrite Hp, absorbed_set.
    + intros h' c Hh2 Hc2. cbn. destruct (decide (c = b)) as [->|Hcb]; [left; set_solver|].
      destruct (Hs h' c Hh2) as [?|?]; [set_solver|left; set_solver|by right].
  - assert (E : log_write h (fdsk f) = Fault (Panic "too big a transaction")).
    { unfold log_write. rewrite (bind_run _ _ (fdsk f) l (fdsk f)) by done.
      destruct Hhd as (_ & _ & Hn & _). rewrite Hn.
      destruct (Z.leb_spec LOGSIZE (zlen bs)), (Z.leb_spec (Log.size l - 1) (zlen bs)); done || lia. }
    rewrite E. right. by left.
Qed.

Lemma logged_all (b : Z) : ({[b]} ∪ ∅) ∖ {[b]} = (∅ : gset Z).
Proof. set_solver. Qed.

(** Modifying a held block: the store and the call of [log_write]; releasing
    the buffer that was taken last. *)
Lemma update_bind {A} C Hd sb ic h b x (k : ST fs A) R :
  Hd !! h = Some b -> home N st sz b -> b <> 1 -> zlen x = BSIZE ->
  hoareX exhausted (fsr (fupd C b x) Hd ∅ sb ic) k R ->
  hoareX exhausted (fsr C Hd ∅ sb ic) (_ ← fbstore h x; _ ← flog_write h; k) R.
Proof.
  intros Hh Hb Hne Hx Hk. eapply hoareX_bind; [by apply (fbstore_spec C Hd ∅ sb ic h b)|]. intros [].
  eapply hoareX_bind; [by apply flog_write_spec|]. intros []. by rewrite logged_all.
Qed.

Lemma relse_spec C Hd sb ic h b : Hd !! h = None ->
  hoareX exhausted (fsr C (<[h := b]> Hd) ∅ sb ic) (fbrelse h) (fun _ => fsr C Hd ∅ sb ic).
Proof.
  intros Hh. eapply hoareX_post;
    [apply fbrelse_spec with (b := b); [by rewrite lookup_insert_eq|apply not_elem_of_empty]|].
  intros [] f Hf. by rewrite delete_insert_id in Hf by done.
Qed.

(** The inode cache. *)
Lemma inode_at_spec C Hd M sb ic ip i : arr_get ic ip = Ok i ->
  hoareX exhausted (fsr C Hd M sb ic) (inode_at ip) (fun x f => x = i /\ fsr C Hd M sb ic f).
Proof.
  intros Hi f Hf. unfold inode_at. rewrite (f_ic _ _ _ _ _ _ Hf), Hi. done.
Qed.

Lemma inode_upd_spec C Hd M sb ic ip i g ic' :
  arr_get ic ip = Ok i -> arr_set ic ip (g i) = Ok ic' ->
  hoareX exhausted (fsr C Hd M sb ic) (inode_upd ip g) (fun _ => fsr C Hd M sb ic').
Proof.
  intros Hi Hs f Hf. unfold inode_upd. pose proof (f_ic _ _ _ _ _ _ Hf) as Hic.
  rewrite Hic, Hi. cbn [mbind res_bind]. rewrite Hs. cbn. destruct Hf. by constructor.
Qed.

Lemma gets_sb_spec C Hd M sb ic :
  hoareX exhausted (fsr C Hd M sb ic) (gets fsb) (fun x f => x = sb /\ fsr C Hd M sb ic f).
Proof. intros f Hf. cbn. split; [by apply f_sb in Hf|done]. Qed.

End base.
