(* ===== verification/FsAlloc.v ===== *)
(** * Block allocation

    The bitmap as a predicate on blocks, and [balloc]: it returns a block that
    was free, marks it used and zeroes it, and changes nothing else. *)

From stdpp Require Import base list strings gmap sets.
From Stdlib Require Import ZArith Lia.
From S2P Require Import Prelude State Bio BioProofs Log LogProofs CrashProofs Transact Fs FsBase.

(** ** Bits of a block *)

Definition bit (d : list Z) (bi : Z) : bool :=
  match arr_get d (bi / 8) with Ok x => Z.testbit x (bi mod 8) | _ => false end.

Lemma testbit_shift1 k n : 0 <= k -> 0 <= n -> Z.testbit (Z.shiftl 1 k) n = (n =? k).
Proof.
  intros Hk Hn. rewrite Z.shiftl_1_l. destruct (Z.eqb_spec n k) as [->|Hne].
  - by apply Z.pow2_bits_true.
  - by apply Z.pow2_bits_false.
Qed.

Lemma bit_test x k : 0 <= k < 8 -> (Z.land x (Z.shiftl 1 k) =? 0) = negb (Z.testbit x k).
Proof.
  intros Hk. destruct (Z.testbit x k) eqn:Hb; cbn.
  - apply Z.eqb_neq. intros H. apply (f_equal (fun z => Z.testbit z k)) in H.
    rewrite Z.land_spec, Hb, testbit_shift1, Z.eqb_refl, Z.bits_0 in H by lia. done.
  - apply Z.eqb_eq, Z.bits_inj'. intros n Hn. rewrite Z.land_spec, Z.bits_0, testbit_shift1 by lia.
    destruct (Z.eqb_spec n k) as [->|]; [by rewrite Hb|apply andb_false_r].
Qed.

Lemma zlen_bi (d : list Z) bi : zlen d = BSIZE -> 0 <= bi < BPB -> 0 <= bi / 8 < zlen d.
Proof.
  intros Hd Hb. unfold BPB, BSIZE in *. split; [apply Z.div_pos; lia|].
  apply Z.div_lt_upper_bound; lia.
Qed.

Lemma testbit_u8 z n : 0 <= n < 8 -> Z.testbit (u8 z) n = Z.testbit z n.
Proof. intros Hn. unfold u8. apply Z.mod_pow2_bits_low. lia. Qed.

(** A position in a block is its byte and its bit. *)
Lemma bi_eq bi bj : bi / 8 = bj / 8 -> bi mod 8 = bj mod 8 -> bi = bj.
Proof. intros H1 H2. rewrite (Z.div_mod bi 8), (Z.div_mod bj 8) by lia. congruence. Qed.

(** The two updates of a bit, by what they do to it. *)
Lemma change_bit d bi (g : Z -> Z) (v : bool) :
  zlen d = BSIZE -> Forall is_byte d -> 0 <= bi < BPB ->
  (forall x n, 0 <= n < 8 -> Z.testbit (g x) n = if n =? bi mod 8 then v else Z.testbit x n) ->
  exists x d', arr_get d (bi / 8) = Ok x /\ arr_set d (bi / 8) (u8 (g x)) = Ok d' /\
    zlen d' = BSIZE /\ Forall is_byte d' /\
    forall bj, 0 <= bj < BPB -> bit d' bj = if bj =? bi then v else bit d bj.
Proof.
  intros Hd Hby Hb Hg. pose proof (zlen_bi d bi Hd Hb) as Hr.
  destruct (arr_get_ok d (bi / 8) Hr) as [x Hx]. exists x.
  rewrite (arr_set_ok _ _ (u8 (g x)) Hr). eexists. split_and!; [done|done| | |].
  - unfold zlen in *. by rewrite length_insert.
  - apply Forall_insert; [done|]. pose proof (u8_range (g x)). unfold is_byte. lia.
  - intros bj Hj. unfold bit. rewrite (arr_get_set _ _ _ _ (bj / 8) (arr_set_ok _ _ _ Hr)).
    pose proof (Z.mod_pos_bound bj 8 ltac:(lia)) as Hm.
    destruct (Z.eqb_spec (bj / 8) (bi / 8)) as [He|He].
    + rewrite testbit_u8, Hg by lia. rewrite He, Hx.
      destruct (Z.eqb_spec (bj mod 8) (bi mod 8)) as [Hm'|Hm'], (Z.eqb_spec bj bi) as [->|Hne]; try done.
      exfalso. by apply Hne, bi_eq.
    + destruct (Z.eqb_spec bj bi) as [->|]; done.
Qed.

Lemma set_bit_spec d bi : zlen d = BSIZE -> Forall is_byte d -> 0 <= bi < BPB ->
  exists d', set_bit d bi = Ok d' /\ zlen d' = BSIZE /\ Forall is_byte d' /\
    forall bj, 0 <= bj < BPB -> bit d' bj = if bj =? bi then true else bit d bj.
Proof.
  intros Hd Hby Hb. pose proof (Z.mod_pos_bound bi 8 ltac:(lia)).
  destruct (change_bit d bi (fun x => Z.lor x (Z.shiftl 1 (bi mod 8))) true Hd Hby Hb)
    as (x & d' & Hx & Hs & ? & ? & ?).
  - intros x n Hn. rewrite Z.lor_spec, testbit_shift1 by lia.
    destruct (n =? bi mod 8); [apply orb_true_r|apply orb_false_r].
  - exists d'. unfold set_bit. rewrite Hx. done.
Qed.

Lemma clear_bit_spec d bi : zlen d = BSIZE -> Forall is_byte d -> 0 <= bi < BPB ->
  exists d', clear_bit d bi = Ok d' /\ zlen d' = BSIZE /\ Forall is_byte d' /\
    forall bj, 0 <= bj < BPB -> bit d' bj = if bj =? bi then false else bit d bj.
Proof.
  intros Hd Hby Hb. pose proof (Z.mod_pos_bound bi 8 ltac:(lia)).
  destruct (change_bit d bi (fun x => Z.land x (Z.lnot (Z.shiftl 1 (bi mod 8)))) false Hd Hby Hb)
    as (x & d' & Hx & Hs & ? & ? & ?).
  - intros x n Hn. rewrite Z.land_spec, Z.lnot_spec, testbit_shift1 by lia.
    destruct (n =? bi mod 8); [apply andb_false_r|apply andb_true_r].
  - exists d'. unfold clear_bit. rewrite Hx. done.
Qed.

(** The scan of one bitmap block. *)
Lemma balloc_scan_spec fuel size b bi d :
  zlen d = BSIZE -> 0 <= bi <= BPB -> 0 <= b -> b + BPB < 2 ^ 32 -> 
  BPB - bi < Z.of_nat fuel ->
  (exists k, balloc_scan fuel size b bi d = Ok (Some k) /\ bi <= k < BPB /\ b + k < size /\
     bit d k = false) \/
  (balloc_scan fuel size b bi d = Ok None /\
   forall k, bi <= k < BPB -> b + k < size -> bit d k = true).
Proof.
  intros Hd. revert bi. induction fuel as [|fuel IH]; intros bi Hbi Hb H32 Hf; [lia|].
  cbn [balloc_scan]. destruct (Z.ltb_spec bi BPB) as [Hlt|Hge]; cbn [andb].
  2:{ right. split; [done|]. intros k Hk. lia. }
  rewrite u32_small by lia. destruct (Z.ltb_spec (b + bi) size) as [Hs|Hs].
  2:{ right. split; [done|]. intros k Hk Hks. lia. }
  destruct (arr_get_ok d (bi / 8)) as [x Hx]; [apply zlen_bi; [done|lia]|].
  rewrite Hx. cbn [mbind res_bind]. rewrite bit_test by (apply Z.mod_pos_bound; lia).
  assert (Hbit : bit d bi = Z.testbit x (bi mod 8)) by (unfold bit; by rewrite Hx).
  rewrite <- Hbit. destruct (bit d bi) eqn:Hbb; cbn [negb].
  - destruct (IH (bi + 1)) as [(k & Hk & ? & ? & ?)|[Hk Hall]]; [lia|lia|lia|lia| |].
    + left. exists k. split_and!; done || lia.
    + right. split; [done|]. intros k Hk' Hks.
      destruct (Z.eq_dec k bi) as [->|]; [done|apply Hall; lia].
  - left. exists bi. split_and!; done || lia.
Qed.

(** ** The layout of the disk *)

(** [data0] is the first data block; everything before it is marked used. *)
Record layout (N st sz data0 : Z) (sb : superblock) : Prop := {
  ly_small : N * BSIZE < 2 ^ 32;
  ly_size : 0 <= sb_size sb <= N;
  ly_data : 1 < data0 /\ st + sz <= data0;
  ly_bmap : forall b, 0 <= b < sb_size sb -> home N st sz (b / BPB + bmapstart sb) /\
    1 < b / BPB + bmapstart sb < data0;
  ly_inodes : forall i, 0 <= i < ninodes sb -> home N st sz (i / IPB + inodestart sb) /\
    1 < i / IPB + inodestart sb < data0;
  ly_apart : forall b i, 0 <= b < sb_size sb -> 0 <= i < ninodes sb ->
    b / BPB + bmapstart sb <> i / IPB + inodestart sb;
}.

Definition bmap_block (sb : superblock) (x : Z) : Prop :=
  exists b, 0 <= b < sb_size sb /\ x = b / BPB + bmapstart sb.
Definition data_block (data0 : Z) (sb : superblock) (b : Z) : Prop := data0 <= b < sb_size sb.

(** The bit of block [b]. *)
Definition used (sb : superblock) (C : Z -> list Z) (b : Z) : bool :=
  bit (C (b / BPB + bmapstart sb)) (b mod BPB).

(** The bitmap and the data blocks are bytes, and only data blocks are free. *)
Record disk_ok (N data0 : Z) (sb : superblock) (C : Z -> list Z) : Prop := {
  dk_len : forall b, 0 <= b < N -> bmap_block sb b \/ data0 <= b -> zlen (C b) = BSIZE;
  dk_byte : forall b, 0 <= b < N -> bmap_block sb b \/ data0 <= b -> Forall is_byte (C b);
  dk_meta : forall b, 0 <= b < data0 -> b < sb_size sb -> used sb C b = true;
}.

Definition zeros : list Z := replicate (Z.to_nat BSIZE) 0.

Lemma zlen_zeros : zlen zeros = BSIZE.
Proof. done. Qed.

Lemma zeros_bytes : Forall is_byte zeros.
Proof. apply Forall_replicate. done. Qed.

(** [C'] is [C] with the free block [a] allocated. *)
Record allocd (N data0 : Z) (sb : superblock) (C : Z -> list Z) (a : Z) (C' : Z -> list Z) : Prop := {
  al_data : data_block data0 sb a;
  al_free : used sb C a = false;
  al_zero : C' a = zeros;
  al_used : forall x, 0 <= x < sb_size sb -> used sb C' x = (x =? a) || used sb C x;
  al_other : forall x, x <> a -> ~ bmap_block sb x -> C' x = C x;
  al_ok : disk_ok N data0 sb C';
}.

Section alloc.
Variables (mypid N st sz data0 : Z) (sb : superblock).
Hypothesis Hly : layout N st sz data0 sb.

Lemma data_home b : data_block data0 sb b -> home N st sz b /\ b <> 1 /\ 0 <= b < N.
Proof.
  destruct Hly as [? ? [? ?] _ _ _]. unfold data_block. intros Hb. split_and!; try lia.
  split; [lia|]. unfold in_log. lia.
Qed.

Lemma data_not_bmap b : data_block data0 sb b -> ~ bmap_block sb b.
Proof.
  intros Hb (x & Hx & ->). destruct (ly_bmap _ _ _ _ _ Hly x Hx) as [_ ?]. unfold data_block in Hb. lia.
Qed.

Lemma BBLOCK_small b : 0 <= b < sb_size sb -> BBLOCK b sb = b / BPB + bmapstart sb.
Proof.
  intros Hb. destruct (ly_bmap _ _ _ _ _ Hly b Hb) as [[? _] _]. pose proof (ly_small _ _ _ _ _ Hly).
  apply u32_small. unfold BSIZE in *. lia.
Qed.

(** The two block updates of [balloc]. *)
Lemma allocd_intro C a d' :
  disk_ok N data0 sb C -> 0 <= a < sb_size sb -> used sb C a = false ->
  set_bit (C (a / BPB + bmapstart sb)) (a mod BPB) = Ok d' ->
  allocd N data0 sb C a (fupd (fupd C (a / BPB + bmapstart sb) d') a zeros).
Proof.
  intros [Hl Hby Hm] Ha Hu Hs. set (bb := a / BPB + bmapstart sb) in *.
  destruct (ly_bmap _ _ _ _ _ Hly a Ha) as [[Hbn _] Hbd]. fold bb in Hbn, Hbd.
  pose proof (Z.mod_pos_bound a BPB ltac:(done)) as Hmod.
  destruct (set_bit_spec (C bb) (a mod BPB)) as (d & Hs' & Hz & Hb' & Hbits);
    [apply Hl; [done|]; left; by exists a|apply Hby; [done|]; left; by exists a|done|]. rewrite Hs in Hs'. injection Hs' as <-.
  assert (Hda : data_block data0 sb a).
  { split; [|lia]. destruct (Z.lt_ge_cases a data0) as [Hlt|]; [|done].
    by rewrite Hm in Hu by lia. }
  assert (Hne : forall x, 0 <= x < sb_size sb -> x / BPB + bmapstart sb <> a).
  { intros x Hx Heq. apply (data_not_bmap a Hda). by exists x. }
  assert (Hused : forall x, 0 <= x < sb_size sb ->
    used sb (fupd (fupd C bb d') a zeros) x = (x =? a) || used sb C x).
  { intros x Hx. unfold used. rewrite fupd_ne by (by apply Hne). unfold fupd.
    pose proof (Z.mod_pos_bound x BPB ltac:(done)).
    destruct (decide (x / BPB + bmapstart sb = bb)) as [He|He].
    - rewrite Hbits by done. rewrite He. fold bb.
      destruct (Z.eqb_spec (x mod BPB) (a mod BPB)) as [Hxm|Hxm], (Z.eqb_spec x a) as [->|Hxa]; try done.
      exfalso. apply Hxa. rewrite (Z.div_mod x BPB), (Z.div_mod a BPB) by done. unfold bb in He.
      rewrite Hxm. f_equal. f_equal. lia.
    - destruct (Z.eqb_spec x a) as [->|]; done. }
  constructor; [done|done|by rewrite fupd_eq|done| |constructor].
  - intros x Hxa Hnb. rewrite !fupd_ne; [done| |done]. intros ->. apply Hnb. by exists a.
  - intros b Hb Hk. unfold fupd. repeat case_decide; [done|done|by apply Hl].
  - intros b Hb Hk. unfold fupd. repeat case_decide; [apply zeros_bytes|done|by apply Hby].
  - intros b Hb Hbs. rewrite Hused by lia. rewrite (Hm b) by lia. apply orb_true_r.
Qed.

Notation fsr := (fsr N st sz).

Lemma bzero_spec C Hd ic b :
  home N st sz b -> b <> 1 -> (forall h, Hd !! h <> Some b) ->
  hoareX exhausted (fsr C Hd ∅ sb ic) (bzero mypid 1 b) (fun _ => fsr (fupd C b zeros) Hd ∅ sb ic).
Proof.
  intros Hb Hne Hnu. unfold bzero.
  eapply hoareX_seq; [apply fbread_spec; [apply Hb|done|apply not_elem_of_empty]|]. intros h Hh.
  apply update_bind with (b := b); [by rewrite lookup_insert_eq|done|done|done|]. by apply relse_spec.
Qed.

(** The buffers held during an allocation are of data blocks in use. *)
Definition held_data (C : Z -> list Z) (Hd : gmap Z Z) : Prop :=
  forall h b, Hd !! h = Some b -> data_block data0 sb b /\ used sb C b = true.

Lemma balloc_loop_spec fuel C Hd ic k :
  disk_ok N data0 sb C -> held_data C Hd -> 0 <= k -> k * BPB <= sb_size sb + BPB ->
  sb_size sb < (k + Z.of_nat fuel - 1) * BPB ->
  hoareX exhausted (fsr C Hd ∅ sb ic) (balloc_loop mypid fuel 1 (k * BPB))
    (fun a f => exists C', allocd N data0 sb C a C' /\ fsr C' Hd ∅ sb ic f).
Proof.
  intros Hok Hhd. revert k. induction fuel as [|fuel IH]; intros k Hk Hle Hf; [unfold BPB in *; lia|].
  pose proof (ly_small _ _ _ _ _ Hly) as H32. pose proof (ly_size _ _ _ _ _ Hly) as Hsz.
  cbn [balloc_loop]. eapply hoareX_seq; [apply gets_sb_spec|]. intros _ ->.
  rewrite u32_small by (unfold BPB, BSIZE in *; lia).
  destruct (Z.ltb_spec (k * BPB) (sb_size sb)) as [Hlt|Hge]; [|apply hoareX_fault; right; by right].
  set (b := k * BPB) in *. assert (Hb0 : 0 <= b < sb_size sb) by (unfold b, BPB, BSIZE in *; lia).
  rewrite BBLOCK_small by done. set (bb := b / BPB + bmapstart sb).
  destruct (ly_bmap _ _ _ _ _ Hly b Hb0) as [Hbh Hbd]. fold bb in Hbh, Hbd.
  assert (Hnu : forall h, Hd !! h <> Some bb).
  { intros h Hh. destruct (Hhd h bb Hh) as [Hdb _]. unfold data_block in Hdb. lia. }
  eapply hoareX_seq; [apply fbread_spec; [apply Hbh|done|apply not_elem_of_empty]|]. intros h Hh.
  eapply hoareX_seq; [apply fbdata_spec with (b := bb); by rewrite lookup_insert_eq|].
  intros d [-> Hd512].
  assert (Hdiv : forall i, 0 <= i < BPB -> (b + i) / BPB = k /\ (b + i) mod BPB = i).
  { intros i Hi. unfold b. rewrite Z.add_comm. split.
    - rewrite Z.div_add, Z.div_small by lia. lia.
    - rewrite Z.mod_add, Z.mod_small by lia. done. }
  assert (Hbk : b / BPB = k) by (unfold b; apply Z.div_mul; done).
  destruct (balloc_scan_spec (S (Z.to_nat BPB)) (sb_size sb) b 0 (C bb) Hd512)
    as [(bi & Hsc & Hbi & Hbs & Hbit)|[Hsc _]];
    [unfold BPB, BSIZE; lia|lia|unfold BPB, BSIZE in *; lia|unfold BPB, BSIZE; lia| |].
  - eapply hoareX_seq; [exact (hoareX_pure _ _ _ _ Hsc)|]. intros _ ->. cbn [mbind].
    destruct (Hdiv bi ltac:(lia)) as [Hdb Hmb].
    destruct (set_bit_spec (C bb) bi) as (d' & Hset & Hz & _); [done|apply Hok; [apply Hbh|]; left; by exists b|lia|].
    eapply hoareX_seq; [exact (hoareX_pure _ _ _ _ Hset)|]. intros _ ->.
    assert (Hal : allocd N data0 sb C (b + bi) (fupd (fupd C bb d') (b + bi) zeros)).
    { replace bb with ((b + bi) / BPB + bmapstart sb) in * by (unfold bb; lia).
      apply allocd_intro; [done|lia| |by rewrite Hmb]. unfold used. by rewrite Hmb. }
    destruct (data_home _ (al_data _ _ _ _ _ _ Hal)) as (Hhome & Hn1 & Hfit).
    apply update_bind with (b := bb); [by rewrite lookup_insert_eq|done|lia|done|].
    eapply hoareX_bind; [by apply relse_spec|]. intros [].
    eapply hoareX_bind; [apply bzero_spec; [done|done|]|].
    { intros h' Hh'. destruct (Hhd h' _ Hh') as [_ Hu]. pose proof (al_free _ _ _ _ _ _ Hal). congruence. }
    intros []. rewrite u32_small by (unfold BSIZE in *; lia).
    intros f Hfs. eexists. split; [exact Hal|exact Hfs].
  - eapply hoareX_seq; [exact (hoareX_pure _ _ _ _ Hsc)|]. intros _ ->. cbn [mbind].
    eapply hoareX_bind; [by apply relse_spec|]. intros [].
    replace (b + BPB) with ((k + 1) * BPB) by (unfold b; lia). apply IH; lia.
Qed.

Lemma balloc_spec C Hd ic :
  disk_ok N data0 sb C -> held_data C Hd ->
  hoareX exhausted (fsr C Hd ∅ sb ic) (balloc mypid 1)
    (fun a f => exists C', allocd N data0 sb C a C' /\ fsr C' Hd ∅ sb ic f).
Proof.
  intros Hok Hhd. unfold balloc. eapply hoareX_seq; [apply gets_sb_spec|]. intros _ ->.
  pose proof (ly_size _ _ _ _ _ Hly) as Hsz.
  apply (balloc_loop_spec _ C Hd ic 0); [done|done|lia|unfold BPB, BSIZE; lia|].
  pose proof (Z.div_mod (sb_size sb) BPB ltac:(done)).
  pose proof (Z.mod_pos_bound (sb_size sb) BPB ltac:(done)).
  pose proof (Z.div_pos (sb_size sb) BPB ltac:(lia) ltac:(done)).
  rewrite Z2Nat.id by lia. nia.
Qed.

End alloc.
