(* ===== verification/FsFile.v ===== *)
(** * The blocks of a file

    The address tree of an inode (twelve direct blocks and a doubly indirect
    one) as a function from roles to blocks, its well-formedness, and what
    filling in a missing block does to it. *)

From stdpp Require Import base list strings gmap sets.
From Stdlib Require Import ZArith Lia.
From S2P Require Import Prelude State Bio BioProofs Log LogProofs CrashProofs Transact Fs FsBase FsAlloc.

(** ** Blocks of addresses *)

Definition entry (d : list Z) (n : Z) : Z := match rdu32 d (4 * n) with Ok a => a | _ => 0 end.

Lemma NINDIRECT_val : NINDIRECT = 128.
Proof. done. Qed.
Lemma MAXFILE_val : MAXFILE = 16396.
Proof. done. Qed.

Lemma rdu32_ok d n : zlen d = BSIZE -> 0 <= n < NINDIRECT -> rdu32 d (4 * n) = Ok (entry d n).
Proof.
  intros Hd Hn. rewrite NINDIRECT_val in Hn. unfold entry, rdu32.
  rewrite arr_read_ok by (unfold BSIZE in *; lia). done.
Qed.

Lemma entry_range d n : zlen d = BSIZE -> Forall is_byte d -> 0 <= n < NINDIRECT ->
  0 <= entry d n < 2 ^ 32.
Proof.
  intros Hd Hb Hn. rewrite NINDIRECT_val in Hn. unfold entry, rdu32.
  rewrite arr_read_ok by (unfold BSIZE in *; lia). cbn [mbind res_bind].
  match goal with |- _ <= le_value ?l < _ => assert (Hl : Forall is_byte l) end.
  { by apply Forall_take, Forall_drop. }
  apply le_value_range in Hl. rewrite length_take, length_drop in Hl. unfold zlen, BSIZE in Hd.
  replace (Z.of_nat _) with 4 in Hl by lia. lia.
Qed.

Lemma entry_zeros n : entry zeros n = 0.
Proof.
  unfold entry, rdu32, arr_read. destruct (_ || _); [done|]. cbn [mbind res_bind].
  unfold zeros. rewrite drop_replicate, take_replicate. generalize (Z.to_nat 4 `min` (Z.to_nat BSIZE - Z.to_nat (4 * n)))%nat.
  intros k. induction k as [|k IH]; [done|]. cbn [replicate le_value]. by rewrite IH.
Qed.

(** A store of one entry. *)
Lemma wr32_entry d n a : zlen d = BSIZE -> Forall is_byte d -> 0 <= n < NINDIRECT -> 0 <= a < 2 ^ 32 ->
  exists d', wr32 d (4 * n) a = Ok d' /\ zlen d' = BSIZE /\ Forall is_byte d' /\
    forall k, 0 <= k < NINDIRECT -> entry d' k = if k =? n then a else entry d k.
Proof.
  intros Hd Hb Hn Ha. rewrite NINDIRECT_val in *.
  destruct (wr32_ok d (4 * n) a) as (d' & Hw & Hl); [lia|unfold BSIZE in *; lia|].
  exists d'. split_and!; [done|lia| |].
  - unfold wr32 in Hw. apply arr_write_Ok in Hw as (_ & _ & ->).
    repeat apply Forall_app_2; [by apply Forall_take|apply le_bytes_are_bytes|by apply Forall_drop].
  - intros k Hk. unfold entry, rdu32. destruct (Z.eqb_spec k n) as [->|Hne].
    + apply arr_read_write in Hw. change (zlen (le_bytes 4 a)) with 4 in Hw. rewrite Hw.
      cbn [mbind res_bind]. by rewrite le_value_u32, u32_small.
    + rewrite (arr_read_write_ne _ _ _ _ _ _ Hw); [done|].
      change (zlen (le_bytes 4 a)) with 4. lia.
Qed.

(** ** The tree *)

Inductive role :=
| Data (k : Z)
| Ind
| Ind2 (i : Z).

#[export] Instance role_eq_dec : EqDecision role.
Proof. solve_decision. Defined.

Definition role_ok (r : role) : Prop :=
  match r with
  | Data k => 0 <= k < MAXFILE
  | Ind => True
  | Ind2 i => 0 <= i < NINDIRECT
  end.

Definition dir (A : list Z) (n : Z) : Z := default 0 (A !! Z.to_nat n).
(** The entry of a data block in its block of addresses. *)
Definition major (k : Z) : Z := (k - NDIRECT) / NINDIRECT.
Definition minor (k : Z) : Z := (k - NDIRECT) mod NINDIRECT.

Definition addr_ind2 (C : Z -> list Z) (A : list Z) (i : Z) : Z :=
  if dir A NDIRECT =? 0 then 0 else entry (C (dir A NDIRECT)) i.

Definition addr (C : Z -> list Z) (A : list Z) (r : role) : Z :=
  match r with
  | Data k =>
    if k <? NDIRECT then dir A k
    else if addr_ind2 C A (major k) =? 0 then 0
         else entry (C (addr_ind2 C A (major k))) (minor k)
  | Ind => dir A NDIRECT
  | Ind2 i => addr_ind2 C A i
  end.

(** The contents of block [k] of the file; a block that is missing is zero. *)
Definition content (C : Z -> list Z) (A : list Z) (k : Z) : list Z :=
  if addr C A (Data k) =? 0 then zeros else C (addr C A (Data k)).

Lemma major_range k : NDIRECT <= k < MAXFILE -> 0 <= major k < NINDIRECT /\ 0 <= minor k < NINDIRECT.
Proof.
  unfold major, minor. rewrite MAXFILE_val, NINDIRECT_val. unfold NDIRECT. intros Hk.
  split; [|apply Z.mod_pos_bound; lia]. split; [apply Z.div_pos; lia|apply Z.div_lt_upper_bound; lia].
Qed.

Lemma major_minor k k' : major k = major k' -> minor k = minor k' -> k = k'.
Proof.
  unfold major, minor. rewrite NINDIRECT_val. intros H1 H2.
  pose proof (Z.div_mod (k - NDIRECT) 128 ltac:(lia)).
  pose proof (Z.div_mod (k' - NDIRECT) 128 ltac:(lia)). lia.
Qed.

(** ** Filling in a block *)

Definition inner (r : role) : bool := match r with Data _ => false | _ => true end.

(** The addresses depend on the blocks of addresses only. *)
Lemma addr_ext C C' A :
  (forall r, role_ok r -> inner r = true -> addr C A r <> 0 -> C' (addr C A r) = C (addr C A r)) ->
  forall r, role_ok r -> addr C' A r = addr C A r.
Proof.
  intros H. assert (H2 : forall i, 0 <= i < NINDIRECT -> addr_ind2 C' A i = addr_ind2 C A i).
  { intros i Hi. unfold addr_ind2. destruct (Z.eqb_spec (dir A NDIRECT) 0); [done|].
    pose proof (H Ind I eq_refl) as H'. cbn in H'. by rewrite H'. }
  intros [k| |i] Hr; [|done|by apply H2]. unfold addr. destruct (Z.ltb_spec k NDIRECT); [done|].
  destruct (major_range k) as [Hm _]; [cbn in Hr; lia|]. rewrite H2 by done.
  destruct (Z.eqb_spec (addr_ind2 C A (major k)) 0); [done|].
  pose proof (H (Ind2 (major k)) Hm eq_refl) as H'. cbn in H'. by rewrite H'.
Qed.

(** The role of entry [n] of [ip->addrs]. *)
Definition slot (n : Z) : role := if n <? NDIRECT then Data n else Ind.

Lemma dir_insert A n a m : zlen A = NDIRECT + 1 -> 0 <= n <= NDIRECT -> 0 <= m ->
  dir (<[Z.to_nat n := a]> A) m = if decide (m = n) then a else dir A m.
Proof.
  intros HA Hn Hm. unfold dir. case_decide as E.
  - subst m. rewrite list_lookup_insert_eq; [done|]. unfold zlen, NDIRECT in *. lia.
  - rewrite list_lookup_insert_ne; [done|lia].
Qed.

Lemma addr_slot C A n : 0 <= n <= NDIRECT -> addr C A (slot n) = dir A n.
Proof.
  intros Hn. unfold slot. destruct (Z.ltb_spec n NDIRECT) as [Hlt|Hge]; cbn.
  - destruct (Z.ltb_spec n NDIRECT); [done|lia].
  - f_equal. lia.
Qed.

Lemma addr_dir C A a n : zlen A = NDIRECT + 1 -> 0 <= n <= NDIRECT -> C a = zeros ->
  dir A n = 0 -> forall r, role_ok r ->
  addr C (<[Z.to_nat n := a]> A) r = if decide (r = slot n) then a else addr C A r.
Proof.
  intros HA Hn Hz H0. pose proof (fun m => dir_insert A n a m HA Hn) as Hdir.
  assert (HI : forall i, addr_ind2 C (<[Z.to_nat n := a]> A) i = addr_ind2 C A i).
  { intros i. unfold addr_ind2. rewrite Hdir by done. case_decide as E; [|done].
    rewrite E, H0, Hz, entry_zeros. cbn. by destruct (a =? 0). }
  unfold slot. intros [k| |i] Hr.
  - cbn [addr]. rewrite HI. cbn in Hr. destruct (Z.ltb_spec k NDIRECT) as [Hk|Hk].
    + rewrite Hdir by lia. destruct (Z.ltb_spec n NDIRECT); repeat case_decide; congruence || lia.
    + case_decide as E; [|done]. destruct (Z.ltb_spec n NDIRECT); [|done]. injection E as ->. lia.
  - cbn [addr]. rewrite Hdir by done. destruct (Z.ltb_spec n NDIRECT); repeat case_decide; congruence || lia.
  - cbn [addr]. rewrite HI. case_decide as E; [|done]. by destruct (n <? NDIRECT).
Qed.

(** The role of entry [i] of the block of addresses of role [q]. *)
Definition child (q : role) (i : Z) : role :=
  match q with Ind2 m => Data (NDIRECT + NINDIRECT * m + i) | _ => Ind2 i end.

Lemma child_data m i : 0 <= m -> 0 <= i < NINDIRECT ->
  major (NDIRECT + NINDIRECT * m + i) = m /\ minor (NDIRECT + NINDIRECT * m + i) = i.
Proof.
  unfold major, minor. rewrite NINDIRECT_val. intros Hm Hi.
  replace (NDIRECT + 128 * m + i - NDIRECT) with (i + m * 128) by lia.
  rewrite Z.div_add, Z.mod_add, Z.div_small, Z.mod_small by lia. lia.
Qed.

Lemma child_ok q i : inner q = true -> role_ok q -> 0 <= i < NINDIRECT -> role_ok (child q i).
Proof.
  destruct q; [done| |]; cbn; rewrite ?MAXFILE_val, NINDIRECT_val; unfold NDIRECT; lia.
Qed.

Lemma addr_child C A q i : inner q = true -> role_ok q -> 0 <= i < NINDIRECT ->
  addr C A (child q i) = if addr C A q =? 0 then 0 else entry (C (addr C A q)) i.
Proof.
  destruct q as [| |m]; [done|done|]. intros _ Hm Hi. cbn in Hm. cbn [child addr].
  destruct (child_data m i) as [-> ->]; [lia|done|]. rewrite NINDIRECT_val in *.
  destruct (Z.ltb_spec (NDIRECT + 128 * m + i) NDIRECT); [lia|done].
Qed.

Lemma child_inj q i q' i' : inner q = true -> inner q' = true -> role_ok q -> role_ok q' ->
  0 <= i < NINDIRECT -> 0 <= i' < NINDIRECT -> child q i = child q' i' -> q = q' /\ i = i'.
Proof.
  rewrite NINDIRECT_val. destruct q as [| |m], q' as [| |m']; intros; try done; simplify_eq/=.
  - done.
  - rewrite NINDIRECT_val in *. assert (m = m') as -> by lia. split; [done|lia].
Qed.

Lemma child_ne q i q' i' : inner q = true -> inner q' = true -> q' = child q i -> child q' i' <> child q i.
Proof. destruct q, q'; done. Qed.

Lemma role_cases r : role_ok r ->
  (exists n, 0 <= n <= NDIRECT /\ r = slot n) \/
  (exists q i, inner q = true /\ role_ok q /\ 0 <= i < NINDIRECT /\ r = child q i).
Proof.
  destruct r as [k| |i]; intros Hr.
  - destruct (Z.lt_ge_cases k NDIRECT) as [Hk|Hk].
    + left. exists k. cbn in Hr. split; [lia|]. unfold slot. by destruct (Z.ltb_spec k NDIRECT); [|lia].
    + right. destruct (major_range k) as [H1 H2]; [cbn in Hr; lia|].
      exists (Ind2 (major k)), (minor k). split_and!; try done; try lia. cbn. f_equal.
      unfold major, minor. pose proof (Z.div_mod (k - NDIRECT) NINDIRECT ltac:(done)). lia.
  - left. by exists NDIRECT.
  - right. exists Ind, i. done.
Qed.

Section file.
Variables (mypid N st sz data0 : Z) (sb : superblock).
Hypothesis Hly : layout N st sz data0 sb.

Notation used := (used sb).
Notation disk_ok := (disk_ok N data0 sb).
Notation data_block := (data_block data0 sb).

(** Distinct roles have distinct blocks, all of them data blocks in use. *)
Record fwf (C : Z -> list Z) (A : list Z) : Prop := {
  fw_len : zlen A = NDIRECT + 1;
  fw_used : forall r, role_ok r -> addr C A r <> 0 ->
    data_block (addr C A r) /\ used C (addr C A r) = true;
  fw_inj : forall r r', role_ok r -> role_ok r' -> addr C A r <> 0 -> addr C A r = addr C A r' -> r = r';
}.

(** [C'] and [A'] have the blocks of the file, possibly more that were free,
    and change no other block in use. *)
Record grows (C : Z -> list Z) (A : list Z) (C' : Z -> list Z) (A' : list Z) : Prop := {
  x_ok : disk_ok C';
  x_wf : fwf C' A';
  x_mono : forall r, role_ok r -> addr C A r <> 0 -> addr C' A' r = addr C A r;
  x_fresh : forall r, role_ok r -> addr C A r = 0 -> addr C' A' r <> 0 ->
    data_block (addr C' A' r) /\ used C (addr C' A' r) = false;
  x_used : forall x, 0 <= x < sb_size sb -> used C x = true -> used C' x = true;
  x_frame : forall x, ~ bmap_block sb x -> (data_block x -> used C x = true) ->
    (forall r, role_ok r -> addr C A r <> x) -> C' x = C x;
}.

(** The same file with possibly more blocks. *)
Record extends (C : Z -> list Z) (A : list Z) (C' : Z -> list Z) (A' : list Z) : Prop := {
  x_grows : grows C A C' A';
  x_content : forall k, 0 <= k < MAXFILE -> content C' A' k = content C A k;
}.

Lemma data_nonzero x : data_block x -> x <> 0 /\ 0 <= x < sb_size sb.
Proof. destruct (ly_data _ _ _ _ _ Hly). unfold FsAlloc.data_block. lia. Qed.

Lemma extends_refl C A : disk_ok C -> fwf C A -> extends C A C A.
Proof. intros Hd Hf. by constructor. Qed.

Lemma file_grows_trans C A C1 A1 C2 A2 :
  grows C A C1 A1 -> grows C1 A1 C2 A2 -> grows C A C2 A2.
Proof.
  intros [O1 W1 M1 F1 U1 R1] [O2 W2 M2 F2 U2 R2]. constructor; [done|done| | | |].
  - intros r Hr H. rewrite M2; [by apply M1|done|by rewrite M1].
  - intros r Hr H H2. destruct (Z.eq_dec (addr C1 A1 r) 0) as [H1|H1].
    + destruct (F2 r Hr H1 H2) as [Hd Hu]. split; [done|].
      destruct (used C (addr C2 A2 r)) eqn:E; [|done].
      rewrite U1 in Hu; [done|by apply data_nonzero|done].
    + rewrite M2 by done. by apply F1.
  - intros x Hx H. apply U2, U1; done.
  - intros x Hb Hd Hr. rewrite R2, R1; try done.
    + intros Hx. apply U1; [by apply data_nonzero|auto].
    + intros r Hrr He. destruct (Z.eq_dec (addr C A r) 0) as [H0|H0].
      * destruct (Z.eq_dec (addr C1 A1 r) 0) as [H1|H1].
        -- rewrite He in H1. subst x. apply (Hr r Hrr). congruence.
        -- destruct (F1 r Hrr H0 H1) as [Hdd Hu]. rewrite He in *. rewrite Hd in Hu by done. done.
      * apply (Hr r Hrr). rewrite <- (M1 r) by done. done.
Qed.

Lemma extends_trans C A C1 A1 C2 A2 :
  extends C A C1 A1 -> extends C1 A1 C2 A2 -> extends C A C2 A2.
Proof.
  intros [G1 K1] [G2 K2]. constructor; [by apply (file_grows_trans C A C1 A1)|].
  intros k Hk. rewrite K2, K1; done.
Qed.

(** A store of entry [i] of the block of addresses of role [q]. *)
Lemma addr_entry C A a q i d' : fwf C A -> inner q = true -> role_ok q -> 0 <= i < NINDIRECT ->
  addr C A q <> 0 -> addr C A (child q i) = 0 -> C a = zeros -> a <> addr C A q ->
  (forall k, 0 <= k < NINDIRECT -> entry d' k = if k =? i then a else entry (C (addr C A q)) k) ->
  forall r, role_ok r ->
  addr (fupd C (addr C A q) d') A r = if decide (r = child q i) then a else addr C A r.
Proof.
  intros Hwf Hq Hqr Hi Hp H0 Hz Hap Hd'. set (C' := fupd C (addr C A q) d').
  assert (Hslot : forall n, 0 <= n <= NDIRECT -> addr C' A (slot n) = addr C A (slot n)).
  { intros n Hn. by rewrite !addr_slot. }
  assert (step : forall q' i', inner q' = true -> role_ok q' -> 0 <= i' < NINDIRECT ->
    addr C' A q' = (if decide (q' = child q i) then a else addr C A q') ->
    addr C' A (child q' i') = if decide (child q' i' = child q i) then a else addr C A (child q' i')).
  { intros q' i' Hq' Hqr' Hi' E. rewrite !addr_child by done. rewrite E. case_decide as Ec.
    - rewrite decide_False by (by apply child_ne). rewrite Ec, H0. unfold C'. rewrite fupd_ne, Hz, entry_zeros by done.
      cbn. by destruct (a =? 0).
    - destruct (Z.eqb_spec (addr C A q') 0) as [Hz'|Hnz'].
      + rewrite decide_False; [done|]. intros He. by apply child_inj in He as [-> _].
      + destruct (decide (q' = q)) as [->|Hne].
        * unfold C'. rewrite fupd_eq, Hd' by done.
          destruct (Z.eqb_spec i' i) as [->|Hii]; [by rewrite decide_True|].
          rewrite decide_False; [done|]. intros He. by apply child_inj in He as [_ ->].
        * rewrite decide_False by (intros He; by apply child_inj in He as [-> _]).
          unfold C'. rewrite fupd_ne; [done|]. intros He. by apply Hne, (fw_inj _ _ Hwf). }
  assert (HInd : addr C' A Ind = if decide (Ind = child q i) then a else addr C A Ind).
  { rewrite decide_False by (by destruct q). done. }
  intros r Hr. destruct (role_cases r Hr) as [(n & Hn & ->)|(q' & i' & Hq' & Hqr' & Hi' & ->)].
  - rewrite Hslot by done. rewrite decide_False; [done|]. intros He. rewrite <- He, addr_slot in H0 by done.
    destruct q as [| |m]; [done|unfold slot in He; by destruct (n <? NDIRECT)|].
    unfold slot in He. destruct (Z.ltb_spec n NDIRECT); [|done]. injection He as He. cbn in Hqr. 
    rewrite NINDIRECT_val in *. lia.
  - apply step; [done..|]. destruct q' as [| |m]; [done|done|]. by apply (step Ind m).
Qed.

(** [C'] has the role [r] given to the freshly allocated [a]; a change of a
    block of addresses is all that it has beside the allocation. *)
Definition linked_in (C C1 C' : Z -> list Z) (A : list Z) : Prop := forall x,
  C' x = C1 x \/
  exists q, inner q = true /\ role_ok q /\ addr C A q <> 0 /\ x = addr C A q /\
    zlen (C' x) = BSIZE /\ Forall is_byte (C' x).

Section linked_in.
Context (C C1 C' : Z -> list Z) (A A' : list Z) (a : Z) (r : role).
Hypothesis Hwf : fwf C A.
Hypothesis Hal : allocd N data0 sb C a C1.
Hypothesis Hr : role_ok r.
Hypothesis H0 : addr C A r = 0.
Hypothesis HA' : zlen A' = NDIRECT + 1.
Hypothesis Haddr : forall r', role_ok r' ->
  addr C' A' r' = if decide (r' = r) then a else addr C A r'.
Hypothesis Hin : linked_in C C1 C' A.

Lemma old_block r' : role_ok r' -> addr C A r' <> 0 ->
  addr C A r' <> a /\ C1 (addr C A r') = C (addr C A r').
Proof.
  intros Hr' Hn. destruct (fw_used _ _ Hwf r' Hr' Hn) as [Hd Hu].
  assert (Hne : addr C A r' <> a) by (intros He; rewrite He, (al_free _ _ _ _ _ _ Hal) in Hu; done).
  split; [done|]. apply (al_other _ _ _ _ _ _ Hal); [done|]. by eapply data_not_bmap.
Qed.

Lemma linked_used x : 0 <= x < sb_size sb -> used C' x = (x =? a) || used C x.
Proof.
  intros Hx. rewrite <- (al_used _ _ _ _ _ _ Hal) by done. unfold FsAlloc.used.
  destruct (Hin (x / BPB + bmapstart sb)) as [->|(q & _ & Hq & Hn & He & _)]; [done|].
  destruct (fw_used _ _ Hwf q Hq Hn) as [Hd _]. rewrite <- He in Hd.
  exfalso. eapply data_not_bmap; [done..|]. by exists x.
Qed.

Lemma linked_ok : disk_ok C'.
Proof.
  destruct (al_ok _ _ _ _ _ _ Hal) as [Hl Hb Hm]. constructor.
  - intros b Hb' Hk. destruct (Hin b) as [->|(q & _ & _ & _ & _ & ? & _)]; [by apply Hl|done].
  - intros b Hb' Hk. destruct (Hin b) as [->|(q & _ & _ & _ & _ & _ & ?)]; [by apply Hb|done].
  - intros b Hb' Hs. rewrite linked_used by lia. rewrite <- (al_used _ _ _ _ _ _ Hal) by lia. by apply Hm.
Qed.

Lemma linked_wf : fwf C' A'.
Proof.
  pose proof (al_data _ _ _ _ _ _ Hal) as Hda.
  constructor; [done| |].
  - intros r' Hr'. rewrite (Haddr r' Hr'). case_decide.
    + intros _. split; [done|]. rewrite linked_used by (by apply data_nonzero). by rewrite Z.eqb_refl.
    + intros Hn. destruct (fw_used _ _ Hwf r' Hr' Hn) as [Hd Hu]. split; [done|].
      rewrite linked_used by (by apply data_nonzero). rewrite Hu. apply orb_true_r.
  - intros r1 r2 Hr1 Hr2. rewrite !Haddr by done. repeat case_decide; subst; [done| | |].
    + intros Hn He. rewrite He in Hn. by destruct (old_block r2 Hr2 Hn).
    + intros Hn He. by destruct (old_block r1 Hr1 Hn).
    + by apply (fw_inj _ _ Hwf).
Qed.

Lemma linked_data k : 0 <= k < MAXFILE -> content C' A' k = content C A k.
Proof.
  intros Hk. unfold content. rewrite (Haddr (Data k) Hk). case_decide as E.
  - rewrite <- E in H0. rewrite H0. cbn. destruct (Z.eqb_spec a 0); [done|].
    destruct (Hin a) as [->|(q & _ & Hq & Hn & He & _)]; [by apply (al_zero _ _ _ _ _ _ Hal)|].
    by destruct (old_block q Hq Hn).
  - destruct (Z.eqb_spec (addr C A (Data k)) 0) as [|Hn]; [done|].
    destruct (Hin (addr C A (Data k))) as [->|(q & Hi & Hq & Hnq & He & _)]; [by apply old_block|].
    by apply (fw_inj _ _ Hwf) in He; [subst q|..].
Qed.

Lemma linked_extends : extends C A C' A'.
Proof.
  pose proof (al_data _ _ _ _ _ _ Hal) as Hda. pose proof (al_free _ _ _ _ _ _ Hal) as Hfa.
  constructor; [|apply linked_data]. constructor; [apply linked_ok|apply linked_wf| | | |].
  - intros r' Hr' Hn. rewrite Haddr by done. case_decide; congruence.
  - intros r' Hr' Hz. rewrite Haddr by done. case_decide; [done|congruence].
  - intros x Hx Hu. rewrite linked_used by done. rewrite Hu. apply orb_true_r.
  - intros x Hb Hu Hna. destruct (Hin x) as [->|(q & _ & Hq & _ & He & _)].
    + apply (al_other _ _ _ _ _ _ Hal); [|done]. intros ->. rewrite Hu in Hfa by done. done.
    + by destruct (Hna q Hq).
Qed.
End linked_in.

(** A store of a block that is in no tree and no bitmap changes no file. *)
Lemma addr_meta C x d A : ~ data_block x -> fwf C A -> forall r, role_ok r ->
  addr (fupd C x d) A r = addr C A r.
Proof.
  intros Hx Hwf. apply addr_ext. intros r Hr _ Hn. apply fupd_ne. intros <-.
  by destruct (fw_used _ _ Hwf r Hr Hn).
Qed.

Lemma used_fupd C x d b : ~ bmap_block sb x -> 0 <= b < sb_size sb ->
  used (fupd C x d) b = used C b.
Proof. intros Hx Hb. unfold FsAlloc.used. rewrite fupd_ne; [done|]. intros <-. apply Hx. by exists b. Qed.

Lemma disk_ok_fupd C x d : disk_ok C -> ~ bmap_block sb x ->
  (data0 <= x -> zlen d = BSIZE /\ Forall is_byte d) -> disk_ok (fupd C x d).
Proof.
  intros [Hl Hb Hm] Hx Hd. constructor.
  - intros b Hb' Hk. unfold fupd. case_decide as E; [apply Hd; subst; by destruct Hk|by apply Hl].
  - intros b Hb' Hk. unfold fupd. case_decide as E; [apply Hd; subst; by destruct Hk|by apply Hb].
  - intros b Hb' Hs. rewrite used_fupd by (done || lia). by apply Hm.
Qed.

Lemma fwf_same C A C' A' : fwf C A -> zlen A' = NDIRECT + 1 ->
  (forall r, role_ok r -> addr C' A' r = addr C A r) ->
  (forall b, 0 <= b < sb_size sb -> used C' b = used C b) -> fwf C' A'.
Proof.
  intros [HA Hu Hi] HA' E U. constructor; [done| |].
  - intros r Hr. rewrite E by done. intros Hn. destruct (Hu r Hr Hn). split; [done|].
    rewrite U by (by apply data_nonzero). done.
  - intros r r' Hr Hr'. rewrite !E by done. by apply Hi.
Qed.

(** A store of a data block. *)
Lemma store_grows C A k d : disk_ok C -> fwf C A -> 0 <= k < MAXFILE ->
  addr C A (Data k) <> 0 -> zlen d = BSIZE -> Forall is_byte d ->
  grows C A (fupd C (addr C A (Data k)) d) A /\
  (forall r, role_ok r -> addr (fupd C (addr C A (Data k)) d) A r = addr C A r) /\
  forall k', 0 <= k' < MAXFILE ->
    content (fupd C (addr C A (Data k)) d) A k' = if k' =? k then d else content C A k'.
Proof.
  intros Hok Hwf Hk Hn Hd Hby. set (a := addr C A (Data k)) in *.
  destruct (fw_used _ _ Hwf (Data k) Hk Hn) as [Hda Hua]. fold a in Hda, Hua.
  pose proof (data_not_bmap _ _ _ _ _ Hly a Hda) as Hnb.
  assert (E : forall r, role_ok r -> addr (fupd C a d) A r = addr C A r).
  { apply addr_ext. intros r Hr Hi Hnr. apply fupd_ne. intros He.
    apply (fw_inj _ _ Hwf) in He; [by subst r|done..]. }
  assert (U : forall b, 0 <= b < sb_size sb -> used (fupd C a d) b = used C b).
  { intros b Hb. by apply used_fupd. }
  split_and!; [constructor|done|].
  - by apply disk_ok_fupd.
  - by apply (fwf_same C A); [|apply Hwf|..].
  - intros r Hr _. by apply E.
  - intros r Hr H0. by rewrite E.
  - intros x Hx. by rewrite U.
  - intros x _ _ Hx. apply fupd_ne. intros ->. by apply (Hx (Data k) Hk).
  - intros k' Hk'. unfold content. rewrite (E (Data k') Hk').
    destruct (Z.eqb_spec k' k) as [->|Hne].
    + fold a. destruct (Z.eqb_spec a 0); [done|]. by rewrite fupd_eq.
    + destruct (Z.eqb_spec (addr C A (Data k')) 0) as [|Hn']; [done|]. apply fupd_ne. intros He.
      apply (fw_inj _ _ Hwf) in He; [by injection He|done..].
Qed.

(** ** The bytes *)

Definition fbyte (C : Z -> list Z) (A : list Z) (o : Z) : Z :=
  nth (Z.to_nat (o mod BSIZE)) (content C A (o / BSIZE)) 0.

Lemma content_ok C A k : disk_ok C -> fwf C A -> 0 <= k < MAXFILE ->
  zlen (content C A k) = BSIZE /\ Forall is_byte (content C A k).
Proof.
  intros [Hl Hb _] Hwf Hk. unfold content.
  destruct (Z.eqb_spec (addr C A (Data k)) 0) as [|Hn]; [split; [done|apply zeros_bytes]|].
  destruct (fw_used _ _ Hwf (Data k) Hk Hn) as [Hd _].
  destruct (data_home _ _ _ _ _ Hly _ Hd) as (_ & _ & ?). unfold FsAlloc.data_block in Hd.
  split; [apply Hl; [done|]; right; lia|apply Hb; [done|]; right; lia].
Qed.

Lemma block_range o m : 0 <= o -> o mod BSIZE + m <= BSIZE -> forall j, 0 <= j < m ->
  (o + j) / BSIZE = o / BSIZE /\ (o + j) mod BSIZE = o mod BSIZE + j.
Proof.
  intros Ho Hm j Hj. pose proof (Z.div_mod o BSIZE ltac:(done)). pose proof (Z.mod_pos_bound o BSIZE ltac:(done)).
  assert (Hq : o + j = (o mod BSIZE + j) + o / BSIZE * BSIZE) by lia.
  rewrite Hq, Z.div_add, Z.mod_add, Z.div_small, Z.mod_small by lia. lia.
Qed.

Lemma block_index o : 0 <= o < MAXFILE * BSIZE -> 0 <= o / BSIZE < MAXFILE.
Proof. intros Ho. split; [apply Z.div_pos; unfold BSIZE; lia|apply Z.div_lt_upper_bound; [done|lia]]. Qed.

Lemma fbyte_ext C A C' A' o : extends C A C' A' -> 0 <= o < MAXFILE * BSIZE ->
  fbyte C' A' o = fbyte C A o.
Proof. intros Hx Ho. unfold fbyte. by rewrite (x_content _ _ _ _ Hx) by (by apply block_index). Qed.

(** The bytes of a part of a block. *)
Lemma read_chunk C A o m : zlen (content C A (o / BSIZE)) = BSIZE -> 0 <= o -> 0 <= m ->
  o mod BSIZE + m <= BSIZE ->
  arr_read (content C A (o / BSIZE)) (o mod BSIZE) m = Ok (fbyte C A <$> seqZ o m).
Proof.
  intros Hl Ho Hm Hb. pose proof (Z.mod_pos_bound o BSIZE ltac:(done)).
  rewrite arr_read_ok by lia. f_equal. apply list_eq. intros j.
  destruct (decide (Z.of_nat j < m)) as [Hj|Hj].
  - rewrite lookup_take, lookup_drop, list_lookup_fmap, lookup_seqZ_lt by lia.
    rewrite decide_True by lia. cbn. unfold fbyte.
    destruct (block_range o m Ho Hb (Z.of_nat j)) as [-> ->]; [lia|].
    destruct (content C A (o / BSIZE) !! (Z.to_nat (o mod BSIZE) + j)%nat) eqn:E.
    + f_equal. replace (Z.to_nat (o mod BSIZE + Z.of_nat j)) with (Z.to_nat (o mod BSIZE) + j)%nat by lia.
      symmetry. by apply nth_lookup_Some.
    + apply lookup_ge_None in E. unfold zlen in Hl. lia.
  - rewrite lookup_take_ge, list_lookup_fmap, lookup_seqZ_ge by lia. done.
Qed.

End file.
