(* ===== verification/FsData.v ===== *)
(** * The contents of a file

    What [bmap], [readi] and [writei] do to the file of an inode: [bmap] finds
    or adds a block and leaves the bytes of the file as they are, [readi]
    returns them and [writei] replaces them. *)

From stdpp Require Import base list strings gmap sets.
From Stdlib Require Import ZArith Lia.
From S2P Require Import Prelude State Bio BioProofs Log LogProofs CrashProofs Transact Fs FsBase FsAlloc FsFile.

Section data.
Variables (mypid N st sz data0 : Z) (sb : superblock).
Hypothesis Hly : layout N st sz data0 sb.

Notation fsr := (fsr N st sz).
Notation fwf := (fwf data0 sb).
Notation disk_ok := (disk_ok N data0 sb).
Notation extends := (extends N data0 sb).

(** The inode is entry [ip] of the cache, [i] but for the addresses. *)
Variables (ic : list inode) (ip : Z) (i : inode).
Hypothesis Hip : 0 <= ip < zlen ic.
Hypothesis Hdev : i_dev i = 1.

Definition tree (A : list Z) : list inode :=
  <[Z.to_nat ip := with_copy i (with_addrs (i_copy i) A)]> ic.

Lemma tree_get A : arr_get (tree A) ip = Ok (with_copy i (with_addrs (i_copy i) A)).
Proof.
  unfold tree. apply arr_get_Ok. split; [lia|]. apply list_lookup_insert_eq. unfold zlen in Hip. lia.
Qed.

Lemma tree_set A A' :
  arr_set (tree A) ip (with_copy i (with_addrs (i_copy i) A')) = Ok (tree A').
Proof.
  unfold tree. rewrite arr_set_ok by (unfold zlen in *; by rewrite length_insert).
  by rewrite list_insert_insert_eq.
Qed.

(** A block in use is a data block that can be read and written. *)
Lemma alloc_fwf C A a C1 : fwf C A -> allocd N data0 sb C a C1 ->
  (forall r, role_ok r -> addr C1 A r = addr C A r) /\ fwf C1 A.
Proof.
  intros Hwf Hal. assert (E : forall r, role_ok r -> addr C1 A r = addr C A r).
  { apply addr_ext. intros r Hr _ Hn. by eapply old_block. }
  split; [done|]. destruct Hwf as [HA Hu Hinj]. constructor; [done| |].
  - intros r Hr. rewrite E by done. intros Hn. destruct (Hu r Hr Hn) as [Hd Hus]. split; [done|].
    rewrite (al_used _ _ _ _ _ _ Hal) by (by eapply data_nonzero). rewrite Hus. apply orb_true_r.
  - intros r r' Hr Hr'. rewrite !E by done. by apply Hinj.
Qed.

Lemma data_u32 a : data_block data0 sb a -> 0 <= a < 2 ^ 32.
Proof.
  intros Ha. destruct (data_home _ _ _ _ _ Hly a Ha) as (_ & _ & ?).
  pose proof (ly_small _ _ _ _ _ Hly). unfold BSIZE in *. lia.
Qed.

(** [a] is the block of role [r] in a file that extends the given one; it is
    the same file when it has the block. *)
Definition filled (C : Z -> list Z) (A : list Z) (r : role) (a : Z) (f : fs) : Prop :=
  exists C' A', (extends C A C' A' /\ addr C' A' r = a /\ a <> 0 /\
                 (addr C A r <> 0 -> C' = C /\ A' = A)) /\
    fsr C' ∅ ∅ sb (tree A') f.

Lemma addr_or_alloc_spec C A n : disk_ok C -> fwf C A -> 0 <= n <= NDIRECT ->
  hoareX exhausted (fsr C ∅ ∅ sb (tree A)) (addr_or_alloc mypid ip n) (filled C A (slot n)).
Proof.
  intros Hok Hwf Hn. unfold addr_or_alloc.
  eapply hoareX_seq; [apply inode_at_spec, tree_get|]. intros _ ->. cbn [i_copy with_copy d_addrs with_addrs i_dev].
  assert (Hg : arr_get A n = Ok (addr C A (slot n))).
  { rewrite addr_slot by done. unfold arr_get, dir. destruct (Z.ltb_spec n 0); [lia|].
    destruct (lookup_lt_is_Some_2 A (Z.to_nat n)) as [x ->]; [|done].
    pose proof (fw_len _ _ _ _ Hwf) as HA. unfold zlen, NDIRECT in *. lia. }
  eapply hoareX_seq; [exact (hoareX_pure _ _ _ _ Hg)|]. intros _ ->.
  destruct (Z.eqb_spec (addr C A (slot n)) 0) as [H0|Hn0].
  2:{ intros f Hf. cbn. exists C, A. split; [|done]. split; [by apply extends_refl|done]. }
  rewrite Hdev. eapply hoareX_bind; [by eapply balloc_spec|]. intros a.
  apply hoareX_ex. intros C1. apply hoareX_and. intros Hal.
  assert (Hs : arr_set A n a = Ok (<[Z.to_nat n := a]> A)).
  { apply arr_set_ok. rewrite (fw_len _ _ _ _ Hwf). lia. }
  unfold set_addr. eapply hoareX_bind.
  { eapply hoareX_seq; [apply inode_at_spec, tree_get|]. intros _ ->.
    eapply hoareX_seq; [exact (hoareX_pure _ _ _ _ Hs)|]. intros _ ->.
    eapply inode_upd_spec; [apply tree_get|]. apply (tree_set A (<[Z.to_nat n := a]> A)). }
  intros [] f Hf. cbn. exists C1, (<[Z.to_nat n := a]> A). split; [|done].
  destruct (alloc_fwf C A a C1 Hwf Hal) as [E _].
  assert (Haddr : forall r, role_ok r -> addr C1 (<[Z.to_nat n := a]> A) r =
    if decide (r = slot n) then a else addr C A r).
  { intros r Hr. rewrite addr_dir; [|apply (fw_len _ _ _ _ Hwf)|done|apply (al_zero _ _ _ _ _ _ Hal)| |done].
    - by rewrite E. 
    - by rewrite <- H0, addr_slot. }
  assert (Hro : role_ok (slot n)).
  { unfold slot. destruct (Z.ltb_spec n NDIRECT); [|done]. cbn. rewrite MAXFILE_val. unfold NDIRECT in *. lia. }
  split_and!.
  - eapply linked_extends; try done.
    + unfold zlen. rewrite length_insert. apply (fw_len _ _ _ _ Hwf).
    + intros x. by left.
  - rewrite Haddr by done. by rewrite decide_True.
  - eapply data_nonzero; [done|]. apply (al_data _ _ _ _ _ _ Hal).
  - done.
Qed.

Lemma indirect_spec C A q n : disk_ok C -> fwf C A -> inner q = true -> role_ok q ->
  0 <= n < NINDIRECT -> addr C A q <> 0 ->
  hoareX exhausted (fsr C ∅ ∅ sb (tree A)) (indirect mypid 1 (addr C A q) n)
    (filled C A (child q n)).
Proof.
  intros Hok Hwf Hq Hqr Hn Hp. set (p := addr C A q) in *. unfold indirect.
  destruct (fw_used _ _ _ _ Hwf q Hqr Hp) as [Hpd Hpu]. fold p in Hpd, Hpu.
  destruct (data_home _ _ _ _ _ Hly p Hpd) as (Hph & Hp1 & HpN).
  eapply hoareX_seq; [apply fbread_spec; [done|done|apply not_elem_of_empty]|]. intros h Hh.
  eapply hoareX_seq; [apply fbdata_spec with (b := p); by rewrite lookup_insert_eq|]. intros _ [-> Hlen].
  eapply hoareX_seq; [exact (hoareX_pure _ _ _ _ (rdu32_ok (C p) n Hlen Hn))|]. intros _ ->.
  assert (Hc : addr C A (child q n) = entry (C p) n).
  { rewrite addr_child by done. fold p. destruct (Z.eqb_spec p 0); done. }
  rewrite <- Hc. destruct (Z.eqb_spec (addr C A (child q n)) 0) as [H0|Hn0].
  2:{ eapply hoareX_bind; [by apply relse_spec|]. intros [] f Hf. cbn. exists C, A.
      split; [|done]. split; [by apply extends_refl|done]. }
  eapply hoareX_bind; [eapply balloc_spec; [done|done|]|].
  { intros h' b Hb. apply lookup_insert_Some in Hb as [[_ <-]|[_ Hb]]; [done|by rewrite lookup_empty in Hb]. }
  intros a. apply hoareX_ex. intros C1. apply hoareX_and. intros Hal.
  eapply hoareX_seq; [apply fbdata_spec with (b := p); by rewrite lookup_insert_eq|]. intros _ [-> Hlen1].
  destruct (alloc_fwf C A a C1 Hwf Hal) as [E Hwf1].
  pose proof (data_u32 a (al_data _ _ _ _ _ _ Hal)) as Ha.
  destruct (wr32_entry (C1 p) n a Hlen1) as (d' & Hw & Hld & Hbd & Hent);
    [apply (al_ok _ _ _ _ _ _ Hal); [done|]; right; apply Hpd|done|done|].
  eapply hoareX_seq; [exact (hoareX_pure _ _ _ _ Hw)|]. intros _ ->.
  apply update_bind with (b := p); [by rewrite lookup_insert_eq|done|done|done|].
  eapply hoareX_bind; [by apply relse_spec|]. intros [] f Hf. cbn.
  exists (fupd C1 p d'), A. split; [|done].
  assert (Haddr : forall r, role_ok r ->
    addr (fupd C1 p d') A r = if decide (r = child q n) then a else addr C A r).
  { intros r Hr. rewrite <- (E r Hr). unfold p. rewrite <- (E q Hqr).
    apply (addr_entry data0 sb); try done; rewrite ?E; try done.
    - by apply child_ok.
    - apply (al_zero _ _ _ _ _ _ Hal).
    - intros He. pose proof (al_free _ _ _ _ _ _ Hal) as Hf'. rewrite He in Hf'. fold p in Hf'. congruence. }
  pose proof (child_ok q n Hq Hqr Hn) as Hro.
  split_and!.
  - eapply linked_extends; try done; [apply (fw_len _ _ _ _ Hwf)|].
    intros x. destruct (decide (x = p)) as [->|Hx]; [|left; by rewrite fupd_ne].
    right. exists q. rewrite fupd_eq. done.
  - rewrite Haddr by done. by rewrite decide_True.
  - eapply data_nonzero; [done|]. apply (al_data _ _ _ _ _ _ Hal).
  - done.
Qed.

Lemma filled_trans C A C' A' r a f : extends C A C' A' ->
  (addr C A r <> 0 -> C' = C /\ A' = A) -> filled C' A' r a f -> filled C A r a f.
Proof.
  intros Hx Hs (C2 & A2 & (Hx2 & ? & ? & Hs2) & ?). exists C2, A2. split; [|done]. split_and!; [|done..|].
  - by apply (extends_trans _ _ _ _ _ Hly C A C' A').
  - intros Hn. destruct (Hs Hn) as [-> ->]. by apply Hs2.
Qed.

Lemma child_parent C A q n : inner q = true -> role_ok q -> 0 <= n < NINDIRECT ->
  addr C A (child q n) <> 0 -> addr C A q <> 0.
Proof. intros Hq Hr Hn. rewrite addr_child by done. by destruct (Z.eqb_spec (addr C A q) 0). Qed.

Lemma bmap_spec C A k : disk_ok C -> fwf C A -> 0 <= k < MAXFILE ->
  hoareX exhausted (fsr C ∅ ∅ sb (tree A)) (bmap mypid ip k) (filled C A (Data k)).
Proof.
  intros Hok Hwf Hk. unfold bmap. destruct (Z.ltb_spec k NDIRECT) as [Hd|Hd].
  { assert (slot k = Data k) as <- by (unfold slot; by destruct (Z.ltb_spec k NDIRECT); [|lia]).
    apply addr_or_alloc_spec; [done|done|lia]. }
  destruct (major_range k) as [Hmaj Hmin]; [lia|]. fold (major k) (minor k).
  destruct (Z.ltb_spec (major k) NINDIRECT); [|lia].
  assert (Hck : child (Ind2 (major k)) (minor k) = Data k).
  { cbn. f_equal. unfold major, minor. pose proof (Z.div_mod (k - NDIRECT) NINDIRECT ltac:(done)). lia. }
  eapply hoareX_bind; [by apply addr_or_alloc_spec|]. intros a0. change (slot NDIRECT) with Ind.
  apply hoareX_ex. intros C1. apply hoareX_ex. intros A1. apply hoareX_and. intros (X1 & <- & Hn1 & S1).
  eapply hoareX_seq; [apply inode_at_spec, tree_get|]. intros _ ->. cbn [i_dev with_copy]. rewrite Hdev.
  eapply hoareX_bind; [apply (indirect_spec C1 A1 Ind); try done; [apply X1..]|]. intros a1.
  apply hoareX_ex. intros C2. apply hoareX_ex. intros A2. apply hoareX_and. intros (X2 & <- & Hn2 & S2).
  eapply hoareX_post; [apply (indirect_spec C2 A2 (Ind2 (major k))); try done; [apply X2..]|].
  intros a f Hf. rewrite <- Hck. assert (P1 : forall C A, addr C A (child (Ind2 (major k)) (minor k)) <> 0 ->
    addr C A (child Ind (major k)) <> 0) by (intros *; by apply (child_parent _ _ (Ind2 (major k)))).
  eapply filled_trans; [exact X1|intros Hn; apply S1|].
  { eapply (child_parent _ _ Ind); [done|done|exact Hmaj|]. by apply P1. }
  eapply filled_trans; [exact X2|intros Hn; by apply S2, P1|done].
Qed.
(** ** Reading *)

(** The file has a block for every byte of a range. *)
Definition dense (C : Z -> list Z) (A : list Z) (off n : Z) : Prop :=
  forall o, off <= o < off + n -> addr C A (Data (o / BSIZE)) <> 0.

Definition has_read (C : Z -> list Z) (A : list Z) (off n : Z) (f : fs) : Prop :=
  exists C' A', (extends C A C' A' /\ (dense C A off n -> C' = C /\ A' = A)) /\
    fsr C' ∅ ∅ sb (tree A') f.

Lemma MAXBYTES : MAXFILE * BSIZE = 8394752.
Proof. done. Qed.

Lemma min_chunk r o : 0 < r -> let m := Z.min r (BSIZE - o mod BSIZE) in
  0 < m <= r /\ o mod BSIZE + m <= BSIZE.
Proof. intros Hr m. pose proof (Z.mod_pos_bound o BSIZE ltac:(done)). unfold m. lia. Qed.

Lemma readi_loop_spec fuel C A tot off n acc : disk_ok C -> fwf C A ->
  0 <= tot <= n -> n < 2 ^ 32 -> 0 <= off -> off + (n - tot) <= MAXFILE * BSIZE ->
  n - tot < Z.of_nat fuel ->
  hoareX exhausted (fsr C ∅ ∅ sb (tree A)) (readi_loop mypid fuel ip tot off n acc)
    (fun x f => x = acc ++ (fbyte C A <$> seqZ off (n - tot)) /\ has_read C A off (n - tot) f).
Proof.
  revert C A tot off acc. induction fuel as [|fuel IH]; intros C A tot off acc Hok Hwf Ht Hn Ho Hm Hf; [lia|].
  cbn [readi_loop]. destruct (Z.ltb_spec tot n) as [Hlt|Hge].
  2:{ intros f Hfs. cbn. replace (n - tot) with 0 by lia. rewrite app_nil_r. split; [done|].
      exists C, A. split; [|done]. split; [by apply extends_refl|done]. }
  pose proof (block_index off ltac:(lia)) as Hk. pose proof Hm as Hm'. rewrite MAXBYTES in Hm'.
  eapply hoareX_seq; [apply inode_at_spec, tree_get|]. intros _ ->. cbn [i_dev with_copy]. rewrite Hdev.
  eapply hoareX_bind; [by apply bmap_spec|]. intros a.
  apply hoareX_ex. intros C1. apply hoareX_ex. intros A1. apply hoareX_and. intros (X1 & Ha & Hna & S1).
  destruct (x_grows _ _ _ _ _ _ _ X1) as [O1 W1 M1 _ _ _].
  destruct (fw_used _ _ _ _ W1 (Data (off / BSIZE)) Hk ltac:(congruence)) as [Hda _]. rewrite Ha in Hda.
  destruct (data_home _ _ _ _ _ Hly a Hda) as (_ & _ & HaN).
  eapply hoareX_seq; [apply fbread_spec; [done|done|apply not_elem_of_empty]|]. intros h Hh.
  eapply hoareX_seq; [apply fbdata_spec with (b := a); by rewrite lookup_insert_eq|]. intros _ [-> _].
  rewrite (u32_small (n - tot)) by lia. destruct (min_chunk (n - tot) off ltac:(lia)) as [Hmm Hmb].
  set (m := Z.min (n - tot) (BSIZE - off mod BSIZE)) in *.
  assert (Hc : content C1 A1 (off / BSIZE) = C1 a).
  { unfold content. rewrite Ha. by destruct (Z.eqb_spec a 0). }
  assert (Hrd : arr_read (C1 a) (off mod BSIZE) m = Ok (fbyte C1 A1 <$> seqZ off m)).
  { rewrite <- Hc. apply read_chunk; try lia. by eapply content_ok. }
  eapply hoareX_seq; [exact (hoareX_pure _ _ _ _ Hrd)|]. intros _ ->.
  eapply hoareX_bind; [by apply relse_spec|]. intros [].
  rewrite !u32_small by lia.
  eapply hoareX_post; [apply IH; done || lia|]. intros x f [-> (C2 & A2 & [X2 S2] & Hfs)].
  assert (E : forall o, 0 <= o < MAXFILE * BSIZE -> fbyte C1 A1 o = fbyte C A o).
  { intros o. by apply (fbyte_ext N data0 sb). }
  assert (Eseq : forall lo k, 0 <= lo -> lo + k <= MAXFILE * BSIZE ->
    fbyte C1 A1 <$> seqZ lo k = fbyte C A <$> seqZ lo k).
  { intros lo k Hlo Hhi. apply list_fmap_ext. intros j o Hj. apply lookup_seqZ in Hj as [-> Hj]. apply E. lia. }
  split.
  - rewrite <- app_assoc, !Eseq by lia. f_equal. rewrite <- fmap_app, <- seqZ_app by lia.
    f_equal. f_equal. lia.
  - exists C2, A2. split; [split|done]; [by apply (extends_trans _ _ _ _ _ Hly C A C1 A1)|].
    intros Hden. destruct S1 as [-> ->]; [apply Hden; lia|]. apply S2. intros o Hoo. apply Hden. lia.
Qed.
(** ** Writing *)

Lemma nth_get (l : list Z) j : 0 <= j ->
  nth (Z.to_nat j) l 0 = match arr_get l j with Ok a => a | _ => 0 end.
Proof.
  intros Hj. unfold arr_get. destruct (Z.ltb_spec j 0); [lia|].
  destruct (l !! Z.to_nat j) eqn:E; [by apply nth_lookup_Some|].
  apply nth_overflow. by apply lookup_ge_None.
Qed.

Lemma nth_write (l : list Z) k bs l' j : arr_write l k bs = Ok l' -> 0 <= j ->
  nth (Z.to_nat j) l' 0 = if (k <=? j) && (j <? k + zlen bs) then nth (Z.to_nat (j - k)) bs 0
                          else nth (Z.to_nat j) l 0.
Proof.
  intros Hw Hj. rewrite (nth_get l'), (arr_get_write _ _ _ _ _ Hw) by done.
  destruct (Z.leb_spec k j), (Z.ltb_spec j (k + zlen bs)); cbn [andb]; by rewrite nth_get by lia.
Qed.

Lemma nth_app_Z (l k : list Z) j : 0 <= j ->
  nth (Z.to_nat j) (l ++ k) 0 = if j <? zlen l then nth (Z.to_nat j) l 0 else nth (Z.to_nat (j - zlen l)) k 0.
Proof.
  intros Hj. unfold zlen. destruct (Z.ltb_spec j (Z.of_nat (length l))).
  - apply app_nth1. lia.
  - rewrite app_nth2 by lia. f_equal. lia.
Qed.

(** The bytes [bs] have been written at [off], and nothing else. *)
Record wrote (C : Z -> list Z) (A : list Z) (off : Z) (bs : list Z) (C' : Z -> list Z)
    (A' : list Z) : Prop := {
  wr_grows : grows N data0 sb C A C' A';
  wr_bytes : forall o, 0 <= o < MAXFILE * BSIZE ->
    fbyte C' A' o = if (off <=? o) && (o <? off + zlen bs) then nth (Z.to_nat (o - off)) bs 0
                    else fbyte C A o;
  wr_dense : dense C' A' off (zlen bs);
  wr_same : dense C A off (zlen bs) -> A' = A;
}.

Lemma wrote_nil C A off : disk_ok C -> fwf C A -> wrote C A off [] C A.
Proof.
  intros Hok Hwf. constructor.
  - by apply (extends_refl N data0 sb C A).
  - intros o _. change (zlen []) with 0.
    destruct (Z.leb_spec off o), (Z.ltb_spec o (off + 0)); try lia; done.
  - intros o. change (zlen []) with 0. lia.
  - done.
Qed.

Lemma dense_grows C A C' A' off n : grows N data0 sb C A C' A' ->
  0 <= off -> off + n <= MAXFILE * BSIZE -> dense C A off n -> dense C' A' off n.
Proof.
  intros Hg Ho Hm Hd o Hoo. rewrite (x_mono _ _ _ _ _ _ _ Hg); [by apply Hd| |by apply Hd].
  apply block_index. lia.
Qed.

Lemma wrote_app C A off b1 C1 A1 b2 C2 A2 : 0 <= off -> off + zlen b1 + zlen b2 <= MAXFILE * BSIZE ->
  wrote C A off b1 C1 A1 -> wrote C1 A1 (off + zlen b1) b2 C2 A2 ->
  wrote C A off (b1 ++ b2) C2 A2.
Proof.
  intros Ho Hm [G1 B1 D1 S1] [G2 B2 D2 S2].
  assert (Hl : zlen (b1 ++ b2) = zlen b1 + zlen b2) by (unfold zlen; rewrite length_app; lia).
  pose proof (zlen_nonneg b1). pose proof (zlen_nonneg b2).
  constructor; rewrite ?Hl.
  - by apply (file_grows_trans _ _ _ _ _ Hly C A C1 A1).
  - intros o Hoo. rewrite B2, B1 by done.
    destruct (Z.leb_spec off o), (Z.ltb_spec o (off + (zlen b1 + zlen b2))),
      (Z.leb_spec (off + zlen b1) o), (Z.ltb_spec o (off + zlen b1)),
      (Z.ltb_spec o (off + zlen b1 + zlen b2)); try lia; cbn; try done;
      rewrite nth_app_Z by lia.
    + destruct (Z.ltb_spec (o - off) (zlen b1)); [lia|]. do 2 f_equal. lia.
    + destruct (Z.ltb_spec (o - off) (zlen b1)); [done|lia].
  - intros o Hoo. destruct (Z.lt_ge_cases o (off + zlen b1)).
    + apply (dense_grows C1 A1 C2 A2 off (zlen b1)); [done|lia|lia|done|lia].
    + apply D2. lia.
  - intros Hd. assert (Hd1 : dense C1 A1 off (zlen b1 + zlen b2)).
    { apply (dense_grows C A C1 A1); try done. lia. }
    rewrite S2; [apply S1|]; intros o Hoo; [apply Hd|apply Hd1]; lia.
Qed.

Lemma arr_write_bytes l k bs l' : arr_write l k bs = Ok l' -> Forall is_byte l -> Forall is_byte bs ->
  Forall is_byte l'.
Proof.
  intros (_ & _ & ->)%arr_write_Ok Hl Hb.
  repeat apply Forall_app_2; [by apply Forall_take|done|by apply Forall_drop].
Qed.

(** One turn of the loop: the block is found or added, and stored into. *)
Lemma wrote_chunk C A C1 A1 off bs d : extends C A C1 A1 ->
  (addr C A (Data (off / BSIZE)) <> 0 -> C1 = C /\ A1 = A) ->
  addr C1 A1 (Data (off / BSIZE)) <> 0 -> 0 <= off < MAXFILE * BSIZE ->
  0 < zlen bs -> off mod BSIZE + zlen bs <= BSIZE -> Forall is_byte bs ->
  arr_write (content C1 A1 (off / BSIZE)) (off mod BSIZE) bs = Ok d ->
  wrote C A off bs (fupd C1 (addr C1 A1 (Data (off / BSIZE))) d) A1.
Proof.
  intros [G1 K1] S1 Hn Ho Hb Hfit Hby Hw. pose proof (block_index off Ho) as Hk.
  pose proof G1 as [O1 W1 M1 F1 U1 R1].
  destruct (content_ok N st sz data0 sb Hly C1 A1 (off / BSIZE) O1 W1 Hk) as [Hcl Hcb].
  pose proof (arr_write_len _ _ _ _ Hw) as Hdl. rewrite Hcl in Hdl.
  pose proof (arr_write_bytes _ _ _ _ Hw Hcb Hby) as Hdb.
  destruct (store_grows N st sz data0 sb Hly C1 A1 (off / BSIZE) d O1 W1 Hk Hn Hdl Hdb) as (G2 & E2 & K2).
  set (C2 := fupd C1 _ d) in *.
  pose proof (fun j => block_range off (zlen bs) ltac:(lia) Hfit j) as Hbr.
  pose proof (Z.div_mod off BSIZE ltac:(done)) as Hdm.
  constructor.
  - by apply (file_grows_trans _ _ _ _ _ Hly C A C1 A1).
  - intros o Hoo. pose proof (block_index o Hoo) as Hok'. unfold fbyte. rewrite K2 by done.
    pose proof (Z.div_mod o BSIZE ltac:(done)) as Hdo. pose proof (Z.mod_pos_bound o BSIZE ltac:(done)).
    destruct (Z.eqb_spec (o / BSIZE) (off / BSIZE)) as [He|He].
    + rewrite (nth_write _ _ _ _ _ Hw) by lia. rewrite K1 by done. rewrite He in *.
      assert (o - off = o mod BSIZE - off mod BSIZE) as <- by lia.
      assert ((off mod BSIZE <=? o mod BSIZE) && (o mod BSIZE <? off mod BSIZE + zlen bs)
              = (off <=? o) && (o <? off + zlen bs)) as ->; [|done].
      f_equal; [apply Bool.eq_iff_eq_true; rewrite !Z.leb_le; lia|apply Bool.eq_iff_eq_true; rewrite !Z.ltb_lt; lia].
    + rewrite K1 by done. destruct (Z.leb_spec off o), (Z.ltb_spec o (off + zlen bs)); try done.
      destruct (Hbr (o - off)) as [Hq _]; [lia|]. replace (off + (o - off)) with o in Hq by lia. done.
  - intros o Hoo. destruct (Hbr (o - off)) as [Hq _]; [lia|].
    replace (off + (o - off)) with o in Hq by lia. rewrite Hq, E2 by done. done.
  - intros Hd. apply S1, Hd. lia.
Qed.
(** The bytes of [src] still to be written. *)
Definition rest (src : list Z) (tot n : Z) : list Z := take (Z.to_nat (n - tot)) (drop (Z.to_nat tot) src).

Lemma zlen_rest src tot n : 0 <= tot <= n -> n <= zlen src -> zlen (rest src tot n) = n - tot.
Proof. unfold rest, zlen. intros Ht Hn. rewrite length_take, length_drop. lia. Qed.

Lemma rest_app src tot m n : 0 <= tot -> 0 <= m -> tot + m <= n ->
  rest src tot n = rest src tot (tot + m) ++ rest src (tot + m) n.
Proof.
  intros Ht Hm Hn. unfold rest. replace (Z.to_nat (tot + m)) with (Z.to_nat tot + Z.to_nat m)%nat by lia.
  rewrite <- drop_drop. replace (tot + m - tot) with m by lia.
  rewrite take_take_drop. f_equal. lia.
Qed.

Lemma writei_loop_spec fuel C A tot off n src : disk_ok C -> fwf C A ->
  0 <= tot <= n -> n < 2 ^ 32 -> n <= zlen src -> Forall is_byte src ->
  0 <= off -> off + (n - tot) <= MAXFILE * BSIZE -> n - tot < Z.of_nat fuel ->
  hoareX exhausted (fsr C ∅ ∅ sb (tree A)) (writei_loop mypid fuel ip tot off n src)
    (fun x f => exists C' A', (x = off + (n - tot) /\ wrote C A off (rest src tot n) C' A') /\
       fsr C' ∅ ∅ sb (tree A') f).
Proof.
  intros Hok Hwf Ht Hn Hs Hby. revert C A tot off Hok Hwf Ht.
  induction fuel as [|fuel IH]; intros C A tot off Hok Hwf Ht Ho Hm Hf; [lia|].
  cbn [writei_loop]. destruct (Z.ltb_spec tot n) as [Hlt|Hge].
  2:{ intros f Hfs. cbn. exists C, A. unfold rest. replace (n - tot) with 0 by lia. cbn [Z.to_nat take].
      rewrite take_0. split; [|done]. split; [lia|by apply wrote_nil]. }
  pose proof (block_index off ltac:(lia)) as Hk. pose proof Hm as Hm'. rewrite MAXBYTES in Hm'.
  eapply hoareX_seq; [apply inode_at_spec, tree_get|]. intros _ ->. cbn [i_dev with_copy]. rewrite Hdev.
  eapply hoareX_bind; [by apply bmap_spec|]. intros a.
  apply hoareX_ex. intros C1. apply hoareX_ex. intros A1. apply hoareX_and. intros (X1 & Ha & Hna & S1).
  destruct (x_grows _ _ _ _ _ _ _ X1) as [O1 W1 M1 _ _ _].
  destruct (fw_used _ _ _ _ W1 (Data (off / BSIZE)) Hk ltac:(congruence)) as [Hda _]. rewrite Ha in Hda.
  destruct (data_home _ _ _ _ _ Hly a Hda) as (Hah & Ha1 & HaN).
  eapply hoareX_seq; [apply fbread_spec; [done|done|apply not_elem_of_empty]|]. intros h Hh.
  eapply hoareX_seq; [apply fbdata_spec with (b := a); by rewrite lookup_insert_eq|]. intros _ [-> HaL].
  rewrite (u32_small (n - tot)) by lia. destruct (min_chunk (n - tot) off ltac:(lia)) as [Hmm Hmb].
  set (m := Z.min (n - tot) (BSIZE - off mod BSIZE)) in *.
  assert (Hrd : arr_read src tot m = Ok (rest src tot (tot + m))).
  { rewrite arr_read_ok by lia. unfold rest. do 3 f_equal. lia. }
  eapply hoareX_seq; [exact (hoareX_pure _ _ _ _ Hrd)|]. intros _ ->.
  assert (Hrl : zlen (rest src tot (tot + m)) = m) by (rewrite zlen_rest; lia).
  pose proof (Z.mod_pos_bound off BSIZE ltac:(done)) as Hmod.
  destruct (arr_write_ok (C1 a) (off mod BSIZE) (rest src tot (tot + m))) as (d & Hw & Hdl); [lia|lia|].
  eapply hoareX_seq; [exact (hoareX_pure _ _ _ _ Hw)|]. intros _ ->.
  apply update_bind with (b := a); [by rewrite lookup_insert_eq|done|done|lia|].
  eapply hoareX_bind; [by apply relse_spec|]. intros [].
  rewrite (u32_small (tot + m)), (u32_small (off + m)) by lia.
  assert (Hc : content C1 A1 (off / BSIZE) = C1 a).
  { unfold content. rewrite Ha. by destruct (Z.eqb_spec a 0). }
  assert (Hch : wrote C A off (rest src tot (tot + m)) (fupd C1 a d) A1).
  { rewrite <- Ha. apply wrote_chunk; try done; try lia; [by apply Forall_take, Forall_drop|congruence]. }
  destruct (wr_grows _ _ _ _ _ _ Hch) as [O2 W2 _ _ _ _].
  eapply hoareX_post; [apply IH; done || lia|]. intros x f (C2 & A2 & [-> Hw2] & Hfs).
  exists C2, A2. split; [split; [lia|]|done]. rewrite (rest_app src tot m n) by lia.
  apply (wrote_app C A off _ (fupd C1 a d) A1); rewrite ?Hrl, ?zlen_rest by lia; [lia|lia|done|done].
Qed.
End data.
