(* ===== verification/FsInode.v ===== *)
(** * Inodes on the disk

    [iupdate] and [ilock] store and load the structure of an inode in its part
    of an inode block: the round trip, and that the other inodes of the block
    are left alone. *)

From stdpp Require Import base list strings.
From Stdlib Require Import ZArith Lia.
From S2P Require Import Prelude State Bio BioProofs Log LogProofs Fs.

(** [d'] differs from [d] between [lo] and [hi] only. *)
Record patch (d : list Z) (lo hi : Z) (d' : list Z) : Prop := {
  pa_len : zlen d' = zlen d;
  pa_byte : Forall is_byte d -> Forall is_byte d';
  pa_read : forall j n, j + n <= lo \/ hi <= j -> arr_read d' j n = arr_read d j n;
}.

Lemma patch_refl d lo hi : patch d lo hi d.
Proof. done. Qed.

Lemma patch_trans d lo hi d1 lo1 hi1 d2 : patch d lo hi d1 -> patch d1 lo1 hi1 d2 ->
  patch d (Z.min lo lo1) (Z.max hi hi1) d2.
Proof.
  intros [L1 B1 R1] [L2 B2 R2]. constructor; [lia|auto|].
  intros j n H. rewrite R2, R1; [done|lia|lia].
Qed.

Lemma patch_write d off bs : 0 <= off -> off + zlen bs <= zlen d -> Forall is_byte bs ->
  exists d', arr_write d off bs = Ok d' /\ patch d off (off + zlen bs) d' /\
    arr_read d' off (zlen bs) = Ok bs.
Proof.
  intros Ho Hl Hb. destruct (arr_write_ok d off bs Ho Hl) as (d' & Hw & Hlen). exists d'.
  split_and!; [done| |by eapply arr_read_write]. constructor; [done| |].
  - intros Hd. apply arr_write_Ok in Hw as (_ & _ & ->).
    repeat apply Forall_app_2; [by apply Forall_take|done|by apply Forall_drop].
  - intros j n H. by eapply arr_read_write_ne.
Qed.

Definition is_short (v : Z) : Prop := - 2 ^ 15 <= v < 2 ^ 15.
Definition is_uint (v : Z) : Prop := 0 <= v < 2 ^ 32.

Lemma s16_bytes v : is_short v -> s16 (le_value (le_bytes 2 v)) = v.
Proof.
  unfold is_short. intros Hv. rewrite le_value_bytes. change (256 ^ Z.of_nat 2) with (2 ^ 16). unfold s16.
  rewrite Z.mod_mod by done.
  destruct (Z.lt_ge_cases v 0) as [Hn|Hn].
  - rewrite <- (Z.mod_add v 1) by done. rewrite Z.mod_small by lia.
    destruct (Z.ltb_spec (v + 1 * 2 ^ 16) (2 ^ 15)); lia.
  - rewrite Z.mod_small by lia. destruct (Z.ltb_spec v (2 ^ 15)); lia.
Qed.

Lemma wr16_spec d off v : 0 <= off -> off + 2 <= zlen d -> is_short v ->
  exists d', wr16 d off v = Ok d' /\ patch d off (off + 2) d' /\ rd16 d' off = Ok v.
Proof.
  intros Ho Hl Hv. destruct (patch_write d off (le_bytes 2 v)) as (d' & Hw & Hp & Hr);
    [done|done|apply le_bytes_are_bytes|].
  exists d'. split_and!; [done|done|]. unfold rd16. change (zlen (le_bytes 2 v)) with 2 in Hr.
  rewrite Hr. cbn [mbind res_bind]. by rewrite s16_bytes.
Qed.

Lemma wru32_spec d off v : 0 <= off -> off + 4 <= zlen d -> is_uint v ->
  exists d', wr32 d off v = Ok d' /\ patch d off (off + 4) d' /\ rdu32 d' off = Ok v.
Proof.
  intros Ho Hl Hv. destruct (patch_write d off (le_bytes 4 v)) as (d' & Hw & Hp & Hr);
    [done|done|apply le_bytes_are_bytes|].
  exists d'. split_and!; [done|done|]. unfold rdu32. change (zlen (le_bytes 4 v)) with 4 in Hr.
  rewrite Hr. cbn [mbind res_bind]. by rewrite le_value_u32, u32_small.
Qed.

Lemma rd16_patch d lo hi d' off : patch d lo hi d' -> off + 2 <= lo \/ hi <= off ->
  rd16 d' off = rd16 d off.
Proof. intros Hp H. unfold rd16. by rewrite (pa_read _ _ _ _ Hp). Qed.

Lemma rdu32_patch d lo hi d' off : patch d lo hi d' -> off + 4 <= lo \/ hi <= off ->
  rdu32 d' off = rdu32 d off.
Proof. intros Hp H. unfold rdu32. by rewrite (pa_read _ _ _ _ Hp). Qed.

Lemma rd_addrs_patch d lo hi d' n off : patch d lo hi d' ->
  off + 4 * Z.of_nat n <= lo \/ hi <= off -> rd_addrs n d' off = rd_addrs n d off.
Proof.
  intros Hp. revert off. induction n as [|n IH]; intros off H; [done|]. cbn [rd_addrs].
  rewrite (rdu32_patch _ _ _ _ _ Hp) by lia. destruct (rdu32 d off); [cbn [mbind res_bind]|done..].
  by rewrite IH by lia.
Qed.

Lemma wr_addrs_spec l d off : 0 <= off -> off + 4 * zlen l <= zlen d -> Forall is_uint l ->
  exists d', wr_addrs l d off = Ok d' /\ patch d off (off + 4 * zlen l) d' /\
    rd_addrs (length l) d' off = Ok l.
Proof.
  revert d off. induction l as [|a l IH]; intros d off Ho Hl Hu.
  { exists d. split_and!; [done|apply patch_refl|done]. }
  apply Forall_cons in Hu as [Ha Hu]. rewrite zlen_cons in *. pose proof (zlen_nonneg l).
  destruct (wru32_spec d off a) as (d1 & Hw & Hp & Hr); [done|lia|done|].
  destruct (IH d1 (off + 4)) as (d' & Hw' & Hp' & Hr'); [lia|rewrite (pa_len _ _ _ _ Hp); lia|done|].
  exists d'. cbn [wr_addrs rd_addrs length]. rewrite Hw. cbn [mbind res_bind]. split_and!; [done| |].
  - replace off with (Z.min off (off + 4)) by lia.
    replace (Z.min off (off + 4) + 4 * (1 + zlen l)) with (Z.max (off + 4) (off + 4 + 4 * zlen l)) by lia.
    by eapply patch_trans.
  - rewrite (rdu32_patch _ _ _ _ _ Hp'), Hr by lia. cbn [mbind res_bind]. by rewrite Hr'.
Qed.

(** The fields have the ranges of their types. *)
Record dinode_ok (c : dinode) : Prop := {
  do_type : is_short (d_type c);
  do_major : is_short (d_major c);
  do_minor : is_short (d_minor c);
  do_nlink : is_short (d_nlink c);
  do_size : is_uint (d_fsize c);
  do_len : zlen (d_addrs c) = NDIRECT + 1;
  do_addrs : Forall is_uint (d_addrs c);
}.

Lemma rd_dinode_patch d lo hi d' off : patch d lo hi d' -> off + dinode_size <= lo \/ hi <= off ->
  rd_dinode d' off = rd_dinode d off.
Proof.
  intros Hp H. unfold rd_dinode, dinode_size in *.
  rewrite (rd_addrs_patch _ _ _ _ _ _ Hp) by (change (Z.of_nat (Z.to_nat (NDIRECT + 1))) with 13; lia).
  by rewrite !(rd16_patch _ _ _ _ _ Hp), (rdu32_patch _ _ _ _ _ Hp) by lia.
Qed.

Lemma wr_dinode_spec d off c : 0 <= off -> off + dinode_size <= zlen d -> dinode_ok c ->
  exists d', wr_dinode d off c = Ok d' /\ patch d off (off + dinode_size) d' /\
    rd_dinode d' off = Ok c.
Proof.
  intros Ho Hl [H1 H2 H3 H4 H5 H6 H7]. unfold dinode_size in *. unfold wr_dinode, NDIRECT in *.
  destruct (wr16_spec d off (d_type c)) as (d1 & W1 & P1 & R1); [lia|lia|done|].
  pose proof (pa_len _ _ _ _ P1) as L1.
  destruct (wr16_spec d1 (off + 2) (d_major c)) as (d2 & W2 & P2 & R2); [lia|lia|done|].
  pose proof (pa_len _ _ _ _ P2) as L2.
  destruct (wr16_spec d2 (off + 4) (d_minor c)) as (d3 & W3 & P3 & R3); [lia|lia|done|].
  pose proof (pa_len _ _ _ _ P3) as L3.
  destruct (wr16_spec d3 (off + 6) (d_nlink c)) as (d4 & W4 & P4 & R4); [lia|lia|done|].
  pose proof (pa_len _ _ _ _ P4) as L4.
  destruct (wru32_spec d4 (off + 8) (d_fsize c)) as (d5 & W5 & P5 & R5); [lia|lia|done|].
  pose proof (pa_len _ _ _ _ P5) as L5.
  destruct (wr_addrs_spec (d_addrs c) d5 (off + 12)) as (d6 & W6 & P6 & R6); [lia|lia|done|].
  exists d6. rewrite W1. cbn [mbind res_bind]. rewrite W2. cbn [mbind res_bind]. rewrite W3.
  cbn [mbind res_bind]. rewrite W4. cbn [mbind res_bind]. rewrite W5. cbn [mbind res_bind].
  split_and!; [done| |].
  - pose proof (patch_trans _ _ _ _ _ _ _ (patch_trans _ _ _ _ _ _ _ (patch_trans _ _ _ _ _ _ _
      (patch_trans _ _ _ _ _ _ _ (patch_trans _ _ _ _ _ _ _ P1 P2) P3) P4) P5) P6) as [PL PB PR].
    constructor; [done|done|]. intros j n H. apply PR. lia.
  - unfold rd_dinode, NDIRECT. change (Z.to_nat (12 + 1)) with 13%nat.
    assert (length (d_addrs c) = 13%nat) as Hlen by (unfold zlen in H6; lia). rewrite Hlen in R6.
    rewrite (rd16_patch _ _ _ _ off P6), (rd16_patch _ _ _ _ off P5), (rd16_patch _ _ _ _ off P4),
      (rd16_patch _ _ _ _ off P3), (rd16_patch _ _ _ _ off P2), R1 by lia. cbn [mbind res_bind].
    rewrite (rd16_patch _ _ _ _ (off + 2) P6), (rd16_patch _ _ _ _ (off + 2) P5),
      (rd16_patch _ _ _ _ (off + 2) P4), (rd16_patch _ _ _ _ (off + 2) P3), R2 by lia. cbn [mbind res_bind].
    rewrite (rd16_patch _ _ _ _ (off + 4) P6), (rd16_patch _ _ _ _ (off + 4) P5),
      (rd16_patch _ _ _ _ (off + 4) P4), R3 by lia. cbn [mbind res_bind].
    rewrite (rd16_patch _ _ _ _ (off + 6) P6), (rd16_patch _ _ _ _ (off + 6) P5), R4 by lia.
    cbn [mbind res_bind]. rewrite (rdu32_patch _ _ _ _ (off + 8) P6), R5 by lia. cbn [mbind res_bind].
    rewrite R6. cbn [mbind res_bind]. by destruct c.
Qed.
