(* ===== verification/FsOps.v ===== *)
(** * Files as sequences of bytes

    The contract of [readi] and [writei]: a file is a list of bytes, a read
    returns a part of it and a write replaces a part of it or extends it.  Any
    number of files with inodes in the cache share the disk; an operation on one
    leaves the others as they are.  The inode of each file is on the disk as it
    is in the cache. *)

From stdpp Require Import base list strings gmap sets.
From Stdlib Require Import ZArith Lia.
From S2P Require Import Prelude State Bio BioProofs Log LogProofs CrashProofs Transact Fs FsBase FsAlloc FsFile FsData FsInode.

(** ** The specification *)

Definition file_read (bytes : list Z) (off n : Z) : option (list Z) :=
  if (zlen bytes <? off) || (2 ^ 32 <=? off + n) then None
  else Some (take (Z.to_nat n) (drop (Z.to_nat off) bytes)).

Definition file_write (bytes : list Z) (off : Z) (src : list Z) : option Z * list Z :=
  if (zlen bytes <? off) || (2 ^ 32 <=? off + zlen src) || (MAXFILE * BSIZE <? off + zlen src)
  then (None, bytes)
  else (Some (zlen src), take (Z.to_nat off) bytes ++ src ++ drop (Z.to_nat off + length src) bytes).

Inductive file_op :=
| FRead (ip off n : Z)
| FWrite (ip off : Z) (src : list Z).

Inductive file_res :=
| RBytes (r : option (list Z))
| RCount (r : option Z).

(** The files are those of the inodes of the cache that [F] names. *)
Definition spec_op (F : gmap Z (list Z)) (op : file_op) : file_res * gmap Z (list Z) :=
  match op with
  | FRead ip off n => (RBytes (file_read (F !!! ip) off n), F)
  | FWrite ip off src =>
    (RCount (file_write (F !!! ip) off src).1, <[ip := (file_write (F !!! ip) off src).2]> F)
  end.

Fixpoint spec_ops (F : gmap Z (list Z)) (ops : list file_op) : list file_res * gmap Z (list Z) :=
  match ops with
  | [] => ([], F)
  | op :: ops =>
    let (r, F) := spec_op F op in let (rs, F) := spec_ops F ops in (r :: rs, F)
  end.

(** The arguments are of their types, and the file is one of [F]. *)
Definition op_ok (F : gmap Z (list Z)) (op : file_op) : Prop :=
  match op with
  | FRead ip off n => is_Some (F !! ip) /\ is_uint off /\ is_uint n
  | FWrite ip off src => is_Some (F !! ip) /\ is_uint off /\ is_uint (zlen src) /\ Forall is_byte src
  end.

Lemma wraps off n : is_uint off -> is_uint n -> (u32 (off + n) <? off) = (2 ^ 32 <=? off + n).
Proof.
  unfold is_uint. intros Ho Hn. unfold u32. destruct (Z.leb_spec (2 ^ 32) (off + n)) as [H|H].
  - rewrite <- (Z.mod_add (off + n) (-1)) by done. rewrite Z.mod_small by lia. apply Z.ltb_lt. lia.
  - rewrite Z.mod_small by lia. apply Z.ltb_ge. lia.
Qed.

Lemma take_drop_bytes (g : Z -> Z) bytes off n : 0 <= off -> 0 <= n ->
  (forall o, off <= o < zlen bytes -> g o = nth (Z.to_nat o) bytes 0) -> off + n <= zlen bytes ->
  g <$> seqZ off n = take (Z.to_nat n) (drop (Z.to_nat off) bytes).
Proof.
  intros Ho Hn Hg Hl. apply list_eq. intros j. destruct (decide (Z.of_nat j < n)) as [Hj|Hj].
  - rewrite lookup_take, lookup_drop, list_lookup_fmap, lookup_seqZ_lt by lia.
    rewrite decide_True by lia. cbn. rewrite Hg by lia.
    replace (Z.to_nat (off + Z.of_nat j)) with (Z.to_nat off + j)%nat by lia.
    destruct (bytes !! (Z.to_nat off + j)%nat) eqn:E.
    + f_equal. by apply nth_lookup_Some.
    + apply lookup_ge_None in E. unfold zlen in *. lia.
  - rewrite lookup_take_ge, list_lookup_fmap, lookup_seqZ_ge by lia. done.
Qed.

Lemma nth_splice (bytes src : list Z) off o : 0 <= off <= zlen bytes -> 0 <= o ->
  nth (Z.to_nat o) (take (Z.to_nat off) bytes ++ src ++ drop (Z.to_nat off + length src) bytes) 0 =
  if (off <=? o) && (o <? off + zlen src) then nth (Z.to_nat (o - off)) src 0
  else nth (Z.to_nat o) bytes 0.
Proof.
  intros Hoff Ho. assert (Htl : zlen (take (Z.to_nat off) bytes) = off).
  { unfold zlen in *. rewrite length_take. lia. }
  rewrite nth_app_Z, Htl by done. destruct (Z.leb_spec off o), (Z.ltb_spec o off); try lia; cbn [andb].
  - rewrite nth_app_Z by lia. destruct (Z.ltb_spec o (off + zlen src)), (Z.ltb_spec (o - off) (zlen src)); try lia.
    rewrite nth_skipn. f_equal. unfold zlen in *. lia.
  - rewrite nth_firstn. destruct (Nat.ltb_spec (Z.to_nat o) (Z.to_nat off)); [done|lia].
Qed.

Lemma zlen_splice (bytes src : list Z) off : 0 <= off <= zlen bytes ->
  zlen (take (Z.to_nat off) bytes ++ src ++ drop (Z.to_nat off + length src) bytes) =
  Z.max (zlen bytes) (off + zlen src).
Proof. unfold zlen. intros Ho. rewrite !length_app, length_take, length_drop. lia. Qed.

Section ops.
Variables (mypid N st sz data0 : Z) (sb : superblock).
Variable dev_read : Z -> option (Z -> Z -> ST fs (option (list Z))).
Variable dev_write : Z -> option (Z -> list Z -> ST fs (option Z)).
Hypothesis Hly : layout N st sz data0 sb.

Notation fsr := (fsr N st sz).
Notation fwf := (fwf data0 sb).
Notation disk_ok := (disk_ok N data0 sb).
Notation grows := (grows N data0 sb).
Notation addrs i := (d_addrs (i_copy i)).

(** The place of an inode on the disk. *)
Definition iblk (i : inode) : Z := i_inum i / IPB + inodestart sb.
Definition ioff (i : inode) : Z := i_inum i mod IPB * dinode_size.

(** [i] is the inode of a file with the contents [bytes]. *)
Record file_at (C : Z -> list Z) (i : inode) (bytes : list Z) : Prop := {
  fa_wf : fwf C (addrs i);
  fa_dev : i_dev i = 1;
  fa_inum : 0 <= i_inum i < ninodes sb;
  fa_type : d_type (i_copy i) <> T_DEV;
  fa_ok : dinode_ok (i_copy i);
  fa_size : d_fsize (i_copy i) = zlen bytes;
  fa_max : zlen bytes <= MAXFILE * BSIZE;
  fa_bytes : forall o, 0 <= o < zlen bytes -> fbyte C (addrs i) o = nth (Z.to_nat o) bytes 0;
  fa_dense : dense C (addrs i) 0 (zlen bytes);
  fa_synced : rd_dinode (C (iblk i)) (ioff i) = Ok (i_copy i);
}.

Lemma with_addrs_self i : with_copy i (with_addrs (i_copy i) (addrs i)) = i.
Proof. by destruct i as [? ? ? ? ? []]. Qed.

Lemma tree_self ic ip i : arr_get ic ip = Ok i -> tree ic ip i (addrs i) = ic.
Proof.
  intros [_ Hi]%arr_get_Ok. unfold tree. rewrite with_addrs_self. by apply list_insert_id.
Qed.

Lemma readi_spec C ic ip i bytes off n : disk_ok C -> arr_get ic ip = Ok i -> file_at C i bytes ->
  is_uint off -> is_uint n ->
  hoareX exhausted (fsr C ∅ ∅ sb ic) (readi mypid dev_read ip off n)
    (fun r f => r = file_read bytes off n /\ fsr C ∅ ∅ sb ic f).
Proof.
  intros Hok Hi [Hwf Hdev Hin Hty Hdo Hsz Hmx Hby Hde Hsy] Ho Hn. unfold readi.
  eapply hoareX_seq; [by apply inode_at_spec|]. intros _ ->.
  destruct (Z.eqb_spec (d_type (i_copy i)) T_DEV); [done|].
  rewrite wraps, Hsz by done. unfold file_read.
  destruct ((zlen bytes <? off) || (2 ^ 32 <=? off + n)) eqn:Eg; [by intros f Hf|].
  apply orb_false_iff in Eg as [E1%Z.ltb_ge E2%Z.leb_gt]. unfold is_uint in *.
  rewrite (u32_small (off + n)) by lia. rewrite MAXBYTES in Hmx.
  set (n' := if zlen bytes <? off + n then u32 (zlen bytes - off) else n).
  assert (Hn' : n' = Z.min n (zlen bytes - off)).
  { unfold n'. destruct (Z.ltb_spec (zlen bytes) (off + n)); [rewrite u32_small by lia|]; lia. }
  pose proof (arr_get_bound _ _ _ Hi) as Hip. rewrite <- (tree_self ic ip i Hi).
  eapply hoareX_bind; [apply (readi_loop_spec mypid N st sz data0 sb Hly ic ip i Hip Hdev _ C _ 0 off n' []);
    try done; try rewrite MAXBYTES; lia|].
  intros x f [-> (C' & A' & [_ Hs] & Hf)]. cbn. rewrite !Z.sub_0_r in *.
  destruct Hs as [-> ->]; [intros o Hoo; apply Hde; lia|]. split; [|done].
  f_equal. rewrite (take_drop_bytes _ bytes) by (done || lia || (intros; apply Hby; lia)).
  rewrite Hn'. destruct (Z.min_spec n (zlen bytes - off)) as [[? ->]|[? ->]]; [done|].
  rewrite !take_ge by (rewrite length_drop; unfold zlen in *; lia). done.
Qed.
(** ** Writing an inode *)

Lemma iblk_ok i : 0 <= i_inum i < ninodes sb ->
  home N st sz (iblk i) /\ 1 < iblk i < data0 /\ IBLOCK (i_inum i) sb = iblk i /\
  ~ bmap_block sb (iblk i) /\ ~ data_block data0 sb (iblk i).
Proof.
  intros Hi. destruct (ly_inodes _ _ _ _ _ Hly _ Hi) as [Hh Hd]. fold (iblk i) in Hh, Hd.
  split_and!; try done; try lia.
  - unfold IBLOCK. fold (iblk i). apply u32_small. destruct Hh as [? _].
    pose proof (ly_small _ _ _ _ _ Hly). unfold BSIZE in *. lia.
  - intros (b & Hb & He). by apply (ly_apart _ _ _ _ _ Hly b (i_inum i)).
  - unfold data_block. lia.
Qed.

Lemma ioff_ok i : 0 <= ioff i /\ ioff i + dinode_size <= BSIZE.
Proof.
  unfold ioff. change IPB with 8. change dinode_size with 64. change BSIZE with 512.
  pose proof (Z.mod_pos_bound (i_inum i) 8 ltac:(lia)). lia.
Qed.

Lemma iupdate_spec C ic ip i : disk_ok C -> arr_get ic ip = Ok i -> i_dev i = 1 ->
  0 <= i_inum i < ninodes sb -> dinode_ok (i_copy i) ->
  hoareX exhausted (fsr C ∅ ∅ sb ic) (iupdate mypid ip)
    (fun _ f => exists d, (patch (C (iblk i)) (ioff i) (ioff i + dinode_size) d /\
                           rd_dinode d (ioff i) = Ok (i_copy i)) /\
       fsr (fupd C (iblk i) d) ∅ ∅ sb ic f).
Proof.
  intros Hok Hi Hdev Hin Hdo. unfold iupdate.
  destruct (iblk_ok i Hin) as (Hh & Hlo & Hib & _ & _). destruct (ioff_ok i) as [Ho1 Ho2].
  eapply hoareX_seq; [by apply inode_at_spec|]. intros _ ->. rewrite Hdev.
  eapply hoareX_seq; [apply gets_sb_spec|]. intros _ ->. rewrite Hib.
  eapply hoareX_seq; [apply fbread_spec; [apply Hh|done|apply not_elem_of_empty]|]. intros h Hhn.
  eapply hoareX_seq; [apply fbdata_spec with (b := iblk i); by rewrite lookup_insert_eq|]. intros _ [-> Hlen].
  destruct (wr_dinode_spec (C (iblk i)) (ioff i) (i_copy i)) as (d & Hw & Hp & Hr); [done|lia|done|].
  eapply hoareX_seq; [exact (hoareX_pure _ _ _ _ Hw)|]. intros _ ->.
  apply update_bind with (b := iblk i);
    [by rewrite lookup_insert_eq|done|lia|by rewrite (pa_len _ _ _ _ Hp)|].
  eapply hoareX_post; [by apply relse_spec|]. intros [] f Hf. by exists d.
Qed.

(** ** The effect of a write on the disk *)

(** The file of [i] has grown to the addresses [A'], and its inode may have
    been written. *)
Definition changed (C : Z -> list Z) (i : inode) (C' : Z -> list Z) (A' : list Z) : Prop :=
  exists C1, grows C (addrs i) C1 A' /\
    (C' = C1 \/ exists d, C' = fupd C1 (iblk i) d /\
       patch (C1 (iblk i)) (ioff i) (ioff i + dinode_size) d).

(** The files of two inodes have no block in common. *)
Definition apart (C : Z -> list Z) (A A' : list Z) : Prop :=
  forall r r', role_ok r -> role_ok r' -> addr C A r <> 0 -> addr C A r <> addr C A' r'.

Lemma file_at_same C C' j bytes : file_at C j bytes ->
  (forall r, role_ok r -> addr C (addrs j) r <> 0 ->
     C' (addr C (addrs j) r) = C (addr C (addrs j) r)) ->
  (forall b, 0 <= b < sb_size sb -> used sb C b = true -> used sb C' b = true) ->
  rd_dinode (C' (iblk j)) (ioff j) = rd_dinode (C (iblk j)) (ioff j) ->
  file_at C' j bytes /\ forall r, role_ok r -> addr C' (addrs j) r = addr C (addrs j) r.
Proof.
  intros [Hwf Hdev Hin Hty Hdo Hsz Hmx Hby Hde Hsy] Hb Hu Hd.
  assert (E : forall r, role_ok r -> addr C' (addrs j) r = addr C (addrs j) r).
  { apply addr_ext. intros r Hr _. by apply Hb. }
  split; [|exact E]. constructor; [|exact Hdev|exact Hin|exact Hty|exact Hdo|exact Hsz|exact Hmx| | |by rewrite Hd].
  - destruct Hwf as [HA Hus Hi]. constructor; [done| |].
    + intros r Hr. rewrite E by done. intros Hn. destruct (Hus r Hr Hn) as [Hdb Hub]. split; [done|].
      apply Hu; [by eapply data_nonzero|done].
    + intros r r' Hr Hr'. rewrite !E by done. by apply Hi.
  - intros o Ho. rewrite <- Hby by done. unfold fbyte. f_equal.
    assert (Hk : 0 <= o / BSIZE < MAXFILE) by (apply block_index; lia).
    unfold content. rewrite (E (Data (o / BSIZE)) Hk).
    destruct (Z.eqb_spec (addr C (addrs j) (Data (o / BSIZE))) 0); [done|by apply Hb].
  - intros o Ho. rewrite E; [by apply Hde|]. apply block_index. lia.
Qed.

Lemma iblk_inj i j : i_inum i <> i_inum j -> iblk i = iblk j ->
  ioff j + dinode_size <= ioff i \/ ioff i + dinode_size <= ioff j.
Proof.
  unfold iblk, ioff. change IPB with 8. change dinode_size with 64. intros Hne He.
  pose proof (Z.div_mod (i_inum i) 8 ltac:(lia)). pose proof (Z.div_mod (i_inum j) 8 ltac:(lia)). lia.
Qed.

Lemma other_file C i bytes j bj C' A' : changed C i C' A' -> file_at C i bytes ->
  file_at C j bj -> i_inum i <> i_inum j -> apart C (addrs j) (addrs i) ->
  file_at C' j bj /\ apart C' (addrs j) A' /\
  forall r, role_ok r -> addr C' (addrs j) r = addr C (addrs j) r.
Proof.
  intros (C1 & HG & Hw) Hfi Hfj Hne Hap. pose proof HG as [O1 W1 M1 F1 U1 R1].
  destruct (iblk_ok j (fa_inum _ _ _ Hfj)) as (_ & _ & _ & Hjb & Hjd).
  assert (Hz : forall r', role_ok r' -> addr C (addrs i) r' <> iblk j).
  { intros r' Hr' He. destruct (Z.eq_dec (addr C (addrs i) r') 0) as [H0|H0].
    - destruct (iblk_ok j (fa_inum _ _ _ Hfj)) as (_ & ? & _). lia.
    - destruct (fw_used _ _ _ _ (fa_wf _ _ _ Hfi) r' Hr' H0) as [Hd _]. by rewrite He in Hd. }
  destruct (file_at_same C C1 j bj Hfj) as [Hf1 E1].
  { intros r Hr Hn. destruct (fw_used _ _ _ _ (fa_wf _ _ _ Hfj) r Hr Hn) as [Hd Hu].
    apply R1; [by eapply data_not_bmap|done|]. intros r' Hr' He. by apply (Hap r r'). }
  { apply U1. }
  { f_equal. apply R1; done. }
  assert (Hap1 : apart C1 (addrs j) A').
  { intros r r' Hr Hr'. rewrite E1 by done. intros Hn He.
    destruct (Z.eq_dec (addr C (addrs i) r') 0) as [H0|H0].
    - destruct (F1 r' Hr' H0 ltac:(congruence)) as [_ Hfr]. rewrite <- He in Hfr.
      destruct (fw_used _ _ _ _ (fa_wf _ _ _ Hfj) r Hr Hn). congruence.
    - rewrite M1 in He by done. by apply (Hap r r'). }
  destruct Hw as [->|(d & -> & Hp)]; [done|].
  destruct (iblk_ok i (fa_inum _ _ _ Hfi)) as (_ & _ & _ & Hib & Hid).
  destruct (file_at_same C1 (fupd C1 (iblk i) d) j bj Hf1) as [Hf2 E2].
  { intros r Hr Hn. apply fupd_ne. intros He.
    destruct (fw_used _ _ _ _ (fa_wf _ _ _ Hf1) r Hr Hn) as [Hd _]. by rewrite He in Hd. }
  { intros b Hb. by rewrite used_fupd. }
  { destruct (decide (iblk j = iblk i)) as [He|He]; [|by rewrite fupd_ne].
    rewrite He, fupd_eq. apply (rd_dinode_patch _ _ _ _ _ Hp). by apply iblk_inj. }
  split_and!; [done| |intros r Hr; by rewrite E2, E1 by done]. intros r r' Hr Hr'. rewrite E2 by done.
  rewrite (addr_meta data0 sb C1 (iblk i) d A' Hid W1 r' Hr'). by apply Hap1.
Qed.
(** ** Writing a file *)

Lemma fwf_uint C A : fwf C A -> Forall is_uint A.
Proof.
  intros Hwf. apply Forall_lookup. intros n x Hx.
  pose proof (lookup_lt_Some _ _ _ Hx) as Hlt. pose proof (fw_len _ _ _ _ Hwf) as HA. unfold zlen, NDIRECT in HA.
  assert (Hs : addr C A (slot (Z.of_nat n)) = x).
  { rewrite addr_slot by (unfold NDIRECT; lia). unfold dir. by rewrite Nat2Z.id, Hx. }
  destruct (Z.eq_dec x 0) as [->|Hn]; [done|].
  destruct (fw_used _ _ _ _ Hwf (slot (Z.of_nat n))) as [Hd _]; [|congruence|].
  { unfold slot, NDIRECT. destruct (Z.ltb_spec (Z.of_nat n) 12); [|done]. cbn. rewrite MAXFILE_val. lia. }
  rewrite Hs in Hd. by apply (data_u32 N st sz data0 sb Hly).
Qed.

Lemma MAXFILE_uint n : 0 <= n <= MAXFILE * BSIZE -> is_uint n.
Proof. rewrite MAXBYTES. unfold is_uint. lia. Qed.

Lemma meta_fbyte C x d A : ~ data_block data0 sb x -> fwf C A ->
  forall o, 0 <= o < MAXFILE * BSIZE -> fbyte (fupd C x d) A o = fbyte C A o.
Proof.
  intros Hx Hwf o Ho. pose proof (block_index o Ho) as Hk. unfold fbyte, content.
  rewrite (addr_meta data0 sb C x d A Hx Hwf (Data (o / BSIZE)) Hk).
  destruct (Z.eqb_spec (addr C A (Data (o / BSIZE))) 0) as [|Hn]; [done|]. rewrite fupd_ne; [done|].
  destruct (fw_used _ _ _ _ Hwf (Data (o / BSIZE)) Hk Hn) as [Hd _]. congruence.
Qed.

(** What [wrote] makes of the file, when the inode is brought up to date. *)
Lemma wrote_file C i bytes off src C' A' C2 c : file_at C i bytes -> 0 <= off <= zlen bytes ->
  off + zlen src <= MAXFILE * BSIZE -> wrote N data0 sb C (addrs i) off src C' A' ->
  c = with_fsize (with_addrs (i_copy i) A') (Z.max (zlen bytes) (off + zlen src)) ->
  fwf C2 A' -> (forall r, role_ok r -> addr C2 A' r = addr C' A' r) ->
  (forall o, 0 <= o < MAXFILE * BSIZE -> fbyte C2 A' o = fbyte C' A' o) ->
  rd_dinode (C2 (iblk i)) (ioff i) = Ok c ->
  file_at C2 (with_copy i c) (take (Z.to_nat off) bytes ++ src ++ drop (Z.to_nat off + length src) bytes).
Proof.
  intros [Hwf Hdev Hin Hty Hdo Hsz Hmx Hby Hde Hsy] Ho Hm [HG HB HD HS] -> W2 E2 B2 Hc.
  pose proof HG as [O1 W1 M1 F1 U1 R1]. pose proof (zlen_nonneg src).
  constructor; cbn [i_copy with_copy d_addrs with_fsize with_addrs i_dev i_inum d_type d_fsize];
    rewrite ?zlen_splice by done;
    [exact W2|exact Hdev|exact Hin|exact Hty| |reflexivity|lia| | |exact Hc].
  - destruct Hdo as [D1 D2 D3 D4 D5 D6 D7].
    constructor; [exact D1|exact D2|exact D3|exact D4| |apply W1|by eapply fwf_uint].
    apply MAXFILE_uint. cbn [d_fsize with_fsize]. lia.
  - intros o Hoo. rewrite B2, HB, nth_splice by lia.
    destruct (Z.leb_spec off o), (Z.ltb_spec o (off + zlen src)); cbn [andb]; try done; apply Hby; lia.
  - intros o Hoo. rewrite E2 by (apply block_index; lia).
    destruct (Z.lt_ge_cases o (zlen bytes)) as [Hlt|Hge].
    + rewrite M1; [apply Hde; lia|apply block_index; lia|apply Hde; lia].
    + apply HD. lia.
Qed.

Lemma with_same c : with_fsize (with_addrs c (d_addrs c)) (d_fsize c) = c.
Proof. by destruct c. Qed.
Lemma with_copy_self i : with_copy i (i_copy i) = i.
Proof. by destruct i. Qed.

(** A write keeps the number, the type and the references of the inode. *)
Definition kept (i i' : inode) : Prop :=
  i_inum i' = i_inum i /\ i_ref i' = i_ref i /\ d_type (i_copy i') = d_type (i_copy i).

Definition spliced (C : Z -> list Z) (ic : list inode) (ip : Z) (i : inode) (bytes : list Z)
    (f : fs) : Prop :=
  exists C' i', (disk_ok C' /\ file_at C' i' bytes /\ kept i i' /\ changed C i C' (addrs i')) /\
    fsr C' ∅ ∅ sb (<[Z.to_nat ip := i']> ic) f.

Section finish.
Context (C : Z -> list Z) (ic : list inode) (ip : Z) (i : inode) (bytes src : list Z) (off : Z).
Context (C1 : Z -> list Z) (A1 : list Z).
Hypothesis Hi : arr_get ic ip = Ok i.
Hypothesis Hfa : file_at C i bytes.
Hypothesis Ho : 0 <= off <= zlen bytes.
Hypothesis Hm : off + zlen src <= MAXFILE * BSIZE.
Hypothesis Hwr : wrote N data0 sb C (addrs i) off src C1 A1.

Let bytes' := take (Z.to_nat off) bytes ++ src ++ drop (Z.to_nat off + length src) bytes.

(** The inode after a write past the end, and its way to the disk. *)
Let c := with_fsize (with_addrs (i_copy i) A1) (off + zlen src).

Lemma grown_ok : zlen bytes < off + zlen src -> dinode_ok c.
Proof.
  intros Hg. pose proof (x_wf _ _ _ _ _ _ _ (wr_grows _ _ _ _ _ _ _ _ _ Hwr)) as W1.
  destruct (fa_ok _ _ _ Hfa). constructor; [done|done|done|done| |apply W1|by apply (fwf_uint C1)].
  apply MAXFILE_uint. cbn [d_fsize with_fsize c]. lia.
Qed.

Lemma grown_file d f : zlen bytes < off + zlen src ->
  patch (C1 (iblk i)) (ioff i) (ioff i + dinode_size) d -> rd_dinode d (ioff i) = Ok c ->
  fsr (fupd C1 (iblk i) d) ∅ ∅ sb (<[Z.to_nat ip := with_copy i c]> ic) f -> spliced C ic ip i bytes' f.
Proof.
  intros Hg Hp Hr Hf. destruct (iblk_ok i (fa_inum _ _ _ Hfa)) as (_ & Hlo & _ & Hib & Hid).
  pose proof (wr_grows _ _ _ _ _ _ _ _ _ Hwr) as HG. pose proof HG as [O1 W1 _ _ _ _].
  exists (fupd C1 (iblk i) d), (with_copy i c). split; [|exact Hf]. split_and!.
  - apply disk_ok_fupd; [done|done|lia].
  - apply (wrote_file C i bytes off src C1 A1); try done.
    + unfold c. f_equal. lia.
    + apply (fwf_same N st sz data0 sb Hly C1 A1); [done|apply W1|by apply (addr_meta data0 sb)|].
      intros b Hb. by apply used_fupd.
    + by apply (addr_meta data0 sb).
    + by apply meta_fbyte.
    + by rewrite fupd_eq.
  - done.
  - exists C1. split; [exact HG|]. right. by exists d.
Qed.

(** A write inside the file does not change the inode. *)
Lemma same_file f : off + zlen src <= zlen bytes \/ zlen src = 0 ->
  fsr C1 ∅ ∅ sb (tree ic ip i A1) f -> spliced C ic ip i bytes' f.
Proof.
  intros Hg Hf. pose proof Hfa as [Hwf _ Hin _ _ Hsz _ _ Hde Hsy].
  assert (HA : A1 = addrs i).
  { apply (wr_same _ _ _ _ _ _ _ _ _ Hwr). intros o Hoo. apply Hde. lia. }
  pose proof (wr_grows _ _ _ _ _ _ _ _ _ Hwr) as HG. pose proof HG as [O1 W1 _ _ _ R1].
  destruct (iblk_ok i Hin) as (_ & Hilo & _ & Hib & Hid).
  assert (HCi : C1 (iblk i) = C (iblk i)).
  { apply R1; [done|done|]. intros r Hr He. destruct (Z.eq_dec (addr C (addrs i) r) 0) as [H0|H0]; [lia|].
    destruct (fw_used _ _ _ _ Hwf r Hr H0) as [Hd _]. by rewrite He in Hd. }
  assert (Hmax : with_fsize (with_addrs (i_copy i) A1) (Z.max (zlen bytes) (off + zlen src)) = i_copy i).
  { rewrite HA. replace (Z.max _ _) with (d_fsize (i_copy i)) by lia. apply with_same. }
  pose proof (wrote_file C i bytes off src C1 A1 C1 _ Hfa Ho Hm Hwr eq_refl W1) as Hfile.
  rewrite Hmax, with_copy_self in Hfile. exists C1, i. split.
  - split_and!; [done| |done|exists C1; split; [rewrite HA in HG; exact HG|by left]].
    apply Hfile; [done|done|congruence].
  - rewrite HA in Hf. unfold tree in Hf. by rewrite with_addrs_self in Hf.
Qed.

(** The end of [writei]: the size is raised, and the inode written, if needed. *)
Lemma writei_finish :
  hoareX exhausted (fsr C1 ∅ ∅ sb (tree ic ip i A1))
    (x ← inode_at ip;
     _ ← (if (0 <? zlen src) && (d_fsize (i_copy x) <? off + zlen src) then
            _ ← inode_upd ip (fun x => with_copy x (with_fsize (i_copy x) (off + zlen src)));
            iupdate mypid ip
          else mret ());
     mret (Some (zlen src)))
    (fun r f => r = Some (zlen src) /\ spliced C ic ip i bytes' f).
Proof.
  pose proof (arr_get_bound _ _ _ Hi) as Hip. pose proof (zlen_nonneg src) as Hns.
  eapply hoareX_seq; [apply inode_at_spec, tree_get; done|]. intros _ ->.
  cbn [i_copy with_copy d_fsize with_addrs]. rewrite (fa_size _ _ _ Hfa).
  eapply hoareX_bind with (Q := fun _ => spliced C ic ip i bytes');
    [|intros [] f Hf; cbn; split; [done|exact Hf]].
  destruct (Z.ltb_spec 0 (zlen src)), (Z.ltb_spec (zlen bytes) (off + zlen src)); cbn [andb];
    try (intros f Hf; apply same_file; [lia|exact Hf]).
  eapply hoareX_bind.
  { eapply inode_upd_spec; [by apply tree_get|]. unfold tree.
    rewrite arr_set_ok by (unfold zlen in *; by rewrite length_insert).
    rewrite list_insert_insert_eq. reflexivity. }
  intros []. eapply hoareX_post; [apply (iupdate_spec C1 _ ip (with_copy i c))|].
  - apply (wr_grows _ _ _ _ _ _ _ _ _ Hwr).
  - apply arr_get_Ok. split; [lia|]. apply list_lookup_insert_eq. unfold zlen in Hip. lia.
  - apply Hfa.
  - apply Hfa.
  - by apply grown_ok.
  - intros [] f (d & [Hp Hr] & Hf). by apply (grown_file d).
Qed.
End finish.

Definition after_write (C : Z -> list Z) (ic : list inode) (ip : Z) (i : inode) (bytes : list Z)
    (off : Z) (src : list Z) (r : option Z) (f : fs) : Prop :=
  r = (file_write bytes off src).1 /\ spliced C ic ip i (file_write bytes off src).2 f.

Lemma writei_spec C ic ip i bytes off src : disk_ok C -> arr_get ic ip = Ok i -> file_at C i bytes ->
  is_uint off -> is_uint (zlen src) -> Forall is_byte src ->
  hoareX exhausted (fsr C ∅ ∅ sb ic) (writei mypid dev_write ip src off (zlen src))
    (after_write C ic ip i bytes off src).
Proof.
  intros Hok Hi Hfa Ho Hn Hsb. pose proof Hfa as [Hwf Hdev Hin Hty _ Hsz Hmx _ _ _]. unfold writei.
  pose proof (arr_get_bound _ _ _ Hi) as Hip.
  assert (Hself : forall f, fsr C ∅ ∅ sb ic f -> spliced C ic ip i bytes f).
  { intros f Hf. exists C, i. split.
    - split_and!; [done|done|done|]. exists C. split; [by apply (extends_refl N data0 sb)|by left].
    - apply arr_get_Ok in Hi as [_ Hi]. by rewrite list_insert_id. }
  eapply hoareX_seq; [by apply inode_at_spec|]. intros _ ->.
  destruct (Z.eqb_spec (d_type (i_copy i)) T_DEV); [done|].
  rewrite wraps, Hsz by done. unfold after_write, file_write.
  destruct (Z.ltb_spec (zlen bytes) off) as [E1|E1]; cbn [orb]; [intros f Hf; split; [done|by apply Hself]|].
  destruct (Z.leb_spec (2 ^ 32) (off + zlen src)) as [E2|E2]; cbn [orb];
    [intros f Hf; split; [done|by apply Hself]|].
  unfold is_uint in Ho, Hn. rewrite (u32_small (off + zlen src)) by lia.
  destruct (Z.ltb_spec (MAXFILE * BSIZE) (off + zlen src)) as [E3|E3]; cbn [orb];
    [intros f Hf; split; [done|by apply Hself]|].
  eapply (hoareX_conseq _ (fsr C ∅ ∅ sb (tree ic ip i (addrs i)))); [|by rewrite tree_self|intros r f H; exact H].
  eapply hoareX_bind;
    [apply (writei_loop_spec mypid N st sz data0 sb Hly ic ip i Hip Hdev _ C _ 0 off (zlen src) src); done || lia|].
  intros off'. apply hoareX_ex. intros C1. apply hoareX_ex. intros A1. apply hoareX_and. intros [-> Hwr].
  rewrite Z.sub_0_r. assert (rest src 0 (zlen src) = src) as Hrest.
  { unfold rest. rewrite Z.sub_0_r. cbn [Z.to_nat]. rewrite drop_0. apply take_ge. unfold zlen. lia. }
  rewrite Hrest in Hwr. apply writei_finish; [exact Hi|exact Hfa|lia|lia|exact Hwr].
Qed.
(** ** All files *)

Definition run_file_op (op : file_op) : ST fs file_res :=
  match op with
  | FRead ip off n => r ← readi mypid dev_read ip off n; mret (RBytes r)
  | FWrite ip off src => r ← writei mypid dev_write ip src off (zlen src); mret (RCount r)
  end.

Fixpoint run_file_ops (ops : list file_op) : ST fs (list file_res) :=
  match ops with
  | [] => mret []
  | op :: ops => r ← run_file_op op; rs ← run_file_ops ops; mret (r :: rs)
  end.

(** The disk [C] and the inode cache [ic] hold the files [F]. *)
Record holds (F : gmap Z (list Z)) (C : Z -> list Z) (ic : list inode) : Prop := {
  ho_ok : disk_ok C;
  ho_file : forall ip bytes, F !! ip = Some bytes ->
    exists i, arr_get ic ip = Ok i /\ file_at C i bytes;
  ho_apart : forall ip ip' i i', ip <> ip' -> is_Some (F !! ip) -> is_Some (F !! ip') ->
    arr_get ic ip = Ok i -> arr_get ic ip' = Ok i' ->
    i_inum i <> i_inum i' /\ apart C (addrs i) (addrs i');
}.

Definition fs_files (F : gmap Z (list Z)) (f : fs) : Prop :=
  exists C ic, holds F C ic /\ fsr C ∅ ∅ sb ic f.

Lemma apart_sym C A A' : apart C A A' -> apart C A' A.
Proof. intros H r r' Hr Hr' Hn He. apply (H r' r); congruence. Qed.

(** An operation on one file keeps the others. *)
Lemma holds_write F C ic ip i bytes C' i' bytes' : holds F C ic -> F !! ip = Some bytes ->
  arr_get ic ip = Ok i -> disk_ok C' -> file_at C' i' bytes' -> i_inum i' = i_inum i ->
  changed C i C' (addrs i') -> holds (<[ip := bytes']> F) C' (<[Z.to_nat ip := i']> ic).
Proof.
  intros [Hok Hfs Hap] HF Hi Hok' Hfa' Hin Hch.
  pose proof (arr_get_bound _ _ _ Hi) as Hip.
  assert (Hfa : file_at C i bytes) by (destruct (Hfs ip bytes HF) as (i0 & Hi0 & ?); congruence).
  assert (Hget : forall q, arr_get (<[Z.to_nat ip := i']> ic) q = if q =? ip then Ok i' else arr_get ic q).
  { intros q. eapply arr_get_set, arr_set_ok, Hip. }
  assert (Hoth : forall q bq j, q <> ip -> F !! q = Some bq -> arr_get ic q = Ok j ->
    file_at C' j bq /\ apart C' (addrs j) (addrs i') /\ i_inum j <> i_inum i /\
    forall r, role_ok r -> addr C' (addrs j) r = addr C (addrs j) r).
  { intros q bq j Hq HFq Hj. destruct (Hfs q bq HFq) as (j0 & Hj0 & Hfj).
    rewrite Hj in Hj0. injection Hj0 as <-.
    destruct (Hap q ip j i Hq ltac:(by eexists) ltac:(by eexists) Hj Hi) as [Hne Ha].
    destruct (other_file C i bytes j bq C' (addrs i') Hch Hfa Hfj) as (? & ? & ?); [done|done|done]. }
  constructor; [done| |].
  - intros q bq. rewrite Hget. destruct (Z.eqb_spec q ip) as [->|Hq].
    + rewrite lookup_insert_eq. intros [= <-]. by exists i'.
    + rewrite lookup_insert_ne by done. intros HFq. destruct (Hfs q bq HFq) as (j & Hj & _). exists j.
      split; [done|]. by eapply Hoth.
  - intros q q' j j' Hqq [bq Hq] [bq' Hq']. rewrite !Hget.
    destruct (Z.eqb_spec q ip) as [->|Hn], (Z.eqb_spec q' ip) as [->|Hn']; [done|..].
    + intros [= <-] Hj'. rewrite lookup_insert_ne in Hq' by done.
      destruct (Hoth q' bq' j' Hn' Hq' Hj') as (_ & Ha & Hne & _). split; [congruence|by apply apart_sym].
    + intros Hj [= <-]. rewrite lookup_insert_ne in Hq by done.
      destruct (Hoth q bq j Hn Hq Hj) as (_ & Ha & Hne & _). split; [congruence|done].
    + intros Hj Hj'. rewrite lookup_insert_ne in Hq, Hq' by done.
      destruct (Hap q q' j j' Hqq ltac:(by eexists) ltac:(by eexists) Hj Hj') as [Hne Ha]. split; [done|].
      destruct (Hoth q bq j Hn Hq Hj) as (_ & _ & _ & E), (Hoth q' bq' j' Hn' Hq' Hj') as (_ & _ & _ & E').
      intros r r' Hr Hr'. rewrite E, E' by done. by apply Ha.
Qed.

Lemma run_file_op_spec F op : op_ok F op ->
  hoareX exhausted (fs_files F) (run_file_op op)
    (fun r f => r = (spec_op F op).1 /\ fs_files (spec_op F op).2 f).
Proof.
  intros Hop. apply hoareX_ex. intros C. apply hoareX_ex. intros ic. apply hoareX_and. intros Hh.
  destruct op as [ip off n|ip off src]; cbn [op_ok run_file_op spec_op fst snd] in *.
  - destruct Hop as ([bytes HF] & Ho & Hn). destruct (ho_file _ _ _ Hh ip bytes HF) as (i & Hi & Hfa).
    rewrite (lookup_total_correct _ _ _ HF).
    eapply hoareX_seq; [by apply (readi_spec C ic ip i bytes); [apply Hh|..]|]. intros _ -> f Hf.
    split; [done|]. by exists C, ic.
  - destruct Hop as ([bytes HF] & Ho & Hn & Hb). destruct (ho_file _ _ _ Hh ip bytes HF) as (i & Hi & Hfa).
    rewrite (lookup_total_correct _ _ _ HF).
    eapply hoareX_bind; [by apply (writei_spec C ic ip i bytes); [apply Hh|..]|].
    intros r f [-> (C' & i' & (Hok' & Hfa' & [Hin _] & Hch) & Hf)].
    split; [done|]. exists C', (<[Z.to_nat ip := i']> ic). split; [|exact Hf]. by apply (holds_write F C ic ip i bytes).
Qed.

Lemma spec_op_dom F op op' : op_ok F op' -> op_ok (spec_op F op).2 op'.
Proof.
  assert (H : forall ip, is_Some (F !! ip) -> is_Some ((spec_op F op).2 !! ip)).
  { intros ip Hs. destruct op; [done|]. cbn. by apply lookup_insert_is_Some'; right. }
  destruct op'; cbn [op_ok]; intros (? & ?); (split; [by apply H|done]).
Qed.
End ops.

(** C5. Files are byte sequences.  Whatever files share the disk, any sequence
    of reads and writes on them, run inside a transaction, returns what the same
    operations return on lists of bytes: a read the bytes between its bounds, a
    write the number of bytes, and both -1 exactly beyond the end or the largest
    size.  Afterwards every file has its specified contents, the files not
    written are as before, and each inode on the disk is the one in the cache.
    The only other outcomes are the panics for a full disk, a full log and a full
    buffer cache. *)
Theorem file_ops_refine mypid N st sz data0 sb dev_read dev_write F ops :
  layout N st sz data0 sb -> Forall (op_ok F) ops ->
  hoareX exhausted (fs_files N st sz data0 sb F) (run_file_ops mypid dev_read dev_write ops)
    (fun rs f => rs = (spec_ops F ops).1 /\ fs_files N st sz data0 sb (spec_ops F ops).2 f).
Proof.
  intros Hly. revert F. induction ops as [|op ops IH]; intros F Hops; [by intros f Hf|].
  apply Forall_cons in Hops as [Hop Hops]. cbn [run_file_ops spec_ops].
  destruct (spec_op F op) as [r F'] eqn:E1. destruct (spec_ops F' ops) as [rs F''] eqn:E2.
  eapply hoareX_seq; [by apply run_file_op_spec|]. intros _ ->. rewrite E1. cbn [fst snd].
  eapply hoareX_seq; [apply IH|].
  - eapply Forall_impl; [exact Hops|]. intros op' Ho. rewrite <- (f_equal snd E1 : _ = F').
    by apply spec_op_dom.
  - intros _ -> f Hf. rewrite E2 in Hf |- *. done.
Qed.

(** ** An example: eighteen blocks, with one empty file *)

Definition demo_inode : dinode :=
  {| d_type := T_FILE; d_major := 0; d_minor := 0; d_nlink := 1; d_fsize := 0;
     d_addrs := replicate 13 0 |}.

Definition demo_fs_img : list Z :=
  replicate 512 0 ++
  (le_bytes 4 18 ++ le_bytes 4 4 ++ le_bytes 4 8 ++ le_bytes 4 10 ++ le_bytes 4 2 ++
   le_bytes 4 12 ++ le_bytes 4 13 ++ replicate 484 0) ++
  replicate 5120 0 ++
  (replicate 64 0 ++ le_bytes 2 T_FILE ++ replicate 4 0 ++ le_bytes 2 1 ++ replicate 440 0) ++
  (255 :: 63 :: replicate 510 0) ++
  replicate 2048 0.

Definition demo_sb : superblock :=
  {| sb_size := 18; nblocks := 4; ninodes := 8; nlog := 10; logstart := 2; inodestart := 12;
     bmapstart := 13 |}.

Definition demo_icache : list inode :=
  [{| i_dev := 1; i_inum := 1; i_ref := 1; i_lock := {| locked := 1; pid := 1 |}; i_valid := 1;
      i_copy := demo_inode |}].

Lemma demo_layout : layout 18 2 10 14 demo_sb.
Proof.
  assert (Hb : forall b, 0 <= b < 18 -> b / BPB = 0) by (intros b Hb; apply Z.div_small; unfold BPB, BSIZE; lia).
  assert (Hi : forall i, 0 <= i < 8 -> i / IPB = 0) by (intros i Hi; apply Z.div_small; change IPB with 8; lia).
  constructor; cbn [sb_size ninodes inodestart bmapstart demo_sb]; [done|lia|lia|..].
  - intros b H. rewrite Hb by done. unfold home, in_log. lia.
  - intros b H. rewrite Hi by done. unfold home, in_log. lia.
  - intros b i H H'. rewrite Hb, Hi by done. lia.
Qed.

Lemma demo_addr C r : role_ok r -> addr C (replicate 13 0) r = 0.
Proof.
  intros Hr. assert (Hd : forall n, dir (replicate 13 0) n = 0).
  { intros n. unfold dir. destruct (replicate 13 0 !! Z.to_nat n) as [x|] eqn:E; [|done].
    by apply lookup_replicate in E as [-> _]. }
  destruct r as [k| |i]; cbn [addr]; unfold addr_ind2; rewrite ?Hd; [|done|done]. by destruct (k <? NDIRECT).
Qed.

Lemma demo_disk_ok C : (forall b, b <> 2 -> C b = blk demo_fs_img b) -> FsAlloc.disk_ok 18 14 demo_sb C.
Proof.
  intros HC.
  assert (H1 : forallb (fun b => (zlen (blk demo_fs_img b) =? BSIZE) &&
    forallb (fun x => (0 <=? x) && (x <? 256)) (blk demo_fs_img b)) (seqZ 13 5) = true) by (by vm_compute).
  assert (H2 : forallb (fun b => bit (blk demo_fs_img 13) b) (seqZ 0 14) = true) by (by vm_compute).
  rewrite forallb_forall in H1, H2.
  assert (Hb : forall b, 0 <= b < 18 -> bmap_block demo_sb b \/ 14 <= b ->
    zlen (C b) = BSIZE /\ Forall is_byte (C b)).
  { intros b Hb Hk. assert (13 <= b).
    { destruct Hk as [(x & Hx & ->)|?]; [|lia]. cbn. pose proof (Z.div_pos x BPB ltac:(lia) ltac:(done)). lia. }
    rewrite HC by lia. destruct (andb_prop _ _ (H1 b ltac:(apply list_elem_of_In, elem_of_seqZ; lia))) as [Hl%Z.eqb_eq Hy].
    split; [done|]. rewrite forallb_forall in Hy. apply Forall_forall. intros x Hx%list_elem_of_In.
    apply Hy, andb_prop in Hx as [?%Z.leb_le ?%Z.ltb_lt]. unfold is_byte. lia. }
  constructor; [by apply Hb|by apply Hb|]. intros b Hb' _. unfold used.
  rewrite Z.div_small, Z.mod_small, HC by (unfold BPB, BSIZE; cbn; lia). cbn [bmapstart demo_sb Z.add].
  apply H2, list_elem_of_In, elem_of_seqZ. lia.
Qed.

Lemma demo_file_at C : (forall b, b <> 2 -> C b = blk demo_fs_img b) ->
  forall i, arr_get demo_icache 0 = Ok i -> file_at 14 demo_sb C i [].
Proof.
  intros HC i [= <-]. constructor; cbn [i_copy i_dev i_inum d_addrs d_type d_fsize demo_inode];
    rewrite ?zlen_nil; try done.
  - constructor; [done|..]; intros; by rewrite demo_addr in *.
  - constructor; try done. by repeat constructor.
  - intros o Ho. change (zlen []) with 0 in Ho. lia.
  - intros o Ho. change (zlen []) with 0 in Ho. lia.
  - unfold iblk, ioff. cbn [i_inum]. rewrite HC by done. by vm_compute.
Qed.

Lemma demo_fs : exists f, fs_files 18 2 10 14 demo_sb {[0 := []]} f.
Proof.
  assert (HN : zlen demo_fs_img / BSIZE = 18) by (by vm_compute).
  destruct (boot_linv 1 demo_fs_img 2 10 []) as (s & d & v & _ & _ & Hinv & Ho & Hn & Hc).
  { by vm_compute. } { by vm_compute. }
  { rewrite HN. constructor; rewrite ?zlen_nil; try done; [by intros b Hb%elem_of_nil|apply not_elem_of_nil]. }
  { exists demo_sb. split; [by vm_compute|done]. }
  { split; [by vm_compute|]. intros i b. by rewrite lookup_nil. }
  specialize (Hc eq_refl). rewrite HN in Hn. clear HN.
  exists {| fdsk := with_log d (with_outstanding (dlog d) 1); fsb := demo_sb; icache := demo_icache |}.
  exists (cur v), demo_icache. split.
  - clear Hinv. constructor; [exact (demo_disk_ok _ Hc)| |].
    + intros ip bytes [<- <-]%lookup_singleton_Some. eexists. split; [reflexivity|]. exact (demo_file_at _ Hc _ eq_refl).
    + intros ip ip' i i' Hne [? [<- _]%lookup_singleton_Some] [? [<- _]%lookup_singleton_Some]. done.
  - destruct Hinv as ([Hr Hh Hb Hp Hl Hq Hpin He Hs] & Hcm & _ & _). constructor; [|reflexivity|reflexivity].
    exists v, []. split; [exact Hr|]. split; [reflexivity|]. split; [exact Hq|]. split; [exact Hn|]. split.
    + rewrite Hn in Hl.
      constructor; [exact Hh|exact Hb|exact Hp|split; [exact Hcm|reflexivity]|exact Hl|exact Hpin|exact He|exact Hs].
    + intros h b Hhb. rewrite Hq, lookup_empty in Hhb. discriminate Hhb.
Qed.

Lemma file_ops_refine_witness : exists f, fs_files 18 2 10 14 demo_sb {[0 := []]} f /\
  match run_file_ops 1 (fun _ => None) (fun _ => None) [FWrite 0 0 [104; 105]; FRead 0 1 5; FRead 0 3 1] f with
  | Ok (rs, f') => rs = [RCount (Some 2); RBytes (Some [105]); RBytes None] /\
      fs_files 18 2 10 14 demo_sb {[0 := [104; 105]]} f'
  | Err => False
  | Fault e => exhausted e
  end.
Proof.
  destruct demo_fs as [f Hf]. exists f. split; [exact Hf|].
  refine (file_ops_refine 1 18 2 10 14 demo_sb (fun _ => None) (fun _ => None) {[0 := []]}
    [FWrite 0 0 [104; 105]; FRead 0 1 5; FRead 0 3 1] demo_layout _ f Hf).
  repeat apply Forall_cons_2; try apply Forall_nil_2; cbn [op_ok];
    rewrite lookup_singleton_eq; repeat split; try done; repeat constructor; done.
Defined.
