(* ===== verification/Grep.v ===== *)
(** * grep: [grep.c]

    [match], [matchhere] and [matchstar] on C strings, lists of bytes from the
    pointer on, and the language a pattern denotes. *)

From stdpp Require Import base list.
From Stdlib Require Import ZArith Lia.
From S2P Require Import Prelude KString Ulib.

Definition CARET : Z := 94.
Definition DOT : Z := 46.
Definition STAR : Z := 42.
Definition DOLLAR : Z := 36.

(** [here] is [matchhere(re, ...)]. *)
Fixpoint matchstar (c : Z) (here : list Z -> res bool) (text : list Z) : res bool :=
  r ← here text;
  if r : bool then Ok true
  else
    match text with
    | [] => Fault OutOfBounds
    | t :: text =>
      if negb (t =? 0) && ((t =? c) || (c =? DOT)) then matchstar c here text else Ok false
    end.

Fixpoint matchhere (re text : list Z) : res bool :=
  match re with
  | [] => Fault OutOfBounds
  | r0 :: re1 =>
    if r0 =? 0 then Ok true
    else
      match re1 with
      | [] => Fault OutOfBounds
      | r1 :: re2 =>
        if r1 =? STAR then matchstar r0 (matchhere re2) text
        else if (r0 =? DOLLAR) && (r1 =? 0) then t ← arr_get text 0; Ok (t =? 0)
        else
          t ← arr_get text 0;
          if negb (t =? 0) && ((r0 =? DOT) || (r0 =? t)) then matchhere re1 (drop 1 text)
          else Ok false
      end
  end.

Fixpoint match_loop (re text : list Z) : res bool :=
  r ← matchhere re text;
  if r : bool then Ok true
  else
    match text with
    | [] => Fault OutOfBounds
    | t :: text => if negb (t =? 0) then match_loop re text else Ok false
    end.

Definition match_ (re text : list Z) : res bool :=
  r0 ← arr_get re 0;
  if r0 =? CARET then matchhere (drop 1 re) text else match_loop re text.

(** ** The lines of the input *)

Definition NEWLINE : Z := 10.

(** The inner loop: the bytes of each line that matches, and the rest of the
    buffer; [*q] stays zero after a line that does not match. *)
Fixpoint grep_lines (fuel : nat) (pattern buf : list Z) (p : Z) (out : list Z) :
    res (list Z * Z * list Z) :=
  match fuel with
  | O => Fault OutOfFuel
  | S fuel =>
    q ← strchr buf p NEWLINE;
    match q with
    | None => Ok (buf, p, out)
    | Some q =>
      buf ← arr_set buf q 0;
      r ← match_ pattern (drop (Z.to_nat p) buf);
      '(buf, out) ← (if r : bool then
                       buf ← arr_set buf q NEWLINE;
                       line ← arr_read buf p (q + 1 - p);
                       Ok (buf, out ++ line)
                     else Ok (buf, out));
      grep_lines fuel pattern buf (q + 1) out
    end
  end.

(** The turn of [grep] after [read] has stored [data] at [buf + m]. *)
Definition grep_turn (pattern data : list Z) (st : list Z * Z * list Z) :
    res (list Z * Z * list Z) :=
  let '(buf, m, out) := st in
  buf ← arr_write buf m data;
  let m := m + zlen data in
  buf ← arr_set buf m 0;
  '(buf, p, out) ← grep_lines (S (length buf)) pattern buf 0 out;
  let m := if p =? 0 then 0 else m in
  if 0 <? m then
    let m := m - p in
    buf ← Ulib.memmove buf 0 p m;
    Ok (buf, m, out)
  else Ok (buf, m, out).

(** [reads] are what the calls of [read] return, up to the end of the file;
    the output. *)
Fixpoint grep_loop (pattern : list Z) (reads : list (list Z)) (st : list Z * Z * list Z) :
    res (list Z) :=
  match reads with
  | [] => Ok (st.2)
  | data :: reads => st ← grep_turn pattern data st; grep_loop pattern reads st
  end.

Definition grep (pattern : list Z) (reads : list (list Z)) : res (list Z) :=
  grep_loop pattern reads (replicate 1024 0, 0, []).

(** A line that arrives in two reads, the first without a newline, is lost:
    with the pattern a, the input abc newline is not printed. *)
Example grep_drops_split_line :
  grep [97; 0] [[97; 98; 99; 10]] = Ok [97; 98; 99; 10] /\
  grep [97; 0] [[97; 98]; [99; 10]] = Ok [].
Proof. split; vm_compute; reflexivity. Qed.

(** ** The language of a pattern *)

Inductive item :=
| One (c : Z)
| Many (c : Z).

(** The items of a pattern, and whether it is anchored at the end of the line. *)
Fixpoint items (re : list Z) : list item * bool :=
  match re with
  | [] => ([], false)
  | c :: re1 =>
    match re1 with
    | s :: re2 =>
      if s =? STAR then let (l, a) := items re2 in (Many c :: l, a)
      else let (l, a) := items re1 in (One c :: l, a)
    | [] => if c =? DOLLAR then ([], true) else ([One c], false)
    end
  end.

(** The characters an item stands for. *)
Definition accepts (c x : Z) : Prop := c = DOT \/ x = c.

(** The strings that match a list of items. *)
Fixpoint denotes (l : list item) (s : list Z) : Prop :=
  match l with
  | [] => s = []
  | One c :: l => exists x s', s = x :: s' /\ accepts c x /\ denotes l s'
  | Many c :: l => exists s1 s2, s = s1 ++ s2 /\ Forall (accepts c) s1 /\ denotes l s2
  end.

(** A pattern at the beginning of a text. *)
Definition found_here (re text : list Z) : Prop :=
  exists s u, text = s ++ u /\ denotes (items re).1 s /\ ((items re).2 = true -> u = []).

(** A pattern in a line. *)
Definition found (re text : list Z) : Prop :=
  match re with
  | c :: re' =>
    if c =? CARET then found_here re' text else exists t1 t2, text = t1 ++ t2 /\ found_here re t2
  | [] => True
  end.

(** ** Correctness *)

(** A string in memory: no zero byte, then one. *)
Definition cstr (s : list Z) (tail : list Z) : list Z := s ++ 0 :: tail.
Definition no_nul (s : list Z) : Prop := Forall (fun c => c <> 0) s.

Definition decides (m : res bool) (P : Prop) : Prop := exists b, m = Ok b /\ (b = true <-> P).

Lemma decides_iff m P Q : decides m P -> (P <-> Q) -> decides m Q.
Proof. intros (b & H & Hb) HPQ. exists b. split; [done|]. by rewrite Hb. Qed.

Lemma matchstar_spec c here (P : list Z -> Prop) text y :
  no_nul text -> (forall t, no_nul t -> decides (here (cstr t y)) (P t)) ->
  decides (matchstar c here (cstr text y))
    (exists s1 t, text = s1 ++ t /\ Forall (accepts c) s1 /\ P t).
Proof.
  intros Ht Hh. induction text as [|x text IH].
  - destruct (Hh [] Ht) as (b & E & Hb). unfold cstr in *. cbn [app matchstar] in *. rewrite E. cbn [mbind res_bind].
    destruct b; cbn.
    + exists true. split; [done|]. split; [|done]. intros _. exists [], []. naive_solver.
    + exists false. split; [done|]. split; [done|]. intros (s1 & t & He & _ & HP).
      symmetry in He. apply app_nil in He as [_ ->]. naive_solver.
  - pose proof Ht as Hxt. apply Forall_cons in Hxt as [Hx Htt]. specialize (IH Htt).
    destruct (Hh (x :: text) Ht) as (b & E & Hb). unfold cstr in *. cbn [app matchstar] in *. rewrite E.
    cbn [mbind res_bind]. destruct b.
    { exists true. split; [done|]. split; [|done]. intros _. exists [], (x :: text). naive_solver. }
    destruct (Z.eqb_spec x 0); [done|]. cbn [negb andb].
    assert (Hac : (x =? c) || (c =? DOT) = true <-> accepts c x).
    { rewrite orb_true_iff, !Z.eqb_eq. unfold accepts. tauto. }
    assert (Hcons : (exists s1 t, x :: text = s1 ++ t /\ Forall (accepts c) s1 /\ P t) <->
      accepts c x /\ exists s1 t, text = s1 ++ t /\ Forall (accepts c) s1 /\ P t).
    { split.
      - intros ([|x' s1] & t & He & Hs & HP); cbn in He; [subst t; naive_solver|].
        injection He as -> ->. apply Forall_cons in Hs as [? ?]. split; [done|]. by exists s1, t.
      - intros (Ha & s1 & t & -> & Hs & HP). exists (x :: s1), t. split_and!; [done|by constructor|done]. }
    destruct ((x =? c) || (c =? DOT)).
    + apply (decides_iff _ _ _ IH). rewrite Hcons. naive_solver.
    + exists false. split; [done|]. rewrite Hcons. naive_solver.
Qed.

Lemma found_here_one c re t : re <> [] -> head re <> Some STAR ->
  found_here (c :: re) t <-> exists x t', t = x :: t' /\ accepts c x /\ found_here re t'.
Proof.
  intros Hn Hs. destruct re as [|r re]; [done|]. unfold found_here.
  assert (Hi : items (c :: r :: re) = (One c :: (items (r :: re)).1, (items (r :: re)).2)).
  { change (items (c :: r :: re)) with (if r =? STAR then let (l, a) := items re in (Many c :: l, a)
      else let (l, a) := items (r :: re) in (One c :: l, a)).
    destruct (Z.eqb_spec r STAR) as [->|]; [done|]. by destruct (items (r :: re)). }
  rewrite Hi. generalize (items (r :: re)). intros [l a]. cbn [fst snd denotes]. split.
  - intros (s & u & -> & (x & s' & -> & Ha & Hd) & Hu). exists x, (s' ++ u). split_and!; [done|done|]. by exists s', u.
  - intros (x & t' & -> & Ha & s & u & -> & Hd & Hu). exists (x :: s), u. split_and!; [done| |done]. by exists x, s.
Qed.

Lemma found_here_many c re t :
  found_here (c :: STAR :: re) t <->
  exists s1 t', t = s1 ++ t' /\ Forall (accepts c) s1 /\ found_here re t'.
Proof.
  unfold found_here.
  assert (Hi : items (c :: STAR :: re) = (Many c :: (items re).1, (items re).2)).
  { cbn [items]. rewrite Z.eqb_refl. by destruct (items re). }
  rewrite Hi. generalize (items re). intros [l a]. cbn [fst snd denotes]. split.
  - intros (s & u & -> & (s1 & s2 & -> & Ha & Hd) & Hu). exists s1, (s2 ++ u).
    split_and!; [by rewrite app_assoc|done|]. by exists s2, u.
  - intros (s1 & t' & -> & Ha & s & u & -> & Hd & Hu). exists (s1 ++ s), u.
    split_and!; [by rewrite app_assoc| |done]. by exists s1, s.
Qed.

Lemma found_here_nil t : found_here [] t.
Proof. exists [], t. done. Qed.

Lemma found_here_last c t :
  found_here [c] t <-> if c =? DOLLAR then t = [] else exists x t', t = x :: t' /\ accepts c x.
Proof.
  unfold found_here. cbn [items]. destruct (c =? DOLLAR); cbn [fst snd denotes].
  - split; [intros (s & u & -> & -> & Hu); by rewrite Hu|]. intros ->. by exists [], [].
  - split.
    + intros (s & u & -> & (x & s' & -> & Ha & ->) & _). by exists x, u.
    + intros (x & t' & -> & Ha). exists [x], t'. split_and!; [done| |done]. by exists x, [].
Qed.

(** A character against the text. *)
Lemma one_spec c (m : list Z -> res bool) (P : list Z -> Prop) text y : no_nul text ->
  (forall t, no_nul t -> decides (m (cstr t y)) (P t)) ->
  decides (t ← arr_get (cstr text y) 0;
           if negb (t =? 0) && ((c =? DOT) || (c =? t)) then m (drop 1 (cstr text y)) else Ok false)
    (exists x t', text = x :: t' /\ accepts c x /\ P t').
Proof.
  intros Ht Hm. destruct text as [|x text]; unfold cstr in *; cbn [app] in *; rewrite arr_get_head; cbn [mbind res_bind].
  { exists false. split; [done|]. naive_solver. }
  apply Forall_cons in Ht as [Hx Ht]. destruct (Z.eqb_spec x 0); [done|]. cbn [negb andb drop].
  assert (Hac : (c =? DOT) || (c =? x) = true <-> accepts c x).
  { rewrite orb_true_iff, !Z.eqb_eq. unfold accepts. naive_solver. }
  destruct ((c =? DOT) || (c =? x)).
  - rewrite drop_0. apply (decides_iff _ _ _ (Hm text Ht)). naive_solver.
  - exists false. split; [done|]. naive_solver.
Qed.

Lemma matchhere_spec n re x text y : (length re < n)%nat -> no_nul re -> no_nul text ->
  decides (matchhere (cstr re x) (cstr text y)) (found_here re text).
Proof.
  revert re text. induction n as [|n IH]; intros re text Hn Hre Ht; [lia|].
  destruct re as [|c re].
  { exists true. split; [done|]. split; [|done]. intros _. apply found_here_nil. }
  apply Forall_cons in Hre as [Hc Hre]. cbn [length] in Hn.
  unfold cstr at 1. cbn [app matchhere]. destruct (Z.eqb_spec c 0); [done|]. destruct re as [|s re].
  - cbn [app]. change (0 =? STAR) with false. cbn [Z.eqb]. rewrite andb_true_r.
    eapply decides_iff; [|symmetry; apply found_here_last].
    destruct (Z.eqb_spec c DOLLAR) as [->|Hd].
    + destruct text as [|t text]; unfold cstr; cbn [app]; rewrite arr_get_head; cbn [mbind res_bind].
      * by exists true.
      * apply Forall_cons in Ht as [Ht0 _]. exists false. split; [by destruct (Z.eqb_spec t 0)|]. done.
    + apply (decides_iff _ (exists t t', text = t :: t' /\ accepts c t /\ True)); [|naive_solver].
      apply (one_spec c (matchhere (0 :: x))); [done|]. intros t _. by exists true.
  - apply Forall_cons in Hre as [Hs Hre]. cbn [app]. destruct (Z.eqb_spec s STAR) as [->|Hst].
    + eapply decides_iff; [|symmetry; apply found_here_many].
      apply matchstar_spec; [done|]. intros t Htt. apply (IH re t); [cbn in Hn; lia|done|done].
    + destruct (Z.eqb_spec s 0); [done|]. rewrite andb_false_r.
      eapply decides_iff; [|symmetry; apply found_here_one; [done|cbn; congruence]].
      apply one_spec; [done|]. intros t Htt. apply (IH (s :: re) t); [lia|by constructor|done].
Qed.

Lemma match_loop_spec re x text y : no_nul re -> no_nul text ->
  decides (match_loop (cstr re x) (cstr text y)) (exists t1 t2, text = t1 ++ t2 /\ found_here re t2).
Proof.
  intros Hre Ht. induction text as [|c text IH].
  - destruct (matchhere_spec (S (length re)) re x [] y) as (b & E & Hb); [lia|done|done|].
    unfold cstr in *. cbn [app match_loop] in *. rewrite E. cbn [mbind res_bind]. destruct b.
    + exists true. split; [done|]. split; [|done]. intros _. exists [], []. naive_solver.
    + exists false. split; [done|]. split; [done|]. intros (t1 & t2 & He & Hf).
      symmetry in He. apply app_nil in He as [_ ->]. naive_solver.
  - destruct (matchhere_spec (S (length re)) re x (c :: text) y) as (b & E & Hb); [lia|done|done|].
    apply Forall_cons in Ht as [Hc Ht]. specialize (IH Ht).
    unfold cstr in *. cbn [app match_loop] in *. rewrite E. cbn [mbind res_bind]. destruct b.
    + exists true. split; [done|]. split; [|done]. intros _. exists [], (c :: text). naive_solver.
    + destruct (Z.eqb_spec c 0); [done|]. cbn [negb]. apply (decides_iff _ _ _ IH). split.
      * intros (t1 & t2 & -> & Hf). by exists (c :: t1), t2.
      * intros ([|c' t1] & t2 & He & Hf); cbn in He; [subst t2; naive_solver|].
        injection He as -> ->. by exists t1, t2.
Qed.

(** C38. grep's matcher decides the language of the pattern: [match] returns
    on every pattern and line, and returns 1 exactly when the line has a part
    that the pattern denotes, at the beginning after a caret and at the end
    before a dollar. *)
Theorem match_decides re x text y : no_nul re -> no_nul text ->
  exists b, match_ (cstr re x) (cstr text y) = Ok b /\ (b = true <-> found re text).
Proof.
  intros Hre Ht. unfold match_. destruct re as [|c re].
  { exists true. split; [|done]. destruct text; done. }
  change (arr_get (cstr (c :: re) x) 0) with (Ok c). cbn [mbind res_bind]. unfold found.
  destruct (Z.eqb_spec c CARET) as [->|Hc].
  - apply Forall_cons in Hre as [_ Hre]. apply (matchhere_spec (S (length re)) re x text y); [lia|done|done].
  - by apply match_loop_spec.
Qed.

(** The pattern a.*c$ in xabbc. *)
Lemma match_decides_witness :
  exists b, match_ (cstr [97; 46; 42; 99; 36] []) (cstr [120; 97; 98; 98; 99] [5]) = Ok b /\
    (b = true <-> found [97; 46; 42; 99; 36] [120; 97; 98; 98; 99]).
Proof. apply match_decides; repeat constructor; discriminate. Defined.
