(* ===== verification/Umalloc.v ===== *)
(** * The allocator of user programs: [umalloc.c]

    The free blocks are a circular list through [base], in the order of their
    addresses.  Memory is a function from the addresses of words to words: the
    header at [p] is the pointer at [p] and the size, in headers, at [p + 4].
    [base] lies below the heap, which starts where the data of the program
    ends.  The system call [sbrk] is a parameter: given the end of the process
    and the increment it returns the new end, or nothing. *)

From stdpp Require Import base list gmap.
From Stdlib Require Import ZArith Lia Sorting.Sorted.
From S2P Require Import Prelude.

Definition hsize : Z := 8.

Record heap := { word : Z -> Z; freep : Z; brk : Z }.

Definition set_word (h : heap) (a x : Z) : heap :=
  {| word := fun b => if b =? a then x else word h b; freep := freep h; brk := brk h |}.
Definition with_freep (h : heap) (p : Z) : heap := {| word := word h; freep := p; brk := brk h |}.
Definition with_brk (h : heap) (b : Z) : heap := {| word := word h; freep := freep h; brk := b |}.

(** [p->s.ptr] and [p->s.size] *)
Definition ptr (h : heap) (p : Z) : Z := word h p.
Definition size (h : heap) (p : Z) : Z := word h (p + 4).
Definition set_ptr (h : heap) (p x : Z) : heap := set_word h p x.
Definition set_size (h : heap) (p n : Z) : heap := set_word h (p + 4) n.

(** [p + n] for a [Header *] *)
Definition hadd (p n : Z) : Z := u32 (p + hsize * n).

(** More than the headers that fit below the end of the process. *)
Definition enough (h : heap) : nat := Z.to_nat (brk h / hsize + 2).

Section umalloc.
Variable base : Z.
Variable sbrk : Z -> Z -> option Z.

(** The loop of [free]: the free block after which the block belongs. *)
Fixpoint free_find (fuel : nat) (h : heap) (bp p : Z) : res Z :=
  match fuel with
  | O => Fault OutOfFuel
  | S fuel =>
    if (p <? bp) && (bp <? ptr h p) then Ok p
    else if (ptr h p <=? p) && ((p <? bp) || (bp <? ptr h p)) then Ok p
    else free_find fuel h bp (ptr h p)
  end.

Definition join_upper (h : heap) (bp p : Z) : heap :=
  if hadd bp (size h bp) =? ptr h p then
    let h := set_size h bp (u32 (size h bp + size h (ptr h p))) in
    set_ptr h bp (ptr h (ptr h p))
  else set_ptr h bp (ptr h p).

Definition join_lower (h : heap) (bp p : Z) : heap :=
  if hadd p (size h p) =? bp then
    let h := set_size h p (u32 (size h p + size h bp)) in
    set_ptr h p (ptr h bp)
  else set_ptr h p bp.

Definition free (ap : Z) (h : heap) : res heap :=
  let bp := u32 (ap - hsize) in
  p ← free_find (enough h) h bp (freep h);
  Ok (with_freep (join_lower (join_upper h bp p) bp p) p).

(** 0 when there is no more memory. *)
Definition morecore (nu : Z) (h : heap) : res (Z * heap) :=
  let nu := if nu <? 4096 then 4096 else nu in
  match sbrk (brk h) (s32 (nu * hsize)) with
  | None => Ok (0, h)
  | Some b =>
    let hp := brk h in
    let h := set_size (with_brk h b) hp nu in
    h ← free (hadd hp 1) h;
    Ok (freep h, h)
  end.

(** The block found: all of it, or its end. *)
Definition take_block (nunits prevp p : Z) (h : heap) : Z * heap :=
  if size h p =? nunits then (hadd p 1, with_freep (set_ptr h prevp (ptr h p)) prevp)
  else
    let h := set_size h p (size h p - nunits) in
    let p := hadd p (size h p) in
    let h := set_size h p nunits in
    (hadd p 1, with_freep h prevp).

Fixpoint malloc_loop (fuel : nat) (nunits prevp p : Z) (h : heap) : res (Z * heap) :=
  match fuel with
  | O => Fault OutOfFuel
  | S fuel =>
    if nunits <=? size h p then Ok (take_block nunits prevp p h)
    else if p =? freep h then
      '(p, h) ← morecore nunits h;
      if p =? 0 then Ok (0, h) else malloc_loop fuel nunits p (ptr h p) h
    else malloc_loop fuel nunits p (ptr h p) h
  end.

Definition malloc (nbytes : Z) (h : heap) : res (Z * heap) :=
  let nunits := u32 (u32 (nbytes + hsize - 1) / hsize + 1) in
  let h := if freep h =? 0 then set_size (with_freep (set_ptr h base base) base) base 0 else h in
  malloc_loop (2 * enough h + 2) nunits (freep h) (ptr h (freep h)) h.
End umalloc.

(** A request of almost all the address space is rounded to nothing: the block
    returned for [malloc(0xffffffff)] is a header without any room. *)
Example malloc_overflow :
  match malloc 100 (fun b n => Some (b + n)) 0xffffffff {| word := fun _ => 0; freep := 0; brk := 4096 |} with
  | Ok (ap, h) => ap = 4096 + 32768 /\ size h (ap - hsize) = 1 /\ brk h = ap
  | _ => False
  end.
Proof. vm_compute. done. Qed.
