(* ===== verification/UmallocProofs.v ===== *)
(** * The user allocator hands out memory that is free

    The free list is a ring through [base] in address order, no two of its
    blocks touch, and free and allocated blocks are apart. *)

From stdpp Require Import base list gmap sorting.
From Stdlib Require Import ZArith Lia.
From S2P Require Import Prelude Umalloc.

(** A block is its address and its size in headers. *)
Definition block : Type := Z * Z.
Definition gap (x y : block) : Prop := x.1 + 8 * x.2 < y.1.
Definition disj (x y : block) : Prop := x.1 + 8 * x.2 <= y.1 \/ y.1 + 8 * y.2 <= x.1.

Section ring.
Variable base : Z.

(** The address before the blocks that follow, and after those that precede. *)
Definition nxt (F : list block) : Z := match F with [] => base | x :: _ => x.1 end.
Definition prv (F : list block) : Z := match last F with None => base | Some x => x.1 end.

(** The pointers of [w] run through [base] and the blocks of [F]. *)
Definition ring (w : Z -> Z) (F : list block) : Prop :=
  forall F1 F2, F = F1 ++ F2 -> w (prv F1) = nxt F2.

Lemma prv_snoc F x : prv (F ++ [x]) = x.1.
Proof. unfold prv. by rewrite last_snoc. Qed.

Lemma prv_app F H : H <> [] -> prv (F ++ H) = prv H.
Proof. intros Hn. unfold prv. rewrite last_app. destruct (last H) eqn:E; [done|]. by apply last_None in E. Qed.

Lemma nxt_app F H : F <> [] -> nxt (F ++ H) = nxt F.
Proof. by destruct F. Qed.

Lemma prv_last H : H <> [] -> exists x, x ∈ H /\ prv H = x.1.
Proof.
  intros Hn. unfold prv. destruct (last H) as [x|] eqn:E; [|by apply last_None in E].
  exists x. split; [by apply last_Some_elem_of|done].
Qed.

(** Replacing a part of the list. *)
Lemma ring_replace w w' F1 M M' F2 : ring w (F1 ++ M ++ F2) ->
  (forall G H, F1 = G ++ H -> H <> [] -> w' (prv G) = w (prv G)) ->
  (forall x, x ∈ F2 -> w' x.1 = w x.1) ->
  (forall A B, M' = A ++ B -> w' (prv (F1 ++ A)) = nxt (B ++ F2)) ->
  ring w' (F1 ++ M' ++ F2).
Proof.
  intros Hr Hpre Hpost Hmid G1 G2 Heq.
  apply app_eq_inv in Heq as [(k & HF1 & ->)|(k & -> & Hk)].
  - destruct k as [|y k].
    + rewrite app_nil_r in HF1. subst G1. rewrite <- (app_nil_r F1) at 1. by apply (Hmid [] M').
    + rewrite (Hpre G1 (y :: k)) by done. rewrite nxt_app by done.
      by rewrite (Hr G1 ((y :: k) ++ M ++ F2)) by (by rewrite HF1, <- app_assoc).
  - apply app_eq_inv in Hk as [(k2 & HM & ->)|(k2 & -> & HF2)]; [by apply Hmid|].
    destruct k2 as [|y k2].
    { cbn in HF2. subst G2. rewrite app_nil_r. by rewrite (Hmid M' []) by (by rewrite app_nil_r). }
    rewrite app_assoc, prv_app by done. destruct (prv_last (y :: k2)) as (x & Hx & Ex); [done|].
    rewrite Ex, Hpost by (rewrite HF2; apply elem_of_app; by left). rewrite <- Ex, <- (prv_app (F1 ++ M)) by done.
    apply Hr. by rewrite HF2, <- !app_assoc.
Qed.

(** The addresses are in order. *)
Lemma sorted_prv F1 x F2 : StronglySorted gap (F1 ++ x :: F2) -> (forall y, y ∈ F1 ++ x :: F2 -> base < y.1 /\ 1 <= y.2) ->
  prv F1 < x.1.
Proof.
  intros Hs Hb. destruct (decide (F1 = [])) as [->|Hn]; [by apply Hb; left|].
  destruct (prv_last F1 Hn) as (y & Hy & ->).
  assert (Hg : gap y x) by (eapply StronglySorted_app_1_elem_of; [exact Hs|done|left]).
  destruct (Hb y) as [_ ?]; [set_solver|]. unfold gap in Hg. lia.
Qed.
End ring.

(** ** The invariant *)

Section alloc.
Variable base : Z.
Hypothesis Hbase : 0 < base.

Notation prv := (prv base).
Notation nxt := (nxt base).
Notation ring := (ring base).

(** A block lies in the heap. *)
Definition inside (b : Z) (x : block) : Prop := base + 8 <= x.1 /\ 1 <= x.2 /\ x.1 + 8 * x.2 <= b.

(** The free blocks [F] and the allocated ones [L] of a heap that ends at [b]. *)
Record placed (b : Z) (F : list block) (L : gmap Z Z) : Prop := {
  pl_end : base + 8 <= b <= 2 ^ 31;
  pl_sorted : StronglySorted gap F;
  pl_free : Forall (inside b) F;
  pl_live : forall a n, L !! a = Some n -> inside b (a, n);
  pl_apart : forall a n x, L !! a = Some n -> x ∈ F -> disj (a, n) x;
  pl_disj : forall a n a' n', L !! a = Some n -> L !! a' = Some n' -> a <> a' -> disj (a, n) (a', n');
}.

Record heap_inv (h : heap) (F : list block) (L : gmap Z Z) : Prop := {
  hi_ring : ring (word h) F;
  hi_freep : exists F1 F2, F = F1 ++ F2 /\ freep h = prv F1;
  hi_base : size h base = 0;
  hi_size : forall x, x ∈ F -> size h x.1 = x.2;
  hi_live : forall a n, L !! a = Some n -> size h a = n;
  hi_placed : placed (brk h) F L;
}.

(** The contents of the allocated blocks are the same. *)
Definition keeps (L : gmap Z Z) (h h' : heap) : Prop :=
  forall a n x, L !! a = Some n -> a + 8 <= x < a + 8 * n -> word h' x = word h x.

Lemma placed_in b F L x : placed b F L -> x ∈ F -> inside b x.
Proof. intros Hp Hx. pose proof (pl_free _ _ _ Hp) as Hf. rewrite Forall_forall in Hf. by apply Hf. Qed.

(** ** Finding the place of a block *)

Section find.
Variables (h : heap) (F1 F2 : list block) (a : Z).
Hypothesis Hring : ring (word h) (F1 ++ F2).
Hypothesis Hsorted : StronglySorted gap (F1 ++ F2).
Hypothesis Hin : forall y, y ∈ F1 ++ F2 -> base < y.1 /\ 1 <= y.2.
Hypothesis Hlow : forall y, y ∈ F1 -> y.1 < a.
Hypothesis Hhigh : forall y, y ∈ F2 -> a < y.1.
Hypothesis Ha : base < a.

Lemma prv_below G H : F1 = G ++ H -> prv G < a.
Proof.
  intros ->. destruct (decide (G = [])) as [->|Hn]; [done|].
  destruct (prv_last base G Hn) as (y & Hy & ->). apply Hlow. set_solver.
Qed.

Lemma find_stops fuel : free_find (S fuel) h a (prv F1) = Ok (prv F1).
Proof.
  cbn [free_find]. unfold ptr. rewrite (Hring F1 F2) by done.
  pose proof (prv_below F1 [] ltac:(by rewrite app_nil_r)) as Hp.
  destruct (Z.ltb_spec (prv F1) a); [|lia]. cbn [andb]. destruct F2 as [|z F2'] eqn:E; cbn.
  - destruct (Z.ltb_spec a base); [lia|]. destruct (Z.leb_spec base (prv F1)) as [|Hb]; [done|]. exfalso.
    destruct (decide (F1 = [])) as [->|Hn]; [cbn in Hb; lia|].
    destruct (prv_last base F1 Hn) as (y & Hy & Ey). rewrite Ey in Hb. destruct (Hin y); [set_solver|lia].
  - destruct (Z.ltb_spec a z.1); [done|]. specialize (Hhigh z ltac:(left)). lia.
Qed.

Lemma find_forward H G fuel : F1 = G ++ H -> (length H < fuel)%nat ->
  free_find fuel h a (prv G) = Ok (prv F1).
Proof.
  revert G fuel. induction H as [|y H IH]; intros G fuel HF1 Hf; (destruct fuel as [|fuel]; [lia|]).
  { rewrite app_nil_r in HF1. subst G. apply find_stops. }
  cbn [free_find]. unfold ptr. rewrite (Hring G ((y :: H) ++ F2)) by (by rewrite HF1, <- app_assoc). cbn [app].
  unfold nxt at 1 2 3 4. assert (Hlt : prv G < y.1).
  { apply (sorted_prv base G y (H ++ F2)); by rewrite HF1, <- app_assoc in Hsorted, Hin. }
  assert (y.1 < a) by (apply Hlow; rewrite HF1; set_solver).
  destruct (Z.ltb_spec a y.1); [lia|]. destruct (Z.leb_spec y.1 (prv G)); [lia|]. rewrite andb_false_r. cbn [andb].
  rewrite <- (prv_snoc base G y). apply IH; [by rewrite HF1, <- app_assoc|cbn in Hf; lia].
Qed.

Lemma find_wraps B H fuel : F2 = H ++ B -> H <> [] -> (length B + length F1 + 1 < fuel)%nat ->
  free_find fuel h a (prv (F1 ++ H)) = Ok (prv F1).
Proof.
  revert H fuel. induction B as [|z B IH]; intros H fuel HF2 Hn Hf; (destruct fuel as [|fuel]; [lia|]);
    cbn [free_find]; unfold ptr; rewrite (Hring (F1 ++ H) _ ltac:(by rewrite HF2, app_assoc)); unfold nxt at 1 2 3 4;
    (assert (Hp : a < prv (F1 ++ H)) by (rewrite prv_app by done; destruct (prv_last base H Hn) as (y & Hy & ->);
       apply Hhigh; rewrite HF2; set_solver)).
  - destruct (Z.ltb_spec (prv (F1 ++ H)) a); [lia|]. destruct (Z.ltb_spec a base); [lia|]. cbn [andb orb].
    rewrite andb_false_r. apply (find_forward F1 []); [done|cbn in Hf; lia].
  - assert (Hlt : prv (F1 ++ H) < z.1).
    { apply (sorted_prv base (F1 ++ H) z B); by rewrite HF2, app_assoc in Hsorted, Hin. }
    destruct (Z.ltb_spec (prv (F1 ++ H)) a); [lia|]. destruct (Z.leb_spec z.1 (prv (F1 ++ H))); [lia|]. cbn [andb].
    rewrite <- (prv_snoc base (F1 ++ H) z), <- app_assoc. apply IH; [by rewrite HF2, <- app_assoc|by destruct H|cbn in Hf; lia].
Qed.

(** From anywhere on the ring. *)
Lemma find_spec G1 G2 fuel : F1 ++ F2 = G1 ++ G2 -> (length (F1 ++ F2) + 1 < fuel)%nat ->
  free_find fuel h a (prv G1) = Ok (prv F1).
Proof.
  intros He Hf. rewrite length_app in Hf. apply app_eq_inv in He as [(k & HF1 & _)|(k & -> & HF2)].
  - apply (find_forward k G1); [done|]. rewrite HF1, length_app in Hf. lia.
  - destruct k as [|y k]; [rewrite app_nil_r; destruct fuel; [lia|apply find_stops]|].
    apply (find_wraps G2); [done|done|]. rewrite HF2, length_app in Hf. cbn in Hf. lia.
Qed.
End find.

(** ** Geometry *)

Lemma sorted_length lo b F : StronglySorted gap F -> (forall x, x ∈ F -> lo <= x.1 /\ 1 <= x.2 /\ x.1 + 8 * x.2 <= b) ->
  lo <= b -> lo + 8 * Z.of_nat (length F) <= b.
Proof.
  revert lo. induction F as [|x F IH]; intros lo Hs Hx Hlo; [cbn; lia|].
  apply StronglySorted_cons in Hs as [Hg Hs]. rewrite Forall_forall in Hg. destruct (Hx x) as (? & ? & ?); [left|].
  cbn [length]. rewrite Nat2Z.inj_succ. cut (x.1 + 8 * x.2 + 8 * Z.of_nat (length F) <= b); [lia|].
  apply IH; [done| |lia]. intros y Hy. specialize (Hg y Hy). destruct (Hx y) as (? & ? & ?); [by right|]. unfold gap in Hg. lia.
Qed.

Lemma enough_ring h F L : placed (brk h) F L -> (length F + 1 < enough h)%nat.
Proof.
  intros [He Hs Hf _ _ _]. unfold enough, hsize. rewrite Forall_forall in Hf.
  pose proof (sorted_length (base + 8) (brk h) F Hs Hf ltac:(lia)).
  pose proof (Z.div_mod (brk h) 8 ltac:(lia)). pose proof (Z.mod_pos_bound (brk h) 8 ltac:(lia)). lia.
Qed.

Lemma place_split b F L a n : placed b F L -> L !! a = Some n -> exists F1 F2, F = F1 ++ F2 /\
  (forall y, y ∈ F1 -> y.1 + 8 * y.2 <= a) /\ (forall y, y ∈ F2 -> a + 8 * n <= y.1).
Proof.
  intros [_ Hs Hf Hl Hap _] Ha. specialize (Hl a n Ha). specialize (Hap a n).
  assert (Hd : forall x, x ∈ F -> disj (a, n) x) by (intros x Hx; by apply Hap). clear Hap.
  rewrite Forall_forall in Hf. induction F as [|x F IH].
  { exists [], []. split_and!; [done|..]; by intros y Hy%elem_of_nil. }
  apply StronglySorted_cons in Hs as [Hg Hs]. rewrite Forall_forall in Hg.
  destruct (Hd x) as [Hx|Hx]; [left|..]; cbn in Hx.
  - exists [], (x :: F). split_and!; [done|by intros y Hy%elem_of_nil|]. intros y [->|Hy]%elem_of_cons; [done|].
    specialize (Hg y Hy). destruct (Hf x) as (_ & ? & _); [left|]. unfold gap in Hg. lia.
  - destruct IH as (F1 & F2 & -> & H1 & H2); [done|intros y Hy; apply Hf; by right|intros y Hy; apply Hd; by right|].
    exists (x :: F1), F2. split_and!; [done| |done]. intros y [->|Hy]%elem_of_cons; [done|by apply H1].
Qed.

(** The allocated block [a] and the free blocks [M] become the free block [x]. *)
Lemma placed_join b P M S L a n x : placed b (P ++ M ++ S) L -> L !! a = Some n -> inside b x ->
  (forall y, y ∈ P -> gap y x) -> (forall y, y ∈ S -> gap x y) ->
  (forall y : block, 1 <= y.2 -> disj (a, n) y -> (forall z, z ∈ M -> disj y z) -> disj y x) ->
  placed b (P ++ [x] ++ S) (delete a L).
Proof.
  intros [He Hs Hf Hl Hap Hd] Ha Hx HP HS Hj.
  apply StronglySorted_app in Hs as (HPM & HsP & Hs). apply StronglySorted_app in Hs as (_ & _ & HsS).
  apply Forall_app in Hf as [HfP Hf]. apply Forall_app in Hf as [HfM HfS].
  constructor; [done| | | | |].
  - apply StronglySorted_app_2; [|done|].
    + intros y z Hy [->|Hz]%elem_of_cons; [by apply HP|]. apply HPM; [done|set_solver].
    + apply StronglySorted_cons. split; [by apply Forall_forall|done].
  - apply Forall_app_2; [done|by apply Forall_cons].
  - intros a' n' [_ H']%lookup_delete_Some. by apply Hl.
  - intros a' n' y [Hne H']%lookup_delete_Some Hy.
    rewrite !elem_of_app, list_elem_of_singleton in Hy. destruct Hy as [Hy|[->|Hy]]; [apply Hap; [done|set_solver]| |apply Hap; [done|set_solver]].
    apply Hj; [apply (Hl _ _ H')|by apply Hd|]. intros z Hz. apply Hap; [done|set_solver].
  - intros a' n' a2 n2 [_ H1]%lookup_delete_Some [_ H2]%lookup_delete_Some. by apply Hd.
Qed.

(** ** Words of different headers *)

Lemma word_set h a x b : word (set_word h a x) b = if b =? a then x else word h b.
Proof. done. Qed.

(** The words of the header of [y] are not those of [x]. *)
Definition other (x y : Z) : Prop := y <> x /\ y <> x + 4 /\ y + 4 <> x /\ y + 4 <> x + 4.

Lemma disj_other (x y : block) : 1 <= x.2 -> 1 <= y.2 -> disj x y -> other x.1 y.1.
Proof. unfold disj, other. lia. Qed.

Lemma base_other b (x : block) : inside b x -> other x.1 base /\ other base x.1.
Proof. unfold inside, other. lia. Qed.

Lemma other_sym x y : other x y -> other y x.
Proof. unfold other. lia. Qed.

(** [h'] is [h] but for the header at [a]. *)
Definition header (h : heap) (a p n : Z) (h' : heap) : Prop :=
  ptr h' a = p /\ size h' a = n /\ (forall x, x <> a -> x <> a + 4 -> word h' x = word h x) /\
  freep h' = freep h /\ brk h' = brk h.

Lemma header_other h a p n h' y : header h a p n h' -> other a y -> ptr h' y = ptr h y /\ size h' y = size h y.
Proof. intros (_ & _ & H & _) (? & ? & ? & ?). unfold ptr, size. by rewrite !H. Qed.

Lemma set_header h a p n : header h a p n (set_ptr (set_size h a n) a p).
Proof.
  unfold header, ptr, size, set_ptr, set_size. cbn [freep brk set_word]. split_and!; try done.
  - rewrite word_set. by rewrite Z.eqb_refl.
  - rewrite !word_set. destruct (Z.eqb_spec (a + 4) a); [lia|]. by rewrite Z.eqb_refl.
  - intros x H1 H2. rewrite !word_set. destruct (Z.eqb_spec x a), (Z.eqb_spec x (a + 4)); done.
Qed.

Lemma set_header_ptr h a p : header h a p (size h a) (set_ptr h a p).
Proof.
  unfold header, ptr, size, set_ptr. cbn [freep brk set_word]. split_and!; try done.
  - rewrite word_set. by rewrite Z.eqb_refl.
  - rewrite word_set. by destruct (Z.eqb_spec (a + 4) a); [lia|].
  - intros x H1 H2. rewrite word_set. by destruct (Z.eqb_spec x a).
Qed.

Lemma gap_other b (x y : block) : inside b x -> inside b y -> gap x y -> other x.1 y.1.
Proof. unfold gap, other, inside. lia. Qed.

Lemma prefix_other b F L G H K : placed b F L -> F = (G ++ H) ++ K -> H <> [] ->
  other (prv (G ++ H)) (prv G).
Proof.
  intros Hp -> Hn. rewrite prv_app by done. destruct (prv_last base H Hn) as (z & Hz & ->).
  assert (Hiz : inside b z) by (apply (placed_in _ _ _ _ Hp); set_solver).
  destruct (decide (G = [])) as [->|HG]; [by apply (base_other b)|].
  destruct (prv_last base G HG) as (y & Hy & ->).
  assert (Hiy : inside b y) by (apply (placed_in _ _ _ _ Hp); set_solver).
  pose proof (pl_sorted _ _ _ Hp) as Hs. apply StronglySorted_app in Hs as (_ & Hs & _).
  apply other_sym, (gap_other b); try done. by eapply StronglySorted_app_1_elem_of.
Qed.

Lemma live_other b F L a n y : placed b F L -> L !! a = Some n -> y ∈ F -> other a y.1.
Proof.
  intros Hp Ha Hy. apply (disj_other (a, n) y); [apply (pl_live _ _ _ Hp _ _ Ha)|apply (placed_in _ _ _ _ Hp Hy)|].
  by apply (pl_apart _ _ _ Hp).
Qed.

Lemma live_prv b F L a n G K : placed b F L -> L !! a = Some n -> F = G ++ K -> other a (prv G).
Proof.
  intros Hp Ha ->. destruct (decide (G = [])) as [->|HG].
  { by apply (base_other b (a, n)), (pl_live _ _ _ Hp). }
  destruct (prv_last base G HG) as (y & Hy & ->). eapply live_other; [done|done|set_solver].
Qed.

(** The words inside an allocated block are of no other header. *)
Lemma payload_not b F L a n y x : placed b F L -> L !! a = Some n -> y ∈ F -> a + 8 <= x < a + 8 * n ->
  x <> y.1 /\ x <> y.1 + 4.
Proof.
  intros Hp Ha Hy Hx. pose proof (placed_in _ _ _ _ Hp Hy) as Hi. pose proof (pl_apart _ _ _ Hp _ _ _ Ha Hy) as Hd.
  unfold inside in Hi. unfold disj in Hd. cbn in Hd. lia.
Qed.

Lemma payload_prv b F L a n G K x : placed b F L -> L !! a = Some n -> F = G ++ K ->
  a + 8 <= x < a + 8 * n -> x <> prv G /\ x <> prv G + 4.
Proof.
  intros Hp Ha -> Hx. destruct (decide (G = [])) as [->|HG].
  { pose proof (pl_live _ _ _ Hp _ _ Ha) as Hi. unfold inside in Hi. cbn in *. lia. }
  destruct (prv_last base G HG) as (y & Hy & ->). eapply payload_not; [done|done|set_solver|done].
Qed.

Lemma after_other b F1 F2 L y : placed b (F1 ++ F2) L -> y ∈ F2 -> other (prv F1) y.1.
Proof.
  intros Hp Hy. assert (Hyi : inside b y) by (apply (placed_in _ _ _ _ Hp); set_solver).
  destruct (decide (F1 = [])) as [->|HG]; [by apply (base_other b)|].
  destruct (prv_last base F1 HG) as (z & Hz & ->).
  apply (gap_other b); [apply (placed_in _ _ _ _ Hp); set_solver|done|].
  eapply StronglySorted_app_1_elem_of; [apply (pl_sorted _ _ _ Hp)|done|done].
Qed.

Lemma before_other b F1 F2 L y : placed b (F1 ++ F2) L -> y ∈ F1 -> y.1 = prv F1 \/ other (prv F1) y.1.
Proof.
  intros Hp (G & K & HG)%list_elem_of_split. destruct K as [|z K].
  - left. rewrite HG. by rewrite prv_snoc.
  - right. rewrite <- (prv_snoc base G y). assert (HG' : F1 = (G ++ [y]) ++ z :: K) by (by rewrite HG, <- app_assoc).
    rewrite HG'. by eapply prefix_other; [exact Hp|rewrite HG'|].
Qed.

(** ** Freeing *)

Section free.
Variables (h : heap) (F1 F2 : list block) (L : gmap Z Z) (a n : Z).
Hypothesis Hinv : heap_inv h (F1 ++ F2) L.
Hypothesis Ha : L !! a = Some n.
Hypothesis Hlow : forall y, y ∈ F1 -> y.1 + 8 * y.2 <= a.
Hypothesis Hhigh : forall y, y ∈ F2 -> a + 8 * n <= y.1.

Let Hpl := hi_placed _ _ _ Hinv.

Lemma a_inside : inside (brk h) (a, n).
Proof. by apply (pl_live _ _ _ Hpl). Qed.

Lemma join_upper_spec : exists M F2' n', F2 = M ++ F2' /\
  header h a (nxt F2') n' (join_upper h a (prv F1)) /\
  ((M = [] /\ n' = n) \/ exists m, M = [(a + 8 * n, m)] /\ n' = n + m) /\
  (forall y, y ∈ F2' -> a + 8 * n' < y.1).
Proof.
  pose proof a_inside as Hia. unfold inside in Hia. cbn in Hia. pose proof (pl_end _ _ _ Hpl) as Hend.
  unfold join_upper. rewrite (hi_live _ _ _ Hinv _ _ Ha).
  assert (Hnx : ptr h (prv F1) = nxt F2) by (by apply (hi_ring _ _ _ Hinv)).
  unfold hadd, hsize. rewrite u32_small by lia. rewrite Hnx.
  destruct F2 as [|[b m] T].
  { exists [], [], n. destruct (Z.eqb_spec (a + 8 * n) (nxt [])) as [He|_]; [cbn in He; lia|].
    split_and!; [done| |by left|by intros y Hy%elem_of_nil].
    rewrite <- (hi_live _ _ _ Hinv _ _ Ha) at 1. apply set_header_ptr. }
  cbn [nxt fst]. assert (Hb : (b, m) ∈ F1 ++ (b, m) :: T) by set_solver.
  pose proof (placed_in _ _ _ _ Hpl Hb) as Hib. unfold inside in Hib. cbn in Hib.
  pose proof (pl_sorted _ _ _ Hpl) as Hs. apply StronglySorted_app in Hs as (_ & _ & Hs).
  apply StronglySorted_cons in Hs as [Hg _]. rewrite Forall_forall in Hg.
  destruct (Z.eqb_spec (a + 8 * n) b) as [<-|Hne].
  - exists [(a + 8 * n, m)], T, (n + m).
    assert (Hsz : size h (a + 8 * n) = m) by (by apply (hi_size _ _ _ Hinv (a + 8 * n, m))).
    rewrite Hsz, u32_small by lia.
    pose proof (live_prv _ _ _ _ _ F1 _ Hpl Ha eq_refl) as (_ & Hp4 & _).
    pose proof (live_other _ _ _ _ _ _ Hpl Ha Hb) as (_ & Hb4 & _). cbn in Hb4.
    assert (E1 : ptr (set_size h a (n + m)) (prv F1) = a + 8 * n).
    { unfold ptr, set_size. rewrite word_set. destruct (Z.eqb_spec (prv F1) (a + 4)); [done|]. apply Hnx. }
    assert (E2 : ptr (set_size h a (n + m)) (a + 8 * n) = nxt T).
    { unfold ptr, set_size. rewrite word_set. destruct (Z.eqb_spec (a + 8 * n) (a + 4)); [done|].
      pose proof (hi_ring _ _ _ Hinv (F1 ++ [(a + 8 * n, m)]) T) as Hr. rewrite prv_snoc in Hr.
      apply Hr. by rewrite <- app_assoc. }
    rewrite E1, E2. split_and!; [done|apply set_header|right; by exists m|].
    intros y Hy. specialize (Hg y Hy). unfold gap in Hg. cbn in Hg. lia.
  - exists [], ((b, m) :: T), n. split_and!; [done| |by left|].
    + rewrite <- (hi_live _ _ _ Hinv _ _ Ha) at 1. apply set_header_ptr.
    + pose proof (Hhigh (b, m) ltac:(left)) as Hh. cbn in Hh. intros y [->|Hy]%elem_of_cons; [cbn; lia|].
      specialize (Hg y Hy). unfold gap in Hg. cbn in Hg. lia.
Qed.

Lemma join_lower_spec h1 F2' n' : header h a (nxt F2') n' h1 -> 1 <= n' -> a + 8 * n' <= brk h ->
  (header h1 (prv F1) a (size h (prv F1)) (join_lower h1 a (prv F1)) /\
   (forall y, y ∈ F1 -> y.1 + 8 * y.2 < a)) \/
  (exists T c k, F1 = T ++ [(c, k)] /\ c + 8 * k = a /\
     header h1 c (nxt F2') (k + n') (join_lower h1 a (prv F1))).
Proof.
  intros Hh1 Hn' Hbr. pose proof a_inside as Hia. unfold inside in Hia. cbn in Hia.
  pose proof (pl_end _ _ _ Hpl) as Hend. unfold join_lower.
  pose proof (live_prv _ _ _ _ _ F1 _ Hpl Ha eq_refl) as Ho.
  destruct (header_other _ _ _ _ _ _ Hh1 Ho) as [_ Hsz]. rewrite Hsz.
  destruct Hh1 as (Hp1 & Hs1 & _). 
  destruct (decide (F1 = [])) as [->|Hn].
  { left. split; [|by intros y Hy%elem_of_nil]. cbn [prv last]. rewrite (hi_base _ _ _ Hinv).
    unfold hadd, hsize. rewrite u32_small by lia. destruct (Z.eqb_spec (base + 8 * 0) a); [lia|].
    cbn in Hsz. rewrite <- (hi_base _ _ _ Hinv), <- Hsz at 1. apply set_header_ptr. }
  destruct (exists_last Hn) as (T & [c k] & HF1). 
  assert (Hpc : prv F1 = c) by (rewrite HF1; apply prv_snoc). rewrite Hpc in *.
  assert (Hck : (c, k) ∈ F1) by (rewrite HF1; set_solver).
  pose proof (placed_in _ _ _ (c, k) Hpl ltac:(set_solver)) as Hic. unfold inside in Hic. cbn in Hic.
  assert (Hszc : size h c = k) by (apply (hi_size _ _ _ Hinv (c, k)); set_solver). rewrite Hszc in *.
  unfold hadd, hsize. rewrite u32_small by lia. pose proof (Hlow _ Hck) as Hlc. cbn in Hlc.
  destruct (Z.eqb_spec (c + 8 * k) a) as [Hadj|Hne].
  - right. exists T, c, k. split_and!; [done|done|]. rewrite Hs1, u32_small by lia.
    assert (E : ptr (set_size h1 c (k + n')) a = nxt F2').
    { unfold ptr, set_size. rewrite word_set. destruct (Z.eqb_spec a (c + 4)) as [He|]; [|done].
      destruct Ho as (? & ? & ? & ?). lia. }
    rewrite E. apply set_header.
  - left. split; [rewrite <- Hsz at 1; apply set_header_ptr|]. intros y Hy.
    rewrite HF1 in Hy. apply elem_of_app in Hy as [Hy|Hy%list_elem_of_singleton]; [|subst y; cbn; lia].
    pose proof (pl_sorted _ _ _ Hpl) as Hs. rewrite HF1, <- app_assoc in Hs.
    assert (Hg : gap y (c, k)) by (eapply StronglySorted_app_1_elem_of; [exact Hs|done|set_solver]).
    unfold gap in Hg. cbn in Hg. lia.
Qed.

Lemma n'_range M F2' n' : F2 = M ++ F2' ->
  ((M = [] /\ n' = n) \/ exists m, M = [(a + 8 * n, m)] /\ n' = n + m) ->
  n <= n' /\ a + 8 * n' <= brk h.
Proof.
  intros HF2 HM. pose proof a_inside as Hia. unfold inside in Hia. cbn in Hia.
  destruct HM as [[_ ->]|(m & HM' & ->)]; [lia|].
  pose proof (placed_in _ _ _ (a + 8 * n, m) Hpl) as Hi. unfold inside in Hi. cbn in Hi.
  destruct Hi as (? & ? & ?); [rewrite HF2, HM'; set_solver|]. lia.
Qed.

(** The headers of [a] and of the block before it have been changed. *)
Section written.
Variables (M F2' : list block) (n' p' s' : Z) (h1 h2 : heap).
Hypothesis HF2 : F2 = M ++ F2'.
Hypothesis HM : (M = [] /\ n' = n) \/ exists m, M = [(a + 8 * n, m)] /\ n' = n + m.
Hypothesis Hgap : forall y, y ∈ F2' -> a + 8 * n' < y.1.
Hypothesis Hh1 : header h a (nxt F2') n' h1.
Hypothesis Hh2 : header h1 (prv F1) p' s' h2.

Lemma written_word x : x <> a -> x <> a + 4 -> x <> prv F1 -> x <> prv F1 + 4 -> word h2 x = word h x.
Proof. intros. destruct Hh1 as (_ & _ & E1 & _), Hh2 as (_ & _ & E2 & _). by rewrite E2, E1. Qed.

Lemma written_other y : other a y -> other (prv F1) y -> ptr h2 y = ptr h y /\ size h2 y = size h y.
Proof.
  intros Hy1 Hy2. destruct (header_other _ _ _ _ _ _ Hh1 Hy1) as [<- <-].
  by apply (header_other _ _ _ _ _ _ Hh2).
Qed.

Lemma written_a : ptr h2 a = nxt F2' /\ size h2 a = n'.
Proof.
  destruct (header_other _ _ _ _ _ a Hh2) as [-> ->]; [|by destruct Hh1 as (? & ? & _)].
  apply other_sym. exact (live_prv _ _ _ _ _ F1 _ Hpl Ha eq_refl).
Qed.

Lemma written_after y : y ∈ F2' -> ptr h2 y.1 = ptr h y.1 /\ size h2 y.1 = size h y.1.
Proof.
  intros Hy. assert (Hy2 : y ∈ F2) by (rewrite HF2; set_solver).
  apply written_other; [eapply live_other; [exact Hpl|done|set_solver]|by eapply after_other].
Qed.

Lemma written_before G H : F1 = G ++ H -> H <> [] -> ptr h2 (prv G) = ptr h (prv G) /\ size h2 (prv G) = size h (prv G).
Proof.
  intros HG Hn. apply written_other.
  - eapply (live_prv _ _ _ _ _ G); [exact Hpl|done|by rewrite HG, <- app_assoc].
  - rewrite HG. eapply prefix_other; [exact Hpl|by rewrite HG|done].
Qed.

Lemma written_live b m : delete a L !! b = Some m -> size h2 b = m.
Proof.
  intros [Hne Hb]%lookup_delete_Some. rewrite <- (hi_live _ _ _ Hinv _ _ Hb). apply written_other.
  - apply (disj_other (a, n) (b, m)); [apply a_inside|apply (pl_live _ _ _ Hpl _ _ Hb)|by apply (pl_disj _ _ _ Hpl)].
  - apply other_sym. exact (live_prv _ _ _ _ _ F1 _ Hpl Hb eq_refl).
Qed.

Lemma written_keeps : keeps (delete a L) h h2.
Proof.
  intros b m x [Hne Hb]%lookup_delete_Some Hx. pose proof a_inside as Hia.
  destruct (payload_prv _ _ _ _ _ F1 _ x Hpl Hb eq_refl Hx) as [? ?].
  pose proof (pl_disj _ _ _ Hpl _ _ _ _ Ha Hb Hne) as Hd. unfold disj in Hd. unfold inside in Hia. cbn in *.
  apply written_word; lia.
Qed.

Lemma written_placed P K x : P ++ K = F1 -> (K = [] /\ x = (a, n') /\ (forall y, y ∈ F1 -> y.1 + 8 * y.2 < a)) \/
    (exists c k, K = [(c, k)] /\ c + 8 * k = a /\ x = (c, k + n')) ->
  placed (brk h) (P ++ [x] ++ F2') (delete a L).
Proof.
  intros HF1 HK. destruct (n'_range M F2' n' HF2 HM) as [Hnn Hnb]. pose proof a_inside as Hia. unfold inside in Hia. cbn in Hia.
  apply (placed_join _ P (K ++ M) F2' L a n); [by rewrite <- app_assoc, <- HF2, app_assoc, HF1|done| | | |].
  - destruct HK as [(-> & -> & _)|(c & k & -> & Hc & ->)]; unfold inside; cbn; [lia|].
    pose proof (placed_in _ _ _ (c, k) Hpl ltac:(rewrite <- HF1; set_solver)) as Hi. unfold inside in Hi. cbn in Hi. lia.
  - intros y Hy. destruct HK as [(-> & -> & Hlt)|(c & k & -> & Hc & ->)]; unfold gap; cbn.
    + apply Hlt. rewrite <- HF1. set_solver.
    + pose proof (pl_sorted _ _ _ Hpl) as Hs. rewrite <- HF1, <- app_assoc in Hs.
      assert (Hg : gap y (c, k)) by (eapply StronglySorted_app_1_elem_of; [exact Hs|done|set_solver]). exact Hg.
  - intros y Hy. specialize (Hgap y Hy).
    destruct HK as [(_ & -> & _)|(c & k & _ & Hc & ->)]; unfold gap; cbn; lia.
  - intros y Hy Hda Hz.
    assert (H1 : disj y (a, n')).
    { destruct HM as [[_ ->]|(m & -> & ->)]; [unfold disj in *; cbn in *; lia|].
      specialize (Hz (a + 8 * n, m) ltac:(set_solver)). unfold disj in *. cbn in *. lia. }
    destruct HK as [(_ & -> & _)|(c & k & -> & Hc & ->)]; [done|].
    specialize (Hz (c, k) ltac:(set_solver)). unfold disj in *. cbn in *. lia.
Qed.

Lemma free_alone : p' = a -> s' = size h (prv F1) -> (forall y, y ∈ F1 -> y.1 + 8 * y.2 < a) ->
  heap_inv (with_freep h2 (prv F1)) (F1 ++ [(a, n')] ++ F2') (delete a L).
Proof.
  intros Hp' Hs' Hlt. pose proof Hh2 as (Hp2 & Hs2 & _ & _ & Hb2). pose proof Hh1 as (_ & _ & _ & _ & Hb1).
  destruct written_a as [Hpa Hsa].
  constructor; [| |..]; unfold size; cbn [word freep brk with_freep].
  - apply (ring_replace base (word h) (word h2) F1 M [(a, n')] F2').
    + rewrite <- HF2. apply (hi_ring _ _ _ Hinv).
    + intros G H HG Hn. by apply (written_before G H).
    + intros x Hx. by apply written_after.
    + intros A B HAB. destruct A as [|x A].
      * cbn in HAB. subst B. rewrite app_nil_r. cbn. by rewrite <- Hp'.
      * injection HAB as <- HAB. symmetry in HAB. apply app_nil in HAB as [-> ->].
        rewrite prv_snoc. exact Hpa.
  - exists F1, ([(a, n')] ++ F2'). done.
  - change (size h2 base = 0). destruct (decide (F1 = [])) as [->|Hn].
    + cbn in Hs2, Hs'. rewrite Hs2, Hs'. apply (hi_base _ _ _ Hinv).
    + destruct (written_before [] F1 eq_refl Hn) as [_ E]. cbn in E. rewrite E. apply (hi_base _ _ _ Hinv).
  - intros x Hx. change (size h2 x.1 = x.2). rewrite !elem_of_app, list_elem_of_singleton in Hx.
    destruct Hx as [Hx|[->|Hx]]; [|done|].
    + rewrite <- (hi_size _ _ _ Hinv x) by set_solver. apply list_elem_of_split in Hx as (G & K & HG).
      destruct K as [|z K].
      * assert (Hpx : prv F1 = x.1) by (rewrite HG; apply prv_snoc). rewrite <- Hpx. congruence.
      * rewrite <- (prv_snoc base G x). apply (written_before (G ++ [x]) (z :: K)); [by rewrite HG, <- app_assoc|done].
    + rewrite <- (hi_size _ _ _ Hinv x) by (rewrite HF2; set_solver). by apply written_after.
  - intros b m Hb. by apply written_live.
  - rewrite Hb2, Hb1. apply (written_placed F1 []); [by rewrite app_nil_r|]. left. done.
Qed.

Lemma free_merged T c k : F1 = T ++ [(c, k)] -> c + 8 * k = a -> p' = nxt F2' -> s' = k + n' ->
  heap_inv (with_freep h2 (prv F1)) (T ++ [(c, k + n')] ++ F2') (delete a L).
Proof.
  intros HF1 Hck Hp' Hs'. pose proof Hh2 as (Hp2 & Hs2 & _ & _ & Hb2). pose proof Hh1 as (_ & _ & _ & _ & Hb1).
  assert (Hpc : prv F1 = c) by (rewrite HF1; apply prv_snoc).
  assert (Hbef : forall G H, T = G ++ H -> ptr h2 (prv G) = ptr h (prv G) /\ size h2 (prv G) = size h (prv G)).
  { intros G H ->. apply (written_before G (H ++ [(c, k)])); [by rewrite HF1, <- app_assoc|by destruct H]. }
  constructor; [| |..]; unfold size; cbn [word freep brk with_freep].
  - apply (ring_replace base (word h) (word h2) T ((c, k) :: M) [(c, k + n')] F2').
    + pose proof (hi_ring _ _ _ Hinv) as Hr. by rewrite HF2, HF1, <- app_assoc in Hr.
    + intros G H HG Hn. by apply (Hbef G H).
    + intros x Hx. by apply written_after.
    + intros A B HAB. destruct A as [|x A].
      * cbn in HAB. subst B. rewrite app_nil_r. destruct (Hbef T [] ltac:(by rewrite app_nil_r)) as [Hpt _].
        unfold ptr in Hpt. rewrite Hpt. rewrite (hi_ring _ _ _ Hinv T ((c, k) :: F2)); [done|]. by rewrite HF1, <- app_assoc.
      * injection HAB as <- HAB. symmetry in HAB. apply app_nil in HAB as [-> ->].
        rewrite prv_snoc. cbn [fst app]. rewrite <- Hp', <- Hpc. exact Hp2.
  - exists (T ++ [(c, k + n')]), F2'. split; [by rewrite <- app_assoc|]. by rewrite prv_snoc.
  - change (size h2 base = 0). destruct (Hbef [] T eq_refl) as [_ E]. cbn in E. rewrite E. apply (hi_base _ _ _ Hinv).
  - intros x Hx. change (size h2 x.1 = x.2). rewrite !elem_of_app, list_elem_of_singleton in Hx.
    destruct Hx as [Hx|[->|Hx]].
    + rewrite <- (hi_size _ _ _ Hinv x) by (rewrite HF1; set_solver). apply list_elem_of_split in Hx as (G & K & HG).
      rewrite <- (prv_snoc base G x). apply (Hbef (G ++ [x]) K). by rewrite HG, <- app_assoc.
    + cbn [fst snd]. congruence.
    + rewrite <- (hi_size _ _ _ Hinv x) by (rewrite HF2; set_solver). by apply written_after.
  - intros b m Hb. by apply written_live.
  - rewrite Hb2, Hb1. apply (written_placed T [(c, k)]); [done|]. right. by exists c, k.
Qed.
End written.
End free.

Lemma free_spec h F L a n : heap_inv h F L -> L !! a = Some n ->
  exists h' F', free (a + 8) h = Ok h' /\ heap_inv h' F' (delete a L) /\ keeps (delete a L) h h' /\
    brk h' = brk h /\ (length F' <= S (length F))%nat /\ exists y, y ∈ F' /\ n <= y.2.
Proof.
  intros Hinv Ha. pose proof (hi_placed _ _ _ Hinv) as Hpl.
  destruct (place_split _ _ _ _ _ Hpl Ha) as (F1 & F2 & -> & Hlow & Hhigh).
  pose proof (pl_live _ _ _ Hpl _ _ Ha) as Hia. pose proof (pl_end _ _ _ Hpl) as Hend. unfold inside in Hia. cbn in Hia.
  unfold free, hsize. rewrite u32_small by lia. replace (a + 8 - 8) with a by lia.
  destruct (hi_freep _ _ _ Hinv) as (G1 & G2 & HG & ->).
  assert (Hin : forall y, y ∈ F1 ++ F2 -> inside (brk h) y) by (intros y; by apply (placed_in _ _ _ _ Hpl)).
  rewrite (find_spec h F1 F2 a) with (G2 := G2); [|apply Hinv|apply Hpl| | | | |done|by apply (enough_ring h _ L)].
  2:{ intros y Hy. destruct (Hin y Hy) as (? & ? & ?). lia. }
  2:{ intros y Hy. specialize (Hlow y Hy). destruct (Hin y) as (? & ? & ?); [set_solver|]. lia. }
  2:{ intros y Hy. specialize (Hhigh y Hy). lia. }
  2:{ lia. }
  cbn [mbind res_bind].
  destruct (join_upper_spec h F1 F2 L a n Hinv Ha Hlow Hhigh) as (M & F2' & n' & HF2 & Hh1 & HM & Hgap).
  pose proof (f_equal length HF2) as HFl. rewrite length_app in HFl.
  destruct (n'_range h F1 F2 L a n Hinv Ha Hlow Hhigh M F2' n' HF2 HM) as [Hnn Hnb].
  destruct (join_lower_spec h F1 F2 L a n Hinv Ha Hlow Hhigh _ F2' n' Hh1 ltac:(lia) Hnb)
    as [[Hh2 Hlt]|(T & c & k & HF1 & Hck & Hh2)].
  - eexists _, _. split; [reflexivity|].
    split; [by apply (free_alone h F1 F2 L a n Hinv Ha Hlow Hhigh M F2' n' _ _ _ _ HF2 HM Hgap Hh1 Hh2)|].
    split; [exact (written_keeps h F1 F2 L a n Hinv Ha F2' n' _ _ _ _ Hh1 Hh2)|]. split.
    + destruct Hh1 as (_ & _ & _ & _ & <-), Hh2 as (_ & _ & _ & _ & <-). done.
    + split; [rewrite !length_app, HFl; cbn [length]; unfold block in *; lia|]. exists (a, n'). split; [set_solver|done].
  - assert (Hpc : prv F1 = c) by (rewrite HF1; apply prv_snoc). rewrite <- Hpc in Hh2 at 1.
    eexists _, _. split; [reflexivity|].
    split; [by apply (free_merged h F1 F2 L a n Hinv Ha Hlow Hhigh M F2' n' _ _ _ _ HF2 HM Hgap Hh1 Hh2 T c k)|].
    split; [exact (written_keeps h F1 F2 L a n Hinv Ha F2' n' _ _ _ _ Hh1 Hh2)|]. split.
    + destruct Hh1 as (_ & _ & _ & _ & <-), Hh2 as (_ & _ & _ & _ & <-). done.
    + split; [rewrite HF1, !length_app, HFl; cbn [length]; unfold block in *; lia|]. exists (c, k + n'). split; [set_solver|]. cbn.
      destruct (Hin (c, k)) as (_ & ? & _); [rewrite HF1; set_solver|]. cbn in *. lia.
Qed.

(** ** Taking a block *)

Definition part (x y : block) : Prop := x.1 <= y.1 /\ y.1 + 8 * y.2 <= x.1 + 8 * x.2 /\ 1 <= y.2.

(** The free block [x] is cut into the free blocks [M] and the allocated one. *)
Lemma placed_cut b F1 x M F2 L a nu : placed b (F1 ++ x :: F2) L -> part x (a, nu) ->
  StronglySorted gap M -> (forall y, y ∈ M -> part x y /\ disj (a, nu) y) ->
  placed b (F1 ++ M ++ F2) (<[a := nu]> L) /\ L !! a = None.
Proof.
  intros [He Hs Hf Hl Hap Hd] Ha HsM HM. apply StronglySorted_app in Hs as (HF & Hs1 & Hs).
  apply StronglySorted_cons in Hs as [Hx2 Hs2]. rewrite Forall_forall in Hx2, Hf.
  assert (Hix : inside b x) by (apply Hf; set_solver). unfold part in *. cbn in Ha.
  assert (H1 : forall y z, y ∈ F1 -> z ∈ x :: F2 -> gap y z) by done.
  assert (Hel : forall y, y ∈ F1 ++ M ++ F2 -> (y ∈ F1 ++ x :: F2 /\ disj x y) \/ y ∈ M).
  { intros y. rewrite !elem_of_app. intros [Hy|[Hy|Hy]]; [left|by right|left]; (split; [set_solver|]).
    - right. specialize (H1 y x Hy ltac:(left)). unfold gap in H1. lia.
    - left. specialize (Hx2 y Hy). unfold gap in Hx2. lia. }
  split; [constructor|].
  - done.
  - apply StronglySorted_app_2; [|done|apply StronglySorted_app_2; [|done|done]].
    + intros y z Hy Hz. apply elem_of_app in Hz as [Hz|Hz]; [|apply H1; [done|by right]].
      specialize (H1 y x Hy ltac:(left)). destruct (HM z Hz) as [(? & ? & ?) _]. unfold gap in *. lia.
    + intros y z Hy Hz. specialize (Hx2 z Hz). destruct (HM y Hy) as [(? & ? & ?) _]. unfold gap in *. lia.
  - apply Forall_forall. intros y Hy. destruct (Hel y Hy) as [[Hy' _]|Hy']; [by apply Hf|].
    destruct (HM y Hy') as [(? & ? & ?) _]. unfold inside in *. lia.
  - intros a' n' [[<- <-]|[_ H']]%lookup_insert_Some; [unfold inside in *; cbn; lia|by apply Hl].
  - intros a' n' y [[<- <-]|[Hne H']]%lookup_insert_Some Hy; destruct (Hel y Hy) as [[Hy' Hxy]|Hy'].
    + unfold disj in *. cbn. lia.
    + by apply HM.
    + by apply Hap.
    + destruct (HM y Hy') as [(? & ? & ?) _]. specialize (Hap a' n' x H' ltac:(set_solver)). unfold disj in *. cbn in *. lia.
  - intros a1 n1 a2 n2 [[<- <-]|[Hne1 H1']]%lookup_insert_Some [[<- <-]|[Hne2 H2']]%lookup_insert_Some Hn; [done|..].
    + specialize (Hap a2 n2 x H2' ltac:(set_solver)). unfold disj in *. cbn in *. lia.
    + specialize (Hap a1 n1 x H1' ltac:(set_solver)). unfold disj in *. cbn in *. lia.
    + by apply Hd.
  - destruct (L !! a) as [n|] eqn:E; [|done]. specialize (Hap a n x E ltac:(set_solver)).
    specialize (Hl a n E). unfold inside in Hl. unfold disj in Hap. cbn in *. lia.
Qed.

(** All of a block: it leaves the ring. *)
Lemma take_whole h F1 p m F2 L : heap_inv h (F1 ++ (p, m) :: F2) L ->
  let h' := with_freep (set_ptr h (prv F1) (ptr h p)) (prv F1) in
  heap_inv h' (F1 ++ F2) (<[p := m]> L) /\ L !! p = None /\ keeps L h h'.
Proof.
  intros Hinv h'. pose proof (hi_placed _ _ _ Hinv) as Hpl.
  assert (Hpm : (p, m) ∈ F1 ++ (p, m) :: F2) by set_solver.
  pose proof (placed_in _ _ _ _ Hpl Hpm) as Hip. unfold inside in Hip. cbn in Hip.
  destruct (placed_cut _ F1 (p, m) [] F2 L p m Hpl) as [Hpl' HLp];
    [unfold part; cbn; lia|constructor|by intros y Hy%elem_of_nil|].
  pose proof (set_header_ptr h (prv F1) (ptr h p)) as Hh.
  assert (Hoth : forall y, other (prv F1) y -> ptr h' y = ptr h y /\ size h' y = size h y).
  { intros y Hy. by apply (header_other _ _ _ _ _ _ Hh). }
  assert (Hsame : size h' (prv F1) = size h (prv F1)) by (by destruct Hh as (_ & ? & _)).
  assert (Hnp : ptr h p = nxt F2).
  { pose proof (hi_ring _ _ _ Hinv (F1 ++ [(p, m)]) F2) as Hr. rewrite prv_snoc in Hr. apply Hr. by rewrite <- app_assoc. }
  assert (Hsz : forall y, y ∈ F1 ++ (p, m) :: F2 -> size h' y.1 = y.2).
  { intros y Hy. rewrite <- (hi_size _ _ _ Hinv y Hy). apply elem_of_app in Hy as [Hy|Hy].
    - destruct (before_other _ _ _ _ _ Hpl Hy) as [->|Ho]; [done|by apply Hoth].
    - apply Hoth. by apply (after_other _ _ _ _ _ Hpl). }
  split_and!; [constructor| |].
  - apply (ring_replace base (word h) (word h') F1 [(p, m)] [] F2); [apply (hi_ring _ _ _ Hinv)|..].
    + intros G H HG Hn. apply Hoth. rewrite HG. apply (prefix_other _ _ _ G H ((p, m) :: F2) Hpl); [by rewrite HG|done].
    + intros x Hx. apply Hoth. eapply after_other; [exact Hpl|by right].
    + intros A B HAB. symmetry in HAB. apply app_nil in HAB as [-> ->]. rewrite app_nil_r. cbn [app].
      rewrite <- Hnp. by destruct Hh as (? & _).
  - by exists F1, F2.
  - rewrite <- (hi_base _ _ _ Hinv). destruct (decide (F1 = [])) as [E|Hn]; [assert (Eb : prv F1 = base) by (by rewrite E); by rewrite Eb in Hsame|].
    apply Hoth. by apply (prefix_other _ _ _ [] F1 ((p, m) :: F2) Hpl).
  - intros x Hx. apply Hsz. set_solver.
  - intros b n [[<- <-]|[Hne Hb]]%lookup_insert_Some; [by apply (Hsz (p, m))|].
    rewrite <- (hi_live _ _ _ Hinv _ _ Hb). apply Hoth, other_sym. exact (live_prv _ _ _ _ _ F1 _ Hpl Hb eq_refl).
  - exact Hpl'.
  - done.
  - intros b n x Hb Hx. destruct (payload_prv _ _ _ _ _ F1 _ x Hpl Hb eq_refl Hx) as [? ?].
    destruct Hh as (_ & _ & Hw & _). by apply Hw.
Qed.

(** The end of a block. *)
Lemma take_part h F1 p m F2 L nu : heap_inv h (F1 ++ (p, m) :: F2) L -> 1 <= nu < m ->
  let a := p + 8 * (m - nu) in
  let h' := with_freep (set_size (set_size h p (m - nu)) a nu) (prv F1) in
  heap_inv h' (F1 ++ [(p, m - nu)] ++ F2) (<[a := nu]> L) /\ L !! a = None /\ keeps L h h'.
Proof.
  intros Hinv Hnu a h'. pose proof (hi_placed _ _ _ Hinv) as Hpl.
  assert (Hpm : (p, m) ∈ F1 ++ (p, m) :: F2) by set_solver.
  pose proof (placed_in _ _ _ _ Hpl Hpm) as Hip. unfold inside in Hip. cbn in Hip.
  destruct (placed_cut _ F1 (p, m) [(p, m - nu)] F2 L a nu Hpl) as [Hpl' HLa].
  { unfold part, a. cbn. lia. }
  { by repeat constructor. }
  { intros y ->%list_elem_of_singleton. unfold part, disj, a. cbn. lia. }
  assert (Hw : forall x, x <> p + 4 -> x <> a + 4 -> word h' x = word h x).
  { intros x H1 H2. unfold h', set_size. cbn [word with_freep]. rewrite !word_set.
    destruct (Z.eqb_spec x (a + 4)), (Z.eqb_spec x (p + 4)); done. }
  assert (Hout : forall y, disj (p, m) y -> 1 <= y.2 -> ptr h' y.1 = ptr h y.1 /\ size h' y.1 = size h y.1).
  { intros y Hd Hy. unfold ptr, size. unfold disj in Hd. cbn in Hd. rewrite !Hw by lia. done. }
  assert (Hbw : ptr h' base = ptr h base /\ size h' base = size h base).
  { unfold ptr, size. rewrite !Hw by lia. done. }
  assert (Hpp : ptr h' p = ptr h p) by (apply Hw; lia).
  assert (Hps : size h' p = m - nu /\ size h' a = nu).
  { unfold h', set_size, size. cbn [word with_freep]. rewrite !word_set. rewrite !Z.eqb_refl.
    destruct (Z.eqb_spec (p + 4) (a + 4)); [lia|done]. }
  pose proof (pl_sorted _ _ _ Hpl) as Hs. apply StronglySorted_app in Hs as (HF & _ & Hs).
  apply StronglySorted_cons in Hs as [Hg _]. rewrite Forall_forall in Hg.
  assert (Hdis : forall y, y ∈ F1 ++ F2 -> disj (p, m) y /\ 1 <= y.2).
  { intros y Hy. assert (Hi : inside (brk h) y) by (apply (placed_in _ _ _ _ Hpl); set_solver). unfold inside in Hi.
    apply elem_of_app in Hy as [Hy|Hy].
    - specialize (HF y (p, m) Hy ltac:(left)). unfold gap, disj in *. cbn in *. lia.
    - specialize (Hg y Hy). unfold gap, disj in *. cbn in *. lia. }
  assert (Hptr : forall G K, F1 ++ (p, m) :: F2 = G ++ K -> ptr h' (prv G) = ptr h (prv G)).
  { intros G K HGK. destruct (decide (G = [])) as [->|HG]; [apply Hbw|].
    destruct (prv_last base G HG) as (y & Hy & ->). assert (Hy' : y ∈ F1 ++ (p, m) :: F2) by (rewrite HGK; set_solver).
    rewrite elem_of_app, elem_of_cons in Hy'. destruct Hy' as [Hy'|[->|Hy']]; [|done|]; apply Hout; apply Hdis; set_solver. }
  split_and!; [constructor| |].
  - intros G1 G2 HG. change (ptr h' (prv G1) = nxt G2).
    assert (HG' : exists K1 K2, F1 ++ (p, m) :: F2 = K1 ++ K2 /\ prv K1 = prv G1 /\ nxt K2 = nxt G2).
    { apply app_eq_inv in HG as [(k & -> & ->)|(k & -> & HG)].
      - exists G1, (k ++ (p, m) :: F2). split_and!; [by rewrite app_assoc|done|by destruct k].
      - destruct k as [|x k]; cbn in HG.
        + subst G2. exists F1, ((p, m) :: F2). by rewrite app_nil_r.
        + injection HG as <- HG. exists (F1 ++ (p, m) :: k), G2. split_and!; [by rewrite HG, <- app_assoc| |done].
          destruct k as [|y k]; [by rewrite !prv_snoc|].
          by rewrite !(prv_app base F1) by done. }
    destruct HG' as (K1 & K2 & HK & <- & <-). rewrite (Hptr K1 K2 HK). by apply (hi_ring _ _ _ Hinv).
  - exists F1, ([(p, m - nu)] ++ F2). done.
  - destruct Hbw as [_ ->]. apply (hi_base _ _ _ Hinv).
  - intros x Hx. rewrite !elem_of_app, list_elem_of_singleton in Hx.
    destruct Hx as [Hx|[->|Hx]]; [|apply Hps|]; rewrite <- (hi_size _ _ _ Hinv x) by set_solver; apply Hout; apply Hdis; set_solver.
  - intros b n [[<- <-]|[Hne Hb]]%lookup_insert_Some; [apply Hps|].
    rewrite <- (hi_live _ _ _ Hinv _ _ Hb). apply (Hout (b, n)); [|apply (pl_live _ _ _ Hpl _ _ Hb)].
    pose proof (pl_apart _ _ _ Hpl _ _ _ Hb Hpm) as Hd. unfold disj in *. cbn in *. lia.
  - exact Hpl'.
  - done.
  - intros b n x Hb Hx. pose proof (pl_apart _ _ _ Hpl _ _ _ Hb Hpm) as Hd. unfold disj in Hd. cbn in Hd.
    apply Hw; unfold a; lia.
Qed.

Lemma take_spec h F1 p m F2 L nu : heap_inv h (F1 ++ (p, m) :: F2) L -> 1 <= nu <= m ->
  exists a h' F', take_block nu (prv F1) p h = (a + 8, h') /\ heap_inv h' F' (<[a := nu]> L) /\
    L !! a = None /\ keeps L h h'.
Proof.
  intros Hinv Hnu. pose proof (hi_placed _ _ _ Hinv) as Hpl. pose proof (pl_end _ _ _ Hpl) as Hend.
  pose proof (placed_in _ _ _ (p, m) Hpl ltac:(set_solver)) as Hip. unfold inside in Hip. cbn in Hip.
  assert (Hsz : size h p = m) by (apply (hi_size _ _ _ Hinv (p, m)); set_solver).
  unfold take_block. rewrite Hsz. destruct (Z.eqb_spec m nu) as [->|Hne].
  - exists p, (with_freep (set_ptr h (prv F1) (ptr h p)) (prv F1)), (F1 ++ F2).
    unfold hadd, hsize. rewrite u32_small by lia. split; [f_equal; lia|]. by apply take_whole.
  - assert (Hs2 : size (set_size h p (m - nu)) p = m - nu).
    { unfold size, set_size. rewrite word_set. by rewrite Z.eqb_refl. }
    rewrite Hs2. unfold hadd, hsize. rewrite !u32_small by (rewrite ?u32_small by lia; lia).
    eexists _, _, _. split; [reflexivity|]. apply take_part; [done|lia].
Qed.

(** ** Allocating *)

Section malloc.
Variable sbrk : Z -> Z -> option Z.
(** What [sbrk] does for an increment: the process grows by it, below the
    kernel. *)
Hypothesis Hsbrk : forall b n b', 0 <= n -> sbrk b n = Some b' -> b' = b + n /\ b' <= 2 ^ 31.

(** The request that is made of the system. *)
Definition chunk (nu : Z) : Z := if nu <? 4096 then 4096 else nu.

Lemma morecore_spec h F L nu : heap_inv h F L -> 1 <= nu -> 8 * nu < 2 ^ 31 ->
  (morecore sbrk nu h = Ok (0, h) /\ sbrk (brk h) (8 * chunk nu) = None) \/
  exists h' F', morecore sbrk nu h = Ok (freep h', h') /\ freep h' <> 0 /\ heap_inv h' F' L /\
    keeps L h h' /\ (length F' <= S (length F))%nat /\ exists y, y ∈ F' /\ nu <= y.2.
Proof.
  intros Hinv H1 Hmax. pose proof (hi_placed _ _ _ Hinv) as Hpl. pose proof Hpl as [He Hs Hf Hl Hap Hd].
  unfold morecore. fold (chunk nu). assert (Hc : nu <= chunk nu /\ 8 * chunk nu < 2 ^ 31 /\ 1 <= chunk nu).
  { unfold chunk. destruct (Z.ltb_spec nu 4096); lia. }
  unfold hsize. rewrite s32_small by lia. rewrite (Z.mul_comm 8 (chunk nu)).
  destruct (sbrk (brk h) (chunk nu * 8)) as [b|] eqn:E; [|by left].
  apply Hsbrk in E as [-> Hb]; [|lia]. right. revert Hc Hb. generalize (chunk nu) as c. intros c Hc Hb.
  remember (brk h) as hp eqn:Ehp.
  set (h1 := set_size (with_brk h (hp + c * 8)) hp c).
  assert (HLhp : L !! hp = None).
  { destruct (L !! hp) as [n|] eqn:E; [|done]. specialize (Hl hp n E). unfold inside in Hl. cbn in Hl. lia. }
  assert (Hw : forall y, inside hp y -> ptr h1 y.1 = ptr h y.1 /\ size h1 y.1 = size h y.1).
  { intros y (? & ? & ?). unfold h1, ptr, size, set_size. rewrite !word_set. cbn [word with_brk].
    destruct (Z.eqb_spec y.1 (hp + 4)), (Z.eqb_spec (y.1 + 4) (hp + 4)); lia || done. }
  assert (Hbw : ptr h1 base = ptr h base /\ size h1 base = size h base).
  { unfold h1, ptr, size, set_size. rewrite !word_set. cbn [word with_brk].
    destruct (Z.eqb_spec base (hp + 4)), (Z.eqb_spec (base + 4) (hp + 4)); lia || done. }
  rewrite Forall_forall in Hf.
  assert (Hinv1 : heap_inv h1 F (<[hp := c]> L)).
  { constructor.
    - intros G1 G2 HG. change (ptr h1 (prv G1) = nxt G2). rewrite <- (hi_ring _ _ _ Hinv G1 G2 HG).
      destruct (decide (G1 = [])) as [->|Hn]; [apply Hbw|]. destruct (prv_last base G1 Hn) as (y & Hy & ->).
      apply Hw, Hf. rewrite HG. set_solver.
    - apply (hi_freep _ _ _ Hinv).
    - destruct Hbw as [_ ->]. apply (hi_base _ _ _ Hinv).
    - intros x Hx. rewrite <- (hi_size _ _ _ Hinv x Hx). by apply Hw, Hf.
    - intros a n [[<- <-]|[_ Ha]]%lookup_insert_Some.
      + unfold h1, size, set_size. rewrite word_set. by rewrite Z.eqb_refl.
      + rewrite <- (hi_live _ _ _ Hinv _ _ Ha). apply (Hw (a, n)), (Hl _ _ Ha).
    - cbn [brk h1 set_size set_word with_brk]. constructor; [lia|done| | | |].
      + apply Forall_forall. intros x Hx. destruct (Hf x Hx) as (? & ? & ?). unfold inside. lia.
      + intros a n [[<- <-]|[_ Ha]]%lookup_insert_Some; [unfold inside; cbn; lia|].
        destruct (Hl a n Ha) as (? & ? & ?). unfold inside. lia.
      + intros a n x [[<- <-]|[_ Ha]]%lookup_insert_Some Hx; [|by apply Hap].
        right. cbn. destruct (Hf x Hx) as (? & ? & ?). done.
      + intros a n a' n' [[<- <-]|[_ Ha]]%lookup_insert_Some [[<- <-]|[_ Ha']]%lookup_insert_Some Hne; [done| | |by apply Hd].
        * right. cbn. apply (Hl _ _ Ha').
        * left. cbn. apply (Hl _ _ Ha). }
  destruct (free_spec h1 F _ hp c Hinv1) as (h' & F' & Hfree & Hinv' & Hk & Hbr & Hlen & y & Hy & Hyc); [by rewrite lookup_insert_eq|].
  rewrite delete_insert_id in Hinv', Hk by done.
  assert (Hhp : hadd hp 1 = hp + 8) by (unfold hadd, hsize; rewrite u32_small; lia).
  exists h', F'. rewrite Hhp, Hfree. cbn [mbind res_bind]. split_and!; [done| |done| |done|exists y; split; [done|lia]].
  - destruct (hi_freep _ _ _ Hinv') as (G1 & G2 & HG & ->). destruct (decide (G1 = [])) as [->|Hn]; [cbn; lia|].
    destruct (prv_last base G1 Hn) as (z & Hz & ->).
    destruct (placed_in _ _ _ z (hi_placed _ _ _ Hinv') ltac:(rewrite HG; set_solver)) as (? & _). lia.
  - intros a n x Ha Hx. rewrite (Hk a n x Ha Hx). unfold h1, set_size. rewrite word_set. cbn [word with_brk].
    destruct (Hl a n Ha) as (? & ? & ?). cbn in *. destruct (Z.eqb_spec x (hp + 4)); [lia|done].
Qed.

(** What follows a lap without success. *)
Definition core (nu : Z) (fuel : nat) (h : heap) : res (Z * heap) :=
  '(p, h) ← morecore sbrk nu h;
  if p =? 0 then Ok (0, h) else malloc_loop sbrk fuel nu p (ptr h p) h.

Section search.
Variables (h : heap) (A0 B0 : list block) (L : gmap Z Z) (nu : Z).
Hypothesis Hinv : heap_inv h (A0 ++ B0) L.
Hypothesis Hfp : freep h = prv A0.
Hypothesis Hnu : 1 <= nu.

(** The loop has found a block. *)
Definition fits (m : res (Z * heap)) : Prop :=
  exists G1 x G2, A0 ++ B0 = G1 ++ x :: G2 /\ nu <= x.2 /\ m = Ok (take_block nu (prv G1) x.1 h).

Lemma ring_order G x K : A0 ++ B0 = G ++ x :: K -> prv G < x.1.
Proof.
  intros He. pose proof (hi_placed _ _ _ Hinv) as Hpl. apply (sorted_prv base G x K); rewrite <- He; [apply Hpl|].
  intros y Hy. destruct (placed_in _ _ _ y Hpl Hy) as (? & ? & ?). lia.
Qed.

Lemma loop_step G x K fuel : A0 ++ B0 = G ++ x :: K -> x.2 < nu -> x.1 <> freep h ->
  malloc_loop sbrk (S fuel) nu (prv G) x.1 h = malloc_loop sbrk fuel nu (prv (G ++ [x])) (nxt K) h.
Proof.
  intros He Hx Hne. cbn [malloc_loop]. rewrite (hi_size _ _ _ Hinv x) by (rewrite He; set_solver).
  destruct (Z.leb_spec nu x.2); [lia|]. destruct (Z.eqb_spec x.1 (freep h)); [done|].
  rewrite prv_snoc. f_equal. pose proof (hi_ring _ _ _ Hinv (G ++ [x]) K) as Hr. rewrite prv_snoc in Hr.
  apply Hr. by rewrite He, <- app_assoc.
Qed.

Lemma loop_fits G x K fuel : A0 ++ B0 = G ++ x :: K -> nu <= x.2 ->
  fits (malloc_loop sbrk (S fuel) nu (prv G) x.1 h).
Proof.
  intros He Hx. exists G, x, K. split_and!; [done|done|]. cbn [malloc_loop].
  rewrite (hi_size _ _ _ Hinv x) by (rewrite He; set_solver). by destruct (Z.leb_spec nu x.2); [|lia].
Qed.

(** From the start of the list to [freep]. *)
Lemma loop_second H A fuel : A0 = A ++ H -> H <> [] -> (length H <= fuel)%nat ->
  fits (malloc_loop sbrk fuel nu (prv A) (nxt H) h) \/
  (Forall (fun x => x.2 < nu) H /\ exists fuel', (fuel = fuel' + length H)%nat /\
     malloc_loop sbrk fuel nu (prv A) (nxt H) h = core nu fuel' h).
Proof.
  revert A fuel. induction H as [|x H IH]; intros A fuel HA Hn Hf; [done|]. destruct fuel as [|fuel]; [cbn in Hf; lia|].
  cbn [nxt]. assert (He : A0 ++ B0 = A ++ x :: (H ++ B0)) by (by rewrite HA, <- app_assoc).
  destruct (Z.le_gt_cases nu x.2) as [Hx|Hx]; [left; by eapply loop_fits|].
  destruct H as [|y H].
  - right. split; [by repeat constructor|]. exists fuel. split; [cbn; lia|]. cbn [malloc_loop].
    rewrite (hi_size _ _ _ Hinv x) by (rewrite He; set_solver). destruct (Z.leb_spec nu x.2); [lia|].
    assert (Hxf : x.1 = freep h) by (rewrite Hfp, HA; by rewrite prv_snoc). rewrite Hxf, Z.eqb_refl. done.
  - assert (Hne : x.1 <> freep h).
    { rewrite Hfp, HA. change (x :: y :: H) with ([x] ++ y :: H). rewrite app_assoc, prv_app by done.
      destruct (prv_last base (y :: H)) as (z & Hz & ->); [done|].
      pose proof (pl_sorted _ _ _ (hi_placed _ _ _ Hinv)) as Hs. rewrite He in Hs.
      apply StronglySorted_app in Hs as (_ & _ & Hs). apply StronglySorted_cons in Hs as [Hs _].
      rewrite Forall_forall in Hs. specialize (Hs z ltac:(set_solver)).
      destruct (placed_in _ _ _ x (hi_placed _ _ _ Hinv) ltac:(rewrite He; set_solver)) as (_ & ? & _). unfold gap in Hs. lia. }
    rewrite (loop_step A x ((y :: H) ++ B0)) by done. rewrite nxt_app by done.
    destruct (IH (A ++ [x]) fuel) as [Hl|[Hall (fuel' & Hfu & ->)]]; [by rewrite HA, <- app_assoc|done|cbn in *; lia|by left|].
    right. split; [by constructor|]. exists fuel'. split; [cbn in *; lia|done].
Qed.

(** From [freep] to the end of the list, and on. *)
Lemma loop_first B K fuel : B0 = K ++ B -> (length B + 1 + length A0 <= fuel)%nat ->
  fits (malloc_loop sbrk fuel nu (prv (A0 ++ K)) (nxt B) h) \/
  (Forall (fun x => x.2 < nu) B /\ Forall (fun x => x.2 < nu) A0 /\
   exists fuel', (fuel = fuel' + (length B + 1 + length A0))%nat /\
     malloc_loop sbrk fuel nu (prv (A0 ++ K)) (nxt B) h = core nu fuel' h).
Proof.
  revert K fuel. induction B as [|x B IH]; intros K fuel HB Hf; (destruct fuel as [|fuel]; [lia|]).
  - cbn [nxt malloc_loop]. rewrite (hi_base _ _ _ Hinv). destruct (Z.leb_spec nu 0); [lia|].
    destruct (decide (A0 = [])) as [HA|HA].
    + right. split; [done|]. split; [by rewrite HA|]. exists fuel. split; [rewrite HA; cbn; lia|].
      assert (base = freep h) as -> by (rewrite Hfp, HA; done). by rewrite Z.eqb_refl.
    + assert (Hne : base <> freep h).
      { rewrite Hfp. destruct (prv_last base A0 HA) as (z & Hz & ->).
        destruct (placed_in _ _ _ z (hi_placed _ _ _ Hinv) ltac:(set_solver)) as (? & _). lia. }
      destruct (Z.eqb_spec base (freep h)); [done|].
      assert (Hpb : ptr h base = nxt A0).
      { pose proof (hi_ring _ _ _ Hinv [] (A0 ++ B0) eq_refl) as Hr. rewrite nxt_app in Hr by done. exact Hr. }
      rewrite Hpb. destruct (loop_second A0 [] fuel) as [Hl|[Hall (fuel' & Hfu & Hl)]]; [done|done|cbn in Hf; lia|by left|].
      right. split; [done|]. split; [done|]. exists fuel'. split; [cbn; lia|exact Hl].
  - cbn [nxt]. assert (He : A0 ++ B0 = (A0 ++ K) ++ x :: B) by (by rewrite HB, app_assoc).
    destruct (Z.le_gt_cases nu x.2) as [Hx|Hx]; [left; by eapply loop_fits|].
    assert (Hne : x.1 <> freep h).
    { pose proof (ring_order _ _ _ He) as Hlt. rewrite Hfp. destruct (decide (K = [])) as [->|HK]; [rewrite app_nil_r in Hlt; lia|].
      pose proof (ring_order A0) as H0. destruct K as [|y K]; [done|].
      specialize (H0 y (K ++ x :: B)). rewrite He, <- app_assoc in H0. specialize (H0 eq_refl).
      pose proof (pl_sorted _ _ _ (hi_placed _ _ _ Hinv)) as Hs. rewrite He, <- app_assoc in Hs.
      apply StronglySorted_app in Hs as (_ & _ & Hs). cbn in Hs. apply StronglySorted_cons in Hs as [Hs _].
      rewrite Forall_forall in Hs. specialize (Hs x ltac:(set_solver)).
      destruct (placed_in _ _ _ y (hi_placed _ _ _ Hinv) ltac:(rewrite He; set_solver)) as (_ & ? & _). unfold gap in Hs. lia. }
    rewrite (loop_step (A0 ++ K) x B) by done. rewrite <- app_assoc.
    destruct (IH (K ++ [x]) fuel) as [Hl|(Hall & HA & fuel' & Hfu & ->)]; [by rewrite HB, <- app_assoc|cbn in Hf; lia|by left|].
    right. split; [by constructor|]. split; [done|]. exists fuel'. split; [cbn in *; lia|done].
Qed.
End search.

(** The whole lap. *)
Lemma search_spec h F L nu fuel : heap_inv h F L -> 1 <= nu -> (length F + 1 <= fuel)%nat ->
  (exists G1 x G2, F = G1 ++ x :: G2 /\ nu <= x.2 /\
     malloc_loop sbrk fuel nu (freep h) (ptr h (freep h)) h = Ok (take_block nu (prv G1) x.1 h)) \/
  (Forall (fun x => x.2 < nu) F /\ exists fuel', (fuel = fuel' + (length F + 1))%nat /\
     malloc_loop sbrk fuel nu (freep h) (ptr h (freep h)) h = core nu fuel' h).
Proof.
  intros Hinv Hnu Hf. destruct (hi_freep _ _ _ Hinv) as (A0 & B0 & -> & Hfp). rewrite length_app in Hf.
  assert (Hpn : ptr h (freep h) = nxt B0) by (rewrite Hfp; by apply (hi_ring _ _ _ Hinv)).
  rewrite Hpn. pose proof (loop_first h A0 B0 L nu Hinv Hfp Hnu B0 [] fuel eq_refl ltac:(lia)) as Hl.
  rewrite app_nil_r, <- Hfp in Hl. destruct Hl as [Hl|(HB & HA & fuel' & Hfu & Hl)]; [left; exact Hl|].
  right. split; [by apply Forall_app|]. exists fuel'. split; [rewrite length_app; lia|exact Hl].
Qed.

(** ** [malloc] *)

Definition units (nb : Z) : Z := (nb + 7) / 8 + 1.

Lemma units_range nb : 0 <= nb < 2 ^ 31 - 16 -> 1 <= units nb /\ 8 * units nb < 2 ^ 31 /\ nb + 8 <= 8 * units nb.
Proof.
  intros H. unfold units. pose proof (Z.div_mod (nb + 7) 8 ltac:(lia)). pose proof (Z.mod_pos_bound (nb + 7) 8 ltac:(lia)). lia.
Qed.

(** The block [malloc] returns for the units asked. *)
Definition gives (nu : Z) (h : heap) (L : gmap Z Z) (m : res (Z * heap)) : Prop :=
  exists a h' F', m = Ok (a + 8, h') /\ base < a /\ heap_inv h' F' (<[a := nu]> L) /\ L !! a = None /\ keeps L h h'.

Lemma take_gives h F1 x F2 L nu : heap_inv h (F1 ++ x :: F2) L -> 1 <= nu <= x.2 ->
  gives nu h L (Ok (take_block nu (prv F1) x.1 h)).
Proof.
  intros Hinv Hnu. destruct x as [p m]. cbn [fst snd] in *. destruct (take_spec _ _ _ _ _ _ _ Hinv Hnu) as (a & h' & F' & -> & Hi & HL & Hk).
  exists a, h', F'. split_and!; try done.
  destruct (pl_live _ _ _ (hi_placed _ _ _ Hi) a nu) as (? & _); [apply lookup_insert_eq|]. cbn in *. lia.
Qed.

Lemma take_brk nu prevp p h : brk (take_block nu prevp p h).2 = brk h.
Proof. unfold take_block. by destruct (_ =? _). Qed.

Lemma Forall_small_not (F : list block) nu y : Forall (fun x => x.2 < nu) F -> y ∈ F -> ~ nu <= y.2.
Proof. intros HF Hy. rewrite Forall_forall in HF. specialize (HF y Hy). lia. Qed.

Lemma loop_spec h F L nu : heap_inv h F L -> 1 <= nu -> 8 * nu < 2 ^ 31 ->
  let m := malloc_loop sbrk (2 * enough h + 2) nu (freep h) (ptr h (freep h)) h in
  (gives nu h L m /\ ((exists y, y ∈ F /\ nu <= y.2) -> exists r, m = Ok r /\ brk r.2 = brk h)) \/
  (m = Ok (0, h) /\ sbrk (brk h) (8 * chunk nu) = None /\ forall y, y ∈ F -> ~ nu <= y.2).
Proof.
  intros Hinv H1 Hmax m. subst m. pose proof (enough_ring h F L (hi_placed _ _ _ Hinv)) as Hen.
  destruct (search_spec h F L nu (2 * enough h + 2) Hinv H1 ltac:(lia))
    as [(G1 & x & G2 & -> & Hx & ->)|(Hall & fuel' & Hfu & ->)].
  - left. split; [by apply (take_gives h G1 x G2)|]. intros _. eexists. split; [reflexivity|apply take_brk].
  - unfold core. destruct (morecore_spec h F L nu Hinv H1 Hmax) as [[E Hs]|(h' & F' & E & Hp & Hi & Hk & Hlen & y & Hy & Hny)]; rewrite E.
    + right. split_and!; [done|exact Hs|]. intros y Hy. by apply (Forall_small_not F).
    + left. cbn. destruct (Z.eqb_spec (freep h') 0); [done|]. split.
      2:{ intros (z & Hz & Hnz). by destruct (Forall_small_not F nu z). }
      destruct (search_spec h' F' L nu fuel' Hi H1 ltac:(lia)) as [(G1 & x & G2 & -> & Hx & ->)|(Hall' & _)].
      2:{ by destruct (Forall_small_not F' nu y). }
      destruct (take_gives h' G1 x G2 L nu Hi ltac:(lia)) as (a & h'' & F'' & Et & Hba & Hi' & HL & Hk').
      exists a, h'', F''. split_and!; try done. intros b k z Hb Hz. rewrite (Hk' b k z Hb Hz). by apply (Hk b k z).
Qed.

(** Before the first call there is no list; after it, the list is in order. *)
Definition ready (h : heap) (F : list block) (L : gmap Z Z) : Prop :=
  (freep h = 0 /\ F = [] /\ L = ∅ /\ base + 8 <= brk h <= 2 ^ 31) \/ heap_inv h F L.

Lemma first_inv h : base + 8 <= brk h <= 2 ^ 31 ->
  heap_inv (set_size (with_freep (set_ptr h base base) base) base 0) [] ∅.
Proof.
  intros Hb. constructor.
  - intros F1 F2 He. symmetry in He. apply app_nil in He as [-> ->]. cbn.
    destruct (Z.eqb_spec base (base + 4)); [lia|]. by rewrite Z.eqb_refl.
  - by exists [], [].
  - unfold size, set_size. rewrite word_set. by rewrite Z.eqb_refl.
  - intros x Hx. by apply elem_of_nil in Hx.
  - done.
  - constructor; try done; constructor.
Qed.

Lemma malloc_spec h F L nb : ready h F L -> 0 <= nb < 2 ^ 31 - 16 ->
  let m := malloc base sbrk nb h in
  (gives (units nb) h L m /\ ((exists y, y ∈ F /\ units nb <= y.2) -> exists r, m = Ok r /\ brk r.2 = brk h)) \/
  (exists h', m = Ok (0, h') /\ heap_inv h' F L /\ keeps L h h' /\ sbrk (brk h) (8 * chunk (units nb)) = None /\
     forall y, y ∈ F -> ~ units nb <= y.2).
Proof.
  intros Hr Hnb. cbv zeta. destruct (units_range nb Hnb) as (H1 & H2 & H3).
  assert (Hu : u32 (u32 (nb + hsize - 1) / hsize + 1) = units nb).
  { unfold hsize. rewrite (u32_small (nb + 8 - 1)) by lia. replace (nb + 8 - 1) with (nb + 7) by lia.
    fold (units nb). apply u32_small. lia. }
  unfold malloc. rewrite Hu. destruct Hr as [(Hf & -> & -> & Hb)|Hinv].
  - rewrite Hf. cbn [Z.eqb]. set (h0 := set_size _ base 0).
    destruct (loop_spec h0 [] ∅ (units nb) (first_inv h Hb) H1 H2) as [[Hg _]|(-> & Hs & Hno)]; [left|right].
    + split; [|intros (y & Hy & _); by apply elem_of_nil in Hy].
      destruct Hg as (a & h' & F' & -> & Hba & Hi & HL & _). by exists a, h', F'.
    + exists h0. split_and!; try done. by apply first_inv.
  - assert (Hfp : freep h <> 0).
    { destruct (hi_freep _ _ _ Hinv) as (G1 & G2 & -> & ->). destruct (decide (G1 = [])) as [->|Hn]; [cbn; lia|].
      destruct (prv_last base G1 Hn) as (z & Hz & ->).
      destruct (placed_in _ _ _ z (hi_placed _ _ _ Hinv) ltac:(set_solver)) as (? & _). lia. }
    destruct (Z.eqb_spec (freep h) 0); [done|].
    destruct (loop_spec h F L (units nb) Hinv H1 H2) as [Hg|(-> & Hs & Hno)]; [by left|right].
    exists h. by split_and!.
Qed.

(** ** The heap of a running program *)

(** [M] maps the addresses [malloc] returned and the program has not freed to
    the bytes asked.  Between calls the program writes to its blocks, and grows. *)
Inductive reach : heap -> gmap Z Z -> Prop :=
  | reach_start w b : base + 8 <= b <= 2 ^ 31 -> reach {| word := w; freep := 0; brk := b |} ∅
  | reach_malloc h M nb ap h' : reach h M -> 0 <= nb < 2 ^ 31 - 16 -> malloc base sbrk nb h = Ok (ap, h') ->
      ap <> 0 -> reach h' (<[ap := nb]> M)
  | reach_null h M nb h' : reach h M -> 0 <= nb < 2 ^ 31 - 16 -> malloc base sbrk nb h = Ok (0, h') -> reach h' M
  | reach_free h M ap nb h' : reach h M -> M !! ap = Some nb -> free ap h = Ok h' -> reach h' (delete ap M)
  | reach_write h M ap nb a x : reach h M -> M !! ap = Some nb -> ap <= a -> a + 4 <= ap + nb -> reach (set_word h a x) M
  | reach_grow h M b : reach h M -> brk h <= b <= 2 ^ 31 -> reach (with_brk h b) M.

Definition tracks (M L : gmap Z Z) : Prop :=
  forall ap nb, M !! ap = Some nb -> L !! (ap - 8) = Some (units nb) /\ 0 <= nb < 2 ^ 31 - 16.

Definition same (M : gmap Z Z) (h h' : heap) : Prop :=
  forall ap nb a, M !! ap = Some nb -> ap <= a < ap + nb -> word h' a = word h a.

Lemma keeps_same M L h h' : tracks M L -> keeps L h h' -> same M h h'.
Proof.
  intros HM Hk ap nb a Ha Hr. destruct (HM _ _ Ha) as [HL Hnb]. destruct (units_range nb Hnb) as (_ & _ & Hu).
  apply (Hk _ _ a HL). lia.
Qed.

Lemma tracks_insert M L a nb : tracks M L -> 0 <= nb < 2 ^ 31 - 16 -> tracks (<[a + 8 := nb]> M) (<[a := units nb]> L).
Proof.
  intros HM Hnb ap n Ha. destruct (decide (ap = a + 8)) as [->|Hne].
  - rewrite lookup_insert_eq in Ha. injection Ha as <-. replace (a + 8 - 8) with a by lia. by rewrite lookup_insert_eq.
  - rewrite lookup_insert_ne in Ha by done. rewrite lookup_insert_ne by lia. by apply HM.
Qed.

Lemma tracks_delete M L ap : tracks M L -> tracks (delete ap M) (delete (ap - 8) L).
Proof.
  intros HM b n Hb. apply lookup_delete_Some in Hb as [Hne Hb]. rewrite lookup_delete_ne by lia. by apply HM.
Qed.

(** A word of the payload of an allocated block belongs to nothing else. *)
Lemma write_inv h F L a n x v : heap_inv h F L -> L !! a = Some n -> a + 8 <= x < a + 8 * n ->
  heap_inv (set_word h x v) F L.
Proof.
  intros Hinv Ha Hx. pose proof (hi_placed _ _ _ Hinv) as Hpl.
  assert (Hp : forall G K, F = G ++ K -> word (set_word h x v) (prv G) = word h (prv G)).
  { intros G K He. rewrite word_set. destruct (payload_prv _ _ _ _ _ G K x Hpl Ha He Hx) as [? ?].
    by destruct (Z.eqb_spec (prv G) x). }
  constructor.
  - intros G K He. rewrite (Hp G K He). by apply (hi_ring _ _ _ Hinv).
  - apply (hi_freep _ _ _ Hinv).
  - rewrite <- (hi_base _ _ _ Hinv). unfold size. rewrite word_set.
    destruct (payload_prv _ _ _ _ _ [] F x Hpl Ha eq_refl Hx) as [? H4]. cbn in H4. by destruct (Z.eqb_spec (base + 4) x).
  - intros y Hy. rewrite <- (hi_size _ _ _ Hinv y Hy). unfold size. rewrite word_set.
    destruct (payload_not _ _ _ _ _ y x Hpl Ha Hy Hx) as [? ?]. by destruct (Z.eqb_spec (y.1 + 4) x).
  - intros b m Hb. rewrite <- (hi_live _ _ _ Hinv b m Hb). unfold size. rewrite word_set.
    destruct (Z.eqb_spec (b + 4) x) as [He|]; [|done]. exfalso.
    destruct (decide (a = b)) as [->|Hne]; [lia|]. pose proof (pl_disj _ _ _ Hpl _ _ _ _ Ha Hb Hne) as Hd.
    destruct (pl_live _ _ _ Hpl b m Hb) as (_ & ? & _). unfold disj in Hd. cbn in *. lia.
  - exact Hpl.
Qed.

Lemma grow_inv h F L b : heap_inv h F L -> brk h <= b <= 2 ^ 31 -> heap_inv (with_brk h b) F L.
Proof.
  intros [Hr Hf Hb Hs Hl [He Hss Hff Hll Hap Hd]] Hle. constructor; try assumption. cbn. constructor; try assumption.
  - lia.
  - eapply Forall_impl; [exact Hff|]. intros x (? & ? & ?). unfold inside. lia.
  - intros a n Ha. destruct (Hll a n Ha) as (? & ? & ?). unfold inside. lia.
Qed.

Lemma ready_live h F L a n : ready h F L -> L !! a = Some n -> heap_inv h F L.
Proof. intros [(_ & _ & -> & _)|Hi] Ha; [done|exact Hi]. Qed.

Lemma reach_ready h M : reach h M -> exists F L, ready h F L /\ tracks M L.
Proof.
  induction 1 as [w b Hb|h M nb ap h' _ (F & L & Hr & HM) Hnb E Hap|h M nb h' _ (F & L & Hr & HM) Hnb E
    |h M ap nb h' _ (F & L & Hr & HM) Ha E|h M ap nb a x _ (F & L & Hr & HM) Ha H1 H2|h M b _ (F & L & Hr & HM) Hb].
  - exists [], ∅. split; [left; exact (conj eq_refl (conj eq_refl (conj eq_refl Hb)))|]. intros ap nb Ha. done.
  - destruct (malloc_spec h F L nb Hr Hnb) as [[(a & h2 & F' & E2 & _ & Hi & _) _]|(h2 & E2 & _)]; cbv zeta in *;
      rewrite E in E2; injection E2 as -> ->; [|done].
    exists F', (<[a := units nb]> L). split; [by right|by apply tracks_insert].
  - destruct (malloc_spec h F L nb Hr Hnb) as [[(a & h2 & F' & E2 & Hba & _) _]|(h2 & E2 & Hi & _)]; cbv zeta in *;
      rewrite E in E2; injection E2; [lia|intros ->]. exists F, L. split; [by right|done].
  - destruct (HM _ _ Ha) as [HL _]. pose proof (ready_live _ _ _ _ _ Hr HL) as Hi.
    destruct (free_spec _ _ _ _ _ Hi HL) as (h2 & F' & E2 & Hi' & _). replace (ap - 8 + 8) with ap in E2 by lia.
    rewrite E in E2. injection E2 as <-. exists F', (delete (ap - 8) L). split; [by right|by apply tracks_delete].
  - destruct (HM _ _ Ha) as [HL Hnb]. destruct (units_range nb Hnb) as (_ & _ & Hu). exists F, L. split; [right|done].
    apply (write_inv h F L (ap - 8) (units nb)); [by eapply ready_live|done|lia].
  - exists F, L. split; [|done]. destruct Hr as [(? & ? & ? & ?)|Hi]; [left; cbn; repeat split; try assumption; lia|right; by apply grow_inv].
Qed.

(** The blocks a program holds lie in the heap, apart from each other, with room for a header between. *)
Definition separate (h : heap) (M : gmap Z Z) : Prop :=
  (forall ap nb, M !! ap = Some nb -> base + 16 <= ap /\ ap + nb <= brk h) /\
  (forall ap nb ap' nb', M !! ap = Some nb -> M !! ap' = Some nb' -> ap <> ap' ->
     ap + nb + hsize <= ap' \/ ap' + nb' + hsize <= ap).

Lemma tracks_separate h F L M : ready h F L -> tracks M L -> separate h M.
Proof.
  intros Hr HM. split.
  - intros ap nb Ha. destruct (HM _ _ Ha) as [HL Hnb]. destruct (units_range nb Hnb) as (_ & _ & Hu).
    destruct (pl_live _ _ _ (hi_placed _ _ _ (ready_live _ _ _ _ _ Hr HL)) _ _ HL) as (? & ? & ?). cbn in *. lia.
  - intros ap nb ap' nb' Ha Ha' Hne. destruct (HM _ _ Ha) as [HL Hnb]. destruct (HM _ _ Ha') as [HL' Hnb'].
    destruct (units_range nb Hnb) as (_ & _ & Hu). destruct (units_range nb' Hnb') as (_ & _ & Hu').
    pose proof (pl_disj _ _ _ (hi_placed _ _ _ (ready_live _ _ _ _ _ Hr HL)) _ _ _ _ HL HL' ltac:(lia)) as Hd.
    unfold disj in Hd. unfold hsize. cbn in Hd. lia.
Qed.

(** What [malloc] promises: it returns; a block no one holds, or null when the
    kernel has no more memory; and the blocks held keep their contents. *)
Definition malloc_ok (h : heap) (M : gmap Z Z) (nb : Z) : Prop :=
  exists ap h', malloc base sbrk nb h = Ok (ap, h') /\ same M h h' /\
    ((ap <> 0 /\ M !! ap = None /\ separate h' (<[ap := nb]> M)) \/
     (ap = 0 /\ sbrk (brk h) (8 * chunk (units nb)) = None)).

Lemma ready_malloc_ok h F L M nb : ready h F L -> tracks M L -> 0 <= nb < 2 ^ 31 - 16 -> malloc_ok h M nb.
Proof.
  intros Hr HM Hnb. destruct (malloc_spec h F L nb Hr Hnb) as [[(a & h' & F' & E & Hba & Hi & HL & Hk) _]|(h' & E & Hi & Hk & Hs & _)].
  - exists (a + 8), h'. split_and!; [exact E|by apply (keeps_same M L)|]. left. split_and!.
    + lia.
    + destruct (M !! (a + 8)) eqn:Ha; [|done]. destruct (HM _ _ Ha) as [HL' _]. replace (a + 8 - 8) with a in HL' by lia. congruence.
    + eapply tracks_separate; [right; exact Hi|by apply tracks_insert].
  - exists 0, h'. split_and!; [exact E|by apply (keeps_same M L)|]. by right.
Qed.

(** What [free] promises: it returns, the other blocks keep their contents, and
    the memory is available again: the same request succeeds without the kernel. *)
Definition free_ok (h : heap) (M : gmap Z Z) (ap nb : Z) : Prop :=
  exists h', free ap h = Ok h' /\ same (delete ap M) h h' /\ brk h' = brk h /\
    exists ap' h'', malloc base sbrk nb h' = Ok (ap', h'') /\ ap' <> 0 /\ brk h'' = brk h.

Lemma ready_free_ok h F L M ap nb : ready h F L -> tracks M L -> M !! ap = Some nb -> free_ok h M ap nb.
Proof.
  intros Hr HM Ha. destruct (HM _ _ Ha) as [HL Hnb]. pose proof (ready_live _ _ _ _ _ Hr HL) as Hi.
  destruct (free_spec _ _ _ _ _ Hi HL) as (h' & F' & E & Hi' & Hk & Hb & _ & y & Hy & Hn). replace (ap - 8 + 8) with ap in E by lia.
  exists h'. split_and!; [exact E|by apply (keeps_same _ _ _ _ (tracks_delete M L ap HM))|exact Hb|].
  destruct (malloc_spec h' F' _ nb (or_intror Hi') Hnb) as [[(a & h2 & F2 & E2 & Hba & _) Hbrk]|(h2 & _ & _ & _ & _ & Hno)].
  - destruct Hbrk as (r & Er & Hbr); [by exists y|]. exists (a + 8), h2. cbv zeta in *. rewrite E2 in Er. injection Er as <-.
    split_and!; [exact E2|lia|]. cbn in Hbr. congruence.
  - by destruct (Hno y Hy).
Qed.
End malloc.
End alloc.

(** C29. C38: the allocator of the user programs, in every state a program reaches by
    calls of [malloc], calls of [free] on blocks it holds, writes into them and
    growth of the process.  The blocks held lie in the heap and apart from each
    other.  Every request below 2 GB returns: with a block apart from all the others,
    or with null, and then only because the kernel refused to grow the process.
    Freeing a block held returns, and its memory can be allocated again.  The
    contents of the other blocks survive both. *)
Theorem malloc_free_safe base sbrk :
  0 < base ->
  (forall b n b', 0 <= n -> sbrk b n = Some b' -> b' = b + n /\ b' <= 2 ^ 31) ->
  forall h M, reach base sbrk h M ->
  separate base h M /\
  (forall nb, 0 <= nb < 2 ^ 31 - 16 -> malloc_ok base sbrk h M nb) /\
  (forall ap nb, M !! ap = Some nb -> free_ok base sbrk h M ap nb).
Proof.
  intros Hbase Hsbrk h M Hr. destruct (reach_ready base Hbase sbrk Hsbrk h M Hr) as (F & L & HR & HM).
  split_and!; [by eapply tracks_separate|intros; by eapply ready_malloc_ok|intros; by eapply ready_free_ok].
Qed.

(** A process of at most 64 KB, after two allocations. *)
Definition demo_sbrk (b n : Z) : option Z := if b + n <=? 65536 then Some (b + n) else None.
Definition demo_start : heap := {| word := fun _ => 0; freep := 0; brk := 4096 |}.
Definition addr_of (m : res (Z * heap)) : Z := match m with Ok (ap, _) => ap | _ => -1 end.
Definition after (h : heap) (m : res (Z * heap)) : heap := match m with Ok (_, h') => h' | _ => h end.

Lemma after_ok h m ap : addr_of m = ap -> 0 <= ap -> m = Ok (ap, after h m).
Proof. destruct m as [[ap' h']| |]; cbn; intros <- H; [done|lia|lia]. Qed.

Definition demo_one : heap := after demo_start (malloc 512 demo_sbrk 100 demo_start).
Definition demo_run : heap := after demo_one (malloc 512 demo_sbrk 24 demo_one).

Lemma malloc_free_safe_witness :
  exists h', free 36760 demo_run = Ok h' /\ same (delete 36760 (<[36728 := 24]> (<[36760 := 100]> ∅))) demo_run h'.
Proof.
  destruct (malloc_free_safe 512 demo_sbrk) with (h := demo_run) (M := <[36728 := 24]> (<[36760 := 100]> (∅ : gmap Z Z)))
    as (_ & _ & Hf).
  - lia.
  - intros b n b' _. unfold demo_sbrk. destruct (Z.leb_spec (b + n) 65536); [|done]. intros E. injection E as <-. lia.
  - apply (reach_malloc 512 demo_sbrk demo_one _ 24); [|lia|apply after_ok; [vm_compute; reflexivity|lia]|lia].
    apply (reach_malloc 512 demo_sbrk demo_start _ 100); [|lia|apply after_ok; [vm_compute; reflexivity|lia]|lia].
    apply reach_start. lia.
  - destruct (Hf 36760 100) as (h' & E & Hs & _); [reflexivity|]. exists h'. split; [exact E|exact Hs].
Defined.
