(* ===== verification/Vm.v ===== *)
(** * Page tables: [vm.c]

    On the state of the page allocator: page directories and page tables are
    pages, and their entries words of them.  [data] is the start of the kernel's
    data, which the linker provides.  The bytes a call copies from a pointer
    ([init], [val], [p]) are the list of bytes from the pointer on.  Sizes are
    returned as [uint]s: every caller stores the [int] in one.  What
    [seginit], [switchkvm] and [switchuvm] load into the registers of the
    processor is not part of this state. *)

From stdpp Require Import base list strings.
From Stdlib Require Import ZArith Lia.
From S2P Require Import Prelude State Spinlock Kalloc Fs.

Definition PDX (va : Z) : Z := Z.land (Z.shiftr va 22) 0x3FF.
Definition PTX (va : Z) : Z := Z.land (Z.shiftr va 12) 0x3FF.
Definition PGADDR (d t o : Z) : Z := u32 (Z.lor (Z.shiftl d 22) (Z.lor (Z.shiftl t 12) o)).
Definition NPDENTRIES : nat := 1024.
Definition PGROUNDDOWN (a : Z) : Z := Z.land a (Z.lnot (PGSIZE - 1)).

Definition PTE_P : Z := 1.
Definition PTE_W : Z := 2.
Definition PTE_U : Z := 4.
Definition PTE_ADDR (pte : Z) : Z := Z.land pte (Z.lnot 0xFFF).
Definition PTE_FLAGS (pte : Z) : Z := Z.land pte 0xFFF.
(** [pte & flag] as a condition. *)
Definition has (pte flag : Z) : bool := negb (Z.land pte flag =? 0).

Definition EXTMEM : Z := 0x100000.
Definition DEVSPACE : Z := 0xFE000000.
Definition KERNLINK : Z := KERNBASE + EXTMEM.
Definition P2V (a : Z) : Z := u32 (a + KERNBASE).

(** ** Memory *)

Definition with_word (s : kst) (w : Z -> Z) : kst := set_km s (klock (km s)) (kcpu s) (freelist (km s)) w.

(** The byte at an address, little-endian in its word, and a store of one. *)
Definition byte_at (w : Z -> Z) (a : Z) : Z := w (a - a mod 4) / 256 ^ (a mod 4) mod 256.
Definition put_byte (w : Z -> Z) (a b : Z) : Z -> Z :=
  set_word w (a - a mod 4) (w (a - a mod 4) + (b - byte_at w a) * 256 ^ (a mod 4)).
Fixpoint put_bytes (w : Z -> Z) (a : Z) (l : list Z) : Z -> Z :=
  match l with
  | [] => w
  | b :: l => put_bytes (put_byte w a b) (a + 1) l
  end.

Definition load (a : Z) : ST kst Z := gets (fun s => word s a).
Definition store (a x : Z) : ST kst unit := modify (fun s => with_word s (set_word (word s) a x)).

(** [memset(v, 0, PGSIZE)] *)
Definition clear_page (v : Z) : ST kst unit :=
  if v =? 0 then fault OutOfBounds
  else modify (fun s => with_word s (fun a => if (v <=? a) && (a <? v + PGSIZE) then 0 else word s a)).

(** [memmove(dst, src, PGSIZE)] from one page to another *)
Definition copy_page (dst src : Z) : ST kst unit :=
  modify (fun s => with_word s (fun a =>
    if (dst <=? a) && (a <? dst + PGSIZE) then word s (src + (a - dst)) else word s a)).

(** [memmove(dst, p, n)] from the bytes at [p] *)
Definition copy_bytes (dst : Z) (p : list Z) (n : Z) : ST kst unit :=
  if zlen p <? n then fault OutOfBounds
  else if dst =? 0 then fault OutOfBounds
  else modify (fun s => with_word s (put_bytes (word s) dst (take (Z.to_nat n) p))).

(** ** The functions *)

(** How the processor translates an address: the physical address and the flags. *)
Definition mmu (w : Z -> Z) (pg va : Z) : option (Z * Z) :=
  let pde := w (pg + 4 * PDX va) in
  if has pde PTE_P then
    let pte := w (P2V (PTE_ADDR pde) + 4 * PTX va) in
    if has pte PTE_P then Some (PTE_ADDR pte + va mod 4096, PTE_FLAGS pte) else None
  else None.

Section vm.
Context (kend me ebp data : Z).

Definition kalloc_ : ST kst Z := kalloc me ebp.
Definition kfree_ (v : Z) : ST kst unit := fun s => s ← kfree kend me ebp v s; Ok ((), s).

(** The address of the entry, or 0. *)
Definition walkpgdir (pgdir va : Z) (alloc : bool) : ST kst Z :=
  let pde := pgdir + 4 * PDX va in
  e ← load pde;
  if has e PTE_P then
    let pgtab := P2V (PTE_ADDR e) in
    mret (pgtab + 4 * PTX va)
  else if negb alloc then mret 0
  else
    pgtab ← kalloc_;
    if pgtab =? 0 then mret 0
    else
      _ ← clear_page pgtab;
      _ ← store pde (Z.lor (Z.lor (Z.lor (V2P pgtab) PTE_P) PTE_W) PTE_U);
      mret (pgtab + 4 * PTX va).

Fixpoint mappages_loop (fuel : nat) (pgdir a last pa perm : Z) : ST kst Z :=
  match fuel with
  | O => fault OutOfFuel
  | S fuel =>
    pte ← walkpgdir pgdir a true;
    if pte =? 0 then mret (-1)
    else
      e ← load pte;
      if has e PTE_P then fault (Panic "remap")
      else
        _ ← store pte (Z.lor (Z.lor pa perm) PTE_P);
        if a =? last then mret 0
        else mappages_loop fuel pgdir (u32 (a + PGSIZE)) last (u32 (pa + PGSIZE)) perm
  end.

Definition mappages (pgdir va size pa perm : Z) : ST kst Z :=
  let a := PGROUNDDOWN va in
  let last := PGROUNDDOWN (u32 (va + size - 1)) in
  mappages_loop (S (Z.to_nat (u32 (last - a) / PGSIZE))) pgdir a last pa perm.

Fixpoint deallocuvm_loop (fuel : nat) (pgdir a oldsz : Z) : ST kst unit :=
  match fuel with
  | O => fault OutOfFuel
  | S fuel =>
    if a <? oldsz then
      pte ← walkpgdir pgdir a false;
      if pte =? 0 then
        let a := u32 (PGADDR (PDX a + 1) 0 0 - PGSIZE) in
        deallocuvm_loop fuel pgdir (u32 (a + PGSIZE)) oldsz
      else
        e ← load pte;
        if has e PTE_P then
          let pa := PTE_ADDR e in
          if pa =? 0 then fault (Panic "kfree")
          else
            _ ← kfree_ (P2V pa);
            _ ← store pte 0;
            deallocuvm_loop fuel pgdir (u32 (a + PGSIZE)) oldsz
        else deallocuvm_loop fuel pgdir (u32 (a + PGSIZE)) oldsz
    else mret ()
  end.

Definition deallocuvm (pgdir oldsz newsz : Z) : ST kst Z :=
  if oldsz <=? newsz then mret oldsz
  else
    let a := PGROUNDUP newsz in
    _ ← deallocuvm_loop (S (S (Z.to_nat ((oldsz - a) / PGSIZE)))) pgdir a oldsz;
    mret newsz.

(** [n] entries from the [i]-th on. *)
Fixpoint free_tables (n : nat) (pgdir i : Z) : ST kst unit :=
  match n with
  | O => mret ()
  | S n =>
    e ← load (pgdir + 4 * i);
    _ ← (if has e PTE_P then kfree_ (P2V (PTE_ADDR e)) else mret ());
    free_tables n pgdir (i + 1)
  end.

Definition freevm (pgdir : Z) : ST kst unit :=
  if pgdir =? 0 then fault (Panic "freevm: no pgdir")
  else
    _ ← deallocuvm pgdir KERNBASE 0;
    _ ← free_tables NPDENTRIES pgdir 0;
    kfree_ pgdir.

Record kmap := { virt : Z; phys_start : Z; phys_end : Z; perm : Z }.

Definition kmaps : list kmap :=
  [ {| virt := KERNBASE; phys_start := 0; phys_end := EXTMEM; perm := PTE_W |};
    {| virt := KERNLINK; phys_start := V2P KERNLINK; phys_end := V2P data; perm := 0 |};
    {| virt := data; phys_start := V2P data; phys_end := PHYSTOP; perm := PTE_W |};
    {| virt := DEVSPACE; phys_start := DEVSPACE; phys_end := 0; perm := PTE_W |} ].

Fixpoint setupkvm_loop (ks : list kmap) (pgdir : Z) : ST kst Z :=
  match ks with
  | [] => mret pgdir
  | k :: ks =>
    r ← mappages pgdir (virt k) (u32 (phys_end k - phys_start k)) (phys_start k) (perm k);
    if r <? 0 then
      _ ← freevm pgdir;
      mret 0
    else setupkvm_loop ks pgdir
  end.

Definition setupkvm : ST kst Z :=
  pgdir ← kalloc_;
  if pgdir =? 0 then mret 0
  else
    _ ← clear_page pgdir;
    if DEVSPACE <? P2V PHYSTOP then fault (Panic "PHYSTOP too high")
    else setupkvm_loop kmaps pgdir.

Definition inituvm (pgdir : Z) (init : list Z) (sz : Z) : ST kst unit :=
  if PGSIZE <=? sz then fault (Panic "inituvm: more than a page")
  else
    mem ← kalloc_;
    _ ← clear_page mem;
    _ ← mappages pgdir 0 PGSIZE (V2P mem) (Z.lor PTE_W PTE_U);
    copy_bytes mem init sz.

Fixpoint allocuvm_loop (fuel : nat) (pgdir a oldsz newsz : Z) : ST kst Z :=
  match fuel with
  | O => fault OutOfFuel
  | S fuel =>
    if a <? newsz then
      mem ← kalloc_;
      if mem =? 0 then
        _ ← deallocuvm pgdir newsz oldsz;
        mret 0
      else
        _ ← clear_page mem;
        r ← mappages pgdir a PGSIZE (V2P mem) (Z.lor PTE_W PTE_U);
        if r <? 0 then
          _ ← deallocuvm pgdir newsz oldsz;
          _ ← kfree_ mem;
          mret 0
        else allocuvm_loop fuel pgdir (u32 (a + PGSIZE)) oldsz newsz
    else mret newsz
  end.

Definition allocuvm (pgdir oldsz newsz : Z) : ST kst Z :=
  if KERNBASE <=? newsz then mret 0
  else if newsz <? oldsz then mret oldsz
  else
    let a := PGROUNDUP oldsz in
    allocuvm_loop (S (S (Z.to_nat ((newsz - a) / PGSIZE)))) pgdir a oldsz newsz.

Fixpoint allocxuvm_loop (fuel : nat) (pgdir a oldsz newsz : Z) (val : list Z) (valn : Z) : ST kst Z :=
  match fuel with
  | O => fault OutOfFuel
  | S fuel =>
    if a <? newsz then
      mem ← kalloc_;
      if mem =? 0 then
        _ ← deallocuvm pgdir newsz oldsz;
        mret 0
      else
        _ ← (if PGSIZE <=? valn then copy_bytes mem val PGSIZE
             else if 0 <? valn then copy_bytes mem val valn
             else mret ());
        r ← mappages pgdir a PGSIZE (V2P mem) PTE_U;
        if r <? 0 then
          _ ← deallocuvm pgdir newsz oldsz;
          _ ← kfree_ mem;
          mret 0
        else
          allocxuvm_loop fuel pgdir (u32 (a + PGSIZE)) oldsz newsz (drop (Z.to_nat PGSIZE) val) (s32 (valn - PGSIZE))
    else mret newsz
  end.

Definition allocxuvm (pgdir oldsz newsz : Z) (val : list Z) (valn : Z) : ST kst Z :=
  if KERNBASE <=? newsz then mret 0
  else if newsz <? oldsz then mret oldsz
  else
    let a := PGROUNDUP oldsz in
    allocxuvm_loop (S (S (Z.to_nat ((newsz - a) / PGSIZE)))) pgdir a oldsz newsz val valn.

Definition clearpteu (pgdir uva : Z) : ST kst unit :=
  pte ← walkpgdir pgdir uva false;
  if pte =? 0 then fault (Panic "clearpteu")
  else e ← load pte; store pte (Z.land e (Z.lnot PTE_U)).

Definition clearpter (pgdir uva : Z) : ST kst unit :=
  pte ← walkpgdir pgdir uva false;
  if pte =? 0 then fault (Panic "clearpteu")
  else e ← load pte; store pte (Z.land e (Z.lnot PTE_W)).

(** Both [goto bad]s. *)
Fixpoint copyuvm_loop (fuel : nat) (pgdir d i sz : Z) : ST kst Z :=
  match fuel with
  | O => fault OutOfFuel
  | S fuel =>
    if i <? sz then
      pte ← walkpgdir pgdir i false;
      if pte =? 0 then fault (Panic "copyuvm: pte should exist")
      else
        e ← load pte;
        if negb (has e PTE_P) then fault (Panic "copyuvm: page not present")
        else
          let pa := PTE_ADDR e in
          let flags := PTE_FLAGS e in
          mem ← kalloc_;
          if mem =? 0 then
            _ ← freevm d;
            mret 0
          else
            _ ← copy_page mem (P2V pa);
            r ← mappages d i PGSIZE (V2P mem) flags;
            if r <? 0 then
              _ ← freevm d;
              mret 0
            else copyuvm_loop fuel pgdir d (u32 (i + PGSIZE)) sz
    else mret d
  end.

Definition copyuvm (pgdir sz : Z) : ST kst Z :=
  d ← setupkvm;
  if d =? 0 then mret 0
  else copyuvm_loop (S (S (Z.to_nat (sz / PGSIZE)))) pgdir d 0 sz.

Definition uva2ka (pgdir uva : Z) : ST kst Z :=
  pte ← walkpgdir pgdir uva false;
  if pte =? 0 then fault OutOfBounds
  else
    e ← load pte;
    if negb (has e PTE_P) then mret 0
    else if negb (has e PTE_U) then mret 0
    else mret (P2V (PTE_ADDR e)).

Fixpoint copyout_loop (fuel : nat) (pgdir va : Z) (buf : list Z) (len : Z) : ST kst Z :=
  match fuel with
  | O => fault OutOfFuel
  | S fuel =>
    if 0 <? len then
      let va0 := PGROUNDDOWN va in
      pa0 ← uva2ka pgdir va0;
      if pa0 =? 0 then mret (-1)
      else
        let n := u32 (PGSIZE - (va - va0)) in
        let n := if len <? n then len else n in
        _ ← copy_bytes (pa0 + (va - va0)) buf n;
        copyout_loop fuel pgdir (u32 (va0 + PGSIZE)) (drop (Z.to_nat n) buf) (u32 (len - n))
    else mret 0
  end.

Definition copyout (pgdir va : Z) (p : list Z) (len : Z) : ST kst Z :=
  copyout_loop (S (Z.to_nat len)) pgdir va p len.

(** ** Loading a program *)

(** The file system, and memory. *)
Record machine := { mfs : fs; mmem : kst }.

Definition on_fs {A} (m : ST fs A) : ST machine A := fun x =>
  '(a, f) ← m (mfs x); Ok (a, {| mfs := f; mmem := mmem x |}).
Definition on_mem {A} (m : ST kst A) : ST machine A := fun x =>
  '(a, k) ← m (mmem x); Ok (a, {| mfs := mfs x; mmem := k |}).

Context (mypid : Z) (dev_read : Z -> option (Z -> Z -> ST fs (option (list Z)))).

Fixpoint loaduvm_loop (fuel : nat) (pgdir addr ip offset i sz : Z) : ST machine Z :=
  match fuel with
  | O => fault OutOfFuel
  | S fuel =>
    if i <? sz then
      pte ← on_mem (walkpgdir pgdir (u32 (addr + i)) false);
      if pte =? 0 then fault (Panic "loaduvm: address should exist")
      else
        e ← on_mem (load pte);
        let pa := PTE_ADDR e in
        let n := if u32 (sz - i) <? PGSIZE then u32 (sz - i) else PGSIZE in
        r ← on_fs (readi mypid dev_read ip (u32 (offset + i)) n);
        match r with
        | None => mret (-1)
        | Some bytes =>
          _ ← on_mem (copy_bytes (P2V pa) bytes (zlen bytes));
          if negb (zlen bytes =? n) then mret (-1)
          else loaduvm_loop fuel pgdir addr ip offset (u32 (i + PGSIZE)) sz
        end
    else mret 0
  end.

Definition loaduvm (pgdir addr ip offset sz : Z) : ST machine Z :=
  if negb (addr mod PGSIZE =? 0) then fault (Panic "loaduvm: addr must be page aligned")
  else loaduvm_loop (S (S (Z.to_nat (sz / PGSIZE)))) pgdir addr ip offset 0 sz.
End vm.
