(* ===== verification/VmBase.v ===== *)
(** * Address spaces

    The arithmetic of page tables, what it means that a page directory maps a
    set of pages, and the effect of the primitive operations of [vm.c]. *)

From stdpp Require Import base list strings gmap.
From Stdlib Require Import ZArith Lia.
From S2P Require Import Prelude State Spinlock Kalloc Vm.

(** ** Entries and addresses *)

Lemma land_mask x : Z.land x (Z.lnot 0xFFF) = 4096 * (x / 4096).
Proof.
  change 0xFFF with (Z.ones 12). rewrite <- Z.ldiff_land, Z.ldiff_ones_r by lia.
  rewrite Z.shiftl_mul_pow2, Z.shiftr_div_pow2 by lia. change (2 ^ 12) with 4096. lia.
Qed.

Lemma PGROUNDDOWN_eq a : PGROUNDDOWN a = 4096 * (a / 4096).
Proof. apply land_mask. Qed.

Lemma PGROUNDUP_eq sz : 0 <= sz <= 2 ^ 31 -> PGROUNDUP sz = 4096 * ((sz + 4095) / 4096).
Proof.
  intros H. unfold PGROUNDUP, PGSIZE. rewrite u32_small by lia. rewrite land_mask. f_equal. f_equal. lia.
Qed.

(** A page address and flags. *)
Lemma entry_div pa f : pa mod 4096 = 0 -> 0 <= f < 4096 -> 4096 * ((pa + f) / 4096) = pa /\ (pa + f) mod 4096 = f.
Proof.
  intros Hp Hf. pose proof (Z.div_mod pa 4096 ltac:(lia)) as Hd. rewrite Hp, Z.add_0_r in Hd.
  assert ((pa + f) / 4096 = pa / 4096) as Hq.
  { symmetry. apply (Z.div_unique_pos _ _ _ f); lia. }
  split; [lia|]. rewrite Z.mod_eq, Hq by lia. lia.
Qed.

Lemma PTE_ADDR_eq pa f : pa mod 4096 = 0 -> 0 <= f < 4096 -> PTE_ADDR (pa + f) = pa.
Proof. intros Hp Hf. unfold PTE_ADDR. rewrite land_mask. by apply entry_div. Qed.

Lemma PTE_FLAGS_eq pa f : pa mod 4096 = 0 -> 0 <= f < 4096 -> PTE_FLAGS (pa + f) = f.
Proof.
  intros Hp Hf. unfold PTE_FLAGS. change 0xFFF with (Z.ones 12). rewrite Z.land_ones by lia. by apply entry_div.
Qed.

Lemma lor_entry pa f : pa mod 4096 = 0 -> 0 <= f < 4096 -> Z.lor pa f = pa + f.
Proof.
  intros Hp Hf. assert (Hl : Z.land pa f = 0).
  { apply Z.bits_inj'. intros k Hk. rewrite Z.land_spec, Z.bits_0. destruct (Z.lt_ge_cases k 12).
    - pose proof (Z.div_mod pa 4096 ltac:(lia)) as Hd. rewrite Hp, Z.add_0_r in Hd. rewrite Hd, Z.mul_comm.
      change 4096 with (2 ^ 12). by rewrite Z.mul_pow2_bits_low by lia.
    - apply andb_false_iff. right. destruct (decide (f = 0)) as [->|]; [by rewrite Z.bits_0|].
      apply Z.bits_above_log2; [lia|]. apply Z.lt_le_trans with 12; [|lia]. apply Z.log2_lt_pow2; lia. }
  rewrite (Z.add_nocarry_lxor _ _ Hl). symmetry. by apply Z.lxor_lor.
Qed.

Lemma has_P e : has e PTE_P = Z.odd e.
Proof.
  unfold has, PTE_P. change 1 with (Z.ones 1). rewrite Z.land_ones by lia. change (2 ^ 1) with 2.
  rewrite Zmod_odd. by destruct (Z.odd e).
Qed.

Lemma odd_entry pa f : pa mod 4096 = 0 -> Z.odd (pa + f) = Z.odd f.
Proof.
  intros Hp. pose proof (Z.div_mod pa 4096 ltac:(lia)) as Hd. rewrite Hp, Z.add_0_r in Hd. rewrite Z.odd_add, Hd, Z.odd_mul.
  done.
Qed.

Lemma PDX_page n : 0 <= n < 2 ^ 20 -> PDX (4096 * n) = n / 1024.
Proof.
  intros H. unfold PDX. change 0x3FF with (Z.ones 10). rewrite Z.land_ones, Z.shiftr_div_pow2 by lia.
  replace (2 ^ 22) with (4096 * 1024) by done. rewrite <- Z.div_div, (Z.mul_comm 4096), Z.div_mul by lia.
  apply Z.mod_small. split; [by apply Z.div_pos; lia|]. apply Z.div_lt_upper_bound; lia.
Qed.

Lemma PTX_page n : PTX (4096 * n) = n mod 1024.
Proof.
  unfold PTX. change 0x3FF with (Z.ones 10). rewrite Z.land_ones, Z.shiftr_div_pow2 by lia.
  change (2 ^ 12) with 4096. by rewrite (Z.mul_comm 4096), Z.div_mul by lia.
Qed.

(** ** Pages *)

Lemma page_range kend v : is_page kend v -> KERNBASE <= v /\ v + 4096 <= KERNBASE + PHYSTOP /\ v mod 4096 = 0.
Proof.
  intros (Hv & Hm & _ & Hp). unfold V2P, PGSIZE, KERNBASE, PHYSTOP in *.
  assert (0x80000000 <= v) as Hk.
  { destruct (Z.lt_ge_cases v 0x80000000); [|lia]. exfalso. unfold u32 in Hp.
    rewrite <- (Z.mod_add _ 1), Z.mod_small in Hp by lia. lia. }
  rewrite u32_small in Hp by lia. split; [done|]. split; [|done].
  pose proof (Z.div_mod v 4096 ltac:(lia)). lia.
Qed.

Lemma page_V2P kend v : is_page kend v -> V2P v = v - KERNBASE /\ V2P v mod 4096 = 0 /\ P2V (V2P v) = v /\ 0 <= V2P v < 2 ^ 31.
Proof.
  intros H. destruct (page_range _ _ H) as (H1 & H2 & H3). unfold V2P, P2V, KERNBASE, PHYSTOP in *.
  rewrite (u32_small (v - _)) by lia. rewrite u32_small by lia. split; [done|]. split; [|lia].
  replace (v - 0x80000000) with (v + (-524288) * 4096) by lia. by rewrite Z.mod_add by lia.
Qed.

Definition in_page (v a : Z) : Prop := v <= a < v + PGSIZE.

Lemma in_page_unique v u a : v mod 4096 = 0 -> u mod 4096 = 0 -> in_page v a -> in_page u a -> u = v.
Proof. intros Hv Hu. unfold in_page, PGSIZE. apply Z.div_exact in Hv; [|lia]. apply Z.div_exact in Hu; [|lia]. lia. Qed.

(** ** A page directory and what it maps *)

(** The first page number of the kernel's half. *)
Definition KPAGE : Z := 2 ^ 19.

Definition pte_of (e : option (Z * Z)) : Z := match e with Some (pa, f) => pa + f | None => 0 end.
Definition pde_of (t : option Z) : Z := match t with Some t => V2P t + 7 | None => 0 end.

(** [T] are the page tables by index of the directory; [M] maps page numbers to
    physical addresses and flags. *)
Record aspace (w : Z -> Z) (pg : Z) (T : gmap Z Z) (M : gmap Z (Z * Z)) : Prop := {
  as_dir : forall i, 0 <= i < 1024 -> w (pg + 4 * i) = pde_of (T !! i);
  as_tab : forall n t, 0 <= n < 2 ^ 20 -> T !! (n / 1024) = Some t -> w (t + 4 * (n mod 1024)) = pte_of (M !! n);
  as_idx : forall i t, T !! i = Some t -> 0 <= i < 1024;
  as_has : forall n e, M !! n = Some e -> 0 <= n < 2 ^ 20 /\ is_Some (T !! (n / 1024));
  as_ent : forall n pa f, M !! n = Some (pa, f) -> pa mod 4096 = 0 /\ 0 <= pa < 2 ^ 32 /\ 0 <= f < 4096 /\ Z.odd f = true;
}.

(** The pages of an address space: its directory, its tables and the pages of
    the user's half. *)
Definition upages (M : gmap Z (Z * Z)) : list Z :=
  (fun e => P2V e.2.1) <$> map_to_list (filter (fun e => e.1 < KPAGE) M).
Definition own (pg : Z) (T : gmap Z Z) (M : gmap Z (Z * Z)) : list Z := pg :: (map_to_list T).*2 ++ upages M.

Lemma upages_insert M n pa f : M !! n = None -> n < KPAGE -> upages (<[n := (pa, f)]> M) ≡ₚ P2V pa :: upages M.
Proof.
  intros HM Hn. unfold upages. rewrite map_filter_insert_True by done.
  rewrite map_to_list_insert by (apply map_lookup_filter_None; by left). done.
Qed.

Lemma upages_kernel M n e : KPAGE <= n -> upages (<[n := e]> M) = upages M.
Proof.
  intros Hn. unfold upages. f_equal. f_equal. apply map_eq. intros k.
  apply option_eq. intros x. rewrite !map_lookup_filter_Some. destruct (decide (k = n)) as [->|].
  - cbn. split; intros [_ ?]; exfalso; lia.
  - by rewrite lookup_insert_ne.
Qed.

Lemma upages_delete M n pa f : M !! n = Some (pa, f) -> n < KPAGE -> upages M ≡ₚ P2V pa :: upages (delete n M).
Proof.
  intros HM Hn. rewrite <- (insert_delete_id M n (pa, f) HM) at 1. apply upages_insert; [by rewrite lookup_delete_eq|done].
Qed.

Lemma elem_upages M v : v ∈ upages M <-> exists n pa f, M !! n = Some (pa, f) /\ n < KPAGE /\ v = P2V pa.
Proof.
  unfold upages. rewrite list_elem_of_fmap. split.
  - intros ([n [pa f]] & -> & Hin). apply elem_of_map_to_list, map_lookup_filter_Some in Hin as [HM Hn]. by exists n, pa, f.
  - intros (n & pa & f & HM & Hn & ->). exists (n, (pa, f)). split; [done|]. by apply elem_of_map_to_list, map_lookup_filter_Some.
Qed.

Lemma own_table pg T M i t : T !! i = None -> own pg (<[i := t]> T) M ≡ₚ t :: own pg T M.
Proof. intros HT. unfold own. rewrite map_to_list_insert by done. cbn. apply Permutation_swap. Qed.

Lemma elem_own pg T M v : v ∈ own pg T M <-> v = pg \/ (exists i, T !! i = Some v) \/ v ∈ upages M.
Proof.
  unfold own. rewrite elem_of_cons, elem_of_app. split; (intros [?|[H|?]]; [by left|right; left|by right; right]).
  - apply list_elem_of_fmap in H as ([i t] & -> & Hin). exists i. by apply elem_of_map_to_list in Hin.
  - destruct H as (i & Hi). apply list_elem_of_fmap. exists (i, v). split; [done|]. by apply elem_of_map_to_list.
Qed.

Lemma aspace_ext w w' pg T M : aspace w pg T M ->
  (forall a, in_page pg a -> w' a = w a) -> (forall i t a, T !! i = Some t -> in_page t a -> w' a = w a) -> aspace w' pg T M.
Proof.
  intros [Hd Ht Hi Hh He] Hpg HT. constructor; try done.
  - intros i Hr. rewrite Hpg by (unfold in_page, PGSIZE; lia). by apply Hd.
  - intros n t Hn Htn. pose proof (Z.mod_pos_bound n 1024 ltac:(lia)).
    rewrite (HT _ _ _ Htn) by (unfold in_page, PGSIZE; lia). by apply Ht.
Qed.

(** ** The pages of the machine *)

Section space.
Context (kend me ebp : Z).

Definition all_pages (L : list Z) : Prop := NoDup L /\ Forall (is_page kend) L.

#[global] Instance all_pages_proper : Proper ((≡ₚ) ==> iff) all_pages.
Proof. intros L L' HL. unfold all_pages. by rewrite HL. Qed.

Lemma all_pages_perm L L' : all_pages L -> L ≡ₚ L' -> all_pages L'.
Proof. by intros HL <-. Qed.

Lemma all_pages_sub L L' : all_pages L -> L' ⊆+ L -> all_pages L'.
Proof.
  intros HL [k Hk]%submseteq_Permutation. rewrite Hk in HL. destruct HL as [Hn HF].
  apply NoDup_app in Hn as (Hn & _ & _). by apply Forall_app in HF as [HF _].
Qed.

Lemma all_pages_mod L v : all_pages L -> v ∈ L -> v mod 4096 = 0.
Proof. intros [_ HF] Hv. rewrite Forall_forall in HF. by apply (page_range kend v), HF. Qed.

(** One address space, the free pages [l], and all the other pages [F]. *)
Record space (s : kst) (l F : list Z) (pg : Z) (T : gmap Z Z) (M : gmap Z (Z * Z)) : Prop := {
  sp_free : kalloc_inv kend s l;
  sp_pages : all_pages (l ++ own pg T M ++ F);
  sp_map : aspace (word s) pg T M;
}.

(** The contents of the pages of [L] are the same. *)
Definition kept (L : list Z) (s s' : kst) : Prop := forall p a, p ∈ L -> in_page p a -> word s' a = word s a.

Lemma kept_refl L s : kept L s s.
Proof. done. Qed.

Lemma kept_trans L s1 s2 s3 : kept L s1 s2 -> kept L s2 s3 -> kept L s1 s3.
Proof. intros H1 H2 p a Hp Ha. by rewrite (H2 p a Hp Ha), (H1 p a Hp Ha). Qed.

Lemma kept_sub L L' s s' : kept L s s' -> (forall p, p ∈ L' -> p ∈ L) -> kept L' s s'.
Proof. intros H HL p a Hp. by apply H, HL. Qed.

Lemma kept_eq L s s' : (forall a, word s' a = word s a) -> kept L s s'.
Proof. intros H p a _ _. apply H. Qed.

(** A change inside one page keeps the others. *)
Lemma kept_other L v s s' : all_pages (v :: L) -> (forall a, ~ in_page v a -> word s' a = word s a) -> kept L s s'.
Proof.
  intros HL H p a Hp Ha. apply H. intros Hv. pose proof HL as [Hn _]. apply NoDup_cons in Hn as [Hn _]. apply Hn.
  enough (v = p) as -> by done. by apply (in_page_unique p v a); [apply (all_pages_mod _ _ HL); by right|apply (all_pages_mod _ _ HL); left|..].
Qed.

Lemma kept_aspace L s s' pg T M : kept L s s' -> (forall p, p ∈ own pg T M -> p ∈ L) ->
  aspace (word s) pg T M -> aspace (word s') pg T M.
Proof.
  intros Hk HL Ha. apply (aspace_ext _ _ _ _ _ Ha).
  - intros a. apply Hk, HL, elem_own. by left.
  - intros i t a Ht. apply Hk, HL, elem_own. right; left. by exists i.
Qed.

Lemma kalloc_step s l F pg T M : space s l F pg T M ->
  exists s', (forall a, word s' a = word s a) /\
    ((l = [] /\ kalloc_ me ebp s = Ok (0, s') /\ space s' [] F pg T M) \/
     (exists v l', l = v :: l' /\ v <> 0 /\ is_page kend v /\ kalloc_ me ebp s = Ok (v, s') /\ space s' l' (v :: F) pg T M)).
Proof.
  intros [Hk Hp Hm]. destruct (kalloc_ok kend me ebp s l Hk) as (s' & E & Hk' & _ & _ & _ & Hw). exists s'. split; [done|].
  assert (Hm' : aspace (word s') pg T M) by (apply (aspace_ext (word s)); auto).
  destruct l as [|v l]; [left; by split_and!|right]. exists v, l. cbn in E, Hk'. pose proof Hp as [_ HF].
  apply Forall_cons in HF as [Hv _]. split_and!; try done; [destruct Hv as [? _]; lia|]. constructor; try done.
  apply (all_pages_perm _ _ Hp). solve_Permutation.
Qed.

Lemma kfree_step s l v F pg T M : space s l (v :: F) pg T M ->
  exists s', kfree_ kend me ebp v s = Ok ((), s') /\ space s' (v :: l) F pg T M /\ kept (own pg T M ++ F) s s'.
Proof.
  intros [Hk Hp Hm]. assert (Hp' : all_pages (v :: l ++ own pg T M ++ F)).
  { apply (all_pages_perm _ _ Hp). solve_Permutation. }
  pose proof Hp' as [Hn HF]. apply NoDup_cons in Hn as [Hn _]. apply Forall_cons in HF as [Hv _].
  destruct (kfree_ok kend me ebp s l v Hk Hv) as (s' & E & Hk' & _ & _ & _ & Hw); [set_solver|].
  assert (Hkept : kept (own pg T M ++ F) s s').
  { apply (kept_sub (l ++ own pg T M ++ F)); [|set_solver]. by apply (kept_other _ v). }
  exists s'. unfold kfree_. rewrite E. split_and!; [done| |done]. constructor; [done|exact Hp'|].
  apply (kept_aspace _ _ _ _ _ _ Hkept); [set_solver|done].
Qed.

(** ** Writing memory *)

Lemma kalloc_inv_word s l w : kalloc_inv kend s l -> (forall v, v ∈ l -> w v = word s v) -> kalloc_inv kend (with_word s w) l.
Proof. intros [Hc Hp Hn Hl Hcpu] Hw. constructor; try done. cbn. by apply (chain_ext (word s)). Qed.

Lemma in_page_self v : in_page v v.
Proof. unfold in_page, PGSIZE. lia. Qed.

Lemma free_kept s l L w : kalloc_inv kend s l -> kept L s (with_word s w) -> (forall p, p ∈ l -> p ∈ L) ->
  kalloc_inv kend (with_word s w) l.
Proof. intros Hk Hkept HL. apply kalloc_inv_word; [done|]. intros v Hv. apply (Hkept v); [by apply HL|apply in_page_self]. Qed.

(** A page of the rest is written. *)
Lemma write_step s l v F pg T M w : space s l (v :: F) pg T M ->
  (forall a, ~ in_page v a -> w a = word s a) ->
  space (with_word s w) l (v :: F) pg T M /\ kept (own pg T M ++ F) s (with_word s w).
Proof.
  intros [Hk Hp Hm] Hw. assert (Hkept : kept (l ++ own pg T M ++ F) s (with_word s w)).
  { apply (kept_other _ v); [|done]. apply (all_pages_perm _ _ Hp). solve_Permutation. }
  split; [|apply (kept_sub _ _ _ _ Hkept); clear; set_solver]. constructor; [|done|].
  - apply (free_kept s l _ w Hk Hkept). set_solver.
  - apply (kept_aspace _ _ _ _ _ _ Hkept); [set_solver|done].
Qed.

Lemma clear_step s l v F pg T M : space s l (v :: F) pg T M ->
  exists s', clear_page v s = Ok ((), s') /\ space s' l (v :: F) pg T M /\ kept (own pg T M ++ F) s s' /\
    forall a, in_page v a -> word s' a = 0.
Proof.
  intros Hsp. assert (Hv : is_page kend v).
  { destruct (sp_pages _ _ _ _ _ _ Hsp) as [_ HF]. rewrite Forall_forall in HF. apply HF. set_solver. }
  unfold clear_page. destruct (Z.eqb_spec v 0); [destruct Hv as [? _]; lia|]. eexists. split; [reflexivity|].
  unfold in_page. destruct (write_step s l v F pg T M
    (fun a => if (v <=? a) && (a <? v + PGSIZE) then 0 else word s a) Hsp) as [H1 H2].
  { intros a Ha. unfold in_page in Ha. destruct (Z.leb_spec v a), (Z.ltb_spec a (v + PGSIZE)); cbn [andb]; (done || lia). }
  split_and!; [exact H1|exact H2|]. intros a Ha. cbn. destruct (Z.leb_spec v a), (Z.ltb_spec a (v + PGSIZE)); (done || lia).
Qed.

(** An entry of a page table is written. *)
Definition set_entry (M : gmap Z (Z * Z)) (n : Z) (e : option (Z * Z)) : gmap Z (Z * Z) := partial_alter (fun _ => e) n M.

Definition entry_ok (e : option (Z * Z)) : Prop := match e with
  | Some (pa, f) => pa mod 4096 = 0 /\ 0 <= pa < 2 ^ 32 /\ 0 <= f < 4096 /\ Z.odd f = true
  | None => True
  end.

Lemma slot_page t n : in_page t (t + 4 * (n mod 1024)).
Proof. pose proof (Z.mod_pos_bound n 1024 ltac:(lia)). unfold in_page, PGSIZE. lia. Qed.

Lemma set_entry_aspace w pg T M n t e : aspace w pg T M -> 0 <= n < 2 ^ 20 -> T !! (n / 1024) = Some t -> entry_ok e ->
  all_pages (pg :: (map_to_list T).*2) ->
  aspace (set_word w (t + 4 * (n mod 1024)) (pte_of e)) pg T (set_entry M n e).
Proof.
  intros [Hd Ht Hi Hh He] Hn HT Hok Hp. set (x := t + 4 * (n mod 1024)).
  assert (Hmem : forall i u, T !! i = Some u -> u ∈ pg :: (map_to_list T).*2).
  { intros i u Hu. right. apply list_elem_of_fmap. exists (i, u). split; [done|]. by apply elem_of_map_to_list. }
  assert (Hinj : forall i u a, T !! i = Some u -> in_page u a -> in_page t a -> i = n / 1024).
  { intros i u a Hu Ha Hta. assert (u = t) as -> by (apply (in_page_unique t u a); try done; eapply all_pages_mod; eauto).
    destruct (decide (i = n / 1024)) as [|Hne]; [done|exfalso]. destruct Hp as [Hnd _]. apply NoDup_cons in Hnd as [_ Hnd].
    rewrite <- (insert_delete_id T (n / 1024) t HT), map_to_list_insert in Hnd by (by rewrite lookup_delete_eq).
    cbn in Hnd. apply NoDup_cons in Hnd as [Hnd _]. apply Hnd, list_elem_of_fmap. exists (i, t). split; [done|].
    apply elem_of_map_to_list. by rewrite lookup_delete_ne by done. }
  assert (Hpgx : ~ in_page pg x).
  { intros Ha. pose proof (slot_page t n) as Hs. fold x in Hs. assert (pg = t) as Heq.
    { apply (in_page_unique t pg x); try done; eapply all_pages_mod; eauto. by left. }
    destruct Hp as [Hnd _]. apply NoDup_cons in Hnd as [Hnd _]. apply Hnd. rewrite Heq. apply list_elem_of_fmap.
    exists (n / 1024, t). split; [done|]. by apply elem_of_map_to_list. }
  unfold set_entry. constructor.
  - intros i Hr. unfold set_word. destruct (Z.eqb_spec (pg + 4 * i) x) as [Hx|]; [|by apply Hd].
    exfalso. apply Hpgx. rewrite <- Hx. unfold in_page, PGSIZE. lia.
  - intros m u Hm Hu. unfold set_word. destruct (Z.eqb_spec (u + 4 * (m mod 1024)) x) as [Hx|Hx].
    + assert (m / 1024 = n / 1024) as Hq.
      { apply (Hinj _ u x Hu); [rewrite <- Hx; apply slot_page|apply slot_page]. }
      rewrite Hq, HT in Hu. injection Hu as <-. assert (m = n) as ->.
      { subst x. rewrite (Z.div_mod m 1024), (Z.div_mod n 1024) by lia. lia. }
      by rewrite lookup_partial_alter_eq.
    + rewrite lookup_partial_alter_ne; [by apply Ht|]. intros <-. apply Hx. rewrite HT in Hu. by injection Hu as <-.
  - done.
  - intros m e' Hm. destruct (decide (m = n)) as [->|]; [by rewrite HT|]. rewrite lookup_partial_alter_ne in Hm by done. by apply (Hh m e').
  - intros m pa f Hm. destruct (decide (m = n)) as [->|].
    + rewrite lookup_partial_alter_eq in Hm. subst e. exact Hok.
    + rewrite lookup_partial_alter_ne in Hm by done. by apply (He m).
Qed.

(** ** [walkpgdir] *)

Lemma space_page s l F pg T M v : space s l F pg T M -> v ∈ l ++ own pg T M ++ F -> is_page kend v.
Proof. intros Hsp Hv. destruct (sp_pages _ _ _ _ _ _ Hsp) as [_ HF]. rewrite Forall_forall in HF. by apply HF. Qed.

Lemma space_table s l F pg T M i t : space s l F pg T M -> T !! i = Some t -> is_page kend t.
Proof. intros Hsp Ht. apply (space_page _ _ _ _ _ _ t Hsp). rewrite !elem_of_app, elem_own. right; left; right; left. by exists i. Qed.

Definition slot (T : gmap Z Z) (n : Z) : Z :=
  match T !! (n / 1024) with Some t => t + 4 * (n mod 1024) | None => 0 end.

Lemma slot_nonzero s l F pg T M n t : space s l F pg T M -> T !! (n / 1024) = Some t -> (slot T n =? 0) = false.
Proof.
  intros Hsp Ht. unfold slot. rewrite Ht. destruct (space_table _ _ _ _ _ _ _ _ Hsp Ht) as [? _].
  pose proof (Z.mod_pos_bound n 1024 ltac:(lia)). apply Z.eqb_neq. lia.
Qed.

Lemma page_index n : 0 <= n < 2 ^ 20 -> 0 <= n / 1024 < 1024.
Proof. intros H. split; [apply Z.div_pos; lia|]. apply Z.div_lt_upper_bound; lia. Qed.

(** What the entry of the directory says. *)
Lemma pde_spec s l F pg T M n : space s l F pg T M -> 0 <= n < 2 ^ 20 ->
  let e := word s (pg + 4 * PDX (4096 * n)) in
  match T !! (n / 1024) with
  | Some t => has e PTE_P = true /\ P2V (PTE_ADDR e) = t
  | None => has e PTE_P = false
  end.
Proof.
  intros Hsp Hn. cbv zeta. rewrite PDX_page by done. rewrite (as_dir _ _ _ _ (sp_map _ _ _ _ _ _ Hsp)) by (by apply page_index).
  destruct (T !! (n / 1024)) as [t|] eqn:Ht; cbn [pde_of]; [|done].
  destruct (page_V2P kend t (space_table _ _ _ _ _ _ _ _ Hsp Ht)) as (_ & Hm & Hv & _).
  rewrite has_P, odd_entry by done. split; [done|]. by rewrite PTE_ADDR_eq by (done || lia).
Qed.

Lemma walk_found s l F pg T M n alloc : space s l F pg T M -> 0 <= n < 2 ^ 20 -> is_Some (T !! (n / 1024)) \/ alloc = false ->
  walkpgdir me ebp pg (4096 * n) alloc s = Ok (slot T n, s).
Proof.
  intros Hsp Hn Ha. unfold walkpgdir, slot. cbv zeta. pose proof (pde_spec _ _ _ _ _ _ n Hsp Hn) as He. cbv zeta in He.
  erewrite bind_run by reflexivity. destruct (T !! (n / 1024)) as [t|].
  - destruct He as [-> ->]. by rewrite PTX_page.
  - rewrite He. destruct Ha as [[? ?]| ->]; done.
Qed.

Lemma new_table_aspace s l t F pg T M n : space s l (t :: F) pg T M -> 0 <= n < 2 ^ 20 -> T !! (n / 1024) = None ->
  (forall a, in_page t a -> word s a = 0) ->
  aspace (set_word (word s) (pg + 4 * (n / 1024)) (V2P t + 7)) pg (<[n / 1024 := t]> T) M.
Proof.
  intros Hsp Hn HT Hz. pose proof (sp_map _ _ _ _ _ _ Hsp) as [Hd Ht Hi Hh He]. pose proof (page_index n Hn) as Hix.
  assert (Hno : forall u a, (u = t \/ exists i, T !! i = Some u) -> in_page u a -> set_word (word s) (pg + 4 * (n / 1024)) (V2P t + 7) a = word s a).
  { intros u a Hu Ha. unfold set_word. destruct (Z.eqb_spec a (pg + 4 * (n / 1024))) as [->|]; [|done]. exfalso.
    pose proof (sp_pages _ _ _ _ _ _ Hsp) as Hp.
    assert (Hu' : u ∈ l ++ own pg T M ++ t :: F).
    { destruct Hu as [->|[i Hu]]; [set_solver|]. rewrite !elem_of_app, elem_own. right; left; right; left. by exists i. }
    assert (u = pg) as ->.
    { apply (in_page_unique pg u (pg + 4 * (n / 1024))); [| |unfold in_page, PGSIZE; lia|done]; apply (all_pages_mod _ _ Hp); [set_solver|done]. }
    destruct Hp as [Hnd _]. apply NoDup_app in Hnd as (_ & _ & Hnd). unfold own in Hnd. cbn in Hnd. apply NoDup_cons in Hnd as [Hnd _].
    apply Hnd. destruct Hu as [->|[i Hu]]; [set_solver|]. rewrite !elem_of_app. left; left. apply list_elem_of_fmap.
    exists (i, pg). split; [done|]. by apply elem_of_map_to_list. }
  constructor.
  - intros i Hr. unfold set_word. destruct (Z.eqb_spec (pg + 4 * i) (pg + 4 * (n / 1024))) as [Hx|Hx].
    + assert (i = n / 1024) as -> by lia. by rewrite lookup_insert_eq.
    + rewrite lookup_insert_ne by (intros <-; lia). by apply Hd.
  - intros m u Hm Hu. destruct (decide (m / 1024 = n / 1024)) as [Hq|Hq].
    + rewrite Hq, lookup_insert_eq in Hu. injection Hu as <-. rewrite (Hno t) by (auto using slot_page). rewrite Hz by apply slot_page.
      destruct (M !! m) eqn:HM; [|done]. destruct (Hh _ _ HM) as [_ [u' Hu']]. rewrite Hq, HT in Hu'. done.
    + rewrite lookup_insert_ne in Hu by done. rewrite (Hno u) by (eauto using slot_page). by apply Ht.
  - intros i u Hu. destruct (decide (i = n / 1024)) as [->|]; [done|]. rewrite lookup_insert_ne in Hu by done. by apply (Hi i u).
  - intros m e Hm. destruct (Hh m e Hm) as [? [u Hu]]. split; [done|]. destruct (decide (m / 1024 = n / 1024)) as [->|].
    + by rewrite lookup_insert_eq.
    + rewrite lookup_insert_ne by done. by exists u.
  - done.
Qed.

(** The page tables grow by a page of the free list when one is missing. *)
Lemma walk_alloc s l F pg T M n : space s l F pg T M -> 0 <= n < 2 ^ 20 ->
  exists s', (walkpgdir me ebp pg (4096 * n) true s = Ok (0, s') /\ l = [] /\ T !! (n / 1024) = None /\
              space s' l F pg T M /\ kept (own pg T M ++ F) s s') \/
    (exists l' T', walkpgdir me ebp pg (4096 * n) true s = Ok (slot T' n, s') /\ is_Some (T' !! (n / 1024)) /\
       space s' l' F pg T' M /\ kept (upages M ++ F) s s' /\ l' ++ own pg T' M ≡ₚ l ++ own pg T M /\ (length l <= S (length l'))%nat).
Proof.
  intros Hsp Hn. destruct (T !! (n / 1024)) as [t|] eqn:HT.
  { exists s. right. exists l, T. rewrite (walk_found s l F pg T M) by eauto. split_and!; [done|by rewrite HT|done|done|done|lia]. }
  unfold walkpgdir. cbv zeta. pose proof (pde_spec _ _ _ _ _ _ n Hsp Hn) as He. cbv zeta in He. rewrite HT in He.
  destruct (kalloc_step s l F pg T M Hsp) as (s1 & Hw1 & [(-> & E1 & H1)|(t & l' & -> & Hnz & Ht & E1 & H1)]).
  - exists s1. left. split_and!; [|done|done|done|by apply kept_eq].
    erewrite bind_run by reflexivity. rewrite He. cbn [negb]. by erewrite bind_run by exact E1.
  - destruct (clear_step s1 l' t F pg T M H1) as (s2 & E2 & H2 & Hk2 & Hz).
    pose proof (new_table_aspace s2 l' t F pg T M n H2 Hn HT Hz) as Ha.
    destruct (page_V2P kend t Ht) as (_ & Hm & _ & _).
    exists (with_word s2 (set_word (word s2) (pg + 4 * (n / 1024)) (V2P t + 7))). right. exists l', (<[n / 1024 := t]> T).
    assert (Hperm : t :: own pg T M ≡ₚ own pg (<[n / 1024 := t]> T) M) by (by rewrite own_table).
    assert (Hkept : kept (l' ++ upages M ++ F) s2 (with_word s2 (set_word (word s2) (pg + 4 * (n / 1024)) (V2P t + 7)))).
    { apply (kept_other _ pg).
      - apply (all_pages_sub _ _ (sp_pages _ _ _ _ _ _ H2)). unfold own. solve_submseteq.
      - intros a Hna. cbn. unfold set_word. destruct (Z.eqb_spec a (pg + 4 * (n / 1024))) as [->|]; [|done].
        exfalso. apply Hna. pose proof (page_index n Hn). unfold in_page, PGSIZE. lia. }
    split_and!.
    + erewrite bind_run by reflexivity. rewrite He. cbn [negb]. erewrite bind_run by exact E1.
      destruct (Z.eqb_spec t 0); [done|]. erewrite bind_run by exact E2. rewrite PDX_page, PTX_page by done.
      rewrite <- !Z.lor_assoc. change (Z.lor PTE_P (Z.lor PTE_W PTE_U)) with 7. rewrite lor_entry by (done || lia).
      erewrite bind_run by reflexivity. unfold slot. by rewrite lookup_insert_eq.
    + rewrite lookup_insert_eq. done.
    + constructor; [apply (free_kept s2 l' _ _ (sp_free _ _ _ _ _ _ H2) Hkept); set_solver| |exact Ha].
      apply (all_pages_perm _ _ (sp_pages _ _ _ _ _ _ H2)). rewrite <- Hperm. solve_Permutation.
    + apply (kept_trans _ _ s1); [by apply kept_eq|]. apply (kept_trans _ _ s2).
      * apply (kept_sub _ _ _ _ Hk2). clear. unfold own. set_solver.
      * apply (kept_sub _ _ _ _ Hkept). clear. set_solver.
    + rewrite <- Hperm. solve_Permutation.
    + cbn. lia.
Qed.

(** ** Entries of the page tables *)

Lemma slot_store s l F pg T M n e : space s l F pg T M -> 0 <= n < 2 ^ 20 -> is_Some (T !! (n / 1024)) -> entry_ok e ->
  let s' := with_word s (set_word (word s) (slot T n) (pte_of e)) in
  kalloc_inv kend s' l /\ aspace (word s') pg T (set_entry M n e) /\ kept (upages M ++ F) s s'.
Proof.
  intros Hsp Hn [t Ht] Hok s'. unfold s', slot. rewrite Ht. pose proof (sp_pages _ _ _ _ _ _ Hsp) as Hp.
  assert (Hkept : kept (l ++ upages M ++ F) s (with_word s (set_word (word s) (t + 4 * (n mod 1024)) (pte_of e)))).
  { apply (kept_other _ t).
    - apply (all_pages_sub _ _ Hp). unfold own. rewrite <- (insert_delete_id T _ t Ht), map_to_list_insert by (by rewrite lookup_delete_eq).
      cbn. solve_submseteq.
    - intros a Ha. cbn. unfold set_word. destruct (Z.eqb_spec a (t + 4 * (n mod 1024))) as [->|]; [|done]. by destruct Ha; apply slot_page. }
  split_and!.
  - apply (free_kept s l _ _ (sp_free _ _ _ _ _ _ Hsp) Hkept). set_solver.
  - cbn. apply set_entry_aspace; [apply Hsp|done|done|done|]. apply (all_pages_sub _ _ Hp). unfold own. solve_submseteq.
  - apply (kept_sub _ _ _ _ Hkept). clear. set_solver.
Qed.

(** A page of the rest becomes a page of the user. *)
Lemma map_user s l v F pg T M n f : space s l (v :: F) pg T M -> 0 <= n < KPAGE -> is_Some (T !! (n / 1024)) ->
  M !! n = None -> 0 <= f < 4096 -> Z.odd f = true ->
  let s' := with_word s (set_word (word s) (slot T n) (V2P v + f)) in
  space s' l F pg T (<[n := (V2P v, f)]> M) /\ kept (v :: upages M ++ F) s s'.
Proof.
  intros Hsp Hn HT HM Hf Ho s'. assert (Hv : is_page kend v) by (apply (space_page _ _ _ _ _ _ v Hsp); set_solver).
  destruct (page_V2P kend v Hv) as (_ & Hm & Hpv & Hr).
  destruct (slot_store s l (v :: F) pg T M n (Some (V2P v, f)) Hsp) as (H1 & H2 & H3); [unfold KPAGE in Hn; lia|done|unfold entry_ok; split_and!; (done || lia)|].
  split; [|apply (kept_sub _ _ _ _ H3); clear; set_solver]. constructor; [exact H1| |exact H2].
  apply (all_pages_perm _ _ (sp_pages _ _ _ _ _ _ Hsp)). unfold own. rewrite (upages_insert M n) by (done || lia). rewrite Hpv. solve_Permutation.
Qed.

Lemma map_kernel s l F pg T M n pa f : space s l F pg T M -> KPAGE <= n < 2 ^ 20 -> is_Some (T !! (n / 1024)) ->
  pa mod 4096 = 0 -> 0 <= pa < 2 ^ 32 -> 0 <= f < 4096 -> Z.odd f = true ->
  let s' := with_word s (set_word (word s) (slot T n) (pa + f)) in
  space s' l F pg T (<[n := (pa, f)]> M) /\ kept (upages M ++ F) s s'.
Proof.
  intros Hsp Hn HT Hm Hpa Hf Ho s'.
  destruct (slot_store s l F pg T M n (Some (pa, f)) Hsp) as (H1 & H2 & H3); [unfold KPAGE in Hn; lia|done|unfold entry_ok; split_and!; (done || lia)|].
  split; [|done]. constructor; [exact H1| |exact H2].
  unfold own. rewrite upages_kernel by lia. apply Hsp.
Qed.

Lemma entry_read s l F pg T M n : space s l F pg T M -> 0 <= n < 2 ^ 20 -> is_Some (T !! (n / 1024)) ->
  word s (slot T n) = pte_of (M !! n).
Proof.
  intros Hsp Hn [t Ht]. unfold slot. rewrite Ht. by apply (as_tab _ _ _ _ (sp_map _ _ _ _ _ _ Hsp)).
Qed.

(** Freeing a page of the user. *)
Lemma unmap_user s l F pg T M n pa f : space s l F pg T M -> 0 <= n < KPAGE -> M !! n = Some (pa, f) ->
  exists s1, kfree_ kend me ebp (P2V pa) s = Ok ((), s1) /\
    let s' := with_word s1 (set_word (word s1) (slot T n) 0) in
    space s' (P2V pa :: l) F pg T (delete n M) /\ kept (upages (delete n M) ++ F) s s'.
Proof.
  intros Hsp Hn HM. pose proof (upages_delete M n pa f HM ltac:(lia)) as Hup.
  pose proof (sp_pages _ _ _ _ _ _ Hsp) as Hp.
  assert (Hpp : l ++ own pg T M ++ F ≡ₚ P2V pa :: l ++ own pg T (delete n M) ++ F) by (unfold own; rewrite Hup; solve_Permutation).
  rewrite Hpp in Hp. pose proof Hp as [Hnd HF]. apply NoDup_cons in Hnd as [Hnd _]. apply Forall_cons in HF as [Hv _].
  destruct (kfree_ok kend me ebp s l (P2V pa) (sp_free _ _ _ _ _ _ Hsp) Hv) as (s1 & E & Hk1 & _ & _ & _ & Hw); [set_solver|].
  exists s1. unfold kfree_. rewrite E. split; [done|]. cbv zeta.
  pose proof (kept_other _ _ _ _ Hp Hw) as Hkept.
  assert (Ha : aspace (word s1) pg T M).
  { apply (aspace_ext _ _ _ _ _ (sp_map _ _ _ _ _ _ Hsp)).
    - intros a. apply Hkept. unfold own. set_solver.
    - intros i t a Ht. apply Hkept. rewrite !elem_of_app, elem_own. right; left; right; left. by exists i. }
  destruct (as_has _ _ _ _ Ha _ _ HM) as [Hn2 [t Ht]].
  assert (Hkept2 : kept (P2V pa :: l ++ upages (delete n M) ++ F) s1 (with_word s1 (set_word (word s1) (slot T n) 0))).
  { unfold slot. rewrite Ht. apply (kept_other _ t).
    - apply (all_pages_sub _ _ Hp). unfold own. rewrite <- (insert_delete_id T _ t Ht), map_to_list_insert by (by rewrite lookup_delete_eq).
      cbn. solve_submseteq.
    - intros a Hna. cbn. unfold set_word. destruct (Z.eqb_spec a (t + 4 * (n mod 1024))) as [->|]; [|done]. by destruct Hna; apply slot_page. }
  split.
  - constructor; [apply (free_kept s1 _ _ _ Hk1 Hkept2); set_solver|exact Hp|]. unfold slot. rewrite Ht. cbn.
    apply (set_entry_aspace _ pg T M n t None Ha Hn2 Ht I). apply (all_pages_sub _ _ Hp). unfold own. solve_submseteq.
  - apply (kept_trans _ _ s1); [apply (kept_sub _ _ _ _ Hkept)|apply (kept_sub _ _ _ _ Hkept2)]; unfold own; set_solver.
Qed.
End space.
