(* ===== verification/VmSpace.v ===== *)
(** * What the functions of [vm.c] do to an address space

    [mappages], [deallocuvm], [allocuvm], [freevm], [setupkvm] and [copyuvm]:
    which pages are mapped afterwards and with what contents, that no page is
    lost, and that the pages of all the others keep their contents. *)

From stdpp Require Import base list strings gmap.
From Stdlib Require Import ZArith Lia.
From S2P Require Import Prelude State Spinlock Kalloc Vm VmBase.

Section space.
Context (kend me ebp : Z).
(** The kernel is linked above [KERNBASE]. *)
Hypothesis Hkend : KERNBASE < kend.

Notation space := (space kend).
Notation all_pages := (all_pages kend).

(** ** [mappages] *)

Lemma lor1_range f : 0 <= f < 4096 -> 0 <= Z.lor f 1 < 4096 /\ Z.odd (Z.lor f 1) = true.
Proof.
  intros Hf. split; [|rewrite <- Z.bit0_odd, Z.lor_spec; by destruct (Z.testbit f 0)].
  split; [apply Z.lor_nonneg; lia|]. destruct (decide (Z.lor f 1 = 0)) as [->|]; [lia|].
  assert (0 <= Z.lor f 1) by (apply Z.lor_nonneg; lia). apply Z.log2_lt_cancel. change (Z.log2 4096) with 12.
  rewrite Z.log2_lor by lia. change (Z.log2 1) with 0. destruct (decide (f = 0)) as [->|]; [cbn; lia|].
  apply Z.max_lub_lt; [|lia]. apply Z.log2_lt_pow2; lia.
Qed.

(** One turn of the loop: the entry exists and is free, or there is no memory. *)
Lemma map_turn fuel s l F pg T M n last pa perm : space s l F pg T M -> 0 <= n < 2 ^ 20 -> M !! n = None ->
  pa mod 4096 = 0 -> 0 <= perm < 4096 ->
  let body := mappages_loop me ebp (S fuel) pg (4096 * n) last pa perm in
  exists s', (body s = Ok (-1, s') /\ l = [] /\ space s' l F pg T M /\ kept (own pg T M ++ F) s s') \/
    (exists l' T', (let s2 := with_word s' (set_word (word s') (slot T' n) (pa + Z.lor perm 1)) in
       body s = if 4096 * n =? last then Ok (0, s2) else mappages_loop me ebp fuel pg (u32 (4096 * n + PGSIZE)) last (u32 (pa + PGSIZE)) perm s2) /\
       is_Some (T' !! (n / 1024)) /\ space s' l' F pg T' M /\ kept (upages M ++ F) s s' /\
       l' ++ own pg T' M ≡ₚ l ++ own pg T M /\ (length l <= S (length l'))%nat).
Proof.
  intros Hsp Hn HM Hm Hperm body. destruct (walk_alloc kend me ebp s l F pg T M n Hsp Hn)
    as (s' & [(E & Hl & HT & Hsp' & Hk)|(l' & T' & E & HT' & Hsp' & Hk & Hp & Hlen)]); exists s'.
  - left. split_and!; try done. unfold body. cbn [mappages_loop]. by erewrite bind_run by exact E.
  - right. exists l', T'. split_and!; try done. unfold body. cbn [mappages_loop]. erewrite bind_run by exact E. destruct HT' as [t Ht].
    rewrite (slot_nonzero kend s' l' F pg T' M n t Hsp' Ht). erewrite bind_run by reflexivity.
    rewrite (entry_read kend s' l' F pg T' M n) by (done || by exists t). rewrite HM. cbn [pte_of].
    change (has 0 PTE_P) with false. cbv iota. erewrite bind_run by reflexivity.
    rewrite <- Z.lor_assoc. change PTE_P with 1. rewrite lor_entry by (done || by apply lor1_range). by destruct (_ =? _).
Qed.

(** A page of the user's half. *)
Lemma map_one s l v F pg T M n perm : space s l (v :: F) pg T M -> 0 <= n < KPAGE -> M !! n = None -> 0 <= perm < 4096 ->
  let M' := <[n := (V2P v, Z.lor perm 1)]> M in
  exists s', (mappages me ebp pg (4096 * n) PGSIZE (V2P v) perm s = Ok (-1, s') /\ l = [] /\ space s' l (v :: F) pg T M /\
              kept (own pg T M ++ v :: F) s s') \/
    (exists l' T', mappages me ebp pg (4096 * n) PGSIZE (V2P v) perm s = Ok (0, s') /\ space s' l' F pg T' M' /\
       kept (v :: upages M ++ F) s s' /\ l' ++ own pg T' M' ≡ₚ v :: l ++ own pg T M /\ (length l <= S (length l'))%nat).
Proof.
  intros Hsp Hn HM Hperm M'. unfold KPAGE in Hn. assert (Hv : is_page kend v) by (apply (space_page _ _ _ _ _ _ _ v Hsp); set_solver).
  destruct (page_V2P kend v Hv) as (_ & Hm & Hpv & Hr). destruct (lor1_range perm Hperm) as [Hf Ho].
  unfold mappages, PGSIZE. rewrite (u32_small (4096 * n + 4096 - 1)) by lia. rewrite !PGROUNDDOWN_eq.
  assert (4096 * n / 4096 = n) as -> by (rewrite (Z.mul_comm 4096); apply Z.div_mul; lia).
  assert ((4096 * n + 4096 - 1) / 4096 = n) as -> by (symmetry; apply (Z.div_unique_pos _ _ _ 4095); lia).
  rewrite Z.sub_diag. change (Z.to_nat (u32 0 / 4096)) with O.
  destruct (map_turn 0 s l (v :: F) pg T M n (4096 * n) (V2P v) perm Hsp)
    as (s' & [(E & Hl & Hsp' & Hk)|(l' & T' & E & HT' & Hsp' & Hk & Hp & Hlen)]); [lia|done|done|done|..]; cbv zeta in E; rewrite E; clear E.
  { exists s'. left. by split_and!. }
  rewrite Z.eqb_refl.
  destruct (map_user kend s' l' v F pg T' M n (Z.lor perm 1) Hsp' ltac:(done) HT' HM Hf Ho) as [H1 H2]. cbv zeta in H1, H2.
  eexists. right. exists l', T'. split_and!; [reflexivity|exact H1| | |done].
  - apply (kept_trans _ _ s'); [|done]. apply (kept_sub _ _ _ _ Hk). clear. set_solver.
  - unfold M', own in *. rewrite (upages_insert M n) by (done || unfold KPAGE; lia). rewrite Hpv. revert Hp. clear.
    intros Hp. rewrite <- Hp. solve_Permutation.
Qed.

(** A range of the kernel's half.  The entries of [n .. n + k] are added to [M]. *)
Lemma map_range k s l F pg T M n pa perm : space s l F pg T M -> KPAGE <= n -> n + Z.of_nat k < 2 ^ 20 ->
  (forall j, n <= j <= n + Z.of_nat k -> M !! j = None) ->
  pa mod 4096 = 0 -> 0 <= pa -> pa + 4096 * Z.of_nat k < 2 ^ 32 -> 0 <= perm < 4096 ->
  exists r s' l' T' M', mappages_loop me ebp (S k) pg (4096 * n) (4096 * (n + Z.of_nat k)) pa perm s = Ok (r, s') /\
    space s' l' F pg T' M' /\ kept F s s' /\ l' ++ own pg T' M' ≡ₚ l ++ own pg T M /\
    (forall j, j < KPAGE -> M' !! j = M !! j) /\
    ((r = -1 /\ l' = []) \/
     (r = 0 /\ forall j, M' !! j = if bool_decide (n <= j <= n + Z.of_nat k) then Some (pa + 4096 * (j - n), Z.lor perm 1) else M !! j)).
Proof.
  intros Hsp Hn Hk HM Hm Hpa Hpk Hperm. destruct (lor1_range perm Hperm) as [Hf Ho].
  revert s l T M n pa Hsp Hn Hk HM Hm Hpa Hpk. induction k as [k IH] using lt_wf_ind; intros s l T M n pa Hsp Hn Hk HM Hm Hpa Hpk.
  unfold KPAGE in Hn. destruct (map_turn k s l F pg T M n (4096 * (n + Z.of_nat k)) pa perm Hsp)
    as (s1 & [(E & Hl & Hsp' & Hk1)|(l1 & T1 & E & HT1 & Hsp1 & Hk1 & Hp1 & _)]); [lia|apply HM; lia|done|done|..];
    cbv zeta in E; rewrite E; clear E.
  { eexists (-1), s1, l, T, M; split_and!; [reflexivity|done|apply (kept_sub _ _ _ _ Hk1); clear; set_solver|done|done|by left]. }
  destruct (map_kernel kend s1 l1 F pg T1 M n pa (Z.lor perm 1) Hsp1) as [H1 H2];
    [unfold KPAGE; lia|done|done|lia|done|done|]; cbv zeta in H1, H2.
  destruct k as [|k].
  - replace (n + Z.of_nat 0) with n by lia. rewrite Z.eqb_refl. do 5 eexists. split_and!; [reflexivity|exact H1| | | |].
    + apply (kept_trans _ _ s1); [apply (kept_sub _ _ _ _ Hk1)|apply (kept_sub _ _ _ _ H2)]; clear; set_solver.
    + unfold own in *. by rewrite upages_kernel by (unfold KPAGE; lia).
    + intros j Hj. unfold KPAGE in Hj. by rewrite lookup_insert_ne by lia.
    + right. split; [done|]. intros j. case_bool_decide.
      * assert (j = n) as -> by lia. rewrite lookup_insert_eq. f_equal. f_equal. lia.
      * by rewrite lookup_insert_ne by lia.
  - destruct (Z.eqb_spec (4096 * n) (4096 * (n + Z.of_nat (S k)))); [lia|]. unfold PGSIZE. rewrite !u32_small by lia.
    replace (4096 * n + 4096) with (4096 * (n + 1)) by lia. replace (n + Z.of_nat (S k)) with (n + 1 + Z.of_nat k) by lia.
    destruct (IH k ltac:(lia) _ l1 T1 (<[n := (pa, Z.lor perm 1)]> M) (n + 1) (pa + 4096) H1) as (r & s' & l' & T' & M' & -> & H3 & H4 & H5 & H6 & H7);
      [unfold KPAGE; lia|lia| |by rewrite Z.add_mod, Hm by lia|lia|lia|].
    { intros j Hj. rewrite lookup_insert_ne by lia. apply HM. lia. }
    exists r, s', l', T', M'. split_and!; [done|done| | | |].
    + apply (kept_trans _ _ s1); [apply (kept_sub _ _ _ _ Hk1); clear; set_solver|].
      refine (kept_trans _ _ _ _ _ H4). apply (kept_sub _ _ _ _ H2); clear; set_solver.
    + rewrite H5, <- Hp1. unfold own. by rewrite upages_kernel by (unfold KPAGE; lia).
    + intros j Hj. rewrite (H6 j Hj). unfold KPAGE in Hj. by rewrite lookup_insert_ne by lia.
    + destruct H7 as [H7|[-> H7]]; [by left|right]. split; [done|]. intros j. rewrite H7. case_bool_decide.
      * rewrite bool_decide_true by lia. f_equal. f_equal. lia.
      * destruct (decide (j = n)) as [->|]; [rewrite lookup_insert_eq, bool_decide_true by lia; f_equal; f_equal; lia|].
        rewrite lookup_insert_ne, bool_decide_false by lia. done.
Qed.

(** ** [deallocuvm] *)

(** The entries of the pages from [n] on, below the address [sz], are gone. *)
Definition cut (M M' : gmap Z (Z * Z)) (n sz : Z) : Prop :=
  forall j, M' !! j = if bool_decide (n <= j /\ 4096 * j < sz) then None else M !! j.

Lemma cut_none M n sz : sz <= 4096 * n -> cut M M n sz.
Proof. intros H j. rewrite bool_decide_false by lia. done. Qed.

(** The pages of [n .. m] have no entries, the rest is cut. *)
Lemma cut_skip M M' n m sz : n <= m -> (forall j, n <= j < m -> M !! j = None) -> cut M M' m sz -> cut M M' n sz.
Proof.
  intros Hnm Hno Hc j. rewrite (Hc j). destruct (decide (m <= j)).
  - case_bool_decide; [rewrite bool_decide_true by lia|rewrite bool_decide_false by lia]; done.
  - rewrite (bool_decide_false (m <= j /\ _)) by lia. case_bool_decide; [apply Hno; lia|done].
Qed.

Lemma cut_delete M M' n sz : 4096 * n < sz -> cut (delete n M) M' (n + 1) sz -> cut M M' n sz.
Proof.
  intros Hn Hc j. rewrite (Hc j). destruct (decide (j = n)) as [->|].
  - rewrite (bool_decide_true (n <= n /\ _)) by lia. rewrite bool_decide_false by lia. apply lookup_delete_eq.
  - rewrite lookup_delete_ne by done. case_bool_decide; [rewrite bool_decide_true by lia|rewrite bool_decide_false by lia]; done.
Qed.

Lemma upages_sub M M' v : (forall j e, M' !! j = Some e -> M !! j = Some e) -> v ∈ upages M' -> v ∈ upages M.
Proof. intros Hs. rewrite !elem_upages. intros (n & pa & f & HM & Hn & ->). exists n, pa, f. split_and!; auto. Qed.

Lemma cut_sub M M' n sz j e : cut M M' n sz -> M' !! j = Some e -> M !! j = Some e.
Proof. intros Hc. rewrite (Hc j). by case_bool_decide. Qed.

(** The next page directory entry. *)
Lemma PGADDR_next n : 0 <= n < KPAGE ->
  u32 (u32 (PGADDR (PDX (4096 * n) + 1) 0 0 - PGSIZE) + PGSIZE) = 4096 * (1024 * (n / 1024 + 1)).
Proof.
  unfold KPAGE. intros Hn. rewrite PDX_page by lia. unfold PGADDR. change (Z.lor (Z.shiftl 0 12) 0) with 0. rewrite Z.lor_0_r.
  rewrite Z.shiftl_mul_pow2 by lia. assert (0 <= n / 1024 < 512) by (split; [apply Z.div_pos|apply Z.div_lt_upper_bound]; lia).
  unfold PGSIZE. rewrite (u32_small (_ * _)) by lia. rewrite (u32_small (_ - 4096)) by lia. rewrite u32_small; lia.
Qed.

Lemma space_user s l F pg T M n pa f : space s l F pg T M -> M !! n = Some (pa, f) -> n < KPAGE -> is_page kend (P2V pa).
Proof.
  intros Hsp HM Hn. apply (space_page _ _ _ _ _ _ _ _ Hsp). rewrite !elem_of_app, elem_own, elem_upages. right; left; right; right.
  by exists n, pa, f.
Qed.

Lemma dealloc_loop fuel s l F pg T M n sz : space s l F pg T M -> 0 <= n -> sz <= 4096 * KPAGE ->
  (Z.to_nat ((sz + 4095) / 4096 - n) < fuel)%nat ->
  exists s' l' M', deallocuvm_loop kend me ebp fuel pg (4096 * n) sz s = Ok ((), s') /\ space s' l' F pg T M' /\
    cut M M' n sz /\ kept (upages M' ++ F) s s' /\ l' ++ own pg T M' ≡ₚ l ++ own pg T M.
Proof.
  revert s l M n. induction fuel as [|fuel IH]; intros s l M n Hsp Hn Hsz Hf; [lia|]. cbn [deallocuvm_loop].
  destruct (Z.ltb_spec (4096 * n) sz) as [Hlt|Hge]; [|exists s, l, M; split_and!; try done; by apply cut_none].
  assert (Hn2 : 0 <= n < KPAGE) by (unfold KPAGE in *; lia).
  assert (Hup : n < (sz + 4095) / 4096) by (assert (n + 1 <= (sz + 4095) / 4096) by (apply Z.div_le_lower_bound; lia); lia).
  assert (Hn3 : 0 <= n < 2 ^ 20) by (unfold KPAGE in *; lia).
  erewrite bind_run by (apply (walk_found kend me ebp s l F pg T M); [done|done|by right]).
  assert (Hnext : u32 (4096 * n + PGSIZE) = 4096 * (n + 1)) by (unfold PGSIZE, KPAGE in *; rewrite u32_small; lia).
  destruct (T !! (n / 1024)) as [t|] eqn:HT.
  - rewrite (slot_nonzero kend s l F pg T M n t Hsp HT). erewrite bind_run by reflexivity.
    rewrite (entry_read kend s l F pg T M n) by (done || by exists t). destruct (M !! n) as [[pa f]|] eqn:HM; cbn [pte_of].
    + destruct (as_ent _ _ _ _ (sp_map _ _ _ _ _ _ _ Hsp) _ _ _ HM) as (Hm & Hr & Hfl & Ho).
      rewrite has_P, odd_entry, Ho by done. rewrite PTE_ADDR_eq by done.
      destruct (unmap_user kend me ebp s l F pg T M n pa f Hsp Hn2 HM) as (s1 & E1 & H1 & Hk1). cbv zeta in H1, Hk1.
      assert (Hpa : (pa =? 0) = false).
      { apply Z.eqb_neq. intros ->. assert (Hv : is_page kend (P2V 0)) by (apply (space_user s l F pg T M n 0 f); (done || lia)).
        change (P2V 0) with KERNBASE in Hv. destruct Hv as (_ & _ & ? & _). lia. }
      rewrite Hpa. erewrite bind_run by exact E1. erewrite bind_run by reflexivity. rewrite Hnext.
      destruct (IH _ _ _ (n + 1) H1) as (s' & l' & M' & -> & H2 & Hc & Hk & Hp); [lia|done|lia|].
      exists s', l', M'. split_and!; [done|done|by apply cut_delete| |].
      * refine (kept_trans _ _ _ _ _ Hk). apply (kept_sub _ _ _ _ Hk1). intros p [Hp'|Hp']%elem_of_app; apply elem_of_app; [left|by right].
        revert Hp'. apply upages_sub. intros j e. by apply (cut_sub _ _ _ _ _ _ Hc).
      * rewrite Hp. unfold own. rewrite (upages_delete M n pa f) by (done || lia). solve_Permutation.
    + change (has 0 PTE_P) with false. cbv iota. rewrite Hnext.
      destruct (IH _ _ _ (n + 1) Hsp) as (s' & l' & M' & -> & H2 & Hc & Hk & Hp); [lia|done|lia|].
      exists s', l', M'. split_and!; try done. apply (cut_skip _ _ n (n + 1)); [lia| |done]. intros j Hj. by replace j with n by lia.
  - unfold slot. rewrite HT. cbn [Z.eqb]. rewrite PGADDR_next by done. pose proof (Z.div_mod n 1024 ltac:(lia)).
    pose proof (Z.mod_pos_bound n 1024 ltac:(lia)).
    destruct (IH _ _ _ (1024 * (n / 1024 + 1)) Hsp) as (s' & l' & M' & -> & H2 & Hc & Hk & Hp); [lia|done|lia|].
    exists s', l', M'. split_and!; try done. apply (cut_skip _ _ n (1024 * (n / 1024 + 1))); [lia| |done].
    intros j Hj. destruct (M !! j) eqn:HM; [|done]. destruct (as_has _ _ _ _ (sp_map _ _ _ _ _ _ _ Hsp) _ _ HM) as [_ [t Ht]].
    replace (j / 1024) with (n / 1024) in Ht; [congruence|]. apply (Z.div_unique_pos _ _ _ (j - 1024 * (n / 1024))); lia.
Qed.

Lemma up_page n : 0 <= n -> (4096 * n + 4095) / 4096 = n.
Proof. intros H. symmetry. apply (Z.div_unique_pos _ _ _ 4095); lia. Qed.

Lemma dealloc_spec s l F pg T M oldsz newsz : space s l F pg T M -> 0 <= newsz -> oldsz <= KERNBASE ->
  exists s' l' M', deallocuvm kend me ebp pg oldsz newsz s = Ok (Z.min oldsz newsz, s') /\ space s' l' F pg T M' /\
    cut M M' ((newsz + 4095) / 4096) oldsz /\ kept (upages M' ++ F) s s' /\ l' ++ own pg T M' ≡ₚ l ++ own pg T M.
Proof.
  intros Hsp Hn Ho. unfold deallocuvm. destruct (Z.leb_spec oldsz newsz) as [Hle|Hlt].
  - exists s, l, M. rewrite Z.min_l by done. split_and!; try done. apply cut_none.
    pose proof (Z.div_mod (newsz + 4095) 4096 ltac:(lia)). pose proof (Z.mod_pos_bound (newsz + 4095) 4096 ltac:(lia)). lia.
  - unfold KERNBASE in Ho. rewrite PGROUNDUP_eq by lia.
    assert (0 <= (newsz + 4095) / 4096) as Hq by (apply Z.div_pos; lia).
    destruct (dealloc_loop (S (S (Z.to_nat ((oldsz - 4096 * ((newsz + 4095) / 4096)) / PGSIZE)))) s l F pg T M
      ((newsz + 4095) / 4096) oldsz Hsp Hq) as (s' & l' & M' & E & H1 & H2 & H3 & H4); [unfold KPAGE; lia| |].
    + unfold PGSIZE. generalize ((newsz + 4095) / 4096). intros q.
      replace (oldsz - 4096 * q) with (oldsz + (- q) * 4096) by lia. rewrite Z.div_add by lia.
      assert ((oldsz + 4095) / 4096 <= oldsz / 4096 + 1); [|lia].
      replace (oldsz / 4096 + 1) with ((oldsz + 1 * 4096) / 4096) by (rewrite Z.div_add; lia). apply Z.div_le_mono; lia.
    + exists s', l', M'. rewrite Z.min_r by lia. split_and!; try done. by erewrite bind_run by exact E.
Qed.

(** ** [allocuvm] and [allocxuvm]

    The two differ in what they put into a new page, and in its flags. *)

Section grow.
(** The first page, what is done to the page for an address, what holds of it then, and the permissions. *)
Context (c0 : Z) (fill : Z -> Z -> ST kst unit) (Q : Z -> kst -> Z -> Prop) (perm : Z).
Hypothesis Hperm : 0 <= perm < 4096.
Hypothesis Hfill : forall c s l v F pg T M, c0 <= c -> space s l (v :: F) pg T M ->
  exists s', fill (4096 * c) v s = Ok ((), s') /\ space s' l (v :: F) pg T M /\ kept (own pg T M ++ F) s s' /\ Q c s' v.
Hypothesis HQ : forall c s s' v, Q c s v -> kept [v] s s' -> Q c s' v.

Fixpoint grow_loop (fuel : nat) (pgdir a oldsz newsz : Z) : ST kst Z :=
  match fuel with
  | O => fault OutOfFuel
  | S fuel =>
    if a <? newsz then
      mem ← kalloc_ me ebp;
      if mem =? 0 then
        _ ← deallocuvm kend me ebp pgdir newsz oldsz;
        mret 0
      else
        _ ← fill a mem;
        r ← mappages me ebp pgdir a PGSIZE (V2P mem) perm;
        if r <? 0 then
          _ ← deallocuvm kend me ebp pgdir newsz oldsz;
          _ ← kfree_ kend me ebp mem;
          mret 0
        else grow_loop fuel pgdir (u32 (a + PGSIZE)) oldsz newsz
    else mret newsz
  end.

(** The pages from [c] to [m] have been added. *)
Definition grown (s : kst) (M M' : gmap Z (Z * Z)) (c m : Z) : Prop := forall j,
  if bool_decide (c <= j < m) then exists pa, M' !! j = Some (pa, Z.lor perm 1) /\ Q j s (P2V pa) else M' !! j = M !! j.

Lemma grown_cons s s' M M' c m v : grown s' (<[c := (V2P v, Z.lor perm 1)]> M) M' (c + 1) m -> c + 1 <= m ->
  P2V (V2P v) = v -> Q c s v -> kept [v] s s' -> grown s' M M' c m.
Proof using HQ.
  intros Hg Hm Hv Hz Hk j. specialize (Hg j). destruct (decide (j = c)) as [->|].
  - rewrite bool_decide_false, lookup_insert_eq in Hg by lia. rewrite bool_decide_true by lia. exists (V2P v). rewrite Hv.
    split; [exact Hg|]. by apply (HQ c s).
  - destruct (decide (c <= j < m)).
    + rewrite bool_decide_true in Hg by lia. by rewrite bool_decide_true by lia.
    + rewrite bool_decide_false, lookup_insert_ne in Hg by lia. by rewrite bool_decide_false by lia.
Qed.

(** The pages added so far are given back, and the one in hand. *)
Lemma grow_fail s v F pg T M oldsz newsz : space s [] (v :: F) pg T M -> 0 <= oldsz -> newsz < KERNBASE ->
  exists s' l' M', (_ ← deallocuvm kend me ebp pg newsz oldsz; _ ← kfree_ kend me ebp v; mret 0) s = Ok (0, s') /\
    space s' l' F pg T M' /\ l' ++ own pg T M' ≡ₚ v :: own pg T M /\ cut M M' ((oldsz + 4095) / 4096) newsz /\ kept (upages M' ++ F) s s'.
Proof using Hkend.
  intros Hsp Ho Hn. destruct (dealloc_spec s [] (v :: F) pg T M newsz oldsz Hsp ltac:(lia)) as (s4 & l4 & M' & E4 & H4 & Hcut & Hk4 & Hp4); [lia|].
  destruct (kfree_step kend me ebp s4 l4 v F pg T M' H4) as (s5 & E5 & H5 & Hk5).
  exists s5, (v :: l4), M'. split_and!; [by erewrite bind_run, bind_run by (exact E4 || exact E5)|done|by cbn; rewrite Hp4|done|].
  apply (kept_trans _ _ s4); [apply (kept_sub _ _ _ _ Hk4); clear; set_solver|]. apply (kept_sub _ _ _ _ Hk5). clear. unfold own. set_solver.
Qed.

Lemma cut_pages M M' pg T F n sz p : cut M M' n sz -> p ∈ upages M' ++ F -> p ∈ own pg T M ++ F.
Proof.
  intros Hcut [Hp|Hp]%elem_of_app; apply elem_of_app; [left|by right]. apply elem_own. right; right.
  revert Hp. apply upages_sub. intros j e. by apply (cut_sub _ _ _ _ _ _ Hcut).
Qed.

Lemma grow_spec fuel s l F pg T M c oldsz newsz : space s l F pg T M -> 0 <= oldsz -> newsz < KERNBASE ->
  (oldsz + 4095) / 4096 <= c -> c0 <= c -> (forall j, c <= j < KPAGE -> M !! j = None) ->
  (Z.to_nat ((newsz + 4095) / 4096 - c) < fuel)%nat ->
  exists r s' l' T' M', grow_loop fuel pg (4096 * c) oldsz newsz s = Ok (r, s') /\
    space s' l' F pg T' M' /\ l' ++ own pg T' M' ≡ₚ l ++ own pg T M /\
    ((r = newsz /\ grown s' M M' c ((newsz + 4095) / 4096) /\ kept (upages M ++ F) s s') \/
     (r = 0 /\ cut M M' ((oldsz + 4095) / 4096) newsz /\ kept (upages M' ++ F) s s' /\
      Z.of_nat (length l) < 2 * ((newsz + 4095) / 4096 - c))).
Proof using Hkend Hperm Hfill HQ.
  revert s l T M c. induction fuel as [|fuel IH]; intros s l T M c Hsp Ho Hn Hc Hc0 HM Hf; [lia|]. cbn [grow_loop].
  assert (0 <= (oldsz + 4095) / 4096) as Hq by (apply Z.div_pos; lia).
  destruct (Z.ltb_spec (4096 * c) newsz) as [Hlt|Hge].
  2:{ exists newsz, s, l, T, M. split_and!; try done. left. split_and!; try done. intros j.
      rewrite bool_decide_false; [done|]. assert ((newsz + 4095) / 4096 <= c); [|lia].
      apply Z.lt_succ_r, Z.div_lt_upper_bound; lia. }
  assert (Hup : c + 1 <= (newsz + 4095) / 4096) by (apply Z.div_le_lower_bound; lia).
  unfold KERNBASE in Hn. assert (Hc2 : 0 <= c < KPAGE) by (unfold KPAGE; lia).
  destruct (kalloc_step kend me ebp s l F pg T M Hsp) as (s1 & Hw1 & [(-> & E1 & H1)|(v & l1 & -> & Hnz & Hv & E1 & H1)]);
    erewrite bind_run by exact E1.
  - cbn [Z.eqb].
    destruct (dealloc_spec s1 [] F pg T M newsz oldsz H1 ltac:(lia)) as (s' & l' & M' & E & H2 & Hcut & Hk & Hp); [unfold KERNBASE; lia|].
    exists 0, s', l', T, M'. split_and!; [by erewrite bind_run by exact E|done|done|]. right. split_and!; [done|done| |cbn; lia].
    refine (kept_trans _ _ _ _ _ Hk). by apply kept_eq.
  - rewrite (proj2 (Z.eqb_neq v 0) Hnz).
    destruct (Hfill c s1 l1 v F pg T M Hc0 H1) as (s2 & E2 & H2 & Hk2 & Hz). erewrite bind_run by exact E2.
    assert (Hk12 : kept (own pg T M ++ F) s s2) by (apply (kept_trans _ _ s1); [by apply kept_eq|done]).
    destruct (map_one s2 l1 v F pg T M c perm H2 Hc2 (HM c ltac:(lia)) Hperm) as (s3 & [(E3 & -> & H3 & Hk3)|(l3 & T3 & E3 & H3 & Hk3 & Hp3 & Hlen)]);
      erewrite bind_run by exact E3; cbn [Z.ltb Z.compare].
    + destruct (grow_fail s3 v F pg T M oldsz newsz H3 Ho Hn) as (s5 & l5 & M' & E5 & H5 & Hp5 & Hcut & Hk5).
      exists 0, s5, l5, T, M'. split_and!; [exact E5|done|by rewrite Hp5|]. right. split_and!; [done|done| |cbn; lia].
      apply (kept_trans _ _ s2); [apply (kept_sub _ _ _ _ Hk12); intros p; by apply (cut_pages M M' pg T F _ _ p Hcut)|].
      apply (kept_trans _ _ s3); [|done]. apply (kept_sub _ _ _ _ Hk3). intros p Hp'. apply (cut_pages M M' pg T F _ _ p Hcut) in Hp'. set_solver.
    + rewrite (u32_small (4096 * c + PGSIZE)) by (unfold PGSIZE, KPAGE in *; lia). replace (4096 * c + PGSIZE) with (4096 * (c + 1)) by (unfold PGSIZE; lia).
      set (M3 := <[c := (V2P v, Z.lor perm 1)]> M) in *.
      destruct (IH s3 l3 T3 M3 (c + 1) H3 Ho ltac:(done) ltac:(lia) ltac:(lia)) as (r & s' & l' & T' & M' & -> & H4 & Hp4 & Hr); [|lia|].
      { intros j Hj. unfold M3. rewrite lookup_insert_ne by lia. apply HM. lia. }
      destruct (page_V2P kend v Hv) as (_ & _ & Hpv & _).
      assert (Hup3 : upages M3 ≡ₚ v :: upages M) by (unfold M3; rewrite upages_insert by (apply HM || idtac; lia); by rewrite Hpv).
      assert (Hkz : kept (upages M ++ F) s s3).
      { apply (kept_trans _ _ s2); [apply (kept_sub _ _ _ _ Hk12); clear; unfold own; set_solver|apply (kept_sub _ _ _ _ Hk3); clear; set_solver]. }
      exists r, s', l', T', M'. split_and!; [done|done|by rewrite Hp4, Hp3|].
      destruct Hr as [(-> & Hg & Hk)|(-> & Hcut & Hk & Hlt2)]; [left|right]; (split; [done|]).
      * assert (Hsub : forall p, p ∈ v :: upages M ++ F -> p ∈ upages M3 ++ F) by (intros p; rewrite Hup3; clear; set_solver).
        split; [|apply (kept_trans _ _ s3); [done|]; apply (kept_sub _ _ _ _ Hk); intros p Hp'; apply Hsub; by right].
        apply (grown_cons s3 s' M M' c _ v); try done.
        -- apply (HQ c s2); [done|]. apply (kept_sub _ _ _ _ Hk3). clear. set_solver.
        -- apply (kept_sub _ _ _ _ Hk). intros p Hp'. apply Hsub. apply list_elem_of_singleton in Hp' as ->. left.
      * assert (Hcut' : cut M M' ((oldsz + 4095) / 4096) newsz).
        { intros j. rewrite (Hcut j). case_bool_decide; [done|]. unfold M3. by rewrite lookup_insert_ne by lia. }
        split_and!; [done| |cbn; lia]. apply (kept_trans _ _ s3); [|done]. apply (kept_sub _ _ _ _ Hkz).
        intros p [Hp'|Hp']%elem_of_app; apply elem_of_app; [left|by right]. revert Hp'. apply upages_sub.
        intros j e. by apply (cut_sub _ _ _ _ _ _ Hcut').
Qed.

(** The user's pages are those below [c]. *)
Definition covers (M : gmap Z (Z * Z)) (c : Z) : Prop := forall j, 0 <= j < KPAGE -> (is_Some (M !! j) <-> j < c).

(** The space with more pages, or the same space when there is no memory. *)
Lemma grow_all s l F pg T M oldsz newsz : space s l F pg T M -> covers M ((oldsz + 4095) / 4096) -> c0 <= (oldsz + 4095) / 4096 ->
  0 <= oldsz <= newsz -> newsz < KERNBASE ->
  let c := (oldsz + 4095) / 4096 in let m := (newsz + 4095) / 4096 in
  exists r s' l' T' M', grow_loop (S (S (Z.to_nat ((newsz - 4096 * c) / PGSIZE)))) pg (4096 * c) oldsz newsz s = Ok (r, s') /\
    space s' l' F pg T' M' /\ l' ++ own pg T' M' ≡ₚ l ++ own pg T M /\ kept (upages M ++ F) s s' /\
    ((r = newsz /\ grown s' M M' c m) \/ (r = 0 /\ M' = M /\ Z.of_nat (length l) < 2 * (m - c))).
Proof using Hkend Hperm Hfill HQ.
  intros Hsp Hc Hc0 Ho Hn c m. assert (0 <= c) by (apply Z.div_pos; lia).
  destruct (grow_spec (S (S (Z.to_nat ((newsz - 4096 * c) / PGSIZE)))) s l F pg T M c oldsz newsz Hsp)
    as (r & s' & l' & T' & M' & E & Hsp' & Hp & Hr); [lia|done|done|done| | |].
  - intros j Hj. destruct (M !! j) eqn:E; [|done]. assert (j < c) by (apply Hc; [lia|by rewrite E]). lia.
  - unfold PGSIZE. replace (newsz - 4096 * c) with (newsz + (- c) * 4096) by lia. rewrite Z.div_add by lia.
    assert ((newsz + 4095) / 4096 <= newsz / 4096 + 1); [|lia].
    replace (newsz / 4096 + 1) with ((newsz + 1 * 4096) / 4096) by (rewrite Z.div_add; lia). apply Z.div_le_mono; lia.
  - exists r, s', l', T', M'. destruct Hr as [(-> & Hg & Hk)|(-> & Hcut & Hk & Hl)]; [split_and!; try done; by left|].
    assert (M' = M) as ->.
    { apply map_eq. intros j. rewrite (Hcut j). case_bool_decide as Hj; [|done]. symmetry.
      destruct (M !! j) eqn:HM; [|done]. assert (j < c); [|lia]. apply Hc; [unfold KERNBASE, KPAGE in *; lia|by rewrite HM]. }
    split_and!; try done. by right.
Qed.
End grow.

Definition zeroed (s : kst) (p : Z) : Prop := p mod 4096 = 0 /\ forall a, in_page p a -> word s a = 0.

Lemma alloc_loop_eq fuel pg a oldsz newsz s :
  allocuvm_loop kend me ebp fuel pg a oldsz newsz s = grow_loop (fun _ => clear_page) (Z.lor PTE_W PTE_U) fuel pg a oldsz newsz s.
Proof.
  revert a s. induction fuel as [|fuel IH]; intros a s; cbn [allocuvm_loop grow_loop]; [done|].
  destruct (a <? newsz); [|done]. unfold mbind, st_bind. destruct (kalloc_ me ebp s) as [[mem s1]| |]; [|done..].
  destruct (mem =? 0); [done|]. destruct (clear_page mem s1) as [[[] s2]| |]; [|done..].
  destruct (mappages _ _ _ _ _ _ _ s2) as [[r s3]| |]; [|done..]. destruct (r <? 0); [done|]. apply IH.
Qed.

Lemma alloc_spec s l F pg T M oldsz newsz : space s l F pg T M -> covers M ((oldsz + 4095) / 4096) ->
  0 <= oldsz <= newsz -> newsz < KERNBASE ->
  let c := (oldsz + 4095) / 4096 in let m := (newsz + 4095) / 4096 in
  exists r s' l' T' M', allocuvm kend me ebp pg oldsz newsz s = Ok (r, s') /\
    space s' l' F pg T' M' /\ l' ++ own pg T' M' ≡ₚ l ++ own pg T M /\ kept (upages M ++ F) s s' /\
    ((r = newsz /\ grown (fun _ => zeroed) 6 s' M M' c m) \/ (r = 0 /\ M' = M /\ Z.of_nat (length l) < 2 * (m - c))).
Proof.
  intros Hsp Hc Ho Hn c m. unfold allocuvm. destruct (Z.leb_spec KERNBASE newsz); [lia|]. destruct (Z.ltb_spec newsz oldsz); [lia|].
  rewrite PGROUNDUP_eq by (unfold KERNBASE in *; lia). cbv zeta. rewrite alloc_loop_eq. change (Z.lor PTE_W PTE_U) with 6.
  apply (grow_all ((oldsz + 4095) / 4096)); try done.
  - intros _ s1 l1 v F1 pg1 T1 M1 _ H1. destruct (clear_step kend s1 l1 v F1 pg1 T1 M1 H1) as (s2 & ? & ? & ? & ?). exists s2.
    split_and!; [done|done|done|]. split; [|done]. apply (page_range kend), (space_page kend _ _ _ _ _ _ v H1). set_solver.
  - intros _ s1 s2 v [Hm Hz] Hk. split; [done|]. intros a Ha. rewrite (Hk v a); [by apply Hz|left|done].
Qed.

(** ** [freevm] *)

Lemma kfree_any s l v F : kalloc_inv kend s l -> all_pages (l ++ v :: F) ->
  exists s', kfree_ kend me ebp v s = Ok ((), s') /\ kalloc_inv kend s' (v :: l) /\ kept F s s'.
Proof.
  intros Hk Hp. assert (Hp' : all_pages (v :: l ++ F)) by (apply (all_pages_perm _ _ _ Hp); solve_Permutation).
  pose proof Hp' as [Hn HF]. apply NoDup_cons in Hn as [Hn _]. apply Forall_cons in HF as [Hv _].
  destruct (kfree_ok kend me ebp s l v Hk Hv) as (s' & E & Hk' & _ & _ & _ & Hw); [set_solver|].
  exists s'. unfold kfree_. rewrite E. split_and!; [done|done|]. apply (kept_sub (l ++ F)); [|set_solver]. by apply (kept_other kend _ v).
Qed.

(** The tables from the [i]-th directory entry on. *)
Definition tables_from (T : gmap Z Z) (i : Z) : list Z := (map_to_list (filter (fun e => i <= e.1) T)).*2.

Lemma tables_next T i : tables_from T i ≡ₚ match T !! i with Some t => [t] | None => [] end ++ tables_from T (i + 1).
Proof.
  unfold tables_from. destruct (T !! i) as [t|] eqn:HT.
  - assert (filter (fun e => i <= e.1) T = <[i := t]> (filter (fun e => i + 1 <= e.1) T)) as ->.
    { apply map_eq. intros j. destruct (decide (j = i)) as [->|].
      - rewrite lookup_insert_eq. apply map_lookup_filter_Some. split; [done|cbn; lia].
      - rewrite lookup_insert_ne by done. apply option_eq. intros x. rewrite !map_lookup_filter_Some. cbn. intuition lia. }
    rewrite map_to_list_insert; [done|]. apply map_lookup_filter_None. right. intros x _. cbn. lia.
  - assert (filter (fun e => i <= e.1) T = filter (fun e => i + 1 <= e.1) T) as ->; [|done].
    apply map_eq. intros j. apply option_eq. intros x. rewrite !map_lookup_filter_Some. cbn.
    split; (intros [H1 H2]; split; [done|]); [|lia]. destruct (decide (j = i)) as [->|]; [congruence|lia].
Qed.

Lemma free_tables_spec n s l F pg T i : kalloc_inv kend s l -> all_pages (l ++ tables_from T i ++ pg :: F) ->
  0 <= i -> i + Z.of_nat n = 1024 -> (forall j, 0 <= j < 1024 -> word s (pg + 4 * j) = pde_of (T !! j)) ->
  (forall j t, T !! j = Some t -> j < 1024) ->
  exists s', free_tables kend me ebp n pg i s = Ok ((), s') /\ kept (pg :: F) s s' /\
    exists l', kalloc_inv kend s' l' /\ l' ≡ₚ l ++ tables_from T i.
Proof.
  revert s l i. induction n as [|n IH]; intros s l i Hk Hp Hi Hn Hd HT; cbn [free_tables].
  { exists s. split_and!; [done|done|]. exists l. split; [done|]. enough (tables_from T i = []) as -> by (by rewrite app_nil_r).
    unfold tables_from. replace (filter _ T) with (∅ : gmap Z Z); [done|]. symmetry. apply map_empty. intros j.
    apply map_lookup_filter_None. right. intros t Ht. cbn. apply HT in Ht. lia. }
  erewrite bind_run by reflexivity. rewrite (Hd i) by lia. rewrite (tables_next T i) in Hp. destruct (T !! i) as [t|] eqn:Hti; cbn [pde_of].
  - assert (Ht : is_page kend t) by (destruct Hp as [_ HF]; rewrite Forall_forall in HF; apply HF; set_solver).
    destruct (page_V2P kend t Ht) as (_ & Hm & Hpt & _). rewrite has_P, odd_entry by done. cbn [Z.odd]. rewrite PTE_ADDR_eq, Hpt by (done || lia).
    destruct (kfree_any s l t (tables_from T (i + 1) ++ pg :: F) Hk) as (s1 & E1 & Hk1 & Hkept); [by apply (all_pages_perm _ _ _ Hp)|].
    erewrite bind_run by exact E1.
    destruct (IH s1 (t :: l) (i + 1) Hk1) as (s' & E & Hkept' & l' & Hk' & Hl'); [|lia|lia| |done|].
    + apply (all_pages_perm _ _ _ Hp). solve_Permutation.
    + intros j Hj. rewrite (Hkept pg); [by apply Hd|set_solver|unfold in_page, PGSIZE; lia].
    + exists s'. split_and!; [done|apply (kept_trans _ _ s1); [apply (kept_sub _ _ _ _ Hkept); clear; set_solver|done]|].
      exists l'. split; [done|]. rewrite Hl', (tables_next T i), Hti. solve_Permutation.
  - change (has 0 PTE_P) with false. cbv iota. erewrite bind_run by reflexivity.
    destruct (IH s l (i + 1) Hk) as (s' & E & Hkept' & l' & Hk' & Hl'); [done|lia|lia|done|done|].
    exists s'. split_and!; try done. exists l'. split; [done|]. by rewrite Hl', (tables_next T i), Hti.
Qed.

Lemma freevm_spec s l F pg T M : space s l F pg T M ->
  exists s' l', freevm kend me ebp pg s = Ok ((), s') /\ kalloc_inv kend s' l' /\ l' ≡ₚ l ++ own pg T M /\ kept F s s'.
Proof.
  intros Hsp. assert (Hpg : is_page kend pg) by (apply (space_page _ _ _ _ _ _ _ pg Hsp); unfold own; set_solver).
  unfold freevm. destruct (Z.eqb_spec pg 0) as [->|Hpg0]; [destruct Hpg as [? _]; lia|].
  destruct (dealloc_spec s l F pg T M KERNBASE 0 Hsp) as (s1 & l1 & M1 & E1 & Hsp1 & Hcut & Hk1 & Hp1); [lia|lia|].
  erewrite bind_run by exact E1. destruct Hsp1 as [Hka Hpp Has].
  assert (Hu : upages M1 = []).
  { destruct (upages M1) as [|v u] eqn:E; [done|]. assert (Hv : v ∈ upages M1) by (rewrite E; left).
    apply elem_upages in Hv as (n & pa & f & HM & Hn & _). destruct (as_has _ _ _ _ Has _ _ HM) as [Hn0 _].
    rewrite (Hcut n), bool_decide_true in HM; [done|]. change ((0 + 4095) / 4096) with 0. unfold KPAGE, KERNBASE in *. lia. }
  assert (Ht0 : tables_from T 0 = (map_to_list T).*2).
  { unfold tables_from. do 2 f_equal. apply map_filter_id. intros i t Hi. cbn. by apply (as_idx _ _ _ _ Has) in Hi as [? _]. }
  unfold own in Hpp, Hp1. rewrite Hu in Hpp, Hp1. rewrite app_nil_r in Hp1.
  destruct (free_tables_spec NPDENTRIES s1 l1 F pg T 0 Hka) as (s2 & E2 & Hk2 & l2 & Hka2 & Hl2);
    [|lia|reflexivity|apply Has|intros j t Hj; apply (as_idx _ _ _ _ Has) in Hj; lia|].
  { rewrite Ht0. apply (all_pages_perm _ _ _ Hpp). rewrite app_nil_r. solve_Permutation. }
  erewrite bind_run by exact E2. rewrite Ht0 in Hl2.
  destruct (kfree_any s2 l2 pg F Hka2) as (s3 & E3 & Hka3 & Hk3).
  { apply (all_pages_perm _ _ _ Hpp). rewrite Hl2. rewrite app_nil_r. solve_Permutation. }
  exists s3, (pg :: l2). split_and!; [exact E3|exact Hka3| |].
  - rewrite Hl2, <- Hp1. solve_Permutation.
  - clear E1 E2 E3. apply (kept_trans _ _ s1); [apply (kept_sub _ _ _ _ Hk1); clear; set_solver|].
    apply (kept_trans _ _ s2); [|exact Hk3]. apply (kept_sub _ _ _ _ Hk2); clear; set_solver.
Qed.

(** ** [setupkvm] *)

Definition region_size (k : kmap) : Z := u32 (phys_end k - phys_start k).

Definition region_ok (k : kmap) : Prop :=
  virt k mod 4096 = 0 /\ phys_start k mod 4096 = 0 /\ region_size k mod 4096 = 0 /\ 0 < region_size k /\
  KERNBASE <= virt k /\ virt k + region_size k <= 2 ^ 32 /\ 0 <= phys_start k /\ phys_start k + region_size k <= 2 ^ 32 /\
  0 <= perm k < 4096.

Definition in_region (k : kmap) (j : Z) : Prop := virt k <= 4096 * j < virt k + region_size k.
#[global] Instance in_region_dec k j : Decision (in_region k j) := _.

(** What the table says about the page [j]. *)
Fixpoint kentry (ks : list kmap) (j : Z) : option (Z * Z) :=
  match ks with
  | [] => None
  | k :: ks => if decide (in_region k j) then Some (phys_start k + (4096 * j - virt k), Z.lor (perm k) 1) else kentry ks j
  end.

Fixpoint regions_apart (ks : list kmap) : Prop :=
  match ks with
  | [] => True
  | k :: ks => region_ok k /\ (forall j, in_region k j -> kentry ks j = None) /\ regions_apart ks
  end.

Lemma map_region s l F pg T M k : space s l F pg T M -> region_ok k -> (forall j, in_region k j -> M !! j = None) ->
  exists r s' l' T' M', mappages me ebp pg (virt k) (region_size k) (phys_start k) (perm k) s = Ok (r, s') /\
    space s' l' F pg T' M' /\ kept F s s' /\ l' ++ own pg T' M' ≡ₚ l ++ own pg T M /\
    (forall j, j < KPAGE -> M' !! j = M !! j) /\
    ((r = -1 /\ l' = []) \/
     (r = 0 /\ forall j, M' !! j = if decide (in_region k j) then Some (phys_start k + (4096 * j - virt k), Z.lor (perm k) 1) else M !! j)).
Proof.
  intros Hsp (H1 & H2 & H3 & H4 & H5 & H6 & H7 & H8 & H9) HM.
  apply Z.div_exact in H1; [|lia]. apply Z.div_exact in H3; [|lia].
  remember (virt k / 4096) as n eqn:Hn. remember (region_size k / 4096) as m eqn:Hm. clear Hn Hm. unfold KERNBASE in *.
  unfold mappages. rewrite (u32_small (virt k + _ - 1)) by lia. rewrite !PGROUNDDOWN_eq.
  assert (virt k / 4096 = n) as -> by (symmetry; apply (Z.div_unique_pos _ _ _ 0); lia).
  assert ((virt k + region_size k - 1) / 4096 = n + (m - 1)) as -> by (symmetry; apply (Z.div_unique_pos _ _ _ 4095); lia).
  rewrite (u32_small (4096 * (n + (m - 1)) - _)) by lia.
  assert ((4096 * (n + (m - 1)) - 4096 * n) / PGSIZE = m - 1) as -> by (unfold PGSIZE; symmetry; apply (Z.div_unique_pos _ _ _ 0); lia).
  destruct (map_range (Z.to_nat (m - 1)) s l F pg T M n (phys_start k) (perm k) Hsp)
    as (r & s' & l' & T' & M' & E & A1 & A2 & A3 & A4 & A5); [unfold KPAGE; lia|lia|intros j Hj; apply HM; unfold in_region; lia|done|lia|lia|lia|].
  rewrite Z2Nat.id in E, A5 by lia. exists r, s', l', T', M'. split_and!; try done. destruct A5 as [A5|[-> A5]]; [by left|right].
  split; [done|]. intros j. rewrite (A5 j). case_bool_decide; case_decide as Hd; unfold in_region in Hd; try lia; [|done]. repeat f_equal. lia.
Qed.

(** A directory has at most 1024 tables. *)
Lemma tables_le w pg T M : aspace w pg T M -> (size T <= 1024)%nat.
Proof.
  intros Ha. rewrite <- size_dom. replace 1024%nat with (size (list_to_set (seqZ 0 1024) : gset Z)) by (vm_compute; reflexivity).
  apply subseteq_size. intros i [t Ht]%elem_of_dom. apply elem_of_list_to_set, elem_of_seqZ.
  apply (as_idx _ _ _ _ Ha) in Ht. lia.
Qed.

Lemma no_upages M : (forall j, j < KPAGE -> M !! j = None) -> upages M = [].
Proof.
  intros HM. destruct (upages M) as [|v u] eqn:E; [done|]. assert (Hv : v ∈ upages M) by (rewrite E; left).
  apply elem_upages in Hv as (n & pa & f & Hn & Hlt & _). by rewrite (HM n Hlt) in Hn.
Qed.

Lemma count_tables l1 l pg T1 T M1 M : l1 ++ own pg T1 M1 ≡ₚ l ++ own pg T M ->
  (forall j, j < KPAGE -> M1 !! j = M !! j) -> (forall j, j < KPAGE -> M !! j = None) ->
  (length l1 + size T1 = length l + size T)%nat.
Proof.
  intros Hp Hu1 Hu. apply Permutation_length in Hp. revert Hp. unfold own. rewrite (no_upages M Hu).
  rewrite (no_upages M1) by (intros j Hj; rewrite (Hu1 j Hj); by apply Hu).
  cbn. rewrite !length_app. cbn. rewrite !length_app, !length_fmap, !length_map_to_list. cbn. lia.
Qed.

Lemma setup_loop ks s l F pg T M : space s l F pg T M -> regions_apart ks -> (forall j, is_Some (kentry ks j) -> M !! j = None) ->
  (forall j, j < KPAGE -> M !! j = None) ->
  exists r s', setupkvm_loop kend me ebp ks pg s = Ok (r, s') /\ kept F s s' /\
    ((r = 0 /\ (length l + size T <= 1024)%nat /\ exists l', kalloc_inv kend s' l' /\ l' ≡ₚ l ++ own pg T M) \/
     (r = pg /\ exists l' T' M', space s' l' F pg T' M' /\ l' ++ own pg T' M' ≡ₚ l ++ own pg T M /\
        forall j, M' !! j = match kentry ks j with Some e => Some e | None => M !! j end)).
Proof.
  revert s l T M. induction ks as [|k ks IH]; intros s l T M Hsp Hks HM Hu; cbn [setupkvm_loop].
  { exists pg, s. split_and!; try done. right. split; [done|]. by exists l, T, M. }
  destruct Hks as (Hk & Hap & Hks). fold (region_size k).
  destruct (map_region s l F pg T M k Hsp Hk) as (r & s1 & l1 & T1 & M1 & E1 & H1 & Hk1 & Hp1 & Hu1 & Hr).
  { intros j Hj. apply HM. cbn. by rewrite decide_True. }
  erewrite bind_run by exact E1. destruct Hr as [[-> ->]|[-> HM1]]; cbn [Z.ltb Z.compare].
  - destruct (freevm_spec s1 [] F pg T1 M1 H1) as (s2 & l2 & E2 & Hk2 & Hp2 & Hkept2).
    exists 0, s2. split_and!; [by erewrite bind_run by exact E2|by apply (kept_trans _ _ s1)|]. left. split_and!; [done| |].
    + rewrite <- (count_tables [] l pg T1 T M1 M Hp1 Hu1 Hu). apply (tables_le _ _ _ _ (sp_map _ _ _ _ _ _ _ H1)).
    + exists l2. split; [done|]. by rewrite Hp2, <- Hp1.
  - destruct (IH s1 l1 T1 M1 H1 Hks) as (r & s2 & E2 & Hk2 & Hr).
    + intros j Hj. rewrite (HM1 j). case_decide as Hd; [rewrite (Hap j Hd) in Hj; by destruct Hj|].
      apply HM. cbn. by rewrite decide_False.
    + intros j Hj. rewrite (Hu1 j Hj). by apply Hu.
    + exists r, s2. split_and!; [done|by apply (kept_trans _ _ s1)|]. destruct Hr as [(-> & Hlen & l' & Ha & Hb)|(-> & l' & T' & M' & Ha & Hb & Hc)]; [left|right].
      * split_and!; [done| |exists l'; split; [done|by rewrite Hb]].
        by rewrite <- (count_tables l1 l pg T1 T M1 M Hp1 Hu1 Hu).
      * split; [done|]. exists l', T', M'. split_and!; [done|by rewrite Hb|]. intros j. rewrite (Hc j), (HM1 j). cbn.
        case_decide as Hd; [by rewrite (Hap j Hd)|done].
Qed.

(** The linker puts the kernel's data, aligned to a page, between its text and the end of memory. *)
Definition data_ok (data : Z) : Prop := data mod 4096 = 0 /\ KERNLINK < data < KERNBASE + PHYSTOP.

Lemma region_of v a b p sz : u32 (b - a) = sz -> v mod 4096 = 0 -> a mod 4096 = 0 -> sz mod 4096 = 0 -> 0 < sz ->
  KERNBASE <= v -> v + sz <= 2 ^ 32 -> 0 <= a -> a + sz <= 2 ^ 32 -> 0 <= p < 4096 ->
  region_ok {| virt := v; phys_start := a; phys_end := b; perm := p |} /\
  forall j, in_region {| virt := v; phys_start := a; phys_end := b; perm := p |} j <-> v <= 4096 * j < v + sz.
Proof. intros <-. intros. split; [unfold region_ok, region_size; cbn; repeat split; (done || lia)|]. done. Qed.

Lemma kmaps_apart data : data_ok data -> regions_apart (kmaps data).
Proof.
  intros [Hm Hd]. unfold KERNLINK, KERNBASE, EXTMEM, PHYSTOP in Hd.
  assert (Hv : V2P data = data - 0x80000000) by (unfold V2P, KERNBASE; apply u32_small; lia).
  assert (Ha : forall x, x mod 4096 = 0 -> (data - x) mod 4096 = 0 /\ (x - data) mod 4096 = 0).
  { intros x Hx. rewrite (Zminus_mod data), (Zminus_mod x), Hm, Hx. done. }
  destruct (region_of KERNBASE 0 EXTMEM PTE_W 0x100000) as [R1 I1]; [done..|].
  destruct (region_of KERNLINK (V2P KERNLINK) (V2P data) 0 (data - 0x80100000)) as [R2 I2];
    [rewrite Hv; change (V2P KERNLINK) with 0x100000; rewrite u32_small; lia|done|done|by apply Ha|lia|done|
     unfold KERNLINK, KERNBASE, EXTMEM; lia|done|change (V2P KERNLINK) with 0x100000; lia|lia|].
  destruct (region_of data (V2P data) PHYSTOP PTE_W (0x8E000000 - data)) as [R3 I3];
    [rewrite Hv; unfold PHYSTOP; rewrite u32_small; lia|done|rewrite Hv; by apply Ha|by apply Ha|lia|unfold KERNBASE; lia|lia|lia|lia|done|].
  destruct (region_of DEVSPACE DEVSPACE 0 PTE_W 0x2000000) as [R4 I4]; [done..|].
  unfold kmaps, regions_apart. unfold KERNLINK, KERNBASE, EXTMEM, DEVSPACE in *. split_and!; try done; intros j Hj; cbn [kentry].
  - rewrite I1 in Hj. rewrite decide_False by (rewrite I2; lia). rewrite decide_False by (rewrite I3; lia). by rewrite decide_False by (rewrite I4; lia).
  - rewrite I2 in Hj. rewrite decide_False by (rewrite I3; lia). by rewrite decide_False by (rewrite I4; lia).
  - rewrite I3 in Hj. by rewrite decide_False by (rewrite I4; lia).
Qed.

End space.
