(* ===== verification/VmFork.v ===== *)
(** * New address spaces

    [setupkvm] makes a space that maps the kernel and nothing else; [copyuvm]
    makes a copy of the user's pages of another space in new pages. *)

From stdpp Require Import base list strings gmap.
From Stdlib Require Import ZArith Lia.
From S2P Require Import Prelude State Spinlock Kalloc Vm VmBase VmSpace.

Section fork.
Context (kend me ebp data : Z).
Hypothesis Hkend : KERNBASE < kend.
Hypothesis Hdata : data_ok data.

Notation space := (space kend).
Notation all_pages := (all_pages kend).

Lemma upages_own pg T M p : p ∈ upages M -> p ∈ own pg T M.
Proof. intros Hp. apply elem_own. auto. Qed.

Lemma clear_any s l v F : kalloc_inv kend s l -> all_pages (l ++ v :: F) ->
  exists s', clear_page v s = Ok ((), s') /\ kalloc_inv kend s' l /\ kept F s s' /\ zeroed s' v.
Proof.
  intros Hk Hp. assert (Hp' : all_pages (v :: l ++ F)) by (apply (all_pages_perm _ _ _ Hp); solve_Permutation).
  pose proof Hp' as [_ HF]. apply Forall_cons in HF as [Hv _].
  unfold clear_page. destruct (Z.eqb_spec v 0); [destruct Hv as [? _]; lia|]. eexists. split; [reflexivity|].
  set (w := fun a => if (v <=? a) && (a <? v + PGSIZE) then 0 else word s a).
  assert (Hkept : kept (l ++ F) s (with_word s w)).
  { apply (kept_other kend _ v); [done|]. intros a Ha. cbn. unfold w. unfold in_page in Ha.
    destruct (Z.leb_spec v a), (Z.ltb_spec a (v + PGSIZE)); cbn [andb]; (done || lia). }
  split_and!.
  - apply (free_kept kend s l _ w Hk Hkept). set_solver.
  - apply (kept_sub _ _ _ _ Hkept). clear. set_solver.
  - split; [by apply (page_range kend)|]. intros a Ha. cbn. unfold w. unfold in_page in Ha.
    destruct (Z.leb_spec v a), (Z.ltb_spec a (v + PGSIZE)); (done || lia).
Qed.

Lemma new_space s l F pg : kalloc_inv kend s l -> all_pages (l ++ pg :: F) -> zeroed s pg -> space s l F pg ∅ ∅.
Proof.
  intros Hk Hp [_ Hz]. constructor; [done|done|]. constructor; try done.
  intros i Hi. rewrite lookup_empty. apply Hz. unfold in_page, PGSIZE. lia.
Qed.

Lemma setup_spec s l F : kalloc_inv kend s l -> all_pages (l ++ F) ->
  exists r s', setupkvm kend me ebp data s = Ok (r, s') /\ kept F s s' /\
    ((r = 0 /\ (length l <= 1025)%nat /\ exists l', kalloc_inv kend s' l' /\ l' ≡ₚ l) \/
     (exists l' T' M', space s' l' F r T' M' /\ l' ++ own r T' M' ≡ₚ l /\ forall j, M' !! j = kentry (kmaps data) j)).
Proof.
  intros Hk Hp. unfold setupkvm, kalloc_. destruct (kalloc_ok kend me ebp s l Hk) as (s1 & E1 & Hk1 & _ & _ & _ & Hw1).
  erewrite bind_run by exact E1. destruct l as [|pg l]; cbn [hd tl] in *.
  { exists 0, s1. split_and!; [done|by apply kept_eq|]. left. split_and!; [done|cbn; lia|]. by exists []. }
  assert (Hpg : is_page kend pg) by (destruct Hp as [_ HF]; by apply Forall_cons in HF as [? _]).
  destruct (Z.eqb_spec pg 0); [destruct Hpg as [? _]; lia|].
  assert (Hp' : all_pages (l ++ pg :: F)) by (apply (all_pages_perm _ _ _ Hp); solve_Permutation).
  destruct (clear_any s1 l pg F Hk1 Hp') as (s2 & E2 & Hk2 & Hkept2 & Hz). erewrite bind_run by exact E2.
  change (DEVSPACE <? P2V PHYSTOP) with false. cbv iota.
  destruct (setup_loop kend me ebp Hkend (kmaps data) s2 l F pg ∅ ∅ (new_space _ _ _ _ Hk2 Hp' Hz) (kmaps_apart data Hdata))
    as (r & s3 & E3 & Hkept3 & Hr); [done|done|].
  exists r, s3. split_and!; [exact E3| |].
  { apply (kept_trans _ _ s1); [by apply kept_eq|]. by apply (kept_trans _ _ s2). }
  assert (Hown : l ++ own pg ∅ ∅ ≡ₚ pg :: l) by (change (own pg ∅ ∅) with [pg]; solve_Permutation).
  destruct Hr as [(-> & Hlen & l' & H1 & H2)|(-> & l' & T' & M' & H1 & H2 & H3)]; [left|right].
  - split_and!; [done|cbn in *; lia|]. exists l'. split; [done|by rewrite H2].
  - exists l', T', M'. split_and!; [done|by rewrite H2|]. intros j. rewrite H3, lookup_empty. by destruct (kentry _ j).
Qed.

(** The kernel maps only its own half, and not for the user. *)
Lemma kmaps_entry ks j e : regions_apart ks -> kentry ks j = Some e -> KPAGE <= j /\ exists k, k ∈ ks /\ e.2 = Z.lor (perm k) 1.
Proof.
  induction ks as [|k ks IH]; cbn [kentry]; [done|]. intros (Hk & _ & Hks). case_decide as Hd.
  - intros E. injection E as <-. split; [|exists k; split; [left|done]].
    destruct Hk as (_ & _ & _ & _ & Hv & _). unfold in_region, KERNBASE, KPAGE in *. lia.
  - intros E. destruct (IH Hks E) as (? & k' & ? & ?). split; [done|]. exists k'. split; [by right|done].
Qed.

Lemma kmaps_user j : j < KPAGE -> kentry (kmaps data) j = None.
Proof.
  intros Hj. destruct (kentry (kmaps data) j) as [e|] eqn:E; [|done].
  apply kmaps_entry in E as [? _]; [lia|by apply kmaps_apart].
Qed.

Lemma kmaps_flags j e : kentry (kmaps data) j = Some e -> has e.2 PTE_U = false.
Proof.
  intros E. apply kmaps_entry in E as (_ & k & Hk & ->); [|by apply kmaps_apart].
  repeat (apply elem_of_cons in Hk as [->|Hk]; [done|]). by apply elem_of_nil in Hk.
Qed.

(** ** [copyuvm] *)

Section copy.
(** The parent. *)
Context (F : list Z) (pg : Z) (T : gmap Z Z) (M : gmap Z (Z * Z)) (sz : Z).
Hypothesis Hcov : covers M ((sz + 4095) / 4096).
Hypothesis Hsz : 0 <= sz < KERNBASE.

(** The contents of two pages agree. *)
Definition same_page (s : kst) (p q : Z) : Prop := forall o, 0 <= o < 4096 -> word s (p + o) = word s (q + o).

(** The pages of the child below [c] are copies of those of the parent. *)
Definition copied (s : kst) (Md : gmap Z (Z * Z)) (c : Z) : Prop := forall j, 0 <= j < KPAGE ->
  if bool_decide (j < c) then
    exists pa f pa', M !! j = Some (pa, f) /\ Md !! j = Some (pa', f) /\ same_page s (P2V pa') (P2V pa)
  else Md !! j = None.

(** The child [d], with the parent among the others. *)
Record forking (s : kst) (l : list Z) (d : Z) (Td : gmap Z Z) (Md : gmap Z (Z * Z)) : Prop := {
  fk_child : space s l (own pg T M ++ F) d Td Md;
  fk_parent : aspace (word s) pg T M;
}.

Lemma forking_parent s l d Td Md : forking s l d Td Md -> space s l (own d Td Md ++ F) pg T M.
Proof. intros [[Hk Hp _] Ha]. constructor; [done| |done]. apply (all_pages_perm _ _ _ Hp). solve_Permutation. Qed.

Lemma parent_kept s s' L : kept (own pg T M ++ L) s s' -> aspace (word s) pg T M -> aspace (word s') pg T M.
Proof. intros Hk. apply (kept_aspace _ _ _ _ _ _ Hk). set_solver. Qed.

Lemma odd_lor1 f : Z.odd f = true -> Z.lor f 1 = f.
Proof.
  intros Ho. apply Z.bits_inj'. intros k Hk. rewrite Z.lor_spec. destruct (Z.eqb_spec k 0) as [->|].
  - by rewrite Z.bit0_odd, Ho.
  - change 1 with (2 ^ 0). rewrite Z.pow2_bits_false by lia. apply orb_false_r.
Qed.

Lemma same_page_kept s s' L p q : same_page s p q -> kept L s s' -> p ∈ L -> q ∈ L -> same_page s' p q.
Proof.
  intros Hs Hk Hp Hq o Ho. rewrite (Hk p), (Hk q); [by apply Hs|done|unfold in_page, PGSIZE; lia|done|unfold in_page, PGSIZE; lia].
Qed.

Lemma copied_next s s' Md c v pa f L : copied s Md c -> 0 <= c -> M !! c = Some (pa, f) -> same_page s' v (P2V pa) -> P2V (V2P v) = v ->
  kept (upages Md ++ own pg T M ++ L) s s' -> copied s' (<[c := (V2P v, f)]> Md) (c + 1).
Proof.
  intros Hc Hc0 HM Hs Hv Hk j Hj. specialize (Hc j Hj). destruct (decide (j = c)) as [->|].
  - rewrite bool_decide_true, lookup_insert_eq by lia. exists pa, f, (V2P v). by rewrite Hv.
  - rewrite lookup_insert_ne by done. destruct (decide (j < c)).
    + rewrite bool_decide_true in Hc |- * by lia. destruct Hc as (pa0 & f0 & pa' & H1 & H2 & H3). exists pa0, f0, pa'.
      split_and!; try done. apply (same_page_kept s _ _ _ _ H3 Hk); rewrite !elem_of_app.
      * left. apply elem_upages. exists j, pa', f0. split_and!; (done || lia).
      * right; left. apply upages_own, elem_upages. exists j, pa0, f0. split_and!; (done || lia).
    + rewrite bool_decide_false in Hc |- * by lia. done.
Qed.

Lemma copy_page_step s l v d Td Md p : space s l (v :: own pg T M ++ F) d Td Md -> p ∈ upages M -> p mod 4096 = 0 ->
  exists s', copy_page v p s = Ok ((), s') /\ space s' l (v :: own pg T M ++ F) d Td Md /\
    kept (own d Td Md ++ own pg T M ++ F) s s' /\ same_page s' v p.
Proof.
  intros Hsp Hp Hpm. eexists. split; [reflexivity|].
  set (w := fun a => if (v <=? a) && (a <? v + PGSIZE) then word s (p + (a - v)) else word s a).
  destruct (write_step kend s l v (own pg T M ++ F) d Td Md w Hsp) as [H1 H2].
  { intros a Ha. unfold w. unfold in_page in Ha. destruct (Z.leb_spec v a), (Z.ltb_spec a (v + PGSIZE)); cbn [andb]; (done || lia). }
  split_and!; [exact H1|exact H2|]. intros o Ho. change (w (v + o) = w (p + o)). assert (w (p + o) = word s (p + o)) as ->; [apply (H2 p (p + o))|].
  - rewrite !elem_of_app. auto using upages_own.
  - unfold in_page, PGSIZE. lia.
  - unfold w. destruct (Z.leb_spec v (v + o)), (Z.ltb_spec (v + o) (v + PGSIZE)); cbn [andb]; try (unfold PGSIZE in *; lia). f_equal. lia.
Qed.

Lemma page_copy fuel s l d Td Md c : forking s l d Td Md -> 0 <= c -> 4096 * c < sz ->
  exists s1 e, M !! c = Some e /\ (forall a, word s1 a = word s a) /\
    let rest mem := (if mem =? 0 then _ ← freevm kend me ebp d; mret 0
      else _ ← copy_page mem (P2V e.1); r ← mappages me ebp d (4096 * c) PGSIZE (V2P mem) e.2;
        if r <? 0 then _ ← freevm kend me ebp d; mret 0
        else copyuvm_loop kend me ebp fuel pg d (u32 (4096 * c + PGSIZE)) sz) in
    ((l = [] /\ copyuvm_loop kend me ebp (S fuel) pg d (4096 * c) sz s = rest 0 s1 /\ forking s1 [] d Td Md) \/
     (exists v l1, l = v :: l1 /\ is_page kend v /\ copyuvm_loop kend me ebp (S fuel) pg d (4096 * c) sz s = rest v s1 /\
        space s1 l1 (v :: own pg T M ++ F) d Td Md)).
Proof.
  intros Hfk Hc Hlt. pose proof (forking_parent _ _ _ _ _ Hfk) as Hpar. destruct Hfk as [Hch Has].
  assert (Hup : c + 1 <= (sz + 4095) / 4096) by (apply Z.div_le_lower_bound; lia).
  assert (Hk : 0 <= c < KPAGE) by (unfold KERNBASE, KPAGE in *; lia).
  assert (Hk2 : 0 <= c < 2 ^ 20) by (unfold KPAGE in *; lia).
  destruct (proj2 (Hcov c Hk)) as [[pa f] HM]; [lia|].
  destruct (as_has _ _ _ _ Has _ _ HM) as [_ HT]. destruct (as_ent _ _ _ _ Has _ _ _ HM) as (Hm & Hr & Hf & Ho).
  destruct (kalloc_step kend me ebp s l _ d Td Md Hch) as (s1 & Hw & Hcase).
  exists s1, (pa, f). split; [done|]. split; [done|]. cbv zeta. cbn [fst snd].
  assert (E : forall mem, kalloc_ me ebp s = Ok (mem, s1) -> copyuvm_loop kend me ebp (S fuel) pg d (4096 * c) sz s =
    (if mem =? 0 then _ ← freevm kend me ebp d; mret 0
      else _ ← copy_page mem (P2V pa); r ← mappages me ebp d (4096 * c) PGSIZE (V2P mem) f;
        if r <? 0 then _ ← freevm kend me ebp d; mret 0
        else copyuvm_loop kend me ebp fuel pg d (u32 (4096 * c + PGSIZE)) sz) s1).
  { intros mem Em. cbn [copyuvm_loop]. destruct (Z.ltb_spec (4096 * c) sz); [|lia]. destruct HT as [t HT].
    erewrite bind_run by (apply (walk_found kend me ebp s l _ pg T M c false Hpar Hk2); by right).
    rewrite (slot_nonzero kend s l _ pg T M c t Hpar HT). erewrite bind_run by reflexivity.
    rewrite (entry_read kend s l _ pg T M c Hpar Hk2) by (by exists t). rewrite HM. cbn [pte_of].
    rewrite has_P, odd_entry, Ho by done. cbn [negb]. rewrite PTE_ADDR_eq, PTE_FLAGS_eq by done. by erewrite bind_run by exact Em. }
  destruct Hcase as [(-> & Em & Hsp)|(v & l1 & -> & _ & Hv & Em & Hsp)]; [left|right].
  - split_and!; [done|by rewrite (E 0 Em)|]. constructor; [done|]. apply (aspace_ext _ _ _ _ _ Has); auto.
  - exists v, l1. split_and!; [done|done|by rewrite (E v Em)|done].
Qed.

Lemma copy_loop fuel s l d Td Md c : forking s l d Td Md -> 0 <= c -> copied s Md c ->
  (Z.to_nat ((sz + 4095) / 4096 - c) < fuel)%nat -> c <= (sz + 4095) / 4096 ->
  exists r s', copyuvm_loop kend me ebp fuel pg d (4096 * c) sz s = Ok (r, s') /\ kept (own pg T M ++ F) s s' /\
    ((r = d /\ exists l' Td' Md', forking s' l' d Td' Md' /\ copied s' Md' ((sz + 4095) / 4096) /\
        (forall j, KPAGE <= j -> Md' !! j = Md !! j) /\ l' ++ own d Td' Md' ≡ₚ l ++ own d Td Md) \/
     (r = 0 /\ Z.of_nat (length l) < 2 * ((sz + 4095) / 4096 - c) /\
      exists l' lost, kalloc_inv kend s' l' /\ l' ++ lost ≡ₚ l ++ own d Td Md /\ (length lost <= 1)%nat)).
Proof.
  revert s l Td Md c. induction fuel as [|fuel IH]; intros s l Td Md c Hfk Hc Hcp Hf Hle; [lia|].
  destruct (Z.lt_ge_cases (4096 * c) sz) as [Hlt|Hge].
  2:{ cbn [copyuvm_loop]. destruct (Z.ltb_spec (4096 * c) sz); [lia|]. exists d, s. split_and!; [done|done|]. left. split; [done|].
      assert ((sz + 4095) / 4096 <= c) by (apply Z.lt_succ_r, Z.div_lt_upper_bound; lia).
      exists l, Td, Md. split_and!; try done. by replace ((sz + 4095) / 4096) with c by lia. }
  assert (Hup : c + 1 <= (sz + 4095) / 4096) by (apply Z.div_le_lower_bound; lia).
  assert (Hk : 0 <= c < KPAGE) by (unfold KERNBASE, KPAGE in *; lia).
  pose proof (fk_parent _ _ _ _ _ Hfk) as Has.
  destruct (page_copy fuel s l d Td Md c Hfk Hc Hlt) as (s1 & [pa f] & HM & Hw1 & Hcase). cbv zeta in Hcase. cbn [fst snd] in Hcase.
  destruct (as_ent _ _ _ _ Has _ _ _ HM) as (Hm & Hr & Hfl & Ho).
  destruct Hcase as [(-> & E & Hfk1)|(v & l1 & -> & Hv & E & H1)]; rewrite E; clear E.
  { cbn [Z.eqb]. destruct (freevm_spec kend me ebp Hkend s1 [] _ d Td Md (fk_child _ _ _ _ _ Hfk1)) as (s2 & l2 & E2 & Hk2 & Hp2 & Hkept2).
    exists 0, s2. split_and!; [by erewrite bind_run by exact E2|apply (kept_trans _ _ s1); [by apply kept_eq|done]|]. right.
    split_and!; [done|cbn; lia|]. exists l2, []. split_and!; [done|by rewrite app_nil_r|cbn; lia]. }
  destruct (Z.eqb_spec v 0); [destruct Hv as [? _]; lia|].
  destruct (page_V2P kend v Hv) as (_ & _ & Hpv & _).
  assert (Hpu : P2V pa ∈ upages M) by (apply elem_upages; exists c, pa, f; split_and!; (done || lia)).
  destruct (copy_page_step s1 l1 v d Td Md (P2V pa) H1 Hpu) as (s2 & E2 & H2 & Hk2 & Hsame).
  { apply (page_range kend), (space_page kend _ _ _ _ _ _ _ H1). rewrite !elem_of_app, elem_of_cons, elem_of_app. auto 10 using upages_own. }
  erewrite bind_run by exact E2.
  assert (Hk12 : kept (own d Td Md ++ own pg T M ++ F) s s2) by (apply (kept_trans _ _ s1); [by apply kept_eq|done]).
  assert (Hdc : Md !! c = None) by (specialize (Hcp c Hk); by rewrite bool_decide_false in Hcp by lia).
  destruct (map_one kend me ebp Hkend s2 l1 v (own pg T M ++ F) d Td Md c f H2 Hk Hdc Hfl)
    as (s3 & [(E3 & -> & H3 & Hk3)|(l3 & T3 & E3 & H3 & Hk3 & Hp3 & Hlen)]);
    erewrite bind_run by exact E3; cbn [Z.ltb Z.compare].
  - destruct (freevm_spec kend me ebp Hkend s3 [] _ d Td Md H3) as (s4 & l4 & E4 & Hk4 & Hp4 & Hkept4).
    exists 0, s4. split_and!; [by erewrite bind_run by exact E4| |].
    + apply (kept_trans _ _ s2); [apply (kept_sub _ _ _ _ Hk12); clear; set_solver|].
      apply (kept_trans _ _ s3); [apply (kept_sub _ _ _ _ Hk3)|apply (kept_sub _ _ _ _ Hkept4)]; clear; set_solver.
    + right. split_and!; [done|cbn; lia|]. exists l4, [v]. split_and!; [done| |done]. rewrite Hp4. cbn. solve_Permutation.
  - rewrite (odd_lor1 f Ho) in *. rewrite u32_small by (unfold PGSIZE, KPAGE in *; lia).
    replace (4096 * c + PGSIZE) with (4096 * (c + 1)) by (unfold PGSIZE; lia).
    assert (Hk13 : kept (upages Md ++ own pg T M ++ F) s s3).
    { apply (kept_trans _ _ s2); [apply (kept_sub _ _ _ _ Hk12); clear; unfold own; set_solver|apply (kept_sub _ _ _ _ Hk3); clear; set_solver]. }
    destruct (IH s3 l3 T3 (<[c := (V2P v, f)]> Md) (c + 1)) as (r & s' & -> & Hkept & Hcase); [|lia| |lia|lia|].
    + constructor; [done|]. apply (parent_kept s _ F); [apply (kept_sub _ _ _ _ Hk13); clear; set_solver|done].
    + apply (copied_next s s3 Md c v pa f F); try done. apply (same_page_kept s2 s3 _ _ _ Hsame Hk3); [set_solver|].
      rewrite elem_of_cons, !elem_of_app. auto 10 using upages_own.
    + exists r, s'. split_and!; [done|apply (kept_trans _ _ s3); [apply (kept_sub _ _ _ _ Hk13); clear; set_solver|done]|].
      destruct Hcase as [(-> & l' & Td' & Md' & G1 & G2 & G3 & G4)|(-> & Hlt2 & l' & lost & G1 & G2 & G3)]; [left|right]; (split; [done|]).
      * exists l', Td', Md'. split_and!; [done|done| |].
        -- intros j Hj. rewrite (G3 j Hj). unfold KPAGE in *. by rewrite lookup_insert_ne by lia.
        -- rewrite G4, Hp3. done.
      * split; [cbn; lia|]. exists l', lost. split_and!; [done|by rewrite G2, Hp3|done].
Qed.

Lemma copyuvm_spec s l : space s l F pg T M ->
  exists r s', copyuvm kend me ebp data pg sz s = Ok (r, s') /\ kept (own pg T M ++ F) s s' /\
    ((r = 0 /\ Z.of_nat (length l) < 2 * ((sz + 4095) / 4096) + 1026 /\
      exists l' lost, kalloc_inv kend s' l' /\ l' ++ lost ≡ₚ l /\ (length lost <= 1)%nat) \/
     (exists l' Td Md, forking s' l' r Td Md /\ copied s' Md ((sz + 4095) / 4096) /\
        (forall j, KPAGE <= j -> Md !! j = kentry (kmaps data) j) /\ l' ++ own r Td Md ≡ₚ l)).
Proof.
  intros [Hk Hp Ha]. unfold copyuvm. assert (Hup : 0 <= (sz + 4095) / 4096) by (apply Z.div_pos; lia).
  destruct (setup_spec s l (own pg T M ++ F) Hk Hp) as (d & s1 & E1 & Hk1 & Hcase). erewrite bind_run by exact E1.
  destruct Hcase as [(-> & Hlen & l' & G1 & G2)|(l1 & T1 & M1 & Hsp & Hp1 & HM1)].
  { exists 0, s1. split_and!; [done|done|]. left. split_and!; [done|lia|]. exists l', []. split_and!; [done|by rewrite app_nil_r|cbn; lia]. }
  assert (Hd : is_page kend d) by (apply (space_page kend _ _ _ _ _ _ d Hsp); rewrite !elem_of_app, elem_own; auto).
  destruct (Z.eqb_spec d 0) as [->|]; [destruct Hd as [? _]; lia|].
  assert (Huser : forall j, j < KPAGE -> M1 !! j = None).
  { intros j Hj. rewrite HM1. by apply kmaps_user. }
  assert (Hfk : forking s1 l1 d T1 M1).
  { constructor; [done|]. apply (parent_kept s _ F); done. }
  destruct (copy_loop (S (S (Z.to_nat (sz / PGSIZE)))) s1 l1 d T1 M1 0 Hfk) as (r & s2 & E2 & Hk2 & Hcase); [lia| | |lia|].
  { intros j Hj. rewrite bool_decide_false by lia. apply Huser. lia. }
  { unfold PGSIZE. assert ((sz + 4095) / 4096 <= sz / 4096 + 1); [|lia].
    replace (sz / 4096 + 1) with ((sz + 1 * 4096) / 4096) by (rewrite Z.div_add; lia). apply Z.div_le_mono; lia. }
  exists r, s2. split_and!; [exact E2|by apply (kept_trans _ _ s1)|].
  destruct Hcase as [(-> & l' & Td & Md & G1 & G2 & G3 & G4)|(-> & Hlt & l' & lost & G1 & G2 & G3)]; [right|left].
  - exists l', Td, Md. split_and!; [done|done| |by rewrite G4, Hp1]. intros j Hj. by rewrite (G3 j Hj), HM1.
  - split_and!; [done| |exists l', lost; split_and!; [done|by rewrite G2, Hp1|done]].
    pose proof (tables_le _ _ _ _ (sp_map _ _ _ _ _ _ _ Hsp)) as Ht. apply Permutation_length in Hp1. revert Hp1.
    unfold own. rewrite (no_upages _ Huser). cbn. rewrite length_app. cbn. rewrite length_app, length_fmap, length_map_to_list. cbn. lia.
Qed.
End copy.
End fork.
