(* ===== verification/VmBytes.v ===== *)
(** * Bytes copied into address spaces

    The effect of storing bytes in words, and the functions of [vm.c] that copy
    bytes: [allocxuvm] makes pages that hold code, [copyout] writes to the pages
    of another process. *)

From stdpp Require Import base list strings gmap.
From Stdlib Require Import ZArith Lia.
From S2P Require Import Prelude State Spinlock Kalloc Vm VmBase VmSpace.

(** ** Bytes of words *)

Lemma byte_high W k d i : 0 <= k < i -> 0 <= W / 256 ^ k mod 256 + d < 256 ->
  (W + d * 256 ^ k) / 256 ^ i = W / 256 ^ i.
Proof.
  intros Hk Hd. assert (Hp : 0 < 256 ^ k) by (apply Z.pow_pos_nonneg; lia).
  replace (256 ^ i) with (256 ^ k * 256 * 256 ^ (i - k - 1)).
  2:{ replace i with (k + 1 + (i - k - 1)) at 2 by lia. by rewrite !Z.pow_add_r, Z.pow_1_r by lia. }
  assert (0 < 256 ^ (i - k - 1)) by (apply Z.pow_pos_nonneg; lia).
  rewrite <- !Z.div_div by lia. rewrite Z.div_add by lia. f_equal. symmetry.
  apply (Z.div_unique_pos _ _ _ (W / 256 ^ k mod 256 + d)); [done|]. pose proof (Z.div_mod (W / 256 ^ k) 256 ltac:(lia)). lia.
Qed.

Lemma byte_low W k d i : 0 <= i < k -> (W + d * 256 ^ k) / 256 ^ i mod 256 = W / 256 ^ i mod 256.
Proof.
  intros Hi. assert (0 < 256 ^ i) by (apply Z.pow_pos_nonneg; lia).
  replace (256 ^ k) with (256 ^ (k - i - 1) * 256 * 256 ^ i).
  2:{ replace k with (k - i - 1 + 1 + i) at 2 by lia. by rewrite !Z.pow_add_r, Z.pow_1_r by lia. }
  rewrite !Z.mul_assoc, Z.div_add by lia. by rewrite Z.mod_add by lia.
Qed.

Lemma byte_same W k b : 0 <= k -> is_byte b -> (W + (b - W / 256 ^ k mod 256) * 256 ^ k) / 256 ^ k mod 256 = b.
Proof.
  intros Hk Hb. assert (0 < 256 ^ k) by (apply Z.pow_pos_nonneg; lia). rewrite Z.div_add by lia.
  rewrite (Z.div_mod (W / 256 ^ k) 256) at 1 by lia.
  match goal with |- ?x mod _ = _ => replace x with (b + (W / 256 ^ k / 256) * 256) by lia end.
  rewrite Z.mod_add by lia. apply Z.mod_small, Hb.
Qed.

Lemma byte_put w a b x : is_byte b -> byte_at (put_byte w a b) x = if x =? a then b else byte_at w x.
Proof.
  intros Hb. unfold put_byte, byte_at at 1, set_word. pose proof (Z.mod_pos_bound a 4 ltac:(lia)) as Ha. pose proof (Z.mod_pos_bound x 4 ltac:(lia)) as Hx.
  destruct (Z.eqb_spec (x - x mod 4) (a - a mod 4)) as [He|].
  2:{ destruct (Z.eqb_spec x a) as [->|]; [lia|done]. }
  unfold byte_at. destruct (Z.eqb_spec x a) as [->|Hne]; [apply byte_same; [lia|done]|]. rewrite He.
  destruct (Z.lt_ge_cases (a mod 4) (x mod 4)); [|apply byte_low; lia].
  f_equal. apply byte_high; [lia|]. pose proof (Z.mod_pos_bound (w (a - a mod 4) / 256 ^ (a mod 4)) 256 ltac:(lia)). unfold is_byte in Hb. lia.
Qed.

Lemma byte_puts l w a x : Forall is_byte l ->
  byte_at (put_bytes w a l) x = if bool_decide (a <= x < a + zlen l) then nth (Z.to_nat (x - a)) l 0 else byte_at w x.
Proof.
  intros Hl. revert w a. induction Hl as [|b l Hb Hl IH]; intros w a; cbn [put_bytes].
  - rewrite bool_decide_false; [done|]. change (zlen (@nil Z)) with 0. lia.
  - rewrite IH, byte_put by done. rewrite zlen_cons. destruct (Z.eqb_spec x a) as [->|].
    + rewrite bool_decide_false, bool_decide_true by (pose proof (zlen_nonneg l); lia). by replace (Z.to_nat (a - a)) with O by lia.
    + case_bool_decide; [rewrite bool_decide_true by lia|by rewrite bool_decide_false by lia].
      replace (Z.to_nat (x - a)) with (S (Z.to_nat (x - (a + 1)))) by lia. done.
Qed.

(** Only the words of a page change. *)
Lemma puts_page v l w a x : v mod 4096 = 0 -> v <= a -> a + zlen l <= v + PGSIZE -> ~ in_page v x -> put_bytes w a l x = w x.
Proof.
  intros Hv. revert w a. induction l as [|b l IH]; intros w a Ha Hl Hx; cbn [put_bytes]; [done|].
  rewrite zlen_cons in Hl. pose proof (zlen_nonneg l). rewrite IH by (done || lia). unfold put_byte, set_word.
  destruct (Z.eqb_spec x (a - a mod 4)) as [->|]; [|done]. exfalso. apply Hx. unfold in_page.
  pose proof (Z.mod_pos_bound a 4 ltac:(lia)). pose proof (Z.div_mod a 4 ltac:(lia)). apply Z.div_exact in Hv; [|lia]. lia.
Qed.

Lemma byte_kept s s' v a : kept [v] s s' -> v mod 4096 = 0 -> in_page v a -> byte_at (word s') a = byte_at (word s) a.
Proof.
  intros Hk Hv Ha. unfold byte_at. rewrite (Hk v); [done|left|]. unfold in_page, PGSIZE in *.
  pose proof (Z.mod_pos_bound a 4 ltac:(lia)). pose proof (Z.div_mod a 4 ltac:(lia)). apply Z.div_exact in Hv; [|lia]. lia.
Qed.

(** ** [allocxuvm] *)

Section bytes.
Context (kend me ebp : Z).
Hypothesis Hkend : KERNBASE < kend.
Notation space := (space kend).

Lemma copy_bytes_step s l v F pg T M p n : space s l (v :: F) pg T M -> Forall is_byte p -> 0 <= n <= zlen p -> n <= PGSIZE ->
  exists s', copy_bytes v p n s = Ok ((), s') /\ space s' l (v :: F) pg T M /\ kept (own pg T M ++ F) s s' /\
    forall o, 0 <= o < n -> byte_at (word s') (v + o) = nth (Z.to_nat o) p 0.
Proof.
  intros Hsp Hp Hn Hpg. assert (Hv : is_page kend v) by (apply (space_page kend _ _ _ _ _ _ v Hsp); set_solver).
  destruct (page_range kend v Hv) as (Hk & _ & Hm). unfold copy_bytes.
  destruct (Z.ltb_spec (zlen p) n); [lia|]. destruct (Z.eqb_spec v 0); [unfold KERNBASE in *; lia|]. eexists. split; [reflexivity|].
  assert (Hlen : zlen (take (Z.to_nat n) p) = n) by (unfold zlen in *; rewrite length_take; lia).
  destruct (write_step kend s l v F pg T M (put_bytes (word s) v (take (Z.to_nat n) p)) Hsp) as [H1 H2].
  { intros a Ha. apply (puts_page v); [done|lia|lia|done]. }
  split_and!; [exact H1|exact H2|]. intros o Ho. cbn. rewrite byte_puts by (by apply Forall_take).
  rewrite bool_decide_true by lia. replace (v + o - v) with o by lia.
  rewrite <- (take_drop (Z.to_nat n) p) at 2. rewrite app_nth1; [done|]. unfold zlen in Hlen. lia.
Qed.

Section code.
Context (c0 : Z) (val : list Z) (valn : Z).
Hypothesis Hval : Forall is_byte val.
Hypothesis Hvaln : 0 <= valn <= zlen val.
Hypothesis Hint : valn < 2 ^ 31.

Definition code_fill (a v : Z) : ST kst unit :=
  let i := a - 4096 * c0 in
  if PGSIZE <=? valn - i then copy_bytes v (drop (Z.to_nat i) val) PGSIZE
  else if 0 <? valn - i then copy_bytes v (drop (Z.to_nat i) val) (valn - i)
  else mret ().

(** The page [c] has its part of the bytes. *)
Definition holds_code (c : Z) (s : kst) (v : Z) : Prop := v mod 4096 = 0 /\
  forall o, 0 <= o < 4096 -> 4096 * (c - c0) + o < valn -> byte_at (word s) (v + o) = nth (Z.to_nat (4096 * (c - c0) + o)) val 0.

Lemma code_fill_step c s l v F pg T M : c0 <= c -> space s l (v :: F) pg T M ->
  exists s', code_fill (4096 * c) v s = Ok ((), s') /\ space s' l (v :: F) pg T M /\ kept (own pg T M ++ F) s s' /\ holds_code c s' v.
Proof.
  intros Hc Hsp. assert (Hv : is_page kend v) by (apply (space_page kend _ _ _ _ _ _ v Hsp); set_solver).
  destruct (page_range kend v Hv) as (_ & _ & Hm). unfold code_fill. replace (4096 * c - 4096 * c0) with (4096 * (c - c0)) by lia.
  set (i := 4096 * (c - c0)). assert (Hd : Forall is_byte (drop (Z.to_nat i) val)) by (by apply Forall_drop).
  assert (Hl : i <= zlen val -> zlen (drop (Z.to_nat i) val) = zlen val - i) by (unfold zlen, i; rewrite length_drop; lia).
  assert (Hnth : forall o, 0 <= o -> nth (Z.to_nat o) (drop (Z.to_nat i) val) 0 = nth (Z.to_nat (i + o)) val 0).
  { intros o Ho. rewrite nth_skipn. f_equal. unfold i. lia. }
  destruct (Z.leb_spec PGSIZE (valn - i)) as [H1|H1]; [|destruct (Z.ltb_spec 0 (valn - i)) as [H2|H2]]; cbv zeta.
  - destruct (copy_bytes_step s l v F pg T M (drop (Z.to_nat i) val) PGSIZE Hsp Hd) as (s' & E & G1 & G2 & G3);
      [unfold PGSIZE in *; lia|lia|]. exists s'. split_and!; [exact E|exact G1|exact G2|]. split; [exact Hm|]. intros o Ho Hlt. rewrite G3 by done. apply Hnth. lia.
  - destruct (copy_bytes_step s l v F pg T M (drop (Z.to_nat i) val) (valn - i) Hsp Hd) as (s' & E & G1 & G2 & G3);
      [lia|lia|]. exists s'. split_and!; [exact E|exact G1|exact G2|]. split; [exact Hm|]. intros o Ho Hlt. rewrite G3 by (fold i in Hlt; lia). apply Hnth. lia.
  - exists s. split_and!; [done|done|done|]. split; [exact Hm|]. intros o Ho Hlt. fold i in Hlt. lia.
Qed.

Lemma holds_code_kept c s s' v : holds_code c s v -> kept [v] s s' -> holds_code c s' v.
Proof.
  intros [Hm Hc] Hk. split; [done|]. intros o Ho Hlt. rewrite (byte_kept s s' v) by (done || unfold in_page, PGSIZE; lia). by apply Hc.
Qed.

Lemma allocx_loop_eq fuel pg c oldsz newsz s : c0 <= c -> 0 <= c0 -> newsz < KERNBASE -> c <= KPAGE ->
  allocxuvm_loop kend me ebp fuel pg (4096 * c) oldsz newsz (drop (Z.to_nat (4096 * (c - c0))) val) (valn - 4096 * (c - c0)) s =
  grow_loop kend me ebp code_fill PTE_U fuel pg (4096 * c) oldsz newsz s.
Proof.
  intros Hc H0 Hn. unfold KERNBASE, KPAGE in *. revert c s Hc. induction fuel as [|fuel IH]; intros c s Hc Hk; cbn [allocxuvm_loop grow_loop]; [done|].
  destruct (Z.ltb_spec (4096 * c) newsz); [|done]. unfold mbind, st_bind. destruct (kalloc_ me ebp s) as [[mem s1]| |]; [|done..].
  destruct (mem =? 0); [done|]. unfold code_fill at 1. replace (4096 * c - 4096 * c0) with (4096 * (c - c0)) by lia. cbv zeta.
  match goal with |- context [match ?f s1 with _ => _ end] => destruct (f s1) as [[[] s2]| |]; [|done..] end.
  destruct (mappages _ _ _ _ _ _ _ s2) as [[r s3]| |]; [|done..]. destruct (r <? 0); [done|].
  rewrite u32_small by (unfold PGSIZE; lia). rewrite s32_small by (unfold PGSIZE; lia).
  rewrite drop_drop. replace (4096 * c + PGSIZE) with (4096 * (c + 1)) by (unfold PGSIZE; lia).
  replace (valn - 4096 * (c - c0) - PGSIZE) with (valn - 4096 * (c + 1 - c0)) by (unfold PGSIZE; lia).
  replace (Z.to_nat (4096 * (c - c0)) + Z.to_nat PGSIZE)%nat with (Z.to_nat (4096 * (c + 1 - c0))) by (unfold PGSIZE; lia).
  apply IH; lia.
Qed.
End code.

Lemma allocx_spec s l F pg T M oldsz newsz val valn : space s l F pg T M -> covers M ((oldsz + 4095) / 4096) ->
  0 <= oldsz <= newsz -> newsz < KERNBASE -> Forall is_byte val -> 0 <= valn <= zlen val -> valn < 2 ^ 31 ->
  let c := (oldsz + 4095) / 4096 in let m := (newsz + 4095) / 4096 in
  exists r s' l' T' M', allocxuvm kend me ebp pg oldsz newsz val valn s = Ok (r, s') /\
    space s' l' F pg T' M' /\ l' ++ own pg T' M' ≡ₚ l ++ own pg T M /\ kept (upages M ++ F) s s' /\
    ((r = newsz /\ grown (holds_code c val valn) 4 s' M M' c m) \/ (r = 0 /\ M' = M /\ Z.of_nat (length l) < 2 * (m - c))).
Proof.
  intros Hsp Hc Ho Hn Hval Hvaln Hint c m. unfold allocxuvm. destruct (Z.leb_spec KERNBASE newsz); [lia|]. destruct (Z.ltb_spec newsz oldsz); [lia|].
  rewrite PGROUNDUP_eq by (unfold KERNBASE in *; lia). cbv zeta. fold c.
  assert (0 <= c) by (apply Z.div_pos; lia).
  assert (c <= KPAGE) by (apply Z.lt_succ_r, Z.div_lt_upper_bound; unfold KPAGE, KERNBASE in *; lia).
  pose proof (allocx_loop_eq c val valn Hvaln Hint (S (S (Z.to_nat ((newsz - 4096 * c) / PGSIZE)))) pg c oldsz newsz s) as E.
  rewrite Z.sub_diag, Z.mul_0_r, Z.sub_0_r in E. change (drop (Z.to_nat 0) val) with val in E. rewrite E by lia. clear E. change PTE_U with 4.
  apply (grow_all kend me ebp Hkend c (code_fill c val valn) (holds_code c val valn) 4); [lia| | |done|done|apply Z.le_refl|done|done].
  - intros c1 s1 l1 v F1 pg1 T1 M1 Hc1 Hs. by apply code_fill_step.
  - intros c1 s1 s2 v. apply holds_code_kept.
Qed.
End bytes.
