(* ===== verification/VmSystem.v ===== *)
(** * Virtual memory keeps processes apart

    The specification: a process has a size and a list of pages, each with its
    permissions and bytes; growing, copying, freeing or writing the memory of one
    process changes nothing of the others.  The page tables of [vm.c] implement
    it, and every page of the machine stays accounted for. *)

From stdpp Require Import base list strings gmap.
From Stdlib Require Import ZArith Lia.
From S2P Require Import Prelude State Spinlock Kalloc Vm VmBase VmSpace VmFork VmBytes.

(** ** Specification *)

(** The size, and the pages: flags and bytes. *)
Notation aproc := (Z * list (Z * list Z))%type.
(** The processes, by the address of their page directory. *)
Notation astate := (gmap Z aproc).

Definition npages (sz : Z) : Z := (sz + 4095) / 4096.

Inductive vop :=
| VNew
| VGrow (pg oldsz newsz : Z)
| VCode (pg oldsz newsz : Z) (val : list Z) (valn : Z)
| VShrink (pg oldsz newsz : Z)
| VFork (pg sz : Z)
| VFree (pg : Z)
| VStore (pg va b : Z).

(** The user may write the byte at [va]. *)
Definition writable (ps : list (Z * list Z)) (va : Z) : bool :=
  match ps !! Z.to_nat (va / 4096) with Some (f, _) => has f PTE_W && has f PTE_U | None => false end.

Definition store_byte (ps : list (Z * list Z)) (va b : Z) : list (Z * list Z) :=
  alter (fun p => (p.1, <[Z.to_nat (va mod 4096) := b]> p.2)) (Z.to_nat (va / 4096)) ps.

(** What an operation does, its result, and the reasons to fail; [free] is the
    number of free pages. *)
Inductive effect (A : astate) (free : nat) : vop -> Z -> astate -> Prop :=
| new_ok r : r <> 0 -> A !! r = None -> effect A free VNew r (<[r := (0, [])]> A)
| new_full : (free <= 1025)%nat -> effect A free VNew 0 A
| grow_ok pg oldsz newsz ps : A !! pg = Some (oldsz, ps) -> oldsz <= newsz < KERNBASE ->
    effect A free (VGrow pg oldsz newsz) newsz
      (<[pg := (newsz, ps ++ replicate (Z.to_nat (npages newsz - npages oldsz)) (7, replicate 4096 0))]> A)
| grow_less pg oldsz newsz : newsz < oldsz -> effect A free (VGrow pg oldsz newsz) oldsz A
| grow_full pg oldsz newsz : KERNBASE <= newsz \/ Z.of_nat free < 2 * (npages newsz - npages oldsz) ->
    effect A free (VGrow pg oldsz newsz) 0 A
| code_ok pg oldsz newsz val valn ps qs : A !! pg = Some (oldsz, ps) -> oldsz <= newsz < KERNBASE ->
    Z.of_nat (length qs) = npages newsz - npages oldsz ->
    (forall i f bs, qs !! i = Some (f, bs) -> f = 5 /\ length bs = 4096%nat /\
       forall o, (o < 4096)%nat -> Z.of_nat (4096 * i + o) < valn -> bs !! o = val !! (4096 * i + o)%nat) ->
    effect A free (VCode pg oldsz newsz val valn) newsz (<[pg := (newsz, ps ++ qs)]> A)
| code_less pg oldsz newsz val valn : newsz < oldsz -> effect A free (VCode pg oldsz newsz val valn) oldsz A
| code_full pg oldsz newsz val valn : KERNBASE <= newsz \/ Z.of_nat free < 2 * (npages newsz - npages oldsz) ->
    effect A free (VCode pg oldsz newsz val valn) 0 A
| shrink_ok pg oldsz newsz ps : A !! pg = Some (oldsz, ps) -> newsz < oldsz ->
    effect A free (VShrink pg oldsz newsz) newsz (<[pg := (newsz, take (Z.to_nat (npages newsz)) ps)]> A)
| shrink_more pg oldsz newsz : oldsz <= newsz -> effect A free (VShrink pg oldsz newsz) oldsz A
| fork_ok pg sz ps r : A !! pg = Some (sz, ps) -> r <> 0 -> A !! r = None ->
    effect A free (VFork pg sz) r (<[r := (sz, ps)]> A)
| fork_full pg sz : Z.of_nat free < 2 * npages sz + 1026 -> effect A free (VFork pg sz) 0 A
| free_done pg : effect A free (VFree pg) 0 (delete pg A)
| store_ok pg va b sz ps : A !! pg = Some (sz, ps) -> writable ps va = true ->
    effect A free (VStore pg va b) 0 (<[pg := (sz, store_byte ps va b)]> A)
| store_fault pg va b sz ps : A !! pg = Some (sz, ps) -> writable ps va = false -> effect A free (VStore pg va b) (-1) A.

(** The operation is on a process there is, with its size. *)
Definition valid (A : astate) (o : vop) : Prop :=
  match o with
  | VNew => True
  | VGrow pg oldsz newsz => is_Some (A !! pg) /\ (forall p, A !! pg = Some p -> p.1 = oldsz) /\ 0 <= newsz < 2 ^ 32
  | VCode pg oldsz newsz val valn => is_Some (A !! pg) /\ (forall p, A !! pg = Some p -> p.1 = oldsz) /\ 0 <= newsz < 2 ^ 32 /\
      Forall is_byte val /\ 0 <= valn <= zlen val /\ valn < 2 ^ 31
  | VShrink pg oldsz newsz => is_Some (A !! pg) /\ (forall p, A !! pg = Some p -> p.1 = oldsz) /\ 0 <= newsz < 2 ^ 32
  | VFork pg sz => is_Some (A !! pg) /\ (forall p, A !! pg = Some p -> p.1 = sz)
  | VFree pg => is_Some (A !! pg)
  | VStore pg va b => is_Some (A !! pg) /\ 0 <= va < 2 ^ 32 /\ is_byte b
  end.

(** ** The machine *)

(** A store of a byte by a user program; -1 for a page fault. *)
Definition user_store (pg va b : Z) : ST kst Z := fun s =>
  match mmu (word s) pg va with
  | Some (pa, f) => if has f PTE_W && has f PTE_U then Ok (0, with_word s (put_byte (word s) (P2V pa) b)) else Ok (-1, s)
  | None => Ok (-1, s)
  end.

Section system.
Context (kend me ebp data : Z).
Hypothesis Hkend : KERNBASE < kend.
Hypothesis Hdata : data_ok data.
Notation space := (space kend).

Definition run (o : vop) : ST kst Z :=
  match o with
  | VNew => setupkvm kend me ebp data
  | VGrow pg oldsz newsz => allocuvm kend me ebp pg oldsz newsz
  | VCode pg oldsz newsz val valn => allocxuvm kend me ebp pg oldsz newsz val valn
  | VShrink pg oldsz newsz => deallocuvm kend me ebp pg oldsz newsz
  | VFork pg sz => copyuvm kend me ebp data pg sz
  | VFree pg => _ ← freevm kend me ebp pg; mret 0
  | VStore pg va b => user_store pg va b
  end.

(** ** Representation *)

Definition page_bytes (s : kst) (p : Z) : list Z := (fun o => byte_at (word s) (p + o)) <$> seqZ 0 4096.

Record mem_of (s : kst) (M : gmap Z (Z * Z)) (sz : Z) (ps : list (Z * list Z)) : Prop := {
  mo_size : 0 <= sz < KERNBASE;
  mo_len : Z.of_nat (length ps) = npages sz;
  mo_page : forall j f bs, ps !! j = Some (f, bs) -> exists pa, M !! Z.of_nat j = Some (pa, f) /\ page_bytes s (P2V pa) = bs;
  mo_cov : covers M (npages sz);
  mo_kernel : forall j, KPAGE <= j -> M !! j = kentry (kmaps data) j;
}.

Notation spaces := (gmap Z (gmap Z Z * gmap Z (Z * Z))).
Definition owns (S : spaces) : list Z := map_to_list S ≫= fun x => own x.1 x.2.1 x.2.2.

Definition rep_all (s : kst) (S : spaces) (A : astate) : Prop := forall pg,
  match S !! pg, A !! pg with
  | Some (T, M), Some (sz, ps) => aspace (word s) pg T M /\ mem_of s M sz ps
  | None, None => True
  | _, _ => False
  end.

(** The pages of the machine are [all]; those of [F] are used for something else. *)
Definition sys (all : list Z) (s : kst) (A : astate) (F : list Z) (free : nat) : Prop :=
  all_pages kend all /\ exists l S, kalloc_inv kend s l /\ l ++ owns S ++ F ≡ₚ all /\ rep_all s S A /\ length l = free.

Lemma owns_insert S pg T M : S !! pg = None -> owns (<[pg := (T, M)]> S) ≡ₚ own pg T M ++ owns S.
Proof. intros HS. unfold owns. by rewrite map_to_list_insert by done. Qed.

Lemma owns_split S pg T M : S !! pg = Some (T, M) -> owns S ≡ₚ own pg T M ++ owns (delete pg S).
Proof. intros HS. rewrite <- (insert_delete_id S pg (T, M) HS) at 1. apply owns_insert. apply lookup_delete_eq. Qed.

Lemma bytes_kept L s s' p : kept L s s' -> p ∈ L -> p mod 4096 = 0 -> page_bytes s' p = page_bytes s p.
Proof.
  intros Hk Hp Hm. unfold page_bytes. apply list_fmap_ext. intros i o Hi. apply lookup_seqZ in Hi as [-> Hi].
  apply (byte_kept s s' p); [|done|unfold in_page, PGSIZE; lia]. intros q a Hq. apply list_elem_of_singleton in Hq as ->. by apply Hk.
Qed.

Lemma mem_kept L s s' M sz ps : kept L s s' -> (forall p, p ∈ upages M -> p ∈ L) -> (forall p, p ∈ upages M -> p mod 4096 = 0) ->
  mem_of s M sz ps -> mem_of s' M sz ps.
Proof.
  intros Hk HL Hm [H1 H2 H3 H4 H5]. constructor; try done. intros j f bs Hj. destruct (H3 j f bs Hj) as (pa & HM & <-).
  exists pa. split; [done|]. assert (Hp : P2V pa ∈ upages M).
  { apply elem_upages. exists (Z.of_nat j), pa, f. split_and!; try done. apply lookup_lt_Some in Hj. unfold KERNBASE, KPAGE, npages in *.
    assert ((sz + 4095) / 4096 <= 524288) by (apply Z.lt_succ_r, Z.div_lt_upper_bound; lia). lia. }
  apply (bytes_kept L); auto.
Qed.

Lemma rep_kept s s' S A L : rep_all s S A -> kept L s s' -> (forall p, p ∈ owns S -> p ∈ L) ->
  all_pages kend (owns S) -> rep_all s' S A.
Proof.
  intros HR Hk HL Hp pg. specialize (HR pg). destruct (S !! pg) as [[T M]|] eqn:HS, (A !! pg) as [[sz ps]|]; try done.
  destruct HR as [Ha Hm]. assert (Hin : forall p, p ∈ own pg T M -> p ∈ owns S) by (intros p; rewrite (owns_split S pg T M HS), elem_of_app; auto).
  split; [apply (kept_aspace L s); auto|]. apply (mem_kept L s); auto using upages_own.
  intros p Hpu. apply (all_pages_mod kend _ _ Hp). by apply Hin, upages_own.
Qed.

(** One process, in front of the others. *)
Record focus (all : list Z) (s : kst) (A : astate) (F : list Z) (l : list Z) (pg : Z) (T : gmap Z Z) (M : gmap Z (Z * Z))
    (sz : Z) (ps : list (Z * list Z)) (S : spaces) : Prop := {
  fo_space : space s l (owns S ++ F) pg T M;
  fo_mem : mem_of s M sz ps;
  fo_rest : rep_all s S (delete pg A);
  fo_all : l ++ own pg T M ++ owns S ++ F ≡ₚ all;
}.

Lemma sys_focus all s A F free pg : sys all s A F free -> is_Some (A !! pg) ->
  exists l T M sz ps S, A !! pg = Some (sz, ps) /\ length l = free /\ focus all s A F l pg T M sz ps S.
Proof.
  intros [Hall (l & S & Hk & Hp & HR & Hl)] [[sz ps] HA]. pose proof (HR pg) as Hpg. rewrite HA in Hpg.
  destruct (S !! pg) as [[T M]|] eqn:HS; [|done]. destruct Hpg as [Ha Hm]. exists l, T, M, sz, ps, (delete pg S).
  assert (Hp2 : l ++ own pg T M ++ owns (delete pg S) ++ F ≡ₚ all) by (rewrite <- Hp, (owns_split S pg T M HS); solve_Permutation).
  split_and!; [done|done|]. constructor; [constructor; [done|by rewrite Hp2|done]|done| |done].
  intros q. destruct (decide (q = pg)) as [->|]; [by rewrite !lookup_delete_eq|]. rewrite !lookup_delete_ne by done. apply HR.
Qed.

Lemma rest_pages all s A F l pg T M sz ps S : all_pages kend all -> focus all s A F l pg T M sz ps S -> all_pages kend (owns S).
Proof. intros Hall Hf. apply (all_pages_sub kend _ _ Hall). rewrite <- (fo_all _ _ _ _ _ _ _ _ _ _ _ Hf). solve_submseteq. Qed.

Lemma rest_none all s A F l pg T M sz ps S : focus all s A F l pg T M sz ps S -> S !! pg = None.
Proof. intros Hf. pose proof (fo_rest _ _ _ _ _ _ _ _ _ _ _ Hf pg) as H. rewrite lookup_delete_eq in H. by destruct (S !! pg) as [[]|]. Qed.

(** The process changed, the others kept. *)
Lemma sys_unfocus all s s' A F l l' pg T M sz ps S T' M' sz' ps' : all_pages kend all -> focus all s A F l pg T M sz ps S ->
  space s' l' (owns S ++ F) pg T' M' -> l' ++ own pg T' M' ≡ₚ l ++ own pg T M -> kept (owns S ++ F) s s' ->
  mem_of s' M' sz' ps' -> sys all s' (<[pg := (sz', ps')]> A) F (length l').
Proof.
  intros Hall Hf Hsp Hp Hk Hm. split; [done|]. pose proof (rest_none _ _ _ _ _ _ _ _ _ _ _ Hf) as HSn.
  exists l', (<[pg := (T', M')]> S). split_and!; [apply Hsp| | |done].
  - rewrite owns_insert by done. rewrite <- (fo_all _ _ _ _ _ _ _ _ _ _ _ Hf), !app_assoc, Hp. done.
  - intros q. destruct (decide (q = pg)) as [->|].
    + rewrite !lookup_insert_eq. split; [apply Hsp|done].
    + rewrite !lookup_insert_ne by done.
      pose proof (rep_kept s s' S _ _ (fo_rest _ _ _ _ _ _ _ _ _ _ _ Hf) Hk) as HR. specialize (HR ltac:(set_solver) (rest_pages _ _ _ _ _ _ _ _ _ _ _ Hall Hf) q).
      by rewrite lookup_delete_ne in HR by done.
Qed.

(** ** Growing *)

Lemma npages_mono a b : a <= b -> npages a <= npages b.
Proof. intros H. apply Z.div_le_mono; lia. Qed.

Lemma npages_kernel sz : 0 <= sz < KERNBASE -> 0 <= npages sz <= KPAGE.
Proof.
  unfold npages, KERNBASE, KPAGE. intros H. split; [apply Z.div_pos; lia|]. apply Z.lt_succ_r, Z.div_lt_upper_bound; lia.
Qed.

Lemma grown_mem Q perm L s s' M M' sz newsz ps : mem_of s M sz ps -> sz <= newsz < KERNBASE ->
  grown Q perm s' M M' (npages sz) (npages newsz) -> kept L s s' -> (forall p, p ∈ upages M -> p ∈ L) ->
  (forall p, p ∈ upages M -> p mod 4096 = 0) ->
  exists qs, Z.of_nat (length qs) = npages newsz - npages sz /\
    (forall i f bs, qs !! i = Some (f, bs) -> f = Z.lor perm 1 /\ exists v, Q (npages sz + Z.of_nat i) s' v /\ bs = page_bytes s' v) /\
    mem_of s' M' newsz (ps ++ qs).
Proof.
  intros Hm Hn Hg Hk HL HM. destruct (mem_kept L s s' M sz ps Hk HL HM Hm) as [H1 H2 H3 H4 H5].
  pose proof (npages_mono sz newsz ltac:(lia)) as Hle. pose proof (npages_kernel sz H1) as Hr. pose proof (npages_kernel newsz ltac:(lia)) as Hr2.
  set (page := fun j => match M' !! j with Some (pa, f) => (f, page_bytes s' (P2V pa)) | None => (0, []) end).
  exists (page <$> seqZ (npages sz) (npages newsz - npages sz)).
  assert (Hq : forall i f bs, (page <$> seqZ (npages sz) (npages newsz - npages sz)) !! i = Some (f, bs) ->
    Z.of_nat i < npages newsz - npages sz /\ exists pa, M' !! (npages sz + Z.of_nat i) = Some (pa, f) /\ bs = page_bytes s' (P2V pa) /\
      f = Z.lor perm 1 /\ Q (npages sz + Z.of_nat i) s' (P2V pa)).
  { intros i f bs Hi. apply list_lookup_fmap_Some in Hi as (j & Hp & Hj). apply lookup_seqZ in Hj as [-> Hj]. split; [lia|].
    specialize (Hg (npages sz + Z.of_nat i)). rewrite bool_decide_true in Hg by lia. destruct Hg as (pa & HM' & HQ).
    unfold page in Hp. rewrite HM' in Hp. injection Hp as -> ->. by exists pa. }
  split_and!.
  - rewrite length_fmap, length_seqZ. lia.
  - intros i f bs Hi. destruct (Hq i f bs Hi) as (_ & pa & _ & -> & -> & HQ). split; [done|]. by exists (P2V pa).
  - constructor; [lia| | | |].
    + rewrite length_app, length_fmap, length_seqZ. lia.
    + intros j f bs Hj. apply lookup_app_Some in Hj as [Hj|[Hj1 Hj]].
      * destruct (H3 j f bs Hj) as (pa & HMj & Hb). exists pa. split; [|done]. specialize (Hg (Z.of_nat j)).
        apply lookup_lt_Some in Hj. rewrite bool_decide_false in Hg by lia. by rewrite Hg.
      * apply Hq in Hj as (_ & pa & HMj & -> & _). exists pa. split; [|done]. rewrite <- HMj. f_equal. lia.
    + intros j Hj. specialize (Hg j). case_bool_decide as Hd.
      * destruct Hg as (pa & -> & _). split; [lia|by eexists].
      * rewrite Hg, (H4 j Hj). lia.
    + intros j Hj. specialize (Hg j). rewrite bool_decide_false in Hg by lia. rewrite Hg. by apply H5.
Qed.

Lemma zero_page s p : zeroed s p -> page_bytes s p = replicate 4096 0.
Proof.
  intros [Hp Hz]. unfold page_bytes. apply list_eq. intros i. rewrite list_lookup_fmap.
  destruct (decide (i < 4096)%nat).
  - rewrite lookup_seqZ_lt by lia. rewrite lookup_replicate_2 by lia. cbn [fmap option_fmap option_map]. rewrite Z.add_0_l. f_equal. unfold byte_at.
    pose proof (Z.mod_pos_bound (p + Z.of_nat i) 4 ltac:(lia)). pose proof (Z.div_mod (p + Z.of_nat i) 4 ltac:(lia)).
    rewrite Hz; [by rewrite Z.div_0_l by (apply Z.pow_nonzero; lia)|]. unfold in_page, PGSIZE. apply Z.div_exact in Hp; lia.
  - rewrite lookup_seqZ_ge by lia. symmetry. apply lookup_ge_None_2. rewrite length_replicate. lia.
Qed.

Lemma upages_mod s l F pg T M p : space s l F pg T M -> p ∈ upages M -> p mod 4096 = 0.
Proof. intros Hsp Hp. apply (page_range kend), (space_page kend _ _ _ _ _ _ p Hsp). rewrite !elem_of_app. auto using upages_own. Qed.

Definition lost (o : vop) (r : Z) (F F' : list Z) : Prop :=
  F' = F \/ (exists pg sz p, o = VFork pg sz /\ r = 0 /\ F' = p :: F).

Definition simulated (all : list Z) (s : kst) (A : astate) (F : list Z) (free : nat) (o : vop) : Prop :=
  exists r s' A' F' free', run o s = Ok (r, s') /\ effect A free o r A' /\ lost o r F F' /\ sys all s' A' F' free'.

(** A process that does not change. *)
Lemma simulated_same all s A F free o r : run o s = Ok (r, s) -> effect A free o r A -> sys all s A F free -> simulated all s A F free o.
Proof. intros E He Hs. exists r, s, A, F, free. split_and!; try done. by left. Qed.

Lemma same_entry (A : astate) pg p : A !! pg = Some p -> <[pg := p]> A = A.
Proof. apply insert_id. Qed.

Lemma sim_grow all s A F free pg oldsz newsz : sys all s A F free -> valid A (VGrow pg oldsz newsz) ->
  simulated all s A F free (VGrow pg oldsz newsz).
Proof.
  intros Hs (HA & Hsz & Hn). destruct (sys_focus all s A F free pg Hs HA) as (l & T & M & sz & ps & S & HApg & Hl & Hf).
  assert (sz = oldsz) as -> by (apply (Hsz _ HApg)). pose proof (fo_mem _ _ _ _ _ _ _ _ _ _ _ Hf) as Hm.
  destruct (Z.lt_ge_cases newsz KERNBASE) as [Hnk|Hnk].
  2:{ apply (simulated_same _ _ _ _ _ _ 0); [|constructor; by left|done]. cbn. unfold allocuvm. by destruct (Z.leb_spec KERNBASE newsz); [|lia]. }
  destruct (Z.lt_ge_cases newsz oldsz) as [Hno|Hno].
  { apply (simulated_same _ _ _ _ _ _ oldsz); [|by constructor|done]. cbn. unfold allocuvm.
    destruct (Z.leb_spec KERNBASE newsz); [lia|]. by destruct (Z.ltb_spec newsz oldsz); [|lia]. }
  pose proof (fo_space _ _ _ _ _ _ _ _ _ _ _ Hf) as Hsp. pose proof (mo_size _ _ _ _ Hm) as Hos. pose proof (proj1 Hs) as Hall.
  destruct (alloc_spec kend me ebp Hkend s l _ pg T M oldsz newsz Hsp (mo_cov _ _ _ _ Hm)) as (r & s' & l' & T' & M' & E & H1 & Hp & Hk & Hr); [lia|done|].
  assert (HkF : kept (owns S ++ F) s s') by (apply (kept_sub _ _ _ _ Hk); clear; set_solver).
  assert (Hum : forall p, p ∈ upages M -> p mod 4096 = 0) by (intros p; by apply (upages_mod s l _ pg T M p Hsp)).
  destruct Hr as [(-> & Hg)|(-> & -> & Hfull)].
  - destruct (grown_mem _ _ _ s s' M M' oldsz newsz ps Hm ltac:(lia) Hg Hk) as (qs & Hq1 & Hq2 & Hm'); [clear; set_solver|done|].
    assert (qs = replicate (Z.to_nat (npages newsz - npages oldsz)) (7, replicate 4096 0)) as ->.
    { symmetry. apply replicate_as_Forall_2; [lia|]. apply Forall_lookup_2. intros i [f bs] Hi. destruct (Hq2 i f bs Hi) as (-> & v & Hv & ->).
      by rewrite (zero_page s' v Hv). }
    exists newsz, s', (<[pg := (newsz, ps ++ replicate (Z.to_nat (npages newsz - npages oldsz)) (7, replicate 4096 0))]> A), F, (length l').
    split_and!; [exact E|by constructor|by left|]. by apply (sys_unfocus all s s' A F l l' pg T M oldsz ps S T' M').
  - exists 0, s', A, F, (length l'). split_and!; [exact E|constructor; right; rewrite <- Hl; exact Hfull|by left|].
    rewrite <- (same_entry A pg _ HApg). apply (sys_unfocus all s s' A F l l' pg T M oldsz ps S T' M); try done.
    apply (mem_kept _ _ _ _ _ _ Hk); [clear; set_solver|done|done].
Qed.

Lemma sim_code all s A F free pg oldsz newsz val valn : sys all s A F free -> valid A (VCode pg oldsz newsz val valn) ->
  simulated all s A F free (VCode pg oldsz newsz val valn).
Proof.
  intros Hs (HA & Hsz & Hn & Hval & Hvaln & Hint). destruct (sys_focus all s A F free pg Hs HA) as (l & T & M & sz & ps & S & HApg & Hl & Hf).
  assert (sz = oldsz) as -> by (apply (Hsz _ HApg)). pose proof (fo_mem _ _ _ _ _ _ _ _ _ _ _ Hf) as Hm.
  destruct (Z.lt_ge_cases newsz KERNBASE) as [Hnk|Hnk].
  2:{ apply (simulated_same _ _ _ _ _ _ 0); [|constructor; by left|done]. cbn. unfold allocxuvm. by destruct (Z.leb_spec KERNBASE newsz); [|lia]. }
  destruct (Z.lt_ge_cases newsz oldsz) as [Hno|Hno].
  { apply (simulated_same _ _ _ _ _ _ oldsz); [|by constructor|done]. cbn. unfold allocxuvm.
    destruct (Z.leb_spec KERNBASE newsz); [lia|]. by destruct (Z.ltb_spec newsz oldsz); [|lia]. }
  pose proof (fo_space _ _ _ _ _ _ _ _ _ _ _ Hf) as Hsp. pose proof (mo_size _ _ _ _ Hm) as Hos. pose proof (proj1 Hs) as Hall.
  destruct (allocx_spec kend me ebp Hkend s l _ pg T M oldsz newsz val valn Hsp (mo_cov _ _ _ _ Hm)) as (r & s' & l' & T' & M' & E & H1 & Hp & Hk & Hr); [lia|done|done|done|done|].
  assert (HkF : kept (owns S ++ F) s s') by (apply (kept_sub _ _ _ _ Hk); clear; set_solver).
  assert (Hum : forall p, p ∈ upages M -> p mod 4096 = 0) by (intros p; by apply (upages_mod s l _ pg T M p Hsp)).
  destruct Hr as [(-> & Hg)|(-> & -> & Hfull)].
  - destruct (grown_mem _ _ _ s s' M M' oldsz newsz ps Hm ltac:(lia) Hg Hk) as (qs & Hq1 & Hq2 & Hm'); [clear; set_solver|done|].
    exists newsz, s', (<[pg := (newsz, ps ++ qs)]> A), F, (length l').
    split_and!; [exact E| |by left|by apply (sys_unfocus all s s' A F l l' pg T M oldsz ps S T' M')].
    constructor; [done|done|done|]. intros i f bs Hi. destruct (Hq2 i f bs Hi) as (-> & v & [Hvm Hv] & ->).
    split; [done|]. split; [unfold page_bytes; by rewrite length_fmap, length_seqZ|]. intros o Ho Hlt. unfold page_bytes.
    rewrite list_lookup_fmap, lookup_seqZ_lt by lia. cbn [fmap option_fmap option_map]. rewrite Hv by (unfold npages; lia).
    destruct (nth_lookup_or_length val (4096 * i + o) 0) as [->|Hlen]; [|unfold zlen in Hvaln; lia].
    f_equal. f_equal. unfold npages. lia.
  - exists 0, s', A, F, (length l'). split_and!; [exact E|constructor; right; rewrite <- Hl; exact Hfull|by left|].
    rewrite <- (same_entry A pg _ HApg). apply (sys_unfocus all s s' A F l l' pg T M oldsz ps S T' M); try done.
    apply (mem_kept _ _ _ _ _ _ Hk); [clear; set_solver|done|done].
Qed.

(** ** Shrinking and freeing *)

Lemma cut_mem L s s' M M' oldsz newsz ps : mem_of s M oldsz ps -> 0 <= newsz < oldsz -> cut M M' (npages newsz) oldsz ->
  kept L s s' -> (forall p, p ∈ upages M' -> p ∈ L) -> (forall p, p ∈ upages M -> p mod 4096 = 0) ->
  mem_of s' M' newsz (take (Z.to_nat (npages newsz)) ps).
Proof.
  intros [H1 H2 H3 H4 H5] Hn Hc Hk HL HM. pose proof (npages_mono newsz oldsz ltac:(lia)). pose proof (npages_kernel oldsz H1).
  pose proof (npages_kernel newsz ltac:(lia)). constructor; [lia| | | |].
  - rewrite length_take. lia.
  - intros j f bs Hj. apply lookup_take_Some in Hj as [Hj Hlt]. destruct (H3 j f bs Hj) as (pa & HMj & <-). exists pa.
    assert (HMj' : M' !! Z.of_nat j = Some (pa, f)) by (rewrite (Hc (Z.of_nat j)), bool_decide_false by lia; done).
    split; [done|]. apply (bytes_kept L); [done| |apply HM]; [apply HL|]; apply elem_upages; exists (Z.of_nat j), pa, f; split_and!; (done || lia).
  - intros j Hj. rewrite (Hc j). case_bool_decide as Hd; [split; [by intros []|lia]|]. rewrite (H4 j Hj). split; [|lia].
    intros Hlt. destruct (Z.lt_ge_cases j (npages newsz)); [done|]. exfalso. apply Hd. split; [done|].
    assert (j + 1 <= npages oldsz) as Hj1 by lia. unfold npages in Hj1.
    pose proof (Z.mul_div_le (oldsz + 4095) 4096 ltac:(lia)). lia.
  - intros j Hj. rewrite (Hc j), bool_decide_false; [by apply H5|]. unfold KPAGE, KERNBASE in *. lia.
Qed.

Lemma sim_shrink all s A F free pg oldsz newsz : sys all s A F free -> valid A (VShrink pg oldsz newsz) ->
  simulated all s A F free (VShrink pg oldsz newsz).
Proof.
  intros Hs (HA & Hsz & Hn). destruct (sys_focus all s A F free pg Hs HA) as (l & T & M & sz & ps & S & HApg & Hl & Hf).
  assert (sz = oldsz) as -> by (apply (Hsz _ HApg)). pose proof (fo_mem _ _ _ _ _ _ _ _ _ _ _ Hf) as Hm. pose proof (mo_size _ _ _ _ Hm).
  destruct (Z.lt_ge_cases newsz oldsz) as [Hno|Hno].
  2:{ apply (simulated_same _ _ _ _ _ _ oldsz); [|by constructor|done]. cbn. unfold deallocuvm. by destruct (Z.leb_spec oldsz newsz); [|lia]. }
  pose proof (fo_space _ _ _ _ _ _ _ _ _ _ _ Hf) as Hsp. pose proof (proj1 Hs) as Hall.
  destruct (dealloc_spec kend me ebp Hkend s l _ pg T M oldsz newsz Hsp) as (s' & l' & M' & E & H1 & Hcut & Hk & Hp); [lia|lia|].
  rewrite Z.min_r in E by lia.
  exists newsz, s', (<[pg := (newsz, take (Z.to_nat (npages newsz)) ps)]> A), F, (length l').
  split_and!; [exact E|by constructor|by left|]. apply (sys_unfocus all s s' A F l l' pg T M oldsz ps S T M'); try done.
  - apply (kept_sub _ _ _ _ Hk). clear. set_solver.
  - apply (cut_mem _ s s' M M' oldsz newsz ps Hm ltac:(lia) Hcut Hk); [clear; set_solver|]. intros p. by apply (upages_mod s l _ pg T M p Hsp).
Qed.

Lemma sim_free all s A F free pg : sys all s A F free -> valid A (VFree pg) -> simulated all s A F free (VFree pg).
Proof.
  intros Hs HA. destruct (sys_focus all s A F free pg Hs HA) as (l & T & M & sz & ps & S & HApg & Hl & Hf).
  destruct (freevm_spec kend me ebp Hkend s l _ pg T M (fo_space _ _ _ _ _ _ _ _ _ _ _ Hf)) as (s' & l' & E & Hk' & Hp & Hkept).
  exists 0, s', (delete pg A), F, (length l'). split_and!; [cbn; by erewrite bind_run by exact E|constructor|by left|].
  pose proof (proj1 Hs) as Hall. split; [done|]. exists l', S. split_and!; [done| | |done].
  - rewrite Hp, <- (fo_all _ _ _ _ _ _ _ _ _ _ _ Hf). by rewrite <- app_assoc.
  - apply (rep_kept s _ _ _ (owns S ++ F)); [apply Hf|done|clear; set_solver|by eapply rest_pages].
Qed.

(** ** New spaces *)

Lemma sys_add all s A F l S r T M sz ps : all_pages kend all -> rep_all s S A -> kalloc_inv kend s l -> aspace (word s) r T M ->
  mem_of s M sz ps -> l ++ own r T M ++ owns S ++ F ≡ₚ all ->
  r <> 0 /\ A !! r = None /\ sys all s (<[r := (sz, ps)]> A) F (length l).
Proof.
  intros Hall HR Hk Ha Hm Hp. assert (HSr : S !! r = None).
  { destruct (S !! r) as [[T' M']|] eqn:HS; [|done]. exfalso. rewrite <- Hp, (owns_split S r T' M' HS) in Hall. destruct Hall as [Hnd _].
    apply NoDup_app in Hnd as (_ & _ & Hnd). unfold own in Hnd. cbn in Hnd. apply NoDup_cons in Hnd as [Hnd _]. set_solver. }
  split_and!.
  - assert (Hr : r ∈ all) by (rewrite <- Hp; unfold own; set_solver). destruct Hall as [_ HF]. rewrite Forall_forall in HF.
    destruct (HF r Hr) as [? _]. lia.
  - specialize (HR r). rewrite HSr in HR. by destruct (A !! r) as [[]|].
  - split; [done|]. exists l, (<[r := (T, M)]> S). split_and!; [done| | |done].
    + rewrite owns_insert by done. rewrite <- Hp. solve_Permutation.
    + intros q. destruct (decide (q = r)) as [->|]; [by rewrite !lookup_insert_eq|]. rewrite !lookup_insert_ne by done. apply HR.
Qed.

Lemma sim_new all s A F free : sys all s A F free -> simulated all s A F free VNew.
Proof.
  intros [Hall (l & S & Hk & Hp & HR & Hl)]. assert (Hpl : all_pages kend (l ++ owns S ++ F)) by (by rewrite Hp).
  assert (Hpo : all_pages kend (owns S)) by (apply (all_pages_sub kend _ _ Hpl); solve_submseteq).
  destruct (setup_spec kend me ebp data Hkend Hdata s l (owns S ++ F) Hk Hpl) as (r & s' & E & Hkept & Hr).
  assert (HR' : rep_all s' S A) by (apply (rep_kept s _ _ _ (owns S ++ F)); [done|done|clear; set_solver|done]).
  destruct Hr as [(-> & Hlen & l' & H1 & H2)|(l' & T' & M' & H1 & H2 & H3)].
  - exists 0, s', A, F, (length l'). split_and!; [exact E|constructor; lia|by left|]. split; [done|].
    exists l', S. split_and!; try done. by rewrite H2.
  - assert (Hm : mem_of s' M' 0 []).
    { constructor; [done|done|done| |intros j _; apply H3]. intros j Hj. rewrite H3, kmaps_user by (done || lia).
      change (npages 0) with 0. split; [by intros []|lia]. }
    destruct (sys_add all s' A F l' S r T' M' 0 [] Hall HR' (sp_free _ _ _ _ _ _ _ H1) (sp_map _ _ _ _ _ _ _ H1) Hm) as (Hr & HA & Hs).
    { rewrite <- Hp, <- H2. solve_Permutation. }
    exists r, s', (<[r := (0, [])]> A), F, (length l'). split_and!; [exact E|by constructor|by left|done].
Qed.

Lemma same_page_bytes s p q : p mod 4096 = 0 -> q mod 4096 = 0 -> same_page s p q -> page_bytes s p = page_bytes s q.
Proof.
  intros Hp Hq Hs. unfold page_bytes. apply list_fmap_ext. intros i o Hi. apply lookup_seqZ in Hi as [-> Hi].
  apply Z.div_exact in Hp; [|lia]. apply Z.div_exact in Hq; [|lia].
  assert (Hmod : forall x, x = 4096 * (x / 4096) -> (x + (0 + Z.of_nat i)) mod 4 = Z.of_nat i mod 4).
  { intros x Hx. rewrite Hx. replace (4096 * (x / 4096) + (0 + Z.of_nat i)) with (Z.of_nat i + (1024 * (x / 4096)) * 4) by lia. by rewrite Z.mod_add by lia. }
  unfold byte_at. rewrite (Hmod p Hp), (Hmod q Hq). f_equal. f_equal.
  pose proof (Z.mod_pos_bound (Z.of_nat i) 4 ltac:(lia)). pose proof (Z.mod_le (Z.of_nat i) 4 ltac:(lia) ltac:(lia)).
  replace (p + (0 + Z.of_nat i) - Z.of_nat i mod 4) with (p + (Z.of_nat i - Z.of_nat i mod 4)) by lia.
  replace (q + (0 + Z.of_nat i) - Z.of_nat i mod 4) with (q + (Z.of_nat i - Z.of_nat i mod 4)) by lia.
  apply Hs. lia.
Qed.

Lemma copied_mem L s s' M Md sz ps : mem_of s M sz ps -> copied M s' Md (npages sz) -> (forall j, KPAGE <= j -> Md !! j = kentry (kmaps data) j) ->
  kept L s s' -> (forall p, p ∈ upages M -> p ∈ L) -> (forall p, p ∈ upages M \/ p ∈ upages Md -> p mod 4096 = 0) ->
  mem_of s' Md sz ps.
Proof.
  intros [H1 H2 H3 H4 H5] Hc Hker Hk HL Hmod. pose proof (npages_kernel sz H1). constructor; [done|done| | |done].
  - intros j f bs Hj. destruct (H3 j f bs Hj) as (pa & HM & <-). apply lookup_lt_Some in Hj.
    specialize (Hc (Z.of_nat j) ltac:(lia)). rewrite bool_decide_true in Hc by lia. destruct Hc as (pa1 & f1 & pa' & HM' & HMd & Hs).
    rewrite HM in HM'. injection HM' as <- <-. exists pa'. split; [done|].
    assert (Hu : P2V pa ∈ upages M) by (apply elem_upages; exists (Z.of_nat j), pa, f; split_and!; (done || lia)).
    assert (Hu' : P2V pa' ∈ upages Md) by (apply elem_upages; exists (Z.of_nat j), pa', f; split_and!; (done || lia)).
    rewrite (same_page_bytes s' _ (P2V pa)); [apply (bytes_kept L); auto|auto|auto|done].
  - intros j Hj. specialize (Hc j Hj). case_bool_decide as Hd.
    + destruct Hc as (_ & f & pa' & _ & -> & _). split; [done|by eexists].
    + rewrite Hc. split; [by intros []|done].
Qed.

Lemma sim_fork all s A F free pg sz : sys all s A F free -> valid A (VFork pg sz) -> simulated all s A F free (VFork pg sz).
Proof.
  intros Hs (HA & Hsz). destruct (sys_focus all s A F free pg Hs HA) as (l & T & M & sz' & ps & S & HApg & Hl & Hf).
  assert (sz' = sz) as -> by (apply (Hsz _ HApg)). pose proof (fo_mem _ _ _ _ _ _ _ _ _ _ _ Hf) as Hm.
  pose proof (fo_space _ _ _ _ _ _ _ _ _ _ _ Hf) as Hsp. pose proof (proj1 Hs) as Hall.
  assert (Hum : forall p, p ∈ upages M -> p mod 4096 = 0) by (intros p; by apply (upages_mod s l _ pg T M p Hsp)).
  destruct (copyuvm_spec kend me ebp data Hkend Hdata (owns S ++ F) pg T M sz (mo_cov _ _ _ _ Hm) (mo_size _ _ _ _ Hm) s l Hsp)
    as (r & s' & E & Hk & Hr).
  set (S0 := <[pg := (T, M)]> S). pose proof (rest_none _ _ _ _ _ _ _ _ _ _ _ Hf) as HSn.
  assert (Ho : owns S0 ≡ₚ own pg T M ++ owns S) by (by apply owns_insert).
  assert (Hrep : rep_all s' S0 A).
  { intros q. destruct (decide (q = pg)) as [->|].
    - unfold S0. rewrite lookup_insert_eq, HApg. split; [apply (kept_aspace _ s _ _ _ _ Hk); [clear; set_solver|apply Hsp]|].
      apply (mem_kept _ s _ _ _ _ Hk); [intros p Hp; rewrite elem_of_app; left; by apply upages_own|done|done].
    - unfold S0. rewrite lookup_insert_ne by done.
      pose proof (rep_kept s s' S _ _ (fo_rest _ _ _ _ _ _ _ _ _ _ _ Hf) Hk) as HR. specialize (HR ltac:(clear; set_solver) (rest_pages _ _ _ _ _ _ _ _ _ _ _ Hall Hf) q).
      by rewrite lookup_delete_ne in HR by done. }
  destruct Hr as [(-> & Hfree & l' & ls & H1 & H2 & H3)|(l' & Td & Md & Hfk & Hc & Hker & Hp)].
  - exists 0, s', A, (ls ++ F), (length l'). split_and!; [exact E|constructor; rewrite <- Hl; exact Hfree| |].
    + destruct ls as [|p [|]]; [by left| |cbn in H3; lia]. right. by exists pg, sz, p.
    + split; [done|]. exists l', S0. split_and!; [done| |done|done]. rewrite <- (fo_all _ _ _ _ _ _ _ _ _ _ _ Hf), Ho, <- H2. solve_Permutation.
  - pose proof (fk_child _ _ _ _ _ _ _ _ _ _ Hfk) as Hch.
    assert (Hm' : mem_of s' Md sz ps).
    { apply (copied_mem _ s s' M Md sz ps Hm Hc Hker Hk); [intros p Hp'; rewrite elem_of_app; left; by apply upages_own|].
      intros p [Hp'|Hp']; [by apply Hum|by apply (upages_mod s' l' _ r Td Md p Hch)]. }
    destruct (sys_add all s' A F l' S0 r Td Md sz ps Hall Hrep (sp_free _ _ _ _ _ _ _ Hch) (sp_map _ _ _ _ _ _ _ Hch) Hm') as (Hr & HAr & Hsys).
    { rewrite <- (fo_all _ _ _ _ _ _ _ _ _ _ _ Hf), Ho, <- Hp. solve_Permutation. }
    exists r, s', (<[r := (sz, ps)]> A), F, (length l'). split_and!; [exact E|by constructor|by left|done].
Qed.

(** ** Stores of the user *)

Lemma PDX_of va : PDX va = PDX (4096 * (va / 4096)).
Proof.
  unfold PDX. f_equal. rewrite !Z.shiftr_div_pow2 by lia. change (2 ^ 22) with (4096 * 1024).
  by rewrite <- !Z.div_div, (Z.mul_comm 4096), Z.div_mul by lia.
Qed.

Lemma PTX_of va : PTX va = PTX (4096 * (va / 4096)).
Proof. unfold PTX. f_equal. rewrite !Z.shiftr_div_pow2 by lia. change (2 ^ 12) with 4096. by rewrite (Z.mul_comm 4096), Z.div_mul by lia. Qed.

(** The processor finds what the space maps. *)
Lemma mmu_spec s l F pg T M va : space s l F pg T M -> 0 <= va < 2 ^ 32 ->
  mmu (word s) pg va = match M !! (va / 4096) with Some (pa, f) => Some (pa + va mod 4096, f) | None => None end.
Proof.
  intros Hsp Hva. assert (Hn : 0 <= va / 4096 < 2 ^ 20) by (split; [apply Z.div_pos|apply Z.div_lt_upper_bound]; lia).
  unfold mmu. rewrite PDX_of, PTX_of. pose proof (pde_spec kend s l F pg T M (va / 4096) Hsp Hn) as He. cbv zeta in *.
  destruct (T !! (va / 4096 / 1024)) as [t|] eqn:HT.
  - destruct He as [-> ->]. rewrite PTX_page, (as_tab _ _ _ _ (sp_map _ _ _ _ _ _ _ Hsp) _ _ Hn HT).
    destruct (M !! (va / 4096)) as [[pa f]|] eqn:HM; cbn [pte_of]; [|done].
    destruct (as_ent _ _ _ _ (sp_map _ _ _ _ _ _ _ Hsp) _ _ _ HM) as (Hm & _ & Hf & Ho).
    rewrite has_P, odd_entry, Ho by done. by rewrite PTE_ADDR_eq, PTE_FLAGS_eq by done.
  - rewrite He. destruct (M !! (va / 4096)) as [e|] eqn:HM; [|done].
    destruct (as_has _ _ _ _ (sp_map _ _ _ _ _ _ _ Hsp) _ _ HM) as [_ [t Ht]]. congruence.
Qed.

(** A page of the user is written. *)
Lemma user_write s l F pg T M n pa f w : space s l F pg T M -> M !! n = Some (pa, f) -> 0 <= n < KPAGE ->
  (forall a, ~ in_page (P2V pa) a -> w a = word s a) ->
  space (with_word s w) l F pg T M /\ kept (upages (delete n M) ++ F) s (with_word s w).
Proof.
  intros [Hk Hp Ha] HM Hn Hw.
  assert (Hperm : l ++ own pg T M ++ F ≡ₚ P2V pa :: l ++ pg :: (map_to_list T).*2 ++ upages (delete n M) ++ F).
  { unfold own. rewrite (upages_delete M n pa f HM) by lia. solve_Permutation. }
  assert (Hkept : kept (l ++ pg :: (map_to_list T).*2 ++ upages (delete n M) ++ F) s (with_word s w)).
  { apply (kept_other kend _ (P2V pa)); [by rewrite <- Hperm|done]. }
  split; [|apply (kept_sub _ _ _ _ Hkept); clear; set_solver]. constructor; [|done|].
  - apply (free_kept kend s l _ w Hk Hkept). clear. set_solver.
  - apply (aspace_ext _ _ _ _ _ Ha).
    + intros a. apply Hkept. clear. set_solver.
    + intros i t a Ht. apply Hkept. rewrite elem_of_app, elem_of_cons, !elem_of_app. right; right; left. apply list_elem_of_fmap.
      exists (i, t). split; [done|]. by apply elem_of_map_to_list.
Qed.

Lemma put_page_bytes s p o b : p mod 4096 = 0 -> 0 <= o < 4096 -> is_byte b ->
  page_bytes (with_word s (put_byte (word s) (p + o) b)) p = <[Z.to_nat o := b]> (page_bytes s p).
Proof.
  intros Hp Ho Hb. unfold page_bytes. apply list_eq. intros i. cbn. rewrite list_lookup_fmap. destruct (decide (i < 4096)%nat).
  - rewrite lookup_seqZ_lt by lia. cbn [fmap option_fmap option_map]. rewrite byte_put by done.
    destruct (decide (i = Z.to_nat o)) as [->|].
    + rewrite list_lookup_insert_eq by (rewrite length_fmap, length_seqZ; lia). by destruct (Z.eqb_spec (p + (0 + Z.of_nat (Z.to_nat o))) (p + o)); [|lia].
    + rewrite list_lookup_insert_ne by done. rewrite list_lookup_fmap, lookup_seqZ_lt by lia. cbn [fmap option_fmap option_map].
      by destruct (Z.eqb_spec (p + (0 + Z.of_nat i)) (p + o)); [lia|].
  - rewrite lookup_seqZ_ge by lia. symmetry. apply lookup_ge_None_2. rewrite length_insert, length_fmap, length_seqZ. lia.
Qed.

Lemma store_mem s M sz ps va b pa f l F pg T : mem_of s M sz ps -> space s l F pg T M -> 0 <= va < 2 ^ 32 -> is_byte b ->
  M !! (va / 4096) = Some (pa, f) -> va / 4096 < npages sz ->
  let s' := with_word s (put_byte (word s) (P2V pa + va mod 4096) b) in
  space s' l F pg T M /\ kept F s s' /\ mem_of s' M sz (store_byte ps va b).
Proof.
  intros Hm Hsp Hva Hb HM Hlt s'. pose proof (npages_kernel sz (mo_size _ _ _ _ Hm)) as Hnk.
  assert (Hn : 0 <= va / 4096 < KPAGE) by (split; [apply Z.div_pos; lia|lia]). pose proof (Z.mod_pos_bound va 4096 ltac:(lia)) as Ho.
  assert (Hpu : P2V pa ∈ upages M) by (apply elem_upages; exists (va / 4096), pa, f; split_and!; (done || lia)).
  pose proof (upages_mod _ _ _ _ _ _ _ Hsp Hpu) as Hpm.
  destruct (user_write s l F pg T M (va / 4096) pa f (put_byte (word s) (P2V pa + va mod 4096) b) Hsp HM Hn) as [H1 H2].
  { intros a Hna. apply (puts_page (P2V pa) [b] (word s) (P2V pa + va mod 4096)); [done|lia|unfold zlen, PGSIZE; cbn; lia|done]. }
  split_and!; [exact H1|apply (kept_sub _ _ _ _ H2); clear; set_solver|]. destruct Hm as [G1 G2 G3 G4 G5].
  constructor; [done|unfold store_byte; by rewrite length_alter| |done|done].
  intros j f' bs Hj. unfold store_byte in Hj. destruct (decide (j = Z.to_nat (va / 4096))) as [->|Hne].
  - rewrite list_lookup_alter_eq in Hj. apply fmap_Some in Hj as ([f0 bs0] & Hj & Heq). cbn in Heq. injection Heq as -> ->.
    destruct (G3 _ _ _ Hj) as (pa0 & HM0 & <-). rewrite Z2Nat.id in * by lia. exists pa0. split; [done|].
    rewrite HM in HM0. injection HM0 as <- <-. by apply put_page_bytes.
  - rewrite list_lookup_alter_ne in Hj by done. destruct (G3 _ _ _ Hj) as (pa0 & HM0 & <-). exists pa0. split; [done|].
    apply lookup_lt_Some in Hj. apply (bytes_kept _ _ _ _ H2).
    + rewrite elem_of_app. left. apply elem_upages. exists (Z.of_nat j), pa0, f'. rewrite lookup_delete_ne by lia. split_and!; (done || lia).
    + apply (upages_mod _ _ _ _ _ _ _ Hsp), elem_upages. exists (Z.of_nat j), pa0, f'. split_and!; (done || lia).
Qed.

Lemma sim_store all s A F free pg va b : sys all s A F free -> valid A (VStore pg va b) -> simulated all s A F free (VStore pg va b).
Proof.
  intros Hs (HA & Hva & Hb). destruct (sys_focus all s A F free pg Hs HA) as (l & T & M & sz & ps & S & HApg & Hl & Hf).
  pose proof (fo_mem _ _ _ _ _ _ _ _ _ _ _ Hf) as Hm. pose proof (fo_space _ _ _ _ _ _ _ _ _ _ _ Hf) as Hsp.
  pose proof (mmu_spec s l _ pg T M va Hsp Hva) as Hmmu. assert (0 <= va / 4096) as Hn0 by (apply Z.div_pos; lia).
  assert (Hfault : writable ps va = false -> run (VStore pg va b) s = Ok (-1, s) -> simulated all s A F free (VStore pg va b)).
  { intros Hw E. apply (simulated_same _ _ _ _ _ _ (-1)); [done|by econstructor|done]. }
  cbn in Hfault. unfold user_store in Hfault. rewrite Hmmu in Hfault.
  pose proof (npages_kernel sz (mo_size _ _ _ _ Hm)) as Hnk. pose proof (mo_len _ _ _ _ Hm) as Hlen.
  destruct (ps !! Z.to_nat (va / 4096)) as [[f bs]|] eqn:Hps.
  - destruct (mo_page _ _ _ _ Hm _ _ _ Hps) as (pa & HM & Hbs). rewrite Z2Nat.id in HM by lia. rewrite HM in *.
    assert (Hw : writable ps va = has f PTE_W && has f PTE_U) by (unfold writable; by rewrite Hps).
    destruct (has f PTE_W && has f PTE_U) eqn:Hf2; [|by apply Hfault]. apply lookup_lt_Some in Hps as Hlt.
    destruct (store_mem s M sz ps va b pa f l _ pg T Hm Hsp Hva Hb HM) as (H1 & H2 & H3); [lia|]. cbv zeta in H1, H2, H3.
    eexists 0, _, (<[pg := (sz, store_byte ps va b)]> A), F, (length l). split_and!; [|by constructor|by left|].
    + cbn. unfold user_store. rewrite Hmmu, Hf2. reflexivity.
    + replace (P2V (pa + va mod 4096)) with (P2V pa + va mod 4096).
      { by apply (sys_unfocus all s _ A F l l pg T M sz ps S T M); [apply Hs|..]. }
      assert (Hp : is_page kend (P2V pa)) by (apply (space_user kend s l _ pg T M (va / 4096) pa f Hsp HM); lia).
      apply (page_range kend) in Hp as (Hp1 & Hp2 & _). pose proof (Z.mod_pos_bound va 4096 ltac:(lia)).
      unfold P2V in *. replace (pa + va mod 4096 + KERNBASE) with (pa + KERNBASE + va mod 4096) by lia.
      rewrite <- (u32_add_l (pa + KERNBASE)). symmetry. apply u32_small. unfold KERNBASE, PHYSTOP in *. lia.
  - assert (Hw : writable ps va = false) by (unfold writable; by rewrite Hps). apply lookup_ge_None in Hps.
    destruct (M !! (va / 4096)) as [[pa f]|] eqn:HM; [|by apply Hfault].
    assert (Hu : has f PTE_U = false).
    { destruct (Z.lt_ge_cases (va / 4096) KPAGE) as [Hlt|Hge].
      - assert (va / 4096 < npages sz); [|lia]. apply (mo_cov _ _ _ _ Hm); [lia|by rewrite HM].
      - rewrite (mo_kernel _ _ _ _ Hm _ Hge) in HM. apply (kmaps_flags data Hdata _ _ HM). }
    rewrite Hu, andb_false_r in Hfault. by apply Hfault.
Qed.
End system.

(** C1. Virtual memory.  Whatever the kernel does with address spaces - creating,
    growing, shrinking, copying and freeing them, mapping code - and whatever
    user programs store, the call returns without a fault and the processes
    change as specified: the process operated on has the pages it asked for, with
    zeros, with the code, or with copies of the bytes of its parent, or the same
    pages as before when memory is short; a store succeeds exactly on a page that is
    writable for the user and changes that byte alone; no other process changes; and
    every page of the machine is still free, part of one address space, or used
    elsewhere, save that a failing copy can lose one page. *)
Theorem processes_isolated kend me ebp data all s A F free o : KERNBASE < kend -> data_ok data ->
  sys kend data all s A F free -> valid A o -> simulated kend me ebp data all s A F free o.
Proof.
  intros Hk Hd Hs Hv. destruct o; [by apply sim_new|by apply sim_grow|by apply sim_code|by apply sim_shrink|by apply sim_fork|by apply sim_free|by apply sim_store].
Qed.

(** A machine with [S k] free pages, linked in order. *)
Definition demo_vm (k : nat) : kst :=
  {| km := {| klock := initlock; use_lock := true; freelist := 0x80400000 |};
     kcpu := {| ncli := 0; intena := false; fl_if := true |};
     word := fun a => if a =? 0x80400000 + 4096 * Z.of_nat k then 0 else a + 4096 |}.

Lemma chain_from k p e : e = p + 4096 * Z.of_nat k -> chain (fun a => if a =? e then 0 else a + 4096) p (pages_from (S k) p).
Proof.
  revert p. induction k as [|k IH]; intros p He.
  - cbn [pages_from chain]. split; [done|]. destruct (Z.eqb_spec p e); [done|lia].
  - change (pages_from (S (S k)) p) with (p :: pages_from (S k) (p + PGSIZE)). cbn [chain]. split; [done|].
    destruct (Z.eqb_spec p e); [lia|]. apply IH. unfold PGSIZE. lia.
Qed.

Lemma pages_from_ok kend k p : KERNBASE <= p -> kend <= p -> p mod 4096 = 0 -> p + 4096 * Z.of_nat k <= KERNBASE + PHYSTOP -> all_pages kend (pages_from k p).
Proof.
  revert p. induction k as [|k IH]; intros p H1 H2 H3 H4; cbn [pages_from]; [split; constructor|].
  destruct (IH (p + PGSIZE)) as [Hn HF]; try (unfold PGSIZE; lia).
  { unfold PGSIZE. rewrite Z.add_mod, H3 by lia. done. }
  split; constructor; try done.
  - intros Hp. apply elem_of_pages in Hp. unfold PGSIZE in Hp. lia.
  - unfold KERNBASE, PHYSTOP in *. split_and!; [lia|lia|done|done|]. unfold V2P, KERNBASE, PHYSTOP. rewrite u32_small; lia.
Qed.

Lemma grow_result A free pg oldsz newsz r A' : effect A free (VGrow pg oldsz newsz) r A' -> r = newsz \/ r = oldsz \/ r = 0.
Proof. inversion 1; auto. Qed.

Lemma pages_from_length k p : length (pages_from k p) = k.
Proof. revert p. induction k as [|k IH]; intros p; cbn; [done|]. by rewrite IH. Qed.

Lemma demo_sys k : Z.of_nat k < 4000 ->
  sys 0x80400000 0x80108000 (pages_from (S k) 0x80400000) (demo_vm k) ∅ [] (S k).
Proof.
  intros Hk. assert (Hp : all_pages 0x80400000 (pages_from (S k) 0x80400000)).
  { apply pages_from_ok; [done|done|done|unfold KERNBASE, PHYSTOP; lia]. }
  split; [exact Hp|]. exists (pages_from (S k) 0x80400000), ∅. split_and!.
  - constructor; [apply chain_from; reflexivity|apply Hp|apply Hp|reflexivity|split; vm_compute; congruence].
  - change (owns ∅) with (@nil Z). rewrite !app_nil_r. reflexivity.
  - intros pg. by rewrite !lookup_empty.
  - apply pages_from_length.
Qed.

(** A process is created on it, and grows. *)
Lemma processes_isolated_witness :
  exists k r s', run 0x80400000 0 0 0x80108000 VNew (demo_vm k) = Ok (r, s') /\ r <> 0 /\
    exists x s'', run 0x80400000 0 0 0x80108000 (VGrow r 0 4096) s' = Ok (x, s'') /\ (x = 4096 \/ x = 0).
Proof.
  assert (Hk : KERNBASE < 0x80400000) by (vm_compute; congruence).
  assert (Hd : data_ok 0x80108000) by (vm_compute; repeat split; congruence).
  remember (Z.to_nat 3000) as k eqn:Ek. assert (Hk1 : Z.of_nat k < 4000 /\ (1025 < S k)%nat) by lia. clear Ek. destruct Hk1 as [Hk1 Hk2].
  destruct (processes_isolated 0x80400000 0 0 0x80108000 (pages_from (S k) 0x80400000) (demo_vm k) ∅ [] (S k) VNew Hk Hd (demo_sys k Hk1) I)
    as (r & s' & A' & F' & free' & E & He & _ & Hs).
  inversion He as [r' Hr HA Heq|Hfull| | | | | | | | | | | | |]; subst; [|lia].
  exists k, r, s'. split; [exact E|]. split; [exact Hr|].
  destruct (processes_isolated 0x80400000 0 0 0x80108000 (pages_from (S k) 0x80400000) s' (<[r := (0, [])]> ∅) F' free' (VGrow r 0 4096) Hk Hd Hs)
    as (x & s'' & A'' & F'' & free'' & E' & He' & _).
  - split; [rewrite lookup_insert_eq; eexists; reflexivity|]. split; [|lia]. intros p Hp. rewrite lookup_insert_eq in Hp. injection Hp as <-. reflexivity.
  - exists x, s''. split; [exact E'|]. destruct (grow_result _ _ _ _ _ _ _ He') as [H|[H|H]]; [left; exact H|right; exact H|right; exact H].
Defined.
