(* ===== verification/Proc.v ===== *)
(** * The process table: [proc.c] and [struct proc] of [proc.h]

    The table of processes with the operations that take [ptable.lock], and the
    processors that run them.  A pointer to a process is its index in the table.
    [p->context] is the place where the kernel thread of the process called
    [swtch] (or [forkret] for a process that has not run yet) and the local
    variable [intena] of [sched]; [forking] is the local variable [np] of a call
    of [fork] in progress, with how far the call has come.  What [fork], [exit]
    and [wait] do outside the table (memory, files, directories) is in [Sysproc]. *)

From Stdlib Require Import ZArith Lia String.
From stdpp Require Import base list.
From S2P Require Import Prelude Spinlock.

Open Scope Z_scope.

Definition NPROC : nat := 64.
Definition NOFILE : nat := 16.

Inductive procstate := UNUSED | EMBRYO | SLEEPING | RUNNABLE | RUNNING | ZOMBIE.

#[export] Instance procstate_eq : EqDecision procstate.
Proof. solve_decision. Defined.

(** What a process sleeps on: nothing, a process of the table, or another
    address of the kernel. *)
Inductive channel := NoChan | ProcChan (i : nat) | Chan (a : Z).

#[export] Instance channel_eq : EqDecision channel.
Proof. solve_decision. Defined.

(** Where the kernel thread of a process continues. *)
Inductive point := Forkret | AtYield | AtSleep | AtWait | AtExit.

#[export] Instance point_eq : EqDecision point.
Proof. solve_decision. Defined.

Record ctx := { at_ : point; sintena : bool }.

(** A [fork] in progress: no child yet, its slot taken, its stack allocated,
    its fields filled in. *)
Inductive forkpc := NoFork | Slot (np : nat) | Stack (np : nat) | Filled (np : nat).

Record proc := {
  psz : Z;
  pgdir : Z;
  kstack : Z;
  pstate : procstate;
  pid : Z;
  parent : option nat;
  tf : list Z;
  context : ctx;
  chan : channel;
  killed : bool;
  ofile : list (option nat);
  cwd : option Z;
  pname : list Z;
  forking : forkpc
}.

Definition set_state (x : procstate) (p : proc) : proc :=
  {| psz := psz p; pgdir := pgdir p; kstack := kstack p; pstate := x; pid := pid p;
     parent := parent p; tf := tf p; context := context p; chan := chan p; killed := killed p;
     ofile := ofile p; cwd := cwd p; pname := pname p; forking := forking p |}.

Definition set_pid (x : Z) (p : proc) : proc :=
  {| psz := psz p; pgdir := pgdir p; kstack := kstack p; pstate := pstate p; pid := x;
     parent := parent p; tf := tf p; context := context p; chan := chan p; killed := killed p;
     ofile := ofile p; cwd := cwd p; pname := pname p; forking := forking p |}.

Definition set_parent (x : option nat) (p : proc) : proc :=
  {| psz := psz p; pgdir := pgdir p; kstack := kstack p; pstate := pstate p; pid := pid p;
     parent := x; tf := tf p; context := context p; chan := chan p; killed := killed p;
     ofile := ofile p; cwd := cwd p; pname := pname p; forking := forking p |}.

Definition set_context (x : ctx) (p : proc) : proc :=
  {| psz := psz p; pgdir := pgdir p; kstack := kstack p; pstate := pstate p; pid := pid p;
     parent := parent p; tf := tf p; context := x; chan := chan p; killed := killed p;
     ofile := ofile p; cwd := cwd p; pname := pname p; forking := forking p |}.

Definition set_chan (x : channel) (p : proc) : proc :=
  {| psz := psz p; pgdir := pgdir p; kstack := kstack p; pstate := pstate p; pid := pid p;
     parent := parent p; tf := tf p; context := context p; chan := x; killed := killed p;
     ofile := ofile p; cwd := cwd p; pname := pname p; forking := forking p |}.

Definition set_killed (x : bool) (p : proc) : proc :=
  {| psz := psz p; pgdir := pgdir p; kstack := kstack p; pstate := pstate p; pid := pid p;
     parent := parent p; tf := tf p; context := context p; chan := chan p; killed := x;
     ofile := ofile p; cwd := cwd p; pname := pname p; forking := forking p |}.

Definition set_kstack (x : Z) (p : proc) : proc :=
  {| psz := psz p; pgdir := pgdir p; kstack := x; pstate := pstate p; pid := pid p;
     parent := parent p; tf := tf p; context := context p; chan := chan p; killed := killed p;
     ofile := ofile p; cwd := cwd p; pname := pname p; forking := forking p |}.

Definition set_space (dir sz : Z) (p : proc) : proc :=
  {| psz := sz; pgdir := dir; kstack := kstack p; pstate := pstate p; pid := pid p;
     parent := parent p; tf := tf p; context := context p; chan := chan p; killed := killed p;
     ofile := ofile p; cwd := cwd p; pname := pname p; forking := forking p |}.

Definition set_tf (x : list Z) (p : proc) : proc :=
  {| psz := psz p; pgdir := pgdir p; kstack := kstack p; pstate := pstate p; pid := pid p;
     parent := parent p; tf := x; context := context p; chan := chan p; killed := killed p;
     ofile := ofile p; cwd := cwd p; pname := pname p; forking := forking p |}.

Definition set_files (fs : list (option nat)) (d : option Z) (p : proc) : proc :=
  {| psz := psz p; pgdir := pgdir p; kstack := kstack p; pstate := pstate p; pid := pid p;
     parent := parent p; tf := tf p; context := context p; chan := chan p; killed := killed p;
     ofile := fs; cwd := d; pname := pname p; forking := forking p |}.

Definition set_name (x : list Z) (p : proc) : proc :=
  {| psz := psz p; pgdir := pgdir p; kstack := kstack p; pstate := pstate p; pid := pid p;
     parent := parent p; tf := tf p; context := context p; chan := chan p; killed := killed p;
     ofile := ofile p; cwd := cwd p; pname := x; forking := forking p |}.

Definition set_forking (x : forkpc) (p : proc) : proc :=
  {| psz := psz p; pgdir := pgdir p; kstack := kstack p; pstate := pstate p; pid := pid p;
     parent := parent p; tf := tf p; context := context p; chan := chan p; killed := killed p;
     ofile := ofile p; cwd := cwd p; pname := pname p; forking := x |}.

(** The word of a trap frame that holds [%eax], and its size in words. *)
Definition EAX : nat := 7.
Definition TFWORDS : nat := 19.

(** A slot of [ptable] before it is used. *)
Definition proc0 : proc :=
  {| psz := 0; pgdir := 0; kstack := 0; pstate := UNUSED; pid := 0; parent := None;
     tf := replicate TFWORDS 0; context := {| at_ := Forkret; sintena := false |}; chan := NoChan;
     killed := false; ofile := replicate NOFILE None; cwd := None; pname := replicate 16 0;
     forking := NoFork |}.

(** ** Operations on the array [ptable.proc] *)

Definition in_state (x : procstate) (p : proc) : bool := bool_decide (pstate p = x).

(** The loop of [wakeup1]. *)
Definition wake (c : channel) (p : proc) : proc :=
  if in_state SLEEPING p && bool_decide (chan p = c) then set_state RUNNABLE p else p.

Definition wakeup1 (c : channel) (ps : list proc) : list proc := map (wake c) ps.

(** The first slot for which [f] holds. *)
Fixpoint first (f : proc -> bool) (i : nat) (ps : list proc) : option nat :=
  match ps with
  | [] => None
  | p :: ps => if f p then Some i else first f (S i) ps
  end.

(** The part of [allocproc] that holds the lock.  [nextpid] is an [int]. *)
Definition allocslot (ps : list proc) (nextpid : Z) : option (nat * list proc * Z) :=
  match first (in_state UNUSED) 0 ps with
  | None => None
  | Some i => Some (i, alter (fun p => set_pid nextpid (set_state EMBRYO p)) i ps, nextpid + 1)
  end.

(** The rest of it; [ks] is what [kalloc] returned.  The context is set up to
    return to [forkret]. *)
Definition allocstack (ks : Z) (i : nat) (ps : list proc) : bool * list proc :=
  if ks =? 0 then (false, alter (fun p => set_state UNUSED (set_kstack ks p)) i ps)
  else (true, alter (fun p => set_context {| at_ := Forkret; sintena := false |} (set_kstack ks p)) i ps).

(** [kill] *)
Definition kill (n : Z) (ps : list proc) : Z * list proc :=
  match first (fun p => pid p =? n) 0 ps with
  | None => (-1, ps)
  | Some i =>
      (0, alter (fun p => let p := set_killed true p in
                          if in_state SLEEPING p then set_state RUNNABLE p else p) i ps)
  end.

(** A pointer to a process as a channel. *)
Definition proc_chan (p : option nat) : channel :=
  match p with Some i => ProcChan i | None => NoChan end.

(** The loop of [exit] over the table, from entry [i] with [n] entries to go. *)
Fixpoint abandon (me init : option nat) (n i : nat) (ps : list proc) : list proc :=
  match n with
  | O => ps
  | S n =>
      let ps :=
        match ps !! i with
        | Some p =>
            if bool_decide (parent p = me) then
              let ps := <[i := set_parent init p]> ps in
              if in_state ZOMBIE p then wakeup1 (proc_chan init) ps else ps
            else ps
        | None => ps
        end in
      abandon me init n (S i) ps
  end.

(** The part of [exit] that holds the lock, up to [sched]. *)
Definition exit_table (me : nat) (init : option nat) (ps : list proc) : list proc :=
  let ps := match ps !! me with Some p => wakeup1 (proc_chan (parent p)) ps | None => ps end in
  let ps := abandon (Some me) init (length ps) 0 ps in
  alter (set_state ZOMBIE) me ps.

(** The scan of [wait]: a zombie child, or whether there are children. *)
Inductive found := Reap (i : nat) | Kids (b : bool).

Fixpoint wait_scan (me : nat) (havekids : bool) (i : nat) (ps : list proc) : found :=
  match ps with
  | [] => Kids havekids
  | p :: ps =>
      if negb (bool_decide (parent p = Some me)) then wait_scan me havekids (S i) ps
      else if in_state ZOMBIE p then Reap i
      else wait_scan me true (S i) ps
  end.

(** What [wait] does to the slot of a zombie; its stack and its memory are
    freed by the caller. *)
Definition reaped (p : proc) : proc :=
  set_state UNUSED (set_killed false (set_name (<[0%nat := 0]> (pname p))
    (set_parent None (set_pid 0 (set_kstack 0 p))))).

(** ** Processors *)

(** What a CPU runs: [scheduler] without the lock, [scheduler] at entry [i] of
    its loop with the lock held, or the kernel thread or user code of [proc]. *)
Inductive control := Poll | Scan (i : nat) | Run.

Record cpust := { ccpu : cpu; cproc : option nat; ctl : control }.

Record ptab := {
  procs : list proc;
  nextpid : Z;
  initproc : option nat;
  plock : spinlock;
  cpus : list cpust
}.

Definition with_procs (f : list proc -> list proc) (t : ptab) : ptab :=
  {| procs := f (procs t); nextpid := nextpid t; initproc := initproc t; plock := plock t; cpus := cpus t |}.

Definition with_cpu (c : nat) (k : cpust) (t : ptab) : ptab :=
  {| procs := procs t; nextpid := nextpid t; initproc := initproc t; plock := plock t;
     cpus := <[c := k]> (cpus t) |}.

Definition with_lock (l : spinlock) (t : ptab) : ptab :=
  {| procs := procs t; nextpid := nextpid t; initproc := initproc t; plock := l; cpus := cpus t |}.

Definition with_nextpid (n : Z) (t : ptab) : ptab :=
  {| procs := procs t; nextpid := n; initproc := initproc t; plock := plock t; cpus := cpus t |}.

(** Entry [i] of an array; beyond its end it is memory of something else. *)
Definition nth_res {A} (l : list A) (i : nat) : res A :=
  match l !! i with Some x => Ok x | None => Fault OutOfBounds end.

Section processors.
Context (word : Z -> Z) (ebp : Z).

(** [acquire(&ptable.lock)] and [release(&ptable.lock)] on CPU [c]. *)
Definition lock (c : nat) (t : ptab) : res ptab :=
  k ← nth_res (cpus t) c;
  r ← acquire word ebp (Z.of_nat c) (ccpu k) (plock t);
  Ok (with_lock r.2 (with_cpu c {| ccpu := r.1; cproc := cproc k; ctl := ctl k |} t)).

Definition unlock (c : nat) (t : ptab) : res ptab :=
  k ← nth_res (cpus t) c;
  r ← release (Z.of_nat c) (ccpu k) (plock t);
  Ok (with_lock r.2 (with_cpu c {| ccpu := r.1; cproc := cproc k; ctl := ctl k |} t)).

(** [sched], called at [pt]: its guards, and the switch to [scheduler], which
    clears [c->proc] and goes on with its loop. *)
Definition sched (c i : nat) (pt : point) (t : ptab) : res ptab :=
  k ← nth_res (cpus t) c;
  p ← nth_res (procs t) i;
  if negb (holding (plock t) (Z.of_nat c)) then Fault (Panic "sched ptable.lock")
  else if negb (ncli (ccpu k) =? 1) then Fault (Panic "sched locks")
  else if in_state RUNNING p then Fault (Panic "sched running")
  else if fl_if (ccpu k) then Fault (Panic "sched interruptible")
  else Ok (with_cpu c {| ccpu := ccpu k; cproc := None; ctl := Scan (S i) |}
             (with_procs (alter (set_context {| at_ := pt; sintena := intena (ccpu k) |}) i) t)).

(** [mycpu()->intena = intena], after the switch back. *)
Definition back_in_sched (c : nat) (x : ctx) (t : ptab) : res ptab :=
  k ← nth_res (cpus t) c;
  Ok (with_cpu c {| ccpu := {| ncli := ncli (ccpu k); intena := sintena x; fl_if := fl_if (ccpu k) |};
                    cproc := cproc k; ctl := ctl k |} t).

(** [yield] up to the switch. *)
Definition yield (c i : nat) (t : ptab) : res ptab :=
  t ← lock c t;
  sched c i AtYield (with_procs (alter (set_state RUNNABLE) i) t).

(** [sleep(chan, lk)] up to the switch, for another lock than [ptable.lock],
    which is in state [lk]. *)
Definition sleep (c i : nat) (ch : channel) (lk : spinlock) (t : ptab) : res (ptab * spinlock) :=
  t ← lock c t;
  k ← nth_res (cpus t) c;
  r ← release (Z.of_nat c) (ccpu k) lk;
  let t := with_cpu c {| ccpu := r.1; cproc := cproc k; ctl := ctl k |} t in
  t ← sched c i AtSleep (with_procs (alter (fun p => set_state SLEEPING (set_chan ch p)) i) t);
  Ok (t, r.2).

Definition wakeup (c : nat) (ch : channel) (t : ptab) : res ptab :=
  t ← lock c t;
  unlock c (with_procs (wakeup1 ch) t).

Definition sys_kill (c : nat) (n : Z) (t : ptab) : res (Z * ptab) :=
  t ← lock c t;
  let r := kill n (procs t) in
  t ← unlock c (with_procs (fun _ => r.2) t);
  Ok (r.1, t).

(** One round of the loop of [wait] with the lock held: the pid of the child
    it reaped, -1, or nothing when the process went to sleep. *)
Definition wait_round (c i : nat) (t : ptab) : res (option Z * ptab) :=
  match wait_scan i false 0 (procs t) with
  | Reap j =>
      q ← nth_res (procs t) j;
      t ← unlock c (with_procs (alter reaped j) t);
      Ok (Some (pid q), t)
  | Kids b =>
      p ← nth_res (procs t) i;
      if negb b || killed p then
        t ← unlock c t;
        Ok (Some (-1), t)
      else
        t ← sched c i AtWait
              (with_procs (alter (fun p => set_state SLEEPING (set_chan (ProcChan i) p)) i) t);
        Ok (None, t)
  end.

Definition wait (c i : nat) (t : ptab) : res (option Z * ptab) :=
  t ← lock c t;
  wait_round c i t.

(** [exit] from the point where it takes the lock. *)
Definition exit (c i : nat) (t : ptab) : res ptab :=
  if bool_decide (Some i = initproc t) then Fault (Panic "init exiting")
  else
    t ← lock c t;
    sched c i AtExit (with_procs (exit_table i (initproc t)) t).

(** The guards of [switchuvm]. *)
Definition switchuvm (p : proc) : res unit :=
  if kstack p =? 0 then Fault (Panic "switchuvm: no kstack")
  else if pgdir p =? 0 then Fault (Panic "switchuvm: no pgdir")
  else Ok tt.

(** The process continues after the switch to it: the end of [forkret], [yield]
    or [sleep], or the next round of [wait]. *)
Definition resume (c i : nat) (t : ptab) : res ptab :=
  p ← nth_res (procs t) i;
  match at_ (context p) with
  | Forkret => unlock c t
  | AtYield =>
      t ← back_in_sched c (context p) t;
      unlock c t
  | AtSleep =>
      t ← back_in_sched c (context p) t;
      unlock c (with_procs (alter (set_chan NoChan) i) t)
  | AtWait =>
      t ← back_in_sched c (context p) t;
      r ← wait_round c i (with_procs (alter (set_chan NoChan) i) t);
      Ok r.2
  | AtExit => Fault (Panic "zombie exit")
  end.

(** [sti] *)
Definition sti (k : cpu) : cpu := {| ncli := ncli k; intena := intena k; fl_if := true |}.

Definition set_ctl (c : nat) (x : control) (t : ptab) : res ptab :=
  k ← nth_res (cpus t) c;
  Ok (with_cpu c {| ccpu := ccpu k; cproc := cproc k; ctl := x |} t).

(** [scheduler]: the start of a round, one entry of the table, or the end of
    the round. *)
Definition scheduler (c : nat) (t : ptab) : res ptab :=
  k ← nth_res (cpus t) c;
  match ctl k with
  | Poll =>
      t ← lock c (with_cpu c {| ccpu := sti (ccpu k); cproc := cproc k; ctl := Poll |} t);
      set_ctl c (Scan 0) t
  | Scan i =>
      match procs t !! i with
      | None =>
          t ← unlock c t;
          set_ctl c Poll t
      | Some p =>
          if negb (in_state RUNNABLE p) then set_ctl c (Scan (S i)) t
          else
            _ ← switchuvm p;
            resume c i (with_cpu c {| ccpu := ccpu k; cproc := Some i; ctl := Run |}
                          (with_procs (alter (set_state RUNNING) i) t))
      end
  | Run => Fault OutOfBounds
  end.

(** The steps of [fork]: [allocproc] takes a slot, stores the stack that
    [kalloc] returned ([ks], 0 when there is no memory), [fork] stores the
    directory that [copyuvm] returned ([dir], or 0) and the parent, and makes the
    child runnable. *)
Definition fork_slot (c i : nat) (t : ptab) : res ptab :=
  t ← lock c t;
  match allocslot (procs t) (nextpid t) with
  | None => unlock c t
  | Some (np, ps, n) =>
      unlock c (with_nextpid n (with_procs (fun _ => alter (set_forking (Slot np)) i ps) t))
  end.

Definition fork_stack (i np : nat) (ks : Z) (t : ptab) : ptab :=
  let '(ok, ps) := allocstack ks np (procs t) in
  with_procs (fun _ => alter (set_forking (if ok then Stack np else NoFork)) i ps) t.

Definition fork_fill (i np : nat) (dir : Z) (t : ptab) : ptab :=
  if dir =? 0 then
    with_procs (fun ps => alter (set_forking NoFork) i
      (alter (fun p => set_state UNUSED (set_kstack 0 (set_space dir (psz p) p))) np ps)) t
  else
    match procs t !! i with
    | Some me =>
        with_procs (fun ps => alter (set_forking (Filled np)) i
          (alter (fun p => set_tf (<[EAX := 0]> (tf me)) (set_parent (Some i) (set_space dir (psz me) p))) np ps)) t
    | None => t
    end.

Definition fork_run (c i np : nat) (t : ptab) : res ptab :=
  t ← lock c t;
  unlock c (with_procs (fun ps => alter (set_forking NoFork) i (alter (set_state RUNNABLE) np ps)) t).

(** What [userinit] does to the table on CPU [c]; it stops when there is no
    memory for the first process. *)
Definition userinit (c : nat) (ks dir sz : Z) (t : ptab) : res ptab :=
  t ← lock c t;
  match allocslot (procs t) (nextpid t) with
  | None => Fault OutOfBounds
  | Some (i, ps, n) =>
      t ← unlock c (with_nextpid n (with_procs (fun _ => ps) t));
      let '(ok, ps) := allocstack ks i (procs t) in
      if negb ok then Fault OutOfBounds
      else if dir =? 0 then Fault (Panic "userinit: out of memory?")
      else
        t ← lock c {| procs := alter (set_space dir sz) i ps; nextpid := nextpid t; initproc := Some i;
                      plock := plock t; cpus := cpus t |};
        unlock c (with_procs (alter (set_state RUNNABLE) i) t)
  end.
End processors.

(** The table and [n] processors at boot, before [userinit]. *)
Definition boot (n : nat) : ptab :=
  {| procs := replicate NPROC proc0; nextpid := 1; initproc := None;
     plock := initlock;
     cpus := replicate n {| ccpu := {| ncli := 0; intena := false; fl_if := false |}; cproc := None; ctl := Poll |} |}.
