(* ===== verification/ProcInv.v ===== *)
(** * Invariants of the process table

    What holds of the array [ptable.proc] between the critical sections of
    [proc.c], and that every operation on the array keeps it. *)

From Stdlib Require Import ZArith Lia String.
From stdpp Require Import base list.
From S2P Require Import Prelude Spinlock Proc.

Open Scope Z_scope.

(** Slot [i]; beyond the table, an unused one. *)
Definition look (ps : list proc) (i : nat) : proc := default proc0 (ps !! i).

Definition st (ps : list proc) (i : nat) : procstate := pstate (look ps i).

(** A slot whose process has been set up, and one that has not exited. *)
Definition settled (x : procstate) : bool := bool_decide (x <> UNUSED /\ x <> EMBRYO).
Definition live (x : procstate) : bool := bool_decide (x = SLEEPING \/ x = RUNNABLE \/ x = RUNNING).

(** The child that a fork in progress works on. *)
Definition child_of (f : forkpc) : option nat :=
  match f with NoFork => None | Slot i | Stack i | Filled i => Some i end.

(** How far [p], the child of the fork [f] of process [j], has come. *)
Definition fork_ok (f : forkpc) (j : nat) (p : proc) : Prop :=
  match f with
  | NoFork => True
  | Slot _ => kstack p = 0 /\ parent p = None
  | Stack _ => kstack p <> 0 /\ parent p = None /\ at_ (context p) = Forkret
  | Filled _ => kstack p <> 0 /\ pgdir p <> 0 /\ parent p = Some j /\ at_ (context p) = Forkret
  end.

Record tinv (init : nat) (n : Z) (ps : list proc) : Prop := {
  t_len : length ps = NPROC;
  (* identifiers are fresh and distinct *)
  t_pid i : st ps i <> UNUSED -> 0 < pid (look ps i) < n;
  t_inj i j : st ps i <> UNUSED -> st ps j <> UNUSED -> pid (look ps i) = pid (look ps j) -> i = j;
  (* a process that can run has a stack and a memory; an unused slot owns nothing *)
  t_mem i : settled (st ps i) = true -> kstack (look ps i) <> 0 /\ pgdir (look ps i) <> 0;
  t_unused i : st ps i = UNUSED -> kstack (look ps i) = 0 /\ parent (look ps i) = None;
  (* every process but the first has a parent that has not exited *)
  t_parent i : settled (st ps i) = true -> i <> init ->
    exists j, parent (look ps i) = Some j /\ live (st ps j) = true /\ j <> i;
  t_init : live (st ps init) = true /\ parent (look ps init) = None;
  (* a slot being set up belongs to exactly one fork in progress *)
  t_embryo i : st ps i = EMBRYO -> exists j, child_of (forking (look ps j)) = Some i;
  t_fork j i : child_of (forking (look ps j)) = Some i ->
    (st ps j = RUNNING \/ st ps j = RUNNABLE /\ at_ (context (look ps j)) = AtYield) /\
    st ps i = EMBRYO /\ fork_ok (forking (look ps j)) j (look ps i);
  t_own j j' i : child_of (forking (look ps j)) = Some i -> child_of (forking (look ps j')) = Some i -> j = j';
  (* a process asleep in [wait] has a child, and none that it could reap *)
  t_wait i : st ps i = SLEEPING -> at_ (context (look ps i)) = AtWait ->
    chan (look ps i) = ProcChan i /\ (exists k, parent (look ps k) = Some i) /\
    (forall k, parent (look ps k) = Some i -> st ps k <> ZOMBIE);
  t_sleep i : st ps i = SLEEPING -> at_ (context (look ps i)) <> AtWait ->
    at_ (context (look ps i)) = AtSleep /\ (forall j, chan (look ps i) <> ProcChan j);
  t_runnable i : st ps i = RUNNABLE -> at_ (context (look ps i)) <> AtExit
}.

(** ** Reading an updated table *)

Lemma look_alter f i ps k :
  (i < length ps)%nat -> look (alter f i ps) k = if decide (i = k) then f (look ps k) else look ps k.
Proof.
  intros Hi. unfold look. case_decide as E.
  - subst k. rewrite list_lookup_alter_eq. destruct (ps !! i) eqn:E; [done|].
    apply lookup_ge_None in E. lia.
  - rewrite list_lookup_alter_ne by done. done.
Qed.

Lemma alter_twice (f g : proc -> proc) (i : nat) (ps : list proc) : alter f i (alter g i ps) = alter (fun p => f (g p)) i ps.
Proof. revert i. induction ps as [|p ps IH]; intros [|i]; cbn; [done..|]. f_equal. apply IH. Qed.

Lemma alter_out (f : proc -> proc) (i : nat) (ps : list proc) : (length ps <= i)%nat -> alter f i ps = ps.
Proof.
  revert i. induction ps as [|p ps IH]; intros [|i] Hi; cbn in *; [done..|lia|].
  f_equal. apply IH. lia.
Qed.

Lemma look_map f ps k : f proc0 = proc0 -> look (map f ps) k = f (look ps k).
Proof.
  intros H0. unfold look. replace (map f ps !! k) with (f <$> ps !! k) by (symmetry; apply list_lookup_fmap).
  destruct (ps !! k); [done|]. cbn. done.
Qed.

Lemma look_in ps k : st ps k <> UNUSED -> (k < length ps)%nat /\ ps !! k = Some (look ps k).
Proof.
  unfold st, look. intros H. destruct (ps !! k) eqn:E; [|done].
  split; [by eapply lookup_lt_Some|done].
Qed.

Lemma look_some ps k p : ps !! k = Some p -> look ps k = p.
Proof. unfold look. by intros ->. Qed.

(** The slot that a search finds. *)
Lemma first_spec f i ps q :
  first f i ps = Some q -> (i <= q)%nat /\ exists p, ps !! (q - i)%nat = Some p /\ f p = true.
Proof.
  revert i. induction ps as [|p ps IH]; intros i; cbn; [done|]. destruct (f p) eqn:E.
  - intros [= <-]. split; [done|]. exists p. by rewrite Nat.sub_diag.
  - intros Hq. destruct (IH _ Hq) as (Hle & p' & Hp & Hf). split; [lia|]. exists p'. split; [|done].
    replace (q - i)%nat with (S (q - S i)) by lia. done.
Qed.

(** Whether [p'] is [p], possibly woken up or killed. *)
Record woken (p p' : proc) : Prop := {
  w_state : pstate p' = pstate p \/ pstate p = SLEEPING /\ pstate p' = RUNNABLE;
  w_pid : pid p' = pid p;
  w_parent : parent p' = parent p;
  w_kstack : kstack p' = kstack p;
  w_pgdir : pgdir p' = pgdir p;
  w_context : context p' = context p;
  w_chan : chan p' = chan p;
  w_forking : forking p' = forking p
}.

Lemma woken_refl p : woken p p.
Proof. split; auto. Qed.

Lemma woken_trans p q r : woken p q -> woken q r -> woken p r.
Proof. intros [] []. split; try congruence. intuition congruence. Qed.

Lemma woken_wake c p : woken p (wake c p).
Proof.
  unfold wake, in_state. case_bool_decide; cbn [andb]; [|apply woken_refl].
  case_bool_decide; [|apply woken_refl]. split; cbn; auto.
Qed.

Lemma wake_awake c p : chan p = c -> pstate (wake c p) <> SLEEPING.
Proof.
  intros Hc. unfold wake, in_state. case_bool_decide; cbn [andb]; [|done].
  rewrite bool_decide_true by done. done.
Qed.

Lemma look_wakeup1 c ps k : look (wakeup1 c ps) k = wake c (look ps k).
Proof. apply look_map. unfold wake. done. Qed.

Lemma woken_live p p' : woken p p' -> live (pstate p') = live (pstate p).
Proof. intros [[E|[E E']] _ _ _ _ _ _ _]; [by rewrite E|]. rewrite E, E'. done. Qed.

Lemma woken_settled p p' : woken p p' -> settled (pstate p') = settled (pstate p).
Proof. intros [[E|[E E']] _ _ _ _ _ _ _]; [by rewrite E|]. rewrite E, E'. done. Qed.

Lemma woken_not p p' x : woken p p' -> x <> SLEEPING -> x <> RUNNABLE -> pstate p' = x <-> pstate p = x.
Proof. intros [[E|[E E']] _ _ _ _ _ _ _] H1 H2; [by rewrite E|]. rewrite E, E'. split; congruence. Qed.

(** Waking processes up keeps the invariant. *)
Lemma woken_tinv init n ps ps' :
  tinv init n ps -> length ps' = length ps -> (forall k, woken (look ps k) (look ps' k)) ->
  tinv init n ps'.
Proof.
  intros H Hl Hw.
  assert (forall k x, x <> SLEEPING -> x <> RUNNABLE -> st ps' k = x <-> st ps k = x) as Hst.
  { intros. unfold st. by apply woken_not. }
  assert (forall k, live (st ps' k) = live (st ps k)) as Hlv by (intros; by apply woken_live).
  assert (forall k, settled (st ps' k) = settled (st ps k)) as Hse by (intros; by apply woken_settled).
  destruct H. split.
  - congruence.
  - intros i. rewrite Hst, (w_pid _ _ (Hw i)) by done. auto.
  - intros i j. rewrite !Hst, (w_pid _ _ (Hw i)), (w_pid _ _ (Hw j)) by done. auto.
  - intros i. rewrite Hse, (w_kstack _ _ (Hw i)), (w_pgdir _ _ (Hw i)). auto.
  - intros i. rewrite Hst, (w_kstack _ _ (Hw i)), (w_parent _ _ (Hw i)) by done. auto.
  - intros i. rewrite Hse, (w_parent _ _ (Hw i)). setoid_rewrite Hlv. auto.
  - by rewrite Hlv, (w_parent _ _ (Hw init)).
  - intros i. rewrite Hst by done. intros Hi. destruct (t_embryo0 i Hi) as [j Hj]. exists j.
    by rewrite (w_forking _ _ (Hw j)).
  - intros j i. rewrite (w_forking _ _ (Hw j)), (w_context _ _ (Hw j)). intros Hi.
    destruct (t_fork0 j i Hi) as (Ha & Hb & Hc). split; [|split].
    + destruct Ha as [Ha|[Ha Ha']]; [left; by apply Hst|]. right. split; [|done].
      destruct (w_state _ _ (Hw j)) as [E|[E E']]; unfold st in *; congruence.
    + by apply Hst.
    + revert Hc. unfold fork_ok.
      rewrite (w_kstack _ _ (Hw i)), (w_parent _ _ (Hw i)), (w_pgdir _ _ (Hw i)), (w_context _ _ (Hw i)). done.
  - intros j j' i. rewrite (w_forking _ _ (Hw j)), (w_forking _ _ (Hw j')). apply t_own0.
  - intros i Hi. assert (st ps i = SLEEPING) as Hi'.
    { destruct (w_state _ _ (Hw i)) as [E|[E E']]; unfold st in *; congruence. }
    rewrite (w_context _ _ (Hw i)), (w_chan _ _ (Hw i)). intros Ha.
    destruct (t_wait0 i Hi' Ha) as (Hc & (k & Hk) & Hz). split; [done|]. split.
    + exists k. by rewrite (w_parent _ _ (Hw k)).
    + intros m. rewrite (w_parent _ _ (Hw m)), Hst by done. apply Hz.
  - intros i Hi. assert (st ps i = SLEEPING) as Hi'.
    { destruct (w_state _ _ (Hw i)) as [E|[E E']]; unfold st in *; congruence. }
    rewrite (w_context _ _ (Hw i)), (w_chan _ _ (Hw i)). by apply t_sleep0.
  - intros i Hi. rewrite (w_context _ _ (Hw i)).
    destruct (w_state _ _ (Hw i)) as [E|[E E']].
    + apply t_runnable0. unfold st in *. congruence.
    + intros Ha. destruct (t_sleep0 i E) as [Hb _]; congruence.
Qed.

(** ** A process that goes on running, waits to run, or sleeps *)

Record may_become (i : nat) (ps : list proc) (p p' : proc) : Prop := {
  mb_live : live (pstate p) = true /\ live (pstate p') = true;
  mb_same : pid p' = pid p /\ parent p' = parent p /\ kstack p' = kstack p /\ pgdir p' = pgdir p /\
            forking p' = forking p;
  mb_fork : child_of (forking p) <> None ->
            pstate p' = RUNNING \/ pstate p' = RUNNABLE /\ at_ (context p') = AtYield;
  mb_wait : pstate p' = SLEEPING -> at_ (context p') = AtWait ->
            chan p' = ProcChan i /\ (exists k, parent (look ps k) = Some i) /\
            (forall k, parent (look ps k) = Some i -> st ps k <> ZOMBIE);
  mb_sleep : pstate p' = SLEEPING -> at_ (context p') <> AtWait ->
             at_ (context p') = AtSleep /\ (forall j, chan p' <> ProcChan j);
  mb_runnable : pstate p' = RUNNABLE -> at_ (context p') <> AtExit
}.

Lemma live_states x : live x = true -> x <> UNUSED /\ x <> EMBRYO /\ x <> ZOMBIE /\ settled x = true.
Proof. destruct x; try done. Qed.

Lemma become_tinv init n ps i f :
  tinv init n ps -> may_become i ps (look ps i) (f (look ps i)) -> tinv init n (alter f i ps).
Proof.
  intros H [[L L'] (Sp & Sa & Sk & Sg & Sf) Mf Mw Ms Mr].
  destruct (live_states _ L) as (U & E & Z & Se). destruct (live_states _ L') as (U' & E' & Z' & Se').
  destruct (look_in ps i U) as [Hi _].
  pose proof (fun k => look_alter f i ps k Hi) as Lk.
  assert (forall k x, live x = false -> st (alter f i ps) k = x <-> st ps k = x) as Hst.
  { intros k x Hx. unfold st. rewrite Lk. case_decide; [subst|done]. split; intros <-; congruence. }
  pose proof (fun k => Hst k UNUSED eq_refl) as Hun. pose proof (fun k => Hst k EMBRYO eq_refl) as Hem.
  pose proof (fun k => Hst k ZOMBIE eq_refl) as Hzo. clear Hst.
  assert (forall k, live (st (alter f i ps) k) = live (st ps k)) as Hlv.
  { intros k. unfold st. rewrite Lk. case_decide; [subst; congruence|done]. }
  assert (forall k, settled (st (alter f i ps) k) = settled (st ps k)) as Hse.
  { intros k. unfold st. rewrite Lk. case_decide; [subst; congruence|done]. }
  assert (forall k, pid (look (alter f i ps) k) = pid (look ps k)) as Hp by (intros k; rewrite Lk; case_decide; congruence).
  assert (forall k, parent (look (alter f i ps) k) = parent (look ps k)) as Ha by (intros k; rewrite Lk; case_decide; congruence).
  assert (forall k, kstack (look (alter f i ps) k) = kstack (look ps k)) as Hk by (intros k; rewrite Lk; case_decide; congruence).
  assert (forall k, pgdir (look (alter f i ps) k) = pgdir (look ps k)) as Hg by (intros k; rewrite Lk; case_decide; congruence).
  assert (forall k, forking (look (alter f i ps) k) = forking (look ps k)) as Hf by (intros k; rewrite Lk; case_decide; congruence).
  destruct H. split.
  - by rewrite length_alter.
  - intros k. rewrite Hun, Hp. auto.
  - intros j k. rewrite !Hun, !Hp. auto.
  - intros k. rewrite Hse, Hk, Hg. auto.
  - intros k. rewrite Hun, Hk, Ha. auto.
  - intros k. rewrite Hse, Ha. setoid_rewrite Hlv. auto.
  - by rewrite Hlv, Ha.
  - intros k. rewrite Hem. setoid_rewrite Hf. auto.
  - intros j k. rewrite Hf, Hem. intros Hj. destruct (t_fork0 j k Hj) as (A & B & C).
    split; [|split; [done|]].
    + unfold st. rewrite Lk. case_decide; [subst|done]. apply Mf. congruence.
    + assert (look (alter f i ps) k = look ps k) as ->; [|done].
      rewrite Lk. case_decide; [|done]. subst k. destruct (E B).
  - intros j k m. rewrite !Hf. apply t_own0.
  - intros k. unfold st at 1. rewrite Lk. setoid_rewrite Ha. setoid_rewrite Hzo.
    case_decide; [subst; auto|auto].
  - intros k. unfold st. rewrite Lk. case_decide; [subst; auto|auto].
  - intros k. unfold st. rewrite Lk. case_decide; [subst; auto|auto].
Qed.

(** ** The steps of a fork *)

(** What a step may make of the child, and of the variable of the parent. *)
Definition child_next (j np : nat) (f : forkpc) (p : proc) : Prop :=
  child_of f = Some np /\ pstate p = EMBRYO /\ fork_ok f j p \/
  f = NoFork /\ pstate p = UNUSED /\ kstack p = 0 /\ parent p = None \/
  f = NoFork /\ pstate p = RUNNABLE /\ kstack p <> 0 /\ pgdir p <> 0 /\ parent p = Some j /\
    at_ (context p) <> AtExit.

Definition child_now (j np : nat) (ps : list proc) : Prop :=
  child_of (forking (look ps j)) = Some np \/
  child_of (forking (look ps j)) = None /\ st ps np = UNUSED.

Definition pid_next (n n' : Z) (p p' : proc) : Prop :=
  n <= n' /\ (pstate p' <> UNUSED -> pid p' = pid p /\ pstate p <> UNUSED \/ 0 < pid p' /\ n <= pid p' < n').

(** Facts about a slot that is unused or being set up by process [j]. *)
Lemma child_facts init n ps j np :
  tinv init n ps -> child_now j np ps ->
  live (st ps np) = false /\ settled (st ps np) = false /\ child_of (forking (look ps np)) = None /\
  (parent (look ps np) = None \/ parent (look ps np) = Some j) /\
  (st ps np = EMBRYO \/ st ps np = UNUSED) /\
  (forall k, child_of (forking (look ps k)) = Some np -> k = j).
Proof.
  intros H Hc.
  assert ((st ps np = EMBRYO \/ st ps np = UNUSED) /\ (parent (look ps np) = None \/ parent (look ps np) = Some j))
    as [Hs Hp].
  { destruct Hc as [Hc|[_ Hc]].
    - destruct (t_fork _ _ _ H _ _ Hc) as (_ & He & Hf). split; [by left|].
      revert Hc Hf. destruct (forking (look ps j)); cbn; intuition congruence.
    - split; [by right|]. left. by apply (t_unused _ _ _ H). }
  assert (child_of (forking (look ps np)) = None) as Hn.
  { destruct (child_of (forking (look ps np))) eqn:E; [|done].
    destruct (t_fork _ _ _ H _ _ E) as ([A|[A _]] & _); destruct Hs; congruence. }
  split_and!; [by destruct Hs as [->| ->]|by destruct Hs as [->| ->]|done|done|done|].
  intros k Hk. destruct Hc as [Hc|[_ Hc]]; [by eapply (t_own _ _ _ H)|].
  destruct (t_fork _ _ _ H _ _ Hk) as (_ & He & _). congruence.
Qed.

(** No process has such a slot as its parent. *)
Lemma child_no_parent init n ps np i :
  tinv init n ps -> live (st ps np) = false -> parent (look ps i) <> Some np.
Proof.
  intros H Hl Hp. destruct (settled (st ps i)) eqn:E.
  - destruct (decide (i = init)) as [->|Hi]; [destruct (t_init _ _ _ H); congruence|].
    destruct (t_parent _ _ _ H i E Hi) as (j & Hj & Hlj & _). congruence.
  - assert (st ps i = UNUSED \/ st ps i = EMBRYO) as [U|U] by (destruct (st ps i); try done; auto).
    + destruct (t_unused _ _ _ H i U). congruence.
    + destruct (t_embryo _ _ _ H i U) as [j Hj]. destruct (t_fork _ _ _ H _ _ Hj) as (A & _ & F).
      assert (parent (look ps i) = None \/ parent (look ps i) = Some j) as [F'|F'].
      { revert Hj F. destruct (forking (look ps j)); cbn; intuition congruence. }
      { congruence. }
      rewrite Hp in F'. injection F' as <-. destruct A as [A|[A _]]; rewrite A in Hl; done.
Qed.

(** What a step of a fork of process [j] on slot [np] leaves alone. *)
Record fork_frame (j np : nat) (ps ps' : list proc) : Prop := {
  ff_same k : k <> np -> st ps' k = st ps k /\ pid (look ps' k) = pid (look ps k) /\
    parent (look ps' k) = parent (look ps k) /\ kstack (look ps' k) = kstack (look ps k) /\
    pgdir (look ps' k) = pgdir (look ps k) /\ context (look ps' k) = context (look ps k) /\
    chan (look ps' k) = chan (look ps k);
  ff_forking k : k <> j -> forking (look ps' k) = forking (look ps k)
}.

Lemma fork_frame_alter j np f g ps :
  forking (g (look ps np)) = forking (look ps np) -> (j < length ps)%nat -> (np < length ps)%nat -> j <> np ->
  fork_frame j np ps (alter (set_forking f) j (alter g np ps)) /\
  look (alter (set_forking f) j (alter g np ps)) np = g (look ps np) /\
  forking (look (alter (set_forking f) j (alter g np ps)) j) = f.
Proof.
  intros Hg Hj Hn Hd.
  assert (forall k, look (alter (set_forking f) j (alter g np ps)) k =
    if decide (j = k) then set_forking f (look ps k) else if decide (np = k) then g (look ps k) else look ps k) as Lk.
  { intros k. rewrite !look_alter by (rewrite ?length_alter; done). repeat case_decide; congruence. }
  split; [split|split].
  - intros k Hk. unfold st. rewrite Lk. repeat case_decide; [split_and!; done|congruence|split_and!; done].
  - intros k Hk. rewrite Lk. repeat case_decide; congruence.
  - rewrite Lk. repeat case_decide; congruence.
  - rewrite Lk. repeat case_decide; [done|congruence..].
Qed.

Lemma child_next_facts j np f p :
  child_next j np f p ->
  (parent p = None \/ parent p = Some j) /\ pstate p <> SLEEPING /\ pstate p <> ZOMBIE /\
  (forall i, child_of f = Some i -> i = np /\ pstate p = EMBRYO /\ fork_ok f j p) /\
  (pstate p = EMBRYO -> child_of f = Some np).
Proof.
  intros [(A & B & C)|[(A & B & C & D)|(A & B & C & D & E & F)]]; rewrite ?B; split_and!; try done;
    try (by left); try (by right); try (subst f; done).
  - destruct f; cbn in A, C; [done|intuition..].
  - intros i Hi. split; [congruence|done].
Qed.

Lemma fork_tinv init n n' ps ps' j np :
  tinv init n ps -> st ps j = RUNNING -> child_now j np ps ->
  fork_frame j np ps ps' -> length ps' = length ps ->
  child_next j np (forking (look ps' j)) (look ps' np) -> pid_next n n' (look ps np) (look ps' np) ->
  tinv init n' ps'.
Proof.
  intros H Hr Hc [Sm Fm] Hlen Hn [Hnn Hpid].
  destruct (child_facts _ _ _ _ _ H Hc) as (Cl & Cs & Cf & Cp & Ce & Co).
  pose proof (fun i => child_no_parent _ _ _ np i H Cl) as Cn.
  destruct (child_next_facts _ _ _ _ Hn) as (Np & Ns & Nz & Nf & Ne).
  assert (Sst : forall k, k <> np -> st ps' k = st ps k) by (intros k Hk; apply (Sm k Hk)).
  assert (forall k, live (st ps k) = true -> k <> np) as Lnp by (intros k Hk ->; congruence).
  assert (st ps' j = RUNNING) as Hr' by (rewrite Sst; [done|apply Lnp; by rewrite Hr]).
  destruct H. split.
  - congruence.
  - intros k Hk. destruct (decide (k = np)) as [->|Hd].
    + destruct (Hpid Hk) as [[-> U]|]; [specialize (t_pid0 _ U)|]; lia.
    + destruct (Sm k Hd) as (E & -> & _). rewrite E in Hk. specialize (t_pid0 _ Hk). lia.
  - assert (forall k, k <> np -> st ps' np <> UNUSED -> st ps k <> UNUSED -> pid (look ps' np) = pid (look ps k) -> k = np) as X.
    { intros k Hd U Uk Hp. specialize (t_pid0 _ Uk). destruct (Hpid U) as [[E V]|]; [|lia].
      apply t_inj0; [done|done|congruence]. }
    intros a b Ha Hb Hp. destruct (decide (a = np)) as [->|Da], (decide (b = np)) as [->|Db]; [done|..].
    + destruct (Sm b Db) as (E & Ep & _). symmetry. apply X; congruence.
    + destruct (Sm a Da) as (E & Ep & _). apply X; congruence.
    + destruct (Sm a Da) as (E & Ep & _), (Sm b Db) as (E' & Ep' & _). apply t_inj0; congruence.
  - intros k. destruct (decide (k = np)) as [->|Hd].
    + unfold st. destruct Hn as [(_ & -> & _)|[(_ & -> & _)|(_ & _ & ? & ? & _)]]; done.
    + destruct (Sm k Hd) as (-> & _ & _ & -> & -> & _). auto.
  - intros k. destruct (decide (k = np)) as [->|Hd].
    + unfold st. destruct Hn as [(_ & -> & _)|[(_ & _ & ?)|(_ & -> & _)]]; done.
    + destruct (Sm k Hd) as (-> & _ & -> & -> & _). auto.
  - intros k Hk Hi. destruct (decide (k = np)) as [->|Hd].
    + exists j. rewrite Hr'. split; [|split; [done|apply Lnp; by rewrite Hr]]. revert Hk. unfold st.
      destruct Hn as [(_ & -> & _)|[(_ & -> & _)|(_ & _ & _ & _ & ? & _)]]; done.
    + destruct (Sm k Hd) as (E & _ & Ep & _). rewrite E in Hk. destruct (t_parent0 k Hk Hi) as (m & Em & Hm & Hmd).
      exists m. rewrite Ep, Sst by auto. done.
  - assert (init <> np) as Hd by (apply Lnp; tauto). destruct (Sm _ Hd) as (-> & _ & -> & _). done.
  - intros k Hk. destruct (decide (k = np)) as [->|Hd]; [exists j; auto|]. rewrite Sst in Hk by done.
    destruct (t_embryo0 k Hk) as [m Hm]. exists m. rewrite Fm; [done|]. intros ->.
    destruct Hc as [Hc|[Hc _]]; congruence.
  - intros a i. destruct (decide (a = j)) as [->|Ha].
    + intros Hi. destruct (Nf i Hi) as (-> & A & B). auto.
    + rewrite Fm by done. intros Hi. assert (i <> np) as Di by (intros ->; by apply Ha, Co).
      assert (a <> np) as Da by (intros ->; congruence).
      destruct (t_fork0 _ _ Hi) as (A & B & C). destruct (Sm a Da) as (-> & _ & _ & _ & _ & -> & _).
      destruct (Sm i Di) as (-> & _ & Ep & Ek & Eg & Ec & _). split; [done|]. split; [done|].
      unfold fork_ok. rewrite Ep, Ek, Eg, Ec. exact C.
  - assert (forall b i, b <> j -> child_of (forking (look ps' j)) = Some i -> child_of (forking (look ps' b)) = Some i -> False) as X.
    { intros b i Db A B. destruct (Nf i A) as (-> & _). rewrite Fm in B by done. by apply Db, Co. }
    intros a b i A B. destruct (decide (a = j)) as [->|Da], (decide (b = j)) as [->|Db]; [done|exfalso; eauto..|].
    rewrite Fm in A, B by done. eauto.
  - intros i Hi. assert (i <> np) as Di by (intros ->; done). assert (i <> j) as Dj by congruence.
    destruct (Sm i Di) as (E & _ & _ & _ & _ & -> & ->). rewrite E in Hi. intros Ha.
    destruct (t_wait0 i Hi Ha) as (A & (m & Hm) & B). split; [done|]. split.
    + exists m. destruct (decide (m = np)) as [->|Dm]; [destruct Cp; congruence|]. by destruct (Sm m Dm) as (_ & _ & -> & _).
    + intros k. destruct (decide (k = np)) as [->|Dk]; [done|]. destruct (Sm k Dk) as (-> & _ & -> & _). auto.
  - intros i Hi. assert (i <> np) as Di by (intros ->; done).
    destruct (Sm i Di) as (E & _ & _ & _ & _ & -> & ->). rewrite E in Hi. auto.
  - intros i Hi. destruct (decide (i = np)) as [->|Di].
    + revert Hi. unfold st. destruct Hn as [(_ & -> & _)|[(_ & -> & _)|(_ & _ & _ & _ & _ & ?)]]; done.
    + destruct (Sm i Di) as (E & _ & _ & _ & _ & -> & _). rewrite E in Hi. auto.
Qed.

(** ** A child is reaped *)

Lemma wait_scan_reap me h i ps q :
  wait_scan me h i ps = Reap q ->
  (i <= q)%nat /\ exists p, ps !! (q - i)%nat = Some p /\ parent p = Some me /\ pstate p = ZOMBIE.
Proof.
  revert h i. induction ps as [|p ps IH]; intros h i; cbn [wait_scan]; [done|].
  assert (forall h', wait_scan me h' (S i) ps = Reap q -> (i <= q)%nat /\
    exists p', (p :: ps) !! (q - i)%nat = Some p' /\ parent p' = Some me /\ pstate p' = ZOMBIE) as X.
  { intros h' E. destruct (IH _ _ E) as (Hle & p' & Hp & Hq). split; [lia|]. exists p'. split; [|done].
    replace (q - i)%nat with (S (q - S i)) by lia. done. }
  unfold in_state. repeat case_bool_decide; cbn [negb]; [|exact (X _)..].
  intros [= <-]. split; [lia|]. exists p. by rewrite Nat.sub_diag.
Qed.

(** When there is none, what the scan says about the children. *)
Lemma wait_scan_kids me h i ps b :
  wait_scan me h i ps = Kids b ->
  (forall k p, ps !! k = Some p -> parent p = Some me -> pstate p <> ZOMBIE) /\
  (b = true <-> h = true \/ exists k p, ps !! k = Some p /\ parent p = Some me).
Proof.
  revert h i. induction ps as [|p ps IH]; intros h i; cbn [wait_scan].
  { intros [= <-]. split; [done|]. split; [auto|]. intros [?|(k & p & ? & _)]; done. }
  unfold in_state. case_bool_decide; cbn [negb]; [case_bool_decide; [done|]|].
  - intros E. destruct (IH _ _ E) as [A B]. split.
    + intros [|k] q; cbn; [intros [= <-]; done|apply A].
    + split; [intros _; right; by exists 0%nat, p|]. intros _. apply B. by left.
  - intros E. destruct (IH _ _ E) as [A B]. split.
    + intros [|k] q; cbn; [intros [= <-]; done|apply A].
    + rewrite B. split; (intros [?|(k & q & Hk & Hq)]; [by left|right]).
      * by exists (S k), q.
      * destruct k as [|k]; [cbn in Hk; congruence|]. by exists k, q.
Qed.

Lemma reap_tinv init n ps i q :
  tinv init n ps -> st ps i = RUNNING -> parent (look ps q) = Some i -> st ps q = ZOMBIE ->
  tinv init n (alter reaped q ps).
Proof.
  intros H Hr Hp Hz. destruct (look_in ps q) as [Hq _]; [congruence|].
  set (ps' := alter reaped q ps).
  assert (look ps' q = reaped (look ps q)) as Lq by (unfold ps'; rewrite look_alter by done; by case_decide).
  assert (forall k, k <> q -> look ps' k = look ps k) as Lk.
  { intros k Hk. unfold ps'. rewrite look_alter by done. by case_decide. }
  assert (forall k, k <> q -> st ps' k = st ps k) as Sk by (intros k Hk; unfold st; by rewrite Lk).
  assert (st ps' q = UNUSED) as Sq by (unfold st; by rewrite Lq).
  assert (forall k, forking (look ps' k) = forking (look ps k)) as Fk.
  { intros k. destruct (decide (k = q)) as [->|?]; [by rewrite Lq|by rewrite Lk]. }
  assert (live (st ps q) = false) as Cl by by rewrite Hz.
  assert (forall k, live (st ps k) = true -> k <> q) as Lv by (intros k Hk ->; congruence).
  assert (forall k, st ps k = EMBRYO -> k <> q) as Le by (intros k Hk ->; congruence).
  destruct H. split.
  - unfold ps'. by rewrite length_alter.
  - intros k Hk. destruct (decide (k = q)) as [->|?]; [done|]. rewrite Lk, Sk in * by done. auto.
  - intros a b Ha Hb. destruct (decide (a = q)) as [->|?], (decide (b = q)) as [->|?]; [done..|].
    rewrite !Lk, !Sk in * by done. auto.
  - intros k Hk. destruct (decide (k = q)) as [->|?]; [by rewrite Sq in Hk|]. rewrite Lk, Sk in * by done. auto.
  - intros k Hk. destruct (decide (k = q)) as [->|?]; [by rewrite Lq|]. rewrite Lk, Sk in * by done. auto.
  - intros k Hk Hi. destruct (decide (k = q)) as [->|?]; [by rewrite Sq in Hk|]. rewrite Lk, Sk in * by done.
    destruct (t_parent0 k Hk Hi) as (j & Hj & Hl & Hjd). exists j. rewrite Sk by auto. done.
  - rewrite Sk, Lk by (apply Lv; tauto). done.
  - intros k Hk. setoid_rewrite Fk. destruct (decide (k = q)) as [->|?]; [congruence|]. rewrite Sk in Hk by done. auto.
  - intros a b Hab. rewrite Fk in *. destruct (t_fork0 a b Hab) as (A & B & C).
    assert (a <> q) by (apply Lv; by destruct A as [->|[-> _]]). rewrite !Sk, !Lk by auto. done.
  - intros a b k. rewrite !Fk. apply t_own0.
  - intros k Hk. destruct (decide (k = q)) as [->|?]; [congruence|]. rewrite Lk, Sk in * by done. intros Ha.
    destruct (t_wait0 k Hk Ha) as (A & (m & Hm) & B). split; [done|]. split.
    + exists m. rewrite Lk; [done|]. intros ->. congruence.
    + intros b. destruct (decide (b = q)) as [->|?]; [by rewrite Sq|]. rewrite Lk, Sk by done. auto.
  - intros k Hk. destruct (decide (k = q)) as [->|?]; [congruence|]. rewrite Lk, Sk in * by done. auto.
  - intros k Hk. destruct (decide (k = q)) as [->|?]; [congruence|]. rewrite Lk, Sk in * by done. auto.
Qed.

(** ** A process exits *)

(** The child of [me] gets [init] as its parent. *)
Definition adopt (me init : nat) (p : proc) : proc :=
  if bool_decide (parent p = Some me) then set_parent (Some init) p else p.

Lemma adopt_fields me init p :
  pstate (adopt me init p) = pstate p /\ pid (adopt me init p) = pid p /\ kstack (adopt me init p) = kstack p /\
  pgdir (adopt me init p) = pgdir p /\ context (adopt me init p) = context p /\ chan (adopt me init p) = chan p /\
  forking (adopt me init p) = forking p /\
  parent (adopt me init p) = if decide (parent p = Some me) then Some init else parent p.
Proof. unfold adopt. case_bool_decide; case_decide; try done. Qed.

Lemma woken_adopt me init p q : woken p q -> woken (adopt me init p) (adopt me init q).
Proof.
  intros [A B C D E F G H].
  destruct (adopt_fields me init p) as (E1 & E2 & E3 & E4 & E5 & E6 & E7 & E8).
  destruct (adopt_fields me init q) as (F1 & F2 & F3 & F4 & F5 & F6 & F7 & F8).
  rewrite C in F8. split; [rewrite E1, F1; done|congruence..].
Qed.

Lemma wake_not_sleeping c p q : woken (wake c p) q -> chan p = c -> pstate q <> SLEEPING.
Proof.
  intros [[E|[_ E]] _ _ _ _ _ _ _] Hc; rewrite E; [by apply wake_awake|done].
Qed.

Lemma woken_awake p q : woken p q -> pstate p <> SLEEPING -> pstate q <> SLEEPING.
Proof. intros [[E|[_ E]] _ _ _ _ _ _ _] H; rewrite E; done. Qed.

(** One turn of the loop. *)
Lemma abandon_turn me init i ps :
  exists ps', (forall n, abandon (Some me) (Some init) (S n) i ps = abandon (Some me) (Some init) n (S i) ps') /\
    length ps' = length ps /\
    (forall k, woken (if decide (k = i) then adopt me init (look ps k) else look ps k) (look ps' k)) /\
    (parent (look ps i) = Some me -> st ps i = ZOMBIE ->
     forall x, chan (look ps x) = ProcChan init -> st ps' x <> SLEEPING).
Proof.
  eexists. split; [intros n; reflexivity|]. destruct (ps !! i) as [p|] eqn:E.
  - pose proof (look_some _ _ _ E) as L. pose proof (lookup_lt_Some _ _ _ E) as Hi.
    unfold adopt. rewrite L. case_bool_decide as Hp.
    + assert (forall k, look (<[i:=set_parent (Some init) p]> ps) k =
                if decide (k = i) then set_parent (Some init) p else look ps k) as Li.
      { intros k. unfold look. destruct (decide (k = i)) as [->|D].
        - by rewrite list_lookup_insert_eq.
        - by rewrite list_lookup_insert_ne. }
      unfold in_state. unfold st at 1. rewrite L. case_bool_decide as Hz.
      * split; [unfold wakeup1; by rewrite length_map, length_insert|]. split.
        -- intros k. rewrite look_wakeup1, Li. case_decide as D; [subst k; rewrite L, Hp, bool_decide_true by done|];
             apply woken_wake.
        -- intros _ _ x Hx. unfold st. rewrite look_wakeup1. apply wake_awake. rewrite Li. case_decide; [|done].
           subst x. rewrite L in Hx. done.
      * split; [by rewrite length_insert|]. split; [|done].
        intros k. rewrite Li. case_decide as D; [subst k; rewrite L, Hp, bool_decide_true by done|]; apply woken_refl.
    + split; [done|]. split; [|done]. intros k. case_decide as D; [|apply woken_refl].
      subst k. rewrite L, bool_decide_false by done. apply woken_refl.
  - assert (look ps i = proc0) as L by (unfold look; by rewrite E).
    split; [done|]. rewrite L. split; [|done]. intros k. case_decide as D; [|apply woken_refl].
    subst k. rewrite L. apply woken_refl.
Qed.

Lemma abandon_spec me init n i ps :
  let ps' := abandon (Some me) (Some init) n i ps in
  length ps' = length ps /\
  (forall k, woken (if decide (i <= k < i + n)%nat then adopt me init (look ps k) else look ps k) (look ps' k)) /\
  (forall k x, (i <= k < i + n)%nat -> parent (look ps k) = Some me -> st ps k = ZOMBIE ->
     chan (look ps x) = ProcChan init -> st ps' x <> SLEEPING).
Proof.
  revert i ps. induction n as [|n IH]; intros i ps ps'.
  { split; [done|]. split; [|intros; lia]. intros k. case_decide; [lia|apply woken_refl]. }
  destruct (abandon_turn me init i ps) as (ps1 & E & L1 & W1 & Z1). unfold ps'. rewrite E.
  destruct (IH (S i) ps1) as (L2 & W2 & Z2). clear E IH. split; [congruence|]. split.
  - intros k. eapply woken_trans; [|apply W2]. specialize (W1 k). clear W2 Z2.
    destruct (decide (k = i)) as [->|D].
    + rewrite decide_True, decide_False by lia. done.
    + destruct (decide (S i <= k < S i + n)%nat); [rewrite decide_True by lia; by apply woken_adopt|].
      rewrite decide_False by lia. done.
  - intros k x Hk Hp Hz Hx. destruct (decide (k = i)) as [->|D].
    + pose proof (Z1 Hp Hz x Hx) as A. specialize (W2 x). eapply woken_awake; [exact W2|].
      case_decide; [|done]. by rewrite (proj1 (adopt_fields me init (look ps1 x))).
    + pose proof (W1 k) as Wk. pose proof (W1 x) as Wx. rewrite decide_False in Wk by done.
      apply (Z2 k x); [lia|by rewrite (w_parent _ _ Wk)|by apply (woken_not _ _ ZOMBIE Wk)|].
      rewrite (w_chan _ _ Wx). case_decide; [|done]. by rewrite <- Hx; apply (adopt_fields me init (look ps x)).
Qed.

Lemma exit_spec me init ps x :
  st ps me <> UNUSED -> parent (look ps me) <> Some me ->
  let ps' := alter (set_context x) me (exit_table me (Some init) ps) in
  length ps' = length ps /\
  (forall k, k <> me -> woken (adopt me init (look ps k)) (look ps' k)) /\
  (st ps' me = ZOMBIE /\ pid (look ps' me) = pid (look ps me) /\ parent (look ps' me) = parent (look ps me) /\
   kstack (look ps' me) = kstack (look ps me) /\ pgdir (look ps' me) = pgdir (look ps me) /\
   forking (look ps' me) = forking (look ps me)) /\
  (forall j, parent (look ps me) = Some j -> j <> me -> chan (look ps j) = ProcChan j -> st ps' j <> SLEEPING) /\
  (forall k, parent (look ps k) = Some me -> st ps k = ZOMBIE -> init <> me ->
     chan (look ps init) = ProcChan init -> st ps' init <> SLEEPING).
Proof.
  intros Hu Hself ps'. destruct (look_in ps me Hu) as [Hi Hme].
  set (c := proc_chan (parent (look ps me))).
  assert (exit_table me (Some init) ps =
          alter (set_state ZOMBIE) me (abandon (Some me) (Some init) (length ps) 0 (wakeup1 c ps))) as E.
  { unfold exit_table. rewrite Hme. unfold wakeup1 at 1. by rewrite length_map. }
  destruct (abandon_spec me init (length ps) 0 (wakeup1 c ps)) as (Al & Aw & Az).
  set (ps2 := abandon _ _ _ _ _) in *. replace (length (wakeup1 c ps)) with (length ps) in Al
    by (unfold wakeup1; by rewrite length_map).
  assert (forall k, k <> me -> look ps' k = look ps2 k) as L.
  { intros k Hk. unfold ps'. rewrite E, !look_alter by (rewrite ?length_alter; lia). by rewrite !decide_False by done. }
  assert (forall k, woken (adopt me init (wake c (look ps k))) (look ps2 k)) as W.
  { intros k. specialize (Aw k). rewrite look_wakeup1 in Aw. case_decide as D; [done|].
    assert (look ps k = proc0) as Lk. { unfold look. rewrite lookup_ge_None_2 by lia. done. }
    rewrite Lk in *. done. }
  assert (look ps' me = set_context x (set_state ZOMBIE (look ps2 me))) as Lm.
  { unfold ps'. rewrite E, !look_alter by (rewrite ?length_alter; lia). by rewrite !decide_True by done. }
  split; [unfold ps'; rewrite E, !length_alter; done|]. split_and!.
  - intros k Hk. rewrite L by done. eapply woken_trans; [apply woken_adopt, woken_wake|apply W].
  - unfold st. by rewrite Lm.
  - rewrite Lm. cbn. rewrite (w_pid _ _ (W me)). rewrite (proj1 (proj2 (adopt_fields _ _ _))). apply woken_wake.
  - rewrite Lm. cbn. rewrite (w_parent _ _ (W me)).
    destruct (adopt_fields me init (wake c (look ps me))) as (_ & _ & _ & _ & _ & _ & _ & ->).
    rewrite (w_parent _ _ (woken_wake c (look ps me))). by rewrite decide_False by done.
  - rewrite Lm. cbn. rewrite (w_kstack _ _ (W me)).
    destruct (adopt_fields me init (wake c (look ps me))) as (_ & _ & -> & _). apply woken_wake.
  - rewrite Lm. cbn. rewrite (w_pgdir _ _ (W me)).
    destruct (adopt_fields me init (wake c (look ps me))) as (_ & _ & _ & -> & _). apply woken_wake.
  - rewrite Lm. cbn. rewrite (w_forking _ _ (W me)).
    destruct (adopt_fields me init (wake c (look ps me))) as (_ & _ & _ & _ & _ & _ & -> & _). apply woken_wake.
  - intros j Hj Hd Hc. unfold st. rewrite L by done. eapply woken_awake; [apply W|].
    rewrite (proj1 (adopt_fields _ _ _)). apply wake_awake. unfold c. by rewrite Hj.
  - intros k Hp Hz Hd Hc. unfold st. rewrite L by done. apply (Az k).
    + destruct (look_in ps k); [congruence|]. lia.
    + rewrite look_wakeup1, (w_parent _ _ (woken_wake c _)). done.
    + unfold st. rewrite look_wakeup1. by apply (woken_not _ _ ZOMBIE (woken_wake c (look ps k))).
    + rewrite look_wakeup1, (w_chan _ _ (woken_wake c _)). done.
Qed.

(** What the exit of [me] does to the other slots and to its own. *)
Record exit_frame (me init : nat) (ps ps' : list proc) : Prop := {
  ef_len : length ps' = length ps;
  ef_same k : pid (look ps' k) = pid (look ps k) /\ kstack (look ps' k) = kstack (look ps k) /\
    pgdir (look ps' k) = pgdir (look ps k) /\ forking (look ps' k) = forking (look ps k);
  ef_thread k : k <> me -> context (look ps' k) = context (look ps k) /\ chan (look ps' k) = chan (look ps k);
  ef_parent k : parent (look ps' k) = if decide (parent (look ps k) = Some me) then Some init else parent (look ps k);
  ef_me : st ps' me = ZOMBIE;
  ef_state k : k <> me -> st ps' k = st ps k \/ st ps k = SLEEPING /\ st ps' k = RUNNABLE;
  ef_waker j : parent (look ps me) = Some j -> j <> me -> chan (look ps j) = ProcChan j -> st ps' j <> SLEEPING;
  ef_init k : parent (look ps k) = Some me -> st ps k = ZOMBIE -> init <> me ->
    chan (look ps init) = ProcChan init -> st ps' init <> SLEEPING
}.

Lemma exit_frame_intro me init ps x :
  st ps me <> UNUSED -> parent (look ps me) <> Some me ->
  exit_frame me init ps (alter (set_context x) me (exit_table me (Some init) ps)).
Proof.
  intros Hu Hs. destruct (exit_spec me init ps x Hu Hs) as (Hl & W & (Mz & Mp & Ma & Mk & Mg & Mf) & Wp & Wz).
  set (ps' := alter _ _ _) in *. clearbody ps'. split; [done|..|done| |done|done].
  - intros k. destruct (decide (k = me)) as [->|Hk]; [done|].
    destruct (adopt_fields me init (look ps k)) as (A1 & A2 & A3 & A4 & A5 & A6 & A7 & _).
    destruct (W k Hk). split_and!; congruence.
  - intros k Hk. destruct (adopt_fields me init (look ps k)) as (A1 & A2 & A3 & A4 & A5 & A6 & A7 & _).
    destruct (W k Hk). split; congruence.
  - intros k. destruct (decide (k = me)) as [->|Hk]; [rewrite Ma; by rewrite decide_False|].
    rewrite (w_parent _ _ (W k Hk)). apply (adopt_fields me init (look ps k)).
  - intros k Hk. pose proof (w_state _ _ (W k Hk)) as X.
    rewrite (proj1 (adopt_fields me init (look ps k))) in X. exact X.
Qed.

Lemma exit_tinv me init n ps ps' :
  tinv init n ps -> st ps me = RUNNING -> child_of (forking (look ps me)) = None -> me <> init ->
  exit_frame me init ps ps' -> tinv init n ps'.
Proof.
  intros H Hr Hf Hni [Hl Sm St Sp Me Ss Wp Wz].
  destruct (t_parent _ _ _ H me) as (pa & Hpa & Hpl & Hpd); [by rewrite Hr|done|].
  assert (forall k y, y <> SLEEPING -> y <> RUNNABLE -> k <> me -> st ps' k = y <-> st ps k = y) as Sst.
  { intros k y H1 H2 Hk. destruct (Ss k Hk) as [->|[-> ->]]; [done|]. split; congruence. }
  assert (forall k, k <> me -> live (st ps' k) = live (st ps k)) as Slv.
  { intros k Hk. destruct (Ss k Hk) as [->|[-> ->]]; done. }
  assert (forall k, settled (st ps' k) = settled (st ps k)) as Sse.
  { intros k. destruct (decide (k = me)) as [->|Hk]; [by rewrite Me, Hr|].
    destruct (Ss k Hk) as [->|[-> ->]]; done. }
  assert (forall k, st ps' k = SLEEPING -> k <> me /\ st ps k = SLEEPING) as Ssl.
  { intros k Hk. destruct (decide (k = me)) as [->|D]; [congruence|]. split; [done|].
    destruct (Ss k D) as [<-|[? ?]]; [done|congruence]. }
  assert (forall k, st ps' k <> UNUSED -> st ps k <> UNUSED) as Sun.
  { intros k Hk. destruct (decide (k = me)) as [->|D]; [congruence|]. by rewrite <- Sst. }
  destruct H. split.
  - congruence.
  - intros k Hk. destruct (Sm k) as (-> & _). auto.
  - intros a b. destruct (Sm a) as (-> & _), (Sm b) as (-> & _). auto.
  - intros k. destruct (Sm k) as (_ & -> & -> & _). rewrite Sse. auto.
  - intros k Hk. destruct (decide (k = me)) as [->|D]; [congruence|]. rewrite Sst in Hk by done.
    destruct (Sm k) as (_ & -> & _). rewrite Sp. destruct (t_unused0 k Hk) as [A B].
    split; [done|]. by rewrite decide_False by congruence.
  - intros k Hk Hi. rewrite Sse in Hk. rewrite Sp. case_decide as D.
    + exists init. rewrite Slv by done. destruct t_init0. by split_and!.
    + destruct (t_parent0 k Hk Hi) as (m & Em & Hm). exists m. rewrite Slv; [done|congruence].
  - rewrite Slv, Sp by done. destruct t_init0 as [A B]. by rewrite decide_False by congruence.
  - intros k Hk. destruct (decide (k = me)) as [->|D]; [congruence|]. rewrite Sst in Hk by done.
    destruct (t_embryo0 k Hk) as [m Hm]. exists m. destruct (Sm m) as (_ & _ & _ & ->). done.
  - intros a i. destruct (Sm a) as (_ & _ & _ & ->). intros Hi. destruct (t_fork0 a i Hi) as (A & B & C).
    assert (a <> me) as Da by congruence. assert (i <> me) as Di by congruence.
    split; [|split; [by apply Sst|]].
    + destruct (St a Da) as (-> & _). destruct (Ss a Da) as [->|[E _]]; [done|].
      destruct A as [A|[A _]]; congruence.
    + revert Hi C. unfold fork_ok. destruct (Sm i) as (_ & -> & -> & _). destruct (St i Di) as [-> _]. rewrite Sp.
      destruct (forking (look ps a)); intros _; [done| | |].
      * intros [? ?]. rewrite decide_False; [done|congruence].
      * intros (? & ? & ?). rewrite decide_False; [done|congruence].
      * intros (? & ? & ? & ?). rewrite decide_False; [done|congruence].
  - intros a b i. destruct (Sm a) as (_ & _ & _ & ->), (Sm b) as (_ & _ & _ & ->). apply t_own0.
  - intros i Hi Ha. destruct (Ssl i Hi) as [Di Hi']. destruct (St i Di) as [Ec Eh]. rewrite Ec in Ha. rewrite Eh.
    destruct (t_wait0 i Hi' Ha) as (A & (m & Hm) & B). split; [done|]. split.
    + exists m. rewrite Sp. rewrite decide_False; [done|congruence].
    + intros k Hk Hz. rewrite Sp in Hk. destruct (decide (k = me)) as [->|Dk].
      * rewrite decide_False in Hk by congruence. by apply (Wp i).
      * rewrite Sst in Hz by done. case_decide as D; [|by apply (B k)].
        injection Hk as <-. by apply (Wz k).
  - intros i Hi. destruct (Ssl i Hi) as [Di Hi']. destruct (St i Di) as [-> ->]. auto.
  - intros i Hi. destruct (decide (i = me)) as [->|D]; [congruence|]. destruct (St i D) as [-> _].
    destruct (Ss i D) as [E|[E _]]; [apply t_runnable0; congruence|].
    intros Ha. destruct (t_sleep0 i E) as [Hb _]; congruence.
Qed.
