(* ===== verification/ProcSystem.v ===== *)
(** * Processes on several processors

    The processors of [Proc] interleaved: every step is a critical section of
    [ptable.lock], one turn of the loop of [scheduler], or a step of [fork]
    outside the lock.  Whatever the order, the invariant of the table holds, a
    process runs on one processor at most, and no panic of [acquire], [release],
    [sched], [switchuvm] or [exit] is reached but that of the exit of [init]. *)

From Stdlib Require Import ZArith Lia String.
From stdpp Require Import base list.
From S2P Require Import Prelude Spinlock Proc ProcInv.

Open Scope Z_scope.

Inductive op :=
| OSched                              (* the loop of [scheduler] goes on *)
| OEnv (x : cpu)                      (* other locks are taken or released, interrupts come and go *)
| OYield
| OSleep (a : Z) (lk : spinlock)      (* [sleep(a, lk)] *)
| OWakeup (a : Z)
| OKill (n : Z)
| OSlot | OStack (ks : Z) | OFill (dir : Z) | ORun    (* the steps of [fork] *)
| OExit
| OWait.

Section machine.
Context (word : Z -> Z) (ebp : Z).

(** Process [i] takes a step on CPU [c]. *)
Definition exec_proc (c i : nat) (o : op) (t : ptab) : res ptab :=
  p ← nth_res (procs t) i;
  match o, forking p with
  | OSched, _ => Fault OutOfBounds
  | OEnv x, _ =>
      k ← nth_res (cpus t) c;
      Ok (with_cpu c {| ccpu := x; cproc := cproc k; ctl := ctl k |} t)
  | OYield, _ => yield word ebp c i t
  | OSleep a lk, _ => r ← sleep word ebp c i (Chan a) lk t; Ok r.1
  | OWakeup a, _ => wakeup word ebp c (Chan a) t
  | OKill n, _ => r ← sys_kill word ebp c n t; Ok r.2
  | OSlot, NoFork => fork_slot word ebp c i t
  | OStack ks, Slot np => Ok (fork_stack i np ks t)
  | OFill dir, Stack np => Ok (fork_fill i np dir t)
  | ORun, Filled np => fork_run word ebp c i np t
  | OExit, NoFork => exit word ebp c i t
  | OWait, NoFork => r ← wait word ebp c i t; Ok r.2
  | _, _ => Fault OutOfBounds
  end.

Definition exec (c : nat) (o : op) (t : ptab) : res ptab :=
  k ← nth_res (cpus t) c;
  match o, ctl k, cproc k with
  | OSched, _, _ => scheduler word ebp c t
  | _, Run, Some i => exec_proc c i o t
  | _, _, _ => Fault OutOfBounds
  end.
End machine.

(** When process [p] on CPU [c] in state [k] may take a step: the calls that
    switch hold no spin lock but the one they are given, and the calls of a
    process that is forking are those of [fork]. *)
Definition may (c : nat) (k : cpu) (n : Z) (p : proc) (o : op) : Prop :=
  match o with
  | OSched => False
  | OEnv x => cpu_wf x
  | OYield => ncli k = 0
  | OSleep _ lk => ncli k = 1 /\ holding lk (Z.of_nat c) = true /\ forking p = NoFork
  | OWakeup _ | OKill _ => True
  | OSlot => forking p = NoFork /\ n < 2 ^ 31 - 1
  | OStack _ => exists np, forking p = Slot np
  | OFill _ => exists np, forking p = Stack np
  | ORun => exists np, forking p = Filled np
  | OExit | OWait => ncli k = 0 /\ forking p = NoFork
  end.

Definition enabled (c : nat) (o : op) (t : ptab) : Prop :=
  exists k, cpus t !! c = Some k /\
    match o with
    | OSched => ctl k <> Run
    | _ => ctl k = Run /\ exists i p, cproc k = Some i /\ procs t !! i = Some p /\ may c (ccpu k) (nextpid t) p o
    end.

(** ** The invariant of the machine *)

Definition held_by (c : nat) (l : spinlock) (x : cpu) : Prop :=
  locked l = 1 /\ lk_cpu l = Some (Z.of_nat c) /\ ncli x = 1 /\ fl_if x = false.

Definition scanning (k : cpust) : bool := match ctl k with Scan _ => true | _ => false end.

Record minv (init : nat) (t : ptab) : Prop := {
  m_table : tinv init (nextpid t) (procs t);
  m_init : initproc t = Some init;
  m_cpu c k : cpus t !! c = Some k -> cpu_wf (ccpu k);
  (* a CPU runs a process exactly when it is not in the scheduler *)
  m_run c k : cpus t !! c = Some k ->
    match ctl k with Run => exists i, cproc k = Some i /\ st (procs t) i = RUNNING | _ => cproc k = None end;
  (* a running process is on exactly one CPU *)
  m_some i : st (procs t) i = RUNNING -> exists c k, cpus t !! c = Some k /\ cproc k = Some i;
  m_one c c' k k' i : cpus t !! c = Some k -> cpus t !! c' = Some k' ->
    cproc k = Some i -> cproc k' = Some i -> c = c';
  (* the lock is held exactly by a scheduler in its loop *)
  m_poll c k : cpus t !! c = Some k -> ctl k = Poll -> ncli (ccpu k) = 0;
  m_scan c k : cpus t !! c = Some k -> scanning k = true -> held_by c (plock t) (ccpu k);
  m_free : (forall c k, cpus t !! c = Some k -> scanning k = false) -> locked (plock t) = 0
}.

(** The lock before or after a step of CPU [c]: its own, when it is in the loop
    of the scheduler, or free. *)
Definition lock_at (c : nat) (k : cpust) (l : spinlock) : Prop :=
  if scanning k then held_by c l (ccpu k) else locked l = 0.

(** What a step of CPU [c] has to satisfy. *)
Record turn (init c : nat) (k k' : cpust) (t t' : ptab) : Prop := {
  u_cpu : cpus t' = <[c := k']> (cpus t);
  u_table : tinv init (nextpid t') (procs t');
  u_init : initproc t' = initproc t;
  u_wf : cpu_wf (ccpu k');
  u_ctl : match ctl k' with Run => exists i, cproc k' = Some i | _ => cproc k' = None end;
  u_poll : ctl k' = Poll -> ncli (ccpu k') = 0;
  u_run i : st (procs t') i = RUNNING <-> cproc k' = Some i \/ st (procs t) i = RUNNING /\ cproc k <> Some i;
  u_new i : cproc k' = Some i -> cproc k = Some i \/ st (procs t) i <> RUNNING;
  u_lock : plock t' = plock t /\ scanning k = false /\ scanning k' = false \/
           lock_at c k (plock t) /\ lock_at c k' (plock t')
}.

Lemma turn_minv init c k k' t t' :
  minv init t -> cpus t !! c = Some k -> turn init c k k' t t' -> minv init t'.
Proof.
  intros H Hk [Uc Ut Ui Uw Uctl Up Ur Un Ul].
  pose proof (lookup_lt_Some _ _ _ Hk) as Hc.
  assert (forall d, d <> c -> cpus t' !! d = cpus t !! d) as Ld by (intros d Hd; rewrite Uc; by rewrite list_lookup_insert_ne).
  assert (cpus t' !! c = Some k') as Lc by (rewrite Uc; by apply list_lookup_insert_eq).
  assert (forall d x i, d <> c -> cpus t !! d = Some x -> cproc x = Some i ->
            st (procs t) i = RUNNING /\ cproc k <> Some i /\ cproc k' <> Some i) as Other.
  { intros d x i Hd Hx Hi. pose proof (m_run _ _ H d x Hx) as M. destruct (ctl x); [congruence..|].
    destruct M as (i' & E & R). assert (i' = i) as -> by congruence.
    assert (cproc k <> Some i) as N by (intros E'; by apply Hd, (m_one _ _ H d c x k i)).
    split_and!; [done|done|]. intros E'. destruct (Un i E'); [congruence|done]. }
  split; [done|by rewrite Ui; apply H|..].
  - intros d x. destruct (decide (d = c)) as [->|Hd]; [rewrite Lc; by intros [= <-]|]. rewrite Ld by done. apply H.
  - intros d x. destruct (decide (d = c)) as [->|Hd].
    + rewrite Lc. intros [= <-]. destruct (ctl k'); [done..|]. destruct Uctl as [i Hi]. exists i. split; [done|].
      apply Ur. by left.
    + rewrite Ld by done. intros Hx. pose proof (m_run _ _ H d x Hx) as M. destruct (ctl x); [done..|].
      destruct M as (i & E & R). exists i. split; [done|]. destruct (Other d x i Hd Hx E) as (A & B & C).
      apply Ur. by right.
  - intros i Hi. apply Ur in Hi as [Hi|[Hi Hn]]; [by exists c, k'|].
    destruct (m_some _ _ H i Hi) as (d & x & Hx & Ex). exists d, x. split; [|done].
    rewrite Ld; [done|]. intros ->. congruence.
  - intros d d' x x' i Hx Hx' Ex Ex'.
    destruct (decide (d = c)) as [->|Hd], (decide (d' = c)) as [->|Hd']; [done|..].
    + rewrite Lc in Hx. injection Hx as <-. rewrite Ld in Hx' by done. by destruct (Other _ _ _ Hd' Hx' Ex') as (_ & _ & ?).
    + rewrite Lc in Hx'. injection Hx' as <-. rewrite Ld in Hx by done. by destruct (Other _ _ _ Hd Hx Ex) as (_ & _ & ?).
    + rewrite Ld in Hx, Hx' by done. by apply (m_one _ _ H d d' x x' i).
  - intros d x. destruct (decide (d = c)) as [->|Hd]; [rewrite Lc; by intros [= <-]|]. rewrite Ld by done. apply H.
  - intros d x. destruct (decide (d = c)) as [->|Hd].
    + rewrite Lc. intros [= <-] S. destruct Ul as [(_ & _ & S')|[_ L]]; [congruence|].
      unfold lock_at in L. by rewrite S in L.
    + rewrite Ld by done. intros Hx S. pose proof (m_scan _ _ H d x Hx S) as Hh.
      destruct Ul as [(-> & _ & _)|[L _]]; [done|]. unfold lock_at in L. destruct Hh as (A & B & _).
      destruct (scanning k); [|congruence]. destruct L as (_ & B' & _). rewrite B in B'. injection B' as B'. lia.
  - intros Hall. destruct Ul as [(-> & S & S')|[_ L]].
    + apply (m_free _ _ H). intros d x Hx. destruct (decide (d = c)) as [->|Hd]; [congruence|].
      apply (Hall d). by rewrite Ld.
    + unfold lock_at in L. by rewrite (Hall c k' Lc) in L.
Qed.

(** ** The lock *)

Definition cput (k : cpust) (x : cpu) : cpust := {| ccpu := x; cproc := cproc k; ctl := ctl k |}.

Section steps.
Context (word : Z -> Z) (ebp : Z).

Lemma nth_res_ok {A} (l : list A) i x : l !! i = Some x -> nth_res l i = Ok x.
Proof. unfold nth_res. by intros ->. Qed.

(** A CPU outside the loop of the scheduler finds the lock free and takes it, or
    it finds it taken by another CPU. *)
Lemma lock_run c k t :
  cpus t !! c = Some k -> locked (plock t) = 0 ->
  exists l, lock word ebp c t = Ok (with_lock l (with_cpu c (cput k (pushcli (ccpu k))) t)) /\
    locked l = 1 /\ lk_cpu l = Some (Z.of_nat c).
Proof.
  intros Hk Hl. unfold lock. rewrite (nth_res_ok _ _ _ Hk). cbn [mbind res_bind].
  unfold acquire, acquire_start, xchg, holding, acquire_end. rewrite Hl. cbn [Z.eqb negb andb mbind res_bind fst snd].
  eexists. split; [reflexivity|]. done.
Qed.

Lemma lock_blocked init c k t :
  minv init t -> cpus t !! c = Some k -> scanning k = false -> locked (plock t) <> 0 ->
  lock word ebp c t = Fault Blocked.
Proof.
  intros H Hk Hs Hl. unfold lock. rewrite (nth_res_ok _ _ _ Hk). cbn [mbind res_bind].
  assert (lk_cpu (plock t) <> Some (Z.of_nat c)) as Hn.
  { intros E. apply Hl, (m_free _ _ H). intros d x Hx. destruct (scanning x) eqn:S; [|done].
    destruct (m_scan _ _ H d x Hx S) as (_ & B & _). rewrite E in B. injection B as B.
    assert (d = c) as -> by lia. congruence. }
  unfold acquire, acquire_start, xchg, holding. rewrite (bool_decide_false _ Hn), andb_false_r.
  cbn [mbind res_bind fst snd]. destruct (Z.eqb_spec (locked (plock t)) 0); [done|]. done.
Qed.

Lemma unlock_run c k t :
  cpus t !! c = Some k -> locked (plock t) = 1 -> lk_cpu (plock t) = Some (Z.of_nat c) ->
  1 <= ncli (ccpu k) -> fl_if (ccpu k) = false ->
  exists l x, unlock c t = Ok (with_lock l (with_cpu c (cput k x) t)) /\ locked l = 0 /\
    ncli x = ncli (ccpu k) - 1 /\ cpu_wf x.
Proof.
  intros Hk Hl Hc Hn Hf. unfold unlock. rewrite (nth_res_ok _ _ _ Hk). cbn [mbind res_bind].
  unfold release, release_start, release_store, holding. rewrite Hl, Hc, bool_decide_true by done.
  cbn [Z.eqb negb andb mbind res_bind]. unfold popcli. rewrite Hf.
  destruct (Z.ltb_spec (ncli (ccpu k) - 1) 0); [lia|]. cbn [mbind res_bind fst snd].
  do 2 eexists. split; [reflexivity|]. split_and!; [done|done|]. split; cbn; [lia|].
  intros. destruct (Z.eqb_spec (ncli (ccpu k) - 1) 0); [lia|done].
Qed.

Lemma sched_run c i pt k t :
  cpus t !! c = Some k -> held_by c (plock t) (ccpu k) -> (i < length (procs t))%nat ->
  st (procs t) i <> RUNNING ->
  sched c i pt t = Ok (with_cpu c {| ccpu := ccpu k; cproc := None; ctl := Scan (S i) |}
    (with_procs (alter (set_context {| at_ := pt; sintena := intena (ccpu k) |}) i) t)).
Proof.
  intros Hk (Hl & Hc & Hn & Hf) Hi Hr. unfold sched. rewrite (nth_res_ok _ _ _ Hk). cbn [mbind res_bind].
  destruct (lookup_lt_is_Some_2 _ _ Hi) as [p Hp]. rewrite (nth_res_ok _ _ _ Hp). cbn [mbind res_bind].
  unfold st in Hr. rewrite (look_some _ _ _ Hp) in Hr.
  unfold holding. rewrite Hl, Hc, bool_decide_true by done. cbn [Z.eqb negb andb].
  rewrite Hn, Hf. cbn [Z.eqb Pos.eqb negb]. unfold in_state. by rewrite bool_decide_false.
Qed.

(** ** Inside a critical section *)

(** CPU [c], which was in state [k] in [t], runs process [i] with the lock held
    in [t2]. *)
Record inside (c : nat) (k : cpust) (i : nat) (x : cpu) (t t2 : ptab) : Prop := {
  in_cpus : cpus t2 = <[c := {| ccpu := x; cproc := Some i; ctl := Run |}]> (cpus t);
  in_lock : locked (plock t2) = 1 /\ lk_cpu (plock t2) = Some (Z.of_nat c);
  in_init : initproc t2 = initproc t;
  in_old : lock_at c k (plock t);
  in_ncli : 1 <= ncli x /\ fl_if x = false
}.

(** It may return from the section, with the lock released. *)
Lemma return_ok init c k i x t t2 :
  minv init t -> cpus t !! c = Some k -> inside c k i x t t2 ->
  tinv init (nextpid t2) (procs t2) ->
  (forall j, st (procs t2) j = RUNNING <-> j = i \/ st (procs t) j = RUNNING /\ cproc k <> Some j) ->
  (cproc k = Some i \/ st (procs t) i <> RUNNING) ->
  exists t', unlock c t2 = Ok t' /\ minv init t'.
Proof.
  intros H Hk [Ic [Il Io] Ii Iold [In If]] Ht Hr Hnew. pose proof (lookup_lt_Some _ _ _ Hk) as Hc.
  assert (cpus t2 !! c = Some {| ccpu := x; cproc := Some i; ctl := Run |}) as H2
    by (rewrite Ic; by apply list_lookup_insert_eq).
  destruct (unlock_run c _ t2 H2 Il Io In If) as (l & y & E & El & _ & Wy). eexists. split; [exact E|].
  apply (turn_minv init c k {| ccpu := y; cproc := Some i; ctl := Run |} t); [exact H|exact Hk|].
  split; cbn; [|done|done|done| |done|..].
  - rewrite Ic. by rewrite list_insert_insert_eq.
  - by exists i.
  - intros j. rewrite Hr. split; (intros [Hj|Hj]; [left; congruence|by right]).
  - intros j [= <-]. done.
  - right. done.
Qed.

(** It may leave the processor with the lock held, in [sched]. *)
Lemma away_ok init c k i x pt t t2 :
  minv init t -> cpus t !! c = Some k -> inside c k i x t t2 -> ncli x = 1 ->
  tinv init (nextpid t2) (alter (set_context {| at_ := pt; sintena := intena x |}) i (procs t2)) ->
  (i < length (procs t2))%nat -> st (procs t2) i <> RUNNING ->
  (forall j, st (procs t2) j = RUNNING <-> st (procs t) j = RUNNING /\ cproc k <> Some j) ->
  exists t', sched c i pt t2 = Ok t' /\ minv init t'.
Proof.
  intros H Hk [Ic [Il Io] Ii Iold [In If]] Hx Ht Hi Hn Hr. pose proof (lookup_lt_Some _ _ _ Hk) as Hc.
  assert (cpus t2 !! c = Some {| ccpu := x; cproc := Some i; ctl := Run |}) as H2
    by (rewrite Ic; by apply list_lookup_insert_eq).
  eexists. split; [apply sched_run; [exact H2|done|done|done]|].
  apply (turn_minv init c k {| ccpu := x; cproc := None; ctl := Scan (S i) |} t); [exact H|exact Hk|].
  split; cbn; [|done|done| |done|done| |done|].
  - rewrite Ic. by rewrite list_insert_insert_eq.
  - split; [lia|]. done.
  - intros j. unfold st in *. rewrite look_alter by done. rewrite <- Hr.
    replace (pstate (if decide (i = j) then _ else _)) with (pstate (look (procs t2) j)) by (by case_decide).
    split; [by right|]. by intros [?|?].
  - right. done.
Qed.

(** The outcome of a step: a state with the invariant, or a CPU that spins on a
    lock that is taken. *)
Definition outcome (init : nat) (t : ptab) (r : res ptab) : Prop :=
  (exists t', r = Ok t' /\ minv init t') \/ r = Fault Blocked /\ locked (plock t) <> 0.

(** Process [i] runs on CPU [c]. *)
Record runs (init c : nat) (k : cpust) (i : nat) (t : ptab) : Prop := {
  rn_inv : minv init t;
  rn_cpu : cpus t !! c = Some k;
  rn_ctl : ctl k = Run;
  rn_proc : cproc k = Some i
}.

Lemma runs_running init c k i t : runs init c k i t -> st (procs t) i = RUNNING /\ (i < length (procs t))%nat.
Proof.
  intros [H Hk Hc Hp]. pose proof (m_run _ _ H c k Hk) as M. rewrite Hc in M. destruct M as (i' & E & R).
  assert (i' = i) as -> by congruence. split; [done|]. apply look_in. congruence.
Qed.

Lemma running_same init c k i t :
  runs init c k i t ->
  forall j, st (procs t) j = RUNNING <-> j = i \/ st (procs t) j = RUNNING /\ cproc k <> Some j.
Proof.
  intros Hrun j. destruct (runs_running _ _ _ _ _ Hrun) as [Ri _]. rewrite (rn_proc _ _ _ _ _ Hrun).
  destruct (decide (j = i)) as [->|]; split; [by left|done|right; split; congruence|]. intros [?|[? ?]]; done.
Qed.

Lemma enter init c k i t (r : ptab -> res ptab) :
  runs init c k i t ->
  (forall t1, inside c k i (pushcli (ccpu k)) t t1 -> procs t1 = procs t -> nextpid t1 = nextpid t ->
     exists t', r t1 = Ok t' /\ minv init t') ->
  outcome init t (t1 ← lock word ebp c t; r t1).
Proof.
  intros [H Hk Hc Hp] Hr. assert (scanning k = false) as Hs by (unfold scanning; by rewrite Hc).
  destruct (decide (locked (plock t) = 0)) as [Hl|Hl].
  - left. destruct (lock_run c k t Hk Hl) as (l & E & L1 & L2). rewrite E. cbn [mbind res_bind].
    apply Hr; [|done|done]. destruct (m_cpu _ _ H c k Hk) as [Hn _].
    split; cbn; [|done|done| |split; [lia|done]].
    + unfold cput. by rewrite Hp, Hc.
    + unfold lock_at. by rewrite Hs.
  - right. split; [|done]. by rewrite (lock_blocked init c k t).
Qed.

(** A section that keeps the set of running processes returns. *)
Lemma section_ok init c k i x t t2 :
  runs init c k i t -> inside c k i x t t2 ->
  tinv init (nextpid t2) (procs t2) ->
  (forall j, st (procs t2) j = RUNNING <-> st (procs t) j = RUNNING) ->
  exists t', unlock c t2 = Ok t' /\ minv init t'.
Proof.
  intros Hrun Hin Ht Hr. apply (return_ok init c k i x t t2); [apply Hrun|apply Hrun|done|done| |left; apply Hrun].
  intros j. rewrite Hr. by apply (running_same init c).
Qed.

(** A section that puts the process [i] away switches. *)
Lemma switch_ok init c k i x pt t t2 g :
  runs init c k i t -> inside c k i x t t2 -> ncli x = 1 -> procs t2 = alter g i (procs t) ->
  pstate (g (look (procs t) i)) <> RUNNING ->
  may_become i (procs t) (look (procs t) i)
    (set_context {| at_ := pt; sintena := intena x |} (g (look (procs t) i))) -> nextpid t2 = nextpid t ->
  exists t', sched c i pt t2 = Ok t' /\ minv init t'.
Proof.
  intros Hrun Hin Hx Hps Hg Hm Hnp. destruct (runs_running _ _ _ _ _ Hrun) as [Ri Hi]. destruct Hrun as [H Hk Hc Hp].
  apply (away_ok init c k i x pt t t2); rewrite ?Hps; [done..| | | |].
  - rewrite Hnp, alter_twice. apply become_tinv; [apply H|exact Hm].
  - by rewrite length_alter.
  - unfold st. rewrite look_alter by done. by rewrite decide_True.
  - intros j. unfold st in *. rewrite look_alter by done. rewrite Hp. case_decide as D.
    + subst j. split; [done|]. by intros [_ ?].
    + split; [intros; split; congruence|by intros [? _]].
Qed.

Lemma yield_ok init c k i t :
  runs init c k i t -> ncli (ccpu k) = 0 -> outcome init t (yield word ebp c i t).
Proof.
  intros Hrun Hn. destruct (runs_running _ _ _ _ _ Hrun) as [Ri _]. unfold yield.
  apply (enter init c k i); [done|]. intros t1 Hin Hps Hnp.
  apply (switch_ok init c k i (pushcli (ccpu k)) AtYield t _ (set_state RUNNABLE)); [done| |cbn; lia|cbn; by rewrite Hps|done| |done].
  - destruct Hin. by split.
  - unfold st in Ri. split; cbn; try done. by rewrite Ri. by right.
Qed.

Lemma inside_cpu c k i x y t t2 :
  inside c k i x t t2 -> 1 <= ncli y /\ fl_if y = false ->
  inside c k i y t (with_cpu c {| ccpu := y; cproc := Some i; ctl := Run |} t2).
Proof. intros [Ic Il Ii Iold In] Hy. split; cbn; [|done..]. rewrite Ic. by rewrite list_insert_insert_eq. Qed.

Lemma inside_lookup c k i x t t2 :
  cpus t !! c = Some k -> inside c k i x t t2 ->
  nth_res (cpus t2) c = Ok {| ccpu := x; cproc := Some i; ctl := Run |}.
Proof.
  intros Hk [Ic _ _ _ _]. apply nth_res_ok. rewrite Ic.
  apply list_lookup_insert_eq. by eapply lookup_lt_Some.
Qed.

Lemma inside_procs c k i x t t2 f : inside c k i x t t2 -> inside c k i x t (with_procs f t2).
Proof. intros []. by split. Qed.

Lemma release_other c x lk :
  holding lk (Z.of_nat c) = true -> ncli x = 2 -> fl_if x = false ->
  exists l y, release (Z.of_nat c) x lk = Ok (y, l) /\ ncli y = 1 /\ fl_if y = false.
Proof.
  intros Hh Hn Hf. unfold release, release_start, release_store. rewrite Hh. cbn [negb mbind res_bind].
  unfold popcli. rewrite Hf, Hn. cbn. do 2 eexists. split; [reflexivity|]. done.
Qed.

Lemma sleep_ok init c k i a lk t :
  runs init c k i t -> ncli (ccpu k) = 1 -> holding lk (Z.of_nat c) = true ->
  forking (look (procs t) i) = NoFork ->
  outcome init t (r ← sleep word ebp c i (Chan a) lk t; Ok r.1).
Proof.
  intros Hrun Hn Hh Hf. destruct (runs_running _ _ _ _ _ Hrun) as [Ri _]. unfold sleep.
  assert (forall r : ptab -> res (ptab * spinlock), (q ← (t1 ← lock word ebp c t; r t1); Ok q.1) =
    (t1 ← lock word ebp c t; q ← r t1; Ok q.1)) as X by (intros r; by destruct (lock word ebp c t)).
  rewrite X. apply (enter init c k i); [done|]. intros t1 Hin Hps Hnp.
  rewrite (inside_lookup c k i _ t t1 (rn_cpu _ _ _ _ _ Hrun) Hin). cbn [mbind res_bind ccpu cproc ctl].
  destruct (release_other c (pushcli (ccpu k)) lk Hh) as (l & y & E & En & Ef); [cbn; lia|done|].
  rewrite E. cbn [mbind res_bind fst snd].
  destruct (switch_ok init c k i y AtSleep t
    (with_procs (alter (λ p, set_state SLEEPING (set_chan (Chan a) p)) i)
       (with_cpu c {| ccpu := y; cproc := Some i; ctl := Run |} t1))
    (λ p, set_state SLEEPING (set_chan (Chan a) p))) as (t' & E' & H'); [done| |done|cbn; by rewrite Hps|done| |done|].
  - apply inside_procs. eapply inside_cpu; [exact Hin|]. split; [lia|done].
  - unfold st in Ri. split; cbn; try done. by rewrite Ri. by rewrite Hf.
  - rewrite E'. cbn [mbind res_bind fst]. by exists t'.
Qed.

(** Waking processes up does not change which of them run. *)
Lemma wakeup_tinv init n ps ch :
  tinv init n ps -> tinv init n (wakeup1 ch ps) /\ (forall j, st (wakeup1 ch ps) j = RUNNING <-> st ps j = RUNNING).
Proof.
  intros H. split.
  - apply (woken_tinv init n ps); [done|unfold wakeup1; by rewrite length_map|].
    intros k. rewrite look_wakeup1. apply woken_wake.
  - intros j. unfold st. rewrite look_wakeup1. by apply (woken_not _ _ RUNNING (woken_wake ch _)).
Qed.

Lemma wakeup_ok init c k i a t : runs init c k i t -> outcome init t (wakeup word ebp c (Chan a) t).
Proof.
  intros Hrun. unfold wakeup. apply (enter init c k i); [done|]. intros t1 Hin Hps Hnp.
  destruct (wakeup_tinv init (nextpid t) (procs t) (Chan a)) as [A B]; [apply (rn_inv _ _ _ _ _ Hrun)|].
  eapply (section_ok init c k i); [done|apply inside_procs, Hin|cbn; by rewrite Hps, Hnp|cbn; by rewrite Hps].
Qed.

Lemma kill_tinv init n ps m :
  tinv init n ps -> tinv init n (kill m ps).2 /\ (forall j, st (kill m ps).2 j = RUNNING <-> st ps j = RUNNING).
Proof.
  intros H. unfold kill. destruct (first _ 0 ps) as [i|]; [|done]. cbn [snd].
  set (f := fun p : proc => _).
  assert (forall p, woken p (f p)) as Hw.
  { intros p. unfold f, in_state. cbn. case_bool_decide; split; cbn; auto. }
  assert (forall j, woken (look ps j) (look (alter f i ps) j)) as Hl.
  { intros j. destruct (decide (i < length ps)%nat).
    - rewrite look_alter by done. case_decide; [apply Hw|apply woken_refl].
    - rewrite alter_out by lia. apply woken_refl. }
  split; [apply (woken_tinv init n ps); [done|by rewrite length_alter|done]|].
  intros j. by apply (woken_not _ _ RUNNING (Hl j)).
Qed.

Lemma kill_ok init c k i m t :
  runs init c k i t -> outcome init t (r ← sys_kill word ebp c m t; Ok r.2).
Proof.
  intros Hrun. unfold sys_kill.
  assert (forall r : ptab -> res (Z * ptab), (q ← (t1 ← lock word ebp c t; r t1); Ok q.2) =
    (t1 ← lock word ebp c t; q ← r t1; Ok q.2)) as X by (intros r; by destruct (lock word ebp c t)).
  rewrite X. apply (enter init c k i); [done|]. intros t1 Hin Hps Hnp.
  destruct (kill_tinv init (nextpid t) (procs t) m) as [A B]; [apply (rn_inv _ _ _ _ _ Hrun)|].
  destruct (section_ok init c k i (pushcli (ccpu k)) t (with_procs (fun _ => (kill m (procs t1)).2) t1))
    as (t' & E & H'); [done|apply inside_procs, Hin|cbn; by rewrite Hps, Hnp|cbn; by rewrite Hps|].
  rewrite E. cbn [mbind res_bind snd]. by exists t'.
Qed.

(** ** The steps of a fork *)

(** A step of process [i] outside the lock that keeps who runs. *)
Lemma quiet_ok init c k i y t t' :
  runs init c k i t -> cpus t' = <[c := cput k y]> (cpus t) -> cpu_wf y -> plock t' = plock t ->
  initproc t' = initproc t -> tinv init (nextpid t') (procs t') ->
  (forall j, st (procs t') j = RUNNING <-> st (procs t) j = RUNNING) -> minv init t'.
Proof.
  intros Hrun Hc Hy Hl Hi Ht Hr. destruct (runs_running _ _ _ _ _ Hrun) as [Ri _]. destruct Hrun as [H Hk Hctl Hp].
  apply (turn_minv init c k (cput k y) t); [done..|].
  split; cbn; [done|done|done|done| | |..].
  - rewrite Hctl. by exists i.
  - congruence.
  - intros j. rewrite Hr, Hp. destruct (decide (j = i)) as [->|]; split; [by left|done|right; split; congruence|].
    intros [[= ?]|[? ?]]; [congruence|done].
  - intros j Hj. by left.
  - left. unfold scanning. cbn. rewrite Hctl. done.
Qed.

(** One that changes the table only. *)
Lemma quiet_procs init c k i f t :
  runs init c k i t -> tinv init (nextpid t) (f (procs t)) ->
  (forall j, st (f (procs t)) j = RUNNING <-> st (procs t) j = RUNNING) -> minv init (with_procs f t).
Proof.
  intros Hrun Ht Hr. apply (quiet_ok init c k i (ccpu k) t); [done| |by eapply Hrun, Hrun|done..].
  cbn. symmetry. apply list_insert_id. rewrite (rn_cpu _ _ _ _ _ Hrun). by destruct k.
Qed.

Lemma fork_step init n n' ps i np f g :
  tinv init n ps -> st ps i = RUNNING -> child_now i np ps -> (np < length ps)%nat ->
  forking (g (look ps np)) = forking (look ps np) ->
  child_next i np f (g (look ps np)) -> pid_next n n' (look ps np) (g (look ps np)) ->
  tinv init n' (alter (set_forking f) i (alter g np ps)) /\
  (forall j, st (alter (set_forking f) i (alter g np ps)) j = RUNNING <-> st ps j = RUNNING).
Proof.
  intros H Ri Hc Hnp Hg Hn Hp. destruct (child_facts _ _ _ _ _ H Hc) as (Cl & _ & _ & _ & Ce & _).
  assert (i <> np) as Hd by (intros ->; rewrite Ri in Cl; done).
  destruct (look_in ps i) as [Hi _]; [congruence|].
  destruct (fork_frame_alter i np f g ps Hg Hi Hnp Hd) as (Ff & Ln & Lf). split.
  - apply (fork_tinv init n n' ps _ i np); [done..| | |]; [by rewrite !length_alter|by rewrite Ln, Lf|by rewrite Ln].
  - intros j. destruct (decide (j = np)) as [->|Hj]; [|by destruct (ff_same _ _ _ _ Ff j Hj) as (-> & _)].
    unfold st at 1. rewrite Ln. split; [|destruct Ce; congruence].
    destruct Hn as [(_ & E & _)|[(_ & E & _)|(_ & E & _)]]; rewrite E; done.
Qed.

Lemma allocslot_spec ps n np ps' n' :
  allocslot ps n = Some (np, ps', n') ->
  st ps np = UNUSED /\ (np < length ps)%nat /\ n' = n + 1 /\
  ps' = alter (fun p => set_pid n (set_state EMBRYO p)) np ps.
Proof.
  unfold allocslot. destruct (first _ 0 ps) as [q|] eqn:E; [|done]. intros [= <- <- <-].
  destruct (first_spec _ _ _ _ E) as (_ & p & Hp & Hu). rewrite Nat.sub_0_r in Hp.
  split_and!; [|by eapply lookup_lt_Some|done|done].
  unfold st. rewrite (look_some _ _ _ Hp). unfold in_state in Hu. by apply bool_decide_eq_true in Hu.
Qed.

Lemma nextpid_pos init n ps : tinv init n ps -> 0 < n.
Proof.
  intros H. destruct (t_init _ _ _ H) as [L _]. destruct (live_states _ L) as (U & _).
  pose proof (t_pid _ _ _ H init U). lia.
Qed.

Lemma fork_slot_ok init c k i t :
  runs init c k i t -> forking (look (procs t) i) = NoFork -> outcome init t (fork_slot word ebp c i t).
Proof.
  intros Hrun Hf. destruct (runs_running _ _ _ _ _ Hrun) as [Ri _]. unfold fork_slot.
  apply (enter init c k i); [done|]. intros t1 Hin Hps Hnp. rewrite Hps, Hnp.
  pose proof (m_table _ _ (rn_inv _ _ _ _ _ Hrun)) as Ht. pose proof (nextpid_pos _ _ _ Ht) as Hpos.
  destruct (allocslot (procs t) (nextpid t)) as [[[np ps] n']|] eqn:E.
  - destruct (allocslot_spec _ _ _ _ _ E) as (U & Hn & -> & ->).
    destruct (fork_step init (nextpid t) (nextpid t + 1) (procs t) i np (Slot np)
      (fun p => set_pid (nextpid t) (set_state EMBRYO p))) as [A B]; try done.
    + right. by rewrite Hf.
    + left. split_and!; [done|done|]. by apply (t_unused _ _ _ Ht).
    + split; [lia|]. intros _. right. cbn. lia.
    + eapply (section_ok init c k i); [done| |exact A|exact B]. destruct Hin. by split.
  - eapply (section_ok init c k i); [done|exact Hin|by rewrite Hps, Hnp|by rewrite Hps].
Qed.

Lemma fork_stack_ok init c k i np ks t :
  runs init c k i t -> forking (look (procs t) i) = Slot np -> minv init (fork_stack i np ks t).
Proof.
  intros Hrun Hf. destruct (runs_running _ _ _ _ _ Hrun) as [Ri _].
  pose proof (m_table _ _ (rn_inv _ _ _ _ _ Hrun)) as Ht.
  assert (child_of (forking (look (procs t) i)) = Some np) as Hc by by rewrite Hf.
  destruct (t_fork _ _ _ Ht _ _ Hc) as (_ & Em & Fo). rewrite Hf in Fo. destruct Fo as [Fk Fp].
  destruct (look_in (procs t) np) as [Hn _]; [congruence|].
  unfold fork_stack, allocstack. destruct (Z.eqb_spec ks 0) as [->|Hks].
  - destruct (fork_step init (nextpid t) (nextpid t) (procs t) i np NoFork
      (fun p => set_state UNUSED (set_kstack 0 p))) as [A B]; try done.
    + by left.
    + right; left. done.
    + by apply (quiet_procs init c k i).
  - destruct (fork_step init (nextpid t) (nextpid t) (procs t) i np (Stack np)
      (fun p => set_context {| at_ := Forkret; sintena := false |} (set_kstack ks p))) as [A B]; try done.
    + by left.
    + left. done.
    + split; [lia|]. intros _. left. unfold st in Em. cbn. rewrite Em. done.
    + by apply (quiet_procs init c k i).
Qed.

(** The child of a fork in progress. *)
Lemma fork_child init c k i np t :
  runs init c k i t -> child_of (forking (look (procs t) i)) = Some np ->
  st (procs t) np = EMBRYO /\ fork_ok (forking (look (procs t) i)) i (look (procs t) np) /\
  child_now i np (procs t) /\ (np < length (procs t))%nat /\
  (forall g, pid (g (look (procs t) np)) = pid (look (procs t) np) ->
     pid_next (nextpid t) (nextpid t) (look (procs t) np) (g (look (procs t) np))).
Proof.
  intros Hrun Hc. pose proof (m_table _ _ (rn_inv _ _ _ _ _ Hrun)) as Ht.
  destruct (t_fork _ _ _ Ht _ _ Hc) as (_ & Em & Fo). destruct (look_in (procs t) np) as [Hn _]; [congruence|].
  split_and!; [done|done|by left|done|]. intros g Hg. split; [lia|]. intros _. left. unfold st in Em.
  rewrite Em. done.
Qed.

Lemma fork_fill_ok init c k i np dir t :
  runs init c k i t -> forking (look (procs t) i) = Stack np -> minv init (fork_fill i np dir t).
Proof.
  intros Hrun Hf. destruct (runs_running _ _ _ _ _ Hrun) as [Ri Hi].
  pose proof (m_table _ _ (rn_inv _ _ _ _ _ Hrun)) as Ht.
  destruct (fork_child init c k i np t Hrun) as (Em & Fo & Cn & Hn & Hp); [by rewrite Hf|].
  rewrite Hf in Fo. destruct Fo as (Fk & Fp & Fc).
  unfold fork_fill. destruct (Z.eqb_spec dir 0) as [->|Hd].
  - destruct (fork_step init (nextpid t) (nextpid t) (procs t) i np NoFork
      (fun p => set_state UNUSED (set_kstack 0 (set_space 0 (psz p) p)))) as [A B]; try done.
    + right; left. done.
    + by apply (quiet_procs init c k i).
  - destruct (lookup_lt_is_Some_2 _ _ Hi) as [me Hme]. rewrite Hme.
    destruct (fork_step init (nextpid t) (nextpid t) (procs t) i np (Filled np)
      (fun p => set_tf (<[EAX := 0]> (tf me)) (set_parent (Some i) (set_space dir (psz me) p)))) as [A B]; try done.
    + left. done.
    + by apply (Hp (fun p => set_tf (<[EAX := 0]> (tf me)) (set_parent (Some i) (set_space dir (psz me) p)))).
    + by apply (quiet_procs init c k i).
Qed.

Lemma fork_run_ok init c k i np t :
  runs init c k i t -> forking (look (procs t) i) = Filled np -> outcome init t (fork_run word ebp c i np t).
Proof.
  intros Hrun Hf. destruct (runs_running _ _ _ _ _ Hrun) as [Ri Hi].
  pose proof (m_table _ _ (rn_inv _ _ _ _ _ Hrun)) as Ht.
  destruct (fork_child init c k i np t Hrun) as (Em & Fo & Cn & Hn & Hp); [by rewrite Hf|].
  rewrite Hf in Fo. destruct Fo as (Fk & Fg & Fp & Fc).
  unfold fork_run. apply (enter init c k i); [done|]. intros t1 Hin Hps Hnp.
  destruct (fork_step init (nextpid t) (nextpid t) (procs t) i np NoFork (set_state RUNNABLE)) as [A B]; try done.
  - right; right. cbn. rewrite Fc. done.
  - by apply (Hp (set_state RUNNABLE)).
  - eapply (section_ok init c k i); [done|apply inside_procs, Hin| |]; cbn; by rewrite Hps, ?Hnp.
Qed.

(** ** Exit and wait *)

Lemma exit_ok init c k i t :
  runs init c k i t -> ncli (ccpu k) = 0 -> forking (look (procs t) i) = NoFork -> i <> init ->
  outcome init t (exit word ebp c i t).
Proof.
  intros Hrun Hn Hf Hi. destruct (runs_running _ _ _ _ _ Hrun) as [Ri Hlen].
  pose proof (m_table _ _ (rn_inv _ _ _ _ _ Hrun)) as Ht. unfold exit.
  rewrite (m_init _ _ (rn_inv _ _ _ _ _ Hrun)), bool_decide_false by congruence.
  apply (enter init c k i); [done|]. intros t1 Hin Hps Hnp.
  rewrite (in_init _ _ _ _ _ _ Hin), (m_init _ _ (rn_inv _ _ _ _ _ Hrun)).
  set (x := {| at_ := AtExit; sintena := intena (pushcli (ccpu k)) |}).
  destruct (t_parent _ _ _ Ht i) as (pa & Hpa & _ & Hpd); [by rewrite Ri|done|].
  assert (exit_frame i init (procs t) (alter (set_context x) i (exit_table i (Some init) (procs t)))) as Fr
    by (apply exit_frame_intro; congruence).
  assert (length (exit_table i (Some init) (procs t)) = length (procs t)) as Hl'
    by (rewrite <- (ef_len _ _ _ _ Fr); by rewrite length_alter).
  assert (forall j, st (exit_table i (Some init) (procs t)) j = st (alter (set_context x) i (exit_table i (Some init) (procs t))) j) as Hst.
  { intros j. unfold st. rewrite look_alter by lia. by case_decide. }
  apply (away_ok init c k i (pushcli (ccpu k)) AtExit t); [apply Hrun|apply Hrun|by apply inside_procs|cbn; lia|..];
    cbn [procs with_procs nextpid]; rewrite Hps, ?Hnp.
  - apply (exit_tinv i init _ (procs t)); [done|done|by rewrite Hf|done|done].
  - lia.
  - rewrite Hst, (ef_me _ _ _ _ Fr). done.
  - intros j. rewrite Hst, (rn_proc _ _ _ _ _ Hrun). destruct (decide (j = i)) as [->|Hj].
    + rewrite (ef_me _ _ _ _ Fr). split; [done|]. by intros [_ ?].
    + destruct (ef_state _ _ _ _ Fr j Hj) as [->|[-> ->]]; (split; [|by intros [? _]]);
        intros; split; congruence.
Qed.

Lemma look_parent_in ps k j : parent (look ps k) = Some j -> ps !! k = Some (look ps k).
Proof. unfold look. by destruct (ps !! k). Qed.

Lemma wait_round_ok init c k i x t t2 :
  minv init t -> cpus t !! c = Some k -> inside c k i x t t2 -> ncli x = 1 ->
  tinv init (nextpid t2) (procs t2) -> st (procs t2) i = RUNNING -> forking (look (procs t2) i) = NoFork ->
  (forall j, st (procs t2) j = RUNNING <-> j = i \/ st (procs t) j = RUNNING /\ cproc k <> Some j) ->
  (cproc k = Some i \/ st (procs t) i <> RUNNING) ->
  exists r t', wait_round c i t2 = Ok (r, t') /\ minv init t'.
Proof.
  intros H Hk Hin Hx Ht Ri Hf Hr Hnew. destruct (look_in (procs t2) i) as [Hi Hp]; [congruence|].
  unfold wait_round. destruct (wait_scan i false 0 (procs t2)) as [q|b] eqn:E.
  - destruct (wait_scan_reap _ _ _ _ _ E) as (_ & p & Hq & Ha & Hz). rewrite Nat.sub_0_r in Hq.
    rewrite (nth_res_ok _ _ _ Hq). cbn [mbind res_bind]. pose proof (lookup_lt_Some _ _ _ Hq) as Hql.
    assert (look (procs t2) q = p) as Lq by (by apply look_some).
    destruct (return_ok init c k i x t (with_procs (alter reaped q) t2)) as (t' & E' & H'); [done|done|by apply inside_procs|..].
    + apply (reap_tinv _ _ _ i q); [done|done|by rewrite Lq|unfold st; by rewrite Lq].
    + intros j. rewrite <- Hr. unfold st. cbn [procs with_procs]. rewrite look_alter by done. case_decide as D; [|done].
      subst j. rewrite Lq, Hz. done.
    + done.
    + rewrite E'. cbn [mbind res_bind]. eauto.
  - destruct (wait_scan_kids _ _ _ _ _ E) as [Nz Kb]. rewrite (nth_res_ok _ _ _ Hp). cbn [mbind res_bind].
    destruct (negb b || killed (look (procs t2) i)) eqn:Eb.
    { destruct (return_ok init c k i x t t2) as (t' & E' & H'); [done..|]. rewrite E'. cbn [mbind res_bind]. eauto. }
    apply orb_false_iff in Eb as [Eb _]. apply negb_false_iff, Kb in Eb as [?|(m & q & Hm & Hq)]; [done|].
    set (g := fun p => set_state SLEEPING (set_chan (ProcChan i) p)).
    destruct (away_ok init c k i x AtWait t (with_procs (alter g i) t2)) as (t' & E' & H');
      [done|done|by apply inside_procs|done|..]; cbn [procs with_procs nextpid].
    + rewrite alter_twice. apply become_tinv; [done|]. unfold st in Ri. split; cbn; try done; [by rewrite Ri|by rewrite Hf|].
      intros _ _. split_and!; [done|exists m; by rewrite (look_some _ _ _ Hm)|].
      intros j Hj. unfold st. eapply Nz; [by eapply look_parent_in|done].
    + by rewrite length_alter.
    + unfold st. rewrite look_alter by done. by rewrite decide_True.
    + intros j. unfold st at 1. rewrite look_alter by done. case_decide as D.
      * subst j. split; [done|]. intros [A B]. destruct Hnew; done.
      * unfold st in Hr at 1. rewrite Hr. split; [intros [?|?]; [congruence|done]|by right].
    + rewrite E'. cbn [mbind res_bind]. eauto.
Qed.

Lemma wait_ok init c k i t :
  runs init c k i t -> ncli (ccpu k) = 0 -> forking (look (procs t) i) = NoFork ->
  outcome init t (r ← wait word ebp c i t; Ok r.2).
Proof.
  intros Hrun Hn Hf. destruct (runs_running _ _ _ _ _ Hrun) as [Ri _]. unfold wait.
  assert (forall r : ptab -> res (option Z * ptab), (q ← (t1 ← lock word ebp c t; r t1); Ok q.2) =
    (t1 ← lock word ebp c t; q ← r t1; Ok q.2)) as X by (intros r; by destruct (lock word ebp c t)).
  rewrite X. apply (enter init c k i); [done|]. intros t1 Hin Hps Hnp.
  destruct (wait_round_ok init c k i (pushcli (ccpu k)) t t1) as (r & t' & E & H').
  - apply Hrun.
  - apply Hrun.
  - done.
  - cbn. lia.
  - rewrite Hps, Hnp. apply Hrun.
  - by rewrite Hps.
  - by rewrite Hps.
  - rewrite Hps. by apply (running_same init c).
  - left. apply Hrun.
  - rewrite E. cbn [mbind res_bind snd]. eauto.
Qed.

(** ** The scheduler *)

Lemma back_in_sched_run c k i x y t t2 :
  cpus t !! c = Some k -> inside c k i x t t2 ->
  exists t3, back_in_sched c y t2 = Ok t3 /\ procs t3 = procs t2 /\ nextpid t3 = nextpid t2 /\
    inside c k i {| ncli := ncli x; intena := sintena y; fl_if := fl_if x |} t t3.
Proof.
  intros Hk Hin. unfold back_in_sched. rewrite (inside_lookup _ _ _ _ _ _ Hk Hin). cbn [mbind res_bind].
  eexists. split; [reflexivity|]. split; [done|]. split; [done|]. eapply inside_cpu; [done|]. apply Hin.
Qed.

Lemma resume_ok init c k i x t t2 :
  minv init t -> cpus t !! c = Some k -> inside c k i x t t2 -> ncli x = 1 -> cproc k = None ->
  st (procs t) i = RUNNABLE -> procs t2 = alter (set_state RUNNING) i (procs t) -> nextpid t2 = nextpid t ->
  exists t', resume c i t2 = Ok t' /\ minv init t'.
Proof.
  intros H Hk Hin Hx Hp Ri Hps Hnp. destruct (look_in (procs t) i) as [Hi _]; [congruence|].
  pose proof (m_table _ _ H) as Ht. pose proof (t_runnable _ _ _ Ht i Ri) as Hne.
  assert (look (procs t2) i = set_state RUNNING (look (procs t) i)) as L2.
  { rewrite Hps, look_alter by done. by rewrite decide_True. }
  assert (forall g, (forall p, pstate (g p) = pstate p /\ pid (g p) = pid p /\ parent (g p) = parent p /\
      kstack (g p) = kstack p /\ pgdir (g p) = pgdir p /\ forking (g p) = forking p) ->
    tinv init (nextpid t2) (alter g i (procs t2)) /\
    (forall j, st (alter g i (procs t2)) j = RUNNING <-> j = i \/ st (procs t) j = RUNNING /\ cproc k <> Some j)) as X.
  { intros g Hg. destruct (Hg (set_state RUNNING (look (procs t) i))) as (G1 & G2 & G3 & G4 & G5 & G6). split.
    - rewrite Hps, Hnp, alter_twice. apply become_tinv; [done|]. unfold st in Ri.
      split; rewrite ?G1, ?G2, ?G3, ?G4, ?G5, ?G6; cbn; try done; [by rewrite Ri|by left].
    - intros j. unfold st. rewrite Hps, alter_twice, look_alter by done. rewrite Hp. case_decide as D.
      + subst j. rewrite G1. split; [by left|done].
      + split; [by right|]. intros [?|[? _]]; congruence. }
  assert (cproc k = Some i \/ st (procs t) i <> RUNNING) as Hnew by (right; congruence).
  assert (procs t2 = alter id i (procs t2)) as Hid by (symmetry; apply list_alter_id; done).
  unfold resume. rewrite (nth_res_ok _ i (look (procs t2) i)) by (apply look_in; unfold st; by rewrite L2).
  rewrite L2. cbn [mbind res_bind set_state context]. destruct (at_ (context (look (procs t) i))) eqn:Ea.
  - destruct (X id) as [A B]; [done|]. rewrite <- Hid in A, B. by apply (return_ok init c k i x t t2).
  - destruct (back_in_sched_run c k i x (context (look (procs t) i)) t t2 Hk Hin) as (t3 & -> & P3 & N3 & I3).
    cbn [mbind res_bind]. destruct (X id) as [A B]; [done|]. rewrite <- Hid in A, B.
    eapply (return_ok init c k i); [done|done|exact I3|by rewrite P3, N3|by rewrite P3|done].
  - destruct (back_in_sched_run c k i x (context (look (procs t) i)) t t2 Hk Hin) as (t3 & -> & P3 & N3 & I3).
    cbn [mbind res_bind]. destruct (X (set_chan NoChan)) as [A B]; [done|].
    eapply (return_ok init c k i); [done|done|apply inside_procs, I3|cbn; by rewrite P3, N3|cbn; by rewrite P3|done].
  - destruct (back_in_sched_run c k i x (context (look (procs t) i)) t t2 Hk Hin) as (t3 & -> & P3 & N3 & I3).
    cbn [mbind res_bind]. destruct (X (set_chan NoChan)) as [A B]; [done|].
    assert (look (alter (set_chan NoChan) i (procs t2)) i = set_chan NoChan (look (procs t2) i)) as L3.
    { rewrite look_alter by (by rewrite Hps, length_alter). by rewrite decide_True. }
    edestruct (wait_round_ok init c k i) as (r & t' & E & H'); [done|done|apply inside_procs, I3|done|..].
    + cbn. rewrite P3, N3. exact A.
    + cbn. unfold st. rewrite P3, L3, L2. done.
    + cbn. rewrite P3, L3, L2. cbn. destruct (child_of (forking (look (procs t) i))) eqn:Ec.
      * destruct (t_fork _ _ _ Ht _ _ Ec) as ([?|[_ ?]] & _); congruence.
      * by destruct (forking (look (procs t) i)).
    + cbn. rewrite P3. exact B.
    + done.
    + rewrite E. cbn [mbind res_bind snd]. eauto.
  - done.
Qed.

Lemma no_section init c k t :
  minv init t -> cpus t !! c = Some k -> ctl k <> Run -> cproc k = None.
Proof. intros H Hk Hc. pose proof (m_run _ _ H c k Hk) as M. by destruct (ctl k). Qed.

(** A round starts with interrupts on. *)
Lemma sti_minv init c k t :
  minv init t -> cpus t !! c = Some k -> ctl k = Poll ->
  minv init (with_cpu c {| ccpu := sti (ccpu k); cproc := cproc k; ctl := Poll |} t).
Proof.
  intros H Hk Hc. pose proof (m_poll _ _ H c k Hk Hc) as Hn.
  pose proof (no_section init c k t H Hk) as Hp. rewrite Hp by congruence.
  apply (turn_minv init c k {| ccpu := sti (ccpu k); cproc := None; ctl := Poll |} t); [done..|].
  split; cbn; [done|apply H|done|split; cbn; [lia|lia]|done|done|..].
  - intros i. rewrite Hp by congruence. split; [by right|by intros [?|[? _]]].
  - done.
  - left. unfold scanning. by rewrite Hc.
Qed.

Lemma poll_ok init c k t :
  minv init t -> cpus t !! c = Some k -> ctl k = Poll -> outcome init t (scheduler word ebp c t).
Proof.
  intros H Hk Hc. pose proof (sti_minv init c k t H Hk Hc) as H0.
  pose proof (m_poll _ _ H c k Hk Hc) as Hn. pose proof (no_section init c k t H Hk) as Hp.
  pose proof (lookup_lt_Some _ _ _ Hk) as Hlen.
  unfold scheduler. rewrite (nth_res_ok _ _ _ Hk). cbn [mbind res_bind]. rewrite Hc.
  rewrite Hp in * by congruence. set (k0 := {| ccpu := sti (ccpu k); cproc := None; ctl := Poll |}) in *.
  assert (cpus (with_cpu c k0 t) !! c = Some k0) as Hk0 by (cbn; by apply list_lookup_insert_eq).
  destruct (decide (locked (plock t) = 0)) as [Hl|Hl].
  - left. destruct (lock_run c k0 (with_cpu c k0 t) Hk0 Hl) as (l & -> & L1 & L2). cbn [mbind res_bind].
    unfold set_ctl. rewrite (nth_res_ok _ c (cput k0 (pushcli (ccpu k0))))
      by (cbn; apply list_lookup_insert_eq; by rewrite length_insert).
    cbn [mbind res_bind]. eexists. split; [reflexivity|].
    apply (turn_minv init c k {| ccpu := pushcli (sti (ccpu k)); cproc := None; ctl := Scan 0 |} t); [done..|].
    split; cbn; [by rewrite !list_insert_insert_eq|apply H|done|split; cbn; [lia|done]|done|done|..].
    + intros i. rewrite Hp by congruence. split; [by right|by intros [?|[? _]]].
    + done.
    + right. unfold lock_at, scanning, held_by. rewrite Hc. cbn. split; [done|]. split_and!; [done|done|lia|done].
  - right. split; [|done]. by rewrite (lock_blocked init c k0 (with_cpu c k0 t)).
Qed.

Lemma scan_ok init c k i t :
  minv init t -> cpus t !! c = Some k -> ctl k = Scan i ->
  exists t', scheduler word ebp c t = Ok t' /\ minv init t'.
Proof.
  intros H Hk Hc. pose proof (no_section init c k t H Hk) as Hp.
  assert (scanning k = true) as Hs by (unfold scanning; by rewrite Hc).
  pose proof (m_scan _ _ H c k Hk Hs) as (Hl & Ho & Hn & Hf). pose proof (lookup_lt_Some _ _ _ Hk) as Hlen.
  unfold scheduler. rewrite (nth_res_ok _ _ _ Hk). cbn [mbind res_bind]. rewrite Hc.
  destruct (procs t !! i) as [p|] eqn:Ep.
  - unfold in_state. case_bool_decide as Hr; cbn [negb].
    + assert (look (procs t) i = p) as Lp by (by apply look_some).
      assert (st (procs t) i = RUNNABLE) as Ri by (unfold st; by rewrite Lp).
      destruct (t_mem _ _ _ (m_table _ _ H) i) as [Mk Mg]; [by rewrite Ri|]. rewrite Lp in Mk, Mg.
      unfold switchuvm. destruct (Z.eqb_spec (kstack p) 0); [done|]. destruct (Z.eqb_spec (pgdir p) 0); [done|].
      cbn [mbind res_bind]. apply (resume_ok init c k i (ccpu k) t); [done|done| |done|apply Hp; congruence|done|done|done].
      split; cbn; [done|done|done| |split; [lia|done]]. unfold lock_at. rewrite Hs. done.
    + unfold set_ctl. rewrite (nth_res_ok _ _ _ Hk). cbn [mbind res_bind]. eexists. split; [reflexivity|].
      apply (turn_minv init c k {| ccpu := ccpu k; cproc := cproc k; ctl := Scan (S i) |} t); [done..|].
      split; cbn; [done|apply H|done|by apply (m_cpu _ _ H c)|apply Hp; congruence|done|..].
      * intros j. rewrite Hp by congruence. split; [by right|by intros [?|[? _]]].
      * intros j. rewrite Hp by congruence. done.
      * right. unfold lock_at. rewrite Hs. cbn. done.
  - destruct (unlock_run c k t Hk Hl Ho) as (l & x & -> & L1 & Nx & Wx); [lia|done|]. cbn [mbind res_bind].
    unfold set_ctl. rewrite (nth_res_ok _ c (cput k x)) by (cbn; by apply list_lookup_insert_eq).
    cbn [mbind res_bind]. eexists. split; [reflexivity|].
    apply (turn_minv init c k {| ccpu := x; cproc := None; ctl := Poll |} t); [done..|].
    split; cbn; [|apply H|done|done|done|lia|..].
    + rewrite list_insert_insert_eq. rewrite Hp by congruence. done.
    + intros j. rewrite Hp by congruence. split; [by right|by intros [?|[? _]]].
    + done.
    + right. unfold lock_at. rewrite Hs. done.
Qed.

(** ** Every step *)

Definition stuck_exit (init : nat) (c : nat) (o : op) (t : ptab) (r : res ptab) : Prop :=
  o = OExit /\ (exists k, cpus t !! c = Some k /\ cproc k = Some init) /\ r = Fault (Panic "init exiting").

Lemma proc_step_ok init c k i p o t :
  runs init c k i t -> procs t !! i = Some p -> may c (ccpu k) (nextpid t) p o ->
  outcome init t (exec_proc word ebp c i o t) \/ stuck_exit init c o t (exec_proc word ebp c i o t).
Proof.
  intros Hrun Hp Hm. unfold exec_proc. rewrite (nth_res_ok _ _ _ Hp). cbn [mbind res_bind].
  assert (forking p = forking (look (procs t) i)) as Hf by (by rewrite (look_some _ _ _ Hp)).
  destruct o; cbn in Hm; [done|left..| | ].
  - left. rewrite (nth_res_ok _ _ _ (rn_cpu _ _ _ _ _ Hrun)). cbn [mbind res_bind]. eexists. split; [reflexivity|].
    apply (quiet_ok init c k i x t); [done|done|done|done|done|apply Hrun|done].
  - by apply (yield_ok init c k).
  - destruct Hm as (A & B & C). apply (sleep_ok init c k); [done|done|done|congruence].
  - by apply (wakeup_ok init c k i).
  - by apply (kill_ok init c k i).
  - destruct Hm as [A _]. rewrite A. apply (fork_slot_ok init c k); [done|congruence].
  - destruct Hm as [np A]. rewrite A. left. eexists. split; [reflexivity|].
    apply (fork_stack_ok init c k); [done|congruence].
  - destruct Hm as [np A]. rewrite A. left. eexists. split; [reflexivity|].
    apply (fork_fill_ok init c k); [done|congruence].
  - destruct Hm as [np A]. rewrite A. apply (fork_run_ok init c k); [done|congruence].
  - destruct Hm as [A B]. rewrite B. destruct (decide (i = init)) as [->|Hi].
    + right. split; [done|]. split; [exists k; split; apply Hrun|].
      unfold exit. rewrite (m_init _ _ (rn_inv _ _ _ _ _ Hrun)). by rewrite bool_decide_true.
    + left. apply (exit_ok init c k); [done|done|congruence|done].
  - destruct Hm as [A B]. rewrite B. left. apply (wait_ok init c k); [done|done|congruence].
Qed.

Lemma step_ok init c o t :
  minv init t -> enabled c o t ->
  outcome init t (exec word ebp c o t) \/ stuck_exit init c o t (exec word ebp c o t).
Proof.
  intros H (k & Hk & He). unfold exec. rewrite (nth_res_ok _ _ _ Hk). cbn [mbind res_bind].
  destruct o; [left; destruct (ctl k) eqn:Ec; [by eapply poll_ok|left; by eapply scan_ok|done]|..];
    destruct He as (Hc & i & p & Hi & Hp & Hm); rewrite Hc, Hi; by eapply proc_step_ok.
Qed.
End steps.

(** ** Boot *)

Definition first_proc (ks dir sz : Z) : proc :=
  set_state RUNNABLE (set_space dir sz (set_context {| at_ := Forkret; sintena := false |}
    (set_kstack ks (set_pid 1 (set_state EMBRYO proc0))))).

Lemma first_tinv ks dir sz :
  ks <> 0 -> dir <> 0 -> tinv 0 2 (first_proc ks dir sz :: replicate 63 proc0).
Proof.
  intros Hk Hd. set (ps := _ :: _).
  assert (forall i, look ps i = if decide (i = 0%nat) then first_proc ks dir sz else proc0) as L.
  { intros [|i]; [done|]. rewrite decide_False by done. unfold look, ps. cbn [lookup list_lookup].
    destruct (replicate 63 proc0 !! i) eqn:E; [|done]. by apply lookup_replicate_1 in E as [-> _]. }
  assert (forall i, st ps i = if decide (i = 0%nat) then RUNNABLE else UNUSED) as S.
  { intros i. unfold st. rewrite L. by case_decide. }
  split; [done|..]; intros *; rewrite ?S, ?L; repeat case_decide; subst; cbn; try done.
Qed.

(** A critical section of the boot CPU, which runs no process. *)
Lemma boot_section word ebp c k t f :
  cpus t !! c = Some k -> ncli (ccpu k) = 0 -> locked (plock t) = 0 ->
  (forall t1, procs t1 = procs t -> nextpid t1 = nextpid t -> initproc t1 = initproc t -> procs (f t1) = procs (f t) /\ nextpid (f t1) = nextpid (f t) /\ initproc (f t1) = initproc (f t) /\
     cpus (f t1) = cpus t1 /\ plock (f t1) = plock t1) ->
  exists t1 x t2, lock word ebp c t = Ok t1 /\ procs t1 = procs t /\ nextpid t1 = nextpid t /\
    unlock c (f t1) = Ok t2 /\ procs t2 = procs (f t) /\ nextpid t2 = nextpid (f t) /\
    initproc t2 = initproc (f t) /\ locked (plock t2) = 0 /\ cpus t2 = <[c := cput k x]> (cpus t) /\
    ncli x = 0 /\ cpu_wf x.
Proof.
  intros Hk Hn Hl Hf. destruct (lock_run word ebp c k t Hk Hl) as (l & E & L1 & L2).
  set (t1 := with_lock l _) in *. destruct (Hf t1 eq_refl eq_refl eq_refl) as (F1 & F2 & F3 & F4 & F5).
  pose proof (lookup_lt_Some _ _ _ Hk) as Hlen.
  destruct (unlock_run c (cput k (pushcli (ccpu k))) (f t1)) as (l' & x & E' & U1 & U2 & U3).
  - rewrite F4. unfold t1. cbn. by apply list_lookup_insert_eq.
  - by rewrite F5.
  - by rewrite F5.
  - cbn. lia.
  - done.
  - eexists t1, x, _. split; [exact E|]. split; [done|]. split; [done|]. split; [exact E'|]. cbn.
    rewrite F1, F2, F3, F4. split_and!; try done; [|cbn in U2; lia].
    unfold t1. cbn. by rewrite list_insert_insert_eq.
Qed.

Lemma boot_minv word ebp n c ks dir sz :
  (c < n)%nat -> ks <> 0 -> dir <> 0 ->
  exists t, userinit word ebp c ks dir sz (boot n) = Ok t /\ minv 0 t.
Proof.
  intros Hc Hks Hdir. set (k := {| ccpu := {| ncli := 0; intena := false; fl_if := false |}; cproc := None; ctl := Poll |}).
  assert (cpus (boot n) !! c = Some k) as Hk by (cbn; by apply lookup_replicate_2).
  destruct (boot_section word ebp c k (boot n)
    (fun t => with_nextpid 2 (with_procs (fun _ => set_pid 1 (set_state EMBRYO proc0) :: replicate 63 proc0) t)))
    as (t1 & x1 & t2 & E1 & P1 & N1 & E2 & P2 & N2 & I2 & L2 & C2 & Nx1 & Wx1); [done..|].
  unfold userinit. rewrite E1. cbn [mbind res_bind]. rewrite P1, N1.
  change (allocslot (procs (boot n)) (nextpid (boot n)))
    with (Some (0%nat, set_pid 1 (set_state EMBRYO proc0) :: replicate 63 proc0, 2)).
  cbv iota beta. rewrite E2. cbn [mbind res_bind]. rewrite P2. unfold allocstack.
  destruct (Z.eqb_spec ks 0); [done|]. cbn [negb]. destruct (Z.eqb_spec dir 0); [done|].
  set (t3 := {| procs := _; nextpid := _; initproc := _; plock := _; cpus := _ |}).
  destruct (boot_section word ebp c (cput k x1) t3 (with_procs (alter (set_state RUNNABLE) 0%nat)))
    as (t4 & x2 & t5 & E3 & P3 & N3 & E4 & P4 & N4 & I4 & L4 & C4 & Nx2 & Wx2).
  - cbn. rewrite C2. apply list_lookup_insert_eq. by eapply lookup_lt_Some.
  - done.
  - done.
  - intros t Ep En Ei. cbn. by rewrite Ep, En, Ei.
  - rewrite E3. cbn [mbind res_bind]. rewrite E4. exists t5. split; [done|].
    assert (cpus t5 = <[c := cput k x2]> (cpus (boot n))) as Cs by (rewrite C4; cbn; by rewrite C2, list_insert_insert_eq).
    assert (forall d y, cpus t5 !! d = Some y -> ctl y = Poll /\ cproc y = None /\ ncli (ccpu y) = 0 /\ cpu_wf (ccpu y)) as Hall.
    { intros d y. rewrite Cs. destruct (decide (d = c)) as [->|Hd].
      - rewrite list_lookup_insert_eq by (by eapply lookup_lt_Some). by intros [= <-].
      - rewrite list_lookup_insert_ne by done. cbn. intros [-> _]%lookup_replicate_1. by split_and!. }
    assert (procs t5 = first_proc ks dir sz :: replicate 63 proc0) as Ps by (by rewrite P4).
    assert (tinv 0 2 (procs t5)) as Ht by (rewrite Ps; by apply first_tinv).
    split.
    + rewrite N4. cbn. by rewrite N2.
    + by rewrite I4.
    + intros d y Hy. by apply Hall in Hy as (_ & _ & _ & ?).
    + intros d y Hy. by apply Hall in Hy as (-> & ? & _).
    + intros i. rewrite Ps. unfold st, look. destruct i as [|i]; [done|]. cbn [lookup list_lookup].
      destruct (replicate 63 proc0 !! i) eqn:E; [|done]. by apply lookup_replicate_1 in E as [-> _].
    + intros d d' y y' i Hy _ Ey. apply Hall in Hy as (_ & ? & _). congruence.
    + intros d y Hy. by apply Hall in Hy as (_ & _ & ? & _).
    + intros d y Hy. apply Hall in Hy as (E & _). unfold scanning. by rewrite E.
    + done.
Qed.

(** ** The results *)

Section reach.
Context (word : Z -> Z) (ebp : Z).

(** The states that the CPUs reach from [t0] in any order of their steps. *)
Inductive reach (t0 : ptab) : ptab -> Prop :=
| reach_refl : reach t0 t0
| reach_step t c o t' : reach t0 t -> enabled c o t -> exec word ebp c o t = Ok t' -> reach t0 t'.

Lemma reach_minv n c ks dir sz t0 t :
  (c < n)%nat -> ks <> 0 -> dir <> 0 -> userinit word ebp c ks dir sz (boot n) = Ok t0 -> reach t0 t -> minv 0 t.
Proof.
  intros Hc Hk Hd Hu. destruct (boot_minv word ebp n c ks dir sz Hc Hk Hd) as (t0' & E & H0).
  assert (t0' = t0) as -> by congruence. induction 1 as [|t c' o t' _ IH He Ex]; [done|].
  destruct (step_ok word ebp 0 c' o t IH He) as [[(t1 & E1 & H1)|[E1 _]]|(_ & _ & E1)]; congruence.
Qed.

(** Some CPU is in the loop of the scheduler when the lock is taken. *)
Lemma holder init t :
  minv init t -> locked (plock t) <> 0 -> exists c k, cpus t !! c = Some k /\ scanning k = true.
Proof.
  intros H Hl. destruct (decide (Exists (fun k => scanning k = true) (cpus t))) as [Hex|Hex].
  - apply Exists_exists in Hex as (k & Hin & Hs). apply list_elem_of_lookup in Hin as [c Hc]. eauto.
  - destruct Hl. apply (m_free _ _ H). intros c k Hk. destruct (scanning k) eqn:E; [|done].
    destruct Hex. apply Exists_exists. exists k. split; [by eapply list_elem_of_lookup_2|done].
Qed.

(** A CPU in the loop of the scheduler never waits. *)
Lemma scan_goes_on init c k t :
  minv init t -> cpus t !! c = Some k -> scanning k = true -> exists t', exec word ebp c OSched t = Ok t'.
Proof.
  intros H Hk Hs. unfold scanning in Hs. destruct (ctl k) as [|i|] eqn:Ec; [done| |done].
  unfold exec. rewrite (nth_res_ok _ _ _ Hk). cbn [mbind res_bind].
  destruct (scan_ok word ebp init c k i t H Hk Ec) as (t' & E & _). eauto.
Qed.


(** [wait] by a process that has a zombie child frees the slot of one. *)
Lemma wait_reaps init c k j t z :
  runs init c k j t -> locked (plock t) = 0 -> parent (look (procs t) z) = Some j -> st (procs t) z = ZOMBIE ->
  exists q t', wait word ebp c j t = Ok (Some (pid (look (procs t) q)), t') /\
    parent (look (procs t) q) = Some j /\ st (procs t) q = ZOMBIE /\ st (procs t') q = UNUSED /\
    (forall i, i <> q -> look (procs t') i = look (procs t) i).
Proof.
  intros [H Hk Hc Hp] Hl Hz Sz. destruct (lock_run word ebp c k t Hk Hl) as (l & E & L1 & L2).
  unfold wait. rewrite E. cbn [mbind res_bind]. unfold wait_round. cbn [procs with_lock with_cpu].
  destruct (wait_scan j false 0 (procs t)) as [q|b] eqn:Es.
  - destruct (wait_scan_reap _ _ _ _ _ Es) as (_ & p & Hq & Ha & Hzq). rewrite Nat.sub_0_r in Hq.
    pose proof (look_some _ _ _ Hq) as Lq. pose proof (lookup_lt_Some _ _ _ Hq) as Hql.
    rewrite (nth_res_ok _ _ _ Hq). cbn [mbind res_bind]. set (t2 := with_procs _ _).
    destruct (unlock_run c (cput k (pushcli (ccpu k))) t2) as (l' & x & -> & _); [|done|done| |done|].
    + cbn. apply list_lookup_insert_eq. by eapply lookup_lt_Some.
    + cbn. destruct (m_cpu _ _ H c k Hk). lia.
    + cbn [mbind res_bind]. exists q. eexists. rewrite Lq. split; [reflexivity|]. unfold st. rewrite Lq. cbn.
      split_and!; [done|done| |].
      * rewrite look_alter by done. by rewrite decide_True.
      * intros i Hi. rewrite look_alter by done. by rewrite decide_False.
  - destruct (wait_scan_kids _ _ _ _ _ Es) as [Nz _]. destruct (Nz z (look (procs t) z)); [by eapply look_parent_in|done|done].
Qed.

(** C32. No exited process is forgotten.  In every reachable state the parent
    of a zombie has not exited and is not asleep in [wait], and whenever the
    parent calls [wait] and finds the lock free, the call returns the pid of a
    zombie child and frees its slot, and touches no other process. *)
Theorem zombies_reaped n c ks dir sz t0 t z :
  (c < n)%nat -> ks <> 0 -> dir <> 0 -> userinit word ebp c ks dir sz (boot n) = Ok t0 -> reach t0 t ->
  st (procs t) z = ZOMBIE ->
  exists j, parent (look (procs t) z) = Some j /\ live (st (procs t) j) = true /\
    ~ (st (procs t) j = SLEEPING /\ at_ (context (look (procs t) j)) = AtWait) /\
    (forall d k, cpus t !! d = Some k -> ctl k = Run -> cproc k = Some j -> locked (plock t) = 0 ->
       exists q t', wait word ebp d j t = Ok (Some (pid (look (procs t) q)), t') /\
         parent (look (procs t) q) = Some j /\ st (procs t) q = ZOMBIE /\ st (procs t') q = UNUSED /\
         (forall i, i <> q -> look (procs t') i = look (procs t) i)).
Proof.
  intros Hc Hk Hd Hu Hr Hz. pose proof (reach_minv n c ks dir sz t0 t Hc Hk Hd Hu Hr) as H.
  pose proof (m_table _ _ H) as Ht.
  destruct (t_parent _ _ _ Ht z) as (j & Hj & Hl & Hdj); [by rewrite Hz|intros ->; destruct (t_init _ _ _ Ht) as [A _]; by rewrite Hz in A|].
  exists j. split_and!; [done|done| |].
  - intros [Hs Ha]. destruct (t_wait _ _ _ Ht j Hs Ha) as (_ & _ & N). by apply (N z).
  - intros d k Hkd Hrun Hp Hlock. by apply (wait_reaps 0 d k j t z).
Qed.
End reach.

(** ** A run *)

(** One step after the other. *)
Fixpoint exec_all (l : list (nat * op)) (t : ptab) : res ptab :=
  match l with
  | [] => Ok t
  | (c, o) :: l => t ← exec (fun _ => 0) 0 c o t; exec_all l t
  end.

(** A decidable form of [enabled]. *)
Definition mayb (c : nat) (k : cpu) (n : Z) (p : proc) (o : op) : bool :=
  match o with
  | OSched => false
  | OEnv x => (0 <=? ncli x) && implb (0 <? ncli x) (negb (fl_if x))
  | OYield => ncli k =? 0
  | OSleep _ lk => (ncli k =? 1) && holding lk (Z.of_nat c) && match forking p with NoFork => true | _ => false end
  | OWakeup _ | OKill _ => true
  | OSlot => match forking p with NoFork => n <? 2 ^ 31 - 1 | _ => false end
  | OStack _ => match forking p with Slot _ => true | _ => false end
  | OFill _ => match forking p with Stack _ => true | _ => false end
  | ORun => match forking p with Filled _ => true | _ => false end
  | OExit | OWait => (ncli k =? 0) && match forking p with NoFork => true | _ => false end
  end.

Definition enabledb (c : nat) (o : op) (t : ptab) : bool :=
  match cpus t !! c with
  | None => false
  | Some k =>
      match o, ctl k, cproc k with
      | OSched, Run, _ => false
      | OSched, _, _ => true
      | _, Run, Some i => match procs t !! i with Some p => mayb c (ccpu k) (nextpid t) p o | None => false end
      | _, _, _ => false
      end
  end.

Lemma mayb_may c k n p o : mayb c k n p o = true -> may c k n p o.
Proof.
  destruct o; cbn; try done; rewrite ?andb_true_iff, ?Z.eqb_eq, ?Z.leb_le.
  - intros [A B]. split; [done|]. intros. destruct (Z.ltb_spec 0 (ncli x)); [|lia]. by destruct (fl_if x).
  - done.
  - intros [[A B] C]. by destruct (forking p).
  - destruct (forking p); [|done..]. rewrite Z.ltb_lt. done.
  - destruct (forking p); [done|eauto|done..].
  - destruct (forking p); [done|done|eauto|done].
  - destruct (forking p); [done..|eauto].
  - intros [A B]. by destruct (forking p).
  - intros [A B]. by destruct (forking p).
Qed.

Lemma enabledb_enabled c o t : enabledb c o t = true -> enabled c o t.
Proof.
  unfold enabledb, enabled. destruct (cpus t !! c) as [k|]; [|done]. intros H. exists k. split; [done|].
  destruct o, (ctl k) as [|s|], (cproc k) as [i|]; try done;
    (destruct (procs t !! i) as [p|] eqn:E; [|done]); (split; [done|]);
    exists i, p; (split_and!; [done|done|by apply mayb_may]).
Qed.

(** Whether every step of a run is possible. *)
Fixpoint possible (l : list (nat * op)) (t : ptab) : bool :=
  match l with
  | [] => true
  | (c, o) :: l =>
      enabledb c o t && match exec (fun _ => 0) 0 c o t with Ok t => possible l t | _ => false end
  end.

Lemma exec_all_reach l t0 t1 t2 :
  reach (fun _ => 0) 0 t0 t1 -> possible l t1 = true -> exec_all l t1 = Ok t2 -> reach (fun _ => 0) 0 t0 t2.
Proof.
  revert t1. induction l as [|[c o] l IH]; intros t1 Hr; cbn [possible exec_all].
  { by intros _ [= <-]. }
  intros [He Hp]%andb_true_iff. destruct (exec _ 0 c o t1) as [t|e|f] eqn:E; [|done..]. cbn [mbind res_bind].
  intros Ha. apply (IH t); [|done|done]. eapply reach_step; [exact Hr|by apply enabledb_enabled|exact E].
Qed.

(** Two CPUs: the first process forks a child on CPU 0; the child runs on CPU 1
    and exits; its parent comes back. *)
Definition demo_ops : list (nat * op) :=
  [(0%nat, OSched); (0%nat, OSched); (0%nat, OSlot); (0%nat, OStack 8192); (0%nat, OFill 12288); (0%nat, ORun);
   (1%nat, OSched); (1%nat, OSched); (1%nat, OSched); (1%nat, OEnv {| ncli := 0; intena := false; fl_if := true |});
   (1%nat, OExit)].

Definition demo_boot : ptab :=
  match userinit (fun _ => 0) 0 0 4096 20480 4096 (boot 2) with Ok t => t | _ => boot 2 end.

Definition demo_table : ptab :=
  match exec_all demo_ops demo_boot with Ok t => t | _ => boot 2 end.

Lemma demo_booted : userinit (fun _ => 0) 0 0 4096 20480 4096 (boot 2) = Ok demo_boot.
Proof. vm_compute. reflexivity. Qed.

Lemma demo_reached : reach (fun _ => 0) 0 demo_boot demo_table.
Proof.
  apply (exec_all_reach demo_ops demo_boot demo_boot); [apply reach_refl|vm_compute; reflexivity|].
  vm_compute. reflexivity.
Qed.


Lemma zombies_reaped_witness :
  st (procs demo_table) 1 = ZOMBIE /\
  exists j, parent (look (procs demo_table) 1) = Some j /\ live (st (procs demo_table) j) = true.
Proof.
  split; [vm_compute; reflexivity|].
  destruct (zombies_reaped (fun _ => 0) 0 2 0 4096 20480 4096 demo_boot demo_table 1)
    as (j & Hj & Hl & _); [lia|lia|lia|apply demo_booted|apply demo_reached|vm_compute; reflexivity|].
  exists j. split; [exact Hj|exact Hl].
Defined.
