(* ===== verification/Kernel.v ===== *)
(** * The kernel as a process sees it: files and system call arguments

    The state of the kernel joins the parts modelled on their own: the file
    system, memory, the process table, and here the table of open files
    ([file.c]), the pipes in use ([pipe.c]), and the arguments of system calls
    ([syscall.c]).  A call of process [cur] runs to its end; where it would
    sleep, it is [Blocked].  The spin locks, which are taken and released inside
    each of these functions, are not repeated here. *)

From stdpp Require Import base list strings gmap.
From Stdlib Require Import ZArith Lia.
From S2P Require Import Prelude State KString Spinlock Kalloc Bio Log Fs Vm Pipe Proc.

Open Scope Z_scope.

Inductive ftype := FD_NONE | FD_PIPE | FD_INODE.

#[export] Instance ftype_eq : EqDecision ftype.
Proof. solve_decision. Defined.

(** [struct file]; a pipe by the address of its page, an inode by its index. *)
Record file := {
  f_type : ftype;
  f_ref : Z;
  f_readable : bool;
  f_writable : bool;
  f_pipe : Z;
  f_ip : Z;
  f_off : Z
}.

Definition NFILE : nat := 100.

Definition file0 : file :=
  {| f_type := FD_NONE; f_ref := 0; f_readable := false; f_writable := false; f_pipe := 0; f_ip := 0; f_off := 0 |}.

Definition set_fref (x : Z) (f : file) : file :=
  {| f_type := f_type f; f_ref := x; f_readable := f_readable f; f_writable := f_writable f;
     f_pipe := f_pipe f; f_ip := f_ip f; f_off := f_off f |}.
Definition set_ftype (x : ftype) (f : file) : file :=
  {| f_type := x; f_ref := f_ref f; f_readable := f_readable f; f_writable := f_writable f;
     f_pipe := f_pipe f; f_ip := f_ip f; f_off := f_off f |}.
Definition set_foff (x : Z) (f : file) : file :=
  {| f_type := f_type f; f_ref := f_ref f; f_readable := f_readable f; f_writable := f_writable f;
     f_pipe := f_pipe f; f_ip := f_ip f; f_off := x |}.

(** [files] is [ftable.file]; [pipes] the structures in the pages of pipes. *)
Record kern := {
  kfs : fs;
  kmem : kst;
  files : list file;
  pipes : gmap Z pipe;
  kprocs : list proc;
  knextpid : Z;
  kinit : option nat;
  ticks : Z
}.

Definition with_fs (k : kern) x := {| kfs := x; kmem := kmem k; files := files k; pipes := pipes k;
  kprocs := kprocs k; knextpid := knextpid k; kinit := kinit k; ticks := ticks k |}.
Definition with_mem (k : kern) x := {| kfs := kfs k; kmem := x; files := files k; pipes := pipes k;
  kprocs := kprocs k; knextpid := knextpid k; kinit := kinit k; ticks := ticks k |}.
Definition with_files (k : kern) x := {| kfs := kfs k; kmem := kmem k; files := x; pipes := pipes k;
  kprocs := kprocs k; knextpid := knextpid k; kinit := kinit k; ticks := ticks k |}.
Definition with_pipes (k : kern) x := {| kfs := kfs k; kmem := kmem k; files := files k; pipes := x;
  kprocs := kprocs k; knextpid := knextpid k; kinit := kinit k; ticks := ticks k |}.
Definition with_kprocs (k : kern) x := {| kfs := kfs k; kmem := kmem k; files := files k; pipes := pipes k;
  kprocs := x; knextpid := knextpid k; kinit := kinit k; ticks := ticks k |}.
Definition with_knextpid (k : kern) x := {| kfs := kfs k; kmem := kmem k; files := files k; pipes := pipes k;
  kprocs := kprocs k; knextpid := x; kinit := kinit k; ticks := ticks k |}.

Definition onfs {A} (m : ST fs A) : ST kern A := fun k => '(a, x) ← m (kfs k); Ok (a, with_fs k x).
Definition onmem {A} (m : ST kst A) : ST kern A := fun k => '(a, x) ← m (kmem k); Ok (a, with_mem k x).

Definition proc_at (i : nat) : ST kern proc := fun k => p ← nth_res (kprocs k) i; Ok (p, k).
Definition proc_upd (i : nat) (f : proc -> proc) : ST kern unit :=
  modify (fun k => with_kprocs k (alter f i (kprocs k))).
Definition file_at (f : nat) : ST kern file := fun k => x ← nth_res (files k) f; Ok (x, k).
Definition file_upd (f : nat) (g : file -> file) : ST kern unit :=
  modify (fun k => with_files k (alter g f (files k))).
Definition pipe_at (a : Z) : ST kern pipe := fun k =>
  match pipes k !! a with Some p => Ok (p, k) | None => Fault OutOfBounds end.
Definition pipe_set (a : Z) (p : pipe) : ST kern unit := modify (fun k => with_pipes k (<[a := p]> (pipes k))).

(** [wakeup], with the lock of the table. *)
Definition kwakeup (c : channel) : ST kern unit := modify (fun k => with_kprocs k (wakeup1 c (kprocs k))).

(** ** Memory of the running process *)

(** The kernel reads and writes user memory through the page table of the
    process.  With [CR0_WP] set (entry.S), it may not write a page that is not
    writable.  A page fault in the kernel is a panic of [trap]. *)
Definition uread (pg va : Z) : ST kern Z := fun k =>
  match mmu (word (kmem k)) pg va with
  | Some (pa, _) => Ok (byte_at (word (kmem k)) (P2V pa), k)
  | None => Fault (Panic "trap")
  end.

Definition uwrite (pg va b : Z) : ST kern unit := fun k =>
  match mmu (word (kmem k)) pg va with
  | Some (pa, f) =>
      if has f PTE_W then Ok ((), with_mem k (with_word (kmem k) (put_byte (word (kmem k)) (P2V pa) b)))
      else Fault (Panic "trap")
  | None => Fault (Panic "trap")
  end.

Fixpoint ureads (pg va : Z) (n : nat) : ST kern (list Z) :=
  match n with
  | O => mret []
  | S n => b ← uread pg va; bs ← ureads pg (u32 (va + 1)) n; mret (b :: bs)
  end.

Fixpoint uwrites (pg va : Z) (bs : list Z) : ST kern unit :=
  match bs with
  | [] => mret ()
  | b :: bs => _ ← uwrite pg va b; uwrites pg (u32 (va + 1)) bs
  end.

(** ** Arguments of system calls *)

(** [myproc()->tf->esp]. *)
Definition ESP : nat := 17.
Definition EIP : nat := 14.

Section calls.
Context (kend me ebp data : Z).
Context (dev_read : Z -> option (Z -> Z -> ST fs (option (list Z)))).
Context (dev_write : Z -> option (Z -> list Z -> ST fs (option Z))).
(** The process that makes the call. *)
Context (cur : nat).

Definition myproc : ST kern proc := proc_at cur.

(** The word at [addr] as an [int], or [None] for -1. *)
Definition fetchint (addr : Z) : ST kern (option Z) :=
  p ← myproc;
  if (psz p <=? addr) || (psz p <? u32 (addr + 4)) then mret None
  else
    bs ← ureads (pgdir p) addr 4;
    mret (Some (s32 (le_value bs))).

(** The length of the string at [addr]. *)
Fixpoint strend (n : nat) (pg s ep len : Z) : ST kern (option Z) :=
  match n with
  | O => mret None
  | S n =>
      if s <? ep then
        b ← uread pg s;
        if b =? 0 then mret (Some len) else strend n pg (u32 (s + 1)) ep (len + 1)
      else mret None
  end.

Definition fetchstr (addr : Z) : ST kern (option Z) :=
  p ← myproc;
  if psz p <=? addr then mret None
  else strend (S (Z.to_nat (psz p))) (pgdir p) addr (psz p) 0.

Definition argint (n : Z) : ST kern (option Z) :=
  p ← myproc;
  sp ← pure (nth_res (tf p) ESP);
  fetchint (u32 (sp + 4 + 4 * n)).

(** The pointer, as an address. *)
Definition argptr (n size : Z) : ST kern (option Z) :=
  p ← myproc;
  i ← argint n;
  match i with
  | None => mret None
  | Some i =>
      if (size <? 0) || (psz p <=? u32 i) || (psz p <? u32 (u32 i + size)) then mret None
      else mret (Some (u32 i))
  end.

(** The pointer and the length. *)
Definition argstr (n : Z) : ST kern (option (Z * Z)) :=
  a ← argint n;
  match a with
  | None => mret None
  | Some a =>
      l ← fetchstr (u32 a);
      mret (match l with Some l => Some (u32 a, l) | None => None end)
  end.

(** The bytes of a string argument, its nul included, as the code behind the
    pointer reads them. *)
Definition ustring (s : Z * Z) : ST kern (list Z) :=
  p ← myproc; ureads (pgdir p) s.1 (S (Z.to_nat s.2)).

(** ** Open files *)

Fixpoint first_free (i : nat) (l : list file) : option nat :=
  match l with
  | [] => None
  | f :: l => if f_ref f =? 0 then Some i else first_free (S i) l
  end.

Definition filealloc : ST kern (option nat) :=
  l ← gets files;
  match first_free 0 l with
  | Some f => _ ← file_upd f (set_fref 1); mret (Some f)
  | None => mret None
  end.

Definition filedup (f : nat) : ST kern nat :=
  x ← file_at f;
  if f_ref x <? 1 then fault (Panic "filedup")
  else _ ← file_upd f (set_fref (f_ref x + 1)); mret f.

(** [&p->nread] and [&p->nwrite], behind the lock and the data. *)
Definition pipe_chan (a : Z) (c : Pipe.chan) : channel :=
  Chan (match c with Nread => a + 52 + PIPESIZE | Nwrite => a + 56 + PIPESIZE end).

Definition kpipeclose (a : Z) (writable : bool) : ST kern unit :=
  p ← pipe_at a;
  let '(p, c, free) := Pipe.pipeclose p writable in
  _ ← pipe_set a p;
  _ ← kwakeup (pipe_chan a c);
  if free then
    _ ← modify (fun k => with_pipes k (delete a (pipes k)));
    onmem (kfree_ kend me ebp a)
  else mret ().

Definition with_pid {A} (m : Z -> ST fs A) : ST kern A := p ← myproc; onfs (m (Proc.pid p)).

(** [begin_op] and [end_op]. *)
Definition kbegin_op : ST kern unit := onfs (lift begin_op).
Definition kend_op : ST kern unit := with_pid (fun p => lift (end_op p)).
Definition kiput (ip : Z) : ST kern unit := with_pid (fun p => iput p ip).
Definition kilock (ip : Z) : ST kern unit := with_pid (fun p => ilock p ip).
Definition kiunlock (ip : Z) : ST kern unit := onfs (iunlock ip).
Definition kiunlockput (ip : Z) : ST kern unit := with_pid (fun p => iunlockput p ip).

Definition fileclose (f : nat) : ST kern unit :=
  x ← file_at f;
  if f_ref x <? 1 then fault (Panic "fileclose")
  else
    _ ← file_upd f (set_fref (f_ref x - 1));
    if 0 <? f_ref x - 1 then mret ()
    else
      _ ← file_upd f (fun y => set_ftype FD_NONE (set_fref 0 y));
      match f_type x with
      | FD_PIPE => kpipeclose (f_pipe x) (f_writable x)
      | FD_INODE =>
          _ ← kbegin_op;
          _ ← kiput (f_ip x);
          kend_op
      | FD_NONE => mret ()
      end.

(** The stores of [stati] into the structure at [st]. *)
Definition store_stat (pg st : Z) (x : stat) : ST kern unit :=
  _ ← uwrites pg (u32 (st + 4)) (le_bytes 4 (st_dev x));
  _ ← uwrites pg (u32 (st + 8)) (le_bytes 4 (st_ino x));
  _ ← uwrites pg st (le_bytes 2 (st_type x));
  _ ← uwrites pg (u32 (st + 12)) (le_bytes 2 (st_nlink x));
  uwrites pg (u32 (st + 16)) (le_bytes 4 (st_size x)).

Definition filestat (f : nat) (st : Z) : ST kern Z :=
  x ← file_at f;
  match f_type x with
  | FD_INODE =>
      p ← myproc;
      _ ← kilock (f_ip x);
      v ← onfs (stati (f_ip x));
      _ ← store_stat (pgdir p) st v;
      _ ← kiunlock (f_ip x);
      mret 0
  | _ => mret (-1)
  end.

(** [piperead] on the pipe at [a] into the memory of the process. *)
Definition kpiperead (a addr n : Z) : ST kern Z :=
  me ← myproc;
  p ← pipe_at a;
  r ← pure (piperead (killed me) p n);
  match r.2 with
  | RSleep => fault Blocked
  | RFail => mret (-1)
  | RDone bs =>
      _ ← pipe_set a r.1;
      _ ← uwrites (pgdir me) addr bs;
      _ ← kwakeup (pipe_chan a Nwrite);
      mret (zlen bs)
  end.

(** [pipewrite] of [n] bytes of the memory of the process. *)
Definition kpipewrite (a addr n : Z) : ST kern Z :=
  me ← myproc;
  bs ← ureads (pgdir me) addr (Z.to_nat n);
  p ← pipe_at a;
  r ← pure (pipewrite (killed me) p bs);
  match r.2 with
  | WSleep _ => fault Blocked
  | WFail _ => _ ← pipe_set a r.1; mret (-1)
  | WDone =>
      _ ← pipe_set a r.1;
      _ ← kwakeup (pipe_chan a Nread);
      mret n
  end.

Definition fileread (f : nat) (addr n : Z) : ST kern Z :=
  x ← file_at f;
  if negb (f_readable x) then mret (-1)
  else
    match f_type x with
    | FD_PIPE => kpiperead (f_pipe x) addr n
    | FD_INODE =>
        p ← myproc;
        _ ← kilock (f_ip x);
        r ← with_pid (fun pid => readi pid dev_read (f_ip x) (f_off x) n);
        r ← (match r with
             | None => mret (-1)
             | Some bs =>
                 _ ← uwrites (pgdir p) addr bs;
                 _ ← (if 0 <? zlen bs then file_upd f (fun y => set_foff (u32 (f_off y + zlen bs)) y) else mret ());
                 mret (zlen bs)
             end);
        _ ← kiunlock (f_ip x);
        mret r
    | FD_NONE => fault (Panic "fileread")
    end.

(** [max] of [filewrite]. *)
Definition write_max : Z := (MAXOPBLOCKS - 1 - 1 - 2) / 2 * 512.

(** The loop of [filewrite] from byte [i] on: where it stops.  Every turn that
    goes on writes at least one byte. *)
Fixpoint filewrite_loop (fuel : nat) (f : nat) (addr i n : Z) : ST kern Z :=
  match fuel with
  | O => fault OutOfFuel
  | S fuel =>
      if i <? n then
        let n1 := if write_max <? n - i then write_max else n - i in
        p ← myproc;
        _ ← kbegin_op;
        x ← file_at f;
        _ ← kilock (f_ip x);
        bs ← ureads (pgdir p) (u32 (addr + i)) (Z.to_nat n1);
        r ← with_pid (fun pid => writei pid dev_write (f_ip x) bs (f_off x) n1);
        _ ← (match r with
             | Some r => if 0 <? r then file_upd f (fun y => set_foff (u32 (f_off y + r)) y) else mret ()
             | None => mret ()
             end);
        _ ← kiunlock (f_ip x);
        _ ← kend_op;
        match r with
        | None => mret i
        | Some r =>
            if r <? 0 then mret i
            else if negb (r =? n1) then fault (Panic "short filewrite")
            else filewrite_loop fuel f addr (i + r) n
        end
      else mret i
  end.

Definition filewrite (f : nat) (addr n : Z) : ST kern Z :=
  x ← file_at f;
  if negb (f_writable x) then mret (-1)
  else
    match f_type x with
    | FD_PIPE => kpipewrite (f_pipe x) addr n
    | FD_INODE =>
        i ← filewrite_loop (S (Z.to_nat n)) f addr 0 n;
        mret (if i =? n then n else -1)
    | FD_NONE => fault (Panic "filewrite")
    end.

(** [pipealloc]: the files of the read end and of the write end. *)
Definition kpipealloc : ST kern (option (nat * nat)) :=
  f0 ← filealloc;
  match f0 with
  | None => mret None
  | Some f0 =>
      f1 ← filealloc;
      match f1 with
      | None => _ ← fileclose f0; mret None
      | Some f1 =>
          a ← onmem (kalloc_ me ebp);
          if a =? 0 then
            _ ← fileclose f0;
            _ ← fileclose f1;
            mret None
          else
            w ← gets (fun k => word (kmem k));
            _ ← pipe_set a (pipealloc (map (fun i => byte_at w (a + 52 + Z.of_nat i)) (seq 0 (Z.to_nat PIPESIZE))));
            _ ← file_upd f0 (fun y => {| f_type := FD_PIPE; f_ref := f_ref y; f_readable := true; f_writable := false;
                                          f_pipe := a; f_ip := f_ip y; f_off := f_off y |});
            _ ← file_upd f1 (fun y => {| f_type := FD_PIPE; f_ref := f_ref y; f_readable := false; f_writable := true;
                                          f_pipe := a; f_ip := f_ip y; f_off := f_off y |});
            mret (Some (f0, f1))
      end
  end.
End calls.
