(* ===== verification/Sysfile.v ===== *)
(** * System calls on files: [sysfile.c]

    Each call of process [cur] from its arguments to its result; a result of -1
    is written as in the source.  The local arrays [name] are uninitialised in
    the source: [garbage] is what they hold. *)

From stdpp Require Import base list strings gmap.
From Stdlib Require Import ZArith Lia.
From S2P Require Import Prelude State KString Spinlock Kalloc Bio Log Fs Vm Pipe Proc Kernel.

Open Scope Z_scope.

Definition O_RDONLY : Z := 0.
Definition O_WRONLY : Z := 1.
Definition O_RDWR : Z := 2.
Definition O_CREATE : Z := 0x200.

(** The strings that end in a nul. *)
Definition DOT : list Z := [46; 0].
Definition DOTDOT : list Z := [46; 46; 0].

(** The first free descriptor from [fd] on. *)
Fixpoint free_fd (fd : nat) (l : list (option nat)) : option nat :=
  match l with
  | [] => None
  | None :: _ => Some fd
  | Some _ :: l => free_fd (S fd) l
  end.

Section sysfile.
Context (kend me ebp data : Z).
Context (dev_read : Z -> option (Z -> Z -> ST fs (option (list Z)))).
Context (dev_write : Z -> option (Z -> list Z -> ST fs (option Z))).
Context (garbage : list Z).
Context (cur : nat).

Notation myproc := (myproc cur).
Notation argint := (argint cur).
Notation argptr := (argptr cur).
Notation argstr := (argstr cur).
Notation ustring := (ustring cur).
Notation fileclose := (fileclose kend me ebp cur).
Notation kend_op := (kend_op cur).
Notation kiput := (kiput cur).
Notation kilock := (kilock cur).
Notation kiunlockput := (kiunlockput cur).
Notation with_pid := (with_pid cur).

(** The descriptor and its file. *)
Definition argfd (n : Z) : ST kern (option (nat * nat)) :=
  fd ← argint n;
  match fd with
  | None => mret None
  | Some fd =>
      if (fd <? 0) || (Z.of_nat NOFILE <=? fd) then mret None
      else
        p ← myproc;
        f ← pure (nth_res (ofile p) (Z.to_nat fd));
        mret (match f with Some f => Some (Z.to_nat fd, f) | None => None end)
  end.

(** [myproc()->ofile[fd] = f] *)
Definition set_fd (fd : nat) (f : option nat) : ST kern unit :=
  proc_upd cur (fun p => set_files (<[fd := f]> (ofile p)) (cwd p) p).

Definition fdalloc (f : nat) : ST kern (option nat) :=
  p ← myproc;
  match free_fd 0 (ofile p) with
  | Some fd => _ ← set_fd fd (Some f); mret (Some fd)
  | None => mret None
  end.

Definition sys_dup : ST kern Z :=
  a ← argfd 0;
  match a with
  | None => mret (-1)
  | Some (_, f) =>
      fd ← fdalloc f;
      match fd with
      | None => mret (-1)
      | Some fd => _ ← filedup f; mret (Z.of_nat fd)
      end
  end.

(** The arguments of [sys_read] and [sys_write]: the file, the address and
    the number of bytes. *)
Definition rw_args : ST kern (option (nat * Z * Z)) :=
  a ← argfd 0;
  match a with
  | None => mret None
  | Some (_, f) =>
      n ← argint 2;
      match n with
      | None => mret None
      | Some n =>
          p ← argptr 1 n;
          mret (match p with Some p => Some (f, p, n) | None => None end)
      end
  end.

Definition sys_read : ST kern Z :=
  a ← rw_args;
  match a with
  | None => mret (-1)
  | Some (f, p, n) => fileread dev_read cur f p n
  end.

Definition sys_write : ST kern Z :=
  a ← rw_args;
  match a with
  | None => mret (-1)
  | Some (f, p, n) => filewrite dev_write cur f p n
  end.

Definition sys_close : ST kern Z :=
  a ← argfd 0;
  match a with
  | None => mret (-1)
  | Some (fd, f) =>
      _ ← set_fd fd None;
      _ ← fileclose f;
      mret 0
  end.

Definition sys_fstat : ST kern Z :=
  a ← argfd 0;
  match a with
  | None => mret (-1)
  | Some (_, f) =>
      st ← argptr 1 20;
      match st with
      | None => mret (-1)
      | Some st => filestat cur f st
      end
  end.

(** The working directory as an index; a process that makes calls has one. *)
Definition kcwd : ST kern Z :=
  p ← myproc; match cwd p with Some d => mret d | None => fault OutOfBounds end.

Definition knamei (path : list Z) : ST kern (option Z) :=
  d ← kcwd; with_pid (fun pid => namei pid dev_read d path garbage).
Definition knameiparent (path : list Z) : ST kern (option Z * list Z) :=
  d ← kcwd; with_pid (fun pid => nameiparent pid dev_read d path garbage).

Definition kinode (ip : Z) : ST kern inode := onfs (inode_at ip).
Definition kiupdate (ip : Z) : ST kern unit := with_pid (fun pid => iupdate pid ip).

(** [ip->nlink += d] *)
Definition add_nlink (ip d : Z) : ST kern unit :=
  onfs (inode_upd ip (fun i =>
    let c := i_copy i in
    with_copy i {| d_type := d_type c; d_major := d_major c; d_minor := d_minor c;
                   d_nlink := s16 (d_nlink c + d); d_fsize := d_fsize c; d_addrs := d_addrs c |})).

Definition kdirlink (dp : Z) (name : list Z) (inum : Z) : ST kern bool :=
  with_pid (fun pid => dirlink pid dev_read dev_write dp name inum).
Definition kdirlookup (dp : Z) (name : list Z) : ST kern (option (Z * Z)) :=
  with_pid (fun pid => dirlookup pid dev_read dp name).

(** [bad:] of [sys_link]. *)
Definition link_bad (ip : Z) : ST kern Z :=
  _ ← kilock ip;
  _ ← add_nlink ip (-1);
  _ ← kiupdate ip;
  _ ← kiunlockput ip;
  _ ← kend_op;
  mret (-1).

Definition sys_link : ST kern Z :=
  old ← argstr 0;
  match old with
  | None => mret (-1)
  | Some old =>
      new ← argstr 1;
      match new with
      | None => mret (-1)
      | Some new =>
          _ ← kbegin_op;
          path ← ustring old;
          ip ← knamei path;
          match ip with
          | None => _ ← kend_op; mret (-1)
          | Some ip =>
              _ ← kilock ip;
              i ← kinode ip;
              if d_type (i_copy i) =? T_DIR then
                _ ← kiunlockput ip;
                _ ← kend_op;
                mret (-1)
              else
                _ ← add_nlink ip 1;
                _ ← kiupdate ip;
                _ ← kiunlock ip;
                path ← ustring new;
                r ← knameiparent path;
                match r with
                | (None, _) => link_bad ip
                | (Some dp, name) =>
                    _ ← kilock dp;
                    d ← kinode dp;
                    i ← kinode ip;
                    ok ← (if negb (i_dev d =? i_dev i) then mret false else kdirlink dp name (i_inum i));
                    if negb ok then
                      _ ← kiunlockput dp;
                      link_bad ip
                    else
                      _ ← kiunlockput dp;
                      _ ← kiput ip;
                      _ ← kend_op;
                      mret 0
                end
          end
      end
  end.

(** From the entry at [off] on. *)
Fixpoint isdirempty_loop (fuel : nat) (dp off : Z) : ST kern bool :=
  match fuel with
  | O => fault OutOfFuel
  | S fuel =>
      i ← kinode dp;
      if u32 off <? d_fsize (i_copy i) then
        de ← with_pid (fun pid => read_dirent pid dev_read dp off "isdirempty: readi");
        if negb (de_inum de =? 0) then mret false
        else isdirempty_loop fuel dp (s32 (off + dirent_size))
      else mret true
  end.

Definition isdirempty (dp : Z) : ST kern bool :=
  i ← kinode dp;
  isdirempty_loop (S (Z.to_nat (d_fsize (i_copy i)))) dp (2 * dirent_size).

(** [bad:] of [sys_unlink]. *)
Definition unlink_bad (dp : Z) : ST kern Z :=
  _ ← kiunlockput dp;
  _ ← kend_op;
  mret (-1).

(** [sys_unlink] from the point where the entry at [off] of [dp] names [ip]. *)
Definition unlink_entry (dp ip off : Z) : ST kern Z :=
  _ ← kilock ip;
  i ← kinode ip;
  if d_nlink (i_copy i) <? 1 then fault (Panic "unlink: nlink < 1")
  else
    empty ← (if d_type (i_copy i) =? T_DIR then isdirempty ip else mret true);
    if negb empty then
      _ ← kiunlockput ip;
      unlink_bad dp
    else
      r ← with_pid (fun pid => writei pid dev_write dp (replicate (Z.to_nat dirent_size) 0) off dirent_size);
      match r with
      | Some n =>
          if negb (n =? dirent_size) then fault (Panic "unlink: writei")
          else
            i ← kinode ip;
            _ ← (if d_type (i_copy i) =? T_DIR then
                   _ ← add_nlink dp (-1);
                   kiupdate dp
                 else mret ());
            _ ← kiunlockput dp;
            _ ← add_nlink ip (-1);
            _ ← kiupdate ip;
            _ ← kiunlockput ip;
            _ ← kend_op;
            mret 0
      | None => fault (Panic "unlink: writei")
      end.

Definition sys_unlink : ST kern Z :=
  a ← argstr 0;
  match a with
  | None => mret (-1)
  | Some a =>
      _ ← kbegin_op;
      path ← ustring a;
      r ← knameiparent path;
      match r with
      | (None, _) => _ ← kend_op; mret (-1)
      | (Some dp, name) =>
          _ ← kilock dp;
          d1 ← pure (namecmp name DOT);
          d2 ← (if d1 =? 0 then mret 0 else pure (namecmp name DOTDOT));
          if (d1 =? 0) || (d2 =? 0) then unlink_bad dp
          else
            r ← kdirlookup dp name;
            match r with
            | None => unlink_bad dp
            | Some (ip, off) => unlink_entry dp ip off
            end
      end
  end.

(** [ip->major = major; ip->minor = minor; ip->nlink = 1;] *)
Definition init_inode (ip major minor : Z) : ST kern unit :=
  onfs (inode_upd ip (fun i =>
    let c := i_copy i in
    with_copy i {| d_type := d_type c; d_major := major; d_minor := minor;
                   d_nlink := 1; d_fsize := d_fsize c; d_addrs := d_addrs c |})).

(** The entries [.] and [..]. *)
Definition make_dots (ip inum parent : Z) : ST kern bool :=
  ok ← kdirlink ip DOT inum;
  if negb ok then mret false else kdirlink ip DOTDOT parent.

(** The inode, locked; [None] for the null pointer. *)
Definition create (path : list Z) (type major minor : Z) : ST kern (option Z) :=
  r ← knameiparent path;
  match r with
  | (None, _) => mret None
  | (Some dp, name) =>
      _ ← kilock dp;
      r ← kdirlookup dp name;
      match r with
      | Some (ip, _) =>
          _ ← kiunlockput dp;
          _ ← kilock ip;
          i ← kinode ip;
          if (type =? T_FILE) && (d_type (i_copy i) =? T_FILE) then mret (Some ip)
          else
            _ ← kiunlockput ip;
            mret None
      | None =>
          d ← kinode dp;
          ip ← with_pid (fun pid => ialloc pid (i_dev d) type);
          _ ← kilock ip;
          _ ← init_inode ip major minor;
          _ ← kiupdate ip;
          i ← kinode ip;
          _ ← (if type =? T_DIR then
                 _ ← add_nlink dp 1;
                 _ ← kiupdate dp;
                 ok ← make_dots ip (i_inum i) (i_inum d);
                 if negb ok then fault (Panic "create dots") else mret ()
               else mret ());
          ok ← kdirlink dp name (i_inum i);
          if negb ok then fault (Panic "create: dirlink")
          else
            _ ← kiunlockput dp;
            mret (Some ip)
      end
  end.

(** The inode that [sys_open] opens, locked; [None] when it has returned -1. *)
Definition open_inode (path : list Z) (omode : Z) : ST kern (option Z) :=
  if negb (Z.land omode O_CREATE =? 0) then
    ip ← create path T_FILE 0 0;
    match ip with
    | None => _ ← kend_op; mret None
    | Some ip => mret (Some ip)
    end
  else
    ip ← knamei path;
    match ip with
    | None => _ ← kend_op; mret None
    | Some ip =>
        _ ← kilock ip;
        i ← kinode ip;
        if (d_type (i_copy i) =? T_DIR) && negb (omode =? O_RDONLY) then
          _ ← kiunlockput ip;
          _ ← kend_op;
          mret None
        else mret (Some ip)
    end.

(** The file and the descriptor for it: [filealloc] and [fdalloc]. *)
Definition open_file : ST kern (option (nat * nat)) :=
  f ← filealloc;
  match f with
  | None => mret None
  | Some f =>
      fd ← fdalloc f;
      match fd with
      | None => _ ← fileclose f; mret None
      | Some fd => mret (Some (f, fd))
      end
  end.

Definition sys_open : ST kern Z :=
  a ← argstr 0;
  match a with
  | None => mret (-1)
  | Some a =>
      omode ← argint 1;
      match omode with
      | None => mret (-1)
      | Some omode =>
          _ ← kbegin_op;
          path ← ustring a;
          ip ← open_inode path omode;
          match ip with
          | None => mret (-1)
          | Some ip =>
              r ← open_file;
              match r with
              | None =>
                  _ ← kiunlockput ip;
                  _ ← kend_op;
                  mret (-1)
              | Some (f, fd) =>
                  _ ← kiunlock ip;
                  _ ← kend_op;
                  _ ← file_upd f (fun y => {| f_type := FD_INODE; f_ref := f_ref y;
                        f_readable := Z.land omode O_WRONLY =? 0;
                        f_writable := negb (Z.land omode O_WRONLY =? 0) || negb (Z.land omode O_RDWR =? 0);
                        f_pipe := f_pipe y; f_ip := ip; f_off := 0 |});
                  mret (Z.of_nat fd)
              end
          end
      end
  end.

(** The end of [sys_mkdir] and [sys_mknod]. *)
Definition made (ip : option Z) : ST kern Z :=
  match ip with
  | None => _ ← kend_op; mret (-1)
  | Some ip =>
      _ ← kiunlockput ip;
      _ ← kend_op;
      mret 0
  end.

Definition sys_mkdir : ST kern Z :=
  _ ← kbegin_op;
  a ← argstr 0;
  match a with
  | None => made None
  | Some a =>
      path ← ustring a;
      ip ← create path T_DIR 0 0;
      made ip
  end.

(** [major] and [minor] are passed as [short]s. *)
Definition sys_mknod : ST kern Z :=
  _ ← kbegin_op;
  a ← argstr 0;
  match a with
  | None => made None
  | Some a =>
      major ← argint 1;
      match major with
      | None => made None
      | Some major =>
          minor ← argint 2;
          match minor with
          | None => made None
          | Some minor =>
              path ← ustring a;
              ip ← create path T_DEV (s16 major) (s16 minor);
              made ip
          end
      end
  end.

Definition sys_chdir : ST kern Z :=
  _ ← kbegin_op;
  a ← argstr 0;
  match a with
  | None => _ ← kend_op; mret (-1)
  | Some a =>
      path ← ustring a;
      ip ← knamei path;
      match ip with
      | None => _ ← kend_op; mret (-1)
      | Some ip =>
          _ ← kilock ip;
          i ← kinode ip;
          if negb (d_type (i_copy i) =? T_DIR) then
            _ ← kiunlockput ip;
            _ ← kend_op;
            mret (-1)
          else
            _ ← kiunlock ip;
            d ← kcwd;
            _ ← kiput d;
            _ ← kend_op;
            _ ← proc_upd cur (fun p => set_files (ofile p) (Some ip) p);
            mret 0
      end
  end.

(** [fd[0] = fd0; fd[1] = fd1;] *)
Definition sys_pipe : ST kern Z :=
  a ← argptr 0 8;
  match a with
  | None => mret (-1)
  | Some a =>
      r ← kpipealloc kend me ebp cur;
      match r with
      | None => mret (-1)
      | Some (rf, wf) =>
          fd0 ← fdalloc rf;
          fd1 ← (match fd0 with Some _ => fdalloc wf | None => mret None end);
          match fd0, fd1 with
          | Some fd0, Some fd1 =>
              p ← myproc;
              _ ← uwrites (pgdir p) a (le_bytes 4 (Z.of_nat fd0));
              _ ← uwrites (pgdir p) (u32 (a + 4)) (le_bytes 4 (Z.of_nat fd1));
              mret 0
          | _, _ =>
              _ ← (match fd0 with Some fd0 => set_fd fd0 None | None => mret () end);
              _ ← fileclose rf;
              _ ← fileclose wf;
              mret (-1)
          end
      end
  end.
End sysfile.
