(* ===== verification/Sysproc.v ===== *)
(** * Processes and programs: the rest of [proc.c], [exec.c], [sysproc.c] and the
    dispatch of [syscall.c]

    Whole calls of process [cur] on the state of [Kernel].  The trap frame and
    the saved context, which [allocproc] places on the kernel stack, are the
    fields [tf] and [context] of the process.  [exec] gets the path and the
    arguments as the bytes behind the pointers, each with its nul. *)

From stdpp Require Import base list strings gmap.
From Stdlib Require Import ZArith Lia.
From S2P Require Import Prelude State KString Spinlock Kalloc Bio Log Fs Vm Pipe Proc Kernel Sysfile.

Open Scope Z_scope.

Definition SYS_exit : Z := 2.
Definition MAXARG : nat := 32.
Definition ELF_MAGIC : Z := 0x464C457F.
Definition ELF_PROG_LOAD : Z := 1.
Definition elfhdr_size : Z := 52.
Definition proghdr_size : Z := 32.

(** The fields of [struct elfhdr] and [struct proghdr] that are used. *)
Record elfhdr := { e_magic : Z; e_entry : Z; e_phoff : Z; e_phnum : Z }.
Record proghdr := { p_type : Z; p_off : Z; p_vaddr : Z; p_filesz : Z; p_memsz : Z }.

(** The [n] bytes at offset [o]. *)
Definition field (o n : nat) (d : list Z) : Z := le_value (take n (drop o d)).

Definition elfhdr_of (d : list Z) : elfhdr :=
  {| e_magic := field 0 4 d; e_entry := field 24 4 d; e_phoff := field 28 4 d; e_phnum := field 44 2 d |}.
Definition proghdr_of (d : list Z) : proghdr :=
  {| p_type := field 0 4 d; p_off := field 4 4 d; p_vaddr := field 8 4 d; p_filesz := field 16 4 d;
     p_memsz := field 20 4 d |}.

(** [for(last=s=path; *s; s++) if( *s == '/') last = s+1;] *)
Fixpoint last_elem (last s : list Z) : list Z :=
  match s with
  | [] => last
  | c :: s => if c =? 0 then last else last_elem (if c =? SLASH then s else last) s
  end.

(** [safestrcpy(d, s, sizeof(d))] for two strings apart. *)
Definition copy_name (d s : list Z) : res (list Z) :=
  m ← safestrcpy (d ++ s) 0 (zlen d) (zlen d); Ok (take (length d) m).

Section sysproc.
Context (kend me ebp data : Z).
Context (dev_read : Z -> option (Z -> Z -> ST fs (option (list Z)))).
Context (dev_write : Z -> option (Z -> list Z -> ST fs (option Z))).
Context (garbage : list Z).
Context (cur : nat).

Notation myproc := (myproc cur).
Notation argint := (argint cur).
Notation fileclose := (fileclose kend me ebp cur).

Definition allocproc : ST kern (option nat) :=
  k ← gets id;
  match allocslot (kprocs k) (knextpid k) with
  | None => mret None
  | Some (i, ps, n) =>
      _ ← modify (fun k => with_knextpid (with_kprocs k ps) n);
      ks ← onmem (kalloc_ me ebp);
      k ← gets id;
      let '(ok, ps) := allocstack ks i (kprocs k) in
      _ ← modify (fun k => with_kprocs k ps);
      mret (if ok then Some i else None)
  end.

(** -1 for an error, as in the source. *)
Definition growproc (n : Z) : ST kern Z :=
  p ← myproc;
  let sz := psz p in
  r ← (if 0 <? n then
         sz' ← onmem (allocuvm kend me ebp (pgdir p) sz (u32 (sz + n)));
         mret (if sz' =? 0 then None else Some sz')
       else if n <? 0 then
         sz' ← onmem (deallocuvm kend me ebp (pgdir p) sz (u32 (sz + n)));
         mret (if sz' =? 0 then None else Some sz')
       else mret (Some sz));
  match r with
  | None => mret (-1)
  | Some sz => _ ← proc_upd cur (fun p => set_space (pgdir p) sz p); mret 0
  end.

(** [val] is a pointer, which [allocxuvm] reads through. *)
Definition makex (val n : Z) : ST kern Z :=
  let val_sz := n in
  let n := s32 (PGROUNDUP n) in
  p ← myproc;
  let sz := psz p in
  r ← (if 0 <? n then
         bs ← ureads (pgdir p) val (Z.to_nat val_sz);
         sz' ← onmem (allocxuvm kend me ebp (pgdir p) sz (u32 (sz + n)) bs val_sz);
         mret (if sz' =? 0 then None else Some sz')
       else mret (Some sz));
  match r with
  | None => mret (-1)
  | Some sz => _ ← proc_upd cur (fun p => set_space (pgdir p) sz p); mret 0
  end.

(** The loop of [fork] over the descriptors from [i] on. *)
Fixpoint dup_files (np i : nat) (l : list (option nat)) : ST kern unit :=
  match l with
  | [] => mret ()
  | None :: l => dup_files np (S i) l
  | Some f :: l =>
      f ← filedup f;
      _ ← proc_upd np (fun p => set_files (<[i := Some f]> (ofile p)) (cwd p) p);
      dup_files np (S i) l
  end.

Definition fork : ST kern Z :=
  np ← allocproc;
  match np with
  | None => mret (-1)
  | Some np =>
      p ← myproc;
      d ← onmem (copyuvm kend me ebp data (pgdir p) (psz p));
      if d =? 0 then
        q ← proc_at np;
        _ ← onmem (kfree_ kend me ebp (kstack q));
        _ ← proc_upd np (fun q => set_state UNUSED (set_kstack 0 (set_space 0 (psz q) q)));
        mret (-1)
      else
        _ ← proc_upd np (fun q => set_tf (<[EAX := 0]> (tf p)) (set_parent (Some cur) (set_space d (psz p) q)));
        _ ← dup_files np 0 (ofile p);
        dir ← kcwd cur;
        dir ← onfs (idup dir);
        _ ← proc_upd np (fun q => set_files (ofile q) (Some dir) q);
        q ← proc_at np;
        name ← pure (copy_name (pname q) (pname p));
        _ ← proc_upd np (set_name name);
        _ ← proc_upd np (set_state RUNNABLE);
        mret (Proc.pid q)
  end.

(** The loop of [exit] over the [n] descriptors from [fd] on. *)
Fixpoint close_files (n fd : nat) : ST kern unit :=
  match n with
  | O => mret ()
  | S n =>
      p ← myproc;
      f ← pure (nth_res (ofile p) fd);
      _ ← (match f with
           | Some f => _ ← fileclose f; set_fd cur fd None
           | None => mret ()
           end);
      close_files n (S fd)
  end.

(** Up to the call of [sched], which does not return. *)
Definition exit : ST kern unit :=
  i ← gets kinit;
  if bool_decide (Some cur = i) then fault (Panic "init exiting")
  else
    _ ← close_files NOFILE 0;
    _ ← kbegin_op;
    d ← kcwd cur;
    _ ← kiput cur d;
    _ ← kend_op cur;
    _ ← proc_upd cur (fun p => set_files (ofile p) None p);
    modify (fun k => with_kprocs k (exit_table cur (kinit k) (kprocs k))).

(** [Blocked] when it sleeps. *)
Definition wait : ST kern Z :=
  k ← gets id;
  match wait_scan cur false 0 (kprocs k) with
  | Reap j =>
      q ← proc_at j;
      _ ← onmem (kfree_ kend me ebp (kstack q));
      _ ← onmem (freevm kend me ebp (pgdir q));
      _ ← proc_upd j reaped;
      mret (Proc.pid q)
  | Kids b =>
      p ← myproc;
      if negb b || killed p then mret (-1) else fault Blocked
  end.

(** ** [exec] *)

Definition onmachine {A} (m : ST machine A) : ST kern A := fun k =>
  '(a, x) ← m {| mfs := kfs k; mmem := kmem k |}; Ok (a, with_mem (with_fs k (mfs x)) (mmem x)).

(** [readi] of a structure of [n] bytes. *)
Definition read_struct (ip off n : Z) : ST kern (option (list Z)) :=
  r ← with_pid cur (fun pid => readi pid dev_read ip off n);
  mret (match r with Some d => if zlen d =? n then Some d else None | None => None end).

(** The loop over the program headers; the size of the image, or [None] for
    [goto bad]. *)
Fixpoint load_segments (n : nat) (pg ip off sz : Z) : ST kern (option Z) :=
  match n with
  | O => mret (Some sz)
  | S n =>
      d ← read_struct ip (u32 off) proghdr_size;
      match d with
      | None => mret None
      | Some d =>
          let ph := proghdr_of d in
          let off := s32 (off + proghdr_size) in
          if negb (p_type ph =? ELF_PROG_LOAD) then load_segments n pg ip off sz
          else if p_memsz ph <? p_filesz ph then mret None
          else if u32 (p_vaddr ph + p_memsz ph) <? p_vaddr ph then mret None
          else
            sz ← onmem (allocuvm kend me ebp pg sz (u32 (p_vaddr ph + p_memsz ph)));
            if sz =? 0 then mret None
            else if negb (p_vaddr ph mod PGSIZE =? 0) then mret None
            else
              p ← myproc;
              r ← onmachine (loaduvm me ebp (Proc.pid p) dev_read pg (p_vaddr ph) ip (p_off ph) (p_filesz ph));
              if r <? 0 then mret None else load_segments n pg ip off sz
      end
  end.

(** The loop over the arguments: the stack pointer and the addresses of the
    strings, [None] for [goto bad]. *)
Fixpoint push_args (argc : nat) (argv : list (list Z)) (pg sp : Z) (us : list Z) : ST kern (option (Z * list Z)) :=
  match argv with
  | [] => mret (Some (sp, us))
  | a :: argv =>
      if (MAXARG <=? argc)%nat then mret None
      else
        n ← pure (strlen a 0);
        let sp := Z.land (u32 (sp - (n + 1))) (Z.lnot 3) in
        r ← onmem (copyout me ebp pg sp a (n + 1));
        if r <? 0 then mret None else push_args (S argc) argv pg sp (us ++ [sp])
  end.

(** The words of [ustack] as bytes. *)
Definition word_bytes (l : list Z) : list Z := concat (map (le_bytes 4) l).

(** From the allocation of the stack on: the size of the image and the stack
    pointer. *)
Definition make_stack (pg sz : Z) (argv : list (list Z)) : ST kern (option (Z * Z)) :=
  let sz := PGROUNDUP sz in
  sz ← onmem (allocuvm kend me ebp pg sz (u32 (sz + 2 * PGSIZE)));
  if sz =? 0 then mret None
  else
    _ ← onmem (clearpteu me ebp pg (u32 (sz - 2 * PGSIZE)));
    r ← push_args 0 argv pg sz [];
    match r with
    | None => mret None
    | Some (sp, us) =>
        let argc := zlen argv in
        let ustack := [0xffffffff; argc; u32 (sp - (argc + 1) * 4)] ++ us ++ [0] in
        let sp := u32 (sp - (3 + argc + 1) * 4) in
        r ← onmem (copyout me ebp pg sp (word_bytes ustack) ((3 + argc + 1) * 4));
        mret (if r <? 0 then None else Some (sz, sp))
    end.

(** [bad:] with the directory and, while it is locked, the inode. *)
Definition exec_bad (pg : Z) (ip : option Z) : ST kern Z :=
  _ ← (if pg =? 0 then mret () else onmem (freevm kend me ebp pg));
  match ip with
  | Some ip =>
      _ ← kiunlockput cur ip;
      _ ← kend_op cur;
      mret (-1)
  | None => mret (-1)
  end.

(** The image is complete: the process gets it. *)
Definition exec_commit (pg sz sp entry : Z) (path : list Z) : ST kern Z :=
  p ← myproc;
  name ← pure (copy_name (pname p) (last_elem path path));
  _ ← proc_upd cur (set_name name);
  _ ← proc_upd cur (fun p => set_tf (<[ESP := sp]> (<[EIP := entry]> (tf p))) (set_space pg sz p));
  _ ← onmem (freevm kend me ebp (pgdir p));
  mret 0.

Definition exec (path : list Z) (argv : list (list Z)) : ST kern Z :=
  _ ← kbegin_op;
  ip ← knamei dev_read garbage cur path;
  match ip with
  | None => _ ← kend_op cur; mret (-1)
  | Some ip =>
      _ ← kilock cur ip;
      d ← read_struct ip 0 elfhdr_size;
      match d with
      | None => exec_bad 0 (Some ip)
      | Some d =>
          let elf := elfhdr_of d in
          if negb (e_magic elf =? ELF_MAGIC) then exec_bad 0 (Some ip)
          else
            pg ← onmem (setupkvm kend me ebp data);
            if pg =? 0 then exec_bad 0 (Some ip)
            else
              sz ← load_segments (Z.to_nat (e_phnum elf)) pg ip (s32 (e_phoff elf)) 0;
              match sz with
              | None => exec_bad pg (Some ip)
              | Some sz =>
                  _ ← kiunlockput cur ip;
                  _ ← kend_op cur;
                  r ← make_stack pg sz argv;
                  match r with
                  | None => exec_bad pg None
                  | Some (sz, sp) => exec_commit pg sz sp (e_entry elf) path
                  end
              end
      end
  end.

(** ** System calls *)

(** The loop of [sys_exec]: the strings of [argv] from entry [i] on. *)
Fixpoint exec_args (n : nat) (uargv i : Z) (acc : list (list Z)) : ST kern (option (list (list Z))) :=
  match n with
  | O => mret None
  | S n =>
      uarg ← fetchint cur (u32 (uargv + 4 * i));
      match uarg with
      | None => mret None
      | Some uarg =>
          if uarg =? 0 then mret (Some acc)
          else
            l ← fetchstr cur (u32 uarg);
            match l with
            | None => mret None
            | Some l =>
                a ← ustring cur (u32 uarg, l);
                exec_args n uargv (i + 1) (acc ++ [a])
            end
      end
  end.

Definition sys_exec : ST kern Z :=
  a ← argstr cur 0;
  match a with
  | None => mret (-1)
  | Some a =>
      uargv ← argint 1;
      match uargv with
      | None => mret (-1)
      | Some uargv =>
          argv ← exec_args MAXARG (u32 uargv) 0 [];
          match argv with
          | None => mret (-1)
          | Some argv =>
              path ← ustring cur a;
              exec path argv
          end
      end
  end.

Definition sys_fork : ST kern Z := fork.
Definition sys_exit : ST kern Z := _ ← exit; mret 0.
Definition sys_wait : ST kern Z := wait.

Definition sys_kill : ST kern Z :=
  n ← argint 0;
  match n with
  | None => mret (-1)
  | Some n =>
      k ← gets id;
      let r := kill n (kprocs k) in
      _ ← modify (fun k => with_kprocs k r.2);
      mret r.1
  end.

Definition sys_getpid : ST kern Z := p ← myproc; mret (Proc.pid p).

Definition sys_sbrk : ST kern Z :=
  n ← argint 0;
  match n with
  | None => mret (-1)
  | Some n =>
      p ← myproc;
      r ← growproc n;
      mret (if r <? 0 then -1 else s32 (psz p))
  end.

Definition sys_sbrkx : ST kern Z :=
  val ← argint 0;
  match val with
  | None => mret (-1)
  | Some val =>
      n ← argint 1;
      match n with
      | None => mret (-1)
      | Some n =>
          p ← myproc;
          r ← makex (u32 val) n;
          mret (if r <? 0 then -1 else s32 (psz p))
      end
  end.

(** At the first test of the loop no tick has passed; [n] is compared as an
    unsigned number. *)
Definition sys_sleep : ST kern Z :=
  n ← argint 0;
  match n with
  | None => mret (-1)
  | Some n =>
      if 0 <? u32 n then
        p ← myproc;
        if killed p then mret (-1) else fault Blocked
      else mret 0
  end.

Definition sys_uptime : ST kern Z := t ← gets ticks; mret (s32 t).

(** The table [syscalls]. *)
Definition syscalls (num : Z) : option (ST kern Z) :=
  match num with
  | 1 => Some sys_fork
  | 2 => Some sys_exit
  | 3 => Some sys_wait
  | 4 => Some (sys_pipe kend me ebp cur)
  | 5 => Some (sys_read dev_read cur)
  | 6 => Some sys_kill
  | 7 => Some sys_exec
  | 8 => Some (sys_fstat cur)
  | 9 => Some (sys_chdir dev_read garbage cur)
  | 10 => Some (sys_dup cur)
  | 11 => Some sys_getpid
  | 12 => Some sys_sbrk
  | 13 => Some sys_sleep
  | 14 => Some sys_uptime
  | 15 => Some (sys_open kend me ebp dev_read dev_write garbage cur)
  | 16 => Some (sys_write dev_write cur)
  | 17 => Some (sys_mknod dev_read dev_write garbage cur)
  | 18 => Some (sys_unlink dev_read dev_write garbage cur)
  | 19 => Some (sys_link dev_read dev_write garbage cur)
  | 20 => Some (sys_mkdir dev_read dev_write garbage cur)
  | 21 => Some (sys_close kend me ebp cur)
  | 22 => Some sys_sbrkx
  | _ => None
  end.

(** The message about an unknown number is not modelled.  [exit] does not come
    back: nothing is stored for it. *)
Definition syscall : ST kern unit :=
  p ← myproc;
  num ← pure (nth_res (tf p) EAX);
  match syscalls (s32 num) with
  | Some f =>
      r ← f;
      if s32 num =? SYS_exit then mret ()
      else proc_upd cur (fun p => set_tf (<[EAX := u32 r]> (tf p)) p)
  | None => proc_upd cur (fun p => set_tf (<[EAX := 0xffffffff]> (tf p)) p)
  end.

(** The trap frame [userinit] makes. *)
Definition init_tf : list Z :=
  <[EIP := 0]> (<[ESP := PGSIZE]> (<[16%nat := 0x200]> (<[18%nat := 35]> (<[10%nat := 35]> (<[11%nat := 35]>
    (<[15%nat := 27]> (replicate TFWORDS 0))))))).

(** The program [initcode] is what the linker puts at [_binary_initcode_start];
    no memory for the process is a null pointer. *)
Definition userinit (initcode : list Z) : ST kern unit :=
  i ← allocproc;
  match i with
  | None => fault OutOfBounds
  | Some i =>
      _ ← modify (fun k => {| kfs := kfs k; kmem := kmem k; files := files k; pipes := pipes k;
                              kprocs := kprocs k; knextpid := knextpid k; kinit := Some i; ticks := ticks k |});
      pg ← onmem (setupkvm kend me ebp data);
      if pg =? 0 then fault (Panic "userinit: out of memory?")
      else
        _ ← onmem (inituvm me ebp pg initcode (zlen initcode));
        p ← proc_at i;
        name ← pure (copy_name (pname p) [105; 110; 105; 116; 99; 111; 100; 101; 0]);
        _ ← proc_upd i (fun p => set_name name (set_tf init_tf (set_space pg PGSIZE p)));
        dir ← onfs (namei (Proc.pid p) dev_read 0 [SLASH; 0] garbage);
        _ ← proc_upd i (fun p => set_files (ofile p) dir p);
        proc_upd i (set_state RUNNABLE)
  end.
End sysproc.
