(* ===== verification/FileProofs.v ===== *)
(** * Open files are counted

    [files_ok D F]: the reference count of every open file is the number of
    references to it in [D]; a file that is referred to is open unless it is in
    [F], the files being opened; and the files of the two ends of a pipe and the
    pipe agree.  Every operation of [file.c] keeps this. *)

From stdpp Require Import base list strings gmap.
From Stdlib Require Import ZArith Lia.
From S2P Require Import Prelude State KString Spinlock Kalloc Bio Log Fs Vm Pipe Proc Kernel.

Open Scope Z_scope.

Definition cnt (f : nat) (D : list nat) : Z := Z.of_nat (count_occ Nat.eq_dec D f).

(** The end of the pipe [p] that a file with [writable] holds is open. *)
Definition end_open (writable : bool) (p : pipe) : bool := if writable then writeopen p else readopen p.

Record files_ok (D F : list nat) (l : list file) (pp : gmap Z pipe) : Prop := {
  fo_ref f x : l !! f = Some x -> f_ref x = cnt f D;
  fo_bound f : f ∈ D -> (f < length l)%nat;
  fo_none f x : l !! f = Some x -> f_ref x = 0 -> f_type x = FD_NONE;
  fo_fresh f x : f ∈ F -> l !! f = Some x -> f_type x = FD_NONE;
  fo_open f x : f ∈ D -> f ∉ F -> l !! f = Some x -> f_type x <> FD_NONE;
  fo_pipe f x : l !! f = Some x -> f_type x = FD_PIPE ->
    exists p, pp !! f_pipe x = Some p /\ end_open (f_writable x) p = true;
  fo_ends f g x y : l !! f = Some x -> l !! g = Some y -> f_type x = FD_PIPE -> f_type y = FD_PIPE ->
    f_pipe x = f_pipe y -> f_writable x = f_writable y -> f = g;
  fo_held a p w : pp !! a = Some p -> end_open w p = true ->
    exists f x, l !! f = Some x /\ f_type x = FD_PIPE /\ f_pipe x = a /\ f_writable x = w;
  fo_live a p : pp !! a = Some p -> readopen p = true \/ writeopen p = true
}.

(** ** Counting *)

Lemma cnt_pos f D : f ∈ D <-> 0 < cnt f D.
Proof.
  unfold cnt. rewrite list_elem_of_In. rewrite (count_occ_In Nat.eq_dec). lia.
Qed.

Lemma cnt_nonneg f D : 0 <= cnt f D.
Proof. unfold cnt. lia. Qed.

Lemma cnt_cons f g D : cnt f (g :: D) = (if decide (f = g) then 1 else 0) + cnt f D.
Proof. unfold cnt. cbn. destruct (Nat.eq_dec g f), (decide (f = g)); subst; try done; lia. Qed.

Lemma cnt_perm f D D' : D ≡ₚ D' -> cnt f D = cnt f D'.
Proof. intros H. unfold cnt. by rewrite (proj1 (Permutation_count_occ Nat.eq_dec D D') H). Qed.

Lemma files_ok_perm D D' F l pp : D ≡ₚ D' -> files_ok D F l pp -> files_ok D' F l pp.
Proof.
  intros Hp []. split; try done.
  - intros f x Hx. rewrite <- (cnt_perm f D D' Hp). auto.
  - intros f. rewrite <- Hp. auto.
  - intros f x. rewrite <- Hp. eauto.
Qed.

Lemma files_ok_unfresh D F l pp f : f ∉ D -> files_ok D (f :: F) l pp -> files_ok D F l pp.
Proof.
  intros Hf []. split; try done.
  - intros g x Hg. apply fo_fresh0. by right.
  - intros g x Hg Hn. apply fo_open0; [done|]. intros [->|?]%elem_of_cons; done.
Qed.

(** ** Changing one file *)

Lemma alter_lookup {A} (g : A -> A) (f i : nat) (l : list A) x :
  l !! f = Some x -> alter g f l !! i = if decide (i = f) then Some (g x) else l !! i.
Proof.
  intros Hx. case_decide as E; [subst i; rewrite list_lookup_alter_eq, Hx; done|].
  by rewrite list_lookup_alter_ne.
Qed.

(** A change of the reference count only. *)
Lemma files_ok_count D D' F F' l pp f x r :
  files_ok D F l pp -> l !! f = Some x -> r = cnt f D' -> (forall g, g <> f -> cnt g D' = cnt g D) ->
  (r = 0 -> f_type x = FD_NONE) ->
  (forall g y, g ∈ F' -> l !! g = Some y -> f_type y = FD_NONE) ->
  (f ∈ D' -> f ∉ F' -> f_type x <> FD_NONE) -> (forall g, g <> f -> g ∈ F -> g ∈ F') ->
  files_ok D' F' (alter (set_fref r) f l) pp.
Proof.
  intros H Hx Hr Hc Hz Hf Ho HF. pose proof (fun i => alter_lookup (set_fref r) f i l x Hx) as L. destruct H.
  assert (forall i y, alter (set_fref r) f l !! i = Some y -> exists z, l !! i = Some z /\ f_type y = f_type z /\
    f_pipe y = f_pipe z /\ f_writable y = f_writable z) as Back.
  { intros i y. rewrite L. case_decide as E; [intros [= <-]; subst; eauto|eauto]. }
  split.
  - intros g y. rewrite L. case_decide as E; [intros [= <-]; subst; done|]. intros Hy. rewrite Hc by done. eauto.
  - intros g Hg. rewrite length_alter. destruct (decide (g = f)) as [->|E]; [by eapply lookup_lt_Some|].
    apply fo_bound0. apply cnt_pos. rewrite <- Hc by done. by apply cnt_pos.
  - intros g y. rewrite L. case_decide as E; [intros [= <-]; subst; done|]. eauto.
  - intros g y Hg Hy. destruct (Back g y Hy) as (z & Hz' & -> & _). eauto.
  - intros g y Hg Hn Hy. rewrite L in Hy. case_decide as E; [subst; injection Hy as <-; cbn; auto|].
    apply (fo_open0 g y); [|auto|done]. apply cnt_pos. rewrite <- Hc by done. by apply cnt_pos.
  - intros g y Hy Ht. destruct (Back g y Hy) as (z & Hz' & E1 & -> & ->). rewrite E1 in Ht. eauto.
  - intros g h y z Hy Hz' Ty Tz. destruct (Back g y Hy) as (y' & Hy' & E1 & -> & ->).
    destruct (Back h z Hz') as (z' & Hz'' & E2 & -> & ->). rewrite E1 in Ty. rewrite E2 in Tz. eauto.
  - intros a p w Ha Hp. destruct (fo_held0 a p w Ha Hp) as (g & y & Hy & Ty & Py & Wy).
    exists g. rewrite L. case_decide as E; [|eauto]. subst g. eexists. split; [reflexivity|].
    assert (y = x) as -> by congruence. done.
  - done.
Qed.

Lemma files_ok_alloc D F l pp f x :
  files_ok D F l pp -> l !! f = Some x -> f_ref x = 0 ->
  files_ok (f :: D) (f :: F) (alter (set_fref 1) f l) pp.
Proof.
  intros H Hx H0. pose proof (fo_ref _ _ _ _ H f x Hx) as Hc. pose proof (fo_none _ _ _ _ H f x Hx H0) as Hn.
  apply (files_ok_count D _ F _ l pp f x); [done|done| | |lia| | |].
  - rewrite cnt_cons, decide_True by done. lia.
  - intros g Hg. rewrite cnt_cons, decide_False by done. lia.
  - intros g y [->|Hg]%elem_of_cons Hy; [congruence|]. by apply (fo_fresh _ _ _ _ H g).
  - intros _ Hf. destruct Hf. by left.
  - intros g _ Hg. by right.
Qed.

Lemma files_ok_dup D F l pp f x :
  files_ok D F l pp -> l !! f = Some x -> f ∈ D ->
  files_ok (f :: D) F (alter (set_fref (f_ref x + 1)) f l) pp.
Proof.
  intros H Hx Hf. pose proof (fo_ref _ _ _ _ H f x Hx) as Hc. pose proof (proj1 (cnt_pos f D) Hf) as Hp.
  apply (files_ok_count D _ F _ l pp f x); [done|done| | |lia| | |done].
  - rewrite cnt_cons, decide_True by done. lia.
  - intros g Hg. rewrite cnt_cons, decide_False by done. lia.
  - intros g y Hg Hy. by apply (fo_fresh _ _ _ _ H g).
  - intros _ Hn. by apply (fo_open _ _ _ _ H f).
Qed.

Lemma files_ok_drop D F l pp f x :
  files_ok (f :: D) F l pp -> l !! f = Some x -> 0 < f_ref x - 1 ->
  files_ok D F (alter (set_fref (f_ref x - 1)) f l) pp.
Proof.
  intros H Hx Hr. pose proof (fo_ref _ _ _ _ H f x Hx) as Hc. rewrite cnt_cons, decide_True in Hc by done.
  apply (files_ok_count (f :: D) _ F _ l pp f x); [done|done|lia| |lia| | |done].
  - intros g Hg. rewrite cnt_cons, decide_False by done. lia.
  - intros g y Hg Hy. by apply (fo_fresh _ _ _ _ H g).
  - intros Hf Hn. apply (fo_open _ _ _ _ H f); [by left|done|done].
Qed.

(** The file [x] becomes [y], with the same count. *)
Record closed (x y : file) : Prop := { cl_ref : f_ref y = 0; cl_type : f_type y = FD_NONE }.

(** The last reference to a file that is not a pipe goes. *)
Lemma files_ok_close D F l pp f x g :
  files_ok (f :: D) F l pp -> l !! f = Some x -> f_ref x - 1 <= 0 -> f_type x <> FD_PIPE -> closed x (g x) ->
  files_ok D F (alter g f l) pp.
Proof.
  intros H Hx Hr Ht [Gr Gt]. pose proof (fun i => alter_lookup g f i l x Hx) as L.
  pose proof (fo_ref _ _ _ _ H f x Hx) as Hc. rewrite cnt_cons, decide_True in Hc by done.
  pose proof (cnt_nonneg f D) as Hn. assert (cnt f D = 0) as Hz by lia.
  assert (forall i, i ∈ D -> i <> f) as Hd by (intros i Hi ->; apply cnt_pos in Hi; lia). destruct H. split.
  - intros i y. rewrite L. case_decide as E; [intros [= <-]; subst; lia|]. intros Hy.
    rewrite (fo_ref0 i y Hy), cnt_cons, decide_False by done. lia.
  - intros i Hi. rewrite length_alter. apply fo_bound0. by right.
  - intros i y. rewrite L. case_decide as E; [by intros [= <-]|eauto].
  - intros i y Hi. rewrite L. case_decide as E; [by intros [= <-]|eauto].
  - intros i y Hi Hf. rewrite L. rewrite decide_False by auto. intros Hy. apply (fo_open0 i); [by right|done|done].
  - intros i y. rewrite L. case_decide as E; [intros [= <-]; congruence|eauto].
  - intros i j y z. rewrite !L. repeat case_decide; try (intros [= <-]; congruence); [intros _ [= <-]; congruence|eauto].
  - intros a p w Ha Hp. destruct (fo_held0 a p w Ha Hp) as (i & y & Hy & Ty & Py). exists i, y. rewrite L.
    rewrite decide_False; [done|]. intros ->. congruence.
  - done.
Qed.

(** A pipe after [pipeclose]. *)
Lemma pipeclose_ends p w p' c b :
  Pipe.pipeclose p w = (p', c, b) ->
  end_open w p' = false /\ end_open (negb w) p' = end_open (negb w) p /\
  b = negb (readopen p') && negb (writeopen p').
Proof. unfold Pipe.pipeclose. intros [= <- <- <-]. by destruct w. Qed.

(** The last reference to an end of a pipe goes; the pipe goes with the other end. *)
Lemma files_ok_close_pipe D F l pp f x g p p' c b :
  files_ok (f :: D) F l pp -> l !! f = Some x -> f_ref x - 1 <= 0 -> f_type x = FD_PIPE -> closed x (g x) ->
  pp !! f_pipe x = Some p -> Pipe.pipeclose p (f_writable x) = (p', c, b) ->
  files_ok D F (alter g f l) (if b then delete (f_pipe x) pp else <[f_pipe x := p']> pp).
Proof.
  intros H Hx Hr Ht [Gr Gt] Hp Hc. destruct (pipeclose_ends _ _ _ _ _ Hc) as (E1 & E2 & ->).
  pose proof (fun i => alter_lookup g f i l x Hx) as L.
  pose proof (fo_ref _ _ _ _ H f x Hx) as Hcn. rewrite cnt_cons, decide_True in Hcn by done.
  pose proof (cnt_nonneg f D) as Hn. assert (cnt f D = 0) as Hz by lia.
  assert (forall i, i ∈ D -> i <> f) as Hd by (intros i Hi ->; apply cnt_pos in Hi; lia).
  set (pp' := if negb (readopen p') && negb (writeopen p') then delete (f_pipe x) pp else <[f_pipe x := p']> pp).
  assert (forall a q, pp' !! a = Some q -> a = f_pipe x /\ q = p' /\ end_open (negb (f_writable x)) p' = true \/
            a <> f_pipe x /\ pp !! a = Some q) as P1.
  { intros a q. unfold pp'. destruct (negb (readopen p') && negb (writeopen p')) eqn:Eb.
    - rewrite lookup_delete. case_decide; [done|]. by right.
    - rewrite lookup_insert. case_decide; [|by right]. intros [= <-]. left. subst a. split_and!; [done..|].
      destruct (f_writable x); cbn in *; destruct (readopen p'), (writeopen p'); done. }
  assert (forall y i, l !! i = Some y -> i <> f -> f_type y = FD_PIPE -> f_pipe y = f_pipe x ->
            f_writable y = negb (f_writable x) /\ end_open (negb (f_writable x)) p' = true) as P2.
  { intros y i Hy Hi Ty Py. assert (f_writable y = negb (f_writable x)) as Ew.
    { destruct (bool_decide_reflect (f_writable y = f_writable x)) as [Ew|Ew]; [|by destruct (f_writable x), (f_writable y)].
      destruct Hi. by apply (fo_ends _ _ _ _ H i f y x). }
    split; [done|]. rewrite E2, <- Ew. destruct (fo_pipe _ _ _ _ H i y Hy Ty) as (q & Hq & Eq). congruence. }
  destruct H. split.
  - intros i y. rewrite L. case_decide as E; [intros [= <-]; subst; lia|]. intros Hy.
    rewrite (fo_ref0 i y Hy), cnt_cons, decide_False by done. lia.
  - intros i Hi. rewrite length_alter. apply fo_bound0. by right.
  - intros i y. rewrite L. case_decide as E; [by intros [= <-]|eauto].
  - intros i y Hi. rewrite L. case_decide as E; [by intros [= <-]|eauto].
  - intros i y Hi Hf. rewrite L. rewrite decide_False by auto. intros Hy. apply (fo_open0 i); [by right|done|done].
  - intros i y. rewrite L. case_decide as E; [intros [= <-]; congruence|]. intros Hy Ty.
    destruct (decide (f_pipe y = f_pipe x)) as [Ep|Ep].
    + destruct (P2 y i Hy E Ty Ep) as [Ew Eo]. exists p'. rewrite Ep, Ew. split; [|done]. unfold pp'.
      replace (negb (readopen p') && negb (writeopen p')) with false; [by rewrite lookup_insert_eq|].
      destruct (f_writable x); cbn in Eo; rewrite Eo; [done|by rewrite andb_false_r].
    + destruct (fo_pipe0 i y Hy Ty) as (q & Hq & Eq). exists q. split; [|done]. unfold pp'.
      destruct (negb (readopen p') && negb (writeopen p')); [by rewrite lookup_delete_ne|by rewrite lookup_insert_ne].
  - intros i j y z. rewrite !L. repeat case_decide; try (intros [= <-]; congruence); [intros _ [= <-]; congruence|eauto].
  - intros a q w Ha Hq. assert (exists i y, l !! i = Some y /\ f_type y = FD_PIPE /\ f_pipe y = a /\ f_writable y = w /\ i <> f)
      as (i & y & Hy & Ty & Py & Wy & Ei).
    { destruct (P1 a q Ha) as [(-> & -> & _)|[Na Ha']].
      - assert (w = negb (f_writable x)) as -> by (destruct w, (f_writable x); cbn in *; congruence).
        rewrite E2 in Hq. destruct (fo_held0 _ _ _ Hp Hq) as (i & y & Hy & Ty & Py & Wy). exists i, y. split_and!; try done.
        intros ->. assert (y = x) as -> by congruence. by destruct (f_writable x).
      - destruct (fo_held0 a q w Ha' Hq) as (i & y & Hy & Ty & Py & Wy). exists i, y. split_and!; try done.
        intros ->. congruence. }
    exists i, y. rewrite L, decide_False by done. done.
  - intros a q Ha. destruct (P1 a q Ha) as [(-> & -> & Eo)|[_ Ha']]; [|eauto].
    destruct (f_writable x); cbn in Eo; auto.
Qed.

(** A file being opened gets an inode. *)
Lemma files_ok_inode D F l pp f x g :
  files_ok D (f :: F) l pp -> f ∉ F -> l !! f = Some x -> 0 < f_ref x ->
  f_type (g x) = FD_INODE -> f_ref (g x) = f_ref x -> files_ok D F (alter g f l) pp.
Proof.
  intros H Hf Hx Hr Gt Gr. pose proof (fun i => alter_lookup g f i l x Hx) as L.
  assert (f_type x = FD_NONE) as Tx by (apply (fo_fresh _ _ _ _ H f); [by left|done]).
  destruct H. split.
  - intros i y. rewrite L. case_decide as E; [intros [= <-]; subst; rewrite Gr; eauto|eauto].
  - intros i Hi. rewrite length_alter. auto.
  - intros i y. rewrite L. case_decide as E; [intros [= <-]; lia|eauto].
  - intros i y Hi. rewrite L. case_decide as E; [congruence|]. apply fo_fresh0. by right.
  - intros i y Hi Hn. rewrite L. case_decide as E; [intros [= <-]; congruence|]. apply fo_open0; [done|].
    intros [?|?]%elem_of_cons; done.
  - intros i y. rewrite L. case_decide as E; [intros [= <-]; congruence|eauto].
  - intros i j y z. rewrite !L. repeat case_decide; try (intros [= <-]; congruence); [intros _ [= <-]; congruence|eauto].
  - intros a p w Ha Hp. destruct (fo_held0 a p w Ha Hp) as (i & y & Hy & Ty & Py). exists i, y. rewrite L.
    rewrite decide_False; [done|]. intros ->. congruence.
  - done.
Qed.

(** Two files being opened become the ends of a new pipe. *)
Lemma files_ok_pipe D F l pp f0 f1 x0 x1 g0 g1 a p :
  files_ok D (f1 :: f0 :: F) l pp -> f0 ∉ F -> f1 ∉ F -> f0 <> f1 -> l !! f0 = Some x0 -> l !! f1 = Some x1 ->
  0 < f_ref x0 -> 0 < f_ref x1 -> pp !! a = None -> readopen p = true -> writeopen p = true ->
  f_type (g0 x0) = FD_PIPE /\ f_ref (g0 x0) = f_ref x0 /\ f_writable (g0 x0) = false /\ f_pipe (g0 x0) = a ->
  f_type (g1 x1) = FD_PIPE /\ f_ref (g1 x1) = f_ref x1 /\ f_writable (g1 x1) = true /\ f_pipe (g1 x1) = a ->
  files_ok D F (alter g1 f1 (alter g0 f0 l)) (<[a := p]> pp).
Proof.
  intros H N0 N1 Hd H0 H1 R0 R1 Ha Hro Hwo (T0 & C0 & W0 & P0) (T1 & C1 & W1 & P1).
  assert (forall i, alter g1 f1 (alter g0 f0 l) !! i =
    if decide (i = f1) then Some (g1 x1) else if decide (i = f0) then Some (g0 x0) else l !! i) as L.
  { intros i. rewrite (alter_lookup g1 f1 i _ x1) by (by rewrite list_lookup_alter_ne).
    case_decide; [done|]. by apply alter_lookup. }
  assert (forall i y, l !! i = Some y -> f_type y = FD_PIPE -> f_pipe y <> a) as Na.
  { intros i y Hy Ty Ea. destruct (fo_pipe _ _ _ _ H i y Hy Ty) as (q & Hq & _). congruence. }
  assert (f_type x0 = FD_NONE) as X0 by (apply (fo_fresh _ _ _ _ H f0); [by right; left|done]).
  assert (f_type x1 = FD_NONE) as X1 by (apply (fo_fresh _ _ _ _ H f1); [by left|done]).
  destruct H. split.
  - intros i y. rewrite L. repeat case_decide; [intros [= <-]; subst; rewrite C1; eauto|intros [= <-]; subst; rewrite C0; eauto|eauto].
  - intros i Hi. rewrite !length_alter. auto.
  - intros i y. rewrite L. repeat case_decide; [intros [= <-]; lia|intros [= <-]; lia|eauto].
  - intros i y Hi. rewrite L. repeat case_decide; [congruence..|]. apply fo_fresh0. by do 2 right.
  - intros i y Hi Hn. rewrite L. repeat case_decide; [intros [= <-]; congruence..|]. apply fo_open0; [done|].
    intros [?|[?|?]%elem_of_cons]%elem_of_cons; done.
  - intros i y. rewrite L. repeat case_decide.
    + intros [= <-] _. exists p. rewrite P1, W1, lookup_insert_eq. done.
    + intros [= <-] _. exists p. rewrite P0, W0, lookup_insert_eq. done.
    + intros Hy Ty. destruct (fo_pipe0 i y Hy Ty) as (q & Hq & Eq). exists q.
      rewrite lookup_insert_ne; [done|]. intros E. by apply (Na i y).
  - intros i j y z Hi Hj Ty Tz Ep Ew. rewrite L in Hi, Hj.
    destruct (decide (i = f1)) as [->|]; [injection Hi as <-|destruct (decide (i = f0)) as [->|]; [injection Hi as <-|]];
      (destruct (decide (j = f1)) as [->|]; [injection Hj as <-|destruct (decide (j = f0)) as [->|]; [injection Hj as <-|]]);
      try done; try congruence.
    + destruct (Na j z Hj Tz). congruence.
    + destruct (Na j z Hj Tz). congruence.
    + destruct (Na i y Hi Ty). congruence.
    + destruct (Na i y Hi Ty). congruence.
    + eauto.
  - intros b q w. rewrite lookup_insert. case_decide as E.
    + intros [= <-] _. destruct w; [exists f1, (g1 x1)|exists f0, (g0 x0)]; rewrite L.
      * rewrite decide_True by done. split_and!; congruence.
      * rewrite decide_False, decide_True by done. split_and!; congruence.
    + intros Hb Hq. destruct (fo_held0 b q w Hb Hq) as (i & y & Hy & Ty & Py). exists i, y. rewrite L.
      rewrite !decide_False; [done|intros ->; congruence..].
  - intros b q. rewrite lookup_insert. case_decide; [intros [= <-]; auto|eauto].
Qed.

(** The bytes in a pipe change. *)
Lemma files_ok_flow D F l pp a p p' :
  files_ok D F l pp -> pp !! a = Some p -> readopen p' = readopen p -> writeopen p' = writeopen p ->
  files_ok D F l (<[a := p']> pp).
Proof.
  intros H Ha Hr Hw. assert (forall w, end_open w p' = end_open w p) as He by (by intros []).
  destruct H. split; try done.
  - intros f x Hx Tx. destruct (fo_pipe0 f x Hx Tx) as (q & Hq & Eq). rewrite lookup_insert. case_decide as E; [|eauto].
    exists p'. split; [done|]. rewrite He. congruence.
  - intros b q w. rewrite lookup_insert. case_decide as E; [intros [= <-]; subst b; rewrite He; eauto|eauto].
  - intros b q. rewrite lookup_insert. case_decide as E; [intros [= <-]; subst b; rewrite Hr, Hw; eauto|eauto].
Qed.

(** The offset of a file changes. *)
Lemma files_ok_off D F l pp f g :
  files_ok D F l pp -> (forall x, f_type (g x) = f_type x /\ f_ref (g x) = f_ref x /\ f_pipe (g x) = f_pipe x /\
    f_writable (g x) = f_writable x) ->
  files_ok D F (alter g f l) pp.
Proof.
  intros H Hg. destruct (l !! f) as [x|] eqn:Hx; cycle 1.
  { replace (alter g f l) with l; [done|]. apply list_eq. intros i. rewrite list_lookup_alter.
    case_decide; [subst; by rewrite Hx|done]. }
  pose proof (fun i => alter_lookup g f i l x Hx) as L. destruct (Hg x) as (G1 & G2 & G3 & G4).
  assert (forall i y, alter g f l !! i = Some y -> exists z, l !! i = Some z /\ f_type y = f_type z /\
    f_ref y = f_ref z /\ f_pipe y = f_pipe z /\ f_writable y = f_writable z) as Back.
  { intros i y. rewrite L. case_decide as E; [intros [= <-]; subst; eauto 10|eauto 10]. }
  destruct H. split.
  - intros i y Hy. destruct (Back i y Hy) as (z & Hz & _ & -> & _). eauto.
  - intros i. rewrite length_alter. auto.
  - intros i y Hy. destruct (Back i y Hy) as (z & Hz & -> & -> & _). eauto.
  - intros i y Hi Hy. destruct (Back i y Hy) as (z & Hz & -> & _). eauto.
  - intros i y Hi Hn Hy. destruct (Back i y Hy) as (z & Hz & -> & _). eauto.
  - intros i y Hy. destruct (Back i y Hy) as (z & Hz & -> & _ & -> & ->). eauto.
  - intros i j y z Hy Hz. destruct (Back i y Hy) as (y' & Hy' & -> & _ & -> & ->).
    destruct (Back j z Hz) as (z' & Hz' & -> & _ & -> & ->). eauto.
  - intros a p w Ha Hp. destruct (fo_held0 a p w Ha Hp) as (i & y & Hy & Ty & Py & Wy). exists i. rewrite L.
    case_decide as E; [|eauto]. subst i. exists (g x). assert (y = x) as -> by congruence. split_and!; congruence.
  - done.
Qed.
