(* ===== verification/SysProofs.v ===== *)
(** * System calls keep the descriptors of all processes consistent

    [kern_ok]: the reference count of every open file is the number of
    descriptors of all processes that refer to it, and every descriptor refers
    to an open file.  Every system call keeps it. *)

From stdpp Require Import base list strings gmap.
From Stdlib Require Import ZArith Lia.
From S2P Require Import Prelude State KString Spinlock Kalloc Bio Log Fs Vm Pipe Proc Kernel Sysfile Sysproc FileProofs.

Open Scope Z_scope.

(** ** What a call does when it returns *)

Definition part {A} (P : kern -> Prop) (m : ST kern A) (Q : A -> kern -> Prop) : Prop :=
  forall k a k', P k -> m k = Ok (a, k') -> Q a k'.

Lemma part_bind {A B} P (m : ST kern A) (f : A -> ST kern B) Q R :
  part P m Q -> (forall a, part (Q a) (f a) R) -> part P (m ≫= f) R.
Proof.
  intros Hm Hf k b k' HP. unfold mbind, st_bind. destruct (m k) as [[a k1]| |] eqn:E; [|done..].
  intros E2. eapply Hf; [by eapply Hm|exact E2].
Qed.

Lemma part_ret {A} (P : A -> kern -> Prop) a : part (P a) (mret a) P.
Proof. intros k b k' HP. unfold mret, st_ret. by intros [= <- <-]. Qed.

Lemma part_done {A} (P : kern -> Prop) (Q : A -> kern -> Prop) a :
  (forall k, P k -> Q a k) -> part P (mret a) Q.
Proof. intros H k b k' HP. unfold mret, st_ret. intros [= <- <-]. auto. Qed.

Lemma part_conseq {A} (P P' : kern -> Prop) (m : ST kern A) (Q Q' : A -> kern -> Prop) :
  part P m Q -> (forall k, P' k -> P k) -> (forall a k, Q a k -> Q' a k) -> part P' m Q'.
Proof. intros H HP HQ k a k' Hk E. eapply HQ, H; eauto. Qed.

Lemma part_and {A} (p : Prop) (P : kern -> Prop) (m : ST kern A) Q :
  (p -> part P m Q) -> part (fun k => p /\ P k) m Q.
Proof. intros H k a k' [Hp HP]. by apply H. Qed.

Lemma part_fault {A} P e (Q : A -> kern -> Prop) : part P (fault e) Q.
Proof. intros k a k' _. done. Qed.

(** ** The tables *)

Definition idle (x : procstate) : bool := match x with UNUSED | ZOMBIE => true | _ => false end.

(** The descriptors of [p], and those of all processes. *)
Definition fds (p : proc) : list nat := omap id (ofile p).
Definition descs (ps : list proc) : list nat := concat (fds <$> ps).

Record proc_ok (p : proc) : Prop := {
  po_len : length (ofile p) = NOFILE;
  po_idle : idle (pstate p) = true -> ofile p = replicate NOFILE None
}.

Record kern_ok (k : kern) : Prop := {
  ko_files : files_ok (descs (kprocs k)) [] (files k) (pipes k);
  ko_procs : Forall proc_ok (kprocs k)
}.

(** [p'] has the descriptors of [p], and is not newly idle. *)
Definition calm (p p' : proc) : Prop := ofile p' = ofile p /\ (idle (pstate p') = true -> idle (pstate p) = true).

(** The references to files are [D], the files being opened [F], and the
    processes are those of [ps] but for what does not concern files. *)
Definition At (D F : list nat) (ps : list proc) (k : kern) : Prop :=
  files_ok D F (files k) (pipes k) /\ Forall2 calm ps (kprocs k).

Lemma calm_refl p : calm p p.
Proof. done. Qed.

Lemma calm_trans p q r : calm p q -> calm q r -> calm p r.
Proof. intros [A B] [C D]. split; [congruence|auto]. Qed.

Lemma calms_refl ps : Forall2 calm ps ps.
Proof. induction ps; constructor; [apply calm_refl|done]. Qed.

Lemma calms_trans ps qs rs : Forall2 calm ps qs -> Forall2 calm qs rs -> Forall2 calm ps rs.
Proof.
  intros H. revert rs. induction H as [|p q ps qs Hp _ IH]; intros rs Hr; inversion Hr; subst; constructor.
  - by eapply calm_trans.
  - auto.
Qed.

Lemma calms_map ps qs f : Forall2 calm ps qs -> (forall p, calm p (f p)) -> Forall2 calm ps (map f qs).
Proof.
  intros H Hf. induction H as [|p q ps qs Hp _ IH]; cbn; constructor; [|done].
  eapply calm_trans; [exact Hp|apply Hf].
Qed.

Lemma calms_alter ps qs f (i : nat) :
  Forall2 calm ps qs -> (forall p, calm p (f p)) -> Forall2 calm ps (alter f i qs).
Proof.
  intros H Hf. revert i. induction H as [|p q ps qs Hp H' IH]; intros [|i]; cbn; constructor; try done.
  eapply calm_trans; [exact Hp|apply Hf].
Qed.

Lemma calms_descs ps qs : Forall2 calm ps qs -> descs qs = descs ps.
Proof.
  unfold descs. induction 1 as [|p q ps qs [Hp _] _ IH]; cbn; [done|]. rewrite IH. unfold fds. by rewrite Hp.
Qed.

Lemma calms_ok ps qs : Forall2 calm ps qs -> Forall proc_ok ps -> Forall proc_ok qs.
Proof.
  induction 1 as [|p q ps qs [Hp Hs] _ IH]; intros Ho; [done|]. inversion Ho as [|? ? [Hl Hi] Hps]; subst.
  constructor; [|auto]. split; [by rewrite Hp|]. rewrite Hp. auto.
Qed.

Lemma At_start k : kern_ok k -> At (descs (kprocs k)) [] (kprocs k) k.
Proof. intros [Hf _]. split; [done|apply calms_refl]. Qed.

Lemma at_end D ps k : At D [] ps k -> D ≡ₚ descs ps -> Forall proc_ok ps -> kern_ok k.
Proof.
  intros [Hf Hc] HD Ho. split; [|by eapply calms_ok]. rewrite (calms_descs _ _ Hc). by eapply files_ok_perm.
Qed.

(** ** Code that does not touch files *)

Definition quiet {A} (m : ST kern A) : Prop := forall D F ps, part (At D F ps) m (fun _ => At D F ps).

Create HintDb quiet.

Lemma quiet_bind {A B} (m : ST kern A) (f : A -> ST kern B) :
  quiet m -> (forall a, quiet (f a)) -> quiet (m ≫= f).
Proof. intros Hm Hf D F ps. eapply part_bind; [apply Hm|]. intros a. apply Hf. Qed.

Lemma quiet_ret {A} (a : A) : quiet (mret a).
Proof. intros D F ps. apply (part_ret (fun _ => At D F ps)). Qed.

Lemma quiet_fault {A} e : quiet (fault e : ST kern A).
Proof. intros D F ps. apply part_fault. Qed.

Lemma quiet_pure {A} (m : res A) : quiet (pure m).
Proof. intros D F ps k a k' H. unfold pure. destruct m; cbn; [|done..]. by intros [= <- <-]. Qed.

Lemma quiet_gets {A} (f : kern -> A) : quiet (gets f).
Proof. intros D F ps k a k' H. unfold gets. by intros [= <- <-]. Qed.

Lemma quiet_onfs {A} (m : ST fs A) : quiet (onfs m).
Proof.
  intros D F ps k a k' H. unfold onfs. destruct (m (kfs k)) as [[x s]| |]; [|done..]. cbn. by intros [= <- <-].
Qed.

Lemma quiet_onmem {A} (m : ST kst A) : quiet (onmem m).
Proof.
  intros D F ps k a k' H. unfold onmem. destruct (m (kmem k)) as [[x s]| |]; [|done..]. cbn. by intros [= <- <-].
Qed.

Lemma quiet_onmachine {A} (m : ST machine A) : quiet (onmachine m).
Proof.
  intros D F ps k a k' H. unfold onmachine. destruct (m _) as [[x s]| |]; [|done..]. cbn. by intros [= <- <-].
Qed.

Lemma quiet_proc_at i : quiet (proc_at i).
Proof. intros D F ps k a k' H. unfold proc_at. destruct (nth_res _ i); [|done..]. cbn. by intros [= <- <-]. Qed.

Lemma quiet_file_at i : quiet (file_at i).
Proof. intros D F ps k a k' H. unfold file_at. destruct (nth_res _ i); [|done..]. cbn. by intros [= <- <-]. Qed.

Lemma quiet_pipe_at i : quiet (pipe_at i).
Proof. intros D F ps k a k' H. unfold pipe_at. destruct (pipes k !! i); [|done..]. by intros [= <- <-]. Qed.

Lemma quiet_proc_upd i f : (forall p, calm p (f p)) -> quiet (proc_upd i f).
Proof.
  intros Hf D F ps k a k' [Ha Hb] [= <- <-]. split; [done|]. cbn. by apply calms_alter.
Qed.

Lemma quiet_kwakeup c : quiet (kwakeup c).
Proof.
  intros D F ps k a k' [Ha Hb] [= <- <-]. split; [done|]. cbn. apply calms_map; [done|].
  intros p. unfold wake. destruct (in_state SLEEPING p && bool_decide (Proc.chan p = c)); [|done]. split; done.
Qed.

Lemma quiet_uread pg va : quiet (uread pg va).
Proof.
  intros D F ps k a k' H. unfold uread. destruct (mmu _ pg va) as [[pa f]|]; [|done]. by intros [= <- <-].
Qed.

Lemma quiet_uwrite pg va b : quiet (uwrite pg va b).
Proof.
  intros D F ps k a k' H. unfold uwrite. destruct (mmu _ pg va) as [[pa f]|]; [|done].
  destruct (has f PTE_W); [|done]. by intros [= <- <-].
Qed.

Lemma quiet_foff f g :
  (forall x, f_type (g x) = f_type x /\ f_ref (g x) = f_ref x /\ f_pipe (g x) = f_pipe x /\ f_writable (g x) = f_writable x) ->
  quiet (file_upd f g).
Proof.
  intros Hg D F ps k a k' [Ha Hb] [= <- <-]. split; [|done]. cbn. by apply files_ok_off.
Qed.

#[export] Hint Resolve quiet_ret quiet_fault quiet_pure quiet_gets quiet_onfs quiet_onmem quiet_onmachine
  quiet_proc_at quiet_file_at quiet_pipe_at quiet_kwakeup quiet_uread quiet_uwrite : quiet.

(** Decides a chain of quiet steps. *)
Ltac quiet :=
  repeat first
    [ progress intros
    | solve [auto with quiet]
    | apply quiet_bind
    | apply quiet_proc_upd; intros; by split
    | apply quiet_foff; intros; by split_and!
    | match goal with |- quiet (match ?x with _ => _ end) => destruct x end ].

Lemma quiet_ureads pg va n : quiet (ureads pg va n).
Proof. revert va. induction n as [|n IH]; intros va; cbn [ureads]; quiet. Qed.
Lemma quiet_uwrites pg va bs : quiet (uwrites pg va bs).
Proof. revert va. induction bs as [|b bs IH]; intros va; cbn [uwrites]; quiet. Qed.
#[export] Hint Resolve quiet_ureads quiet_uwrites : quiet.

Section calls.
Context (kend me ebp data : Z).
Context (dev_read : Z -> option (Z -> Z -> ST fs (option (list Z)))).
Context (dev_write : Z -> option (Z -> list Z -> ST fs (option Z))).
Context (garbage : list Z).
Context (cur : nat).

Lemma quiet_myproc : quiet (myproc cur).
Proof. unfold myproc. quiet. Qed.
#[local] Hint Resolve quiet_myproc : quiet.

Lemma quiet_with_pid {A} (m : Z -> ST fs A) : quiet (with_pid cur m).
Proof. unfold with_pid. quiet. Qed.
#[local] Hint Resolve quiet_with_pid : quiet.

Lemma quiet_fetchint a : quiet (fetchint cur a).
Proof. unfold fetchint. quiet. Qed.
#[local] Hint Resolve quiet_fetchint : quiet.

Lemma quiet_strend n pg s ep len : quiet (strend n pg s ep len).
Proof. revert s len. induction n as [|n IH]; intros s len; cbn [strend]; quiet. Qed.
#[local] Hint Resolve quiet_strend : quiet.

Lemma quiet_fetchstr a : quiet (fetchstr cur a).
Proof. unfold fetchstr. quiet. Qed.
Lemma quiet_argint n : quiet (argint cur n).
Proof. unfold argint. quiet. Qed.
#[local] Hint Resolve quiet_fetchstr quiet_argint : quiet.
Lemma quiet_argptr n z : quiet (argptr cur n z).
Proof. unfold argptr. quiet. Qed.
Lemma quiet_argstr n : quiet (argstr cur n).
Proof. unfold argstr. quiet. Qed.
Lemma quiet_ustring s : quiet (ustring cur s).
Proof. unfold ustring. quiet. Qed.
#[local] Hint Resolve quiet_argptr quiet_argstr quiet_ustring : quiet.

Lemma quiet_ops :
  quiet kbegin_op /\ quiet (kend_op cur) /\ (forall ip, quiet (kiput cur ip)) /\ (forall ip, quiet (kilock cur ip)) /\
  (forall ip, quiet (kiunlock ip)) /\ (forall ip, quiet (kiunlockput cur ip)).
Proof. unfold kbegin_op, kend_op, kiput, kilock, kiunlock, kiunlockput. split_and!; quiet. Qed.

Lemma quiet_kbegin_op : quiet kbegin_op. Proof. apply quiet_ops. Qed.
Lemma quiet_kend_op : quiet (kend_op cur). Proof. apply quiet_ops. Qed.
Lemma quiet_kiput ip : quiet (kiput cur ip). Proof. apply quiet_ops. Qed.
Lemma quiet_kilock ip : quiet (kilock cur ip). Proof. apply quiet_ops. Qed.
Lemma quiet_kiunlock ip : quiet (kiunlock ip). Proof. apply quiet_ops. Qed.
Lemma quiet_kiunlockput ip : quiet (kiunlockput cur ip). Proof. apply quiet_ops. Qed.
#[local] Hint Resolve quiet_kbegin_op quiet_kend_op quiet_kiput quiet_kilock quiet_kiunlock quiet_kiunlockput : quiet.

(** ** Reading and writing *)

Lemma pipewrite_open b p bs p' o : pipewrite b p bs = Ok (p', o) -> readopen p' = readopen p /\ writeopen p' = writeopen p.
Proof.
  revert p. induction bs as [|c bs IH]; intros p; cbn [pipewrite]; [by intros [= <- <-]|].
  destruct (nwrite p =? u32 (nread p + PIPESIZE)).
  - destruct (negb (readopen p) || b); by intros [= <- <-].
  - unfold put. destruct (arr_set _ _ c); [|done..]. cbn [mbind res_bind]. intros E. by apply IH in E.
Qed.

Lemma read_copy_open n p bs p' : read_copy n p = Ok (bs, p') -> readopen p' = readopen p /\ writeopen p' = writeopen p.
Proof.
  revert p bs. induction n as [|n IH]; intros p bs; cbn [read_copy]; [by intros [= <- <-]|].
  destruct (nread p =? nwrite p); [by intros [= <- <-]|]. unfold get. destruct (arr_get _ _); [|done..].
  cbn [mbind res_bind]. destruct (read_copy n _) as [[bs1 p1]| |] eqn:E; [|done..]. cbn.
  intros [= <- <-]. by apply IH in E.
Qed.

Lemma piperead_open b p n p' o : piperead b p n = Ok (p', o) -> readopen p' = readopen p /\ writeopen p' = writeopen p.
Proof.
  unfold piperead. destruct ((nread p =? nwrite p) && writeopen p); [destruct b; by intros [= <- <-]|].
  destruct (read_copy _ p) as [[bs p1]| |] eqn:E; [|done..]. cbn. intros [= <- <-]. by apply read_copy_open in E.
Qed.

(** The pipe at [a] is replaced by one with the same ends open. *)
Lemma quiet_flow {A B} a (f : pipe -> res (pipe * A)) (g : pipe * A -> ST kern B) :
  (forall p p' o, f p = Ok (p', o) -> readopen p' = readopen p /\ writeopen p' = writeopen p) ->
  (forall D F ps p r, readopen r.1 = readopen p -> writeopen r.1 = writeopen p ->
     part (fun k => At D F ps k /\ pipes k !! a = Some p) (g r) (fun _ => At D F ps)) ->
  quiet (p ← pipe_at a; r ← pure (f p); g r).
Proof.
  intros Hf Hg D F ps k b k' H. unfold pipe_at, mbind, st_bind, pure. destruct (pipes k !! a) as [p|] eqn:Ep; [|done].
  destruct (f p) as [[p' o]| |] eqn:E; [|done..]. cbn [res_bind mbind]. intros E2.
  destruct (Hf _ _ _ E). by eapply (Hg D F ps p (p', o)).
Qed.

Lemma pipe_set_part {A} D F ps a p p' (m : ST kern A) :
  readopen p' = readopen p -> writeopen p' = writeopen p -> quiet m ->
  part (fun k => At D F ps k /\ pipes k !! a = Some p) (_ ← pipe_set a p'; m) (fun _ => At D F ps).
Proof.
  intros Hr Hw Hm. eapply part_bind with (Q := fun _ => At D F ps); [|intros _; apply Hm].
  intros k x k' [[Ha Hb] Hp] [= <- <-]. split; [|done]. cbn. by eapply files_ok_flow.
Qed.

Lemma quiet_kpiperead a addr n : quiet (kpiperead cur a addr n).
Proof.
  unfold kpiperead. apply quiet_bind; [quiet|]. intros p. apply (quiet_flow a (fun q => piperead (killed p) q n)); [intros ? ? ?; apply piperead_open|].
  intros D F ps q [p' o] Hr Hw. cbn [fst snd]. destruct o as [bs| |].
  - apply (pipe_set_part D F ps a q); [done|done|quiet].
  - apply part_done. by intros k [H _].
  - apply part_fault.
Qed.

Lemma quiet_kpipewrite a addr n : quiet (kpipewrite cur a addr n).
Proof.
  unfold kpipewrite. apply quiet_bind; [quiet|]. intros p. apply quiet_bind; [quiet|]. intros bs.
  apply (quiet_flow a (fun q => pipewrite (killed p) q bs)); [intros ? ? ?; apply pipewrite_open|]. intros D F ps q [p' o] Hr Hw. cbn [fst snd]. destruct o as [|rest|rest].
  - apply (pipe_set_part D F ps a q); [done|done|quiet].
  - apply (pipe_set_part D F ps a q); [done|done|quiet].
  - apply part_fault.
Qed.
#[local] Hint Resolve quiet_kpiperead quiet_kpipewrite : quiet.

Lemma quiet_fileread f a n : quiet (fileread dev_read cur f a n).
Proof. unfold fileread. quiet. Qed.

Lemma quiet_filewrite_loop fuel f a i n : quiet (filewrite_loop dev_write cur fuel f a i n).
Proof. revert i. induction fuel as [|fuel IH]; intros i; cbn [filewrite_loop]; quiet. Qed.
#[local] Hint Resolve quiet_fileread quiet_filewrite_loop : quiet.

Lemma quiet_filewrite f a n : quiet (filewrite dev_write cur f a n).
Proof. unfold filewrite. quiet. Qed.

Lemma quiet_filestat f a : quiet (filestat cur f a).
Proof. unfold filestat, store_stat. quiet. Qed.
#[local] Hint Resolve quiet_filewrite quiet_filestat : quiet.

(** ** The table of files *)

Lemma first_free_spec i l f : first_free i l = Some f -> (i <= f)%nat /\ exists x, l !! (f - i)%nat = Some x /\ f_ref x = 0.
Proof.
  revert i. induction l as [|x l IH]; intros i; cbn [first_free]; [done|]. destruct (Z.eqb_spec (f_ref x) 0) as [E|E].
  - intros [= <-]. split; [done|]. exists x. by rewrite Nat.sub_diag.
  - intros Hf. destruct (IH _ Hf) as (Hle & y & Hy & H0). split; [lia|]. exists y. split; [|done].
    replace (f - i)%nat with (S (f - S i)) by lia. done.
Qed.

Lemma filealloc_part D F ps :
  part (At D F ps) filealloc (fun r k =>
    match r with Some f => At (f :: D) (f :: F) ps k /\ f ∉ D | None => At D F ps k end).
Proof.
  intros k a k' [Hf Hc]. unfold filealloc, gets, mbind, st_bind.
  destruct (first_free 0 (files k)) as [f|] eqn:E; [|by intros [= <- <-]].
  destruct (first_free_spec _ _ _ E) as (_ & x & Hx & H0). rewrite Nat.sub_0_r in Hx. intros [= <- <-].
  split; [split; [by apply (files_ok_alloc _ _ _ _ _ x)|done]|].
  intros Hd. apply cnt_pos in Hd. rewrite <- (fo_ref _ _ _ _ Hf f x Hx) in Hd. lia.
Qed.

(** A file that is referred to can be duplicated. *)
Lemma filedup_run D F ps f k :
  At D F ps k -> f ∈ D -> exists k', filedup f k = Ok (f, k') /\ At (f :: D) F ps k' /\ kprocs k' = kprocs k.
Proof.
  intros [Hf Hc] Hd. pose proof (fo_bound _ _ _ _ Hf f Hd) as Hl. destruct (lookup_lt_is_Some_2 _ _ Hl) as [x Hx].
  assert (1 <= f_ref x) as Hr by (rewrite (fo_ref _ _ _ _ Hf f x Hx); apply cnt_pos in Hd; lia).
  unfold filedup, file_at, mbind, st_bind, nth_res. rewrite Hx. cbn [res_bind].
  destruct (Z.ltb_spec (f_ref x) 1); [lia|]. eexists. split; [reflexivity|]. split; [|done]. split; [|done].
  by apply files_ok_dup.
Qed.

Lemma filedup_part D F ps f : f ∈ D -> part (At D F ps) (filedup f) (fun r k => r = f /\ At (f :: D) F ps k).
Proof.
  intros Hd k a k' H E. destruct (filedup_run D F ps f k H Hd) as (k1 & E1 & H1 & _). rewrite E1 in E.
  by injection E as <- <-.
Qed.

Lemma alter_alter {A} (g h : A -> A) (f : nat) (l : list A) : alter g f (alter h f l) = alter (fun x => g (h x)) f l.
Proof. revert f. induction l as [|x l IH]; intros [|f]; cbn; [done..|]. f_equal. apply IH. Qed.

Lemma kpipeclose_part a w k k' u p p' c b :
  kpipeclose kend me ebp a w k = Ok (u, k') -> pipes k !! a = Some p -> Pipe.pipeclose p w = (p', c, b) ->
  files k' = files k /\ Forall2 calm (kprocs k) (kprocs k') /\
  pipes k' = if b then delete a (pipes k) else <[a := p']> (pipes k).
Proof.
  unfold kpipeclose, pipe_at, mbind, st_bind. intros E Hp Hc. rewrite Hp in E. rewrite Hc in E. cbn in E.
  assert (Forall2 calm (kprocs k) (wakeup1 (pipe_chan a c) (kprocs k))) as Hw.
  { apply calms_map; [apply calms_refl|]. intros q. unfold wake.
    destruct (in_state SLEEPING q && bool_decide (Proc.chan q = pipe_chan a c)); [|done]. split; done. }
  destruct b.
  - unfold onmem in E. cbn in E. destruct (kfree_ kend me ebp a (kmem k)) as [[x s]| |]; [|done..]. cbn in E.
    injection E as <- <-. cbn. split; [done|]. split; [done|]. by rewrite delete_insert_eq.
  - injection E as <- <-. done.
Qed.

Lemma fileclose_part D F ps f : part (At (f :: D) F ps) (fileclose kend me ebp cur f) (fun _ => At D F ps).
Proof.
  intros k u k' [Hf Hc]. pose proof (fo_bound _ _ _ _ Hf f) as Hl. destruct (lookup_lt_is_Some_2 (files k) f) as [x Hx].
  { apply Hl. by left. }
  set (k2 := with_files (with_files k (alter (set_fref (f_ref x - 1)) f (files k)))
    (alter (fun y => set_ftype FD_NONE (set_fref 0 y)) f (alter (set_fref (f_ref x - 1)) f (files k)))).
  set (m := match f_type x with
            | FD_PIPE => kpipeclose kend me ebp (f_pipe x) (f_writable x)
            | FD_INODE => _ ← kbegin_op; _ ← kiput cur (f_ip x); kend_op cur
            | FD_NONE => mret ()
            end).
  assert (fileclose kend me ebp cur f k =
    if f_ref x <? 1 then Fault (Panic "fileclose")
    else if 0 <? f_ref x - 1 then Ok ((), with_files k (alter (set_fref (f_ref x - 1)) f (files k)))
    else m k2) as ->.
  { unfold fileclose, file_at, nth_res. unfold mbind at 1, st_bind at 1. rewrite Hx. cbn [mbind res_bind].
    destruct (f_ref x <? 1); [done|]. cbn. by destruct (0 <? f_ref x - 1). }
  destruct (Z.ltb_spec (f_ref x) 1) as [|Hr]; [done|].
  destruct (Z.ltb_spec 0 (f_ref x - 1)) as [Hr2|Hr2].
  { intros [= <- <-]. split; [|done]. by apply files_ok_drop. }
  assert (files k2 = alter (fun y => set_ftype FD_NONE (set_fref 0 (set_fref (f_ref x - 1) y))) f (files k)) as E2.
  { unfold k2. cbn. by rewrite alter_alter. }
  unfold m. destruct (f_type x) eqn:Tx.
  - intros [= <- <-]. split; [|done]. rewrite E2. by apply (files_ok_close D F _ _ f x); [..|congruence|].
  - intros E. destruct (fo_pipe _ _ _ _ Hf f x Hx Tx) as (p & Hp & Eo).
    destruct (Pipe.pipeclose p (f_writable x)) as [[p' c] b] eqn:Ec.
    destruct (kpipeclose_part _ _ k2 k' u p p' c b E Hp Ec) as (Ef & Hcs & Ep). split.
    + rewrite Ef, Ep, E2. by apply (files_ok_close_pipe D F _ _ f x _ p p' c b).
    + eapply calms_trans; [exact Hc|exact Hcs].
  - assert (quiet (_ ← kbegin_op; _ ← kiput cur (f_ip x); kend_op cur)) as Hm by quiet.
    intros E. eapply (Hm D F ps k2); [|exact E]. split; [|done]. rewrite E2.
    by apply (files_ok_close D F _ _ f x); [..|congruence|].
Qed.

(** ** Descriptors *)

Definition upd (fd : nat) (v : option nat) (p : proc) : proc := set_files (<[fd := v]> (ofile p)) (cwd p) p.

Lemma calms_upd fd v i ps qs : Forall2 calm ps qs -> Forall2 calm (alter (upd fd v) i ps) (alter (upd fd v) i qs).
Proof.
  intros H. revert i. induction H as [|p q ps qs [Hp Hs] H IH]; intros [|i]; cbn; constructor; try done.
  split; [cbn; by rewrite Hp|done].
Qed.

Lemma fds_set l (fd f : nat) :
  l !! fd = Some None -> omap id (<[fd := Some f]> l) ≡ₚ f :: (omap id l : list nat).
Proof.
  revert fd. induction l as [|x l IH]; intros [|fd] Hl; cbn in *; [done..| |].
  - injection Hl as ->. done.
  - destruct x as [g|]; cbn; [|by apply IH]. rewrite (IH fd Hl). apply perm_swap.
Qed.

Lemma fds_clear l (fd f : nat) :
  l !! fd = Some (Some f) -> (omap id l : list nat) ≡ₚ f :: omap id (<[fd := None]> l).
Proof.
  intros Hl. assert (<[fd := Some f]> (<[fd := None]> l) = l) as E.
  { rewrite list_insert_insert_eq. by apply list_insert_id. }
  pose proof (fds_set (<[fd := None]> l) fd f) as X. rewrite E in X. apply X.
  apply list_lookup_insert_eq. by eapply lookup_lt_Some.
Qed.

Lemma descs_alter (h : proc -> proc) (i : nat) ps p f :
  ps !! i = Some p -> fds (h p) ≡ₚ f :: fds p -> descs (alter h i ps) ≡ₚ f :: descs ps.
Proof.
  unfold descs. revert i. induction ps as [|q ps IH]; intros [|i] Hi Hf; cbn in *; [done..| |].
  - injection Hi as ->. by rewrite Hf.
  - rewrite (IH i Hi Hf). symmetry. apply Permutation_middle.
Qed.

Lemma descs_set ps i p fd f :
  ps !! i = Some p -> ofile p !! fd = Some None -> descs (alter (upd fd (Some f)) i ps) ≡ₚ f :: descs ps.
Proof. intros Hi Hf. eapply descs_alter; [exact Hi|]. unfold fds. cbn. by apply fds_set. Qed.

Lemma descs_clear ps i p fd f :
  ps !! i = Some p -> ofile p !! fd = Some (Some f) -> descs ps ≡ₚ f :: descs (alter (upd fd None) i ps).
Proof.
  intros Hi Hf. assert (alter (upd fd (Some f)) i (alter (upd fd None) i ps) = ps) as E.
  { rewrite alter_alter. apply list_eq. intros j. rewrite list_lookup_alter. case_decide as D; [|done].
    subst j. rewrite Hi. cbn. f_equal. destruct p. unfold upd, set_files. cbn in *. f_equal.
    rewrite list_insert_insert_eq. by apply list_insert_id. }
  pose proof (descs_set (alter (upd fd None) i ps) i (upd fd None p) fd f) as X. rewrite E in X. apply X.
  - rewrite list_lookup_alter_eq, Hi. reflexivity.
  - cbn. apply list_lookup_insert_eq. by eapply lookup_lt_Some.
Qed.

Lemma descs_in ps i p fd f : ps !! i = Some p -> ofile p !! fd = Some (Some f) -> f ∈ descs ps.
Proof. intros Hi Hf. rewrite (descs_clear ps i p fd f Hi Hf). by left. Qed.

Lemma upd_ok fd v p : proc_ok p -> idle (pstate p) = false \/ v = None -> proc_ok (upd fd v p).
Proof.
  intros [Hl Hi] Hb. split; [cbn; by rewrite length_insert|].
  change (idle (pstate p) = true -> <[fd := v]> (ofile p) = replicate NOFILE None).
  intros E. destruct Hb as [Hb| ->]; [congruence|].
  rewrite (Hi E). apply list_eq. intros j. rewrite list_lookup_insert. case_decide as D; [|done].
  destruct D as [-> D]. rewrite length_replicate in D. symmetry. by apply lookup_replicate_2.
Qed.

Lemma procs_ok_alter ps i p h :
  Forall proc_ok ps -> ps !! i = Some p -> proc_ok (h p) -> Forall proc_ok (alter h i ps).
Proof.
  rewrite !Forall_lookup. intros H Hi Hp j q. rewrite list_lookup_alter. case_decide as D; [|eauto].
  subst j. rewrite Hi. cbn. by intros [= <-].
Qed.

(** The running process, and what a call keeps. *)
Definition busy (k : kern) (p : proc) : Prop := kprocs k !! cur = Some p /\ idle (pstate p) = false.

Definition keeps {A} (m : ST kern A) : Prop :=
  forall k p a k', kern_ok k -> busy k p -> m k = Ok (a, k') -> kern_ok k'.

Lemma quiet_keeps {A} (m : ST kern A) : quiet m -> keeps m.
Proof.
  intros Hm k p a k' Hk _ E. eapply at_end; [|reflexivity|apply Hk]. eapply Hm; [by apply At_start|exact E].
Qed.

Lemma part_keeps {A} (m : ST kern A) :
  (forall ps p, ps !! cur = Some p -> idle (pstate p) = false -> Forall proc_ok ps ->
     part (At (descs ps) [] ps) m (fun _ => kern_ok)) -> keeps m.
Proof.
  intros Hm k p a k' Hk [Hc Hi] E. eapply (Hm (kprocs k) p Hc Hi); [apply Hk|by apply At_start|exact E].
Qed.

Lemma myproc_part D F ps p :
  ps !! cur = Some p -> part (At D F ps) (myproc cur) (fun q k => ofile q = ofile p /\ At D F ps k).
Proof.
  intros Hp k q k' [Hf Hc]. unfold myproc, proc_at, nth_res. destruct (kprocs k !! cur) as [r|] eqn:E; [|done].
  cbn. intros [= <- <-]. split; [|done]. by destruct (Forall2_lookup_lr _ _ _ _ _ _ Hc Hp E).
Qed.

(** A quiet step, then the rest. *)
Lemma quiet_then {A B} D F ps (m : ST kern A) (f : A -> ST kern B) R :
  quiet m -> (forall a, part (At D F ps) (f a) R) -> part (At D F ps) (m ≫= f) R.
Proof. intros Hm Hf. eapply part_bind; [apply Hm|exact Hf]. Qed.

Lemma quiet_end {A} D ps (m : ST kern A) :
  quiet m -> D ≡ₚ descs ps -> Forall proc_ok ps -> part (At D [] ps) m (fun _ => kern_ok).
Proof. intros Hm HD Ho. eapply part_conseq; [apply (Hm D [] ps)|done|]. intros a k H. exact (at_end D ps k H HD Ho). Qed.

Lemma argfd_part D F ps p n :
  ps !! cur = Some p ->
  part (At D F ps) (argfd cur n)
    (fun r k => match r with Some (fd, f) => ofile p !! fd = Some (Some f) | None => True end /\ At D F ps k).
Proof.
  intros Hp. unfold argfd. apply quiet_then; [quiet|]. intros [fd|]; [|by apply part_done].
  destruct ((fd <? 0) || (Z.of_nat NOFILE <=? fd)); [by apply part_done|].
  eapply part_bind; [by apply myproc_part|]. intros q k a k' [Ho H]. unfold pure, nth_res, mbind, st_bind. rewrite Ho.
  destruct (ofile p !! Z.to_nat fd) as [[f|]|] eqn:E; [| |done]; cbn; intros [= <- <-]; done.
Qed.

Lemma free_fd_spec l i fd : free_fd i l = Some fd -> (i <= fd)%nat /\ l !! (fd - i)%nat = Some None.
Proof.
  revert i. induction l as [|x l IH]; intros i; cbn [free_fd]; [done|]. destruct x as [g|].
  - intros Hf. destruct (IH _ Hf) as (Hle & Hl). split; [lia|].
    replace (fd - i)%nat with (S (fd - S i)) by lia. done.
  - intros [= <-]. by rewrite Nat.sub_diag.
Qed.

Lemma set_fd_part D F ps fd v : part (At D F ps) (set_fd cur fd v) (fun _ => At D F (alter (upd fd v) cur ps)).
Proof. intros k a k' [Hf Hc] [= <- <-]. split; [done|]. cbn. by apply calms_upd. Qed.

Lemma fdalloc_part D F ps p f :
  ps !! cur = Some p ->
  part (At D F ps) (fdalloc cur f) (fun r k =>
    match r with
    | Some fd => ofile p !! fd = Some None /\ At D F (alter (upd fd (Some f)) cur ps) k
    | None => At D F ps k
    end).
Proof.
  intros Hp. unfold fdalloc. eapply part_bind; [by apply myproc_part|]. intros q.
  destruct (free_fd 0 (ofile q)) as [fd|] eqn:E; cycle 1.
  { apply part_done. by intros k [_ H]. }
  destruct (free_fd_spec _ _ _ E) as [_ Hl]. rewrite Nat.sub_0_r in Hl.
  intros k a k' [Ho H] [= <- <-]. split; [congruence|]. by eapply set_fd_part.
Qed.

(** ** The calls *)

Lemma keeps_dup : keeps (sys_dup cur).
Proof.
  apply part_keeps. intros ps p Hp Hi Ho. unfold sys_dup. eapply part_bind; [by apply argfd_part|].
  intros r. apply part_and. destruct r as [[fd0 f]|]; [|intros _; by apply quiet_end; [quiet|..]].
  intros Hf. eapply part_bind; [by apply fdalloc_part|].
  intros [fd|]; [|by apply quiet_end; [quiet|..]]. apply part_and. intros Hn.
  eapply part_bind; [apply filedup_part; by eapply descs_in|]. intros f'. apply part_and. intros ->.
  apply quiet_end; [quiet|symmetry; by eapply descs_set|].
  eapply procs_ok_alter; [done|done|]. apply upd_ok; [by eapply Forall_lookup|by left].
Qed.

Lemma at_perm D D' F ps k : D ≡ₚ D' -> At D F ps k -> At D' F ps k.
Proof. intros HD [Ha Hb]. split; [by eapply files_ok_perm|done]. Qed.

Lemma keeps_close : keeps (sys_close kend me ebp cur).
Proof.
  apply part_keeps. intros ps p Hp Hi Ho. unfold sys_close. eapply part_bind; [by apply argfd_part|].
  intros r. apply part_and. destruct r as [[fd f]|]; [|intros _; by apply quiet_end; [quiet|..]]. intros Hf.
  eapply part_bind; [apply set_fd_part|]. intros ?.
  set (ps' := alter (upd fd None) cur ps). eapply (part_bind _ _ _ (fun _ => At (descs ps') [] ps')).
  - eapply part_conseq; [apply (fileclose_part (descs ps') [] ps' f)| |intros u k H; exact H].
    intros k. apply at_perm. by eapply descs_clear.
  - intros ?. apply quiet_end; [quiet|done|]. eapply procs_ok_alter; [done|done|].
    apply upd_ok; [by eapply Forall_lookup|by left].
Qed.

Lemma at_unfresh D F ps k f : f ∉ D -> At D (f :: F) ps k -> At D F ps k.
Proof. intros Hf [Ha Hb]. split; [by eapply files_ok_unfresh|done]. Qed.

(** [filealloc] and [fdalloc] in [sys_open]. *)
Lemma open_file_part ps p :
  ps !! cur = Some p ->
  part (At (descs ps) [] ps) (open_file kend me ebp cur) (fun r k =>
    match r with
    | Some (f, fd) => ofile p !! fd = Some None /\ At (f :: descs ps) [f] (alter (upd fd (Some f)) cur ps) k
    | None => At (descs ps) [] ps k
    end).
Proof.
  intros Hp. unfold open_file. eapply part_bind; [apply filealloc_part|].
  intros [f|]; [|by apply part_done]. intros k a k' [H Hn]. revert k a k' H.
  apply (part_bind (At (f :: descs ps) [f] ps) _ _ _ _ (fdalloc_part _ _ _ p f Hp)).
  intros [fd|]; [by apply part_done|].
  eapply part_bind; [apply fileclose_part|]. intros ?. apply part_done. intros k H. by eapply at_unfresh.
Qed.

Lemma quiet_kcwd : quiet (kcwd cur).
Proof. unfold kcwd. quiet. Qed.
#[local] Hint Resolve quiet_kcwd : quiet.
Lemma quiet_knamei path : quiet (knamei dev_read garbage cur path).
Proof. unfold knamei. quiet. Qed.
Lemma quiet_knameiparent path : quiet (knameiparent dev_read garbage cur path).
Proof. unfold knameiparent. quiet. Qed.
Lemma quiet_kinode ip : quiet (kinode ip).
Proof. unfold kinode. quiet. Qed.
Lemma quiet_kiupdate ip : quiet (kiupdate cur ip).
Proof. unfold kiupdate. quiet. Qed.
Lemma quiet_add_nlink ip d : quiet (add_nlink ip d).
Proof. unfold add_nlink. quiet. Qed.
Lemma quiet_kdirlink dp name inum : quiet (kdirlink dev_read dev_write cur dp name inum).
Proof. unfold kdirlink. quiet. Qed.
Lemma quiet_kdirlookup dp name : quiet (kdirlookup dev_read cur dp name).
Proof. unfold kdirlookup. quiet. Qed.
#[local] Hint Resolve quiet_knamei quiet_knameiparent quiet_kinode quiet_kiupdate quiet_add_nlink quiet_kdirlink
  quiet_kdirlookup : quiet.

Lemma quiet_link : quiet (sys_link dev_read dev_write garbage cur).
Proof. unfold sys_link, link_bad. quiet. Qed.

Lemma quiet_isdirempty dp : quiet (isdirempty dev_read cur dp).
Proof.
  unfold isdirempty. apply quiet_bind; [quiet|]. intros i. generalize (S (Z.to_nat (d_fsize (i_copy i)))). intros n.
  generalize (2 * dirent_size). induction n as [|n IH]; intros off; cbn [isdirempty_loop]; quiet.
Qed.
#[local] Hint Resolve quiet_isdirempty : quiet.

Lemma quiet_unlink : quiet (sys_unlink dev_read dev_write garbage cur).
Proof. unfold sys_unlink, unlink_entry, unlink_bad. quiet. Qed.

Lemma quiet_create path t a b : quiet (create dev_read dev_write garbage cur path t a b).
Proof. unfold create, make_dots, init_inode. quiet. Qed.
#[local] Hint Resolve quiet_create : quiet.

Lemma quiet_mkdir : quiet (sys_mkdir dev_read dev_write garbage cur).
Proof. unfold sys_mkdir, made. quiet. Qed.
Lemma quiet_mknod : quiet (sys_mknod dev_read dev_write garbage cur).
Proof. unfold sys_mknod, made. quiet. Qed.
Lemma quiet_chdir : quiet (sys_chdir dev_read garbage cur).
Proof. unfold sys_chdir. quiet. Qed.

Lemma quiet_read : quiet (sys_read dev_read cur).
Proof. unfold sys_read, rw_args, argfd. quiet. Qed.
Lemma quiet_write : quiet (sys_write dev_write cur).
Proof. unfold sys_write, rw_args, argfd. quiet. Qed.
Lemma quiet_fstat : quiet (sys_fstat cur).
Proof. unfold sys_fstat, argfd. quiet. Qed.

(** ** Opening a file *)

Lemma file_inode_part D ps f g :
  f ∈ D -> (forall x, f_type (g x) = FD_INODE /\ f_ref (g x) = f_ref x) ->
  part (At D [f] ps) (file_upd f g) (fun _ => At D [] ps).
Proof.
  intros Hf Hg k a k' [Ha Hb] [= <- <-]. split; [|done]. cbn.
  destruct (lookup_lt_is_Some_2 (files k) f) as [x Hx]; [by apply (fo_bound _ _ _ _ Ha)|].
  destruct (Hg x) as [G1 G2]. apply (files_ok_inode D [] (files k) _ f x); try done; [by apply not_elem_of_nil|].
  rewrite (fo_ref _ _ _ _ Ha f x Hx). by apply cnt_pos.
Qed.

Lemma quiet_open_inode path o : quiet (open_inode dev_read dev_write garbage cur path o).
Proof. unfold open_inode. quiet. Qed.

Lemma keeps_open : keeps (sys_open kend me ebp dev_read dev_write garbage cur).
Proof.
  apply part_keeps. intros ps p Hp Hi Ho. unfold sys_open.
  apply quiet_then; [quiet|]. intros [a|]; [|by apply quiet_end; [quiet|..]].
  apply quiet_then; [quiet|]. intros [o|]; [|by apply quiet_end; [quiet|..]].
  apply quiet_then; [quiet|]. intros ?. apply quiet_then; [quiet|]. intros path.
  apply quiet_then; [apply quiet_open_inode|]. intros [ip|]; [|by apply quiet_end; [quiet|..]].
  eapply part_bind; [by apply open_file_part|]. intros [[f fd]|]; [|by apply quiet_end; [quiet|..]].
  apply part_and. intros Hfd. apply quiet_then; [quiet|]. intros ?. apply quiet_then; [quiet|]. intros ?.
  eapply part_bind; [apply file_inode_part; [by left|done]|]. intros ?.
  apply quiet_end; [quiet|symmetry; by eapply descs_set|].
  eapply procs_ok_alter; [done|done|]. apply upd_ok; [by eapply Forall_lookup|by left].
Qed.

(** ** Pipes *)

(** The page that the allocator hands out next is not the page of a pipe. *)
Definition page_fresh (k : kern) : Prop :=
  forall a m, kalloc_ me ebp (kmem k) = Ok (a, m) -> a <> 0 -> pipes k !! a = None.

Lemma filealloc_frame k a k' : filealloc k = Ok (a, k') -> kmem k' = kmem k /\ pipes k' = pipes k.
Proof.
  unfold filealloc, gets, mbind, st_bind. destruct (first_free 0 (files k)); by intros [= <- <-].
Qed.

Lemma at_alter_new D F ps k f0 f1 a p g0 g1 :
  At D (f1 :: f0 :: F) ps k -> f0 ∉ F -> f1 ∉ F -> f0 <> f1 -> f0 ∈ D -> f1 ∈ D -> pipes k !! a = None ->
  readopen p = true -> writeopen p = true ->
  (forall y, f_type (g0 y) = FD_PIPE /\ f_ref (g0 y) = f_ref y /\ f_writable (g0 y) = false /\ f_pipe (g0 y) = a) ->
  (forall y, f_type (g1 y) = FD_PIPE /\ f_ref (g1 y) = f_ref y /\ f_writable (g1 y) = true /\ f_pipe (g1 y) = a) ->
  files_ok D F (alter g1 f1 (alter g0 f0 (files k))) (<[a := p]> (pipes k)).
Proof.
  intros [Ha Hb] N0 N1 Hd D0 D1 Hp Hr Hw H0 H1.
  destruct (lookup_lt_is_Some_2 (files k) f0) as [x0 X0]; [by apply (fo_bound _ _ _ _ Ha)|].
  destruct (lookup_lt_is_Some_2 (files k) f1) as [x1 X1]; [by apply (fo_bound _ _ _ _ Ha)|].
  apply (files_ok_pipe D F _ _ f0 f1 x0 x1); try done;
    [rewrite (fo_ref _ _ _ _ Ha f0 x0 X0)|rewrite (fo_ref _ _ _ _ Ha f1 x1 X1)]; by apply cnt_pos.
Qed.

Lemma kpipealloc_part D ps :
  part (fun k => At D [] ps k /\ page_fresh k) (kpipealloc kend me ebp cur) (fun r k =>
    match r with Some (f0, f1) => At (f1 :: f0 :: D) [] ps k | None => At D [] ps k end).
Proof.
  intros k r k' [H Hfr]. unfold kpipealloc. unfold mbind at 1, st_bind at 1.
  destruct (filealloc k) as [[[f0|] k1]| |] eqn:E0; [|by intros [= <- <-]; apply (filealloc_part _ _ _ _ _ _ H E0)|done..].
  destruct (filealloc_part _ _ _ _ _ _ H E0) as [H1 N0]. destruct (filealloc_frame _ _ _ E0) as [M1 P1].
  unfold mbind at 1, st_bind at 1.
  destruct (filealloc k1) as [[[f1|] k2]| |] eqn:E1; [| |done..]; cycle 1.
  { intros E. eapply (part_bind _ _ _ (fun _ => At D [f0] ps) (fun r k => r = None /\ At D [] ps k)) in E;
      [destruct E as [-> E]; exact E|apply fileclose_part| |].
    - intros u. apply part_done. intros k3 Hk3. split; [done|]. by eapply at_unfresh.
    - apply (filealloc_part _ _ _ _ _ _ H1 E1). }
  destruct (filealloc_part _ _ _ _ _ _ H1 E1) as [H2 N1]. destruct (filealloc_frame _ _ _ E1) as [M2 P2].
  apply not_elem_of_cons in N1 as [Hd N1].
  unfold mbind at 1, st_bind at 1. destruct (onmem (kalloc_ me ebp) k2) as [[a k3]| |] eqn:E2; [|done..].
  pose proof (quiet_onmem _ _ _ _ _ _ _ H2 E2) as H3.
  assert (a <> 0 -> pipes k3 !! a = None) as Hfa.
  { unfold onmem in E2. destruct (kalloc_ me ebp (kmem k2)) as [[x s]| |] eqn:Ek; [|done..]. cbn in E2.
    injection E2 as <- <-. cbn. rewrite P2, P1. apply (Hfr x s). by rewrite <- M1, <- M2. }
  destruct (Z.eqb_spec a 0) as [Ha|Ha].
  - intros E. eapply (part_bind _ _ _ (fun _ => At (f1 :: D) [f1; f0] ps) (fun r k => r = None /\ At D [] ps k)) in E;
      [destruct E as [-> E]; exact E| | |].
    + eapply part_conseq; [apply (fileclose_part (f1 :: D) [f1; f0] ps f0)| |intros u x Hx; exact Hx].
      intros x. apply at_perm, perm_swap.
    + intros u. eapply part_bind; [apply fileclose_part|]. intros ?. apply part_done. intros x Hx.
      split; [done|]. exact (at_unfresh D [] ps x f0 N0 (at_unfresh D [f0] ps x f1 N1 Hx)).
    + exact H3.
  - cbn. intros [= <- <-]. split; [|apply H3]. cbn.
    apply (at_alter_new (f1 :: f0 :: D) [] ps k3 f0 f1); try done; [by apply not_elem_of_nil..|by right; left|by left|by apply Hfa].
Qed.
End calls.

#[export] Hint Resolve quiet_myproc quiet_with_pid quiet_fetchint quiet_strend quiet_fetchstr quiet_argint quiet_argptr
  quiet_argstr quiet_ustring quiet_kbegin_op quiet_kend_op quiet_kiput quiet_kilock quiet_kiunlock quiet_kiunlockput
  quiet_kcwd quiet_knamei quiet_kinode : quiet.
