(* ===== verification/SysCalls.v ===== *)
(** * Every system call keeps the descriptors consistent

    The calls that create and end processes, and the dispatch. *)

From stdpp Require Import base list strings gmap.
From Stdlib Require Import ZArith Lia.
From S2P Require Import Prelude State KString Spinlock Kalloc Bio Log Fs Vm Pipe Proc ProcInv Kernel Sysfile Sysproc FileProofs SysProofs.

Open Scope Z_scope.

(** ** Reading memory does not change the state *)

Definition reads {A} (m : ST kern A) : Prop := forall k a k', m k = Ok (a, k') -> k' = k.

Lemma reads_bind {A B} (m : ST kern A) (f : A -> ST kern B) : reads m -> (forall a, reads (f a)) -> reads (m ≫= f).
Proof.
  intros Hm Hf k b k'. unfold mbind, st_bind. destruct (m k) as [[a k1]| |] eqn:E; [|done..].
  apply Hm in E as ->. apply Hf.
Qed.

Lemma reads_ret {A} (a : A) : reads (mret a).
Proof. intros k b k'. unfold mret, st_ret. by intros [= <- <-]. Qed.

Lemma reads_uread pg va : reads (uread pg va).
Proof. intros k a k'. unfold uread. destruct (mmu _ pg va) as [[pa f]|]; [|done]. by intros [= <- <-]. Qed.

Lemma reads_ureads pg va n : reads (ureads pg va n).
Proof.
  revert va. induction n as [|n IH]; intros va; cbn [ureads]; [apply reads_ret|].
  apply reads_bind; [apply reads_uread|]. intros b. apply reads_bind; [apply IH|]. intros bs. apply reads_ret.
Qed.

Lemma reads_proc_at i : reads (proc_at i).
Proof. intros k a k'. unfold proc_at. destruct (nth_res _ i); [|done..]. cbn. by intros [= <- <-]. Qed.

Lemma reads_pure {A} (m : res A) : reads (pure m).
Proof. intros k a k'. unfold pure. destruct m; cbn; [|done..]. by intros [= <- <-]. Qed.

Lemma reads_argint cur n : reads (argint cur n).
Proof.
  unfold argint, fetchint, myproc. apply reads_bind; [apply reads_proc_at|]. intros p.
  apply reads_bind; [apply reads_pure|]. intros sp. apply reads_bind; [apply reads_proc_at|]. intros q.
  destruct (_ || _); [apply reads_ret|]. apply reads_bind; [apply reads_ureads|]. intros bs. apply reads_ret.
Qed.

Lemma reads_argptr cur n z : reads (argptr cur n z).
Proof.
  unfold argptr, myproc. apply reads_bind; [apply reads_proc_at|]. intros p.
  apply reads_bind; [apply reads_argint|]. intros [i|]; [|apply reads_ret].
  destruct (_ || _); apply reads_ret.
Qed.

Section calls.
Context (kend me ebp data : Z).
Context (dev_read : Z -> option (Z -> Z -> ST fs (option (list Z)))).
Context (dev_write : Z -> option (Z -> list Z -> ST fs (option Z))).
Context (garbage : list Z).
Context (cur : nat).

(** What a call keeps when the next page to be allocated is fresh. *)
Definition keeps_fresh {A} (m : ST kern A) : Prop :=
  forall k p a k', kern_ok k -> page_fresh me ebp k -> busy cur k p -> m k = Ok (a, k') -> kern_ok k'.

Lemma close_both D ps f g :
  part (At (g :: f :: D) [] ps) (_ ← fileclose kend me ebp cur f; _ ← fileclose kend me ebp cur g; mret (-1))
    (fun _ => At D [] ps).
Proof.
  eapply (part_bind _ _ _ (fun _ => At (g :: D) [] ps)).
  - eapply part_conseq; [apply (fileclose_part kend me ebp cur (g :: D) [] ps f)| |intros u x Hx; exact Hx].
    intros x. apply at_perm, perm_swap.
  - intros u. eapply part_bind; [apply fileclose_part|]. intros u'. by apply part_done.
Qed.

(** The end of a call whose references are those of the table. *)
Lemma part_end {A} P (m : ST kern A) D ps :
  part P m (fun _ => At D [] ps) -> D ≡ₚ descs ps -> Forall proc_ok ps -> part P m (fun _ => kern_ok).
Proof. intros H HD Ho k a k' HP E. exact (at_end D ps k' (H _ _ _ HP E) HD Ho). Qed.

Lemma busy_upd ps p fd v :
  ps !! cur = Some p -> idle (pstate p) = false -> Forall proc_ok ps ->
  alter (upd fd v) cur ps !! cur = Some (upd fd v p) /\ Forall proc_ok (alter (upd fd v) cur ps).
Proof.
  intros Hp Hi Ho. split; [by rewrite list_lookup_alter_eq, Hp|].
  eapply procs_ok_alter; [done|done|]. apply upd_ok; [by eapply Forall_lookup|by left].
Qed.

(** [sys_pipe] after its argument. *)
Lemma pipe_part ps p ad :
  ps !! cur = Some p -> idle (pstate p) = false -> Forall proc_ok ps ->
  part (fun k => At (descs ps) [] ps k /\ page_fresh me ebp k)
    (r ← kpipealloc kend me ebp cur;
      match r with
      | None => mret (-1)
      | Some (rf, wf) =>
          fd0 ← fdalloc cur rf;
          fd1 ← (match fd0 with Some _ => fdalloc cur wf | None => mret None end);
          match fd0, fd1 with
          | Some fd0, Some fd1 =>
              p ← myproc cur;
              _ ← uwrites (pgdir p) ad (le_bytes 4 (Z.of_nat fd0));
              _ ← uwrites (pgdir p) (u32 (ad + 4)) (le_bytes 4 (Z.of_nat fd1));
              mret 0
          | _, _ =>
              _ ← (match fd0 with Some fd0 => set_fd cur fd0 None | None => mret () end);
              _ ← fileclose kend me ebp cur rf;
              _ ← fileclose kend me ebp cur wf;
              mret (-1)
          end
      end) (fun _ => kern_ok).
Proof.
  intros Hp Hi Ho. eapply part_bind; [apply kpipealloc_part|].
  intros [[rf wf]|]; [|by apply quiet_end; [quiet|..]].
  eapply part_bind; [by apply fdalloc_part|]. intros [fd0|]; cycle 1.
  - apply quiet_then; [quiet|]. intros fd1. apply quiet_then; [quiet|]. intros u.
    by eapply part_end; [apply close_both|..].
  - apply part_and. intros H0. destruct (busy_upd ps p fd0 (Some rf) Hp Hi Ho) as [Hp1 Ho1].
    set (ps1 := alter (upd fd0 (Some rf)) cur ps) in *.
    pose proof (descs_set ps cur p fd0 rf Hp H0) as D1. fold ps1 in D1.
    eapply part_bind; [by apply fdalloc_part|]. intros [fd1|].
    + apply part_and. intros H1. destruct (busy_upd ps1 _ fd1 (Some wf) Hp1 Hi Ho1) as [_ Ho2].
      apply quiet_end; [quiet| |done]. rewrite (descs_set ps1 cur _ fd1 wf Hp1 H1), D1. done.
    + destruct (busy_upd ps1 _ fd0 None Hp1 Hi Ho1) as [_ Ho2].
      eapply part_bind; [apply set_fd_part|]. intros u. eapply part_end; [apply close_both| |done].
      assert (descs ps1 ≡ₚ rf :: descs (alter (upd fd0 None) cur ps1)) as D2.
      { eapply descs_clear; [exact Hp1|]. cbn. apply list_lookup_insert_eq. by eapply lookup_lt_Some. }
      rewrite D1 in D2. by apply Permutation_cons_inv in D2.
Qed.

Lemma keeps_pipe : keeps_fresh (sys_pipe kend me ebp cur).
Proof.
  intros k p a k' Hk Hfr [Hp Hi]. unfold sys_pipe. unfold mbind at 1, st_bind at 1.
  destruct (argptr cur 0 8 k) as [[[ad|] k1]| |] eqn:E; [| |done..]; apply reads_argptr in E; subst k1; cycle 1.
  { by intros [= <- <-]. }
  apply (pipe_part (kprocs k) p ad); [done|done|apply Hk|]. split; [by apply At_start|done].
Qed.

(** ** Processes that begin and end *)

(** A slot that was idle in [ps] after any change that keeps its files. *)
Lemma calms_idle ps ks i q f :
  Forall2 calm ps ks -> ps !! i = Some q -> idle (pstate q) = true -> (forall p, ofile (f p) = ofile p) ->
  Forall2 calm ps (alter f i ks).
Proof.
  intros Hb Hq Hi Hf. revert i Hq. induction Hb as [|x y ps qs [Hx Hs] Hb IH]; intros [|i] Hq; cbn in *; [done..| |].
  - injection Hq as ->. constructor; [|done]. split; [rewrite Hf; done|done].
  - constructor; [done|]. by apply IH.
Qed.

(** It may change as long as it has no files. *)
Lemma idle_upd_part D F ps i q f :
  ps !! i = Some q -> idle (pstate q) = true -> (forall p, ofile (f p) = ofile p) ->
  part (At D F ps) (proc_upd i f) (fun _ => At D F ps).
Proof. intros Hq Hi Hf k a k' [Ha Hb] [= <- <-]. split; [done|]. by apply (calms_idle ps _ i q). Qed.

Lemma allocslot_idle ps ks n np ps' n' :
  Forall2 calm ps ks -> allocslot ks n = Some (np, ps', n') ->
  (exists q, ps !! np = Some q /\ idle (pstate q) = true) /\
  ps' = alter (fun p => set_pid n (set_state EMBRYO p)) np ks /\ n' = n + 1.
Proof.
  intros Hc. unfold allocslot. destruct (first _ 0 ks) as [i|] eqn:E; [|done]. intros [= <- <- <-].
  assert (exists p, ks !! i = Some p /\ pstate p = UNUSED) as (p & Hp & Hu).
  { destruct (first_spec _ _ _ _ E) as (_ & p & Hp & Hs). rewrite Nat.sub_0_r in Hp. exists p. split; [done|].
    unfold in_state in Hs. by apply bool_decide_eq_true in Hs. }
  split; [|done]. destruct (Forall2_lookup_r _ _ _ _ _ Hc Hp) as (q & Hq & Hcalm). exists q. split; [done|].
  apply Hcalm. by rewrite Hu.
Qed.

Lemma allocproc_part D F ps :
  part (At D F ps) (allocproc me ebp) (fun r k =>
    match r with
    | Some np => (exists q, ps !! np = Some q /\ idle (pstate q) = true) /\
                 (exists q, kprocs k !! np = Some q /\ pstate q = EMBRYO)
    | None => True
    end /\ At D F ps k).
Proof.
  intros k r k' [Ha Hb]. unfold allocproc. unfold mbind at 1, st_bind at 1, gets at 1. cbn [id].
  destruct (allocslot (kprocs k) (knextpid k)) as [[[np ps1] n]|] eqn:E; [|by intros [= <- <-]].
  destruct (allocslot_idle _ _ _ _ _ _ Hb E) as ((q & Hq & Hi) & -> & ->).
  assert (exists x, kprocs k !! np = Some x) as [x Hx] by (by destruct (Forall2_lookup_l _ _ _ _ _ Hb Hq) as (x & ? & _); exists x).
  unfold mbind at 1, st_bind at 1, modify at 1. set (k1 := with_knextpid _ _). unfold mbind at 1, st_bind at 1.
  destruct (onmem (kalloc_ me ebp) k1) as [[ks k2]| |] eqn:E2; [|done..].
  assert (At D F ps k1) as H1 by (split; [done|]; cbn; by apply (calms_idle ps _ np q)).
  pose proof (quiet_onmem _ _ _ _ _ _ _ H1 E2) as H2.
  assert (kprocs k2 !! np = Some (set_pid (knextpid k) (set_state EMBRYO x))) as L2.
  { unfold onmem in E2. destruct (kalloc_ me ebp (kmem k1)) as [[y m]| |]; [|done..]. cbn in E2.
    injection E2 as <- <-. cbn. by rewrite list_lookup_alter_eq, Hx. }
  unfold mbind at 1, st_bind at 1, gets at 1. cbn [id]. unfold allocstack.
  destruct (ks =? 0); cbn; intros [= <- <-]; (split; [|split; [apply H2|]]); cbn.
  - done.
  - apply (calms_idle ps _ np q); [apply H2|done..].
  - split; [eauto|]. rewrite list_lookup_alter_eq, L2. cbn. eauto.
  - apply (calms_idle ps _ np q); [apply H2|done..].
Qed.

(** The descriptors are copied into [np]. *)
Lemma dup_files_part np l i ps q :
  ps !! np = Some q -> idle (pstate q) = false -> Forall proc_ok ps ->
  (forall j, (i <= j)%nat -> (j < i + length l)%nat -> ofile q !! j = Some None) ->
  (forall f, Some f ∈ l -> f ∈ descs ps) ->
  part (At (descs ps) [] ps) (dup_files np i l) (fun _ k =>
    exists ps', Forall proc_ok ps' /\ At (descs ps') [] ps' k).
Proof.
  revert i ps q. induction l as [|[f|] l IH]; intros i ps q Hq Hi Ho Hn Hl; cbn [dup_files].
  - apply part_done. intros k H. by exists ps.
  - eapply part_bind; [apply filedup_part, Hl; by left|]. intros f'. apply part_and. intros ->.
    eapply (part_bind _ _ _ (fun _ => At (descs (alter (upd i (Some f)) np ps)) [] (alter (upd i (Some f)) np ps))).
    + eapply part_conseq; [apply (set_fd_part np (f :: descs ps) [] ps i (Some f))|done|].
      intros u k. apply at_perm. symmetry. eapply descs_set; [done|]. apply Hn; [done|cbn; lia].
    + intros u. apply (IH (S i) _ (upd i (Some f) q)); [by rewrite list_lookup_alter_eq, Hq|done| | |].
      * eapply procs_ok_alter; [done|done|]. apply upd_ok; [by eapply Forall_lookup|by left].
      * intros j H1 H2. cbn. rewrite list_lookup_insert_ne by lia. apply Hn; [lia|cbn; lia].
      * intros g Hg. rewrite (descs_set ps np q i f); [right; apply Hl; by right|done|apply Hn; [done|cbn; lia]].
  - apply (IH (S i) ps q); [done|done|done|intros j H1 H2; apply Hn; [lia|cbn; lia]|intros g Hg; apply Hl; by right].
Qed.

Lemma at_rebase D F ps k : At D F ps k -> At D F (kprocs k) k.
Proof. intros [Ha Hb]. split; [done|apply calms_refl]. Qed.

Lemma reset_part D F ps i f :
  (forall p q, calm p q -> calm (f p) (f q)) ->
  part (At D F ps) (proc_upd i f) (fun _ => At D F (alter f i ps)).
Proof.
  intros Hf k a k' [Ha Hb] [= <- <-]. split; [done|]. cbn. clear Ha. revert i.
  induction Hb as [|x y ps qs Hx Hb IH]; intros [|i]; cbn; constructor; auto.
Qed.

Lemma descs_same ps i f : (forall p, ofile (f p) = ofile p) -> descs (alter f i ps) = descs ps.
Proof.
  intros Hf. unfold descs. revert i. induction ps as [|p ps IH]; intros [|i]; cbn; [done..| |].
  - unfold fds. by rewrite Hf.
  - by rewrite IH.
Qed.

(** [fork] once the child has a slot. *)
Lemma fork_part ps np p q :
  ps !! cur = Some p -> ps !! np = Some q -> idle (pstate q) = false -> ofile q = replicate NOFILE None ->
  Forall proc_ok ps ->
  part (At (descs ps) [] ps)
    (p ← myproc cur;
      d ← onmem (copyuvm kend me ebp data (pgdir p) (psz p));
      if d =? 0 then
        q ← proc_at np;
        _ ← onmem (kfree_ kend me ebp (kstack q));
        _ ← proc_upd np (fun q => set_state UNUSED (set_kstack 0 (set_space 0 (psz q) q)));
        mret (-1)
      else
        _ ← proc_upd np (fun q => set_tf (<[EAX := 0]> (tf p)) (set_parent (Some cur) (set_space d (psz p) q)));
        _ ← dup_files np 0 (ofile p);
        dir ← kcwd cur;
        dir ← onfs (idup dir);
        _ ← proc_upd np (fun q => set_files (ofile q) (Some dir) q);
        q ← proc_at np;
        name ← pure (copy_name (pname q) (pname p));
        _ ← proc_upd np (set_name name);
        _ ← proc_upd np (set_state RUNNABLE);
        mret (Proc.pid q)) (fun _ => kern_ok).
Proof.
  intros Hp Hq Hi Hn Ho. eapply part_bind; [by apply myproc_part|]. intros x. apply part_and. intros Hx.
  apply quiet_then; [quiet|]. intros d. destruct (d =? 0).
  - apply quiet_then; [quiet|]. intros y. apply quiet_then; [quiet|]. intros u.
    set (f := fun q => set_state UNUSED (set_kstack 0 (set_space 0 (psz q) q))).
    eapply part_bind; [apply (reset_part _ _ _ np f); intros a b [E _]; split; [exact E|done]|]. intros u'.
    apply quiet_end; [quiet|by rewrite descs_same|].
    eapply procs_ok_alter; [done|done|]. split; [apply (po_len q); by eapply Forall_lookup|intros _; exact Hn].
  - apply quiet_then; [quiet|]. intros u.
    eapply part_bind; [apply (dup_files_part np (ofile x) 0 ps q)|]; [done|done|done| | |].
    + intros j _ Hj. rewrite Hn. apply lookup_replicate_2. rewrite Hx in Hj. cbn in Hj.
      by rewrite (po_len p) in Hj; [|by eapply Forall_lookup].
    + intros f Hf. rewrite Hx in Hf. apply list_elem_of_lookup in Hf as [fd Hfd]. exact (descs_in ps cur p fd f Hp Hfd).
    + intros u' k a k' (ps' & Ho' & H) E. revert k a k' H E.
      change (part (At (descs ps') [] ps') (dir ← kcwd cur;
        dir ← onfs (idup dir);
        _ ← proc_upd np (fun q => set_files (ofile q) (Some dir) q);
        q ← proc_at np;
        name ← pure (copy_name (pname q) (pname x));
        _ ← proc_upd np (set_name name);
        _ ← proc_upd np (set_state RUNNABLE);
        mret (Proc.pid q)) (fun _ => kern_ok)).
      apply quiet_end; [quiet|done|done].
Qed.

Lemma keeps_fork : keeps cur (fork kend me ebp data cur).
Proof.
  apply part_keeps. intros ps p Hp Hi Ho. unfold fork. eapply part_bind; [apply allocproc_part|].
  intros [np|]; [|apply part_and; intros _; by apply quiet_end; [quiet|..]].
  intros k a k' [((q & Hq & Hiq) & (r & Hr & Er)) H] E.
  destruct H as [Ha Hb]. destruct (Forall2_lookup_l _ _ _ _ _ Hb Hp) as (p1 & Hp1 & _).
  destruct (Forall2_lookup_lr _ _ _ _ _ _ Hb Hq Hr) as [Eq _].
  eapply (fork_part (kprocs k) np p1 r); [done|done|by rewrite Er| | | |exact E].
  - rewrite Eq. by apply (po_idle q); [by eapply Forall_lookup|].
  - by eapply calms_ok.
  - split; [by rewrite (calms_descs _ _ Hb)|apply calms_refl].
Qed.

(** Descriptor [fd] is closed. *)
Lemma close_one_part ps p fd f :
  ps !! cur = Some p -> ofile p !! fd = Some (Some f) ->
  part (At (descs ps) [] ps) (_ ← fileclose kend me ebp cur f; set_fd cur fd None)
    (fun _ => At (descs (alter (upd fd None) cur ps)) [] (alter (upd fd None) cur ps)).
Proof.
  intros Hp Hf. eapply (part_bind _ _ _ (fun _ => At (descs (alter (upd fd None) cur ps)) [] ps)).
  - eapply part_conseq; [apply (fileclose_part kend me ebp cur (descs (alter (upd fd None) cur ps)) [] ps f)|
      |intros u x Hx; exact Hx].
    intros x. apply at_perm. by eapply descs_clear.
  - intros u. apply set_fd_part.
Qed.

(** The process [p] has become [p'], with the descriptors of [lo, hi) closed. *)
Record closes (lo hi : nat) (p p' : proc) : Prop := {
  cs_busy : idle (pstate p') = false;
  cs_low j : (j < lo)%nat -> ofile p' !! j = ofile p !! j;
  cs_closed j v : (lo <= j < hi)%nat -> ofile p' !! j = Some v -> v = None
}.

Lemma close_files_part n fd ps p :
  ps !! cur = Some p -> idle (pstate p) = false -> Forall proc_ok ps ->
  part (At (descs ps) [] ps) (close_files kend me ebp cur n fd) (fun _ k =>
    exists ps' p', ps' !! cur = Some p' /\ Forall proc_ok ps' /\ closes fd (fd + n) p p' /\ At (descs ps') [] ps' k).
Proof.
  revert fd ps p. induction n as [|n IH]; intros fd ps p Hp Hi Ho; cbn [close_files].
  { apply part_done. intros k H. exists ps, p. split_and!; try done. split; [done|done|]. intros; lia. }
  eapply part_bind; [by apply myproc_part|]. intros x. apply part_and. intros Hx.
  intros k a k' H. unfold mbind at 1, st_bind at 1, pure at 1, nth_res. rewrite Hx.
  destruct (ofile p !! fd) as [v|] eqn:Ev; [|done]. cbn [mbind res_bind]. revert k a k' H.
  destruct v as [f|].
  - destruct (busy_upd ps p fd None Hp Hi Ho) as [Hp1 Ho1].
    apply (part_bind _ _ _ _ _ (close_one_part ps p fd f Hp Ev)). intros u. eapply part_conseq; [apply (IH (S fd) (alter (upd fd None) cur ps) (upd fd None p)); [done|done|done]|intros k1 H1; exact H1|].
    intros u' k1 (ps' & p' & Hp' & Ho' & [C1 C2 C3] & H'). exists ps', p'. split_and!; try done. split; [done| |].
    + intros j Hj. rewrite C2 by lia. cbn. by rewrite list_lookup_insert_ne by lia.
    + intros j w Hj Hw. destruct (decide (j = fd)) as [->|]; [|apply (C3 j); [lia|done]].
      rewrite C2 in Hw by lia. cbn in Hw. rewrite list_lookup_insert_eq in Hw by (by eapply lookup_lt_Some). congruence.
  - apply quiet_then; [quiet|]. intros u. eapply part_conseq; [apply (IH (S fd) ps p); [done|done|done]|intros k1 H1; exact H1|].
    intros u' k1 (ps' & p' & Hp' & Ho' & [C1 C2 C3] & H'). exists ps', p'. split_and!; try done. split; [done| |].
    + intros j Hj. apply C2. lia.
    + intros j w Hj Hw. destruct (decide (j = fd)) as [->|]; [|apply (C3 j); [lia|done]].
      rewrite C2 in Hw by lia. congruence.
Qed.

Lemma closes_none p p' : proc_ok p' -> closes 0 NOFILE p p' -> ofile p' = replicate NOFILE None.
Proof.
  intros [Hl _] [_ _ Hc]. apply list_eq. intros j. destruct (ofile p' !! j) as [v|] eqn:E.
  - pose proof (lookup_lt_Some _ _ _ E) as Hj. rewrite Hl in Hj. rewrite lookup_replicate_2 by done.
    f_equal. apply (Hc j); [lia|done].
  - symmetry. apply lookup_ge_None. rewrite length_replicate, <- Hl. by apply lookup_ge_None.
Qed.

Lemma calms_wakeup1 ps c : Forall2 calm ps (wakeup1 c ps).
Proof.
  apply calms_map; [apply calms_refl|]. intros p. unfold wake.
  destruct (in_state SLEEPING p && bool_decide (Proc.chan p = c)); split; done.
Qed.

Lemma calms_abandon m i n j ps : Forall2 calm ps (abandon m i n j ps).
Proof.
  revert j ps. induction n as [|n IH]; intros j ps; cbn [abandon]; [apply calms_refl|].
  eapply calms_trans; [|apply IH]. destruct (ps !! j) as [p|] eqn:E; [|apply calms_refl].
  destruct (bool_decide (parent p = m)); [|apply calms_refl].
  assert (Forall2 calm ps (<[j := set_parent i p]> ps)) as Hc.
  { rewrite <- (list_insert_id ps j p E) at 1. apply Forall2_insert; [apply calms_refl|by split]. }
  destruct (in_state ZOMBIE p); [|done]. eapply calms_trans; [exact Hc|apply calms_wakeup1].
Qed.

(** The process table after [exit]. *)
Lemma exit_table_ok i ps p :
  ps !! cur = Some p -> ofile p = replicate NOFILE None -> Forall proc_ok ps ->
  Forall proc_ok (exit_table cur i ps) /\ descs (exit_table cur i ps) = descs ps.
Proof.
  intros Hp Hn Ho. unfold exit_table. rewrite Hp.
  set (ps1 := wakeup1 _ ps). set (ps2 := abandon _ _ _ _ _).
  assert (Forall2 calm ps ps2) as Hc by (eapply calms_trans; [apply calms_wakeup1|apply calms_abandon]).
  destruct (Forall2_lookup_l _ _ _ _ _ Hc Hp) as (q & Hq & [Eq _]).
  split; [|rewrite descs_same by done; by apply calms_descs].
  eapply procs_ok_alter; [by eapply calms_ok|done|]. split; [apply (po_len q); eapply Forall_lookup; [by eapply calms_ok|done]|].
  intros _. cbn [ofile set_state]. congruence.
Qed.

Lemma keeps_exit : keeps cur (exit kend me ebp cur).
Proof.
  apply part_keeps. intros ps p Hp Hi Ho. unfold exit. apply quiet_then; [quiet|]. intros i.
  destruct (bool_decide (Some cur = i)); [apply part_fault|].
  eapply part_bind; [by apply (close_files_part NOFILE 0 ps p)|]. intros u k a k' (ps' & p' & Hp' & Ho' & Hcl & H).
  apply (closes_none p p') in Hcl; [|by eapply Forall_lookup]. revert k a k' H.
  do 5 (apply quiet_then; [quiet|]; intros ?).
  intros k1 r1 k1' [Ha Hb] [= <- <-].
  destruct (Forall2_lookup_l _ _ _ _ _ Hb Hp') as (q & Hq & [Eq _]).
  destruct (exit_table_ok (kinit k1) (kprocs k1) q) as [A B]; [done|congruence|by eapply calms_ok|].
  split; [|exact A]. cbn [kprocs files pipes with_kprocs]. by rewrite B, (calms_descs _ _ Hb).
Qed.

Lemma keeps_wait : keeps cur (wait kend me ebp cur).
Proof.
  apply part_keeps. intros ps p Hp Hi Ho k a k' [Ha Hb]. unfold wait. unfold mbind at 1, st_bind at 1, gets at 1. cbn [id].
  destruct (wait_scan cur false 0 (kprocs k)) as [j|b] eqn:E.
  - destruct (wait_scan_reap _ _ _ _ _ E) as (_ & q & Hq & _ & Hz). rewrite Nat.sub_0_r in Hq.
    destruct (Forall2_lookup_r _ _ _ _ _ Hb Hq) as (x & Hx & [_ Hxi]). rewrite Hz in Hxi.
    intros E2. eapply (part_bind (At (descs ps) [] ps) _ _ _ (fun _ => kern_ok)) in E2;
      [exact E2|apply quiet_proc_at| |by split].
    intros y. apply quiet_then; [quiet|]. intros u. apply quiet_then; [quiet|]. intros u'.
    eapply part_bind; [apply (idle_upd_part _ _ _ j x); [done|by apply Hxi|done]|]. intros u''.
    by apply quiet_end; [quiet|..].
  - intros E2. eapply (part_bind (At (descs ps) [] ps) _ _ _ (fun _ => kern_ok)) in E2;
      [exact E2|apply quiet_myproc| |by split].
    intros y. by apply quiet_end; [quiet|..].
Qed.

Lemma quiet_kill : quiet (sys_kill cur).
Proof.
  unfold sys_kill. apply quiet_bind; [quiet|]. intros [n|]; [|quiet].
  intros D F ps k a k' [Ha Hb]. unfold mbind, st_bind, gets, modify, mret, st_ret. cbn [id]. intros [= <- <-].
  split; [done|]. cbn [kprocs with_kprocs]. unfold kill. destruct (first _ 0 (kprocs k)) as [i|]; [|done]. cbn [snd].
  apply calms_alter; [done|]. intros p. unfold in_state. cbn. case_bool_decide; by split.
Qed.

Lemma quiet_read_struct ip off n : quiet (read_struct dev_read cur ip off n).
Proof. unfold read_struct. quiet. Qed.
#[local] Hint Resolve quiet_read_struct : quiet.

Lemma quiet_load_segments n pg ip off sz : quiet (load_segments kend me ebp dev_read cur n pg ip off sz).
Proof. revert off sz. induction n as [|n IH]; intros off sz; cbn [load_segments]; quiet. Qed.

Lemma quiet_push_args argv argc pg sp us : quiet (push_args me ebp argc argv pg sp us).
Proof. revert argc sp us. induction argv as [|a argv IH]; intros argc sp us; cbn [push_args]; quiet. Qed.
#[local] Hint Resolve quiet_load_segments quiet_push_args : quiet.

Lemma quiet_exec path argv : quiet (exec kend me ebp data dev_read garbage cur path argv).
Proof. unfold exec, exec_bad, make_stack, exec_commit. quiet. Qed.

Lemma quiet_exec_args n uargv i acc : quiet (exec_args cur n uargv i acc).
Proof. revert i acc. induction n as [|n IH]; intros i acc; cbn [exec_args]; quiet. Qed.
#[local] Hint Resolve quiet_exec quiet_exec_args : quiet.

Lemma quiet_sys_exec : quiet (sys_exec kend me ebp data dev_read garbage cur).
Proof. unfold sys_exec. quiet. Qed.

Lemma quiet_growproc n : quiet (growproc kend me ebp cur n).
Proof. unfold growproc. quiet. Qed.
Lemma quiet_makex v n : quiet (makex kend me ebp cur v n).
Proof. unfold makex. quiet. Qed.
#[local] Hint Resolve quiet_growproc quiet_makex : quiet.

Lemma quiet_sbrk : quiet (sys_sbrk kend me ebp cur).
Proof. unfold sys_sbrk. quiet. Qed.
Lemma quiet_sbrkx : quiet (sys_sbrkx kend me ebp cur).
Proof. unfold sys_sbrkx. quiet. Qed.
Lemma quiet_sleep : quiet (sys_sleep cur).
Proof. unfold sys_sleep. quiet. Qed.
Lemma quiet_getpid : quiet (sys_getpid cur).
Proof. unfold sys_getpid. quiet. Qed.
Lemma quiet_uptime : quiet sys_uptime.
Proof. unfold sys_uptime. quiet. Qed.

Lemma keeps_bind_quiet {A B} (m : ST kern A) (f : A -> ST kern B) :
  keeps cur m -> (forall a, quiet (f a)) -> keeps cur (m ≫= f).
Proof.
  intros Hm Hf k p b k' Hk Hb. unfold mbind, st_bind. destruct (m k) as [[a k1]| |] eqn:E; [|done..].
  intros E2. pose proof (Hm k p a k1 Hk Hb E) as H1.
  eapply at_end; [eapply Hf; [by apply At_start|exact E2]|reflexivity|apply H1].
Qed.

Lemma keeps_weak {A} (m : ST kern A) : keeps cur m -> keeps_fresh m.
Proof. intros H k p a k' Hk _. by apply H. Qed.

Lemma syscalls_keep num f :
  syscalls kend me ebp data dev_read dev_write garbage cur num = Some f -> keeps_fresh f.
Proof.
  unfold syscalls. intros H.
  repeat match type of H with match ?x with _ => _ end = _ => destruct x; try discriminate H end;
    injection H as <-;
    first [apply keeps_pipe
          |apply keeps_weak; first [apply keeps_fork|apply keeps_wait|apply keeps_dup|apply keeps_close|apply keeps_open
             |unfold sys_exit; apply keeps_bind_quiet; [apply keeps_exit|quiet]]
          |apply keeps_weak, quiet_keeps; first [apply quiet_kill|apply quiet_sys_exec|apply quiet_read|apply quiet_write
             |apply quiet_fstat|apply quiet_chdir|apply quiet_getpid|apply quiet_sbrk|apply quiet_sbrkx|apply quiet_sleep
             |apply quiet_uptime|apply quiet_mknod|apply quiet_unlink|apply quiet_link|apply quiet_mkdir]].
Qed.

Lemma keeps_syscall : keeps_fresh (syscall kend me ebp data dev_read dev_write garbage cur).
Proof.
  intros k p a k' Hk Hfr Hb. unfold syscall. unfold mbind at 1, st_bind at 1, myproc at 1, proc_at at 1, nth_res at 1.
  rewrite (proj1 Hb). cbn [mbind res_bind]. unfold pure at 1. unfold mbind at 1, st_bind at 1.
  destruct (nth_res (tf p) EAX) as [num| |]; [|done..]. cbn [mbind res_bind].
  destruct (syscalls kend me ebp data dev_read dev_write garbage cur (s32 num)) as [f|] eqn:E.
  - unfold mbind at 1, st_bind at 1. destruct (f k) as [[r k1]| |] eqn:Ef; [|done..].
    pose proof (syscalls_keep _ _ E k p r k1 Hk Hfr Hb Ef) as H1. intros E2.
    eapply at_end; [|reflexivity|apply H1].
    assert (forall m : ST kern unit, quiet m -> m k1 = Ok (a, k') -> At (descs (kprocs k1)) [] (kprocs k1) k') as X.
    { intros m Hm Em. eapply Hm; [by apply At_start|exact Em]. }
    eapply X; [|exact E2]. quiet.
  - intros E2. eapply quiet_keeps; [|exact Hk|exact Hb|exact E2]. quiet.
Qed.
End calls.

(** A descriptor that can be used: it refers to an open file, the count of
    which is positive, and the pipe of a pipe exists. *)
Definition usable (k : kern) (f : nat) : Prop :=
  exists x, files k !! f = Some x /\ 1 <= f_ref x /\ f_type x <> FD_NONE /\
    (f_type x = FD_PIPE -> is_Some (pipes k !! f_pipe x)) /\ (exists k', filedup f k = Ok (f, k')).

Lemma kern_ok_usable k i p fd f :
  kern_ok k -> kprocs k !! i = Some p -> ofile p !! fd = Some (Some f) -> usable k f.
Proof.
  intros Hk Hp Hf. pose proof (descs_in _ _ _ _ _ Hp Hf) as Hd. pose proof (ko_files _ Hk) as H.
  destruct (lookup_lt_is_Some_2 (files k) f) as [x Hx]; [by apply (fo_bound _ _ _ _ H)|].
  exists x. split_and!; [done| | | |].
  - rewrite (fo_ref _ _ _ _ H f x Hx). apply cnt_pos in Hd. lia.
  - apply (fo_open _ _ _ _ H f x); [done|apply not_elem_of_nil|done].
  - intros Tx. destruct (fo_pipe _ _ _ _ H f x Hx Tx) as (q & Hq & _). eauto.
  - destruct (filedup_run _ _ _ f k (At_start k Hk) Hd) as (k' & E & _). eauto.
Qed.


(** ** A call of [pipe] *)

(** A page directory, a page table, the page of the process, whose stack holds
    the argument, and a free page. *)
Definition pipe_word (a : Z) : Z :=
  if a =? KERNBASE + 0x400000 then 0x401000 + 7
  else if a =? KERNBASE + 0x401000 then 0x402000 + 7
  else if a =? KERNBASE + 0x402804 then 0x100
  else 0.

Definition pipe_mem : kst :=
  {| km := {| klock := initlock; use_lock := false; freelist := KERNBASE + 0x403000 |};
     kcpu := {| ncli := 0; intena := false; fl_if := true |}; word := pipe_word |}.

Definition no_fs : fs :=
  {| fdsk := {| dlog := log0; dbio := {| bufs := []; memdisk := []; disksize := 0; writes := [] |} |};
     fsb := {| sb_size := 0; nblocks := 0; ninodes := 0; nlog := 0; logstart := 0; inodestart := 0; bmapstart := 0 |};
     icache := [] |}.

(** The process calls [pipe] (number 4) with the stack pointer 0x800. *)
Definition pipe_proc : proc :=
  set_state RUNNING (set_pid 1 (set_space (KERNBASE + 0x400000) 4096
    (set_tf (<[EAX := 4]> (<[ESP := 0x800]> (replicate TFWORDS 0))) proc0))).

Definition pipe_kern : kern :=
  {| kfs := no_fs; kmem := pipe_mem; files := replicate NFILE file0; pipes := ∅;
     kprocs := pipe_proc :: replicate 63 proc0; knextpid := 2; kinit := Some 0%nat; ticks := 0 |}.

Definition pipe_run : res (unit * kern) :=
  syscall (KERNBASE + 0x100000) 0 0 0 (fun _ => None) (fun _ => None) (replicate 14 0) 0 pipe_kern.

Definition pipe_done : kern := match pipe_run with Ok (_, k) => k | _ => pipe_kern end.

Lemma pipe_runs :
  syscall (KERNBASE + 0x100000) 0 0 0 (fun _ => None) (fun _ => None) (replicate 14 0) 0 pipe_kern = Ok ((), pipe_done).
Proof.
  assert (match pipe_run with Ok _ => true | _ => false end = true) as E by (vm_compute; reflexivity).
  unfold pipe_done. unfold pipe_run in *. set (r := syscall _ _ _ _ _ _ _ _ _) in *. clearbody r.
  destruct r as [[[] k]| |]; [done|discriminate E..].
Qed.

Lemma pipe_kern_ok : kern_ok pipe_kern.
Proof.
  assert (forall f x, replicate NFILE file0 !! f = Some x -> x = file0) as L.
  { intros f x Hx. by apply lookup_replicate_1 in Hx as [-> _]. }
  split.
  - change (descs (kprocs pipe_kern)) with (@nil nat). cbn [files pipes pipe_kern]. split; intros.
    + by apply L in H as ->.
    + by apply not_elem_of_nil in H.
    + by apply L in H as ->.
    + by apply not_elem_of_nil in H.
    + by apply not_elem_of_nil in H.
    + by apply L in H as ->.
    + by apply L in H as ->.
    + by rewrite lookup_empty in H.
    + by rewrite lookup_empty in H.
  - constructor; [by split|]. apply Forall_replicate. by split.
Qed.

