(* ===== verification/SysArgs.v ===== *)
(** * Arguments of system calls stay inside the process

    [fetchint], [fetchstr], [argint], [argptr] and [argstr] on a process whose
    pages are mapped: they never fault, they read only memory below its size, and
    the pointers they accept lie below it. *)

From stdpp Require Import base list strings gmap.
From Stdlib Require Import ZArith Lia.
From S2P Require Import Prelude State KString Spinlock Kalloc Bio Log Fs Vm VmBase VmSystem Pipe Proc Kernel Sysfile Sysproc FileProofs SysProofs SysCalls.

Open Scope Z_scope.

(** Every page below [sz] is present. *)
Definition mapped (w : Z -> Z) (pg sz : Z) : Prop := forall va, 0 <= va < sz -> is_Some (mmu w pg va).

(** The byte of the process at [va]. *)
Definition ubyte (w : Z -> Z) (pg va : Z) : Z :=
  match mmu w pg va with Some (pa, _) => byte_at w (P2V pa) | None => 0 end.

(** The memories of [VmSystem] are mapped. *)
Lemma sys_mapped kend data all s A F free pg sz ps :
  sys kend data all s A F free -> A !! pg = Some (sz, ps) -> mapped (word s) pg sz.
Proof.
  intros Hs HA va Hva. destruct (sys_focus kend data all s A F free pg Hs) as (l & T & M & sz' & ps' & S & HA' & _ & Hf); [eauto|].
  assert (sz' = sz /\ ps' = ps) as [-> ->] by (rewrite HA in HA'; by injection HA' as -> ->).
  destruct Hf as [Hsp [Msz Mlen Mpage _ _] _ _]. unfold KERNBASE in Msz.
  rewrite (mmu_spec kend s l _ pg T M va Hsp) by lia.
  assert (0 <= va / 4096) as H0 by (apply Z.div_pos; lia).
  assert (va / 4096 < npages sz) as Hn.
  { unfold npages. apply Z.div_lt_upper_bound; [lia|]. pose proof (Z.mod_pos_bound (sz + 4095) 4096).
    pose proof (Z.div_mod (sz + 4095) 4096). lia. }
  destruct (ps !! Z.to_nat (va / 4096)) as [[f bs]|] eqn:E; [|apply lookup_ge_None in E; lia].
  destruct (Mpage _ _ _ E) as (pa & HM & _). rewrite Z2Nat.id in HM by lia. rewrite HM. eauto.
Qed.

(** ** Reading user memory *)

Section args.
Context (cur : nat) (k : kern) (p : proc).
Hypothesis Hcur : kprocs k !! cur = Some p.
Hypothesis Hsz : 0 <= psz p <= KERNBASE.
Hypothesis Hmap : mapped (word (kmem k)) (pgdir p) (psz p).

Notation ub := (ubyte (word (kmem k)) (pgdir p)).

Lemma uread_run va : 0 <= va < psz p -> uread (pgdir p) va k = Ok (ub va, k).
Proof.
  intros Hva. unfold uread, ubyte. destruct (Hmap va Hva) as [[pa f] E]. by rewrite E.
Qed.

Lemma ureads_run n va :
  0 <= va -> va + Z.of_nat n <= psz p ->
  ureads (pgdir p) va n k = Ok (map (fun i => ub (va + Z.of_nat i)) (seq 0 n), k).
Proof.
  revert va. induction n as [|n IH]; intros va H0 Hn; [done|]. unfold KERNBASE in Hsz. cbn [ureads].
  unfold mbind, st_bind. rewrite uread_run by lia. unfold u32. rewrite Z.mod_small by lia.
  rewrite IH by lia. unfold mret, st_ret. cbn [seq map]. do 2 f_equal. rewrite Z.add_0_r. f_equal.
  rewrite <- seq_shift, map_map. apply map_ext. intros i. f_equal. lia.
Qed.

Lemma myproc_run : myproc cur k = Ok (p, k).
Proof. unfold myproc, proc_at, nth_res. by rewrite Hcur. Qed.

Lemma fetchint_run addr :
  0 <= addr < 2 ^ 32 ->
  exists r, fetchint cur addr k = Ok (r, k) /\
    match r with
    | Some v => addr + 4 <= psz p /\ v = s32 (le_value (map (fun i => ub (addr + Z.of_nat i)) (seq 0 4)))
    | None => psz p < addr + 4
    end.
Proof.
  intros Ha. unfold KERNBASE in Hsz. unfold fetchint, mbind, st_bind. rewrite myproc_run.
  destruct (Z.leb_spec (psz p) addr); cbn [orb].
  { exists None. split; [done|lia]. }
  unfold u32. rewrite Z.mod_small by lia. destruct (Z.ltb_spec (psz p) (addr + 4)); cbn [orb].
  { exists None. split; [done|lia]. }
  rewrite ureads_run by lia. eexists. split; [reflexivity|]. split; [lia|done].
Qed.

Lemma strend_run n s len :
  0 <= s <= psz p -> psz p - s < Z.of_nat n ->
  exists r, strend n (pgdir p) s (psz p) len k = Ok (r, k) /\
    match r with
    | Some l => len <= l /\ s + (l - len) < psz p /\ ub (s + (l - len)) = 0 /\
                (forall j, 0 <= j < l - len -> ub (s + j) <> 0)
    | None => forall a, s <= a < psz p -> ub a <> 0
    end.
Proof.
  revert s len. induction n as [|n IH]; intros s len Hs Hn; [lia|]. unfold KERNBASE in Hsz. cbn [strend].
  destruct (Z.ltb_spec s (psz p)) as [Hlt|Hge]; cycle 1.
  { exists None. split; [done|]. intros; lia. }
  unfold mbind, st_bind. rewrite uread_run by lia. destruct (Z.eqb_spec (ub s) 0) as [E|E].
  - exists (Some len). split; [done|]. rewrite Z.sub_diag, Z.add_0_r. split_and!; [lia|lia|done|intros; lia].
  - unfold u32. rewrite Z.mod_small by lia. destruct (IH (s + 1) (len + 1)) as (r & Er & Hr); [lia|lia|].
    exists r. split; [exact Er|]. destruct r as [l|].
    + destruct Hr as (A & B & C & D). split_and!; [lia|lia|by replace (s + (l - len)) with (s + 1 + (l - (len + 1))) by lia|].
      intros j Hj. destruct (decide (j = 0)) as [->|]; [by rewrite Z.add_0_r|].
      replace (s + j) with (s + 1 + (j - 1)) by lia. apply D. lia.
    + intros a Ha. destruct (decide (a = s)) as [->|]; [done|]. apply Hr. lia.
Qed.

Lemma fetchstr_run addr :
  0 <= addr < 2 ^ 32 ->
  exists r, fetchstr cur addr k = Ok (r, k) /\
    match r with
    | Some l => 0 <= l /\ addr + l < psz p /\ ub (addr + l) = 0 /\ (forall j, 0 <= j < l -> ub (addr + j) <> 0)
    | None => forall a, addr <= a < psz p -> ub a <> 0
    end.
Proof.
  intros Ha. unfold fetchstr, mbind, st_bind. rewrite myproc_run. destruct (Z.leb_spec (psz p) addr).
  { exists None. split; [done|]. intros; lia. }
  destruct (strend_run (S (Z.to_nat (psz p))) addr 0) as (r & E & Hr); [lia|lia|]. exists r. split; [exact E|].
  destruct r as [l|]; [|done]. rewrite Z.sub_0_r in Hr. done.
Qed.

Lemma argint_run n sp :
  tf p !! ESP = Some sp ->
  exists r, argint cur n k = Ok (r, k) /\
    match r with Some v => u32 (sp + 4 + 4 * n) + 4 <= psz p | None => psz p < u32 (sp + 4 + 4 * n) + 4 end.
Proof.
  intros Hsp. unfold argint, mbind, st_bind. rewrite myproc_run. unfold pure, nth_res. rewrite Hsp. cbn [mbind res_bind].
  destruct (fetchint_run (u32 (sp + 4 + 4 * n))) as (r & E & Hr); [unfold u32; apply Z.mod_pos_bound; lia|].
  exists r. split; [exact E|]. destruct r as [v|]; [tauto|done].
Qed.

Lemma argptr_run n size sp :
  tf p !! ESP = Some sp -> -2 ^ 31 <= size < 2 ^ 31 ->
  exists r, argptr cur n size k = Ok (r, k) /\
    match r with Some a => 0 <= a /\ 0 <= size /\ a + size <= psz p | None => True end.
Proof.
  intros Hsp Hz. unfold KERNBASE in Hsz. unfold argptr, mbind, st_bind. rewrite myproc_run.
  destruct (argint_run n sp Hsp) as (r & -> & _). destruct r as [v|]; [|by exists None].
  assert (0 <= u32 v < 2 ^ 32) as Hv by (unfold u32; apply Z.mod_pos_bound; lia).
  destruct (Z.ltb_spec size 0); cbn [orb]; [by exists None|].
  destruct (Z.leb_spec (psz p) (u32 v)); cbn [orb]; [by exists None|].
  assert (u32 (u32 v + size) = u32 v + size) as -> by (unfold u32 at 1; rewrite Z.mod_small; lia).
  destruct (Z.ltb_spec (psz p) (u32 v + size)); cbn [orb]; [by exists None|].
  exists (Some (u32 v)). split; [done|]. lia.
Qed.

Lemma argstr_run n sp :
  tf p !! ESP = Some sp ->
  exists r, argstr cur n k = Ok (r, k) /\
    match r with
    | Some (a, l) => 0 <= a /\ 0 <= l /\ a + l < psz p /\
        exists bs, ustring cur (a, l) k = Ok (bs, k) /\ zlen bs = l + 1 /\ bs !! Z.to_nat l = Some 0
    | None => True
    end.
Proof.
  intros Hsp. unfold argstr, mbind, st_bind. destruct (argint_run n sp Hsp) as (r & -> & _).
  destruct r as [v|]; [|by exists None].
  assert (0 <= u32 v < 2 ^ 32) as Hv by (unfold u32; apply Z.mod_pos_bound; lia).
  destruct (fetchstr_run (u32 v) Hv) as (r & -> & Hr). destruct r as [l|]; [|by exists None].
  destruct Hr as (A & B & C & D). eexists. split; [reflexivity|]. cbn. split_and!; [lia|done|done|].
  unfold ustring, mbind, st_bind. rewrite myproc_run. cbn [fst snd]. rewrite ureads_run by lia.
  eexists. split; [reflexivity|]. split.
  - unfold zlen. rewrite length_map, length_seq. lia.
  - rewrite list_lookup_fmap, lookup_seq_lt by lia. cbn. f_equal. rewrite <- C. f_equal. lia.
Qed.
End args.

(** C31.  For a process whose pages below its size are present, looking at the
    arguments of a system call never faults and changes nothing: an integer or a
    string is read only from memory below the size of the process, a pointer to
    [size] bytes is accepted only if all of them lie below it, and an accepted
    string ends below it and is there when it is used. *)
Theorem syscall_args_safe cur k p sp :
  kprocs k !! cur = Some p -> 0 <= psz p <= KERNBASE -> mapped (word (kmem k)) (pgdir p) (psz p) ->
  tf p !! ESP = Some sp ->
  (forall n, exists r, argint cur n k = Ok (r, k) /\
     match r with Some v => u32 (sp + 4 + 4 * n) + 4 <= psz p | None => psz p < u32 (sp + 4 + 4 * n) + 4 end) /\
  (forall n size, -2 ^ 31 <= size < 2 ^ 31 -> exists r, argptr cur n size k = Ok (r, k) /\
     match r with Some a => 0 <= a /\ 0 <= size /\ a + size <= psz p | None => True end) /\
  (forall n, exists r, argstr cur n k = Ok (r, k) /\
     match r with
     | Some (a, l) => 0 <= a /\ 0 <= l /\ a + l < psz p /\
         exists bs, ustring cur (a, l) k = Ok (bs, k) /\ zlen bs = l + 1 /\ bs !! Z.to_nat l = Some 0
     | None => True
     end) /\
  (forall addr, 0 <= addr < 2 ^ 32 -> exists r, fetchstr cur addr k = Ok (r, k) /\
     match r with
     | Some l => 0 <= l /\ addr + l < psz p /\ ubyte (word (kmem k)) (pgdir p) (addr + l) = 0 /\
         (forall j, 0 <= j < l -> ubyte (word (kmem k)) (pgdir p) (addr + j) <> 0)
     | None => forall a, addr <= a < psz p -> ubyte (word (kmem k)) (pgdir p) a <> 0
     end).
Proof.
  intros Hc Hs Hm Ht. split_and!; intros.
  - by apply (argint_run cur k p).
  - by apply (argptr_run cur k p Hc Hs Hm n size sp).
  - by apply (argstr_run cur k p Hc Hs Hm n sp).
  - by apply (fetchstr_run cur k p).
Qed.

(** The process of [pipe_kern] has one page. *)
Lemma pipe_mapped : mapped (word (kmem pipe_kern)) (pgdir pipe_proc) (psz pipe_proc).
Proof.
  intros va Hva. change (psz pipe_proc) with 4096 in Hva.
  assert (PDX va = 0) as E1 by (rewrite PDX_of; [|lia..]; rewrite (Z.div_small va 4096) by lia; reflexivity).
  assert (PTX va = 0) as E2 by (rewrite PTX_of; rewrite (Z.div_small va 4096) by lia; reflexivity).
  set (w := word (kmem pipe_kern)). set (pg := pgdir pipe_proc). unfold mmu. rewrite E1, E2.
  assert (has (w (pg + 4 * 0)) PTE_P = true) as H1 by (vm_compute; reflexivity).
  assert (has (w (P2V (PTE_ADDR (w (pg + 4 * 0))) + 4 * 0)) PTE_P = true) as H2 by (vm_compute; reflexivity).
  cbv zeta. rewrite H1, H2. eauto.
Qed.

Lemma syscall_args_safe_witness :
  kprocs pipe_kern !! 0%nat = Some pipe_proc /\ tf pipe_proc !! ESP = Some 0x800 /\
  exists r, argptr 0 0 8 pipe_kern = Ok (r, pipe_kern) /\
    match r with Some a => 0 <= a /\ 0 <= 8 /\ a + 8 <= psz pipe_proc | None => True end.
Proof.
  split; [reflexivity|]. split; [reflexivity|].
  destruct (syscall_args_safe 0 pipe_kern pipe_proc 0x800 eq_refl) as (_ & H & _);
    [vm_compute; split; congruence|apply pipe_mapped|reflexivity|].
  apply (H 0 8). lia.
Defined.

(** A pointer to a page that is not writable, such as the code that [sbrkx]
    maps, is accepted for a result too: the kernel stores through it and
    panics.  Here the process calls [pipe] with its page read-only. *)
Lemma result_into_code_panics :
  let k := with_mem pipe_kern (with_word pipe_mem (set_word pipe_word (KERNBASE + 0x401000) (0x402000 + 5))) in
  syscall (KERNBASE + 0x100000) 0 0 0 (fun _ => None) (fun _ => None) (replicate 14 0) 0 k = Fault (Panic "trap").
Proof. vm_compute. reflexivity. Qed.
