(* ===== verification/User.v ===== *)
(** * User programs as trees of system calls

    A user program computes, makes a system call, and goes on with what the
    kernel answers.  [prog A] is such a program up to a point where it has a value
    of [A]; the answers of the kernel are not fixed here.  A program that forks
    goes on twice, with the answer 0 and with a pid. *)

From stdpp Require Import base list strings.
From Stdlib Require Import ZArith Lia.
From Stdlib Require String Ascii.
From S2P Require Import Prelude KString.

(** The calls of [user.h]; strings and blocks of memory by their bytes. *)
Inductive call :=
| CFork
| CWait
| CPipe
| CWrite (fd : Z) (bs : list Z)
| CRead (fd n : Z)
| CClose (fd : Z)
| CKill (pid : Z)
| CExec (path : list Z) (argv : list (list Z))
| COpen (path : list Z) (mode : Z)
| CMknod (path : list Z) (major minor : Z)
| CUnlink (path : list Z)
| CFstat (fd : Z)
| CLink (old new : list Z)
| CMkdir (path : list Z)
| CChdir (path : list Z)
| CDup (fd : Z).

(** The value a call returns, and what it stores in the memory of the program:
    the bytes read, the fields of [struct stat], the two descriptors of a pipe. *)
Record reply := { rv : Z; stored : list Z }.

Inductive prog (A : Type) :=
| Ret (a : A)
| Exit
| Crash (f : fault)
| Sys (c : call) (k : reply -> prog A).
Arguments Ret {A} _.
Arguments Exit {A}.
Arguments Crash {A} _.
Arguments Sys {A} _ _.

#[export] Instance prog_ret : MRet prog := fun A a => Ret a.
#[export] Instance prog_bind : MBind prog := fun A B f =>
  fix bind (m : prog A) : prog B :=
    match m with
    | Ret a => f a
    | Exit => Exit
    | Crash e => Crash e
    | Sys c k => Sys c (fun r => bind (k r))
    end.

(** A system call, and code without one. *)
Definition sys (c : call) : prog reply := Sys c Ret.
Definition syscall_ (c : call) : prog Z := Sys c (fun r => Ret (rv r)).
Definition local {A} (m : res A) : prog A :=
  match m with Ok a => Ret a | Err => Crash OutOfBounds | Fault e => Crash e end.

(** ** Running a program

    Against a kernel [h] that answers one process.  The result is the state of
    the kernel and the value, or how the program ended. *)

Inductive ending (A : Type) :=
| Done (a : A)
| Exited
| Crashed (f : fault).
Arguments Done {A} _.
Arguments Exited {A}.
Arguments Crashed {A} _.

Section run.
Context {S : Type} (h : call -> S -> reply * S).

Fixpoint run {A} (p : prog A) (s : S) : ending A * S :=
  match p with
  | Ret a => (Done a, s)
  | Exit => (Exited, s)
  | Crash e => (Crashed e, s)
  | Sys c k => run (k (h c s).1) (h c s).2
  end.

Lemma run_bind {A B} (m : prog A) (f : A -> prog B) s :
  run (m ≫= f) s =
  match run m s with
  | (Done a, s') => run (f a) s'
  | (Exited, s') => (Exited, s')
  | (Crashed e, s') => (Crashed e, s')
  end.
Proof. revert s. induction m as [a| |e|c k IH]; intros s; [done..|]. cbn. apply IH. Qed.

Lemma run_local {A} (m : res A) a s : m = Ok a -> run (local m) s = (Done a, s).
Proof. by intros ->. Qed.
End run.

(** ** C strings *)

(** The string at [s], without its nul. *)
Definition cstring (mem : list Z) (s : Z) : res (list Z) :=
  n ← strlen mem s; arr_read mem s n.

(** A string constant. *)
Definition str (s : string) : list Z :=
  map (fun c => Z.of_N (Ascii.N_of_ascii c)) (String.list_ascii_of_string s).

(** ** The calls a program makes *)

Section traced.
Context {S : Type} (h : call -> S -> reply * S).

Definition traced (c : call) (s : S * list call) : reply * (S * list call) :=
  ((h c s.1).1, ((h c s.1).2, s.2 ++ [c])).

(** Whatever the state of the kernel, [p] makes the calls [cs] and returns [a]. *)
Definition makes {A} (p : prog A) (cs : list call) (a : A) : Prop :=
  forall s t, exists s', run traced p (s, t) = (Done a, (s', t ++ cs)).

Lemma makes_ret {A} (a : A) : makes (mret a) [] a.
Proof. intros s t. exists s. by rewrite app_nil_r. Qed.

Lemma makes_bind {A B} (m : prog A) (f : A -> prog B) cs cs' a b :
  makes m cs a -> makes (f a) cs' b -> makes (m ≫= f) (cs ++ cs') b.
Proof.
  intros Hm Hf s t. destruct (Hm s t) as [s1 E1]. destruct (Hf s1 (t ++ cs)) as [s2 E2].
  exists s2. by rewrite run_bind, E1, E2, app_assoc.
Qed.

Lemma makes_local {A} (m : res A) a : m = Ok a -> makes (local m) [] a.
Proof. intros -> s t. exists s. by rewrite app_nil_r. Qed.

(** A step that makes no call, then the rest. *)
Lemma makes_then {A B} (m : prog A) (f : A -> prog B) cs a b :
  makes m [] a -> makes (f a) cs b -> makes (m ≫= f) cs b.
Proof. intros Hm Hf. change cs with ([] ++ cs). by eapply makes_bind. Qed.
End traced.

(** ** Functions of [ulib.c] that make calls *)

(** [gets(buf, max)] from character [i] on; [n] characters fit. *)
Fixpoint gets_loop (n : nat) (buf : list Z) (i : Z) : prog (list Z * Z) :=
  match n with
  | O => mret (buf, i)
  | S n =>
      r ← sys (CRead 0 1);
      if rv r <? 1 then mret (buf, i)
      else
        c ← local (arr_get (stored r) 0);
        buf ← local (arr_set buf i c);
        if (c =? 10) || (c =? 13) then mret (buf, i + 1) else gets_loop n buf (i + 1)
  end.

Definition gets (buf : list Z) (max : Z) : prog (list Z) :=
  r ← gets_loop (Z.to_nat (max - 1)) buf 0;
  local (arr_set r.1 r.2 0).

(** [stat(n, st)]: the value and what is stored. *)
Definition stat (n : list Z) : prog reply :=
  fd ← syscall_ (COpen n 0);
  if fd <? 0 then mret {| rv := -1; stored := [] |}
  else
    r ← sys (CFstat fd);
    _ ← syscall_ (CClose fd);
    mret r.

Lemma strlen_from_nul w r : Forall (fun c => c <> 0) w -> strlen_from (w ++ 0 :: r) = Ok (zlen w).
Proof.
  induction 1 as [|c w Hc _ IH]; [done|]. cbn. rewrite (proj2 (Z.eqb_neq c 0)) by done.
  rewrite IH. cbn. f_equal. rewrite zlen_cons. lia.
Qed.

(** The characters between [s] and the next nul. *)
Lemma cstring_spec mem s w r : 0 <= s -> drop (Z.to_nat s) mem = w ++ 0 :: r -> Forall (fun c => c <> 0) w ->
  cstring mem s = Ok w.
Proof.
  intros Hs Hd Hw. unfold cstring, strlen. rewrite (proj2 (Z.ltb_ge s 0)) by lia.
  rewrite Hd, strlen_from_nul by done. cbn [mbind res_bind]. unfold arr_read.
  assert (length mem = (Z.to_nat s + length w + S (length r))%nat) as Hl.
  { assert (length (drop (Z.to_nat s) mem) = length w + S (length r))%nat as E by (rewrite Hd, length_app; done).
    rewrite length_drop in E. lia. }
  rewrite (proj2 (Z.ltb_ge s 0)), (proj2 (Z.ltb_ge (zlen w) 0)), (proj2 (Z.ltb_ge (zlen mem) _)) by (unfold zlen; lia).
  cbn [orb]. rewrite Hd. unfold zlen. rewrite Nat2Z.id. by rewrite take_app_length.
Qed.

(** Tracing does not change what happens. *)
Lemma run_traced {W A} (h : call -> W -> reply * W) (p : prog A) s cs :
  run h p s = ((run (traced h) p (s, cs)).1, (run (traced h) p (s, cs)).2.1).
Proof. revert s cs. induction p as [a| |e|c k IH]; intros s cs; [done..|]. cbn. apply IH. Qed.

Lemma makes_run {W A} (h : call -> W -> reply * W) (p : prog A) cs a s : makes h p cs a -> exists s', run h p s = (Done a, s').
Proof. intros H. destruct (H s []) as [s' E]. exists s'. by rewrite (run_traced h p s []), E. Qed.

Lemma local_bind {A B} (a : A) (f : A -> prog B) : (local (Ok a) ≫= f) = f a.
Proof. done. Qed.
