(* ===== verification/Printf.v ===== *)
(** * Formatted output: [printf.c]

    [printf] of user programs, and what it prints: the text of the format with
    each directive replaced by the numeral or the string of its argument. *)

From stdpp Require Import base list strings.
From Stdlib Require Import ZArith Lia.
From S2P Require Import Prelude KString User.

(** ** The code *)

(** The bytes of a write are those of [char]s. *)
Definition putc (fd c : Z) : prog unit := _ ← sys (CWrite fd [u8 c]); mret ().

(** [do{ buf[i++] = digits[x % base]; }while((x /= base) != 0);]  A [uint] has at
    most 32 digits. *)
Fixpoint digits_loop (fuel : nat) (digits : list Z) (x base : Z) (buf : list Z) (i : Z) : res (list Z * Z) :=
  match fuel with
  | O => Fault OutOfFuel
  | S fuel =>
      c ← arr_get digits (x mod base);
      buf ← arr_set buf i c;
      if negb (x / base =? 0) then digits_loop fuel digits (x / base) base buf (i + 1) else Ok (buf, i + 1)
  end.

(** [while(--i >= 0) putc(fd, buf[i]);] *)
Fixpoint put_back (i : nat) (fd : Z) (buf : list Z) : prog unit :=
  match i with
  | O => mret ()
  | S i => c ← local (arr_get buf (Z.of_nat i)); _ ← putc fd c; put_back i fd buf
  end.

(** [junk] is what is in [buf] before. *)
Definition printint (junk : list Z) (fd xx base : Z) (sgn : bool) : prog unit :=
  let neg := sgn && (xx <? 0) in
  let x := if neg then u32 (- xx) else u32 xx in
  r ← local (digits_loop 32 (str "0123456789ABCDEF") x base junk 0);
  r ← local (if neg then buf ← arr_set r.1 r.2 45; Ok (buf, r.2 + 1) else Ok r);
  put_back (Z.to_nat r.2) fd r.1.

(** An argument: a word, or a pointer to a string. *)
Inductive arg := Word (x : Z) | Ptr (s : list Z).

Definition word_of (a : arg) : prog Z := match a with Word x => mret x | Ptr _ => Crash OutOfBounds end.

(** The string of [%s], with its nul. *)
Definition text_of (a : arg) : prog (list Z) :=
  match a with
  | Ptr s => mret s
  | Word x => if x =? 0 then mret (str "(null)" ++ [0]) else Crash OutOfBounds
  end.

Fixpoint put_string (fd : Z) (s : list Z) : prog unit :=
  match s with
  | [] => Crash OutOfBounds
  | c :: s => if c =? 0 then mret () else _ ← putc fd c; put_string fd s
  end.

Definition next_arg (ap : list arg) : prog (arg * list arg) :=
  match ap with a :: ap => mret (a, ap) | [] => Crash OutOfBounds end.

(** One directive after its percent sign; the arguments left. *)
Definition directive (junk : list Z) (fd c : Z) (ap : list arg) : prog (list arg) :=
  if c =? 100 then
    '(a, ap) ← next_arg ap; x ← word_of a; _ ← printint junk fd (s32 x) 10 true; mret ap
  else if (c =? 120) || (c =? 112) then
    '(a, ap) ← next_arg ap; x ← word_of a; _ ← printint junk fd (s32 x) 16 false; mret ap
  else if c =? 115 then
    '(a, ap) ← next_arg ap; s ← text_of a; _ ← put_string fd s; mret ap
  else if c =? 99 then
    '(a, ap) ← next_arg ap; x ← word_of a; _ ← putc fd x; mret ap
  else if c =? 37 then _ ← putc fd c; mret ap
  else _ ← putc fd 37; _ ← putc fd c; mret ap.

(** The loop over the format, in state 0 or [%]. *)
Fixpoint printf_loop (junk : list Z) (fd state : Z) (fmt : list Z) (ap : list arg) : prog unit :=
  match fmt with
  | [] => Crash OutOfBounds
  | f :: fmt =>
      if f =? 0 then mret ()
      else
        let c := Z.land f 0xff in
        if state =? 0 then
          if c =? 37 then printf_loop junk fd 37 fmt ap
          else _ ← putc fd c; printf_loop junk fd state fmt ap
        else if state =? 37 then
          ap ← directive junk fd c ap;
          printf_loop junk fd 0 fmt ap
        else printf_loop junk fd state fmt ap
  end.

Definition printf (junk : list Z) (fd : Z) (fmt : list Z) (ap : list arg) : prog unit :=
  printf_loop junk fd 0 fmt ap.

(** ** What it prints *)

(** The digits of [x] in base [b], the most significant first. *)
Fixpoint numeral (n : nat) (b x : Z) : list Z :=
  match n with
  | O => []
  | S n => if x <? b then [x] else numeral n b (x / b) ++ [x mod b]
  end.

(** The number that digits denote. *)
Definition value (b : Z) (ds : list Z) : Z := foldl (fun a d => a * b + d) 0 ds.

Definition digit (d : Z) : Z := if d <? 10 then 48 + d else 55 + d.

Definition decimal (x : Z) : list Z :=
  if x <? 0 then 45 :: map digit (numeral 32 10 (- x)) else map digit (numeral 32 10 x).
Definition hexadecimal (x : Z) : list Z := map digit (numeral 32 16 x).

(** A piece of a format. *)
Inductive piece :=
| Plain (c : Z)
| Dec (x : Z)
| Hex (x : Z)
| Text (s : list Z)
| Null
| Char (x : Z)
| Percent.

(** How it is written in the format, its argument, and its output. *)
Definition written (p : piece) : list Z :=
  match p with
  | Plain c => [c]
  | Dec _ => str "%d"
  | Hex _ => str "%x"
  | Text _ | Null => str "%s"
  | Char _ => str "%c"
  | Percent => str "%%"
  end.

Definition argument (p : piece) : list arg :=
  match p with
  | Plain _ | Percent => []
  | Dec x => [Word (u32 x)]
  | Hex x => [Word x]
  | Text s => [Ptr (s ++ [0])]
  | Null => [Word 0]
  | Char x => [Word x]
  end.

Definition printed (p : piece) : list Z :=
  match p with
  | Plain c => [c]
  | Dec x => decimal x
  | Hex x => hexadecimal x
  | Text s => map u8 s
  | Null => str "(null)"
  | Char x => [u8 x]
  | Percent => [37]
  end.

Definition piece_ok (p : piece) : Prop :=
  match p with
  | Plain c => 0 < c < 256 /\ c <> 37
  | Dec x => - 2 ^ 31 <= x < 2 ^ 31
  | Hex x => 0 <= x < 2 ^ 32
  | Text s => Forall (fun c => c <> 0) s
  | _ => True
  end.

(** ** Numerals *)

Lemma value_app b l d : value b (l ++ [d]) = value b l * b + d.
Proof. unfold value. by rewrite foldl_app. Qed.

Lemma value_numeral n b x : 1 < b -> 0 <= x < b ^ Z.of_nat n -> value b (numeral n b x) = x.
Proof.
  intros Hb. revert x. induction n as [|n IH]; intros x Hx.
  { cbn in *. unfold value. cbn. lia. }
  cbn [numeral]. destruct (Z.ltb_spec x b); [done|].
  rewrite value_app, IH; [pose proof (Z.div_mod x b); lia|].
  rewrite Nat2Z.inj_succ, Z.pow_succ_r in Hx by lia.
  split; [apply Z.div_pos; lia|]. apply Z.div_lt_upper_bound; lia.
Qed.

Lemma numeral_digits n b x : 1 < b -> 0 <= x -> Forall (fun d => 0 <= d < b) (numeral n b x).
Proof.
  intros Hb. revert x. induction n as [|n IH]; intros x Hx; cbn [numeral]; [constructor|].
  destruct (Z.ltb_spec x b); [by repeat constructor|].
  apply Forall_app. split; [apply IH, Z.div_pos; lia|].
  constructor; [apply Z.mod_pos_bound; lia|constructor].
Qed.

Lemma numeral_length n m b x : 1 < b -> 0 <= x < b ^ Z.of_nat m -> (0 < m)%nat -> (length (numeral n b x) <= m)%nat.
Proof.
  intros Hb. revert m x. induction n as [|n IH]; intros m x Hx Hm; cbn [numeral]; [cbn; lia|].
  destruct (Z.ltb_spec x b); [cbn; lia|]. rewrite length_app. cbn [length].
  destruct m as [|m]; [lia|]. rewrite Nat2Z.inj_succ, Z.pow_succ_r in Hx by lia.
  assert (0 <= x / b < b ^ Z.of_nat m) as Hd by (split; [apply Z.div_pos|apply Z.div_lt_upper_bound]; lia).
  destruct m as [|m]; [change (b ^ Z.of_nat 0) with 1 in *; pose proof (Z.div_str_pos x b); lia|].
  specialize (IH (S m) (x / b) Hd). lia.
Qed.

(** The sign behind the digits. *)
Lemma put_minus (dg : Z -> Z) (ds : list Z) (p : Z) (post : list Z) :
  (b ← arr_set (reverse (map dg ds) ++ p :: post) (Z.of_nat (length ds)) 45; Ok (b, Z.of_nat (length ds) + 1)) =
  Ok (reverse (45 :: map dg ds) ++ post, Z.of_nat (S (length ds))).
Proof.
  unfold arr_set. rewrite zlen_app, zlen_cons. unfold zlen. rewrite length_reverse, length_map.
  rewrite (proj2 (Z.ltb_ge _ _)), (proj2 (Z.leb_gt _ _)) by lia. cbn [orb mbind res_bind].
  rewrite Nat2Z.id, insert_app_r_alt by (rewrite length_reverse, length_map; lia).
  rewrite length_reverse, length_map, Nat.sub_diag. cbn [insert list_insert].
  rewrite reverse_cons, <- app_assoc. cbn [app]. do 2 f_equal. lia.
Qed.

Lemma land_byte c : 0 <= c < 256 -> Z.land c 0xff = c.
Proof. intros Hc. change 0xff with (Z.ones 8). rewrite Z.land_ones by lia. apply Z.mod_small. lia. Qed.

Lemma written_two p : (exists c, p = Plain c) \/ exists c, 0 < c < 256 /\ written p = [37; c].
Proof.
  destruct p as [c|x|x|s| |x|]; [left; eauto|right..]; eexists; (split; [|vm_compute; reflexivity]); lia.
Qed.

Section output.
Context {W : Type} (h : call -> W -> reply * W) (junk : list Z) (fd : Z).
Context (Hjunk : length junk = 16%nat).

(** [p] writes the bytes [out], one by one, and returns [a]. *)
Definition emits {A} (p : prog A) (out : list Z) (a : A) : Prop :=
  makes h p (map (fun c => CWrite fd [c]) out) a.

Lemma emits_mret {A} (a : A) : emits (mret a) [] a.
Proof. apply makes_ret. Qed.

Lemma emits_bind {A B} (m : prog A) (f : A -> prog B) out out' a b :
  emits m out a -> emits (f a) out' b -> emits (m ≫= f) (out ++ out') b.
Proof. intros Hm Hf. unfold emits. rewrite map_app. by eapply makes_bind. Qed.

Lemma emits_then {A B} (m : prog A) (f : A -> prog B) out a b :
  emits m [] a -> emits (f a) out b -> emits (m ≫= f) out b.
Proof. intros Hm Hf. by apply (makes_then h m f _ a). Qed.

Lemma emits_local {A} (m : res A) a : m = Ok a -> emits (local m) [] a.
Proof. apply makes_local. Qed.

Lemma emits_putc c : emits (putc fd c) [u8 c] ().
Proof. intros s t. cbn. by eexists. Qed.

Lemma digits_loop_spec dg ds n b x pre mid post :
  1 < b -> 0 <= x < b ^ Z.of_nat n -> (forall d, 0 <= d < b -> arr_get ds d = Ok (dg d)) ->
  length mid = length (numeral n b x) -> (0 < n)%nat ->
  digits_loop n ds x b (pre ++ mid ++ post) (zlen pre) =
  Ok (pre ++ reverse (map dg (numeral n b x)) ++ post, zlen pre + zlen mid).
Proof.
  intros Hb Hx Hds. revert x pre mid Hx. induction n as [|n IH]; intros x pre mid Hx Hm Hn; [lia|].
  cbn [digits_loop numeral] in *.
  rewrite Hds by (apply Z.mod_pos_bound; lia). cbn [mbind res_bind].
  assert (exists m0 mid', mid = m0 :: mid') as (m0 & mid' & ->).
  { destruct mid; [|eauto]. destruct (x <? b); cbn in Hm; [lia|]. rewrite length_app in Hm. cbn in Hm. lia. }
  assert (arr_set (pre ++ (m0 :: mid') ++ post) (zlen pre) (dg (x mod b)) = Ok ((pre ++ [dg (x mod b)]) ++ mid' ++ post)) as ->.
  { unfold arr_set. rewrite !zlen_app, zlen_cons. pose proof (zlen_nonneg pre). pose proof (zlen_nonneg mid').
    pose proof (zlen_nonneg post). rewrite (proj2 (Z.ltb_ge _ _)), (proj2 (Z.leb_gt _ _)) by lia. cbn [orb].
    f_equal. unfold zlen. rewrite Nat2Z.id. rewrite insert_app_r_alt, Nat.sub_diag by lia.
    cbn. by rewrite <- app_assoc. }
  cbn [mbind res_bind]. destruct (Z.ltb_spec x b) as [Hlt|Hge].
  - rewrite Z.div_small, Z.mod_small by lia. cbn [Z.eqb negb]. destruct mid'; [|done].
    cbn. by rewrite <- app_assoc.
  - assert (0 < x / b) by (apply Z.div_str_pos; lia). rewrite (proj2 (Z.eqb_neq _ _)) by lia. cbn [negb].
    replace (zlen pre + 1) with (zlen (pre ++ [dg (x mod b)])) by (rewrite zlen_app; done).
    rewrite Nat2Z.inj_succ, Z.pow_succ_r in Hx by lia.
    assert (0 <= x / b < b ^ Z.of_nat n) by (split; [apply Z.div_pos|apply Z.div_lt_upper_bound]; lia).
    destruct n as [|n]; [change (b ^ Z.of_nat 0) with 1 in *; lia|].
    rewrite length_app in Hm. cbn [length] in Hm. rewrite IH by (done || lia).
    rewrite map_app, reverse_app, zlen_app, zlen_cons. cbn [map]. rewrite reverse_singleton.
    rewrite <- !app_assoc. do 2 f_equal. unfold zlen. cbn. lia.
Qed.

Lemma put_back_emits n buf : (n <= length buf)%nat -> emits (put_back n fd buf) (map u8 (reverse (take n buf))) ().
Proof.
  induction n as [|n IH]; intros Hn; cbn [put_back]; [apply emits_mret|].
  destruct (lookup_lt_is_Some_2 buf n) as [c Hc]; [lia|].
  rewrite (take_S_r _ _ _ Hc), reverse_app, reverse_singleton. cbn [app map].
  eapply emits_then; [apply (emits_local _ c); apply arr_get_Ok; split; [lia|by rewrite Nat2Z.id]|].
  apply (emits_bind _ _ [u8 c] _ ()); [apply emits_putc|apply IH; lia].
Qed.

Lemma digits_upper d : 0 <= d < 16 -> arr_get (str "0123456789ABCDEF") d = Ok (digit d).
Proof.
  intros Hd. assert (Forall (fun d => arr_get (str "0123456789ABCDEF") (Z.of_nat d) = Ok (digit (Z.of_nat d))) (seq 0 16)) as H.
  { repeat constructor. }
  rewrite Forall_forall in H. rewrite <- (Z2Nat.id d) by lia. apply H, elem_of_seq. lia.
Qed.

Lemma digit_byte d : 0 <= d < 16 -> u8 (digit d) = digit d.
Proof. intros Hd. apply u8_small. unfold is_byte, digit. destruct (d <? 10) eqn:E; lia. Qed.

Lemma map_digit_byte l : Forall (fun d => 0 <= d < 16) l -> map u8 (map digit l) = map digit l.
Proof. induction 1 as [|d l Hd _ IH]; [done|]. cbn. by rewrite IH, digit_byte. Qed.

(** The buffer of 16 characters is large enough. *)
Lemma printint_digits dg ds b x : b = 10 \/ b = 16 -> 0 <= x < 2 ^ 32 ->
  (forall d, 0 <= d < 16 -> arr_get ds d = Ok (dg d)) ->
  exists post, (1 <= length post)%nat /\
    digits_loop 32 ds x b junk 0 =
    Ok (reverse (map dg (numeral 32 b x)) ++ post, Z.of_nat (length (numeral 32 b x))).
Proof.
  intros Hb Hx Hds. set (k := length (numeral 32 b x)).
  assert (k <= 10)%nat as Hk.
  { apply numeral_length; [lia| |lia]. assert (2 ^ 32 <= b ^ Z.of_nat 10) by (destruct Hb as [->| ->]; lia). lia. }
  exists (drop k junk). split; [rewrite length_drop; lia|].
  pose proof (digits_loop_spec dg ds 32 b x [] (take k junk) (drop k junk)) as E.
  cbn [app] in E. rewrite take_drop in E. change (zlen []) with 0 in E. rewrite E.
  - f_equal. f_equal. unfold zlen. rewrite length_take. cbn [length]. lia.
  - lia.
  - assert (2 ^ 32 <= b ^ Z.of_nat 32) by (destruct Hb as [->| ->]; lia). lia.
  - intros d Hd. apply Hds. lia.
  - rewrite length_take. lia.
  - lia.
Qed.

Lemma numeral_bytes b x : b = 10 \/ b = 16 -> 0 <= x ->
  map u8 (map digit (numeral 32 b x)) = map digit (numeral 32 b x).
Proof.
  intros Hb Hx. apply map_digit_byte. eapply Forall_impl; [apply numeral_digits; lia|]. intros d. cbn. lia.
Qed.

Lemma printint_unsigned b x : b = 10 \/ b = 16 -> 0 <= x < 2 ^ 32 ->
  emits (printint junk fd (s32 x) b false) (map digit (numeral 32 b x)) ().
Proof.
  intros Hb Hx. unfold printint. cbn [andb]. rewrite u32_s32, u32_small by done.
  destruct (printint_digits digit _ b x Hb Hx digits_upper) as (post & Hp & E).
  eapply emits_then; [by apply emits_local|]. eapply emits_then; [by apply emits_local|].
  cbn [fst snd]. rewrite Nat2Z.id.
  pose proof (put_back_emits (length (numeral 32 b x)) (reverse (map digit (numeral 32 b x)) ++ post)) as H.
  rewrite take_app_length' in H by (by rewrite length_reverse, length_map).
  rewrite reverse_involutive, numeral_bytes in H by lia. apply H.
  rewrite length_app, length_reverse, length_map. lia.
Qed.

Lemma printint_signed x : - 2 ^ 31 <= x < 2 ^ 31 -> emits (printint junk fd x 10 true) (decimal x) ().
Proof.
  intros Hx. unfold decimal. destruct (Z.ltb_spec x 0) as [Hn|Hn].
  2: { pose proof (printint_unsigned 10 x) as H. unfold printint in *. cbn [andb] in *.
       rewrite (proj2 (Z.ltb_ge x 0)) by lia. rewrite s32_small in H by lia. apply H; lia. }
  unfold printint. rewrite (proj2 (Z.ltb_lt x 0)) by lia. cbn [andb].
  rewrite u32_small by lia. destruct (printint_digits digit _ 10 (- x) ltac:(by left) ltac:(lia) digits_upper) as (post & Hp & E).
  set (ds := numeral 32 10 (- x)) in *.
  destruct post as [|p post]; [cbn in Hp; lia|].
  eapply emits_then; [by apply emits_local|]. cbn [fst snd].
  eapply emits_then; [apply (emits_local _ (reverse (45 :: map digit ds) ++ post, Z.of_nat (S (length ds))))|].
  { by rewrite (put_minus digit). }
  cbn [fst snd]. rewrite Nat2Z.id.
  pose proof (put_back_emits (S (length ds)) (reverse (45 :: map digit ds) ++ post)) as H.
  rewrite take_app_length' in H by (rewrite length_reverse; cbn; by rewrite length_map).
  rewrite reverse_involutive in H. cbn [map] in H. unfold ds in H. rewrite numeral_bytes in H by lia.
  apply H. rewrite length_app, length_reverse. cbn [length]. rewrite length_map. fold ds. lia.
Qed.

Lemma put_string_emits s : Forall (fun c => c <> 0) s -> emits (put_string fd (s ++ [0])) (map u8 s) ().
Proof.
  induction 1 as [|c s Hc _ IH]; [apply emits_mret|]. cbn [app put_string map]. rewrite (proj2 (Z.eqb_neq c 0)) by done.
  by apply (emits_bind _ _ [u8 c] _ ()); [apply emits_putc|].
Qed.

(** The argument of a directive is there. *)
Local Ltac fetch out :=
  do 2 (eapply emits_then; [apply emits_mret|]; cbv beta iota);
  rewrite <- (app_nil_r out); eapply emits_bind; [|apply emits_mret].

(** Every piece but plain text is a percent sign and a letter. *)
Lemma directive_spec p c ap : written p = [37; c] -> piece_ok p ->
  emits (directive junk fd c (argument p ++ ap)) (printed p) ap.
Proof.
  intros Hw Hp. destruct p as [c'|x|x|s| |x|]; vm_compute in Hw; try discriminate; injection Hw as <-;
    unfold directive; cbn [Z.eqb Pos.eqb orb argument app printed].
  - fetch (decimal x). rewrite s32_u32, s32_small by done. by apply printint_signed.
  - fetch (hexadecimal x). apply printint_unsigned; [by right|done].
  - fetch (map u8 s). by apply put_string_emits.
  - fetch (str "(null)"). apply (put_string_emits (str "(null)")). by repeat constructor.
  - fetch [u8 x]. apply emits_putc.
  - apply (emits_bind _ _ [37] [] ()); [apply (emits_putc 37)|apply emits_mret].
Qed.

Lemma printf_spec ps : Forall piece_ok ps ->
  emits (printf_loop junk fd 0 (concat (map written ps) ++ [0]) (concat (map argument ps)))
    (concat (map printed ps)) ().
Proof.
  induction 1 as [|p ps Hp _ IH]; [apply emits_mret|].
  destruct (written_two p) as [(c & ->)|(c & Hc & Hw)]; cbn [map concat].
  - cbn in Hp. cbn [written app printf_loop argument printed]. rewrite land_byte by lia.
    rewrite (proj2 (Z.eqb_neq c 0)), (proj2 (Z.eqb_neq c 37)) by lia. cbn [Z.eqb].
    apply (emits_bind _ _ [c] _ ()); [|done]. rewrite <- (u8_small c) at 2 by (unfold is_byte; lia). apply emits_putc.
  - rewrite Hw. cbn [app printf_loop]. rewrite (land_byte c) by lia. rewrite (proj2 (Z.eqb_neq c 0)) by lia.
    change (37 =? 0) with false. change (Z.land 37 255) with 37. change (0 =? 0) with true. change (37 =? 37) with true. cbn [Z.eqb].
    eapply emits_bind; [by apply directive_spec|done].
Qed.
End output.

(** The number a printed decimal denotes. *)
Definition read_decimal (s : list Z) : Z :=
  let digits := map (fun c => c - 48) in
  match s with
  | c :: s' => if c =? 45 then - value 10 (digits s') else value 10 (digits s)
  | [] => 0
  end.

Lemma read_decimal_digits x : 0 <= x < 2 ^ 32 ->
  value 10 (map (fun c => c - 48) (map digit (numeral 32 10 x))) = x.
Proof.
  intros Hx. rewrite map_map. transitivity (value 10 (numeral 32 10 x)).
  - f_equal. rewrite <- (map_id (numeral 32 10 x)) at 2. apply map_ext_Forall.
    eapply Forall_impl; [apply numeral_digits; lia|]. intros d Hd. cbn in Hd |- *. unfold digit.
    rewrite (proj2 (Z.ltb_lt d 10)); lia.
  - apply value_numeral; [lia|]. lia.
Qed.

Lemma read_decimal_decimal x : - 2 ^ 31 <= x < 2 ^ 31 -> read_decimal (decimal x) = x.
Proof.
  intros Hx. unfold decimal. destruct (Z.ltb_spec x 0).
  - unfold read_decimal. cbn [Z.eqb Pos.eqb]. rewrite read_decimal_digits; lia.
  - pose proof (numeral_digits 32 10 x) as Hd. pose proof (read_decimal_digits x) as Hr.
    destruct (numeral 32 10 x) as [|d ds]; [apply Hr; lia|].
    rewrite Forall_cons in Hd. cbn [map] in *. unfold read_decimal.
    rewrite (proj2 (Z.eqb_neq (digit d) 45)); [apply Hr; lia|].
    unfold digit. destruct (d <? 10); lia.
Qed.


