(* ===== verification/Sh.v ===== *)
(** * The shell: [sh.c]

    The parser works on a line in a character array, [buf]; a pointer into the
    line is an index.  The commands it allocates are a heap of nodes; a pointer to
    a command is 0 or the number of its node, counted from 1.  [parseexec] goes on
    filling in the node of a command after redirections have been wrapped around
    it, so nodes are updated in the heap.  [room] allocations succeed; after that
    [malloc] returns null, and the code writes through it.  A call of [panic],
    which prints its message and exits, is a [Panic]; [runcmd] and [main] are
    programs in the sense of [User]. *)

From stdpp Require Import base list strings.
From Stdlib Require Import ZArith Lia.
From S2P Require Import Prelude State KString Ulib User Printf Sysfile.

Definition MAXARGS : nat := 10.

(** The structures behind [struct cmd]. *)
Inductive node :=
| EXEC (argv eargv : list (option Z))
| REDIR (cmd : nat) (file efile mode fd : Z)
| PIPE (left right : nat)
| LIST (left right : nat)
| BACK (cmd : nat).

(** [*ps], the position of the parser, and the commands made so far. *)
Record pst := { ps : Z; heap : list node }.

Definition node_at (h : list node) (p : nat) : res node :=
  match p with O => Fault OutOfBounds | S i => checked (h !! i) end.

Definition whitespace : list Z := [32; 9; 13; 10; 11; 0].
Definition symbols : list Z := [60; 124; 62; 38; 59; 40; 41; 0].

(** [strchr(set, c) != 0] *)
Definition in_set (set : list Z) (c : Z) : res bool :=
  r ← strchr set 0 c; Ok (match r with Some _ => true | None => false end).

Section parser.
Context (buf : list Z) (room : nat).

(** ** Constructors *)

Definition alloc (n : node) : ST pst nat := fun s =>
  if (length (heap s) <? room)%nat then Ok (S (length (heap s)), {| ps := ps s; heap := heap s ++ [n] |})
  else Fault OutOfBounds.

Definition execcmd : ST pst nat := alloc (EXEC (replicate MAXARGS None) (replicate MAXARGS None)).
Definition redircmd (subcmd : nat) (file efile mode fd : Z) : ST pst nat := alloc (REDIR subcmd file efile mode fd).
Definition pipecmd (left right : nat) : ST pst nat := alloc (PIPE left right).
Definition listcmd (left right : nat) : ST pst nat := alloc (LIST left right).
Definition backcmd (subcmd : nat) : ST pst nat := alloc (BACK subcmd).

(** [cmd->argv[i] = q; cmd->eargv[i] = eq;] *)
Definition set_arg (cmd : nat) (i : Z) (q eq : option Z) : ST pst unit := fun s =>
  n ← node_at (heap s) cmd;
  match n with
  | EXEC argv eargv =>
      argv ← arr_set argv i q;
      eargv ← arr_set eargv i eq;
      Ok ((), {| ps := ps s; heap := <[pred cmd := EXEC argv eargv]> (heap s) |})
  | _ => Fault OutOfBounds
  end.

(** ** Tokens *)

(** [while(s < es && strchr(whitespace, *s)) s++;]  The fuel of this and the
    next loop is one more than the characters left. *)
Fixpoint skip_white (fuel : nat) (s es : Z) : res Z :=
  match fuel with
  | O => Fault OutOfFuel
  | S fuel =>
      if s <? es then
        c ← arr_get buf s;
        w ← in_set whitespace c;
        if w : bool then skip_white fuel (s + 1) es else Ok s
      else Ok s
  end.

(** [while(s < es && !strchr(whitespace, *s) && !strchr(symbols, *s)) s++;] *)
Fixpoint skip_word (fuel : nat) (s es : Z) : res Z :=
  match fuel with
  | O => Fault OutOfFuel
  | S fuel =>
      if s <? es then
        c ← arr_get buf s;
        w ← in_set whitespace c;
        if w : bool then Ok s
        else
          y ← in_set symbols c;
          if y : bool then Ok s else skip_word fuel (s + 1) es
      else Ok s
  end.

Definition left_of (s es : Z) : nat := S (Z.to_nat (es - s)).

(** The token and its end, at a position that is not white. *)
Definition token_at (s es : Z) : res (Z * Z) :=
  c ← arr_get buf s;
  if c =? 0 then Ok (c, s)
  else if (c =? 124) || (c =? 40) || (c =? 41) || (c =? 59) || (c =? 38) || (c =? 60) then Ok (c, s + 1)
  else if c =? 62 then
    c' ← arr_get buf (s + 1);
    if c' =? 62 then Ok (43, s + 2) else Ok (c, s + 1)
  else
    s ← skip_word (left_of s es) s es;
    Ok (97, s).

(** The token, [*q] and [*eq]. *)
Definition gettoken (es : Z) : ST pst (Z * Z * Z) := fun st =>
  q ← skip_white (left_of (ps st) es) (ps st) es;
  '(ret, eq) ← token_at q es;
  s ← skip_white (left_of eq es) eq es;
  Ok (ret, q, eq, {| ps := s; heap := heap st |}).

Definition peek (es : Z) (toks : list Z) : ST pst bool := fun st =>
  s ← skip_white (left_of (ps st) es) (ps st) es;
  c ← arr_get buf s;
  b ← (if c =? 0 then Ok false else in_set toks c);
  Ok (b, {| ps := s; heap := heap st |}).

(** ** Commands *)

(** The loop of [parseredirs].  Every turn of a loop or recursion of the parser
    takes a character of the line. *)
Fixpoint parseredirs (fuel : nat) (es : Z) (cmd : nat) : ST pst nat :=
  match fuel with
  | O => fault OutOfFuel
  | S fuel =>
      b ← peek es [60; 62; 0];
      if b : bool then
        '(tok, _, _) ← gettoken es;
        '(a, q, eq) ← gettoken es;
        if negb (a =? 97) then fault (Panic "missing file for redirection")
        else
          cmd ← (if tok =? 60 then redircmd cmd q eq O_RDONLY 0
                 else if tok =? 62 then redircmd cmd q eq (Z.lor O_WRONLY O_CREATE) 1
                 else if tok =? 43 then redircmd cmd q eq (Z.lor O_WRONLY O_CREATE) 1
                 else mret cmd);
          parseredirs fuel es cmd
      else mret cmd
  end.

(** The loop of [parseexec]. *)
Fixpoint parseargs (fuel : nat) (es : Z) (cmd ret : nat) (argc : Z) : ST pst nat :=
  match fuel with
  | O => fault OutOfFuel
  | S fuel =>
      b ← peek es [124; 41; 38; 59; 0];
      if b : bool then
        _ ← set_arg cmd argc None None;
        mret ret
      else
        '(tok, q, eq) ← gettoken es;
        if tok =? 0 then
          _ ← set_arg cmd argc None None;
          mret ret
        else if negb (tok =? 97) then fault (Panic "syntax")
        else
          _ ← set_arg cmd argc (Some q) (Some eq);
          let argc := argc + 1 in
          if Z.of_nat MAXARGS <=? argc then fault (Panic "too many args")
          else
            ret ← parseredirs (S (Z.to_nat es)) es ret;
            parseargs fuel es cmd ret argc
  end.

(** [line] is [parseline]. *)
Definition parseblock (line : ST pst nat) (es : Z) : ST pst nat :=
  b ← peek es [40; 0];
  if negb b then fault (Panic "parseblock")
  else
    _ ← gettoken es;
    cmd ← line;
    b ← peek es [41; 0];
    if negb b then fault (Panic "syntax - missing )")
    else
      _ ← gettoken es;
      parseredirs (S (Z.to_nat es)) es cmd.

Definition parseexec (line : ST pst nat) (es : Z) : ST pst nat :=
  b ← peek es [40; 0];
  if b : bool then parseblock line es
  else
    cmd ← execcmd;
    ret ← parseredirs (S (Z.to_nat es)) es cmd;
    parseargs (S (Z.to_nat es)) es cmd ret 0.

Fixpoint parsepipe (fuel : nat) (line : ST pst nat) (es : Z) : ST pst nat :=
  match fuel with
  | O => fault OutOfFuel
  | S fuel =>
      cmd ← parseexec line es;
      b ← peek es [124; 0];
      if b : bool then
        _ ← gettoken es;
        right ← parsepipe fuel line es;
        pipecmd cmd right
      else mret cmd
  end.

(** [while(peek(ps, es, "&"))] of [parseline]. *)
Fixpoint parseback (fuel : nat) (es : Z) (cmd : nat) : ST pst nat :=
  match fuel with
  | O => fault OutOfFuel
  | S fuel =>
      b ← peek es [38; 0];
      if b : bool then
        _ ← gettoken es;
        cmd ← backcmd cmd;
        parseback fuel es cmd
      else mret cmd
  end.

Fixpoint parseline (fuel : nat) (es : Z) : ST pst nat :=
  match fuel with
  | O => fault OutOfFuel
  | S fuel =>
      cmd ← parsepipe (S (Z.to_nat es)) (parseline fuel es) es;
      cmd ← parseback (S (Z.to_nat es)) es cmd;
      b ← peek es [59; 0];
      if b : bool then
        _ ← gettoken es;
        right ← parseline fuel es;
        listcmd cmd right
      else mret cmd
  end.
End parser.

(** ** Strings that end in a nul *)

(** [for(i=0; ecmd->argv[i]; i++) *ecmd->eargv[i] = 0;] *)
Fixpoint nul_args (argv eargv : list (option Z)) (buf : list Z) : res (list Z) :=
  match argv, eargv with
  | None :: _, _ => Ok buf
  | Some _ :: argv, Some e :: eargv =>
      buf ← arr_set buf e 0;
      nul_args argv eargv buf
  | _, _ => Fault OutOfBounds
  end.

(** The fuel is more than the depth of the command. *)
Fixpoint nulterminate (fuel : nat) (h : list node) (cmd : nat) (buf : list Z) : res (list Z) :=
  match fuel with
  | O => Fault OutOfFuel
  | S fuel =>
      if (cmd =? 0)%nat then Ok buf
      else
        n ← node_at h cmd;
        match n with
        | EXEC argv eargv => nul_args argv eargv buf
        | REDIR sub _ efile _ _ =>
            buf ← nulterminate fuel h sub buf;
            arr_set buf efile 0
        | PIPE lcmd rcmd | LIST lcmd rcmd =>
            buf ← nulterminate fuel h lcmd buf;
            nulterminate fuel h rcmd buf
        | BACK sub => nulterminate fuel h sub buf
        end
  end.

(** ** Running commands *)

Section commands.
(** What the buffers of [printf] hold, and the memory for commands. *)
Context (junk : list Z) (room : nat).

Definition print2 (fmt : string) (ap : list arg) : prog unit := printf junk 2 (str fmt ++ [0]) ap.
Definition print2nl (fmt : string) (ap : list arg) : prog unit := printf junk 2 (str fmt ++ [10; 0]) ap.

Definition panic {A} (msg : list Z) : prog A := _ ← print2nl "%s" [Ptr (msg ++ [0])]; Exit.

Definition fork1 : prog Z :=
  pid ← syscall_ CFork;
  if pid =? -1 then panic (str "fork") else mret pid.

(** The strings of [argv] up to the null pointer. *)
Fixpoint arg_strings (buf : list Z) (argv : list (option Z)) : res (list (list Z)) :=
  match argv with
  | [] => Fault OutOfBounds
  | None :: _ => Ok []
  | Some q :: argv => s ← cstring buf q; l ← arg_strings buf argv; Ok (s :: l)
  end.

(** It never returns: every path ends in [exit] or [exec]. *)
Fixpoint runcmd (fuel : nat) (h : list node) (buf : list Z) (cmd : nat) : prog unit :=
  match fuel with
  | O => Crash OutOfFuel
  | S fuel =>
      if (cmd =? 0)%nat then Exit
      else
        n ← local (node_at h cmd);
        match n with
        | EXEC argv _ =>
            args ← local (arg_strings buf argv);
            match args with
            | [] => Exit
            | path :: _ =>
                _ ← syscall_ (CExec path args);
                _ ← print2nl "exec %s failed" [Ptr (path ++ [0])];
                Exit
            end
        | REDIR sub file _ mode fd =>
            _ ← syscall_ (CClose fd);
            name ← local (cstring buf file);
            r ← syscall_ (COpen name mode);
            if r <? 0 then
              _ ← print2nl "open %s failed" [Ptr (name ++ [0])];
              Exit
            else
              _ ← runcmd fuel h buf sub;
              Exit
        | LIST lcmd rcmd =>
            pid ← fork1;
            _ ← (if pid =? 0 then runcmd fuel h buf lcmd else mret ());
            _ ← syscall_ CWait;
            _ ← runcmd fuel h buf rcmd;
            Exit
        | PIPE lcmd rcmd =>
            p ← sys CPipe;
            if rv p <? 0 then panic (str "pipe")
            else
              p0 ← local (arr_get (stored p) 0);
              p1 ← local (arr_get (stored p) 1);
              pid ← fork1;
              _ ← (if pid =? 0 then
                     _ ← syscall_ (CClose 1);
                     _ ← syscall_ (CDup p1);
                     _ ← syscall_ (CClose p0);
                     _ ← syscall_ (CClose p1);
                     runcmd fuel h buf lcmd
                   else mret ());
              pid ← fork1;
              _ ← (if pid =? 0 then
                     _ ← syscall_ (CClose 0);
                     _ ← syscall_ (CDup p0);
                     _ ← syscall_ (CClose p0);
                     _ ← syscall_ (CClose p1);
                     runcmd fuel h buf rcmd
                   else mret ());
              _ ← syscall_ (CClose p0);
              _ ← syscall_ (CClose p1);
              _ ← syscall_ CWait;
              _ ← syscall_ CWait;
              Exit
        | BACK sub =>
            pid ← fork1;
            _ ← (if pid =? 0 then runcmd fuel h buf sub else mret ());
            Exit
        end
  end.

(** [parsecmd] up to the test that nothing is left: the command, the state of
    the parser and the end of the line. *)
Definition parse (buf : list Z) : res (nat * pst * Z) :=
  es ← strlen buf 0;
  '(cmd, st) ← parseline buf room (S (Z.to_nat es)) es {| ps := 0; heap := [] |};
  '(_, st) ← peek buf es [0] st;
  Ok (cmd, st, es).

(** The command, the heap, and the line with its strings terminated. *)
Definition parsecmd (buf : list Z) : prog (nat * list node * list Z) :=
  match parse buf with
  | Ok (cmd, st, es) =>
      if negb (ps st =? es) then
        s ← local (cstring buf (ps st));
        _ ← print2nl "leftovers: %s" [Ptr (s ++ [0])];
        panic (str "syntax")
      else
        buf ← local (nulterminate (S (length (heap st))) (heap st) cmd buf);
        mret (cmd, heap st, buf)
  | Fault (Panic msg) => panic (str msg)
  | Fault e => Crash e
  | Err => Crash OutOfBounds
  end.

(** ** The main loop *)

Definition getcmd (buf : list Z) (nbuf : Z) : prog (Z * list Z) :=
  _ ← print2 "$ " [];
  buf ← local (memset buf 0 0 nbuf);
  buf ← gets buf nbuf;
  c ← local (arr_get buf 0);
  mret (if c =? 0 then -1 else 0, buf).

(** [while((fd = open("console", O_RDWR)) >= 0)], at most [n] times. *)
Fixpoint open_console (n : nat) : prog unit :=
  match n with
  | O => Crash OutOfFuel
  | S n =>
      fd ← syscall_ (COpen (str "console") O_RDWR);
      if 0 <=? fd then
        if 3 <=? fd then _ ← syscall_ (CClose fd); mret () else open_console n
      else mret ()
  end.

(** One line: [cd] is done here, any other command by a child. *)
Definition run_line (buf : list Z) : prog (list Z) :=
  b0 ← local (arr_get buf 0);
  b1 ← local (arr_get buf 1);
  b2 ← local (arr_get buf 2);
  if (b0 =? 99) && (b1 =? 100) && (b2 =? 32) then
    n ← local (strlen buf 0);
    buf ← local (arr_set buf (n - 1) 0);
    dir ← local (cstring buf 3);
    r ← syscall_ (CChdir dir);
    _ ← (if r <? 0 then print2nl "cannot cd %s" [Ptr (dir ++ [0])] else mret ());
    mret buf
  else
    pid ← fork1;
    _ ← (if pid =? 0 then
           '(cmd, h, buf) ← parsecmd buf;
           runcmd (S (length h)) h buf cmd
         else mret ());
    _ ← syscall_ CWait;
    mret buf.

(** At most [n] lines. *)
Fixpoint main_loop (n : nat) (buf : list Z) : prog unit :=
  match n with
  | O => Crash OutOfFuel
  | S n =>
      '(r, buf) ← getcmd buf 100;
      if 0 <=? r then
        buf ← run_line buf;
        main_loop n buf
      else Exit
  end.

Definition main (n : nat) : prog unit :=
  _ ← open_console n;
  main_loop n (replicate 100 0).
End commands.
