(* ===== verification/ShSpec.v ===== *)
(** * The language of the shell

    Lines as sequences of tokens, the grammar of commands as trees with the way
    they are written, what a command means, and a parser of token lists that
    inverts the writing. *)

From stdpp Require Import base list sets.
From Stdlib Require Import ZArith Lia.
From S2P Require Import Prelude Sysfile.

(** ** Tokens *)

Definition is_white (c : Z) : bool := bool_decide (c ∈ [32; 9; 13; 10; 11]).
Definition is_sym (c : Z) : bool := bool_decide (c ∈ [60; 124; 62; 38; 59; 40; 41]).
Definition is_word (c : Z) : bool := negb (is_white c) && negb (is_sym c).

(** A word, or one of the symbols; two greater signs are the symbol 43. *)
Inductive tok := Word (w : list Z) | Sym (c : Z).

Definition flush (w : list Z) : list tok := match w with [] => [] | _ => [Word w] end.

(** The tokens of a text; [cur] is the word being read. *)
Fixpoint lex (cur t : list Z) : list tok :=
  match t with
  | [] => flush cur
  | c :: t =>
      if is_word c then lex (cur ++ [c]) t
      else
        flush cur ++
        if is_white c then lex [] t
        else if c =? 62 then
          match t with
          | d :: t' => if d =? 62 then Sym 43 :: lex [] t' else Sym 62 :: lex [] t
          | [] => [Sym 62]
          end
        else Sym c :: lex [] t
  end.

(** ** Grammar *)

(** Redirections: the symbol and the file. *)
Definition redirs : Type := list (Z * list Z).

Definition is_redir (c : Z) : bool := bool_decide (c ∈ [60; 62; 43]).

(** exec ::= redirs (word redirs)*  |  '(' line ')' redirs
    pipe ::= exec  |  exec '|' pipe
    line ::= pipe '&'*  |  pipe '&'* ';' line *)
Inductive exec_ :=
| Simple (rs : redirs) (args : list (list Z * redirs))
| Block (l : line_) (rs : redirs)
with pipe_ :=
| One (e : exec_)
| Bar (e : exec_) (p : pipe_)
with line_ :=
| End_ (p : pipe_) (n : nat)
| Semi (p : pipe_) (n : nat) (l : line_).

(** How they are written. *)
Definition print_redirs (rs : redirs) : list tok := concat (map (fun r => [Sym r.1; Word r.2]) rs).
Definition print_args (args : list (list Z * redirs)) : list tok :=
  concat (map (fun a => Word a.1 :: print_redirs a.2) args).

Fixpoint print_exec (e : exec_) : list tok :=
  match e with
  | Simple rs args => print_redirs rs ++ print_args args
  | Block l rs => Sym 40 :: print_line l ++ Sym 41 :: print_redirs rs
  end
with print_pipe (p : pipe_) : list tok :=
  match p with
  | One e => print_exec e
  | Bar e p => print_exec e ++ Sym 124 :: print_pipe p
  end
with print_line (l : line_) : list tok :=
  match l with
  | End_ p n => print_pipe p ++ replicate n (Sym 38)
  | Semi p n l => print_pipe p ++ replicate n (Sym 38) ++ Sym 59 :: print_line l
  end.

(** What can be written: the symbols of redirections are those, and a command
    has less than ten words. *)
Definition redirs_ok (rs : redirs) : Prop := Forall (fun r => is_redir r.1 = true) rs.

Fixpoint exec_ok (e : exec_) : Prop :=
  match e with
  | Simple rs args => redirs_ok rs /\ Forall (fun a => redirs_ok a.2) args /\ (length args < 10)%nat
  | Block l rs => line_ok l /\ redirs_ok rs
  end
with pipe_ok (p : pipe_) : Prop :=
  match p with
  | One e => exec_ok e
  | Bar e p => exec_ok e /\ pipe_ok p
  end
with line_ok (l : line_) : Prop :=
  match l with
  | End_ p _ => pipe_ok p
  | Semi p _ l => pipe_ok p /\ line_ok l
  end.

(** ** Meaning *)

(** A command to run. *)
Inductive tree :=
| Cmd (args : list (list Z))
| Redir (t : tree) (file : list Z) (mode fd : Z)
| Pipe (l r : tree)
| Seq (l r : tree)
| Back (t : tree).

Definition mode_of (c : Z) : Z := if c =? 60 then O_RDONLY else Z.lor O_WRONLY O_CREATE.
Definition fd_of (c : Z) : Z := if c =? 60 then 0 else 1.

Definition wrap (rs : redirs) (t : tree) : tree :=
  foldl (fun t r => Redir t r.2 (mode_of r.1) (fd_of r.1)) t rs.

Fixpoint exec_tree (e : exec_) : tree :=
  match e with
  | Simple rs args => wrap (rs ++ concat (map snd args)) (Cmd (map fst args))
  | Block l rs => wrap rs (line_tree l)
  end
with pipe_tree (p : pipe_) : tree :=
  match p with
  | One e => exec_tree e
  | Bar e p => Pipe (exec_tree e) (pipe_tree p)
  end
with line_tree (l : line_) : tree :=
  match l with
  | End_ p n => Nat.iter n Back (pipe_tree p)
  | Semi p n l => Seq (Nat.iter n Back (pipe_tree p)) (line_tree l)
  end.

(** ** A parser of tokens *)

Fixpoint predirs (ts : list tok) : option (redirs * list tok) :=
  match ts with
  | Sym c :: ts' =>
      if is_redir c then
        match ts' with
        | Word w :: ts'' =>
            match predirs ts'' with Some (rs, r) => Some ((c, w) :: rs, r) | None => None end
        | _ => None
        end
      else Some ([], ts)
  | _ => Some ([], ts)
  end.

(** The words with their redirections, [n] words having been read. *)
Fixpoint pargs (fuel n : nat) (ts : list tok) : option (list (list Z * redirs) * list tok) :=
  match fuel with
  | O => None
  | S fuel =>
      match ts with
      | [] => Some ([], [])
      | Word w :: ts =>
          if (10 <=? S n)%nat then None
          else
            '(rs, ts) ← predirs ts;
            '(l, ts) ← pargs fuel (S n) ts;
            Some ((w, rs) :: l, ts)
      | Sym c :: _ => if bool_decide (c ∈ [124; 41; 38; 59]) then Some ([], ts) else None
      end
  end.

(** What follows the symbol [c], when the next token is that. *)
Definition after (c : Z) (ts : list tok) : option (list tok) :=
  match ts with
  | Sym d :: ts => if d =? c then Some ts else None
  | _ => None
  end.

Definition pexec (K : nat) (line : list tok -> option (line_ * list tok)) (ts : list tok) :
    option (exec_ * list tok) :=
  match after 40 ts with
  | Some ts =>
      '(l, ts) ← line ts;
      ts ← after 41 ts;
      '(rs, ts) ← predirs ts;
      Some (Block l rs, ts)
  | None => '(rs, ts) ← predirs ts; '(l, ts) ← pargs K 0 ts; Some (Simple rs l, ts)
  end.

Fixpoint ppipe (K fuel : nat) (line : list tok -> option (line_ * list tok)) (ts : list tok) :
    option (pipe_ * list tok) :=
  match fuel with
  | O => None
  | S fuel =>
      '(e, ts) ← pexec K line ts;
      match after 124 ts with
      | Some ts => '(p, ts) ← ppipe K fuel line ts; Some (Bar e p, ts)
      | None => Some (One e, ts)
      end
  end.

Fixpoint pback (ts : list tok) : nat * list tok :=
  match ts with
  | Sym c :: ts' => if c =? 38 then (S (pback ts').1, (pback ts').2) else (O, ts)
  | _ => (O, ts)
  end.

Fixpoint pline (K fuel : nat) (ts : list tok) : option (line_ * list tok) :=
  match fuel with
  | O => None
  | S fuel =>
      '(p, ts) ← ppipe K K (pline K fuel) ts;
      let n := (pback ts).1 in
      match after 59 (pback ts).2 with
      | Some ts => '(l, ts) ← pline K fuel ts; Some (Semi p n l, ts)
      | None => Some (End_ p n, (pback ts).2)
      end
  end.

(** ** It inverts the writing *)

(** What can follow a command: the end, a bar, a parenthesis, an ampersand or a
    semicolon; [none_of cs]: not one of these symbols. *)
Definition stop (ts : list tok) : Prop :=
  match ts with
  | [] => True
  | Sym c :: _ => c ∈ [124; 41; 38; 59]
  | Word _ :: _ => False
  end.
Definition none_of (cs : list Z) (ts : list tok) : Prop := forall c r, ts = Sym c :: r -> c ∉ cs.

Lemma after_Some c ts r : after c ts = Some r <-> ts = Sym c :: r.
Proof.
  unfold after. split.
  - destruct ts as [|[w|d] ts]; try done. destruct (Z.eqb_spec d c) as [->|]; congruence.
  - intros ->. by rewrite Z.eqb_refl.
Qed.

Lemma after_None c ts : after c ts = None <-> none_of [c] ts.
Proof.
  split.
  - intros H d r ->. cbn in H. destruct (Z.eqb_spec d c) as [->|Hd]; [done|]. by rewrite list_elem_of_singleton.
  - intros H. destruct ts as [|[w|d] ts]; [done..|]. cbn. destruct (Z.eqb_spec d c) as [->|]; [|done].
    destruct (H c ts); [done|]. by apply list_elem_of_singleton.
Qed.

Lemma predirs_sound ts rs r : predirs ts = Some (rs, r) ->
  ts = print_redirs rs ++ r /\ redirs_ok rs /\ none_of [60; 62; 43] r.
Proof.
  revert rs r. induction ts as [ts IH] using (induction_ltof1 _ (@length tok)). unfold ltof in IH. intros rs r H.
  destruct ts as [|[w|c] ts]; [injection H as <- <-; split_and!; [done|constructor|by intros ? ?]..|].
  cbn in H. unfold is_redir in H. case_bool_decide as Hc.
  - destruct ts as [|[w|d] ts]; [done| |done]. destruct (predirs ts) as [[rs' r']|] eqn:E; [|done].
    injection H as <- <-. destruct (IH ts) with (rs := rs') (r := r') as (-> & Hok & Hn); [cbn; lia|done|].
    split_and!; [done| |done]. constructor; [|done]. cbn. by apply bool_decide_true.
  - injection H as <- <-. split_and!; [done|constructor|]. intros d r [= <- <-]. done.
Qed.

Lemma predirs_complete rs r : redirs_ok rs -> none_of [60; 62; 43] r -> predirs (print_redirs rs ++ r) = Some (rs, r).
Proof.
  intros H Hr. induction H as [|[c w] rs Hc _ IH].
  - cbn. destruct r as [|[w|c] r]; [done..|]. cbn. unfold is_redir. by rewrite bool_decide_false by (by eapply Hr).
  - cbn in *. rewrite Hc. unfold print_redirs in IH. by rewrite IH.
Qed.

Lemma stop_none r : stop r -> none_of [60; 62; 43] r.
Proof. intros H c r' ->. cbn in H. set_solver. Qed.

Lemma pargs_sound fuel n ts l r : (n < 10)%nat -> pargs fuel n ts = Some (l, r) ->
  ts = print_args l ++ r /\ Forall (fun a => redirs_ok a.2) l /\ (n + length l < 10)%nat /\ stop r.
Proof.
  revert n ts l r. induction fuel as [|fuel IH]; intros n ts l r Hn H; [done|].
  destruct ts as [|[w|c] ts]; cbn [pargs] in H.
  - injection H as <- <-. split_and!; [done|constructor|cbn; lia|done].
  - destruct (Nat.leb_spec 10 (S n)); [done|]. apply bind_Some in H as ((rs & ts1) & Hp & H).
    apply bind_Some in H as ((l' & ts2) & Hl & H). injection H as <- <-.
    apply predirs_sound in Hp as (-> & Hrs & _). apply IH in Hl as (-> & Hl & Hlen & Hs); [|lia].
    split_and!; [|by constructor|cbn; lia|done]. cbn. unfold print_args. by rewrite <- app_assoc.
  - case_bool_decide; [|done]. injection H as <- <-. split_and!; [done|constructor|cbn; lia|done].
Qed.

Lemma print_args_none l r : stop r -> none_of [60; 62; 43] (print_args l ++ r).
Proof. intros Hr. destruct l as [|[w rs] l]; [by apply stop_none|]. by intros c r' [=]. Qed.

Lemma pargs_complete fuel n l r : (length l < fuel)%nat -> (n + length l < 10)%nat ->
  Forall (fun a => redirs_ok a.2) l -> stop r -> pargs fuel n (print_args l ++ r) = Some (l, r).
Proof.
  intros Hf Hn Hl Hr. revert n l Hf Hn Hl. induction fuel as [|fuel IH]; intros n l Hf Hn Hl; [lia|].
  destruct l as [|[w rs] l].
  - cbn. destruct r as [|[w|c] r]; [done..|]. cbn in Hr. by rewrite bool_decide_true.
  - apply Forall_cons in Hl as [Hrs Hl]. cbn in Hf, Hn, Hrs.
    change (print_args ((w, rs) :: l) ++ r) with (Word w :: (print_redirs rs ++ print_args l) ++ r).
    cbn [pargs]. rewrite <- app_assoc, (proj2 (Nat.leb_gt 10 (S n))) by lia.
    rewrite predirs_complete by (done || by apply print_args_none). cbn [mbind option_bind].
    rewrite IH by (done || lia). done.
Qed.

Lemma pback_sound ts : ts = replicate (pback ts).1 (Sym 38) ++ (pback ts).2.
Proof.
  induction ts as [|[w|c] ts IH]; [done..|]. cbn. destruct (Z.eqb_spec c 38) as [->|]; [|done]. cbn. by rewrite <- IH.
Qed.

Lemma pback_complete n r : none_of [38] r -> pback (replicate n (Sym 38) ++ r) = (n, r).
Proof.
  intros Hr. induction n as [|n IH]; cbn; [|by rewrite IH].
  destruct r as [|[w|c] r]; [done..|]. cbn. destruct (Z.eqb_spec c 38) as [->|]; [|done].
  destruct (Hr 38 r); [done|]. by apply list_elem_of_singleton.
Qed.

Section inverse.
Context (K : nat).

Lemma pexec_sound line ts e r :
  (forall ts l r, line ts = Some (l, r) -> ts = print_line l ++ r /\ line_ok l) ->
  pexec K line ts = Some (e, r) -> ts = print_exec e ++ r /\ exec_ok e.
Proof.
  intros Hline. unfold pexec. destruct (after 40 ts) as [ts1|] eqn:Ea; intros H.
  - apply after_Some in Ea as ->. apply bind_Some in H as ((l & ts2) & Hl & H).
    apply bind_Some in H as (ts3 & H41 & H). apply after_Some in H41 as ->.
    apply bind_Some in H as ((rs & ts4) & Hp & H). injection H as <- <-.
    apply Hline in Hl as (-> & Hok). apply predirs_sound in Hp as (-> & Hrs & _).
    cbn. split; [|done]. by rewrite <- app_assoc.
  - apply bind_Some in H as ((rs & ts1) & Hp & H). apply bind_Some in H as ((l & ts2) & Hl & H). injection H as <- <-.
    apply predirs_sound in Hp as (-> & Hrs & _). apply pargs_sound in Hl as (-> & Hl & Hlen & _); [|lia].
    cbn. split; [by rewrite app_assoc|]. split_and!; [done|done|lia].
Qed.

Lemma ppipe_sound fuel line ts p r :
  (forall ts l r, line ts = Some (l, r) -> ts = print_line l ++ r /\ line_ok l) ->
  ppipe K fuel line ts = Some (p, r) -> ts = print_pipe p ++ r /\ pipe_ok p.
Proof.
  intros Hline. revert ts p r. induction fuel as [|fuel IH]; intros ts p r H; [done|]. cbn in H.
  apply bind_Some in H as ((e & ts1) & He & H). apply pexec_sound in He as (-> & Hok); [|done].
  destruct (after 124 ts1) as [ts2|] eqn:Ea.
  - apply after_Some in Ea as ->. apply bind_Some in H as ((p' & ts3) & Hp & H). injection H as <- <-.
    apply IH in Hp as (-> & Hp). cbn. split; [|done]. by rewrite <- app_assoc.
  - injection H as <- <-. done.
Qed.

Lemma pline_sound fuel ts l r : pline K fuel ts = Some (l, r) -> ts = print_line l ++ r /\ line_ok l.
Proof.
  revert ts l r. induction fuel as [|fuel IH]; intros ts l r H; [done|]. cbn in H.
  apply bind_Some in H as ((p & ts1) & Hp & H). apply ppipe_sound in Hp as (-> & Hp); [|done].
  rewrite (pback_sound ts1) at 1. destruct (pback ts1) as [n ts2]. cbn [fst snd] in *.
  destruct (after 59 ts2) as [ts3|] eqn:Ea.
  - apply after_Some in Ea as ->. apply bind_Some in H as ((l' & ts4) & Hl & H). injection H as <- <-.
    apply IH in Hl as (-> & Hl). cbn. split; [|done]. by rewrite <- !app_assoc.
  - injection H as <- <-. cbn. by rewrite <- app_assoc.
Qed.

(** Where a command, and a line, can end. *)
Definition ends_pipe (r : list tok) : Prop := stop r /\ none_of [124] r.
Definition ends_line (r : list tok) : Prop := r = [] \/ exists r', r = Sym 41 :: r'.

Lemma stop_sym c r : c ∈ [124; 41; 38; 59] -> stop (Sym c :: r).
Proof. done. Qed.

Lemma ends_line_stop r : ends_line r -> stop r /\ none_of [124; 38; 59] r.
Proof.
  intros [->|(r' & ->)]; (split; [try done; apply stop_sym; set_solver|]).
  - by intros c r'.
  - intros c r'' [= <- <-]. set_solver.
Qed.

Lemma none_sym cs c r : c ∉ cs -> none_of cs (Sym c :: r).
Proof. intros H d r' [= <- <-]. done. Qed.

Lemma back_ends_pipe n r : stop r -> none_of [124] r -> ends_pipe (replicate n (Sym 38) ++ r).
Proof.
  intros Hs Hn. destruct n; [done|]. split; [apply stop_sym; set_solver|apply none_sym; set_solver].
Qed.

Lemma pexec_complete line e r :
  (forall l r, line_ok l -> ends_line r -> (length (print_line l) < length (print_exec e))%nat ->
     line (print_line l ++ r) = Some (l, r)) ->
  (length (print_exec e) < K)%nat -> exec_ok e -> stop r -> pexec K line (print_exec e ++ r) = Some (e, r).
Proof.
  intros Hline Hk Hok Hr. unfold pexec. destruct e as [rs args|l rs]; cbn [print_exec exec_ok] in *.
  - rewrite <- app_assoc. destruct Hok as (Hrs & Hargs & Hlen).
    assert (none_of [40] (print_redirs rs ++ print_args args ++ r)) as Hn.
    { intros c r' E. destruct rs as [|[d w] rs]; [|injection E as <- _; apply Forall_cons in Hrs as [Hd _];
        cbn in Hd; unfold is_redir in Hd; apply bool_decide_eq_true in Hd; set_solver].
      destruct args as [|[w rs] args]; [|done]. cbn in E. subst r. cbn in Hr. set_solver. }
    apply after_None in Hn. rewrite Hn.
    rewrite predirs_complete by (done || by apply print_args_none). cbn.
    rewrite pargs_complete; [done| |lia|done|done].
    rewrite length_app in Hk. enough (length args <= length (print_args args))%nat by lia.
    unfold print_args. clear. induction args; cbn; [lia|]. rewrite length_app. lia.
  - destruct Hok as [Hl Hrs]. cbn [app]. rewrite (proj2 (after_Some 40 _ _)) by reflexivity. rewrite <- app_assoc. cbn [app].
    rewrite Hline; [|done|by right; eauto|cbn; rewrite length_app; lia]. cbn [mbind option_bind].
    rewrite (proj2 (after_Some 41 _ _)) by reflexivity. cbn [mbind option_bind].
    rewrite predirs_complete by (done || by apply stop_none). done.
Qed.

Lemma ppipe_complete fuel line p r :
  (forall l r, line_ok l -> ends_line r -> (length (print_line l) < length (print_pipe p))%nat ->
     line (print_line l ++ r) = Some (l, r)) ->
  (length (print_pipe p) < K)%nat -> (length (print_pipe p) < fuel)%nat ->
  pipe_ok p -> ends_pipe r -> ppipe K fuel line (print_pipe p ++ r) = Some (p, r).
Proof.
  intros Hline Hk. revert p r Hline Hk. induction fuel as [|fuel IH]; intros p r Hline Hk Hf Hp [Hs Hn]; [lia|].
  destruct p as [e|e p]; cbn [print_pipe pipe_ok ppipe] in *.
  - rewrite pexec_complete by done. cbn. apply after_None in Hn. by rewrite Hn.
  - rewrite length_app in *. cbn [length] in *. destruct Hp as [He Hp]. rewrite <- app_assoc. cbn [app].
    rewrite pexec_complete; [|intros; apply Hline; [done|done|lia]|lia|done|apply stop_sym; set_solver].
    cbn [mbind option_bind]. rewrite (proj2 (after_Some 124 _ _)) by reflexivity.
    rewrite IH; [done|intros; apply Hline; [done|done|lia]|lia|lia|done|done].
Qed.

Lemma pline_complete fuel l r :
  (length (print_line l) < K)%nat -> (length (print_line l) < fuel)%nat ->
  line_ok l -> ends_line r -> pline K fuel (print_line l ++ r) = Some (l, r).
Proof.
  revert l r. induction fuel as [|fuel IH]; intros l r Hk Hf Hl Hr; [lia|].
  apply ends_line_stop in Hr as Hr'. destruct Hr' as [Hs Hn].
  destruct l as [p n|p n l]; cbn [print_line line_ok pline] in *; rewrite !length_app in *; rewrite <- !app_assoc.
  - rewrite ppipe_complete; [|intros; apply IH; [lia|lia|done|done]|lia|lia|done|].
    2: { apply back_ends_pipe; [done|]. intros c r' E. specialize (Hn c r' E). set_solver. }
    cbn [mbind option_bind]. rewrite pback_complete by (intros c r' E; specialize (Hn c r' E); set_solver). cbn [fst snd].
    rewrite (proj2 (after_None 59 r)); [done|]. intros c r' E. specialize (Hn c r' E). set_solver.
  - cbn [length app] in *. destruct Hl as [Hp Hl].
    rewrite ppipe_complete; [|intros; apply IH; [lia|lia|done|done]|lia|lia|done|].
    2: { apply back_ends_pipe; [apply stop_sym; set_solver|apply none_sym; set_solver]. }
    cbn [mbind option_bind]. rewrite pback_complete by (apply none_sym; set_solver). cbn [fst snd].
    rewrite (proj2 (after_Some 59 _ _)) by reflexivity.
    rewrite IH; [done|lia|lia|done|done].
Qed.
End inverse.
