(* ===== verification/ShProofs.v ===== *)
(** * The parser of the shell

    What [gettoken] and [peek] do on a line, and that the recursive descent of
    [parseline] follows the parser of tokens of [ShSpec] step by step, building in
    the heap the command that parser returns. *)

From stdpp Require Import base list sets strings.
From Stdlib Require Import ZArith Lia.
From S2P Require Import Prelude State KString Ulib User Sh ShSpec.

(** ** Sequences *)

Fixpoint takew (p : Z -> bool) (l : list Z) : list Z :=
  match l with
  | c :: l => if p c then c :: takew p l else []
  | [] => []
  end.
Fixpoint dropw (p : Z -> bool) (l : list Z) : list Z :=
  match l with
  | c :: l' => if p c then dropw p l' else l
  | [] => []
  end.

Lemma takew_dropw p l : takew p l ++ dropw p l = l.
Proof. induction l as [|c l IH]; [done|]. cbn. destruct (p c); [|done]. cbn. by rewrite IH. Qed.

Lemma takew_all p l : Forall (fun c => p c = true) (takew p l).
Proof. induction l as [|c l IH]; [constructor|]. cbn. destruct (p c) eqn:E; by constructor. Qed.

Lemma dropw_head p l c u : dropw p l = c :: u -> p c = false.
Proof.
  induction l as [|d l IH]; [done|]. cbn. destruct (p d) eqn:E; [done|]. by intros [= <- <-].
Qed.

(** ** Characters *)

Lemma strchr_set l i c : Forall (fun d => d <> 0) l ->
  exists o, strchr_from (l ++ [0]) i c = Ok o /\ (match o with Some _ => true | None => false end) = bool_decide (c ∈ l).
Proof.
  intros Hl. revert i. induction Hl as [|d l Hd _ IH]; intros i.
  { exists None. split; [done|]. symmetry. apply bool_decide_false, not_elem_of_nil. }
  cbn. rewrite (proj2 (Z.eqb_neq d 0)) by done. destruct (Z.eqb_spec d c) as [->|Hdc].
  - exists (Some i). split; [done|]. symmetry. apply bool_decide_true. set_solver.
  - destruct (IH (i + 1)) as (o & E & Ho). exists o. split; [done|]. rewrite Ho. apply bool_decide_ext. set_solver.
Qed.

Lemma in_set_spec l c : Forall (fun d => d <> 0) l -> in_set (l ++ [0]) c = Ok (bool_decide (c ∈ l)).
Proof.
  intros Hl. unfold in_set, strchr. cbn [Z.ltb Z.compare Z.to_nat drop].
  destruct (strchr_set l 0 c Hl) as (o & E & Ho). rewrite drop_0, E. cbn. by rewrite Ho.
Qed.

Lemma in_white c : in_set whitespace c = Ok (is_white c).
Proof. apply (in_set_spec [32; 9; 13; 10; 11]). by repeat constructor. Qed.

Lemma in_symbols c : in_set symbols c = Ok (is_sym c).
Proof. apply (in_set_spec [60; 124; 62; 38; 59; 40; 41]). by repeat constructor. Qed.

(** ** Tokens of a text *)

Lemma white_not_word c : is_white c = true -> is_word c = false.
Proof. unfold is_word. by intros ->. Qed.

Lemma lex_dropw u : lex [] (dropw is_white u) = lex [] u.
Proof.
  induction u as [|c u IH]; [done|]. cbn [dropw]. destruct (is_white c) eqn:E; [|done].
  rewrite IH. cbn [lex flush app]. by rewrite (white_not_word c E), E.
Qed.

Lemma lex_flush cur u : (forall c v, u = c :: v -> is_word c = false) -> lex cur u = flush cur ++ lex [] u.
Proof.
  intros H. destruct u as [|c u]; cbn; [by rewrite app_nil_r|]. by rewrite (H c u eq_refl).
Qed.

Lemma lex_words cur w u : Forall (fun c => is_word c = true) w -> (forall c v, u = c :: v -> is_word c = false) ->
  lex cur (w ++ u) = flush (cur ++ w) ++ lex [] u.
Proof.
  intros Hw Hu. revert cur. induction Hw as [|c w Hc _ IH]; intros cur.
  { rewrite app_nil_r. by apply lex_flush. }
  cbn. rewrite Hc, IH. by rewrite <- app_assoc.
Qed.

(** The text after white space: at its end, a symbol, or a word. *)
Inductive start : list Z -> list tok -> Prop :=
| start_end : start [] []
| start_append u : start (62 :: 62 :: u) (Sym 43 :: lex [] u)
| start_greater u : (forall v, u <> 62 :: v) -> start (62 :: u) (Sym 62 :: lex [] u)
| start_sym c u : is_sym c = true -> c <> 62 -> start (c :: u) (Sym c :: lex [] u)
| start_word c w u : is_word c = true -> Forall (fun d => is_word d = true) w ->
    (forall d v, u = d :: v -> is_word d = false) -> start (c :: w ++ u) (Word (c :: w) :: lex [] u).

Lemma start_spec u : (forall c v, u = c :: v -> is_white c = false) -> start u (lex [] u).
Proof.
  intros Hu. destruct u as [|c u]; [constructor|]. specialize (Hu c u eq_refl).
  destruct (is_word c) eqn:Ew.
  - rewrite <- (takew_dropw is_word u). change (c :: takew is_word u ++ dropw is_word u) with ((c :: takew is_word u) ++ dropw is_word u).
    rewrite (lex_words [] (c :: takew is_word u)); [|constructor; [done|apply takew_all]|intros d v; apply dropw_head].
    cbn [app flush]. constructor; [done|apply takew_all|intros d v; apply dropw_head].
  - cbn [lex]. rewrite Ew, Hu. cbn [flush app]. unfold is_word in Ew. rewrite Hu in Ew. cbn in Ew.
    apply negb_false_iff in Ew. destruct (Z.eqb_spec c 62) as [->|Hc]; [|by constructor].
    destruct u as [|d u]; [constructor; congruence|]. destruct (Z.eqb_spec d 62) as [->|Hd]; [constructor|].
    constructor. congruence.
Qed.

(** ** On a line *)

Section line.
Context (t tail : list Z) (room : nat).
Context (Ht : Forall (fun c => c <> 0) t).

Notation buf := (t ++ 0 :: tail).
Notation es := (zlen t).

(** The parser is before the text [u], and before the tokens [ts]. *)
Definition before (s : pst) (u : list Z) : Prop := exists a, t = a ++ u /\ ps s = zlen a.
Definition at_toks (s : pst) (ts : list tok) : Prop := exists u, before s u /\ lex [] u = ts.

(** The word [w] lies between [q] and [e], where it ends. *)
Definition boundary (e : Z) : Prop := 0 <= e <= es /\ forall c, t !! Z.to_nat e = Some c -> is_word c = false.
Definition word_at (q e : Z) (w : list Z) : Prop :=
  exists a u, t = a ++ w ++ u /\ q = zlen a /\ e = zlen (a ++ w) /\
    Forall (fun c => is_word c = true) w /\ w <> [] /\ (forall d v, u = d :: v -> is_word d = false).

Lemma get_char a u : t = a ++ u -> arr_get buf (zlen a) = Ok (match u with c :: _ => c | [] => 0 end).
Proof.
  intros ->. apply arr_get_Ok. split; [apply zlen_nonneg|]. unfold zlen. rewrite Nat2Z.id, <- app_assoc.
  rewrite lookup_app_r, Nat.sub_diag by lia. by destruct u.
Qed.

Lemma char_nonzero a c u : t = a ++ c :: u -> c <> 0.
Proof. intros E. rewrite E in Ht. apply Forall_app in Ht as [_ H]. by apply Forall_cons in H as [? _]. Qed.

Lemma zlen_lt a c u : t = a ++ c :: u -> (zlen a <? es) = true.
Proof. intros ->. apply Z.ltb_lt. rewrite zlen_app, zlen_cons. pose proof (zlen_nonneg u). lia. Qed.

Lemma zlen_end a : t = a ++ [] -> (zlen a <? es) = false.
Proof. intros ->. rewrite app_nil_r. apply Z.ltb_ge. lia. Qed.

Lemma zlen_snoc {A} (a : list A) c : zlen a + 1 = zlen (a ++ [c]).
Proof. by rewrite zlen_app. Qed.

Lemma skip_white_spec fuel a u : t = a ++ u -> (length u < fuel)%nat ->
  skip_white buf fuel (zlen a) es = Ok (zlen (a ++ takew is_white u)).
Proof.
  revert a u. induction fuel as [|fuel IH]; intros a u E Hf; [lia|]. cbn [skip_white].
  destruct u as [|c u]; cbn [takew].
  - by rewrite (zlen_end a E), app_nil_r.
  - rewrite (zlen_lt a c u E), (get_char a (c :: u) E). cbn [mbind res_bind]. rewrite in_white. cbn [mbind res_bind].
    destruct (is_white c); [|by rewrite app_nil_r].
    rewrite (zlen_snoc a c), (IH (a ++ [c]) u); [by rewrite <- app_assoc|by rewrite <- app_assoc|cbn in Hf; lia].
Qed.

Lemma skip_word_spec fuel a w u : t = a ++ w ++ u -> (length (w ++ u) < fuel)%nat ->
  Forall (fun d => is_word d = true) w -> (forall d v, u = d :: v -> is_word d = false) ->
  skip_word buf fuel (zlen a) es = Ok (zlen (a ++ w)).
Proof.
  intros E Hf Hw Hu. revert a fuel E Hf. induction Hw as [|c w Hc _ IH]; intros a [|fuel] E Hf; [cbn in Hf; lia| |cbn in Hf; lia|].
  - cbn [app skip_word] in *. rewrite app_nil_r. destruct u as [|d u]; [by rewrite (zlen_end a E)|].
    rewrite (zlen_lt a d u E), (get_char a (d :: u) E). cbn [mbind res_bind]. rewrite in_white. cbn [mbind res_bind].
    specialize (Hu d u eq_refl). unfold is_word in Hu. destruct (is_white d); [done|].
    rewrite in_symbols. cbn in *. by destruct (is_sym d).
  - cbn [app skip_word] in *. rewrite (zlen_lt a c (w ++ u) E), (get_char a (c :: w ++ u) E).
    cbn [mbind res_bind]. rewrite in_white. cbn [mbind res_bind]. unfold is_word in Hc.
    destruct (is_white c); [done|]. rewrite in_symbols. cbn [mbind res_bind]. destruct (is_sym c); [done|].
    rewrite (zlen_snoc a c), IH; [by rewrite <- app_assoc|by rewrite <- app_assoc|cbn in Hf; lia].
Qed.

Lemma left_of_spec a u : t = a ++ u -> (length u < left_of (zlen a) es)%nat.
Proof. intros ->. unfold left_of. rewrite zlen_app. unfold zlen. lia. Qed.

(** From [s] over white space. *)
Lemma skip_before s u : before s u ->
  exists a, t = a ++ dropw is_white u /\ skip_white buf (left_of (ps s) es) (ps s) es = Ok (zlen a).
Proof.
  intros (a & E & ->). exists (a ++ takew is_white u). split; [by rewrite <- app_assoc, takew_dropw|].
  apply skip_white_spec; [done|by apply left_of_spec].
Qed.

(** The characters that [peek] is asked for are symbols. *)
Definition first_in (l : list Z) (ts : list tok) : bool :=
  match ts with
  | Sym c :: _ => bool_decide ((if c =? 43 then 62 else c) ∈ l)
  | _ => false
  end.

Lemma sym_not_word c : is_sym c = true -> is_word c = false.
Proof. unfold is_word. intros ->. apply andb_false_r. Qed.

Lemma is_sym_in c : is_sym c = true <-> c ∈ [60; 124; 62; 38; 59; 40; 41].
Proof. apply bool_decide_eq_true. Qed.

Lemma peek_spec s ts l : at_toks s ts -> Forall (fun c => is_sym c = true) l ->
  exists s', peek buf es (l ++ [0]) s = Ok (first_in l ts, s') /\ heap s' = heap s /\ at_toks s' ts.
Proof.
  intros (u & Hu & <-) Hl. destruct (skip_before s u Hu) as (a & E & Hs).
  unfold peek. rewrite Hs. cbn [mbind res_bind]. rewrite (get_char a _ E). cbn [mbind res_bind].
  assert (Hl0 : Forall (fun c => c <> 0) l) by (eapply Forall_impl; [exact Hl|]; intros c Hc ->; done).
  exists {| ps := zlen a; heap := heap s |}. split_and!; [|done|].
  2: { exists (dropw is_white u). split; [by exists a|apply lex_dropw]. }
  rewrite <- (lex_dropw u). pose proof (start_spec (dropw is_white u) (dropw_head is_white u)) as Hst.
  destruct Hst as [|v|v Hv|c v Hc Hn|c w v Hc Hw Hv].
  - done.
  - change (62 =? 0) with false. rewrite in_set_spec by done. done.
  - change (62 =? 0) with false. rewrite in_set_spec by done. done.
  - rewrite (proj2 (Z.eqb_neq c 0)) by (by eapply char_nonzero). rewrite in_set_spec by done. cbn.
    destruct (Z.eqb_spec c 43) as [->|]; [|done]. done.
  - rewrite (proj2 (Z.eqb_neq c 0)) by (by eapply char_nonzero). rewrite in_set_spec by done. cbn.
    rewrite bool_decide_false; [done|]. intros Hin. rewrite Forall_forall in Hl. apply Hl, sym_not_word in Hin. congruence.
Qed.

(** The number that stands for a token. *)
Definition code (k : tok) : Z := match k with Word _ => 97 | Sym c => c end.

Lemma token_spec a u : t = a ++ u -> start u (lex [] u) ->
  match lex [] u with
  | [] => token_at buf (zlen a) es = Ok (0, zlen a) /\ u = []
  | k :: ts => exists b v, token_at buf (zlen a) es = Ok (code k, zlen (a ++ b)) /\ u = b ++ v /\ lex [] v = ts /\
      (forall w, k = Word w -> word_at (zlen a) (zlen (a ++ b)) w)
  end.
Proof.
  intros E Hst. unfold token_at. rewrite (get_char a u E). cbn [mbind res_bind].
  destruct Hst as [|v|v Hv|c v Hc Hn|c w v Hc Hw Hv].
  - done.
  - exists [62; 62], v. cbn [Z.eqb Pos.eqb orb]. rewrite (zlen_snoc a 62), (get_char (a ++ [62]) (62 :: v)) by (by rewrite <- app_assoc).
    cbn [mbind res_bind Z.eqb Pos.eqb]. split_and!; [|done|done|done]. rewrite zlen_app. done.
  - exists [62], v. cbn [Z.eqb Pos.eqb orb]. rewrite (zlen_snoc a 62), (get_char (a ++ [62]) v) by (by rewrite <- app_assoc).
    cbn [mbind res_bind]. split_and!; [|done|done|done].
    destruct v as [|d v]; [done|]. destruct (Z.eqb_spec d 62) as [->|]; [by destruct (Hv v)|done].
  - exists [c], v. rewrite (proj2 (Z.eqb_neq c 0)) by (by eapply char_nonzero). split_and!; [|done|done|done].
    apply is_sym_in in Hc. rewrite !elem_of_cons in Hc.
    assert ((c =? 124) || (c =? 40) || (c =? 41) || (c =? 59) || (c =? 38) || (c =? 60) = true) as ->.
    { destruct Hc as [->|[->|[->|[->|[->|[->|[->|Hc]]]]]]]; try done. by apply not_elem_of_nil in Hc. }
    by rewrite (zlen_snoc a c).
  - exists (c :: w), v. rewrite (proj2 (Z.eqb_neq c 0)) by (by eapply char_nonzero).
    assert (is_sym c = false) as Hs by (unfold is_word in Hc; destruct (is_sym c); [by rewrite andb_false_r in Hc|done]).
    unfold is_sym in Hs. apply bool_decide_eq_false in Hs. rewrite !not_elem_of_cons in Hs.
    rewrite !(proj2 (Z.eqb_neq c _)) by tauto. cbn [orb].
    rewrite (skip_word_spec _ a (c :: w) v); [|done|by apply left_of_spec|by constructor|done].
    cbn [mbind res_bind]. split_and!; [done|done|done|]. intros w' [= <-]. exists a, v. split_and!; try done.
    by constructor.
Qed.

Lemma gettoken_spec s ts : at_toks s ts ->
  match ts with
  | [] => exists q eq s', gettoken buf es s = Ok (0, q, eq, s') /\ heap s' = heap s /\ at_toks s' []
  | k :: ts' => exists q eq s', gettoken buf es s = Ok (code k, q, eq, s') /\ heap s' = heap s /\ at_toks s' ts' /\
      (forall w, k = Word w -> word_at q eq w)
  end.
Proof.
  intros (u & Hu & <-). destruct (skip_before s u Hu) as (a & E & Hs).
  rewrite <- (lex_dropw u). pose proof (start_spec (dropw is_white u) (dropw_head is_white u)) as Hst.
  pose proof (token_spec a _ E Hst) as Htk. unfold gettoken. rewrite Hs. cbn [mbind res_bind].
  destruct (lex [] (dropw is_white u)) as [|k ts].
  - destruct Htk as [-> Hn]. cbn [mbind res_bind].
    rewrite (skip_white_spec _ a []); [|by rewrite <- Hn|apply left_of_spec; by rewrite <- Hn].
    cbn [mbind res_bind takew]. do 3 eexists. split_and!; [done|done|]. exists []. split; [|done].
    exists (a ++ []). split; [|done]. by rewrite app_nil_r, <- Hn.
  - destruct Htk as (b & v & -> & Ev & <- & Hw). cbn [mbind res_bind].
    assert (t = (a ++ b) ++ v) as E' by (by rewrite E, Ev, app_assoc).
    rewrite (skip_white_spec _ (a ++ b) v E') by (by apply left_of_spec). cbn [mbind res_bind].
    do 3 eexists. split_and!; [done|done| |done].
    exists (dropw is_white v). split; [|apply lex_dropw]. exists ((a ++ b) ++ takew is_white v).
    split; [|done]. by rewrite <- app_assoc, takew_dropw.
Qed.

(** A symbol that [peek] has seen. *)
Lemma take_sym s c ts : at_toks s (Sym c :: ts) ->
  exists q eq s', gettoken buf es s = Ok (c, q, eq, s') /\ heap s' = heap s /\ at_toks s' ts.
Proof. intros H. destruct (gettoken_spec _ _ H) as (q & eq & s' & E & Hh & Ha & _). eauto 10. Qed.

(** ** Commands in the heap *)

(** The arguments: the words, and null pointers behind them. *)
Definition args_at (argv eargv : list (option Z)) (ws : list (list Z)) : Prop :=
  exists qs, Forall2 (fun q w => word_at q.1 q.2 w) qs ws /\
    argv = map (fun q => Some q.1) qs ++ replicate (MAXARGS - length ws) None /\
    eargv = map (fun q => Some q.2) qs ++ replicate (MAXARGS - length ws) None.

Inductive repr (h : list node) : nat -> tree -> Prop :=
| repr_exec c argv eargv ws : node_at h c = Ok (EXEC argv eargv) -> args_at argv eargv ws ->
    (length ws < MAXARGS)%nat -> repr h c (Cmd ws)
| repr_redir c sub q eq mode fd w tr : node_at h c = Ok (REDIR sub q eq mode fd) -> word_at q eq w -> (sub < c)%nat ->
    repr h sub tr -> repr h c (Redir tr w mode fd)
| repr_pipe c l r tl tr : node_at h c = Ok (PIPE l r) -> (l < c)%nat -> (r < c)%nat ->
    repr h l tl -> repr h r tr -> repr h c (Pipe tl tr)
| repr_list c l r tl tr : node_at h c = Ok (LIST l r) -> (l < c)%nat -> (r < c)%nat ->
    repr h l tl -> repr h r tr -> repr h c (Seq tl tr)
| repr_back c sub tr : node_at h c = Ok (BACK sub) -> (sub < c)%nat -> repr h sub tr -> repr h c (Back tr).

Lemma node_at_app h k c n : node_at h c = Ok n -> node_at (h ++ k) c = Ok n.
Proof.
  destruct c as [|i]; cbn; [done|]. rewrite !checked_Ok. apply lookup_app_l_Some.
Qed.

Lemma node_at_new h n : node_at (h ++ [n]) (S (length h)) = Ok n.
Proof. cbn. apply checked_Ok. by rewrite lookup_app_r, Nat.sub_diag. Qed.

Lemma repr_app h k c tr : repr h c tr -> repr (h ++ k) c tr.
Proof. induction 1; econstructor; eauto using node_at_app. Qed.

Lemma node_at_bound h c n : node_at h c = Ok n -> (c <= length h)%nat /\ c <> 0%nat.
Proof. destruct c as [|i]; cbn; [done|]. intros H%checked_Ok%lookup_lt_Some. lia. Qed.

Lemma repr_bound h c tr : repr h c tr -> (c <= length h)%nat /\ c <> 0%nat.
Proof. destruct 1; by eapply node_at_bound. Qed.

(** The commands between [cmd] and [c] redirect [rs]. *)
Inductive wraps (h : list node) : nat -> nat -> redirs -> Prop :=
| wraps_nil c : wraps h c c []
| wraps_cons cmd c1 c q eq d w rs : node_at h c1 = Ok (REDIR cmd q eq (mode_of d) (fd_of d)) -> word_at q eq w ->
    (cmd < c1)%nat -> wraps h c1 c rs -> wraps h cmd c ((d, w) :: rs).

Lemma wraps_app h k cmd c rs : wraps h cmd c rs -> wraps (h ++ k) cmd c rs.
Proof. induction 1; econstructor; eauto using node_at_app. Qed.

Lemma wraps_trans h c1 c2 c3 rs rs' : wraps h c1 c2 rs -> wraps h c2 c3 rs' -> wraps h c1 c3 (rs ++ rs').
Proof. induction 1; [done|]. intros H'. cbn. econstructor; eauto. Qed.

Lemma repr_wrap h cmd c rs tr : repr h cmd tr -> wraps h cmd c rs -> repr h c (wrap rs tr).
Proof.
  intros Hr Hw. revert tr Hr. induction Hw as [c|cmd c1 c q eq d w rs Hn Hq Hl _ IH]; intros tr Hr; [done|].
  cbn. apply IH. by eapply repr_redir.
Qed.

(** The node of a command under construction can change. *)
Lemma wraps_exec h a b a' b' k cmd c rs :
  wraps (h ++ EXEC a b :: k) cmd c rs -> wraps (h ++ EXEC a' b' :: k) cmd c rs.
Proof.
  induction 1 as [c|cmd c1 c q eq d w rs Hn Hq Hl _ IH]; [constructor|]. econstructor; [|done|done|done].
  destruct c1 as [|i]; [done|]. cbn in *. apply checked_Ok in Hn. apply checked_Ok.
  destruct (decide (i < length h)%nat) as [Hi|Hi].
  - by rewrite lookup_app_l in Hn |- *.
  - rewrite lookup_app_r in Hn |- * by lia. by destruct (i - length h)%nat.
Qed.
End line.
