(* ===== verification/ShParse.v ===== *)
(** * The recursive descent of the shell follows the grammar

    Each parse function, on a line, does what the parser of tokens does: it panics
    where that fails, and otherwise builds the command that its result means. *)

From stdpp Require Import base list sets strings.
From Stdlib Require Import ZArith Lia.
From S2P Require Import Prelude State KString Ulib User Sh ShSpec ShProofs Sysfile.

(** The symbols that occur as tokens. *)
Definition tok_ok (k : tok) : Prop := match k with Word _ => True | Sym c => is_sym c = true \/ c = 43 end.

Lemma lex_ok cur u : Forall tok_ok (lex cur u) /\ (length (lex cur u) <= length cur + length u)%nat.
Proof.
  assert (Hf : forall w, Forall tok_ok (flush w) /\ (length (flush w) <= length w)%nat).
  { intros [|c w]; cbn; (split; [by repeat constructor|lia]). }
  revert cur. induction u as [u IH] using (induction_ltof1 _ (@length Z)). unfold ltof in IH. intros cur.
  destruct u as [|c u]; cbn [lex]; [destruct (Hf cur); split; [done|lia]|].
  destruct (is_word c) eqn:Ew.
  { destruct (IH u) with (cur := cur ++ [c]) as [H1 H2]; [cbn; lia|]. split; [done|]. rewrite length_app in H2. cbn in *. lia. }
  destruct (Hf cur) as [F1 F2]. destruct (is_white c) eqn:Es.
  { destruct (IH u) with (cur := @nil Z) as [H1 H2]; [cbn; lia|]. rewrite Forall_app, length_app. split; [done|]. cbn in *. lia. }
  assert (is_sym c = true) as Hs by (unfold is_word in Ew; rewrite Es in Ew; cbn in Ew; by apply negb_false_iff).
  destruct (Z.eqb_spec c 62) as [->|].
  - destruct u as [|d u].
    { rewrite Forall_app, length_app. split; [split; [done|by repeat constructor; left]|cbn; lia]. }
    destruct (Z.eqb_spec d 62).
    + destruct (IH u) with (cur := @nil Z) as [H1 H2]; [cbn; lia|]. rewrite Forall_app, length_app.
      split; [split; [done|constructor; [by right|done]]|]. cbn in *. lia.
    + destruct (IH (d :: u)) with (cur := @nil Z) as [H1 H2]; [cbn; lia|]. rewrite Forall_app, length_app.
      split; [split; [done|constructor; [by left|done]]|]. cbn [length] in *. lia.
  - destruct (IH u) with (cur := @nil Z) as [H1 H2]; [cbn; lia|]. rewrite Forall_app, length_app.
    split; [split; [done|constructor; [by left|done]]|]. cbn [length] in *. lia.
Qed.

(** [peek(ps, es, "<>")] *)
Lemma first_redir ts : Forall tok_ok ts ->
  if first_in [60; 62] ts then exists d ts', ts = Sym d :: ts' /\ is_redir d = true else predirs ts = Some ([], ts).
Proof.
  intros H. destruct ts as [|[w|c] ts]; [done..|]. apply Forall_cons in H as [Hc _].
  assert (first_in [60; 62] (Sym c :: ts) = is_redir c) as ->.
  { cbn. unfold is_redir. destruct (Z.eqb_spec c 43) as [->|]; [done|]. apply bool_decide_ext. set_solver. }
  cbn. destruct (is_redir c) eqn:E; eauto.
Qed.

Section parse.
Context (t tail : list Z) (room : nat).
Context (Ht : Forall (fun c => c <> 0) t).

Notation buf := (t ++ 0 :: tail).
Notation es := (zlen t).
Notation at_toks := (at_toks t).
Notation repr := (repr t).
Notation wraps := (wraps t).

(** What the parser complains about. *)
Definition messages : list string :=
  ["missing file for redirection"; "syntax"; "too many args"; "syntax - missing )"].

Ltac complain := eexists; split; [reflexivity|repeat constructor].

(** What a parse function does where the parser of tokens gives [r]. *)
Definition follows {X} (m : res (nat * pst)) (r : option (X * list tok))
    (Q : X -> list tok -> nat -> pst -> Prop) : Prop :=
  match r with
  | Some (x, ts) => exists c s', m = Ok (c, s') /\ Q x ts c s'
  | None => exists msg, m = Fault (Panic msg) /\ msg ∈ messages
  end.

Lemma at_toks_ok s ts : at_toks s ts -> Forall tok_ok ts /\ (length ts < S (Z.to_nat es))%nat.
Proof.
  intros (u & (a & -> & _) & <-). destruct (lex_ok [] u) as [H1 H2]. split; [done|].
  rewrite zlen_app. unfold zlen. cbn in H2. lia.
Qed.

Lemma alloc_node_spec n s ts : (length (heap s) < room)%nat -> at_toks s ts ->
  exists s', alloc room n s = Ok (S (length (heap s)), s') /\ heap s' = heap s ++ [n] /\ at_toks s' ts.
Proof.
  intros Hr Ha. unfold alloc. rewrite (proj2 (Nat.ltb_lt _ _)) by done. eexists. split_and!; [done|done|].
  destruct Ha as (u & (a & E & Hp) & <-). exists u. split; [|done]. by exists a.
Qed.

(** ** Redirections *)

Definition redirs_built (s : pst) (cmd n : nat) (rs : redirs) (ts : list tok) (c : nat) (s' : pst) : Prop :=
  exists k, heap s' = heap s ++ k /\ (length k + length ts <= n)%nat /\ at_toks s' ts /\ wraps (heap s') cmd c rs.

(** The command for a redirection. *)
Lemma redircmd_spec s ts cmd d q eq w : at_toks s ts -> is_redir d = true -> word_at t q eq w ->
  (cmd <= length (heap s))%nat -> (length (heap s) < room)%nat ->
  exists c s', (if d =? 60 then redircmd room cmd q eq O_RDONLY 0
                else if d =? 62 then redircmd room cmd q eq (Z.lor O_WRONLY O_CREATE) 1
                else if d =? 43 then redircmd room cmd q eq (Z.lor O_WRONLY O_CREATE) 1
                else mret cmd) s = Ok (c, s') /\
    at_toks s' ts /\ c = S (length (heap s)) /\
    heap s' = heap s ++ [REDIR cmd q eq (mode_of d) (fd_of d)].
Proof.
  intros Ha Hd Hw Hc Hr. unfold is_redir in Hd. apply bool_decide_eq_true in Hd. rewrite !elem_of_cons in Hd.
  destruct (alloc_node_spec (REDIR cmd q eq (mode_of d) (fd_of d)) s ts Hr Ha) as (s' & E & Hh & Ha').
  exists (S (length (heap s))), s'. split_and!; [|done..]. unfold redircmd.
  destruct Hd as [->|[->|[->|Hd]]]; [done..|by apply not_elem_of_nil in Hd].
Qed.

Lemma parseredirs_spec fuel s ts cmd : at_toks s ts -> (length ts < fuel)%nat -> (cmd <= length (heap s))%nat ->
  (length (heap s) + length ts <= room)%nat ->
  follows (parseredirs buf room fuel es cmd s) (predirs ts) (redirs_built s cmd (length ts)).
Proof.
  revert s ts cmd. induction fuel as [|fuel IH]; intros s ts cmd Ha Hf Hc Hr; [lia|]. cbn [parseredirs].
  destruct (at_toks_ok _ _ Ha) as [Hok _].
  destruct (peek_spec t tail Ht s ts [60; 62] Ha) as (s1 & E1 & Hh1 & Ha1); [by repeat constructor|].
  change ([60; 62] ++ [0]) with [60; 62; 0] in E1. rewrite (bind_run _ _ _ _ _ E1).
  pose proof (first_redir ts Hok) as Hd. destruct (first_in [60; 62] ts).
  2: { rewrite Hd. exists cmd, s1. split; [done|]. exists []. rewrite Hh1, app_nil_r. split_and!; [done|cbn; lia|done|constructor]. }
  destruct Hd as (d & ts' & -> & Er). rename ts' into ts. apply Forall_cons in Hok as [_ Hok]. cbn [predirs]. rewrite Er.
  destruct (take_sym t tail Ht s1 d ts Ha1) as (q0 & eq0 & s2 & E2 & Hh2 & Ha2). rewrite (bind_run _ _ _ _ _ E2).
  pose proof (gettoken_spec t tail Ht s2 ts Ha2) as Hg.
  destruct ts as [|[w|d'] ts].
  - destruct Hg as (q & eq & s3 & E3 & _). rewrite (bind_run _ _ _ _ _ E3). complain.
  - destruct Hg as (q & eq & s3 & E3 & Hh3 & Ha3 & Hw). specialize (Hw w eq_refl).
    rewrite (bind_run _ _ _ _ _ E3). cbn [code Z.eqb Pos.eqb negb]. cbn [length] in *.
    destruct (redircmd_spec s3 ts cmd d q eq w Ha3 Er Hw) as (c & s4 & E4 & Ha4 & -> & Hh4); [congruence || rewrite Hh3, Hh2, Hh1; lia..|].
    rewrite (bind_run _ _ _ _ _ E4).
    specialize (IH s4 ts (S (length (heap s3))) Ha4). rewrite Hh4, length_app in IH. cbn [length] in IH.
    rewrite Hh3, Hh2, Hh1 in *.
    destruct (predirs ts) as [[rs ts']|]; [|apply IH; lia]. destruct IH as (c & s5 & E5 & k & Hk & Hlen & Ha5 & Hwr); [lia..|].
    exists c, s5. split; [done|]. exists (REDIR cmd q eq (mode_of d) (fd_of d) :: k).
    rewrite Hk, Hh4, <- app_assoc in *. cbn [app length] in *. split_and!; [done|lia|done|].
    eapply wraps_cons; [|exact Hw| |exact Hwr]; [|lia].
    change (REDIR cmd q eq (mode_of d) (fd_of d) :: k) with ([REDIR cmd q eq (mode_of d) (fd_of d)] ++ k). rewrite app_assoc.
    apply node_at_app, node_at_new.
  - apply Forall_cons in Hok as [Hd' _]. destruct Hg as (q & eq & s3 & E3 & _). rewrite (bind_run _ _ _ _ _ E3). cbn [code].
    assert (d' <> 97) as Hn by (destruct Hd' as [Hs| ->]; [intros ->; done|done]).
    rewrite (proj2 (Z.eqb_neq d' 97)) by done. complain.
Qed.

Lemma wraps_bound h cmd c rs : (cmd <= length h)%nat -> wraps h cmd c rs -> (c <= length h)%nat.
Proof. intros Hc Hw. induction Hw as [|? ? ? ? ? ? ? ? Hn _ _ _ IH]; [done|]. apply IH. by apply node_at_bound in Hn as [? _]. Qed.

(** ** Words *)

(** Storing behind the first [length l] pointers of an array. *)
Lemma set_next (l : list (option Z)) x : (length l < MAXARGS)%nat ->
  arr_set (l ++ replicate (MAXARGS - length l) None) (zlen l) x =
  Ok (l ++ x :: replicate (MAXARGS - S (length l)) None).
Proof.
  intros Hl. unfold arr_set, zlen. rewrite length_app, length_replicate.
  rewrite (proj2 (Z.ltb_ge _ _)), (proj2 (Z.leb_gt _ _)) by lia. cbn [orb]. f_equal.
  rewrite Nat2Z.id, insert_app_r_alt, Nat.sub_diag by lia. f_equal.
  replace (MAXARGS - length l)%nat with (S (MAXARGS - S (length l))) by lia. done.
Qed.

(** [set_arg] on the command under construction. *)
Lemma set_arg_run s h argv eargv k i q eq argv' eargv' : heap s = h ++ EXEC argv eargv :: k ->
  arr_set argv i q = Ok argv' -> arr_set eargv i eq = Ok eargv' ->
  set_arg (S (length h)) i q eq s = Ok ((), {| ps := ps s; heap := h ++ EXEC argv' eargv' :: k |}).
Proof.
  intros Hh Ha He. unfold set_arg. rewrite Hh. cbn [node_at].
  rewrite lookup_app_r, Nat.sub_diag by lia. cbn [lookup list_lookup checked mbind res_bind].
  rewrite Ha. cbn [mbind res_bind]. rewrite He. cbn [mbind res_bind]. do 3 f_equal.
  cbn [pred]. by rewrite insert_app_r_alt, Nat.sub_diag by lia.
Qed.

Lemma at_toks_ps s h ts : at_toks s ts -> at_toks {| ps := ps s; heap := h |} ts.
Proof. intros (u & Hu & E). by exists u. Qed.

Lemma set_arg_spec s h argv eargv k ws q eq w ts : at_toks s ts -> heap s = h ++ EXEC argv eargv :: k ->
  args_at t argv eargv ws -> (length ws < MAXARGS)%nat -> word_at t q eq w ->
  exists argv' eargv' s', set_arg (S (length h)) (zlen ws) (Some q) (Some eq) s = Ok ((), s') /\
    heap s' = h ++ EXEC argv' eargv' :: k /\ args_at t argv' eargv' (ws ++ [w]) /\ at_toks s' ts.
Proof.
  intros Ha Hh (qs & Hq & -> & ->) Hl Hw. pose proof (Forall2_length _ _ _ Hq) as Hlen.
  assert (Hn : forall f : Z * Z -> option Z, length (map f qs) = length ws) by (intros f; by rewrite length_map).
  assert (Hs : forall (f : Z * Z -> option Z) x, arr_set (map f qs ++ replicate (MAXARGS - length ws) None) (zlen ws) x =
    Ok (map f qs ++ x :: replicate (MAXARGS - S (length ws)) None)).
  { intros f x. pose proof (set_next (map f qs) x) as E. unfold zlen in *. rewrite Hn in E. by apply E. }
  eexists _, _, _. split; [eapply (set_arg_run s h _ _ k _ _ _ _ _ Hh); apply Hs|]. cbn [heap].
  split_and!; [done| |by apply at_toks_ps]. exists (qs ++ [(q, eq)]). split.
  { apply Forall2_app; [done|]. by constructor. }
  rewrite length_app, !map_app, <- !app_assoc. cbn [length map app fst snd]. by rewrite Nat.add_1_r.
Qed.

Lemma set_null_spec s h argv eargv k ws ts : at_toks s ts -> heap s = h ++ EXEC argv eargv :: k ->
  args_at t argv eargv ws -> (length ws < MAXARGS)%nat ->
  exists s', set_arg (S (length h)) (zlen ws) None None s = Ok ((), s') /\ heap s' = heap s /\ at_toks s' ts.
Proof.
  intros Ha Hh (qs & Hq & -> & ->) Hl. pose proof (Forall2_length _ _ _ Hq) as Hlen.
  assert (Hs : forall f : Z * Z -> option Z, arr_set (map f qs ++ replicate (MAXARGS - length ws) None) (zlen ws) None =
    Ok (map f qs ++ replicate (MAXARGS - length ws) None)).
  { intros f. assert (length (map f qs) = length ws) as Hn by (by rewrite length_map).
    pose proof (set_next (map f qs) None) as E. unfold zlen in *. rewrite Hn in E. rewrite E by done.
    by replace (MAXARGS - length ws)%nat with (S (MAXARGS - S (length ws))) by lia. }
  eexists. split; [eapply (set_arg_run s h _ _ k _ _ _ _ _ Hh); apply Hs|]. split; [done|by apply at_toks_ps].
Qed.

(** The command is complete. *)
Lemma repr_simple h argv eargv k c ws rs : args_at t argv eargv ws -> (length ws < MAXARGS)%nat ->
  wraps (h ++ EXEC argv eargv :: k) (S (length h)) c rs -> repr (h ++ EXEC argv eargv :: k) c (wrap rs (Cmd ws)).
Proof.
  intros Ha Hl Hw. eapply repr_wrap; [|exact Hw]. eapply repr_exec; [|done|done].
  change (EXEC argv eargv :: k) with ([EXEC argv eargv] ++ k). rewrite app_assoc. apply node_at_app, node_at_new.
Qed.

(** [h] is the heap before the command. *)
Definition args_built (h : list node) (n : nat) (ws : list (list Z)) (rs : redirs)
    (l : list (list Z * redirs)) (ts : list tok) (c : nat) (s' : pst) : Prop :=
  exists k, heap s' = h ++ k /\ (length k + length ts <= n)%nat /\ at_toks s' ts /\
    repr (heap s') c (wrap (rs ++ concat (map snd l)) (Cmd (ws ++ map fst l))).

Lemma parseargs_done s h argv eargv k ws rs ret ts n : at_toks s ts -> heap s = h ++ EXEC argv eargv :: k ->
  args_at t argv eargv ws -> (length ws < MAXARGS)%nat -> wraps (heap s) (S (length h)) ret rs ->
  (S (length k) + length ts <= n)%nat ->
  follows ((_ ← set_arg (S (length h)) (zlen ws) None None; mret ret) s) (Some ([], ts)) (args_built h n ws rs).
Proof.
  intros Ha Hh Hargs Hl Hw Hn. destruct (set_null_spec s h argv eargv k ws ts Ha Hh Hargs Hl) as (s' & E & Hh' & Ha').
  rewrite (bind_run _ _ _ _ _ E). exists ret, s'. split; [done|]. exists (EXEC argv eargv :: k).
  rewrite Hh', Hh in *. cbn [length map concat]. rewrite !app_nil_r. split_and!; [done|lia|done|]. by apply repr_simple.
Qed.

Lemma parseargs_spec fuel s h argv eargv k ws rs ret ts n :
  at_toks s ts -> heap s = h ++ EXEC argv eargv :: k -> args_at t argv eargv ws -> (length ws < MAXARGS)%nat ->
  wraps (heap s) (S (length h)) ret rs -> (ret <= length (heap s))%nat ->
  (length ts < fuel)%nat -> (S (length k) + length ts <= n)%nat -> (length h + n <= room)%nat ->
  follows (parseargs buf room fuel es (S (length h)) ret (zlen ws) s) (pargs fuel (length ws) ts) (args_built h n ws rs).
Proof.
  revert s argv eargv k ws rs ret ts. induction fuel as [|fuel IH]; intros s argv eargv k ws rs ret ts Ha Hh Hargs Hl Hw Hret Hf Hn Hr; [lia|].
  cbn [parseargs]. destruct (at_toks_ok _ _ Ha) as [Hok Hlt].
  destruct (peek_spec t tail Ht s ts [124; 41; 38; 59] Ha) as (s1 & E1 & Hh1 & Ha1); [by repeat constructor|].
  change ([124; 41; 38; 59] ++ [0]) with [124; 41; 38; 59; 0] in E1. rewrite (bind_run _ _ _ _ _ E1).
  rewrite <- Hh1 in Hh, Hw, Hret. pose proof (gettoken_spec t tail Ht s1 ts Ha1) as Hg.
  destruct ts as [|[w|d] ts]; cbn [first_in pargs].
  - destruct Hg as (q & eq & s2 & E2 & Hh2 & Ha2). rewrite (bind_run _ _ _ _ _ E2). cbn [Z.eqb].
    rewrite <- Hh2 in Hh, Hw. by eapply parseargs_done.
  - destruct Hg as (q & eq & s2 & E2 & Hh2 & Ha2 & Hwd). specialize (Hwd w eq_refl).
    rewrite (bind_run _ _ _ _ _ E2). cbn [code Z.eqb Pos.eqb negb]. rewrite <- Hh2 in Hh, Hw, Hret.
    destruct (set_arg_spec s2 h argv eargv k ws q eq w ts Ha2 Hh Hargs Hl Hwd) as (argv' & eargv' & s3 & E3 & Hh3 & Hargs3 & Ha3).
    rewrite (bind_run _ _ _ _ _ E3). unfold MAXARGS in *. cbn [length] in *.
    destruct (Nat.leb_spec 10 (S (length ws))) as [H10|H10].
    { rewrite (proj2 (Z.leb_le _ _)) by (unfold zlen; lia). complain. }
    rewrite (proj2 (Z.leb_gt _ _)) by (unfold zlen; lia).
    assert (length (heap s3) = length (heap s2)) as Hl3 by (rewrite Hh3, Hh, !length_app; done).
    rewrite Hh in Hw, Hl3. apply (wraps_exec t h argv eargv argv' eargv') in Hw. rewrite <- Hh3 in Hw.
    rewrite length_app in Hl3. cbn [length] in Hl3.
    pose proof (parseredirs_spec (S (Z.to_nat es)) s3 ts ret Ha3) as Hp.
    rewrite Hh, length_app in Hret. cbn [length] in Hret.
    destruct (predirs ts) as [[rs' ts']|]; cbn [mbind option_bind].
    2: { destruct Hp as (msg & E & Hm); [lia..|]. rewrite (bind_run_fault _ _ _ _ E). by exists msg. }
    destruct Hp as (c & s4 & E4 & k' & Hk & Hlen & Ha4 & Hwr); [lia..|]. rewrite (bind_run _ _ _ _ _ E4).
    replace (zlen ws + 1) with (zlen (ws ++ [w])) by (by rewrite zlen_app).
    replace (S (length ws)) with (length (ws ++ [w])) by (rewrite length_app; cbn; lia).
    apply (wraps_app t _ k') in Hw. rewrite <- Hk in Hw. pose proof (wraps_trans t _ _ _ _ _ _ Hw Hwr) as Hw4.
    assert (heap s4 = h ++ EXEC argv' eargv' :: k ++ k') as Hh4 by (by rewrite Hk, Hh3, <- app_assoc).
    assert (length (heap s4) = length h + S (length k + length k'))%nat as Hl4 by (by rewrite Hh4, length_app; cbn; rewrite length_app).
    assert (c <= length (heap s4))%nat as Hc4 by (eapply wraps_bound; [|exact Hw4]; lia).
    specialize (IH s4 argv' eargv' (k ++ k') (ws ++ [w]) (rs ++ rs') c ts' Ha4 Hh4 Hargs3).
    rewrite !length_app in IH. cbn [length] in IH. rewrite Nat.add_1_r in IH.
    replace (length (ws ++ [w])) with (S (length ws)) by (rewrite length_app; cbn; lia).
    destruct (pargs fuel (S (length ws)) ts') as [[l ts'']|]; cbn [mbind option_bind].
    2: { apply IH; done || lia. }
    destruct IH as (c' & s5 & E5 & k5 & Hk5 & Hlen5 & Ha5 & Hr5); [done || lia..|].
    exists c', s5. split; [done|]. exists k5. split_and!; [done|done|done|].
    cbn [map concat fst snd]. by rewrite <- !app_assoc in Hr5.
  - apply Forall_cons in Hok as [Hd _]. destruct Hg as (q & eq & s2 & E2 & _).
    assert ((if d =? 43 then 62 else d) ∈ [124; 41; 38; 59] <-> d ∈ [124; 41; 38; 59]) as Hiff.
    { destruct (Z.eqb_spec d 43) as [->|]; [set_solver|done]. }
    rewrite (bool_decide_ext _ _ Hiff). case_bool_decide as Hin; [by eapply parseargs_done|].
    rewrite (bind_run _ _ _ _ _ E2). cbn [code].
    assert (d <> 0 /\ d <> 97) as [H0 H97] by (destruct Hd as [Hd| ->]; [split; intros ->; done|done]).
    rewrite (proj2 (Z.eqb_neq d 0)), (proj2 (Z.eqb_neq d 97)) by done. complain.
Qed.

(** ** Commands *)

(** A command made of [tr x], with at most twice as many allocations as tokens
    read, and one more. *)
Definition cmd_built {X} (tr : X -> tree) (s : pst) (n : nat) (x : X) (ts : list tok) (c : nat) (s' : pst) : Prop :=
  exists k, heap s' = heap s ++ k /\ (length k + 2 * length ts <= 2 * n + 1)%nat /\ at_toks s' ts /\ repr (heap s') c (tr x).

(** The symbol [d], when it is next. *)
Lemma peek_sym s ts d : at_toks s ts -> is_sym d = true -> d <> 62 ->
  exists s1, peek buf es [d; 0] s = Ok (bool_decide (is_Some (after d ts)), s1) /\ heap s1 = heap s /\ at_toks s1 ts /\
    forall ts', after d ts = Some ts' ->
      exists q eq s2, gettoken buf es s1 = Ok (d, q, eq, s2) /\ heap s2 = heap s /\ at_toks s2 ts'.
Proof.
  intros Ha Hd H62. destruct (at_toks_ok _ _ Ha) as [Hok _].
  destruct (peek_spec t tail Ht s ts [d] Ha) as (s1 & E1 & Hh1 & Ha1); [by constructor|].
  exists s1. split_and!; [|done|done|].
  - change ([d] ++ [0]) with [d; 0] in E1. rewrite E1. do 2 f_equal. destruct ts as [|[w|c] ts]; [done..|]. cbn.
    destruct (Z.eqb_spec c 43) as [->|H43].
    + rewrite bool_decide_false by (rewrite list_elem_of_singleton; congruence).
      destruct (Z.eqb_spec 43 d) as [<-|]; [done|done].
    + destruct (Z.eqb_spec c d) as [->|]; [|rewrite bool_decide_false by (by rewrite list_elem_of_singleton); done].
      by rewrite bool_decide_true by (by apply list_elem_of_singleton).
  - intros ts' E. apply after_Some in E as ->. destruct (take_sym t tail Ht s1 d ts' Ha1) as (q & eq & s2 & E2 & Hh2 & Ha2).
    exists q, eq, s2. split_and!; [done|congruence|done].
Qed.

Section descent.
(** [parseline], for lines with less than [N] tokens. *)
Context (line : ST pst nat) (pl : list tok -> option (line_ * list tok)) (N : nat).
Context (Hline : forall s ts, at_toks s ts -> (length ts < N)%nat -> (length (heap s) + 2 * length ts + 1 <= room)%nat ->
  follows (line s) (pl ts) (cmd_built line_tree s (length ts))).

Notation K := (S (Z.to_nat es)).

Lemma parseblock_spec s ts ts1 : at_toks s ts -> after 40 ts = Some ts1 -> (length ts <= N)%nat ->
  (length (heap s) + 2 * length ts + 1 <= room)%nat ->
  follows (parseblock buf room line es s)
    ('(l, ts) ← pl ts1; ts ← after 41 ts; '(rs, ts) ← predirs ts; Some (Block l rs, ts)) (cmd_built exec_tree s (length ts)).
Proof.
  intros Ha Haf HN Hr. unfold parseblock.
  destruct (peek_sym s ts 40 Ha) as (s1 & E1 & Hh1 & Ha1 & Hn); [done|done|].
  destruct (Hn ts1 Haf) as (q & eq & s2 & E2 & Hh2 & Ha2). rewrite (bind_run _ _ _ _ _ E1), Haf. cbn [bool_decide negb].
  rewrite bool_decide_true by done. cbn [negb]. rewrite (bind_run _ _ _ _ _ E2).
  apply after_Some in Haf as ->. cbn [length] in *.
  pose proof (Hline s2 ts1 Ha2) as Hl. rewrite Hh2 in Hl. destruct (pl ts1) as [[l ts2]|]; cbn [mbind option_bind].
  2: { destruct Hl as (msg & E & Hm); [lia..|]. rewrite (bind_run_fault _ _ _ _ E). by exists msg. }
  destruct Hl as (c & s3 & E3 & k & Hk & Hlen & Ha3 & Hrp); [lia..|]. rewrite Hh2 in Hk. rewrite (bind_run _ _ _ _ _ E3).
  destruct (peek_sym s3 ts2 41 Ha3) as (s4 & E4 & Hh4 & Ha4 & Hn4); [done|done|]. rewrite (bind_run _ _ _ _ _ E4).
  destruct (after 41 ts2) as [ts3|] eqn:Ea; cbn [mbind option_bind].
  2: { rewrite bool_decide_false by (by intros [? ?]). complain. }
  rewrite bool_decide_true by done. cbn [negb].
  destruct (Hn4 ts3 eq_refl) as (q5 & eq5 & s5 & E5 & Hh5 & Ha5). rewrite (bind_run _ _ _ _ _ E5).
  apply after_Some in Ea as ->. cbn [length] in *. destruct (at_toks_ok _ _ Ha5) as [_ Hlt].
  assert (length (heap s5) = length (heap s) + length k)%nat as Hl5 by (by rewrite Hh5, Hk, length_app).
  pose proof (parseredirs_spec K s5 ts3 c Ha5) as Hp.
  assert (c <= length (heap s5))%nat as Hc by (rewrite Hh5; by eapply repr_bound).
  destruct (predirs ts3) as [[rs ts4]|]; cbn [mbind option_bind].
  2: { apply Hp; lia. }
  destruct Hp as (c' & s6 & E6 & k6 & Hk6 & Hlen6 & Ha6 & Hw6); [lia..|].
  exists c', s6. split; [done|]. exists (k ++ k6). rewrite length_app. split_and!; [|lia|done|].
  - by rewrite Hk6, Hh5, Hk, app_assoc.
  - cbn [exec_tree]. eapply repr_wrap; [|exact Hw6]. rewrite Hk6, Hh5. by apply repr_app.
Qed.

Lemma parseexec_spec s ts : at_toks s ts -> (length ts <= N)%nat -> (length (heap s) + 2 * length ts + 1 <= room)%nat ->
  follows (parseexec buf room line es s) (pexec K pl ts) (cmd_built exec_tree s (length ts)).
Proof.
  intros Ha HN Hr. unfold parseexec, pexec. destruct (at_toks_ok _ _ Ha) as [_ Hlt].
  destruct (peek_sym s ts 40 Ha) as (s1 & E1 & Hh1 & Ha1 & Hn); [done|done|]. rewrite (bind_run _ _ _ _ _ E1).
  destruct (after 40 ts) as [ts1|] eqn:Ea.
  { rewrite bool_decide_true by done. unfold cmd_built. rewrite <- Hh1 in *.
    apply (parseblock_spec s1 ts ts1); done. }
  rewrite bool_decide_false by (by intros [? ?]).
  destruct (alloc_node_spec (EXEC (replicate MAXARGS None) (replicate MAXARGS None)) s1 ts) as (s2 & E2 & Hh2 & Ha2); [rewrite Hh1; lia|done|].
  unfold execcmd. rewrite (bind_run _ _ _ _ _ E2). rewrite Hh1 in *.
  assert (length (heap s2) = S (length (heap s))) as Hl2 by (rewrite Hh2, length_app; cbn; lia).
  pose proof (parseredirs_spec K s2 ts (S (length (heap s))) Ha2) as Hp.
  destruct (predirs ts) as [[rs ts1]|]; cbn [mbind option_bind].
  2: { destruct Hp as (msg & E & Hm); [lia..|]. rewrite (bind_run_fault _ _ _ _ E). by exists msg. }
  destruct Hp as (ret & s3 & E3 & k & Hk & Hlen & Ha3 & Hw); [lia..|]. rewrite (bind_run _ _ _ _ _ E3).
  assert (heap s3 = heap s ++ EXEC (replicate MAXARGS None) (replicate MAXARGS None) :: k) as Hh3 by (by rewrite Hk, Hh2, <- app_assoc).
  assert (length (heap s3) = length (heap s) + S (length k))%nat as Hl3 by (by rewrite Hh3, length_app).
  pose proof (parseargs_spec K s3 (heap s) _ _ k [] rs ret ts1 (S (length ts)) Ha3 Hh3) as Hargs. cbn [length] in Hargs.
  change (zlen []) with 0 in Hargs.
  assert (args_at t (replicate MAXARGS None) (replicate MAXARGS None) []) as Hn0 by (exists []; by split_and!).
  assert (ret <= length (heap s3))%nat as Hret by (eapply wraps_bound; [|exact Hw]; lia).
  specialize (Hargs Hn0). destruct (pargs K 0 ts1) as [[l ts2]|] eqn:Ep; cbn [mbind option_bind].
  2: { apply Hargs; unfold MAXARGS; done || lia. }
  destruct Hargs as (c & s4 & E4 & k4 & Hk4 & Hlen4 & Ha4 & Hr4); [unfold MAXARGS; done || lia..|].
  apply pargs_sound in Ep as (-> & _); [|lia]. rewrite length_app in *.
  exists c, s4. split; [done|]. exists k4. split_and!; [done|lia|done|done].
Qed.

Lemma parsepipe_spec fuel s ts : at_toks s ts -> (length ts < fuel)%nat -> (length ts <= N)%nat ->
  (length (heap s) + 2 * length ts + 1 <= room)%nat ->
  follows (parsepipe buf room fuel line es s) (ppipe K fuel pl ts) (cmd_built pipe_tree s (length ts)).
Proof.
  revert s ts. induction fuel as [|fuel IH]; intros s ts Ha Hf HN Hr; [lia|]. cbn [parsepipe ppipe].
  pose proof (parseexec_spec s ts Ha HN Hr) as He. destruct (pexec K pl ts) as [[e ts1]|]; cbn [mbind option_bind].
  2: { destruct He as (msg & E & Hm). rewrite (bind_run_fault _ _ _ _ E). by exists msg. }
  destruct He as (c & s1 & E1 & k & Hk & Hlen & Ha1 & Hr1). rewrite (bind_run _ _ _ _ _ E1).
  assert (length (heap s1) = length (heap s) + length k)%nat as Hl1 by (by rewrite Hk, length_app).
  destruct (peek_sym s1 ts1 124 Ha1) as (s2 & E2 & Hh2 & Ha2 & Hn); [done|done|]. rewrite (bind_run _ _ _ _ _ E2).
  destruct (after 124 ts1) as [ts2|] eqn:Ea.
  2: { rewrite bool_decide_false by (by intros [? ?]). exists c, s2. split; [done|]. exists k. by rewrite Hh2. }
  rewrite bool_decide_true by done. destruct (Hn ts2 eq_refl) as (q & eq & s3 & E3 & Hh3 & Ha3). rewrite (bind_run _ _ _ _ _ E3).
  apply after_Some in Ea as ->. cbn [length] in *.
  specialize (IH s3 ts2 Ha3). rewrite Hh3 in IH. destruct (ppipe K fuel pl ts2) as [[p ts3]|]; cbn [mbind option_bind].
  2: { destruct IH as (msg & E & Hm); [lia..|]. rewrite (bind_run_fault _ _ _ _ E). by exists msg. }
  destruct IH as (c' & s4 & E4 & k' & Hk' & Hlen' & Ha4 & Hr4); [lia..|]. rewrite (bind_run _ _ _ _ _ E4).
  rewrite Hh3 in Hk'. assert (length (heap s4) = length (heap s) + length k + length k')%nat as Hl4 by (rewrite Hk', length_app; lia).
  destruct (alloc_node_spec (PIPE c c') s4 ts3) as (s5 & E5 & Hh5 & Ha5); [lia|done|].
  exists (S (length (heap s4))), s5. split; [done|]. exists (k ++ k' ++ [PIPE c c']). rewrite !length_app. cbn [length].
  split_and!; [by rewrite Hh5, Hk', Hk, <- !app_assoc|lia|done|].
  apply repr_bound in Hr1 as Hc. apply repr_bound in Hr4 as Hc'. rewrite Hh5. cbn [pipe_tree].
  eapply repr_pipe; [apply node_at_new|lia|lia|by rewrite Hk'; do 2 apply repr_app|by apply repr_app].
Qed.

Lemma parseback_spec fuel s ts c tr : at_toks s ts -> (length ts < fuel)%nat -> (length (heap s) + length ts <= room)%nat ->
  repr (heap s) c tr ->
  exists c' s' k, parseback buf room fuel es c s = Ok (c', s') /\ heap s' = heap s ++ k /\
    (length k + length (pback ts).2 <= length ts)%nat /\ at_toks s' (pback ts).2 /\
    repr (heap s') c' (Nat.iter (pback ts).1 Back tr).
Proof.
  revert s ts c tr. induction fuel as [|fuel IH]; intros s ts c tr Ha Hf Hr Hrp; [lia|]. cbn [parseback].
  destruct (peek_sym s ts 38 Ha) as (s1 & E1 & Hh1 & Ha1 & Hn); [done|done|]. rewrite (bind_run _ _ _ _ _ E1).
  destruct (after 38 ts) as [ts1|] eqn:Ea.
  2: { rewrite bool_decide_false by (by intros [? ?]).
       assert (pback ts = (0%nat, ts)) as ->.
       { destruct ts as [|[w|d] ts]; [done..|]. cbn in *. by destruct (d =? 38). }
       exists c, s1, []. cbn. rewrite Hh1, app_nil_r. by split_and!; [|done|lia|..]. }
  rewrite bool_decide_true by done. destruct (Hn ts1 eq_refl) as (q & eq & s2 & E2 & Hh2 & Ha2). rewrite (bind_run _ _ _ _ _ E2).
  apply after_Some in Ea as ->. cbn [pback length] in *. rewrite Z.eqb_refl. cbn [fst snd].
  destruct (alloc_node_spec (BACK c) s2 ts1) as (s3 & E3 & Hh3 & Ha3); [rewrite Hh2; lia|done|].
  unfold backcmd. rewrite (bind_run _ _ _ _ _ E3).
  assert (repr (heap s3) (S (length (heap s2))) (Back tr)) as Hb.
  { rewrite Hh3, Hh2. eapply repr_back; [apply node_at_new| |by apply repr_app]. apply repr_bound in Hrp. lia. }
  assert (length (heap s3) = S (length (heap s))) as Hl3 by (rewrite Hh3, Hh2, length_app; cbn; lia).
  destruct (IH s3 ts1 (S (length (heap s2))) (Back tr) Ha3) as (c' & s4 & k & E4 & Hk & Hlen & Ha4 & Hr4); [lia|lia|done|].
  exists c', s4, (BACK c :: k). split_and!; [done|by rewrite Hk, Hh3, Hh2, <- app_assoc|cbn; lia|done|].
  rewrite <- Nat.iter_succ_r in Hr4. done.
Qed.
End descent.

Lemma parseline_spec fuel s ts : at_toks s ts -> (length ts < fuel)%nat -> (length (heap s) + 2 * length ts + 1 <= room)%nat ->
  follows (parseline buf room fuel es s) (pline (S (Z.to_nat es)) fuel ts) (cmd_built line_tree s (length ts)).
Proof.
  revert s ts. induction fuel as [|fuel IH]; intros s ts Ha Hf Hr; [lia|]. cbn [parseline pline].
  destruct (at_toks_ok _ _ Ha) as [_ Hlt].
  pose proof (parsepipe_spec _ _ fuel IH (S (Z.to_nat es)) s ts Ha) as Hp.
  destruct (ppipe _ _ _ ts) as [[p ts1]|]; cbn [mbind option_bind].
  2: { destruct Hp as (msg & E & Hm); [lia..|]. rewrite (bind_run_fault _ _ _ _ E). by exists msg. }
  destruct Hp as (c & s1 & E1 & k & Hk & Hlen & Ha1 & Hr1); [lia..|]. rewrite (bind_run _ _ _ _ _ E1).
  assert (length (heap s1) = length (heap s) + length k)%nat as Hl1 by (by rewrite Hk, length_app).
  destruct (at_toks_ok _ _ Ha1) as [_ Hlt1].
  destruct (parseback_spec (S (Z.to_nat es)) s1 ts1 c (pipe_tree p) Ha1) as (c2 & s2 & k2 & E2 & Hk2 & Hlen2 & Ha2 & Hr2); [lia|lia|done|].
  rewrite (bind_run _ _ _ _ _ E2). destruct (pback ts1) as [n ts2]. cbn [fst snd] in *.
  assert (length (heap s2) = length (heap s) + length k + length k2)%nat as Hl2 by (rewrite Hk2, length_app; lia).
  destruct (peek_sym s2 ts2 59 Ha2) as (s3 & E3 & Hh3 & Ha3 & Hn); [done|done|]. rewrite (bind_run _ _ _ _ _ E3).
  destruct (after 59 ts2) as [ts3|] eqn:Ea.
  2: { rewrite bool_decide_false by (by intros [? ?]). exists c2, s3. split; [done|]. exists (k ++ k2). rewrite Hh3, length_app.
       split_and!; [by rewrite Hk2, Hk, app_assoc|lia|done|done]. }
  rewrite bool_decide_true by done. destruct (Hn ts3 eq_refl) as (q & eq & s4 & E4 & Hh4 & Ha4). rewrite (bind_run _ _ _ _ _ E4).
  apply after_Some in Ea as ->. cbn [length] in *.
  specialize (IH s4 ts3 Ha4). rewrite Hh4 in IH. destruct (pline _ fuel ts3) as [[l ts4]|]; cbn [mbind option_bind].
  2: { destruct IH as (msg & E & Hm); [lia..|]. rewrite (bind_run_fault _ _ _ _ E). by exists msg. }
  destruct IH as (c5 & s5 & E5 & k5 & Hk5 & Hlen5 & Ha5 & Hr5); [lia..|]. rewrite (bind_run _ _ _ _ _ E5).
  rewrite Hh4 in Hk5. assert (length (heap s5) = length (heap s2) + length k5)%nat as Hl5 by (by rewrite Hk5, length_app).
  destruct (alloc_node_spec (LIST c2 c5) s5 ts4) as (s6 & E6 & Hh6 & Ha6); [lia|done|].
  exists (S (length (heap s5))), s6. split; [done|]. exists (k ++ k2 ++ k5 ++ [LIST c2 c5]). rewrite !length_app. cbn [length].
  split_and!; [by rewrite Hh6, Hk5, Hk2, Hk, <- !app_assoc|lia|done|].
  apply repr_bound in Hr2 as Hc. apply repr_bound in Hr5 as Hc'. rewrite Hh6. cbn [line_tree].
  eapply repr_list; [apply node_at_new|lia|lia|by rewrite Hk5; do 2 apply repr_app|by apply repr_app].
Qed.
End parse.
