(* ===== verification/ShCmd.v ===== *)
(** * Commands of the shell: what [parsecmd] returns

    [nulterminate] ends the strings of a command in the line, and then the command
    in the heap is the one the line denotes. *)

From stdpp Require Import base list sets strings.
From Stdlib Require Import ZArith Lia.
From S2P Require Import Prelude State KString Ulib User Printf Sh ShSpec ShProofs ShParse.

(** The command at [c], with the strings that end in a nul in [buf]. *)
Inductive denotes (h : list node) (buf : list Z) : nat -> tree -> Prop :=
| denotes_exec c argv eargv ws : node_at h c = Ok (EXEC argv eargv) -> arg_strings buf argv = Ok ws ->
    denotes h buf c (Cmd ws)
| denotes_redir c sub q eq mode fd w tr : node_at h c = Ok (REDIR sub q eq mode fd) -> cstring buf q = Ok w ->
    (sub < c)%nat -> denotes h buf sub tr -> denotes h buf c (Redir tr w mode fd)
| denotes_pipe c l r tl tr : node_at h c = Ok (PIPE l r) -> (l < c)%nat -> (r < c)%nat ->
    denotes h buf l tl -> denotes h buf r tr -> denotes h buf c (Pipe tl tr)
| denotes_list c l r tl tr : node_at h c = Ok (LIST l r) -> (l < c)%nat -> (r < c)%nat ->
    denotes h buf l tl -> denotes h buf r tr -> denotes h buf c (Seq tl tr)
| denotes_back c sub tr : node_at h c = Ok (BACK sub) -> (sub < c)%nat ->
    denotes h buf sub tr -> denotes h buf c (Back tr).

(** ** Nuls *)

Definition zero_all (E : list Z) (buf : list Z) : list Z := foldl (fun b e => <[Z.to_nat e := 0]> b) buf E.

Lemma zero_all_cons e E buf : zero_all (e :: E) buf = zero_all E (<[Z.to_nat e := 0]> buf).
Proof. done. Qed.

Lemma zero_all_app E E' buf : zero_all (E ++ E') buf = zero_all E' (zero_all E buf).
Proof. apply foldl_app. Qed.

Lemma zero_all_length E buf : length (zero_all E buf) = length buf.
Proof. revert buf. induction E as [|e E IH]; intros buf; [done|]. by rewrite zero_all_cons, IH, length_insert. Qed.

Lemma zero_all_out E buf i : (forall e, e ∈ E -> Z.to_nat e <> i) -> zero_all E buf !! i = buf !! i.
Proof.
  revert buf. induction E as [|e E IH]; intros buf H; [done|]. rewrite zero_all_cons, IH by set_solver.
  apply list_lookup_insert_ne. set_solver.
Qed.

Lemma zero_all_keeps E buf i : buf !! i = Some 0 -> zero_all E buf !! i = Some 0.
Proof.
  revert buf. induction E as [|e E IH]; intros buf H; [done|]. rewrite zero_all_cons. apply IH.
  destruct (decide (Z.to_nat e = i)) as [<-|Hn]; [|by rewrite list_lookup_insert_ne].
  apply list_lookup_insert_eq. by eapply lookup_lt_Some.
Qed.

Lemma zero_all_in E buf e : e ∈ E -> (Z.to_nat e < length buf)%nat -> zero_all E buf !! Z.to_nat e = Some 0.
Proof.
  revert buf. induction E as [|e' E IH]; intros buf He Hl; [by apply not_elem_of_nil in He|]. rewrite zero_all_cons.
  apply elem_of_cons in He as [<-|He]; [|apply IH; [done|by rewrite length_insert]].
  apply zero_all_keeps. by apply list_lookup_insert_eq.
Qed.

(** A list that starts with [w] and a nul. *)
Lemma starts_with (l w : list Z) : (forall i, (i < length w)%nat -> l !! i = w !! i) -> l !! length w = Some 0 ->
  exists r, l = w ++ 0 :: r.
Proof.
  revert l. induction w as [|c w IH]; intros l Hw H0.
  - destruct l as [|d l]; [done|]. cbn in H0. injection H0 as ->. by exists l.
  - destruct l as [|d l]; [done|]. specialize (Hw 0%nat) as Hd. cbn in Hd. injection Hd as ->; [|lia].
    destruct (IH l) as (r & ->); [|done|by exists r]. intros i Hi. apply (Hw (S i)). cbn. lia.
Qed.

Section line.
Context (t tail : list Z) (room : nat).
Context (Ht : Forall (fun c => c <> 0) t).

Notation buf := (t ++ 0 :: tail).
Notation es := (zlen t).

Lemma word_boundary q e w : word_at t q e w -> boundary t e /\ 0 <= q < e.
Proof.
  intros (a & u & -> & -> & -> & _ & Hw & Hu). pose proof (zlen_nonneg a). pose proof (zlen_nonneg u).
  assert (0 < zlen w) by (destruct w; [done|]; rewrite zlen_cons; pose proof (zlen_nonneg w); lia).
  rewrite !zlen_app. split; [|lia]. unfold boundary. rewrite !zlen_app. split; [lia|]. intros c Hc.
  rewrite app_assoc, lookup_app_r in Hc by (rewrite length_app; unfold zlen; lia).
  replace (Z.to_nat (zlen a + zlen w) - length (a ++ w))%nat with 0%nat in Hc by (rewrite length_app; unfold zlen; lia).
  destruct u as [|d u]; [done|]. injection Hc as <-. by eapply Hu.
Qed.

(** The string of a word whose end has been set to nul. *)
Lemma word_string q e w E : word_at t q e w -> e ∈ E -> Forall (boundary t) E ->
  cstring (zero_all E buf) q = Ok w.
Proof.
  intros Hw He HE. pose proof (word_boundary _ _ _ Hw) as [[Hb _] Hq].
  destruct Hw as (a & u & Et & Eq & Ee & Hall & Hne & Hu).
  assert (Hin : forall i, (i < length w)%nat -> t !! (length a + i)%nat = w !! i).
  { intros i Hi. rewrite Et, lookup_app_r by lia. replace (length a + i - length a)%nat with i by lia. by rewrite lookup_app_l. }
  destruct (starts_with (drop (Z.to_nat q) (zero_all E buf)) w) as (r & Hr).
  - intros i Hi. rewrite lookup_drop, Eq. unfold zlen. rewrite Nat2Z.id. rewrite zero_all_out.
    + rewrite lookup_app_l; [by apply Hin|]. rewrite Et, !length_app. lia.
    + intros e' He' Hi'. rewrite Forall_forall in HE. destruct (HE e' He') as [Hr Hc].
      destruct (lookup_lt_is_Some_2 w i Hi) as [c Hwc]. specialize (Hc c). rewrite Hi', Hin in Hc by done.
      rewrite Forall_forall in Hall. specialize (Hall c). rewrite Hc in Hall; [|done].
      discriminate Hall. by eapply list_elem_of_lookup_2.
  - rewrite lookup_drop, Eq. unfold zlen. rewrite Nat2Z.id.
    replace (length a + length w)%nat with (Z.to_nat e) by (rewrite Ee, zlen_app; unfold zlen; lia).
    apply zero_all_in; [done|]. rewrite length_app. cbn. unfold zlen in Hb. lia.
  - eapply cstring_spec; [lia|exact Hr|]. rewrite Et in Ht. apply Forall_app in Ht as [_ H]. by apply Forall_app in H as [? _].
Qed.

Lemma set_end e b : boundary t e -> length b = length buf -> arr_set b e 0 = Ok (<[Z.to_nat e := 0]> b).
Proof.
  intros [He _] Hb. unfold arr_set. unfold zlen in *. rewrite length_app in Hb. cbn in Hb.
  by rewrite (proj2 (Z.ltb_ge e 0)), (proj2 (Z.leb_gt _ e)) by lia.
Qed.

Lemma nul_args_spec qs ws n b : Forall2 (fun q w => word_at t q.1 q.2 w) qs ws -> length b = length buf -> (0 < n)%nat ->
  nul_args (map (fun q => Some q.1) qs ++ replicate n None) (map (fun q => Some q.2) qs ++ replicate n None) b =
  Ok (zero_all (map snd qs) b).
Proof.
  intros H Hb Hn. revert b Hb. induction H as [|[q e] w qs ws Hw _ IH]; intros b Hb.
  - destruct n; [lia|]. done.
  - cbn. apply word_boundary in Hw as [Hbd _]. rewrite set_end by done. cbn [mbind res_bind]. rewrite IH by (by rewrite length_insert).
    done.
Qed.

Lemma arg_strings_spec qs ws n E : Forall2 (fun q w => word_at t q.1 q.2 w) qs ws -> (0 < n)%nat ->
  (forall q, q ∈ qs -> q.2 ∈ E) -> Forall (boundary t) E ->
  arg_strings (zero_all E buf) (map (fun q => Some q.1) qs ++ replicate n None) = Ok ws.
Proof.
  intros H Hn HE Hb. induction H as [|[q e] w qs ws Hw _ IH].
  - destruct n; [lia|]. done.
  - cbn. rewrite (word_string q e w) by (done || apply (HE (q, e)); set_solver). cbn [mbind res_bind].
    rewrite IH by set_solver. done.
Qed.

Lemma nulterminate_spec h c tr fuel : repr t h c tr -> (c < fuel)%nat ->
  exists E, (forall b, length b = length buf -> nulterminate fuel h c b = Ok (zero_all E b)) /\ Forall (boundary t) E /\
    (forall E', E ⊆ E' -> Forall (boundary t) E' -> denotes h (zero_all E' buf) c tr).
Proof.
  intros H. revert fuel.
  induction H as [c argv eargv ws Hn (qs & Hq & -> & ->) Hl|c sub q eq mode fd w tr Hn Hw Hlt Hs IH
    |c l r tl tr Hn Hl Hr H1 IH1 H2 IH2|c l r tl tr Hn Hl Hr H1 IH1 H2 IH2|c sub tr Hn Hlt Hs IH];
    intros [|fuel] Hf; try lia; pose proof (node_at_bound _ _ _ Hn) as [_ Hc0].
  - exists (map snd qs). split_and!.
    + intros b Hb. cbn [nulterminate]. rewrite (proj2 (Nat.eqb_neq c 0)), Hn by done. cbn [mbind res_bind].
      eapply nul_args_spec; [exact Hq|done|lia].
    + rewrite Forall_map, Forall_forall. intros q Hin. apply list_elem_of_lookup in Hin as [i Hi].
      destruct (Forall2_lookup_l _ _ _ _ _ Hq Hi) as (w & _ & Hw). by apply word_boundary in Hw as [? _].
    + intros E' HE Hb. eapply denotes_exec; [exact Hn|]. apply arg_strings_spec; [done|lia| |done].
      intros q Hin. apply HE. apply list_elem_of_fmap. eauto.
  - destruct (IH fuel) as (E & HE & Hb & Hd); [lia|]. pose proof (word_boundary _ _ _ Hw) as [Hbd _].
    exists (E ++ [eq]). split_and!.
    + intros b Hlen. cbn [nulterminate]. rewrite (proj2 (Nat.eqb_neq c 0)), Hn by done. cbn [mbind res_bind].
      rewrite HE by done. cbn [mbind res_bind]. rewrite set_end by (done || by rewrite zero_all_length). by rewrite zero_all_app.
    + apply Forall_app. split; [done|by constructor].
    + intros E' HE' Hb'. eapply denotes_redir; [exact Hn| |done|apply Hd; [set_solver|done]].
      apply (word_string q eq); [done|set_solver|done].
  - destruct (IH1 fuel) as (E1 & HE1 & Hb1 & Hd1); [lia|]. destruct (IH2 fuel) as (E2 & HE2 & Hb2 & Hd2); [lia|].
    exists (E1 ++ E2). split_and!.
    + intros b Hlen. cbn [nulterminate]. rewrite (proj2 (Nat.eqb_neq c 0)), Hn by done. cbn [mbind res_bind].
      rewrite HE1 by done. cbn [mbind res_bind]. rewrite HE2 by (by rewrite zero_all_length). by rewrite zero_all_app.
    + by apply Forall_app.
    + intros E' HE' Hb'. eapply denotes_pipe; [exact Hn|done|done|apply Hd1; [set_solver|done]|apply Hd2; [set_solver|done]].
  - destruct (IH1 fuel) as (E1 & HE1 & Hb1 & Hd1); [lia|]. destruct (IH2 fuel) as (E2 & HE2 & Hb2 & Hd2); [lia|].
    exists (E1 ++ E2). split_and!.
    + intros b Hlen. cbn [nulterminate]. rewrite (proj2 (Nat.eqb_neq c 0)), Hn by done. cbn [mbind res_bind].
      rewrite HE1 by done. cbn [mbind res_bind]. rewrite HE2 by (by rewrite zero_all_length). by rewrite zero_all_app.
    + by apply Forall_app.
    + intros E' HE' Hb'. eapply denotes_list; [exact Hn|done|done|apply Hd1; [set_solver|done]|apply Hd2; [set_solver|done]].
  - destruct (IH fuel) as (E & HE & Hb & Hd); [lia|]. exists E. split_and!; [|done|].
    + intros b Hlen. cbn [nulterminate]. rewrite (proj2 (Nat.eqb_neq c 0)), Hn by done. cbn [mbind res_bind]. by apply HE.
    + intros E' HE' Hb'. eapply denotes_back; [exact Hn|done|by apply Hd].
Qed.
End line.

(** ** Complaints *)

(** A message is printed, and the program exits. *)
Lemma prints_exits {W A} (h : call -> W -> reply * W) junk fmt ap ps s (p : prog A) :
  length junk = 16%nat -> str fmt ++ [10; 0] = concat (map written ps) ++ [0] -> ap = concat (map argument ps) ->
  Forall piece_ok ps -> (forall s1, exists s2, run h p s1 = (Exited, s2)) ->
  exists s', run h (_ ← print2nl junk fmt ap; p) s = (Exited, s').
Proof.
  intros Hj Hf -> Hp He. unfold print2nl, printf. rewrite Hf. rewrite run_bind.
  destruct (makes_run h _ _ _ s (printf_spec h junk 2 Hj ps Hp)) as [s1 ->]. apply He.
Qed.

Lemma plains_ok s : forallb (fun c => (0 <? c) && (c <? 256) && negb (c =? 37)) s = true -> Forall piece_ok (map Plain s).
Proof.
  intros H. apply Forall_map, Forall_forall. intros c Hc. rewrite forallb_forall in H.
  specialize (H c (proj1 (list_elem_of_In _ _) Hc)). cbn. lia.
Qed.

Lemma panic_exits {W A} (h : call -> W -> reply * W) junk msg s : length junk = 16%nat -> Forall (fun c => c <> 0) msg ->
  exists s', run h (panic junk msg : prog A) s = (Exited, s').
Proof.
  intros Hj Hm. apply (prints_exits h junk "%s" _ [Text msg; Plain 10]); [done|done|done| |eauto].
  constructor; [done|]. constructor; [|constructor]. cbn. lia.
Qed.

Lemma message_nonzero msg : msg ∈ messages -> Forall (fun c => c <> 0) (str msg).
Proof.
  intros H. unfold messages in H. rewrite !elem_of_cons in H.
  destruct H as [->|[->|[->|[->|H]]]]; [by repeat constructor..|by apply not_elem_of_nil in H].
Qed.

(** The test at the end of [parsecmd]. *)
Lemma peek_end t tail s ts : Forall (fun c => c <> 0) t -> at_toks t s ts ->
  exists s' a u, peek (t ++ 0 :: tail) (zlen t) [0] s = Ok (false, s') /\ heap s' = heap s /\
    t = a ++ u /\ ps s' = zlen a /\ (ts = [] <-> u = []).
Proof.
  intros Ht (u & Hu & <-). destruct (skip_before t tail Ht s u Hu) as (a & E & Hs).
  unfold peek. rewrite Hs. cbn [mbind res_bind]. rewrite (get_char t tail Ht a _ E). cbn [mbind res_bind].
  rewrite (in_set_spec []) by constructor.
  eexists {| ps := zlen a; heap := heap s |}, a, (dropw is_white u). split_and!; [by destruct (_ =? 0)|done|done|done|].
  rewrite <- (lex_dropw u). pose proof (start_spec (dropw is_white u) (dropw_head is_white u)) as Hst. by destruct Hst.
Qed.

Section theorem.
Context (junk : list Z) (room : nat) (t tail : list Z).
Context (Hj : length junk = 16%nat) (Ht : Forall (fun c => c <> 0) t) (Hroom : (2 * length t + 1 <= room)%nat).

Notation buf := (t ++ 0 :: tail).
Notation K := (S (Z.to_nat (zlen t))).

Lemma start_toks : at_toks t {| ps := 0; heap := [] |} (lex [] t).
Proof. exists t. split; [|done]. by exists []. Qed.

Lemma parse_run : follows (parseline buf room K (zlen t) {| ps := 0; heap := [] |}) (pline K K (lex [] t))
  (cmd_built t line_tree {| ps := 0; heap := [] |} (length (lex [] t))).
Proof.
  destruct (lex_ok [] t) as [_ Hl]. cbn in Hl. apply (parseline_spec t tail room Ht); [apply start_toks|unfold zlen; lia|cbn; lia].
Qed.

Lemma strlen_line : strlen buf 0 = Ok (zlen t).
Proof. unfold strlen. cbn [Z.ltb Z.compare Z.to_nat]. by rewrite drop_0, strlen_from_nul. Qed.

(** The line is a command. *)
Lemma parsecmd_accepts l : pline K K (lex [] t) = Some (l, []) ->
  exists c h buf', parsecmd junk room buf = Ret (c, h, buf') /\ denotes h buf' c (line_tree l).
Proof.
  intros Hl. pose proof parse_run as Hp. rewrite Hl in Hp. destruct Hp as (c & s & E & k & Hk & _ & Ha & Hr).
  destruct (peek_end t tail s [] Ht Ha) as (s' & a & u & E' & Hh & Et & Hps & Hu).
  pose proof (proj1 Hu eq_refl) as ->. rewrite app_nil_r in Et. subst a.
  destruct (nulterminate_spec t tail Ht (heap s) c (line_tree l) (S (length (heap s))) Hr) as (F & HF & Hb & Hd).
  { apply repr_bound in Hr. lia. }
  exists c, (heap s), (zero_all F buf). split; [|by apply Hd].
  unfold parsecmd, parse. rewrite strlen_line. cbn [mbind res_bind]. rewrite E. cbn [mbind res_bind]. rewrite E'.
  cbn [mbind res_bind]. rewrite Hps, Z.eqb_refl, Hh. cbn [negb]. rewrite HF by done. done.
Qed.

(** The line is not a command. *)
Lemma parsecmd_rejects {W} (h : call -> W -> reply * W) s : (forall l, pline K K (lex [] t) <> Some (l, [])) ->
  exists s', run h (parsecmd junk room buf) s = (Exited, s').
Proof.
  intros Hl. pose proof parse_run as Hp. unfold parsecmd, parse. rewrite strlen_line. cbn [mbind res_bind].
  destruct (pline K K (lex [] t)) as [[l ts]|].
  2: { destruct Hp as (msg & -> & Hm). apply panic_exits; [done|]. by apply message_nonzero. }
  destruct Hp as (c & s1 & E & k & _ & _ & Ha & _). rewrite E. cbn [mbind res_bind].
  destruct (peek_end t tail s1 ts Ht Ha) as (s2 & a & u & E' & Hh & Et & Hps & Hu). rewrite E'. cbn [mbind res_bind].
  assert (u <> []) as Hne by (intros ->; destruct (Hl l); by rewrite (proj2 Hu eq_refl)).
  assert (zlen t = zlen a + zlen u) as Hz by (by rewrite Et, zlen_app).
  assert (0 < zlen u) by (destruct u; [done|]; rewrite zlen_cons; pose proof (zlen_nonneg u); lia).
  rewrite Hps, (proj2 (Z.eqb_neq _ _)) by lia. cbn [negb].
  assert (Forall (fun c => c <> 0) u) as Hun by (rewrite Et in Ht; by apply Forall_app in Ht as [_ ?]).
  rewrite (cstring_spec buf (zlen a) u tail); [|apply zlen_nonneg| |done].
  2: { rewrite Et, <- app_assoc. unfold zlen. by rewrite Nat2Z.id, drop_app_length. }
  rewrite local_bind.
  apply (prints_exits h junk "leftovers: %s" _ (map Plain (str "leftovers: ") ++ [Text u; Plain 10])); [done|reflexivity|reflexivity| |].
  - apply Forall_app. split; [apply plains_ok; vm_compute; reflexivity|].
    constructor; [done|]. constructor; [|constructor]. cbn. lia.
  - intros s3. apply panic_exits; [done|]. by repeat constructor.
Qed.
End theorem.


