(* ===== verification/ShRun.v ===== *)
(** * What the shell runs

    A command runs as a set of processes.  [eval] follows a program through its
    forks, with the table of open files of each process as the kernel keeps it, and
    lists the programs that are executed.  [plumb] says which they are for a
    command, and what their files are. *)

From stdpp Require Import base list sets strings.
From Stdlib Require Import ZArith Lia.
From S2P Require Import Prelude State KString KStringProofs Ulib User Printf Sysfile Sh ShSpec ShProofs ShParse ShCmd.

(** An open file: one that the shell was started with, a file of the disk, or an
    end of the pipe of a number. *)
Inductive obj :=
| Given (i : nat)
| Opened (name : list Z) (mode : Z)
| ReadEnd (n : nat)
| WriteEnd (n : nat).

Definition files_ : Type := list (option obj).

(** A program that was executed, or a fault. *)
Inductive event := Executed (argv : list (list Z)) (fs : files_) | Bad (f : Prelude.fault).

(** The lowest descriptor that is free. *)
Fixpoint lowest_from (i : nat) (fs : files_) : option nat :=
  match fs with
  | [] => None
  | None :: _ => Some i
  | Some _ :: fs => lowest_from (S i) fs
  end.
Definition lowest (fs : files_) : option nat := lowest_from 0 fs.
Definition put (fd : nat) (o : option obj) (fs : files_) : files_ := <[fd := o]> fs.

(** The descriptor an argument names. *)
Definition fd_arg (fs : files_) (fd : Z) : option nat := if (fd <? 0) || (zlen fs <=? fd) then None else Some (Z.to_nat fd).

Definition answer (r : Z) (l : list Z) : reply := {| rv := r; stored := l |}.

Section eval.
(** The files that can be opened, and the programs that can be executed. *)
Context (opens : list Z -> Z -> bool) (execs : list Z -> bool).

(** The answer to a call that does not fork or execute, the files after it, and
    the number of pipes made. *)
Definition respond (c : call) (fs : files_) (n : nat) : reply * files_ * nat :=
  match c with
  | CClose fd =>
      match fd_arg fs fd with
      | Some fd => (answer 0 [], put fd None fs, n)
      | None => (answer (-1) [], fs, n)
      end
  | COpen name mode =>
      match lowest fs with
      | Some fd => if opens name mode then (answer (Z.of_nat fd) [], put fd (Some (Opened name mode)) fs, n)
                   else (answer (-1) [], fs, n)
      | None => (answer (-1) [], fs, n)
      end
  | CDup fd =>
      match fd_arg fs fd, lowest fs with
      | Some fd, Some fd' =>
          match fs !! fd with
          | Some (Some o) => (answer (Z.of_nat fd') [], put fd' (Some o) fs, n)
          | _ => (answer (-1) [], fs, n)
          end
      | _, _ => (answer (-1) [], fs, n)
      end
  | CPipe =>
      match lowest fs with
      | Some p0 =>
          let fs0 := put p0 (Some (ReadEnd n)) fs in
          match lowest fs0 with
          | Some p1 => (answer 0 [Z.of_nat p0; Z.of_nat p1], put p1 (Some (WriteEnd n)) fs0, S n)
          | None => (answer (-1) [], fs, n)
          end
      | None => (answer (-1) [], fs, n)
      end
  | _ => (answer 1 [], fs, n)
  end.

(** The child of a fork is followed first; a program that is executed successfully
    is not followed any further. *)
Fixpoint eval (p : prog unit) (fs : files_) (n : nat) : list event * nat :=
  match p with
  | Ret _ | Exit => ([], n)
  | Crash e => ([Bad e], n)
  | Sys CFork k =>
      let child := eval (k (answer 0 [])) fs n in
      let rest := eval (k (answer 1 [])) fs child.2 in
      (child.1 ++ rest.1, rest.2)
  | Sys (CExec path argv) k =>
      if execs path then ([Executed argv fs], n) else eval (k (answer (-1) [])) fs n
  | Sys c k => let r := respond c fs n in eval (k r.1.1) r.1.2 r.2
  end.

(** ** Specification *)

Fixpoint plumb (t : tree) (fs : files_) (n : nat) : list event * nat :=
  match t with
  | Cmd [] => ([], n)
  | Cmd (path :: args) => (if execs path then [Executed (path :: args) fs] else [], n)
  | Redir t file mode fd =>
      if opens file mode then plumb t (put (Z.to_nat fd) (Some (Opened file mode)) fs) n else ([], n)
  | Pipe l r =>
      let a := plumb l (put 1 (Some (WriteEnd n)) fs) (S n) in
      let b := plumb r (put 0 (Some (ReadEnd n)) fs) a.2 in
      (a.1 ++ b.1, b.2)
  | Seq l r =>
      let a := plumb l fs n in
      let b := plumb r fs a.2 in
      (a.1 ++ b.1, b.2)
  | Back t => plumb t fs n
  end.

(** ** Programs that do not return *)

Fixpoint noret {A} (p : prog A) : Prop :=
  match p with
  | Ret _ => False
  | Exit | Crash _ => True
  | Sys _ k => forall r, noret (k r)
  end.

Lemma noret_bind {A B} (m : prog A) (f : A -> prog B) : (forall a, noret (f a)) -> noret (m ≫= f).
Proof. intros H. induction m as [a| |e|c k IH]; [apply H|done|done|]. intros r. apply IH. Qed.

Lemma eval_noret (m : prog unit) f fs n : noret m -> eval (m ≫= f) fs n = eval m fs n.
Proof.
  revert fs n. induction m as [a| |e|c k IH]; intros fs n Hm; [done..|]. cbn in Hm.
  change (Sys c k ≫= f) with (Sys c (fun r => k r ≫= f)).
  destruct c; cbn [eval]; rewrite ?IH by apply Hm; done.
Qed.

(** A program that only writes, then the rest. *)
Definition h0 (c : call) (s : unit) : reply * unit := (answer 1 [], s).
Definition writes (c : call) : Prop := match c with CWrite _ _ => True | _ => False end.

Lemma run_traced_prefix {A} (p : prog A) s cs e s' cs' : run (traced h0) p (s, cs) = (e, (s', cs')) -> exists l, cs' = cs ++ l.
Proof.
  revert s cs. induction p as [a| |f|c k IH]; intros s cs; cbn [run].
  1-3: intros [= <- <- <-]; exists []; by rewrite app_nil_r.
  intros E. apply IH in E as (l & ->). exists (c :: l). cbn. by rewrite <- app_assoc.
Qed.

Lemma eval_writes_from {A} (p : prog A) (f : A -> prog unit) ws cs a fs n : Forall writes ws ->
  run (traced h0) p ((), cs) = (Done a, ((), cs ++ ws)) -> eval (p ≫= f) fs n = eval (f a) fs n.
Proof.
  revert ws cs. induction p as [a'| |e|c k IH]; intros ws cs Hw E; [by injection E as <-|done|done|].
  cbn [run] in E. pose proof (run_traced_prefix _ _ _ _ _ _ E) as (l & El). cbn [traced snd] in El.
  rewrite <- app_assoc in El. apply app_inv_head in El as ->. apply Forall_cons in Hw as [Hc Hw].
  change (Sys c k ≫= f) with (Sys c (fun r => k r ≫= f)). destruct c; try done. cbn [eval respond fst snd].
  apply (IH (answer 1 []) l (cs ++ [CWrite fd bs])); [done|]. rewrite <- app_assoc. exact E.
Qed.

Lemma eval_writes {A} (p : prog A) (f : A -> prog unit) l a fs n :
  makes h0 p (map (fun c => CWrite 2 [c]) l) a -> eval (p ≫= f) fs n = eval (f a) fs n.
Proof.
  intros H. destruct (H () []) as [[] E]. eapply eval_writes_from; [|exact E]. by apply Forall_map, Forall_forall.
Qed.

(** The calls of [runcmd]. *)
Lemma eval_call c (f : Z -> prog unit) fs n :
  match c with CFork | CExec _ _ => False | _ => True end ->
  eval (syscall_ c ≫= f) fs n =
  eval (f (rv (respond c fs n).1.1)) (respond c fs n).1.2 (respond c fs n).2.
Proof. intros H. by destruct c. Qed.

Lemma eval_sys c (f : reply -> prog unit) fs n :
  match c with CFork | CExec _ _ => False | _ => True end ->
  eval (sys c ≫= f) fs n = eval (f (respond c fs n).1.1) (respond c fs n).1.2 (respond c fs n).2.
Proof. intros H. by destruct c. Qed.

Lemma eval_ret {A} (a : A) (f : A -> prog unit) fs n : eval (mret a ≫= f) fs n = eval (f a) fs n.
Proof. done. Qed.

Lemma eval_fork1 junk (f : Z -> prog unit) fs n :
  eval (fork1 junk ≫= f) fs n =
  let child := eval (f 0) fs n in
  let rest := eval (f 1) fs child.2 in (child.1 ++ rest.1, rest.2).
Proof. done. Qed.

(** ** Tables of files *)

Section table.
Context (l1 l2 : list obj) (l3 : files_).

(** Three standard files, and two descriptors that are free or the ends of a pipe. *)
Definition tab (a b : option obj) (c : obj) (u v : option obj) : files_ :=
  a :: b :: Some c :: map Some l1 ++ u :: map Some l2 ++ v :: l3.
Definition P0 : nat := 3 + length l1.
Definition P1 : nat := 4 + length l1 + length l2.

Lemma lowest_skip l i fs : lowest_from i (map Some l ++ fs) = lowest_from (i + length l) fs.
Proof. revert i. induction l as [|o l IH]; intros i; cbn; [by rewrite Nat.add_0_r|]. rewrite IH. f_equal. lia. Qed.

Lemma lowest_0 b c u v : lowest (tab None b c u v) = Some 0%nat.
Proof. done. Qed.
Lemma lowest_1 a c u v : lowest (tab (Some a) None c u v) = Some 1%nat.
Proof. done. Qed.
Lemma lowest_P0 a b c v : lowest (tab (Some a) (Some b) c None v) = Some P0.
Proof. unfold lowest, tab. cbn [lowest_from]. rewrite lowest_skip. done. Qed.
Lemma lowest_P1 a b c o : lowest (tab (Some a) (Some b) c (Some o) None) = Some P1.
Proof.
  unfold lowest, tab. cbn [lowest_from]. rewrite lowest_skip. cbn [lowest_from]. rewrite lowest_skip. cbn [lowest_from].
  done.
Qed.

Lemma put_P0 a b c u v x : put P0 x (tab a b c u v) = tab a b c x v.
Proof.
  change (put P0 x (tab a b c u v)) with (a :: b :: Some c :: <[length l1 := x]> (map Some l1 ++ u :: map Some l2 ++ v :: l3)).
  rewrite insert_app_r_alt by (rewrite length_map; lia). by rewrite length_map, Nat.sub_diag.
Qed.
Lemma put_P1 a b c u v x : put P1 x (tab a b c u v) = tab a b c u x.
Proof.
  change (put P1 x (tab a b c u v))
    with (a :: b :: Some c :: <[S (length l1 + length l2) := x]> (map Some l1 ++ u :: map Some l2 ++ v :: l3)).
  rewrite insert_app_r_alt by (rewrite length_map; lia). rewrite length_map.
  replace (S (length l1 + length l2) - length l1)%nat with (S (length l2)) by lia.
  change (<[S (length l2) := x]> (u :: map Some l2 ++ v :: l3)) with (u :: <[length l2 := x]> (map Some l2 ++ v :: l3)).
  rewrite insert_app_r_alt by (rewrite length_map; lia). by rewrite length_map, Nat.sub_diag.
Qed.
Lemma lookup_P0 a b c u v : tab a b c u v !! P0 = Some u.
Proof.
  change (tab a b c u v !! P0) with ((map Some l1 ++ u :: map Some l2 ++ v :: l3) !! length l1).
  rewrite lookup_app_r by (rewrite length_map; lia). by rewrite length_map, Nat.sub_diag.
Qed.
Lemma lookup_P1 a b c u v : tab a b c u v !! P1 = Some v.
Proof.
  change (tab a b c u v !! P1) with ((map Some l1 ++ u :: map Some l2 ++ v :: l3) !! S (length l1 + length l2)).
  rewrite lookup_app_r by (rewrite length_map; lia). rewrite length_map.
  replace (S (length l1 + length l2) - length l1)%nat with (S (length l2)) by lia.
  change ((u :: map Some l2 ++ v :: l3) !! S (length l2)) with ((map Some l2 ++ v :: l3) !! length l2).
  rewrite lookup_app_r by (rewrite length_map; lia). by rewrite length_map, Nat.sub_diag.
Qed.

Lemma fd_arg_in fs p o : fs !! p = Some o -> fd_arg fs (Z.of_nat p) = Some p.
Proof.
  intros H. apply lookup_lt_Some in H. unfold fd_arg, zlen.
  rewrite (proj2 (Z.ltb_ge _ _)), (proj2 (Z.leb_gt _ _)) by lia. cbn [orb]. by rewrite Nat2Z.id.
Qed.
End table.

(** The calls on such a table. *)
Lemma close_in fs p o n : fs !! p = Some o -> respond (CClose (Z.of_nat p)) fs n = (answer 0 [], put p None fs, n).
Proof. intros H. cbn. by rewrite (fd_arg_in fs p o H). Qed.

Lemma dup_in fs p o p' n : fs !! p = Some (Some o) -> lowest fs = Some p' ->
  respond (CDup (Z.of_nat p)) fs n = (answer (Z.of_nat p') [], put p' (Some o) fs, n).
Proof. intros H Hl. cbn. by rewrite (fd_arg_in fs p _ H), Hl, H. Qed.

Lemma pipe_in l1 l2 l3 a b c n : respond CPipe (tab l1 l2 l3 (Some a) (Some b) c None None) n =
  (answer 0 [Z.of_nat (P0 l1); Z.of_nat (P1 l1 l2)],
   tab l1 l2 l3 (Some a) (Some b) c (Some (ReadEnd n)) (Some (WriteEnd n)), S n).
Proof. cbn [respond]. by rewrite lowest_P0, put_P0, lowest_P1, put_P1. Qed.

(** The standard files are open, and there is place for a pipe. *)
Definition std (fs : files_) : Prop := exists l1 l2 l3 a b c, fs = tab l1 l2 l3 (Some a) (Some b) c None None.

Lemma std_put fs i o : std fs -> (i < 2)%nat -> std (put i (Some o) fs).
Proof.
  intros (l1 & l2 & l3 & a & b & c & ->) Hi. destruct i as [|[|i]]; [by exists l1, l2, l3, o, b, c|by exists l1, l2, l3, a, o, c|lia].
Qed.

(** ** Children *)

(** The child that writes into the pipe, and the one that reads from it. *)
Lemma left_child l1 l2 l3 a b c n (f : prog unit) :
  eval (_ ← syscall_ (CClose 1);
        _ ← syscall_ (CDup (Z.of_nat (P1 l1 l2)));
        _ ← syscall_ (CClose (Z.of_nat (P0 l1)));
        _ ← syscall_ (CClose (Z.of_nat (P1 l1 l2)));
        f) (tab l1 l2 l3 (Some a) (Some b) c (Some (ReadEnd n)) (Some (WriteEnd n))) (S n) =
  eval f (put 1 (Some (WriteEnd n)) (tab l1 l2 l3 (Some a) (Some b) c None None)) (S n).
Proof.
  rewrite eval_call by done. change 1 with (Z.of_nat 1). rewrite (close_in _ _ (Some b)) by done. cbn [fst snd].
  change (put 1 None (tab l1 l2 l3 (Some a) (Some b) c (Some (ReadEnd n)) (Some (WriteEnd n)))) with (tab l1 l2 l3 (Some a) None c (Some (ReadEnd n)) (Some (WriteEnd n))).
  rewrite eval_call by done. rewrite (dup_in _ _ (WriteEnd n) 1) by (apply lookup_P1 || done). cbn [fst snd].
  change (put 1 (Some (WriteEnd n)) (tab l1 l2 l3 (Some a) None c (Some (ReadEnd n)) (Some (WriteEnd n))))
    with (tab l1 l2 l3 (Some a) (Some (WriteEnd n)) c (Some (ReadEnd n)) (Some (WriteEnd n))).
  rewrite eval_call by done. rewrite (close_in _ _ _ _ (lookup_P0 _ _ _ _ _ _ _ _)). cbn [fst snd]. rewrite put_P0.
  rewrite eval_call by done. rewrite (close_in _ _ _ _ (lookup_P1 _ _ _ _ _ _ _ _)). cbn [fst snd]. by rewrite put_P1.
Qed.

Lemma right_child l1 l2 l3 a b c n m (f : prog unit) :
  eval (_ ← syscall_ (CClose 0);
        _ ← syscall_ (CDup (Z.of_nat (P0 l1)));
        _ ← syscall_ (CClose (Z.of_nat (P0 l1)));
        _ ← syscall_ (CClose (Z.of_nat (P1 l1 l2)));
        f) (tab l1 l2 l3 (Some a) (Some b) c (Some (ReadEnd n)) (Some (WriteEnd n))) m =
  eval f (put 0 (Some (ReadEnd n)) (tab l1 l2 l3 (Some a) (Some b) c None None)) m.
Proof.
  rewrite eval_call by done. change 0 with (Z.of_nat 0). rewrite (close_in _ _ (Some a)) by done. cbn [fst snd].
  change (put 0 None (tab l1 l2 l3 (Some a) (Some b) c (Some (ReadEnd n)) (Some (WriteEnd n)))) with (tab l1 l2 l3 None (Some b) c (Some (ReadEnd n)) (Some (WriteEnd n))).
  rewrite eval_call by done. rewrite (dup_in _ _ (ReadEnd n) 0) by (apply lookup_P0 || done). cbn [fst snd].
  change (put 0 (Some (ReadEnd n)) (tab l1 l2 l3 None (Some b) c (Some (ReadEnd n)) (Some (WriteEnd n))))
    with (tab l1 l2 l3 (Some (ReadEnd n)) (Some b) c (Some (ReadEnd n)) (Some (WriteEnd n))).
  rewrite eval_call by done. rewrite (close_in _ _ _ _ (lookup_P0 _ _ _ _ _ _ _ _)). cbn [fst snd]. rewrite put_P0.
  rewrite eval_call by done. rewrite (close_in _ _ _ _ (lookup_P1 _ _ _ _ _ _ _ _)). cbn [fst snd]. by rewrite put_P1.
Qed.

(** ** Commands *)

Lemma close_count fd fs n : (respond (CClose fd) fs n).2 = n.
Proof. cbn [respond]. by destruct (fd_arg fs fd). Qed.

Lemma parent_waits p0 p1 fs n :
  eval (_ ← syscall_ (CClose p0); _ ← syscall_ (CClose p1); _ ← syscall_ CWait; _ ← syscall_ CWait; Exit) fs n = ([], n).
Proof. rewrite !eval_call by done. rewrite !close_count. done. Qed.

Section commands.
Context (junk : list Z) (Hj : length junk = 16%nat).

Lemma eval_print fmt ps (f : unit -> prog unit) fs n : str fmt ++ [10; 0] = concat (map written ps) ++ [0] -> Forall piece_ok ps ->
  eval (print2nl junk fmt (concat (map argument ps)) ≫= f) fs n = eval (f ()) fs n.
Proof.
  intros Hf Hp. unfold print2nl, printf. rewrite Hf. by apply (eval_writes _ _ (concat (map printed ps))), printf_spec.
Qed.

(** "... %s failed" *)
Lemma eval_failed pre name (f : unit -> prog unit) fs n :
  forallb (fun c => (0 <? c) && (c <? 256) && negb (c =? 37)) (str pre) = true -> Forall (fun c => c <> 0) name ->
  eval (printf junk 2 (str pre ++ str "%s failed" ++ [10; 0]) [Ptr (name ++ [0])] ≫= f) fs n = eval (f ()) fs n.
Proof.
  intros Hpre Hn.
  set (ps := map Plain (str pre) ++ Text name :: map Plain (str " failed") ++ [Plain 10]).
  assert (concat (map argument ps) = [Ptr (name ++ [0])]) as <-.
  { unfold ps. rewrite map_app, concat_app. replace (concat (map argument (map Plain (str pre)))) with (@nil arg); [done|].
    induction (str pre) as [|c l IH]; [done|]. cbn in *. apply IH. by apply andb_true_iff in Hpre as [_ ?]. }
  assert (str pre ++ str "%s failed" ++ [10; 0] = concat (map written ps) ++ [0]) as ->.
  { unfold ps. rewrite map_app, concat_app, <- app_assoc. f_equal.
    clear. induction (str pre) as [|c l IH]; [done|]. cbn. by rewrite <- IH. }
  apply (eval_writes _ _ (concat (map printed ps))), printf_spec; [done|].
  apply Forall_app. split; [by apply plains_ok|]. constructor; [done|]. apply Forall_app.
  split; [apply plains_ok; vm_compute; reflexivity|]. constructor; [cbn; lia|constructor].
Qed.

Lemma cstring_nonzero buf q w : cstring buf q = Ok w -> Forall (fun c => c <> 0) w.
Proof.
  unfold cstring, strlen. intros H. apply bind_Ok in H as (m & Hm & H).
  destruct (q <? 0); [done|]. apply strlen_from_spec in Hm as (Hm & _ & Hk).
  unfold arr_read in H. destruct (_ || _ || _); [done|]. injection H as <-.
  apply Forall_lookup. intros i c Hi. apply lookup_take_Some in Hi as [Hi Hlt].
  destruct (Hk (Z.of_nat i)) as (d & Hd & Hn); [lia|]. rewrite Nat2Z.id in Hd. congruence.
Qed.

Lemma arg_strings_nonzero buf argv ws : arg_strings buf argv = Ok ws -> Forall (Forall (fun c => c <> 0)) ws.
Proof.
  revert ws. induction argv as [|[q|] argv IH]; intros ws H; cbn in H; [done| |by injection H as <-; constructor].
  apply bind_Ok in H as (w & Hw & H). apply bind_Ok in H as (l & Hl & H). injection H as <-.
  constructor; [by eapply cstring_nonzero|by apply IH].
Qed.

Lemma runcmd_noret fuel h buf c : noret (runcmd junk fuel h buf c).
Proof.
  revert c. induction fuel as [|fuel IH]; intros c; cbn [runcmd]; [done|].
  destruct (c =? 0)%nat; [done|]. apply noret_bind. intros [argv eargv|sub q e mode fd|l r|l r|sub].
  - apply noret_bind. intros [|path args]; [done|]. by do 2 (apply noret_bind; intros ?).
  - do 3 (apply noret_bind; intros ?). destruct (_ <? 0); by apply noret_bind.
  - apply noret_bind. intros p. destruct (_ <? 0); [by apply noret_bind|]. by do 10 (apply noret_bind; intros ?).
  - by do 4 (apply noret_bind; intros ?).
  - by do 2 (apply noret_bind; intros ?).
Qed.

(** A child runs its command and nothing else. *)
Lemma eval_child fuel h buf c (f : unit -> prog unit) fs n :
  eval (runcmd junk fuel h buf c ≫= f) fs n = eval (runcmd junk fuel h buf c) fs n.
Proof. apply eval_noret, runcmd_noret. Qed.

(** Only standard input and output are redirected. *)
Fixpoint fds_ok (t : tree) : Prop :=
  match t with
  | Cmd _ => True
  | Redir t _ _ fd => fds_ok t /\ 0 <= fd < 2
  | Pipe l r | Seq l r => fds_ok l /\ fds_ok r
  | Back t => fds_ok t
  end.

(** The descriptor is closed, and is the next to be used. *)
Lemma close_std fs fd n : std fs -> 0 <= fd < 2 ->
  respond (CClose fd) fs n = (answer 0 [], put (Z.to_nat fd) None fs, n) /\
  lowest (put (Z.to_nat fd) None fs) = Some (Z.to_nat fd).
Proof.
  intros (l1 & l2 & l3 & a & b & c & ->) Hfd. assert (fd = 0 \/ fd = 1) as [->| ->] by lia.
  - split; [by apply (close_in _ 0 (Some a))|done].
  - split; [by apply (close_in _ 1 (Some b))|done].
Qed.

Lemma put_put i x y fs : put i x (put i y fs) = put i x fs.
Proof. apply list_insert_insert_eq. Qed.

Lemma runcmd_spec h buf c tr : denotes h buf c tr -> fds_ok tr -> forall fuel fs n, (c < fuel)%nat -> std fs ->
  eval (runcmd junk fuel h buf c) fs n = plumb tr fs n.
Proof.
  induction 1 as [c argv eargv ws Hn Hw|c sub q e mode fd w tr Hn Hw Hlt Hs IH
    |c l r tl tr Hn Hl Hr H1 IH1 H2 IH2|c l r tl tr Hn Hl Hr H1 IH1 H2 IH2|c sub tr Hn Hlt Hs IH];
    intros Hok [|fuel] fs n Hf Hstd; try lia; pose proof (node_at_bound _ _ _ Hn) as [_ Hc0]; cbn [runcmd];
    rewrite (proj2 (Nat.eqb_neq c 0)), Hn, local_bind by done.
  - rewrite Hw, local_bind. destruct ws as [|path args]; [done|]. cbn [plumb].
    apply arg_strings_nonzero in Hw. apply Forall_cons in Hw as [Hp _].
    change (eval (syscall_ (CExec path (path :: args)) ≫= (fun _ => _ ← print2nl junk "exec %s failed" [Ptr (path ++ [0])]; Exit)) fs n)
      with (if execs path then ([Executed (path :: args) fs], n) else eval (_ ← print2nl junk "exec %s failed" [Ptr (path ++ [0])]; Exit) fs n).
    destruct (execs path); [done|]. by apply (eval_failed "exec " path (fun _ => Exit)).
  - destruct Hok as [Hok Hfd]. destruct (close_std fs fd n Hstd Hfd) as [Hc Hlow].
    rewrite eval_call by done. rewrite Hc. cbn [fst snd]. rewrite Hw, local_bind. rewrite eval_call by done.
    cbn [respond plumb]. rewrite Hlow. destruct (opens w mode); cbn [fst snd rv answer].
    + rewrite (proj2 (Z.ltb_ge _ _)) by lia. rewrite eval_child, put_put. apply IH; [done|lia|]. apply std_put; [done|lia].
    + apply (eval_failed "open " w (fun _ => Exit)); [done|]. by eapply cstring_nonzero.
  - destruct Hok as [Hokl Hokr]. pose proof Hstd as (l1 & l2 & l3 & a & b & o & ->).
    rewrite eval_sys, pipe_in by done. cbn [fst snd rv answer stored Z.ltb Z.compare].
    change (arr_get [Z.of_nat (P0 l1); Z.of_nat (P1 l1 l2)] 0) with (Ok (Z.of_nat (P0 l1))).
    change (arr_get [Z.of_nat (P0 l1); Z.of_nat (P1 l1 l2)] 1) with (Ok (Z.of_nat (P1 l1 l2))).
    rewrite !local_bind, eval_fork1. cbn [Z.eqb].
    rewrite eval_noret by (do 4 (apply noret_bind; intros ?); apply runcmd_noret).
    rewrite left_child, IH1 by (done || lia || (apply std_put; [done|lia])). rewrite eval_ret, eval_fork1. cbn [Z.eqb].
    rewrite eval_noret by (do 4 (apply noret_bind; intros ?); apply runcmd_noret).
    rewrite right_child, IH2 by (done || lia || (apply std_put; [done|lia])). rewrite eval_ret, parent_waits.
    cbn [plumb fst snd]. by rewrite app_nil_r.
  - destruct Hok as [Hokl Hokr]. rewrite eval_fork1. cbn [Z.eqb]. rewrite eval_child, IH1 by (done || lia).
    rewrite eval_ret, eval_call by done. cbn [respond fst snd]. by rewrite eval_child, IH2 by (done || lia).
  - rewrite eval_fork1. cbn [Z.eqb]. rewrite eval_child, IH by (done || lia). rewrite eval_ret. cbn [eval plumb fst snd].
    rewrite app_nil_r. by destruct (plumb tr fs n).
Qed.
End commands.
End eval.

(** ** The commands of a line *)

Lemma wrap_fds rs t : fds_ok t -> fds_ok (wrap rs t).
Proof.
  revert t. induction rs as [|[c w] rs IH]; intros t Ht; [done|]. cbn. apply IH. cbn. split; [done|].
  unfold fd_of. destruct (c =? 60); lia.
Qed.

Lemma back_fds n t : fds_ok t -> fds_ok (Nat.iter n Back t).
Proof. intros Ht. by induction n. Qed.

Scheme exec_mut := Induction for exec_ Sort Prop
with pipe_mut := Induction for pipe_ Sort Prop
with line_mut := Induction for line_ Sort Prop.

Lemma line_fds l : fds_ok (line_tree l).
Proof.
  apply (line_mut (fun e => fds_ok (exec_tree e)) (fun p => fds_ok (pipe_tree p)) (fun l => fds_ok (line_tree l)));
    intros; cbn; try split; try done; by apply wrap_fds || by apply back_fds.
Qed.


(** [ls<x |(wc)&] in the heap that [parsecmd] makes of it. *)
Definition demo_fs : files_ := [Some (Given 0); Some (Given 1); Some (Given 2)] ++ replicate 13 None.
Definition demo_cmd : nat * list node * list Z :=
  match parsecmd (replicate 16 0) 30 (str "ls<x |(wc)&" ++ [0]) with Ret r => r | _ => (0%nat, [], []) end.
Definition demo_line : line_ :=
  End_ (Bar (Simple [] [(str "ls", [(60, str "x")])]) (One (Block (End_ (One (Simple [] [(str "wc", [])])) 0) []))) 1.

Lemma demo_denotes : denotes demo_cmd.1.2 demo_cmd.2 demo_cmd.1.1 (line_tree demo_line).
Proof.
  vm_compute. eapply denotes_back; [reflexivity|lia|]. eapply denotes_pipe; [reflexivity|lia|lia| |].
  - eapply denotes_redir; [reflexivity|reflexivity|lia|]. eapply denotes_exec; reflexivity.
  - eapply denotes_exec; reflexivity.
Qed.

