(* ===== verification/Console.v ===== *)
(** * The console: [console.c], with [uart.c]

    Characters go to the screen and to the serial port; [consoleintr] edits the
    line being typed, and [consoleread] takes characters of the lines entered.
    [cons.lock] is held except while a reader sleeps, so an interrupt is one
    uninterrupted run, and a read is a sequence of runs as in Pipe.v. *)

From stdpp Require Import base list strings.
From Stdlib Require Import ZArith Lia.
From S2P Require Import Prelude User Printf State.

Definition BACKSPACE : Z := 0x100.
Definition INPUT_BUF : Z := 128.
(** [C(x)] *)
Definition ctrl (x : Z) : Z := x - 64.

(** The cells of the CGA memory, the two cursor registers, whether there is a
    serial port and what was sent on it, [panicked], and [input]. *)
Record console := {
  crt : list Z; cursor_hi : Z; cursor_lo : Z; uart : bool; sent_on : list Z; panicked : bool;
  ibuf : list Z; ir : Z; iw : Z; ie : Z }.

Definition set_screen (cells : list Z) (hi lo : Z) (s : console) : console :=
  {| crt := cells; cursor_hi := hi; cursor_lo := lo; uart := uart s; sent_on := sent_on s; panicked := panicked s;
     ibuf := ibuf s; ir := ir s; iw := iw s; ie := ie s |}.
Definition set_sent (l : list Z) (s : console) : console :=
  {| crt := crt s; cursor_hi := cursor_hi s; cursor_lo := cursor_lo s; uart := uart s; sent_on := l;
     panicked := panicked s; ibuf := ibuf s; ir := ir s; iw := iw s; ie := ie s |}.
Definition set_input (b : list Z) (r w e : Z) (s : console) : console :=
  {| crt := crt s; cursor_hi := cursor_hi s; cursor_lo := cursor_lo s; uart := uart s; sent_on := sent_on s;
     panicked := panicked s; ibuf := b; ir := r; iw := w; ie := e |}.

(** ** Output *)

Definition uartputc (c : Z) : ST console unit :=
  u ← gets uart;
  if (u : bool) then modify (fun s => set_sent (sent_on s ++ [u8 c]) s) else mret ().

(** [memmove(crt, crt+80, ..)] and [memset(crt+pos, 0, ..)], in cells. *)
Definition scroll (cells : list Z) (pos : Z) : res (list Z) :=
  rows ← arr_read cells 80 (23 * 80);
  cells ← arr_write cells 0 rows;
  arr_write cells pos (replicate (Z.to_nat (24 * 80 - pos)) 0).

(** The end of [cgaputc]: the cursor goes to [pos]. *)
Definition cgamove (cells : list Z) (pos : Z) : ST console unit :=
  if (pos <? 0) || (25 * 80 <? pos) then fault (Panic "pos under/overflow")
  else
    '(cells, pos) ← pure (
      if 24 <=? pos / 80 then cells ← scroll cells (pos - 80); Ok (cells, pos - 80)
      else Ok (cells, pos));
    cells ← pure (arr_set cells pos (Z.lor 32 0x0700));
    modify (set_screen cells (u8 (Z.shiftr pos 8)) (u8 pos)).

Definition cgaputc (c : Z) : ST console unit :=
  hi ← gets cursor_hi;
  lo ← gets cursor_lo;
  let pos := Z.lor (Z.shiftl hi 8) lo in
  cells ← gets crt;
  if c =? 10 then cgamove cells (pos + (80 - pos mod 80))
  else if c =? BACKSPACE then cgamove cells (if 0 <? pos then pos - 1 else pos)
  else cells ← pure (arr_set cells pos (Z.lor (Z.land c 0xff) 0x0700)); cgamove cells (pos + 1).

(** After a panic the processor spins here. *)
Definition consputc (c : Z) : ST console unit :=
  p ← gets panicked;
  if (p : bool) then fault Blocked
  else
    _ ← (if c =? BACKSPACE then _ ← uartputc 8; _ ← uartputc 32; uartputc 8 else uartputc c);
    cgaputc c.

Fixpoint consolewrite_loop (bs : list Z) : ST console unit :=
  match bs with
  | [] => mret ()
  | b :: bs => _ ← consputc (Z.land b 0xff); consolewrite_loop bs
  end.

Definition consolewrite (bs : list Z) : ST console Z :=
  _ ← consolewrite_loop bs; mret (zlen bs).

(** ** [cprintf] *)

Fixpoint putc_back (i : nat) (b : list Z) : ST console unit :=
  match i with
  | O => mret ()
  | S i => c ← pure (arr_get b (Z.of_nat i)); _ ← consputc c; putc_back i b
  end.

(** The loop over the digits is that of [printf.c]; [junk] is what is in [buf]
    before. *)
Definition printint (junk : list Z) (xx base : Z) (sgn : bool) : ST console unit :=
  let neg := sgn && (xx <? 0) in
  let x := if neg then u32 (- xx) else u32 xx in
  '(b, i) ← pure (digits_loop 32 (str "0123456789abcdef") x base junk 0);
  '(b, i) ← pure (if neg then b ← arr_set b i 45; Ok (b, i + 1) else Ok (b, i));
  putc_back (Z.to_nat i) b.

Fixpoint putc_string (s : list Z) : ST console unit :=
  match s with
  | [] => fault OutOfBounds
  | c :: s => if c =? 0 then mret () else _ ← consputc c; putc_string s
  end.

Definition cword (a : arg) : ST console Z := match a with Word x => mret x | Ptr _ => fault OutOfBounds end.
Definition ctext (a : arg) : ST console (list Z) :=
  match a with
  | Ptr s => mret s
  | Word x => if x =? 0 then mret (str "(null)" ++ [0]) else fault OutOfBounds
  end.
Definition cnext (ap : list arg) : ST console (arg * list arg) :=
  match ap with a :: ap => mret (a, ap) | [] => fault OutOfBounds end.

Definition cdirective (junk : list Z) (c : Z) (ap : list arg) : ST console (list arg) :=
  if c =? 100 then
    '(a, ap) ← cnext ap; x ← cword a; _ ← printint junk (s32 x) 10 true; mret ap
  else if (c =? 120) || (c =? 112) then
    '(a, ap) ← cnext ap; x ← cword a; _ ← printint junk (s32 x) 16 false; mret ap
  else if c =? 115 then
    '(a, ap) ← cnext ap; s ← ctext a; _ ← putc_string s; mret ap
  else if c =? 37 then _ ← consputc 37; mret ap
  else _ ← consputc 37; _ ← consputc c; mret ap.

Fixpoint cprintf (junk fmt : list Z) (ap : list arg) : ST console unit :=
  match fmt with
  | [] => fault OutOfBounds
  | f :: fmt =>
      let c := Z.land f 0xff in
      if c =? 0 then mret ()
      else if negb (c =? 37) then _ ← consputc c; cprintf junk fmt ap
      else match fmt with
           | [] => fault OutOfBounds
           | f :: fmt =>
               let c := Z.land f 0xff in
               if c =? 0 then mret () else ap ← cdirective junk c ap; cprintf junk fmt ap
           end
  end.

(** ** Input *)

(** [input.buf[(input.e-1) % INPUT_BUF] != '\n'] as long as the line lasts. *)
Fixpoint kill_line (fuel : nat) : ST console unit :=
  match fuel with
  | O => fault OutOfFuel
  | S fuel =>
      e ← gets ie; w ← gets iw;
      if e =? w then mret ()
      else
        b ← gets ibuf;
        c ← pure (arr_get b (u32 (e - 1) mod INPUT_BUF));
        if c =? 10 then mret ()
        else
          _ ← modify (fun s => set_input (ibuf s) (ir s) (iw s) (u32 (ie s - 1)) s);
          _ ← consputc BACKSPACE;
          kill_line fuel
  end.

(** One character of an interrupt: whether it asks for the process listing, and
    whether it wakes the readers. *)
Definition intr_char (c : Z) : ST console (bool * bool) :=
  if c =? ctrl 80 then mret (true, false)
  else if c =? ctrl 85 then
    e ← gets ie; w ← gets iw;
    _ ← kill_line (S (Z.to_nat (u32 (e - w))));
    mret (false, false)
  else if (c =? ctrl 72) || (c =? 127) then
    e ← gets ie; w ← gets iw;
    if e =? w then mret (false, false)
    else
      _ ← modify (fun s => set_input (ibuf s) (ir s) (iw s) (u32 (ie s - 1)) s);
      _ ← consputc BACKSPACE;
      mret (false, false)
  else
    e ← gets ie; r ← gets ir;
    if negb (c =? 0) && (u32 (e - r) <? INPUT_BUF) then
      let c := if c =? 13 then 10 else c in
      b ← gets ibuf;
      b ← pure (arr_set b (e mod INPUT_BUF) (schar c));
      _ ← modify (fun s => set_input b (ir s) (iw s) (u32 (ie s + 1)) s);
      _ ← consputc c;
      e ← gets ie;
      if (c =? 10) || (c =? ctrl 68) || (e =? u32 (r + INPUT_BUF)) then
        _ ← modify (fun s => set_input (ibuf s) (ir s) (ie s) (ie s) s);
        mret (false, true)
      else mret (false, false)
    else mret (false, false).

(** The characters that [getc] returns, up to the first negative one. *)
Fixpoint consoleintr (cs : list Z) : ST console (bool * bool) :=
  match cs with
  | [] => mret (false, false)
  | c :: cs =>
      if c <? 0 then mret (false, false)
      else
        '(d, k) ← intr_char c;
        '(d', k') ← consoleintr cs;
        mret (d || d', k || k')
  end.

(** How a run of [consoleread] ends: returning with [n] not read, killed, or asleep
    with [n] to read. *)
Inductive cend := CDone (n : nat) | CKilled | CSleep (n : nat).

(** A run with [n] characters left of the [target] of the call. *)
Fixpoint consoleread_run (killed : bool) (target : Z) (n : nat) : ST console (list Z * cend) :=
  match n with
  | O => mret ([], CDone 0)
  | S m =>
      r ← gets ir; w ← gets iw;
      if r =? w then mret ([], if killed then CKilled else CSleep n)
      else
        b ← gets ibuf;
        c ← pure (arr_get b (r mod INPUT_BUF));
        _ ← modify (fun s => set_input (ibuf s) (u32 (r + 1)) (iw s) (ie s) s);
        if c =? ctrl 68 then
          _ ← (if Z.of_nat n <? target then modify (fun s => set_input (ibuf s) (u32 (ir s - 1)) (iw s) (ie s) s) else mret ());
          mret ([], CDone n)
        else if c =? 10 then mret ([c], CDone m)
        else '(l, o) ← consoleread_run killed target m; mret (c :: l, o)
  end.

(** What the call returns. *)
Definition read_result (target : Z) (o : cend) : option Z :=
  match o with CDone n => Some (target - Z.of_nat n) | CKilled => Some (-1) | CSleep _ => None end.

(** [panic], up to the loop that freezes the processor. *)
Definition panic (junk : list Z) (lapicid : Z) (msg : list Z) (pcs : list Z) : ST console unit :=
  _ ← cprintf junk (str "lapicid %d: panic: " ++ [0]) [Word (u32 lapicid)];
  _ ← cprintf junk (msg ++ [0]) [];
  _ ← cprintf junk (str "
" ++ [0]) [];
  _ ← foldr (fun pc m => _ ← cprintf junk (str " %p" ++ [0]) [Word pc]; m) (mret ()) pcs;
  modify (fun s => {| crt := crt s; cursor_hi := cursor_hi s; cursor_lo := cursor_lo s; uart := uart s;
    sent_on := sent_on s; panicked := true; ibuf := ibuf s; ir := ir s; iw := iw s; ie := ie s |}).

(** [uartgetc], given the status and the data of the port. *)
Definition uartgetc (present : bool) (st data : Z) : Z :=
  if negb present then -1 else if Z.land st 0x01 =? 0 then -1 else data.
