(* ===== verification/Kbd.v ===== *)
(** * The keyboard: [kbd.c]

    [kbdgetc] turns the scan codes of the keyboard into characters; [shift] is its
    static variable.  What the ports return is an argument. *)

From stdpp Require Import base list strings.
From Stdlib Require Import ZArith Lia.
From S2P Require Import Prelude User Printf State Console.

Definition KBS_DIB : Z := 0x01.
Definition NO : Z := 0.
Definition SHIFT : Z := 1.
Definition CTL : Z := 2.
Definition ALT : Z := 4.
Definition CAPSLOCK : Z := 8.
Definition NUMLOCK : Z := 16.
Definition SCROLLLOCK : Z := 32.
Definition E0ESC : Z := 64.

(** An array of 256 with its first elements and some others given. *)
Definition table (first : list Z) (rest : list (nat * Z)) : list Z :=
  foldl (fun l e => <[e.1 := e.2]> l) (first ++ replicate (256 - length first) NO) rest.

Definition shiftcode : list Z :=
  table [] [(0x1D, CTL); (0x2A, SHIFT); (0x36, SHIFT); (0x38, ALT); (0x9D, CTL); (0xB8, ALT)]%nat.
Definition togglecode : list Z := table [] [(0x3A, CAPSLOCK); (0x45, NUMLOCK); (0x46, SCROLLLOCK)]%nat.

(** The special keys, the same in all maps. *)
Definition special : list (nat * Z) :=
  [(0xC8, 0xE2%Z); (0xD0, 0xE3%Z); (0xC9, 0xE6%Z); (0xD1, 0xE7%Z); (0xCB, 0xE4%Z); (0xCD, 0xE5%Z);
   (0x97, 0xE0%Z); (0xCF, 0xE1%Z); (0xD2, 0xE8%Z); (0xD3, 0xE9%Z)]%nat.

(** The rows of the keypad, from 0x38 on. *)
Definition keypad : list Z :=
  [NO; 32; NO; NO; NO; NO; NO; NO; NO; NO; NO; NO; NO; NO; NO] ++ str "789-456+1230." ++ [NO; NO; NO; NO].

Definition normalmap : list Z :=
  table ([NO; 0x1B] ++ str "1234567890-=" ++ [8; 9] ++ str "qwertyuiop[]" ++ [10; NO] ++ str "asdfghjkl;'`" ++ [NO] ++
         str "\zxcvbnm,./" ++ [NO] ++ str "*" ++ keypad) ([(0x9C, 10%Z); (0xB5, 47%Z)]%nat ++ special).
Definition shiftmap : list Z :=
  table ([NO; 0x1B] ++ str "!@#$%^&*()_+" ++ [8; 9] ++ str "QWERTYUIOP{}" ++ [10; NO] ++ str "ASDFGHJKL:" ++ [34] ++ str "~" ++ [NO] ++
         str "|ZXCVBNM<>?" ++ [NO] ++ str "*" ++ keypad) ([(0x9C, 10%Z); (0xB5, 47%Z)]%nat ++ special).
(** [C(x)] is [x - '@']. *)
Definition ctl (s : string) : list Z := map (fun c => c - 64) (str s).
Definition ctlmap : list Z :=
  table (replicate 16 NO ++ ctl "QWERTYUIOP" ++ [NO; NO; 13; NO] ++ ctl "ASDFGHJKL" ++ [NO; NO; NO; NO] ++
         ctl "\ZXCVBNM" ++ [NO; NO] ++ map u8 (ctl "/") ++ [NO; NO]) ([(0x9C, 13%Z); (0xB5, u8 (47 - 64))]%nat ++ special).

Definition charcode : list (list Z) := [normalmap; shiftmap; ctlmap; ctlmap].

(** The character and [shift]. *)
Definition kbdgetc (shift st data : Z) : res (Z * Z) :=
  if Z.land st KBS_DIB =? 0 then Ok (-1, shift)
  else if data =? 0xE0 then Ok (0, Z.lor shift E0ESC)
  else if negb (Z.land data 0x80 =? 0) then
    let data := if negb (Z.land shift E0ESC =? 0) then data else Z.land data 0x7F in
    s ← arr_get shiftcode data;
    Ok (0, Z.land shift (Z.lnot (Z.lor s E0ESC)))
  else
    let '(data, shift) :=
      if negb (Z.land shift E0ESC =? 0) then (Z.lor data 0x80, Z.land shift (Z.lnot E0ESC)) else (data, shift) in
    s ← arr_get shiftcode data;
    t ← arr_get togglecode data;
    let shift := Z.lxor (Z.lor shift s) t in
    m ← arr_get charcode (Z.land shift (Z.lor CTL SHIFT));
    c ← arr_get m data;
    Ok (if negb (Z.land shift CAPSLOCK =? 0) then
          if (97 <=? c) && (c <=? 122) then c - 32 else if (65 <=? c) && (c <=? 90) then c + 32 else c
        else c, shift).

(** ** Typing *)

(** The characters that [kbdgetc] returns for scan codes, one after the other. *)
Fixpoint typed (shift : Z) (codes : list Z) : res (list Z * Z) :=
  match codes with
  | [] => Ok ([], shift)
  | d :: codes =>
      '(c, shift) ← kbdgetc shift KBS_DIB d;
      '(l, shift) ← typed shift codes;
      Ok (c :: l, shift)
  end.

(** [kbdintr], with the scan codes that wait in the controller; [kbdgetc] returns
    -1 when there are no more. *)
Definition kbdintr (shift : Z) (codes : list Z) : ST console (bool * bool * Z) :=
  '(cs, shift) ← pure (typed shift codes);
  '(c, shift) ← pure (kbdgetc shift 0 0);
  r ← consoleintr (cs ++ [c]);
  mret (r, shift).

Fixpoint index_of (c : Z) (l : list Z) (i : Z) : option Z :=
  match l with
  | [] => None
  | d :: l => if d =? c then Some i else index_of c l (i + 1)
  end.

(** The keys for a character: pressed and released, with shift held if needed. *)
Definition keys_for (c : Z) : list Z :=
  match index_of c normalmap 0 with
  | Some k => [k; Z.lor k 0x80]
  | None => match index_of c shiftmap 0 with
            | Some k => [0x2A; k; Z.lor k 0x80; 0xAA]
            | None => []
            end
  end.

Definition printable (c : Z) : bool := (32 <=? c) && (c <=? 126) || (c =? 9) || (c =? 10).

(** Each key types its character and leaves the state as it was. *)
Lemma keys_for_check : forallb (fun n => let c := Z.of_nat n in
    if printable c then
      match typed 0 (keys_for c) with
      | Ok (l, s) => bool_decide (filter (fun x => x <> 0) l = [c]) && (s =? 0) && forallb (fun x => 0 <=? x) l
      | _ => false
      end
    else true) (seq 0 127) = true.
Proof. vm_compute. reflexivity. Qed.

Lemma keys_for_types c : printable c = true ->
  exists l, typed 0 (keys_for c) = Ok (l, 0) /\ filter (fun x => x <> 0) l = [c] /\ Forall (fun x => 0 <= x) l.
Proof.
  intros Hc. assert (0 <= c < 127) as Hr by (unfold printable in Hc; lia).
  pose proof keys_for_check as H. rewrite forallb_forall in H. specialize (H (Z.to_nat c)). cbv beta zeta in H.
  rewrite Z2Nat.id, Hc in H by lia. specialize (H ltac:(apply in_seq; lia)).
  destruct (typed 0 (keys_for c)) as [[l s]| |]; [|done..].
  apply andb_true_iff in H as [H H3]. apply andb_true_iff in H as [H1 H2]. apply bool_decide_eq_true in H1.
  apply Z.eqb_eq in H2 as ->. exists l. split_and!; [done|done|]. apply Forall_forall. intros x Hx.
  rewrite forallb_forall in H3. specialize (H3 x (proj1 (list_elem_of_In _ _) Hx)). lia.
Qed.

Lemma typed_app shift a b l s : typed shift a = Ok (l, s) ->
  typed shift (a ++ b) = ('(l', s') ← typed s b; Ok (l ++ l', s')).
Proof.
  revert shift l s. induction a as [|d a IH]; intros shift l s H.
  - injection H as <- <-. cbn. by destruct (typed _ b) as [[l' s']| |].
  - cbn in *. apply bind_Ok in H as ((c & sh) & Hc & H). rewrite Hc. cbn.
    apply bind_Ok in H as ((l1 & s1) & H1 & H). injection H as <- <-. rewrite (IH _ _ _ H1).
    cbn. by destruct (typed s1 b) as [[l' s']| |].
Qed.

(** A text, key by key. *)
Lemma typed_text t : forallb printable t = true ->
  exists l, typed 0 (concat (map keys_for t)) = Ok (l, 0) /\ filter (fun x => x <> 0) l = t /\ Forall (fun x => 0 <= x) l.
Proof.
  induction t as [|c t IH]; intros H; [by exists []|]. cbn in H. apply andb_true_iff in H as [Hc Ht].
  destruct (keys_for_types c Hc) as (l & Hl & Hf & Hp). destruct (IH Ht) as (l' & Hl' & Hf' & Hp').
  exists (l ++ l'). cbn [map concat]. rewrite (typed_app _ _ _ _ _ Hl), Hl'. split_and!; [done| |by apply Forall_app].
  by rewrite filter_app, Hf, Hf'.
Qed.
