(* ===== verification/ConsoleScreen.v ===== *)
(** * The screen of the console as a terminal

    The cells and the cursor of Console.v show the text of a terminal of 24 rows. *)

From stdpp Require Import base list strings.
From Stdlib Require Import ZArith Lia.
From S2P Require Import Prelude User Printf State Console.

(** ** The terminal *)

(** The text up to the cursor, in rows of 80.  A backspace moves the cursor back,
    a full screen loses its first row. *)
Definition term_put (t : list Z) (c : Z) : list Z :=
  let t := if c =? 10 then t ++ replicate (80 - length t mod 80) 32
           else if c =? BACKSPACE then take (length t - 1) t
           else t ++ [u8 c] in
  if (24 * 80 <=? length t)%nat then drop 80 t else t.

(** The character a cell shows; cells that were cleared show a space. *)
Definition vis (x : Z) : Z := if x =? 0 then 32 else u8 x.

Definition padded (t : list Z) : list Z := t ++ replicate (1920 - length t) 32.

(** The screen shows [t] and is blank behind it. *)
Definition cells_show (cells t : list Z) : Prop :=
  length cells = 2000%nat /\ (length t <= 1920)%nat /\ map vis (take 1920 cells) = padded t.

Record shows (s : console) (t : list Z) : Prop := {
  sh_hi : cursor_hi s = zlen t / 256;
  sh_lo : cursor_lo s = zlen t mod 256;
  sh_len : (length t < 1920)%nat;
  sh_cells : cells_show (crt s) t;
}.

(** The two registers hold the cursor. *)
Lemma cursor_check : forallb (fun n => let p := Z.of_nat n in
    (Z.lor (Z.shiftl (p / 256) 8) (p mod 256) =? p) && (u8 (Z.shiftr p 8) =? p / 256) && (u8 p =? p mod 256)) (seq 0 1921) = true.
Proof. vm_compute. reflexivity. Qed.

Lemma cell_check : forallb (fun n => let c := Z.of_nat n in vis (Z.lor c 0x0700) =? c) (seq 0 256) = true.
Proof. vm_compute. reflexivity. Qed.

Lemma vis_cell c : vis (Z.lor (Z.land c 0xff) 0x0700) = u8 c.
Proof.
  change 0xff with (Z.ones 8). rewrite Z.land_ones by lia. fold (u8 c). pose proof (u8_range c) as Hr.
  pose proof cell_check as H. rewrite forallb_forall in H. specialize (H (Z.to_nat (u8 c))). cbv beta zeta in H.
  rewrite Z2Nat.id in H by lia. apply Z.eqb_eq, H, in_seq. lia.
Qed.

Lemma cursor_regs p : 0 <= p <= 1920 ->
  Z.lor (Z.shiftl (p / 256) 8) (p mod 256) = p /\ u8 (Z.shiftr p 8) = p / 256 /\ u8 p = p mod 256.
Proof.
  intros Hp. pose proof cursor_check as H. rewrite forallb_forall in H. specialize (H (Z.to_nat p)). cbv beta zeta in H.
  rewrite Z2Nat.id in H by lia. specialize (H ltac:(apply in_seq; lia)).
  apply andb_true_iff in H as [H H3]. apply andb_true_iff in H as [H1 H2].
  apply Z.eqb_eq in H1, H2, H3. done.
Qed.

Lemma padded_length t : (length t <= 1920)%nat -> length (padded t) = 1920%nat.
Proof. intros H. unfold padded. rewrite length_app, length_replicate. lia. Qed.

(** As [cells_show], whatever the cell at the cursor shows. *)
Definition cells_near (cells t : list Z) : Prop :=
  length cells = 2000%nat /\ (length t <= 1920)%nat /\
  exists x, map vis (take 1920 cells) = t ++ take (1920 - length t) [x] ++ replicate (1919 - length t) 32.

Lemma show_near cells t : cells_show cells t -> cells_near cells t.
Proof.
  intros (Hl & Ht & Hv). split_and!; [done|done|]. exists 32. rewrite Hv. unfold padded. f_equal.
  destruct (1920 - length t)%nat as [|k] eqn:E; [by replace (1919 - length t)%nat with 0%nat by lia|].
  replace (1919 - length t)%nat with k by lia. cbn. by rewrite take_nil.
Qed.

(** Setting the cell at the end of the text. *)
Lemma cells_set cells t x : cells_near cells t -> (length t < 1920)%nat ->
  arr_set cells (zlen t) x = Ok (<[length t := x]> cells) /\
  map vis (take 1920 (<[length t := x]> cells)) = t ++ vis x :: replicate (1919 - length t) 32.
Proof.
  intros (Hl & Ht & y & Hv) Hlt. split.
  - rewrite arr_set_ok by (unfold zlen; lia). unfold zlen. by rewrite Nat2Z.id.
  - rewrite take_insert_lt by lia. etransitivity; [apply (list_fmap_insert vis)|].
    change (vis <$> take 1920 cells) with (map vis (take 1920 cells)). rewrite Hv.
    destruct (1920 - length t)%nat as [|k] eqn:E; [lia|].
    rewrite insert_app_r_alt, Nat.sub_diag by lia. cbn [take]. by rewrite take_nil.
Qed.

(** Moving the cursor there blanks it. *)
Lemma cells_blank cells t : cells_near cells t -> (length t < 1920)%nat ->
  exists cells', arr_set cells (zlen t) (Z.lor 32 0x0700) = Ok cells' /\ cells_show cells' t.
Proof.
  intros H Hlt. destruct (cells_set cells t (Z.lor 32 0x0700) H Hlt) as [E1 E2]. exists (<[length t := Z.lor 32 0x0700]> cells).
  split; [done|]. destruct H as (Hl & Ht & _). split_and!; [by rewrite length_insert|done|]. rewrite E2.
  unfold padded. by replace (1920 - length t)%nat with (S (1919 - length t)) by lia.
Qed.

Lemma cells_put cells t c : cells_show cells t -> (length t < 1920)%nat ->
  exists cells', arr_set cells (zlen t) (Z.lor (Z.land c 0xff) 0x0700) = Ok cells' /\ cells_show cells' (t ++ [u8 c]).
Proof.
  intros H Hlt. destruct (cells_set cells t (Z.lor (Z.land c 0xff) 0x0700) (show_near _ _ H) Hlt) as [E1 E2].
  eexists. split; [exact E1|].
  destruct H as (Hl & Ht & _). split_and!; [by rewrite length_insert|rewrite length_app; cbn; lia|]. rewrite E2, vis_cell.
  unfold padded. rewrite length_app, <- app_assoc. cbn [length app]. do 3 f_equal. lia.
Qed.

(** A full screen scrolls by a row. *)
Lemma scroll_cells cells : length cells = 2000%nat ->
  scroll cells 1840 = Ok (take 1840 (drop 80 cells) ++ replicate 80 0 ++ drop 1920 cells).
Proof.
  intros Hl. unfold scroll. set (rows := take 1840 (drop 80 cells)).
  assert (length rows = 1840%nat) as Hr by (unfold rows; rewrite length_take, length_drop; lia).
  assert (arr_read cells 80 (23 * 80) = Ok rows) as ->.
  { unfold arr_read, zlen. rewrite Hl. reflexivity. }
  cbn [mbind res_bind].
  assert (arr_write cells 0 rows = Ok (rows ++ drop 1840 cells)) as ->.
  { apply arr_write_Ok. unfold zlen. rewrite Hl, Hr. split_and!; [lia|lia|done]. }
  cbn [mbind res_bind]. apply arr_write_Ok. change (Z.to_nat (24 * 80 - 1840)) with 80%nat.
  change (Z.to_nat 1840) with 1840%nat. rewrite length_replicate. unfold zlen.
  rewrite length_app, length_drop, length_replicate, Hr, Hl. split_and!; [lia|lia|].
  rewrite take_app_length' by done. f_equal. f_equal. rewrite drop_app_ge by lia. rewrite drop_drop. f_equal. lia.
Qed.

Lemma cells_scroll cells t : cells_near cells t -> length t = 1920%nat ->
  exists cells', scroll cells 1840 = Ok cells' /\ cells_show cells' (drop 80 t).
Proof.
  intros (Hl & Ht & x & Hv) E. rewrite E in Hv. cbn [Nat.sub take app replicate] in Hv. rewrite app_nil_r in Hv.
  rewrite (scroll_cells _ Hl). eexists. split; [reflexivity|].
  assert (length (take 1840 (drop 80 cells)) = 1840%nat) as Hr by (rewrite length_take, length_drop; lia).
  split_and!; [rewrite !length_app, length_replicate, length_drop; lia|rewrite length_drop; lia|].
  rewrite app_assoc, take_app_length' by (rewrite length_app, length_replicate; lia).
  rewrite map_app. unfold padded. rewrite length_drop, E. f_equal.
  rewrite <- Hv. symmetry. etransitivity; [symmetry; apply (fmap_drop vis)|]. by rewrite skipn_firstn_comm.
Qed.

(** What [term_put] does when the cursor moves to the end of [t]. *)
Definition term_move (t : list Z) : list Z := if (24 * 80 <=? length t)%nat then drop 80 t else t.

Lemma cgamove_shows s cells t : cells_near cells t ->
  exists cells' hi lo, cgamove cells (zlen t) s = Ok ((), set_screen cells' hi lo s) /\
    shows (set_screen cells' hi lo s) (term_move t).
Proof.
  intros Hc. pose proof Hc as (Hl & Ht & _). unfold cgamove, term_move. change (24 * 80)%nat with 1920%nat.
  assert (0 <= zlen t <= 1920) as Hz by (unfold zlen; lia).
  rewrite (proj2 (Z.ltb_ge (zlen t) 0)), (proj2 (Z.ltb_ge (25 * 80) (zlen t))) by lia. cbn [orb].
  assert (exists cells1, (if 24 <=? zlen t / 80 then cells ← scroll cells (zlen t - 80); Ok (cells, zlen t - 80)
      else Ok (cells, zlen t)) = Ok (cells1, zlen (term_move t)) /\
    cells_near cells1 (term_move t) /\ (length (term_move t) < 1920)%nat) as (cells1 & E & Hc1 & Hlt).
  { unfold term_move. change (24 * 80)%nat with 1920%nat. destruct (Nat.leb_spec 1920 (length t)) as [Hge|Hlt].
    - assert (length t = 1920%nat) as Hf by lia. assert (zlen t = 1920) as -> by (unfold zlen; lia).
      destruct (cells_scroll cells t Hc Hf) as (c1 & E & H1). exists c1.
      change (1920 - 80) with 1840. rewrite E. assert (zlen (drop 80 t) = 1840) as -> by (unfold zlen; rewrite length_drop; lia).
      split_and!; [done|by apply show_near|rewrite length_drop; lia].
    - exists cells. rewrite (proj2 (Z.leb_gt 24 (zlen t / 80))); [done|].
      apply Z.div_lt_upper_bound; unfold zlen; lia. }
  fold (term_move t). rewrite E. rewrite (bind_run _ _ s (cells1, zlen (term_move t)) s eq_refl). cbv beta iota.
  destruct (cells_blank cells1 _ Hc1 Hlt) as (cells2 & E2 & Hc2). rewrite E2.
  rewrite (bind_run _ _ s cells2 s eq_refl). do 3 eexists. split; [reflexivity|].
  destruct (cursor_regs (zlen (term_move t))) as (_ & Eh & El); [unfold zlen; lia|]. rewrite Eh, El. by constructor.
Qed.

Lemma cells_pad cells t n : cells_show cells t -> (length t + n <= 1920)%nat -> cells_show cells (t ++ replicate n 32).
Proof.
  intros (Hl & Ht & Hv) Hn. split_and!; [done|rewrite length_app, length_replicate; lia|].
  rewrite Hv. unfold padded. rewrite length_app, length_replicate, <- app_assoc, <- replicate_add. do 2 f_equal. lia.
Qed.

(** The cursor and the cells after a character; moving back leaves the last
    character on the screen until [cgamove] blanks it. *)
Lemma cgaputc_shows s t c : shows s t ->
  exists cells hi lo, cgaputc c s = Ok ((), set_screen cells hi lo s) /\ shows (set_screen cells hi lo s) (term_put t c).
Proof.
  intros [Hhi Hlo Hlt Hc]. unfold cgaputc.
  rewrite (bind_run _ _ s (cursor_hi s) s eq_refl), (bind_run _ _ s (cursor_lo s) s eq_refl).
  assert (0 <= zlen t < 1920) as Hz by (unfold zlen; lia).
  rewrite Hhi, Hlo, (proj1 (cursor_regs (zlen t) ltac:(lia))). cbv zeta. rewrite (bind_run _ _ s (crt s) s eq_refl).
  unfold term_put. destruct (Z.eqb_spec c 10) as [->|H10].
  - pose proof (Nat.mod_upper_bound (length t) 80 ltac:(lia)) as Hm.
    assert (length t mod 80 + 80 * (length t / 80) = length t)%nat as Hd by (pose proof (Nat.div_mod_eq (length t) 80); lia).
    replace (zlen t + (80 - zlen t mod 80)) with (zlen (t ++ replicate (80 - length t mod 80) 32)).
    2: { rewrite zlen_app. unfold zlen. rewrite length_replicate, Nat2Z.inj_sub, Nat2Z.inj_mod by lia. lia. }
    apply (cgamove_shows s (crt s)), show_near, cells_pad; [done|].
    assert (length t / 80 < 24)%nat by (apply Nat.Div0.div_lt_upper_bound; lia). lia.
  - destruct (Z.eqb_spec c BACKSPACE) as [->|Hb].
    + replace (if 0 <? zlen t then zlen t - 1 else zlen t) with (zlen (take (length t - 1) t)).
      2: { unfold zlen. rewrite length_take. destruct (Z.ltb_spec 0 (Z.of_nat (length t))); lia. }
      apply (cgamove_shows s (crt s)). induction t as [|x t' _] using rev_ind; [by apply show_near|].
      rewrite length_app in *. cbn [length] in *. replace (length t' + 1 - 1)%nat with (length t') by lia.
      rewrite take_app_length. destruct Hc as (Hl & Ht & Hv). split_and!; [done|lia|]. exists x. rewrite Hv.
      unfold padded. rewrite length_app, <- app_assoc. cbn [length]. f_equal.
      replace (1920 - length t')%nat with (S (1919 - length t')) by lia. cbn [take]. rewrite take_nil. cbn [app]. do 2 f_equal. lia.
    + destruct (cells_put (crt s) t c Hc Hlt) as (cells & E & Hp). rewrite E.
      rewrite (bind_run _ _ s cells s eq_refl). replace (zlen t + 1) with (zlen (t ++ [u8 c])) by (rewrite zlen_app; done).
      by apply cgamove_shows, show_near.
Qed.
