(* ===== verification/ConsoleProofs.v ===== *)
(** * The console as a terminal and a line editor

    Refinement of Console.v: what is printed appears on a terminal of 24 rows,
    and input is the queue of the lines entered with the line being edited. *)

From stdpp Require Import base list strings.
From Stdlib Require Import ZArith Lia.
From S2P Require Import Prelude User Printf State Console Kbd ConsoleScreen.

(** ** The abstract console *)

(** The terminal, what went out on the serial port, the characters of the lines
    entered and not read yet, and the line being edited. *)
Record acons := { text : list Z; serial : list Z; entered : list Z; editing : list Z }.

Definition serial_of (u : bool) (c : Z) : list Z :=
  if u then if c =? BACKSPACE then [8; 32; 8] else [u8 c] else [].

Definition aput (u : bool) (c : Z) (a : acons) : acons :=
  {| text := term_put (text a) c; serial := serial a ++ serial_of u c; entered := entered a; editing := editing a |}.

Definition with_lines (q ed : list Z) (a : acons) : acons :=
  {| text := text a; serial := serial a; entered := q; editing := ed |}.

(** A key: killing the line and erasing a character touch only the line being
    edited; other characters are echoed while there is room, and newline, ^D
    and a full buffer enter the line. *)
Definition akey (u : bool) (c : Z) (a : acons) : acons * (bool * bool) :=
  if c =? ctrl 80 then (a, (true, false))
  else if c =? ctrl 85 then
    (with_lines (entered a) [] (Nat.iter (length (editing a)) (aput u BACKSPACE) a), (false, false))
  else if (c =? ctrl 72) || (c =? 127) then
    (if decide (editing a = []) then a
     else with_lines (entered a) (take (length (editing a) - 1) (editing a)) (aput u BACKSPACE a), (false, false))
  else if negb (c =? 0) && (zlen (entered a ++ editing a) <? INPUT_BUF) then
    let c := if c =? 13 then 10 else c in
    let ed := editing a ++ [schar c] in
    if (c =? 10) || (c =? ctrl 68) || (zlen (entered a ++ ed) =? INPUT_BUF) then
      (with_lines (entered a ++ ed) [] (aput u c a), (false, true))
    else (with_lines (entered a) ed (aput u c a), (false, false))
  else (a, (false, false)).

Fixpoint akeys (u : bool) (cs : list Z) (a : acons) : acons * (bool * bool) :=
  match cs with
  | [] => (a, (false, false))
  | c :: cs =>
      if c <? 0 then (a, (false, false))
      else
        let '(a, (d, k)) := akey u c a in
        let '(a, (d', k')) := akeys u cs a in
        (a, (d || d', k || k'))
  end.

(** A run of a read on the characters entered; what is left of them. *)
Fixpoint aread (killed : bool) (target : Z) (n : nat) (q : list Z) : list Z * cend * list Z :=
  match n, q with
  | O, _ => ([], CDone 0, q)
  | S _, [] => ([], if killed then CKilled else CSleep n, [])
  | S m, c :: q' =>
      if c =? ctrl 68 then ([], CDone n, if Z.of_nat n <? target then q else q')
      else if c =? 10 then ([c], CDone m, q')
      else let '(l, o, r) := aread killed target m q' in (c :: l, o, r)
  end.

(** ** Refinement *)

Record input_ok (s : console) (q ed : list Z) : Prop := {
  i_len : zlen (ibuf s) = INPUT_BUF;
  i_r : 0 <= ir s < 2 ^ 32;
  i_w : iw s = u32 (ir s + zlen q);
  i_e : ie s = u32 (ir s + zlen (q ++ ed));
  i_fits : zlen (q ++ ed) <= INPUT_BUF;
  i_data : forall i c, (q ++ ed) !! i = Some c -> arr_get (ibuf s) ((ir s + Z.of_nat i) mod INPUT_BUF) = Ok c;
}.

Record tracks (u : bool) (s : console) (a : acons) : Prop := {
  rf_shows : shows s (text a);
  rf_uart : uart s = u;
  rf_sent : sent_on s = serial a;
  rf_live : panicked s = false;
  rf_input : input_ok s (entered a) (editing a);
}.

(** Between interrupts no newline is in the line being edited. *)
Definition refines (u : bool) (s : console) (a : acons) : Prop :=
  tracks u s a /\ Forall (fun c => c <> 10) (editing a).

Lemma uartputc_run c s : uartputc c s =
  Ok ((), if uart s then set_sent (sent_on s ++ [u8 c]) s else s).
Proof. unfold uartputc. rewrite (bind_run _ _ s (uart s) s eq_refl). by destruct (uart s). Qed.

(** A character goes to the screen and to the serial port, and nothing else
    changes. *)
Lemma consputc_spec u s t l c : shows s t -> uart s = u -> sent_on s = l -> panicked s = false ->
  exists s', consputc c s = Ok ((), s') /\ shows s' (term_put t c) /\ uart s' = u /\ sent_on s' = l ++ serial_of u c /\
    panicked s' = false /\ ibuf s' = ibuf s /\ ir s' = ir s /\ iw s' = iw s /\ ie s' = ie s.
Proof.
  intros Hs Hu Hl Hp. unfold consputc. rewrite (bind_run _ _ s false s) by (unfold gets; by rewrite Hp).
  set (s1 := set_sent (l ++ serial_of u c) s).
  assert ((if c =? BACKSPACE then _ ← uartputc 8; _ ← uartputc 32; uartputc 8 else uartputc c) s = Ok ((), s1)) as E.
  { unfold s1, serial_of. destruct u.
    - assert (forall d s0, uart s0 = true -> uartputc d s0 = Ok ((), set_sent (sent_on s0 ++ [u8 d]) s0)) as Hput.
      { intros d s0 H0. by rewrite uartputc_run, H0. }
      destruct (c =? BACKSPACE); [|by rewrite Hput, Hl by done].
      rewrite (bind_run _ _ _ _ _ (Hput 8 s Hu)), (bind_run _ _ _ _ _ (Hput 32 (set_sent _ s) Hu)), Hput by done.
      unfold set_sent. cbn -[app]. rewrite Hl, <- !app_assoc. done.
    - assert (forall d, uartputc d s = Ok ((), s)) as Hput by (intros d; by rewrite uartputc_run, Hu).
      assert (set_sent (l ++ []) s = s) as -> by (rewrite app_nil_r, <- Hl; by destruct s).
      destruct (c =? BACKSPACE); [|done]. by rewrite !(bind_run _ _ _ _ _ (Hput _)). }
  rewrite (bind_run _ _ _ _ _ E). cbv beta iota.
  assert (shows s1 t) as Hs1 by (destruct Hs; by constructor).
  destruct (cgaputc_shows s1 t c Hs1) as (cells & hi & lo & -> & Hs'). eexists. split; [reflexivity|].
  by split_and!.
Qed.

Lemma tracks_put u s a c : tracks u s a ->
  exists s', consputc c s = Ok ((), s') /\ tracks u s' (aput u c a).
Proof.
  intros [H1 H2 H3 H4 H5]. destruct (consputc_spec u s _ _ c H1 H2 H3 H4) as (s' & E & ? & ? & ? & ? & Eb & Er & Ew & Ee).
  exists s'. split; [done|]. constructor; try done. destruct H5. constructor; rewrite ?Eb, ?Er, ?Ew, ?Ee; done.
Qed.

(** *** The ring buffer *)

Lemma u32_mod_input z : u32 z mod INPUT_BUF = z mod INPUT_BUF.
Proof. unfold u32, INPUT_BUF. apply Z.mod_mod_divide. exists (2 ^ 25). reflexivity. Qed.

Lemma u32_sub_l a b : u32 (u32 a - b) = u32 (a - b).
Proof. unfold u32. by rewrite Zminus_mod_idemp_l. Qed.

Section ring.
Context (s : console) (q ed : list Z).

Lemma input_empty : input_ok s q ed -> (ie s = iw s <-> ed = []).
Proof.
  intros [Hl Hr Hw He Hf _]. rewrite zlen_app in *. unfold INPUT_BUF in Hf.
  pose proof (zlen_nonneg q). pose proof (zlen_nonneg ed). rewrite He, Hw. split.
  - intros E. apply u32_add_inj in E; [|lia..]. destruct ed; [done|]. rewrite zlen_cons in E. pose proof (zlen_nonneg l). lia.
  - intros ->. by rewrite Z.add_0_r.
Qed.

Lemma input_none : input_ok s q ed -> (ir s = iw s <-> q = []).
Proof.
  intros [Hl Hr Hw He Hf _]. rewrite zlen_app in *. unfold INPUT_BUF in Hf.
  pose proof (zlen_nonneg q). pose proof (zlen_nonneg ed). rewrite Hw. split.
  - intros E. rewrite <- (u32_small (ir s)) in E at 1 by lia. rewrite <- (Z.add_0_r (ir s)) in E at 1.
    apply u32_add_inj in E; [|lia..]. destruct q; [done|]. rewrite zlen_cons in E. pose proof (zlen_nonneg l). lia.
  - intros ->. by rewrite Z.add_0_r, u32_small.
Qed.

Lemma input_count : input_ok s q ed -> u32 (ie s - ir s) = zlen (q ++ ed).
Proof.
  intros [Hl Hr Hw He Hf _]. unfold INPUT_BUF in Hf. pose proof (zlen_nonneg (q ++ ed)).
  rewrite He, u32_sub_l. replace (ir s + zlen (q ++ ed) - ir s) with (zlen (q ++ ed)) by lia. apply u32_small. lia.
Qed.

Lemma input_full : input_ok s q ed -> (ie s = u32 (ir s + INPUT_BUF) <-> zlen (q ++ ed) = INPUT_BUF).
Proof.
  intros [Hl Hr Hw He Hf _]. rewrite He. unfold INPUT_BUF in *. pose proof (zlen_nonneg (q ++ ed)). split; [|by intros ->].
  intros E. apply u32_add_inj in E; lia.
Qed.

Lemma input_add x : input_ok s q ed -> zlen (q ++ ed) < INPUT_BUF ->
  exists b, arr_set (ibuf s) (ie s mod INPUT_BUF) x = Ok b /\
    input_ok (set_input b (ir s) (iw s) (u32 (ie s + 1)) s) q (ed ++ [x]).
Proof.
  intros [Hl Hr Hw He Hf Hd] Hlt. pose proof (zlen_nonneg (q ++ ed)) as H0.
  assert (0 <= ie s mod INPUT_BUF < INPUT_BUF) as Hb by (apply Z.mod_pos_bound; unfold INPUT_BUF; lia).
  destruct (arr_set (ibuf s) (ie s mod INPUT_BUF) x) as [b| |] eqn:E; [|by rewrite arr_set_ok in E by lia..].
  exists b. split; [done|].
  constructor; cbn [ibuf ir iw ie set_input]; rewrite ?app_assoc, ?(zlen_app _ [x]); change (zlen [x]) with 1;
    [by rewrite (arr_set_len _ _ _ _ E)|done|done| |lia|].
  - rewrite He, u32_add_l. f_equal. lia.
  - intros i c Hi. rewrite (arr_get_set _ _ _ _ _ E), He, u32_mod_input. apply lookup_app_Some in Hi as [Hi|[Hge Hi]].
    + apply lookup_lt_Some in Hi as Hil. destruct (Z.eqb_spec ((ir s + Z.of_nat i) mod INPUT_BUF)
        ((ir s + zlen (q ++ ed)) mod INPUT_BUF)) as [Heq|]; [|by apply Hd]. exfalso.
      assert ((ir s + zlen (q ++ ed) - (ir s + Z.of_nat i)) mod INPUT_BUF = 0) as E2 by (by rewrite Zminus_mod, Heq, Z.sub_diag).
      unfold zlen, INPUT_BUF in *. rewrite Z.mod_small in E2 by lia. lia.
    + apply list_lookup_singleton_Some in Hi as [Hi ->]. unfold zlen.
      replace (Z.of_nat i) with (Z.of_nat (length (q ++ ed))) by lia. by rewrite Z.eqb_refl.
Qed.

Lemma input_commit : input_ok s q ed -> input_ok (set_input (ibuf s) (ir s) (ie s) (ie s) s) (q ++ ed) [].
Proof. intros []. constructor; cbn [ibuf ir iw ie set_input]; rewrite ?app_nil_r; done. Qed.

Lemma input_erase x : input_ok s q (ed ++ [x]) ->
  arr_get (ibuf s) (u32 (ie s - 1) mod INPUT_BUF) = Ok x /\
  input_ok (set_input (ibuf s) (ir s) (iw s) (u32 (ie s - 1)) s) q ed.
Proof.
  intros [Hl Hr Hw He Hf Hd]. rewrite app_assoc in *. rewrite (zlen_app _ [x]) in *. change (zlen [x]) with 1 in *.
  assert (u32 (ie s - 1) = u32 (ir s + zlen (q ++ ed))) as E1.
  { rewrite He, u32_sub_l. f_equal. lia. }
  split.
  - rewrite E1, u32_mod_input. apply Hd. unfold zlen. by rewrite list_lookup_middle.
  - constructor; cbn [ibuf ir iw ie set_input]; [done|done|done|done|lia|].
    intros i c Hi. apply Hd. by apply lookup_app_l_Some.
Qed.

End ring.

Lemma input_take s c q ed : input_ok s (c :: q) ed ->
  arr_get (ibuf s) (ir s mod INPUT_BUF) = Ok c /\
  input_ok (set_input (ibuf s) (u32 (ir s + 1)) (iw s) (ie s) s) q ed.
Proof.
  intros [Hl Hr Hw He Hf Hd]. cbn [app] in *. rewrite zlen_cons in *. split.
  - rewrite <- (Hd 0%nat c eq_refl). do 2 f_equal. lia.
  - constructor; cbn [ibuf ir iw ie set_input]; [done|apply u32_range| | |lia|].
    + rewrite Hw, u32_add_l. f_equal. lia.
    + rewrite He, u32_add_l. f_equal. lia.
    + intros i x Hi. rewrite <- Zplus_mod_idemp_l, u32_mod_input, Zplus_mod_idemp_l.
      rewrite <- (Hd (S i) x Hi). do 2 f_equal. lia.
Qed.

(** *** The line editor *)

Lemma set_input_set b r w e b' r' w' e' s : set_input b r w e (set_input b' r' w' e' s) = set_input b r w e s.
Proof. done. Qed.

(** Only the input changes. *)
Lemma tracks_input u s a b r w e q ed : tracks u s a ->
  input_ok (set_input b r w e s) q ed -> tracks u (set_input b r w e s) (with_lines q ed a).
Proof. intros [[] ? ? ? _] H1. by constructor. Qed.

(** Erasing a character. *)
Lemma erase_spec u s a x ed : refines u s a -> editing a = ed ++ [x] ->
  exists s', consputc BACKSPACE (set_input (ibuf s) (ir s) (iw s) (u32 (ie s - 1)) s) = Ok ((), s') /\
    refines u s' (with_lines (entered a) ed (aput u BACKSPACE a)).
Proof.
  intros [H Hn] Hed. pose proof (rf_input _ _ _ H) as Hi. rewrite Hed in Hi, Hn.
  apply input_erase in Hi as [_ Hi]. apply Forall_app in Hn as [Hn _].
  destruct (tracks_put _ _ _ BACKSPACE (tracks_input _ _ _ _ _ _ _ _ _ H Hi)) as (s' & E & H').
  exists s'. by split.
Qed.

Lemma iter_put_lines u c n q ed q' ed' a :
  with_lines q ed (Nat.iter n (aput u c) (with_lines q' ed' a)) = with_lines q ed (Nat.iter n (aput u c) a).
Proof.
  assert (Nat.iter n (aput u c) (with_lines q' ed' a) = with_lines q' ed' (Nat.iter n (aput u c) a)) as ->; [|done].
  induction n as [|n IH]; [done|]. by rewrite !Nat.iter_succ, IH.
Qed.

Lemma kill_line_spec u n s a : refines u s a -> length (editing a) = n ->
  forall fuel, (n < fuel)%nat -> exists s', kill_line fuel s = Ok ((), s') /\
    refines u s' (with_lines (entered a) [] (Nat.iter n (aput u BACKSPACE) a)).
Proof.
  revert s a. induction n as [|n IH]; intros s a H Hlen fuel Hfuel; (destruct fuel as [|fuel]; [lia|]); cbn [kill_line];
    rewrite (bind_run _ _ s (ie s) s eq_refl), (bind_run _ _ s (iw s) s eq_refl);
    pose proof (input_empty _ _ _ (rf_input _ _ _ (proj1 H))) as He.
  - apply nil_length_inv in Hlen as Ed. rewrite (proj2 (Z.eqb_eq _ _)) by (by apply He).
    exists s. split; [done|]. destruct a. cbn in *. by subst.
  - destruct (exists_last (l := editing a)) as (ed & x & Ed); [by destruct (editing a)|].
    rewrite Ed, length_app in Hlen. cbn in Hlen.
    rewrite (proj2 (Z.eqb_neq _ _)) by (intros E; apply He in E; rewrite Ed in E; by destruct ed).
    pose proof (rf_input _ _ _ (proj1 H)) as Hi. rewrite Ed in Hi. apply input_erase in Hi as [Hx _].
    rewrite (bind_run _ _ s (ibuf s) s eq_refl), (bind_run _ _ s x s) by (unfold pure; by rewrite Hx).
    pose proof (proj2 H) as Hn. rewrite Ed in Hn. apply Forall_app in Hn as [Hn Hx10]. apply Forall_inv in Hx10.
    rewrite (proj2 (Z.eqb_neq x 10)) by done.
    destruct (erase_spec u s a x ed H Ed) as (s1 & E1 & H1).
    rewrite (bind_run (modify _) _ s () _ eq_refl), (bind_run _ _ _ _ _ E1).
    destruct (IH s1 _ H1) with (fuel := fuel) as (s' & E & H'); [cbn; lia|lia|]. exists s'. split; [done|].
    cbn [entered editing with_lines] in H'. rewrite iter_put_lines in H'. by rewrite Nat.iter_succ_r.
Qed.

(** A character of the line, with room for it. *)
Lemma enter_spec u s a c : refines u s a -> is_byte c -> zlen (entered a ++ editing a) < INPUT_BUF ->
  let ed := editing a ++ [schar c] in
  exists s', (
      b ← gets ibuf;
      b ← pure (arr_set b (ie s mod INPUT_BUF) (schar c));
      _ ← modify (fun s => set_input b (ir s) (iw s) (u32 (ie s + 1)) s);
      _ ← consputc c;
      e ← gets ie;
      if (c =? 10) || (c =? ctrl 68) || (e =? u32 (ir s + INPUT_BUF)) then
        _ ← modify (fun s => set_input (ibuf s) (ir s) (ie s) (ie s) s);
        mret (false, true)
      else mret (false, false)) s =
    Ok ((false, (c =? 10) || (c =? ctrl 68) || (zlen (entered a ++ ed) =? INPUT_BUF)), s') /\
    refines u s' (if (c =? 10) || (c =? ctrl 68) || (zlen (entered a ++ ed) =? INPUT_BUF)
                  then with_lines (entered a ++ ed) [] (aput u c a) else with_lines (entered a) ed (aput u c a)).
Proof.
  intros [H Hn] Hc Hroom ed. rewrite (bind_run _ _ s (ibuf s) s eq_refl).
  destruct (input_add _ _ _ (schar c) (rf_input _ _ _ H) Hroom) as (b & Eb & Hi1).
  rewrite (bind_run _ _ s b s) by (unfold pure; by rewrite Eb). rewrite (bind_run (modify _) _ s () _ eq_refl).
  destruct (tracks_put _ _ _ c (tracks_input _ _ _ _ _ _ _ _ _ H Hi1)) as (s1 & E1 & H1).
  pose proof (rf_input _ _ _ H1) as Hi. cbn [entered editing aput with_lines] in Hi. fold ed in H1, Hi.
  rewrite (bind_run _ _ _ _ _ E1), (bind_run _ _ s1 (ie s1) s1 eq_refl).
  assert (ir s1 = ir s) as Er by (destruct (consputc_spec u _ _ _ c (rf_shows _ _ _ (tracks_input _ _ _ _ _ _ _ _ _ H Hi1)) (rf_uart _ _ _ H) eq_refl (rf_live _ _ _ H))
    as (s2 & E2 & _ & _ & _ & _ & _ & Er & _); rewrite E1 in E2; injection E2 as <-; done).
  replace (ie s1 =? u32 (ir s + INPUT_BUF)) with (zlen (entered a ++ ed) =? INPUT_BUF).
  2: { rewrite <- Er. apply eq_true_iff_eq. rewrite !Z.eqb_eq. symmetry. by apply input_full. }
  destruct ((c =? 10) || (c =? ctrl 68) || (zlen (entered a ++ ed) =? INPUT_BUF)) eqn:Eg.
  - eexists. split; [by rewrite (bind_run (modify _) _ s1 () _ eq_refl)|]. split; [|done].
    exact (tracks_input _ _ _ _ _ _ _ _ _ H1 (input_commit _ _ _ Hi)).
  - exists s1. split; [done|]. split; [exact H1|]. apply Forall_app. split; [done|]. apply Forall_singleton.
    apply orb_false_iff in Eg as [Eg _]. apply orb_false_iff in Eg as [Eg _]. apply Z.eqb_neq in Eg.
    unfold is_byte in Hc. unfold schar, u8. rewrite Z.mod_small by lia. destruct (Z.ltb_spec c (2 ^ 7)); lia.
Qed.

(** A key does what the abstract editor does. *)
Lemma intr_char_spec u s a c : refines u s a -> is_byte c ->
  exists s', intr_char c s = Ok ((akey u c a).2, s') /\ refines u s' (akey u c a).1.
Proof.
  intros H Hc. pose proof (rf_input _ _ _ (proj1 H)) as Hi. pose proof (input_empty _ _ _ Hi) as He. unfold intr_char, akey.
  destruct (c =? ctrl 80); [by exists s|]. destruct (c =? ctrl 85).
  { rewrite (bind_run _ _ s (ie s) s eq_refl), (bind_run _ _ s (iw s) s eq_refl).
    destruct (kill_line_spec u _ s a H eq_refl (S (Z.to_nat (u32 (ie s - iw s))))) as (s' & E & H').
    { destruct Hi as [_ Hr Hw Hie Hf _]. rewrite Hie, Hw, zlen_app in *. unfold INPUT_BUF in Hf.
      pose proof (zlen_nonneg (entered a)). pose proof (zlen_nonneg (editing a)).
      unfold u32. rewrite <- Zminus_mod. replace (_ - _) with (zlen (editing a)) by lia.
      rewrite Z.mod_small by lia. unfold zlen. lia. }
    exists s'. split; [|done]. by rewrite (bind_run _ _ _ _ _ E). }
  destruct ((c =? ctrl 72) || (c =? 127)).
  { rewrite (bind_run _ _ s (ie s) s eq_refl), (bind_run _ _ s (iw s) s eq_refl). destruct (decide (editing a = [])) as [Ed|Ed].
    - rewrite (proj2 (Z.eqb_eq _ _)) by (by apply He). by exists s.
    - rewrite (proj2 (Z.eqb_neq _ _)) by (intros E; by apply He in E).
      destruct (exists_last Ed) as (ed & x & Ex). destruct (erase_spec u s a x ed H Ex) as (s1 & E1 & H1).
      exists s1. rewrite (bind_run (modify _) _ s () _ eq_refl), (bind_run _ _ _ _ _ E1).
      split; [done|]. cbn [fst]. rewrite Ex, length_app. cbn [length]. replace (length ed + 1 - 1)%nat with (length ed) by lia.
      by rewrite take_app_length. }
  rewrite (bind_run _ _ s (ie s) s eq_refl), (bind_run _ _ s (ir s) s eq_refl), (input_count _ _ _ Hi).
  destruct (negb (c =? 0) && (zlen (entered a ++ editing a) <? INPUT_BUF)) eqn:Eg; [|by exists s].
  apply andb_true_iff in Eg as [_ Hroom]. apply Z.ltb_lt in Hroom. cbv zeta.
  destruct (enter_spec u s a (if c =? 13 then 10 else c) H) as (s' & E & H'); [by destruct (c =? 13)|done|].
  exists s'. rewrite E. by match goal with |- context [if ?b then (_, (false, true)) else _] => destruct b end.
Qed.

Lemma consoleintr_spec u cs s a : refines u s a -> Forall (fun c => c < 256) cs ->
  exists s', consoleintr cs s = Ok ((akeys u cs a).2, s') /\ refines u s' (akeys u cs a).1.
Proof.
  intros H Hcs. revert s a H. induction Hcs as [|c cs Hc _ IH]; intros s a H; cbn [consoleintr akeys]; [by exists s|].
  destruct (Z.ltb_spec c 0) as [|Hp]; [by exists s|].
  destruct (intr_char_spec u s a c H) as (s1 & E1 & H1); [unfold is_byte; lia|].
  rewrite (bind_run _ _ _ _ _ E1). destruct (akey u c a) as [a1 [d k]]. cbn [fst snd] in *.
  destruct (IH s1 a1 H1) as (s2 & E2 & H2). rewrite (bind_run _ _ _ _ _ E2). destruct (akeys u cs a1) as [a2 [d' k']].
  by exists s2.
Qed.

Lemma consoleread_spec u killed target n s a : refines u s a ->
  exists s', consoleread_run killed target n s = Ok ((aread killed target n (entered a)).1, s') /\
    refines u s' (with_lines (aread killed target n (entered a)).2 (editing a) a).
Proof.
  revert s a. induction n as [|n IH]; intros s a H; cbn [consoleread_run aread].
  { exists s. split; [done|]. by destruct a. }
  rewrite (bind_run _ _ s (ir s) s eq_refl), (bind_run _ _ s (iw s) s eq_refl).
  pose proof (rf_input _ _ _ (proj1 H)) as Hi. pose proof (input_none _ _ _ Hi) as He.
  destruct (entered a) as [|c q] eqn:Eq.
  { rewrite (proj2 (Z.eqb_eq _ _)) by (by apply He). exists s. split; [by destruct killed|]. destruct a; cbn in *; by subst. }
  rewrite (proj2 (Z.eqb_neq _ _)) by (intros E; by apply He in E).
  destruct (input_take _ _ _ _ Hi) as [Hc Hi1].
  rewrite (bind_run _ _ s (ibuf s) s eq_refl), (bind_run _ _ s c s) by (unfold pure; by rewrite Hc).
  rewrite (bind_run (modify _) _ s () _ eq_refl).
  assert (refines u (set_input (ibuf s) (u32 (ir s + 1)) (iw s) (ie s) s) (with_lines q (editing a) a)) as H1.
  { split; [by apply tracks_input; [apply H|]|apply H]. }
  destruct (c =? ctrl 68).
  - destruct (Z.of_nat (S n) <? target); [|by eexists].
    rewrite (bind_run (modify _) _ _ () _ eq_refl). eexists. split; [reflexivity|]. cbn [ibuf ir iw ie set_input].
    rewrite set_input_set, u32_sub_l. replace (ir s + 1 - 1) with (ir s) by lia.
    rewrite u32_small by apply Hi. destruct a, s; cbn in *; by subst.
  - destruct (c =? 10); [by eexists|]. destruct (IH _ _ H1) as (s' & E & H'). rewrite (bind_run _ _ _ _ _ E).
    cbn [entered editing with_lines] in *. destruct (aread killed target n q) as [[l o] r]. by exists s'.
Qed.

Lemma consolewrite_spec u bs s a : refines u s a ->
  exists s', consolewrite bs s = Ok (zlen bs, s') /\ refines u s' (foldl (fun a b => aput u (u8 b) a) a bs).
Proof.
  intros H. assert (exists s', consolewrite_loop bs s = Ok ((), s') /\ refines u s' (foldl (fun a b => aput u (u8 b) a) a bs)) as (s' & E & H').
  { revert s a H. induction bs as [|b bs IH]; intros s a H; cbn [consolewrite_loop foldl]; [by exists s|].
    change 0xff with (Z.ones 8). rewrite Z.land_ones by lia. fold (u8 b).
    destruct (tracks_put u s a (u8 b) (proj1 H)) as (s1 & E1 & H1). rewrite (bind_run _ _ _ _ _ E1).
    apply IH. split; [done|apply H]. }
  exists s'. split; [|done]. unfold consolewrite. by rewrite (bind_run _ _ _ _ _ E).
Qed.

(** ** Any sequence of interrupts, reads and writes *)

Inductive action :=
| AIntr (cs : list Z)
| ARead (killed : bool) (target : Z) (n : nat)
| AWrite (bs : list Z).

Inductive outcome := OIntr (r : bool * bool) | ORead (r : list Z * cend) | OWrite (n : Z).

Definition cstep (x : action) : ST console outcome :=
  match x with
  | AIntr cs => r ← consoleintr cs; mret (OIntr r)
  | ARead killed target n => r ← consoleread_run killed target n; mret (ORead r)
  | AWrite bs => n ← consolewrite bs; mret (OWrite n)
  end.

Definition astep (u : bool) (x : action) (a : acons) : acons * outcome :=
  match x with
  | AIntr cs => let r := akeys u cs a in (r.1, OIntr r.2)
  | ARead killed target n =>
      let r := aread killed target n (entered a) in (with_lines r.2 (editing a) a, ORead r.1)
  | AWrite bs => (foldl (fun a b => aput u (u8 b) a) a bs, OWrite (zlen bs))
  end.

Fixpoint crun (xs : list action) : ST console (list outcome) :=
  match xs with
  | [] => mret []
  | x :: xs => o ← cstep x; os ← crun xs; mret (o :: os)
  end.

Fixpoint arun (u : bool) (xs : list action) (a : acons) : acons * list outcome :=
  match xs with
  | [] => (a, [])
  | x :: xs => let r := astep u x a in let r' := arun u xs r.1 in (r'.1, r.2 :: r'.2)
  end.

(** The characters of an interrupt are bytes or the end. *)
Definition action_ok (x : action) : Prop :=
  match x with AIntr cs => Forall (fun c => c < 256) cs | _ => True end.

(** How many readers sleep on [input.r]. *)
Definition asleep (n : nat) (o : outcome) : nat :=
  match o with
  | OIntr (_, true) => 0
  | ORead (_, CSleep _) => S n
  | _ => n
  end.

Lemma cstep_spec u s a x : refines u s a -> action_ok x ->
  exists s', cstep x s = Ok ((astep u x a).2, s') /\ refines u s' (astep u x a).1.
Proof.
  intros H Hx. destruct x as [cs|killed target n|bs]; cbn [cstep astep action_ok fst snd] in *.
  - destruct (consoleintr_spec u cs s a H Hx) as (s' & E & H'). exists s'. by rewrite (bind_run _ _ _ _ _ E).
  - destruct (consoleread_spec u killed target n s a H) as (s' & E & H'). exists s'. by rewrite (bind_run _ _ _ _ _ E).
  - destruct (consolewrite_spec u bs s a H) as (s' & E & H'). exists s'. by rewrite (bind_run _ _ _ _ _ E).
Qed.

(** Keys that change the lines entered wake the readers. *)
Lemma akey_wakes u c a : entered (akey u c a).1 = entered a \/ (akey u c a).2.2 = true.
Proof.
  unfold akey. repeat case_match; try (by left); try (by right); left; cbn; try done.
Qed.

Lemma akeys_wakes u cs a : entered (akeys u cs a).1 = entered a \/ (akeys u cs a).2.2 = true.
Proof.
  revert a. induction cs as [|c cs IH]; intros a; cbn [akeys]; [by left|]. destruct (c <? 0); [by left|].
  pose proof (akey_wakes u c a) as Hk. destruct (akey u c a) as [a1 [d k]]. cbn [fst snd] in Hk.
  specialize (IH a1). destruct (akeys u cs a1) as [a2 [d' k']]. cbn [fst snd] in *.
  destruct IH as [->| ->]; [|by right; rewrite orb_true_r]. destruct Hk as [->| ->]; [by left|by right].
Qed.

Lemma aput_entered u bs a : entered (foldl (fun a b => aput u (u8 b) a) a bs) = entered a.
Proof. revert a. induction bs as [|b bs IH]; intros a; [done|]. cbn. by rewrite IH. Qed.

(** A read that sleeps has taken everything. *)
Lemma aread_sleeps killed target n q l k r : aread killed target n q = (l, CSleep k, r) -> r = [].
Proof.
  revert q l r. induction n as [|n IH]; intros q l r; cbn [aread]; [by intros [=]|]. destruct q as [|c q].
  - by intros [=].
  - destruct (c =? ctrl 68); [by intros [=]|]. destruct (c =? 10); [by intros [=]|].
    destruct (aread killed target n q) as [[l' o'] r'] eqn:E. intros [= <- -> <-]. by eapply IH.
Qed.

Lemma aread_nil killed target n : (aread killed target n []).2 = [].
Proof. by destruct n. Qed.

Lemma astep_asleep u x a n : ((0 < n)%nat -> entered a = []) ->
  (0 < asleep n (astep u x a).2)%nat -> entered (astep u x a).1 = [].
Proof.
  intros Hn. destruct x as [cs|killed target m|bs]; cbn [astep fst snd asleep].
  - destruct (akeys_wakes u cs a) as [E|E]; destruct (akeys u cs a) as [a' [d k]]; cbn [fst snd] in *.
    + rewrite E. destruct k; cbn; [lia|done].
    + subst k. cbn. lia.
  - destruct (aread killed target m (entered a)) as [[l o] r] eqn:E. cbn [fst snd entered with_lines].
    assert ((0 < n)%nat -> r = []) as Hr.
    { intros Hp. rewrite (Hn Hp) in E. pose proof (aread_nil killed target m) as H0. by rewrite E in H0. }
    destruct o; cbn [asleep]; [done|done|]. intros _. by eapply aread_sleeps.
  - rewrite aput_entered. done.
Qed.

(** C13. Whatever interrupts, reads and writes reach the console, in any order,
    it never faults and never panics, and behaves as the abstract console: the
    screen shows the text printed and echoed, the serial port carries the same,
    reads return the characters of the lines entered, in order and up to the end
    of a line, and editing never reaches a line that was entered.  Readers sleep
    only while nothing entered is left to read. *)
Theorem console_refines u s a xs :
  refines u s a -> Forall action_ok xs ->
  exists s', crun xs s = Ok ((arun u xs a).2, s') /\ refines u s' (arun u xs a).1 /\
    ((0 < foldl asleep 0 (arun u xs a).2)%nat -> ir s' = iw s').
Proof.
  intros H Hxs. assert (forall n, ((0 < n)%nat -> entered a = []) ->
    exists s', crun xs s = Ok ((arun u xs a).2, s') /\ refines u s' (arun u xs a).1 /\
    ((0 < foldl asleep n (arun u xs a).2)%nat -> entered (arun u xs a).1 = [])) as Hall.
  { revert s a H. induction Hxs as [|x xs Hx _ IH]; intros s a H n Hn; cbn [crun arun fst snd foldl]; [by exists s|].
    destruct (cstep_spec u s a x H Hx) as (s1 & E1 & H1).
    destruct (IH s1 _ H1 (asleep n (astep u x a).2)) as (s2 & E2 & H2 & H3); [by apply astep_asleep|].
    exists s2. rewrite (bind_run _ _ _ _ _ E1), (bind_run _ _ _ _ _ E2). done. }
  destruct (Hall 0%nat) as (s' & E & Hr & Hw); [lia|]. exists s'. split_and!; [done|done|].
  intros Hp. apply (input_none _ _ _ (rf_input _ _ _ (proj1 Hr))), Hw, Hp.
Qed.

(** A console with an empty screen. *)
Definition demo_console : console :=
  {| crt := replicate 2000 0; cursor_hi := 0; cursor_lo := 0; uart := true; sent_on := []; panicked := false;
     ibuf := replicate 128 0; ir := 0; iw := 0; ie := 0 |}.
Definition demo_acons : acons := {| text := []; serial := []; entered := []; editing := [] |}.

Lemma demo_console_refines : refines true demo_console demo_acons.
Proof.
  split; [|by constructor]. constructor; [|done..|].
  - constructor; [done|done|cbn; lia|]. split_and!; [exact (length_replicate 2000 0)|cbn; lia|]. vm_compute. reflexivity.
  - by constructor.
Qed.

(** A reader waits, "hj" is typed and its end corrected to "hi", a second read
    takes the line. *)
Definition demo_actions : list action :=
  [ARead false 10 10; AIntr (str "hj" ++ [8] ++ str "i" ++ [10]); ARead false 10 10].

Lemma console_refines_witness :
  exists s', crun demo_actions demo_console =
    Ok ([ORead ([], CSleep 10); OIntr (false, true); ORead (str "hi" ++ [10], CDone 7)], s').
Proof.
  destruct (console_refines true demo_console demo_acons demo_actions) as (s' & E & _).
  - apply demo_console_refines.
  - repeat constructor.
  - exists s'. exact E.
Defined.

(** ** From the keyboard to a reader *)

Lemma akeys_app u cs ds a : Forall (fun c => 0 <= c) cs ->
  akeys u (cs ++ ds) a =
  let '(a, (d, k)) := akeys u cs a in let '(a, (d', k')) := akeys u ds a in (a, (d || d', k || k')).
Proof.
  intros H. revert a. induction H as [|c cs Hc _ IH]; intros a; cbn [app akeys].
  - by destruct (akeys u ds a) as [? [? ?]].
  - rewrite (proj2 (Z.ltb_ge c 0)) by lia. destruct (akey u c a) as [a1 [d k]]. rewrite IH.
    destruct (akeys u cs a1) as [a2 [d2 k2]]. destruct (akeys u ds a2) as [a3 [d3 k3]]. by rewrite !orb_assoc.
Qed.

(** Keys without a character are ignored. *)
Lemma akeys_filter u cs a : Forall (fun c => 0 <= c) cs -> akeys u cs a = akeys u (filter (fun c => c <> 0) cs) a.
Proof.
  intros H. revert a. induction H as [|c cs Hc _ IH]; intros a; [done|]. rewrite filter_cons. cbn [akeys].
  rewrite (proj2 (Z.ltb_ge c 0)) by lia. destruct (decide (c <> 0)) as [Hn|Hz].
  - cbn [akeys]. rewrite (proj2 (Z.ltb_ge c 0)) by lia. destruct (akey u c a) as [a1 [d k]]. by rewrite IH.
  - apply dec_stable in Hz. subst c. change (akey u 0 a) with (a, (false, false)). cbv iota. rewrite IH.
    by destruct (akeys u _ a) as [? [? ?]].
Qed.

(** A character that is echoed and stored. *)
Definition plain (c : Z) : bool := printable c && negb (c =? 10).

Lemma akey_plain u c a : plain c = true -> zlen (entered a ++ editing a) < 127 ->
  akey u c a = (with_lines (entered a) (editing a ++ [c]) (aput u c a), (false, false)).
Proof.
  intros Hc Hroom. unfold plain, printable in Hc. pose proof (zlen_nonneg (entered a ++ editing a)).
  unfold akey, ctrl, INPUT_BUF. rewrite app_assoc, (zlen_app _ [_]).
  rewrite !(proj2 (Z.eqb_neq c _)) by lia. cbn [orb]. rewrite (proj2 (Z.ltb_lt _ _)) by lia. cbn [negb andb].
  rewrite (proj2 (Z.eqb_neq (_ + _) _)) by (rewrite zlen_cons, zlen_nil; lia). cbv zeta. cbn [orb].
  replace (schar c) with c; [done|]. unfold schar, u8. rewrite Z.mod_small by lia. destruct (Z.ltb_spec c (2 ^ 7)); lia.
Qed.

Lemma akeys_plain u line a : forallb plain line = true -> zlen (entered a ++ editing a) + zlen line < 128 ->
  akeys u line a = (with_lines (entered a) (editing a ++ line) (foldl (fun a c => aput u c a) a line), (false, false)).
Proof.
  revert a. induction line as [|c line IH]; intros a Hp Hroom; cbn [akeys foldl].
  { rewrite app_nil_r. by destruct a. }
  cbn [forallb] in Hp. apply andb_true_iff in Hp as [Hc Hp]. rewrite zlen_cons in Hroom. pose proof (zlen_nonneg line).
  assert (0 <= c) by (unfold plain, printable in Hc; lia). rewrite (proj2 (Z.ltb_ge c 0)) by lia.
  rewrite akey_plain by (done || lia). rewrite IH; [|done|].
  2: { cbn [entered editing with_lines]. rewrite app_assoc, zlen_app. change (zlen [c]) with 1. lia. }
  cbn [entered editing with_lines orb]. rewrite <- app_assoc. cbn [app]. f_equal.
  assert (forall l a q ed, foldl (fun a c => aput u c a) (with_lines q ed a) l = with_lines q ed (foldl (fun a c => aput u c a) a l)) as ->; [|done].
  clear. induction l as [|c l IH]; intros a q ed; [done|]. cbn. by rewrite <- IH.
Qed.

Lemma aread_line target n line q : forallb plain line = true -> (length line < n)%nat ->
  aread false target n (line ++ 10 :: q) = (line ++ [10], CDone (n - length line - 1), q).
Proof.
  revert n. induction line as [|c line IH]; intros n Hp Hn; (destruct n as [|n]; [cbn in Hn; lia|]); cbn [aread app].
  - cbn. by rewrite Nat.sub_0_r.
  - cbn [forallb] in Hp. apply andb_true_iff in Hp as [Hc Hp]. unfold plain, printable in Hc.
    unfold ctrl. rewrite !(proj2 (Z.eqb_neq c _)) by lia. cbn [length] in *. rewrite IH by (done || lia). done.
Qed.

Lemma plain_printable line : forallb plain line = true ->
  Forall (fun c => 0 <= c < 127) line /\ forallb printable line = true.
Proof.
  induction line as [|c line IH]; [done|]. cbn. intros [Hc Hl]%andb_true_iff. destruct (IH Hl) as [H1 H2].
  unfold plain in Hc. apply andb_true_iff in Hc as [Hc _]. rewrite Hc, H2. split; [|done].
  constructor; [|done]. unfold printable in Hc. lia.
Qed.

Lemma puts_lines u l a : entered (foldl (fun a c => aput u c a) a l) = entered a /\
  editing (foldl (fun a c => aput u c a) a l) = editing a.
Proof. revert a. induction l as [|c l IH]; intros a; [done|]. apply (IH (aput u c a)). Qed.

(** A line and the return key, on a console with no input. *)
Lemma akeys_line u line a : entered a = [] -> editing a = [] -> forallb plain line = true -> (length line <= 127)%nat ->
  akeys u (line ++ [10]) a = (with_lines (line ++ [10]) [] (foldl (fun a c => aput u c a) a (line ++ [10])), (false, true)).
Proof.
  intros Hq He Hp Hl. rewrite akeys_app by (eapply Forall_impl; [by apply plain_printable|]; cbn; lia).
  rewrite akeys_plain by (rewrite ?Hq, ?He; unfold zlen; cbn; done || lia).
  rewrite Hq, He. cbn [app akeys]. change (10 <? 0) with false. cbv iota.
  assert (forall a', zlen (entered a' ++ editing a') < 128 ->
    akey u 10 a' = (with_lines (entered a' ++ editing a' ++ [10]) [] (aput u 10 a'), (false, true))) as Hk.
  { intros a' Hr. unfold akey, INPUT_BUF. change (10 =? ctrl 80) with false. change (10 =? ctrl 85) with false.
    change ((10 =? ctrl 72) || (10 =? 127)) with false. change (10 =? 0) with false. cbv iota. cbn [negb].
    by rewrite (proj2 (Z.ltb_lt _ _)) by lia. }
  rewrite Hk by (cbn [entered editing with_lines app]; unfold zlen; lia).
  rewrite foldl_app. done.
Qed.

(** C33. A line typed on the keyboard reaches the reader: the scan codes of the
    keys of a text of at most 127 characters and of the return key, shift held
    where it is needed, wake the readers, and a read with room for it returns
    exactly the text and the newline, which have also been echoed. *)
Theorem typed_line_read u s a line n :
  refines u s a -> entered a = [] -> editing a = [] ->
  forallb plain line = true -> (length line <= 127)%nat -> (length line < n)%nat ->
  exists s1 s2 o,
    kbdintr 0 (concat (map keys_for (line ++ [10]))) s = Ok ((false, true, 0), s1) /\
    consoleread_run false (Z.of_nat n) n s1 = Ok ((line ++ [10], o), s2) /\
    read_result (Z.of_nat n) o = Some (zlen line + 1) /\
    refines u s2 (foldl (fun a c => aput u c a) a (line ++ [10])).
Proof.
  intros H Hq He Hp Hl Hn. destruct (typed_text (line ++ [10])) as (cs & Et & Ef & Hcs).
  { rewrite forallb_app. by rewrite (proj2 (plain_printable line Hp)). }
  set (a1 := foldl (fun a c => aput u c a) a (line ++ [10])).
  assert (akeys u (cs ++ [-1]) a = (with_lines (line ++ [10]) [] a1, (false, true))) as Ek.
  { rewrite akeys_app by done. rewrite (akeys_filter _ cs) by done. rewrite Ef, akeys_line by done. done. }
  destruct (consoleintr_spec u (cs ++ [-1]) s a H) as (s1 & E1 & H1).
  { apply Forall_app. split; [|by repeat constructor]. rewrite Forall_forall. intros c Hc.
    destruct (decide (c = 0)) as [->|Hz]; [lia|].
    assert (c ∈ line ++ [10]) as Hin by (rewrite <- Ef; by apply list_elem_of_filter).
    apply elem_of_app in Hin as [Hin|Hin]; [|apply list_elem_of_singleton in Hin; lia].
    pose proof (proj1 (plain_printable line Hp)) as Hr. rewrite Forall_forall in Hr. specialize (Hr c Hin). lia. }
  rewrite Ek in E1, H1. cbn [fst snd] in E1, H1.
  destruct (consoleread_spec u false (Z.of_nat n) n s1 _ H1) as (s2 & E2 & H2).
  cbn [entered editing with_lines] in E2, H2. rewrite (aread_line _ n line []) in E2, H2 by done. cbn [fst snd] in E2, H2.
  exists s1, s2, (CDone (n - length line - 1)). split_and!.
  - unfold kbdintr. rewrite (bind_run _ _ s (cs, 0) s) by (unfold pure; by rewrite Et). cbv beta iota.
    rewrite (bind_run _ _ s (-1, 0) s eq_refl). cbv beta iota. by rewrite (bind_run _ _ _ _ _ E1).
  - done.
  - cbn. f_equal. unfold zlen. lia.
  - destruct (puts_lines u (line ++ [10]) a) as [Hq1 He1]. fold a1 in Hq1, He1.
    change (with_lines [] [] (with_lines (line ++ [10]) [] a1)) with (with_lines [] [] a1) in H2.
    rewrite Hq in Hq1. rewrite He in He1. destruct a1. cbn in *. by subst.
Qed.

Lemma typed_line_read_witness :
  exists s1 s2 o,
    kbdintr 0 (concat (map keys_for (str "Hi!" ++ [10]))) demo_console = Ok ((false, true, 0), s1) /\
    consoleread_run false 100 100 s1 = Ok ((str "Hi!" ++ [10], o), s2) /\ read_result 100 o = Some 4.
Proof.
  destruct (typed_line_read true demo_console demo_acons (str "Hi!") 100) as (s1 & s2 & o & H1 & H2 & H3 & _).
  - apply demo_console_refines.
  - reflexivity.
  - reflexivity.
  - reflexivity.
  - vm_compute. lia.
  - vm_compute. lia.
  - exists s1, s2, o. exact (conj H1 (conj H2 H3)).
Defined.
