(* ===== verification/Cprintf.v ===== *)
(** * Output of the kernel: [cprintf]

    [cprintf] of Console.v prints what its format says: the same characters as
    if they were given to [consputc] one by one. *)

From stdpp Require Import base list strings.
From Stdlib Require Import ZArith Lia.
From S2P Require Import Prelude User Printf State Console Kbd ConsoleScreen ConsoleProofs.

Fixpoint putcs (l : list Z) : ST console unit :=
  match l with [] => mret () | c :: l => _ ← consputc c; putcs l end.

(** [m] prints [l] and returns [a]. *)
Definition prints {A} (m : ST console A) (l : list Z) (a : A) : Prop :=
  forall s, m s = (_ ← putcs l; mret a) s.

Lemma putcs_app l k s : putcs (l ++ k) s = (_ ← putcs l; putcs k) s.
Proof.
  revert s. induction l as [|c l IH]; intros s; [done|]. cbn [app putcs]. unfold mbind, st_bind in *.
  destruct (consputc c s) as [[[] s1]| |]; [|done..]. apply IH.
Qed.

Lemma prints_ret {A} (a : A) : prints (mret a) [] a.
Proof. done. Qed.

Lemma prints_pure {A} (m : res A) a : m = Ok a -> prints (pure m) [] a.
Proof. by intros ->. Qed.

Lemma prints_bind {A B} (m : ST console A) (f : A -> ST console B) l k a b :
  prints m l a -> prints (f a) k b -> prints (m ≫= f) (l ++ k) b.
Proof.
  intros Hm Hf s. unfold mbind, st_bind at 1. rewrite Hm. unfold mbind, st_bind. rewrite putcs_app. unfold mbind, st_bind.
  destruct (putcs l s) as [[[] s1]| |]; [|done..]. apply Hf.
Qed.

Lemma prints_then {A B} (m : ST console A) (f : A -> ST console B) k a b :
  prints m [] a -> prints (f a) k b -> prints (m ≫= f) k b.
Proof. apply (prints_bind m f []). Qed.

Lemma prints_last {A B} (m : ST console A) l a (b : B) : prints m l a -> prints (_ ← m; mret b) l b.
Proof. intros Hm. rewrite <- (app_nil_r l). by eapply prints_bind. Qed.

Lemma prints_putc c : prints (consputc c) [c] ().
Proof. intros s. cbn. unfold mbind, st_bind. by destruct (consputc c s) as [[[] s1]| |]. Qed.

(** ** Numerals *)

Definition lower (d : Z) : Z := if d <? 10 then 48 + d else 87 + d.

Lemma digits_lower d : 0 <= d < 16 -> arr_get (str "0123456789abcdef") d = Ok (lower d).
Proof.
  intros Hd. assert (Forall (fun d => arr_get (str "0123456789abcdef") (Z.of_nat d) = Ok (lower (Z.of_nat d))) (seq 0 16)) as H.
  { repeat constructor. }
  rewrite Forall_forall in H. rewrite <- (Z2Nat.id d) by lia. apply H, elem_of_seq. lia.
Qed.

Lemma lower_decimal x : 0 <= x -> map lower (numeral 32 10 x) = map digit (numeral 32 10 x).
Proof.
  intros Hx. apply map_ext_Forall. eapply Forall_impl; [apply numeral_digits; lia|]. intros d. cbn. unfold lower, digit.
  intros Hd. by rewrite (proj2 (Z.ltb_lt d 10)) by lia.
Qed.

Section cprintf.
Context (junk : list Z) (Hjunk : length junk = 16%nat).

Lemma putc_back_prints n b : (n <= length b)%nat -> prints (putc_back n b) (reverse (take n b)) ().
Proof.
  induction n as [|n IH]; intros Hn; cbn [putc_back]; [apply prints_ret|].
  destruct (lookup_lt_is_Some_2 b n) as [c Hc]; [lia|]. rewrite (take_S_r _ _ _ Hc), reverse_app, reverse_singleton.
  apply (prints_then _ _ _ c); [apply prints_pure, arr_get_Ok; split; [lia|by rewrite Nat2Z.id]|].
  apply (prints_bind _ _ [c] _ ()); [apply prints_putc|apply IH; lia].
Qed.

Lemma cprintint_unsigned b x : b = 10 \/ b = 16 -> 0 <= x < 2 ^ 32 ->
  prints (Console.printint junk (s32 x) b false) (map lower (numeral 32 b x)) ().
Proof.
  intros Hb Hx. unfold Console.printint. cbn [andb]. rewrite u32_s32, u32_small by done.
  destruct (printint_digits junk Hjunk lower _ b x Hb Hx digits_lower) as (post & Hp & E).
  eapply prints_then; [by apply prints_pure|]. eapply prints_then; [by apply prints_pure|]. cbv beta iota. rewrite Nat2Z.id.
  pose proof (putc_back_prints (length (numeral 32 b x)) (reverse (map lower (numeral 32 b x)) ++ post)) as H.
  rewrite take_app_length' in H by (by rewrite length_reverse, length_map). rewrite reverse_involutive in H. apply H.
  rewrite length_app, length_reverse, length_map. lia.
Qed.

Lemma cprintint_signed x : - 2 ^ 31 <= x < 2 ^ 31 -> prints (Console.printint junk x 10 true) (decimal x) ().
Proof.
  intros Hx. unfold decimal. destruct (Z.ltb_spec x 0) as [Hn|Hn].
  2: { pose proof (cprintint_unsigned 10 x) as H. unfold Console.printint in *. cbn [andb] in *.
       rewrite (proj2 (Z.ltb_ge x 0)) by lia. rewrite s32_small, lower_decimal in H by lia. apply H; lia. }
  unfold Console.printint. rewrite (proj2 (Z.ltb_lt x 0)) by lia. cbn [andb]. rewrite u32_small by lia.
  destruct (printint_digits junk Hjunk lower _ 10 (- x) ltac:(by left) ltac:(lia) digits_lower) as (post & Hp & E).
  rewrite <- lower_decimal by lia. set (ds := numeral 32 10 (- x)) in *. destruct post as [|p post]; [cbn in Hp; lia|].
  eapply prints_then; [by apply prints_pure|]. cbv beta iota.
  eapply prints_then; [apply prints_pure; apply (put_minus lower)|]. cbv beta iota. rewrite Nat2Z.id.
  pose proof (putc_back_prints (S (length ds)) (reverse (45 :: map lower ds) ++ post)) as H.
  rewrite take_app_length' in H by (rewrite length_reverse; cbn; by rewrite length_map).
  rewrite reverse_involutive in H. apply H. rewrite length_app, length_reverse. cbn [length]. rewrite length_map. lia.
Qed.

Lemma putc_string_prints s : Forall (fun c => c <> 0) s -> prints (putc_string (s ++ [0])) s ().
Proof.
  induction 1 as [|c s Hc _ IH]; [apply prints_ret|]. cbn [app putc_string]. rewrite (proj2 (Z.eqb_neq c 0)) by done.
  apply (prints_bind _ _ [c] _ ()); [apply prints_putc|done].
Qed.

(** ** The format *)

(** What a piece of a format prints: hexadecimal numerals in lower case, strings
    as they are; [cprintf] does not know [%c]. *)
Definition kprinted (p : piece) : list Z :=
  match p with
  | Plain c => [c]
  | Dec x => decimal x
  | Hex x => map lower (numeral 32 16 x)
  | Text s => s
  | Null => str "(null)"
  | Char _ => str "%c"
  | Percent => [37]
  end.

Definition kargument (p : piece) : list arg := match p with Char _ => [] | _ => argument p end.

Local Ltac kfetch :=
  do 2 (eapply prints_then; [apply prints_ret|]; cbv beta iota); apply (prints_last _ _ ()).

Lemma cdirective_spec p c ap : written p = [37; c] -> piece_ok p ->
  prints (cdirective junk c (kargument p ++ ap)) (kprinted p) ap.
Proof.
  intros Hw Hp. destruct p as [c'|x|x|s| |x|]; vm_compute in Hw; try discriminate; injection Hw as <-;
    unfold cdirective; cbn [Z.eqb Pos.eqb orb kargument argument app kprinted].
  - kfetch. rewrite s32_u32, s32_small by done. by apply cprintint_signed.
  - kfetch. apply cprintint_unsigned; [by right|done].
  - kfetch. by apply putc_string_prints.
  - kfetch. apply (putc_string_prints (str "(null)")). by repeat constructor.
  - apply (prints_bind _ _ [37] [99] ()); [apply prints_putc|].
    apply (prints_bind _ _ [99] [] ()); [apply prints_putc|apply prints_ret].
  - apply (prints_bind _ _ [37] [] ()); [apply prints_putc|apply prints_ret].
Qed.

Lemma cprintf_spec ps : Forall piece_ok ps ->
  prints (cprintf junk (concat (map written ps) ++ [0]) (concat (map kargument ps))) (concat (map kprinted ps)) ().
Proof.
  induction 1 as [|p ps Hp _ IH]; [apply prints_ret|].
  destruct (written_two p) as [(c & ->)|(c & Hc & Hw)]; cbn [map concat].
  - cbn in Hp. cbn [written app cprintf kargument argument kprinted]. rewrite land_byte by lia.
    rewrite (proj2 (Z.eqb_neq c 0)), (proj2 (Z.eqb_neq c 37)) by lia. cbn [negb].
    apply (prints_bind _ _ [c] _ ()); [apply prints_putc|done].
  - rewrite Hw. cbn [app cprintf]. rewrite (land_byte c) by lia. rewrite (proj2 (Z.eqb_neq c 0)) by lia.
    change (Z.land 37 255) with 37. change (37 =? 0) with false. change (37 =? 37) with true. cbn [negb].
    eapply prints_bind; [by apply cdirective_spec|done].
Qed.
End cprintf.

Lemma putcs_refines u s a l : refines u s a ->
  exists s', putcs l s = Ok ((), s') /\ refines u s' (foldl (fun a c => aput u c a) a l).
Proof.
  revert s a. induction l as [|c l IH]; intros s a H; cbn [putcs foldl]; [by exists s|].
  destruct (tracks_put u s a c (proj1 H)) as (s1 & E1 & H1). rewrite (bind_run _ _ _ _ _ E1).
  apply IH. split; [done|apply H].
Qed.

(** [cprintf] shows on the screen and sends on the serial port the text of
    its format with each directive replaced by its argument: numbers of 32 bits
    in decimal, with their sign, or hexadecimal, strings, and percent signs. *)
Theorem cprintf_shows junk u s a ps :
  length junk = 16%nat -> refines u s a -> Forall piece_ok ps ->
  exists s', cprintf junk (concat (map written ps) ++ [0]) (concat (map kargument ps)) s = Ok ((), s') /\
    refines u s' (foldl (fun a c => aput u c a) a (concat (map kprinted ps))).
Proof.
  intros Hj H Hps. destruct (putcs_refines u s a (concat (map kprinted ps)) H) as (s' & E & H').
  exists s'. split; [|done]. rewrite (cprintf_spec junk Hj ps Hps). by rewrite (bind_run _ _ _ _ _ E).
Qed.

(** ["cpu%d: %x\n"] *)
Definition demo_format : list piece := map Plain (str "cpu") ++ [Dec (-2); Plain 58; Plain 32; Hex 0xbeef; Plain 10].

Lemma cprintf_shows_witness :
  exists s', cprintf (replicate 16 0) (str "cpu%d: %x" ++ [10; 0]) [Word (2 ^ 32 - 2); Word 0xbeef] demo_console = Ok ((), s') /\
    sent_on s' = str "cpu-2: beef" ++ [10].
Proof.
  destruct (cprintf_shows (replicate 16 0) true demo_console demo_acons demo_format) as (s' & E & H).
  - reflexivity.
  - apply demo_console_refines.
  - unfold demo_format. repeat constructor; cbn; lia.
  - exists s'. split; [exact E|]. rewrite (rf_sent _ _ _ (proj1 H)). vm_compute. reflexivity.
Defined.
