(* ===== verification/Progs.v ===== *)
(** * Small user programs: [cat.c], [wc.c], [echo.c], [kill.c], [ln.c], [mkdir.c], [rm.c], [init.c]

    Their [main] functions, with [argv] as the list of the arguments, and what
    [cat] and [wc] do with a file that is read in blocks. *)

From stdpp Require Import base list strings.
From Stdlib Require Import ZArith Lia.
From S2P Require Import Prelude KString Ulib User Printf Sysfile.

Section programs.
(** What [printint] has in its buffer. *)
Context (junk : list Z).

Definition say (fd : Z) (fmt : string) (ap : list arg) : prog unit := printf junk fd (str fmt ++ [10; 0]) ap.
Definition ptr (s : list Z) : arg := Ptr (s ++ [0]).

(** [while((n = read(fd, buf, sizeof(buf))) > 0)], at most [fuel] times. *)
Fixpoint cat (fuel : nat) (fd : Z) (buf : list Z) : prog (list Z) :=
  match fuel with
  | O => Crash OutOfFuel
  | S fuel =>
      r ← sys (CRead fd 512);
      buf ← local (arr_write buf 0 (stored r));
      if 0 <? rv r then
        bs ← local (arr_read buf 0 (rv r));
        n ← syscall_ (CWrite 1 bs);
        if negb (n =? rv r) then _ ← say 1 "cat: write error" []; Exit
        else cat fuel fd buf
      else if rv r <? 0 then _ ← say 1 "cat: read error" []; Exit
      else mret buf
  end.

Fixpoint cat_files (fuel : nat) (files : list (list Z)) (buf : list Z) : prog unit :=
  match files with
  | [] => Exit
  | f :: files =>
      fd ← syscall_ (COpen f 0);
      if fd <? 0 then _ ← say 1 "cat: cannot open %s" [ptr f]; Exit
      else
        buf ← cat fuel fd buf;
        _ ← syscall_ (CClose fd);
        cat_files fuel files buf
  end.

Definition cat_main (fuel : nat) (argv : list (list Z)) : prog unit :=
  match drop 1 argv with
  | [] => _ ← cat fuel 0 (replicate 512 0); Exit
  | files => cat_files fuel files (replicate 512 0)
  end.

(** [l], [w], [c] and [inword]. *)
Record counts := { cl : Z; cw : Z; cc : Z; inword : bool }.

Definition wc_char (x : Z) (k : counts) : res counts :=
  p ← strchr (str " " ++ [13; 9; 10; 11; 0]) 0 x;
  let l := if x =? 10 then s32 (cl k + 1) else cl k in
  Ok (match p with
      | Some _ => {| cl := l; cw := cw k; cc := s32 (cc k + 1); inword := false |}
      | None =>
          if negb (inword k) then {| cl := l; cw := s32 (cw k + 1); cc := s32 (cc k + 1); inword := true |}
          else {| cl := l; cw := cw k; cc := s32 (cc k + 1); inword := inword k |}
      end).

Fixpoint wc_block (bs : list Z) (k : counts) : res counts :=
  match bs with
  | [] => Ok k
  | x :: bs => k ← wc_char x k; wc_block bs k
  end.

Fixpoint wc_loop (fuel : nat) (fd : Z) (name buf : list Z) (k : counts) : prog (list Z) :=
  match fuel with
  | O => Crash OutOfFuel
  | S fuel =>
      r ← sys (CRead fd 512);
      buf ← local (arr_write buf 0 (stored r));
      if 0 <? rv r then
        bs ← local (arr_read buf 0 (rv r));
        k ← local (wc_block bs k);
        wc_loop fuel fd name buf k
      else if rv r <? 0 then _ ← say 1 "wc: read error" []; Exit
      else
        _ ← say 1 "%d %d %d %s" [Word (u32 (cl k)); Word (u32 (cw k)); Word (u32 (cc k)); ptr name];
        mret buf
  end.

Definition wc (fuel : nat) (fd : Z) (name buf : list Z) : prog (list Z) :=
  wc_loop fuel fd name buf {| cl := 0; cw := 0; cc := 0; inword := false |}.

Fixpoint wc_files (fuel : nat) (files : list (list Z)) (buf : list Z) : prog unit :=
  match files with
  | [] => Exit
  | f :: files =>
      fd ← syscall_ (COpen f 0);
      if fd <? 0 then _ ← say 1 "wc: cannot open %s" [ptr f]; Exit
      else
        buf ← wc fuel fd f buf;
        _ ← syscall_ (CClose fd);
        wc_files fuel files buf
  end.

Definition wc_main (fuel : nat) (argv : list (list Z)) : prog unit :=
  match drop 1 argv with
  | [] => _ ← wc fuel 0 [] (replicate 512 0); Exit
  | files => wc_files fuel files (replicate 512 0)
  end.

Fixpoint echo_args (args : list (list Z)) : prog unit :=
  match args with
  | [] => Exit
  | a :: rest =>
      _ ← printf junk 1 (str "%s%s" ++ [0]) [ptr a; ptr (match rest with [] => [10] | _ => [32] end)];
      echo_args rest
  end.
Definition echo_main (argv : list (list Z)) : prog unit := echo_args (drop 1 argv).

Fixpoint kill_args (args : list (list Z)) : prog unit :=
  match args with
  | [] => Exit
  | a :: args => pid ← local (atoi (a ++ [0]) 0); _ ← syscall_ (CKill pid); kill_args args
  end.
Definition kill_main (argv : list (list Z)) : prog unit :=
  match drop 1 argv with [] => _ ← say 2 "usage: kill pid..." []; Exit | args => kill_args args end.

Definition ln_main (argv : list (list Z)) : prog unit :=
  match argv with
  | [_; old; new] =>
      r ← syscall_ (CLink old new);
      _ ← (if r <? 0 then say 2 "link %s %s: failed" [ptr old; ptr new] else mret ());
      Exit
  | _ => _ ← say 2 "Usage: ln old new" []; Exit
  end.

(** The loops of [mkdir.c] and [rm.c]: the call for each argument until one fails. *)
Fixpoint each_arg (c : list Z -> call) (msg : string) (args : list (list Z)) : prog unit :=
  match args with
  | [] => Exit
  | a :: args =>
      r ← syscall_ (c a);
      if r <? 0 then _ ← say 2 msg [ptr a]; Exit else each_arg c msg args
  end.
Definition mkdir_main (argv : list (list Z)) : prog unit :=
  match drop 1 argv with
  | [] => _ ← say 2 "Usage: mkdir files..." []; Exit
  | args => each_arg CMkdir "mkdir: %s failed to create" args
  end.
Definition rm_main (argv : list (list Z)) : prog unit :=
  match drop 1 argv with
  | [] => _ ← say 2 "Usage: rm files..." []; Exit
  | args => each_arg CUnlink "rm: %s failed to delete" args
  end.

(** [while((wpid=wait()) >= 0 && wpid != pid)], at most [n] times. *)
Fixpoint reap_until (n : nat) (pid : Z) : prog unit :=
  match n with
  | O => Crash OutOfFuel
  | S n =>
      w ← syscall_ CWait;
      if (0 <=? w) && negb (w =? pid) then _ ← say 1 "zombie!" []; reap_until n pid else mret ()
  end.

(** [n] turns of the loop of [init], which does not end. *)
Fixpoint init_loop (n : nat) : prog unit :=
  match n with
  | O => Crash OutOfFuel
  | S m =>
      _ ← say 1 "init: starting sh" [];
      pid ← syscall_ CFork;
      if pid <? 0 then _ ← say 1 "init: fork failed" []; Exit
      else if pid =? 0 then
        _ ← syscall_ (CExec (str "sh") [str "sh"]);
        _ ← say 1 "init: exec sh failed" [];
        Exit
      else _ ← reap_until n pid; init_loop m
  end.
Definition init_main (n : nat) : prog unit :=
  fd ← syscall_ (COpen (str "console") O_RDWR);
  _ ← (if fd <? 0 then
         _ ← syscall_ (CMknod (str "console") 1 1);
         _ ← syscall_ (COpen (str "console") O_RDWR);
         mret ()
       else mret ());
  _ ← syscall_ (CDup 0);
  _ ← syscall_ (CDup 0);
  init_loop n.
End programs.

(** ** A file that is read in blocks *)

(** What reads still deliver, block by block, and what was written to standard
    output. *)
Record world := { blocks : list (list Z); out : list Z }.

Definition feed (c : call) (w : world) : reply * world :=
  match c with
  | CRead _ _ =>
      match blocks w with
      | [] => ({| rv := 0; stored := [] |}, w)
      | b :: bs => ({| rv := zlen b; stored := b |}, {| blocks := bs; out := out w |})
      end
  | CWrite fd bs => ({| rv := zlen bs; stored := [] |}, if fd =? 1 then {| blocks := blocks w; out := out w ++ bs |} else w)
  | _ => ({| rv := 0; stored := [] |}, w)
  end.

(** Reads deliver at least a byte and at most what fits, until the end. *)
Definition block_ok (b : list Z) : Prop := (0 < length b <= 512)%nat.

Definition after_calls {W} (h : call -> W -> reply * W) (cs : list call) (s : W) : W := foldl (fun s c => (h c s).2) s cs.

Lemma run_calls {W A} (h : call -> W -> reply * W) (p : prog A) s t :
  exists cs, run (traced h) p (s, t) = ((run h p s).1, (after_calls h cs s, t ++ cs)).
Proof.
  revert s t. induction p as [a| |e|c k IH]; intros s t; cbn [run].
  1-3: by exists []; rewrite app_nil_r.
  destruct (IH (h c s).1 (h c s).2 (t ++ [c])) as [cs E]. exists (c :: cs).
  change (traced h c (s, t)) with ((h c s).1, ((h c s).2, t ++ [c])). cbn [fst snd]. rewrite E, <- app_assoc. done.
Qed.

(** The state that the calls of a program lead to. *)
Lemma makes_state {W A} (h : call -> W -> reply * W) (p : prog A) cs a s :
  makes h p cs a -> run h p s = (Done a, after_calls h cs s).
Proof.
  intros H. destruct (H s []) as [s' E]. destruct (run_calls h p s []) as [cs' E'].
  rewrite E in E'. injection E' as E1 E2 E3. cbn [app] in E3. subst cs'. rewrite (run_traced h p s []), E. cbn. congruence.
Qed.

Lemma feed_writes bs w : after_calls feed (map (fun c => CWrite 1 [c]) bs) w = {| blocks := blocks w; out := out w ++ bs |}.
Proof.
  revert w. induction bs as [|b bs IH]; intros w; [by destruct w; rewrite app_nil_r|].
  etransitivity; [apply (IH {| blocks := blocks w; out := out w ++ [b] |})|]. cbn. by rewrite <- app_assoc.
Qed.

(** A block in the buffer. *)
Lemma buffer_block buf b : length buf = 512%nat -> block_ok b ->
  exists buf', arr_write buf 0 b = Ok buf' /\ length buf' = 512%nat /\ arr_read buf' 0 (zlen b) = Ok b.
Proof.
  intros Hb [Hp Hl]. exists (b ++ drop (length b) buf). split_and!.
  - apply arr_write_Ok. unfold zlen. split_and!; [lia|lia|done].
  - rewrite length_app, length_drop. lia.
  - unfold arr_read, zlen. rewrite length_app, length_drop. 
    rewrite (proj2 (Z.ltb_ge (Z.of_nat (length b)) 0)), (proj2 (Z.ltb_ge (Z.of_nat _) (0 + _))) by lia. cbn [orb Z.ltb Z.compare].
    rewrite Nat2Z.id. change (Z.to_nat 0) with 0%nat. rewrite drop_0. by rewrite take_app_length.
Qed.

Lemma cat_run junk bs o fd buf fuel : length buf = 512%nat -> Forall block_ok bs -> (length bs < fuel)%nat ->
  exists buf', run feed (cat junk fuel fd buf) {| blocks := bs; out := o |} =
    (Done buf', {| blocks := []; out := o ++ concat bs |}).
Proof.
  intros Hb Hbs. revert o buf fuel Hb. induction Hbs as [|b bs Hok _ IH]; intros o buf fuel Hb Hf; (destruct fuel as [|fuel]; [lia|]); cbn [cat].
  - exists buf. rewrite run_bind. cbn [sys run feed blocks fst snd stored rv]. rewrite run_bind.
    rewrite (run_local _ _ buf) by (apply arr_write_Ok; unfold zlen; cbn; rewrite drop_0; split_and!; done || lia).
    cbn. by rewrite app_nil_r.
  - destruct (buffer_block buf b Hb Hok) as (buf1 & Ew & Hb1 & Er).
    rewrite run_bind. cbn [sys run feed blocks out fst snd stored rv]. rewrite run_bind, (run_local _ _ _ _ Ew).
    assert (0 < zlen b) as Hpos by (destruct Hok; unfold zlen; lia). rewrite (proj2 (Z.ltb_lt _ _)) by done.
    rewrite run_bind, (run_local _ _ _ _ Er), run_bind. cbn [syscall_ run feed blocks out fst snd stored rv].
    rewrite Z.eqb_refl. cbn [negb]. destruct (IH (o ++ b) buf1 fuel Hb1) as [buf2 E2]; [cbn in Hf; lia|].
    exists buf2. change (1 =? 1) with true. cbv iota. rewrite E2. cbn [concat]. by rewrite app_assoc.
Qed.

(** ** Counting *)

Definition white (c : Z) : bool := (c =? 32) || (c =? 13) || (c =? 9) || (c =? 10) || (c =? 11).

(** The words of a text: the runs of characters that are not white. *)
Fixpoint fields (cur t : list Z) : list (list Z) :=
  match t with
  | [] => match cur with [] => [] | _ => [cur] end
  | c :: t => if white c then match cur with [] => fields [] t | _ => cur :: fields [] t end else fields (cur ++ [c]) t
  end.

Definition lines (t : list Z) : Z := zlen (filter (fun c => c = 10) t).

Lemma strchr_white x : exists o, strchr (str " " ++ [13; 9; 10; 11; 0]) 0 x = Ok o /\ (white x = true <-> o <> None).
Proof.
  unfold strchr. change (0 <? 0) with false. cbv iota.
  change (drop (Z.to_nat 0) (str " " ++ [13; 9; 10; 11; 0])) with [32; 13; 9; 10; 11; 0].
  cbn [strchr_from]. rewrite !(Z.eqb_sym _ x). unfold white.
  change (32 =? 0) with false. change (13 =? 0) with false. change (9 =? 0) with false. change (10 =? 0) with false.
  change (11 =? 0) with false. change (0 =? 0) with true. cbv iota.
  destruct (x =? 32), (x =? 13), (x =? 9), (x =? 10), (x =? 11); eexists; (split; [reflexivity|]); split; done.
Qed.

Lemma s32_wrap_add a b : s32 (s32 a + b) = s32 (a + b).
Proof.
  assert (u32 (s32 a + b) = u32 (a + b)) as E by (rewrite <- u32_add_l, u32_s32; apply u32_add_l).
  unfold s32 at 1 3. by rewrite E.
Qed.

(** Whether a text ends within a word. *)
Definition in_word (t : list Z) : bool := match last t with Some c => negb (white c) | None => false end.

Lemma in_word_snoc t x : in_word (t ++ [x]) = negb (white x).
Proof. unfold in_word. by rewrite last_snoc. Qed.

Lemma fields_snoc t x cur : forallb (fun c => negb (white c)) cur = true ->
  length (fields cur (t ++ [x])) =
  if white x || in_word (cur ++ t) then length (fields cur t) else S (length (fields cur t)).
Proof.
  revert cur. induction t as [|c t IH]; intros cur Hc; cbn [app fields].
  - rewrite app_nil_r. destruct (white x); cbn [orb].
    + by destruct cur.
    + induction cur as [|y cur _] using rev_ind; [done|]. rewrite forallb_app in Hc. cbn in Hc.
      rewrite in_word_snoc. destruct (white y); [by rewrite andb_false_r in Hc|]. cbn [negb fields]. by destruct cur.
  - destruct (white c) eqn:Ec.
    + assert (in_word (cur ++ c :: t) = in_word t) as ->.
      { induction t as [|y t _] using rev_ind; [by rewrite in_word_snoc, Ec|].
        by rewrite !app_comm_cons, app_assoc, !in_word_snoc. }
      destruct cur; cbn [length]; rewrite (IH []) by done; [done|]. cbn [app].
      by destruct (white x || in_word t).
    + rewrite (IH (cur ++ [c])); [by rewrite <- app_assoc|]. rewrite forallb_app, Hc. cbn. by rewrite Ec.
Qed.

(** The counters after a text. *)
Definition counted (t : list Z) : counts :=
  {| cl := s32 (lines t); cw := s32 (zlen (fields [] t)); cc := s32 (zlen t); inword := in_word t |}.

Lemma wc_char_counted x t : wc_char x (counted t) = Ok (counted (t ++ [x])).
Proof.
  unfold wc_char. destruct (strchr_white x) as (o & E & Hw). rewrite E. cbn [mbind res_bind].
  assert ((if x =? 10 then s32 (cl (counted t) + 1) else cl (counted t)) = s32 (lines (t ++ [x]))) as ->.
  { cbn [cl counted]. unfold lines. rewrite filter_app, zlen_app, filter_cons. destruct (Z.eqb_spec x 10) as [->|Hx].
    - rewrite decide_True by done. apply s32_wrap_add.
    - rewrite decide_False by done. cbn. by rewrite Z.add_0_r. }
  unfold counted. cbn [cl cw cc inword].
  replace (s32 (s32 (zlen t) + 1)) with (s32 (zlen (t ++ [x]))) by (rewrite zlen_app; symmetry; apply s32_wrap_add).
  assert (zlen (fields [] (t ++ [x])) = if white x || in_word t then zlen (fields [] t) else zlen (fields [] t) + 1) as ->.
  { unfold zlen. rewrite (fields_snoc t x [] eq_refl). cbn [app]. destruct (white x || in_word t); lia. }
  rewrite in_word_snoc. destruct (white x); cbn [orb negb].
  - destruct o; [done|]. by destruct (proj1 Hw eq_refl).
  - destruct o as [o|]; [assert (false = true) by (by apply Hw); done|].
    destruct (in_word t); cbn [negb]; [done|]. by rewrite s32_wrap_add.
Qed.

Lemma wc_block_counted bs t : wc_block bs (counted t) = Ok (counted (t ++ bs)).
Proof.
  revert t. induction bs as [|x bs IH]; intros t; cbn [wc_block]; [by rewrite app_nil_r|].
  rewrite wc_char_counted. cbn [mbind res_bind]. rewrite IH, <- app_assoc. done.
Qed.

Lemma fields_length t : zlen (fields [] t) <= zlen t.
Proof.
  induction t as [|x t IH] using rev_ind; [done|]. unfold zlen in *. rewrite (fields_snoc t x [] eq_refl), length_app. cbn [length].
  destruct (_ || _); lia.
Qed.

Lemma lines_length t : 0 <= lines t <= zlen t.
Proof. unfold lines, zlen. pose proof (length_filter (fun c => c = 10) t). lia. Qed.

(** What [wc] prints of a text. *)
Definition wc_report (t name : list Z) : list Z :=
  decimal (lines t) ++ [32] ++ decimal (zlen (fields [] t)) ++ [32] ++ decimal (zlen t) ++ [32] ++ map u8 name ++ [10].

Lemma wc_prints junk t name : length junk = 16%nat -> zlen t < 2 ^ 31 -> Forall (fun c => c <> 0) name ->
  makes feed (say junk 1 "%d %d %d %s" [Word (u32 (cl (counted t))); Word (u32 (cw (counted t))); Word (u32 (cc (counted t))); ptr name])
    (map (fun c => CWrite 1 [c]) (wc_report t name)) ().
Proof.
  intros Hj Ht Hn. pose proof (fields_length t). pose proof (lines_length t). pose proof (zlen_nonneg (fields [] t)).
  pose proof (printf_spec feed junk 1 Hj
    [Dec (lines t); Plain 32; Dec (zlen (fields [] t)); Plain 32; Dec (zlen t); Plain 32; Text name; Plain 10]) as HP.
  unfold counted. cbn [cl cw cc]. rewrite !s32_small by lia. unfold say, printf, ptr, wc_report.
  cbn [map concat printed argument app] in HP. rewrite <- ?app_assoc in *. apply HP.
  repeat constructor; cbn; try lia; done.
Qed.

Lemma wc_run junk bs t name fd buf fuel o : length junk = 16%nat -> length buf = 512%nat -> Forall block_ok bs -> (length bs < fuel)%nat ->
  zlen (t ++ concat bs) < 2 ^ 31 -> Forall (fun c => c <> 0) name ->
  exists buf', run feed (wc_loop junk fuel fd name buf (counted t)) {| blocks := bs; out := o |} =
    (Done buf', {| blocks := []; out := o ++ wc_report (t ++ concat bs) name |}).
Proof.
  intros Hj Hb Hbs. revert t buf fuel Hb. induction Hbs as [|b bs Hok _ IH]; intros t buf fuel Hb Hf Ht Hn; (destruct fuel as [|fuel]; [lia|]); cbn [wc_loop].
  - exists buf. rewrite run_bind. cbn [sys run feed blocks fst snd stored rv]. rewrite run_bind.
    rewrite (run_local _ _ buf) by (apply arr_write_Ok; unfold zlen; cbn; rewrite drop_0; split_and!; done || lia).
    change (0 <? 0) with false. cbv iota. cbn [concat] in *. rewrite app_nil_r in *.
    rewrite run_bind, (makes_state _ _ _ _ _ (wc_prints junk t name Hj Ht Hn)), feed_writes. done.
  - destruct (buffer_block buf b Hb Hok) as (buf1 & Ew & Hb1 & Er).
    rewrite run_bind. cbn [sys run feed blocks out fst snd stored rv]. rewrite run_bind, (run_local _ _ _ _ Ew).
    assert (0 < zlen b) as Hpos by (destruct Hok; unfold zlen; lia). rewrite (proj2 (Z.ltb_lt _ _)) by done.
    rewrite run_bind, (run_local _ _ _ _ Er), run_bind, (run_local _ _ _ _ (wc_block_counted b t)).
    cbn [concat length] in *. rewrite app_assoc in *. apply IH; (done || lia).
Qed.

(** C37. [cat] and [wc] do not depend on how reads cut a file into blocks: for
    every sequence of nonempty blocks that fit the buffer, [cat] writes their
    contents, all of it, in order and nothing else, and [wc] prints the number of
    lines, of words and of characters of the whole text. *)
Theorem cat_wc_correct junk bs fd name fuel :
  length junk = 16%nat -> Forall block_ok bs -> (length bs < fuel)%nat ->
  zlen (concat bs) < 2 ^ 31 -> Forall (fun c => c <> 0) name ->
  let from := {| blocks := bs; out := [] |} in
  (exists buf, run feed (cat junk fuel fd (replicate 512 0)) from = (Done buf, {| blocks := []; out := concat bs |})) /\
  (exists buf, run feed (wc junk fuel fd name (replicate 512 0)) from =
     (Done buf, {| blocks := []; out := wc_report (concat bs) name |})).
Proof.
  intros Hj Hbs Hf Ht Hn from. split.
  - apply (cat_run junk bs [] fd); done.
  - apply (wc_run junk bs [] name fd (replicate 512 0) fuel []); done.
Qed.

(** A text of two lines whose second word is cut. *)
Lemma cat_wc_correct_witness :
  exists buf, run feed (wc (replicate 16 0) 3 0 (str "f") (replicate 512 0)) {| blocks := [str "one tw"; str "o" ++ [10] ++ str "six" ++ [10]]; out := [] |} =
    (Done buf, {| blocks := []; out := str "2 3 12 f" ++ [10] |}).
Proof.
  destruct (cat_wc_correct (replicate 16 0) [str "one tw"; str "o" ++ [10] ++ str "six" ++ [10]] 0 (str "f") 3) as [_ H].
  - reflexivity.
  - repeat constructor.
  - cbn. lia.
  - vm_compute. reflexivity.
  - repeat constructor; done.
  - exact H.
Defined.
