(* ===== verification/Mkfs.v ===== *)
(** * The file system builder: [mkfs.c]

    [mkfs] runs on the host and writes the image of a disk.  The image is a map
    from sectors to their bytes.  Writes to it succeed; a read of a sector that
    was never written is short, and the program exits with an error.  The host is
    little endian, as the disk.  A file of the host is what [read] delivers of it,
    block by block. *)

From stdpp Require Import base list strings gmap.
From Stdlib Require Import ZArith Lia.
From S2P Require Import Prelude State Bio Log Fs.

Definition FSSIZE : Z := 1000.
Definition NINODES : Z := 200.
Definition nbitmap : Z := FSSIZE / (BSIZE * 8) + 1.
Definition ninodeblocks : Z := NINODES / IPB + 1.
Definition mk_nlog : Z := LOGSIZE.
Definition nmeta : Z := 2 + mk_nlog + ninodeblocks + nbitmap.

(** [fsfd], [freeinode] and [freeblock]. *)
Record mkst := { img : gmap Z (list Z); freeinode : Z; freeblock : Z }.

(** A value whose bytes in memory are those of [x], the least significant first. *)
Definition xshort (x : Z) : Z := le_value (le_bytes 2 x).
Definition xint (x : Z) : Z := le_value (le_bytes 4 x).

(** The global [sb], as [main] fills it in. *)
Definition mksb : superblock :=
  {| sb_size := xint FSSIZE; nblocks := xint (FSSIZE - nmeta); ninodes := xint NINODES; nlog := xint mk_nlog;
     logstart := xint 2; inodestart := xint (2 + mk_nlog); bmapstart := xint (2 + mk_nlog + ninodeblocks) |}.

(** The sector at the offset [sec * BSIZE] of the image. *)
Definition sector (sec : Z) : Z := u32 (sec * BSIZE) / BSIZE.

Definition wsect (sec : Z) (buf : list Z) : ST mkst unit :=
  modify (fun s => {| img := <[sector sec := buf]> (img s); freeinode := freeinode s; freeblock := freeblock s |}).

Definition rsect (sec : Z) : ST mkst (list Z) := fun s =>
  match img s !! sector sec with Some d => Ok (d, s) | None => Err end.

Definition winode (inum : Z) (ip : dinode) : ST mkst unit :=
  let bn := IBLOCK inum mksb in
  buf ← rsect bn;
  buf ← pure (wr_dinode buf (inum mod IPB * dinode_size) ip);
  wsect bn buf.

Definition rinode (inum : Z) : ST mkst dinode :=
  let bn := IBLOCK inum mksb in
  buf ← rsect bn;
  pure (rd_dinode buf (inum mod IPB * dinode_size)).

Definition mk_ialloc (type : Z) : ST mkst Z :=
  inum ← gets freeinode;
  _ ← modify (fun s => {| img := img s; freeinode := u32 (freeinode s + 1); freeblock := freeblock s |});
  _ ← winode inum {| d_type := s16 (xshort type); d_major := 0; d_minor := 0; d_nlink := s16 (xshort 1);
                     d_fsize := xint 0; d_addrs := replicate 13 0 |};
  mret inum.

Fixpoint set_bits (n : nat) (d : list Z) : res (list Z) :=
  match n with
  | O => Ok d
  | S n => d ← set_bits n d; set_bit d (Z.of_nat n)
  end.

Definition mk_balloc (used : Z) : ST mkst unit :=
  if negb (used <? BSIZE * 8) then fault (Panic "used < BSIZE*8")
  else
    buf ← pure (set_bits (Z.to_nat used) (replicate 512 0));
    wsect (bmapstart mksb) buf.

(** [freeblock++] *)
Definition new_block : ST mkst Z :=
  b ← gets freeblock;
  _ ← modify (fun s => {| img := img s; freeinode := freeinode s; freeblock := u32 (freeblock s + 1) |});
  mret b.

(** Entry [n] of the addresses in the inode, or a new block. *)
Definition din_slot (din : dinode) (n : Z) : ST mkst dinode :=
  a ← pure (arr_get (d_addrs din) n);
  if xint a =? 0 then
    b ← new_block;
    l ← pure (arr_set (d_addrs din) n (xint b));
    mret (with_addrs din l)
  else mret din.

(** Entry [n] of the block of addresses [addr], or a new block. *)
Definition ind_slot (addr n : Z) : ST mkst Z :=
  indirect ← rsect (xint addr);
  a ← pure (rdu32 indirect (4 * n));
  if a =? 0 then
    b ← new_block;
    indirect ← pure (wr32 indirect (4 * n) (xint b));
    _ ← wsect (xint addr) indirect;
    pure (rdu32 indirect (4 * n))
  else mret a.

(** The sector of block [fbn] of the file. *)
Definition block_for (din : dinode) (fbn : Z) : ST mkst (dinode * Z) :=
  if fbn <? NDIRECT then
    din ← din_slot din fbn;
    a ← pure (arr_get (d_addrs din) fbn);
    mret (din, xint a)
  else
    let tfbn := u32 (fbn - NDIRECT) in
    let ifbn := tfbn / NINDIRECT in
    let iifbn := tfbn mod NINDIRECT in
    din ← din_slot din NDIRECT;
    addr ← pure (arr_get (d_addrs din) NDIRECT);
    addr ← ind_slot addr ifbn;
    addr ← ind_slot addr iifbn;
    mret (din, xint addr).

(** The loop over the bytes [p] that are left. *)
Fixpoint iappend_loop (fuel : nat) (din : dinode) (off : Z) (p : list Z) : ST mkst (dinode * Z) :=
  match fuel with
  | O => fault OutOfFuel
  | S fuel =>
      match p with
      | [] => mret (din, off)
      | _ =>
          let fbn := off / BSIZE in
          if negb (fbn <? MAXFILE) then fault (Panic "fbn < MAXFILE")
          else
            '(din, x) ← block_for din fbn;
            let n1 := Z.min (zlen p) (u32 (u32 ((fbn + 1) * BSIZE) - off)) in
            buf ← rsect x;
            buf ← pure (arr_write buf (off - fbn * BSIZE) (take (Z.to_nat n1) p));
            _ ← wsect x buf;
            iappend_loop fuel din (u32 (off + n1)) (drop (Z.to_nat n1) p)
      end
  end.

Definition iappend (inum : Z) (p : list Z) : ST mkst unit :=
  din ← rinode inum;
  '(din, off) ← iappend_loop (S (length p)) din (xint (d_fsize din)) p;
  winode inum (with_fsize din (xint off)).

(** A directory entry; [strncpy] fills up with nuls. *)
Definition dirent_of (inum : Z) (name : list Z) : list Z :=
  le_bytes 2 (xshort inum) ++ take 14 (name ++ replicate 14 0).

(** [for(i = 0; i < FSSIZE; i++) wsect(i, zeroes);] *)
Fixpoint write_zeroes (n : nat) : ST mkst unit :=
  match n with
  | O => mret ()
  | S n => _ ← write_zeroes n; wsect (Z.of_nat n) (replicate 512 0)
  end.

Definition sb_bytes : list Z :=
  concat (map (le_bytes 4) [sb_size mksb; nblocks mksb; ninodes mksb; nlog mksb; logstart mksb; inodestart mksb; bmapstart mksb]).

Fixpoint append_blocks (inum : Z) (blocks : list (list Z)) : ST mkst unit :=
  match blocks with
  | [] => mret ()
  | b :: blocks => _ ← iappend inum b; append_blocks inum blocks
  end.

(** A leading [_] is not part of the name. *)
Definition mk_name (arg : list Z) : list Z :=
  match arg with c :: name => if c =? 95 then name else arg | [] => arg end.

(** One file: its name on the host and its contents. *)
Definition add_file (rootino : Z) (f : list Z * list (list Z)) : ST mkst unit :=
  if bool_decide (47 ∈ f.1) then fault (Panic "index(argv[i], '/') == 0")
  else
    inum ← mk_ialloc T_FILE;
    _ ← iappend rootino (dirent_of inum (mk_name f.1));
    append_blocks inum f.2.

Fixpoint add_files (rootino : Z) (files : list (list Z * list (list Z))) : ST mkst unit :=
  match files with
  | [] => mret ()
  | f :: files => _ ← add_file rootino f; add_files rootino files
  end.

(** The size of the root directory, in whole blocks. *)
Definition fix_root (rootino : Z) : ST mkst unit :=
  din ← rinode rootino;
  let off := xint (d_fsize din) in
  let off := u32 ((off / BSIZE + 1) * BSIZE) in
  winode rootino (with_fsize din (xint off)).

Definition mkfs_run (files : list (list Z * list (list Z))) : ST mkst unit :=
  _ ← write_zeroes (Z.to_nat FSSIZE);
  _ ← wsect 1 (sb_bytes ++ replicate (512 - length sb_bytes) 0);
  rootino ← mk_ialloc T_DIR;
  if negb (rootino =? ROOTINO) then fault (Panic "rootino == ROOTINO")
  else
    _ ← iappend rootino (dirent_of rootino [46]);
    _ ← iappend rootino (dirent_of rootino [46; 46]);
    _ ← add_files rootino files;
    _ ← fix_root rootino;
    b ← gets freeblock;
    mk_balloc b.

Definition mkfs (files : list (list Z * list (list Z))) : res (gmap Z (list Z)) :=
  '(_, s) ← mkfs_run files {| img := ∅; freeinode := 1; freeblock := nmeta |};
  Ok (img s).
