(* ===== verification/MkfsProofs.v ===== *)
(** * The image that mkfs makes is the disk the kernel expects

    While the image is built, its bitmap is not written yet.  The proofs look at a
    disk that is the image with the bitmap of the blocks handed out so far
    ([shadow]); on this disk [mkfs] allocates and appends as the kernel does, so the
    notions of FsFile.v and FsOps.v apply to every step. *)

From stdpp Require Import base list strings gmap sets.
From Stdlib Require Import ZArith Lia.
From S2P Require Import Prelude State Bio BioProofs Log LogProofs CrashProofs Transact Fs FsBase FsAlloc FsFile FsData FsInode FsOps Mkfs.

Lemma mksb_val : mksb = {| sb_size := 1000; nblocks := 941; ninodes := 200; nlog := 30; logstart := 2; inodestart := 32; bmapstart := 58 |}.
Proof. vm_compute. reflexivity. Qed.
Lemma nmeta_val : nmeta = 59.
Proof. reflexivity. Qed.

Lemma mk_layout : layout FSSIZE 2 30 nmeta mksb.
Proof.
  rewrite mksb_val, nmeta_val. unfold FSSIZE.
  assert (forall b, 0 <= b < 1000 -> b / BPB = 0) as Hb by (intros b Hb; apply Z.div_small; unfold BPB, BSIZE; lia).
  assert (forall i, 0 <= i < 200 -> 0 <= i / IPB < 25) as Hi.
  { intros i Hi. change IPB with 8. split; [apply Z.div_pos; lia|apply Z.div_lt_upper_bound; lia]. }
  constructor; cbn [sb_size ninodes inodestart bmapstart]; [unfold BSIZE; lia|lia|lia|..].
  - intros b H. rewrite Hb by done. unfold home, in_log. lia.
  - intros i H. pose proof (Hi i H). unfold home, in_log. lia.
  - intros b i H H'. rewrite Hb by done. pose proof (Hi i H'). lia.
Qed.

Lemma bmap_is x : bmap_block mksb x <-> x = 58.
Proof.
  rewrite mksb_val. unfold bmap_block. cbn [sb_size bmapstart]. split.
  - intros (b & Hb & ->). rewrite Z.div_small by (unfold BPB, BSIZE; lia). done.
  - intros ->. by exists 0.
Qed.

Lemma used_is C b : 0 <= b < 1000 -> used mksb C b = bit (C 58) b.
Proof.
  intros Hb. unfold used. rewrite mksb_val. cbn [bmapstart].
  rewrite Z.div_small, Z.mod_small by (unfold BPB, BSIZE; lia). done.
Qed.

Lemma xint_small x : 0 <= x < 2 ^ 32 -> xint x = x.
Proof. intros Hx. unfold xint. by rewrite le_value_u32, u32_small. Qed.

Lemma sector_small x : 0 <= x < 1000 -> sector x = x.
Proof. intros Hx. unfold sector, BSIZE. rewrite u32_small by lia. apply Z.div_mul. lia. Qed.

(** ** The bitmap *)

Lemma zeros_bit k : 0 <= k < BPB -> bit zeros k = false.
Proof.
  intros Hk. unfold bit. destruct (arr_get zeros (k / 8)) as [x| |] eqn:E; [|done..].
  apply arr_get_Ok in E as [_ E]. apply lookup_replicate in E as [-> _]. apply Z.bits_0.
Qed.

Lemma set_bits_spec n : Z.of_nat n <= BPB ->
  exists d, set_bits n zeros = Ok d /\ zlen d = BSIZE /\ Forall is_byte d /\
    forall k, 0 <= k < BPB -> bit d k = (k <? Z.of_nat n).
Proof.
  induction n as [|n IH]; intros Hn; cbn [set_bits].
  - exists zeros. split_and!; [done|done|apply zeros_bytes|]. intros k Hk. rewrite zeros_bit by done. symmetry. apply Z.ltb_ge. cbn. lia.
  - destruct IH as (d & E & Hl & Hb & Hbit); [lia|]. rewrite E. cbn [mbind res_bind].
    destruct (set_bit_spec d (Z.of_nat n) Hl Hb) as (d' & E' & Hl' & Hb' & Hbit'); [lia|].
    exists d'. split_and!; [done..|]. intros k Hk. rewrite Hbit', Hbit by done.
    apply Bool.eq_iff_eq_true. destruct (Z.eqb_spec k (Z.of_nat n)); rewrite ?Z.ltb_lt; split; intros; done || lia.
Qed.

Definition bitmap (n : Z) : list Z := match set_bits (Z.to_nat n) zeros with Ok d => d | _ => [] end.

Lemma bitmap_spec n : 0 <= n <= 1000 ->
  set_bits (Z.to_nat n) zeros = Ok (bitmap n) /\ zlen (bitmap n) = BSIZE /\ Forall is_byte (bitmap n) /\
  forall k, 0 <= k < 1000 -> bit (bitmap n) k = (k <? n).
Proof.
  intros Hn. destruct (set_bits_spec (Z.to_nat n)) as (d & E & Hl & Hb & Hbit); [unfold BPB, BSIZE; lia|].
  unfold bitmap. rewrite E. split_and!; [done..|]. intros k Hk. rewrite Hbit by (unfold BPB, BSIZE; lia). f_equal. lia.
Qed.

(** ** The disk that is being built *)

(** The boot block, the superblock and the log, which is empty. *)
Definition low_block (b : Z) : list Z := if b =? 1 then sb_bytes ++ replicate (512 - length sb_bytes) 0 else zeros.

Record shadow (s : mkst) (C : Z -> list Z) : Prop := {
  sd_img : forall b, 0 <= b < 1000 -> b <> 58 -> img s !! b = Some (C b);
  sd_map : C 58 = bitmap (freeblock s);
  sd_ok : forall b, 0 <= b < 1000 -> zlen (C b) = BSIZE /\ Forall is_byte (C b);
  sd_next : 59 <= freeblock s <= 1000;
  sd_zero : forall b, freeblock s <= b < 1000 -> C b = zeros;
  sd_low : forall b, 0 <= b < 32 -> C b = low_block b;
}.

Notation mk_fwf := (fwf nmeta mksb).
Notation mk_disk := (disk_ok FSSIZE nmeta mksb).
Notation mk_extends := (extends FSSIZE nmeta mksb).
Notation mk_data := (data_block nmeta mksb).

Lemma shadow_disk s C : shadow s C -> mk_disk C.
Proof.
  intros [Hi Hm Ho Hn Hz _]. constructor.
  - intros b Hb _. by apply Ho.
  - intros b Hb _. by apply Ho.
  - intros b Hb Hs. rewrite nmeta_val in Hb. rewrite used_is, Hm by lia.
    destruct (bitmap_spec (freeblock s)) as (_ & _ & _ & ->); lia.
Qed.

Lemma mk_data_is x : mk_data x <-> 59 <= x < 1000.
Proof. unfold data_block. rewrite nmeta_val, mksb_val. done. Qed.

(** A sector is read as it is on the disk, and a store changes it there. *)
Lemma rsect_run s C x : shadow s C -> 0 <= x < 1000 -> x <> 58 -> rsect x s = Ok (C x, s).
Proof. intros H Hx Hn. unfold rsect. by rewrite sector_small, (sd_img _ _ H). Qed.

Definition with_img (s : mkst) (x : Z) (d : list Z) : mkst :=
  {| img := <[x := d]> (img s); freeinode := freeinode s; freeblock := freeblock s |}.

Lemma wsect_run s x d : 0 <= x < 1000 -> wsect x d s = Ok ((), with_img s x d).
Proof. intros Hx. unfold wsect, modify. by rewrite sector_small. Qed.

Lemma shadow_store s C x d : shadow s C -> 32 <= x < freeblock s -> x <> 58 -> zlen d = BSIZE -> Forall is_byte d ->
  shadow (with_img s x d) (fupd C x d).
Proof.
  intros [Hi Hm Ho Hn Hz Hw] Hx Hne Hl Hb. constructor; cbn [img freeblock with_img].
  - intros b Hb' Hnb. unfold fupd. case_decide as E; [subst; by rewrite lookup_insert_eq|].
    rewrite lookup_insert_ne by done. by apply Hi.
  - rewrite fupd_ne by done. done.
  - intros b Hb'. unfold fupd. case_decide; [done|by apply Ho].
  - done.
  - intros b Hb'. rewrite fupd_ne by lia. by apply Hz.
  - intros b Hb'. rewrite fupd_ne by lia. by apply Hw.
Qed.

(** [freeblock++] is an allocation. *)
Definition grown (C : Z -> list Z) (n : Z) : Z -> list Z := fupd C 58 (bitmap (n + 1)).

Lemma new_block_run s C : shadow s C -> freeblock s < 1000 ->
  exists s', new_block s = Ok (freeblock s, s') /\ shadow s' (grown C (freeblock s)) /\
    freeblock s' = freeblock s + 1 /\ freeinode s' = freeinode s /\
    allocd FSSIZE nmeta mksb C (freeblock s) (grown C (freeblock s)).
Proof.
  intros H Hlt. pose proof H as [Hi Hm Ho Hn Hz Hw]. set (n := freeblock s) in *.
  exists {| img := img s; freeinode := freeinode s; freeblock := n + 1 |}.
  destruct (bitmap_spec (n + 1)) as (_ & Hbl & Hbb & Hbit); [lia|].
  destruct (bitmap_spec n) as (_ & _ & _ & Hbit0); [lia|].
  assert (shadow {| img := img s; freeinode := freeinode s; freeblock := n + 1 |} (grown C n)) as Hs'.
  { constructor; cbn [img freeblock]; unfold grown.
    - intros b Hb Hne. rewrite fupd_ne by done. by apply Hi.
    - by rewrite fupd_eq.
    - intros b Hb. unfold fupd. case_decide; [done|by apply Ho].
    - lia.
    - intros b Hb. rewrite fupd_ne by lia. apply Hz. lia.
    - intros b Hb. rewrite fupd_ne by lia. by apply Hw. }
  split_and!; [|done|done|done|].
  - unfold new_block. rewrite (bind_run _ _ s n s eq_refl), (bind_run (modify _) _ s () _ eq_refl).
    fold n. by rewrite (u32_small (n + 1)) by lia.
  - constructor; [apply mk_data_is; lia| | | | |by apply (shadow_disk _ _ Hs')].
    + rewrite used_is, Hm, Hbit0 by lia. lia.
    + unfold grown. rewrite fupd_ne by lia. apply Hz. lia.
    + intros x Hx. rewrite mksb_val in Hx. cbn [sb_size] in Hx. rewrite !used_is by lia. unfold grown.
      rewrite fupd_eq, Hm, Hbit, Hbit0 by lia. destruct (Z.eqb_spec x n); lia.
    + intros x Hx Hb. apply fupd_ne. intros ->. by apply Hb, bmap_is.
Qed.

(** ** A block for a role of the file *)

(** The role [r] of the file has the block [a], which is new if it had none. *)
Record slotted (s : mkst) (C : Z -> list Z) (A : list Z) (r : role) (a : Z) (s' : mkst) (C' : Z -> list Z) (A' : list Z) : Prop := {
  sl_shadow : shadow s' C';
  sl_extends : mk_extends C A C' A';
  sl_block : a <> 0;
  sl_addr : forall r', role_ok r' -> addr C' A' r' = if decide (r' = r) then a else addr C A r';
  sl_same : addr C A r <> 0 -> C' = C /\ A' = A;
  sl_next : freeblock s' = freeblock s + (if addr C A r =? 0 then 1 else 0);
  sl_inode : freeinode s' = freeinode s;
}.

Lemma slotted_refl s C A r : shadow s C -> mk_fwf C A -> addr C A r <> 0 -> slotted s C A r (addr C A r) s C A.
Proof.
  intros Hs Hwf Hn. constructor; [done| |done| |done| |done].
  - by apply extends_refl; [eapply shadow_disk|].
  - intros r' _. case_decide; congruence.
  - rewrite (proj2 (Z.eqb_neq _ _)) by done. lia.
Qed.

Lemma fwf_data C A r : mk_fwf C A -> role_ok r -> addr C A r <> 0 -> 59 <= addr C A r < 1000.
Proof. intros Hwf Hr Hn. apply mk_data_is. by apply (fw_used _ _ _ _ Hwf). Qed.

(** Blocks of the file have been handed out. *)
Lemma fwf_next s C A r : shadow s C -> mk_fwf C A -> role_ok r -> addr C A r <> 0 -> addr C A r < freeblock s.
Proof.
  intros Hs Hwf Hr Hn. pose proof (fwf_data C A r Hwf Hr Hn) as Hd. destruct (fw_used _ _ _ _ Hwf r Hr Hn) as [_ Hu].
  rewrite used_is, (sd_map _ _ Hs) in Hu by lia. pose proof (sd_next _ _ Hs).
  destruct (bitmap_spec (freeblock s)) as (_ & _ & _ & Hb); [lia|]. rewrite Hb in Hu by lia. by apply Z.ltb_lt.
Qed.

Lemma with_addrs_id c : with_addrs c (d_addrs c) = c.
Proof. by destruct c. Qed.

Lemma role_slot n : 0 <= n <= NDIRECT -> role_ok (slot n).
Proof. intros Hn. unfold slot. destruct (Z.ltb_spec n NDIRECT); [|done]. cbn. rewrite MAXFILE_val. unfold NDIRECT in *. lia. Qed.

Lemma slot_get C A n : mk_fwf C A -> 0 <= n <= NDIRECT -> arr_get A n = Ok (addr C A (slot n)).
Proof.
  intros Hwf Hn. rewrite addr_slot by done. unfold arr_get, dir. destruct (Z.ltb_spec n 0); [lia|].
  destruct (lookup_lt_is_Some_2 A (Z.to_nat n)) as [x ->]; [|done].
  pose proof (fw_len _ _ _ _ Hwf) as HA. unfold zlen, NDIRECT in *. lia.
Qed.

Lemma din_slot_run s C din n : shadow s C -> mk_fwf C (d_addrs din) -> 0 <= n <= NDIRECT ->
  (addr C (d_addrs din) (slot n) = 0 -> freeblock s < 1000) ->
  exists s' C' A' a, din_slot din n s = Ok (with_addrs din A', s') /\ slotted s C (d_addrs din) (slot n) a s' C' A'.
Proof.
  set (A := d_addrs din). intros Hs Hwf Hn Hroom. pose proof (role_slot n Hn) as Hro. unfold din_slot.
  rewrite (bind_run _ _ s (addr C A (slot n)) s) by (unfold pure; fold A; by rewrite (slot_get C A n)).
  destruct (Z.eq_dec (addr C A (slot n)) 0) as [H0|H0].
  2: { pose proof (fwf_data C A _ Hwf Hro H0). rewrite xint_small, (proj2 (Z.eqb_neq _ _)) by (done || lia).
       exists s, C, A, (addr C A (slot n)). split; [unfold A; by rewrite with_addrs_id|by apply slotted_refl]. }
  rewrite H0. change (xint 0 =? 0) with true. cbv iota.
  destruct (new_block_run s C Hs (Hroom H0)) as (s1 & E1 & Hs1 & Hn1 & Hi1 & Hal). rewrite (bind_run _ _ _ _ _ E1).
  set (a := freeblock s) in *. pose proof (sd_next _ _ Hs) as Hnx. fold a in Hnx. rewrite xint_small by lia.
  set (C1 := grown C a) in *.
  assert (Hset : arr_set A n a = Ok (<[Z.to_nat n := a]> A)) by (apply arr_set_ok; rewrite (fw_len _ _ _ _ Hwf); lia).
  rewrite (bind_run _ _ s1 (<[Z.to_nat n := a]> A) s1) by (unfold pure; fold A; by rewrite Hset).
  exists s1, C1, (<[Z.to_nat n := a]> A), a. split; [done|].
  destruct (alloc_fwf FSSIZE 2 30 nmeta mksb mk_layout C A a C1 Hwf Hal) as [E _].
  assert (Haddr : forall r, role_ok r -> addr C1 (<[Z.to_nat n := a]> A) r = if decide (r = slot n) then a else addr C A r).
  { intros r Hr. rewrite addr_dir; [|apply (fw_len _ _ _ _ Hwf)|done|apply (al_zero _ _ _ _ _ _ Hal)| |done].
    - by rewrite E.
    - by rewrite <- H0, addr_slot. }
  constructor; [done| |lia|done|done|rewrite Hn1, H0; done|done].
  eapply (linked_extends FSSIZE 2 30 nmeta mksb mk_layout C C1 C1); try done.
  - unfold zlen. rewrite length_insert. apply (fw_len _ _ _ _ Hwf).
  - intros x. by left.
Qed.

Lemma ind_slot_run s C A q n : shadow s C -> mk_fwf C A -> inner q = true -> role_ok q -> 0 <= n < NINDIRECT ->
  addr C A q <> 0 -> (addr C A (child q n) = 0 -> freeblock s < 1000) ->
  exists s' C' a, ind_slot (addr C A q) n s = Ok (a, s') /\ slotted s C A (child q n) a s' C' A.
Proof.
  intros Hs Hwf Hq Hqr Hn Hp Hroom. set (p := addr C A q) in *. pose proof (fwf_data C A q Hwf Hqr Hp) as Hpd. fold p in Hpd.
  pose proof (fwf_next s C A q Hs Hwf Hqr Hp) as Hpn. fold p in Hpn.
  pose proof (child_ok q n Hq Hqr Hn) as Hro. unfold ind_slot. rewrite xint_small by lia.
  rewrite (bind_run _ _ _ _ _ (rsect_run s C p Hs ltac:(lia) ltac:(lia))).
  destruct (sd_ok _ _ Hs p ltac:(lia)) as [Hlen Hbytes].
  rewrite (bind_run _ _ s (entry (C p) n) s) by (unfold pure; by rewrite (rdu32_ok (C p) n Hlen Hn)).
  assert (Hc : addr C A (child q n) = entry (C p) n).
  { rewrite addr_child by done. fold p. by rewrite (proj2 (Z.eqb_neq p 0)). }
  rewrite <- Hc. destruct (Z.eqb_spec (addr C A (child q n)) 0) as [H0|H0].
  2: { exists s, C, (addr C A (child q n)). split; [done|by apply slotted_refl]. }
  destruct (new_block_run s C Hs (Hroom H0)) as (s1 & E1 & Hs1 & Hn1 & Hi1 & Hal). rewrite (bind_run _ _ _ _ _ E1).
  set (a := freeblock s) in *. pose proof (sd_next _ _ Hs) as Hnx. fold a in Hnx. rewrite xint_small by lia.
  set (C1 := grown C a) in *. assert (C1 p = C p) as HCp by (unfold C1, grown; apply fupd_ne; lia).
  destruct (wr32_entry (C p) n a Hlen Hbytes Hn ltac:(lia)) as (d' & Hw & Hld & Hbd & Hent).
  rewrite (bind_run _ _ s1 d' s1) by (unfold pure; by rewrite Hw).
  rewrite (bind_run _ _ _ _ _ (wsect_run s1 p d' ltac:(lia))).
  exists (with_img s1 p d'), (fupd C1 p d'), a. split.
  { unfold pure. rewrite rdu32_ok, Hent by done. by rewrite Z.eqb_refl. }
  destruct (alloc_fwf FSSIZE 2 30 nmeta mksb mk_layout C A a C1 Hwf Hal) as [E Hwf1].
  assert (Haddr : forall r, role_ok r -> addr (fupd C1 p d') A r = if decide (r = child q n) then a else addr C A r).
  { intros r Hr. rewrite <- (E r Hr). unfold p. rewrite <- (E q Hqr).
    apply (addr_entry nmeta mksb); try done; rewrite ?E; try done.
    - apply (al_zero _ _ _ _ _ _ Hal).
    - fold p. lia.
    - fold p. by rewrite HCp. }
  constructor; [|clear Hent|lia|done|done|cbn; rewrite Hn1, H0; done|done].
  - apply shadow_store; [done|lia|lia|done|done].
  - eapply (linked_extends FSSIZE 2 30 nmeta mksb mk_layout C C1); try done; [apply (fw_len _ _ _ _ Hwf)|].
    intros x. destruct (decide (x = p)) as [->|Hx]; [|left; by rewrite fupd_ne].
    right. exists q. rewrite fupd_eq. done.
Qed.

(** ** The blocks of a file that has been appended to *)

(** The roles that a file of [nb] blocks has. *)
Definition needed (nb : Z) (r : role) : bool :=
  match r with Data k => k <? nb | Ind => NDIRECT <? nb | Ind2 i => NDIRECT + NINDIRECT * i <? nb end.

Definition shape (C : Z -> list Z) (A : list Z) (nb : Z) : Prop :=
  forall r, role_ok r -> (addr C A r =? 0) = negb (needed nb r).

(** How many blocks the next block of a file of [nb] takes, and all of them. *)
Definition step_cost (nb : Z) : Z :=
  1 + (if nb =? 12 then 1 else 0) + (if (12 <=? nb) && ((nb - 12) mod 128 =? 0) then 1 else 0).
Definition file_blocks (nb : Z) : Z := nb + (if 12 <? nb then 1 + (nb - 12 + 127) / 128 else 0).

Lemma file_blocks_step nb : 0 <= nb -> file_blocks (nb + 1) = file_blocks nb + step_cost nb.
Proof.
  intros Hn. unfold file_blocks, step_cost.
  pose proof (Z.div_mod (nb - 12) 128 ltac:(lia)) as H1. pose proof (Z.mod_pos_bound (nb - 12) 128 ltac:(lia)) as H2.
  pose proof (Z.div_mod (nb - 12 + 127) 128 ltac:(lia)) as H3. pose proof (Z.mod_pos_bound (nb - 12 + 127) 128 ltac:(lia)) as H4.
  pose proof (Z.div_mod (nb + 1 - 12 + 127) 128 ltac:(lia)) as H5. pose proof (Z.mod_pos_bound (nb + 1 - 12 + 127) 128 ltac:(lia)) as H6.
  destruct (Z.ltb_spec 12 (nb + 1)), (Z.ltb_spec 12 nb), (Z.eqb_spec nb 12), (Z.leb_spec 12 nb),
    (Z.eqb_spec ((nb - 12) mod 128) 0); cbn [andb]; lia.
Qed.

Lemma step_cost_pos nb : 1 <= step_cost nb.
Proof. unfold step_cost. repeat case_match; lia. Qed.

Lemma file_blocks_mono n m : 0 <= n <= m -> file_blocks n <= file_blocks m.
Proof.
  intros H. replace m with (n + Z.of_nat (Z.to_nat (m - n))) by lia. generalize (Z.to_nat (m - n)). intros k.
  induction k as [|k IH]; [by rewrite Z.add_0_r|]. replace (n + Z.of_nat (S k)) with (n + Z.of_nat k + 1) by lia.
  rewrite file_blocks_step by lia. pose proof (step_cost_pos (n + Z.of_nat k)). lia.
Qed.

Lemma slotted_zero s C A r a s' C' A' r' : slotted s C A r a s' C' A' -> role_ok r' ->
  (addr C' A' r' =? 0) = if decide (r' = r) then false else (addr C A r' =? 0).
Proof.
  intros H Hr. rewrite (sl_addr _ _ _ _ _ _ _ _ H) by done. case_decide; [|done].
  apply Z.eqb_neq. apply (sl_block _ _ _ _ _ _ _ _ H).
Qed.

(** The block [k] of a file with [nb] blocks, at most the next one. *)
Record block_got (s : mkst) (C : Z -> list Z) (A : list Z) (nb k x : Z) (s' : mkst) (C' : Z -> list Z) (A' : list Z) : Prop := {
  bg_shadow : shadow s' C';
  bg_extends : mk_extends C A C' A';
  bg_addr : addr C' A' (Data k) = x;
  bg_block : x <> 0;
  bg_same : addr C A (Data k) <> 0 -> C' = C /\ A' = A;
  bg_shape : shape C' A' (Z.max nb (k + 1));
  bg_next : freeblock s' = freeblock s + (if k =? nb then step_cost nb else 0);
  bg_inode : freeinode s' = freeinode s;
}.

Lemma block_for_direct s C din nb k : shadow s C -> mk_fwf C (d_addrs din) -> shape C (d_addrs din) nb ->
  0 <= k <= nb -> k < NDIRECT -> (k = nb -> freeblock s + step_cost nb <= 1000) ->
  exists s' C' A' x, block_for din k s = Ok ((with_addrs din A', x), s') /\ block_got s C (d_addrs din) nb k x s' C' A'.
Proof.
  intros Hs Hwf Hsh Hk Hd Hroom. unfold block_for. rewrite (proj2 (Z.ltb_lt k NDIRECT)) by done.
  assert (slot k = Data k) as Hslot by (unfold slot; by rewrite (proj2 (Z.ltb_lt k NDIRECT))).
  assert (role_ok (Data k)) as Hr by (cbn; rewrite MAXFILE_val; unfold NDIRECT in *; lia).
  pose proof (Hsh (Data k) Hr) as Hz. cbn [needed] in Hz. pose proof (step_cost_pos nb).
  destruct (din_slot_run s C din k Hs Hwf) as (s1 & C1 & A1 & a & E1 & H1); [unfold NDIRECT in *; lia| |].
  { rewrite Hslot. intros E. rewrite E in Hz. destruct (Z.ltb_spec k nb); [done|]. assert (k = nb) by lia. specialize (Hroom ltac:(lia)). lia. }
  rewrite (bind_run _ _ _ _ _ E1). rewrite Hslot in H1. pose proof H1 as [S1 X1 B1 AD1 SM1 N1 I1].
  pose proof (x_wf _ _ _ _ _ _ _ (x_grows _ _ _ _ _ _ _ X1)) as W1.
  assert (addr C1 A1 (Data k) = a) as Ha by (rewrite AD1 by done; by rewrite decide_True).
  rewrite (bind_run _ _ s1 a s1).
  2: { unfold pure. cbn [d_addrs with_addrs]. rewrite (slot_get C1 A1 k W1), Hslot, Ha by (unfold NDIRECT in *; lia). done. }
  pose proof (fwf_data C1 A1 (Data k) W1 Hr ltac:(by rewrite Ha)) as Hdat. rewrite Ha in Hdat. rewrite xint_small by lia.
  exists s1, C1, A1, a. split; [done|]. constructor; [done|done|done|done|done| | |done].
  - intros r Hrr. rewrite (slotted_zero _ _ _ _ _ _ _ _ _ H1 Hrr). case_decide as E.
    + subst r. cbn [needed]. symmetry. apply negb_false_iff, Z.ltb_lt. lia.
    + rewrite (Hsh r Hrr). f_equal. unfold NDIRECT in *. destruct r as [j| |i]; cbn [needed]; apply Bool.eq_iff_eq_true; rewrite !Z.ltb_lt.
      * split; [lia|]. intros. assert (j <> k) by congruence. lia.
      * unfold NDIRECT. lia.
      * cbn in Hrr. rewrite NINDIRECT_val in *. unfold NDIRECT. lia.
  - rewrite N1, Hz. unfold step_cost. unfold NDIRECT in *. destruct (Z.eqb_spec k nb) as [->|Hne].
    + rewrite (proj2 (Z.ltb_ge nb nb)), (proj2 (Z.eqb_neq nb 12)), (proj2 (Z.leb_gt 12 nb)) by lia. done.
    + rewrite (proj2 (Z.ltb_lt k nb)) by lia. done.
Qed.

(** What the blocks of a data block behind the direct ones cost. *)
Lemma indirect_cost C A nb k : shape C A nb -> 0 <= k <= nb -> NDIRECT <= k < MAXFILE ->
  (if addr C A Ind =? 0 then 1 else 0) + (if addr C A (Ind2 (major k)) =? 0 then 1 else 0) +
  (if addr C A (Data k) =? 0 then 1 else 0) = if k =? nb then step_cost nb else 0.
Proof.
  intros Hsh Hk Hd. destruct (major_range k Hd) as [Hmaj _].
  assert (role_ok (Data k)) as Hr by (cbn; unfold NDIRECT in *; lia).
  rewrite (Hsh (Data k) Hr), (Hsh Ind I), (Hsh (Ind2 (major k)) Hmaj). cbn [needed].
  unfold step_cost, major, minor, NDIRECT in *. rewrite NINDIRECT_val in *.
  pose proof (Z.div_mod (k - 12) 128 ltac:(lia)). pose proof (Z.mod_pos_bound (k - 12) 128 ltac:(lia)).
  destruct (Z.eqb_spec k nb) as [<-|Hne].
  - rewrite (proj2 (Z.ltb_ge k k)), (proj2 (Z.leb_le 12 k)) by lia. cbn [negb andb].
    destruct (Z.ltb_spec 12 k), (Z.eqb_spec k 12), (Z.ltb_spec (12 + 128 * ((k - 12) / 128)) k),
      (Z.eqb_spec ((k - 12) mod 128) 0); cbn [negb]; lia.
  - rewrite !(proj2 (Z.ltb_lt _ nb)) by lia. done.
Qed.

(** The shape after the three roles of a block. *)
Lemma indirect_shape (z z' : role -> bool) nb k : (forall r, role_ok r -> z r = negb (needed nb r)) ->
  0 <= k <= nb -> NDIRECT <= k < MAXFILE ->
  (forall r, role_ok r -> z' r = if decide (r = Data k) then false else if decide (r = Ind2 (major k)) then false
     else if decide (r = Ind) then false else z r) ->
  forall r, role_ok r -> z' r = negb (needed (Z.max nb (k + 1)) r).
Proof.
  intros Hz Hk Hd Hz' r Hr. rewrite Hz' by done. unfold major, NDIRECT in *. rewrite NINDIRECT_val in *.
  pose proof (Z.div_mod (k - 12) 128 ltac:(lia)). pose proof (Z.mod_pos_bound (k - 12) 128 ltac:(lia)).
  repeat case_decide; subst; [..|rewrite Hz by done]; cbn [needed]; unfold NDIRECT; rewrite ?NINDIRECT_val.
  1-3: symmetry; apply negb_false_iff, Z.ltb_lt; lia.
  f_equal. destruct r as [j| |i]; [| |cbn in Hr; rewrite NINDIRECT_val in Hr]; cbn [needed]; [..|rewrite NINDIRECT_val];
    apply Bool.eq_iff_eq_true; rewrite !Z.ltb_lt; [|done|].
  - assert (j <> k) by congruence. lia.
  - assert (i <> (k - 12) / 128) by congruence. unfold NDIRECT. lia.
Qed.

Lemma block_for_indirect s C din nb k : shadow s C -> mk_fwf C (d_addrs din) -> shape C (d_addrs din) nb ->
  0 <= k <= nb -> NDIRECT <= k < MAXFILE -> (k = nb -> freeblock s + step_cost nb <= 1000) ->
  exists s' C' A' x, block_for din k s = Ok ((with_addrs din A', x), s') /\ block_got s C (d_addrs din) nb k x s' C' A'.
Proof.
  intros Hs Hwf Hsh Hk Hd Hroom. set (A := d_addrs din) in *. unfold block_for. rewrite (proj2 (Z.ltb_ge k NDIRECT)) by lia.
  rewrite (u32_small (k - NDIRECT)) by (rewrite MAXFILE_val in Hd; unfold NDIRECT in *; lia). fold (major k) (minor k). cbv zeta.
  destruct (major_range k Hd) as [Hmaj Hmin].
  assert (child (Ind2 (major k)) (minor k) = Data k) as Hck.
  { cbn. f_equal. unfold major, minor. pose proof (Z.div_mod (k - NDIRECT) NINDIRECT ltac:(done)). lia. }
  assert (role_ok (Data k)) as Hr by (cbn; unfold NDIRECT in *; lia).
  assert (role_ok (Ind2 (major k))) as Hr2 by done.
  pose proof (indirect_cost C A nb k Hsh Hk Hd) as Hcost.
  assert (freeblock s + (if k =? nb then step_cost nb else 0) <= 1000) as Hmax.
  { destruct (Z.eqb_spec k nb); [by apply Hroom|]. pose proof (sd_next _ _ Hs). lia. }
  assert (forall b : bool, 0 <= (if b then 1 else 0) <= 1) as Hbit by (intros []; lia).
  pose proof (Hbit (addr C A Ind =? 0)) as Hb1. pose proof (Hbit (addr C A (Ind2 (major k)) =? 0)) as Hb2.
  pose proof (Hbit (addr C A (Data k) =? 0)) as Hb3. clear Hbit.
  destruct (din_slot_run s C din NDIRECT Hs Hwf) as (s1 & C1 & A1 & a1 & E1 & H1); [unfold NDIRECT; lia| |].
  { change (slot NDIRECT) with Ind. fold A. intros E. rewrite E, Z.eqb_refl in Hcost. lia. }
  change (slot NDIRECT) with Ind in H1. fold A in H1. rewrite (bind_run _ _ _ _ _ E1). pose proof H1 as [S1 X1 B1 AD1 SM1 N1 I1].
  pose proof (x_wf _ _ _ _ _ _ _ (x_grows _ _ _ _ _ _ _ X1)) as W1.
  assert (addr C1 A1 Ind = a1) as Ha1 by (rewrite AD1 by done; by rewrite decide_True).
  rewrite (bind_run _ _ s1 (addr C1 A1 Ind) s1).
  2: { unfold pure. cbn [d_addrs with_addrs]. by rewrite (slot_get C1 A1 NDIRECT W1) by (unfold NDIRECT; lia). }
  assert (addr C1 A1 (Ind2 (major k)) = addr C A (Ind2 (major k))) as HI2 by (rewrite AD1 by done; by rewrite decide_False).
  destruct (ind_slot_run s1 C1 A1 Ind (major k) S1 W1 eq_refl I Hmaj) as (s2 & C2 & a2 & E2 & H2); [by rewrite Ha1| |].
  { cbn [child]. rewrite HI2, N1. intros E. rewrite E, Z.eqb_refl in Hcost. lia. }
  cbn [child] in H2. rewrite (bind_run _ _ _ _ _ E2). pose proof H2 as [S2 X2 B2 AD2 SM2 N2 I2].
  pose proof (x_wf _ _ _ _ _ _ _ (x_grows _ _ _ _ _ _ _ X2)) as W2.
  assert (addr C2 A1 (Ind2 (major k)) = a2) as Ha2 by (rewrite AD2 by done; by rewrite decide_True).
  assert (addr C2 A1 (Data k) = addr C A (Data k)) as HD2.
  { rewrite AD2, decide_False by done. rewrite AD1 by done. by rewrite decide_False. }
  destruct (ind_slot_run s2 C2 A1 (Ind2 (major k)) (minor k) S2 W2 eq_refl Hr2 Hmin) as (s3 & C3 & a3 & E3 & H3); [by rewrite Ha2| |].
  { rewrite Hck, HD2, N2, HI2, N1. intros E. rewrite E, Z.eqb_refl in Hcost. lia. }
  rewrite Ha2 in E3. rewrite Hck in H3. rewrite (bind_run _ _ _ _ _ E3). pose proof H3 as [S3 X3 B3 AD3 SM3 N3 I3].
  pose proof (x_wf _ _ _ _ _ _ _ (x_grows _ _ _ _ _ _ _ X3)) as W3.
  assert (addr C3 A1 (Data k) = a3) as Ha3 by (rewrite AD3 by done; by rewrite decide_True).
  pose proof (fwf_data C3 A1 (Data k) W3 Hr ltac:(by rewrite Ha3)) as Hdat. rewrite Ha3 in Hdat. rewrite xint_small by lia.
  exists s3, C3, A1, a3. split; [done|]. constructor; [done| |done|done| | | |congruence].
  - eapply (extends_trans _ _ _ _ _ mk_layout); [exact X1|]. by eapply (extends_trans _ _ _ _ _ mk_layout).
  - intros Hn. assert (addr C A (Ind2 (major k)) <> 0) as Hn2.
    { rewrite <- Hck, addr_child in Hn by done. by destruct (Z.eqb_spec (addr C A (Ind2 (major k))) 0). }
    assert (addr C A Ind <> 0) as Hn1.
    { change (Ind2 (major k)) with (child Ind (major k)) in Hn2. rewrite addr_child in Hn2 by done.
      by destruct (Z.eqb_spec (addr C A Ind) 0). }
    destruct SM3 as [-> _]; [congruence|]. destruct SM2 as [-> _]; [congruence|]. by apply SM1.
  - pose proof (indirect_shape (fun r => addr C A r =? 0) (fun r => addr C3 A1 r =? 0) nb k Hsh Hk Hd) as Hshape.
    intros r Hrr. apply Hshape; [|done]. clear r Hrr Hshape. intros r Hrr. cbv beta.
    rewrite (slotted_zero _ _ _ _ _ _ _ _ _ H3 Hrr), (slotted_zero _ _ _ _ _ _ _ _ _ H2 Hrr), (slotted_zero _ _ _ _ _ _ _ _ _ H1 Hrr).
    done.
  - rewrite N3, HD2, N2, HI2, N1. lia.
Qed.

Lemma block_for_run s C din nb k : shadow s C -> mk_fwf C (d_addrs din) -> shape C (d_addrs din) nb ->
  0 <= k <= nb -> k < MAXFILE -> (k = nb -> freeblock s + step_cost nb <= 1000) ->
  exists s' C' A' x, block_for din k s = Ok ((with_addrs din A', x), s') /\ block_got s C (d_addrs din) nb k x s' C' A'.
Proof.
  intros Hs Hwf Hsh Hk Hd Hroom. destruct (Z.lt_ge_cases k NDIRECT).
  - by apply block_for_direct.
  - by apply block_for_indirect.
Qed.

(** ** Appending *)

(** The blocks of [n] bytes. *)
Definition nblk (n : Z) : Z := (n + 511) / 512.

Lemma nblk_step off m : 0 <= off -> 0 < m <= 512 - off mod 512 ->
  nblk (off + m) = off / 512 + 1 /\ nblk off = off / 512 + (if off mod 512 =? 0 then 0 else 1).
Proof.
  intros Ho Hm. unfold nblk. pose proof (Z.div_mod off 512 ltac:(lia)). pose proof (Z.mod_pos_bound off 512 ltac:(lia)).
  split.
  - symmetry. apply (Z.div_unique _ _ _ (off mod 512 + m - 1)); lia.
  - symmetry. destruct (Z.eqb_spec (off mod 512) 0).
    + apply (Z.div_unique _ _ _ 511); lia.
    + apply (Z.div_unique _ _ _ (off mod 512 - 1)); lia.
Qed.

Lemma nblk_mono n m : n <= m -> nblk n <= nblk m.
Proof. intros H. apply Z.div_le_mono; lia. Qed.

Lemma nblk_nonneg n : 0 <= n -> 0 <= nblk n.
Proof. intros H. apply Z.div_pos; lia. Qed.

(** The bytes [p] have been appended at [off] to the file of [A]. *)
Record appended (s : mkst) (C : Z -> list Z) (A : list Z) (off : Z) (p : list Z) (s' : mkst) (C' : Z -> list Z) (A' : list Z) : Prop := {
  ap_shadow : shadow s' C';
  ap_wrote : wrote FSSIZE nmeta mksb C A off p C' A';
  ap_shape : shape C' A' (nblk (off + zlen p));
  ap_next : freeblock s' = freeblock s + (file_blocks (nblk (off + zlen p)) - file_blocks (nblk off));
  ap_inode : freeinode s' = freeinode s;
}.

(** One turn of the loop. *)
Lemma chunk_run s C din off bs : shadow s C -> mk_fwf C (d_addrs din) -> shape C (d_addrs din) (nblk off) ->
  0 <= off -> 0 < zlen bs -> off mod BSIZE + zlen bs <= BSIZE -> off + zlen bs <= MAXFILE * BSIZE -> Forall is_byte bs ->
  freeblock s + (file_blocks (nblk (off + zlen bs)) - file_blocks (nblk off)) <= 1000 ->
  exists s1 A1 x buf buf' s2 C2, block_for din (off / BSIZE) s = Ok ((with_addrs din A1, x), s1) /\
    rsect x s1 = Ok (buf, s1) /\ arr_write buf (off - off / BSIZE * BSIZE) bs = Ok buf' /\ wsect x buf' s1 = Ok ((), s2) /\
    appended s C (d_addrs din) off bs s2 C2 A1.
Proof.
  intros Hs Hwf Hsh Ho Hb Hfit Hmax Hby Hroom. set (A := d_addrs din) in *. set (k := off / BSIZE) in *.
  destruct (nblk_step off (zlen bs) Ho) as [Hn1 Hn0]; [unfold BSIZE in *; lia|]. change 512 with BSIZE in Hn1, Hn0. fold k in Hn1, Hn0.
  pose proof (block_index off ltac:(lia)) as Hk. fold k in Hk.
  pose proof (file_blocks_step k ltac:(lia)) as Hstep.
  assert ((if k =? nblk off then step_cost (nblk off) else 0) = file_blocks (nblk (off + zlen bs)) - file_blocks (nblk off)) as Hcost.
  { rewrite Hn1, Hn0. destruct (off mod BSIZE =? 0).
    - rewrite Z.add_0_r, Z.eqb_refl. lia.
    - rewrite (proj2 (Z.eqb_neq k (k + 1))) by lia. lia. }
  destruct (block_for_run s C din (nblk off) k Hs Hwf Hsh) as (s1 & C1 & A1 & x & E1 & [S1 X1 Ha Hx Hsame Hsh1 Hnx Hin]).
  { destruct (off mod BSIZE =? 0); lia. }
  { lia. }
  { intros Ek. rewrite (proj2 (Z.eqb_eq _ _) Ek) in Hcost. lia. }
  fold A in X1, Hsame. pose proof (x_wf _ _ _ _ _ _ _ (x_grows _ _ _ _ _ _ _ X1)) as W1.
  assert (role_ok (Data k)) as Hr by done.
  assert (59 <= x < 1000) as Hxd by (rewrite <- Ha; apply fwf_data; [done|done|by rewrite Ha]).
  assert (x < freeblock s1) as Hxn by (rewrite <- Ha; apply (fwf_next s1 C1 A1); [done|done|done|by rewrite Ha]).
  destruct (sd_ok _ _ S1 x ltac:(lia)) as [Hl1 Hb1].
  assert (off - k * BSIZE = off mod BSIZE) as Hoff by (unfold k; pose proof (Z.div_mod off BSIZE ltac:(done)); lia).
  assert (content C1 A1 k = C1 x) as Hcon by (unfold content; rewrite Ha; by rewrite (proj2 (Z.eqb_neq x 0))).
  pose proof (Z.mod_pos_bound off BSIZE ltac:(done)).
  destruct (arr_write_ok (C1 x) (off mod BSIZE) bs) as (d & Hw & Hdl); [lia|lia|].
  pose proof (arr_write_bytes _ _ _ _ Hw Hb1 Hby) as Hdb.
  exists s1, A1, x, (C1 x), d, (with_img s1 x d), (fupd C1 x d). rewrite Hoff.
  split_and!; [done|by apply rsect_run; [|lia|lia]|done|apply wsect_run; lia|].
  destruct (store_grows FSSIZE 2 30 nmeta mksb mk_layout C1 A1 k d) as (_ & E2 & _);
    [by eapply shadow_disk|done|done|by rewrite Ha|lia|done|]. rewrite Ha in E2.
  constructor.
  - apply shadow_store; [done|lia|lia|lia|done].
  - rewrite <- Ha. apply (wrote_chunk FSSIZE 2 30 nmeta mksb mk_layout C A C1 A1 off bs d); try done; fold k; [by rewrite Ha|lia|by rewrite Hcon].
  - intros r Hrr. rewrite E2 by done. rewrite (Hsh1 r Hrr). do 2 f_equal. rewrite Hn0, Hn1. destruct (off mod BSIZE =? 0); lia.
  - cbn [freeblock with_img]. by rewrite Hnx, Hcost.
  - done.
Qed.

Lemma with_addrs_with c A A' : with_addrs (with_addrs c A) A' = with_addrs c A'.
Proof. done. Qed.

Lemma iappend_loop_run fuel s C din off p : shadow s C -> mk_fwf C (d_addrs din) -> shape C (d_addrs din) (nblk off) ->
  0 <= off -> off + zlen p <= MAXFILE * BSIZE -> Forall is_byte p -> (length p < fuel)%nat ->
  freeblock s + (file_blocks (nblk (off + zlen p)) - file_blocks (nblk off)) <= 1000 ->
  exists s' C' A', iappend_loop fuel din off p s = Ok ((with_addrs din A', off + zlen p), s') /\
    appended s C (d_addrs din) off p s' C' A'.
Proof.
  revert s C din off p. induction fuel as [|fuel IH]; intros s C din off p Hs Hwf Hsh Ho Hmax Hby Hf Hroom; [lia|].
  cbn [iappend_loop]. destruct p as [|b p0].
  { exists s, C, (d_addrs din). change (zlen []) with 0 in *. rewrite Z.add_0_r, with_addrs_id. split; [done|].
    constructor; rewrite ?Z.add_0_r; [done| |done|lia|done]. apply wrote_nil; [by eapply shadow_disk|done]. }
  set (p := b :: p0) in *. pose proof Hmax as Hmx. rewrite MAXBYTES in Hmx. assert (0 < zlen p) as Hp by (unfold p; rewrite zlen_cons; pose proof (zlen_nonneg p0); lia).
  pose proof (Z.div_mod off BSIZE ltac:(done)) as Hdm. pose proof (Z.mod_pos_bound off BSIZE ltac:(done)) as Hmb.
  assert (off / BSIZE < MAXFILE) as Hk by (apply block_index; lia). rewrite (proj2 (Z.ltb_lt _ _) Hk). cbn [negb].
  assert (u32 (u32 ((off / BSIZE + 1) * BSIZE) - off) = BSIZE - off mod BSIZE) as ->.
  { rewrite MAXFILE_val in Hk. unfold BSIZE in *. rewrite (u32_small ((off / 512 + 1) * 512)) by lia. rewrite u32_small by lia. lia. }
  set (m := Z.min (zlen p) (BSIZE - off mod BSIZE)).
  assert (0 < m <= zlen p /\ off mod BSIZE + m <= BSIZE) as [Hm Hfit] by (unfold m; lia).
  set (bs := take (Z.to_nat m) p). assert (zlen bs = m) as Hbs by (unfold bs, zlen in *; rewrite length_take; lia).
  assert (zlen (drop (Z.to_nat m) p) = zlen p - m) as Hrest by (unfold zlen in *; rewrite length_drop; lia).
  pose proof (file_blocks_mono (nblk (off + m)) (nblk (off + zlen p))) as Hmono.
  specialize (Hmono ltac:(split; [apply nblk_nonneg; lia|apply nblk_mono; lia])).
  destruct (chunk_run s C din off bs Hs Hwf Hsh Ho) as (s1 & A1 & x & buf & buf' & s2 & C2 & E1 & E2 & E3 & E4 & Hap1);
    rewrite ?Hbs; [lia|lia|lia|by apply Forall_take|lia|].
  rewrite (bind_run _ _ _ _ _ E1). cbv beta iota. rewrite (bind_run _ _ _ _ _ E2). fold bs.
  rewrite (bind_run _ _ s1 buf' s1) by (unfold pure; by rewrite E3). rewrite (bind_run _ _ _ _ _ E4).
  rewrite (u32_small (off + m)) by lia. pose proof Hap1 as [S2 W2 Sh2 N2 I2]. rewrite Hbs in Sh2, N2.
  pose proof (x_wf _ _ _ _ _ _ _ (wr_grows _ _ _ _ _ _ _ _ _ W2)) as WF2.
  destruct (IH s2 C2 (with_addrs din A1) (off + m) (drop (Z.to_nat m) p)) as (s3 & C3 & A3 & E5 & [S3 W3 Sh3 N3 I3]);
    cbn [d_addrs with_addrs]; [done|done|done|lia|lia|by apply Forall_drop|rewrite length_drop; unfold zlen in Hm; lia| |].
  { rewrite Hrest. replace (off + m + (zlen p - m)) with (off + zlen p) by lia. lia. }
  cbn [d_addrs with_addrs] in W3. rewrite Hrest in *. replace (off + m + (zlen p - m)) with (off + zlen p) in * by lia.
  exists s3, C3, A3. split; [exact E5|]. constructor; [done| |done|lia|congruence].
  rewrite <- (take_drop (Z.to_nat m) p). fold bs.
  apply (wrote_app FSSIZE 2 30 nmeta mksb mk_layout C (d_addrs din) off bs C2 A1); rewrite ?Hbs, ?Hrest; [done|lia|done|done].
Qed.

(** ** The files of the image *)

(** The inode number [inum] with the structure [c], as the kernel will have it. *)
Definition ino (inum : Z) (c : dinode) : inode :=
  {| i_dev := 1; i_inum := inum; i_ref := 0; i_lock := {| locked := 0; pid := 0 |}; i_valid := 1; i_copy := c |}.

Notation mk_file := (file_at nmeta mksb).

(** The files built so far: for every inode in use, its structure and contents. *)
Record files_are (s : mkst) (C : Z -> list Z) (F : gmap Z (dinode * list Z)) : Prop := {
  fi_shadow : shadow s C;
  fi_next : 1 <= freeinode s <= 200;
  fi_dom : forall i, is_Some (F !! i) -> 1 <= i < freeinode s;
  fi_file : forall i c bytes, F !! i = Some (c, bytes) -> mk_file C (ino i c) bytes /\ shape C (d_addrs c) (nblk (zlen bytes));
  fi_tail : forall i c bytes, F !! i = Some (c, bytes) ->
    forall o, zlen bytes <= o < MAXFILE * BSIZE -> fbyte C (d_addrs c) o = 0;
  fi_apart : forall i j c d b b', i <> j -> F !! i = Some (c, b) -> F !! j = Some (d, b') -> apart C (d_addrs c) (d_addrs d);
}.

Lemma inode_block i : 0 <= i < 200 -> IBLOCK i mksb = i / IPB + 32 /\ 32 <= i / IPB + 32 < 58.
Proof.
  intros Hi. unfold IBLOCK. rewrite mksb_val. cbn [inodestart]. change IPB with 8.
  assert (0 <= i / 8 < 25) by (split; [apply Z.div_pos|apply Z.div_lt_upper_bound]; lia). rewrite u32_small by lia. lia.
Qed.

Lemma iblk_ino i c : iblk mksb (ino i c) = i / IPB + 32.
Proof. unfold iblk. by rewrite mksb_val. Qed.

Lemma rinode_run s C i c b : shadow s C -> mk_file C (ino i c) b -> rinode i s = Ok (c, s).
Proof.
  intros Hs Hf. pose proof (fa_inum _ _ _ _ _ Hf) as Hi. rewrite mksb_val in Hi. cbn in Hi.
  destruct (inode_block i Hi) as [E Hr]. unfold rinode. rewrite E.
  rewrite (bind_run _ _ _ _ _ (rsect_run s C (i / IPB + 32) Hs ltac:(lia) ltac:(lia))).
  pose proof (fa_synced _ _ _ _ _ Hf) as Hsy. rewrite iblk_ino in Hsy. unfold ioff in Hsy. cbn [i_inum ino i_copy] in Hsy.
  unfold pure. by rewrite Hsy.
Qed.

(** Writing an inode structure to its place. *)
Lemma winode_run s C i c : shadow s C -> 0 <= i < 200 -> dinode_ok c ->
  exists s' d, winode i c s = Ok ((), s') /\ shadow s' (fupd C (i / IPB + 32) d) /\
    patch (C (i / IPB + 32)) (i mod IPB * dinode_size) (i mod IPB * dinode_size + dinode_size) d /\
    rd_dinode d (i mod IPB * dinode_size) = Ok c /\ freeblock s' = freeblock s /\ freeinode s' = freeinode s.
Proof.
  intros Hs Hi Hc. destruct (inode_block i Hi) as [E Hr]. unfold winode. rewrite E.
  rewrite (bind_run _ _ _ _ _ (rsect_run s C (i / IPB + 32) Hs ltac:(lia) ltac:(lia))).
  destruct (sd_ok _ _ Hs (i / IPB + 32) ltac:(lia)) as [Hl Hb].
  destruct (ioff_ok (ino i c)) as [Ho1 Ho2]. unfold ioff in Ho1, Ho2. cbn [i_inum ino] in Ho1, Ho2.
  destruct (wr_dinode_spec (C (i / IPB + 32)) (i mod IPB * dinode_size) c) as (d & Hw & Hp & Hrd); [done|lia|done|].
  rewrite (bind_run _ _ s d s) by (unfold pure; by rewrite Hw).
  exists (with_img s (i / IPB + 32) d), d. split_and!; [apply wsect_run; lia| |done|done|done|done].
  pose proof (sd_next _ _ Hs). apply shadow_store; [done|lia|lia|by rewrite (pa_len _ _ _ _ Hp)|by apply Hp].
Qed.
