(* ===== verification/MkfsImage.v ===== *)
(** * The image that mkfs makes

    The run of [mkfs] on a list of files: the image has the superblock, an empty
    log, the bitmap of the blocks in use, the root directory with an entry for
    every file, and the files with their contents. *)

From stdpp Require Import base list strings gmap sets.
From Stdlib Require Import ZArith Lia.
From S2P Require Import Prelude State Bio BioProofs Log LogProofs CrashProofs Transact Fs FsBase FsAlloc FsFile FsData FsInode FsOps Mkfs MkfsProofs.

(** ** One file among the others *)

Lemma inode_meta i : 0 <= i < 200 -> ~ mk_data (i / IPB + 32) /\ ~ bmap_block mksb (i / IPB + 32).
Proof. intros Hi. destruct (inode_block i Hi) as [_ Hr]. rewrite mk_data_is, bmap_is. lia. Qed.

Lemma shape_ext C A C' A' nb : shape C A nb -> (forall r, role_ok r -> addr C' A' r = addr C A r) -> shape C' A' nb.
Proof. intros H E r Hr. rewrite E by done. by apply H. Qed.

Lemma splice_end (bytes p : list Z) :
  take (Z.to_nat (zlen bytes)) bytes ++ p ++ drop (Z.to_nat (zlen bytes) + length p) bytes = bytes ++ p.
Proof.
  unfold zlen. rewrite Nat2Z.id, take_ge, drop_ge by lia. by rewrite app_nil_r.
Qed.

(** The blocks of a file decide its bytes. *)
Lemma fbyte_same C C' A : (forall r, role_ok r -> addr C A r <> 0 -> C' (addr C A r) = C (addr C A r)) ->
  forall o, 0 <= o < MAXFILE * BSIZE -> fbyte C' A o = fbyte C A o.
Proof.
  intros H o Ho. pose proof (block_index o Ho) as Hk. unfold fbyte, content.
  rewrite (addr_ext C C' A (fun r Hr _ => H r Hr) (Data (o / BSIZE)) Hk).
  destruct (Z.eqb_spec (addr C A (Data (o / BSIZE))) 0); [done|]. by rewrite (H (Data (o / BSIZE)) Hk).
Qed.

(** A file keeps its blocks when another one changes. *)
Lemma other_blocks C i ci j cj bj C' A' : changed FSSIZE nmeta mksb C (ino i ci) C' A' -> 0 <= i < 200 -> mk_file C (ino j cj) bj ->
  apart C (d_addrs cj) (d_addrs ci) ->
  forall r, role_ok r -> addr C (d_addrs cj) r <> 0 -> C' (addr C (d_addrs cj) r) = C (addr C (d_addrs cj) r).
Proof.
  intros (C1 & HG & Hw) Hi Hfj Hap r Hr Hn. destruct (fw_used _ _ _ _ (fa_wf _ _ _ _ _ Hfj) r Hr Hn) as [Hd Hu].
  cbn [i_copy ino] in Hd, Hu. assert (C1 (addr C (d_addrs cj) r) = C (addr C (d_addrs cj) r)) as E1.
  { apply (x_frame _ _ _ _ _ _ _ HG); [by eapply (data_not_bmap FSSIZE 2 30 nmeta mksb mk_layout)|done|].
    intros r' Hr' He. by apply (Hap r r'). }
  destruct Hw as [->|(d & -> & _)]; [done|]. rewrite fupd_ne; [done|]. rewrite iblk_ino. intros He. rewrite He in Hd.
  by destruct (inode_meta i Hi).
Qed.

(** What [iappend] does to the disk: the file grows, then its inode is written. *)
Lemma append_file s C i c bytes p s1 C1 A1 d : mk_file C (ino i c) bytes -> appended s C (d_addrs c) (zlen bytes) p s1 C1 A1 ->
  zlen bytes + zlen p <= MAXFILE * BSIZE -> let c' := with_fsize (with_addrs c A1) (zlen bytes + zlen p) in
  patch (C1 (i / IPB + 32)) (i mod IPB * dinode_size) (i mod IPB * dinode_size + dinode_size) d ->
  rd_dinode d (i mod IPB * dinode_size) = Ok c' ->
  mk_file (fupd C1 (i / IPB + 32) d) (ino i c') (bytes ++ p) /\ shape (fupd C1 (i / IPB + 32) d) A1 (nblk (zlen (bytes ++ p))) /\
  changed FSSIZE nmeta mksb C (ino i c) (fupd C1 (i / IPB + 32) d) A1.
Proof.
  intros Hf [S1 W1 Sh1 _ _] Hmax c' Hp Hrd. pose proof (fa_inum _ _ _ _ _ Hf) as Hi. rewrite mksb_val in Hi. cbn in Hi.
  destruct (inode_meta i Hi) as [Hnd Hnb]. pose proof (wr_grows _ _ _ _ _ _ _ _ _ W1) as HG.
  pose proof (x_wf _ _ _ _ _ _ _ HG) as WF1. pose proof (zlen_nonneg bytes). pose proof (zlen_nonneg p).
  assert (forall r, role_ok r -> addr (fupd C1 (i / IPB + 32) d) A1 r = addr C1 A1 r) as E2 by (by apply (addr_meta nmeta mksb)).
  split_and!.
  - rewrite <- (splice_end bytes p).
    apply (wrote_file FSSIZE 2 30 nmeta mksb mk_layout C (ino i c) bytes (zlen bytes) p C1 A1 _ c'); try done.
    + unfold c'. cbn [i_copy ino]. f_equal. lia.
    + apply (fwf_same FSSIZE 2 30 nmeta mksb mk_layout C1 A1); [done|apply WF1|done|]. intros b Hb. by apply used_fupd.
    + by apply (meta_fbyte nmeta mksb).
    + rewrite iblk_ino, fupd_eq. exact Hrd.
  - rewrite zlen_app. by apply (shape_ext C1 A1).
  - exists C1. split; [exact HG|]. right. exists d. rewrite iblk_ino. done.
Qed.

(** One file changes, and the others stay as they are. *)
Lemma update_file s C F i c bytes s' C' c' bytes' : files_are s C F -> F !! i = Some (c, bytes) ->
  shadow s' C' -> freeinode s' = freeinode s -> changed FSSIZE nmeta mksb C (ino i c) C' (d_addrs c') ->
  mk_file C' (ino i c') bytes' -> shape C' (d_addrs c') (nblk (zlen bytes')) ->
  (forall o, zlen bytes' <= o < MAXFILE * BSIZE -> fbyte C' (d_addrs c') o = 0) ->
  files_are s' C' (<[i := (c', bytes')]> F).
Proof.
  intros [Hs Hnx Hdom Hfile Htail Hap] HF Hs' Hnx' Hch Hf' Hsh' Ht'. destruct (Hfile i c bytes HF) as [Hf _].
  pose proof (Hdom i ltac:(by eexists)) as Hi.
  assert (forall j cj bj, j <> i -> F !! j = Some (cj, bj) -> mk_file C' (ino j cj) bj /\ apart C' (d_addrs cj) (d_addrs c') /\
    (forall r, role_ok r -> addr C' (d_addrs cj) r = addr C (d_addrs cj) r)) as Hoth.
  { intros j cj bj Hj HFj. destruct (Hfile j cj bj HFj) as [Hfj _].
    apply (other_file FSSIZE 2 30 nmeta mksb mk_layout C (ino i c) bytes (ino j cj) bj _ _ Hch Hf Hfj); [cbn; done|].
    cbn [i_copy ino]. by apply (Hap j i cj c bj bytes). }
  constructor; [done|lia| | | |].
  - intros j Hj. rewrite Hnx'. apply lookup_insert_is_Some in Hj as [<-|[_ Hj]]; [done|by apply Hdom].
  - intros j cj bj. destruct (decide (i = j)) as [<-|Hne].
    + rewrite lookup_insert_eq. intros [= <- <-]. done.
    + rewrite lookup_insert_ne by done. intros HFj. destruct (Hoth j cj bj ltac:(done) HFj) as (? & _ & E). split; [done|].
      apply (shape_ext C (d_addrs cj)); [by apply (Hfile j cj bj)|done].
  - intros j cj bj. destruct (decide (i = j)) as [<-|Hne].
    + rewrite lookup_insert_eq. by intros [= <- <-].
    + rewrite lookup_insert_ne by done. intros HFj o Ho. pose proof (zlen_nonneg bj). rewrite (fbyte_same C); [by apply (Htail j cj bj)| |lia].
      apply (other_blocks C i c j cj bj _ _ Hch ltac:(lia)); [by apply (Hfile j)|]. by apply (Hap j i cj c bj bytes).
  - intros j k cj ck bj bk Hjk. destruct (decide (i = j)) as [<-|Hj], (decide (i = k)) as [<-|Hk]; [done|..].
    + rewrite lookup_insert_eq, lookup_insert_ne by done. intros [= <- <-] HFk. apply apart_sym. by eapply Hoth.
    + rewrite lookup_insert_eq, lookup_insert_ne by done. intros HFj [= <- <-]. by eapply Hoth.
    + rewrite !lookup_insert_ne by done. intros HFj HFk.
      destruct (Hoth j cj bj ltac:(done) HFj) as (_ & _ & Ej), (Hoth k ck bk ltac:(done) HFk) as (_ & _ & Ek).
      intros r r' Hr Hr'. rewrite Ej, Ek by done. by apply (Hap j k cj ck bj bk).
Qed.

Definition mk_size (n : Z) : Z := file_blocks (nblk n).

Lemma iappend_run s C F i c bytes p : files_are s C F -> F !! i = Some (c, bytes) -> Forall is_byte p ->
  zlen bytes + zlen p <= MAXFILE * BSIZE -> freeblock s + (mk_size (zlen bytes + zlen p) - mk_size (zlen bytes)) <= 1000 ->
  exists s' C' A', iappend i p s = Ok ((), s') /\
    files_are s' C' (<[i := (with_fsize (with_addrs c A') (zlen bytes + zlen p), bytes ++ p)]> F) /\
    freeblock s' = freeblock s + (mk_size (zlen bytes + zlen p) - mk_size (zlen bytes)) /\ freeinode s' = freeinode s.
Proof.
  intros HA HF Hby Hmax Hroom. pose proof HA as [Hs Hnx Hdom Hfile Htail _]. destruct (Hfile i c bytes HF) as [Hf Hsh].
  pose proof (Hdom i ltac:(by eexists)) as Hi. pose proof (zlen_nonneg bytes). pose proof (zlen_nonneg p).
  unfold iappend. rewrite (bind_run _ _ _ _ _ (rinode_run s C i c bytes Hs Hf)).
  pose proof (fa_size _ _ _ _ _ Hf) as Hsz. cbn [i_copy ino] in Hsz. pose proof Hmax as Hmx. rewrite MAXBYTES in Hmx.
  rewrite Hsz, xint_small by lia.
  destruct (iappend_loop_run (S (length p)) s C c (zlen bytes) p) as (s1 & C1 & A1 & E1 & Happ);
    [done|apply Hf|done|done|done|done|lia|done|].
  rewrite (bind_run _ _ _ _ _ E1). cbv beta iota. rewrite xint_small by lia.
  pose proof Happ as [S1 W1 Sh1 N1 I1]. pose proof (x_wf _ _ _ _ _ _ _ (wr_grows _ _ _ _ _ _ _ _ _ W1)) as WF1.
  set (c' := with_fsize (with_addrs c A1) (zlen bytes + zlen p)).
  assert (dinode_ok c') as Hc'.
  { destruct (fa_ok _ _ _ _ _ Hf). constructor; [done..| |apply WF1|by apply (fwf_uint FSSIZE 2 30 nmeta mksb mk_layout C1)].
    cbn. unfold is_uint. lia. }
  change (with_fsize (with_addrs c A1) (zlen bytes + zlen p)) with c'.
  destruct (winode_run s1 C1 i c' S1 ltac:(lia) Hc') as (s2 & d & E2 & S2 & Hp & Hrd & N2 & I2).
  exists s2, (fupd C1 (i / IPB + 32) d), A1. split; [exact E2|]. fold c'. split; [|split; [unfold mk_size; lia|congruence]].
  destruct (append_file s C i c bytes p s1 C1 A1 d Hf Happ Hmax Hp Hrd) as (Hf2 & Hsh2 & Hch).
  apply (update_file s C F i c bytes s2 _ c' (bytes ++ p)); [done|done|done|congruence|done..|].
  intros o Ho. rewrite zlen_app in Ho. cbn [d_addrs with_fsize with_addrs c']. destruct (inode_meta i ltac:(lia)) as [Hnd _].
  rewrite (meta_fbyte nmeta mksb C1 _ d A1 Hnd WF1), (wr_bytes _ _ _ _ _ _ _ _ _ W1) by lia.
  rewrite (proj2 (Z.ltb_ge o _)), andb_false_r by lia. apply (Htail i c bytes HF). lia.
Qed.

(** ** A new inode *)

Lemma nth_replicate_0 n k : nth k (replicate n 0) 0 = 0.
Proof.
  destruct (replicate n 0 !! k) as [x|] eqn:E.
  - apply lookup_replicate in E as H. destruct H as [-> _]. by apply nth_lookup_Some.
  - apply lookup_ge_None in E. by apply nth_overflow.
Qed.

Lemma addr_none C r : role_ok r -> addr C (replicate 13 0) r = 0.
Proof.
  assert (forall n, dir (replicate 13 0) n = 0) as Hd.
  { intros n. unfold dir. destruct (replicate 13 0 !! Z.to_nat n) as [x|] eqn:E; [|done]. by apply lookup_replicate in E as [-> _]. }
  intros Hr. destruct r as [k| |i]; cbn [addr]; unfold addr_ind2; rewrite ?Hd; [|done|done]. by destruct (k <? NDIRECT).
Qed.

Definition fresh_dinode (type : Z) : dinode :=
  {| d_type := type; d_major := 0; d_minor := 0; d_nlink := 1; d_fsize := 0; d_addrs := replicate 13 0 |}.

Lemma fresh_ok type : type = T_DIR \/ type = T_FILE -> dinode_ok (fresh_dinode type).
Proof.
  intros Ht. constructor; cbn [d_type d_major d_minor d_nlink d_fsize d_addrs fresh_dinode]; unfold is_short.
  - destruct Ht as [->| ->]; unfold T_DIR, T_FILE; lia.
  - lia.
  - lia.
  - lia.
  - unfold is_uint. lia.
  - done.
  - apply Forall_replicate. unfold is_uint. lia.
Qed.

Lemma fresh_file C i type : 0 <= i < 200 -> type = T_DIR \/ type = T_FILE ->
  rd_dinode (C (i / IPB + 32)) (i mod IPB * dinode_size) = Ok (fresh_dinode type) ->
  mk_file C (ino i (fresh_dinode type)) [] /\ shape C (replicate 13 0) (nblk (zlen (A:=Z) [])).
Proof.
  intros Hi Ht Hrd. split.
  - constructor; cbn [i_copy ino i_dev i_inum d_addrs d_type d_fsize fresh_dinode].
    + constructor; [done| |]; intros r; intros; exfalso; (rewrite addr_none in *; done).
    + done.
    + rewrite mksb_val. done.
    + destruct Ht as [->| ->]; done.
    + by apply fresh_ok.
    + done.
    + rewrite MAXBYTES. change (zlen []) with 0. lia.
    + change (zlen []) with 0. lia.
    + intros o. change (zlen []) with 0. lia.
    + by rewrite iblk_ino.
  - intros r Hr. rewrite addr_none by done. change (nblk (zlen [])) with 0. unfold needed.
    destruct r as [k| |j]; cbn in Hr; symmetry; apply negb_true_iff, Z.ltb_ge; rewrite ?NINDIRECT_val in *; unfold NDIRECT; lia.
Qed.

Lemma mk_ialloc_run s C F type : files_are s C F -> freeinode s < 200 -> type = T_DIR \/ type = T_FILE ->
  exists s' C', mk_ialloc type s = Ok (freeinode s, s') /\
    files_are s' C' (<[freeinode s := (fresh_dinode type, [])]> F) /\ freeblock s' = freeblock s /\ freeinode s' = freeinode s + 1.
Proof.
  intros [Hs Hnx Hdom Hfile Htail Hap] Hlt Ht. set (i := freeinode s) in *. unfold mk_ialloc.
  rewrite (bind_run _ _ s i s eq_refl), (bind_run (modify _) _ s () _ eq_refl).
  set (s1 := {| img := img s; freeinode := u32 (freeinode s + 1); freeblock := freeblock s |}).
  assert (shadow s1 C) as S1 by (destruct Hs; by constructor).
  assert ({| d_type := s16 (xshort type); d_major := 0; d_minor := 0; d_nlink := s16 (xshort 1); d_fsize := xint 0; d_addrs := replicate 13 0 |}
    = fresh_dinode type) as -> by (destruct Ht as [->| ->]; reflexivity).
  pose proof (fresh_ok type Ht) as Hc.
  destruct (winode_run s1 C i _ S1 ltac:(lia) Hc) as (s2 & d & E2 & S2 & Hp & Hrd & N2 & I2).
  rewrite (bind_run _ _ _ _ _ E2). set (C2 := fupd C (i / IPB + 32) d) in *.
  exists s2, C2. split; [done|]. assert (freeinode s2 = i + 1) as I3 by (rewrite I2; cbn; rewrite u32_small by lia; done).
  split; [|split; [done|done]]. destruct (inode_meta i ltac:(lia)) as [Hnd Hnb].
  assert (forall j cj bj, F !! j = Some (cj, bj) -> forall r, role_ok r -> addr C (d_addrs cj) r <> 0 ->
    C2 (addr C (d_addrs cj) r) = C (addr C (d_addrs cj) r)) as Hblk.
  { intros j cj bj HFj r Hr Hn. destruct (Hfile j cj bj HFj) as [Hfj _]. apply fupd_ne. intros He.
    destruct (fw_used _ _ _ _ (fa_wf _ _ _ _ _ Hfj) r Hr Hn) as [Hd _]. cbn [i_copy ino] in Hd. by rewrite He in Hd. }
  assert (forall j cj bj, F !! j = Some (cj, bj) -> mk_file C2 (ino j cj) bj /\
    (forall r, role_ok r -> addr C2 (d_addrs cj) r = addr C (d_addrs cj) r)) as Hoth.
  { intros j cj bj HFj. destruct (Hfile j cj bj HFj) as [Hfj _]. pose proof (Hdom j ltac:(by eexists)) as Hj.
    apply (file_at_same FSSIZE 2 30 nmeta mksb mk_layout C C2 (ino j cj) bj Hfj).
    - by apply (Hblk j cj bj).
    - intros b Hb. unfold C2. by rewrite used_fupd.
    - rewrite iblk_ino. destruct (decide (j / IPB + 32 = i / IPB + 32)) as [He|He]; [|by unfold C2; rewrite fupd_ne].
      unfold C2. rewrite He, fupd_eq. apply (rd_dinode_patch _ _ _ _ _ Hp).
      apply (iblk_inj mksb (ino i (fresh_dinode type)) (ino j cj)); [cbn; lia|by rewrite !iblk_ino]. }
  destruct (fresh_file C2 i type ltac:(lia) Ht) as [Hf Hsh]; [by unfold C2; rewrite fupd_eq|].
  assert (F !! i = None) as HFi.
  { destruct (F !! i) eqn:E; [|done]. pose proof (Hdom i ltac:(by eexists)). lia. }
  constructor; [done|lia| | | |].
  - intros j Hj. rewrite I3. apply lookup_insert_is_Some in Hj as [<-|[_ Hj]]; [lia|]. pose proof (Hdom j Hj). lia.
  - intros j cj bj. destruct (decide (i = j)) as [<-|Hne].
    + rewrite lookup_insert_eq. intros [= <- <-]. done.
    + rewrite lookup_insert_ne by done. intros HFj. destruct (Hoth j cj bj HFj) as [? E]. split; [done|].
      apply (shape_ext C (d_addrs cj)); [by apply (Hfile j cj bj)|done].
  - intros j cj bj. destruct (decide (i = j)) as [<-|Hne].
    + rewrite lookup_insert_eq. intros [= <- <-] o Ho. change (zlen []) with 0 in Ho. unfold fbyte, content. cbn [d_addrs fresh_dinode].
      rewrite (addr_none C2 (Data (o / BSIZE))) by (by apply block_index). apply nth_replicate_0.
    + rewrite lookup_insert_ne by done. intros HFj o Ho. pose proof (zlen_nonneg bj). rewrite (fbyte_same C); [by apply (Htail j cj bj)| |lia].
      by apply (Hblk j cj bj).
  - intros j k cj ck bj bk Hjk. destruct (decide (i = j)) as [<-|Hj], (decide (i = k)) as [<-|Hk]; [done|..].
    + rewrite lookup_insert_eq. intros [= <- <-] _ r r' Hr _. by rewrite addr_none.
    + rewrite lookup_insert_eq, lookup_insert_ne by done. intros HFj [= <- <-] r r' Hr Hr'. cbn [d_addrs fresh_dinode]. by rewrite (addr_none _ r').
    + rewrite !lookup_insert_ne by done. intros HFj HFk. destruct (Hoth j cj bj HFj) as [_ Ej], (Hoth k ck bk HFk) as [_ Ek].
      intros r r' Hr Hr'. rewrite Ej, Ek by done. by apply (Hap j k cj ck bj bk).
Qed.

(** ** The directory entries *)

Lemma dirent_zlen i name : zlen (dirent_of i name) = 16.
Proof.
  unfold dirent_of, zlen. rewrite length_app, length_le_bytes, length_take, length_app, length_replicate. lia.
Qed.

Lemma dirent_bytes i name : Forall is_byte name -> Forall is_byte (dirent_of i name).
Proof.
  intros Hn. unfold dirent_of. apply Forall_app. split; [apply le_bytes_are_bytes|].
  apply Forall_take, Forall_app. split; [done|]. apply Forall_replicate. unfold is_byte. lia.
Qed.

Lemma mk_name_bytes arg : Forall is_byte arg -> Forall is_byte (mk_name arg).
Proof. intros H. destruct H as [|c arg Hc H]; cbn; [done|]. case_match; [done|by constructor]. Qed.

(** ** A whole file *)

Lemma mk_size_mono n m : 0 <= n <= m -> mk_size n <= mk_size m.
Proof. intros H. apply file_blocks_mono. split; [apply nblk_nonneg; lia|apply nblk_mono; lia]. Qed.

(** The inode [i] is a file of type [ty] with one link and the contents [bytes]. *)
Definition entry (F : gmap Z (dinode * list Z)) (i ty : Z) (bytes : list Z) : Prop :=
  exists c, F !! i = Some (c, bytes) /\ d_type c = ty /\ d_nlink c = 1.

Lemma entry_other F i j ty bytes v : i <> j -> entry F i ty bytes -> entry (<[j := v]> F) i ty bytes.
Proof. intros Hn (c & H & H'). exists c. by rewrite lookup_insert_ne. Qed.

(** [F'] differs from [F] in the contents of the file [i] at most. *)
Definition put_in (F : gmap Z (dinode * list Z)) (i ty : Z) (bytes : list Z) (F' : gmap Z (dinode * list Z)) : Prop :=
  entry F' i ty bytes /\ forall j, j <> i -> F' !! j = F !! j.

Lemma put_entry F i ty bytes F' j ty' bytes' : put_in F i ty bytes F' -> j <> i -> entry F j ty' bytes' -> entry F' j ty' bytes'.
Proof. intros [_ H] Hj (c & E & H'). exists c. by rewrite H. Qed.

Lemma iappend_put s C F i ty bytes p : files_are s C F -> entry F i ty bytes -> Forall is_byte p ->
  zlen bytes + zlen p <= MAXFILE * BSIZE -> freeblock s + (mk_size (zlen bytes + zlen p) - mk_size (zlen bytes)) <= 1000 ->
  exists s' C' F', iappend i p s = Ok ((), s') /\ files_are s' C' F' /\ put_in F i ty (bytes ++ p) F' /\
    freeblock s' = freeblock s + (mk_size (zlen bytes + zlen p) - mk_size (zlen bytes)) /\ freeinode s' = freeinode s.
Proof.
  intros H (c & Hc & Ht) Hp Hm Hr. destruct (iappend_run s C F i c bytes p H Hc Hp Hm Hr) as (s' & C' & A' & E & H' & N & I).
  eexists s', C', _. split; [done|]. split; [exact H'|]. split; [|done]. split.
  - eexists. rewrite lookup_insert_eq. done.
  - intros j Hj. by apply lookup_insert_ne.
Qed.

Lemma append_blocks_run blocks : forall s C F i ty bytes, files_are s C F -> entry F i ty bytes -> Forall (Forall is_byte) blocks ->
  let n := zlen bytes + zlen (concat blocks) in
  n <= MAXFILE * BSIZE -> freeblock s + (mk_size n - mk_size (zlen bytes)) <= 1000 ->
  exists s' C' F', append_blocks i blocks s = Ok ((), s') /\ files_are s' C' F' /\ put_in F i ty (bytes ++ concat blocks) F' /\
    freeblock s' = freeblock s + (mk_size n - mk_size (zlen bytes)) /\ freeinode s' = freeinode s.
Proof.
  induction blocks as [|b blocks IH]; intros s C F i ty bytes HA He Hby n Hm Hr; subst n; cbn [append_blocks concat] in *.
  { exists s, C, F. change (zlen []) with 0 in *. rewrite Z.add_0_r, app_nil_r. split; [done|]. split; [done|]. split; [by split|]. lia. }
  apply Forall_cons in Hby as [Hb Hby]. rewrite zlen_app in *. pose proof (zlen_nonneg b). pose proof (zlen_nonneg (concat blocks)).
  pose proof (zlen_nonneg bytes). pose proof (mk_size_mono (zlen bytes) (zlen bytes + zlen b) ltac:(lia)).
  pose proof (mk_size_mono (zlen bytes + zlen b) (zlen bytes + (zlen b + zlen (concat blocks))) ltac:(lia)).
  destruct (iappend_put s C F i ty bytes b) as (s1 & C1 & F1 & E1 & HA1 & P1 & N1 & I1); [done|done|done|lia|lia|].
  rewrite (bind_run _ _ _ _ _ E1). destruct (IH s1 C1 F1 i ty (bytes ++ b)) as (s2 & C2 & F2 & E2 & HA2 & P2 & N2 & I2);
    [done|apply P1|done|rewrite zlen_app; lia|rewrite zlen_app, <- Z.add_assoc; lia|].
  rewrite zlen_app, <- Z.add_assoc in N2. rewrite <- app_assoc in P2.
  exists s2, C2, F2. split; [done|]. split; [done|]. split; [|lia]. split; [apply P2|].
  intros j Hj. rewrite (proj2 P2) by done. by apply (proj2 P1).
Qed.

(** ** The files one after the other *)

Definition total (L : list (list Z)) : Z := foldr (fun b n => mk_size (zlen b) + n) 0 L.

Lemma total_snoc L b : total (L ++ [b]) = total L + mk_size (zlen b).
Proof. induction L as [|x L IH]; cbn; [lia|]. unfold total in IH. rewrite IH. lia. Qed.

Lemma mk_size_nonneg n : 0 <= n -> 0 <= mk_size n.
Proof. intros Hn. apply (mk_size_mono 0 n). lia. Qed.

Lemma total_nonneg L : 0 <= total L.
Proof. induction L as [|x L IH]; cbn; [lia|]. pose proof (mk_size_nonneg (zlen x) (zlen_nonneg x)). unfold total in IH. lia. Qed.

(** The root directory holds [root], and the inodes from 2 on hold the files [L]. *)
Definition holds_all (F : gmap Z (dinode * list Z)) (root : list Z) (L : list (list Z)) : Prop :=
  entry F 1 T_DIR root /\ forall k b, L !! k = Some b -> entry F (2 + Z.of_nat k) T_FILE b.

Record built (s : mkst) (C : Z -> list Z) (root : list Z) (L : list (list Z)) : Prop := {
  bu_files : exists F, files_are s C F /\ holds_all F root L;
  bu_inode : freeinode s = 2 + zlen L;
  bu_block : freeblock s = 59 + mk_size (zlen root) + total L;
}.

(** What a file of the command line must satisfy. *)
Record file_fits (f : list Z * list (list Z)) : Prop := {
  ff_path : 47 ∉ f.1;
  ff_name : Forall is_byte f.1;
  ff_bytes : Forall (Forall is_byte) f.2;
  ff_size : zlen (concat f.2) <= MAXFILE * BSIZE;
}.

Lemma add_file_run s C root L f : built s C root L -> file_fits f -> zlen L < 198 -> zlen root + 16 <= MAXFILE * BSIZE ->
  59 + mk_size (zlen root + 16) + total L + mk_size (zlen (concat f.2)) <= 1000 ->
  exists s' C', add_file 1 f s = Ok ((), s') /\ built s' C' (root ++ dirent_of (2 + zlen L) (mk_name f.1)) (L ++ [concat f.2]).
Proof.
  intros [(F & HA & Hr & HL) Hi Hb] [Hp Hn Hby Hsz] Hlt Hmax Hroom. unfold add_file. rewrite bool_decide_false by done.
  pose proof (mk_size_mono (zlen root) (zlen root + 16) ltac:(pose proof (zlen_nonneg root); lia)) as Hm1.
  pose proof (mk_size_nonneg _ (zlen_nonneg (concat f.2))) as Hm2. pose proof (zlen_nonneg L) as HLn.
  destruct (mk_ialloc_run s C F T_FILE HA ltac:(lia) ltac:(by right)) as (s1 & C1 & E1 & HA1 & N1 & I1).
  rewrite (bind_run _ _ _ _ _ E1), Hi. set (i := 2 + zlen L) in *. rewrite Hi in HA1.
  set (F1 := <[i := (fresh_dinode T_FILE, [])]> F) in *. set (e := dirent_of i (mk_name f.1)).
  assert (zlen e = 16) as He by apply dirent_zlen.
  destruct (iappend_put s1 C1 F1 1 T_DIR root e) as (s2 & C2 & F2 & E2 & HA2 & P2 & N2 & I2);
    [done|apply entry_other; [lia|done]|by apply dirent_bytes, mk_name_bytes|lia|rewrite He; lia|].
  rewrite (bind_run _ _ _ _ _ E2). rewrite He in N2.
  assert (entry F2 i T_FILE []) as Hnew.
  { apply (put_entry F1 1 T_DIR (root ++ e)); [done|lia|]. exists (fresh_dinode T_FILE). unfold F1. by rewrite lookup_insert_eq. }
  change (zlen []) with 0 in *. assert (mk_size 0 = 0) as H0 by reflexivity.
  destruct (append_blocks_run f.2 s2 C2 F2 i T_FILE []) as (s3 & C3 & F3 & E3 & HA3 & P3 & N3 & I3);
    [done|done|done|change (zlen []) with 0; lia|change (zlen []) with 0; rewrite H0, Z.add_0_l; lia|].
  change (zlen []) with 0 in N3. rewrite H0, Z.add_0_l in N3. cbn [app] in P3.
  exists s3, C3. split; [done|]. constructor.
  - exists F3. split; [done|]. split.
    + apply (put_entry F2 i T_FILE (concat f.2)); [done|lia|]. apply P2.
    + intros k b Hk. destruct (decide (2 + Z.of_nat k = i)) as [Hki|Hki].
      * rewrite Hki. assert (k = length L) as -> by (unfold i, zlen in Hki; lia).
        rewrite lookup_app_r, Nat.sub_diag in Hk by lia. injection Hk as <-. apply P3.
      * apply (put_entry F2 i T_FILE (concat f.2)); [done..|]. apply (put_entry F1 1 T_DIR (root ++ e)); [done|lia|].
        apply entry_other; [done|]. apply HL. rewrite lookup_app_l in Hk; [done|].
        apply lookup_lt_Some in Hk. rewrite length_app in Hk. cbn in Hk. unfold i, zlen in Hki. lia.
  - rewrite I3, I2, I1, Hi, zlen_app. change (zlen [concat f.2]) with 1. unfold i. lia.
  - rewrite N3, N2, N1, Hb, zlen_app, He, total_snoc. lia.
Qed.

(** The entries of the files, the first with the inode number [i]. *)
Fixpoint dirents (i : Z) (files : list (list Z * list (list Z))) : list Z :=
  match files with
  | [] => []
  | f :: files => dirent_of i (mk_name f.1) ++ dirents (i + 1) files
  end.

Lemma dirents_zlen files : forall i, zlen (dirents i files) = 16 * zlen files.
Proof.
  induction files as [|f files IH]; intros i; cbn [dirents]; [done|]. rewrite zlen_app, dirent_zlen, IH.
  unfold zlen. cbn [length]. lia.
Qed.

Definition contents (files : list (list Z * list (list Z))) : list (list Z) := map (fun f => concat f.2) files.

Lemma add_files_run files : forall s C root L, built s C root L -> Forall file_fits files -> zlen L + zlen files <= 198 ->
  zlen root + 16 * zlen files <= MAXFILE * BSIZE ->
  59 + mk_size (zlen root + 16 * zlen files) + total L + total (contents files) <= 1000 ->
  exists s' C', add_files 1 files s = Ok ((), s') /\ built s' C' (root ++ dirents (2 + zlen L) files) (L ++ contents files).
Proof.
  induction files as [|f files IH]; intros s C root L HB Hf Hn Hmax Hroom; cbn [add_files dirents contents map].
  { exists s, C. by rewrite !app_nil_r. }
  apply Forall_cons in Hf as [Hf Hfs]. rewrite zlen_cons in *. cbn [contents map total foldr] in Hroom. fold (contents files) (total (contents files)) in Hroom.
  pose proof (zlen_nonneg files). pose proof (zlen_nonneg root). pose proof (total_nonneg (contents files)).
  pose proof (mk_size_mono (zlen root + 16) (zlen root + 16 * (1 + zlen files)) ltac:(lia)).
  destruct (add_file_run s C root L f HB Hf) as (s1 & C1 & E1 & HB1); [lia|lia|lia|]. rewrite (bind_run _ _ _ _ _ E1).
  destruct (IH s1 C1 _ _ HB1 Hfs) as (s2 & C2 & E2 & HB2); rewrite ?zlen_app, ?dirent_zlen, ?total_snoc in *;
    change (zlen [concat f.2]) with 1 in *; [lia|lia|..].
  { replace (zlen root + 16 + 16 * zlen files) with (zlen root + 16 * (1 + zlen files)) by lia. lia. }
  exists s2, C2. split; [done|]. by rewrite <- !app_assoc, Z.add_assoc in HB2.
Qed.

(** ** The empty image *)

Lemma write_zeroes_run n : forall s, Z.of_nat n <= 1000 -> exists s', write_zeroes n s = Ok ((), s') /\
  freeinode s' = freeinode s /\ freeblock s' = freeblock s /\ forall b, 0 <= b < Z.of_nat n -> img s' !! b = Some zeros.
Proof.
  induction n as [|n IH]; intros s Hn; cbn [write_zeroes]; [exists s; split_and!; [done..|]; lia|].
  destruct (IH s ltac:(lia)) as (s1 & E1 & I1 & N1 & H1). rewrite (bind_run _ _ _ _ _ E1), wsect_run by lia.
  eexists. split; [done|]. split_and!; [done..|]. intros b Hb. cbn [img with_img].
  destruct (decide (b = Z.of_nat n)) as [->|Hne]; [by rewrite lookup_insert_eq|]. rewrite lookup_insert_ne by done. apply H1. lia.
Qed.

Definition C0 (b : Z) : list Z := if b =? 58 then bitmap 59 else low_block b.

Lemma low_block_ok b : zlen (low_block b) = BSIZE /\ Forall is_byte (low_block b).
Proof.
  unfold low_block. destruct (b =? 1).
  - split; [vm_compute; reflexivity|]. apply (bool_decide_unpack _). vm_compute. done.
  - split; [done|]. apply Forall_replicate. unfold is_byte. lia.
Qed.

Lemma empty_image n : Z.of_nat n = 1000 -> exists s0 s, write_zeroes n {| img := ∅; freeinode := 1; freeblock := nmeta |} = Ok ((), s0) /\
  wsect 1 (low_block 1) s0 = Ok ((), s) /\ files_are s C0 ∅ /\ freeinode s = 1 /\ freeblock s = 59.
Proof.
  intros Hn. destruct (write_zeroes_run n {| img := ∅; freeinode := 1; freeblock := nmeta |}) as (s1 & E1 & I1 & N1 & H1); [lia|].
  eexists _, _. split; [done|]. split; [by rewrite wsect_run by lia|]. split; [|by rewrite <- nmeta_val].
  cbn [freeinode freeblock] in I1, N1. rewrite nmeta_val in N1. rewrite Hn in H1. destruct (bitmap_spec 59 ltac:(lia)) as (_ & Hl & Hb & _).
  constructor; cbn [freeinode with_img]; [|lia|by intros i [? ?]|done..]. constructor; cbn [img freeblock with_img].
  - intros b Hb1 Hb2. unfold C0. rewrite (proj2 (Z.eqb_neq b 58)) by done. destruct (decide (b = 1)) as [->|Hne]; [by rewrite lookup_insert_eq|].
    rewrite lookup_insert_ne by done. rewrite H1 by done. unfold low_block. by rewrite (proj2 (Z.eqb_neq b 1)).
  - rewrite N1. reflexivity.
  - intros b _. unfold C0. destruct (b =? 58); [exact (conj Hl Hb)|]. apply low_block_ok.
  - lia.
  - intros b Hb1. unfold C0, low_block. rewrite (proj2 (Z.eqb_neq b 58)), (proj2 (Z.eqb_neq b 1)) by lia. done.
  - intros b Hb1. unfold C0. rewrite (proj2 (Z.eqb_neq b 58)) by lia. done.
Qed.

(** ** The size of the root directory *)

(** What [fix_root] adds to the [n] bytes of the root directory. *)
Definition padding (n : Z) : list Z := replicate (Z.to_nat (BSIZE - n mod BSIZE)) 0.

Lemma padded_zlen (root : list Z) : zlen (root ++ padding (zlen root)) = (zlen root / BSIZE + 1) * BSIZE.
Proof.
  rewrite zlen_app. unfold padding, zlen at 2. rewrite length_replicate. unfold BSIZE.
  pose proof (Z.mod_pos_bound (zlen root) 512 ltac:(lia)). pose proof (Z.div_mod (zlen root) 512 ltac:(lia)). lia.
Qed.

Lemma padded_nblk n : n mod 512 <> 0 -> nblk ((n / 512 + 1) * 512) = nblk n.
Proof.
  intros Hn. unfold nblk. pose proof (Z.mod_pos_bound n 512 ltac:(lia)). pose proof (Z.div_mod n 512 ltac:(lia)).
  transitivity (n / 512 + 1).
  - symmetry. apply (Z.div_unique _ _ _ 511); lia.
  - apply (Z.div_unique _ _ _ (n mod 512 - 1)); lia.
Qed.

Lemma shape_dense C A n : shape C A (nblk n) -> n <= MAXFILE * BSIZE -> dense C A 0 n.
Proof.
  intros Hs Hm o Ho. pose proof (block_index o ltac:(lia)) as Hk. specialize (Hs (Data (o / BSIZE)) Hk). cbn [needed] in Hs.
  intros E. rewrite E, Z.eqb_refl in Hs. symmetry in Hs. apply negb_true_iff, Z.ltb_ge in Hs. unfold nblk, BSIZE in *.
  pose proof (Z.div_mod o 512 ltac:(lia)). pose proof (Z.div_mod (n + 511) 512 ltac:(lia)).
  pose proof (Z.mod_pos_bound o 512 ltac:(lia)). pose proof (Z.mod_pos_bound (n + 511) 512 ltac:(lia)). lia.
Qed.

(** A file whose last block is not full, with its size rounded up. *)
Lemma padded_file s C F i c bytes d : files_are s C F -> F !! i = Some (c, bytes) -> zlen bytes mod BSIZE <> 0 ->
  let n := (zlen bytes / BSIZE + 1) * BSIZE in n <= MAXFILE * BSIZE -> let C' := fupd C (i / IPB + 32) d in
  patch (C (i / IPB + 32)) (i mod IPB * dinode_size) (i mod IPB * dinode_size + dinode_size) d ->
  dinode_ok (with_fsize c n) -> rd_dinode d (i mod IPB * dinode_size) = Ok (with_fsize c n) ->
  mk_file C' (ino i (with_fsize c n)) (bytes ++ padding (zlen bytes)) /\ shape C' (d_addrs c) (nblk n) /\
  forall o, zlen bytes <= o < MAXFILE * BSIZE -> fbyte C' (d_addrs c) o = 0.
Proof.
  intros [Hs _ Hdom Hfile Htail _] HF Hm n Hn C' Hp Hok Hrd. destruct (Hfile i c bytes HF) as [Hf Hsh].
  pose proof (fa_inum _ _ _ _ _ Hf) as Hi. rewrite mksb_val in Hi. cbn in Hi. destruct (inode_meta i Hi) as [Hnd Hnb].
  pose proof (fa_wf _ _ _ _ _ Hf) as Hwf. cbn [i_copy ino] in Hwf.
  assert (forall r, role_ok r -> addr C' (d_addrs c) r = addr C (d_addrs c) r) as Ea by (by apply (addr_meta nmeta mksb)).
  assert (forall o, 0 <= o < MAXFILE * BSIZE -> fbyte C' (d_addrs c) o = fbyte C (d_addrs c) o) as Eb by (by apply (meta_fbyte nmeta mksb)).
  assert (shape C' (d_addrs c) (nblk n)) as Hsh'.
  { unfold n, BSIZE in *. rewrite padded_nblk by done. by apply (shape_ext C (d_addrs c)). }
  pose proof (zlen_nonneg bytes). assert (zlen (bytes ++ padding (zlen bytes)) = n) as Hz by apply padded_zlen.
  split_and!; [|done|intros o Ho; rewrite Eb by lia; by apply (Htail i c bytes)].
  constructor; rewrite ?Hz; cbn [i_copy ino i_dev i_inum d_addrs d_type d_fsize with_fsize].
  - apply (fwf_same FSSIZE 2 30 nmeta mksb mk_layout C (d_addrs c)); [done|apply Hwf|done|]. intros b Hb. by apply used_fupd.
  - done.
  - by rewrite mksb_val.
  - apply (fa_type _ _ _ _ _ Hf).
  - done.
  - done.
  - done.
  - intros o Ho. rewrite Eb by lia. destruct (Z_lt_le_dec o (zlen bytes)) as [Hlt|Hge].
    + rewrite app_nth1 by (unfold zlen in Hlt; lia). apply (fa_bytes _ _ _ _ _ Hf). lia.
    + rewrite app_nth2 by (unfold zlen in Hge; lia). unfold padding. rewrite nth_replicate_0. apply (Htail i c bytes HF). lia.
  - by apply shape_dense.
  - rewrite iblk_ino. unfold C'. by rewrite fupd_eq.
Qed.

Lemma fix_root_run s C F i c bytes : files_are s C F -> F !! i = Some (c, bytes) -> zlen bytes mod BSIZE <> 0 ->
  (zlen bytes / BSIZE + 1) * BSIZE <= MAXFILE * BSIZE ->
  exists s' C', fix_root i s = Ok ((), s') /\ freeblock s' = freeblock s /\
    files_are s' C' (<[i := (with_fsize c ((zlen bytes / BSIZE + 1) * BSIZE), bytes ++ padding (zlen bytes))]> F).
Proof.
  intros HA HF Hm Hn. pose proof HA as [Hs _ Hdom Hfile _ _]. destruct (Hfile i c bytes HF) as [Hf Hsh].
  pose proof (fa_inum _ _ _ _ _ Hf) as Hi. rewrite mksb_val in Hi. cbn in Hi. pose proof Hn as Hx. rewrite MAXBYTES in Hx.
  pose proof (zlen_nonneg bytes). pose proof (Z.div_pos (zlen bytes) BSIZE ltac:(lia) ltac:(done)).
  pose proof (fa_max _ _ _ _ _ Hf) as Hmx. rewrite MAXBYTES in Hmx.
  unfold fix_root. rewrite (bind_run _ _ _ _ _ (rinode_run s C i c bytes Hs Hf)).
  pose proof (fa_size _ _ _ _ _ Hf) as Hsz. cbn [i_copy ino] in Hsz. rewrite Hsz, (xint_small (zlen bytes)) by lia.
  set (n := (zlen bytes / BSIZE + 1) * BSIZE) in *. assert (0 <= n) by (unfold n, BSIZE in *; lia).
  rewrite u32_small, xint_small by lia.
  assert (dinode_ok (with_fsize c n)) as Hok.
  { destruct (fa_ok _ _ _ _ _ Hf). constructor; try done. cbn. unfold is_uint. lia. }
  destruct (winode_run s C i (with_fsize c n) Hs ltac:(lia) Hok) as (s' & d & E & S' & Hp & Hrd & N' & I').
  exists s', (fupd C (i / IPB + 32) d). split; [done|]. split; [done|].
  destruct (padded_file s C F i c bytes d HA HF Hm Hn Hp Hok Hrd) as (Hf' & Hsh' & Ht').
  pose proof (padded_zlen bytes) as Hz. fold n in Hz.
  apply (update_file s C F i c bytes); [done|done|done|done| |done|by rewrite Hz|].
  - exists C. split; [apply (extends_refl FSSIZE nmeta mksb C); [by eapply shadow_disk|apply Hf]|]. right. exists d. by rewrite iblk_ino.
  - intros o Ho. apply Ht'. rewrite Hz in Ho. unfold n, BSIZE in *. pose proof (Z.div_mod (zlen bytes) 512 ltac:(lia)).
    pose proof (Z.mod_pos_bound (zlen bytes) 512 ltac:(lia)). lia.
Qed.

(** ** The whole image *)

Definition root_dir (files : list (list Z * list (list Z))) : list Z :=
  dirent_of 1 [46] ++ dirent_of 1 [46; 46] ++ dirents 2 files.

(** The blocks that the root directory and the files take. *)
Definition blocks_of (files : list (list Z * list (list Z))) : Z := mk_size (zlen (root_dir files)) + total (contents files).

(** What [mkfs] needs of its arguments: the inodes and the blocks are enough, and
    the last block of the root directory is not full. *)
Record mkfs_fits (files : list (list Z * list (list Z))) : Prop := {
  mf_files : Forall file_fits files;
  mf_inodes : zlen files <= 198;
  mf_blocks : nmeta + blocks_of files <= FSSIZE;
  mf_root : zlen (root_dir files) mod BSIZE <> 0;
}.

Lemma root_zlen files : zlen (root_dir files) = 32 + 16 * zlen files.
Proof. unfold root_dir. rewrite !zlen_app, !dirent_zlen, dirents_zlen. lia. Qed.

(** Up to the entries of the root directory itself. *)
Lemma root_run : exists s C, (forall k : Z -> ST mkst unit, (_ ← write_zeroes (Z.to_nat FSSIZE); _ ← wsect 1 (low_block 1); i ← mk_ialloc T_DIR;
    if negb (i =? ROOTINO) then fault (Panic "rootino == ROOTINO") else
    _ ← iappend i (dirent_of i [46]); _ ← iappend i (dirent_of i [46; 46]); k i)
      {| img := ∅; freeinode := 1; freeblock := nmeta |} = k 1 s) /\
  built s C (dirent_of 1 [46] ++ dirent_of 1 [46; 46]) [].
Proof.
  assert (Z.of_nat (Z.to_nat FSSIZE) = 1000) as Hn by (by rewrite Z2Nat.id). revert Hn. generalize (Z.to_nat FSSIZE). intros n Hn.
  destruct (empty_image n Hn) as (s00 & s0 & Ez & E0 & HA0 & I0 & N0).
  destruct (mk_ialloc_run s0 C0 ∅ T_DIR HA0 ltac:(lia) ltac:(by left)) as (s1 & C1 & E1 & HA1 & N1 & I1). rewrite I0 in HA1, E1.
  assert (entry (<[1 := (fresh_dinode T_DIR, [])]> ∅) 1 T_DIR []) as He.
  { exists (fresh_dinode T_DIR). by rewrite lookup_insert_eq. }
  assert (Forall is_byte [46; 46]) as Hb by (repeat constructor; unfold is_byte; lia). assert (Forall is_byte [46]) as Hb' by (by inversion Hb).
  assert (mk_size 0 = 0 /\ mk_size 16 = 1 /\ mk_size 32 = 1) as (S0 & S1 & S2) by done.
  destruct (iappend_put s1 C1 _ 1 T_DIR [] (dirent_of 1 [46]) HA1 He) as (s2 & C2 & F2 & E2 & HA2 & P2 & N2 & I2);
    change (zlen []) with 0 in *; rewrite ?dirent_zlen, ?MAXBYTES, ?Z.add_0_l in *; [by apply dirent_bytes|lia|lia|].
  destruct (iappend_put s2 C2 F2 1 T_DIR ([] ++ dirent_of 1 [46]) (dirent_of 1 [46; 46]) HA2 (proj1 P2)) as (s3 & C3 & F3 & E3 & HA3 & P3 & N3 & I3);
    rewrite ?zlen_app, ?dirent_zlen, ?MAXBYTES in *; change (zlen (A:=Z) []) with 0 in *; change (0 + 16) with 16 in *; change (16 + 16) with 32 in *;
    [by apply dirent_bytes|lia|lia|].
  exists s3, C3. split.
  { intros k. rewrite (bind_run _ _ _ _ _ Ez), (bind_run _ _ _ _ _ E0), (bind_run _ _ _ _ _ E1).
    change (negb (1 =? ROOTINO)) with false. cbv iota. by rewrite (bind_run _ _ _ _ _ E2), (bind_run _ _ _ _ _ E3). }
  constructor.
  - exists F3. split; [done|]. split; [apply P3|]. by intros k b Hk.
  - rewrite I3, I2, I1, I0. done.
  - rewrite zlen_app, !dirent_zlen. cbn [total foldr]. change (16 + 16) with 32. lia.
Qed.

Lemma mk_balloc_run s C : shadow s C -> exists s', mk_balloc (freeblock s) s = Ok ((), s') /\
  forall b, 0 <= b < 1000 -> img s' !! b = Some (C b).
Proof.
  intros [Hi Hm _ Hn _ _]. unfold mk_balloc. rewrite (proj2 (Z.ltb_lt _ _)) by (unfold BSIZE; lia). cbn [negb].
  destruct (bitmap_spec (freeblock s) ltac:(lia)) as (E & _). change (replicate 512 0) with zeros.
  rewrite (bind_run (pure (set_bits (Z.to_nat (freeblock s)) zeros)) _ s (bitmap (freeblock s)) s) by (unfold pure; by rewrite E).
  rewrite mksb_val. cbn [bmapstart]. rewrite wsect_run by lia. eexists. split; [done|]. intros b Hb. cbn [img with_img].
  destruct (decide (b = 58)) as [->|Hne]; [by rewrite lookup_insert_eq, Hm|]. rewrite lookup_insert_ne by done. by apply Hi.
Qed.

(** The inodes of the image, in the order of their numbers. *)
Definition inodes_of (F : gmap Z (dinode * list Z)) (n : nat) : list inode :=
  map (fun k => ino (1 + Z.of_nat k) (match F !! (1 + Z.of_nat k) with Some (c, _) => c | None => fresh_dinode T_FILE end)) (seq 0 n).

Lemma inodes_lookup F n k i : inodes_of F n !! k = Some i ->
  (k < n)%nat /\ i = ino (1 + Z.of_nat k) (match F !! (1 + Z.of_nat k) with Some (c, _) => c | None => fresh_dinode T_FILE end).
Proof.
  unfold inodes_of. rewrite list_lookup_fmap. intros H. apply fmap_Some in H as (j & Hj & ->). by apply lookup_seq in Hj as [-> ?].
Qed.

Lemma inodes_get F n k c b : (k < n)%nat -> F !! (1 + Z.of_nat k) = Some (c, b) -> inodes_of F n !! k = Some (ino (1 + Z.of_nat k) c).
Proof.
  intros Hk Hc. unfold inodes_of. rewrite list_lookup_fmap, (proj2 (lookup_seq 0 n k k)) by lia. cbn. by rewrite Hc.
Qed.

(** The entries of the image, by the position of their inode. *)
Lemma holds_all_at F root L k b : holds_all F root L -> (root :: L) !! k = Some b ->
  entry F (1 + Z.of_nat k) (if decide (k = O) then T_DIR else T_FILE) b.
Proof.
  intros [Hr HL] Hk. destruct k as [|k]; cbn in Hk; [by injection Hk as <-|]. rewrite decide_False by done.
  replace (1 + Z.of_nat (S k)) with (2 + Z.of_nat k) by lia. by apply HL.
Qed.

Lemma files_hold s C F root L : files_are s C F -> holds_all F root L ->
  let ic := inodes_of F (S (length L)) in
  holds FSSIZE nmeta mksb (map_seqZ 0 (root :: L)) C ic /\
  forall k i, ic !! k = Some i -> i_inum i = 1 + Z.of_nat k /\ d_nlink (i_copy i) = 1 /\
    d_type (i_copy i) = if decide (k = O) then T_DIR else T_FILE.
Proof.
  intros [Hs _ _ Hfile _ Hap] Hall ic.
  assert (forall k i, ic !! k = Some i -> exists c b, i = ino (1 + Z.of_nat k) c /\ (root :: L) !! k = Some b /\
    F !! (1 + Z.of_nat k) = Some (c, b) /\ d_nlink c = 1 /\ d_type c = if decide (k = O) then T_DIR else T_FILE) as Hic.
  { intros k i Hk. apply inodes_lookup in Hk as [Hlt ->]. destruct (lookup_lt_is_Some_2 (root :: L) k Hlt) as [b Hb].
    destruct (holds_all_at F root L k b Hall Hb) as (c & Hc & ? & ?). exists c, b. by rewrite Hc. }
  split; [|intros k i Hk; destruct (Hic k i Hk) as (c & b & -> & _ & _ & ? & ?); done]. constructor.
  - by eapply shadow_disk.
  - intros ip bytes H. apply lookup_map_seqZ_Some in H as [H0 H]. rewrite Z.sub_0_r in H.
    destruct (holds_all_at F root L _ bytes Hall H) as (c & Hc & _). pose proof (lookup_lt_Some _ _ _ H) as Hlt.
    exists (ino (1 + Z.of_nat (Z.to_nat ip)) c). split; [|by apply (Hfile _ c bytes)].
    apply arr_get_Ok. split; [lia|]. by apply (inodes_get F _ _ c bytes).
  - intros ip ip' i i' Hne _ _ Hi Hi'. apply arr_get_Ok in Hi as [H0 Hi], Hi' as [H0' Hi'].
    destruct (Hic _ _ Hi) as (c & b & -> & _ & Hc & _), (Hic _ _ Hi') as (c' & b' & -> & _ & Hc' & _).
    cbn [i_inum i_copy ino]. split; [lia|]. eapply Hap; [|done..]. lia.
Qed.

Lemma superblock_low : superblock_of (low_block 1) = Ok mksb.
Proof. vm_compute. reflexivity. Qed.

(** The run up to the size of the root directory. *)
Lemma mkfs_run_files files : mkfs_fits files -> exists s C F, files_are s C F /\
  holds_all F (root_dir files ++ padding (zlen (root_dir files))) (contents files) /\ freeblock s = nmeta + blocks_of files /\
  mkfs_run files {| img := ∅; freeinode := 1; freeblock := nmeta |} = mk_balloc (freeblock s) s.
Proof.
  intros [Hf Hi Hb Hr]. pose proof (root_zlen files) as Hz. pose proof (zlen_nonneg files) as Hn. unfold blocks_of in *.
  rewrite nmeta_val in Hb. unfold FSSIZE in Hb. destruct root_run as (s1 & C1 & E1 & B1).
  destruct (add_files_run files s1 C1 _ _ B1 Hf) as (s2 & C2 & E2 & B2); rewrite ?zlen_app, ?dirent_zlen, ?MAXBYTES in *.
  { change (zlen []) with 0. lia. }
  { lia. }
  { change (16 + 16) with 32. rewrite Hz in Hb. cbn [total foldr]. lia. }
  change (2 + zlen []) with 2 in B2. rewrite <- app_assoc in B2. fold (root_dir files) in B2. cbn [app] in B2.
  destruct B2 as [(F & HA & (c & Hc & Ht & Hl) & HL) _ Hfb].
  destruct (fix_root_run s2 C2 F 1 c (root_dir files) HA Hc Hr) as (s3 & C3 & E3 & N3 & HA3).
  { rewrite MAXBYTES, Hz. unfold BSIZE. pose proof (Z.mul_div_le (32 + 16 * zlen files) 512 ltac:(lia)). lia. }
  eexists s3, C3, _. split; [exact HA3|]. split; [split|split].
  - eexists. rewrite lookup_insert_eq. done.
  - intros k b Hk. apply entry_other; [lia|]. by apply HL.
  - rewrite N3, Hfb, nmeta_val. lia.
  - unfold mkfs_run. change (sb_bytes ++ replicate (512 - length sb_bytes) 0) with (low_block 1).
    rewrite E1, (bind_run _ _ _ _ _ E2), (bind_run _ _ _ _ _ E3). done.
Qed.

(** ** Booting from the image *)

(** The image as the bytes of the memory disk. *)
Definition flat (C : Z -> list Z) : list Z := concat (map C (seqZ 0 FSSIZE)).

Lemma flat_blk C : (forall b, 0 <= b < 1000 -> zlen (C b) = BSIZE) ->
  zlen (flat C) = FSSIZE * BSIZE /\ forall b, 0 <= b < 1000 -> blk (flat C) b = C b.
Proof.
  intros H. assert (Forall (fun l => length l = 512%nat) (map C (seqZ 0 FSSIZE))) as Hf.
  { apply Forall_fmap, Forall_forall. intros b Hb. apply elem_of_seqZ in Hb. unfold FSSIZE in Hb. specialize (H b ltac:(lia)).
    unfold zlen, BSIZE in H. cbn. lia. }
  split.
  - unfold flat, zlen. rewrite (concat_length 512), length_map, length_seqZ by done. unfold FSSIZE, BSIZE. lia.
  - intros b Hb. unfold blk, flat. unfold BSIZE at 2. replace (Z.to_nat (b * 512)) with (512 * Z.to_nat b)%nat by lia.
    change (Z.to_nat BSIZE) with 512%nat. apply concat_piece; [done|]. rewrite list_lookup_fmap, lookup_seqZ_lt by (unfold FSSIZE; lia).
    cbn. f_equal. f_equal. lia.
Qed.

(** The kernel that has booted and begun a transaction, with the inodes [ic] in its cache. *)
Definition started (d : dsk) (ic : list inode) : fs :=
  {| fdsk := with_log d (with_outstanding (dlog d) 1); fsb := mksb; icache := ic |}.

Lemma boot_image mypid C : (forall b, 0 <= b < 1000 -> zlen (C b) = BSIZE) -> (forall b, 0 <= b < 32 -> C b = low_block b) ->
  exists s d C', bio_boot (flat C) = Ok s /\ initlog mypid 1 {| dlog := log0; dbio := s |} = Ok ((), d) /\
    (forall b, 0 <= b < 1000 -> b <> 2 -> C' b = C b) /\ forall ic, fsr FSSIZE 2 30 C' ∅ ∅ mksb ic (started d ic).
Proof.
  intros Hl Hlow. destruct (flat_blk C Hl) as [Hz Hblk].
  assert (zlen (flat C) / BSIZE = FSSIZE) as HN by (rewrite Hz; by apply Z.div_mul).
  destruct (boot_linv mypid (flat C) 2 30 []) as (s & d & v & Hb & Hi & Hinv & _ & Hn & Hc).
  - rewrite Hz. done.
  - done.
  - rewrite HN. constructor; rewrite ?zlen_nil; try done; [by intros b Hb%elem_of_nil|apply not_elem_of_nil].
  - exists mksb. rewrite Hblk, Hlow by lia. split; [apply superblock_low|by rewrite mksb_val].
  - rewrite Hblk, Hlow by lia. split; [by vm_compute|]. intros i b. by rewrite lookup_nil.
  - exists s, d, (cur v). split; [done|]. split; [done|]. split; [intros b Hb1 Hb2; rewrite (Hc eq_refl) by done; by apply Hblk|].
    intros ic. rewrite HN in Hn. destruct Hinv as ([Hr Hh Hbk Hp Hlg Hq Hpin He Hs] & Hcm & _ & _). constructor; [|reflexivity|reflexivity].
    exists v, []. split; [exact Hr|]. split; [reflexivity|]. split; [exact Hq|]. split; [exact Hn|]. split.
    + rewrite Hn in Hlg.
      constructor; [exact Hh|exact Hbk|exact Hp|split; [exact Hcm|reflexivity]|exact Hlg|exact Hpin|exact He|exact Hs].
    + intros h b Hhb. rewrite Hq, lookup_empty in Hhb. discriminate Hhb.
Qed.

(** What the files depend on is not in the log. *)
Lemma holds_agree F C C' ic : holds FSSIZE nmeta mksb F C ic -> (forall b, 0 <= b < 1000 -> b <> 2 -> C' b = C b) ->
  holds FSSIZE nmeta mksb F C' ic.
Proof.
  intros [Hok Hf Hap] HC. assert (forall b, 0 <= b < 1000 -> used mksb C' b = used mksb C b) as Hu.
  { intros b Hb. rewrite !used_is by done. by rewrite HC by lia. }
  assert (forall i bytes, mk_file C i bytes -> mk_file C' i bytes /\ forall r, role_ok r -> addr C' (d_addrs (i_copy i)) r = addr C (d_addrs (i_copy i)) r) as Hsame.
  { intros i bytes Hi. pose proof (fa_inum _ _ _ _ _ Hi) as Hin. rewrite mksb_val in Hin. cbn in Hin.
    apply (file_at_same FSSIZE 2 30 nmeta mksb mk_layout C C' i bytes Hi).
    - intros r Hr Hn. destruct (fwf_data C _ r (fa_wf _ _ _ _ _ Hi) Hr Hn). apply HC; lia.
    - intros b Hb. rewrite mksb_val in Hb. cbn in Hb. by rewrite Hu by lia.
    - destruct (inode_block _ Hin) as [_ ?]. rewrite HC; [done|..]; unfold iblk; rewrite mksb_val; cbn [inodestart]; lia. }
  constructor.
  - destruct Hok as [D1 D2 D3]. constructor.
    + intros b Hb Hk. rewrite HC; [by apply D1|done|]. rewrite bmap_is, nmeta_val in Hk. lia.
    + intros b Hb Hk. rewrite HC; [by apply D2|done|]. rewrite bmap_is, nmeta_val in Hk. lia.
    + intros b Hb Hs. rewrite Hu; [by apply D3|]. rewrite nmeta_val in Hb. lia.
  - intros ip bytes HF. destruct (Hf ip bytes HF) as (i & Hi & Hfi). exists i. split; [done|]. by apply Hsame.
  - intros ip ip' i i' Hne [b1 H1] [b2 H2] Hi Hi'. destruct (Hap ip ip' i i' Hne ltac:(by eexists) ltac:(by eexists) Hi Hi') as [Hnum Ha].
    split; [done|]. destruct (Hf ip b1 H1) as (j & Hj & Hfj), (Hf ip' b2 H2) as (j' & Hj' & Hfj').
    rewrite Hi in Hj. rewrite Hi' in Hj'. injection Hj as <-. injection Hj' as <-.
    intros r r' Hr Hr'. rewrite (proj2 (Hsame _ _ Hfj)), (proj2 (Hsame _ _ Hfj')) by done. by apply Ha.
Qed.

(** The files of the image, the root directory first. *)
Definition image_files (files : list (list Z * list (list Z))) : gmap Z (list Z) :=
  map_seqZ 0 ((root_dir files ++ padding (zlen (root_dir files))) :: contents files).

(** The inode at [k] of the list is the one with the number [1 + k]. *)
Definition image_inodes (ic : list inode) : Prop :=
  forall k i, ic !! k = Some i -> i_inum i = 1 + Z.of_nat k /\ d_nlink (i_copy i) = 1 /\
    d_type (i_copy i) = if decide (k = O) then T_DIR else T_FILE.

Lemma mkfs_image files : mkfs_fits files ->
  exists im C ic, mkfs files = Ok im /\ (forall b, 0 <= b < FSSIZE -> im !! b = Some (C b)) /\
    (forall b, 0 <= b < FSSIZE -> used mksb C b = (b <? nmeta + blocks_of files)) /\
    holds FSSIZE nmeta mksb (image_files files) C ic /\ image_inodes ic /\
    (forall b, 0 <= b < 1000 -> zlen (C b) = BSIZE) /\ (forall b, 0 <= b < 32 -> C b = low_block b).
Proof.
  intros H. destruct (mkfs_run_files files H) as (s & C & F & HA & Hall & N & E).
  pose proof (fi_shadow _ _ _ HA) as Hs. destruct (mk_balloc_run s C Hs) as (s' & E' & Him). rewrite E' in E.
  destruct (files_hold s C F _ _ HA Hall) as [Hh Hk]. exists (img s'), C, (inodes_of F (S (length (contents files)))).
  split; [unfold mkfs; by rewrite E|]. split; [exact Him|]. split.
  - intros b Hb. unfold FSSIZE in Hb. rewrite used_is, (sd_map _ _ Hs), <- N by done.
    destruct (bitmap_spec (freeblock s) ltac:(pose proof (sd_next _ _ Hs); lia)) as (_ & _ & _ & Hbit). exact (Hbit b Hb).
  - split; [exact Hh|]. split; [exact Hk|]. split; [|exact (sd_low _ _ Hs)]. intros b Hb. by apply (sd_ok _ _ Hs).
Qed.


(** ** An example *)

(** Two files, [_sh] of five bytes and [README], which is empty. *)
Definition demo_files : list (list Z * list (list Z)) := [([95; 115; 104], [[1; 2; 3; 4; 5]]); ([82; 69; 65; 68; 77; 69], [])].

Lemma demo_files_fit : mkfs_fits demo_files.
Proof.
  constructor.
  - repeat constructor; cbn [fst snd concat app]; try (apply (bool_decide_unpack _); vm_compute; exact I);
      try (rewrite MAXBYTES; vm_compute; done); try set_solver.
  - vm_compute. done.
  - vm_compute. done.
  - vm_compute. done.
Qed.


(** With thirty files the entries of the root directory fill its block, and the size that [fix_root] stores
    runs one block further than the blocks the directory has. *)
Example root_hole : exists im d c, mkfs (replicate 30 ([97], [])) = Ok im /\ im !! 32 = Some d /\ rd_dinode d dinode_size = Ok c /\
  d_fsize c = 1024 /\ nth 0 (d_addrs c) 0 = 59 /\ nth 1 (d_addrs c) 0 = 0.
Proof.
  assert (match mkfs (replicate 30 ([97], [])) with
          | Ok im => match im !! 32 with
                     | Some d => match rd_dinode d dinode_size with
                                 | Ok c => (d_fsize c =? 1024) && (nth 0 (d_addrs c) 0 =? 59) && (nth 1 (d_addrs c) 0 =? 0)
                                 | _ => false end
                     | None => false end
          | _ => false end = true) as H by (vm_compute; reflexivity).
  revert H. generalize (mkfs (replicate 30 ([97], []))). intros [im| |] H; [|done..]. destruct (im !! 32) as [d|] eqn:Ed; [|done]. destruct (rd_dinode d dinode_size) as [c| |] eqn:Ec; [|done..].
  exists im, d, c. apply andb_prop in H as [H H3]. apply andb_prop in H as [H1 H2]. rewrite !Z.eqb_eq in *. done.
Qed.
