(* ===== verification/FsDir.v ===== *)
(** * Directories

    The contents of a directory are a table of entries; [dir_map] is the map from
    names to inode numbers that it denotes.  [dirlookup] looks a name up in this map
    and takes a reference to the inode, and [dirlink] enters one. *)

From stdpp Require Import base list strings gmap sets.
From Stdlib Require Import ZArith Lia.
From S2P Require Import Prelude State KString KStringProofs Bio BioProofs Log LogProofs CrashProofs Transact Fs FsBase FsAlloc FsFile FsData FsInode FsOps Mkfs MkfsProofs MkfsImage.

(** ** Names *)

(** The name in a buffer, and the buffers that have one. *)
Definition key (s : list Z) : list Z := name_of 14 s.
#[global] Arguments key : simpl never.
Definition str_ok (s : list Z) : Prop := Forall is_byte s /\ (DIRSIZ <= zlen s \/ 0 ∈ s).

Lemma name_of_app n s t : (n <= length s)%nat \/ 0 ∈ s -> name_of n (s ++ t) = name_of n s.
Proof.
  revert n. induction s as [|c s IH]; intros n H.
  - destruct H as [H|H]; [|by apply elem_of_nil in H]. assert (n = O) as -> by (cbn in H; lia). by destruct t.
  - destruct n as [|n]; [done|]. cbn [app name_of]. destruct (Z.eqb_spec c 0) as [->|Hc]; [done|]. f_equal. apply IH.
    destruct H as [H|H]; [left; cbn in H; lia|right]. by apply elem_of_cons in H as [H|H].
Qed.

Lemma namecmp_spec s t : str_ok s -> Forall is_byte t -> zlen t = DIRSIZ ->
  exists r, namecmp s t = Ok r /\ (r = 0 <-> key s = key t).
Proof.
  intros [Hb Hs] Ht Hl. unfold namecmp, strncmp. pose proof (zlen_nonneg s).
  destruct (strncmp_field 14 (s ++ t) 0 (zlen s)) as (r & E & Hr).
  - by apply Forall_app.
  - unfold valid. rewrite zlen_app, Hl. unfold DIRSIZ. lia.
  - unfold valid. rewrite zlen_app, Hl. unfold DIRSIZ. lia.
  - exists r. split; [exact E|]. rewrite Hr. unfold field_at, key.
    change (drop (Z.to_nat 0) (s ++ t)) with (s ++ t). unfold zlen at 1. rewrite Nat2Z.id, drop_app_length.
    rewrite name_of_app; [done|]. unfold DIRSIZ, zlen in Hs. destruct Hs; [left; lia|by right].
Qed.

(** A copy of a string that may be shorter than the field. *)
Lemma strncpy_str n mem s t str : valid mem s (Z.of_nat n) -> s + Z.of_nat n <= t -> drop (Z.to_nat t) mem = str ->
  (n <= length str)%nat \/ 0 ∈ str ->
  exists mem', strncpy_loop n mem s t = Ok mem' /\ outside mem mem' s (Z.of_nat n) /\ field_at mem' s n = name_of n str.
Proof.
  revert mem s t str. induction n as [|n IH]; intros mem s t str Hs Hd Hdr Hn; cbn [strncpy_loop].
  - exists mem. split; [done|]. split; [done|]. unfold field_at. by destruct (drop _ _), str.
  - unfold valid in *. destruct str as [|c str]; [destruct Hn as [Hn|Hn]; [cbn in Hn; lia|by apply elem_of_nil in Hn]|].
    assert (mem !! Z.to_nat t = Some c) as Hc by (by rewrite <- (Nat.add_0_r (Z.to_nat t)), <- lookup_drop, Hdr).
    assert (arr_get mem t = Ok c) as Ht by (apply arr_get_Ok; split; [lia|done]). rewrite Ht. cbn [mbind res_bind].
    destruct (set_ok mem s c) as [m1 H1]; [lia|]. rewrite H1. cbn [mbind res_bind].
    pose proof (arr_set_len _ _ _ _ H1) as Hl1.
    assert (forall j, j <> s -> arr_get m1 j = arr_get mem j) as Hm1.
    { intros j Hj. rewrite (arr_get_set _ _ _ _ _ H1). by rewrite (proj2 (Z.eqb_neq j s)). }
    assert (arr_get m1 s = Ok c) as Hs1 by (by rewrite (arr_get_set _ _ _ _ _ H1), Z.eqb_refl).
    cbn [name_of]. destruct (Z.eqb_spec c 0) as [->|Hc0]; cbn [negb].
    + destruct (zero_fill_spec n m1 (s + 1)) as (m2 & -> & Hl2 & H2); [unfold valid; lia|].
      exists m2. split; [done|]. split; [split; [congruence|]|].
      * intros j Hj. rewrite H2. destruct (Z.leb_spec (s + 1) j), (Z.ltb_spec j (s + 1 + Z.of_nat n)); cbn [andb]; try lia; apply Hm1; lia.
      * rewrite (field_at_S m2 s n 0); [done|lia|]. rewrite H2. by rewrite (proj2 (Z.leb_gt (s + 1) s)) by lia.
    + destruct (IH m1 (s + 1) (t + 1) str) as (m2 & -> & [Hl2 H2] & Hf); [lia|lia| | |].
      * apply arr_set_Ok in H1 as [_ ->]. replace (Z.to_nat (t + 1)) with (S (Z.to_nat t)) by lia.
        rewrite drop_insert_lt by lia. rewrite (drop_S _ _ _ Hc) in Hdr. by injection Hdr.
      * destruct Hn as [Hn|Hn]; [left; cbn in Hn; lia|right]. apply elem_of_cons in Hn as [Hn|Hn]; [congruence|done].
      * exists m2. split; [done|]. split; [split; [congruence|]|].
        -- intros j Hj. rewrite H2 by lia. apply Hm1. lia.
        -- rewrite (field_at_S m2 s n c); [|lia|by rewrite H2 by lia]. destruct (Z.eqb_spec c 0); [done|]. by f_equal.
Qed.

Lemma dirent_name_spec s : str_ok s -> exists nm, dirent_name s = Ok nm /\ zlen nm = DIRSIZ /\ Forall is_byte nm /\ key nm = key s.
Proof.
  intros [Hb Hs]. unfold dirent_name, strncpy, DIRSIZ in *. change (Z.to_nat 14) with 14%nat. set (mem := replicate 14 0 ++ s).
  assert (14 <= zlen mem) as Hmem by (unfold mem; rewrite zlen_app; change (zlen (replicate 14 0)) with 14; pose proof (zlen_nonneg s); lia).
  destruct (strncpy_str 14 mem 0 14 s) as (m & E & [Hl _] & Hf); [unfold valid; lia|lia|done|unfold zlen in Hs; destruct Hs; [left; lia|by right]|].
  rewrite E. cbn [mbind res_bind]. exists (take 14 m). split; [done|]. unfold zlen in *.
  assert (Forall is_byte m) as Hbm.
  { eapply strncpy_bytes; [|exact E]. apply Forall_app. split; [|done]. apply Forall_replicate. unfold is_byte. lia. }
  split; [rewrite length_take; lia|]. split; [by apply Forall_take|].
  unfold key. rewrite <- Hf. unfold field_at. change (drop (Z.to_nat 0) m) with m. rewrite <- (take_drop 14 m) at 2.
  symmetry. apply name_of_app. left. rewrite length_take. lia.
Qed.

(** ** The table of entries *)

(** The contents are whole entries. *)
Record dir_bytes (b : list Z) (es : list (list Z)) : Prop := {
  db_len : Forall (fun e => zlen e = dirent_size /\ Forall is_byte e) es;
  db_cat : b = concat es;
}.

(** The first entry of a name, with its offset; unused entries have the number 0. *)
Fixpoint dir_find (es : list (list Z)) (k : list Z) (off : Z) : option (Z * Z) :=
  match es with
  | [] => None
  | e :: es => if negb (de_inum e =? 0) && bool_decide (key (de_name e) = k) then Some (de_inum e, off)
               else dir_find es k (off + dirent_size)
  end.

Definition dir_map (es : list (list Z)) : gmap (list Z) Z :=
  foldr (fun e m => if de_inum e =? 0 then m else <[key (de_name e) := de_inum e]> m) ∅ es.

Lemma dir_find_map es k : forall off, fst <$> dir_find es k off = dir_map es !! k.
Proof.
  induction es as [|e es IH]; intros off; cbn [dir_find dir_map foldr]; [done|]. fold (dir_map es).
  destruct (de_inum e =? 0); cbn [negb andb]; [apply IH|]. case_bool_decide as Hk.
  - rewrite <- Hk. by rewrite lookup_insert_eq.
  - rewrite lookup_insert_ne by done. apply IH.
Qed.

(** The first unused entry, or the end. *)
Fixpoint free_entry (es : list (list Z)) : nat :=
  match es with [] => O | e :: es => if de_inum e =? 0 then O else S (free_entry es) end.

(** Entering [e] there. *)
Definition put_entry (es : list (list Z)) (e : list Z) : list (list Z) := take (free_entry es) es ++ e :: drop (S (free_entry es)) es.

Lemma put_entry_map es e : de_inum e <> 0 -> dir_map es !! key (de_name e) = None ->
  dir_map (put_entry es e) = <[key (de_name e) := de_inum e]> (dir_map es).
Proof.
  intros He. unfold put_entry. induction es as [|x es IH]; cbn [free_entry dir_map foldr].
  - intros _. cbn. by rewrite (proj2 (Z.eqb_neq _ _)).
  - fold (dir_map es). destruct (Z.eqb_spec (de_inum x) 0) as [Hx|Hx]; intros Hn; cbn [take drop app dir_map foldr].
    + fold (dir_map (drop 0 es)). rewrite drop_0, (proj2 (Z.eqb_neq _ _)) by done. done.
    + assert (key (de_name x) <> key (de_name e)) as Hk by (intros Hk; by rewrite Hk, lookup_insert_eq in Hn).
      rewrite lookup_insert_ne in Hn by done. fold (dir_map (take (free_entry es) es ++ e :: drop (S (free_entry es)) es)).
      rewrite IH by done. rewrite (proj2 (Z.eqb_neq _ _)) by done. by rewrite insert_insert_ne.
Qed.

Lemma dir_lens b es : dir_bytes b es -> Forall (fun e => length e = 16%nat) es.
Proof. intros [H _]. eapply Forall_impl; [exact H|]. intros e [He _]. unfold zlen, dirent_size, DIRSIZ in He. lia. Qed.

Lemma dir_zlen b es : dir_bytes b es -> zlen b = 16 * zlen es.
Proof. intros H. rewrite (db_cat _ _ H). unfold zlen. rewrite (concat_length 16) by (by eapply dir_lens). lia. Qed.

(** Reading an entry, and writing one. *)
Lemma dir_read b es j e : dir_bytes b es -> zlen b < 2 ^ 31 -> es !! j = Some e -> file_read b (16 * Z.of_nat j) dirent_size = Some e.
Proof.
  intros H Hb Hj. pose proof (dir_zlen b es H) as Hz. pose proof (lookup_lt_Some _ _ _ Hj) as Hlt. unfold file_read, dirent_size, DIRSIZ.
  unfold zlen in Hz at 2. rewrite (proj2 (Z.ltb_ge _ _)), (proj2 (Z.leb_gt _ _)) by lia. cbn [orb]. f_equal.
  rewrite (db_cat _ _ H). replace (Z.to_nat (16 * Z.of_nat j)) with (16 * j)%nat by lia.
  apply (concat_piece 16); [by eapply dir_lens|done].
Qed.

Lemma free_entry_le es : (free_entry es <= length es)%nat.
Proof. induction es as [|e es IH]; cbn; [lia|]. destruct (de_inum e =? 0); lia. Qed.

Lemma dir_write b es e : dir_bytes b es -> zlen e = dirent_size -> Forall is_byte e ->
  let off := 16 * Z.of_nat (free_entry es) in off + 16 <= MAXFILE * BSIZE ->
  file_write b off e = (Some dirent_size, concat (put_entry es e)) /\ dir_bytes (concat (put_entry es e)) (put_entry es e).
Proof.
  intros H He Hb off Hoff. pose proof (dir_zlen b es H) as Hz. pose proof (free_entry_le es) as Hle. pose proof (dir_lens b es H) as Hl.
  rewrite MAXBYTES in Hoff. split.
  - unfold file_write. rewrite MAXBYTES, He. unfold dirent_size, DIRSIZ in *. unfold zlen in Hz at 2. rewrite (proj2 (Z.ltb_ge _ _)), (proj2 (Z.leb_gt _ _)) by lia.
    rewrite (proj2 (Z.ltb_ge _ _)) by lia. cbn [orb]. f_equal. unfold put_entry. rewrite concat_app. cbn [concat].
    replace (Z.to_nat off) with (16 * free_entry es)%nat by lia. rewrite (db_cat _ _ H), (concat_take 16) by done. f_equal. f_equal.
    rewrite <- (concat_drop 16) by done. f_equal. unfold zlen in He. lia.
  - constructor; [|done]. destruct H as [H _]. unfold put_entry. apply Forall_app. split; [by apply Forall_take|].
    constructor; [done|]. by apply Forall_drop.
Qed.

(** ** A reference to an inode *)

(** Resources a call that takes a reference can run out of. *)
Definition crowded (e : Prelude.fault) : Prop := exhausted e \/ e = Panic "iget: no inodes".

Lemma hoareX_weaken {S A} (E E' : Prelude.fault -> Prop) (P : S -> Prop) (m : ST S A) Q :
  (forall e, E e -> E' e) -> hoareX E P m Q -> hoareX E' P m Q.
Proof. intros HE H s Hs. specialize (H s Hs). destruct (m s) as [[]| |]; auto. Qed.

(** [iget]: the entry of the inode has one more reference, or is new. *)
Definition active (ic : list inode) (k : nat) (inum : Z) : Prop :=
  exists i, ic !! k = Some i /\ 0 < i_ref i /\ i_dev i = 1 /\ i_inum i = inum.

Definition new_entry (i : inode) (inum : Z) : inode :=
  {| i_dev := 1; i_inum := inum; i_ref := 1; i_lock := i_lock i; i_valid := 0; i_copy := i_copy i |}.

Inductive got (ic : list inode) (inum ip : Z) : list inode -> Prop :=
| got_active i : arr_get ic ip = Ok i -> 0 < i_ref i -> i_dev i = 1 -> i_inum i = inum ->
    got ic inum ip (<[Z.to_nat ip := with_ref i (i_ref i + 1)]> ic)
| got_new i : arr_get ic ip = Ok i -> i_ref i = 0 -> (forall k, ~ active ic k inum) ->
    got ic inum ip (<[Z.to_nat ip := new_entry i inum]> ic).

Lemma iget_find_spec l : forall i dv inum empty,
  match iget_find l i dv inum empty with
  | (Some ip, _) => exists x, i <= ip /\ l !! Z.to_nat (ip - i) = Some x /\ 0 < i_ref x /\ i_dev x = dv /\ i_inum x = inum
  | (None, e) => (forall k x, l !! k = Some x -> 0 < i_ref x -> i_dev x = dv -> i_inum x <> inum) /\
      (e = empty \/ empty = None /\ exists ip x, e = Some ip /\ i <= ip /\ l !! Z.to_nat (ip - i) = Some x /\ i_ref x = 0)
  end.
Proof.
  induction l as [|y l IH]; intros i dv inum empty; cbn [iget_find]; [split; [done|by left]|].
  destruct ((0 <? i_ref y) && (i_dev y =? dv) && (i_inum y =? inum)) eqn:E.
  { exists y. rewrite Z.sub_diag. rewrite !andb_true_iff, Z.ltb_lt, !Z.eqb_eq in E. destruct E as [[? ?] ?]. done. }
  assert (forall ip, i + 1 <= ip -> (y :: l) !! Z.to_nat (ip - i) = l !! Z.to_nat (ip - (i + 1))) as Hs.
  { intros ip Hip. by replace (Z.to_nat (ip - i)) with (S (Z.to_nat (ip - (i + 1)))) by lia. }
  specialize (IH (i + 1) dv inum (match empty with Some e => Some e | None => if i_ref y =? 0 then Some i else None end)).
  destruct (iget_find l (i + 1) dv inum _) as [[ip|] e].
  - destruct IH as (x & Hip & Hx & H). exists x. rewrite Hs by done. split; [lia|done].
  - destruct IH as [Hno He]. split.
    + intros [|k] x Hx Hr Hd; [|by apply (Hno k)]. injection Hx as <-. intros Hi. apply Z.ltb_lt in Hr. apply Z.eqb_eq in Hd, Hi.
      by rewrite Hr, Hd, Hi in E.
    + destruct empty as [e0|].
      * destruct He as [->|[He _]]; [by left|done].
      * destruct (Z.eqb_spec (i_ref y) 0) as [Hy|Hy].
        -- destruct He as [->|[He _]]; [|done]. right. split; [done|]. exists i, y. rewrite Z.sub_diag. done.
        -- destruct He as [->|[_ (ip & x & -> & Hip & Hx & Hr)]]; [by left|]. right. split; [done|]. exists ip, x. rewrite Hs by done.
           split_and!; [done|lia|done|done].
Qed.

Section dirs.
Variables (mypid N st sz data0 : Z) (sb : superblock).
Variable dev_read : Z -> option (Z -> Z -> ST fs (option (list Z))).
Variable dev_write : Z -> option (Z -> list Z -> ST fs (option Z)).
Hypothesis Hly : layout N st sz data0 sb.

Notation fsr C ic := (fsr N st sz C ∅ ∅ sb ic).
Notation disk_ok := (disk_ok N data0 sb).
Notation file_at := (file_at data0 sb).

Lemma on_crowded {A} (P : fs -> Prop) (m : ST fs A) Q : hoareX exhausted P m Q -> hoareX crowded P m Q.
Proof. apply hoareX_weaken. by left. Qed.

Lemma iget_spec C ic inum :
  hoareX crowded (fsr C ic) (iget 1 inum) (fun ip f => exists ic', got ic inum ip ic' /\ fsr C ic' f).
Proof.
  intros f Hf. pose proof (f_ic _ _ _ _ _ _ _ _ _ Hf) as Hic. unfold iget. rewrite (bind_run _ _ f (icache f) f eq_refl), Hic.
  assert (forall ip x g, ic !! Z.to_nat ip = Some x -> 0 <= ip -> exists f', inode_upd ip g f = Ok ((), f') /\
    arr_get ic ip = Ok x /\ fsr C (<[Z.to_nat ip := g x]> ic) f') as Hupd.
  { intros ip x g Hx Hip. assert (arr_get ic ip = Ok x) as Hg by (by apply arr_get_Ok).
    pose proof (arr_get_bound _ _ _ Hg) as Hb. unfold inode_upd. rewrite Hic, Hg. cbn [mbind res_bind].
    rewrite arr_set_ok by done. cbn [mbind res_bind]. eexists. split; [done|]. split; [done|]. destruct Hf. by constructor. }
  pose proof (iget_find_spec ic 0 1 inum None) as H. destruct (iget_find ic 0 1 inum None) as [[ip|] e].
  - destruct H as (x & Hip & Hx & Hr & Hd & Hi). rewrite Z.sub_0_r in Hx.
    destruct (Hupd ip x (fun i => with_ref i (i_ref i + 1)) Hx Hip) as (f' & E & Hg & Hf'). rewrite (bind_run _ _ _ _ _ E).
    eexists. split; [|exact Hf']. by apply got_active.
  - destruct H as [Hno [->|[_ (ip & x & -> & Hip & Hx & Hr)]]]; [by right|]. rewrite Z.sub_0_r in Hx.
    destruct (Hupd ip x (fun i => new_entry i inum) Hx Hip) as (f' & E & Hg & Hf'). unfold new_entry in E. rewrite (bind_run _ _ _ _ _ E).
    eexists. split; [|exact Hf']. apply got_new; [done|done|]. intros k (y & Hy & Hr' & Hd & Hi). by apply (Hno k y).
Qed.

Section lookup.
Variables (C : Z -> list Z) (ic : list inode) (dp : Z) (i : inode) (b : list Z) (es : list (list Z)).
Hypothesis Hok : disk_ok C.
Hypothesis Hi : arr_get ic dp = Ok i.
Hypothesis Hfa : file_at C i b.
Hypothesis Hdir : d_type (i_copy i) = T_DIR.
Hypothesis Hb : dir_bytes b es.

Lemma dir_small : zlen b = 16 * zlen es /\ zlen b <= 8394752.
Proof. split; [by apply dir_zlen|]. rewrite <- MAXBYTES. apply (fa_max _ _ _ _ _ Hfa). Qed.

Lemma read_dirent_spec j e msg : es !! j = Some e ->
  hoareX crowded (fsr C ic) (read_dirent mypid dev_read dp (16 * Z.of_nat j) msg) (fun x f => x = e /\ fsr C ic f).
Proof.
  intros Hj. destruct dir_small as [Hz Hm]. pose proof (lookup_lt_Some _ _ _ Hj) as Hlt. unfold zlen in Hz at 2. unfold read_dirent.
  eapply hoareX_seq; [apply on_crowded, (readi_spec mypid N st sz data0 sb dev_read Hly C ic dp i b); try done; unfold is_uint, dirent_size, DIRSIZ; lia|].
  intros _ ->. rewrite (dir_read b es j e) by (done || lia). destruct Hb as [Hl _]. rewrite Forall_lookup in Hl.
  destruct (Hl j e Hj) as [-> _]. rewrite Z.eqb_refl. by intros f Hf.
Qed.

Definition looked (k : list Z) (r : option (Z * Z)) (o : option (Z * Z)) (f : fs) : Prop :=
  match o with
  | None => r = None /\ fsr C ic f
  | Some (inum, off) => exists ip ic', (r = Some (ip, off) /\ got ic inum ip ic') /\ fsr C ic' f
  end.

Lemma dirlookup_loop_spec name fuel : str_ok name -> forall j, (j <= length es)%nat -> (length es - j < fuel)%nat ->
  hoareX crowded (fsr C ic) (dirlookup_loop mypid dev_read fuel dp (16 * Z.of_nat j) name)
    (fun r => looked (key name) r (dir_find (drop j es) (key name) (16 * Z.of_nat j))).
Proof.
  intros Hn. destruct dir_small as [Hz Hm]. unfold zlen in Hz at 2. induction fuel as [|fuel IH]; intros j Hj Hfu; [lia|]. cbn [dirlookup_loop].
  eapply hoareX_seq; [by apply on_crowded, inode_at_spec|]. intros _ ->. rewrite (fa_size _ _ _ _ _ Hfa).
  destruct (Z.ltb_spec (16 * Z.of_nat j) (zlen b)) as [Hlt|Hge].
  2: { rewrite drop_ge by lia. by intros f Hf. }
  destruct (lookup_lt_is_Some_2 es j ltac:(lia)) as [e He]. rewrite (drop_S _ _ _ He). cbn [dir_find].
  assert (16 * Z.of_nat j + dirent_size = 16 * Z.of_nat (S j)) as Ha by (unfold dirent_size, DIRSIZ; lia).
  eapply hoareX_seq; [by apply read_dirent_spec|]. intros _ ->. rewrite !Ha, !u32_small by lia.
  destruct (de_inum e =? 0); cbn [negb andb]; [apply IH; lia|].
  destruct Hb as [Hl _]. rewrite Forall_lookup in Hl. destruct (Hl j e He) as [Hle Hbe].
  destruct (namecmp_spec name (de_name e) Hn) as (r & Hr & Hr0).
  { by apply Forall_drop. }
  { unfold de_name, zlen, dirent_size, DIRSIZ in *. rewrite length_drop. lia. }
  eapply hoareX_seq; [exact (hoareX_pure crowded _ _ r Hr)|]. intros _ ->.
  destruct (Z.eqb_spec r 0) as [->|Hne].
  - rewrite bool_decide_true by (symmetry; by apply Hr0). rewrite (fa_dev _ _ _ _ _ Hfa).
    eapply hoareX_bind; [apply iget_spec|]. intros ip f (ic' & Hg & Hf). by exists ip, ic'.
  - rewrite bool_decide_false by (intros Hk; by apply Hne, Hr0). apply IH; lia.
Qed.

Lemma dirlookup_spec name : str_ok name ->
  hoareX crowded (fsr C ic) (dirlookup mypid dev_read dp name) (fun r => looked (key name) r (dir_find es (key name) 0)).
Proof.
  intros Hn. unfold dirlookup. eapply hoareX_seq; [by apply on_crowded, inode_at_spec|]. intros _ ->.
  rewrite Hdir. cbn [negb Z.eqb T_DIR Pos.eqb]. rewrite (fa_size _ _ _ _ _ Hfa). destruct dir_small as [Hz Hm]. unfold zlen in Hz at 2.
  apply (dirlookup_loop_spec name _ Hn 0); lia.
Qed.

(** The offset that [dirlink] takes. *)
Lemma dirlink_find_spec fuel : forall j, (j <= length es)%nat -> (length es - j < fuel)%nat ->
  hoareX crowded (fsr C ic) (dirlink_find mypid dev_read fuel dp (16 * Z.of_nat j))
    (fun off f => off = 16 * Z.of_nat (j + free_entry (drop j es)) /\ fsr C ic f).
Proof.
  destruct dir_small as [Hz Hm]. unfold zlen in Hz at 2. induction fuel as [|fuel IH]; intros j Hj Hfu; [lia|]. cbn [dirlink_find].
  eapply hoareX_seq; [by apply on_crowded, inode_at_spec|]. intros _ ->. rewrite (fa_size _ _ _ _ _ Hfa), u32_small by lia.
  destruct (Z.ltb_spec (16 * Z.of_nat j) (zlen b)) as [Hlt|Hge].
  2: { rewrite drop_ge by lia. cbn [free_entry]. rewrite Nat.add_0_r. by intros f Hf. }
  destruct (lookup_lt_is_Some_2 es j ltac:(lia)) as [e He]. rewrite (drop_S _ _ _ He). cbn [free_entry].
  eapply hoareX_seq; [by apply read_dirent_spec|]. intros _ ->.
  destruct (de_inum e =? 0); [rewrite Nat.add_0_r; by intros f Hf|].
  assert (s32 (16 * Z.of_nat j + dirent_size) = 16 * Z.of_nat (S j)) as -> by (unfold dirent_size, DIRSIZ; rewrite s32_small; lia).
  eapply hoareX_post; [apply IH; lia|]. intros off f [-> Hf]. split; [f_equal; lia|done].
Qed.
End lookup.

(** [iput] of an inode that is not free for the last time drops a reference. *)
Definition dropped (x : inode) : inode := with_ref (with_ilock x {| locked := 0; pid := 0 |}) (i_ref x - 1).

Lemma iput_spec C ic ip x : arr_get ic ip = Ok x -> locked (i_lock x) = 0 ->
  i_valid x = 0 \/ d_nlink (i_copy x) <> 0 \/ i_ref x <> 1 ->
  hoareX exhausted (fsr C ic) (iput mypid ip) (fun _ f => fsr C (<[Z.to_nat ip := dropped x]> ic) f).
Proof.
  intros Hx Hl Hlast. pose proof (arr_get_bound _ _ _ Hx) as Hb.
  assert (forall y z, arr_set (<[Z.to_nat ip := y]> ic) ip z = Ok (<[Z.to_nat ip := z]> ic)) as Hset.
  { intros y z. rewrite arr_set_ok, list_insert_insert_eq; [done|]. unfold zlen in *. by rewrite length_insert. }
  assert (forall y, arr_get (<[Z.to_nat ip := y]> ic) ip = Ok y) as Hget.
  { intros y. apply arr_get_Ok. split; [lia|]. apply list_lookup_insert_eq. unfold zlen in Hb. lia. }
  unfold iput, iacquiresleep, ireleasesleep. eapply hoareX_bind.
  { eapply hoareX_seq; [by apply inode_at_spec|]. intros _ ->. rewrite Hl. cbn [negb Z.eqb].
    eapply inode_upd_spec; [exact Hx|by apply arr_set_ok]. }
  intros []. eapply hoareX_seq; [apply inode_at_spec, Hget|]. intros _ ->. cbn [i_valid i_copy i_ref with_ilock].
  assert (negb (i_valid x =? 0) && (d_nlink (i_copy x) =? 0) && (i_ref x =? 1) = false) as ->.
  { destruct Hlast as [->|[H|H]]; [done| |]; apply Z.eqb_neq in H; rewrite H; by rewrite ?andb_false_r. }
  eapply hoareX_bind; [apply hoareX_ret with (P := fun _ => fsr C (<[Z.to_nat ip := with_ilock x {| locked := 1; pid := mypid |}]> ic))|].
  intros []. eapply hoareX_bind; [eapply inode_upd_spec; [apply Hget|apply Hset]|]. intros [].
  eapply inode_upd_spec; [apply Hget|]. apply Hset.
Qed.

(** ** Directories as finite maps *)

Inductive dir_op :=
| DLookup (name : list Z)
| DLink (name : list Z) (inum : Z).

Inductive dir_res :=
| RInum (r : option Z)
| RLinked (r : bool).

(** A lookup returns the number of the inode it has a reference to. *)
Definition run_dir_op (dp : Z) (op : dir_op) : ST fs dir_res :=
  match op with
  | DLookup name =>
      r ← dirlookup mypid dev_read dp name;
      match r with
      | None => mret (RInum None)
      | Some (ip, _) => i ← inode_at ip; mret (RInum (Some (i_inum i)))
      end
  | DLink name inum => r ← dirlink mypid dev_read dev_write dp name inum; mret (RLinked r)
  end.

Fixpoint run_dir_ops (dp : Z) (ops : list dir_op) : ST fs (list dir_res) :=
  match ops with
  | [] => mret []
  | op :: ops => r ← run_dir_op dp op; rs ← run_dir_ops dp ops; mret (r :: rs)
  end.

(** The entries of the cache that hold the files [F] are in use. *)
Definition in_cache (F : gmap Z (list Z)) (ic : list inode) : Prop :=
  forall ip, is_Some (F !! ip) -> exists x, arr_get ic ip = Ok x /\ 0 < i_ref x.

Lemma file_at_ext C x x' b : file_at C x b -> i_dev x' = i_dev x -> i_inum x' = i_inum x -> i_copy x' = i_copy x -> file_at C x' b.
Proof.
  intros [F1 F2 F3 F4 F5 F6 F7 F8 F9 F10] Ed En Ec. constructor; unfold iblk, ioff in *; rewrite ?Ed, ?En, ?Ec; done.
Qed.

Lemma holds_cache F C ic ic' : holds N data0 sb F C ic -> (forall q x, is_Some (F !! q) -> arr_get ic q = Ok x ->
    exists x', arr_get ic' q = Ok x' /\ i_dev x' = i_dev x /\ i_inum x' = i_inum x /\ i_copy x' = i_copy x) ->
  holds N data0 sb F C ic'.
Proof.
  intros [Hok Hfs Hap] Hs. constructor; [done| |].
  - intros ip bytes HF. destruct (Hfs ip bytes HF) as (x & Hx & Hfa). destruct (Hs ip x ltac:(by eexists) Hx) as (x' & Hx' & Ed & En & Ec).
    exists x'. split; [done|]. by apply (file_at_ext C x).
  - intros ip ip' y y' Hne H1 H2 Hy Hy'. destruct H1 as [b1 H1], H2 as [b2 H2].
    destruct (Hfs ip b1 H1) as (x & Hx & _), (Hfs ip' b2 H2) as (x' & Hx' & _).
    destruct (Hs ip x ltac:(by eexists) Hx) as (z & Hz & _ & En & Ec), (Hs ip' x' ltac:(by eexists) Hx') as (z' & Hz' & _ & En' & Ec').
    rewrite Hy in Hz. rewrite Hy' in Hz'. injection Hz as <-. injection Hz' as <-. rewrite En, En', Ec, Ec'.
    apply (Hap ip ip'); [done|by eexists|by eexists|done|done].
Qed.

(** An update of an entry of the cache that keeps what its file depends on. *)
Lemma cache_upd F C ic q x y : holds N data0 sb F C ic -> in_cache F ic -> arr_get ic q = Ok x ->
  (0 < i_ref x -> i_dev y = i_dev x /\ i_inum y = i_inum x /\ i_copy y = i_copy x /\ 0 < i_ref y) ->
  holds N data0 sb F C (<[Z.to_nat q := y]> ic) /\ in_cache F (<[Z.to_nat q := y]> ic).
Proof.
  intros Hh Hc Hx Hy. pose proof (arr_get_bound _ _ _ Hx) as Hb.
  assert (forall p, arr_get (<[Z.to_nat q := y]> ic) p = if p =? q then Ok y else arr_get ic p) as Hget.
  { intros p. eapply arr_get_set, arr_set_ok, Hb. }
  split.
  - apply (holds_cache F C ic); [done|]. intros p z Hp Hz. rewrite Hget. destruct (Z.eqb_spec p q) as [->|Hne]; [|by exists z].
    rewrite Hx in Hz. injection Hz as <-. destruct (Hc q Hp) as (x' & Hx' & Hr). rewrite Hx in Hx'. injection Hx' as <-.
    destruct (Hy Hr) as (? & ? & ? & _). by exists y.
  - intros p Hp. rewrite Hget. destruct (Hc p Hp) as (z & Hz & Hr). destruct (Z.eqb_spec p q) as [->|Hne]; [|by exists z].
    rewrite Hx in Hz. injection Hz as <-. exists y. split; [done|]. by apply Hy.
Qed.

(** Letting the reference go again at once. *)
Lemma got_dropped ic inum ip ic' x : got ic inum ip ic' -> arr_get ic' ip = Ok x ->
  (i_valid x = 0 \/ d_nlink (i_copy x) <> 0 \/ i_ref x <> 1) /\
  exists y z, <[Z.to_nat ip := dropped x]> ic' = <[Z.to_nat ip := y]> ic /\ arr_get ic ip = Ok z /\
    (0 < i_ref z -> i_dev y = i_dev z /\ i_inum y = i_inum z /\ i_copy y = i_copy z /\ 0 < i_ref y).
Proof.
  assert (forall y z, arr_get ic ip = Ok z -> arr_get (<[Z.to_nat ip := y]> ic) ip = Ok y) as Hget.
  { intros y z Hz. rewrite (arr_get_set _ _ _ _ ip (arr_set_ok _ _ y (arr_get_bound _ _ _ Hz))). by rewrite Z.eqb_refl. }
  intros Hg. destruct Hg as [z Hz Hr Hd Hn|z Hz Hr _]; rewrite (Hget _ _ Hz); intros [= <-]; cbn [i_valid i_copy i_ref with_ref new_entry].
  - split; [right; right; lia|]. eexists _, z. rewrite list_insert_insert_eq. split; [done|]. split; [done|]. intros _. cbn. split_and!; [done..|lia].
  - split; [by left|]. eexists _, z. rewrite list_insert_insert_eq. split; [done|]. split; [done|]. lia.
Qed.

(** The inode [dp] is a directory that maps names as [m] does, with room for [n]
    more entries; the other files are those of [F]. *)
Record dir_at (F : gmap Z (list Z)) (dp : Z) (m : gmap (list Z) Z) (n : Z) (C : Z -> list Z) (ic : list inode) (i : inode) (b : list Z)
    (es : list (list Z)) : Prop := {
  da_holds : holds N data0 sb (<[dp := b]> F) C ic;
  da_cache : in_cache (<[dp := b]> F) ic;
  da_inode : arr_get ic dp = Ok i;
  da_type : d_type (i_copy i) = T_DIR;
  da_bytes : dir_bytes b es;
  da_map : dir_map es = m;
  da_room : zlen b + 16 * n <= MAXFILE * BSIZE;
}.

Definition fs_dir (F : gmap Z (list Z)) (dp : Z) (m : gmap (list Z) Z) (n : Z) (f : fs) : Prop :=
  exists C ic i b es, dir_at F dp m n C ic i b es /\ fsr C ic f.

Lemma dir_at_file F dp m n C ic i b es : dir_at F dp m n C ic i b es -> disk_ok C /\ file_at C i b /\ 0 < i_ref i.
Proof.
  intros [Hh Hc Hi _ _ _ _]. split; [apply Hh|].
  destruct (ho_file _ _ _ _ _ _ Hh dp b) as (i' & Hi' & Hfa); [by rewrite lookup_insert_eq|].
  rewrite Hi in Hi'. injection Hi' as <-. split; [done|]. destruct (Hc dp) as (i' & Hi' & Hr); [by rewrite lookup_insert_eq|].
  rewrite Hi in Hi'. by injection Hi' as <-.
Qed.

Lemma dir_at_upd F dp m n C ic i b es q x y : dir_at F dp m n C ic i b es -> arr_get ic q = Ok x ->
  (0 < i_ref x -> i_dev y = i_dev x /\ i_inum y = i_inum x /\ i_copy y = i_copy x /\ 0 < i_ref y) ->
  exists i', dir_at F dp m n C (<[Z.to_nat q := y]> ic) i' b es.
Proof.
  intros H Hx Hy. pose proof (dir_at_file _ _ _ _ _ _ _ _ _ H) as (_ & _ & Hr). destruct H as [Hh Hc Hi Ht Hb Hm Hn].
  destruct (cache_upd _ C ic q x y Hh Hc Hx Hy) as [Hh' Hc'].
  assert (arr_get (<[Z.to_nat q := y]> ic) dp = if dp =? q then Ok y else arr_get ic dp) as Hget.
  { eapply arr_get_set, arr_set_ok, (arr_get_bound _ _ _ Hx). }
  destruct (Z.eqb_spec dp q) as [->|Hne]; [exists y|exists i]; constructor; try done; [|by rewrite Hget].
  rewrite Hi in Hx. injection Hx as <-. destruct (Hy Hr) as (_ & _ & -> & _). done.
Qed.

(** What [iget] does keeps the directory, and the entry it returns has the number. *)
Lemma dir_at_got F dp m n C ic i b es inum ip ic' : dir_at F dp m n C ic i b es -> got ic inum ip ic' ->
  (exists i', dir_at F dp m n C ic' i' b es) /\ exists x, arr_get ic' ip = Ok x /\ i_inum x = inum.
Proof.
  assert (forall y z, arr_get ic ip = Ok z -> arr_get (<[Z.to_nat ip := y]> ic) ip = Ok y) as Hget.
  { intros y z Hz. rewrite (arr_get_set _ _ _ _ ip (arr_set_ok _ _ y (arr_get_bound _ _ _ Hz))). by rewrite Z.eqb_refl. }
  intros H Hg. destruct Hg as [z Hz Hr Hd Hn|z Hz Hr _]; rewrite (Hget _ _ Hz); (split; [|by eexists]);
    eapply dir_at_upd; try done; [intros _; cbn; split_and!; [done..|lia]|lia].
Qed.

(** Also a link of a name that is there may have to wait for the inode. *)
Definition waits (e : Prelude.fault) : Prop := crowded e \/ e = Blocked.

Lemma on_waits {A} (P : fs -> Prop) (m : ST fs A) Q : hoareX crowded P m Q -> hoareX waits P m Q.
Proof. apply hoareX_weaken. by left. Qed.

Lemma lookup_op F dp m n name : str_ok name ->
  hoareX waits (fs_dir F dp m n) (run_dir_op dp (DLookup name)) (fun r f => r = RInum (m !! key name) /\ fs_dir F dp m n f).
Proof.
  intros Hn f (C & ic & i & b & es & H & Hf). pose proof (dir_at_file _ _ _ _ _ _ _ _ _ H) as (Hok & Hfa & _). pose proof H as [_ _ Hi Ht Hb Hm _]. subst m.
  revert f Hf. cbn [run_dir_op]. eapply hoareX_bind; [by apply on_waits, (dirlookup_spec C ic dp i b es)|].
  intros r f. rewrite <- (dir_find_map es (key name) 0). destruct (dir_find es (key name) 0) as [[inum off]|]; cbn [looked fmap option_fmap option_map fst].
  - intros (ip & ic' & [-> Hg] & Hf). destruct (dir_at_got _ _ _ _ _ _ _ _ _ _ _ _ H Hg) as [[i' H'] (x & Hx & Hin)].
    unfold inode_at, mbind, st_bind. rewrite (f_ic _ _ _ _ _ _ _ _ _ Hf), Hx. cbn. rewrite Hin. split; [done|].
    by exists C, ic', i', b, es.
  - intros [-> Hf]. split; [done|]. by exists C, ic, i, b, es.
Qed.

Lemma fs_dir_less F dp m n n' f : n' <= n -> fs_dir F dp m n f -> fs_dir F dp m n' f.
Proof.
  intros Hn (C & ic & i & b & es & [Hh Hc Hi Ht Hb Hm Hr] & Hf). exists C, ic, i, b, es. split; [|done]. constructor; try done. lia.
Qed.

(** The entry that [dirlink] writes. *)
Lemma new_dirent inum nm : 0 < inum < 2 ^ 16 -> zlen nm = DIRSIZ -> Forall is_byte nm ->
  let e := le_bytes 2 inum ++ nm in zlen e = dirent_size /\ Forall is_byte e /\ de_inum e = inum /\ de_name e = nm.
Proof.
  intros Hi Hl Hb e. assert (length (le_bytes 2 inum) = 2%nat) as H2 by apply length_le_bytes. split_and!.
  - unfold e. rewrite zlen_app, Hl. unfold zlen. by rewrite H2.
  - apply Forall_app. split; [apply le_bytes_are_bytes|done].
  - unfold de_inum, e. rewrite take_app_le, take_ge by lia. rewrite le_value_bytes. apply Z.mod_small. change (256 ^ Z.of_nat 2) with (2 ^ 16). lia.
  - unfold de_name, e. rewrite <- H2. by rewrite drop_app_length.
Qed.

(** The directory after the write of the entry. *)
Lemma dir_at_put F dp m n C ic i b es e C' i' : dir_at F dp m n C ic i b es -> 1 <= n -> zlen e = dirent_size -> Forall is_byte e ->
  de_inum e <> 0 -> m !! key (de_name e) = None ->
  disk_ok C' -> file_at C' i' (concat (put_entry es e)) -> kept i i' -> changed N data0 sb C i C' (d_addrs (i_copy i')) ->
  dir_at F dp (<[key (de_name e) := de_inum e]> m) (n - 1) C' (<[Z.to_nat dp := i']> ic) i' (concat (put_entry es e)) (put_entry es e).
Proof.
  intros H Hn He Hbe Hin Hno Hok' Hfa' (Kn & Kr & Kt) Hch. pose proof (dir_at_file _ _ _ _ _ _ _ _ _ H) as (_ & Hfa & Hr).
  destruct H as [Hh Hc Hi Ht Hb Hm Hroom]. pose proof (arr_get_bound _ _ _ Hi) as Hip. pose proof (dir_zlen b es Hb) as Hz.
  pose proof (free_entry_le es) as Hfe. unfold zlen in Hz at 2.
  destruct (dir_write b es e Hb He Hbe ltac:(lia)) as [_ Hb'].
  assert (arr_get (<[Z.to_nat dp := i']> ic) dp = Ok i') as Hi'.
  { rewrite (arr_get_set _ _ _ _ dp (arr_set_ok _ _ i' Hip)). by rewrite Z.eqb_refl. }
  constructor.
  - rewrite <- (insert_insert_eq F dp _ b). apply (holds_write N st sz data0 sb Hly _ C ic dp i b); try done. by rewrite lookup_insert_eq.
  - intros q Hq. rewrite (arr_get_set _ _ _ _ q (arr_set_ok _ _ i' Hip)). destruct (Z.eqb_spec q dp) as [->|Hne]; [exists i'; split; [done|lia]|].
    apply Hc. rewrite lookup_insert_ne in * by done. done.
  - done.
  - congruence.
  - done.
  - subst m. by apply put_entry_map.
  - rewrite (dir_zlen _ _ Hb'). unfold put_entry. rewrite zlen_app, zlen_cons. unfold zlen. rewrite length_take, length_drop. unfold zlen in Hz, Hroom. lia.
Qed.

Lemma link_op F dp m n name inum : str_ok name -> 0 < inum < 2 ^ 16 -> 1 <= n ->
  hoareX waits (fs_dir F dp m n) (run_dir_op dp (DLink name inum))
    (fun r f => r = RLinked (bool_decide (m !! key name = None)) /\
       fs_dir F dp (if decide (m !! key name = None) then <[key name := inum]> m else m) (n - 1) f).
Proof.
  intros Hn Hin Hn1 f (C & ic & i & b & es & H & Hf). pose proof (dir_at_file _ _ _ _ _ _ _ _ _ H) as (Hok & Hfa & _). pose proof H as [_ _ Hi Ht Hb Hm Hroom].
  revert f Hf. cbn [run_dir_op]. unfold dirlink. eapply hoareX_bind with (Q := fun r f => r = bool_decide (m !! key name = None) /\
    fs_dir F dp (if decide (m !! key name = None) then <[key name := inum]> m else m) (n - 1) f); [|intros r f [-> Hf]; done].
  eapply hoareX_bind; [by apply on_waits, (dirlookup_spec C ic dp i b es)|].
  intros r. rewrite <- Hm, <- (dir_find_map es (key name) 0). destruct (dir_find es (key name) 0) as [[inum' off]|] eqn:Efind; cbn [looked fmap option_fmap option_map fst].
  - rewrite bool_decide_false, decide_False by done. intros f (ip & ic' & [-> Hg] & Hf). cbv iota beta.
    destruct (dir_at_got _ _ _ _ _ _ _ _ _ _ _ _ H Hg) as [_ (x & Hx & _)].
    destruct (got_dropped _ _ _ _ _ Hg Hx) as (Hlast & y & z & Ey & Hz & Hy).
    destruct (decide (locked (i_lock x) = 0)) as [Hl|Hl].
    + revert f Hf. eapply hoareX_bind; [by apply on_waits, on_crowded, (iput_spec C ic' ip x)|]. intros [] f Hf. rewrite Ey in Hf.
      destruct (dir_at_upd _ _ _ _ _ _ _ _ _ _ _ _ H Hz Hy) as [i' H']. cbn. split; [done|]. apply (fs_dir_less _ _ _ n); [lia|].
      subst m. by exists C, (<[Z.to_nat ip := y]> ic), i', b, es.
    + unfold iput, iacquiresleep, inode_at, mbind, st_bind. rewrite (f_ic _ _ _ _ _ _ _ _ _ Hf), Hx. cbn.
      apply Z.eqb_neq in Hl. rewrite Hl. by right.
  - assert (m !! key name = None) as Hnone by (by rewrite <- Hm, <- (dir_find_map es (key name) 0), Efind).
    rewrite bool_decide_true, decide_True by done. intros f [-> Hf]. revert f Hf.
    destruct (dirent_name_spec name Hn) as (nm & Enm & Hl & Hbn & Hk). destruct (new_dirent inum nm Hin Hl Hbn) as (He & Hbe & Hei & Hen).
    pose proof (dir_zlen b es Hb) as Hz. pose proof (free_entry_le es) as Hfe. unfold zlen in Hz at 2. rewrite MAXBYTES in Hroom.
    eapply hoareX_seq; [by apply on_waits, on_crowded, inode_at_spec|]. intros _ ->. rewrite (fa_size _ _ _ _ _ Hfa).
    eapply hoareX_seq; [apply on_waits, (dirlink_find_spec C ic dp i b es Hok Hi Hfa Hb _ 0); lia|]. intros _ ->. cbn [Nat.add]. rewrite drop_0.
    eapply hoareX_seq; [exact (hoareX_pure waits _ _ nm Enm)|]. intros _ ->. rewrite u32_small by lia.
    set (e := le_bytes 2 inum ++ nm) in *. rewrite <- He.
    eapply hoareX_bind; [apply on_waits, on_crowded, (writei_spec mypid N st sz data0 sb dev_write Hly C ic dp i b); try done; unfold is_uint; rewrite ?He; unfold dirent_size, DIRSIZ; lia|].
    intros r f [-> (C' & i' & (Hok' & Hfa' & Hkept & Hch) & Hf)].
    destruct (dir_write b es e Hb He Hbe) as [Ew _]; [rewrite MAXBYTES; lia|]. rewrite Ew in *. cbn [fst snd] in *. cbv iota. rewrite He, Z.eqb_refl. cbn.
    split; [done|]. exists C', (<[Z.to_nat dp := i']> ic), i', (concat (put_entry es e)), (put_entry es e). split; [|done].
    subst m. rewrite <- Hk, <- Hen, <- Hei. apply (dir_at_put F dp (dir_map es) n C ic i b es e C' i'); try done; [lia|]. by rewrite Hen, Hk.
Qed.
End dirs.

(** The operations on the map. *)
Definition spec_dir_op (m : gmap (list Z) Z) (op : dir_op) : dir_res * gmap (list Z) Z :=
  match op with
  | DLookup name => (RInum (m !! key name), m)
  | DLink name inum =>
      match m !! key name with Some _ => (RLinked false, m) | None => (RLinked true, <[key name := inum]> m) end
  end.

Fixpoint spec_dir_ops (m : gmap (list Z) Z) (ops : list dir_op) : list dir_res * gmap (list Z) Z :=
  match ops with
  | [] => ([], m)
  | op :: ops => let (r, m) := spec_dir_op m op in let (rs, m) := spec_dir_ops m ops in (r :: rs, m)
  end.

Definition dir_op_ok (op : dir_op) : Prop :=
  match op with DLookup name => str_ok name | DLink name inum => str_ok name /\ 0 < inum < 2 ^ 16 end.


(** ** An example: the root directory that mkfs makes *)

(** The inodes of the image with a reference to each of them. *)
Definition referenced (ic : list inode) : list inode := map (fun i => with_ref i 1) ic.

Lemma referenced_get ic q x : arr_get ic q = Ok x -> arr_get (referenced ic) q = Ok (with_ref x 1).
Proof.
  intros [Hq Hx]%arr_get_Ok. apply arr_get_Ok. split; [done|]. unfold referenced. by rewrite list_lookup_fmap, Hx.
Qed.

Lemma image_state files : mkfs_fits files -> exists f C ic, image_inodes ic /\ holds FSSIZE nmeta mksb (image_files files) C (referenced ic) /\
  in_cache (image_files files) (referenced ic) /\ forall ic', fsr FSSIZE 2 30 C ∅ ∅ mksb ic' (with_icache f ic').
Proof.
  intros H. destruct (mkfs_image files H) as (im & C & ic & _ & _ & _ & Hh & Hi & Hl & Hlow).
  destruct (boot_image 1 C Hl Hlow) as (s & d & C' & _ & _ & HC & Hf). exists (started d (referenced ic)), C', ic. split; [done|].
  split; [|split; [|intros ic'; apply Hf]].
  - apply (holds_cache FSSIZE nmeta mksb _ C' ic); [by apply (holds_agree _ C)|]. intros q x _ Hx. exists (with_ref x 1). by rewrite (referenced_get _ _ _ Hx).
  - intros ip [bytes Hb]. destruct (ho_file _ _ _ _ _ _ Hh ip bytes Hb) as (x & Hx & _). exists (with_ref x 1). by rewrite (referenced_get _ _ _ Hx).
Qed.

(** The root directory of the example of MkfsImage.v. *)
Definition demo_entries : list (list Z) :=
  [dirent_of 1 [46]; dirent_of 1 [46; 46]; dirent_of 2 [115; 104]; dirent_of 3 [82; 69; 65; 68; 77; 69]] ++ replicate 28 (replicate 16 0).
Definition demo_map : gmap (list Z) Z := {[ [46] := 1; [46; 46] := 1; [115; 104] := 2; [82; 69; 65; 68; 77; 69] := 3 ]}.

Lemma demo_root : dir_bytes (root_dir demo_files ++ padding 64) demo_entries /\ dir_map demo_entries = demo_map.
Proof.
  split; [|vm_compute; reflexivity]. constructor; [|vm_compute; reflexivity].
  repeat (apply Forall_cons_2; [split; [reflexivity|by apply dirent_bytes, (bool_decide_unpack _); vm_compute]|]).
  apply Forall_replicate. split; [done|]. apply Forall_replicate. unfold is_byte. lia.
Qed.

Lemma demo_dir : exists f, fs_dir FSSIZE 2 30 nmeta mksb {[1 := [1; 2; 3; 4; 5]; 2 := []]} 0 demo_map 3 f.
Proof.
  destruct (image_state demo_files demo_files_fit) as (f & C & ic & Hi & Hh & Hc & Hf). exists (with_icache f (referenced ic)).
  assert (image_files demo_files = <[0 := root_dir demo_files ++ padding 64]> {[1 := [1; 2; 3; 4; 5]; 2 := []]}) as E by (vm_compute; reflexivity).
  rewrite E in Hh, Hc. destruct (ho_file _ _ _ _ _ _ Hh 0 (root_dir demo_files ++ padding 64)) as (x & Hx & _); [by rewrite lookup_insert_eq|].
  destruct demo_root as [Hb Hm]. exists C, (referenced ic), x, (root_dir demo_files ++ padding 64), demo_entries. split; [|apply Hf].
  constructor; [exact Hh|exact Hc|exact Hx| |exact Hb|exact Hm|vm_compute; done].
  apply arr_get_Ok in Hx as [_ Hx]. unfold referenced in Hx. rewrite list_lookup_fmap in Hx. apply fmap_Some in Hx as (y & Hy & ->).
  destruct (Hi 0%nat y Hy) as (_ & _ & Ht). exact Ht.
Qed.

