(* ===== verification/FsNamei.v ===== *)
(** * Path names

    The directories of the disk form a graph from inode numbers to inode numbers.
    [namex] walks it along the components of a path: it returns the inode that the
    walk reaches, with one reference more, and leaves every other reference as it
    was. *)

From stdpp Require Import base list strings gmap sets.
From Stdlib Require Import ZArith Lia.
From S2P Require Import Prelude State KString KStringProofs Bio BioProofs Log LogProofs CrashProofs Transact Fs FsBase FsAlloc FsFile FsData FsInode FsOps Mkfs MkfsProofs MkfsImage FsDir.

(** ** The components of a path *)

(** ** The specification *)

Fixpoint split_path (cur p : list Z) : list (list Z) :=
  match p with
  | [] => [cur]
  | c :: p => if c =? SLASH then cur :: split_path [] p else split_path (cur ++ [c]) p
  end.

Definition components (p : list Z) : list (list Z) := filter (fun e => e <> []) (split_path [] p).

(** A buffer of [DIRSIZ] bytes that holds a component, cut to its size. *)
Record holds_name (name e : list Z) : Prop := {
  hn_len : zlen name = DIRSIZ;
  hn_bytes : take (length e) name = take (Z.to_nat DIRSIZ) e;
  hn_end : zlen e < DIRSIZ -> arr_get name (zlen e) = Ok 0;
}.

(** The loop of [namex] without the directories: the names, and whether the
    path is at its end after each. *)
Fixpoint path_elems (fuel : nat) (path name : list Z) : res (list (list Z * bool)) :=
  match fuel with
  | O => Fault OutOfFuel
  | S fuel =>
    r ← skipelem path name;
    match r with
    | None => Ok []
    | Some (path, name) =>
      c ← arr_get path 0;
      l ← path_elems fuel path name;
      Ok ((name, c =? 0) :: l)
    end
  end.

(** ** The loops *)

Lemma components_slash p : components (SLASH :: p) = components p.
Proof. done. Qed.

Lemma split_elem cur e r : SLASH ∉ e -> split_path cur (e ++ r) = split_path (cur ++ e) r.
Proof.
  revert cur. induction e as [|c e IH]; intros cur He; [by rewrite app_nil_r|].
  apply not_elem_of_cons in He as [Hc He]. cbn [app split_path].
  destruct (Z.eqb_spec c SLASH); [congruence|]. rewrite IH by done. by rewrite <- app_assoc.
Qed.

Lemma components_elem e r : e <> [] -> SLASH ∉ e -> r = [] \/ (exists r', r = SLASH :: r') ->
  components (e ++ r) = e :: components r.
Proof.
  intros Hn He Hr. unfold components. rewrite split_elem by done. cbn [app].
  destruct Hr as [->|[r' ->]]; cbn [split_path Z.eqb]; change (SLASH =? SLASH) with true; cbn [filter list_filter];
    repeat (case_decide; try done).
Qed.

Lemma skip_slashes_spec p t : exists q, skip_slashes (p ++ 0 :: t) = Ok (q ++ 0 :: t) /\
  components q = components p /\ (length q <= length p)%nat /\
  (forall x, x ∈ q -> x ∈ p) /\ (forall r', q <> SLASH :: r').
Proof.
  induction p as [|c p IH].
  { exists []. done. }
  cbn [app skip_slashes]. destruct (Z.eqb_spec c SLASH) as [->|Hc].
  - destruct IH as (q & -> & Hq & Hl & Hx & Hn). exists q. split_and!; [done|done|cbn; lia| |done].
    intros x Hxq. right. by apply Hx.
  - exists (c :: p). split_and!; [done|done|done|done|]. congruence.
Qed.

Lemma take_elem_spec p t : (forall x, x ∈ p -> x <> 0) -> exists e r,
  take_elem (p ++ 0 :: t) = Ok (e, r ++ 0 :: t) /\ p = e ++ r /\ SLASH ∉ e /\
  (r = [] \/ exists r', r = SLASH :: r').
Proof.
  intros Hp. induction p as [|c p IH].
  { exists [], []. split_and!; [done|done|apply not_elem_of_nil|by left]. }
  cbn [app take_elem]. destruct (Z.eqb_spec c SLASH) as [->|Hc]; cbn [orb].
  { exists [], (SLASH :: p). split_and!; [done|done|apply not_elem_of_nil|right; by exists p]. }
  destruct (Z.eqb_spec c 0) as [->|Hc0]; [by destruct (Hp 0); [left|]|].
  destruct IH as (e & r & -> & -> & He & Hr); [intros x Hx; apply Hp; by right|].
  exists (c :: e), r. cbn [mbind res_bind]. split_and!; [done|done| |done].
  apply not_elem_of_cons. split; [congruence|done].
Qed.

Lemma copy_elem_spec name e : zlen name = DIRSIZ -> exists n, copy_elem name e = Ok n /\ holds_name n e.
Proof.
  intros Hn. pose proof (zlen_nonneg e) as H0. unfold copy_elem. destruct (Z.leb_spec DIRSIZ (zlen e)) as [Hl|Hl].
  - assert (Ht : zlen (take (Z.to_nat DIRSIZ) e) = DIRSIZ).
    { unfold zlen, DIRSIZ in *. rewrite length_take. lia. }
    eexists. split; [apply arr_write_Ok; split_and!; [done|lia|reflexivity]|].
    rewrite drop_ge, app_nil_r by (unfold zlen in *; lia). cbn [Z.to_nat take app].
    constructor; [done| |lia]. apply take_ge. rewrite length_take. unfold zlen, DIRSIZ in *. lia.
  - assert (Hw : arr_write name 0 e = Ok (e ++ drop (length e) name)).
    { apply arr_write_Ok. split_and!; [done|lia|done]. }
    rewrite Hw. cbn [mbind res_bind].
    pose proof (arr_write_len _ _ _ _ Hw) as Hwl.
    rewrite arr_set_ok by lia. eexists. split; [reflexivity|].
    assert (Hto : Z.to_nat (zlen e) = length e) by (unfold zlen; lia). rewrite Hto.
    constructor.
    + unfold zlen in *. rewrite length_insert. lia.
    + rewrite take_insert_ge by done. rewrite take_app_length, take_ge; [done|]. unfold zlen, DIRSIZ in *. lia.
    + intros _. apply arr_get_Ok. split; [done|]. rewrite Hto. apply list_lookup_insert_eq.
      unfold zlen, DIRSIZ in *. rewrite length_app, length_drop in *. lia.
Qed.

(** One call: the first component, and the path after it. *)
Lemma skipelem_spec p t name : (forall x, x ∈ p -> x <> 0) -> zlen name = DIRSIZ ->
  (skipelem (p ++ 0 :: t) name = Ok None /\ components p = []) \/
  (exists e q n, skipelem (p ++ 0 :: t) name = Ok (Some (q ++ 0 :: t, n)) /\
     holds_name n e /\ components p = e :: components q /\ (length q < length p)%nat /\
     (forall x, x ∈ q -> x <> 0) /\ (q = [] <-> components q = [])).
Proof.
  intros Hp Hn. unfold skipelem. destruct (skip_slashes_spec p t) as (q & -> & Hq & Hl & Hx & Hns).
  cbn [mbind res_bind]. destruct q as [|c q].
  { left. split; [done|]. by rewrite <- Hq. }
  right. cbn [app]. rewrite arr_get_head. cbn [mbind res_bind].
  destruct (Z.eqb_spec c 0) as [->|Hc]; [by destruct (Hp 0); [apply Hx; left|]|].
  destruct (take_elem_spec (c :: q) t) as (e & r & Ht & Her & He & Hr); [intros x Hxx; by apply Hp, Hx|].
  cbn [app] in Ht. rewrite Ht. cbn [mbind res_bind].
  destruct (copy_elem_spec name e Hn) as (n & -> & Hnm). cbn [mbind res_bind].
  destruct (skip_slashes_spec r t) as (q' & -> & Hq' & Hl' & Hx' & Hns'). cbn [mbind res_bind].
  assert (Hne : e <> []).
  { intros ->. destruct Hr as [->|[r' ->]]; [done|]. by apply (Hns r'). }
  exists e, q', n. split_and!; [done|done| | | |].
  - by rewrite <- Hq, Her, components_elem, Hq'.
  - assert (length (c :: q) = length (e ++ r)) as Hlen by (by rewrite Her). rewrite length_app in Hlen.
    destruct e; [done|]. cbn in *. lia.
  - intros x Hxx. apply Hp, Hx. rewrite Her. apply elem_of_app. right. by apply Hx'.
  - split; [by intros ->|]. intros Hc0. destruct q' as [|c' q']; [done|]. exfalso.
    destruct (take_elem_spec (c' :: q') t) as (e' & r2 & _ & Hsp & He' & Hr2).
    { intros x Hxx. apply Hp, Hx. rewrite Her. apply elem_of_app. right. by apply Hx'. }
    rewrite Hsp, components_elem in Hc0; try done. intros ->.
    destruct Hr2 as [->|[r3 ->]]; [done|]. by apply (Hns' r3).
Qed.

Lemma path_elems_spec fuel p t name :
  (forall x, x ∈ p -> x <> 0) -> zlen name = DIRSIZ -> (length p < fuel)%nat ->
  exists l, path_elems fuel (p ++ 0 :: t) name = Ok l /\
    Forall2 holds_name l.*1 (components p) /\
    forall k b, l.*2 !! k = Some b -> (b = true <-> S k = length (components p)).
Proof.
  revert p name. induction fuel as [|fuel IH]; intros p name Hp Hn Hf; [lia|]. cbn [path_elems].
  destruct (skipelem_spec p t name Hp Hn) as [[-> Hc]|(e & q & n & -> & Hnm & Hc & Hl & Hq & Hend)];
    cbn [mbind res_bind].
  { exists []. rewrite Hc. split_and!; [done|constructor|]. intros k b Hk. cbn in Hk. by rewrite lookup_nil in Hk. }
  destruct (IH q n Hq (hn_len _ _ Hnm)) as (l & Hl' & H2 & Hk); [lia|].
  assert (Hg : exists c, arr_get (q ++ 0 :: t) 0 = Ok c /\ (c =? 0 = true <-> components q = [])).
  { destruct q as [|c q]; [exists 0; split; [done|by rewrite <- Hend]|].
    exists c. split; [done|]. rewrite Z.eqb_eq, <- Hend. split; [|done]. intros ->. by destruct (Hq 0); [left|]. }
  destruct Hg as (c & -> & Hc0). cbn [mbind res_bind]. rewrite Hl'. cbn [mbind res_bind].
  eexists. split; [reflexivity|]. rewrite Hc. cbn [fmap list_fmap fst snd]. split; [by constructor|].
  intros [|k] b; cbn [lookup list_lookup].
  - intros [= <-]. rewrite Hc0. split; [intros ->; done|]. cbn. intros [= H]. by destruct (components q).
  - intros Hb. rewrite (Hk k b Hb). cbn. lia.
Qed.

(** Taking a path apart with [skipelem] gives exactly its components, the
    non-empty parts between slashes, in order, each cut to [DIRSIZ] bytes and
    ended by a zero if it is shorter; the rest of the path is empty after the
    last one and only then, which is what [nameiparent] relies on.  It ends on
    every terminated path and never reads past its terminator. *)
Theorem path_elements p t name :
  (forall x, x ∈ p -> x <> 0) -> zlen name = DIRSIZ ->
  exists l, path_elems (S (length p)) (p ++ 0 :: t) name = Ok l /\
    Forall2 holds_name l.*1 (components p) /\
    forall k b, l.*2 !! k = Some b -> (b = true <-> S k = length (components p)).
Proof. intros Hp Hn. apply path_elems_spec; [done|done|lia]. Qed.

(** The path of the second example in the comment of [skipelem]. *)
Lemma path_elements_witness :
  exists l, path_elems 9 ([47; 47; 47; 97; 47; 47; 98; 98] ++ 0 :: [7]) (replicate 14 1) = Ok l /\
    Forall2 holds_name l.*1 (components [47; 47; 47; 97; 47; 47; 98; 98]) /\
    forall k b, l.*2 !! k = Some b ->
      (b = true <-> S k = length (components [47; 47; 47; 97; 47; 47; 98; 98])).
Proof.
  apply (path_elements [47; 47; 47; 97; 47; 47; 98; 98] [7] (replicate 14 1)); [|done].
  intros x Hx. rewrite !elem_of_cons in Hx. destruct Hx as [->|[->|[->|[->|[->|[->|[->|[->|Hx]]]]]]]]; try done.
  by apply elem_of_nil in Hx.
Defined.

(** ** Walking along a path *)

(** Every inode with its structure and, for a directory, its map. *)
Notation graph := (gmap Z (dinode * gmap (list Z) Z)).

Definition dir_of (D : graph) (n : Z) : option (gmap (list Z) Z) :=
  '(c, m) ← D !! n; if d_type c =? T_DIR then Some m else None.

(** The inode of a path, or the directory of its last component. *)
Fixpoint resolve (D : graph) (parent : bool) (n : Z) (cs : list (list Z)) : option Z :=
  match cs with
  | [] => if parent then None else Some n
  | e :: cs =>
      m ← dir_of D n;
      if parent && bool_decide (cs = []) then Some n
      else n ← m !! take 14 e; resolve D parent n cs
  end.

Lemma holds_name_key name e : holds_name name e -> (forall x, x ∈ e -> x <> 0) -> Forall is_byte name -> str_ok name /\ key name = take 14 e.
Proof.
  intros [Hl Hb He] Hnz Hby. split; [split; [done|left; lia]|]. unfold DIRSIZ in *. change (Z.to_nat 14) with 14%nat in Hb.
  assert (forall n l e', (forall x, x ∈ e' -> x <> 0) -> take (length e') l = take n e' -> ((length e' < n)%nat -> l !! length e' = Some 0) ->
    (n <= length l)%nat -> name_of n l = take n e') as Hgen.
  { clear. induction n as [|n IH]; intros l e' Hnz Hb He Hn; [by destruct l|]. destruct l as [|c l]; [cbn in Hn; lia|].
    destruct e' as [|x e']; cbn [length take] in *.
    - specialize (He ltac:(lia)). injection He as ->. done.
    - injection Hb as -> Hb. cbn [name_of]. rewrite (proj2 (Z.eqb_neq x 0)) by (apply Hnz; left). f_equal.
      apply IH; [intros y Hy; apply Hnz; by right|done|intros H; by apply He; lia|lia]. }
  apply Hgen; [done|done| |unfold zlen in Hl; lia]. intros Hlt. unfold zlen in He. specialize (He ltac:(lia)).
  apply arr_get_Ok in He as [_ He]. by rewrite Nat2Z.id in He.
Qed.

(** The bytes of the components are bytes of the path. *)
Lemma split_path_in p : forall cur e x, e ∈ split_path cur p -> x ∈ e -> x ∈ cur ++ p.
Proof.
  induction p as [|c p IH]; intros cur e x He Hx; cbn [split_path] in He.
  - apply list_elem_of_singleton in He as ->. by rewrite app_nil_r.
  - destruct (c =? SLASH).
    + apply elem_of_cons in He as [->|He]; [apply elem_of_app; by left|]. apply (IH [] e x) in He; [|done].
      apply elem_of_app. right. by right.
    + apply (IH (cur ++ [c]) e x) in He; [|done]. by rewrite <- app_assoc in He.
Qed.

Lemma components_in p e x : e ∈ components p -> x ∈ e -> x ∈ p.
Proof. unfold components. intros [_ He]%list_elem_of_filter Hx. by apply (split_path_in p [] e x). Qed.

Lemma take_elem_bytes path : forall e r, take_elem path = Ok (e, r) -> Forall is_byte path -> Forall is_byte e /\ Forall is_byte r.
Proof.
  induction path as [|c path IH]; intros e r E H; cbn [take_elem] in E; [done|].
  destruct ((c =? SLASH) || (c =? 0)); [by injection E as <- <-|]. apply Forall_cons in H as [Hc H].
  destruct (take_elem path) as [[e' r']| |]; [|done..]. injection E as <- <-. destruct (IH e' r' eq_refl H). split; [by constructor|done].
Qed.

Lemma skip_slashes_bytes path : forall q, skip_slashes path = Ok q -> Forall is_byte path -> Forall is_byte q.
Proof.
  induction path as [|c path IH]; intros q E H; cbn [skip_slashes] in E; [done|].
  destruct (c =? SLASH); [apply (IH q E); by inversion H|by injection E as <-].
Qed.

Lemma skipelem_bytes path name q n : skipelem path name = Ok (Some (q, n)) -> Forall is_byte path -> Forall is_byte name ->
  Forall is_byte q /\ Forall is_byte n.
Proof.
  unfold skipelem. intros E Hp Hn. destruct (skip_slashes path) as [p| |] eqn:E1; [|done..]. cbn [mbind res_bind] in E.
  destruct (arr_get p 0) as [c| |]; [|done..]. cbn [mbind res_bind] in E. destruct (c =? 0); [done|].
  destruct (take_elem p) as [[e r]| |] eqn:E2; [|done..]. cbn [mbind res_bind] in E.
  destruct (copy_elem name e) as [n'| |] eqn:E3; [|done..]. cbn [mbind res_bind] in E.
  destruct (skip_slashes r) as [q'| |] eqn:E5; [|done..]. injection E as <- <-.
  destruct (take_elem_bytes _ _ _ E2 (skip_slashes_bytes _ _ E1 Hp)) as [He Hr]. split; [by apply (skip_slashes_bytes r)|]. unfold copy_elem in E3.
  destruct (DIRSIZ <=? zlen e); [eapply arr_write_bytes; [exact E3|done|by apply Forall_take]|].
  destruct (arr_write name 0 e) as [m| |] eqn:E4; [|done..]. cbn [mbind res_bind] in E3.
  eapply arr_set_bytes_ok; [|by unfold is_byte|exact E3]. by eapply arr_write_bytes.
Qed.

(** ** References to inodes *)

Definition weight (n : Z) (x : inode) : Z := if i_inum x =? n then i_ref x else 0.
Definition refs (ic : list inode) (n : Z) : Z := foldr (fun x acc => weight n x + acc) 0 ic.

Lemma refs_insert ic k x y n : ic !! k = Some x -> refs (<[k := y]> ic) n = refs ic n - weight n x + weight n y.
Proof.
  revert k. induction ic as [|z ic IH]; intros k Hk; [done|]. destruct k as [|k]; cbn in Hk |- *.
  - injection Hk as ->. lia.
  - change (weight n z + refs (<[k := y]> ic) n = weight n z + refs ic n - weight n x + weight n y). rewrite (IH k Hk). lia.
Qed.

Section namei.
Variables (mypid N st sz data0 : Z) (sb : superblock).
Variable dev_read : Z -> option (Z -> Z -> ST fs (option (list Z))).
Hypothesis Hly : layout N st sz data0 sb.

Notation fsr C ic := (fsr N st sz C ∅ ∅ sb ic).
Notation disk_ok := (disk_ok N data0 sb).
Notation file_at := (file_at data0 sb).

(** The inode [n] in the cache. *)
Definition cached (n : Z) (c : dinode) (x : inode) : Prop := i_dev x = 1 /\ i_inum x = n /\ i_copy x = c.

(** The disk [C] holds the graph [D]: every inode has a type and a link, is on the
    disk, and entries of directories lead to inodes of the graph. *)
Record on_disk (D : graph) (C : Z -> list Z) : Prop := {
  od_ok : disk_ok C;
  od_inode : forall n c m, D !! n = Some (c, m) -> 0 <= n < ninodes sb /\ d_type c <> 0 /\ d_nlink c <> 0 /\
    rd_dinode (C (n / IPB + inodestart sb)) (n mod IPB * dinode_size) = Ok c;
  od_dir : forall n c m x, D !! n = Some (c, m) -> d_type c = T_DIR -> cached n c x ->
    exists b es, file_at C x b /\ dir_bytes b es /\ dir_map es = m;
  od_closed : forall n m k n', dir_of D n = Some m -> m !! k = Some n' -> is_Some (D !! n');
}.

(** The inodes in use are in the graph, and those that are valid are as on the
    disk; only [lk] is locked. *)
Record cache_ok (D : graph) (lk : option nat) (ic : list inode) : Prop := {
  co_use : forall k x, ic !! k = Some x -> 0 < i_ref x -> i_dev x = 1 /\
    exists c m, D !! i_inum x = Some (c, m) /\ (i_valid x <> 0 -> i_copy x = c);
  co_lock : forall k x, ic !! k = Some x -> lk <> Some k -> locked (i_lock x) = 0;
}.

Lemma cache_ok_insert D lk lk' ic k x y : cache_ok D lk ic -> ic !! k = Some x ->
  (0 < i_ref y -> i_dev y = 1 /\ exists c m, D !! i_inum y = Some (c, m) /\ (i_valid y <> 0 -> i_copy y = c)) ->
  (lk' <> Some k -> locked (i_lock y) = 0) -> (forall j, j <> k -> lk' <> Some j -> lk <> Some j) ->
  cache_ok D lk' (<[k := y]> ic).
Proof.
  intros [Hu Hl] Hk Hy Hyl Hlk. pose proof (lookup_lt_Some _ _ _ Hk) as Hlt. constructor.
  - intros j z. destruct (decide (j = k)) as [->|Hne].
    + rewrite list_lookup_insert_eq by done. by intros [= <-].
    + rewrite list_lookup_insert_ne by done. apply Hu.
  - intros j z. destruct (decide (j = k)) as [->|Hne].
    + rewrite list_lookup_insert_eq by done. by intros [= <-].
    + rewrite list_lookup_insert_ne by done. intros Hz Hj. apply (Hl j z Hz). by apply Hlk.
Qed.

(** ** Locking *)

(** The inode after [ilock]. *)
Definition held_inode (x : inode) (c : dinode) : inode :=
  {| i_dev := i_dev x; i_inum := i_inum x; i_ref := i_ref x; i_lock := {| locked := 1; pid := mypid |};
     i_valid := if i_valid x =? 0 then 1 else i_valid x; i_copy := c |}.

Section at_inode.
Variables (D : graph) (C : Z -> list Z) (ic : list inode) (ip : Z) (x : inode) (c : dinode) (m : gmap (list Z) Z).
Hypothesis HD : on_disk D C.
Hypothesis Hx : arr_get ic ip = Ok x.
Hypothesis Hc : D !! i_inum x = Some (c, m).

Lemma set_again y z : arr_set (<[Z.to_nat ip := y]> ic) ip z = Ok (<[Z.to_nat ip := z]> ic).
Proof.
  pose proof (arr_get_bound _ _ _ Hx). rewrite arr_set_ok, list_insert_insert_eq; [done|]. unfold zlen in *. by rewrite length_insert.
Qed.

Lemma get_again y : arr_get (<[Z.to_nat ip := y]> ic) ip = Ok y.
Proof. rewrite (arr_get_set _ _ _ _ ip (arr_set_ok _ _ y (arr_get_bound _ _ _ Hx))). by rewrite Z.eqb_refl. Qed.

Lemma ilock_spec : cache_ok D None ic -> 0 < i_ref x ->
  hoareX exhausted (fsr C ic) (ilock mypid ip) (fun _ f => fsr C (<[Z.to_nat ip := held_inode x c]> ic) f).
Proof.
  intros [Hu Hlk] Hr. pose proof (arr_get_bound _ _ _ Hx) as Hb. apply arr_get_Ok in Hx as Hx'. destruct Hx' as [_ Hx'].
  destruct (Hu _ _ Hx' Hr) as (Hd & c' & m' & Hc' & Hv). rewrite Hc in Hc'. injection Hc' as <- <-.
  destruct (od_inode _ _ HD _ _ _ Hc) as (Hin & Ht & _ & Hrd). destruct (iblk_ok N st sz data0 sb Hly x Hin) as (Hh & _ & Hib & _ & _).
  unfold ilock. eapply hoareX_seq; [by apply inode_at_spec|]. intros _ ->. rewrite (proj2 (Z.ltb_ge (i_ref x) 1)) by lia.
  unfold iacquiresleep. eapply hoareX_bind.
  { eapply hoareX_seq; [by apply inode_at_spec|]. intros _ ->. rewrite (Hlk _ _ Hx') by done. cbn [negb Z.eqb].
    eapply inode_upd_spec; [exact Hx|by apply arr_set_ok]. }
  intros []. eapply hoareX_seq; [apply inode_at_spec, get_again|]. intros _ ->. cbn [i_valid i_dev i_inum with_ilock].
  unfold held_inode. destruct (Z.eqb_spec (i_valid x) 0) as [H0|H0].
  2: { intros f Hf. cbn. by rewrite <- (Hv H0). }
  eapply hoareX_seq; [apply gets_sb_spec|]. intros _ ->. rewrite Hd, Hib.
  eapply hoareX_seq; [apply fbread_spec; [apply Hh|done|apply not_elem_of_empty]|]. intros h Hhn.
  eapply hoareX_seq; [apply fbdata_spec with (b := iblk sb x); by rewrite lookup_insert_eq|]. intros _ [-> Hlen].
  eapply hoareX_seq; [exact (hoareX_pure _ _ _ _ Hrd)|]. intros _ ->.
  eapply hoareX_bind; [eapply inode_upd_spec; [apply get_again|apply set_again]|]. intros [].
  eapply hoareX_bind; [by apply relse_spec|]. intros [].
  eapply hoareX_bind; [eapply inode_upd_spec; [apply get_again|apply set_again]|]. intros [].
  rewrite (proj2 (Z.eqb_neq (d_type c) 0)) by done. intros f Hf. unfold with_valid, with_copy, with_ilock in Hf. cbn in Hf. rewrite Hd in Hf. exact Hf.
Qed.
End at_inode.

Definition unlocked (x : inode) : inode := with_ilock x {| locked := 0; pid := 0 |}.

Lemma iunlock_spec C ic ip x : arr_get ic ip = Ok x -> locked (i_lock x) = 1 -> 0 < i_ref x ->
  hoareX exhausted (fsr C ic) (iunlock ip) (fun _ f => fsr C (<[Z.to_nat ip := unlocked x]> ic) f).
Proof.
  intros Hx Hl Hr. unfold iunlock. eapply hoareX_seq; [by apply inode_at_spec|]. intros _ ->. rewrite Hl, (proj2 (Z.ltb_ge (i_ref x) 1)) by lia.
  cbn [orb Z.eqb]. unfold ireleasesleep. eapply inode_upd_spec; [exact Hx|]. apply arr_set_ok, (arr_get_bound _ _ _ Hx).
Qed.

Lemma iunlockput_spec C ic ip x : arr_get ic ip = Ok x -> locked (i_lock x) = 1 -> 0 < i_ref x -> d_nlink (i_copy x) <> 0 ->
  hoareX exhausted (fsr C ic) (iunlockput mypid ip) (fun _ f => fsr C (<[Z.to_nat ip := dropped x]> ic) f).
Proof.
  intros Hx Hl Hr Hn. unfold iunlockput. eapply hoareX_bind; [by apply (iunlock_spec C ic ip x)|]. intros [].
  eapply hoareX_post; [apply (iput_spec mypid N st sz sb C _ ip (unlocked x)); [by apply (get_again ic ip x)|done|by right; left]|].
  intros [] f Hf. by rewrite list_insert_insert_eq in Hf.
Qed.

(** ** One step *)

Definition one (n n' : Z) : Z := if n' =? n then 1 else 0.

Lemma got_step D lk ic inum ip ic' : cache_ok D lk ic -> got ic inum ip ic' -> is_Some (D !! inum) ->
  cache_ok D lk ic' /\ (forall n, refs ic' n = refs ic n + one inum n) /\
  exists x, arr_get ic' ip = Ok x /\ 0 < i_ref x /\ i_inum x = inum.
Proof.
  intros Hco Hg [[c m] HD]. destruct Hg as [x Hx Hr Hd Hn|x Hx Hr Hno]; apply arr_get_Ok in Hx as Hk; destruct Hk as [_ Hk].
  - split; [|split; [|eexists; split; [by apply (get_again ic ip x)|cbn; split; [lia|done]]]].
    + apply (cache_ok_insert D lk lk ic _ x); [done|done| | |done]; cbn.
      * intros _. by apply (co_use _ _ _ Hco _ x Hk).
      * by apply (co_lock _ _ _ Hco _ x Hk).
    + intros n. rewrite (refs_insert ic _ x) by done. unfold weight, one. cbn. rewrite (Z.eqb_sym n inum), Hn. destruct (inum =? n); lia.
  - split; [|split; [|eexists; split; [by apply (get_again ic ip x)|cbn; split; [lia|done]]]].
    + apply (cache_ok_insert D lk lk ic _ x); [done|done| | |done]; cbn.
      * intros _. split; [done|]. by exists c, m.
      * by apply (co_lock _ _ _ Hco _ x Hk).
    + intros n. rewrite (refs_insert ic _ x) by done. unfold weight, one. cbn. rewrite Hr, (Z.eqb_sym n inum). destruct (i_inum x =? n), (inum =? n); lia.
Qed.

Lemma held_step D ic ip x c m : cache_ok D None ic -> arr_get ic ip = Ok x -> 0 < i_ref x -> D !! i_inum x = Some (c, m) ->
  cache_ok D (Some (Z.to_nat ip)) (<[Z.to_nat ip := held_inode x c]> ic) /\
  forall n, refs (<[Z.to_nat ip := held_inode x c]> ic) n = refs ic n.
Proof.
  intros Hco Hx Hr Hc. apply arr_get_Ok in Hx as Hk. destruct Hk as [_ Hk]. destruct (co_use _ _ _ Hco _ x Hk Hr) as (Hd & _). split.
  - apply (cache_ok_insert D None _ ic _ x); [done|done| |done|done]. intros _. cbn. split; [done|]. by exists c, m.
  - intros n. rewrite (refs_insert ic _ x) by done. unfold weight. cbn. lia.
Qed.

(** Unlocking and letting go. *)
Lemma unlock_step D ic ip x (y : inode) : cache_ok D (Some (Z.to_nat ip)) ic -> arr_get ic ip = Ok x -> 0 < i_ref x ->
  y = unlocked x \/ y = dropped x -> cache_ok D None (<[Z.to_nat ip := y]> ic) /\
  forall n, refs (<[Z.to_nat ip := y]> ic) n = refs ic n - (i_ref x - i_ref y) * one (i_inum x) n.
Proof.
  intros Hco Hx Hr Hy. apply arr_get_Ok in Hx as Hk. destruct Hk as [_ Hk]. pose proof (co_use _ _ _ Hco _ x Hk Hr) as Hu. split.
  - apply (cache_ok_insert D (Some (Z.to_nat ip)) None ic _ x); [done|done| | |].
    + intros _. by destruct Hy as [->| ->].
    + by destruct Hy as [->| ->].
    + intros j Hj _ [= Hj']. done.
  - intros n. rewrite (refs_insert ic _ x) by done. unfold weight, one. assert (i_inum y = i_inum x) as -> by (by destruct Hy as [->| ->]).
    rewrite (Z.eqb_sym n). destruct (i_inum x =? n); lia.
Qed.

(** ** The walk *)

Section walk.
Variables (D : graph) (C : Z -> list Z) (ic0 : list inode) (parent : bool) (t : list Z).
Hypothesis HD : on_disk D C.

(** The walk is at the inode [n], the entry [ip] of the cache; against the start
    there is one more reference to it. *)
Record stands (ip n : Z) (x : inode) (ic : list inode) : Prop := {
  sa_get : arr_get ic ip = Ok x;
  sa_use : 0 < i_ref x;
  sa_inum : i_inum x = n;
  sa_refs : forall n', refs ic n' = refs ic0 n' + one n n';
}.

(** The result: null and no more references than before, or the inode [n]. *)
Definition arrived (o : option Z) (r : option Z) (ic : list inode) : Prop :=
  match o with
  | None => r = None /\ forall n, refs ic n = refs ic0 n
  | Some n => exists ip x, r = Some ip /\ stands ip n x ic
  end.

Definition walked (n : Z) (cs : list (list Z)) (r : option Z * list Z) (f : fs) : Prop :=
  exists ic, ((cache_ok D None ic /\ arrived (resolve D parent n cs) r.1 ic) /\
    (parent = true -> is_Some r.1 -> exists e, last cs = Some e /\ holds_name r.2 e)) /\ fsr C ic f.

Lemma stands_node ip n x ic lk : cache_ok D lk ic -> stands ip n x ic -> exists c m, D !! n = Some (c, m) /\ d_nlink c <> 0 /\
  (i_valid x = 0 \/ d_nlink (i_copy x) <> 0).
Proof.
  intros Hco [Hx Hr <- _]. apply arr_get_Ok in Hx as [_ Hk]. destruct (co_use _ _ _ Hco _ x Hk Hr) as (_ & c & m & Hc & Hv).
  exists c, m. destruct (od_inode _ _ HD _ _ _ Hc) as (_ & _ & Hl & _). split_and!; [done|done|].
  destruct (decide (i_valid x = 0)) as [H0|H0]; [by left|right]. by rewrite (Hv H0).
Qed.

(** The path is at its end. *)
Lemma end_step ip n x ic name : cache_ok D None ic -> stands ip n x ic ->
  hoareX crowded (fsr C ic) (if parent then _ ← iput mypid ip; mret (None, name) else mret (Some ip, name)) (walked n []).
Proof.
  intros Hco Hs. destruct (stands_node _ _ _ _ _ Hco Hs) as (c & m & _ & _ & Hv). pose proof Hs as [Hx Hr Hn Hrefs].
  apply arr_get_Ok in Hx as Hk. destruct Hk as [_ Hk]. unfold walked. cbn [resolve]. destruct parent.
  - eapply hoareX_bind; [apply on_crowded, (iput_spec mypid N st sz sb C ic ip x Hx); [by apply (co_lock _ _ _ Hco _ x Hk)|tauto]|].
    intros [] f Hf. cbn. eexists. split; [|exact Hf]. split; [split|by intros _ []].
    + apply (cache_ok_insert D None None ic _ x); [done|done| |done|done]. intros _. by apply (co_use _ _ _ Hco _ x Hk).
    + split; [done|]. intros n'. rewrite (refs_insert ic _ x), Hrefs by done. unfold weight, one. cbn. rewrite Hn, (Z.eqb_sym n'). destruct (n =? n'); lia.
  - intros f Hf. cbn. exists ic. split; [|done]. split; [|done]. split; [done|]. by exists ip, x.
Qed.

(** Leaving a directory without a result. *)
Lemma leave_step ip n x ic cs name : cache_ok D (Some (Z.to_nat ip)) ic -> stands ip n x ic -> locked (i_lock x) = 1 -> d_nlink (i_copy x) <> 0 ->
  resolve D parent n cs = None ->
  hoareX crowded (fsr C ic) (_ ← iunlockput mypid ip; mret (None, name)) (walked n cs).
Proof.
  intros Hco [Hx Hr Hn Hrefs] Hl Hnl Hres. eapply hoareX_bind; [by apply on_crowded, (iunlockput_spec C ic ip x)|]. intros [] f Hf. cbn.
  destruct (unlock_step D ic ip x (dropped x) Hco Hx Hr ltac:(by right)) as [Hco' Hrefs'].
  eexists. split; [|exact Hf]. split; [split; [done|]|by intros _ []]. rewrite Hres. split; [done|]. intros n'. rewrite Hrefs', Hrefs, Hn. cbn. lia.
Qed.

(** On to the entry [nx] of the directory. *)
Lemma next_step ip n x ic inum nx ic2 : cache_ok D (Some (Z.to_nat ip)) ic -> stands ip n x ic -> locked (i_lock x) = 1 -> d_nlink (i_copy x) <> 0 ->
  got ic inum nx ic2 -> is_Some (D !! inum) ->
  hoareX exhausted (fsr C ic2) (iunlockput mypid ip) (fun _ f => exists ic3 x3, (cache_ok D None ic3 /\ stands nx inum x3 ic3) /\ fsr C ic3 f).
Proof.
  intros Hco [Hx Hr Hn Hrefs] Hl Hnl Hg Hin. destruct (got_step D _ ic inum nx ic2 Hco Hg Hin) as (Hco2 & Hrefs2 & z & Hz & Hzr & Hzn).
  assert (exists y, arr_get ic2 ip = Ok y /\ i_inum y = n /\ i_lock y = i_lock x /\ i_copy y = i_copy x /\ 0 < i_ref y /\
    (nx = ip -> 1 < i_ref y)) as (y & Hy & Hyn & Hyl & Hyc & Hyr & Hy1).
  { destruct Hg as [w Hw Hwr _ _|w Hw Hwr _]; rewrite (arr_get_set _ _ _ _ ip (arr_set_ok _ _ _ (arr_get_bound _ _ _ Hw)));
      (destruct (Z.eqb_spec ip nx) as [<-|Hne]; [rewrite Hx in Hw; injection Hw as <-; try lia|exists x; split_and!; try done; intros; congruence]).
    eexists. split; [done|]. cbn. split_and!; try done; lia. }
  eapply hoareX_post; [apply (iunlockput_spec C ic2 ip y); [done|congruence|done|congruence]|]. intros [] f Hf.
  destruct (unlock_step D ic2 ip y (dropped y) Hco2 Hy Hyr ltac:(by right)) as [Hco3 Hrefs3].
  eexists _, (if nx =? ip then dropped y else z). split; [|exact Hf]. split; [done|]. constructor.
  - rewrite (arr_get_set _ _ _ _ nx (arr_set_ok _ _ _ (arr_get_bound _ _ _ Hy))). by destruct (nx =? ip).
  - destruct (Z.eqb_spec nx ip) as [E|E]; [cbn; specialize (Hy1 E); lia|done].
  - destruct (Z.eqb_spec nx ip) as [->|E]; [|done]. cbn. congruence.
  - intros n'. rewrite Hrefs3, Hrefs2, Hrefs, Hyn. cbn. lia.
Qed.

(** The directory of the last component. *)
Lemma last_step ip n x ic e m name : cache_ok D (Some (Z.to_nat ip)) ic -> stands ip n x ic -> locked (i_lock x) = 1 ->
  parent = true -> dir_of D n = Some m -> holds_name name e ->
  hoareX crowded (fsr C ic) (_ ← iunlock ip; mret (Some ip, name)) (walked n [e]).
Proof.
  intros Hco Hs Hl Hpar Hdir Hname. pose proof Hs as [Hx Hr Hn Hrefs].
  eapply hoareX_bind; [by apply on_crowded, (iunlock_spec C ic ip x)|]. intros [] f Hf.
  destruct (unlock_step D ic ip x (unlocked x) Hco Hx Hr ltac:(by left)) as [Hco2 Hrefs2].
  eexists. split; [|exact Hf]. cbn [resolve fst snd]. rewrite Hpar, Hdir. cbn. split; [split; [done|]|].
  - exists ip, (unlocked x). split; [done|]. constructor; [apply (get_again ic ip x Hx)|done|done|].
    intros n'. rewrite Hrefs2, Hrefs. cbn. lia.
  - intros _ _. by exists e.
Qed.

(** Through a directory that is locked. *)
Lemma enter_step ip n c m x ic e cs name (k : Z -> ST fs (option Z * list Z)) :
  cache_ok D (Some (Z.to_nat ip)) ic -> stands ip n x ic -> locked (i_lock x) = 1 -> D !! n = Some (c, m) -> d_type c = T_DIR -> cached n c x ->
  str_ok name -> key name = take 14 e -> parent && bool_decide (cs = []) = false ->
  (forall nx n' x' ic', cache_ok D None ic' -> stands nx n' x' ic' -> hoareX crowded (fsr C ic') (k nx) (walked n' cs)) ->
  hoareX crowded (fsr C ic)
    (r ← dirlookup mypid dev_read ip name;
     match r with
     | None => _ ← iunlockput mypid ip; mret (None, name)
     | Some (next, _) => _ ← iunlockput mypid ip; k next
     end) (walked n (e :: cs)).
Proof.
  intros Hco Hs Hl Hc Ht Hcx Hstr Hkey Hlast Hk. assert (dir_of D n = Some m) as Hdir by (unfold dir_of; by rewrite Hc; cbn; rewrite Ht).
  destruct (od_dir _ _ HD n c m x Hc Ht Hcx) as (b & es & Hfa & Hb & Hm). pose proof Hcx as (_ & _ & Hcc).
  assert (d_nlink (i_copy x) <> 0) as Hnl by (rewrite Hcc; apply (od_inode _ _ HD _ _ _ Hc)).
  eapply hoareX_bind; [apply (dirlookup_spec mypid N st sz data0 sb dev_read Hly C ic ip x b es); [apply HD|apply Hs|done|by rewrite Hcc|done|done]|].
  intros r. assert (resolve D parent n (e :: cs) = n' ← (fst <$> dir_find es (key name) 0); resolve D parent n' cs) as Hres.
  { cbn [resolve]. rewrite Hdir. cbn [mbind option_bind]. by rewrite Hlast, dir_find_map, Hm, Hkey. }
  destruct (dir_find es (key name) 0) as [[inum off]|] eqn:Ef; cbn [looked fmap option_fmap option_map fst mbind option_bind] in *.
  - intros f (nx & ic2 & [-> Hg] & Hf). assert (is_Some (D !! inum)) as Hin.
    { apply (od_closed _ _ HD n m (key name)); [done|]. by rewrite <- Hm, <- (dir_find_map es (key name) 0), Ef. }
    revert f Hf. eapply hoareX_bind; [by apply on_crowded, (next_step ip n x ic inum nx ic2)|]. intros [] f (ic3 & x3 & [Hco3 Hs3] & Hf).
    specialize (Hk nx inum x3 ic3 Hco3 Hs3 f Hf). destruct (k nx f) as [[r' f']| |]; [|done..].
    destruct Hk as (ic4 & [H4 Hname] & Hf4). exists ic4. split; [|done]. rewrite Hres. split; [done|]. intros Hpar Hsome.
    destruct (Hname Hpar Hsome) as (e' & Hle & Hh). exists e'. split; [|done]. rewrite Hpar in Hlast. by destruct cs.
  - intros f [-> Hf]. revert f Hf. by apply (leave_step ip n x).
Qed.

(** The rest of the path is empty when it has no component. *)
Lemma path_head q : (forall z, z ∈ q -> z <> 0) -> (q = [] <-> components q = []) ->
  exists ch, arr_get (q ++ 0 :: t) 0 = Ok ch /\ (ch =? 0) = bool_decide (components q = []).
Proof.
  intros Hq Hend. destruct q as [|ch q]; [exists 0; split; [done|]; symmetry; by apply bool_decide_eq_true, Hend|]. exists ch. split; [done|].
  rewrite bool_decide_false by (intros H; by apply Hend in H). apply Z.eqb_neq, Hq. by left.
Qed.

Lemma namex_loop_spec fuel : forall p name ip n x ic, (length p < fuel)%nat -> (forall z, z ∈ p -> z <> 0) -> Forall is_byte (p ++ 0 :: t) ->
  zlen name = DIRSIZ -> Forall is_byte name -> cache_ok D None ic -> stands ip n x ic ->
  hoareX crowded (fsr C ic) (namex_loop mypid dev_read fuel ip (p ++ 0 :: t) parent name) (walked n (components p)).
Proof.
  induction fuel as [|fuel IH]; intros p name ip n x ic Hfu Hp Hpb Hnl Hnb Hco Hs; [lia|]. cbn [namex_loop].
  destruct (skipelem_spec p t name Hp Hnl) as [[E Hcs]|(e & q & nm & E & Hnm & Hcs & Hlq & Hq & Hend)];
    (eapply hoareX_seq; [exact (hoareX_pure crowded _ _ _ E)|]; intros _ ->); [rewrite Hcs; by apply (end_step ip n x)|].
  destruct (skipelem_bytes _ _ _ _ E Hpb Hnb) as [Hqb Hnmb]. destruct (stands_node _ _ _ _ _ Hco Hs) as (c & m & Hc & Hnlink & _).
  pose proof Hs as [Hx Hr Hn Hrefs]. rewrite <- Hn in Hc. eapply hoareX_bind; [by apply on_crowded, (ilock_spec D C ic ip x c m)|]. intros [].
  destruct (held_step D ic ip x c m Hco Hx Hr Hc) as [Hco1 Hrefs1]. set (hx := held_inode x c) in *. set (ic1 := <[Z.to_nat ip := hx]> ic) in *.
  assert (stands ip n hx ic1) as Hs1.
  { constructor; [by apply (get_again ic ip x)|done|done|]. intros n'. by rewrite Hrefs1. }
  eapply hoareX_seq; [apply on_crowded, inode_at_spec, (sa_get _ _ _ _ Hs1)|]. intros _ ->. change (d_type (i_copy hx)) with (d_type c).
  rewrite Hn in Hc. rewrite Hcs. assert (dir_of D n = if d_type c =? T_DIR then Some m else None) as Hdir by (unfold dir_of; by rewrite Hc).
  destruct (Z.eqb_spec (d_type c) T_DIR) as [Ht|Ht]; cbn [negb].
  2: { apply (leave_step ip n hx); try done. cbn [resolve]. by rewrite Hdir. }
  destruct (path_head q Hq Hend) as (ch & Ech & Hch). eapply hoareX_seq; [exact (hoareX_pure crowded _ _ _ Ech)|]. intros _ ->. rewrite Hch.
  destruct (parent && bool_decide (components q = [])) eqn:Elast.
  { apply andb_prop in Elast as [Hpar Hcq]. apply bool_decide_eq_true in Hcq. rewrite Hcq. by apply (last_step ip n hx ic1 e m). }
  destruct (holds_name_key nm e Hnm) as [Hstr Hkey]; [|done|].
  { intros z Hz. apply Hp, (components_in p e z); [|done]. rewrite Hcs. by left. }
  apply (enter_step ip n c m hx); try done.
  - split_and!; [|done|done]. apply arr_get_Ok in Hx as [_ Hk]. by destruct (co_use _ _ _ Hco _ x Hk Hr) as [? _].
  - intros nx n' x' ic' Hco' Hs'. apply (IH q nm nx n' x' ic'); [lia|done|done|apply (hn_len _ _ Hnm)|done|done|done].
Qed.
End walk.
End namei.

(** The inode a path starts at. *)
Definition path_start (p : list Z) (cwd : Z) : Z := match p with c :: _ => if c =? SLASH then ROOTINO else cwd | [] => cwd end.

(** C8. Path names.  When the disk holds the graph [D] of inodes and directories, and the inodes in use are
    those of the graph and unlocked, [namex] on a path that ends in a nul byte walks the graph along the
    components of the path, from the root directory or the current one: [namei] gets the inode it reaches,
    [nameiparent] the directory of the last component, with this component in the buffer, and both null
    when a component is missing or is not a directory.  On return no inode is locked, there is one more
    reference to the result and as many to every other inode as before, and the disk has not changed.  The
    only other outcomes are the panics for a full disk, log, buffer cache or inode cache. *)
Theorem namex_resolves mypid N st sz data0 sb dev_read D C ic parent cwd w p t name :
  layout N st sz data0 sb -> on_disk N data0 sb D C -> cache_ok D None ic -> is_Some (D !! ROOTINO) ->
  arr_get ic cwd = Ok w -> 0 < i_ref w ->
  (forall z, z ∈ p -> z <> 0) -> Forall is_byte (p ++ 0 :: t) -> zlen name = DIRSIZ -> Forall is_byte name ->
  hoareX crowded (fsr N st sz C ∅ ∅ sb ic) (namex mypid dev_read cwd (p ++ 0 :: t) parent name)
    (walked N st sz sb D C ic parent (path_start p (i_inum w)) (components p)).
Proof.
  intros Hly HD Hco Hroot Hw Hwr Hp Hpb Hl Hb. unfold namex.
  assert (exists c, arr_get (p ++ 0 :: t) 0 = Ok c /\ path_start p (i_inum w) = if c =? SLASH then ROOTINO else i_inum w) as (c & Ec & ->).
  { destruct p as [|c p]; [by exists 0|by exists c]. }
  eapply hoareX_seq; [exact (hoareX_pure crowded _ _ _ Ec)|]. intros _ ->.
  eapply hoareX_bind with (Q := fun ip f => exists ic' x, (cache_ok D None ic' /\
    stands ic ip (if c =? SLASH then ROOTINO else i_inum w) x ic') /\ fsr N st sz C ∅ ∅ sb ic' f).
  - assert (forall inum ip ic', got ic inum ip ic' -> is_Some (D !! inum) -> exists x, cache_ok D None ic' /\ stands ic ip inum x ic') as Hgot.
    { intros inum ip ic' Hg Hin. destruct (got_step D None ic inum ip ic' Hco Hg Hin) as (Hco' & Hrefs & x & Hx & Hr & Hn). by exists x. }
    destruct (c =? SLASH).
    + eapply hoareX_post; [apply iget_spec|]. intros ip f (ic' & Hg & Hf). destruct (Hgot _ _ _ Hg Hroot) as (x & H). by exists ic', x.
    + apply arr_get_Ok in Hw as Hk. destruct Hk as [_ Hk]. destruct (co_use _ _ _ Hco _ w Hk Hwr) as (Hd & c' & m & Hc & _).
      destruct (Hgot (i_inum w) cwd _ (got_active ic (i_inum w) cwd w Hw Hwr Hd eq_refl) ltac:(by eexists)) as (x & H).
      unfold idup. eapply hoareX_bind; [apply on_crowded; eapply inode_upd_spec; [exact Hw|by apply arr_set_ok, (arr_get_bound _ _ _ Hw)]|].
      intros [] f Hf. eexists _, x. split; [exact H|exact Hf].
  - intros ip. apply hoareX_ex. intros ic'. apply hoareX_ex. intros x. apply hoareX_and. intros [Hco' Hs].
    apply (namex_loop_spec mypid N st sz data0 sb dev_read Hly D C ic parent t HD _ p name ip _ x); try done. rewrite length_app. lia.
Qed.

(** ** An example: the files that mkfs makes *)

Definition demo_graph (c1 c2 c3 : dinode) : graph := {[1 := (c1, demo_map); 2 := (c2, ∅); 3 := (c3, ∅)]}.

Lemma demo_at c1 c2 c3 : demo_graph c1 c2 c3 !! 1 = Some (c1, demo_map) /\ demo_graph c1 c2 c3 !! 2 = Some (c2, ∅) /\
  demo_graph c1 c2 c3 !! 3 = Some (c3, ∅).
Proof.
  unfold demo_graph. split_and!.
  - apply lookup_insert_eq.
  - rewrite lookup_insert_ne by done. apply lookup_insert_eq.
  - rewrite !lookup_insert_ne by done. apply lookup_singleton_eq.
Qed.

Lemma demo_lookup c1 c2 c3 n c m : demo_graph c1 c2 c3 !! n = Some (c, m) ->
  n = 1 /\ c = c1 /\ m = demo_map \/ n = 2 /\ c = c2 /\ m = ∅ \/ n = 3 /\ c = c3 /\ m = ∅.
Proof.
  unfold demo_graph. rewrite !lookup_insert_Some, lookup_singleton_Some. intros [[<- [= <- <-]]|[_ [[<- [= <- <-]]|[_ [<- [= <- <-]]]]]]; tauto.
Qed.

Lemma demo_closed k n' : demo_map !! k = Some n' -> n' = 1 \/ n' = 2 \/ n' = 3.
Proof.
  unfold demo_map. rewrite !lookup_insert_Some, lookup_singleton_Some.
  intros [[_ <-]|[_ [[_ <-]|[_ [[_ <-]|[_ [_ <-]]]]]]]; tauto.
Qed.

(** The inodes of the example, in use and unlocked. *)
Definition in_use_as (n : Z) (c : dinode) : inode :=
  {| i_dev := 1; i_inum := n; i_ref := 1; i_lock := {| locked := 0; pid := 0 |}; i_valid := 1; i_copy := c |}.
Definition demo_cache (c1 c2 c3 : dinode) : list inode := [in_use_as 1 c1; in_use_as 2 c2; in_use_as 3 c3].

Lemma demo_cache_ok c1 c2 c3 : cache_ok (demo_graph c1 c2 c3) None (demo_cache c1 c2 c3).
Proof.
  destruct (demo_at c1 c2 c3) as (H1 & H2 & H3).
  constructor; intros k x Hx; (destruct k as [|[|[|k]]]; cbn in Hx; [injection Hx as <-..|done]); try done;
    intros _; (split; [done|]); eexists _, _; (split; [eassumption|done]).
Qed.

Lemma image_inode F C ic (k : Z) b : holds FSSIZE nmeta mksb F C (referenced ic) -> image_inodes ic -> F !! k = Some b ->
  exists c, mk_file C (in_use_as (1 + k) c) b /\ d_nlink c = 1 /\ d_type c = if decide (k = 0) then T_DIR else T_FILE.
Proof.
  intros Hh Hi Hk. destruct (ho_file _ _ _ _ _ _ Hh k b Hk) as (x & Hx & Hfa). apply arr_get_Ok in Hx as [H0 Hx].
  unfold referenced in Hx. rewrite list_lookup_fmap in Hx. apply fmap_Some in Hx as (y & Hy & ->).
  destruct (Hi _ _ Hy) as (Hn & Hl & Ht). exists (i_copy y). split.
  - apply (file_at_ext nmeta mksb C (with_ref y 1)); [done|symmetry; apply (fa_dev _ _ _ _ _ Hfa)| |done]. cbn. rewrite Hn. lia.
  - split; [done|]. rewrite Ht. destruct (decide (k = 0)) as [->|Hne]; [done|]. rewrite decide_False by lia. done.
Qed.

(** The disk and the cache of the booted kernel. *)
Lemma demo_disk : exists f C c1 c2 c3, on_disk FSSIZE nmeta mksb (demo_graph c1 c2 c3) C /\ d_type c1 = T_DIR /\
  fsr FSSIZE 2 30 C ∅ ∅ mksb (demo_cache c1 c2 c3) f.
Proof.
  destruct (image_state demo_files demo_files_fit) as (f & C & ic & Hi & Hh & _ & Hf).
  assert (image_files demo_files = {[0 := root_dir demo_files ++ padding 64; 1 := [1; 2; 3; 4; 5]; 2 := []]}) as E by (vm_compute; reflexivity).
  rewrite E in Hh. destruct (image_inode _ C ic 0 _ Hh Hi eq_refl) as (c1 & F1 & L1 & T1), (image_inode _ C ic 1 _ Hh Hi eq_refl) as (c2 & F2 & L2 & T2),
    (image_inode _ C ic 2 _ Hh Hi eq_refl) as (c3 & F3 & L3 & T3). cbn in T1, T2, T3.
  exists (with_icache f (demo_cache c1 c2 c3)), C, c1, c2, c3. split; [|split; [done|apply Hf]]. constructor.
  - apply Hh.
  - intros n c m [(-> & -> & _)|[(-> & -> & _)|(-> & -> & _)]]%demo_lookup; [pose proof F1 as Fx|pose proof F2 as Fx|pose proof F3 as Fx];
      (split; [apply (fa_inum _ _ _ _ _ Fx)|]); (split; [by rewrite ?T1, ?T2, ?T3|]); (split; [by rewrite ?L1, ?L2, ?L3|]);
      apply (fa_synced _ _ _ _ _ Fx).
  - intros n c m x [(-> & -> & ->)|[(-> & -> & _)|(-> & -> & _)]]%demo_lookup Ht (Hd & Hn & Hc); [|by rewrite ?T2, ?T3 in Ht..].
    exists (root_dir demo_files ++ padding 64), demo_entries. split; [|apply demo_root].
    by apply (file_at_ext nmeta mksb C (in_use_as (1 + 0) c1)).
  - intros n m k n' Hdir Hk. unfold dir_of in Hdir. destruct (demo_graph c1 c2 c3 !! n) as [[c m']|] eqn:En; [|done]. cbn in Hdir.
    destruct (d_type c =? T_DIR); [|done]. injection Hdir as ->.
    apply demo_lookup in En as [(-> & _ & ->)|[(_ & _ & ->)|(_ & _ & ->)]]; [|by rewrite lookup_empty in Hk..].
    destruct (demo_at c1 c2 c3) as (H1 & H2 & H3). apply demo_closed in Hk as [->|[->| ->]]; by eexists.
Qed.

(** The path [/sh] is the inode 2. *)
Lemma namex_resolves_witness : exists f C c1 c2 c3, fsr FSSIZE 2 30 C ∅ ∅ mksb (demo_cache c1 c2 c3) f /\
  match namex 1 (fun _ => None) 0 ([47; 115; 104] ++ [0]) false (replicate 14 0) f with
  | Ok (r, f') => exists ip ic x, r.1 = Some ip /\ arr_get ic ip = Ok x /\ i_inum x = 2 /\ fsr FSSIZE 2 30 C ∅ ∅ mksb ic f'
  | Err => False
  | Fault e => crowded e
  end.
Proof.
  destruct demo_disk as (f & C & c1 & c2 & c3 & HD & Ht & Hf). exists f, C, c1, c2, c3. split; [exact Hf|].
  pose proof (namex_resolves 1 FSSIZE 2 30 nmeta mksb (fun _ => None) (demo_graph c1 c2 c3) C (demo_cache c1 c2 c3) false 0 (in_use_as 1 c1)
    [47; 115; 104] [] (replicate 14 0) mk_layout HD (demo_cache_ok c1 c2 c3) ltac:(eexists; apply demo_at) eq_refl eq_refl) as H.
  specialize (H ltac:(intros z Hz; set_solver by lia) ltac:(apply (bool_decide_unpack _); vm_compute; done) eq_refl
    ltac:(apply (bool_decide_unpack _); vm_compute; done) f Hf).
  destruct (namex _ _ _ _ _ _ f) as [[r f']| |]; [|exact H..]. destruct H as (ic & [[_ H] _] & Hf').
  assert (resolve (demo_graph c1 c2 c3) false 1 [[115; 104]] = Some 2) as E.
  { cbn [resolve]. unfold dir_of. rewrite (proj1 (demo_at c1 c2 c3)). cbn [mbind option_bind]. rewrite Ht. reflexivity. }
  change (components [47; 115; 104]) with [[115; 104]] in H. change (path_start [47; 115; 104] (i_inum (in_use_as 1 c1))) with 1 in H.
  rewrite E in H. destruct H as (ip & x & Hr & [Hx _ Hn _]). exists ip, ic, x. done.
Defined.
